(* ===== verification/_CoqProject ===== *)
-Q . S2P
Prelude.v
CString.v
Grep.v
MyAlloc.v
Locks.v
Proc.v
ProcFacts.v
Wakeup.v
Syscall.v
SyscallFacts.v
Kalloc.v
Pipe.v
Bio.v
Ide.v
IdeFacts.v
Boot.v
BootFacts.v
Mp.v
MpFacts.v
Apic.v
ApicFacts.v
Log.v
LogFacts.v
Shell.v
ShellFacts.v
Vm.v
VmFacts.v
VmSpec.v
Fs.v
Console.v
ConsoleFacts.v
Kbd.v
KbdFacts.v
Printf.v
Umalloc.v
UmallocFacts.v
ConsoleSpec.v
Programs.v
ProgramsFacts.v
FsTx.v
FsBlocks.v
FsInode.v
FsFile.v
FsRW.v
FsTrunc.v
FsCache.v
FsDir.v
FsPath.v
FsSpec.v
FsDirSpec.v
Mkfs.v
MkfsFacts.v
MkfsSpec.v
FsRefs.v
File.v
FileFacts.v
Sysfile.v
Exec.v
SysfileFacts.v
