(* ===== verification/Prelude.v ===== *)
(** * Operating-systems course projects: verification library

    The repository holds four projects.  Projects 1 and 2 are two copies of the
    teaching kernel xv6 for x86 (with a stride scheduler in project 2),
    project 3 is a Unix shell and project 4 a memory allocator.  The kernel is
    modelled from project 2, the later copy; from project 1 only the system
    call it alone has.

    ** Parts, files and sources

    [cs350-21f-proj2-psammon-main/], user side and library code
    - [CString]: [string.c] ([Str]) and the string half of [ulib.c] ([Ulib]),
      over byte memory.
    - [Grep]: the pattern matcher and the line splitter of [grep.c].
    - [Shell] ([ShLex], [Sh]), [ShellFacts]: [sh.c]: lexer, parser with the
      pointers it keeps into the line, NUL-termination, and [runcmd] as the
      sequence of system calls it makes over a table of descriptors.
    - [Printf]: [printf.c].
    - [Umalloc], [UmallocFacts]: [umalloc.c], the allocator of programs, over
      the bytes of the process.
    - [Programs], [ProgramsFacts]: [cat.c], [wc.c], [ls.c], [init.c] and the
      other small programs, against a class of the system calls ([Unix]) and
      its laws ([UnixLaws]).
    - [Mkfs], [MkfsFacts], [MkfsSpec]: [mkfs.c], which builds the first disk on
      the host, up to the kernel that mounts it.

    The kernel
    - [Locks]: [spinlock.c] twice, as a step relation over any number of CPUs
      ([Spin]) and as what one CPU does with its interrupt nesting ([Cli]); and
      [sleeplock.c] ([Sleep]).
    - [Proc], [ProcFacts]: [proc.c]: process table, [fork], [exit], [wait],
      [sleep], [wakeup], [kill], and both schedulers.  [Wakeup]: [sleep] and
      [wakeup] run by several CPUs, their atomic steps interleaved in any way
      ([Smp]), with the scheduler's part in taking a process off a CPU and up
      again.
    - [Syscall], [SyscallFacts]: [syscall.c] ([Syscall]), [sysproc.c]
      ([Sysproc]) and [trap] of [trap.c] ([Trap]).
    - [Kalloc]: [kalloc.c]: the free list threaded through the pages.
    - [Vm], [VmFacts], [VmSpec]: [vm.c]: two-level page tables read out of the
      bytes of their pages.
    - [Pipe]: [pipe.c].
    - [Bio]: [bio.c] over the memory disk of [memide.c].
    - [Log], [LogFacts]: [log.c] over [Bio].
    - [Fs]: [fs.c], every function, over [Log]; an inode is read from and
      written to the bytes of its block.  [FsTx] (a transaction in progress, the
      blocks it sees and what a crash leaves), [FsBlocks] ([balloc], [bfree],
      the bitmap), [FsInode] ([iupdate], [ilock], [iunlock]), [FsFile] ([bmap],
      the content of a file), [FsRW] ([readi], [writei]), [FsTrunc] ([itrunc]),
      [FsCache] ([iget], [ialloc], [iput]), [FsDir] (directories as maps),
      [FsPath] (path names as walks in the tree of directories) carry its
      lemmas; [FsSpec] and [FsDirSpec] its properties; [FsRefs] what each
      operation does to the counts of references.
    - [File], [FileFacts]: [file.c], with [pipealloc] and [pipeclose].
    - [Sysfile], [Exec], [SysfileFacts]: [sysfile.c] and [exec.c].
    - [Console], [ConsoleFacts], [ConsoleSpec]: [console.c], with [uartputc].
    - [Kbd], [KbdFacts]: [kbd.c] and [kbd.h], and the rest of [uart.c]: where the
      characters of the console come from.
    - [Ide], [IdeFacts]: [ide.c], the driver of a disk behind ports, which takes
      the place of [memide.c].
    - [Boot], [BootFacts]: [bootmain.c]; [Mp], [MpFacts]: [mp.c] and [tvinit];
      [Apic], [ApicFacts]: [lapic.c], [ioapic.c] and [picirq.c].

    Project 3 ([cs350-21f-proj3-psammon-main/])
    - [Shell] ([MySh]), [ShellFacts]: [parser.c] and [main.c].

    Project 4 ([cs350-21f-proj4-psammon-main/])
    - [MyAlloc]: [my_malloc.c], [my_free.c], [my_realloc.c],
      [my_mem_allocator.c].

    ** How the code is modelled

    A C function is a state-passing function [M S A] (below) that returns,
    panics, goes to sleep (its state is then what other threads see), follows
    a wild pointer ([Fault]), or runs out of the fuel of a loop ([NoFuel]).
    Integers are [Z] with the casts of the code written out ([u32], [i32]);
    memory is a function from addresses to bytes.  A component that calls
    another does so through the other's operations on its part of the state
    ([zoom]), or, where many calls go out ([Proc.Services], [Cli.SpinState]),
    through a class with its laws.  What other threads and CPUs do while a
    process sleeps is an argument, so the theorems hold for anything they do.
    Where what matters is that others act between two steps, the code is a
    sequence of atomic steps ([Spin.step], [Proc.kcode]) under an interleaving
    step relation; one definition of [sleep] and [wakeup] serves both views.
    Each file has the code first; its invariant, lemmas and properties follow,
    in a file of their own where they are long ([...Facts], [...Spec]).

    ** What is shown

    - Memory: [kalloc] hands out distinct pages and loses none; an address
      space gives back exactly the pages it took, whatever the process asked
      for; [copyuvm] makes a private copy; [copyout] stays inside user memory.
    - Processes: spin locks exclude each other; pids stay unique; no
      wake-up is lost in any interleaving of several CPUs, and nobody is left
      waiting for one; [exit] and [wait] do what they say; stride scheduling is
      fair; system call arguments are checked; a killed process does not
      return to user mode.
    - Storage: the block cache is transparent; a transaction is atomic across
      a crash at any disk write of the commit, and recovery may itself crash.
    - Files: the blocks of the files stay apart; [balloc] hands out free blocks
      and [itrunc] gives them back; [writei] and [readi] are updates and reads
      of the content; a file write is atomic across a crash; directories are
      maps from names to inode numbers, and a path name leads where the tree of
      directories says; no system call on files, [exec] included, loses or
      invents a reference or leaves an inode locked, on any path.
    - Console: the interrupt edits lines, [consoleread] reads from them, and
      both kinds of formatted printing print one reference text.
    - Devices: the disk driver, with its queue and its interrupts, does what the
      memory disk does, one request after another; the keyboard's codes are read
      as keys under modifiers; the boot loader brings the kernel's segments to
      their places; the processors the tables name are found, and an entry of
      unknown type holds [mpinit] for ever.
    - The first disk: what [mkfs] writes is mounted as the tree of the files it
      was given.
    - Pipes refine a bounded queue.
    - User programs: the shell parses back what is printed, its parsers stay
      in bounds and end on every line, a pipeline leaks no descriptor; [grep]
      decides the language of the pattern; [malloc] and [free] keep a list of
      blocks that shares no byte with the blocks in use, whatever the program
      writes into them; [cat] copies and [wc] counts, however reads split a file.
    - Project 4: [my_malloc] refines first fit (best fit, which a policy asks
      for, is not there); [my_free] refines an ordered
      insertion with one pass of merging, and merges memory still in use.

    ** Fuel

    Loops whose length the data bounds take that bound as fuel (a number of
    pages, blocks, bytes of a line), and the theorems say that they return, so
    the fuel is enough.  Where a loop waits for others, its turns are the
    elements of the list of what the others do.

    ** Not modelled

    Assembly ([bootasm.S], [entry.S], [entryother.S], [swtch.S], [trapasm.S],
    [initcode.S]) and [main.c], which calls the initialisations of the other
    parts in order.  Devices are modelled up to their ports and registers: what a
    disk, a clock or a local APIC answers is an argument, with the behaviour the
    code relies on as hypotheses ([IdeFacts.ata_device]) that a concrete device
    has.  The test programs ([usertests.c], [schdtest.c], [stressfs.c],
    [forktest.c], [fork_rc_test.c], [sleep_and_echo.c], the tests of project 4)
    call what is modelled.  Of the shell of project 3, signals, exit-status
    messages and the printing of commands are left out.  Project 1's copies of
    the files of project 2 are the same code or an earlier state of it. *)

From stdpp Require Export base numbers list list_numbers gmap strings.
From Stdlib Require Export ZArith Lia.

#[global] Open Scope Z_scope.
#[global] Set Default Goal Selector "!".

(** ** Machine integers

    A w-bit C integer is a [Z]; a conversion or an arithmetic operation that
    can wrap says so by an explicit cast. *)

Definition u8 (z : Z) : Z := z mod 256.
Definition u16 (z : Z) : Z := z mod 65536.
Definition u32 (z : Z) : Z := z mod 4294967296.
Definition u64 (z : Z) : Z := z mod 18446744073709551616.
Definition i32 (z : Z) : Z := (z + 2147483648) mod 4294967296 - 2147483648.

Create HintDb cint.
Create Rewrite HintDb cint.

Lemma u8_small z : 0 <= z < 256 -> u8 z = z.
Proof. apply Z.mod_small. Qed.
Lemma u16_small z : 0 <= z < 65536 -> u16 z = z.
Proof. apply Z.mod_small. Qed.
Lemma u32_small z : 0 <= z < 4294967296 -> u32 z = z.
Proof. apply Z.mod_small. Qed.
Lemma u64_small z : 0 <= z < 18446744073709551616 -> u64 z = z.
Proof. apply Z.mod_small. Qed.
Lemma i32_small z : -2147483648 <= z < 2147483648 -> i32 z = z.
Proof. intros. unfold i32. rewrite Z.mod_small; lia. Qed.

Lemma u8_range z : 0 <= u8 z < 256.
Proof. by apply Z.mod_pos_bound. Qed.
Lemma u16_range z : 0 <= u16 z < 65536.
Proof. by apply Z.mod_pos_bound. Qed.
Lemma u32_range z : 0 <= u32 z < 4294967296.
Proof. by apply Z.mod_pos_bound. Qed.
Lemma u64_range z : 0 <= u64 z < 18446744073709551616.
Proof. by apply Z.mod_pos_bound. Qed.
Lemma i32_range z : -2147483648 <= i32 z < 2147483648.
Proof. unfold i32. pose proof (Z.mod_pos_bound (z + 2147483648) 4294967296). lia. Qed.

#[export] Hint Rewrite u8_small u16_small u32_small u64_small i32_small
  using lia : cint.
#[export] Hint Resolve u8_range u16_range u32_range u64_range i32_range : cint.

(** [u32] is congruence modulo 2^32: casts inside a cast may be dropped. *)
Lemma u32_add_l a b : u32 (u32 a + b) = u32 (a + b).
Proof. unfold u32. by rewrite Zplus_mod_idemp_l. Qed.
Lemma u32_add_r a b : u32 (a + u32 b) = u32 (a + b).
Proof. unfold u32. by rewrite Zplus_mod_idemp_r. Qed.
Lemma u32_sub_l a b : u32 (u32 a - b) = u32 (a - b).
Proof. unfold u32. by rewrite Zminus_mod_idemp_l. Qed.
Lemma u32_sub_r a b : u32 (a - u32 b) = u32 (a - b).
Proof. unfold u32. by rewrite Zminus_mod_idemp_r. Qed.
Lemma u32_idemp a : u32 (u32 a) = u32 a.
Proof. unfold u32. by rewrite Zmod_mod. Qed.
Lemma i32_of_u32 a : i32 (u32 a) = i32 a.
Proof. unfold i32, u32. by rewrite Zplus_mod_idemp_l. Qed.
Lemma u32_of_i32 a : u32 (i32 a) = u32 a.
Proof.
  unfold i32, u32. rewrite Zminus_mod_idemp_l. f_equal. lia.
Qed.

#[export] Hint Rewrite u32_add_l u32_add_r u32_sub_l u32_sub_r u32_idemp : cint.

(** Discharge the casts whose argument is visibly in range. *)
Ltac wraps := autorewrite with cint in *.

(** ** Outcomes of kernel and library code

    A function of the C code run in state [s] returns a value, panics, goes to
    sleep on a channel (the state is the one other threads see), follows a
    wild or null pointer, or does not finish within the fuel of its loops. *)

Inductive outcome (S A : Type) : Type :=
| Ret (a : A) (s : S)
| Panic (msg : string)
| Asleep (chan : Z) (s : S)
| Fault
| NoFuel.
Arguments Ret {S A} a s.
Arguments Panic {S A} msg.
Arguments Asleep {S A} chan s.
Arguments Fault {S A}.
Arguments NoFuel {S A}.

(** The value a run returns, if it returns. *)
Definition value_of {S A} (o : outcome S A) : option A :=
  match o with Ret a _ => Some a | _ => None end.

Definition M (S A : Type) : Type := S -> outcome S A.

Definition ret {S A} (a : A) : M S A := fun s => Ret a s.
Definition bind {S A B} (m : M S A) (k : A -> M S B) : M S B :=
  fun s =>
    match m s with
    | Ret a s' => k a s'
    | Panic msg => Panic msg
    | Asleep c s' => Asleep c s'
    | Fault => Fault
    | NoFuel => NoFuel
    end.
Definition get {S} : M S S := fun s => Ret s s.
Definition gets {S A} (f : S -> A) : M S A := fun s => Ret (f s) s.
Definition modify {S} (f : S -> S) : M S unit := fun s => Ret tt (f s).
Definition panic {S A} (msg : string) : M S A := fun _ => Panic msg.
Definition fault {S A} : M S A := fun _ => Fault.
Definition from_opt {S A} (o : option A) : M S A :=
  match o with Some a => ret a | None => fault end.

(** Arithmetic on a signed [int]: overflow is undefined behaviour. *)
Definition int_ok (z : Z) : bool := (-2147483648 <=? z) && (z <=? 2147483647).
Definition to_int {S} (z : Z) : M S Z := if int_ok z then ret z else fault.

Declare Scope c_scope.
Delimit Scope c_scope with C.
Notation "'let!' x ':=' m 'in' k" := (bind m (fun x => k))
  (at level 10, x pattern, m at level 100, k at level 200) : c_scope.
Notation "m ;;; k" := (bind m (fun _ => k))
  (at level 100, right associativity) : c_scope.
#[global] Open Scope c_scope.

Lemma bind_ret_l {S A B} (a : A) (k : A -> M S B) s : bind (ret a) k s = k a s.
Proof. done. Qed.

Lemma bind_ret_inv {S A B} (m : M S A) (k : A -> M S B) s b s'' :
  bind m k s = Ret b s'' -> exists a s', m s = Ret a s' /\ k a s' = Ret b s''.
Proof. unfold bind. destruct (m s); naive_solver. Qed.

Lemma bind_eq {S A B} (m : M S A) (k : A -> M S B) s a s' :
  m s = Ret a s' -> bind m k s = k a s'.
Proof. unfold bind. by intros ->. Qed.

Lemma bind_ext {S A B} (m m' : M S A) (k k' : A -> M S B) s :
  m s = m' s -> (forall a s', k a s' = k' a s') -> bind m k s = bind m' k' s.
Proof. unfold bind. intros -> H. by destruct (m' s). Qed.

(** Take a successful run apart, one bind at a time. *)
Ltac inv_bind :=
  repeat match goal with
  | H : bind _ _ _ = Ret _ _ |- _ =>
      apply bind_ret_inv in H; destruct H as (? & ? & ? & H)
  | H : Ret _ _ = Ret _ _ |- _ => injection H as <- <- || injection H as ? ?
  | H : Panic _ = Ret _ _ |- _ => discriminate H
  | H : Asleep _ _ = Ret _ _ |- _ => discriminate H
  | H : Fault = Ret _ _ |- _ => discriminate H
  | H : NoFuel = Ret _ _ |- _ => discriminate H
  end.

(** Run a component's operation on a part of a larger state. *)
Definition zoom {S T A} (get : S -> T) (set : T -> S -> S) (m : M T A) : M S A :=
  fun s =>
    match m (get s) with
    | Ret a t => Ret a (set t s)
    | Panic msg => Panic msg
    | Asleep c t => Asleep c (set t s)
    | Fault => Fault
    | NoFuel => NoFuel
    end.

(** A loop whose body says whether to go on ([inl]) or to leave ([inr]). *)
Fixpoint loop {S A B} (fuel : nat) (body : A -> M S (A + B)) (a : A) : M S B :=
  match fuel with
  | O => fun _ => NoFuel
  | S fuel' =>
      let! r := body a in
      match r with
      | inl a' => loop fuel' body a'
      | inr b => ret b
      end
  end.

(** [for (x in l) body x], in order. *)
Fixpoint for_each {S A} (l : list A) (body : A -> M S unit) : M S unit :=
  match l with
  | [] => ret tt
  | x :: l' => body x ;;; for_each l' body
  end.

(** ** Byte-addressed memory *)

Definition mem : Type := Z -> Z.

Definition mset (m : mem) (a v : Z) : mem := fun x => if x =? a then v else m x.

Lemma mset_eq m a v : mset m a v a = v.
Proof. unfold mset. by rewrite Z.eqb_refl. Qed.
Lemma mset_ne m a v x : x <> a -> mset m a v x = m x.
Proof. unfold mset. intros. by rewrite (proj2 (Z.eqb_neq _ _)). Qed.

(** ** Words in byte memory, little-endian *)

Definition ld32 (m : mem) (a : Z) : Z :=
  m a + 256 * m (a + 1) + 65536 * m (a + 2) + 16777216 * m (a + 3).
Definition st32 (m : mem) (a v : Z) : mem :=
  mset (mset (mset (mset m a (v mod 256)) (a + 1) (v / 256 mod 256))
    (a + 2) (v / 65536 mod 256)) (a + 3) (v / 16777216 mod 256).

Lemma st32_other m a v x : x < a \/ a + 4 <= x -> st32 m a v x = m x.
Proof. intros H. unfold st32. rewrite !mset_ne by lia. done. Qed.

Lemma ld32_st32 m a v : 0 <= v < 4294967296 -> ld32 (st32 m a v) a = v.
Proof.
  intros Hv. unfold ld32, st32.
  rewrite (mset_ne _ (a + 3) _ a), (mset_ne _ (a + 2) _ a), (mset_ne _ (a + 1) _ a), mset_eq by lia.
  rewrite (mset_ne _ (a + 3) _ (a + 1)), (mset_ne _ (a + 2) _ (a + 1)), mset_eq by lia.
  rewrite (mset_ne _ (a + 3) _ (a + 2)), mset_eq, mset_eq by lia.
  rewrite (Z.mod_small (v / 16777216)) by (split; [apply Z.div_pos|apply Z.div_lt_upper_bound]; lia).
  replace (v / 65536) with (v / 256 / 256) by (rewrite Z.div_div by lia; f_equal; lia).
  replace (v / 16777216) with (v / 256 / 256 / 256) by (rewrite !Z.div_div by lia; f_equal; lia).
  pose proof (Z.div_mod v 256). pose proof (Z.div_mod (v / 256) 256).
  pose proof (Z.div_mod (v / 256 / 256) 256). lia.
Qed.

Lemma ld32_ext m m' a :
  (forall x, a <= x < a + 4 -> m' x = m x) -> ld32 m' a = ld32 m a.
Proof. intros H. unfold ld32. rewrite !H by lia. done. Qed.

(** ** Booleans: turn comparisons into propositions *)

Create Rewrite HintDb cbool.
#[export] Hint Rewrite andb_true_iff orb_true_iff andb_false_iff orb_false_iff
  negb_true_iff negb_false_iff Z.eqb_eq Z.eqb_neq Z.ltb_lt Z.ltb_ge
  Z.leb_le Z.leb_gt Z.gtb_ltb Z.geb_leb : cbool.

Ltac bools := autorewrite with cbool in *.

(** Case analysis on the condition of the first [if] on integers. *)
Ltac case_if :=
  match goal with
  | |- context [if ?b then _ else _] =>
      lazymatch type of b with bool => destruct b eqn:? end
  end; bools.
Ltac case_if_in H :=
  match type of H with
  | context [if ?b then _ else _] =>
      lazymatch type of b with bool => destruct b eqn:? end
  end; bools.

(** ** Lists *)

(** The first index at which a boolean test holds: the usual table scan. *)
Fixpoint find_idx {A} (f : A -> bool) (l : list A) : option nat :=
  match l with
  | [] => None
  | x :: l' => if f x then Some 0%nat else S <$> find_idx f l'
  end.

Lemma find_idx_Some {A} (f : A -> bool) l i :
  find_idx f l = Some i <->
  exists x, l !! i = Some x /\ f x = true /\
            forall j y, (j < i)%nat -> l !! j = Some y -> f y = false.
Proof.
  revert i. induction l as [|x l IH]; intros i; simpl.
  { split; [done|]. intros (x & Hx & _). by rewrite lookup_nil in Hx. }
  destruct (f x) eqn:Hf.
  - split.
    + intros [= <-]. exists x. repeat split; [done|]. intros; lia.
    + intros (y & Hy & Hfy & Hall). destruct i as [|i]; [done|].
      exfalso. specialize (Hall 0%nat x ltac:(lia) eq_refl). congruence.
  - split.
    + intros (j & Hj & ->)%fmap_Some. apply IH in Hj as (y & Hy & Hfy & Hall).
      exists y. repeat split; [done..|].
      intros [|k] z Hk Hz; simpl in *; [congruence|].
      apply (Hall k); [lia|done].
    + intros (y & Hy & Hfy & Hall). destruct i as [|i]; simpl in *; [congruence|].
      assert (find_idx f l = Some i) as ->; [|done].
      apply IH. exists y. repeat split; [done..|].
      intros j z Hj Hz. apply (Hall (S j)); [lia|done].
Qed.

Lemma find_idx_None {A} (f : A -> bool) l :
  find_idx f l = None <-> Forall (fun x => f x = false) l.
Proof.
  induction l as [|x l IH]; simpl; [done|].
  rewrite Forall_cons, <- IH. destruct (f x) eqn:?.
  - split; [done|]. intros [? _]. congruence.
  - rewrite fmap_None. tauto.
Qed.

Lemma find_idx_lt {A} (f : A -> bool) l i :
  find_idx f l = Some i -> (i < length l)%nat.
Proof. intros (x & Hx & _)%find_idx_Some. by apply lookup_lt_Some in Hx. Qed.

(** Permutations of lists of integers, by counting: a goal that follows from
    the permutations in the context by reordering and cancelling. *)
Definition count (l : list Z) (x : Z) : Z := Z.of_nat (count_occ Z.eq_dec l x).
Definition one_of (y x : Z) : Z := if Z.eq_dec y x then 1 else 0.
Lemma count_nil x : count [] x = 0.
Proof. done. Qed.
Lemma count_cons y l x : count (y :: l) x = one_of y x + count l x.
Proof. unfold count, one_of. cbn. destruct (Z.eq_dec y x); lia. Qed.
Lemma count_app l k x : count (l ++ k) x = count l x + count k x.
Proof. unfold count. rewrite count_occ_app. lia. Qed.
Lemma count_perm l k : l ≡ₚ k <-> forall x, count l x = count k x.
Proof.
  rewrite (Permutation_count_occ Z.eq_dec). unfold count.
  split; intros H x; [by rewrite H|]. specialize (H x). lia.
Qed.

Ltac perm_solve :=
  repeat match goal with
  | H : _ ≡ₚ _ |- _ => rewrite count_perm in H
  end;
  rewrite count_perm;
  let x := fresh "x" in
  intros x;
  repeat match goal with
  | H : forall _, count _ _ = count _ _ |- _ =>
      specialize (H x); repeat rewrite ?count_app, ?count_cons, ?count_nil in H
  end;
  repeat rewrite ?count_app, ?count_cons, ?count_nil; lia.

(** Lemmas on updating one slot of a table, used by every table scan. *)
Lemma alter_lookup_eq {A} (f : A -> A) (l : list A) i x :
  l !! i = Some x -> alter f i l !! i = Some (f x).
Proof. intros H. by rewrite list_lookup_alter_eq, H. Qed.

Lemma lookup_alter_Some {A} (f : A -> A) (l : list A) i j y :
  alter f i l !! j = Some y <->
  (i = j /\ exists x, l !! j = Some x /\ y = f x) \/ (i <> j /\ l !! j = Some y).
Proof.
  rewrite list_lookup_alter. case_decide as H.
  - rewrite fmap_Some. naive_solver.
  - naive_solver.
Qed.

(** A projection that an update leaves alone. *)
Lemma fmap_alter_same {A B} (g : A -> B) (f : A -> A) (l : list A) i :
  (forall x, g (f x) = g x) -> g <$> alter f i l = g <$> l.
Proof.
  intros H. apply list_eq. intros j. rewrite !list_lookup_fmap, list_lookup_alter.
  case_decide; [|done]. subst j. destruct (l !! i) as [x|]; [|done].
  change (Some (g (f x)) = Some (g x)). by rewrite H.
Qed.

Lemma alter_alter {A} (f g : A -> A) (l : list A) i :
  alter f i (alter g i l) = alter (fun x => f (g x)) i l.
Proof.
  apply list_eq. intros j. rewrite !list_lookup_alter.
  repeat case_decide; subst; try done. by destruct (l !! j).
Qed.

Lemma alter_insert {A} (f : A -> A) (l : list A) i x :
  l !! i = Some x -> alter f i l = <[i := f x]> l.
Proof.
  intros H. apply list_eq. intros j. rewrite list_lookup_alter, list_lookup_insert.
  repeat case_decide; subst; try naive_solver.
  - by rewrite H.
  - exfalso. apply lookup_lt_Some in H. naive_solver.
Qed.
