(* ===== verification/CString.v ===== *)
(** * C string and memory routines of the kernel and of the user library

    [string.c] (kernel) and the string half of [ulib.c] (user side), over a
    byte-addressed memory: a pointer is an address, a [char] is the byte
    stored there.  The loops that run until a NUL take fuel; the theorems show
    that any fuel above the string length is enough. *)

From S2P Require Import Prelude.

(** ** string.c *)

Module Str.

(** The [rep stosb] and [rep stosl] instructions: fill [n] bytes (words). *)
Definition stosb (m : mem) (dst c n : Z) : mem :=
  fun a => if (dst <=? a) && (a <? dst + n) then u8 c else m a.

Definition stosl (m : mem) (dst data n : Z) : mem :=
  fun a => if (dst <=? a) && (a <? dst + 4 * n)
           then Z.land (Z.shiftr data (8 * ((a - dst) mod 4))) 255 else m a.

Definition memset (m : mem) (dst c n : Z) : mem :=
  if (Z.rem (i32 dst) 4 =? 0) && (n mod 4 =? 0) then
    let c := Z.land c 255 in
    stosl m dst
      (Z.lor (Z.lor (Z.lor (Z.shiftl c 24) (Z.shiftl c 16)) (Z.shiftl c 8)) c)
      (n / 4)
  else stosb m dst c n.

Fixpoint memcmp (m : mem) (s1 s2 : Z) (n : nat) : Z :=
  match n with
  | O => 0
  | S n' => if negb (m s1 =? m s2) then m s1 - m s2
            else memcmp m (s1 + 1) (s2 + 1) n'
  end.

(** [while(n-- > 0) *--d = *--s] *)
Fixpoint copy_back (m : mem) (d s : Z) (n : nat) : mem :=
  match n with
  | O => m
  | S n' => copy_back (mset m (d - 1) (m (s - 1))) (d - 1) (s - 1) n'
  end.

(** [while(n-- > 0) *d++ = *s++] *)
Fixpoint copy_fwd (m : mem) (d s : Z) (n : nat) : mem :=
  match n with
  | O => m
  | S n' => copy_fwd (mset m d (m s)) (d + 1) (s + 1) n'
  end.

Definition memmove (m : mem) (dst src n : Z) : mem :=
  if (src <? dst) && (u32 (src + n) >? dst)
  then copy_back m (dst + n) (src + n) (Z.to_nat n)
  else copy_fwd m dst src (Z.to_nat n).

Definition memcpy (m : mem) (dst src n : Z) : mem := memmove m dst src n.

Fixpoint strncmp (m : mem) (p q : Z) (n : nat) : Z :=
  match n with
  | O => 0
  | S n' => if negb (m p =? 0) && (m p =? m q)
            then strncmp m (p + 1) (q + 1) n'
            else u8 (m p) - u8 (m q)
  end.

(** [while(n-- > 0) *s++ = 0] *)
Fixpoint pad_zero (m : mem) (s : Z) (n : nat) : mem :=
  match n with
  | O => m
  | S n' => pad_zero (mset m s 0) (s + 1) n'
  end.

Fixpoint strncpy_loop (m : mem) (s t : Z) (n : nat) : mem :=
  match n with
  | O => m
  | S n' => let c := m t in
            let m := mset m s c in
            if c =? 0 then pad_zero m (s + 1) n'
            else strncpy_loop m (s + 1) (t + 1) n'
  end.

Definition strncpy (m : mem) (s t n : Z) : mem :=
  strncpy_loop m s t (Z.to_nat n).

(** The copying loop of [safestrcpy]; it returns where [s] stopped. *)
Fixpoint safe_loop (m : mem) (s t : Z) (n : nat) : mem * Z :=
  match n with
  | O => (m, s)
  | S n' => let c := m t in
            let m := mset m s c in
            if c =? 0 then (m, s + 1) else safe_loop m (s + 1) (t + 1) n'
  end.

Definition safestrcpy (m : mem) (s t n : Z) : mem :=
  if n <=? 0 then m
  else let '(m, s) := safe_loop m s t (Z.to_nat (n - 1)) in mset m s 0.

Fixpoint strlen_loop (fuel : nat) (m : mem) (s n : Z) : option Z :=
  match fuel with
  | O => None
  | S fuel' => if m (s + n) =? 0 then Some n
               else strlen_loop fuel' m s (n + 1)
  end.

Definition strlen (fuel : nat) (m : mem) (s : Z) : option Z :=
  strlen_loop fuel m s 0.

End Str.

(** ** ulib.c *)

Module Ulib.

Fixpoint strcpy (fuel : nat) (m : mem) (s t : Z) : option mem :=
  match fuel with
  | O => None
  | S fuel' => let c := m t in
               let m := mset m s c in
               if c =? 0 then Some m else strcpy fuel' m (s + 1) (t + 1)
  end.

Fixpoint strcmp (fuel : nat) (m : mem) (p q : Z) : option Z :=
  match fuel with
  | O => None
  | S fuel' => if negb (m p =? 0) && (m p =? m q)
               then strcmp fuel' m (p + 1) (q + 1)
               else Some (u8 (m p) - u8 (m q))
  end.

Definition strlen (fuel : nat) (m : mem) (s : Z) : option Z :=
  u32 <$> Str.strlen_loop fuel m s 0.

Definition memset (m : mem) (dst c n : Z) : mem := Str.stosb m dst c n.

(** The address of the first [c], or 0 at the terminating NUL. *)
Fixpoint strchr (fuel : nat) (m : mem) (s c : Z) : option Z :=
  match fuel with
  | O => None
  | S fuel' => if m s =? 0 then Some 0
               else if m s =? c then Some s
               else strchr fuel' m (s + 1) c
  end.

(** [read(0, &c, 1)] takes the next byte of the input, if there is one. *)
Fixpoint gets_loop (n : nat) (input : list Z) : list Z * list Z :=
  match n, input with
  | S n', c :: input' =>
      if (c =? 10) || (c =? 13) then ([c], input')
      else let '(l, rest) := gets_loop n' input' in (c :: l, rest)
  | _, _ => ([], input)
  end.

(** The bytes stored in [buf], with the final NUL, and the unread input. *)
Definition gets (input : list Z) (max : Z) : list Z * list Z :=
  let '(l, rest) := gets_loop (Z.to_nat (max - 1)) input in (l ++ [0], rest).

(** [stat]: the calls of the three system calls it makes, given as [open],
    [fstat] and the result of [fstat]; it closes what it opened. *)
Definition stat {F T} (open : option F) (fstat : F -> Z * T) : Z * list F * option T :=
  match open with
  | None => (-1, [], None)
  | Some fd => let '(r, st) := fstat fd in (r, [fd], Some st)
  end.

Fixpoint atoi_loop (fuel : nat) (m : mem) (s n : Z) : option Z :=
  match fuel with
  | O => None
  | S fuel' => if (48 <=? m s) && (m s <=? 57)
               then atoi_loop fuel' m (s + 1) (i32 (n * 10 + m s - 48))
               else Some n
  end.

Definition atoi (fuel : nat) (m : mem) (s : Z) : option Z := atoi_loop fuel m s 0.

Definition memmove (m : mem) (dst src n : Z) : mem :=
  Str.copy_fwd m dst src (Z.to_nat n).

End Ulib.

(** ** The memory a routine leaves, byte by byte *)

Section Copies.
Implicit Types (m : mem) (a d s : Z).

Lemma copy_back_spec m d s n a :
  s < d ->
  Str.copy_back m d s n a =
    if (d - Z.of_nat n <=? a) && (a <? d) then m (s + (a - d)) else m a.
Proof.
  revert m d s. induction n as [|n IH]; intros m d s Hlt; simpl.
  { case_if; [lia|done]. }
  rewrite IH by lia. unfold mset. repeat case_if; try lia; try done.
  all: f_equal; lia.
Qed.

Lemma copy_fwd_spec m d s n a :
  d <= s \/ s + Z.of_nat n <= d ->
  Str.copy_fwd m d s n a =
    if (d <=? a) && (a <? d + Z.of_nat n) then m (s + (a - d)) else m a.
Proof.
  revert m d s. induction n as [|n IH]; intros m d s Hor; simpl.
  { case_if; [lia|done]. }
  rewrite IH by lia. unfold mset. repeat case_if; try lia; try done.
  all: f_equal; lia.
Qed.

Lemma pad_zero_spec m s n a :
  Str.pad_zero m s n a = if (s <=? a) && (a <? s + Z.of_nat n) then 0 else m a.
Proof.
  revert m s. induction n as [|n IH]; intros m s; simpl.
  { case_if; [lia|done]. }
  rewrite IH. unfold mset. repeat case_if; try lia; done.
Qed.
End Copies.

(** ** NUL-terminated strings in memory *)

(** [cstr m p l]: the string [l] is stored at [p], followed by its NUL. *)
Fixpoint cstr (m : mem) (p : Z) (l : list Z) : Prop :=
  match l with
  | [] => m p = 0
  | c :: l' => m p = c /\ 0 < c < 256 /\ cstr m (p + 1) l'
  end.

Lemma cstr_frame m m' p l :
  (forall a, p <= a <= p + Z.of_nat (length l) -> m' a = m a) ->
  cstr m p l -> cstr m' p l.
Proof.
  revert p. induction l as [|c l IH]; intros p Hf; simpl in *.
  { intros <-. apply Hf. lia. }
  intros (<- & Hc & Hl). split_and!; [|lia|lia|].
  - apply Hf. lia.
  - apply IH; [|done]. intros a Ha. apply Hf. lia.
Qed.

Lemma cstr_lookup m p l i :
  cstr m p l -> (i < length l)%nat -> l !! i = Some (m (p + Z.of_nat i)).
Proof.
  revert p i. induction l as [|c l IH]; intros p i; simpl; [lia|].
  intros (<- & _ & Hl) Hi. destruct i as [|i]; simpl.
  - do 2 f_equal. lia.
  - rewrite (IH _ _ Hl) by lia. do 2 f_equal. lia.
Qed.

Lemma cstr_end m p l : cstr m p l -> m (p + Z.of_nat (length l)) = 0.
Proof.
  revert p. induction l as [|c l IH]; intros p; simpl.
  { intros <-. f_equal. lia. }
  intros (_ & _ & Hl%IH). rewrite <- Hl. f_equal. lia.
Qed.

Lemma cstr_inj m p l l' : cstr m p l -> cstr m p l' -> l = l'.
Proof.
  revert p l'. induction l as [|c l IH]; intros p [|c' l']; simpl; try (intros; lia); [done|].
  intros (<- & _ & H1) (<- & _ & H2). f_equal. eauto.
Qed.

Lemma strlen_loop_spec fuel m s n l :
  cstr m (s + n) l -> (length l < fuel)%nat ->
  Str.strlen_loop fuel m s n = Some (n + Z.of_nat (length l)).
Proof.
  revert n fuel. induction l as [|c l IH]; intros n [|fuel] Hl Hf; simpl in *; try lia.
  - rewrite Hl. simpl. f_equal. lia.
  - destruct Hl as (-> & Hc & Hl). case_if; [lia|].
    rewrite IH; [f_equal; lia| |lia]. by rewrite Z.add_assoc.
Qed.

Lemma strncpy_loop_spec m s t n l a :
  cstr m t l -> t + Z.of_nat (length l) < s \/ s + Z.of_nat n <= t ->
  Str.strncpy_loop m s t n a =
    if (s <=? a) && (a <? s + Z.of_nat n)
    then default 0 (l !! Z.to_nat (a - s)) else m a.
Proof.
  revert m s t n. induction l as [|c l IH]; intros m s t n Hl Hd; destruct n as [|n]; simpl.
  - case_if; [lia|done].
  - simpl in Hl. rewrite Hl. simpl. rewrite pad_zero_spec. unfold mset.
    repeat case_if; try lia; done.
  - case_if; [lia|done].
  - simpl in Hl. destruct Hl as (Hm & Hc & Hl). rewrite Hm.
    destruct (Z.eqb_spec c 0); [lia|]. rewrite IH.
    + unfold mset. repeat case_if; try lia; try done.
      * replace (Z.to_nat (a - s)) with (S (Z.to_nat (a - (s + 1)))) by lia. done.
      * subst a. by rewrite Z.sub_diag.
    + eapply cstr_frame; [|exact Hl]. intros x Hx. apply mset_ne. simpl in Hd. lia.
    + simpl in Hd. lia.
Qed.

(** The memory [safe_loop] leaves and where it stops. *)
Lemma safe_loop_spec m s t n l :
  cstr m t l -> t + Z.of_nat (length l) < s \/ s + Z.of_nat n <= t ->
  let '(m', s') := Str.safe_loop m s t n in
  s <= s' <= s + Z.of_nat n /\
  (forall a, ~ s <= a < s + Z.of_nat n -> m' a = m a) /\
  cstr (mset m' s' 0) s (take n l).
Proof.
  revert m s t n. induction l as [|c l IH]; intros m s t n Hl Hd; destruct n as [|n]; simpl.
  - split_and!; [lia|lia|done|]. apply mset_eq.
  - simpl in Hl. rewrite Hl. simpl. split_and!; [lia|lia| |].
    + intros a Ha. apply mset_ne. lia.
    + rewrite mset_ne by lia. apply mset_eq.
  - split_and!; [lia|lia|done|]. apply mset_eq.
  - simpl in Hl. destruct Hl as (Hm & Hc & Hl). rewrite Hm.
    destruct (Z.eqb_spec c 0); [lia|].
    specialize (IH (mset m s c) (s + 1) (t + 1) n).
    destruct (Str.safe_loop _ _ _ _) as [m' s'].
    destruct IH as (Hs & Hf & Hres).
    + eapply cstr_frame; [|exact Hl]. intros x Hx. apply mset_ne. simpl in Hd. lia.
    + simpl in Hd. lia.
    + split_and!; [lia|lia| | |lia|lia|done].
      * intros a Ha. rewrite Hf by lia. apply mset_ne. lia.
      * rewrite mset_ne by lia. rewrite Hf by lia. apply mset_eq.
Qed.

Lemma strncmp_loop_spec m p q lp lq n :
  cstr m p lp -> cstr m q lq ->
  Str.strncmp m p q n = 0 <-> take n lp = take n lq.
Proof.
  revert p q lq n. induction lp as [|c lp IH]; intros p q lq n Hp Hq.
  - destruct n as [|n]; [done|]. simpl in Hp. simpl. rewrite Hp. simpl.
    destruct lq as [|d lq]; simpl in Hq |- *; [by rewrite Hq|].
    destruct Hq as (-> & Hd & _). rewrite (u8_small 0), u8_small by lia.
    split; [lia|done].
  - destruct n as [|n]; [done|]. destruct Hp as (Hm & Hc & Hp). simpl. rewrite Hm.
    destruct (Z.eqb_spec c 0); [lia|]. simpl.
    destruct lq as [|d lq]; simpl in Hq |- *.
    + rewrite Hq. destruct (Z.eqb_spec c 0); [lia|].
      rewrite (u8_small 0), u8_small by lia. split; [lia|done].
    + destruct Hq as (-> & Hd & Hq). destruct (Z.eqb_spec c d) as [->|Hne].
      * rewrite (IH _ _ _ _ Hp Hq). split; [intros E; by rewrite E|congruence].
      * rewrite !u8_small by lia. split; [lia|congruence].
Qed.

(** The four-byte pattern [memset] builds repeats the byte. *)
Lemma memset_word c k :
  0 <= c < 256 -> 0 <= k < 4 ->
  Z.land (Z.shiftr
    (Z.lor (Z.lor (Z.lor (Z.shiftl c 24) (Z.shiftl c 16)) (Z.shiftl c 8)) c)
    (8 * k)) 255 = c.
Proof.
  intros Hc Hk.
  assert (H : Forall (fun c => Forall (fun k => Z.land (Z.shiftr
    (Z.lor (Z.lor (Z.lor (Z.shiftl c 24) (Z.shiftl c 16)) (Z.shiftl c 8)) c)
    (8 * k)) 255 = c) (seqZ 0 4)) (seqZ 0 256)).
  { apply (bool_decide_unpack _). by vm_compute. }
  rewrite Forall_forall in H. specialize (H c). rewrite Forall_forall in H.
  apply H; apply elem_of_seqZ; lia.
Qed.

(** ** Properties *)

Lemma memset_get (m : mem) (dst c n a : Z) :
  0 <= dst -> 0 <= n ->
  Str.memset m dst c n a =
    if (dst <=? a) && (a <? dst + n) then u8 c else m a.
Proof.
  intros Hd Hn. unfold Str.memset. case_if; [|done]. destruct Heqb as [_ Hmod].
  assert (Hland : Z.land c 255 = u8 c) by (apply (Z.land_ones c 8); lia).
  unfold Str.stosl. rewrite Hland.
  assert (4 * (n / 4) = n) by (pose proof (Z.div_mod n 4); lia).
  replace (dst + 4 * (n / 4)) with (dst + n) by lia.
  case_if; [|done]. apply memset_word; [apply u8_range|].
  by apply Z.mod_pos_bound.
Qed.

(** The kernel's [memset] has the effect of its byte-by-byte
    definition, whichever of the word and byte fills it takes: exactly the [n]
    bytes at [dst] become [c]'s low byte. *)
Theorem memset_spec (m : mem) (dst c n a : Z) :
  0 <= dst -> 0 <= n ->
  Str.memset m dst c n a =
    if (dst <=? a) && (a <? dst + n) then u8 c else m a.
Proof. apply memset_get. Qed.

Lemma memset_spec_witness :
  Str.memset (fun _ => 9) 4096 257 4096 5000 = 1 /\
  Str.memset (fun _ => 9) 4097 257 3 4100 = 9.
Proof.
  split.
  - rewrite (memset_spec (fun _ => 9) 4096 257 4096 5000); [reflexivity|lia|lia].
  - rewrite (memset_spec (fun _ => 9) 4097 257 3 4100); [reflexivity|lia|lia].
Defined.

Lemma memmove_get (m : mem) (dst src n a : Z) :
  0 <= src -> 0 <= n -> src + n < 4294967296 ->
  Str.memmove m dst src n a =
    if (dst <=? a) && (a <? dst + n) then m (src + (a - dst)) else m a.
Proof.
  intros Hs Hn Hov. unfold Str.memmove. rewrite u32_small by lia.
  destruct ((src <? dst) && (src + n >? dst)) eqn:E; bools.
  - rewrite copy_back_spec by lia. rewrite Z2Nat.id by lia.
    repeat case_if; try lia; try done. f_equal. lia.
  - rewrite copy_fwd_spec by lia. by rewrite Z2Nat.id by lia.
Qed.

(** [memmove] copies correctly even when the two regions overlap:
    afterwards the [n] bytes at [dst] are the bytes [src] held before the
    call and no other byte has changed. *)
Theorem memmove_spec (m : mem) (dst src n a : Z) :
  0 <= src -> 0 <= n -> src + n < 4294967296 ->
  Str.memmove m dst src n a =
    if (dst <=? a) && (a <? dst + n) then m (src + (a - dst)) else m a.
Proof. apply memmove_get. Qed.

Lemma memmove_spec_witness :
  map (Str.memmove (fun a => a) 102 100 5) (seqZ 100 9)
    = [100; 101; 100; 101; 102; 103; 104; 107; 108].
Proof.
  etrans.
  - apply map_ext. intros a. apply (memmove_spec (fun a => a) 102 100 5 a); lia.
  - vm_compute. reflexivity.
Defined.

(** [strncpy] copies the string up to and including its NUL, then
    NUL-pads, and writes exactly [n] bytes. *)
Theorem strncpy_spec (m : mem) (s t n : Z) (l : list Z) (a : Z) :
  cstr m t l -> 0 <= n ->
  t + Z.of_nat (length l) < s \/ s + n <= t ->
  Str.strncpy m s t n a =
    if (s <=? a) && (a <? s + n) then default 0 (l !! Z.to_nat (a - s)) else m a.
Proof.
  intros Hl Hn Hd. unfold Str.strncpy.
  rewrite (strncpy_loop_spec _ _ _ _ l) by (done || lia).
  by rewrite Z2Nat.id by lia.
Qed.

Definition sample_mem : mem :=
  fun a => default 0 ([120; 118; 54; 0; 97; 98; 0] !! Z.to_nat (a - 100)).

Lemma strncpy_spec_witness :
  cstr sample_mem 100 [120; 118; 54] /\
  Str.strncpy sample_mem 200 100 14 213 = 0.
Proof.
  assert (H : cstr sample_mem 100 [120; 118; 54])
    by (vm_compute; repeat split; discriminate || reflexivity).
  split; [exact H|].
  rewrite (strncpy_spec sample_mem 200 100 14 [120; 118; 54] 213 H); [reflexivity|lia|].
  left. simpl. lia.
Defined.

(** [safestrcpy] always leaves a NUL-terminated string inside the [n]
    bytes of the destination (the source cut to [n - 1] characters) and
    touches nothing outside them. *)
Theorem safestrcpy_spec (m : mem) (s t n : Z) (l : list Z) :
  cstr m t l -> 0 < n ->
  t + Z.of_nat (length l) < s \/ s + n <= t ->
  cstr (Str.safestrcpy m s t n) s (take (Z.to_nat (n - 1)) l) /\
  (forall a, ~ s <= a < s + n -> Str.safestrcpy m s t n a = m a).
Proof.
  intros Hl Hn Hd. unfold Str.safestrcpy.
  rewrite (proj2 (Z.leb_gt n 0)) by lia.
  pose proof (safe_loop_spec m s t (Z.to_nat (n - 1)) l Hl) as Hspec.
  destruct (Str.safe_loop _ _ _ _) as [m' s'].
  destruct Hspec as (Hs & Hf & Hres); [lia|].
  split; [done|]. intros a Ha. rewrite mset_ne by lia. apply Hf. lia.
Qed.

Lemma safestrcpy_spec_witness :
  cstr (Str.safestrcpy sample_mem 200 100 3) 200 [120; 118] /\
  Str.safestrcpy sample_mem 200 100 3 203 = sample_mem 203.
Proof.
  assert (H : cstr sample_mem 100 [120; 118; 54])
    by (vm_compute; repeat split; discriminate || reflexivity).
  destruct (safestrcpy_spec sample_mem 200 100 3 [120; 118; 54] H) as [H1 H2];
    [lia|left; simpl; lia|].
  split; [exact H1|]. apply H2. lia.
Defined.

(** [strncmp] answers 0 exactly when the two strings agree on their
    first [n] characters (directory lookups compare names this way). *)
Theorem strncmp_spec (m : mem) (p q : Z) (lp lq : list Z) (n : nat) :
  cstr m p lp -> cstr m q lq ->
  Str.strncmp m p q n = 0 <-> take n lp = take n lq.
Proof. apply strncmp_loop_spec. Qed.

Lemma strncmp_spec_witness : Str.strncmp sample_mem 100 104 2 <> 0.
Proof.
  intros H.
  assert (E : take 2 [120; 118; 54] = take 2 [97; 98])
    by (apply (strncmp_spec sample_mem 100 104 [120; 118; 54] [97; 98] 2);
        [vm_compute; repeat split; discriminate || reflexivity..|exact H]).
  discriminate E.
Defined.
