(* ===== verification/Grep.v ===== *)
(** * grep: the pattern matcher and the line splitter

    [grep.c].  A C string is the list of its bytes before the NUL, so
    [*text == '\0'] is the empty list and [text++] takes the tail. *)

From S2P Require Import Prelude.

Module Grep.

Definition CARET : Z := 94.
Definition DOLLAR : Z := 36.
Definition STAR : Z := 42.
Definition DOT : Z := 46.
Definition NL : Z := 10.

(** search for [c*re] at the beginning of [text]; [here] is [matchhere re] *)
Fixpoint matchstar (c : Z) (here : list Z -> bool) (text : list Z) : bool :=
  here text ||
  match text with
  | [] => false
  | t :: text' => ((t =? c) || (c =? DOT)) && matchstar c here text'
  end.

(** search for [re] at the beginning of [text] *)
Fixpoint matchhere (re text : list Z) : bool :=
  match re with
  | [] => true
  | c :: re' =>
      match re' with
      | s :: re'' =>
          if s =? STAR then matchstar c (matchhere re'') text
          else match text with
               | t :: text' => ((c =? DOT) || (c =? t)) && matchhere re' text'
               | [] => false
               end
      | [] =>
          if c =? DOLLAR then match text with [] => true | _ => false end
          else match text with
               | t :: text' => ((c =? DOT) || (c =? t)) && matchhere re' text'
               | [] => false
               end
      end
  end.

(** The [do] loop of [match]: every suffix, the empty one included. *)
Fixpoint match_loop (re text : list Z) : bool :=
  matchhere re text ||
  match text with [] => false | _ :: text' => match_loop re text' end.

Definition grep_match (re text : list Z) : bool :=
  match re with
  | c :: re' => if c =? CARET then matchhere re' text else match_loop re text
  | [] => match_loop re text
  end.

(** [strchr(p, '\n')]: the line before the first newline that comes before
    any NUL, and what follows it. *)
Fixpoint next_line (p : list Z) : option (list Z * list Z) :=
  match p with
  | [] => None
  | c :: p' =>
      if c =? 0 then None
      else if c =? NL then Some ([], p')
      else match next_line p' with
           | Some (line, rest) => Some (c :: line, rest)
           | None => None
           end
  end.

(** The inner loop: the lines written, and where [p] ends up. *)
Fixpoint grep_lines (fuel : nat) (pattern p : list Z) : list (list Z) * list Z :=
  match fuel with
  | O => ([], p)
  | S fuel' =>
      match next_line p with
      | None => ([], p)
      | Some (line, rest) =>
          let '(out, p') := grep_lines fuel' pattern rest in
          if grep_match pattern line then ((line ++ [NL]) :: out, p')
          else (out, p')
      end
  end.

(** One turn of the outer loop: [buf] holds the [m] pending bytes, the read
    appends [chunk]; the result is what is written and what stays pending. *)
Definition grep_chunk (pattern buf chunk : list Z) : list (list Z) * list Z :=
  let buf := buf ++ chunk in
  let '(out, p) := grep_lines (length buf) pattern buf in
  (out, if (length p =? length buf)%nat then [] else p).

Fixpoint grep (pattern : list Z) (buf : list Z) (reads : list (list Z)) : list (list Z) :=
  match reads with
  | [] => []
  | chunk :: reads' =>
      let '(out, buf') := grep_chunk pattern buf chunk in
      out ++ grep pattern buf' reads'
  end.

End Grep.

Export Grep.

(** ** What a pattern means

    A pattern is a sequence of items, each matching one character or a run
    of them, with an optional [$] at the end. *)

Inductive item := One (c : Z) | Many (c : Z).

Definition char_ok (c t : Z) : Prop := t = c \/ c = DOT.

Definition item_ok (i : item) (s : list Z) : Prop :=
  match i with
  | One c => exists t, s = [t] /\ char_ok c t
  | Many c => Forall (char_ok c) s
  end.

Fixpoint items (re : list Z) : list item * bool :=
  match re with
  | [] => ([], false)
  | c :: re' =>
      match re' with
      | s :: re'' =>
          if s =? STAR then let '(l, e) := items re'' in (Many c :: l, e)
          else let '(l, e) := items re' in (One c :: l, e)
      | [] => if c =? DOLLAR then ([], true) else ([One c], false)
      end
  end.

(** [text] starts with one piece per item; after a [$] nothing may remain. *)
Definition matches_here (re text : list Z) : Prop :=
  exists pieces rest,
    text = concat pieces ++ rest /\ Forall2 item_ok (items re).1 pieces /\
    ((items re).2 = true -> rest = []).

Definition matches_in (re text : list Z) : Prop :=
  match re with
  | c :: re' => if c =? CARET then matches_here re' text
                else exists pre suf, text = pre ++ suf /\ matches_here re suf
  | [] => exists pre suf, text = pre ++ suf /\ matches_here re suf
  end.

(** ** The matcher and the meaning *)

Lemma char_okb c t : (t =? c) || (c =? DOT) = true <-> char_ok c t.
Proof. unfold char_ok. bools. done. Qed.

Lemma matchstar_spec c here text :
  matchstar c here text = true <->
  exists s rest, text = s ++ rest /\ Forall (char_ok c) s /\ here rest = true.
Proof.
  induction text as [|t text IH]; simpl; rewrite orb_true_iff.
  - split.
    + intros [H|?]; [|done]. by exists [], [].
    + intros (s & rest & E & _ & H). left.
      symmetry in E. apply app_eq_nil in E as [-> ->]. done.
  - rewrite andb_true_iff, char_okb, IH. split.
    + intros [H|(Ht & s & rest & -> & Hs & H)].
      * by exists [], (t :: text).
      * exists (t :: s), rest. split_and!; [done|by constructor|done].
    + intros ([|t' s] & rest & E & Hs & H); simpl in E; [left; by subst|].
      injection E as <- ->. right. apply Forall_cons in Hs as [? ?].
      split; [done|]. by exists s, rest.
Qed.

Lemma here_many c s re text :
  s = STAR ->
  matches_here (c :: s :: re) text <->
  exists s rest, text = s ++ rest /\ Forall (char_ok c) s /\ matches_here re rest.
Proof.
  intros ->. unfold matches_here. simpl. destruct (items re) as [l e]. simpl. split.
  - intros (pieces & rest & -> & Hf & He).
    apply Forall2_cons_inv_l in Hf as (s & ss & Hs & Hss & ->).
    exists s, (concat ss ++ rest). simpl. rewrite app_assoc. split_and!; [done..|].
    by exists ss, rest.
  - intros (s & rest & -> & Hs & ss & rest' & -> & Hf & He).
    exists (s :: ss), rest'. simpl. rewrite app_assoc. split_and!; [done| |done].
    by constructor.
Qed.

Lemma here_one c re text :
  (forall s re', re = s :: re' -> s <> STAR) -> (re = [] -> c <> DOLLAR) ->
  matches_here (c :: re) text <->
  exists t text', text = t :: text' /\ char_ok c t /\ matches_here re text'.
Proof.
  intros Hns Hnd.
  assert (Hi : items (c :: re) = (One c :: (items re).1, (items re).2)).
  { destruct re as [|s re']; simpl.
    - destruct (Z.eqb_spec c DOLLAR); [by destruct Hnd|done].
    - destruct (Z.eqb_spec s STAR); [by destruct (Hns s re')|].
      simpl. by destruct (match re' with [] => _ | _ => _ end). }
  unfold matches_here. rewrite Hi. simpl. split.
  - intros (pieces & rest & -> & Hf & He).
    apply Forall2_cons_inv_l in Hf as (s & ss & (t & -> & Ht) & Hss & ->).
    exists t, (concat ss ++ rest). split_and!; [done..|]. by exists ss, rest.
  - intros (t & text' & -> & Ht & ss & rest & -> & Hf & He).
    exists ([t] :: ss), rest. split_and!; [done| |done].
    constructor; [|done]. by exists t.
Qed.

Lemma matchhere_one c re text :
  (forall text, matchhere re text = true <-> matches_here re text) ->
  (match text with
   | t :: text' => ((c =? DOT) || (c =? t)) && matchhere re text'
   | [] => false
   end = true) <->
  exists t text', text = t :: text' /\ char_ok c t /\ matches_here re text'.
Proof.
  intros IH. destruct text as [|t text].
  - split; [done|]. by intros (? & ? & ? & _).
  - rewrite andb_true_iff, IH, orb_comm, (Z.eqb_sym c t), char_okb. split.
    + intros [? ?]. by exists t, text.
    + by intros (? & ? & [= <- <-] & ? & ?).
Qed.

Lemma matchhere_ok re text : matchhere re text = true <-> matches_here re text.
Proof.
  remember (length re) as n eqn:Hn. revert re Hn text.
  induction n as [n IH] using lt_wf_ind. intros re -> text.
  assert (IH' : forall re', (length re' < length re)%nat ->
    forall text, matchhere re' text = true <-> matches_here re' text)
    by (intros re' Hlt; by apply (IH (length re'))). clear IH.
  destruct re as [|c [|s re]].
  - split; [|done]. intros _. exists [], text. split_and!; [done|constructor|done].
  - simpl. destruct (Z.eqb_spec c DOLLAR) as [->|Hc].
    + split.
      * destruct text; [|done]. intros _. exists [], []. split_and!; [done|constructor|done].
      * intros (pieces & rest & -> & Hf%Forall2_nil_inv_l & He). simpl in *.
        subst pieces. by rewrite He.
    + rewrite (here_one c []); [|done..]. apply (matchhere_one c []).
      apply IH'. simpl. lia.
  - simpl. destruct (Z.eqb_spec s STAR) as [Hs|Hs].
    + rewrite matchstar_spec, here_many by done.
      by setoid_rewrite IH'; [|simpl; lia].
    + rewrite here_one; [|naive_solver..]. apply (matchhere_one c (s :: re)).
      apply IH'. simpl. lia.
Qed.

Lemma match_loop_ok re text :
  match_loop re text = true <->
  exists pre suf, text = pre ++ suf /\ matches_here re suf.
Proof.
  induction text as [|t text IH]; simpl; rewrite orb_true_iff, matchhere_ok.
  - split.
    + intros [H|?]; [|done]. by exists [], [].
    + intros (pre & suf & E & H). left.
      symmetry in E. by apply app_eq_nil in E as [-> ->].
  - rewrite IH. split.
    + intros [H|(pre & suf & -> & H)]; [by exists [], (t :: text)|].
      by exists (t :: pre), suf.
    + intros ([|t' pre] & suf & E & H); simpl in E; [left; by subst|].
      injection E as <- ->. right. by exists pre, suf.
Qed.

Lemma grep_match_ok re text : grep_match re text = true <-> matches_in re text.
Proof.
  unfold grep_match, matches_in. destruct re as [|c re]; [apply match_loop_ok|].
  destruct (c =? CARET); [apply matchhere_ok|apply match_loop_ok].
Qed.

#[export] Instance matches_in_dec re text : Decision (matches_in re text).
Proof.
  destruct (grep_match re text) eqn:E.
  - left. by apply grep_match_ok.
  - right. rewrite <- grep_match_ok. congruence.
Defined.

(** ** Properties *)

(** C24: [match] decides exactly the regular language of the pattern:
    literal characters, [.], [x*], an initial [^] and a final [$]. *)
Theorem grep_match_spec (re text : list Z) :
  grep_match re text = true <-> matches_in re text.
Proof. apply grep_match_ok. Qed.

(** ** The line splitter *)

Lemma next_line_spec p line rest :
  next_line p = Some (line, rest) ->
  p = line ++ NL :: rest /\ NL ∉ line /\ 0 ∉ line.
Proof.
  revert line. induction p as [|c p IH]; intros line; simpl; [done|].
  destruct (Z.eqb_spec c 0); [done|]. destruct (Z.eqb_spec c NL) as [->|Hc].
  { intros [= <- <-]. split_and!; [done|by apply not_elem_of_nil..]. }
  destruct (next_line p) as [[l r]|]; [|done]. intros [= <- <-].
  destruct (IH l eq_refl) as (-> & H1 & H2).
  split_and!; [done|rewrite not_elem_of_cons; done..].
Qed.

Lemma next_line_None p : 0 ∉ p -> next_line p = None -> NL ∉ p.
Proof.
  induction p as [|c p IH]; simpl; [intros; apply not_elem_of_nil|].
  rewrite !not_elem_of_cons. intros [Hc Hp].
  destruct (Z.eqb_spec c 0); [done|]. destruct (Z.eqb_spec c NL); [done|].
  destruct (next_line p) as [[? ?]|]; [done|]. intros _.
  split; [done|by apply IH].
Qed.

Lemma next_line_app line rest :
  NL ∉ line -> 0 ∉ line -> next_line (line ++ NL :: rest) = Some (line, rest).
Proof.
  induction line as [|c line IH]; simpl; [done|].
  rewrite !not_elem_of_cons. intros [? ?] [? ?].
  destruct (Z.eqb_spec c 0); [done|]. destruct (Z.eqb_spec c NL); [done|].
  by rewrite IH.
Qed.

Definition unlines (lines : list (list Z)) (rest : list Z) : list Z :=
  foldr (fun line acc => line ++ NL :: acc) rest lines.

Lemma grep_lines_spec pattern lines rest fuel :
  Forall (fun l => NL ∉ l /\ 0 ∉ l) lines -> NL ∉ rest -> 0 ∉ rest ->
  (length (unlines lines rest) <= fuel)%nat ->
  grep_lines fuel pattern (unlines lines rest) =
    ((fun l => l ++ [NL]) <$> filter (matches_in pattern) lines, rest).
Proof.
  intros Hl Hr Hz. revert fuel. induction Hl as [|l lines [H1 H2] Hl IH]; intros fuel Hf.
  - destruct fuel as [|fuel]; simpl in *; [done|].
    destruct (next_line rest) as [[l r]|] eqn:E; [|done].
    apply next_line_spec in E as (-> & _ & _). exfalso. apply Hr.
    rewrite elem_of_app, elem_of_cons. auto.
  - simpl in Hf. rewrite length_app in Hf. simpl in Hf.
    destruct fuel as [|fuel]; simpl; [lia|].
    rewrite next_line_app by done. rewrite IH by lia.
    destruct (matches_in_dec pattern l) as [Hm|Hm].
    + rewrite (proj2 (grep_match_ok _ _) Hm), filter_cons_True by done. done.
    + rewrite <- grep_match_ok, not_true_iff_false in Hm. rewrite Hm.
      rewrite filter_cons_False by (rewrite <- grep_match_ok; congruence). done.
Qed.

Lemma unlines_length lines rest :
  lines <> [] -> (length rest < length (unlines lines rest))%nat.
Proof.
  intros Hne. assert (H : forall ls, (length rest <= length (unlines ls rest))%nat).
  { induction ls as [|l ls IH]; simpl; [done|]. rewrite length_app. simpl. lia. }
  destruct lines as [|l lines]; [done|]. simpl. rewrite length_app. simpl.
  specialize (H lines). lia.
Qed.

Lemma grep_chunk_unlines pattern buf chunk lines rest :
  Forall (fun l => NL ∉ l /\ 0 ∉ l) lines -> NL ∉ rest -> 0 ∉ rest ->
  buf ++ chunk = unlines lines rest ->
  grep_chunk pattern buf chunk =
    ((fun l => l ++ [NL]) <$> filter (matches_in pattern) lines,
     match lines with [] => [] | _ => rest end).
Proof.
  intros Hl Hr Hz E. unfold grep_chunk. rewrite E.
  rewrite grep_lines_spec by done. destruct lines as [|l lines].
  - simpl. by rewrite Nat.eqb_refl.
  - f_equal. rewrite (proj2 (Nat.eqb_neq _ _)); [done|].
    pose proof (unlines_length (l :: lines) rest ltac:(done)). lia.
Qed.

(** One turn of grep's read loop writes exactly the complete lines of its
    buffer that match, in order and with their newline, and keeps the
    unfinished last line for the next turn. *)
Theorem grep_chunk_spec (pattern buf chunk : list Z) (lines : list (list Z)) (rest : list Z) :
  Forall (fun l => NL ∉ l /\ 0 ∉ l) lines -> NL ∉ rest -> 0 ∉ rest ->
  lines <> [] -> buf ++ chunk = unlines lines rest ->
  grep_chunk pattern buf chunk =
    ((fun l => l ++ [NL]) <$> filter (matches_in pattern) lines, rest).
Proof.
  intros Hl Hr Hz Hne E. rewrite (grep_chunk_unlines _ _ _ lines rest) by done.
  by destruct lines.
Qed.

(** Two complete lines ["ab"] and ["b"], an unfinished ["x"], pattern ["^a"]. *)
Lemma grep_chunk_spec_witness :
  grep_chunk [94; 97] [97] [98; 10; 98; 10; 120] = ([[97; 98; 10]], [120]).
Proof.
  rewrite (grep_chunk_spec [94; 97] [97] [98; 10; 98; 10; 120] [[97; 98]; [98]] [120]).
  - vm_compute. reflexivity.
  - apply (bool_decide_unpack _). vm_compute. exact I.
  - apply (bool_decide_unpack _). vm_compute. exact I.
  - apply (bool_decide_unpack _). vm_compute. exact I.
  - discriminate.
  - reflexivity.
Defined.

(** A line that arrives in two reads loses its first part: when a read
    brings no newline and nothing was pending, [if(p == buf) m = 0] throws the
    bytes away, so only the second part is matched and written. *)
Theorem grep_short_read_drops (pattern part1 part2 : list Z) :
  NL ∉ part1 -> 0 ∉ part1 -> NL ∉ part2 -> 0 ∉ part2 ->
  grep pattern [] [part1; part2 ++ [NL]] =
    (fun l => l ++ [NL]) <$> filter (matches_in pattern) [part2].
Proof.
  intros H1 H1z H2 H2z. unfold grep.
  rewrite (grep_chunk_unlines pattern [] part1 [] part1) by (done || constructor).
  rewrite (grep_chunk_unlines pattern [] (part2 ++ [NL]) [part2] []).
  - simpl. by rewrite app_nil_r.
  - by repeat constructor.
  - apply not_elem_of_nil.
  - apply not_elem_of_nil.
  - done.
Qed.

(** ["hel"] then ["lo\n"], pattern ["^h"]: nothing is written. *)
Lemma grep_short_read_drops_witness :
  grep [94; 104] [] [[104; 101; 108]; [108; 111] ++ [NL]] = [].
Proof.
  rewrite (grep_short_read_drops [94; 104] [104; 101; 108] [108; 111]);
    [vm_compute; reflexivity|apply (bool_decide_unpack _); vm_compute; exact I..].
Defined.
