(* ===== verification/MyAlloc.v ===== *)
(** * Project 4: the first-fit memory allocator

    [my_mem_allocator.c], [my_malloc.c], [my_free.c], [my_realloc.c].  The
    managed heap is a map from addresses to the block headers stored there,
    beside the payload bytes; a header read where none was written is a fault.
    Pointers and [size_t] are 64-bit, [BLOCK_HDR.size] is a 32-bit [int]. *)

From S2P Require Import Prelude CString.

Module MyAlloc.

Record BLOCK_HDR := { size : Z; next : Z }.

Inductive ALLOC_POLICY := AP_FIRST | AP_BEST.

Record heap := {
  my_heap : Z;
  fl_head : Z;
  hdrs : gmap Z BLOCK_HDR;
  bytes : mem;
  alloc_policy : ALLOC_POLICY }.

Definition sizeof_hdr : Z := 16.
Definition MY_HEAP_SIZE : Z := 1048576.
Definition MAGIC_NUM : Z := 2271560481.
Definition NULL : Z := 0.

Definition set_fl_head (p : Z) (h : heap) : heap :=
  {| my_heap := my_heap h; fl_head := p; hdrs := hdrs h; bytes := bytes h;
     alloc_policy := alloc_policy h |}.
Definition set_hdrs (m : gmap Z BLOCK_HDR) (h : heap) : heap :=
  {| my_heap := my_heap h; fl_head := fl_head h; hdrs := m; bytes := bytes h;
     alloc_policy := alloc_policy h |}.
Definition set_bytes (m : mem) (h : heap) : heap :=
  {| my_heap := my_heap h; fl_head := fl_head h; hdrs := hdrs h; bytes := m;
     alloc_policy := alloc_policy h |}.

(** [p->size] and [p->next], and the stores to them.  Memory the program has
    not written as a header is zero in the fresh heap. *)
Definition load (p : Z) : M heap BLOCK_HDR :=
  let! h := get in from_opt (hdrs h !! p).
Definition hdr_at (h : heap) (p : Z) : BLOCK_HDR :=
  default {| size := 0; next := 0 |} (hdrs h !! p).
Definition set_size (p v : Z) : M heap unit :=
  modify (fun h => set_hdrs (<[p := {| size := v; next := next (hdr_at h p) |}]> (hdrs h)) h).
Definition set_next (p v : Z) : M heap unit :=
  modify (fun h => set_hdrs (<[p := {| size := size (hdr_at h p); next := v |}]> (hdrs h)) h).

(** [sys] is the address the C library's [malloc] answers, 0 on failure. *)
Definition my_mem_allocator_init (sys : Z) : M heap Z :=
  modify (fun h => {| my_heap := sys; fl_head := fl_head h; hdrs := hdrs h;
                      bytes := bytes h; alloc_policy := alloc_policy h |}) ;;;
  if sys =? NULL then ret (-1)
  else
    modify (fun h => set_hdrs ∅ (set_bytes (Str.stosb (bytes h) sys 0 MY_HEAP_SIZE) h)) ;;;
    modify (set_fl_head sys) ;;;
    set_size sys (MY_HEAP_SIZE - sizeof_hdr) ;;;
    set_next sys NULL ;;;
    ret 0.

Definition my_mem_allocator_destroy : M heap unit :=
  modify (fun h => {| my_heap := NULL; fl_head := fl_head h; hdrs := hdrs h;
                      bytes := bytes h; alloc_policy := alloc_policy h |}).

Definition with_policy (policy : ALLOC_POLICY) (h : heap) : heap :=
  {| my_heap := my_heap h; fl_head := fl_head h; hdrs := hdrs h;
     bytes := bytes h; alloc_policy := policy |}.
Definition set_alloc_policy (policy : ALLOC_POLICY) : M heap unit :=
  modify (with_policy policy).

Definition relative_addr (h : heap) (addr : Z) : Z := u64 (addr - my_heap h).

(** The lines printed: index, relative address and size of each free block. *)
Definition print_free_list (fuel : nat) : M heap (list (Z * Z * Z)) :=
  let! h := get in
  loop fuel (fun '(p, idx, out) =>
    if p =? NULL then ret (inr (rev out))
    else let! b := load p in
         let ra := relative_addr h (u64 (p + sizeof_hdr)) in
         ret (inl (next b, idx + 1, (idx, ra, size b) :: out)))
    (fl_head h, 0, []).

Definition split (b sz : Z) : M heap Z :=
  let! hb := load b in
  let newBlock := u64 (u64 (b + sizeof_hdr) + sz) in
  set_size newBlock (i32 (size hb - (sizeof_hdr + sz))) ;;;
  set_size b (i32 sz) ;;;
  ret newBlock.

Definition fl_remove (b prev : Z) : M heap unit :=
  let! hb := load b in
  if prev =? NULL then
    if negb (next hb =? NULL) then modify (set_fl_head (next hb))
    else modify (set_fl_head NULL)
  else set_next prev (next hb).

(** [prev] is reset on entry, so the argument does not matter. *)
Definition fl_insert (fuel : nat) (b prev : Z) : M heap unit :=
  set_next b NULL ;;;
  let! head := gets fl_head in
  if (head =? NULL) || (head >? b) then
    set_next b head ;;; modify (set_fl_head b)
  else
    let! p := loop fuel (fun p =>
      let! hp := load p in
      if negb (next hp =? NULL) && (next hp <? b)
      then ret (inl (next hp)) else ret (inr p)) head in
    let! hp := load p in
    set_next b (next hp) ;;; set_next p b.

(** The body of the [while(p)] loop of [my_malloc]. *)
Definition my_malloc_step (fuel : nat) (sz : Z) : Z * Z -> M heap (Z * Z + Z) :=
  fun '(p, prev) =>
    if p =? NULL then ret (inr NULL)
    else
      let! hp := load p in
      if u64 (size hp) >=? u64 (sz + sizeof_hdr) then
        let usr_ptr := u64 (p + sizeof_hdr) in
        fl_remove p prev ;;;
        set_next p MAGIC_NUM ;;;
        if u64 (size hp) =? sz then ret (inr usr_ptr)
        else
          let! newBlock := split p sz in
          fl_insert fuel newBlock prev ;;;
          ret (inr usr_ptr)
      else ret (inl (next hp, p)).

Definition my_malloc (fuel : nat) (sz : Z) : M heap Z :=
  let! head := gets fl_head in
  if head =? NULL then ret NULL
  else loop fuel (my_malloc_step fuel sz) (head, NULL).

(** The body of the [while(p->next)] loop of [coalesce]. *)
Definition coalesce_step (p : Z) : M heap (Z + unit) :=
  let! hp := load p in
  if next hp =? NULL then ret (inr tt)
  else
    let! head := gets fl_head in
    (if p <? head then modify (set_fl_head p) else ret tt) ;;;
    (if u64 (p + size hp + sizeof_hdr) =? next hp then
       let! hn := load (next hp) in
       set_size p (i32 (size hp + (size hn + sizeof_hdr))) ;;;
       set_next p (next hn)
     else ret tt) ;;;
    let! hp := load p in
    if next hp =? NULL then ret (inr tt) else ret (inl (next hp)).

Definition coalesce (fuel : nat) : M heap unit :=
  let! head := gets fl_head in
  loop fuel coalesce_step head ;;;
  let! head := gets fl_head in
  let! hh := load head in
  if negb (next hh =? NULL) then
    let! tmp := load (next hh) in
    set_size head (i32 (size hh + (size tmp + sizeof_hdr))) ;;;
    set_next head (next tmp)
  else ret tt.

Definition my_free (fuel : nat) (ptr : Z) : M heap unit :=
  fl_insert fuel (u64 (ptr - sizeof_hdr)) NULL ;;;
  coalesce fuel.

Definition my_realloc (fuel : nat) (ptr sz : Z) : M heap Z :=
  if ptr =? NULL then my_malloc fuel sz
  else
    let! b := load (u64 (ptr - sizeof_hdr)) in
    let bsize := size b in
    if sz >? u64 bsize then
      let! usr_ptr := my_malloc fuel sz in
      if usr_ptr =? NULL then ret NULL
      else
        modify (fun h => set_bytes
          (Str.copy_fwd (bytes h) usr_ptr ptr (Z.to_nat (u64 bsize))) h) ;;;
        my_free fuel ptr ;;;
        ret usr_ptr
    else ret ptr.

End MyAlloc.

Export MyAlloc.

(** ** The free list as a list of blocks *)

(** [seg hs p l q]: following [next] from [p] visits the blocks [l], given by
    their header address and size, and arrives at [q]. *)
Fixpoint seg (hs : gmap Z BLOCK_HDR) (p : Z) (l : list (Z * Z)) (q : Z) : Prop :=
  match l with
  | [] => p = q
  | (a, s) :: l' =>
      p = a /\ exists n, hs !! a = Some {| size := s; next := n |} /\ seg hs n l' q
  end.

(** The blocks are in address order, do not overlap, and lie in [lo, hi). *)
Fixpoint blocks_ok (lo : Z) (l : list (Z * Z)) (hi : Z) : Prop :=
  match l with
  | [] => lo <= hi
  | (a, s) :: l' => lo <= a /\ 0 <= s < 2147483648 /\ blocks_ok (a + sizeof_hdr + s) l' hi
  end.

(** Well-formed heaps, with their free list. *)
Definition free_list (h : heap) (l : list (Z * Z)) : Prop :=
  seg (hdrs h) (fl_head h) l NULL /\
  exists lo hi, 0 < lo /\ hi < 9223372036854775808 /\ hi - lo < 2147483648 /\
    blocks_ok lo l hi.

(** What first fit does to the list: the block chosen, and the list with the
    unused end of that block in its place. *)
Fixpoint first_fit (sz : Z) (l : list (Z * Z)) : option (Z * list (Z * Z)) :=
  match l with
  | [] => None
  | (a, s) :: l' =>
      if sz + sizeof_hdr <=? s
      then Some (a, (a + sizeof_hdr + sz, s - sizeof_hdr - sz) :: l')
      else match first_fit sz l' with
           | Some (r, l'') => Some (r, (a, s) :: l'')
           | None => None
           end
  end.

(** What [coalesce] does to the list: its loop merges a block with its
    successor when they touch and then moves past the merged block; at the end
    the first two blocks are merged whether they touch or not. *)
Fixpoint merge_adjacent (l : list (Z * Z)) : list (Z * Z) :=
  match l with
  | (a, s) :: (((b, t) :: r) as l') =>
      if a + s + sizeof_hdr =? b
      then (a, s + (t + sizeof_hdr)) :: merge_adjacent r
      else (a, s) :: merge_adjacent l'
  | l => l
  end.

Definition merge_head (l : list (Z * Z)) : list (Z * Z) :=
  match l with
  | (a, s) :: (b, t) :: r => (a, s + (t + sizeof_hdr)) :: r
  | l => l
  end.

Lemma seg_app hs p l1 l2 q :
  seg hs p (l1 ++ l2) q <-> exists r, seg hs p l1 r /\ seg hs r l2 q.
Proof.
  revert p. induction l1 as [|[a s] l1 IH]; intros p; simpl; [naive_solver|].
  setoid_rewrite IH. naive_solver.
Qed.

Lemma seg_frame hs p l q a x :
  a ∉ l.*1 -> seg (<[a := x]> hs) p l q <-> seg hs p l q.
Proof.
  revert p. induction l as [|[b s] l IH]; intros p; simpl; [done|].
  rewrite not_elem_of_cons. intros [Hne Hl].
  rewrite lookup_insert_ne by done. by setoid_rewrite IH.
Qed.

Lemma blocks_ok_lo lo lo' l hi : lo' <= lo -> blocks_ok lo l hi -> blocks_ok lo' l hi.
Proof. destruct l as [|[a s] l]; simpl; [lia|]. intros ? (? & ? & ?). split_and!; [lia|lia|lia|done]. Qed.
Lemma blocks_ok_hi lo l hi hi' : hi <= hi' -> blocks_ok lo l hi -> blocks_ok lo l hi'.
Proof. revert lo. induction l as [|[a s] l IH]; simpl; [lia|]. naive_solver. Qed.
Lemma blocks_ok_le lo l hi : blocks_ok lo l hi -> lo <= hi.
Proof.
  revert lo. induction l as [|[a s] l IH]; simpl; [lia|].
  intros lo (? & ? & ?%IH). unfold sizeof_hdr in *. lia.
Qed.

Lemma blocks_ok_app lo l1 a s l2 hi :
  blocks_ok lo (l1 ++ (a, s) :: l2) hi <->
  blocks_ok lo l1 a /\ 0 <= s < 2147483648 /\ blocks_ok (a + sizeof_hdr + s) l2 hi.
Proof.
  revert lo. induction l1 as [|[b t] l1 IH]; intros lo; simpl; [tauto|].
  rewrite IH. tauto.
Qed.

Lemma blocks_ok_drop lo l1 l2 hi : blocks_ok lo (l1 ++ l2) hi -> blocks_ok lo l2 hi.
Proof.
  revert lo. induction l1 as [|[b t] l1 IH]; intros lo; simpl; [done|].
  intros (? & ? & H%IH). eapply blocks_ok_lo; [|done]. unfold sizeof_hdr. lia.
Qed.

Lemma blocks_ok_elem lo l hi a :
  blocks_ok lo l hi -> a ∈ l.*1 -> lo <= a /\ a + sizeof_hdr <= hi.
Proof.
  revert lo. induction l as [|[b t] l IH]; intros lo; simpl; [by intros _ ?%not_elem_of_nil|].
  rewrite elem_of_cons. intros (? & ? & H) [->|Hin].
  - apply blocks_ok_le in H. lia.
  - destruct (IH _ H Hin). unfold sizeof_hdr in *. lia.
Qed.

(** The address of the block before the current one, or 0. *)
Definition prev_of (l : list (Z * Z)) : Z := default NULL (fst <$> last l).

Lemma prev_of_snoc l a s : prev_of (l ++ [(a, s)]) = a.
Proof. unfold prev_of. by rewrite last_snoc. Qed.

Lemma prev_of_pos lo l hi : 0 < lo -> blocks_ok lo l hi -> l <> [] -> prev_of l > 0.
Proof.
  intros Hlo Hok Hne. destruct l as [|b l' _] using rev_ind; [done|].
  destruct b as [a s]. rewrite prev_of_snoc.
  destruct (blocks_ok_elem lo _ hi a Hok); [|lia].
  rewrite fmap_app. set_solver.
Qed.

(** [h'] has the same headers as [h] except those at the addresses of [P]. *)
Definition frame_hdrs (P : Z -> Prop) (h h' : heap) : Prop :=
  (forall x, ~ P x -> hdrs h' !! x = hdrs h !! x) /\
  my_heap h' = my_heap h /\ bytes h' = bytes h /\ alloc_policy h' = alloc_policy h.

Lemma fl_remove_spec h l1 a s l2 lo hi :
  0 < lo -> blocks_ok lo (l1 ++ (a, s) :: l2) hi ->
  seg (hdrs h) (fl_head h) (l1 ++ (a, s) :: l2) NULL ->
  exists h', fl_remove a (prev_of l1) h = Ret tt h' /\
    seg (hdrs h') (fl_head h') (l1 ++ l2) NULL /\
    hdrs h' !! a = hdrs h !! a /\ frame_hdrs (fun x => x ∈ l1.*1) h h'.
Proof.
  intros Hlo Hok Hseg. apply blocks_ok_app in Hok as (Hok1 & Hs & Hok2).
  apply seg_app in Hseg as (r & Hseg1 & -> & n & Ha & Hseg2).
  unfold fl_remove, load, bind, get, from_opt. rewrite Ha. simpl.
  destruct l1 as [|[pa ps] l1 _] using rev_ind.
  - simpl in *. subst. exists (set_fl_head n h). split.
    + destruct (Z.eqb_spec n NULL) as [->|]; done.
    + by split_and!; simpl.
  - rewrite prev_of_snoc. apply seg_app in Hseg1 as (r & Hseg1 & -> & n' & Hpa & Hn).
    simpl in Hn. subst n'.
    apply blocks_ok_app in Hok1 as (Hok1 & Hps & Hle). simpl in Hle.
    assert (Hpos : lo <= pa) by (by apply blocks_ok_le in Hok1).
    destruct (Z.eqb_spec pa NULL); [unfold NULL in *; lia|].
    eexists. split; [reflexivity|]. unfold hdr_at. rewrite Hpa. simpl.
    split_and!; try done.
    + rewrite <- app_assoc. apply seg_app. exists pa. split.
      * apply seg_frame; [|done]. intros Hin. apply (blocks_ok_elem _ _ _ _ Hok1) in Hin.
        unfold sizeof_hdr in *. lia.
      * simpl. split; [done|]. exists n. split; [by rewrite lookup_insert_eq|].
        apply seg_frame; [|done]. intros Hin. apply (blocks_ok_elem _ _ _ _ Hok2) in Hin.
        unfold sizeof_hdr in *. lia.
    + rewrite lookup_insert_ne; [done|]. unfold sizeof_hdr in *. lia.
    + split; [|done]. intros x Hx. simpl. rewrite lookup_insert_ne; [done|]. intros <-. apply Hx.
      rewrite fmap_app. set_solver.
Qed.

Lemma load_ok p b h : hdrs h !! p = Some b -> load p h = Ret b h.
Proof. intros Hp. unfold load, bind, get. by rewrite Hp. Qed.

(** The search loop of [fl_insert] stops at the last block below [b]. *)
Lemma fl_insert_search h b l1 l2 p fuel lo hi :
  0 < lo -> b > 0 -> l1 <> [] -> blocks_ok lo l1 b -> blocks_ok b l2 hi ->
  b ∉ l2.*1 -> seg (hdrs h) p (l1 ++ l2) NULL -> (length l1 <= fuel)%nat ->
  loop fuel (fun p =>
      let! hp := load p in
      if negb (next hp =? NULL) && (next hp <? b)
      then ret (inl (next hp)) else ret (inr p)) p h = Ret (prev_of l1) h.
Proof.
  intros Hlo Hb Hne Hok1 Hok2 Hb2. revert lo Hlo p fuel Hok1.
  induction l1 as [|[a s] l1 IH]; intros lo Hlo p fuel Hok1 Hseg Hf; [done|].
  destruct fuel as [|fuel]; simpl in Hf; [lia|].
  destruct Hseg as (-> & n & Ha & Hseg). destruct Hok1 as (Hlo' & Hs & Hok1).
  simpl. unfold bind at 1. unfold bind at 1. rewrite (load_ok _ _ _ Ha). simpl.
  destruct l1 as [|[a' s'] l1].
  - simpl in *. destruct l2 as [|[c t] l2]; simpl in *; [by subst|].
    destruct Hseg as [-> _]. destruct Hok2 as [Hbc _].
    rewrite (proj2 (Z.ltb_ge c b)) by lia. by rewrite andb_false_r.
  - destruct Hseg as (-> & n' & Ha' & Hseg). simpl in Hok1.
    destruct (blocks_ok_elem (a + sizeof_hdr + s) ((a', s') :: l1) b a') as [H1 H2];
      [done|set_solver|]. unfold sizeof_hdr in *.
    destruct (Z.eqb_spec a' NULL); [unfold NULL in *; lia|].
    rewrite (proj2 (Z.ltb_lt a' b)) by lia. simpl.
    rewrite (IH ltac:(done) (a + 16 + s)); [done|lia|done| |simpl in *; lia].
    simpl. split; [done|]. by exists n'.
Qed.

(** The cell [b] is put between the blocks [l1] below it and [l2] above. *)
Lemma fl_insert_spec h b hb prev l1 l2 lo hi fuel :
  0 < lo -> blocks_ok lo l1 b -> blocks_ok (b + 1) l2 hi ->
  hdrs h !! b = Some hb -> seg (hdrs h) (fl_head h) (l1 ++ l2) NULL ->
  (length l1 <= fuel)%nat ->
  exists h', fl_insert fuel b prev h = Ret tt h' /\
    seg (hdrs h') (fl_head h') (l1 ++ (b, size hb) :: l2) NULL /\
    frame_hdrs (fun x => x = b \/ x ∈ l1.*1) h h'.
Proof.
  intros Hlo Hok1 Hok2 Hb Hseg Hf.
  assert (Hlob : lo <= b) by (by apply blocks_ok_le in Hok1).
  assert (Hb1 : b ∉ l1.*1).
  { intros Hin. apply (blocks_ok_elem _ _ _ _ Hok1) in Hin. unfold sizeof_hdr in *. lia. }
  assert (Hb2 : b ∉ l2.*1).
  { intros Hin. apply (blocks_ok_elem _ _ _ _ Hok2) in Hin. lia. }
  assert (Hhdr : hdr_at h b = hb) by (unfold hdr_at; by rewrite Hb).
  unfold fl_insert, set_next, modify, gets. unfold bind at 1. simpl.
  unfold bind at 1. simpl. rewrite Hhdr.
  destruct l1 as [|[a0 s0] l1'] eqn:El1.
  - (* the new head *)
    simpl in Hseg. assert (Hc : (fl_head h =? NULL) || (fl_head h >? b) = true).
    { destruct l2 as [|[c t] l2]; simpl in Hseg, Hok2; [by rewrite Hseg|].
      destruct Hseg as [-> _]. rewrite orb_true_iff, Z.gtb_ltb, Z.ltb_lt. lia. }
    rewrite Hc. unfold bind. eexists. split; [reflexivity|]. simpl.
    unfold hdr_at. simpl. rewrite lookup_insert_eq. simpl. split.
    + split; [done|]. eexists. split; [by rewrite lookup_insert_eq|].
      rewrite insert_insert_eq. by apply seg_frame.
    + split; [|done]. intros x Hx. simpl. by rewrite !lookup_insert_ne by naive_solver.
  - rewrite <- El1 in *. assert (Hne : l1 <> []) by (by rewrite El1).
    assert (Hhead : fl_head h = a0) by (rewrite El1 in Hseg; by destruct Hseg).
    destruct (blocks_ok_elem _ _ _ a0 Hok1) as [Hlo0 Hhi0]; [rewrite El1; set_solver|].
    unfold sizeof_hdr in *.
    rewrite (proj2 (Z.eqb_neq (fl_head h) NULL)) by (unfold NULL; lia).
    rewrite Z.gtb_ltb, (proj2 (Z.ltb_ge b (fl_head h))) by lia. simpl.
    set (h1 := set_hdrs _ h).
    assert (Hseg1 : seg (hdrs h1) (fl_head h1) (l1 ++ l2) NULL).
    { apply seg_frame; [|done]. rewrite fmap_app, elem_of_app. tauto. }
    change (fl_head h) with (fl_head h1). unfold bind at 1.
    rewrite (fl_insert_search h1 b l1 l2 _ _ lo hi); try done; try lia.
    2: { eapply blocks_ok_lo; [|done]. lia. }
    clear El1 Hhead Hlo0 Hhi0. destruct l1 as [|[pa ps] l1 _] using rev_ind; [done|].
    rewrite prev_of_snoc. rewrite <- app_assoc in Hseg1.
    apply seg_app in Hseg1 as (r & Hseg1 & -> & n & Hpa & Hseg2).
    apply blocks_ok_app in Hok1 as (Hok1 & Hps & Hle). unfold sizeof_hdr in *. simpl in Hle.
    assert (Hpb : pa <> b) by lia.
    rewrite (load_ok _ _ _ Hpa) || (unfold bind at 1; rewrite (load_ok _ _ _ Hpa)).
    unfold bind. eexists. split; [reflexivity|]. simpl.
    unfold hdr_at. simpl. rewrite lookup_insert_eq, insert_insert_eq.
    rewrite lookup_insert_ne by done.
    simpl in Hpa. rewrite lookup_insert_ne in Hpa by done. rewrite Hpa. simpl.
    assert (Hpa1 : pa ∉ l1.*1).
    { intros Hin. apply (blocks_ok_elem _ _ _ _ Hok1) in Hin. unfold sizeof_hdr in *. lia. }
    assert (Hpa2 : pa ∉ l2.*1).
    { intros Hin. apply (blocks_ok_elem _ _ _ _ Hok2) in Hin. lia. }
    rewrite fmap_app, not_elem_of_app in Hb1. destruct Hb1 as [Hb1 _].
    simpl in Hseg1, Hseg2. rewrite seg_frame in Hseg1, Hseg2 by done. split_and!.
    + rewrite <- app_assoc. apply seg_app. exists pa. split; [by rewrite !seg_frame|].
      simpl. split; [done|]. exists b. split; [by rewrite lookup_insert_eq|].
      split; [done|]. exists n. split; [by rewrite lookup_insert_ne, lookup_insert_eq|].
      by rewrite !seg_frame.
    + split; [|done]. intros x Hx. rewrite fmap_app, elem_of_app in Hx. simpl in Hx |- *.
      rewrite !lookup_insert_ne; [done|set_solver..].
Qed.

(** Taking the block [a] out of the list [l1 ++ (a, s) :: l2] and giving its
    unused end back. *)
Lemma malloc_take h l1 a s l2 sz lo hi fuel :
  0 < lo -> hi < 9223372036854775808 -> blocks_ok lo (l1 ++ (a, s) :: l2) hi ->
  seg (hdrs h) (fl_head h) (l1 ++ (a, s) :: l2) NULL ->
  0 <= sz -> sz + sizeof_hdr <= s -> (length l1 <= fuel)%nat ->
  exists h', my_malloc_step fuel sz (a, prev_of l1) h = Ret (inr (a + sizeof_hdr)) h' /\
    seg (hdrs h') (fl_head h')
      (l1 ++ (a + sizeof_hdr + sz, s - sizeof_hdr - sz) :: l2) NULL /\
    hdrs h' !! a = Some {| size := sz; next := MAGIC_NUM |} /\
    frame_hdrs (fun x => x = a \/ x = a + sizeof_hdr + sz \/ x ∈ l1.*1) h h'.
Proof.
  intros Hlo Hhi Hok Hseg Hsz Hfit Hf. set (nb := a + sizeof_hdr + sz).
  destruct (fl_remove_spec h l1 a s l2 lo hi) as (h1 & E1 & Hseg1 & Ha1 & Hfr1); [done..|].
  pose proof Hok as (Hok1 & Hs & Hok2)%blocks_ok_app.
  pose proof (blocks_ok_le _ _ _ Hok1). pose proof (blocks_ok_le _ _ _ Hok2).
  unfold sizeof_hdr in *.
  assert (exists n, hdrs h !! a = Some {| size := s; next := n |}) as [n Ha].
  { apply seg_app in Hseg as (r & _ & _ & n & Ha & _). by exists n. }
  assert (Ha1' : forall x, a <= x < a + 16 + s -> x ∉ (l1 ++ l2).*1).
  { intros x Hx. rewrite fmap_app, not_elem_of_app. split; intros Hin.
    - apply (blocks_ok_elem _ _ _ _ Hok1) in Hin. unfold sizeof_hdr in *. lia.
    - apply (blocks_ok_elem _ _ _ _ Hok2) in Hin. lia. }
  unfold my_malloc_step. rewrite (proj2 (Z.eqb_neq a NULL)) by (unfold NULL; lia).
  unfold sizeof_hdr. rewrite (bind_eq _ _ _ _ _ (load_ok _ _ _ Ha)). simpl.
  rewrite !u64_small by lia. rewrite (proj2 (Z.geb_le s (sz + 16))) by lia.
  rewrite (bind_eq _ _ _ _ _ E1), (proj2 (Z.eqb_neq s sz)) by lia.
  unfold set_next, modify, split. unfold bind at 1. rewrite Ha in Ha1.
  assert (Hs1 : size (hdr_at h1 a) = s) by (unfold hdr_at; by rewrite Ha1).
  rewrite Hs1. set (h2 := set_hdrs (<[a:=_]> (hdrs h1)) h1).
  assert (Ha2 : hdrs h2 !! a = Some {| size := s; next := MAGIC_NUM |})
    by (apply lookup_insert_eq).
  unfold bind at 1. unfold bind at 1. rewrite (load_ok _ _ _ Ha2).
  simpl size. rewrite (u64_small (a + sizeof_hdr)), (u64_small (a + sizeof_hdr + sz))
    by (unfold sizeof_hdr; lia).
  replace (i32 (s - (sizeof_hdr + sz))) with (s - 16 - sz)
    by (rewrite i32_small; unfold sizeof_hdr; lia).
  rewrite (i32_small sz) by lia. change (a + sizeof_hdr + sz) with nb.
  unfold bind at 1. unfold set_size, modify.
  set (h3 := set_hdrs (<[nb:=_]> (hdrs h2)) h2).
  assert (Hnb : nb <> a) by (unfold nb; lia).
  assert (Hn3 : next (hdr_at h3 a) = MAGIC_NUM)
    by (unfold hdr_at, h3; simpl; by rewrite lookup_insert_ne, lookup_insert_eq).
  unfold bind at 1. rewrite Hn3. set (h4 := set_hdrs (<[a:=_]> (hdrs h3)) h3).
  assert (Hb4 : exists n', hdrs h4 !! nb = Some {| size := s - 16 - sz; next := n' |}).
  { eexists. unfold h4, h3. simpl. by rewrite lookup_insert_ne, lookup_insert_eq. }
  destruct Hb4 as [n' Hb4].
  unfold ret at 1. simpl.
  destruct (fl_insert_spec h4 nb {| size := s - 16 - sz; next := n' |} (prev_of l1) l1 l2 lo hi fuel Hlo) as (h5 & E5 & Hseg5 & Hfr5);
    try done.
  - eapply blocks_ok_hi; [|done]. unfold nb. lia.
  - eapply blocks_ok_lo; [|done]. unfold nb, sizeof_hdr. lia.
  - unfold h4, h3, h2. simpl. rewrite !seg_frame; [done|..].
    all: apply Ha1'; unfold nb; lia.
  - rewrite (bind_eq _ _ _ _ _ E5). exists h5. split; [done|]. split; [done|].
    destruct Hfr5 as (Hh5 & ? & ? & ?), Hfr1 as (Hh1 & ? & ? & ?). split_and!; simpl in *.
    + rewrite Hh5; [by apply lookup_insert_eq|]. intros [?|Hin]; [by destruct Hnb|].
      apply (Ha1' a); [lia|]. rewrite fmap_app, elem_of_app. by left.
    + split_and!; [|congruence..]. intros x Hx.
      assert (Hxa : x <> a) by auto. assert (Hxn : x <> nb) by auto.
      rewrite Hh5 by (intros [?|?]; auto).
      rewrite !lookup_insert_ne by done. apply Hh1. auto.
Qed.

Lemma malloc_loop_spec h l1 l2 p sz lo hi fuel fuel' :
  0 < lo -> hi < 9223372036854775808 -> blocks_ok lo (l1 ++ l2) hi ->
  seg (hdrs h) (fl_head h) (l1 ++ l2) NULL -> seg (hdrs h) p l2 NULL ->
  0 <= sz < 18446744073709551616 - sizeof_hdr ->
  (length (l1 ++ l2) <= fuel)%nat -> (length l2 < fuel')%nat ->
  match first_fit sz l2 with
  | None => loop fuel' (my_malloc_step fuel sz) (p, prev_of l1) h = Ret NULL h
  | Some (a, l2') =>
      exists h', loop fuel' (my_malloc_step fuel sz) (p, prev_of l1) h
                   = Ret (a + sizeof_hdr) h' /\
        seg (hdrs h') (fl_head h') (l1 ++ l2') NULL /\
        hdrs h' !! a = Some {| size := sz; next := MAGIC_NUM |} /\
        a ∈ l2.*1 /\
        frame_hdrs (fun x => x ∈ (l1 ++ l2).*1 \/ x = a + sizeof_hdr + sz) h h'
  end.
Proof.
  intros Hlo Hhi. revert l1 p fuel'.
  induction l2 as [|[a s] l2 IH]; intros l1 p fuel' Hok Hseg Hp Hsz Hf Hf'; simpl.
  { destruct fuel' as [|fuel']; simpl in *; [lia|]. by rewrite Hp. }
  destruct Hp as (-> & n & Ha & Hp). rewrite length_app in Hf. simpl in Hf, Hf'.
  destruct fuel' as [|fuel']; [lia|].
  destruct (Z.leb_spec (sz + sizeof_hdr) s) as [Hfit|Hfit].
  - destruct (malloc_take h l1 a s l2 sz lo hi fuel) as (h' & E & Hseg' & Ha' & Hfr);
      [done|done|done|done|lia|done|lia|].
    exists h'. cbn [loop]. rewrite (bind_eq _ _ _ _ _ E). split_and!; try done.
    + set_solver.
    + destruct Hfr as (Hh & ?). split; [|done]. intros x Hx. apply Hh.
      rewrite fmap_app in Hx. set_solver.
  - assert (Hstep : my_malloc_step fuel sz (a, prev_of l1) h = Ret (inl (n, a)) h).
    { pose proof Hok as (Hok1 & Hs & Hok2)%blocks_ok_app.
      pose proof (blocks_ok_le _ _ _ Hok1). unfold my_malloc_step.
      rewrite (proj2 (Z.eqb_neq a NULL)) by (unfold NULL; lia).
      rewrite (bind_eq _ _ _ _ _ (load_ok _ _ _ Ha)). simpl. unfold sizeof_hdr in *.
      rewrite !u64_small by lia. rewrite Z.geb_leb.
      rewrite (proj2 (Z.leb_gt (sz + 16) s)) by lia. done. }
    specialize (IH (l1 ++ [(a, s)]) n fuel'). rewrite <- app_assoc, prev_of_snoc in IH.
    simpl in IH. rewrite length_app in IH. simpl in IH.
    specialize (IH Hok Hseg Hp Hsz ltac:(lia) ltac:(lia)).
    cbn [loop]. rewrite (bind_eq _ _ _ _ _ Hstep).
    destruct (first_fit sz l2) as [[r l2']|]; [|done].
    destruct IH as (h' & E & Hseg' & Hr & Hin & Hfr). exists h'. split_and!; try done.
    + by rewrite <- app_assoc in Hseg'.
    + set_solver.
Qed.

Lemma first_fit_ok lo hi sz l a l' :
  0 <= sz -> blocks_ok lo l hi -> first_fit sz l = Some (a, l') ->
  blocks_ok lo l' hi /\
  Forall (fun '(b, t) => b + sizeof_hdr + t <= a \/ a + sizeof_hdr + sz <= b) l' /\
  lo <= a /\ a + sizeof_hdr + sz <= hi.
Proof.
  intros Hsz. revert lo l'. induction l as [|[b s] l IH]; intros lo l'; simpl; [done|].
  intros (Hlo & Hs & Hok). pose proof (blocks_ok_le _ _ _ Hok) as Hle.
  unfold sizeof_hdr in *. destruct (Z.leb_spec (sz + 16) s).
  - intros [= <- <-]. split_and!; simpl; try lia.
    + unfold sizeof_hdr. split_and!; try lia. eapply blocks_ok_lo; [|done]. lia.
    + constructor; [lia|]. apply Forall_forall. intros [c t] Hin. right.
      apply (list_elem_of_fmap_2 fst) in Hin.
      apply (blocks_ok_elem _ _ _ _ Hok) in Hin. simpl in Hin. lia.
  - destruct (first_fit sz l) as [[r l'']|]; [|done]. intros [= <- <-].
    destruct (IH _ _ Hok eq_refl) as (? & Hf & ? & ?).
    split_and!; simpl; try lia.
    + split_and!; done || lia.
    + constructor; [lia|done].
Qed.

Lemma first_fit_in sz l a l' : first_fit sz l = Some (a, l') -> a ∈ l.*1.
Proof.
  revert l'. induction l as [|[b s] l IH]; intros l'; simpl; [done|].
  case_if.
  - intros [= <- <-]. set_solver.
  - destruct (first_fit sz l) as [[r l'']|]; [|done]. intros [= <- <-]. set_solver.
Qed.

Lemma merge_adjacent_hd l : fst <$> head (merge_adjacent l) = fst <$> head l.
Proof.
  destruct l as [|[a s] [|[b t] r]]; simpl; [done..|]. by destruct (_ =? _).
Qed.

Lemma seg_ext hs hs' p l q :
  (forall x, x ∈ l.*1 -> hs' !! x = hs !! x) -> seg hs p l q -> seg hs' p l q.
Proof.
  revert p. induction l as [|[b s] l IH]; intros p H; simpl; [done|].
  intros (-> & n & Hb & Hl). split; [done|]. exists n. split; [by rewrite H by set_solver|].
  apply IH; [set_solver|done].
Qed.

(** After block [a] has taken in its neighbour [b], it leads to what followed [b]. *)
Lemma merge_seg h h' l1 r a s t b n lo hi :
  blocks_ok lo (l1 ++ (a, s) :: (b, t) :: r) hi ->
  seg (hdrs h) (fl_head h) (l1 ++ (a, s) :: (b, t) :: r) NULL -> seg (hdrs h) n r NULL ->
  hdrs h' !! a = Some {| size := s + (t + 16); next := n |} -> frame_hdrs (fun x => x = a) h h' -> fl_head h' = fl_head h ->
  seg (hdrs h') n r NULL /\ seg (hdrs h') (fl_head h') ((l1 ++ [(a, s + (t + 16))]) ++ r) NULL.
Proof.
  intros (Hok1 & Hs & Hab & Ht & Hok2)%blocks_ok_app Hseg Hn Ha [Hfr _] Ehd.
  unfold sizeof_hdr in *.
  assert (Hna1 : forall x, x ∈ l1.*1 -> x <> a).
  { intros x Hx ->. apply (blocks_ok_elem _ _ _ _ Hok1) in Hx. unfold sizeof_hdr in *. lia. }
  assert (Hnar : forall x, x ∈ r.*1 -> x <> a).
  { intros x Hx ->. apply (blocks_ok_elem _ _ _ _ Hok2) in Hx. lia. }
  assert (Hr : seg (hdrs h') n r NULL) by (eapply seg_ext; [|exact Hn]; intros x Hx; by apply Hfr, Hnar).
  split; [done|]. rewrite <- app_assoc. apply seg_app in Hseg as (q & Hq1 & [-> _]). apply seg_app.
  exists a. rewrite Ehd. split; [eapply seg_ext; [|exact Hq1]; intros x Hx; by apply Hfr, Hna1|]. simpl. split; [done|]. by exists n.
Qed.

Lemma coalesce_loop h l1 l2 p fuel lo hi :
  0 < lo -> hi < 9223372036854775808 -> hi - lo < 2147483648 ->
  blocks_ok lo (l1 ++ l2) hi -> l2 <> [] ->
  seg (hdrs h) (fl_head h) (l1 ++ l2) NULL -> seg (hdrs h) p l2 NULL ->
  (length l2 <= fuel)%nat ->
  exists h', loop fuel coalesce_step p h = Ret tt h' /\
    seg (hdrs h') (fl_head h) (l1 ++ merge_adjacent l2) NULL /\
    fl_head h' = fl_head h /\ frame_hdrs (fun x => x ∈ l2.*1) h h'.
Proof.
  intros Hlo Hhi Hd. remember (length l2) as n eqn:Hn. revert l2 Hn l1 p h fuel.
  induction n as [n IH] using lt_wf_ind. intros l2 -> l1 p h fuel Hok Hne Hseg Hp Hf.
  destruct fuel as [|fuel]; [destruct l2; [done|simpl in *; lia]|].
  destruct l2 as [|[a s] l2]; [done|]. destruct Hp as (-> & n & Ha & Hp).
  pose proof Hok as (Hok1 & Hs & Hok2)%blocks_ok_app.
  pose proof (blocks_ok_le _ _ _ Hok1) as Hloa.
  assert (Hhead : fl_head h <= a).
  { destruct l1 as [|[c t] l1]; simpl in Hseg; destruct Hseg as [-> _]; [lia|].
    apply (blocks_ok_elem _ _ _ c) in Hok1; [unfold sizeof_hdr in *; lia|set_solver]. }
  unfold sizeof_hdr in *. cbn [loop].
  destruct l2 as [|[b t] r].
  { simpl in Hp. subst n. exists h. unfold coalesce_step.
    unfold bind at 1. unfold bind at 1. rewrite (load_ok _ _ _ Ha). by split_and!. }
  pose proof Hp as (-> & n' & Hb & Hp'). simpl in Hok2.
  destruct Hok2 as (Hab & Ht & Hok2). pose proof (blocks_ok_le _ _ _ Hok2) as Hbhi.
  unfold sizeof_hdr in *.
  assert (Hbz : (b =? NULL) = false) by (apply Z.eqb_neq; unfold NULL; lia).
  assert (Hah : (a <? fl_head h) = false) by (apply Z.ltb_ge; lia).
  unfold coalesce_step at 1. unfold bind, gets, set_size, set_next, modify.
  rewrite (load_ok _ _ _ Ha). simpl. rewrite Hbz, Hah. simpl. unfold sizeof_hdr.
  rewrite u64_small by lia. destruct (Z.eqb_spec (a + s + 16) b) as [Hadj|Hadj].
  - rewrite (load_ok _ _ _ Hb). simpl. rewrite i32_small by lia.
    replace (next (hdr_at h a)) with b by (unfold hdr_at; by rewrite Ha).
    set (h1 := set_hdrs _ h). set (h2 := set_hdrs _ h1).
    assert (Ha2 : hdrs h2 !! a = Some {| size := s + (t + 16); next := n' |}).
    { unfold h2, h1. simpl. rewrite lookup_insert_eq. unfold hdr_at. simpl.
      by rewrite lookup_insert_eq. }
    assert (Hfr2 : frame_hdrs (fun x => x = a) h h2).
    { split; [|done]. intros x Hx. unfold h2, h1. simpl. by rewrite !lookup_insert_ne by done. }
    destruct (merge_seg h h2 l1 r a s t b n' lo hi Hok Hseg Hp' Ha2 Hfr2 eq_refl) as [Hr2 Hseg2].
    rewrite (load_ok _ _ _ Ha2). simpl.
    destruct r as [|[c u] r].
    + simpl in Hr2. subst n'. exists h2. rewrite app_nil_r in Hseg2.
      split_and!; try done. destruct Hfr2 as (Hx & ?). split; [|done].
      intros x Hnx. apply Hx. set_solver.
    + pose proof Hr2 as [-> _]. destruct Hok2 as (Hc & Hu & Hok2).
      rewrite (proj2 (Z.eqb_neq c NULL)) by (unfold NULL; lia).
      destruct (IH (length ((c, u) :: r))) with (l2 := (c, u) :: r) (h := h2)
        (l1 := l1 ++ [(a, s + (t + 16))]) (p := c) (fuel := fuel)
        as (h' & E & Hseg' & Hhd & Hfr); try done; simpl in *; try lia.
      * rewrite <- app_assoc. simpl. apply blocks_ok_app. split; [done|].
        pose proof (blocks_ok_le _ _ _ Hok2). unfold sizeof_hdr in *. split; [lia|].
        simpl. split_and!; [lia|lia|lia|done].
      * exists h'. split; [done|]. rewrite <- app_assoc in Hseg'.
        split_and!; [done|by rewrite Hhd|].
        destruct Hfr as (Hx & ? & ? & ?), Hfr2 as (Hx2 & ? & ? & ?).
        split; [|split_and!; congruence]. intros x Hnx.
        rewrite Hx by set_solver. apply Hx2. set_solver.
  - simpl. rewrite (load_ok _ _ _ Ha). simpl. rewrite Hbz. destruct (IH (length ((b, t) :: r))) with (l2 := (b, t) :: r) (h := h)
        (l1 := l1 ++ [(a, s)]) (p := b) (fuel := fuel)
        as (h' & E & Hseg' & Hhd & Hfr); try done; simpl in *; try lia.
    + by rewrite <- app_assoc.
    + by rewrite <- app_assoc.
    + exists h'. split; [done|]. rewrite <- app_assoc in Hseg'. split_and!; [done|done|].
      destruct Hfr as (Hx & ?). split; [|done]. intros x Hnx. apply Hx. set_solver.
Qed.

Lemma merge_adjacent_ok lo lo' l hi :
  lo <= lo' -> hi - lo < 2147483648 ->
  blocks_ok lo' l hi -> blocks_ok lo' (merge_adjacent l) hi.
Proof.
  intros Hlo Hd. revert lo' Hlo. remember (length l) as n eqn:Hn.
  revert l Hn. induction n as [n IH] using lt_wf_ind.
  intros [|[a s] [|[b t] r]] -> lo' Hlo' Hok; try done.
  destruct Hok as (Ha & Hs & Hb & Ht & Hok). unfold sizeof_hdr in *.
  pose proof (blocks_ok_le _ _ _ Hok). cbn [merge_adjacent]. unfold sizeof_hdr.
  destruct (Z.eqb_spec (a + s + 16) b) as [Hadj|Hadj].
  - simpl. unfold sizeof_hdr. split_and!; [lia|lia|lia|].
    apply (IH (length r)); [simpl; lia|done|lia|]. eapply blocks_ok_lo; [|done]. lia.
  - cbn [blocks_ok]. split_and!; [lia|lia|lia|]. unfold sizeof_hdr.
    refine (IH (length ((b, t) :: r)) _ ((b, t) :: r) eq_refl _ _ _); [simpl; lia|lia|].
    simpl. unfold sizeof_hdr. split_and!; [lia|lia|lia|done].
Qed.

Lemma coalesce_spec h l fuel :
  free_list h l -> l <> [] -> (length l <= fuel)%nat ->
  exists h', coalesce fuel h = Ret tt h' /\
    seg (hdrs h') (fl_head h') (merge_head (merge_adjacent l)) NULL.
Proof.
  intros (Hseg & lo & hi & Hlo & Hhi & Hd & Hok) Hne Hf.
  destruct (coalesce_loop h [] l (fl_head h) fuel lo hi) as (h1 & E1 & Hseg1 & Hhd1 & _);
    [done..|]. simpl in Hseg1.
  assert (Hm : merge_adjacent l <> []).
  { pose proof (merge_adjacent_hd l). destruct l; [done|]. by intros E; rewrite E in *. }
  pose proof (merge_adjacent_ok lo lo l hi ltac:(lia) Hd Hok) as Hmok. clear Hok.
  unfold coalesce. unfold bind at 1, gets at 1. rewrite (bind_eq _ _ _ _ _ E1).
  unfold bind at 1, gets at 1. rewrite Hhd1.
  destruct (merge_adjacent l) as [|[a s] [|[b t] r]]; [done|..]; simpl in Hmok.
  - destruct Hseg1 as (Hha & n & Ha & Hn). simpl in Hn. subst n. exists h1.
    rewrite Hha, (bind_eq _ _ _ _ _ (load_ok _ _ _ Ha)). simpl.
    split; [done|]. rewrite Hhd1, Hha. split; [done|]. by exists NULL.
  - destruct Hseg1 as (Hha & n & Ha & -> & n' & Hb & Hr).
    destruct Hmok as (? & ? & ? & ? & Hmok). pose proof (blocks_ok_le _ _ _ Hmok).
    unfold sizeof_hdr in *.
    rewrite Hha, (bind_eq _ _ _ _ _ (load_ok _ _ _ Ha)). simpl.
    rewrite (proj2 (Z.eqb_neq b NULL)) by (unfold NULL; lia). simpl.
    rewrite (bind_eq _ _ _ _ _ (load_ok _ _ _ Hb)). simpl.
    eexists. split; [reflexivity|]. simpl. rewrite Hhd1, Hha. split; [done|].
    exists n'. unfold hdr_at. simpl. rewrite lookup_insert_eq. simpl.
    unfold sizeof_hdr. rewrite i32_small by lia. split; [by rewrite lookup_insert_eq|].
    assert (a ∉ r.*1) by (intros Hin; apply (blocks_ok_elem _ _ _ _ Hmok) in Hin; lia).
    by rewrite !seg_frame.
Qed.

(** ** Properties *)

(** C25: [my_malloc] is first fit, under either policy: [set_alloc_policy] stores
    the policy and nothing reads it, so a heap set to [AP_BEST] is served first fit
    as well, where the project's tests 6 and 7 ask for best fit
    ([best_fit_not_served]).  On a well-formed heap, for every request whose sum
    with the header size stays inside [size_t] (from 2^64 - 16 on it wraps,
    [my_malloc_size_wraps]): it answers NULL and changes nothing exactly when no
    free block has room for the request and a header; otherwise it returns the
    first such block, marks it with the magic number and its size, keeps the unused
    end of the block free, and leaves a well-formed heap in which no free block
    overlaps the block returned and no other header has changed. *)
Theorem my_malloc_first_fit (h : heap) (l : list (Z * Z)) (sz : Z) (fuel : nat) (policy : ALLOC_POLICY) :
  free_list h l -> 0 <= sz < 18446744073709551616 - sizeof_hdr -> (length l < fuel)%nat ->
  match first_fit sz l with
  | None =>
      (set_alloc_policy policy ;;; my_malloc fuel sz) h = Ret NULL (with_policy policy h)
  | Some (a, l') =>
      exists h', (set_alloc_policy policy ;;; my_malloc fuel sz) h = Ret (a + sizeof_hdr) h' /\
        free_list h' l' /\
        hdrs h' !! a = Some {| size := sz; next := MAGIC_NUM |} /\
        Forall (fun '(b, t) => b + sizeof_hdr + t <= a \/ a + sizeof_hdr + sz <= b) l' /\
        frame_hdrs (fun x => x ∈ l.*1 \/ x = a + sizeof_hdr + sz) (with_policy policy h) h'
  end.
Proof.
  intros Hl. assert (Hl0 : free_list (with_policy policy h) l) by exact Hl.
  unfold set_alloc_policy, modify. unfold bind at 1 2. clear Hl. set (h0 := with_policy policy h) in *.
  clearbody h0. destruct Hl0 as (Hseg & lo & hi & Hlo & Hhi & Hd & Hok). intros Hsz Hf.
  pose proof (malloc_loop_spec h0 [] l (fl_head h0) sz lo hi fuel fuel) as H.
  simpl in H. specialize (H Hlo Hhi Hok Hseg Hseg Hsz ltac:(lia) Hf).
  unfold my_malloc, bind, gets.
  destruct l as [|[a0 s0] l0] eqn:El; [simpl in *; by rewrite Hseg|]. rewrite <- El in *.
  assert (Hnz : (fl_head h0 =? NULL) = false).
  { rewrite El in Hseg, Hok. destruct Hseg as [-> _]. simpl in Hok.
    apply Z.eqb_neq. unfold NULL. lia. }
  rewrite Hnz. destruct (first_fit sz l) as [[a l']|] eqn:Eff; [|done].
  destruct H as (h' & E & Hseg' & Ha & _ & Hfr).
  destruct (first_fit_ok lo hi sz l a l') as (Hok' & Hdis & _); [lia|done..|].
  exists h'. split_and!; try done. split; [done|]. by exists lo, hi.
Qed.

Definition fresh_heap : heap :=
  {| my_heap := 0; fl_head := 0; hdrs := ∅; bytes := fun _ => 0; alloc_policy := AP_FIRST |}.

(** The heap [my_mem_allocator_init] sets up at address 4096. *)
Definition init_heap : heap :=
  set_hdrs {[4096 := {| size := 1048560; next := 0 |}]}
    {| my_heap := 4096; fl_head := 4096; hdrs := ∅;
       bytes := Str.stosb (fun _ => 0) 4096 0 MY_HEAP_SIZE; alloc_policy := AP_FIRST |}.

Lemma my_malloc_first_fit_witness :
  free_list init_heap [(4096, 1048560)] /\
  exists h', (set_alloc_policy AP_BEST ;;; my_malloc 2 256) init_heap = Ret 4112 h' /\
    free_list h' [(4368, 1048288)].
Proof.
  assert (H : free_list init_heap [(4096, 1048560)]).
  { split; [|by exists 4096, 1052672].
    split; [reflexivity|]. exists 0. split; reflexivity. }
  split; [exact H|].
  destruct (my_malloc_first_fit init_heap [(4096, 1048560)] 256 2 AP_BEST H)
    as (h' & E & Hfl & _); [unfold sizeof_hdr; lia|simpl; lia|].
  exists h'. split; [exact E|exact Hfl].
Defined.

(** C35: what [my_free] does to the free list: the block is put at its place in
    address order, touching neighbours are merged in one pass, and then the
    first two blocks of the list are merged, whether or not they touch. *)
Theorem my_free_refines (h : heap) (l1 l2 : list (Z * Z)) (b s n lo hi : Z) (fuel : nat) :
  seg (hdrs h) (fl_head h) (l1 ++ l2) NULL ->
  hdrs h !! b = Some {| size := s; next := n |} ->
  0 < lo -> hi < 9223372036854775808 -> hi - lo < 2147483648 ->
  blocks_ok lo (l1 ++ (b, s) :: l2) hi ->
  (length l1 + length l2 < fuel)%nat ->
  exists h', my_free fuel (b + sizeof_hdr) h = Ret tt h' /\
    seg (hdrs h') (fl_head h') (merge_head (merge_adjacent (l1 ++ (b, s) :: l2))) NULL.
Proof.
  intros Hseg Hb Hlo Hhi Hd Hok Hf. pose proof Hok as (Hok1 & Hs & Hok2)%blocks_ok_app.
  pose proof (blocks_ok_le _ _ _ Hok1). pose proof (blocks_ok_le _ _ _ Hok2).
  unfold sizeof_hdr in *.
  destruct (fl_insert_spec h b {| size := s; next := n |} NULL l1 l2 lo hi fuel)
    as (h1 & E1 & Hseg1 & _); [done|done| |done|done|lia|].
  { eapply blocks_ok_lo; [|done]. lia. }
  unfold my_free, sizeof_hdr. replace (b + 16 - 16) with b by lia.
  rewrite u64_small by lia. rewrite (bind_eq _ _ _ _ _ E1). simpl in Hseg1.
  apply coalesce_spec.
  - split; [done|]. by exists lo, hi.
  - by destruct l1.
  - rewrite length_app. simpl. lia.
Qed.

Lemma my_free_refines_witness :
  exists h', my_free 2 (4096 + sizeof_hdr)
    (set_fl_head 4368 (set_hdrs {[4096 := {| size := 256; next := MAGIC_NUM |};
                                   4368 := {| size := 1048288; next := 0 |}]} init_heap))
    = Ret tt h' /\
    seg (hdrs h') (fl_head h') [(4096, 1048560)] NULL.
Proof.
  eapply (my_free_refines _ [] [(4368, 1048288)] 4096 256 MAGIC_NUM 4096 1052672).
  - split; [reflexivity|]. exists 0. split; reflexivity.
  - reflexivity.
  - lia.
  - lia.
  - lia.
  - vm_compute. repeat split; discriminate.
  - simpl. lia.
Defined.

(** The unconditional merge at the end of [coalesce] frees memory that is
    still allocated.  From a fresh heap, after [p1 = malloc(256)],
    [p2 = malloc(256)] and [free(p1)], a request for 384 bytes is answered
    with [p1], although [p2] starts 272 bytes above it and was never freed. *)
Theorem my_free_merges_live_block :
  exists p1 p2,
    value_of ((let! _ := my_mem_allocator_init 4096 in
      let! p1 := my_malloc 8 256 in
      let! p2 := my_malloc 8 256 in
      my_free 8 p1 ;;;
      let! p3 := my_malloc 8 384 in
      ret (p1, p2, p3)) fresh_heap) = Some (p1, p2, p1) /\
    p1 < p2 < p1 + 384.
Proof. exists 4112, 4384. split; [by vm_compute|lia]. Qed.

(** Best fit is not served: of two free blocks of 1024 and 300 bytes, [my_malloc]
    of 257 bytes under [AP_BEST] returns the one of 1024. *)
Theorem best_fit_not_served :
  value_of ((set_alloc_policy AP_BEST ;;; my_malloc 3 257)
    (set_hdrs {[4096 := {| size := 1024; next := 8192 |}; 8192 := {| size := 300; next := 0 |}]} init_heap))
    = Some 4112.
Proof. by vm_compute. Qed.

(** A request so large that [size + sizeof(BLOCK_HDR)] wraps around in
    [size_t] is granted: [my_malloc(2^64 - 16)] returns a non-null pointer. *)
Theorem my_malloc_size_wraps :
  exists p,
    value_of ((let! _ := my_mem_allocator_init 4096 in
               my_malloc 8 18446744073709551600) fresh_heap) = Some p /\
    p <> NULL.
Proof. exists 4112. split; [by vm_compute|done]. Qed.
