(* ===== verification/Locks.v ===== *)
(** * Spin locks, sleep locks and interrupt nesting

    [spinlock.c] and [sleeplock.c].  Two views of a spin lock: [Spin] is the
    lock word with its atomic [xchg], run by several CPUs in any
    interleaving; [Cli] is what one CPU sees of the locks it takes, with the
    [pushcli]/[popcli] nesting, and is the interface ([SpinState]) that the
    other components lock through. *)

From S2P Require Import Prelude.

(** ** One CPU's view *)

Module Cli.

(** [ncli], [intena] and the interrupt flag of [eflags]. *)
Record cpu := { ncli : Z; intena : bool; intr : bool }.

(** A state with this CPU's nesting record and, per lock, whether this CPU
    holds it. *)
Class SpinState (S L : Type) := {
  cpu_of : S -> cpu;
  set_cpu : cpu -> S -> S;
  lk_of : L -> S -> bool;
  set_lk : L -> bool -> S -> S }.

Class SpinLaws (S L : Type) `{SpinState S L} := {
  cpu_set_cpu : forall c s, cpu_of (set_cpu c s) = c;
  cpu_set_lk : forall l b s, cpu_of (set_lk l b s) = cpu_of s;
  lk_set_cpu : forall l c s, lk_of l (set_cpu c s) = lk_of l s;
  lk_set_lk : forall l b s, lk_of l (set_lk l b s) = b }.

Section Client.
Context {S L : Type} `{!SpinState S L}.

Definition pushcli : M S unit :=
  let! s := get in
  let c := cpu_of s in
  let eflags := intr c in
  modify (set_cpu {| ncli := ncli c + 1;
                     intena := if ncli c =? 0 then eflags else intena c;
                     intr := false |}).

Definition popcli : M S unit :=
  let! s := get in
  let c := cpu_of s in
  if intr c then panic "popcli - interruptible"
  else
    let n := ncli c - 1 in
    if n <? 0 then panic "popcli"
    else
      modify (set_cpu {| ncli := n; intena := intena c;
                         intr := (n =? 0) && intena c |}).

Definition holding (l : L) (s : S) : bool := lk_of l s.

(** The spinning on a lock another CPU holds is in [Spin]; here the lock is
    obtained. *)
Definition acquire (l : L) : M S unit :=
  pushcli ;;;
  let! s := get in
  if holding l s then panic "acquire"
  else modify (set_lk l true).

Definition release (l : L) : M S unit :=
  let! s := get in
  if negb (holding l s) then panic "release"
  else
    modify (set_lk l false) ;;;
    popcli.

End Client.

End Cli.

(** ** Several CPUs and one lock word *)

Module Spin.

(** [struct spinlock]: the word and the owner recorded after taking it. *)
Record spinlock := { locked : bool; owner : option nat }.

Definition initlock : spinlock := {| locked := false; owner := None |}.

(** Where a CPU is in [acquire]/[release]: outside, spinning on [xchg], past
    it but not yet recorded, inside, and with the record cleared but the word
    still set. *)
Inductive pc := Out | Spinning | Got | In | Leaving.

Record machine := { lk : spinlock; pcs : list pc }.

Definition holding (m : machine) (i : nat) : bool :=
  locked (lk m) && bool_decide (owner (lk m) = Some i).

Definition goto (m : machine) (i : nat) (p : pc) (l : spinlock) : machine :=
  {| lk := l; pcs := <[i := p]> (pcs m) |}.

(** One atomic step of CPU [i]; [xchg] reads and sets the word at once. *)
Inductive step (i : nat) (m : machine) : machine -> Prop :=
| step_acquire :
    pcs m !! i = Some Out -> holding m i = false ->
    step i m (goto m i Spinning (lk m))
| step_xchg_busy :
    pcs m !! i = Some Spinning -> locked (lk m) = true ->
    step i m (goto m i Spinning (lk m))
| step_xchg_free :
    pcs m !! i = Some Spinning -> locked (lk m) = false ->
    step i m (goto m i Got {| locked := true; owner := owner (lk m) |})
| step_record :
    pcs m !! i = Some Got ->
    step i m (goto m i In {| locked := locked (lk m); owner := Some i |})
| step_release :
    pcs m !! i = Some In -> holding m i = true ->
    step i m (goto m i Leaving {| locked := locked (lk m); owner := None |})
| step_clear :
    pcs m !! i = Some Leaving ->
    step i m (goto m i Out {| locked := false; owner := owner (lk m) |}).

Definition steps : relation machine := rtc (fun m m' => exists i, step i m m').

Definition init (ncpu : nat) : machine := {| lk := initlock; pcs := replicate ncpu Out |}.

(** The panics: taking a lock held by the same CPU, releasing one it does not
    hold. *)
Definition acquire_panics (m : machine) (i : nat) : Prop :=
  pcs m !! i = Some Out /\ holding m i = true.
Definition release_panics (m : machine) (i : nat) : Prop :=
  pcs m !! i = Some In /\ holding m i = false.

End Spin.

(** ** Sleep locks *)

Module Sleep.

(** A sleep lock, its inner spin lock, and the pid of the running process. *)
Record sleeplock := { slocked : Z; spid : Z; inner : bool; scpu : Cli.cpu; mypid : Z }.

#[global] Instance sleep_spin : Cli.SpinState sleeplock unit := {|
  Cli.cpu_of := scpu;
  Cli.set_cpu := fun c s => {| slocked := slocked s; spid := spid s; inner := inner s;
                               scpu := c; mypid := mypid s |};
  Cli.lk_of := fun _ => inner;
  Cli.set_lk := fun _ b s => {| slocked := slocked s; spid := spid s; inner := b;
                                scpu := scpu s; mypid := mypid s |} |}.

Definition initsleeplock (s : sleeplock) : sleeplock :=
  {| slocked := 0; spid := 0; inner := false; scpu := scpu s; mypid := mypid s |}.

Definition set_owner (l p : Z) (s : sleeplock) : sleeplock :=
  {| slocked := l; spid := p; inner := inner s; scpu := scpu s; mypid := mypid s |}.

(** The [while(lk->locked) sleep(lk, &lk->lk)] loop.  While the process sleeps
    the inner lock is free and other threads run; [env] says what they did to
    the lock until the process runs again, once per sleep. *)
Fixpoint wait_free (chan : Z) (env : list (Z * Z)) : M sleeplock unit :=
  let! s := get in
  if negb (slocked s =? 0) then
    match env with
    | [] => fun s => Asleep chan (Cli.set_lk tt false s)
    | (l, p) :: env' => modify (set_owner l p) ;;; wait_free chan env'
    end
  else ret tt.

Definition acquiresleep (chan : Z) (env : list (Z * Z)) : M sleeplock unit :=
  Cli.acquire tt ;;;
  wait_free chan env ;;;
  modify (fun s => set_owner 1 (mypid s) s) ;;;
  Cli.release tt.

(** [wakeup(lk)] changes the process table, not the lock. *)
Definition releasesleep : M sleeplock unit :=
  Cli.acquire tt ;;;
  modify (set_owner 0 0) ;;;
  Cli.release tt.

Definition holdingsleep : M sleeplock Z :=
  Cli.acquire tt ;;;
  let! r := gets slocked in
  Cli.release tt ;;;
  ret r.

End Sleep.

(** ** The lock word: one CPU at a time *)

Module SpinFacts.
Import Spin.

(** Past the [xchg] that took the lock and not yet past the store that frees
    it. *)
Definition critical (p : pc) : bool :=
  match p with Got | In | Leaving => true | Out | Spinning => false end.

(** Nobody but [i] is in the critical region. *)
Definition others_out (m : machine) (i : nat) : Prop :=
  forall j q, j <> i -> pcs m !! j = Some q -> critical q = false.

(** A free lock has no owner and nobody inside; a taken one has exactly one
    CPU inside, recorded as its owner while it is between [acquire] and
    [release]. *)
Definition inv (m : machine) : Prop :=
  if locked (lk m) then
    exists i p, pcs m !! i = Some p /\ critical p = true /\ others_out m i /\
      owner (lk m) = (if p is In then Some i else None)
  else owner (lk m) = None /\ forall j q, pcs m !! j = Some q -> critical q = false.

Lemma inv_init n : inv (init n).
Proof. split; [done|]. by intros j q [-> _]%lookup_replicate. Qed.

(** Whoever is critical is the one the invariant speaks of. *)
Lemma inv_critical m i p :
  inv m -> pcs m !! i = Some p -> critical p = true ->
  locked (lk m) = true /\ others_out m i /\
  owner (lk m) = (if p is In then Some i else None).
Proof.
  unfold inv. destruct (locked (lk m)).
  - intros (j & q & Hj & Hq & Ho & Hown) Hi Hp.
    destruct (decide (i = j)) as [->|Hne]; [|by rewrite (Ho _ _ Hne Hi) in Hp].
    by simplify_eq.
  - intros [_ Hall] Hi Hp. by rewrite (Hall _ _ Hi) in Hp.
Qed.

Lemma others_goto m i p l : others_out m i -> others_out (goto m i p l) i.
Proof. intros Ho j q Hj. simpl. rewrite list_lookup_insert_ne by done. eauto. Qed.

Lemma inv_step i m m' : step i m m' -> inv m -> inv m'.
Proof.
  intros Hs Hinv.
  destruct Hs as [Hp _|Hp Hlk|Hp Hlk|Hp|Hp _|Hp];
    pose proof (lookup_lt_Some _ _ _ Hp) as Hlt.
  (* the critical CPU moves *)
  4,5: (destruct (inv_critical m i _ Hinv Hp eq_refl) as (Hlk & Ho & Hown);
        unfold inv; simpl; rewrite Hlk; eexists i, _;
        rewrite list_lookup_insert_eq by done; split_and!; try done;
        by apply others_goto).
  4: (destruct (inv_critical m i _ Hinv Hp eq_refl) as (Hlk & Ho & Hown);
      split; [done|]; simpl; intros j q; rewrite list_lookup_insert_Some;
      naive_solver).
  3: (unfold inv in *; simpl; rewrite Hlk in Hinv; destruct Hinv as [Hown Hall];
      exists i, Got; rewrite list_lookup_insert_eq by done; split_and!; try done;
      apply others_goto; intros j q _; apply Hall).
  (* a CPU outside moves *)
  all: unfold inv in *; simpl; destruct (locked (lk m)).
  1,3: (destruct Hinv as (j & q & Hj & Hq & Ho & Hown);
      assert (i <> j) by (intros ->; simplify_eq; by destruct q);
      exists j, q; rewrite list_lookup_insert_ne by done; split_and!; try done;
      intros k r Hk; simpl; rewrite list_lookup_insert_Some; naive_solver).
  all: destruct Hinv as [Hown Hall]; split; [done|]; intros j q;
    rewrite list_lookup_insert_Some; naive_solver.
Qed.

Lemma inv_reachable n m : steps (init n) m -> inv m.
Proof.
  intros Hr. remember (init n) as m0 eqn:E.
  assert (H0 : inv m0) by (subst; apply inv_init). clear E.
  induction Hr as [|m0 m1 m2 [i Hs] _ IH]; [done|]. eauto using inv_step.
Qed.

End SpinFacts.

(** C19: Mutual exclusion.  However the CPUs interleave, at most one of them is
    between taking the lock word and freeing it, the lock then reads as held
    by that CPU once it is past [acquire], and no CPU that came out of
    [acquire] can panic in [release]. *)
Theorem spinlock_mutual_exclusion n m i p :
  Spin.steps (Spin.init n) m ->
  Spin.pcs m !! i = Some p -> SpinFacts.critical p = true ->
  Spin.locked (Spin.lk m) = true /\
  (forall j q, j <> i -> Spin.pcs m !! j = Some q -> q = Spin.Out \/ q = Spin.Spinning) /\
  (p = Spin.In -> forall j, Spin.holding m j = bool_decide (j = i)) /\
  ~ Spin.release_panics m i.
Proof.
  intros Hr%SpinFacts.inv_reachable Hi Hp.
  destruct (SpinFacts.inv_critical _ _ _ Hr Hi Hp) as (Hlk & Ho & Hown).
  split_and!; [done|..].
  - intros j q Hj Hq. specialize (Ho _ _ Hj Hq). destruct q; naive_solver.
  - intros -> j. unfold Spin.holding. rewrite Hlk, Hown. simpl.
    apply bool_decide_ext. naive_solver.
  - intros [HIn Hh]. rewrite Hi in HIn. injection HIn as ->.
    unfold Spin.holding in Hh. rewrite Hlk, Hown in Hh. simpl in Hh.
    by rewrite bool_decide_true in Hh.
Qed.

(** Two CPUs race: the second one is left spinning. *)
Lemma spinlock_mutual_exclusion_witness :
  let m := {| Spin.lk := {| Spin.locked := true; Spin.owner := Some 0%nat |};
              Spin.pcs := [Spin.In; Spin.Spinning] |} in
  Spin.steps (Spin.init 2) m /\ ~ Spin.release_panics m 0.
Proof.
  assert (Hr : Spin.steps (Spin.init 2)
    {| Spin.lk := {| Spin.locked := true; Spin.owner := Some 0%nat |};
       Spin.pcs := [Spin.In; Spin.Spinning] |}).
  { apply rtc_l with (Spin.goto (Spin.init 2) 0 Spin.Spinning Spin.initlock).
    { exists 0%nat. by apply Spin.step_acquire. }
    eapply rtc_l. { exists 1%nat. by apply Spin.step_acquire. }
    eapply rtc_l. { exists 0%nat. by apply Spin.step_xchg_free. }
    eapply rtc_l. { exists 1%nat. by apply Spin.step_xchg_busy. }
    eapply rtc_l. { exists 0%nat. by apply Spin.step_record. }
    apply rtc_refl. }
  split; [exact Hr|].
  apply (spinlock_mutual_exclusion 2 _ 0 Spin.In Hr); reflexivity.
Defined.

(** ** One CPU's nesting *)

Module CliFacts.
Import Cli.
Section Laws.
Context {S L : Type} `{!SpinState S L} `{!SpinLaws S L}.

(** The nesting record between calls: interrupts are off inside a nest. *)
Definition nest_ok (c : cpu) : Prop :=
  0 <= ncli c /\ (0 < ncli c -> intr c = false).

Definition inside (c : cpu) : cpu :=
  {| ncli := ncli c + 1;
     intena := if ncli c =? 0 then intr c else intena c; intr := false |}.

Lemma acquire_run (l : L) s :
  acquire l s =
    if lk_of l s then Panic "acquire"
    else Ret tt (set_lk l true (set_cpu (inside (cpu_of s)) s)).
Proof.
  unfold acquire, pushcli, bind, get, modify, holding.
  rewrite lk_set_cpu. by destruct (lk_of l s).
Qed.

Lemma release_run (l : L) s :
  1 <= ncli (cpu_of s) -> intr (cpu_of s) = false ->
  release l s =
    if lk_of l s then
      Ret tt (set_cpu {| ncli := ncli (cpu_of s) - 1; intena := intena (cpu_of s);
                         intr := (ncli (cpu_of s) - 1 =? 0) && intena (cpu_of s) |}
                      (set_lk l false s))
    else Panic "release".
Proof.
  intros Hn Hi. unfold release, popcli, bind, get, modify, holding.
  destruct (lk_of l s); simpl; [|done].
  rewrite cpu_set_lk, Hi. destruct (Z.ltb_spec (ncli (cpu_of s) - 1) 0); [lia|done].
Qed.

(** What a run that returned did. *)
Lemma acquire_inv (l : L) s s' :
  acquire l s = Ret tt s' ->
  lk_of l s = false /\ s' = set_lk l true (set_cpu (inside (cpu_of s)) s).
Proof. rewrite acquire_run. destruct (lk_of l s); [done|]. by intros [= <-]. Qed.

Lemma release_inv (l : L) s s' :
  release l s = Ret tt s' -> lk_of l s = true /\ exists c, s' = set_cpu c (set_lk l false s).
Proof.
  unfold release, popcli, bind, get, modify, holding. destruct (lk_of l s); [|done]. cbn.
  destruct (intr _); [done|]. destruct (_ <? 0); [done|]. intros [= <-]. eauto.
Qed.

End Laws.
End CliFacts.

(** Taking a lock and releasing it, with any code in between that keeps the
    lock and the CPU's nesting record, gives back the CPU's nesting depth and
    interrupt flag as they were, and panics exactly when the lock was already
    held. *)
Theorem acquire_release_nest {S L} `{!Cli.SpinState S L} `{!Cli.SpinLaws S L}
    (l : L) (s : S) (body : M S unit) :
  CliFacts.nest_ok (Cli.cpu_of s) ->
  (forall s1, exists s2, body s1 = Ret tt s2 /\
     Cli.cpu_of s2 = Cli.cpu_of s1 /\ Cli.lk_of l s2 = Cli.lk_of l s1) ->
  match (Cli.acquire l ;;; body ;;; Cli.release l) s with
  | Ret _ s' =>
      Cli.lk_of l s = false /\ Cli.lk_of l s' = false /\
      Cli.ncli (Cli.cpu_of s') = Cli.ncli (Cli.cpu_of s) /\
      Cli.intr (Cli.cpu_of s') = Cli.intr (Cli.cpu_of s)
  | Panic msg => Cli.lk_of l s = true /\ msg = "acquire"%string
  | _ => False
  end.
Proof.
  intros [Hn Hi] Hbody.
  destruct (Cli.lk_of l s) eqn:Hlk.
  { unfold bind at 1. by rewrite CliFacts.acquire_run, Hlk. }
  erewrite bind_eq by (rewrite CliFacts.acquire_run, Hlk; done).
  destruct (Hbody (Cli.set_lk l true (Cli.set_cpu (CliFacts.inside (Cli.cpu_of s)) s)))
    as (s2 & Hrun & Hc & Hl).
  rewrite (bind_eq _ _ _ _ _ Hrun).
  rewrite Cli.cpu_set_lk, Cli.cpu_set_cpu in Hc. rewrite Cli.lk_set_lk in Hl.
  rewrite CliFacts.release_run, Hl, Hc by (rewrite Hc; simpl; lia || done). simpl.
  rewrite Cli.cpu_set_cpu, Cli.lk_set_cpu, Cli.lk_set_lk. simpl.
  split_and!; [done..|lia|].
  destruct (Z.eqb_spec (Cli.ncli (Cli.cpu_of s)) 0) as [->|Hne]; [done|].
  rewrite (Hi ltac:(lia)). destruct (Z.eqb_spec (Cli.ncli (Cli.cpu_of s) + 1 - 1) 0); [lia|done].
Qed.

#[export] Instance sleep_laws : Cli.SpinLaws Sleep.sleeplock unit.
Proof. by split; intros; try (destruct l). Qed.

(** A sleep lock that is free and whose inner lock is free, at nesting depth
    one with interrupts enabled outside. *)
Definition sample_sleeplock : Sleep.sleeplock :=
  {| Sleep.slocked := 0; Sleep.spid := 0; Sleep.inner := false;
     Sleep.scpu := {| Cli.ncli := 0; Cli.intena := false; Cli.intr := true |};
     Sleep.mypid := 7 |}.

Lemma acquire_release_nest_witness :
  match (Cli.acquire tt ;;; ret tt ;;; Cli.release tt) sample_sleeplock with
  | Ret _ s' =>
      Cli.lk_of tt sample_sleeplock = false /\ Cli.lk_of tt s' = false /\
      Cli.ncli (Cli.cpu_of s') = Cli.ncli (Cli.cpu_of sample_sleeplock) /\
      Cli.intr (Cli.cpu_of s') = Cli.intr (Cli.cpu_of sample_sleeplock)
  | Panic msg => Cli.lk_of tt sample_sleeplock = true /\ msg = "acquire"%string
  | _ => False
  end.
Proof.
  apply (acquire_release_nest tt sample_sleeplock (ret tt)).
  - split; [vm_compute; discriminate|intros H; vm_compute in H; discriminate H].
  - intros s1. exists s1. split_and!; reflexivity.
Defined.

(** ** Sleep locks *)

Module SleepFacts.
Import Sleep.

(** The first time the lock is seen free: now, or after the k-th wake-up. *)
Definition first_free (l0 : Z) (env : list (Z * Z)) : option nat :=
  find_idx (fun l => l =? 0) (l0 :: env.*1).

Lemma wait_free_run chan env s :
  match wait_free chan env s with
  | Ret _ s' => is_Some (first_free (slocked s) env) /\ slocked s' = 0 /\
      inner s' = inner s /\ scpu s' = scpu s /\ mypid s' = mypid s
  | Asleep c s' => first_free (slocked s) env = None /\ c = chan /\ inner s' = false
  | _ => False
  end.
Proof.
  revert s. induction env as [|[l p] env IH]; intros s; unfold first_free;
    cbn [wait_free find_idx fmap list_fmap fst]; unfold bind, get, modify.
  - destruct (Z.eqb_spec (slocked s) 0) as [E|E]; simpl; [by split_and!|].
    destruct (Z.eqb_spec (slocked s) 0); done.
  - destruct (Z.eqb_spec (slocked s) 0) as [E|E]; simpl; [by split_and!|].
    specialize (IH (set_owner l p s)). unfold first_free in IH. simpl in IH.
    destruct (wait_free chan env (set_owner l p s)); try done.
    + destruct IH as ([k Hk] & ? & ? & ? & ?). rewrite Hk. by split_and!.
    + destruct IH as (Hk & ? & ?). by rewrite Hk.
Qed.

End SleepFacts.

(** A process that asks for a sleep lock gets it exactly when the lock is
    free at once or after one of its wake-ups: it then owns the lock, by pid,
    with the inner spin lock released and the interrupt state as before.
    Otherwise it is asleep on the lock's own channel with the inner lock
    released, so that [releasesleep] can run. *)
Theorem acquiresleep_spec chan env (s : Sleep.sleeplock) :
  CliFacts.nest_ok (Sleep.scpu s) -> Sleep.inner s = false ->
  match Sleep.acquiresleep chan env s with
  | Ret _ s' =>
      is_Some (SleepFacts.first_free (Sleep.slocked s) env) /\
      Sleep.slocked s' = 1 /\ Sleep.spid s' = Sleep.mypid s /\
      Sleep.inner s' = false /\ Cli.ncli (Sleep.scpu s') = Cli.ncli (Sleep.scpu s) /\
      Cli.intr (Sleep.scpu s') = Cli.intr (Sleep.scpu s) /\
      exists s'', Sleep.holdingsleep s' = Ret 1 s''
  | Asleep c s' =>
      SleepFacts.first_free (Sleep.slocked s) env = None /\ c = chan /\ Sleep.inner s' = false
  | _ => False
  end.
Proof.
  intros [Hn Hi] Hin. unfold Sleep.acquiresleep.
  erewrite bind_eq by (rewrite CliFacts.acquire_run; simpl; by rewrite Hin).
  match goal with |- context [bind (Sleep.wait_free _ _) _ ?t] =>
    pose proof (SleepFacts.wait_free_run chan env t) as Hw end.
  unfold bind at 1. destruct (Sleep.wait_free _ _ _) as [[] s1| |c s1| |]; [|done..].
  destruct Hw as (Hf & _ & Hin1 & Hc1 & Hp1). simpl in Hf, Hin1, Hc1, Hp1.
  unfold bind, modify. rewrite CliFacts.release_run by (simpl; rewrite Hc1; simpl; lia || done).
  simpl. rewrite Hin1, Hc1. simpl. split_and!; [done..|lia| |].
  - destruct (Z.eqb_spec (Cli.ncli (Sleep.scpu s)) 0) as [->|Hne]; [done|].
    rewrite (Hi ltac:(lia)). destruct (Z.eqb_spec (Cli.ncli (Sleep.scpu s) + 1 - 1) 0); [lia|done].
  - unfold Sleep.holdingsleep.
    erewrite bind_eq by (rewrite CliFacts.acquire_run; simpl; done).
    unfold bind, gets. simpl.
    rewrite CliFacts.release_run by (simpl; lia || done). simpl. eexists. done.
Qed.

(** The holder releases the lock during the second sleep. *)
Lemma acquiresleep_spec_witness :
  match Sleep.acquiresleep 64 [(1, 3); (0, 0)] (Sleep.set_owner 1 3 sample_sleeplock) with
  | Ret _ s' => Sleep.slocked s' = 1 /\ Sleep.spid s' = 7 /\
                exists s'', Sleep.holdingsleep s' = Ret 1 s''
  | _ => False
  end.
Proof.
  pose proof (acquiresleep_spec 64 [(1, 3); (0, 0)] (Sleep.set_owner 1 3 sample_sleeplock)) as H.
  assert (Hn : CliFacts.nest_ok (Sleep.scpu (Sleep.set_owner 1 3 sample_sleeplock))).
  { split; [vm_compute; discriminate|intros E; vm_compute in E; discriminate E]. }
  specialize (H Hn eq_refl).
  destruct (Sleep.acquiresleep _ _ _) as [[] s'| | | |]; try exact H.
  - destruct H as (_ & H1 & H2 & _ & _ & _ & H3). split_and!; [exact H1|exact H2|exact H3].
  - exact (match eq_ind (SleepFacts.first_free 1 [(1, 3); (0, 0)])
             (fun o => if o then True else False) I None (proj1 H) with end).
Defined.
