(* ===== verification/Proc.v ===== *)
(** * Processes and scheduling

    [proc.c] and [proc.h] of project 2 (the stride scheduler), with what
    [switchuvm]/[switchkvm] of [vm.c] do to a process being switched to.
    [Proc] holds the table, the operations and the scheduler round;
    the calls into the page allocator, the address spaces and the file layer
    go through the interface [Services]. *)

From S2P Require Import Prelude Locks.

Module Proc.

Inductive procstate := UNUSED | EMBRYO | SLEEPING | RUNNABLE | RUNNING | ZOMBIE.

#[global] Instance procstate_dec : EqDecision procstate.
Proof. solve_decision. Defined.

(** Where a saved [eip] points: [forkret], or some other code address. *)
Inductive code := Forkret | At (a : Z).

(** [struct context]. *)
Record context := { edi : Z; esi : Z; ebx : Z; ebp : Z; eip : code }.

(** [struct trapframe]: the registers the kernel sets or reads by name, and
    the others in order. *)
Record trapframe := {
  tf_eax : Z; tf_eip : Z; tf_esp : Z; tf_eflags : Z;
  tf_cs : Z; tf_ds : Z; tf_es : Z; tf_ss : Z; tf_others : list Z }.

(** [struct proc].  [tf] and [ctx] are the frames that [p->tf] and
    [p->context] point at, [tfp] and [ctxp] those pointers; [parent] is an
    index into the table; [name] is the string without its NUL. *)
Record proc := {
  sz : Z; pgdir : Z; kstack : Z; state : procstate; pid : Z;
  parent : option nat; tfp : Z; tf : trapframe; ctxp : Z; ctx : context;
  chan : Z; killed : Z; ofile : list Z; cwd : Z; name : list Z;
  tickets : Z; pass : Z }.

Definition set_sz v p := {| sz := v; pgdir := pgdir p; kstack := kstack p; state := state p; pid := pid p; parent := parent p; tfp := tfp p; tf := tf p; ctxp := ctxp p; ctx := ctx p; chan := chan p; killed := killed p; ofile := ofile p; cwd := cwd p; name := name p; tickets := tickets p; pass := pass p |}.
Definition set_pgdir v p := {| sz := sz p; pgdir := v; kstack := kstack p; state := state p; pid := pid p; parent := parent p; tfp := tfp p; tf := tf p; ctxp := ctxp p; ctx := ctx p; chan := chan p; killed := killed p; ofile := ofile p; cwd := cwd p; name := name p; tickets := tickets p; pass := pass p |}.
Definition set_kstack v p := {| sz := sz p; pgdir := pgdir p; kstack := v; state := state p; pid := pid p; parent := parent p; tfp := tfp p; tf := tf p; ctxp := ctxp p; ctx := ctx p; chan := chan p; killed := killed p; ofile := ofile p; cwd := cwd p; name := name p; tickets := tickets p; pass := pass p |}.
Definition set_state v p := {| sz := sz p; pgdir := pgdir p; kstack := kstack p; state := v; pid := pid p; parent := parent p; tfp := tfp p; tf := tf p; ctxp := ctxp p; ctx := ctx p; chan := chan p; killed := killed p; ofile := ofile p; cwd := cwd p; name := name p; tickets := tickets p; pass := pass p |}.
Definition set_pid v p := {| sz := sz p; pgdir := pgdir p; kstack := kstack p; state := state p; pid := v; parent := parent p; tfp := tfp p; tf := tf p; ctxp := ctxp p; ctx := ctx p; chan := chan p; killed := killed p; ofile := ofile p; cwd := cwd p; name := name p; tickets := tickets p; pass := pass p |}.
Definition set_parent v p := {| sz := sz p; pgdir := pgdir p; kstack := kstack p; state := state p; pid := pid p; parent := v; tfp := tfp p; tf := tf p; ctxp := ctxp p; ctx := ctx p; chan := chan p; killed := killed p; ofile := ofile p; cwd := cwd p; name := name p; tickets := tickets p; pass := pass p |}.
Definition set_tf v p := {| sz := sz p; pgdir := pgdir p; kstack := kstack p; state := state p; pid := pid p; parent := parent p; tfp := tfp p; tf := v; ctxp := ctxp p; ctx := ctx p; chan := chan p; killed := killed p; ofile := ofile p; cwd := cwd p; name := name p; tickets := tickets p; pass := pass p |}.
Definition set_frames t c cx p := {| sz := sz p; pgdir := pgdir p; kstack := kstack p; state := state p; pid := pid p; parent := parent p; tfp := t; tf := tf p; ctxp := c; ctx := cx; chan := chan p; killed := killed p; ofile := ofile p; cwd := cwd p; name := name p; tickets := tickets p; pass := pass p |}.
Definition set_chan v p := {| sz := sz p; pgdir := pgdir p; kstack := kstack p; state := state p; pid := pid p; parent := parent p; tfp := tfp p; tf := tf p; ctxp := ctxp p; ctx := ctx p; chan := v; killed := killed p; ofile := ofile p; cwd := cwd p; name := name p; tickets := tickets p; pass := pass p |}.
Definition set_killed v p := {| sz := sz p; pgdir := pgdir p; kstack := kstack p; state := state p; pid := pid p; parent := parent p; tfp := tfp p; tf := tf p; ctxp := ctxp p; ctx := ctx p; chan := chan p; killed := v; ofile := ofile p; cwd := cwd p; name := name p; tickets := tickets p; pass := pass p |}.
Definition set_ofile v p := {| sz := sz p; pgdir := pgdir p; kstack := kstack p; state := state p; pid := pid p; parent := parent p; tfp := tfp p; tf := tf p; ctxp := ctxp p; ctx := ctx p; chan := chan p; killed := killed p; ofile := v; cwd := cwd p; name := name p; tickets := tickets p; pass := pass p |}.
Definition set_cwd v p := {| sz := sz p; pgdir := pgdir p; kstack := kstack p; state := state p; pid := pid p; parent := parent p; tfp := tfp p; tf := tf p; ctxp := ctxp p; ctx := ctx p; chan := chan p; killed := killed p; ofile := ofile p; cwd := v; name := name p; tickets := tickets p; pass := pass p |}.
Definition set_name v p := {| sz := sz p; pgdir := pgdir p; kstack := kstack p; state := state p; pid := pid p; parent := parent p; tfp := tfp p; tf := tf p; ctxp := ctxp p; ctx := ctx p; chan := chan p; killed := killed p; ofile := ofile p; cwd := cwd p; name := v; tickets := tickets p; pass := pass p |}.
Definition set_tickets v p := {| sz := sz p; pgdir := pgdir p; kstack := kstack p; state := state p; pid := pid p; parent := parent p; tfp := tfp p; tf := tf p; ctxp := ctxp p; ctx := ctx p; chan := chan p; killed := killed p; ofile := ofile p; cwd := cwd p; name := name p; tickets := v; pass := pass p |}.
Definition set_pass v p := {| sz := sz p; pgdir := pgdir p; kstack := kstack p; state := state p; pid := pid p; parent := parent p; tfp := tfp p; tf := tf p; ctxp := ctxp p; ctx := ctx p; chan := chan p; killed := killed p; ofile := ofile p; cwd := cwd p; name := name p; tickets := tickets p; pass := v |}.

Definition NPROC : nat := 64.
Definition NOFILE : nat := 16.
Definition KSTACKSIZE : Z := 4096.
Definition PGSIZE : Z := 4096.
Definition KERNBASE : Z := 2147483648.
Definition V2P (a : Z) : Z := u32 (a - KERNBASE).

(** ** What the process code asks of the other parts of the kernel *)

Class Services (R : Type) := {
  kalloc : M R Z;
  kfree : Z -> M R unit;
  setupkvm : M R Z;
  inituvm : Z -> M R unit;
  allocuvm : Z -> Z -> Z -> M R Z;
  deallocuvm : Z -> Z -> Z -> M R Z;
  freevm : Z -> M R unit;
  copyuvm : Z -> Z -> M R Z;
  filedup : Z -> M R Z;
  fileclose : Z -> M R unit;
  idup : Z -> M R Z;
  iput : Z -> M R unit;
  namei_root : M R Z;
  begin_op : M R unit;
  end_op : M R unit }.

(** The spin locks this part of the kernel takes by name. *)
Inductive lockid := LPtable | LTicks | LOther (a : Z).
#[global] Instance lockid_dec : EqDecision lockid.
Proof. solve_decision. Defined.

(** What a [cprintf] writes (a number under [%d] or [%p], or text), and what is
    written to an I/O port. *)
Inductive item :=
| ONum (n : Z) | OHex (n : Z) | OStr (s : string) | OBytes (b : list Z) | OPort (p v : Z).

(** The state one CPU works on: the table and the scheduler's globals, the CPU
    itself ([held] are the locks it holds, [cur] is [c->proc], [cr3] and
    [esp0] what [switchuvm] loads), the console, the user memory of the
    current address space, and the rest of the kernel. *)
Record kst (R : Type) := Kst {
  procs : list proc; nextpid : Z; initproc : option nat;
  curMin : Z; winner : Z; str : Z; trace_on : Z; trace_cnt : Z;
  cpu : Cli.cpu; held : list lockid; cur : option nat; cr3 : Z; esp0 : Z; kpgdir : Z;
  ticks : Z; umem : mem; out : list item; rest : R }.
Arguments Kst {R}. Arguments procs {R}. Arguments nextpid {R}. Arguments initproc {R}.
Arguments curMin {R}. Arguments winner {R}. Arguments str {R}. Arguments trace_on {R}.
Arguments trace_cnt {R}. Arguments cpu {R}. Arguments held {R}. Arguments cur {R}.
Arguments cr3 {R}. Arguments esp0 {R}. Arguments kpgdir {R}. Arguments ticks {R}.
Arguments umem {R}. Arguments out {R}. Arguments rest {R}.

(** ** Code other CPUs see the steps of

    [sleep] and [wakeup] are written as sequences of atomic steps: an action on
    the state, taking a lock, letting go of one, and the switch to the scheduler.
    [run] is what one CPU makes of them, with [resume] for what the others do
    while the process is switched out; [Wakeup.Smp] runs several at a time. *)
Inductive kcode (R A : Type) : Type :=
| Done (a : A)
| KAct (B : Type) (m : M (kst R) B) (k : B -> kcode R A)
| KAcquire (l : lockid) (k : kcode R A)
| KRelease (l : lockid) (k : kcode R A)
| KSched (k : kcode R A).
Arguments Done {R A}. Arguments KAct {R A B}. Arguments KAcquire {R A}. Arguments KRelease {R A}.
Arguments KSched {R A}.

Fixpoint kbind {R A B} (p : kcode R A) (f : A -> kcode R B) : kcode R B :=
  match p with
  | Done a => f a
  | KAct m k => KAct m (fun b => kbind (k b) f)
  | KAcquire l k => KAcquire l (kbind k f)
  | KRelease l k => KRelease l (kbind k f)
  | KSched k => KSched (kbind k f)
  end.
Definition act {R A} (m : M (kst R) A) : kcode R A := KAct m Done.
Definition k_acquire {R} (l : lockid) : kcode R unit := KAcquire l (Done tt).
Definition k_release {R} (l : lockid) : kcode R unit := KRelease l (Done tt).
Definition k_sched {R} : kcode R unit := KSched (Done tt).
Notation "'let@' x ':=' m 'in' k" := (kbind m (fun x => k))
  (at level 10, x pattern, m at level 100, k at level 200) : c_scope.
Notation "m >; k" := (kbind m (fun _ => k))
  (at level 100, right associativity) : c_scope.

Section Ops.
Context {R : Type}.
Implicit Type s : kst R.

Definition with_procs v s : kst R := Kst v (nextpid s) (initproc s) (curMin s) (winner s) (str s) (trace_on s) (trace_cnt s) (cpu s) (held s) (cur s) (cr3 s) (esp0 s) (kpgdir s) (ticks s) (umem s) (out s) (rest s).
Definition with_nextpid v s : kst R := Kst (procs s) v (initproc s) (curMin s) (winner s) (str s) (trace_on s) (trace_cnt s) (cpu s) (held s) (cur s) (cr3 s) (esp0 s) (kpgdir s) (ticks s) (umem s) (out s) (rest s).
Definition with_initproc v s : kst R := Kst (procs s) (nextpid s) v (curMin s) (winner s) (str s) (trace_on s) (trace_cnt s) (cpu s) (held s) (cur s) (cr3 s) (esp0 s) (kpgdir s) (ticks s) (umem s) (out s) (rest s).
Definition with_curMin v s : kst R := Kst (procs s) (nextpid s) (initproc s) v (winner s) (str s) (trace_on s) (trace_cnt s) (cpu s) (held s) (cur s) (cr3 s) (esp0 s) (kpgdir s) (ticks s) (umem s) (out s) (rest s).
Definition with_winner v s : kst R := Kst (procs s) (nextpid s) (initproc s) (curMin s) v (str s) (trace_on s) (trace_cnt s) (cpu s) (held s) (cur s) (cr3 s) (esp0 s) (kpgdir s) (ticks s) (umem s) (out s) (rest s).
Definition with_str v s : kst R := Kst (procs s) (nextpid s) (initproc s) (curMin s) (winner s) v (trace_on s) (trace_cnt s) (cpu s) (held s) (cur s) (cr3 s) (esp0 s) (kpgdir s) (ticks s) (umem s) (out s) (rest s).
Definition with_trace_on v s : kst R := Kst (procs s) (nextpid s) (initproc s) (curMin s) (winner s) (str s) v (trace_cnt s) (cpu s) (held s) (cur s) (cr3 s) (esp0 s) (kpgdir s) (ticks s) (umem s) (out s) (rest s).
Definition with_trace_cnt v s : kst R := Kst (procs s) (nextpid s) (initproc s) (curMin s) (winner s) (str s) (trace_on s) v (cpu s) (held s) (cur s) (cr3 s) (esp0 s) (kpgdir s) (ticks s) (umem s) (out s) (rest s).
Definition with_cpu v s : kst R := Kst (procs s) (nextpid s) (initproc s) (curMin s) (winner s) (str s) (trace_on s) (trace_cnt s) v (held s) (cur s) (cr3 s) (esp0 s) (kpgdir s) (ticks s) (umem s) (out s) (rest s).
Definition with_held v s : kst R := Kst (procs s) (nextpid s) (initproc s) (curMin s) (winner s) (str s) (trace_on s) (trace_cnt s) (cpu s) v (cur s) (cr3 s) (esp0 s) (kpgdir s) (ticks s) (umem s) (out s) (rest s).
Definition with_cur v s : kst R := Kst (procs s) (nextpid s) (initproc s) (curMin s) (winner s) (str s) (trace_on s) (trace_cnt s) (cpu s) (held s) v (cr3 s) (esp0 s) (kpgdir s) (ticks s) (umem s) (out s) (rest s).
Definition with_cr3 v s : kst R := Kst (procs s) (nextpid s) (initproc s) (curMin s) (winner s) (str s) (trace_on s) (trace_cnt s) (cpu s) (held s) (cur s) v (esp0 s) (kpgdir s) (ticks s) (umem s) (out s) (rest s).
Definition with_esp0 v s : kst R := Kst (procs s) (nextpid s) (initproc s) (curMin s) (winner s) (str s) (trace_on s) (trace_cnt s) (cpu s) (held s) (cur s) (cr3 s) v (kpgdir s) (ticks s) (umem s) (out s) (rest s).
Definition with_ticks v s : kst R := Kst (procs s) (nextpid s) (initproc s) (curMin s) (winner s) (str s) (trace_on s) (trace_cnt s) (cpu s) (held s) (cur s) (cr3 s) (esp0 s) (kpgdir s) v (umem s) (out s) (rest s).
Definition with_umem v s : kst R := Kst (procs s) (nextpid s) (initproc s) (curMin s) (winner s) (str s) (trace_on s) (trace_cnt s) (cpu s) (held s) (cur s) (cr3 s) (esp0 s) (kpgdir s) (ticks s) v (out s) (rest s).
Definition with_out v s : kst R := Kst (procs s) (nextpid s) (initproc s) (curMin s) (winner s) (str s) (trace_on s) (trace_cnt s) (cpu s) (held s) (cur s) (cr3 s) (esp0 s) (kpgdir s) (ticks s) (umem s) v (rest s).
Definition with_rest v s : kst R := Kst (procs s) (nextpid s) (initproc s) (curMin s) (winner s) (str s) (trace_on s) (trace_cnt s) (cpu s) (held s) (cur s) (cr3 s) (esp0 s) (kpgdir s) (ticks s) (umem s) (out s) v.

#[export] Instance kst_spin : Cli.SpinState (kst R) lockid := {|
  Cli.cpu_of := cpu;
  Cli.set_cpu := with_cpu;
  Cli.lk_of := fun l s => bool_decide (l ∈ held s);
  Cli.set_lk := fun l (b : bool) s =>
    with_held (if b then l :: held s else filter (fun l' => l' <> l) (held s)) s |}.

(** A write through a [struct proc] pointer, and a read. *)
Definition upd (i : nat) (f : proc -> proc) : M (kst R) unit :=
  modify (fun s => with_procs (alter f i (procs s)) s).
Definition proc_at (i : nat) : M (kst R) proc :=
  let! s := get in from_opt (procs s !! i).

(** A call into another part of the kernel. *)
Definition svc {A} (m : M R A) : M (kst R) A := zoom rest with_rest m.

Definition cprintf (l : list item) : M (kst R) unit :=
  modify (fun s => with_out (out s ++ l) s).

(** The channel that the address of a table slot stands for; other channels
    are not of this form, and null is 0. *)
Definition procaddr (p : option nat) : Z :=
  match p with Some i => Z.of_nat i + 1 | None => 0 end.
Definition ticksaddr : Z := -1.

Definition acquire (l : lockid) : M (kst R) unit := Cli.acquire l.
Definition release (l : lockid) : M (kst R) unit := Cli.release l.

(** [mycpu]'s scan of [cpus] for the local APIC's id, given the ids. *)
Definition mycpu_scan (apicids : list Z) (apicid : Z) : option nat :=
  find_idx (fun a => a =? apicid) apicids.
Definition mycpu : M (kst R) unit :=
  let! s := get in
  if Cli.intr (cpu s) then panic "mycpu called with interrupts enabled" else ret tt.

Definition myproc : M (kst R) (option nat) :=
  Cli.pushcli ;;;
  mycpu ;;;
  let! p := gets cur in
  Cli.popcli ;;;
  ret p.

(** [myproc()] used as a pointer at once. *)
Definition myproc_ : M (kst R) nat :=
  let! p := myproc in from_opt p.

Context `{!Services R}.

Definition is_state (st : procstate) (p : proc) : bool := bool_decide (state p = st).

Definition forkret_context : context :=
  {| edi := 0; esi := 0; ebx := 0; ebp := 0; eip := Forkret |}.

(** [p->pid = nextpid++]. *)
Definition fresh_pid (i : nat) : M (kst R) unit :=
  let! n := gets nextpid in
  let! n' := to_int (n + 1) in
  upd i (set_pid n) ;;;
  modify (with_nextpid n').

(** [sizeof(struct trapframe)] is 76, [sizeof(struct context)] 20. *)
Definition allocproc : M (kst R) (option nat) :=
  acquire LPtable ;;;
  let! s := get in
  match find_idx (is_state UNUSED) (procs s) with
  | None => release LPtable ;;; ret None
  | Some i =>
      upd i (set_state EMBRYO) ;;;
      fresh_pid i ;;;
      release LPtable ;;;
      let! k := svc kalloc in
      upd i (set_kstack k) ;;;
      if k =? 0 then upd i (set_state UNUSED) ;;; ret None
      else
        let sp := k + KSTACKSIZE - 76 in
        upd i (set_frames sp (sp - 4 - 20) forkret_context) ;;;
        upd i (set_pass 0) ;;;
        upd i (set_tickets (100 / 4)) ;;;
        ret (Some i)
  end.

(** [safestrcpy] into a 16-byte [name]. *)
Definition copy_name (src : list Z) : list Z := take 15 src.

Definition user_tf : trapframe :=
  {| tf_eax := 0; tf_eip := 0; tf_esp := PGSIZE; tf_eflags := 512;
     tf_cs := Z.lor (Z.shiftl 3 3) 3; tf_ds := Z.lor (Z.shiftl 4 3) 3;
     tf_es := Z.lor (Z.shiftl 4 3) 3; tf_ss := Z.lor (Z.shiftl 4 3) 3;
     tf_others := replicate 11 0 |}.

Definition initcode_name : list Z := [105; 110; 105; 116; 99; 111; 100; 101].

Definition userinit : M (kst R) unit :=
  let! p := allocproc in
  modify (with_initproc p) ;;;
  let! i := from_opt p in
  let! d := svc setupkvm in
  upd i (set_pgdir d) ;;;
  if d =? 0 then panic "userinit: out of memory?"
  else
    svc (inituvm d) ;;;
    upd i (set_sz PGSIZE) ;;;
    upd i (set_tf user_tf) ;;;
    upd i (set_name (copy_name initcode_name)) ;;;
    let! c := svc namei_root in
    upd i (set_cwd c) ;;;
    acquire LPtable ;;;
    upd i (set_state RUNNABLE) ;;;
    release LPtable.

(** [switchuvm] and [switchkvm] of [vm.c]: the guards, the kernel stack of the
    task state and the page directory loaded. *)
Definition switchuvm (i : nat) : M (kst R) unit :=
  let! p := proc_at i in
  if kstack p =? 0 then panic "switchuvm: no kstack"
  else if pgdir p =? 0 then panic "switchuvm: no pgdir"
  else
    Cli.pushcli ;;;
    mycpu ;;;
    modify (with_esp0 (kstack p + KSTACKSIZE)) ;;;
    modify (with_cr3 (V2P (pgdir p))) ;;;
    Cli.popcli.
Definition switchkvm : M (kst R) unit :=
  modify (fun s => with_cr3 (V2P (kpgdir s)) s).

Definition growproc (n : Z) : M (kst R) Z :=
  let! me := myproc_ in
  let! p := proc_at me in
  let! sz' :=
    (if n >? 0 then svc (allocuvm (pgdir p) (sz p) (u32 (sz p + n)))
     else if n <? 0 then svc (deallocuvm (pgdir p) (sz p) (u32 (sz p + n)))
     else ret (sz p)) in
  if negb (n =? 0) && (sz' =? 0) then ret (-1)
  else
    upd me (set_sz sz') ;;;
    switchuvm me ;;;
    ret 0.

(** [swtch] to the scheduler: [resume] is what happens to the state until this
    process runs again, if it does. *)
Definition swtch (me : nat) (resume : option (kst R -> kst R)) : M (kst R) unit :=
  match resume with
  | Some f => modify f
  | None => let! p := proc_at me in fun s => Asleep (chan p) s
  end.

Definition sched (resume : option (kst R -> kst R)) : M (kst R) unit :=
  let! p := myproc in
  let! s := get in
  if negb (Cli.holding LPtable s) then panic "sched ptable.lock"
  else
    mycpu ;;;
    if negb (Cli.ncli (cpu s) =? 1) then panic "sched locks"
    else
      let! i := from_opt p in
      let! pr := proc_at i in
      if is_state RUNNING pr then panic "sched running"
      else if Cli.intr (cpu s) then panic "sched interruptible"
      else
        let intena := Cli.intena (cpu s) in
        swtch i resume ;;;
        mycpu ;;;
        modify (fun s => with_cpu {| Cli.ncli := Cli.ncli (cpu s); Cli.intena := intena;
                                     Cli.intr := Cli.intr (cpu s) |} s).

(** What one CPU makes of such code. *)
Fixpoint run {A} (resume : option (kst R -> kst R)) (p : kcode R A) : M (kst R) A :=
  match p with
  | Done a => ret a
  | KAct m k => let! b := m in run resume (k b)
  | KAcquire l k => acquire l ;;; run resume k
  | KRelease l k => release l ;;; run resume k
  | KSched k => sched resume ;;; run resume k
  end.

Definition yield (resume : option (kst R -> kst R)) : M (kst R) unit :=
  let! s := get in
  (if negb (trace_on s =? 0) then
     let! me := myproc_ in
     let! p := proc_at me in
     cprintf [ONum (pid p)] ;;;
     let! n := to_int (trace_cnt s + 1) in
     modify (with_trace_cnt n) ;;;
     if Z.rem n 20 =? 0 then cprintf [OBytes [10]] else cprintf [OStr " - "]
   else ret tt) ;;;
  acquire LPtable ;;;
  let! me := myproc_ in
  upd me (set_state RUNNABLE) ;;;
  sched resume ;;;
  release LPtable.

(** The loop over the descriptors in [fork]. *)
Definition dup_files (me np : nat) : M (kst R) unit :=
  for_each (seq 0 NOFILE) (fun fd =>
    let! p := proc_at me in
    let f := nth fd (ofile p) 0 in
    if negb (f =? 0) then
      let! f' := svc (filedup f) in
      upd np (fun q => set_ofile (<[fd := f']> (ofile q)) q)
    else ret tt).

Definition child_tf (t : trapframe) : trapframe :=
  {| tf_eax := 0; tf_eip := tf_eip t; tf_esp := tf_esp t; tf_eflags := tf_eflags t;
     tf_cs := tf_cs t; tf_ds := tf_ds t; tf_es := tf_es t; tf_ss := tf_ss t;
     tf_others := tf_others t |}.

Definition fork (resume : option (kst R -> kst R)) : M (kst R) Z :=
  let! me := myproc in
  let! r := allocproc in
  match r with
  | None => ret (-1)
  | Some np =>
      let! me := from_opt me in
      let! p := proc_at me in
      let! d := svc (copyuvm (pgdir p) (sz p)) in
      upd np (set_pgdir d) ;;;
      if d =? 0 then
        let! q := proc_at np in
        svc (kfree (kstack q)) ;;;
        upd np (set_kstack 0) ;;;
        upd np (set_state UNUSED) ;;;
        ret (-1)
      else
        upd np (set_sz (sz p)) ;;;
        upd np (set_parent (Some me)) ;;;
        upd np (set_tf (child_tf (tf p))) ;;;
        dup_files me np ;;;
        let! c := svc (idup (cwd p)) in
        upd np (set_cwd c) ;;;
        upd np (set_name (copy_name (name p))) ;;;
        let! q := proc_at np in
        acquire LPtable ;;;
        upd np (set_state RUNNABLE) ;;;
        release LPtable ;;;
        let! s := get in
        (if winner s =? 1 then yield resume else ret tt) ;;;
        ret (pid q)
  end.

Definition wake (c : Z) (p : proc) : proc :=
  if is_state SLEEPING p && (chan p =? c) then set_state RUNNABLE p else p.
Definition wakeup1 (c : Z) : M (kst R) unit :=
  modify (fun s => with_procs (wake c <$> procs s) s).

Definition wakeup_code (c : Z) : kcode R unit :=
  k_acquire LPtable >;
  act (wakeup1 c) >;
  k_release LPtable.
Definition wakeup (c : Z) : M (kst R) unit := run None (wakeup_code c).

(** The loops over the descriptors and over the children in [exit]. *)
Definition close_files (me : nat) : M (kst R) unit :=
  for_each (seq 0 NOFILE) (fun fd =>
    let! p := proc_at me in
    let f := nth fd (ofile p) 0 in
    if negb (f =? 0) then
      svc (fileclose f) ;;;
      upd me (fun q => set_ofile (<[fd := 0]> (ofile q)) q)
    else ret tt).
Definition abandon_children (me : nat) : M (kst R) unit :=
  for_each (seq 0 NPROC) (fun k =>
    let! p := proc_at k in
    if bool_decide (parent p = Some me) then
      let! init := gets initproc in
      upd k (set_parent init) ;;;
      if is_state ZOMBIE p then wakeup1 (procaddr init) else ret tt
    else ret tt).

Definition exit (resume : option (kst R -> kst R)) : M (kst R) unit :=
  let! p := myproc in
  let! s := get in
  if bool_decide (p = initproc s) then panic "init exiting"
  else
    let! me := from_opt p in
    close_files me ;;;
    svc begin_op ;;;
    let! p := proc_at me in
    svc (iput (cwd p)) ;;;
    svc end_op ;;;
    upd me (set_cwd 0) ;;;
    acquire LPtable ;;;
    let! p := proc_at me in
    wakeup1 (procaddr (parent p)) ;;;
    abandon_children me ;;;
    upd me (set_state ZOMBIE) ;;;
    sched resume ;;;
    panic "zombie exit".

Definition sleep_code (c : Z) (lk : option lockid) : kcode R unit :=
  let@ p := act myproc in
  match p, lk with
  | None, _ => act (panic "sleep")
  | Some _, None => act (panic "sleep without lk")
  | Some me, Some lk =>
      (if decide (lk = LPtable) then Done tt else k_acquire LPtable >; k_release lk) >;
      act (upd me (set_chan c)) >;
      act (upd me (set_state SLEEPING)) >;
      k_sched >;
      act (upd me (set_chan 0)) >;
      (if decide (lk = LPtable) then Done tt else k_release LPtable >; k_acquire lk)
  end.
Definition sleep (c : Z) (lk : option lockid) (resume : option (kst R -> kst R))
    : M (kst R) unit := run resume (sleep_code c lk).

(** [wait]'s scan: whether a child was seen, and the first zombie one. *)
Fixpoint wait_scan (me : nat) (l : list proc) (k : nat) (havekids : bool)
    : bool * option nat :=
  match l with
  | [] => (havekids, None)
  | p :: l' =>
      if negb (bool_decide (parent p = Some me)) then wait_scan me l' (S k) havekids
      else if is_state ZOMBIE p then (true, Some k)
      else wait_scan me l' (S k) true
  end.

Definition reap (k : nat) : M (kst R) Z :=
  let! p := proc_at k in
  svc (kfree (kstack p)) ;;;
  upd k (set_kstack 0) ;;;
  svc (freevm (pgdir p)) ;;;
  upd k (set_pid 0) ;;;
  upd k (set_parent None) ;;;
  upd k (set_name []) ;;;
  upd k (set_killed 0) ;;;
  upd k (set_state UNUSED) ;;;
  ret (pid p).

(** The [for(;;)] of [wait]; [env] has one entry per time the process is
    woken. *)
Fixpoint wait_loop (me : nat) (env : list (kst R -> kst R)) : M (kst R) Z :=
  let! s := get in
  match wait_scan me (procs s) 0 false with
  | (_, Some k) =>
      let! pid := reap k in
      release LPtable ;;;
      ret pid
  | (havekids, None) =>
      let! p := proc_at me in
      if negb havekids || negb (killed p =? 0) then
        release LPtable ;;;
        ret (-1)
      else
        sleep (procaddr (Some me)) (Some LPtable) (head env) ;;;
        match env with
        | [] => fault
        | _ :: env' => wait_loop me env'
        end
  end.

Definition wait (env : list (kst R -> kst R)) : M (kst R) Z :=
  let! me := myproc_ in
  acquire LPtable ;;;
  wait_loop me env.

(** ** The scheduler *)

(** [getminproc]'s loop with its locals [firstProc], [curMin] and [retProc]. *)
Fixpoint getmin_loop (l : list proc) (k : nat) (firstProc : bool) (cm : Z)
    (retProc : option nat) : option nat * Z :=
  match l with
  | [] => (retProc, cm)
  | p :: l' =>
      if negb (is_state RUNNABLE p) then getmin_loop l' (S k) firstProc cm retProc
      else if negb (is_state UNUSED p) then
        if firstProc then getmin_loop l' (S k) false (pass p) (Some k)
        else if pass p <? cm then getmin_loop l' (S k) firstProc (pass p) (Some k)
        else getmin_loop l' (S k) firstProc cm retProc
      else getmin_loop l' (S k) firstProc cm retProc
  end.

Definition getminproc : M (kst R) (option nat) :=
  let! s := get in
  let '(r, cm) := getmin_loop (procs s) 0 true (curMin s) None in
  modify (with_curMin cm) ;;;
  ret r.

Definition competes (p : proc) : bool := is_state RUNNABLE p || is_state RUNNING p.

Definition count_competing (l : list proc) : Z :=
  Z.of_nat (length (filter (fun p => competes p = true) l)).
Definition give_tickets (count : Z) (p : proc) : proc :=
  if competes p then set_tickets (Z.quot 100 count) p else p.
Definition updateTickets : M (kst R) unit :=
  modify (fun s => with_procs (give_tickets (count_competing (procs s)) <$> procs s) s).

Definition getProc (pid' : Z) (s : kst R) : option nat :=
  find_idx (fun p => is_state RUNNABLE p && negb (is_state UNUSED p) && (pid p =? pid'))
           (procs s).

(** Switch to slot [i]: [run] is what the process does to the state until it
    calls [sched]. *)
Definition run_proc (i : nat) (run : kst R -> kst R) : M (kst R) unit :=
  modify (with_cur (Some i)) ;;;
  switchuvm i ;;;
  upd i (set_state RUNNING) ;;;
  modify run ;;;
  switchkvm.

(** The body of [scheduler]'s loop with [str == 1], between the lock calls. *)
Definition stride_round (run : nat -> kst R -> kst R) : M (kst R) bool :=
  updateTickets ;;;
  let! r := getminproc in
  (match r with
   | None => ret tt
   | Some i =>
       let! p := proc_at i in
       if tickets p =? 0 then fault
       else
         let! v := to_int (pass p + Z.quot 1000 (tickets p)) in
         upd i (set_pass v) ;;;
         run_proc i (run i)
   end) ;;;
  modify (with_cur None) ;;;
  ret (bool_decide (is_Some r)).

(** The round-robin pass over the table from slot [i] on. *)
Fixpoint rr_loop (run : nat -> kst R -> kst R) (idxs : list nat) (ran : bool) : M (kst R) bool :=
  match idxs with
  | [] => ret ran
  | i :: idxs' =>
      let! p := proc_at i in
      if negb (is_state RUNNABLE p) then rr_loop run idxs' ran
      else
        run_proc i (run i) ;;;
        modify (with_cur None) ;;;
        rr_loop run idxs' true
  end.

Definition sti : M (kst R) unit :=
  modify (fun s => with_cpu {| Cli.ncli := Cli.ncli (cpu s); Cli.intena := Cli.intena (cpu s);
                               Cli.intr := true |} s).

(** One turn of the [for(;;)]: [true] when a process ran, [false] when the CPU
    then halts until the next interrupt. *)
Definition sched_turn (run : nat -> kst R -> kst R) : M (kst R) bool :=
  sti ;;;
  acquire LPtable ;;;
  let! s := get in
  let! ran := (if str s =? 1 then stride_round run else rr_loop run (seq 0 NPROC) false) in
  release LPtable ;;;
  ret ran.

(** Any finite number of turns of [scheduler]. *)
Definition scheduler (turns : list (nat -> kst R -> kst R)) : M (kst R) unit :=
  mycpu ;;;
  modify (with_cur None) ;;;
  for_each turns (fun run => sched_turn run ;;; ret tt).

(** [first] is the static of [forkret]; the file system start-up it guards is
    an argument. *)
Definition forkret (first : bool) (iinit initlog : M R unit) : M (kst R) bool :=
  release LPtable ;;;
  (if first then svc iinit ;;; svc initlog else ret tt) ;;;
  ret false.

Definition kill (pid' : Z) : M (kst R) Z :=
  acquire LPtable ;;;
  let! s := get in
  match find_idx (fun p => pid p =? pid') (procs s) with
  | Some i =>
      upd i (set_killed 1) ;;;
      let! p := proc_at i in
      (if is_state SLEEPING p then upd i (set_state RUNNABLE) else ret tt) ;;;
      release LPtable ;;;
      ret 0
  | None =>
      release LPtable ;;;
      ret (-1)
  end.

Definition state_name (st : procstate) : string :=
  match st with
  | UNUSED => "unused" | EMBRYO => "embryo" | SLEEPING => "sleep "
  | RUNNABLE => "runble" | RUNNING => "run   " | ZOMBIE => "zombie"
  end.

(** [procdump]; [pcs] is what [getcallerpcs] finds from a saved [ebp]. *)
Definition procdump (pcs : Z -> list Z) : M (kst R) unit :=
  let! s := get in
  for_each (procs s) (fun p =>
    if is_state UNUSED p then ret tt
    else
      cprintf ([ONum (pid p); OStr " "; OStr (state_name (state p)); OStr " "; OBytes (name p)]
        ++ (if is_state SLEEPING p then
              (let l := take 10 (pcs (ebp (ctx p) + 8)) in
               take (default (length l) (find_idx (fun a => a =? 0) l)) l)
              ≫= (fun a => [OStr " "; OHex a])
            else [])
        ++ [OBytes [10]])).

End Ops.
End Proc.
