(* ===== verification/ProcFacts.v ===== *)
(** * Processes and scheduling: lemmas and properties

    [ProcFacts] runs the operations of [Proc] symbolically and proves the
    invariants; the properties follow it. *)

From S2P Require Import Prelude Locks Proc.

(** ** Running the operations *)

Module ProcFacts.
Import Proc.

Section Facts.
Context {R : Type}.
Implicit Type s : kst R.

#[export] Instance kst_laws : Cli.SpinLaws (kst R) lockid.
Proof.
  split; try done. intros l [] s; simpl.
  - apply bool_decide_true. set_solver.
  - apply bool_decide_false. by rewrite list_elem_of_filter; intros [].
Qed.

Lemma held_cons_filter (l : lockid) (h : list lockid) :
  l ∉ h -> filter (fun l' => l' <> l) (l :: h) = h.
Proof.
  intros Hl. rewrite filter_cons_False by naive_solver.
  induction h as [|x h IH]; [done|]. rewrite filter_cons_True by set_solver.
  f_equal. apply IH. set_solver.
Qed.

(** The nesting record after a balanced pair of [pushcli] and [popcli]. *)
Definition unnest (c : Cli.cpu) : Cli.cpu :=
  {| Cli.ncli := Cli.ncli c;
     Cli.intena := if Cli.ncli c =? 0 then Cli.intr c else Cli.intena c;
     Cli.intr := Cli.intr c |}.

Lemma unnest_ok c : CliFacts.nest_ok c -> CliFacts.nest_ok (unnest c).
Proof. done. Qed.
Lemma unnest_idem c : unnest (unnest c) = unnest c.
Proof. unfold unnest. simpl. by destruct (Cli.ncli c =? 0). Qed.
Lemma inside_unnest c : CliFacts.inside (unnest c) = CliFacts.inside c.
Proof. unfold CliFacts.inside, unnest. simpl. by destruct (Cli.ncli c =? 0). Qed.

(** Leaving a nest entered from [c]. *)
Lemma leave_inside c :
  CliFacts.nest_ok c ->
  {| Cli.ncli := Cli.ncli (CliFacts.inside c) - 1;
     Cli.intena := Cli.intena (CliFacts.inside c);
     Cli.intr := (Cli.ncli (CliFacts.inside c) - 1 =? 0) && Cli.intena (CliFacts.inside c) |}
  = unnest c.
Proof.
  intros [Hn Hi]. unfold unnest, CliFacts.inside. simpl.
  rewrite Z.add_simpl_r. f_equal.
  destruct (Z.eqb_spec (Cli.ncli c) 0) as [E|E]; simpl; [done|].
  rewrite (Hi ltac:(lia)). done.
Qed.

Lemma inside_nest c : CliFacts.nest_ok c -> CliFacts.nest_ok (CliFacts.inside c).
Proof. intros [Hn Hi]. split; simpl; [lia|done]. Qed.

(** Critical sections on a named lock. *)
Definition locked_st (l : lockid) s : kst R :=
  with_held (l :: held s) (with_cpu (CliFacts.inside (cpu s)) s).

Lemma acquire_ok l s : l ∉ held s -> acquire l s = Ret tt (locked_st l s).
Proof.
  intros Hl. unfold acquire. rewrite CliFacts.acquire_run. simpl.
  by rewrite bool_decide_false.
Qed.

Lemma release_ok l s c h :
  CliFacts.nest_ok c -> l ∉ h ->
  cpu s = CliFacts.inside c -> held s = l :: h ->
  release l s = Ret tt (with_cpu (unnest c) (with_held h s)).
Proof.
  intros Hc Hl Ec Eh. unfold release. pose proof (proj1 Hc) as Hn.
  rewrite CliFacts.release_run by (simpl; rewrite Ec; simpl; lia || done). simpl.
  rewrite Eh, bool_decide_true by set_solver. cbv zeta.
  rewrite held_cons_filter by done. rewrite Ec, leave_inside by done. done.
Qed.

Lemma myproc_ok s :
  CliFacts.nest_ok (cpu s) -> myproc s = Ret (cur s) (with_cpu (unnest (cpu s)) s).
Proof.
  intros Hc. unfold myproc, Cli.pushcli, mycpu, Cli.popcli, bind, get, gets, modify. simpl.
  destruct Hc as [Hn Hi]. destruct (Z.ltb_spec (Cli.ncli (cpu s) + 1 - 1) 0); [lia|].
  simpl. unfold ret. f_equal. pose proof (leave_inside (cpu s) (conj Hn Hi)) as E.
  unfold CliFacts.inside in E. simpl in E. unfold with_cpu. simpl. by rewrite E.
Qed.

Lemma myproc__ok s i :
  CliFacts.nest_ok (cpu s) -> cur s = Some i ->
  myproc_ s = Ret i (with_cpu (unnest (cpu s)) s).
Proof.
  intros Hc Hi. unfold myproc_. rewrite (bind_eq _ _ _ _ _ (myproc_ok _ Hc)), Hi. done.
Qed.

Lemma proc_at_ok s i p : procs s !! i = Some p -> proc_at i s = Ret p s.
Proof. intros H. unfold proc_at, bind, get. by rewrite H. Qed.

End Facts.

(** ** Hoare triples on the process table *)

(** [m] returns, and the state it returns in satisfies [Q]. *)
Definition runs_to {S A} (m : M S A) (s : S) (Q : A -> S -> Prop) : Prop :=
  exists a s', m s = Ret a s' /\ Q a s'.

(** ** [sleep] and [wakeup] as one CPU runs them *)

Section Run.
Context {R : Type}.
Implicit Type s : kst R.

Lemma run_bind {A B} resume (p : kcode R A) (f : A -> kcode R B) s :
  run resume (kbind p f) s = (let! a := run resume p in run resume (f a)) s.
Proof.
  revert s. induction p as [a|B' m k IH|l k IH|l k IH|k IH]; intros s; cbn [kbind run]; [done|..];
    unfold bind at 1 2 3; case_match; done || apply IH.
Qed.

Lemma run_act {A} resume (m : M (kst R) A) s : run resume (act m) s = m s.
Proof. unfold act. cbn [run]. unfold bind. by destruct (m s). Qed.
Lemma run_acquire resume l s : run resume (k_acquire l) s = acquire l s.
Proof. unfold k_acquire. cbn [run]. unfold bind. by destruct (acquire l s) as [[]| | | |]. Qed.
Lemma run_release resume l s : run resume (k_release l) s = release l s.
Proof. unfold k_release. cbn [run]. unfold bind. by destruct (release l s) as [[]| | | |]. Qed.
Lemma run_sched resume s : run resume k_sched s = sched resume s.
Proof. unfold k_sched. cbn [run]. unfold bind. by destruct (sched resume s) as [[]| | | |]. Qed.

Ltac run_steps :=
  repeat (rewrite run_bind; apply bind_ext; [|intros]);
  rewrite ?run_act, ?run_acquire, ?run_release, ?run_sched; try done.

Lemma wakeup_run c s :
  wakeup c s = (acquire LPtable ;;; wakeup1 c ;;; release LPtable) s.
Proof. unfold wakeup, wakeup_code. run_steps. Qed.

Lemma sleep_run c lk resume s :
  sleep c lk resume s =
    (let! p := myproc in
     match p, lk with
     | None, _ => panic "sleep"
     | Some _, None => panic "sleep without lk"
     | Some me, Some lk =>
         (if decide (lk = LPtable) then ret tt else acquire LPtable ;;; release lk) ;;;
         upd me (set_chan c) ;;;
         upd me (set_state SLEEPING) ;;;
         sched resume ;;;
         upd me (set_chan 0) ;;;
         (if decide (lk = LPtable) then ret tt else release LPtable ;;; acquire lk)
     end) s.
Proof.
  unfold sleep, sleep_code. run_steps. destruct a as [me|], lk as [lk|]; run_steps;
    destruct (decide _); run_steps.
Qed.

End Run.

(** Whatever [m] comes to, the state that is left satisfies [I]. *)
Definition keeps {S A} (I : S -> Prop) (m : M S A) : Prop :=
  forall s, I s ->
    match m s with Ret _ s' | Asleep _ s' => I s' | _ => True end.

Section Keeps.
Context {S : Type} (I : S -> Prop).

Lemma keeps_ext {A} (m m' : M S A) : (forall s, m s = m' s) -> keeps I m' -> keeps I m.
Proof. intros E H s Hs. rewrite E. by apply H. Qed.
Lemma keeps_ret {A} (a : A) : keeps I (ret a).
Proof. intros s Hs. exact Hs. Qed.
Lemma keeps_get : keeps I get.
Proof. intros s Hs. done. Qed.
Lemma keeps_gets {A} (f : S -> A) : keeps I (gets f).
Proof. intros s Hs. done. Qed.
Lemma keeps_panic {A} msg : keeps I (@panic S A msg).
Proof. intros s Hs. done. Qed.
Lemma keeps_fault {A} : keeps I (@fault S A).
Proof. intros s Hs. done. Qed.
Lemma keeps_from_opt {A} (o : option A) : keeps I (from_opt o).
Proof. intros s Hs. by destruct o. Qed.
Lemma keeps_modify f : (forall s, I s -> I (f s)) -> keeps I (modify f).
Proof. intros H s. apply H. Qed.
Lemma keeps_bind {A B} (m : M S A) (k : A -> M S B) :
  keeps I m -> (forall a, keeps I (k a)) -> keeps I (bind m k).
Proof.
  intros Hm Hk s Hs. unfold bind. specialize (Hm s Hs).
  destruct (m s); try done. by apply Hk.
Qed.
Lemma keeps_for_each {A} (l : list A) (b : A -> M S unit) :
  (forall a, keeps I (b a)) -> keeps I (for_each l b).
Proof. intros Hb. induction l; simpl; [apply keeps_ret|by apply keeps_bind]. Qed.

End Keeps.

Create HintDb keeps.
#[export] Hint Resolve keeps_ret keeps_get keeps_gets keeps_panic keeps_fault
  keeps_from_opt : keeps.

(** Walk through an operation, leaving the writes to the database. *)
Ltac keep :=
  repeat first
    [ progress intros
    | solve [eauto with keeps]
    | match goal with
      | |- keeps _ (bind _ _) => apply keeps_bind
      | |- keeps _ (for_each _ _) => apply keeps_for_each
      | |- keeps _ (let '(_, _) := ?x in _) => destruct x
      | |- keeps _ (match ?x with _ => _ end) => destruct x
      end ].

(** ** Process ids *)

Section Pids.
Context {R : Type}.
Implicit Type s : kst R.

(** Every slot has no pid or one handed out before, and no two slots have the
    same one. *)
Record pids_ok s : Prop := {
  pids_len : length (procs s) = NPROC;
  pids_next : 0 < nextpid s;
  pids_range : forall i p, procs s !! i = Some p -> pid p = 0 \/ 0 < pid p < nextpid s;
  pids_uniq : forall i j p q, procs s !! i = Some p -> procs s !! j = Some q ->
    pid p <> 0 -> pid p = pid q -> i = j }.

(** Only [procs] and [nextpid] matter. *)
Lemma pids_ok_ext s s' :
  pid <$> procs s' = pid <$> procs s -> nextpid s' = nextpid s -> pids_ok s -> pids_ok s'.
Proof.
  intros Hp Hn [Hl Hx Hr Hu].
  assert (Hback : forall i p, procs s' !! i = Some p ->
    exists q, procs s !! i = Some q /\ pid q = pid p).
  { intros i p Hi. assert (H : (pid <$> procs s') !! i = Some (pid p)) by
      (rewrite list_lookup_fmap, Hi; done).
    rewrite Hp, list_lookup_fmap in H. apply fmap_Some in H as (q & -> & E). by exists q. }
  split.
  - rewrite <- (length_fmap pid), Hp, length_fmap. done.
  - by rewrite Hn.
  - intros i p (q & Hq & <-)%Hback. rewrite Hn. eauto.
  - intros i j p q (p' & Hp' & <-)%Hback (q' & Hq' & <-)%Hback. eauto.
Qed.

Lemma pids_upd i f : (forall p, pid (f p) = pid p) -> keeps pids_ok (upd i f).
Proof.
  intros Hf. apply keeps_modify. intros s. apply pids_ok_ext; [|done].
  by apply fmap_alter_same.
Qed.

Lemma pids_clear i : keeps pids_ok (upd i (set_pid 0)).
Proof.
  apply keeps_modify. intros s [Hl Hx Hr Hu]. split; simpl.
  - by rewrite length_alter.
  - done.
  - intros j p [(<- & q & ? & ->)|[? Hj]]%lookup_alter_Some; [by left|eauto].
  - intros j k p q [(<- & p' & ? & ->)|[? Hj]]%lookup_alter_Some; [done|].
    intros [(<- & q' & ? & ->)|[? Hk]]%lookup_alter_Some; [done|eauto].
Qed.

Lemma pids_fresh i : keeps pids_ok (fresh_pid i).
Proof.
  intros s [Hl Hx Hr Hu]. unfold fresh_pid, to_int, bind, gets, upd, modify.
  destruct (int_ok (nextpid s + 1)); [|done]. simpl.
  split; simpl.
  - by rewrite length_alter.
  - lia.
  - intros j p [(<- & q & Hq & ->)|[? Hj]]%lookup_alter_Some; simpl; [lia|].
    destruct (Hr _ _ Hj); [by left|right; lia].
  - intros j k p q [(<- & p' & Hp & ->)|[? Hj]]%lookup_alter_Some;
    intros [(<- & q' & Hq & ->)|[? Hk]]%lookup_alter_Some; simpl; try done.
    + intros _ E. destruct (Hr _ _ Hk); lia.
    + intros Hz E. destruct (Hr _ _ Hj); lia.
    + eauto.
Qed.

Lemma pids_wakeup1 c : keeps pids_ok (wakeup1 c : M (kst R) unit).
Proof.
  apply keeps_modify. intros s. apply pids_ok_ext; [|done]. simpl.
  rewrite <- list_fmap_compose. apply list_fmap_ext. intros i p _. simpl.
  unfold wake. by destruct (is_state SLEEPING p && (chan p =? c)).
Qed.

Lemma pids_updateTickets : keeps pids_ok (updateTickets : M (kst R) unit).
Proof.
  apply keeps_modify. intros s. apply pids_ok_ext; [|done]. simpl.
  rewrite <- list_fmap_compose. apply list_fmap_ext. intros i p _. simpl.
  unfold give_tickets. by destruct (competes p).
Qed.

(** A write that touches neither the table nor [nextpid]. *)
Lemma pids_frame f :
  (forall s, procs (f s) = procs s) -> (forall s, nextpid (f s) = nextpid s) ->
  keeps pids_ok (modify f).
Proof. intros Hp Hn. apply keeps_modify. intros s. apply pids_ok_ext; by rewrite ?Hp. Qed.

Lemma pids_svc {A} (m : M R A) : keeps pids_ok (svc m).
Proof. intros s Hs. unfold svc, zoom. destruct (m (rest s)); try done; by apply (pids_ok_ext s). Qed.

Lemma pids_resume i resume :
  (forall f, resume = Some f -> forall s, pids_ok s -> pids_ok (f s)) ->
  keeps pids_ok (swtch i resume).
Proof.
  intros H. destruct resume as [f|]; simpl; [apply keeps_modify; eauto|].
  apply keeps_bind; [unfold proc_at; keep|]. intros p s Hs. exact Hs.
Qed.

End Pids.

#[export] Hint Resolve pids_clear pids_fresh pids_wakeup1 pids_updateTickets pids_svc : keeps.
#[export] Hint Extern 3 (keeps pids_ok (upd _ _)) => (apply pids_upd; done) : keeps.
#[export] Hint Extern 3 (keeps pids_ok (modify _)) => (apply pids_frame; done) : keeps.

(** Walk through an operation, unfolding the helpers it is made of. *)
Ltac keep_pids :=
  unfold acquire, release, Cli.acquire, Cli.release, myproc_, myproc, Cli.pushcli, Cli.popcli,
    mycpu, proc_at, cprintf, to_int, Cli.holding;
  keep.

Section Ops.
Context {R : Type} `{!Services R}.

Lemma pids_allocproc : keeps pids_ok (allocproc : M (kst R) _).
Proof. unfold allocproc. keep_pids. Qed.
Lemma pids_sched resume :
  (forall f, resume = Some f -> forall s, pids_ok s -> pids_ok (f s)) ->
  keeps pids_ok (sched resume : M (kst R) _).
Proof. intros H. pose proof (fun i => pids_resume i _ H). unfold sched. keep_pids. Qed.
#[local] Hint Resolve pids_allocproc pids_sched : keeps.

Lemma pids_yield resume :
  (forall f, resume = Some f -> forall s, pids_ok s -> pids_ok (f s)) ->
  keeps pids_ok (yield resume : M (kst R) _).
Proof. intros H. unfold yield. keep_pids. Qed.
Lemma pids_sleep c lk resume :
  (forall f, resume = Some f -> forall s, pids_ok s -> pids_ok (f s)) ->
  keeps pids_ok (sleep c lk resume : M (kst R) _).
Proof. intros H. eapply keeps_ext; [apply sleep_run|]. keep_pids. Qed.
#[local] Hint Resolve pids_yield pids_sleep : keeps.

Lemma pids_fork resume :
  (forall f, resume = Some f -> forall s, pids_ok s -> pids_ok (f s)) ->
  keeps pids_ok (fork resume : M (kst R) _).
Proof. intros H. unfold fork, dup_files. keep_pids. Qed.
Lemma pids_exit resume :
  (forall f, resume = Some f -> forall s, pids_ok s -> pids_ok (f s)) ->
  keeps pids_ok (exit resume : M (kst R) _).
Proof. intros H. unfold exit, close_files, abandon_children. keep_pids. Qed.
Lemma pids_wait env :
  (forall f, f ∈ env -> forall s, pids_ok s -> pids_ok (f s)) ->
  keeps pids_ok (wait env : M (kst R) _).
Proof.
  intros H. unfold wait. apply keeps_bind; [keep_pids|]. intros me.
  apply keeps_bind; [keep_pids|]. intros _.
  revert H. induction env as [|f env IH]; intros H; simpl; unfold reap; keep_pids; try done.
  all: try (apply pids_sleep; intros g [= ->]; apply H; set_solver).
  apply IH. set_solver.
Qed.
Lemma pids_kill n : keeps pids_ok (kill n : M (kst R) _).
Proof. unfold kill. keep_pids. Qed.
Lemma pids_growproc n : keeps pids_ok (growproc n : M (kst R) _).
Proof. unfold growproc, switchuvm. keep_pids. Qed.
Lemma pids_wakeup c : keeps pids_ok (wakeup c : M (kst R) _).
Proof. eapply keeps_ext; [apply wakeup_run|]. keep_pids. Qed.
Lemma pids_userinit : keeps pids_ok (userinit : M (kst R) _).
Proof. unfold userinit. keep_pids. Qed.

Lemma pids_run_proc i f :
  (forall s, pids_ok s -> pids_ok (f s)) -> keeps pids_ok (run_proc i f : M (kst R) _).
Proof.
  intros H. pose proof (keeps_modify _ _ H). unfold run_proc, switchuvm, switchkvm. keep_pids.
Qed.
#[local] Hint Resolve pids_run_proc : keeps.

Lemma pids_sched_turn run :
  (forall i s, pids_ok s -> pids_ok (run i s)) -> keeps pids_ok (sched_turn run : M (kst R) _).
Proof.
  intros H. unfold sched_turn, stride_round, getminproc, sti.
  assert (Hrr : forall idxs ran, keeps pids_ok (rr_loop run idxs ran : M (kst R) _)).
  { intros idxs. induction idxs as [|i idxs IH]; intros ran; simpl; keep_pids. }
  keep_pids.
Qed.

End Ops.

(** ** Functional behaviour *)

Section Runs.
Context {R : Type}.
Implicit Type s : kst R.

(** A thread outside the process table's critical sections. *)
Definition quiet s : Prop := CliFacts.nest_ok (cpu s) /\ LPtable ∉ held s.

(** What every balanced stretch of code preserves: the CPU's nesting depth and
    interrupt flag, and the locks held. *)
Definition balanced s s' : Prop :=
  Cli.ncli (cpu s') = Cli.ncli (cpu s) /\ Cli.intr (cpu s') = Cli.intr (cpu s) /\
  held s' = held s.

Lemma balanced_quiet s s' : balanced s s' -> quiet s -> quiet s'.
Proof.
  intros (En & Ei & Eh) [Hc Hh]. unfold quiet, CliFacts.nest_ok.
  rewrite En, Ei, Eh. done.
Qed.

Context `{!Services R}.

(** The record [allocproc] leaves in the slot it takes. *)
Definition newborn (n k : Z) (p : proc) : proc :=
  if k =? 0 then set_state UNUSED (set_kstack 0 (set_pid n p))
  else set_tickets 25 (set_pass 0 (set_frames (k + 4020) (k + 3996) forkret_context
         (set_kstack k (set_pid n (set_state EMBRYO p))))).

Lemma allocproc_full s i k r' :
  quiet s -> find_idx (is_state UNUSED) (procs s) = Some i ->
  int_ok (nextpid s + 1) = true -> kalloc (rest s) = Ret k r' ->
  exists s', allocproc s = Ret (if k =? 0 then None else Some i) s' /\
    procs s' = alter (newborn (nextpid s) k) i (procs s) /\
    nextpid s' = nextpid s + 1 /\ rest s' = r' /\ balanced s s' /\
    cur s' = cur s /\ initproc s' = initproc s /\ winner s' = winner s.
Proof.
  intros [Hc Hh] Hf Hn Hk. unfold allocproc.
  rewrite (bind_eq _ _ _ _ _ (acquire_ok LPtable s Hh)).
  unfold bind at 1. unfold get at 1. cbn [procs locked_st with_held with_cpu]. rewrite Hf.
  unfold fresh_pid, to_int, upd, gets, modify, ret.
  cbn -[release svc kalloc Z.add Z.sub int_ok]. unfold bind at 1 2 3.
  cbn -[release svc kalloc Z.add Z.sub int_ok]. rewrite Hn. unfold bind at 1 2 3 4.
  erewrite (release_ok LPtable); [..|done|done]; [|done..].
  unfold bind at 1, svc, zoom. cbn -[kalloc Z.add Z.sub]. rewrite Hk.
  unfold bind. cbn -[Z.add Z.sub].
  destruct (Z.eqb_spec k 0) as [->|Hk0]; eexists; (split; [done|]);
    cbn -[Z.add Z.sub]; rewrite !alter_alter; split_and!; try done.
  apply list_alter_ext; [|done]. intros p _. unfold newborn.
  destruct (Z.eqb_spec k 0); [done|]. f_equal. f_equal. f_equal; unfold KSTACKSIZE; lia.
Qed.

Lemma allocproc_no_slot s :
  quiet s -> find_idx (is_state UNUSED) (procs s) = None ->
  exists s', allocproc s = Ret None s' /\ procs s' = procs s /\
    nextpid s' = nextpid s /\ rest s' = rest s /\ balanced s s'.
Proof.
  intros [Hc Hh] Hf. unfold allocproc.
  rewrite (bind_eq _ _ _ _ _ (acquire_ok LPtable s Hh)).
  unfold bind at 1. unfold get at 1. cbn [procs locked_st with_held with_cpu]. rewrite Hf.
  erewrite bind_eq by (eapply (release_ok LPtable); done). by eexists.
Qed.

(** [kill]'s effect on the slot it finds. *)
Definition killed_now (p : proc) : proc :=
  if is_state SLEEPING p then set_state RUNNABLE (set_killed 1 p) else set_killed 1 p.

Lemma kill_full s n :
  quiet s ->
  exists s', kill n s =
      Ret (if find_idx (fun p => pid p =? n) (procs s) then 0 else -1) s' /\
    procs s' = (if find_idx (fun p => pid p =? n) (procs s) is Some i
                then alter killed_now i (procs s) else procs s) /\
    nextpid s' = nextpid s /\ rest s' = rest s /\ balanced s s'.
Proof.
  intros [Hc Hh]. unfold kill.
  rewrite (bind_eq _ _ _ _ _ (acquire_ok LPtable s Hh)).
  unfold bind at 1. unfold get at 1. cbn [procs locked_st with_held with_cpu].
  destruct (find_idx _ (procs s)) as [i|] eqn:Hf.
  - apply find_idx_Some in Hf as (p & Hp & _).
    unfold upd, modify. unfold bind at 1. unfold bind at 1.
    erewrite proc_at_ok by (cbn; by rewrite list_lookup_alter_eq, Hp).
    assert (Est : is_state SLEEPING (set_killed 1 p) = is_state SLEEPING p) by done.
    rewrite Est. unfold bind at 1.
    destruct (is_state SLEEPING p) eqn:Es; cbn -[release];
      erewrite bind_eq by (eapply (release_ok LPtable); done); eexists;
      (split; [done|]); cbn; rewrite ?alter_alter; split_and!; try done;
      apply list_alter_ext; try done; intros q Hq; simplify_eq;
      unfold killed_now; by rewrite Es.
  - erewrite bind_eq by (eapply (release_ok LPtable); done). by eexists.
Qed.

Lemma wakeup_full s c :
  quiet s -> exists s', wakeup c s = Ret tt s' /\ procs s' = wake c <$> procs s /\
    nextpid s' = nextpid s /\ rest s' = rest s /\ balanced s s'.
Proof.
  intros [Hc Hh]. setoid_rewrite wakeup_run.
  rewrite (bind_eq _ _ _ _ _ (acquire_ok LPtable s Hh)).
  unfold wakeup1, modify, bind. erewrite (release_ok LPtable) by done. by eexists.
Qed.

(** A process table in which [me] runs, with [c] the record of the CPU before
    the only lock held, that of the table, was taken. *)
Definition running_locked (me : nat) (c : Cli.cpu) s : Prop :=
  cur s = Some me /\ CliFacts.nest_ok c /\ Cli.ncli c = 0 /\
  cpu s = CliFacts.inside c /\ held s = [LPtable].

(** [sched] switches out from such a state once the process is not RUNNING. *)
Lemma sched_out s me c p :
  running_locked me c s -> procs s !! me = Some p -> state p <> RUNNING ->
  sched None s = Asleep (chan p) (with_cpu (unnest (cpu s)) s).
Proof.
  intros (Hcur & Hc & Hn & Ecpu & Eh) Hp Hst. unfold sched.
  assert (Hin : CliFacts.nest_ok (cpu s)) by (rewrite Ecpu; by apply inside_nest).
  rewrite (bind_eq _ _ _ _ _ (myproc_ok s Hin)). unfold bind at 1. unfold get at 1.
  unfold Cli.holding. cbn. rewrite Eh, bool_decide_true by set_solver. cbn.
  unfold bind, mycpu, swtch, proc_at, get, ret. cbn. rewrite Ecpu. cbn. rewrite Hn, Hcur. cbn.
  change (negb (0 + 1 =? 1)) with false. cbn. rewrite Hp. cbn. unfold is_state. rewrite bool_decide_false by done. cbn.
  rewrite Hp. done.
Qed.

End Runs.

(** ** exit *)

Section Exit.
Context {R : Type} `{!Services R}.
Implicit Type s : kst R.

Lemma alter_ext_at {A} (f g : A -> A) (l : list A) i :
  (forall x, l !! i = Some x -> f x = g x) -> alter f i l = alter g i l.
Proof. intros H. by apply list_alter_ext. Qed.

Lemma close_loop_ok me fds s o :
  (forall f r, exists r', fileclose f r = Ret tt r') ->
  is_Some (procs s !! me) -> NoDup fds ->
  exists o' r', for_each fds (fun fd =>
      let! p := proc_at me in
      let f := nth fd (ofile p) 0 in
      if negb (f =? 0) then
        svc (fileclose f) ;;; upd me (fun q => set_ofile (<[fd := 0]> (ofile q)) q)
      else ret tt) (with_procs (alter (set_ofile o) me (procs s)) s) =
    Ret tt (with_rest r' (with_procs (alter (set_ofile o') me (procs s)) s)) /\
    (forall fd, fd ∈ fds -> nth fd o' 0 = 0) /\
    (forall fd, nth fd o 0 = 0 -> nth fd o' 0 = 0).
Proof.
  intros Hcl [p0 Hp0] Hnd. revert s o Hp0. induction Hnd as [|fd fds _ _ IH]; intros s o Hp0.
  { exists o, (rest s). split_and!; [done|set_solver|done]. }
  assert (Hins : forall l i j, nth i (<[j := 0]> l) 0 = if decide (i = j) then 0 else nth i l 0).
  { intros l i j. rewrite !nth_lookup. case_decide as E; subst.
    - destruct (decide (j < length l)%nat).
      + by rewrite list_lookup_insert_eq.
      + rewrite lookup_ge_None_2; [done|]. rewrite length_insert. lia.
    - by rewrite list_lookup_insert_ne. }
  cbn [for_each]. unfold bind at 1. unfold bind at 1.
  erewrite proc_at_ok by (cbn; by rewrite list_lookup_alter_eq, Hp0).
  cbn [ofile set_ofile].
  destruct (Z.eqb_spec (nth fd o 0) 0) as [E|E]; cbn [negb].
  - unfold ret at 1. destruct (IH s o Hp0) as (o' & r' & Hrun & H1 & H2).
    exists o', r'. split_and!; [exact Hrun| |done].
    intros fd' [->|?]%elem_of_cons; eauto.
  - unfold bind at 1, svc, zoom. cbn [rest with_procs].
    destruct (Hcl (nth fd o 0) (rest s)) as [r1 Hr1]. rewrite Hr1.
    unfold upd at 1, modify at 1. cbn [procs with_rest with_procs]. rewrite alter_alter.
    destruct (IH (with_rest r1 s) (<[fd := 0]> o) Hp0) as (o' & r' & Hrun & H1 & H2).
    exists o', r'. split_and!.
    + cbn [procs with_rest with_procs] in Hrun.
      etransitivity; [exact Hrun|done].
    + intros fd' [->|?]%elem_of_cons; [|eauto]. apply H2. rewrite Hins. by case_decide.
    + intros fd' H. apply H2. rewrite Hins. by case_decide.
Qed.

(** Reparent the children of [me] among the slots [ks] to [init], waking it
    for every zombie among them. *)
Definition orphan (me : nat) (p : proc) : bool := bool_decide (parent p = Some me).
Definition zombie_orphan (me : nat) (p : proc) : bool := orphan me p && is_state ZOMBIE p.
Definition abandon_step (me : nat) (init : option nat) (l : list proc) (k : nat) : list proc :=
  match l !! k with
  | Some p =>
      if orphan me p then
        let l' := alter (set_parent init) k l in
        if is_state ZOMBIE p then wake (procaddr init) <$> l' else l'
      else l
  | None => l
  end.

Definition zombie_in (me : nat) (ks : list nat) (l : list proc) : bool :=
  existsb (fun k => if l !! k is Some p then zombie_orphan me p else false) ks.

(** What becomes of slot [i]. *)
Definition adopt (me : nat) (init : option nat) (mine woken : bool) (p : proc) : proc :=
  let p' := if mine && orphan me p then set_parent init p else p in
  if woken then wake (procaddr init) p' else p'.

Lemma wake_idem c p : wake c (wake c p) = wake c p.
Proof.
  unfold wake at 2 3. destruct (is_state SLEEPING p && (chan p =? c)) eqn:E.
  - done.
  - unfold wake. by rewrite E.
Qed.
Lemma wake_parent c p : parent (wake c p) = parent p.
Proof. unfold wake. by destruct (_ && _). Qed.
Lemma wake_zombie c p : is_state ZOMBIE (wake c p) = is_state ZOMBIE p.
Proof.
  unfold wake. destruct (is_state SLEEPING p && (chan p =? c)) eqn:E; [|done].
  bools. destruct E as [E%bool_decide_eq_true _]. unfold is_state. cbn. by rewrite E.
Qed.
Lemma wake_set_parent c v p : wake c (set_parent v p) = set_parent v (wake c p).
Proof.
  unfold wake. change (is_state SLEEPING (set_parent v p)) with (is_state SLEEPING p).
  change (chan (set_parent v p)) with (chan p). by destruct (_ && _).
Qed.

Lemma abandon_lookup me init ks l i :
  init <> Some me -> NoDup ks ->
  foldl (abandon_step me init) l ks !! i =
    adopt me init (bool_decide (i ∈ ks)) (zombie_in me ks l) <$> l !! i.
Proof.
  intros Hinit Hnd. revert l. induction Hnd as [|k ks Hk Hnd IH]; intros l.
  { simpl. by destruct (l !! i). }
  cbn [foldl]. rewrite IH.
  (* the later slots are seen as before *)
  assert (Hstep : forall j, abandon_step me init l k !! j =
    adopt me init (bool_decide (j = k)) (zombie_in me [k] l) <$> l !! j).
  { intros j. unfold abandon_step, adopt, zombie_in, zombie_orphan. cbn.
    destruct (l !! k) as [p|] eqn:Hp.
    2:{ destruct (decide (j = k)) as [->|]; [by rewrite Hp|].
        rewrite bool_decide_false by done. cbn. by destruct (l !! j). }
    rewrite orb_false_r. destruct (decide (j = k)) as [->|Hne].
    - rewrite bool_decide_true, Hp by done. cbn.
      destruct (orphan me p) eqn:Ho; cbn; [|done].
      destruct (is_state ZOMBIE p); rewrite ?list_lookup_fmap, list_lookup_alter_eq, Hp; done.
    - rewrite bool_decide_false by done. cbn.
      destruct (orphan me p) eqn:Ho; cbn; [|by destruct (l !! j)].
      destruct (is_state ZOMBIE p); rewrite ?list_lookup_fmap, list_lookup_alter_ne by done;
        by destruct (l !! j). }
  assert (Hz : zombie_in me ks (abandon_step me init l k) = zombie_in me ks l).
  { unfold zombie_in. clear IH Hnd. induction ks as [|j ks IH]; [done|]. cbn [existsb].
    rewrite IH by set_solver. f_equal. rewrite Hstep, bool_decide_false by set_solver.
    destruct (l !! j) as [q|]; [|done]. cbn. unfold adopt, zombie_orphan, orphan. cbn.
    destruct (_ || _); [by rewrite wake_parent, wake_zombie|done]. }
  assert (Ez : zombie_in me (k :: ks) l = zombie_in me [k] l || zombie_in me ks l).
  { unfold zombie_in. cbn. by rewrite orb_false_r. }
  rewrite Hz, Ez, Hstep, <- option_fmap_compose.
  destruct (l !! i) as [q|]; [|done]. cbn [fmap option_fmap option_map]. f_equal.
  unfold compose, adopt. destruct (decide (i = k)) as [->|Hne].
  - rewrite (bool_decide_false (k ∈ ks)), !bool_decide_true by set_solver.
    generalize (zombie_in me [k] l) (zombie_in me ks l). intros [] []; cbn [andb orb];
      rewrite ?wake_idem; done.
  - rewrite (bool_decide_false (i = k)) by done.
    rewrite (bool_decide_ext (i ∈ k :: ks) (i ∈ ks)) by set_solver.
    assert (Hw : orphan me (wake (procaddr init) q) = orphan me q)
      by (unfold orphan; by rewrite wake_parent).
    generalize (bool_decide (i ∈ ks)) (zombie_in me [k] l) (zombie_in me ks l).
    intros [] [] []; cbn [andb orb]; rewrite ?Hw; destruct (orphan me q);
      rewrite ?wake_set_parent, ?wake_idem, <- ?wake_set_parent, ?wake_idem; done.
Qed.

Lemma abandon_step_length me init l k : length (abandon_step me init l k) = length l.
Proof.
  unfold abandon_step. destruct (l !! k) as [p|]; [|done].
  destruct (orphan me p); [|done].
  destruct (is_state ZOMBIE p); by rewrite ?length_fmap, length_alter.
Qed.

Lemma abandon_length me init ks l : length (foldl (abandon_step me init) l ks) = length l.
Proof.
  revert l. induction ks as [|k ks IH]; intros l; [done|]. cbn [foldl].
  by rewrite IH, abandon_step_length.
Qed.

Lemma abandon_run me s :
  length (procs s) = NPROC ->
  abandon_children me s =
    Ret tt (with_procs (foldl (abandon_step me (initproc s)) (procs s) (seq 0 NPROC)) s).
Proof.
  intros Hlen. unfold abandon_children.
  assert (Hks : forall k, k ∈ seq 0 NPROC -> (k < length (procs s))%nat)
    by (intros k ?%elem_of_seq; lia).
  clear Hlen. revert s Hks. generalize (seq 0 NPROC). intros ks.
  induction ks as [|k ks IH]; intros s Hks; [by destruct s|]. cbn [for_each foldl].
  destruct (lookup_lt_is_Some_2 (procs s) k) as [p Hp]; [apply Hks; set_solver|].
  assert (Hbody : forall m, m s = Ret tt (with_procs (abandon_step me (initproc s) (procs s) k) s) ->
    bind m (fun _ : unit => for_each ks (fun k =>
      let! p := proc_at k in
      if bool_decide (parent p = Some me) then
        let! init := gets initproc in
        upd k (set_parent init) ;;;
        if is_state ZOMBIE p then wakeup1 (procaddr init) else ret tt
      else ret tt)) s =
    Ret tt (with_procs (foldl (abandon_step me (initproc s))
      (abandon_step me (initproc s) (procs s) k) ks) s)).
  { intros m Hm. rewrite (bind_eq _ _ _ _ _ Hm). rewrite IH; [done|]. cbn.
    intros j Hj. rewrite abandon_step_length. apply Hks. set_solver. }
  apply Hbody. rewrite (bind_eq _ _ _ _ _ (proc_at_ok s k p Hp)).
  unfold abandon_step, orphan. rewrite Hp.
  destruct (bool_decide (parent p = Some me)).
  - unfold bind, gets, upd, wakeup1, modify. destruct (is_state ZOMBIE p); done.
  - by destruct s.
Qed.

(** Some child of [me] is a zombie. *)
Definition zombie_child (me : nat) (l : list proc) : bool := existsb (zombie_orphan me) l.

Lemma zombie_in_all me l : zombie_in me (seq 0 (length l)) l = zombie_child me l.
Proof.
  apply eq_true_iff_eq. unfold zombie_in, zombie_child. rewrite !existsb_exists. split.
  - intros (k & _ & Hk). destruct (l !! k) as [p|] eqn:Hp; [|done].
    exists p. split; [|done]. by apply list_elem_of_In, (list_elem_of_lookup_2 _ k).
  - intros (p & (k & Hk)%list_elem_of_In%list_elem_of_lookup_1 & Hp).
    exists k. rewrite Hk. split; [|done]. apply in_seq. apply lookup_lt_Some in Hk. lia.
Qed.

Lemma zombie_child_wake me c l : zombie_child me (wake c <$> l) = zombie_child me l.
Proof.
  unfold zombie_child. induction l as [|p l IH]; [done|]. cbn. rewrite IH. f_equal.
  unfold zombie_orphan, orphan. by rewrite wake_parent, wake_zombie.
Qed.

Lemma zombie_child_alter me f i l :
  (forall p, parent (f p) = parent p) -> (forall p, state (f p) = state p) ->
  zombie_child me (alter f i l) = zombie_child me l.
Proof.
  intros Hp Hs. unfold zombie_child. revert i.
  induction l as [|p l IH]; intros [|i]; [done..| |]; cbn.
  - f_equal. unfold zombie_orphan, orphan, is_state. by rewrite Hp, Hs.
  - f_equal. apply IH.
Qed.

Lemma abandon_full me s :
  length (procs s) = NPROC -> initproc s <> Some me ->
  exists l, abandon_children me s = Ret tt (with_procs l s) /\ length l = length (procs s) /\
    forall i, l !! i = adopt me (initproc s) true (zombie_child me (procs s)) <$> procs s !! i.
Proof.
  intros Hlen Hi. eexists. split; [by apply abandon_run|]. rewrite <- Hlen.
  rewrite <- (zombie_in_all me (procs s)). split.
  - apply abandon_length.
  - intros i. rewrite abandon_lookup by (done || apply NoDup_seq).
    destruct (procs s !! i) as [q|] eqn:Hq; [|done]. apply lookup_lt_Some in Hq.
    cbn [fmap option_fmap option_map]. f_equal. rewrite bool_decide_true; [done|].
    apply elem_of_seq. lia.
Qed.

(** The table as [exit] leaves it. *)
Definition exit_slot (me : nat) (par init : option nat) (z : bool) (o : list Z)
    (i : nat) (p : proc) : proc :=
  let p1 := if decide (i = me) then set_cwd 0 (set_ofile o p) else p in
  let p2 := adopt me init true z (wake (procaddr par) p1) in
  if decide (i = me) then set_state ZOMBIE p2 else p2.

Lemma wake_fields c p :
  pid (wake c p) = pid p /\ chan (wake c p) = chan p /\ cwd (wake c p) = cwd p /\
  ofile (wake c p) = ofile p /\
  state (wake c p) = if is_state SLEEPING p && (chan p =? c) then RUNNABLE else state p.
Proof. unfold wake. by destruct (is_state SLEEPING p && (chan p =? c)). Qed.

Lemma adopt_fields me init z p :
  pid (adopt me init true z p) = pid p /\ cwd (adopt me init true z p) = cwd p /\
  ofile (adopt me init true z p) = ofile p /\
  parent (adopt me init true z p) = (if orphan me p then init else parent p) /\
  state (adopt me init true z p) =
    if is_state SLEEPING p && (z && (chan p =? procaddr init)) then RUNNABLE else state p.
Proof.
  unfold adopt. cbn [andb].
  set (p' := if orphan me p then set_parent init p else p).
  assert (E : pid p' = pid p /\ cwd p' = cwd p /\ ofile p' = ofile p /\ state p' = state p /\
    chan p' = chan p /\ parent p' = if orphan me p then init else parent p)
    by (unfold p'; by destruct (orphan me p)).
  clearbody p'. destruct E as (E1 & E2 & E3 & E4 & E5 & E6). destruct z.
  - destruct (wake_fields (procaddr init) p') as (F1 & _ & F2 & F3 & F4).
    rewrite F1, F2, F3, F4, wake_parent, E5. unfold is_state. rewrite E4. by split_and!.
  - rewrite andb_false_r. by split_and!.
Qed.

Lemma exit_slot_fields me par init z o i p :
  let p' := exit_slot me par init z o i p in
  pid p' = pid p /\
  parent p' = (if decide (parent p = Some me) then init else parent p) /\
  state p' =
    (if decide (i = me) then ZOMBIE
     else if is_state SLEEPING p && ((chan p =? procaddr par) || (z && (chan p =? procaddr init)))
          then RUNNABLE else state p) /\
  (i = me -> cwd p' = 0 /\ ofile p' = o).
Proof.
  cbv zeta. unfold exit_slot. set (p1 := if decide (i = me) then _ else p).
  assert (E : pid p1 = pid p /\ parent p1 = parent p /\ state p1 = state p /\ chan p1 = chan p /\
    (i = me -> cwd p1 = 0 /\ ofile p1 = o)) by (unfold p1; by destruct (decide (i = me))).
  clearbody p1. destruct E as (E1 & E2 & E3 & E4 & E5).
  destruct (adopt_fields me init z (wake (procaddr par) p1)) as (A1 & A2 & A3 & A4 & A5).
  destruct (wake_fields (procaddr par) p1) as (W1 & W2 & W3 & W4 & W5).
  set (p2 := adopt me init true z (wake (procaddr par) p1)) in *. clearbody p2.
  assert (Epar : parent p2 = if decide (parent p = Some me) then init else parent p).
  { rewrite A4. unfold orphan. rewrite wake_parent, E2. by rewrite bool_decide_decide; case_decide. }
  assert (Est : state p2 = if is_state SLEEPING p && ((chan p =? procaddr par) ||
      (z && (chan p =? procaddr init))) then RUNNABLE else state p).
  { rewrite A5. unfold is_state in *. rewrite W5, W2, E3, E4.
    destruct (decide (state p = SLEEPING)) as [H|H].
    - rewrite !(bool_decide_true (state p = SLEEPING)) by done. cbn [andb].
      destruct (chan p =? procaddr par); cbn [orb].
      + by destruct (bool_decide (RUNNABLE = SLEEPING) && _).
      + by rewrite bool_decide_true.
    - by rewrite !(bool_decide_false (state p = SLEEPING)) by done. }
  assert (Hpid : pid p2 = pid p) by congruence.
  assert (Hrest : i = me -> cwd p2 = 0 /\ ofile p2 = o).
  { intros Hi. rewrite A2, A3, W3, W4. by apply E5. }
  destruct (decide (i = me)); by split_and!.
Qed.

Lemma exit_full s me pm :
  quiet s -> held s = [] -> Cli.ncli (cpu s) = 0 -> length (procs s) = NPROC ->
  cur s = Some me -> initproc s <> Some me -> procs s !! me = Some pm ->
  (forall f r, exists r', fileclose f r = Ret tt r') ->
  (forall r, exists r', begin_op r = Ret tt r') ->
  (forall c r, exists r', iput c r = Ret tt r') ->
  (forall r, exists r', end_op r = Ret tt r') ->
  exists c s' o, exit None s = Asleep c s' /\ length (procs s') = NPROC /\
    held s' = [LPtable] /\ cur s' = Some me /\
    (forall fd, (fd < NOFILE)%nat -> nth fd o 0 = 0) /\
    forall i, procs s' !! i =
      exit_slot me (parent pm) (initproc s) (zombie_child me (procs s)) o i
        <$> procs s !! i.
Proof.
  intros [Hc Hh] Eh En Hlen Hcur Hinit Hpm Hcl Hbo Hip Heo. unfold exit.
  rewrite (bind_eq _ _ _ _ _ (myproc_ok s Hc)), Hcur. unfold bind at 1. unfold get at 1.
  rewrite bool_decide_false by (cbn; congruence). unfold from_opt. unfold bind at 1.
  unfold ret at 1. set (s0 := with_cpu _ s).
  destruct (close_loop_ok me (seq 0 NOFILE) s0 (ofile pm) Hcl) as (o & r1 & Hrun & Ho & _);
    [by exists pm|apply NoDup_seq|].
  assert (E0 : with_procs (alter (set_ofile (ofile pm)) me (procs s0)) s0 = s0).
  { assert (E : alter (set_ofile (ofile pm)) me (procs s0) = procs s0).
    { transitivity (alter id me (procs s0)); [|by apply list_alter_id].
      apply alter_ext_at. intros x Hx. cbn in Hx.
      replace x with pm by congruence. by destruct pm. }
    rewrite E. by destruct s0. }
  rewrite E0 in Hrun. unfold close_files. rewrite (bind_eq _ _ _ _ _ Hrun). clear E0 Hrun.
  unfold bind at 1, svc at 1, zoom at 1. destruct (Hbo r1) as [r2 Hr2].
  cbn [rest with_rest]. rewrite Hr2.
  erewrite bind_eq by (apply proc_at_ok; cbn; by rewrite list_lookup_alter_eq, Hpm).
  unfold bind at 1, svc at 1, zoom at 1. cbn [rest with_rest cwd set_ofile].
  destruct (Hip (cwd pm) r2) as [r3 Hr3]. rewrite Hr3.
  unfold bind at 1, svc at 1, zoom at 1. cbn [rest with_rest].
  destruct (Heo r3) as [r4 Hr4]. rewrite Hr4.
  unfold bind at 1, upd at 1, modify at 1. cbn [procs with_procs with_rest].
  rewrite alter_alter.
  set (l1 := alter (fun x => set_cwd 0 (set_ofile o x)) me (procs s0)).
  erewrite bind_eq by (apply acquire_ok; done).
  erewrite bind_eq by (apply proc_at_ok; cbn; unfold l1; rewrite list_lookup_alter_eq;
    cbn; by rewrite Hpm).
  unfold bind at 1, wakeup1 at 1, modify at 1. cbn [parent set_cwd set_ofile procs with_procs
    with_rest locked_st with_cpu with_held].
  match goal with |- context [abandon_children me ;;; _] => idtac end.
  edestruct (abandon_full me) as (l2 & Hab & Hlen2 & Hl2); cycle 2.
  { rewrite (bind_eq _ _ _ _ _ Hab).
    unfold bind at 1, upd at 1, modify at 1. cbn [procs with_procs].
    cbn [procs initproc with_procs with_rest locked_st with_cpu with_held] in Hl2, Hlen2.
    rewrite zombie_child_wake in Hl2. unfold l1 in Hl2, Hlen2.
    rewrite zombie_child_alter in Hl2 by done.
    rewrite length_fmap, length_alter in Hlen2.
    clear Hab.
    assert (Hq : is_Some (l2 !! me)).
    { rewrite Hl2, list_lookup_fmap, list_lookup_alter_eq. change (procs s0) with (procs s).
      rewrite Hpm. by eexists. }
    destruct Hq as [q Hq].
    unfold bind at 1.
    erewrite (sched_out _ me (unnest (cpu s)) (set_state ZOMBIE q)).
    - eexists _, _, o. split; [done|]. cbn. split_and!.
      + by rewrite length_alter, Hlen2.
      + by rewrite Eh.
      + done.
      + intros fd Hfd. apply Ho, elem_of_seq. lia.
      + intros i. unfold exit_slot. destruct (decide (i = me)) as [->|Hne].
        * rewrite list_lookup_alter_eq, Hl2, list_lookup_fmap.
          rewrite list_lookup_alter_eq. change (procs s0) with (procs s). by rewrite Hpm.
        * rewrite list_lookup_alter_ne, Hl2, list_lookup_fmap by done.
          rewrite list_lookup_alter_ne by done. change (procs s0) with (procs s).
          by destruct (procs s !! i).
    - split_and!; cbn; try done; by rewrite ?Eh, ?inside_unnest.
    - cbn. by rewrite list_lookup_alter_eq, Hq.
    - done. }
  { cbn. unfold l1. by rewrite length_fmap, length_alter. }
  { done. }
Qed.

End Exit.

(** ** wait *)

Section Wait.
Context {R : Type} `{!Services R}.
Implicit Type s : kst R.

Lemma wait_scan_spec me l k hk :
  wait_scan me l k hk =
    match find_idx (zombie_orphan me) l with
    | Some i => (true, Some (k + i)%nat)
    | None => (hk || existsb (orphan me) l, None)
    end.
Proof.
  revert k hk. induction l as [|p l IH]; intros k hk; cbn; [by rewrite orb_false_r|].
  change (bool_decide (parent p = Some me)) with (orphan me p).
  unfold zombie_orphan at 1. destruct (orphan me p) eqn:Eo; cbn.
  - destruct (is_state ZOMBIE p); cbn; [by rewrite Nat.add_0_r|].
    rewrite IH. destruct (find_idx _ l) as [i|]; cbn; [by rewrite Nat.add_succ_r|].
    by destruct hk.
  - rewrite IH. destruct (find_idx _ l) as [i|]; cbn; [by rewrite Nat.add_succ_r|done].
Qed.

(** The slot [wait] gives back. *)
Definition reaped (p : proc) : proc :=
  set_state UNUSED (set_killed 0 (set_name [] (set_parent None (set_pid 0 (set_kstack 0 p))))).

Lemma reap_ok s k p :
  procs s !! k = Some p ->
  (forall a r, exists r', kfree a r = Ret tt r') ->
  (forall d r, exists r', freevm d r = Ret tt r') ->
  exists r', reap k s = Ret (pid p) (with_rest r' (with_procs (alter reaped k (procs s)) s)).
Proof.
  intros Hp Hkf Hfv. unfold reap. rewrite (bind_eq _ _ _ _ _ (proc_at_ok _ _ _ Hp)).
  unfold bind, svc, zoom, upd, modify, ret. destruct (Hkf (kstack p) (rest s)) as [r1 ->].
  cbn. destruct (Hfv (pgdir p) r1) as [r2 ->]. cbn. exists r2. rewrite !alter_alter. done.
Qed.

Lemma sleep_ptable_out s me c ch p :
  running_locked me c s -> procs s !! me = Some p ->
  exists s', sleep ch (Some LPtable) None s = Asleep ch s' /\
    procs s' = alter (fun p => set_state SLEEPING (set_chan ch p)) me (procs s) /\
    held s' = [LPtable] /\ Cli.ncli (cpu s') = 1 /\ cur s' = Some me /\ rest s' = rest s.
Proof.
  intros (Hcur & Hc & Hn & Ecpu & Eh) Hp. rewrite sleep_run.
  assert (Hin : CliFacts.nest_ok (cpu s)) by (rewrite Ecpu; by apply inside_nest).
  rewrite (bind_eq _ _ _ _ _ (myproc_ok s Hin)), Hcur.
  rewrite decide_True by done. unfold bind, upd, modify, ret. cbn. rewrite alter_alter.
  erewrite (sched_out _ me c (set_state SLEEPING (set_chan ch p))).
  - eexists. split; [done|]. cbn. split_and!; try done. rewrite Ecpu. cbn. lia.
  - split_and!; try done. cbn. rewrite Ecpu. unfold unnest, CliFacts.inside. cbn.
    rewrite Hn. done.
  - cbn. by rewrite list_lookup_alter_eq, Hp.
  - done.
Qed.

End Wait.

(** ** The scheduler *)

Section Scheduler.
Context {R : Type} `{!Services R}.
Implicit Type s : kst R.

Definition runnable (l : list proc) (i : nat) (p : proc) : Prop :=
  l !! i = Some p /\ state p = RUNNABLE.

(** [r] is the first slot of least pass among the runnable ones, [cm] its
    pass. *)
Definition least_pass (l : list proc) (cm0 : Z) (r : option nat) (cm : Z) : Prop :=
  match r with
  | Some i => exists p, runnable l i p /\ cm = pass p /\
      forall j q, runnable l j q -> pass p <= pass q /\ ((j < i)%nat -> pass p < pass q)
  | None => cm = cm0 /\ forall j q, ~ runnable l j q
  end.

Lemma getmin_loop_spec cm0 l : forall pre first cm r,
  (first = bool_decide (r = None)) ->
  least_pass pre cm0 r cm ->
  least_pass (pre ++ l) cm0 (getmin_loop l (length pre) first cm r).1
                            (getmin_loop l (length pre) first cm r).2.
Proof.
  induction l as [|p l IH]; intros pre first cm r Hf Hpre; cbn [getmin_loop].
  { by rewrite app_nil_r. }
  assert (Hlen : forall x, S (length pre) = length (pre ++ [x : proc]))
    by (intros; rewrite length_app; cbn; lia).
  rewrite (Hlen p), cons_middle, app_assoc.
  assert (Hsnoc : forall j q, runnable (pre ++ [p]) j q <->
    runnable pre j q \/ (j = length pre /\ q = p /\ state p = RUNNABLE)).
  { intros j q. unfold runnable. rewrite lookup_app_Some, list_lookup_singleton_Some.
    split; [intros [[?|(? & ? & ?)] ?]|intros [[? ?]|(-> & -> & ?)]]; subst.
    - by left.
    - right. split_and!; [lia|done|done].
    - split; [by left|done].
    - split; [right; split; [lia|split; [lia|done]]|done]. }
  assert (Hlt : forall j q, runnable pre j q -> (j < length pre)%nat)
    by (intros j q [H _]; by apply lookup_lt_Some in H).
  unfold is_state. destruct (decide (state p = RUNNABLE)) as [Hr|Hr].
  2:{ rewrite bool_decide_false by done. cbn [negb].
      assert (Hsame : least_pass (pre ++ [p]) cm0 r cm); [|by apply IH].
      destruct r as [i|]; cbn in *.
      - destruct Hpre as (q & Hq & -> & Hmin). exists q.
        split; [apply Hsnoc; by left|]. split; [done|].
        intros j q' [?|(-> & -> & ?)]%Hsnoc; [by apply Hmin|done].
      - destruct Hpre as [? Hno]. split; [done|]. intros j q [?|(-> & -> & ?)]%Hsnoc; naive_solver. }
  rewrite bool_decide_true, (bool_decide_false (state p = UNUSED)) by congruence. cbn [negb].
  assert (Hme : runnable (pre ++ [p]) (length pre) p) by (apply Hsnoc; by right).
  assert (Htake : (forall j q, runnable pre j q -> pass p < pass q) ->
    least_pass (pre ++ [p]) cm0 (Some (length pre)) (pass p)).
  { intros Hlow. exists p. split; [done|]. split; [done|].
    intros j q [Hj|(-> & -> & _)]%Hsnoc; [|lia].
    specialize (Hlow _ _ Hj). lia. }
  destruct r as [i|].
  - rewrite bool_decide_false in Hf by done. subst first.
    cbn in Hpre. destruct Hpre as (q & Hq & -> & Hmin).
    destruct (Z.ltb_spec (pass p) (pass q)).
    + apply IH; [by rewrite bool_decide_false|]. apply Htake. intros j q' Hj.
      apply Hmin in Hj. lia.
    + apply IH; [by rewrite bool_decide_false|]. exists q.
      split; [apply Hsnoc; by left|]. split; [done|].
      intros j q' [?|(-> & -> & _)]%Hsnoc; [by apply Hmin|].
      split; [lia|]. apply Hlt in Hq. lia.
  - rewrite bool_decide_true in Hf by done. subst first. destruct Hpre as [_ Hno].
    apply IH; [by rewrite bool_decide_false|]. apply Htake.
    intros j q Hj. by apply Hno in Hj.
Qed.

Lemma getminproc_ok s :
  exists r cm, getminproc s = Ret r (with_curMin cm s) /\ least_pass (procs s) (curMin s) r cm.
Proof.
  unfold getminproc, bind, get, modify, ret.
  pose proof (getmin_loop_spec (curMin s) (procs s) [] true (curMin s) None) as H.
  destruct (getmin_loop (procs s) 0 true (curMin s) None) as [r cm] eqn:E. cbn in H.
  rewrite E in H. exists r, cm. split; [done|]. apply H; [done|].
  split; [done|]. by intros j q [H' _].
Qed.

End Scheduler.

Section Rounds.
Context {R : Type} `{!Services R}.
Implicit Type s : kst R.

(** A process that, whenever it is given the CPU, leaves its slot number in
    the output and yields. *)
Definition yields (i : nat) s : kst R :=
  with_out (out s ++ [ONum (Z.of_nat i)]) (with_procs (alter (set_state RUNNABLE) i (procs s)) s).

(** The stride of [n] competing processes. *)
Definition stride (n : Z) : Z := Z.quot 1000 (Z.quot 100 n).

Lemma tickets_pos n : 1 <= n <= 64 -> 1 <= Z.quot 100 n <= 100.
Proof.
  intros Hn. rewrite Z.quot_div_nonneg by lia. split.
  - apply Z.div_le_lower_bound; lia.
  - apply Z.div_le_upper_bound; nia.
Qed.

Lemma stride_pos n : 1 <= n <= 64 -> 1 <= stride n <= 1000.
Proof.
  intros Hn%tickets_pos. unfold stride. generalize dependent (Z.quot 100 n). intros t Ht.
  rewrite Z.quot_div_nonneg by lia. split.
  - apply Z.div_le_lower_bound; lia.
  - apply Z.div_le_upper_bound; nia.
Qed.

Lemma count_competing_bound l : 0 <= count_competing l <= Z.of_nat (length l).
Proof. unfold count_competing. split; [lia|].
  apply Nat2Z.inj_le, length_filter. Qed.

Lemma count_competing_pos l i p : runnable l i p -> 1 <= count_competing l.
Proof.
  intros [Hi Hst]. unfold count_competing.
  assert (Hin : p ∈ filter (fun p => competes p = true) l).
  { apply list_elem_of_filter. split; [|by eapply list_elem_of_lookup_2].
    unfold competes, is_state. by rewrite Hst, bool_decide_true. }
  destruct (filter _ l); [by apply not_elem_of_nil in Hin|cbn; lia].
Qed.

(** A table between rounds: nobody is running and whoever can run has a stack
    and an address space. *)
Record table_ready (l : list proc) : Prop := {
  ready_len : length l = NPROC;
  ready_idle : forall i p, l !! i = Some p -> state p <> RUNNING;
  ready_mem : forall i p, runnable l i p -> kstack p <> 0 /\ pgdir p <> 0 }.

(** The two tables differ in tickets and, by [d], in passes. *)
Definition advanced (d : nat -> Z) (l l' : list proc) : Prop :=
  length l' = length l /\
  forall i p, l !! i = Some p -> exists p', l' !! i = Some p' /\ state p' = state p /\
    kstack p' = kstack p /\ pgdir p' = pgdir p /\ pass p' = pass p + d i.

Lemma advanced_back d l l' i p' :
  advanced d l l' -> l' !! i = Some p' ->
  exists p, l !! i = Some p /\ state p' = state p /\
    kstack p' = kstack p /\ pgdir p' = pgdir p /\ pass p' = pass p + d i.
Proof.
  intros [Hlen Ha] Hi. pose proof (lookup_lt_Some _ _ _ Hi) as Hlt. rewrite Hlen in Hlt.
  apply lookup_lt_is_Some_2 in Hlt as [p Hp]. exists p. split; [done|].
  destruct (Ha _ _ Hp) as (q & Hq & ?). by simplify_eq.
Qed.

Lemma advanced_ready d l l' : advanced d l l' -> table_ready l -> table_ready l'.
Proof.
  intros Ha [Hl Hi Hm]. split.
  - destruct Ha as [-> _]. done.
  - intros i p' (p & Hp & -> & _)%(advanced_back _ _ _ _ _ Ha). eauto.
  - intros i p' [(p & Hp & Hst & -> & -> & _)%(advanced_back _ _ _ _ _ Ha) Hr].
    apply (Hm i). split; [done|congruence].
Qed.

Lemma advanced_trans d e l l' l'' :
  advanced d l l' -> advanced e l' l'' -> advanced (fun i => d i + e i) l l''.
Proof.
  intros [Hl1 H1] [Hl2 H2]. split; [congruence|]. intros i p Hp.
  destruct (H1 _ _ Hp) as (p1 & Hp1 & ? & ? & ? & ?).
  destruct (H2 _ _ Hp1) as (p2 & Hp2 & ? & ? & ? & ?).
  exists p2. split_and!; [done|congruence..|lia].
Qed.

Lemma advanced_count d l l' : advanced d l l' -> count_competing l' = count_competing l.
Proof.
  intros [Hlen Ha]. unfold count_competing. f_equal. revert l' d Hlen Ha.
  induction l as [|p l IH]; intros [|p' l'] d Hlen Ha; try done.
  destruct (Ha 0%nat p eq_refl) as (q & [= <-] & Hst & _).
  assert (IH' : length (filter (fun p => competes p = true) l') =
                length (filter (fun p => competes p = true) l)).
  { apply (IH l' (fun i => d (S i))); [cbn in Hlen; lia|]. intros i r Hr. apply (Ha (S i) r Hr). }
  rewrite !filter_cons.
  assert (Ec : competes p' = competes p) by (unfold competes, is_state; by rewrite Hst).
  rewrite Ec. case_decide; cbn; lia.
Qed.

Lemma give_tickets_advanced n l : advanced (fun _ => 0) l (give_tickets n <$> l).
Proof.
  split; [by rewrite length_fmap|]. intros i p Hp. exists (give_tickets n p).
  rewrite list_lookup_fmap, Hp. cbn [fmap option_fmap option_map]. unfold give_tickets.
  destruct (competes p); split_and!; first [done | symmetry; apply Z.add_0_r].
Qed.

Lemma switchuvm_ok s i p :
  CliFacts.nest_ok (cpu s) -> procs s !! i = Some p -> kstack p <> 0 -> pgdir p <> 0 ->
  switchuvm i s = Ret tt (with_cpu (unnest (cpu s))
    (with_cr3 (V2P (pgdir p)) (with_esp0 (kstack p + KSTACKSIZE) s))).
Proof.
  intros Hc Hp Hk Hg. unfold switchuvm. rewrite (bind_eq _ _ _ _ _ (proc_at_ok _ _ _ Hp)).
  rewrite (proj2 (Z.eqb_neq _ _) Hk), (proj2 (Z.eqb_neq _ _) Hg).
  unfold Cli.pushcli, Cli.popcli, mycpu, bind, get, gets, modify. cbn -[V2P Z.add Z.sub].
  destruct Hc as [Hn Hi]. destruct (Z.ltb_spec (Cli.ncli (cpu s) + 1 - 1) 0); [lia|].
  f_equal. pose proof (leave_inside (cpu s) (conj Hn Hi)) as E.
  unfold CliFacts.inside in E. cbn -[Z.add Z.sub] in E. unfold with_cpu. cbn -[Z.add Z.sub V2P].
  by rewrite E.
Qed.

(** One stride round from a ready table with somebody to run. *)
Lemma stride_round_ok s i0 p0 :
  CliFacts.nest_ok (cpu s) -> 1 <= Cli.ncli (cpu s) -> table_ready (procs s) ->
  runnable (procs s) i0 p0 ->
  let st := stride (count_competing (procs s)) in
  (forall i p, runnable (procs s) i p -> int_ok (pass p + st) = true) ->
  exists i p s', stride_round yields s = Ret true s' /\
    runnable (procs s) i p /\ (forall j q, runnable (procs s) j q -> pass p <= pass q) /\
    advanced (fun j => if decide (j = i) then st else 0) (procs s) (procs s') /\
    out s' = out s ++ [ONum (Z.of_nat i)] /\ cpu s' = cpu s /\ held s' = held s /\
    str s' = str s.
Proof.
  intros Hc Hn1 Hready Hrun0 st Hov. set (n := count_competing (procs s)) in *.
  assert (Hn : 1 <= n <= 64).
  { split; [by eapply count_competing_pos|]. pose proof (count_competing_bound (procs s)) as H.
    rewrite (ready_len _ Hready) in H. exact (proj2 H). }
  pose proof (give_tickets_advanced n (procs s)) as Hg.
  unfold stride_round. unfold updateTickets, modify at 1. unfold bind at 1. fold n.
  destruct (getminproc_ok (with_procs (give_tickets n <$> procs s) s)) as (r & cm & Hr & Hleast).
  rewrite (bind_eq _ _ _ _ _ Hr). cbn [procs with_procs] in Hleast.
  assert (Hback : forall j q, runnable (give_tickets n <$> procs s) j q <->
    exists q0, runnable (procs s) j q0 /\ q = set_tickets (Z.quot 100 n) q0).
  { intros j q. unfold runnable. rewrite list_lookup_fmap, fmap_Some. split.
    - intros [(q0 & Hq0 & ->) Hst]. exists q0. unfold give_tickets in *.
      assert (Hst0 : state q0 = RUNNABLE) by (by destruct (competes q0)).
      split; [done|]. unfold competes, is_state. by rewrite Hst0, bool_decide_true.
    - intros (q0 & [Hq0 Hst] & ->). split; [|done]. exists q0. split; [done|].
      unfold give_tickets, competes, is_state. by rewrite Hst, bool_decide_true. }
  destruct r as [i|]; cbn in Hleast.
  2:{ destruct Hleast as [_ Hno]. edestruct Hno. apply Hback. by eexists. }
  destruct Hleast as (q & Hq & -> & Hmin). pose proof Hq as Hq'.
  apply Hback in Hq as (p & Hp & ->). destruct Hq' as [Hlook _].
  pose proof (tickets_pos n Hn) as Ht.
  unfold bind at 1. unfold bind at 1.
  erewrite proc_at_ok by exact Hlook. cbn [tickets set_tickets pass].
  rewrite (proj2 (Z.eqb_neq _ _)) by lia.
  unfold bind at 1, to_int. fold (stride n). fold st. rewrite (Hov _ _ Hp). unfold ret at 1.
  unfold bind at 1, upd at 1, modify at 1. cbn [procs with_curMin with_procs].
  unfold run_proc. unfold bind at 1, modify at 1.
  destruct (ready_mem _ Hready _ _ Hp) as [Hk Hd].
  erewrite bind_eq.
  2:{ apply (switchuvm_ok _ i (set_pass (pass p + st) (set_tickets (Z.quot 100 n) p)));
      [exact Hc| |exact Hk|exact Hd]. cbn.
      rewrite list_lookup_alter_eq, Hlook. cbn. done. }
  unfold bind, upd, modify, switchkvm, yields, ret. cbn -[V2P Z.add alter fmap].
  eexists i, p, _. split; [done|]. split; [done|]. split.
  { intros j q Hj. specialize (Hmin j _ (proj2 (Hback j _) (ex_intro _ q (conj Hj eq_refl)))).
    cbn in Hmin. lia. }
  cbn -[alter fmap]. rewrite !alter_alter. split_and!; try done.
  - split; [by rewrite length_alter, length_fmap|]. intros j q Hj.
    destruct (decide (j = i)) as [->|Hne].
    + rewrite list_lookup_alter_eq, Hlook. eexists. split; [done|].
      destruct Hp as [Hp Hst]. simplify_eq. by split_and!.
    + rewrite list_lookup_alter_ne by done. destruct Hg as [_ Hg].
      destruct (Hg _ _ Hj) as (q' & ? & ? & ? & ? & ?). by exists q'.
  - unfold unnest. destruct (cpu s) as [a b c]. cbn in *.
    by rewrite (proj2 (Z.eqb_neq a 0)) by lia.
Qed.

End Rounds.

Section Turns.
Context {R : Type} `{!Services R}.
Implicit Type s : kst R.

(** The scheduler's own thread between two turns, in stride mode. *)
Record between_turns s : Prop := {
  turn_ncli : Cli.ncli (cpu s) = 0;
  turn_held : LPtable ∉ held s;
  turn_str : str s = 1;
  turn_table : table_ready (procs s) }.

Definition times (j : nat) (trace : list nat) : Z :=
  Z.of_nat (length (filter (fun i => i = j) trace)).

Lemma times_cons j i t : times j (i :: t) = (if decide (j = i) then 1 else 0) + times j t.
Proof. unfold times. rewrite filter_cons. repeat case_decide; subst; cbn; lia || done. Qed.

Lemma sched_turn_ok s i0 p0 :
  between_turns s -> runnable (procs s) i0 p0 ->
  let st := stride (count_competing (procs s)) in
  (forall i p, runnable (procs s) i p -> int_ok (pass p + st) = true) ->
  exists i p s', sched_turn yields s = Ret true s' /\
    runnable (procs s) i p /\ (forall j q, runnable (procs s) j q -> pass p <= pass q) /\
    advanced (fun j => if decide (j = i) then st else 0) (procs s) (procs s') /\
    out s' = out s ++ [ONum (Z.of_nat i)] /\ between_turns s'.
Proof.
  intros [Hn Hh Hstr Htab] Hrun st Hov. unfold sched_turn.
  unfold sti, modify at 1. unfold bind at 1. set (s0 := with_cpu _ s).
  assert (Hc0 : CliFacts.nest_ok (cpu s0)) by (cbn; split; cbn; lia).
  rewrite (bind_eq _ _ _ _ _ (acquire_ok LPtable s0 Hh)). unfold bind at 1, get.
  cbn [str locked_st with_held with_cpu]. change (str s0) with (str s). rewrite Hstr, Z.eqb_refl.
  destruct (stride_round_ok (locked_st LPtable s0) i0 p0)
    as (i & p & s1 & Hr & Hp & Hmin & Hadv & Hout & Hcpu & Hheld & Hstr1).
  { apply inside_nest, Hc0. }
  { cbn. lia. }
  { exact Htab. }
  { exact Hrun. }
  { exact Hov. }
  rewrite (bind_eq _ _ _ _ _ Hr).
  erewrite bind_eq by (eapply (release_ok LPtable _ (cpu s0)); [exact Hc0|exact Hh|
    rewrite Hcpu; done|rewrite Hheld; done]).
  exists i, p. eexists. split; [done|]. split_and!; try done.
  split; cbn; [exact Hn|exact Hh|by rewrite Hstr1|].
  by apply (advanced_ready _ _ _ Hadv).
Qed.

(** No runnable process is more than [st] behind another. *)
Definition gap (st : Z) (l : list proc) : Prop :=
  forall i j p q, runnable l i p -> runnable l j q -> pass q <= pass p + st.

Lemma turns_ok k : forall s i0 p0,
  between_turns s -> runnable (procs s) i0 p0 ->
  let st := stride (count_competing (procs s)) in
  gap st (procs s) ->
  (forall i p, runnable (procs s) i p -> 0 <= pass p <= 2147483647 - st * Z.of_nat k) ->
  exists trace s', for_each (replicate k yields) (fun run => sched_turn run ;;; ret tt) s = Ret tt s' /\
    length trace = k /\ out s' = out s ++ ((fun i => ONum (Z.of_nat i)) <$> trace) /\
    advanced (fun j => st * times j trace) (procs s) (procs s') /\ gap st (procs s').
Proof.
  induction k as [|k IH]; intros s i0 p0 Hs Hrun st Hgap Hmax.
  { exists [], s. split_and!; [done..|by rewrite app_nil_r| |done].
    split; [done|]. intros i p Hp. exists p. split_and!; [done..|]. unfold times. cbn. lia. }
  assert (Hst : 1 <= st <= 1000).
  { apply stride_pos. split; [by eapply count_competing_pos|].
    pose proof (count_competing_bound (procs s)) as H.
    rewrite (ready_len _ (turn_table _ Hs)) in H. exact (proj2 H). }
  destruct (sched_turn_ok s i0 p0 Hs Hrun) as (i & p & s1 & Hr & Hp & Hmin & Hadv & Hout & Hs1).
  { intros j q Hq. fold st. specialize (Hmax _ _ Hq). unfold int_ok.
    apply andb_true_intro. split; apply Z.leb_le; nia. }
  fold st in Hadv. pose proof (advanced_count _ _ _ Hadv) as Hcnt.
  assert (Hback : forall j q', runnable (procs s1) j q' ->
    exists q, runnable (procs s) j q /\ pass q' = pass q + (if decide (j = i) then st else 0)).
  { intros j q' [(q & Hq & Hst' & _ & _ & Hpass)%(advanced_back _ _ _ _ _ Hadv) Hst2].
    exists q. split; [split; [done|congruence]|done]. }
  destruct Hadv as [Hl Ha]. destruct (Ha i p (proj1 Hp)) as (p1 & Hp1 & Est & Ek & Ed & Ep).
  assert (Hadv : advanced (fun j => if decide (j = i) then st else 0) (procs s) (procs s1)) by done.
  destruct (IH s1 i p1) as (trace & s2 & Hrun2 & Hlen & Hout2 & Hadv2 & Hgap2);
    [done|split; [done|rewrite Est; apply Hp]|..].
  { rewrite Hcnt. fold st. intros a b qa qb (q1 & Hq1 & ->)%Hback (q2 & Hq2 & ->)%Hback.
    pose proof (Hgap _ _ _ _ Hq1 Hq2). pose proof (Hmin _ _ Hq1). pose proof (Hmin _ _ Hq2).
    destruct (decide (b = i)) as [->|]; [|destruct (decide (a = i)); lia].
    assert (q2 = p) as -> by (destruct Hq2, Hp; congruence).
    destruct (decide (a = i)); lia. }
  { rewrite Hcnt. fold st. intros j q' (q & Hq & ->)%Hback. specialize (Hmax _ _ Hq).
    destruct (decide (j = i)); nia. }
  rewrite Hcnt in *. fold st in Hadv2, Hgap2.
  exists (i :: trace), s2. split_and!.
  - cbn [replicate for_each]. unfold bind at 1. unfold bind at 1. rewrite Hr. exact Hrun2.
  - cbn. by rewrite Hlen.
  - rewrite Hout2, Hout, <- app_assoc. done.
  - pose proof (advanced_trans _ _ _ _ _ Hadv Hadv2) as [Hl2 Ha2]. split; [done|].
    intros j q Hq. destruct (Ha2 _ _ Hq) as (q' & ? & ? & ? & ? & E). exists q'.
    split_and!; try done. rewrite E, times_cons. destruct (decide (j = i)); lia.
  - done.
Qed.

End Turns.

Section RoundRobin.
Context {R : Type} `{!Services R}.
Implicit Type s : kst R.

(** A process that leaves its slot number in the output and gives the CPU up
    in state [f i]. *)
Definition leaves (f : nat -> procstate) (i : nat) s : kst R :=
  with_out (out s ++ [ONum (Z.of_nat i)]) (with_procs (alter (set_state (f i)) i (procs s)) s).

Definition can_run (l : list proc) (i : nat) : bool :=
  if l !! i is Some p then is_state RUNNABLE p else false.

Lemma can_run_alter l f i j : i <> j -> can_run (alter f i l) j = can_run l j.
Proof. intros H. unfold can_run. by rewrite list_lookup_alter_ne. Qed.

Lemma filter_can_run_ext l l' (ks : list nat) :
  (forall k, k ∈ ks -> can_run l' k = can_run l k) ->
  filter (fun k => can_run l' k = true) ks = filter (fun k => can_run l k = true) ks.
Proof.
  induction ks as [|k ks IH]; intros H; [done|]. rewrite !filter_cons.
  rewrite IH by set_solver. by rewrite (H k) by set_solver.
Qed.

Lemma rr_loop_ok f ks : forall s ran,
  NoDup ks -> CliFacts.nest_ok (cpu s) -> 1 <= Cli.ncli (cpu s) ->
  (forall k, k ∈ ks -> (k < length (procs s))%nat) ->
  (forall k p, k ∈ ks -> runnable (procs s) k p -> kstack p <> 0 /\ pgdir p <> 0) ->
  let run := filter (fun k => can_run (procs s) k = true) ks in
  exists s', rr_loop (leaves f) ks ran s = Ret (ran || bool_decide (run <> [])) s' /\
    out s' = out s ++ ((fun k => ONum (Z.of_nat k)) <$> run) /\
    cpu s' = cpu s /\ held s' = held s /\
    forall k, procs s' !! k =
      (fun p => if bool_decide (k ∈ run) then set_state (f k) p else p) <$> procs s !! k.
Proof.
  induction ks as [|k ks IH]; intros s ran Hnd Hc Hn Hlt Hmem run.
  { exists s. cbn. rewrite orb_false_r, app_nil_r. split_and!; [done..|].
    intros k. destruct (procs s !! k); [|done]. cbn. by rewrite bool_decide_false by set_solver. }
  apply NoDup_cons in Hnd as [Hk Hnd]. cbn [rr_loop].
  destruct (lookup_lt_is_Some_2 (procs s) k) as [p Hp]; [apply Hlt; set_solver|].
  rewrite (bind_eq _ _ _ _ _ (proc_at_ok _ _ _ Hp)).
  assert (Hcan : can_run (procs s) k = is_state RUNNABLE p) by (unfold can_run; by rewrite Hp).
  unfold run. rewrite filter_cons, Hcan.
  destruct (is_state RUNNABLE p) eqn:Er; cbn [negb].
  2:{ rewrite decide_False by done. apply IH; auto; intros; [apply Hlt|eapply Hmem]; set_solver. }
  rewrite decide_True by done. apply bool_decide_eq_true in Er.
  destruct (Hmem k p) as [Hks Hpg]; [set_solver|done|].
  unfold run_proc. unfold bind at 1. unfold bind at 1, modify at 1.
  erewrite bind_eq by (apply (switchuvm_ok _ k p); done).
  unfold bind at 1, upd at 1, modify at 1. unfold bind at 1, modify at 1. unfold switchkvm, modify at 1.
  unfold bind at 1, modify at 1. cbn -[V2P alter fmap rr_loop unnest leaves].
  match goal with |- context [rr_loop _ _ _ ?t] => set (s1 := t) end.
  assert (Ecpu : cpu s1 = cpu s).
  { cbn. unfold unnest. destruct (cpu s) as [a b c]. cbn in *.
    by rewrite (proj2 (Z.eqb_neq a 0)) by lia. }
  assert (Eprocs : procs s1 = alter (fun p => set_state (f k) (set_state RUNNING p)) k (procs s))
    by (cbn; by rewrite alter_alter).
  destruct (IH s1 true) as (s2 & Hr & Hout & Hcpu & Hheld & Hl); rewrite ?Ecpu; try done.
  { intros j Hj. rewrite Eprocs, length_alter. apply Hlt. set_solver. }
  { intros j q Hj [Hq Hst]. rewrite Eprocs, list_lookup_alter_ne in Hq by set_solver.
    eapply Hmem; [|done]. set_solver. }
  assert (Efil : filter (fun j => can_run (procs s1) j = true) ks =
                 filter (fun j => can_run (procs s) j = true) ks).
  { apply filter_can_run_ext. intros j Hj. rewrite Eprocs, can_run_alter by set_solver. done. }
  rewrite Efil in *. exists s2. split_and!.
  - rewrite Hr. cbn. by destruct ran.
  - rewrite Hout. cbn. by rewrite <- app_assoc.
  - by rewrite Hcpu, Ecpu.
  - rewrite Hheld. done.
  - intros j. rewrite Hl, Eprocs. destruct (decide (j = k)) as [->|Hne].
    + rewrite list_lookup_alter_eq, Hp. cbn. rewrite (bool_decide_true (k ∈ k :: _)) by set_solver.
      rewrite bool_decide_false; [done|]. rewrite list_elem_of_filter. tauto.
    + rewrite list_lookup_alter_ne by done. destruct (procs s !! j) as [q|]; [|done]. cbn.
      f_equal. rewrite (bool_decide_ext (j ∈ k :: _) (j ∈ filter (fun j => can_run (procs s) j = true) ks))
        by set_solver. done.
Qed.

End RoundRobin.

(** ** Every entry point of [proc.c] as one operation *)

Section Kernel.
Context {R : Type} `{!Services R}.

Inductive kop :=
| OpFork | OpExit | OpWait | OpYield
| OpSleep (c : Z) (lk : option lockid) | OpWakeup (c : Z)
| OpKill (n : Z) | OpGrow (n : Z) | OpUserinit
| OpTurn (run : nat -> kst R -> kst R).

(** [resume] and [env] are what the other threads do while the caller is off
    the CPU. *)
Definition run_op (resume : option (kst R -> kst R)) (env : list (kst R -> kst R)) (op : kop)
    : M (kst R) unit :=
  match op with
  | OpFork => fork resume ;;; ret tt
  | OpExit => exit resume
  | OpWait => wait env ;;; ret tt
  | OpYield => yield resume
  | OpSleep c lk => sleep c lk resume
  | OpWakeup c => wakeup c
  | OpKill n => kill n ;;; ret tt
  | OpGrow n => growproc n ;;; ret tt
  | OpUserinit => userinit
  | OpTurn run => sched_turn run ;;; ret tt
  end.

End Kernel.

(** ** Sample states *)

Definition blank : proc :=
  {| sz := 0; pgdir := 0; kstack := 0; state := UNUSED; pid := 0; parent := None; tfp := 0;
     tf := user_tf; ctxp := 0; ctx := forkret_context; chan := 0; killed := 0;
     ofile := replicate NOFILE 0; cwd := 0; name := []; tickets := 0; pass := 0 |}.

Definition live (n : Z) (st : procstate) (par : option nat) : proc :=
  set_kstack 4096 (set_pgdir 8192 (set_parent par (set_state st (set_pid n blank)))).

(** Pages are numbered from a counter; everything else does nothing. *)
Definition counting_services : Services Z := {|
  kalloc := fun r => Ret r (r + 4096); kfree := fun _ => ret tt;
  setupkvm := fun r => Ret r (r + 4096); inituvm := fun _ => ret tt;
  allocuvm := fun _ _ n => ret n; deallocuvm := fun _ _ n => ret n;
  freevm := fun _ => ret tt; copyuvm := fun _ _ r => Ret r (r + 4096);
  filedup := ret; fileclose := fun _ => ret tt; idup := ret; iput := fun _ => ret tt;
  namei_root := ret 1; begin_op := ret tt; end_op := ret tt |}.

Definition table (l : list proc) : list proc := l ++ replicate (NPROC - length l) blank.

Definition sample (l : list proc) (next : Z) (c : option nat) : kst Z :=
  {| procs := table l; nextpid := next; initproc := Some 0%nat; curMin := 0; winner := 0;
     str := 1; trace_on := 0; trace_cnt := 0;
     cpu := {| Cli.ncli := 0; Cli.intena := false; Cli.intr := false |};
     held := []; cur := c; cr3 := 0; esp0 := 0; kpgdir := 2147483648; ticks := 0;
     umem := fun _ => 0; out := []; rest := 65536 |}.

(** init, a shell waiting for its child, and the child. *)
Definition family : list proc :=
  [live 1 SLEEPING None; set_chan (procaddr (Some 1%nat)) (live 2 SLEEPING (Some 0%nat));
   live 3 RUNNING (Some 1%nat)].

End ProcFacts.

Import Proc ProcFacts.

#[local] Existing Instance counting_services.

(** C26: Process ids are unique: no sequence of process operations, whatever
    runs in between while the caller is switched out, gives two slots of the
    table the same pid or hands out a pid twice. *)
Theorem pids_stay_unique {R} `{!Services R} resume env (op : @kop R) (s : kst R) :
  (forall f, resume = Some f -> forall s, pids_ok s -> pids_ok (f s)) ->
  (forall f, f ∈ env -> forall s, pids_ok s -> pids_ok (f s)) ->
  (forall run, op = OpTurn run -> forall i s, pids_ok s -> pids_ok (run i s)) ->
  pids_ok s ->
  match run_op resume env op s with
  | Ret _ s' | Asleep _ s' => pids_ok s'
  | _ => True
  end.
Proof.
  intros Hres Henv Hrun Hs. revert s Hs. change (keeps pids_ok (run_op resume env op)).
  destruct op as [| | | |c lk|c|n|n| |run]; cbn [run_op];
    try (apply keeps_bind; [|intros; apply keeps_ret]).
  - by apply pids_fork.
  - by apply pids_exit.
  - by apply pids_wait.
  - by apply pids_yield.
  - by apply pids_sleep.
  - apply pids_wakeup.
  - apply pids_kill.
  - apply pids_growproc.
  - apply pids_userinit.
  - apply pids_sched_turn. by eapply Hrun.
Qed.

Lemma pids_sample : pids_ok (sample family 4 (Some 2%nat)).
Proof.
  assert (Hp : forall i p, procs (sample family 4 (Some 2%nat)) !! i = Some p ->
    pid p = 0 \/ pid p = Z.of_nat i + 1 /\ (i < 3)%nat).
  { intros i p Hi. destruct i as [|[|[|i]]]; cbn in Hi; simplify_eq; [right; cbn; lia..|].
    left. change (replicate 61 blank !! i = Some p) in Hi.
    apply lookup_replicate in Hi as [-> _]. done. }
  split; [done|done|..].
  - intros i p Hi%Hp. cbn. lia.
  - intros i j p q Hi%Hp Hj%Hp. lia.
Qed.

(** The child exits while its parent sleeps. *)
Lemma pids_stay_unique_witness :
  match run_op None [] OpExit (sample family 4 (Some 2%nat)) with
  | Ret _ s' | Asleep _ s' => pids_ok s'
  | _ => True
  end.
Proof.
  apply (pids_stay_unique None [] OpExit (sample family 4 (Some 2%nat))).
  - intros f H. discriminate H.
  - intros f H. by apply not_elem_of_nil in H.
  - intros run H. discriminate H.
  - apply pids_sample.
Defined.

(** [allocproc] takes the first free slot and gives it a pid no other slot
    carries, 25 tickets, pass 0 and a context that starts in [forkret]; it
    returns null exactly when no slot or no page is left, giving the slot back
    in the second case; nothing else in the table changes and the lock is
    released. *)
Theorem allocproc_spec {R} `{!Services R} (s : kst R) k r' :
  quiet s -> pids_ok s -> int_ok (nextpid s + 1) = true -> kalloc (rest s) = Ret k r' ->
  exists r s', allocproc s = Ret r s' /\ balanced s s' /\
    match find_idx (is_state UNUSED) (procs s) with
    | None => r = None /\ procs s' = procs s /\ rest s' = rest s
    | Some i =>
        r = (if k =? 0 then None else Some i) /\ rest s' = r' /\
        (forall j, j <> i -> procs s' !! j = procs s !! j) /\
        exists p, procs s' !! i = Some p /\ kstack p = k /\
          (forall j q, j <> i -> procs s' !! j = Some q -> pid q <> pid p) /\
          (k = 0 -> state p = UNUSED) /\
          (k <> 0 -> state p = EMBRYO /\ tickets p = 25 /\ pass p = 0 /\
                     eip (ctx p) = Forkret)
    end.
Proof.
  intros Hq Hpids Hn Hk. destruct (find_idx (is_state UNUSED) (procs s)) as [i|] eqn:Hf.
  - destruct (allocproc_full s i k r' Hq Hf Hn Hk) as (s' & Hrun & Hp & _ & Hr & Hb & _).
    exists (if k =? 0 then None else Some i), s'. split; [done|]. split; [done|].
    split; [done|]. split; [done|]. rewrite Hp. split.
    { intros j Hj. by rewrite list_lookup_alter_ne. }
    apply find_idx_Some in Hf as (p & Hi & _). exists (newborn (nextpid s) k p).
    rewrite list_lookup_alter_eq, Hi. split; [done|].
    unfold newborn. destruct (Z.eqb_spec k 0) as [->|Hk0].
    + split; [done|]. split; [|by split].
      intros j q Hj. rewrite list_lookup_alter_ne by done. intros Hq'.
      destruct (pids_range _ Hpids _ _ Hq') as [E|E]; cbn; pose proof (pids_next _ Hpids); lia.
    + split; [done|]. split; [|by split].
      intros j q Hj. rewrite list_lookup_alter_ne by done. intros Hq'.
      destruct (pids_range _ Hpids _ _ Hq') as [E|E]; cbn; pose proof (pids_next _ Hpids); lia.
  - destruct (allocproc_no_slot s Hq Hf) as (s' & Hrun & Hp & _ & Hr & Hb).
    exists None, s'. by split_and!.
Qed.

Lemma sample_quiet l n c : quiet (sample l n c).
Proof. split; [split; cbn; lia|set_solver]. Qed.

Lemma allocproc_spec_witness :
  exists r s', allocproc (sample family 4 (Some 2%nat)) = Ret r s' /\ r = Some 3%nat.
Proof.
  destruct (allocproc_spec (sample family 4 (Some 2%nat)) 65536 69632)
    as (r & s' & Hrun & _ & Hr & _).
  - apply sample_quiet.
  - apply pids_sample.
  - reflexivity.
  - reflexivity.
  - exists r, s'. split; [exact Hrun|exact Hr].
Defined.

(** C29: [exit] in full: all descriptors and the directory are released, every
    child is handed to init, the process is a zombie with its pid when it
    leaves the CPU, and exactly the processes sleeping on its parent's slot,
    and on init's when it leaves a zombie child behind, are runnable again.
    In particular a parent asleep in [wait] never misses the exit. *)
Theorem exit_spec {R} `{!Services R} (s : kst R) me pm :
  quiet s -> held s = [] -> Cli.ncli (cpu s) = 0 -> length (procs s) = NPROC ->
  cur s = Some me -> initproc s <> Some me -> procs s !! me = Some pm ->
  (forall f r, exists r', fileclose f r = Ret tt r') ->
  (forall r, exists r', begin_op r = Ret tt r') ->
  (forall c r, exists r', iput c r = Ret tt r') ->
  (forall r, exists r', end_op r = Ret tt r') ->
  exists c s', exit None s = Asleep c s' /\ held s' = [LPtable] /\
    forall i p, procs s !! i = Some p -> exists p', procs s' !! i = Some p' /\
      pid p' = pid p /\
      parent p' = (if decide (parent p = Some me) then initproc s else parent p) /\
      state p' =
        (if decide (i = me) then ZOMBIE
         else if is_state SLEEPING p &&
                 ((chan p =? procaddr (parent pm)) ||
                  (zombie_child me (procs s) && (chan p =? procaddr (initproc s))))
              then RUNNABLE else state p) /\
      (i = me -> cwd p' = 0 /\ forall fd, (fd < NOFILE)%nat -> nth fd (ofile p') 0 = 0).
Proof.
  intros Hq Hh Hn Hlen Hcur Hinit Hpm Hcl Hbo Hip Heo.
  destruct (exit_full s me pm) as (c & s' & o & Hrun & _ & Hheld & _ & Ho & Hl); try done.
  exists c, s'. split_and!; [done..|]. intros i p Hp. eexists.
  split; [by rewrite Hl, Hp|].
  pose proof (exit_slot_fields me (parent pm) (initproc s) (zombie_child me (procs s)) o i p) as E.
  cbv zeta in E. destruct E as (E1 & E2 & E3 & E4). split_and!; [done..|].
  intros Hi. destruct (E4 Hi) as [-> ->]. by split.
Qed.

(** The shell, asleep in [wait], is made runnable by its child's exit. *)
Lemma exit_spec_witness :
  exists c s' p', exit None (sample family 4 (Some 2%nat)) = Asleep c s' /\
    procs s' !! 1%nat = Some p' /\ state p' = RUNNABLE.
Proof.
  destruct (exit_spec (sample family 4 (Some 2%nat)) 2 (live 3 RUNNING (Some 1%nat)))
    as (c & s' & Hrun & _ & Hall).
  - apply sample_quiet.
  - reflexivity.
  - reflexivity.
  - reflexivity.
  - reflexivity.
  - discriminate.
  - reflexivity.
  - intros f r. exists r. reflexivity.
  - intros r. exists r. reflexivity.
  - intros a r. exists r. reflexivity.
  - intros r. exists r. reflexivity.
  - destruct (Hall 1%nat _ eq_refl) as (p' & Hp' & _ & _ & Hst & _).
    exists c, s', p'. split; [exact Hrun|]. split; [exact Hp'|]. rewrite Hst. reflexivity.
Defined.

(** C30: [wait] with no other thread in between: the first zombie child is
    reaped, its slot free again and its pid returned; without children, or
    when killed, it fails and changes nothing; otherwise it sleeps on its own
    slot, holding only the table's lock, so that no exit can slip in between
    the scan and the sleep. *)
Theorem wait_spec {R} `{!Services R} (s : kst R) me pm :
  quiet s -> held s = [] -> Cli.ncli (cpu s) = 0 ->
  cur s = Some me -> procs s !! me = Some pm ->
  (forall a r, exists r', kfree a r = Ret tt r') ->
  (forall d r, exists r', freevm d r = Ret tt r') ->
  match find_idx (zombie_orphan me) (procs s) with
  | Some k => exists s' pk, procs s !! k = Some pk /\ wait [] s = Ret (pid pk) s' /\
      procs s' = alter reaped k (procs s) /\ balanced s s'
  | None =>
      if negb (existsb (orphan me) (procs s)) || negb (killed pm =? 0) then
        exists s', wait [] s = Ret (-1) s' /\ procs s' = procs s /\ balanced s s'
      else
        exists s', wait [] s = Asleep (procaddr (Some me)) s' /\ held s' = [LPtable] /\
          procs s' = alter (fun p => set_state SLEEPING (set_chan (procaddr (Some me)) p)) me (procs s)
  end.
Proof.
  intros [Hc Hh] Eh En Hcur Hpm Hkf Hfv. unfold wait.
  rewrite (bind_eq _ _ _ _ _ (myproc__ok s me Hc Hcur)).
  erewrite bind_eq by (apply acquire_ok; exact Hh).
  cbn [wait_loop]. erewrite (bind_eq get) by reflexivity.
  cbn [procs locked_st with_held with_cpu]. rewrite wait_scan_spec.
  destruct (find_idx (zombie_orphan me) (procs s)) as [k|] eqn:Hf.
  - pose proof Hf as (p & Hp & _)%find_idx_Some. cbn [Nat.add].
    destruct (reap_ok (locked_st LPtable (with_cpu (unnest (cpu s)) s)) k p Hp Hkf Hfv)
      as (r' & Hreap).
    rewrite (bind_eq _ _ _ _ _ Hreap).
    erewrite bind_eq by (eapply (release_ok LPtable _ (unnest (cpu s))); done).
    eexists _, p. split; [done|]. split; [done|]. split; [done|done].
  - cbn [orb]. erewrite bind_eq by (apply proc_at_ok; exact Hpm).
    destruct (negb (existsb (orphan me) (procs s)) || negb (killed pm =? 0)).
    + erewrite bind_eq by (eapply (release_ok LPtable _ (unnest (cpu s))); done).
      eexists. split; [done|]. done.
    + destruct (sleep_ptable_out (locked_st LPtable (with_cpu (unnest (cpu s)) s)) me
        (unnest (cpu s)) (procaddr (Some me)) pm) as (s' & Hs & Hp & Hheld & _).
      { split_and!; try done. cbn. by rewrite Eh. }
      { done. }
      unfold bind at 1. cbn [head]. rewrite Hs. exists s'. by split_and!.
Qed.

(** The child is a zombie already. *)
Lemma wait_spec_witness :
  let s := sample [live 1 SLEEPING None; live 2 RUNNING (Some 0%nat);
                   live 3 ZOMBIE (Some 1%nat)] 4 (Some 1%nat) in
  exists s' pk, procs s !! 2%nat = Some pk /\ wait [] s = Ret (pid pk) s' /\
    procs s' = alter reaped 2%nat (procs s) /\ balanced s s'.
Proof.
  intros s.
  pose proof (wait_spec s 1 (live 2 RUNNING (Some 0%nat))) as H.
  assert (Hf : find_idx (zombie_orphan 1) (procs s) = Some 2%nat) by reflexivity.
  rewrite Hf in H. apply H.
  - apply sample_quiet.
  - reflexivity.
  - reflexivity.
  - reflexivity.
  - reflexivity.
  - intros a r. exists r. reflexivity.
  - intros d r. exists r. reflexivity.
Defined.

(** What one CPU sees of sleeping and waking ([Wakeup] has the interleavings).
    [sleep(chan, lk)] leaves the CPU with the process recorded as sleeping on
    [chan], the condition's lock free and the table's lock held; a [wakeup(chan)]
    run on that table makes it, and exactly the sleepers on [chan], runnable. *)
Theorem sleep_wakeup_spec {R} `{!Services R} (s : kst R) me pm ch lk (s2 : kst R) :
  CliFacts.nest_ok (cpu s) -> held s = [lk] -> lk <> LPtable -> Cli.ncli (cpu s) = 1 ->
  cur s = Some me -> procs s !! me = Some pm -> quiet s2 ->
  exists s1, sleep ch (Some lk) None s = Asleep ch s1 /\
    held s1 = [LPtable] /\ (exists p1, procs s1 !! me = Some p1 /\ state p1 = SLEEPING /\ chan p1 = ch) /\
    (procs s2 = procs s1 ->
     exists s3, wakeup ch s2 = Ret tt s3 /\ balanced s2 s3 /\
       (exists p3, procs s3 !! me = Some p3 /\ state p3 = RUNNABLE) /\
       forall i p, procs s1 !! i = Some p -> exists p3, procs s3 !! i = Some p3 /\
         pid p3 = pid p /\ chan p3 = chan p /\
         state p3 = if is_state SLEEPING p && (chan p =? ch) then RUNNABLE else state p).
Proof.
  intros Hc Hh Hlk Hn Hcur Hpm Hq2. rewrite sleep_run.
  rewrite (bind_eq _ _ _ _ _ (myproc_ok s Hc)), Hcur.
  cbv beta iota. rewrite decide_False by done.
  set (s0 := with_cpu (unnest (cpu s)) s).
  assert (Ecpu : cpu s0 = cpu s).
  { cbn. unfold unnest. destruct (cpu s) as [a b c]. cbn in *. by subst. }
  assert (Hnot : LPtable ∉ held s0) by (cbn; rewrite Hh; set_solver).
  assert (Hrel : exists c, release lk (locked_st LPtable s0) =
      Ret tt (with_cpu (CliFacts.inside c) (with_held [LPtable] s0)) /\
      CliFacts.nest_ok c /\ Cli.ncli c = 0).
  { exists {| Cli.ncli := 0; Cli.intena := false; Cli.intr := Cli.intena (cpu s) |}.
    split; [|split; [split; cbn; lia|done]]. unfold release. destruct Hc as [Hc1 Hc2].
    assert (E : filter (fun l' => l' <> lk) (LPtable :: held s0) = [LPtable]).
    { cbn [held with_cpu s0]. rewrite Hh, filter_cons_True by done.
      by rewrite filter_cons_False by tauto. }
    rewrite CliFacts.release_run; cbn -[Z.add Z.sub filter]; [|lia|done].
    cbn -[filter] in E. rewrite E, bool_decide_true by (rewrite Hh; set_solver).
    rewrite Hn. done. }
  destruct Hrel as (c & Hrel & Hcn & Hc0).
  rewrite <- (bind_eq _ (fun _ => release lk) _ _ _ (acquire_ok LPtable s0 Hnot)) in Hrel.
  erewrite bind_eq by exact Hrel.
  unfold bind, upd, modify. cbn [procs with_cpu with_held with_procs]. rewrite alter_alter.
  set (f := fun x => set_state SLEEPING (set_chan ch x)).
  erewrite (sched_out _ me c (f pm)); [|by split_and!| |done].
  2:{ cbn. rewrite list_lookup_alter_eq, Hpm. done. }
  eexists. split; [done|]. split; [done|]. split.
  { exists (f pm). cbn. by rewrite list_lookup_alter_eq, Hpm. }
  cbn [procs with_cpu with_procs with_held]. change (procs s0) with (procs s).
  intros E2. destruct (wakeup_full s2 ch Hq2) as (s3 & Hw & Hp3 & _ & _ & Hb).
  exists s3. split; [done|]. split; [done|]. rewrite Hp3, E2.
  assert (Hall : forall i p, alter f me (procs s) !! i = Some p ->
    exists p3, (wake ch <$> alter f me (procs s)) !! i = Some p3 /\ pid p3 = pid p /\
      chan p3 = chan p /\ state p3 = if is_state SLEEPING p && (chan p =? ch) then RUNNABLE else state p).
  { intros i p Hp. exists (wake ch p). rewrite list_lookup_fmap, Hp. split; [done|].
    destruct (wake_fields ch p) as (? & ? & _ & _ & ?). by split_and!. }
  split; [|exact Hall]. destruct (Hall me (f pm)) as (p3 & H3 & _ & _ & Hst).
  { by rewrite list_lookup_alter_eq, Hpm. }
  exists p3. split; [done|]. rewrite Hst. unfold f. cbn. by rewrite Z.eqb_refl.
Qed.

(** A process sleeps on channel 64 under some lock; another CPU wakes it. *)
Lemma sleep_wakeup_spec_witness :
  let s0 := sample family 4 (Some 2%nat) in
  let s := with_held [LTicks] (with_cpu (CliFacts.inside (cpu s0)) s0) in
  exists s1 s3 p3, sleep 64 (Some LTicks) None s = Asleep 64 s1 /\
    wakeup 64 (with_procs (procs s1) s0) = Ret tt s3 /\
    procs s3 !! 2%nat = Some p3 /\ state p3 = RUNNABLE.
Proof.
  intros s0 s.
  set (s2 := with_procs (alter (fun x => set_state SLEEPING (set_chan 64 x)) 2%nat (procs s)) s0).
  destruct (sleep_wakeup_spec s 2 (live 3 RUNNING (Some 1%nat)) 64 LTicks s2)
    as (s1 & Hs & _ & _ & Hw).
  - split; cbn; [lia|done].
  - reflexivity.
  - discriminate.
  - reflexivity.
  - reflexivity.
  - reflexivity.
  - apply sample_quiet.
  - assert (E : procs s2 = procs s1) by (vm_compute in Hs; injection Hs as <-; reflexivity).
    destruct (Hw E) as (s3 & Hrun & _ & (p3 & Hp3 & Hst3) & _).
    exists s1, s3, p3. split; [exact Hs|]. split; [|split; [exact Hp3|exact Hst3]].
    rewrite <- E. exact Hrun.
Defined.

(** [getminproc] returns the first runnable slot of least pass and records
    that pass in [curMin]; it returns null exactly when nobody is runnable. *)
Theorem getminproc_spec {R} (s : kst R) :
  exists r cm, getminproc s = Ret r (with_curMin cm s) /\
    match r with
    | Some i => exists p, procs s !! i = Some p /\ state p = RUNNABLE /\ cm = pass p /\
        forall j q, procs s !! j = Some q -> state q = RUNNABLE ->
          pass p <= pass q /\ ((j < i)%nat -> pass p < pass q)
    | None => cm = curMin s /\ forall j q, procs s !! j = Some q -> state q <> RUNNABLE
    end.
Proof.
  destruct (getminproc_ok s) as (r & cm & Hrun & Hl). exists r, cm. split; [done|].
  destruct r as [i|]; cbn in Hl.
  - destruct Hl as (p & [Hp Hst] & Hcm & Hmin). exists p. split_and!; [done..|].
    intros j q Hj Hq. by apply Hmin.
  - destruct Hl as [Hcm Hno]. split; [done|]. intros j q Hj Hq. by apply (Hno j q).
Qed.

(** C14: The stride scheduler is fair.  Over any number of turns in which the
    processes that can run stay the same and yield when run, every turn runs
    one of them, no division by zero occurs, and the advance of any two never
    differs by more than one stride: two that start at the same pass have been
    run equally often, give or take one. *)
Theorem stride_fair {R} `{!Services R} (s : kst R) k i0 p0 :
  CliFacts.nest_ok (cpu s) -> Cli.ncli (cpu s) = 0 -> Cli.intr (cpu s) = false ->
  LPtable ∉ held s -> str s = 1 -> table_ready (procs s) -> runnable (procs s) i0 p0 ->
  let st := stride (count_competing (procs s)) in
  gap st (procs s) ->
  (forall i p, runnable (procs s) i p -> 0 <= pass p <= 2147483647 - st * Z.of_nat k) ->
  exists trace s', scheduler (replicate k yields) s = Ret tt s' /\ length trace = k /\
    out s' = out s ++ ((fun i => ONum (Z.of_nat i)) <$> trace) /\
    forall i j p q, runnable (procs s) i p -> runnable (procs s) j q ->
      Z.abs ((pass p + st * times i trace) - (pass q + st * times j trace)) <= st /\
      (pass p = pass q -> Z.abs (times i trace - times j trace) <= 1).
Proof.
  intros Hc Hn Hi Hh Hstr Htab Hrun st Hgap Hmax. unfold scheduler.
  unfold bind at 1, mycpu, bind at 1, get. rewrite Hi. unfold ret at 1.
  unfold bind at 1, modify at 1.
  destruct (turns_ok k (with_cur None s) i0 p0) as (trace & s' & Hr & Hlen & Hout & Hadv & Hg);
    [by split|done..|].
  exists trace, s'. split_and!; [done..|].
  change (procs (with_cur None s)) with (procs s) in Hadv, Hg. fold st in Hadv, Hg.
  assert (Hst : 1 <= st).
  { apply stride_pos. split; [by eapply count_competing_pos|].
    pose proof (count_competing_bound (procs s)) as H.
    rewrite (ready_len _ Htab) in H. exact (proj2 H). }
  destruct Hadv as [_ Ha].
  assert (Hfin : forall i p, runnable (procs s) i p -> exists p', runnable (procs s') i p' /\
    pass p' = pass p + st * times i trace).
  { intros i p [Hp Hst']. destruct (Ha _ _ Hp) as (p' & Hp' & E & _ & _ & Epass).
    exists p'. split; [|done]. split; [done|congruence]. }
  intros i j p q Hp Hq. destruct (Hfin _ _ Hp) as (p' & Hp' & Ep), (Hfin _ _ Hq) as (q' & Hq' & Eq).
  pose proof (Hg _ _ _ _ Hp' Hq'). pose proof (Hg _ _ _ _ Hq' Hp').
  split; [lia|]. intros E. nia.
Qed.

(** Three processes compete for seven turns. *)
Lemma stride_fair_witness :
  let s := sample [live 1 RUNNABLE None; live 2 RUNNABLE None; live 3 SLEEPING None;
                   live 4 RUNNABLE None] 5 None in
  exists trace s', scheduler (replicate 7 yields) s = Ret tt s' /\ length trace = 7%nat /\
    Z.abs (times 0 trace - times 3 trace) <= 1.
Proof.
  intros s.
  assert (Hrun : forall i p, runnable (procs s) i p -> pass p = 0 /\ kstack p <> 0 /\ pgdir p <> 0).
  { intros i p [Hi Hst]. do 4 (destruct i as [|i]; [cbn in Hi; by simplify_eq|]).
    change (replicate 60 blank !! i = Some p) in Hi. by apply lookup_replicate in Hi as [-> _]. }
  destruct (stride_fair s 7 0 (live 1 RUNNABLE None)) as (trace & s' & Hr & Hlen & _ & Hf).
  - split; cbn; [lia|done].
  - reflexivity.
  - reflexivity.
  - set_solver.
  - reflexivity.
  - split; [reflexivity| |intros i p Hp; apply (Hrun i p Hp)].
    intros i p Hi. do 4 (destruct i as [|i]; [cbn in Hi; by simplify_eq|]).
    change (replicate 60 blank !! i = Some p) in Hi. by apply lookup_replicate in Hi as [-> _].
  - split; reflexivity.
  - intros i j p q Hp%Hrun Hq%Hrun.
    change (stride (count_competing (procs s))) with 30. lia.
  - intros i p Hp%Hrun. change (stride (count_competing (procs s))) with 30. lia.
  - exists trace, s'. split; [exact Hr|]. split; [exact Hlen|].
    apply (Hf 0%nat 3%nat (live 1 RUNNABLE None) (live 4 RUNNABLE None));
      [split; reflexivity..|reflexivity].
Defined.

(** A round-robin turn runs every process that was runnable when it
    started exactly once, in table order, and no other; each is left in the
    state it chose, and the turn reports whether anybody ran. *)
Theorem round_robin_spec {R} `{!Services R} (s : kst R) f :
  CliFacts.nest_ok (cpu s) -> Cli.ncli (cpu s) = 0 -> LPtable ∉ held s -> str s <> 1 ->
  length (procs s) = NPROC ->
  (forall i p, runnable (procs s) i p -> kstack p <> 0 /\ pgdir p <> 0) ->
  let run := filter (fun i => can_run (procs s) i = true) (seq 0 NPROC) in
  exists s', sched_turn (leaves f) s = Ret (bool_decide (run <> [])) s' /\
    out s' = out s ++ ((fun i => ONum (Z.of_nat i)) <$> run) /\ held s' = held s /\
    (forall i p, procs s !! i = Some p -> state p = RUNNABLE ->
       exists p', procs s' !! i = Some p' /\ state p' = f i) /\
    (forall i p, procs s !! i = Some p -> state p <> RUNNABLE -> procs s' !! i = Some p).
Proof.
  intros Hc Hn Hh Hstr Hlen Hmem run. unfold sched_turn.
  unfold sti, modify at 1. unfold bind at 1. set (s0 := with_cpu _ s).
  assert (Hc0 : CliFacts.nest_ok (cpu s0)) by (split; cbn; lia).
  rewrite (bind_eq _ _ _ _ _ (acquire_ok LPtable s0 Hh)). unfold bind at 1, get.
  cbn [str locked_st with_held with_cpu]. change (str s0) with (str s).
  rewrite (proj2 (Z.eqb_neq _ _) Hstr).
  destruct (rr_loop_ok f (seq 0 NPROC) (locked_st LPtable s0) false)
    as (s1 & Hr & Hout & Hcpu & Hheld & Hl).
  { apply NoDup_seq. }
  { apply inside_nest, Hc0. }
  { cbn. lia. }
  { intros k ?%elem_of_seq. cbn. lia. }
  { intros k p _. apply Hmem. }
  rewrite (bind_eq _ _ _ _ _ Hr).
  erewrite bind_eq by (eapply (release_ok LPtable _ (cpu s0)); [exact Hc0|exact Hh|
    rewrite Hcpu; done|rewrite Hheld; done]).
  eexists. split; [done|]. split; [exact Hout|]. split; [done|].
  change (procs (locked_st LPtable s0)) with (procs s) in Hl. cbn [procs with_cpu with_held].
  clear Hr Hout. split; intros i p Hp Hst.
  - eexists. rewrite Hl, Hp. split; [done|].
    rewrite bool_decide_true; [done|]. apply list_elem_of_filter. split.
    + unfold can_run. rewrite Hp. by apply bool_decide_true.
    + apply elem_of_seq. apply lookup_lt_Some in Hp. lia.
  - rewrite Hl, Hp. cbn [fmap option_fmap option_map].
    rewrite bool_decide_false; [done|]. intros [Hcan _]%list_elem_of_filter.
    unfold can_run in Hcan. rewrite Hp in Hcan. by apply bool_decide_eq_true in Hcan.
Qed.

Lemma round_robin_spec_witness :
  let s := with_str 0 (sample [live 1 RUNNABLE None; live 2 SLEEPING None; live 3 RUNNABLE None] 4 None) in
  exists s', sched_turn (leaves (fun _ => SLEEPING)) s = Ret true s' /\
    out s' = [ONum 0; ONum 2].
Proof.
  intros s. destruct (round_robin_spec s (fun _ => SLEEPING)) as (s' & Hr & Hout & _).
  - split; cbn; [lia|done].
  - reflexivity.
  - set_solver.
  - discriminate.
  - reflexivity.
  - intros i p [Hi Hst]. do 3 (destruct i as [|i]; [cbn in Hi; by simplify_eq|]).
    change (replicate 61 blank !! i = Some p) in Hi. by apply lookup_replicate in Hi as [-> _].
  - exists s'. split; [exact Hr|exact Hout].
Defined.

(** [kill(0)] succeeds although no process has pid 0: it marks a free slot
    as killed, and the next process allocated there is born killed, since
    [allocproc] does not reset the mark. *)
Theorem kill_zero_poisons {R} `{!Services R} (s : kst R) i k r' :
  quiet s -> int_ok (nextpid s + 1) = true ->
  find_idx (fun p => pid p =? 0) (procs s) = Some i ->
  find_idx (is_state UNUSED) (procs s) = Some i ->
  kalloc (rest s) = Ret k r' -> k <> 0 ->
  exists s1 s2 p, kill 0 s = Ret 0 s1 /\ allocproc s1 = Ret (Some i) s2 /\
    procs s2 !! i = Some p /\ state p = EMBRYO /\ pid p = nextpid s /\ killed p = 1.
Proof.
  intros Hq Hn Hz Hu Hk Hk0. destruct (kill_full s 0 Hq) as (s1 & Hkill & Hp1 & Hn1 & Hr1 & Hb).
  rewrite Hz in Hkill, Hp1. apply find_idx_Some in Hu as (p & Hp & Hst & Hbefore).
  assert (Hkn : killed_now p = set_killed 1 p).
  { unfold killed_now. apply bool_decide_eq_true in Hst. unfold is_state. by rewrite Hst. }
  destruct (allocproc_full s1 i k r') as (s2 & Halloc & Hp2 & _).
  - by eapply balanced_quiet.
  - apply find_idx_Some. exists (killed_now p). rewrite Hp1, list_lookup_alter_eq, Hp.
    split; [done|]. split; [by rewrite Hkn|]. intros j q Hj.
    rewrite list_lookup_alter_ne by lia. by apply Hbefore.
  - by rewrite Hn1.
  - by rewrite Hr1.
  - rewrite (proj2 (Z.eqb_neq _ _) Hk0) in Halloc.
    eexists s1, s2, _. split; [done|]. split; [done|].
    rewrite Hp2, Hp1, !list_lookup_alter_eq, Hp, Hn1. cbn [fmap option_fmap option_map].
    rewrite Hkn. split; [done|].
    unfold newborn. rewrite (proj2 (Z.eqb_neq _ _) Hk0). by split_and!.
Qed.

Lemma kill_zero_poisons_witness :
  exists s1 s2 p, kill 0 (sample family 4 (Some 2%nat)) = Ret 0 s1 /\
    allocproc s1 = Ret (Some 3%nat) s2 /\
    procs s2 !! 3%nat = Some p /\ state p = EMBRYO /\ pid p = 4 /\ killed p = 1.
Proof.
  apply (kill_zero_poisons (sample family 4 (Some 2%nat)) 3 65536 69632).
  - apply sample_quiet.
  - reflexivity.
  - reflexivity.
  - reflexivity.
  - reflexivity.
  - discriminate.
Defined.
