(* ===== verification/Wakeup.v ===== *)
(** * Sleeping and waking on several CPUs

    [sleep] and [wakeup] of [proc.c] with every interleaving of their steps.
    [Smp] runs the step sequences [Proc.sleep_code] and [Proc.wakeup_code] as
    the kernel threads of several processes, each on a CPU of its own while it
    runs; [WakeupFacts] has the invariant; the property is that no wake-up is
    lost and that nobody is left waiting for one. *)

From S2P Require Import Prelude Locks Proc ProcFacts.

Module Smp.
Import Proc.

(** What a CPU has of its own: the interrupt nesting, the locks it holds, its
    process, and what [switchuvm] loads. *)
Record regs := {
  r_cpu : Cli.cpu; r_held : list lockid; r_cur : option nat; r_cr3 : Z; r_esp0 : Z }.

(** Where a kernel thread is: on a CPU with [k] to run; switched out by [sched]
    in state [s] with [k] to run afterwards, while its CPU's scheduler has yet
    to let go of [ptable.lock]; or off every CPU. *)
Inductive place (R : Type) :=
| Running (k : kcode R unit)
| Switched (s : kst R) (k : kcode R unit)
| Parked (s : kst R) (k : kcode R unit).
Arguments Running {R}. Arguments Switched {R}. Arguments Parked {R}.

(** The statements of a thread that uses a condition: [acquire(&lk)],
    [while(!cond) sleep(chan, &lk)], a change of the data the condition is
    about, [wakeup(chan)], [release(&lk)]. *)
Inductive instr (R : Type) := ILock | IUntil | IDo (f : R -> R) | IWake | IUnlock.
Arguments ILock {R}. Arguments IUntil {R}. Arguments IDo {R}. Arguments IWake {R}. Arguments IUnlock {R}.

Record thread (R : Type) := Thread {
  t_regs : regs; t_place : place R; t_script : list (instr R) }.
Arguments Thread {R}. Arguments t_regs {R}. Arguments t_place {R}. Arguments t_script {R}.

Record machine (R : Type) := Machine { shared : kst R; threads : list (thread R) }.
Arguments Machine {R}. Arguments shared {R}. Arguments threads {R}.

Section Machine.
Context {R : Type}.
Implicit Types (s : kst R) (m : machine R) (t : thread R).

(** The state one CPU works on, from the shared state and what is its own. *)
Definition view s (r : regs) : kst R :=
  Kst (procs s) (nextpid s) (initproc s) (curMin s) (winner s) (str s) (trace_on s) (trace_cnt s)
    (r_cpu r) (r_held r) (r_cur r) (r_cr3 r) (r_esp0 r) (kpgdir s) (ticks s) (umem s) (out s) (rest s).
Definition regs_of s : regs :=
  {| r_cpu := cpu s; r_held := held s; r_cur := cur s; r_cr3 := cr3 s; r_esp0 := esp0 s |}.

(** The scheduler of a CPU taking up process [i], and after the process has
    switched back. *)
Definition go_in (i : nat) : M (kst R) unit :=
  sti ;;;
  acquire LPtable ;;;
  modify (with_cur (Some i)) ;;;
  switchuvm i ;;;
  upd i (set_state RUNNING).
Definition go_out : M (kst R) unit :=
  switchkvm ;;;
  modify (with_cur None) ;;;
  release LPtable.

(** No CPU holds [l]: the [xchg] of [acquire] finds the word clear. *)
Definition free (l : lockid) m : bool :=
  forallb (fun t => bool_decide (l ∉ r_held (t_regs t))) (threads m).

Definition put (j : nat) s pl sc m : machine R :=
  Machine s (<[j := Thread (regs_of s) pl sc]> (threads m)).

Context (lk : lockid) (c : Z) (cond : R -> bool).

Definition instr_code (i : instr R) : kcode R unit :=
  match i with
  | ILock => k_acquire lk
  | IUntil => sleep_code c (Some lk)
  | IDo f => act (modify (fun s => with_rest (f (rest s)) s))
  | IWake => wakeup_code c
  | IUnlock => k_release lk
  end.

(** What [sched] comes to when the scheduler of some CPU has taken the process
    up again, in state [now]. *)
Definition resumed s (now : kst R) : M (kst R) unit := fun _ => sched (Some (fun _ => now)) s.

(** The step of thread [j], when it can take one.  A lock another CPU holds
    keeps it spinning; a process that is not runnable is not taken up. *)
Definition exec (j : nat) t m : option (machine R) :=
  let v := view (shared m) (t_regs t) in
  let go {A} (o : outcome (kst R) A) (pl : A -> place R) :=
    match o with Ret a s' => Some (put j s' (pl a) (t_script t) m) | _ => None end in
  match t_place t with
  | Running (Done _) =>
      match t_script t with
      | [] => None
      | IUntil :: sc =>
          if cond (rest v) then Some (put j v (Running (Done tt)) sc m)
          else Some (put j v (Running (instr_code IUntil)) (IUntil :: sc) m)
      | i :: sc => Some (put j v (Running (instr_code i)) sc m)
      end
  | Running (KAct a k) => go (a v) (fun b => Running (k b))
  | Running (KAcquire l k) => if free l m then go (acquire l v) (fun _ => Running k) else None
  | Running (KRelease l k) => go (release l v) (fun _ => Running k)
  | Running (KSched k) =>
      match sched None v with
      | Asleep _ s' => Some (put j s' (Switched v k) (t_script t) m)
      | _ => None
      end
  | Switched s k => go (go_out v) (fun _ => Parked s k)
  | Parked s k =>
      match cur s with
      | None => None
      | Some i =>
          match procs v !! i with
          | None => None
          | Some p =>
              if is_state RUNNABLE p && free LPtable m
              then go ((go_in i ;;; let! now := get in resumed s now) v) (fun _ => Running k)
              else None
          end
      end
  end.

Definition step m m' : Prop :=
  exists j t, threads m !! j = Some t /\ exec j t m = Some m'.

(** The machine after the threads of [l] have each taken a step, in order. *)
Fixpoint steps_of (l : list nat) m : option (machine R) :=
  match l with
  | [] => Some m
  | j :: l' => match threads m !! j with
               | Some t => match exec j t m with Some m' => steps_of l' m' | None => None end
               | None => None
               end
  end.

(** What a thread does: wait for the condition and then use what it stands
    for, or change it and wake the waiters; any number of times. *)
Inductive job := Wait (use : R -> R) | Signal (change : R -> R).
Definition body (b : job) : list (instr R) :=
  match b with
  | Wait g => [IUntil; IDo g; IUnlock]
  | Signal f => [IDo f; IWake; IUnlock]
  end.
Definition script (js : list job) : list (instr R) := js ≫= fun b => ILock :: body b.

(** Process [j] of the table runs the [j]-th list of jobs. *)
Definition boot s (js : list (list job)) : machine R :=
  Machine s (imap (fun j b =>
    Thread {| r_cpu := {| Cli.ncli := 0; Cli.intena := false; Cli.intr := true |}; r_held := [];
              r_cur := Some j; r_cr3 := cr3 s; r_esp0 := esp0 s |}
      (Running (Done tt)) (script b)) js).

Definition asleep (p : proc) : Prop := state p = SLEEPING /\ chan p = c.

(** The processes with jobs run, and nobody sleeps on the channel yet. *)
Definition ready s (js : list (list job)) : Prop :=
  (forall j, (j < length js)%nat -> exists p, procs s !! j = Some p /\ state p = RUNNING /\
     kstack p <> 0 /\ pgdir p <> 0) /\
  forall i p, procs s !! i = Some p -> ~ asleep p.

Definition finished t : Prop := t_place t = Running (Done tt) /\ t_script t = [].

End Machine.
End Smp.

(** ** The invariant *)

Module WakeupFacts.
Import Proc ProcFacts Smp.

(** The record of a CPU that holds the locks [r_held], taken with interrupts
    enabled. *)
Definition cpu_ok (r : regs) : Prop :=
  Cli.ncli (r_cpu r) = Z.of_nat (length (r_held r)) /\
  Cli.intr (r_cpu r) = bool_decide (r_held r = []) /\
  (r_held r <> [] -> Cli.intena (r_cpu r) = true).

Section Runs.
Context {R : Type}.
Implicit Types (s : kst R) (r : regs).

Lemma regs_view s r : regs_of (view s r) = r.
Proof. by destruct r. Qed.
Lemma view_view s r r' : view (view s r) r' = view s r'.
Proof. done. Qed.

Lemma acquire_view s r l : cpu_ok r -> l ∉ r_held r ->
  exists r', acquire l (view s r) = Ret tt (view s r') /\ cpu_ok r' /\
    r_held r' = l :: r_held r /\ r_cur r' = r_cur r.
Proof.
  intros (Hn & Hi & He) Hl. rewrite (ProcFacts.acquire_ok l (view s r) Hl).
  exists {| r_cpu := CliFacts.inside (r_cpu r); r_held := l :: r_held r; r_cur := r_cur r;
    r_cr3 := r_cr3 r; r_esp0 := r_esp0 r |}.
  split; [done|]. split; [|done]. unfold cpu_ok. cbn [r_cpu r_held CliFacts.inside Cli.ncli Cli.intr Cli.intena length cpu view].
  split_and!; [lia|done|]. intros _. destruct (Z.eqb_spec (Cli.ncli (r_cpu r)) 0) as [E|E].
  - rewrite Hi. apply bool_decide_true. destruct (r_held r); [done|cbn in *; lia].
  - apply He. intros E'. rewrite E' in Hn. done.
Qed.

Lemma release_view s r l h : cpu_ok r -> l ∈ r_held r -> filter (fun l' => l' <> l) (r_held r) = h ->
  length (r_held r) = S (length h) ->
  exists r', release l (view s r) = Ret tt (view s r') /\ cpu_ok r' /\ r_held r' = h /\ r_cur r' = r_cur r.
Proof.
  intros (Hn & Hi & He) Hl Hh Hlen. unfold release.
  assert (Hne : r_held r <> []) by (intros E; rewrite E in Hl; set_solver).
  rewrite CliFacts.release_run; cbn -[Z.add Z.sub filter]; [|lia|rewrite Hi; by apply bool_decide_false].
  rewrite bool_decide_true by done. rewrite Hh.
  set (n := Cli.ncli (r_cpu r) - 1).
  exists {| r_cpu := {| Cli.ncli := n; Cli.intena := Cli.intena (r_cpu r);
                        Cli.intr := (n =? 0) && Cli.intena (r_cpu r) |};
    r_held := h; r_cur := r_cur r; r_cr3 := r_cr3 r; r_esp0 := r_esp0 r |}.
  split; [done|]. split; [|done].
  assert (En : n = Z.of_nat (length h)) by (unfold n; rewrite Hn, Hlen; lia).
  unfold cpu_ok. cbn [r_cpu r_held Cli.ncli Cli.intr Cli.intena].
  rewrite (He Hne), andb_true_r, En. split_and!; [done| |done].
  destruct h; [by rewrite bool_decide_true|]. rewrite bool_decide_false by done.
  apply Z.eqb_neq. cbn [length]. lia.
Qed.

Lemma upd_own s r j f : upd j f (view s r) = Ret tt (view (with_procs (alter f j (procs s)) s) r).
Proof. done. Qed.

Lemma myproc_view s r : cpu_ok r -> r_held r <> [] ->
  myproc (view s r) = Ret (r_cur r) (view s r).
Proof.
  intros (Hn & Hi & He) Hne. rewrite bool_decide_false in Hi by done.
  assert (Hc : CliFacts.nest_ok (cpu (view s r))) by (split; cbn; [lia|done]).
  rewrite (ProcFacts.myproc_ok _ Hc).
  assert (E : unnest (cpu (view s r)) = r_cpu r); [|by rewrite E].
  unfold unnest. cbn [cpu view]. rewrite (proj2 (Z.eqb_neq _ _)); [by destruct (r_cpu r)|].
  rewrite Hn. destruct (r_held r); [done|]. cbn [length]. lia.
Qed.

(** A thread that has called [sched] as [sleep] does. *)
Definition outgoing (j : nat) s : Prop :=
  running_locked j {| Cli.ncli := 0; Cli.intena := true; Cli.intr := true |} s /\
  exists p, procs s !! j = Some p /\ state p = SLEEPING.

Lemma outgoing_view s r j p : cpu_ok r -> r_held r = [LPtable] -> r_cur r = Some j ->
  procs s !! j = Some p -> state p = SLEEPING -> outgoing j (view s r).
Proof.
  intros (Hn & Hi & He) Hh Hc Hp Hst. split; [|by exists p]. rewrite Hh in *.
  split_and!; try done. cbn. destruct (r_cpu r). cbn in *. by rewrite Hn, Hi, He.
Qed.

Lemma sched_away s j : outgoing j s -> exists c, sched None s = Asleep c s.
Proof.
  intros [H (p & Hp & Hst)]. exists (chan p). rewrite (sched_out s j _ p H Hp) by (by rewrite Hst).
  destruct H as (_ & _ & _ & Ec & _). f_equal. rewrite Ec. destruct s. cbn in *. by subst.
Qed.

(** [sched] comes back in the state of the CPU that takes the process up, with
    the interrupt record of the process. *)
Lemma sched_back s j now : outgoing j s -> Cli.intr (cpu now) = false ->
  sched (Some (fun _ => now)) s =
    Ret tt (with_cpu {| Cli.ncli := Cli.ncli (cpu now); Cli.intena := true; Cli.intr := false |} now).
Proof.
  intros [(Hcur & _ & _ & Ec & Eh) (p & Hp & Hst)] Hi. unfold sched.
  assert (Hin : CliFacts.nest_ok (cpu s)) by (rewrite Ec; by split).
  rewrite (bind_eq _ _ _ _ _ (ProcFacts.myproc_ok s Hin)). unfold bind at 1. unfold get at 1.
  unfold Cli.holding. cbn. rewrite Eh, bool_decide_true by set_solver. cbn.
  unfold bind, mycpu, swtch, proc_at, get, ret, modify. cbn. rewrite Ec, Hcur. cbn.
  change (negb (0 + 1 =? 1)) with false. cbn. rewrite Hp. cbn.
  unfold is_state. rewrite Hst, bool_decide_false by done. cbn. by rewrite !Hi.
Qed.

Lemma go_out_view s r : cpu_ok r -> r_held r = [LPtable] ->
  exists r', go_out (view s r) = Ret tt (view s r') /\ cpu_ok r' /\ r_held r' = [].
Proof.
  intros Hc Hh. unfold go_out, switchkvm, bind at 1, modify at 1, bind at 1, modify at 1.
  set (r1 := {| r_cpu := r_cpu r; r_held := r_held r; r_cur := None; r_cr3 := V2P (kpgdir s); r_esp0 := r_esp0 r |}).
  destruct (release_view s r1 LPtable []) as (r' & Hr & Hc' & Hh' & _); [done|..].
  - cbn. rewrite Hh. set_solver.
  - cbn. by rewrite Hh, filter_cons_False by tauto.
  - cbn. by rewrite Hh.
  - exists r'. split; [exact Hr|done].
Qed.

Lemma go_in_view s r j p : cpu_ok r -> r_held r = [] -> procs s !! j = Some p -> kstack p <> 0 -> pgdir p <> 0 ->
  exists r', go_in j (view s r) = Ret tt (view (with_procs (alter (set_state RUNNING) j (procs s)) s) r') /\
    cpu_ok r' /\ r_held r' = [LPtable] /\ r_cur r' = Some j.
Proof.
  intros (Hn & Hi & He) Hh Hp Hk Hd. rewrite Hh in *. unfold go_in, sti, bind at 1, modify at 1.
  set (r0 := {| r_cpu := {| Cli.ncli := Cli.ncli (r_cpu r); Cli.intena := Cli.intena (r_cpu r); Cli.intr := true |};
                r_held := r_held r; r_cur := r_cur r; r_cr3 := r_cr3 r; r_esp0 := r_esp0 r |}).
  destruct (acquire_view s r0 LPtable) as (r1 & Hr & Hc1 & Hh1 & _).
  { split_and!; cbn; rewrite Hh; done. }
  { cbn. rewrite Hh. set_solver. }
  erewrite bind_eq by exact Hr. cbn [r0 r_held] in Hh1. rewrite Hh in Hh1.
  unfold bind at 1, modify at 1.
  destruct Hc1 as (Hn1 & Hi1 & He1). rewrite Hh1 in *. destruct r1 as [[n e i] h cu c3 e0]. cbn in *. subst.
  rewrite He1 by done. unfold switchuvm, bind, proc_at, get. cbn. rewrite Hp. cbn.
  rewrite (proj2 (Z.eqb_neq _ _) Hk), (proj2 (Z.eqb_neq _ _) Hd). cbn.
  exists {| r_cpu := {| Cli.ncli := 1; Cli.intena := true; Cli.intr := false |}; r_held := [LPtable];
    r_cur := Some j; r_cr3 := V2P (pgdir p); r_esp0 := kstack p + KSTACKSIZE |}.
  split; [reflexivity|]. by split_and!.
Qed.

(** The scheduler takes process [j] up, and it goes on where it called [sched]. *)
Lemma resume_view s r j p s0 : cpu_ok r -> r_held r = [] -> procs s !! j = Some p ->
  kstack p <> 0 -> pgdir p <> 0 -> outgoing j s0 ->
  exists r', (go_in j ;;; let! now := get in resumed s0 now) (view s r) =
      Ret tt (view (with_procs (alter (set_state RUNNING) j (procs s)) s) r') /\
    cpu_ok r' /\ r_held r' = [LPtable] /\ r_cur r' = Some j.
Proof.
  intros Hc Hh Hp Hk Hd Hs0. destruct (go_in_view s r j p) as (r' & Hr & Hc' & Hh' & Hcu); try done.
  exists r'. rewrite (bind_eq _ _ _ _ _ Hr). unfold bind, get, resumed.
  pose proof Hc' as (Hn & Hi & He). rewrite Hh' in Hn, Hi, He.
  rewrite (sched_back s0 j) by done. split; [|done].
  destruct r' as [[n e i] ? ? ? ?]. cbn in *. subst. rewrite He by done. done.
Qed.

End Runs.
Section Invariant.
Context {R : Type} (lk : lockid) (c : Z) (cond : R -> bool).
Hypothesis lk_other : lk <> LPtable.
Implicit Types (s : kst R) (m : machine R) (t : thread R) (js : list (@job R)).

(** Where a thread is, with what is left of its script. *)
Inductive pc :=
| Idle js | Taking (b : @job R) js | Testing (g : R -> R) js | Found (g : R -> R) js
| Using (g : R -> R) js | Leaving js | Unlocking js
| Sl0 (g : R -> R) js | Sl1 (g : R -> R) js | Sl2 (g : R -> R) js | Sl3 (g : R -> R) js
| Sl4 (g : R -> R) js | Sl5 (g : R -> R) js | Sl6 (g : R -> R) js | Sl7 (g : R -> R) js
| Sl8 (g : R -> R) js | Sl9 (g : R -> R) js
| Wk0 (f : R -> R) js | Wk1 (f : R -> R) js | Wk2 js | Wk3 js | Wk4 js | Wk5 js.

(** What is left of [sleep] from each of its steps on, and of [wakeup]. *)
Definition sl_end : kcode R unit :=
  if decide (lk = LPtable) then Done tt else k_release LPtable >; k_acquire lk.
Definition sl8 (j : nat) : kcode R unit := act (upd j (set_chan 0)) >; sl_end.
Definition sl5 (j : nat) : kcode R unit := KSched (sl8 j).
Definition sl4 (j : nat) : kcode R unit := act (upd j (set_state SLEEPING)) >; sl5 j.
Definition sl3 (j : nat) : kcode R unit := act (upd j (set_chan c)) >; sl4 j.
Definition use_code (g : R -> R) : kcode R unit := instr_code lk c (IDo g).

Definition place_is (j : nat) (P : pc) (pl : place R) : Prop :=
  match P with
  | Idle _ | Testing _ _ | Found _ _ | Leaving _ | Wk0 _ _ | Wk2 _ => pl = Running (Done tt)
  | Taking _ _ => pl = Running (k_acquire lk)
  | Using g _ | Wk1 g _ => pl = Running (use_code g)
  | Unlocking _ => pl = Running (k_release lk)
  | Sl0 _ _ => pl = Running (sleep_code c (Some lk))
  | Sl1 _ _ => pl = Running (KAcquire LPtable (KRelease lk (sl3 j)))
  | Sl2 _ _ => pl = Running (KRelease lk (sl3 j))
  | Sl3 _ _ => pl = Running (sl3 j)
  | Sl4 _ _ => pl = Running (sl4 j)
  | Sl5 _ _ => pl = Running (sl5 j)
  | Sl6 _ _ => exists s, pl = Switched s (sl8 j) /\ outgoing j s
  | Sl7 _ _ => exists s, pl = Parked s (sl8 j) /\ outgoing j s
  | Sl8 _ _ => pl = Running (sl8 j)
  | Sl9 _ _ => pl = Running (KRelease LPtable (k_acquire lk))
  | Wk3 _ => pl = Running (wakeup_code c)
  | Wk4 _ => pl = Running (KAct (wakeup1 c) (fun _ => k_release LPtable))
  | Wk5 _ => pl = Running (k_release LPtable)
  end.

Definition script_is (P : pc) : list (instr R) :=
  match P with
  | Idle js | Unlocking js => script js
  | Taking b js => body b ++ script js
  | Testing g js | Sl0 g js | Sl1 g js | Sl2 g js | Sl3 g js | Sl4 g js | Sl5 g js | Sl6 g js | Sl7 g js
  | Sl8 g js | Sl9 g js => body (Wait g) ++ script js
  | Found g js => IDo g :: IUnlock :: script js
  | Using _ js | Leaving js | Wk4 js | Wk5 js => IUnlock :: script js
  | Wk0 f js => body (Signal f) ++ script js
  | Wk1 _ js | Wk2 js => IWake :: IUnlock :: script js
  | Wk3 js => IUnlock :: script js
  end.

Definition holds (P : pc) : list lockid :=
  match P with
  | Idle _ | Taking _ _ | Sl7 _ _ => []
  | Testing _ _ | Found _ _ | Using _ _ | Leaving _ | Unlocking _ | Sl0 _ _ | Sl1 _ _
  | Wk0 _ _ | Wk1 _ _ | Wk2 _ | Wk3 _ => [lk]
  | Sl2 _ _ | Wk4 _ | Wk5 _ => [LPtable; lk]
  | Sl3 _ _ | Sl4 _ _ | Sl5 _ _ | Sl6 _ _ | Sl8 _ _ | Sl9 _ _ => [LPtable]
  end.

(** After the change and before the waiters are woken. *)
Definition signalling (P : pc) : Prop :=
  match P with Wk2 _ | Wk3 _ | Wk4 _ => True | _ => False end.
Definition out (P : pc) : Prop := match P with Sl6 _ _ | Sl7 _ _ => True | _ => False end.
Definition in_sleep (P : pc) : Prop :=
  match P with Sl5 _ _ | Sl6 _ _ | Sl7 _ _ => True | _ => False end.

Definition slot_is (P : pc) (p : proc) : Prop :=
  match P with
  | Sl4 _ _ => state p = RUNNING /\ chan p = c
  | Sl5 _ _ | Sl6 _ _ => asleep c p
  | Sl7 _ _ => asleep c p \/ state p = RUNNABLE
  | _ => state p = RUNNING
  end.

(** What the thread knows of the condition: with its lock it is as it was
    tested; on the way to sleep, or asleep, it is false unless a wake-up is
    coming ([w]). *)
Definition knows (b : bool) (w : Prop) (P : pc) (p : proc) : Prop :=
  match P with
  | Found _ _ | Using _ _ => b = true
  | Sl0 _ _ | Sl1 _ _ | Sl2 _ _ => b = false
  | Sl3 _ _ | Sl4 _ _ | Sl5 _ _ | Sl6 _ _ => b = false \/ w
  | Sl7 _ _ => asleep c p -> b = false \/ w
  | _ => True
  end.

Definition coming (Ps : list pc) : Prop := exists k Q, Ps !! k = Some Q /\ signalling Q.

Record thread_is (ps : list proc) (j : nat) (P : pc) t : Prop := {
  th_place : place_is j P (t_place t);
  th_script : t_script t = script_is P;
  th_held : r_held (t_regs t) = holds P;
  th_cpu : cpu_ok (t_regs t);
  th_cur : ~ out P -> r_cur (t_regs t) = Some j;
  th_slot : exists p, ps !! j = Some p /\ slot_is P p /\ kstack p <> 0 /\ pgdir p <> 0 }.

Record inv (Ps : list pc) m : Prop := {
  in_len : length Ps = length (threads m);
  in_threads : forall j P t, Ps !! j = Some P -> threads m !! j = Some t ->
    thread_is (procs (shared m)) j P t;
  in_alone : forall i j P Q l, Ps !! i = Some P -> Ps !! j = Some Q -> l ∈ holds P -> l ∈ holds Q -> i = j;
  in_knows : forall j P p, Ps !! j = Some P -> procs (shared m) !! j = Some p ->
    knows (cond (rest (shared m))) (coming Ps) P p;
  in_asleep : forall i p, procs (shared m) !! i = Some p -> asleep c p ->
    exists P, Ps !! i = Some P /\ in_sleep P }.

Lemma free_holds Ps m l : inv Ps m -> free l m = true ->
  forall j P, Ps !! j = Some P -> l ∉ holds P.
Proof.
  intros H Hf j P HP. destruct (lookup_lt_is_Some_2 (threads m) j) as [t Ht].
  { rewrite <- (in_len _ _ H). by eapply lookup_lt_Some. }
  rewrite <- (th_held _ _ _ _ (in_threads _ _ H j P t HP Ht)).
  pose proof (proj1 (forallb_forall _ _) Hf t) as Hl. apply bool_decide_eq_true in Hl; [done|].
  apply list_elem_of_In. by eapply list_elem_of_lookup_2.
Qed.

Lemma not_free_held Ps m l : inv Ps m -> free l m = false ->
  exists j P t, Ps !! j = Some P /\ threads m !! j = Some t /\ l ∈ holds P.
Proof.
  intros H Hf. unfold free in Hf.
  assert (E : Exists (fun t => l ∈ r_held (t_regs t)) (threads m)).
  { destruct (decide (Exists (fun t => l ∈ r_held (t_regs t)) (threads m))) as [|Hn]; [done|].
    apply not_Exists_Forall in Hn; [|intros t; apply _]. rewrite Forall_forall in Hn.
    assert (T : forallb (fun t => bool_decide (l ∉ r_held (t_regs t))) (threads m) = true); [|congruence].
    apply forallb_forall. intros t Ht. apply bool_decide_eq_true, Hn. by apply list_elem_of_In. }
  apply Exists_exists in E as (t & (j & Ht)%list_elem_of_lookup_1 & Hl).
  destruct (lookup_lt_is_Some_2 Ps j) as [P HP].
  { rewrite (in_len _ _ H). by eapply lookup_lt_Some. }
  exists j, P, t. split_and!; [done..|].
  by rewrite <- (th_held _ _ _ _ (in_threads _ _ H j P t HP Ht)).
Qed.

Lemma slot_asleep P p : slot_is P p -> asleep c p -> in_sleep P.
Proof. intros H [Hs _]. destruct P; cbn in *; try done; naive_solver congruence. Qed.

(** Thread [j] steps from [P] to [P']: what has to be seen to of the others. *)
Lemma inv_put Ps m j P P' s' pl sc (Ps' := <[j := P']> Ps) :
  inv Ps m -> Ps !! j = Some P ->
  thread_is (procs s') j P' (Thread (regs_of s') pl sc) ->
  (forall l, l ∈ holds P' -> l ∈ holds P \/ free l m = true) ->
  (forall i Q p, i <> j -> Ps !! i = Some Q -> procs (shared m) !! i = Some p -> slot_is Q p ->
     knows (cond (rest (shared m))) (coming Ps) Q p ->
     exists p', procs s' !! i = Some p' /\ slot_is Q p' /\ kstack p' = kstack p /\ pgdir p' = pgdir p /\
       knows (cond (rest s')) (coming Ps') Q p') ->
  (forall i p', i <> j -> procs s' !! i = Some p' -> asleep c p' ->
     exists p, procs (shared m) !! i = Some p /\ asleep c p) ->
  (forall p', procs s' !! j = Some p' -> slot_is P' p' -> knows (cond (rest s')) (coming Ps') P' p') ->
  inv Ps' (put j s' pl sc m).
Proof.
  intros H HP Hj Hl Hothers Hsl Hk. pose proof (lookup_lt_Some _ _ _ HP) as Hlt.
  assert (Hlt' : (j < length (threads m))%nat) by (by rewrite <- (in_len _ _ H)).
  assert (Hget : forall i Q, Ps' !! i = Some Q -> i = j /\ Q = P' \/ i <> j /\ Ps !! i = Some Q).
  { intros i Q. unfold Ps'. rewrite list_lookup_insert_Some. naive_solver. }
  assert (Hold : forall i Q, i <> j -> Ps !! i = Some Q -> exists t p, threads m !! i = Some t /\
    thread_is (procs (shared m)) i Q t /\ procs (shared m) !! i = Some p /\ slot_is Q p /\ kstack p <> 0 /\ pgdir p <> 0).
  { intros i Q Hne HQ. destruct (lookup_lt_is_Some_2 (threads m) i) as [t Ht].
    { rewrite <- (in_len _ _ H). by eapply lookup_lt_Some. }
    pose proof (in_threads _ _ H _ _ _ HQ Ht) as Hth. destruct (th_slot _ _ _ _ Hth) as (p & ? & ?). by exists t, p. }
  split.
  - unfold Ps'. cbn. by rewrite !length_insert, (in_len _ _ H).
  - cbn. intros i Q t HQ Ht. destruct (Hget i Q HQ) as [[-> ->]|[Hne HQ']].
    + rewrite list_lookup_insert_eq in Ht by done. by injection Ht as <-.
    + rewrite list_lookup_insert_ne in Ht by done.
      destruct (Hold i Q Hne HQ') as (t' & p & Ht' & [] & Hp & Hq & Hks & Hpg). simplify_eq.
      destruct (Hothers i Q p) as (p' & Hp' & Hq' & Ek & Ep & _); try done; [by eapply in_knows|].
      split; try done. exists p'. by rewrite Ek, Ep.
  - intros i k Q Q' l HQ HQ' Hi Hk'.
    destruct (Hget _ _ HQ) as [[-> ->]|[Hne1 H1]], (Hget _ _ HQ') as [[-> ->]|[Hne2 H2]]; [done|..].
    + destruct (Hl l Hi) as [Hin|Hf]; [by apply (in_alone _ _ H _ _ _ _ l HP H2)|].
      by destruct (free_holds _ _ _ H Hf _ _ H2).
    + destruct (Hl l Hk') as [Hin|Hf]; [by apply (in_alone _ _ H _ _ _ _ l H1 HP)|].
      by destruct (free_holds _ _ _ H Hf _ _ H1).
    + by apply (in_alone _ _ H _ _ _ _ l H1 H2).
  - cbn. intros i Q p' HQ Hp'. destruct (Hget i Q HQ) as [[-> ->]|[Hne HQ']].
    + apply Hk; [done|]. destruct (th_slot _ _ _ _ Hj) as (q & Hq & ? & _). by simplify_eq.
    + destruct (Hold i Q Hne HQ') as (t' & p & _ & _ & Hp & Hq & _).
      destruct (Hothers i Q p) as (q & Hq' & _ & _ & _ & Hkn); try done; [by eapply in_knows|]. by simplify_eq.
  - cbn. intros i p' Hp' Ha. destruct (decide (i = j)) as [->|Hne].
    + exists P'. split; [by apply list_lookup_insert_eq|].
      destruct (th_slot _ _ _ _ Hj) as (q & Hq & Hs & _). simplify_eq. by eapply slot_asleep.
    + destruct (Hsl i p' Hne Hp' Ha) as (p & Hp & Hap). destruct (in_asleep _ _ H i p Hp Hap) as (Q & HQ & ?).
      exists Q. unfold Ps'. by rewrite list_lookup_insert_ne.
Qed.

Lemma knows_weaken b (w w' : Prop) P p : (w -> w') -> knows b w P p -> knows b w' P p.
Proof. intros Hw. destruct P; cbn; try done; tauto. Qed.

Lemma coming_insert Ps j P P' : Ps !! j = Some P -> (signalling P -> signalling P') ->
  coming Ps -> coming (<[j := P']> Ps).
Proof.
  intros HP Hs (k & Q & HQ & Hsg). destruct (decide (k = j)) as [->|Hne].
  - simplify_eq. exists j, P'. split; [|by apply Hs]. apply list_lookup_insert_eq. by eapply lookup_lt_Some.
  - exists k, Q. by rewrite list_lookup_insert_ne.
Qed.

(** Most steps leave the data and the other slots alone. *)
Lemma inv_quiet Ps m j P P' s' pl sc :
  inv Ps m -> Ps !! j = Some P ->
  thread_is (procs s') j P' (Thread (regs_of s') pl sc) ->
  (forall l, l ∈ holds P' -> l ∈ holds P \/ free l m = true) ->
  rest s' = rest (shared m) -> (forall i, i <> j -> procs s' !! i = procs (shared m) !! i) ->
  (signalling P -> signalling P') ->
  (forall w p p', procs (shared m) !! j = Some p -> procs s' !! j = Some p' -> slot_is P' p' ->
     knows (cond (rest (shared m))) w P p -> knows (cond (rest (shared m))) w P' p') ->
  inv (<[j := P']> Ps) (put j s' pl sc m).
Proof.
  intros H HP Hj Hl Er Hp Hs Hk. eapply inv_put; try done.
  - intros i Q p Hne HQ Hpi Hsl Hkn. exists p. rewrite Hp, Er by done. split_and!; try done.
    eapply knows_weaken; [|exact Hkn]. by apply (coming_insert Ps j P P').
  - intros i p' Hne Hp' Ha. exists p'. by rewrite <- Hp.
  - intros p' Hp' Hsl. rewrite Er. destruct (lookup_lt_is_Some_2 (threads m) j) as [t Ht].
    { rewrite <- (in_len _ _ H). by eapply lookup_lt_Some. }
    destruct (th_slot _ _ _ _ (in_threads _ _ H _ _ _ HP Ht)) as (p & Hpj & _).
    apply (Hk _ p p'); try done. eapply knows_weaken; [by apply (coming_insert Ps j P P')|].
    by apply (in_knows _ _ H j).
Qed.

Lemma signalling_holds P : signalling P -> lk ∈ holds P.
Proof. destruct P; cbn; try done; set_solver. Qed.

(** Who knows more than that a wake-up is coming holds the condition's lock. *)
Lemma knows_unlocked b b' (w w' : Prop) P p : lk ∉ holds P -> (b = false \/ w -> b' = false \/ w') ->
  knows b w P p -> knows b' w' P p.
Proof. destruct P; cbn; try done; set_solver. Qed.

(** A thread with the condition's lock changes the data: nobody is on the way
    to sleep then, or a wake-up is coming. *)
Lemma inv_change Ps m j P P' s' pl sc :
  inv Ps m -> Ps !! j = Some P ->
  thread_is (procs s') j P' (Thread (regs_of s') pl sc) ->
  holds P = [lk] -> holds P' = [lk] -> procs s' = procs (shared m) ->
  (signalling P' \/ ~ signalling P /\ cond (rest (shared m)) = true) ->
  (forall b w p, knows b w P' p) ->
  inv (<[j := P']> Ps) (put j s' pl sc m).
Proof.
  intros H HP Hj Hh Hh' Hp Hs Hk. eapply inv_put; try done.
  - intros l Hl. left. by rewrite Hh, <- Hh'.
  - intros i Q p Hne HQ Hpi Hsl Hkn. exists p. rewrite Hp. split_and!; try done.
    eapply knows_unlocked; [| |exact Hkn].
    { intros Hi. apply Hne. apply (in_alone _ _ H _ _ _ _ lk HQ HP Hi). rewrite Hh. set_solver. }
    intros Hold. destruct Hs as [Hs|[Hs Hc]].
    + right. exists j, P'. split; [|done]. apply list_lookup_insert_eq. by eapply lookup_lt_Some.
    + destruct Hold as [|(k & Q' & HQ' & Hsg)]; [congruence|].
      assert (k = j) as ->.
      { apply (in_alone _ _ H _ _ _ _ lk HQ' HP); [by apply signalling_holds|rewrite Hh; set_solver]. }
      by simplify_eq.
  - intros i p' _ Hp' Ha. exists p'. by rewrite <- Hp.
Qed.

Lemma wake_kept p : kstack (wake c p) = kstack p /\ pgdir (wake c p) = pgdir p.
Proof. unfold wake. by case_match. Qed.

Lemma wake_awake p : ~ asleep c (wake c p).
Proof.
  unfold wake, asleep, is_state. case_match eqn:E; cbn; [by intros []|].
  intros [Hs Hc]. by rewrite Hs, bool_decide_true, Hc, Z.eqb_refl in E.
Qed.

(** A thread with [ptable.lock] wakes the sleepers: whoever is asleep becomes
    runnable, and nobody is on the way. *)
Lemma inv_wake Ps m j P P' s' pl sc :
  inv Ps m -> Ps !! j = Some P ->
  thread_is (procs s') j P' (Thread (regs_of s') pl sc) ->
  holds P = [LPtable; lk] -> holds P' = [LPtable; lk] -> rest s' = rest (shared m) ->
  procs s' = wake c <$> procs (shared m) -> (forall b w p, knows b w P' p) ->
  inv (<[j := P']> Ps) (put j s' pl sc m).
Proof.
  intros H HP Hj Hh Hh' Er Hp Hk. eapply inv_put; try done.
  - intros l Hl. left. by rewrite Hh, <- Hh'.
  - intros i Q p Hne HQ Hpi Hsl Hkn. exists (wake c p). destruct (wake_kept p) as [Ek Ep].
    rewrite Hp, list_lookup_fmap, Hpi, Er. split; [done|].
    assert (Hno : forall l, l ∈ holds P -> l ∉ holds Q).
    { intros l Hl Hl'. apply Hne. apply (in_alone _ _ H _ _ _ _ _ HQ HP Hl' Hl). }
    rewrite Hh in Hno. pose proof (Hno LPtable ltac:(set_solver)) as H1. pose proof (Hno lk ltac:(set_solver)) as H2.
    pose proof (wake_awake p) as Hw.
    assert (Hrun : state p = RUNNING -> wake c p = p).
    { intros E. unfold wake, is_state. by rewrite E, bool_decide_false. }
    split; [|split; [done|split; [done|]]].
    + destruct Q; cbn in Hsl, H1 |- *; first [by rewrite Hrun|exfalso; apply H1; left|idtac].
      right. destruct Hsl as [[Es Ec]|Es]; unfold wake, is_state.
      * by rewrite Es, bool_decide_true, Ec, Z.eqb_refl.
      * by rewrite Es, bool_decide_false.
    + destruct Q; cbn in H1, H2 |- *; first [done|exfalso; apply H1; left|exfalso; apply H2; left|by intros ?%Hw].
  - intros i p' _ Hp' Ha. rewrite Hp, list_lookup_fmap in Hp'.
    destruct (procs (shared m) !! i) as [p|]; [|done]. injection Hp' as <-. by destruct (wake_awake p).
Qed.

Lemma go_next Ps m j P P' t s1 r' pl' sc' :
  inv Ps m -> Ps !! j = Some P -> threads m !! j = Some t ->
  place_is j P' pl' -> sc' = script_is P' -> cpu_ok r' -> r_held r' = holds P' ->
  (~ out P' -> r_cur r' = Some j) ->
  (forall l, l ∈ holds P' -> l ∈ holds P \/ free l m = true) ->
  rest s1 = rest (shared m) -> (forall i, i <> j -> procs s1 !! i = procs (shared m) !! i) ->
  (forall p, procs (shared m) !! j = Some p -> slot_is P p -> exists p', procs s1 !! j = Some p' /\
     slot_is P' p' /\ kstack p' = kstack p /\ pgdir p' = pgdir p) ->
  (signalling P -> signalling P') ->
  (forall w p p', procs (shared m) !! j = Some p -> procs s1 !! j = Some p' -> slot_is P' p' ->
     knows (cond (rest (shared m))) w P p -> knows (cond (rest (shared m))) w P' p') ->
  inv (<[j := P']> Ps) (put j (view s1 r') pl' sc' m).
Proof.
  intros H HP Ht Hpl -> Hc Hh Hcu Hl Er Hp Hs Hsg Hk.
  destruct (th_slot _ _ _ _ (in_threads _ _ H _ _ _ HP Ht)) as (p & Hpj & Hsl & Hks & Hpg).
  eapply inv_quiet; try done. rewrite regs_view. split; try done.
  destruct (Hs p Hpj Hsl) as (p' & Hp' & Hsl' & Ek & Ep). exists p'. by rewrite Ek, Ep.
Qed.

(** The next step leaves the table alone. *)
Lemma go_same Ps m j P P' t r' pl' sc' :
  inv Ps m -> Ps !! j = Some P -> threads m !! j = Some t ->
  place_is j P' pl' -> sc' = script_is P' -> cpu_ok r' -> r_held r' = holds P' ->
  (~ out P' -> r_cur r' = Some j) ->
  (forall l, l ∈ holds P' -> l ∈ holds P \/ free l m = true) ->
  (forall p, slot_is P p -> slot_is P' p) -> (signalling P -> signalling P') ->
  (forall w p, slot_is P' p -> knows (cond (rest (shared m))) w P p -> knows (cond (rest (shared m))) w P' p) ->
  inv (<[j := P']> Ps) (put j (view (shared m) r') pl' sc' m).
Proof.
  intros. eapply go_next; try done.
  - intros p Hp Hsl. exists p. eauto.
  - intros w p p' Hp Hp' ? ?. simplify_eq. eauto.
Qed.

(** The next step writes the thread's own slot. *)
Lemma go_upd Ps m j P P' t r' pl' sc' f :
  inv Ps m -> Ps !! j = Some P -> threads m !! j = Some t ->
  place_is j P' pl' -> sc' = script_is P' -> cpu_ok r' -> r_held r' = holds P' ->
  (~ out P' -> r_cur r' = Some j) ->
  (forall l, l ∈ holds P' -> l ∈ holds P \/ free l m = true) ->
  (forall p, slot_is P p -> slot_is P' (f p) /\ kstack (f p) = kstack p /\ pgdir (f p) = pgdir p) ->
  (signalling P -> signalling P') ->
  (forall w p, slot_is P' (f p) -> knows (cond (rest (shared m))) w P p ->
     knows (cond (rest (shared m))) w P' (f p)) ->
  inv (<[j := P']> Ps) (put j (view (with_procs (alter f j (procs (shared m))) (shared m)) r') pl' sc' m).
Proof.
  intros H HP Ht Hpl Hsc Hc Hh Hcu Hl Hs Hsg Hk. eapply go_next; try done.
  - intros i Hne. cbn. by rewrite list_lookup_alter_ne.
  - intros p Hp Hsl. exists (f p). cbn. rewrite list_lookup_alter_eq, Hp. split; [done|]. by apply Hs.
  - cbn. intros w p p' Hp Hp' Hsl Hkn. rewrite list_lookup_alter_eq, Hp in Hp'. injection Hp' as <-. by apply Hk.
Qed.

(** A thread that takes no step has nothing left to do, or waits for a lock
    another holds, or sleeps. *)
Definition blocked (P : pc) (j : nat) m : Prop :=
  match P with
  | Idle js => js = []
  | Taking _ _ => free lk m = false
  | Sl1 _ _ | Wk3 _ => free LPtable m = false
  | Sl7 _ _ => free LPtable m = false \/ exists p, procs (shared m) !! j = Some p /\ asleep c p
  | _ => False
  end.

Definition moves (Ps : list pc) (P : pc) (j : nat) m (o : option (machine R)) : Prop :=
  match o with
  | Some m' => exists P', inv (<[j := P']> Ps) m'
  | None => blocked P j m
  end.

Ltac goes P' := exists P'; eapply (go_same _ _ _ _ P'); try done; try (by intros; left); cbn; try (by intros; left); try tauto.

Section Steps.
Context (Ps : list pc) m (j : nat) (P : pc) (t : thread R).
Hypotheses (Hinv : inv Ps m) (HP : Ps !! j = Some P) (Ht : threads m !! j = Some t).

Let Hth : thread_is (procs (shared m)) j P t := in_threads _ _ Hinv _ _ _ HP Ht.

(** Between two statements of the script. *)
Lemma moves_between :
  match P with Idle _ | Testing _ _ | Found _ _ | Leaving _ | Wk0 _ _ | Wk2 _ => True | _ => False end ->
  moves Ps P j m (exec lk c cond j t m).
Proof.
  destruct t as [r pl sc], Hth as [Hpl Hsc Hh Hc Hcu Hs]. cbn in *. intros HP'. unfold exec.
  destruct P; try done; cbn in *; subst; cbn.
  - destruct js as [|b js]; [done|]. goes (Taking b js).
  - destruct (cond (rest (shared m))) eqn:E; [goes (Found g js)|goes (Sl0 g js)].
  - goes (Using g js).
  - goes (Unlocking js).
  - goes (Wk1 f js).
  - goes (Wk3 js).
Qed.

(** Taking a lock no CPU holds. *)
Lemma moves_acquire l k P' :
  t_place t = Running (KAcquire l k) -> place_is j P' (Running k) -> script_is P' = script_is P ->
  holds P' = l :: holds P -> l ∉ holds P -> ~ out P -> (free l m = false -> blocked P j m) ->
  (forall p, slot_is P p -> slot_is P' p) -> (signalling P -> signalling P') ->
  (forall b w p, slot_is P' p -> knows b w P p -> knows b w P' p) ->
  moves Ps P j m (exec lk c cond j t m).
Proof.
  destruct t as [r pl sc], Hth as [Hpl Hsc Hh Hc Hcu Hs]. cbn in *. intros -> Hpl' Hsc' Hh' Hn Hout Hb Hs' Hsg Hk.
  unfold exec. cbn [t_place t_regs t_script]. cbv zeta. destruct (free l m) eqn:Ef; [|by apply Hb].
  destruct (acquire_view (shared m) r l) as (r' & Hr & Hc' & Hhr & Hcr); [done|by rewrite Hh|].
  rewrite Hr. exists P'. eapply go_same; try done.
  - by rewrite Hsc'.
  - by rewrite Hhr, Hh.
  - intros _. rewrite Hcr. by apply Hcu.
  - intros l'. rewrite Hh'. intros [->|?]%elem_of_cons; [by right|by left].
  - intros w p. apply Hk.
Qed.

(** Letting go of a lock. *)
Lemma moves_release l k P' :
  t_place t = Running (KRelease l k) -> place_is j P' (Running k) -> script_is P' = script_is P ->
  l ∈ holds P -> holds P' = filter (fun l' => l' <> l) (holds P) -> length (holds P) = S (length (holds P')) ->
  ~ out P -> (forall p, slot_is P p -> slot_is P' p) -> (signalling P -> signalling P') ->
  (forall b w p, slot_is P' p -> knows b w P p -> knows b w P' p) ->
  moves Ps P j m (exec lk c cond j t m).
Proof.
  destruct t as [r pl sc], Hth as [Hpl Hsc Hh Hc Hcu Hs]. cbn in *. intros -> Hpl' Hsc' Hin Hh' Hlen Hout Hs' Hsg Hk.
  unfold exec. cbn [t_place t_regs t_script]. cbv zeta.
  destruct (release_view (shared m) r l (holds P')) as (r' & Hr & Hc' & Hhr & Hcr); [done|rewrite Hh; done..|].
  rewrite Hr. exists P'. eapply go_same; try done.
  - by rewrite Hsc'.
  - intros _. rewrite Hcr. by apply Hcu.
  - intros l'. rewrite Hh'. intros [_ ?]%list_elem_of_filter. by left.
  - intros w p. apply Hk.
Qed.

(** A write to the thread's own slot. *)
Lemma moves_upd f k P' :
  t_place t = Running (KAct (upd j f) k) -> place_is j P' (Running (k tt)) -> script_is P' = script_is P ->
  holds P' = holds P -> ~ out P ->
  (forall p, slot_is P p -> slot_is P' (f p) /\ kstack (f p) = kstack p /\ pgdir (f p) = pgdir p) ->
  (signalling P -> signalling P') ->
  (forall b w p, slot_is P' (f p) -> knows b w P p -> knows b w P' (f p)) ->
  moves Ps P j m (exec lk c cond j t m).
Proof.
  destruct t as [r pl sc], Hth as [Hpl Hsc Hh Hc Hcu Hs]. cbn in *. intros -> Hpl' Hsc' Hh' Hout Hs' Hsg Hk.
  unfold exec. cbn. exists P'. eapply (go_upd Ps m j P P'); try done.
  - by rewrite Hsc'.
  - by rewrite Hh, Hh'.
  - intros _. by apply Hcu.
  - intros l'. rewrite Hh'. by left.
  - intros w p. apply Hk.
Qed.

(** The data changes, under the condition's lock. *)
Lemma moves_change g P' :
  t_place t = Running (use_code g) -> place_is j P' (Running (Done tt)) -> script_is P' = script_is P ->
  holds P = [lk] -> holds P' = [lk] -> ~ out P -> (forall p, slot_is P p -> slot_is P' p) ->
  (signalling P' \/ ~ signalling P /\ cond (rest (shared m)) = true) ->
  (forall b w p, knows b w P' p) -> moves Ps P j m (exec lk c cond j t m).
Proof.
  destruct t as [r pl sc], Hth as [Hpl Hsc Hh Hc Hcu (p & Hp & Hsl & Hkp)]. cbn in *.
  intros -> Hpl' Hsc' Hl Hl' Hout Hs' Hs Hk.
  unfold exec. cbn. exists P'. eapply inv_change; try done. split; try done.
  - by rewrite Hsc'.
  - cbn. congruence.
  - cbn. intros _. by apply Hcu.
  - exists p. split; [done|]. split; [by apply Hs'|done].
Qed.

(** The sleepers are woken. *)
Lemma moves_wake js : P = Wk4 js -> moves Ps P j m (exec lk c cond j t m).
Proof.
  intros EP. destruct t as [r pl sc], Hth as [Hpl Hsc Hh Hc Hcu (p & Hp & Hsl & Hkp & Hpg)].
  subst P. cbn in *. subst. unfold exec. cbn. exists (Wk5 js). eapply inv_wake; try done. split; try done.
  exists (wake c p). destruct (wake_kept p) as [-> ->]. cbn. rewrite list_lookup_fmap, Hp.
  split; [done|]. split; [|done]. unfold wake, is_state. by rewrite Hsl, bool_decide_false.
Qed.

(** [sleep] finds its process. *)
Lemma moves_myproc g js : P = Sl0 g js -> moves Ps P j m (exec lk c cond j t m).
Proof.
  intros EP. destruct t as [r pl sc], Hth as [Hpl Hsc Hh Hc Hcu (p & Hp & Hsl & Hkp & Hpg)].
  subst P. cbn in *. subst. unfold exec, sleep_code. cbn [t_place t_regs t_script kbind act].
  cbv zeta. rewrite myproc_view by (done || by rewrite Hh). rewrite (Hcu ltac:(tauto)).
  unfold k_acquire, k_release. rewrite decide_False by done. goes (Sl1 g js).
Qed.

(** The switch to the scheduler, which then lets go of [ptable.lock]. *)
Lemma moves_sched g js : P = Sl5 g js -> moves Ps P j m (exec lk c cond j t m).
Proof.
  intros EP. destruct t as [r pl sc], Hth as [Hpl Hsc Hh Hc Hcu (p & Hp & Hsl & Hkp & Hpg)].
  subst P. cbn in *. subst. pose proof (Hcu ltac:(tauto)) as Hcj.
  pose proof (outgoing_view (shared m) r j p Hc Hh Hcj Hp (proj1 Hsl)) as Hout.
  destruct (sched_away _ _ Hout) as (ch & Es). unfold exec. cbn [t_place t_regs t_script sl5]. cbv zeta.
  rewrite Es. goes (Sl6 g js). by eexists.
Qed.
Lemma moves_park g js : P = Sl6 g js -> moves Ps P j m (exec lk c cond j t m).
Proof.
  intros EP. destruct t as [r pl sc], Hth as [Hpl Hsc Hh Hc _ _].
  subst P. cbn in *. destruct Hpl as (s & -> & Hs). subst.
  destruct (go_out_view (shared m) r Hc Hh) as (r' & Hr & Hc' & Hh'). unfold exec.
  cbn [t_place t_regs t_script]. cbv zeta. rewrite Hr. goes (Sl7 g js); [by eexists|set_solver].
Qed.

(** A scheduler takes the process up again once it is runnable. *)
Lemma moves_resume g js : P = Sl7 g js -> moves Ps P j m (exec lk c cond j t m).
Proof.
  intros EP. destruct t as [r pl sc], Hth as [Hpl Hsc Hh Hc _ (p & Hp & Hsl & Hkp & Hpg)].
  subst P. cbn in *. destruct Hpl as (s & -> & Hs). subst. unfold exec.
  cbn [t_place t_regs t_script]. cbv zeta. destruct Hs as [Hrun Hs]. rewrite (proj1 Hrun).
  cbn [procs view]. rewrite Hp. unfold is_state.
  destruct (decide (state p = RUNNABLE)) as [Est|Est].
  2:{ rewrite bool_decide_false by done. right. exists p. split; [done|]. by destruct Hsl. }
  rewrite bool_decide_true by done. destruct (free LPtable m) eqn:Ef; [|by left].
  destruct (resume_view (shared m) r j p s Hc Hh Hp Hkp Hpg (conj Hrun Hs)) as (r' & Hr & Hc' & Hh' & Hcu).
  cbn [andb]. rewrite Hr. exists (Sl8 g js). eapply (go_upd Ps m j (Sl7 g js)); try done.
  intros l ->%list_elem_of_singleton. by right.
Qed.
End Steps.

Lemma exec_moves Ps m j P t : inv Ps m -> Ps !! j = Some P -> threads m !! j = Some t ->
  moves Ps P j m (exec lk c cond j t m).
Proof.
  intros H HP Ht. pose proof (in_threads _ _ H _ _ _ HP Ht) as [Hpl _ _ _ _ _].
  assert (Hne : LPtable <> lk) by done.
  assert (E1 : filter (fun l' => l' <> lk) [lk] = []) by (by rewrite filter_cons_False by tauto).
  assert (E2 : filter (fun l' => l' <> lk) [LPtable; lk] = [LPtable])
    by (rewrite filter_cons_True; [by rewrite E1|done]).
  assert (E3 : filter (fun l' => l' <> LPtable) [LPtable] = []) by done.
  assert (E4 : filter (fun l' => l' <> LPtable) [LPtable; lk] = [lk])
    by (rewrite filter_cons_False by tauto; rewrite filter_cons_True; done).
  destruct P as [| | | | | | | | | | | | | | | | | | | | | |];
    try (eapply moves_between; [exact H|exact HP|exact Ht|done]); cbn in Hpl.
  - destruct b as [g|f].
    + eapply (moves_acquire _ _ _ _ _ H HP Ht lk _ (Testing g js)); try done; try tauto. set_solver.
    + eapply (moves_acquire _ _ _ _ _ H HP Ht lk _ (Wk0 f js)); try done; try tauto. set_solver.
  - eapply (moves_change _ _ _ _ _ H HP Ht g (Leaving js)); try done; try tauto.
    right. split; [tauto|]. destruct (th_slot _ _ _ _ (in_threads _ _ H _ _ _ HP Ht)) as (p & Hp & _).
    exact (in_knows _ _ H _ _ _ HP Hp).
  - eapply (moves_release _ _ _ _ _ H HP Ht lk _ (Idle js)); try done; cbn; try tauto. left.
  - by eapply moves_myproc.
  - eapply (moves_acquire _ _ _ _ _ H HP Ht LPtable _ (Sl2 g js)); try done; try tauto. set_solver.
  - eapply (moves_release _ _ _ _ _ H HP Ht lk _ (Sl3 g js)); try done; cbn; try tauto.
    right. left.
  - eapply (moves_upd _ _ _ _ _ H HP Ht _ _ (Sl4 g js)); try done; try tauto.
  - eapply (moves_upd _ _ _ _ _ H HP Ht _ _ (Sl5 g js)); try done; cbn; try tauto.
    intros p [? ?]. by split_and!.
  - by eapply moves_sched.
  - by eapply moves_park.
  - by eapply moves_resume.
  - eapply (moves_upd _ _ _ _ _ H HP Ht _ _ (Sl9 g js)); try done; cbn; try tauto.
    unfold sl_end. by rewrite decide_False.
  - eapply (moves_release _ _ _ _ _ H HP Ht LPtable _ (Taking (Wait g) js)); try done; cbn; try tauto. left.
  - eapply (moves_change _ _ _ _ _ H HP Ht f (Wk2 js)); try done; try tauto. by left.
  - eapply (moves_acquire _ _ _ _ _ H HP Ht LPtable _ (Wk4 js)); try done; try tauto. set_solver.
  - by eapply moves_wake.
  - eapply (moves_release _ _ _ _ _ H HP Ht LPtable _ (Leaving js)); try done; cbn; try tauto. left.
Qed.

(** ** What the invariant gives *)

Lemma inv_one Ps m m' : inv Ps m -> step lk c cond m m' -> exists Ps', inv Ps' m'.
Proof.
  intros H (j & t & Ht & E). destruct (lookup_lt_is_Some_2 Ps j) as [P HP].
  { rewrite (in_len _ _ H). by eapply lookup_lt_Some. }
  pose proof (exec_moves _ _ _ _ _ H HP Ht) as Hm. rewrite E in Hm. destruct Hm as (P' & ?). eauto.
Qed.

Lemma inv_run Ps m m' : inv Ps m -> rtc (step lk c cond) m m' -> exists Ps', inv Ps' m'.
Proof.
  intros H Hr. revert Ps H. induction Hr as [m|m m1 m2 Hs _ IH]; intros Ps H; [by exists Ps|].
  destruct (inv_one _ _ _ H Hs) as [Ps' H']. by eapply IH.
Qed.

Lemma inv_boot s bs : Smp.ready c s bs -> inv (Idle <$> bs) (boot s bs).
Proof.
  intros [Hrun Hno].
  assert (Hget : forall j P, (Idle <$> bs) !! j = Some P -> exists b, bs !! j = Some b /\ P = Idle b).
  { intros j P. rewrite list_lookup_fmap. destruct (bs !! j) as [b|]; [|done]. intros [= <-]. by exists b. }
  split.
  - cbn. by rewrite length_fmap, length_imap.
  - intros j P t (b & Hb & ->)%Hget Ht. cbn in Ht. rewrite list_lookup_imap, Hb in Ht. injection Ht as <-.
    destruct (Hrun j) as (p & Hp & Hst & ? & ?); [by eapply lookup_lt_Some|].
    split; try done. exists p. by split_and!.
  - intros i j P Q l (b & _ & ->)%Hget _ Hl. set_solver.
  - intros j P p (b & _ & ->)%Hget _. done.
  - intros i p Hp Ha. by destruct (Hno i p Hp).
Qed.

(** With the condition's lock free and the condition true nobody sleeps. *)
Lemma inv_awake Ps m i p : inv Ps m -> free lk m = true -> cond (rest (shared m)) = true ->
  procs (shared m) !! i = Some p -> ~ asleep c p.
Proof.
  intros H Hf Hc Hp Ha. destruct (in_asleep _ _ H i p Hp Ha) as (P & HP & Hin).
  pose proof (in_knows _ _ H i P p HP Hp) as Hk.
  assert (Hor : cond (rest (shared m)) = false \/ coming Ps) by (destruct P; cbn in Hin, Hk; tauto).
  destruct Hor as [|(k & Q & HQ & Hsg)]; [congruence|].
  by apply (free_holds _ _ _ H Hf k Q HQ), signalling_holds.
Qed.

(** When no thread can take a step, every lock is free. *)
Lemma inv_stuck_free Ps m : inv Ps m -> (forall m', ~ step lk c cond m m') ->
  free LPtable m = true /\ free lk m = true.
Proof.
  intros H Hs.
  assert (Hb : forall j P t, Ps !! j = Some P -> threads m !! j = Some t -> blocked P j m).
  { intros j P t HP Ht. pose proof (exec_moves _ _ _ _ _ H HP Ht) as Hm.
    destruct (exec lk c cond j t m) as [m'|] eqn:E; [|done]. destruct (Hs m'). by exists j, t. }
  assert (Hfp : free LPtable m = true).
  { destruct (free LPtable m) eqn:E; [done|].
    destruct (not_free_held _ _ _ H E) as (j & P & t & HP & Ht & Hl).
    specialize (Hb j P t HP Ht). destruct P; cbn in Hb, Hl; try done; set_solver. }
  split; [done|]. destruct (free lk m) eqn:E; [done|].
  destruct (not_free_held _ _ _ H E) as (j & P & t & HP & Ht & Hl).
  specialize (Hb j P t HP Ht). destruct P; cbn in Hb, Hl; try done; try congruence; set_solver.
Qed.

(** A thread that takes no step then has finished, or sleeps. *)
Lemma inv_stuck Ps m j t : inv Ps m -> (forall m', ~ step lk c cond m m') ->
  threads m !! j = Some t -> finished t \/ exists p, procs (shared m) !! j = Some p /\ asleep c p.
Proof.
  intros H Hs Ht. destruct (inv_stuck_free _ _ H Hs) as [Hfp Hfl].
  destruct (lookup_lt_is_Some_2 Ps j) as [P HP].
  { rewrite (in_len _ _ H). by eapply lookup_lt_Some. }
  pose proof (exec_moves _ _ _ _ _ H HP Ht) as Hm.
  destruct (exec lk c cond j t m) as [m'|] eqn:E; [destruct (Hs m'); by exists j, t|].
  destruct (in_threads _ _ H _ _ _ HP Ht) as [Hpl Hsc _ _ _ _].
  destruct P; cbn in Hm, Hpl, Hsc; try done; try congruence.
  - left. subst. done.
  - right. destruct Hm as [|?]; [congruence|done].
Qed.

End Invariant.

End WakeupFacts.

Import Proc ProcFacts Smp.

Lemma steps_of_steps {R} lk c cond l (m m' : machine R) :
  steps_of lk c cond l m = Some m' -> rtc (step lk c cond) m m'.
Proof.
  revert m. induction l as [|j l IH]; intros m; cbn; [by intros [= <-]|].
  destruct (threads m !! j) as [t|] eqn:Ht; [|done].
  destruct (exec lk c cond j t m) as [m1|] eqn:E; [|done].
  intros Hl. eapply rtc_l; [|by apply IH]. by exists j, t.
Qed.

(** C31: No wake-up is lost.  Any number of processes wait for a condition with
    [while(!cond) sleep(chan, &lk)] under its lock, or change the condition's data
    under the lock and call [wakeup(chan)], each any number of times, their steps
    interleaved in any way.  Whenever [lk] is free and the condition holds, no
    process of the table sleeps on [chan]; and nobody panics or is held up: when no
    thread can take a step every thread has run its script to the end, or sleeps
    on [chan] with the condition false.  The condition, the data, the lock (any but
    [ptable.lock]), the channel and the numbers are arbitrary. *)
Theorem wakeups_not_lost {R} (s : kst R) (lk : lockid) (c : Z) (cond : R -> bool)
    (bs : list (list job)) (m : machine R) :
  lk <> LPtable -> Smp.ready c s bs -> rtc (step lk c cond) (boot s bs) m ->
  (free lk m = true -> cond (rest (shared m)) = true ->
   forall i p, procs (shared m) !! i = Some p -> ~ asleep c p) /\
  ((forall m', ~ step lk c cond m m') -> forall j t, threads m !! j = Some t ->
   finished t \/
   cond (rest (shared m)) = false /\ exists p, procs (shared m) !! j = Some p /\ asleep c p).
Proof.
  intros Hlk Hr Hs. eapply WakeupFacts.inv_run in Hs as [Ps H]; [|done|by apply WakeupFacts.inv_boot].
  split; [intros; by eapply WakeupFacts.inv_awake|]. intros Hst j t Ht.
  destruct (WakeupFacts.inv_stuck lk c cond Hlk _ _ _ _ H Hst Ht) as [|(p & Hp & Ha)]; [by left|].
  right. split; [|by exists p]. destruct (cond (rest (shared m))) eqn:E; [|done].
  destruct (WakeupFacts.inv_stuck_free lk c cond Hlk _ _ H Hst) as [_ Hf].
  by eapply WakeupFacts.inv_awake in Hp.
Qed.

(** One process waits; between its letting go of the lock and its being asleep
    another takes the lock, changes the data and calls [wakeup], which has to
    wait for [ptable.lock]: the first process is woken, and goes on. *)
Lemma wakeups_not_lost_witness :
  let s := sample [live 1 RUNNING None; live 2 RUNNING None] 3 None in
  let cond := fun r => r =? 1 in
  let m0 := boot s [[Wait (fun _ => 0)]; [Signal (fun _ => 1)]] in
  let race := [0; 0; 0; 0; 0; 0; 1; 1; 1; 1; 1; 0; 0; 0; 0; 1; 1; 1; 1; 1]%nat in
  exists m p, steps_of LTicks 64 cond race m0 = Some m /\ cond (rest (shared m)) = true /\
    procs (shared m) !! 0%nat = Some p /\ ~ asleep 64 p /\
    exists m', steps_of LTicks 64 cond [0; 0; 0; 0; 0; 0; 0; 0; 0]%nat m = Some m' /\
      Forall finished (threads m').
Proof.
  intros s cond m0 race. set (m := default m0 (steps_of LTicks 64 cond race m0)).
  assert (E : steps_of LTicks 64 cond race m0 = Some m) by (vm_compute; reflexivity).
  assert (Hs : is_Some (procs (shared m) !! 0%nat)) by (vm_compute; by eexists). destruct Hs as [p Hp].
  exists m, p. split; [exact E|]. split; [vm_compute; reflexivity|]. split; [exact Hp|]. split.
  - destruct (wakeups_not_lost s LTicks 64 cond [[Wait (fun _ => 0)]; [Signal (fun _ => 1)]] m)
      as [H _]; [discriminate| |apply (steps_of_steps LTicks 64 cond race), E|].
    + split.
      * intros [|[|j]] Hj; [eexists; split; [reflexivity|]; split; [reflexivity|]; split; discriminate..|].
        cbn in Hj. lia.
      * intros i q Hq [Hst _]. apply list_elem_of_lookup_2 in Hq. revert Hst.
        apply (proj1 (Forall_forall (fun q => state q <> SLEEPING) (procs s))); [|exact Hq].
        vm_compute. repeat constructor; discriminate.
    + apply (H ltac:(vm_compute; reflexivity) ltac:(vm_compute; reflexivity) 0%nat p Hp).
  - eexists. split; [vm_compute; reflexivity|]. cbn [threads]. repeat constructor.
Defined.
