(* ===== verification/Syscall.v ===== *)
(** * System calls and traps

    [syscall.c] (argument fetching and dispatch), [sysproc.c] (the process
    calls, with the ones project 2 adds) and [trap.c].  User memory is the
    [umem] of the current address space. *)

From S2P Require Import Prelude CString Locks Proc.

Module Syscall.
Import Proc.

Section Fetch.
Context {R : Type}.

(** [None] stands for the result -1. *)
Definition fetchint (addr : Z) : M (kst R) (option Z) :=
  let! me := myproc_ in
  let! p := proc_at me in
  if (addr >=? sz p) || (u32 (addr + 4) >? sz p) then ret None
  else
    let! s := get in
    ret (Some (i32 (ld32 (umem s) addr))).

(** The scan of [fetchstr] from [a], [n] bytes before the end. *)
Fixpoint scan_nul (m : mem) (a : Z) (n : nat) : option Z :=
  match n with
  | O => None
  | S n' => if m a =? 0 then Some a else scan_nul m (a + 1) n'
  end.

(** The address and the length. *)
Definition fetchstr (addr : Z) : M (kst R) (option (Z * Z)) :=
  let! me := myproc_ in
  let! p := proc_at me in
  if addr >=? sz p then ret None
  else
    let! s := get in
    match scan_nul (umem s) addr (Z.to_nat (sz p - addr)) with
    | Some e => ret (Some (addr, e - addr))
    | None => ret None
    end.

Definition argint (n : Z) : M (kst R) (option Z) :=
  let! me := myproc_ in
  let! p := proc_at me in
  fetchint (u32 (tf_esp (tf p) + 4 + 4 * n)).

Definition argptr (n size : Z) : M (kst R) (option Z) :=
  let! me := myproc_ in
  let! r := argint n in
  match r with
  | None => ret None
  | Some i =>
      let! p := proc_at me in
      if (size <? 0) || (u32 i >=? sz p) || (u32 (u32 i + size) >? sz p) then ret None
      else ret (Some (u32 i))
  end.

Definition argstr (n : Z) : M (kst R) (option (Z * Z)) :=
  let! r := argint n in
  match r with
  | None => ret None
  | Some addr => fetchstr (u32 addr)
  end.

End Fetch.
End Syscall.

Module Sysproc.
Import Proc Syscall.

Section Calls.
Context {R : Type} `{!Services R}.

Definition sys_fork (resume : option (kst R -> kst R)) : M (kst R) Z := fork resume.

Definition sys_exit (resume : option (kst R -> kst R)) : M (kst R) Z := exit resume ;;; ret 0.

Definition sys_wait (env : list (kst R -> kst R)) : M (kst R) Z := wait env.

Definition sys_kill : M (kst R) Z :=
  let! a := argint 0 in
  match a with
  | None => ret (-1)
  | Some pid => kill pid
  end.

Definition sys_getpid : M (kst R) Z :=
  let! me := myproc_ in
  let! p := proc_at me in
  ret (pid p).

Definition sys_sbrk : M (kst R) Z :=
  let! a := argint 0 in
  match a with
  | None => ret (-1)
  | Some n =>
      let! me := myproc_ in
      let! p := proc_at me in
      let addr := i32 (sz p) in
      let! r := growproc n in
      if r <? 0 then ret (-1) else ret addr
  end.

(** The [while] of [sys_sleep]; [env] has one entry per wake-up.  The
    comparison is unsigned. *)
Fixpoint sleep_loop (n ticks0 : Z) (env : list (kst R -> kst R)) : M (kst R) Z :=
  let! s := get in
  if u32 (ticks s - ticks0) <? u32 n then
    let! me := myproc_ in
    let! p := proc_at me in
    if negb (killed p =? 0) then
      release LTicks ;;;
      ret (-1)
    else
      sleep ticksaddr (Some LTicks) (head env) ;;;
      match env with
      | [] => fault
      | _ :: env' => sleep_loop n ticks0 env'
      end
  else
    release LTicks ;;;
    ret 0.

Definition sys_sleep (env : list (kst R -> kst R)) : M (kst R) Z :=
  let! a := argint 0 in
  match a with
  | None => ret (-1)
  | Some n =>
      acquire LTicks ;;;
      let! t0 := gets ticks in
      sleep_loop n t0 env
  end.

Definition sys_uptime : M (kst R) Z :=
  acquire LTicks ;;;
  let! xticks := gets ticks in
  release LTicks ;;;
  ret (i32 xticks).

Definition outw (port data : Z) : M (kst R) unit :=
  modify (fun s => with_out (out s ++ [OPort port data]) s).

Definition sys_shutdown : M (kst R) Z :=
  outw 45060 8192 ;;;
  outw 1540 8192 ;;;
  ret 0.

(** Project 1's variant with a message; the bytes of the string are what
    [cprintf] then interprets as a format. *)
Definition sys_shutdown2 (cprintf_format : list Z -> M (kst R) unit) : M (kst R) Z :=
  let! a := argstr 0 in
  match a with
  | None => ret (-1)
  | Some (addr, len) =>
      let! s := get in
      cprintf_format ((fun i => umem s (addr + Z.of_nat i)) <$> seq 0 (Z.to_nat len)) ;;;
      cprintf [OBytes [10]] ;;;
      outw 45060 8192 ;;;
      outw 1540 8192 ;;;
      ret 0
  end.

Definition sys_enable_sched_trace : M (kst R) Z :=
  let! a := argint 0 in
  match a with
  | None => cprintf [OStr "enable_sched_trace() failed!"; OBytes [10]]
  | Some v => modify (with_trace_on v)
  end ;;;
  modify (with_trace_cnt 0) ;;;
  ret 0.

Definition sys_fork_winner : M (kst R) Z :=
  let! a := argint 0 in
  match a with
  | None => ret (-1)
  | Some v => modify (with_winner v) ;;; ret 0
  end.

Definition sys_set_sched : M (kst R) Z :=
  let! a := argint 0 in
  match a with
  | None => ret (-1)
  | Some v => modify (with_str v) ;;; ret 0
  end.

(** [p->tickets] with a null [p] is a fault. *)
Definition sys_tickets_owned : M (kst R) Z :=
  let! a := argint 0 in
  match a with
  | None => ret (-1)
  | Some pid =>
      let! s := get in
      let! i := from_opt (getProc pid s) in
      let! p := proc_at i in
      ret (tickets p)
  end.

Definition sys_transfer_tickets : M (kst R) Z :=
  let! a := argint 0 in
  match a with
  | None => ret (-1)
  | Some pid =>
      let! b := argint 1 in
      match b with
      | None => ret (-1)
      | Some t =>
          let! s := get in
          match getProc pid s with
          | None => ret (-3)
          | Some i =>
              if t <? 0 then ret (-1)
              else
                let! me := myproc_ in
                let! q := proc_at me in
                if t >? tickets q - 1 then ret (-2)
                else
                  let! me := myproc_ in
                  upd me (fun p => set_tickets (tickets p - t) p) ;;;
                  let! p := proc_at i in
                  let! v := to_int (tickets p + t) in
                  upd i (set_tickets v) ;;;
                  let! me := myproc_ in
                  let! q := proc_at me in
                  ret (tickets q)
          end
      end
  end.

End Calls.
End Sysproc.

Module Trap.
Import Proc Syscall Sysproc.

Section Trap.
Context {R : Type} `{!Services R}.

(** How a process call goes on once its process is switched back in. *)
Record resumption := { resume1 : option (kst R -> kst R); resumes : list (kst R -> kst R) }.

(** The table [syscalls]; the file calls are an argument. *)
Definition syscalls (file_call : Z -> option (M (kst R) Z)) (r : resumption) (num : Z)
    : option (M (kst R) Z) :=
  match num with
  | 1 => Some (sys_fork (resume1 r))
  | 2 => Some (sys_exit (resume1 r))
  | 3 => Some (sys_wait (resumes r))
  | 6 => Some sys_kill
  | 11 => Some sys_getpid
  | 12 => Some sys_sbrk
  | 13 => Some (sys_sleep (resumes r))
  | 14 => Some sys_uptime
  | 22 => Some sys_shutdown
  | 23 => Some sys_enable_sched_trace
  | 24 => Some sys_fork_winner
  | 25 => Some sys_set_sched
  | 26 => Some sys_tickets_owned
  | 27 => Some sys_transfer_tickets
  | _ => file_call num
  end.

Definition set_eax (v : Z) (t : trapframe) : trapframe :=
  {| tf_eax := v; tf_eip := tf_eip t; tf_esp := tf_esp t; tf_eflags := tf_eflags t;
     tf_cs := tf_cs t; tf_ds := tf_ds t; tf_es := tf_es t; tf_ss := tf_ss t;
     tf_others := tf_others t |}.

Definition syscall (file_call : Z -> option (M (kst R) Z)) (r : resumption) : M (kst R) unit :=
  let! me := myproc_ in
  let! p := proc_at me in
  let num := i32 (tf_eax (tf p)) in
  match (if (num >? 0) && (num <? 28) then syscalls file_call r num else None) with
  | Some call =>
      let! v := call in
      upd me (fun p => set_tf (set_eax (u32 v) (tf p)) p)
  | None =>
      cprintf [ONum (pid p); OStr " "; OBytes (name p); OStr ": unknown sys call "; ONum num;
               OBytes [10]] ;;;
      upd me (fun p => set_tf (set_eax (u32 (-1)) (tf p)) p)
  end.

(** The device handlers [trap] calls. *)
Record devices := {
  ideintr : M (kst R) unit; kbdintr : M (kst R) unit; uartintr : M (kst R) unit;
  lapiceoi : M (kst R) unit }.

Definition tick : M (kst R) unit :=
  acquire LTicks ;;;
  modify (fun s => with_ticks (u32 (ticks s + 1)) s) ;;;
  wakeup ticksaddr ;;;
  release LTicks.

(** [if(myproc() && myproc()->killed && (tf->cs&3) == DPL_USER) exit();] *)
Definition exit_if_killed (cs : Z) (r : resumption) : M (kst R) unit :=
  let! p := myproc in
  match p with
  | None => ret tt
  | Some me =>
      let! q := proc_at me in
      if negb (killed q =? 0) && (Z.land cs 3 =? 3) then exit (resume1 r) else ret tt
  end.

(** [file_call] and [dev] are the other parts of the kernel. *)
Definition trap (file_call : Z -> option (M (kst R) Z)) (dev : devices) (cpuid trapno err cr2 : Z)
    (t : trapframe) (r : resumption) : M (kst R) unit :=
  if trapno =? 64 then
    let! me := myproc_ in
    let! p := proc_at me in
    (if negb (killed p =? 0) then exit (resume1 r) else ret tt) ;;;
    let! me := myproc_ in
    upd me (set_tf t) ;;;
    syscall file_call r ;;;
    let! me := myproc_ in
    let! p := proc_at me in
    if negb (killed p =? 0) then exit (resume1 r) else ret tt
  else
    (if trapno =? 32 then
       (if cpuid =? 0 then tick else ret tt) ;;; lapiceoi dev
     else if trapno =? 46 then ideintr dev ;;; lapiceoi dev
     else if trapno =? 47 then ret tt
     else if trapno =? 33 then kbdintr dev ;;; lapiceoi dev
     else if trapno =? 36 then uartintr dev ;;; lapiceoi dev
     else if (trapno =? 39) || (trapno =? 63) then
       cprintf [OStr "cpu"; ONum cpuid; OStr ": spurious interrupt at "; OHex (tf_cs t); OStr ":";
                OHex (tf_eip t); OBytes [10]] ;;;
       lapiceoi dev
     else
       let! p := myproc in
       if bool_decide (p = None) || (Z.land (tf_cs t) 3 =? 0) then
         cprintf [OStr "unexpected trap "; ONum trapno; OStr " from cpu "; ONum cpuid; OStr " eip ";
                  OHex (tf_eip t); OStr " (cr2=0x"; OHex cr2; OStr ")"; OBytes [10]] ;;;
         panic "trap"
       else
         let! me := from_opt p in
         let! q := proc_at me in
         cprintf [OStr "pid "; ONum (pid q); OStr " "; OBytes (name q); OStr ": trap "; ONum trapno;
                  OStr " err "; ONum err; OStr " on cpu "; ONum cpuid; OStr " eip 0x"; OHex (tf_eip t);
                  OStr " addr 0x"; OHex cr2; OStr "--kill proc"; OBytes [10]] ;;;
         upd me (set_killed 1)) ;;;
    exit_if_killed (tf_cs t) r ;;;
    let! p := myproc in
    (match p with
     | None => ret tt
     | Some me =>
         let! q := proc_at me in
         if is_state RUNNING q && (trapno =? 32) then yield (resume1 r) else ret tt
     end) ;;;
    exit_if_killed (tf_cs t) r.

End Trap.
End Trap.
