(* ===== verification/SyscallFacts.v ===== *)
(** * System calls and traps: lemmas and properties

    Pointer checks, the ticket calls, and the guarantee that a killed process
    does not get back to user mode. *)

From S2P Require Import Prelude CString Locks Proc ProcFacts Syscall.
Import Proc ProcFacts Syscall.

Module SyscallFacts.

Section Facts.
Context {R : Type}.
Implicit Type s : kst R.

(** A process [me], with record [p], is on the CPU. *)
Definition on_cpu (me : nat) (p : proc) s : Prop :=
  CliFacts.nest_ok (cpu s) /\ cur s = Some me /\ procs s !! me = Some p.

Definition settled s : kst R := with_cpu (unnest (cpu s)) s.

Lemma on_cpu_settled me p s : on_cpu me p s -> on_cpu me p (settled s).
Proof. done. Qed.
Lemma settled_idem s : settled (settled s) = settled s.
Proof. unfold settled. cbn. by rewrite unnest_idem. Qed.

Lemma myproc_settled me p s : on_cpu me p s -> myproc_ s = Ret me (settled s).
Proof. intros (Hc & Hcur & _). by apply myproc__ok. Qed.

Definition in_user (a n size : Z) : bool := (0 <=? a) && (a + n <=? size).

Lemma fetchint_ok me p s addr :
  on_cpu me p s -> 0 <= sz p <= KERNBASE -> 0 <= addr < 4294967296 ->
  fetchint addr s =
    Ret (if in_user addr 4 (sz p) then Some (i32 (ld32 (umem s) addr)) else None) (settled s).
Proof.
  intros Hon Hsz Ha. unfold fetchint. rewrite (bind_eq _ _ _ _ _ (myproc_settled _ _ _ Hon)).
  destruct Hon as (_ & _ & Hp). erewrite bind_eq by (apply proc_at_ok; exact Hp).
  unfold in_user, KERNBASE in *. rewrite (proj2 (Z.leb_le 0 addr)) by lia. cbn [andb].
  destruct (Z.geb_spec addr (sz p)) as [Hge|Hlt]; cbn [orb].
  { rewrite (proj2 (Z.leb_gt _ _)) by lia. done. }
  rewrite u32_small by lia.
  destruct (Z.gtb_spec (addr + 4) (sz p)) as [Hgt|Hle].
  { rewrite (proj2 (Z.leb_gt _ _)) by lia. done. }
  rewrite (proj2 (Z.leb_le _ _)) by lia. done.
Qed.

Definition arg_addr (n : Z) (p : proc) : Z := u32 (tf_esp (tf p) + 4 + 4 * n).
Definition arg (n : Z) (p : proc) s : option Z :=
  if in_user (arg_addr n p) 4 (sz p) then Some (i32 (ld32 (umem s) (arg_addr n p))) else None.

Lemma argint_ok me p s n :
  on_cpu me p s -> 0 <= sz p <= KERNBASE -> argint n s = Ret (arg n p s) (settled s).
Proof.
  intros Hon Hsz. unfold argint. rewrite (bind_eq _ _ _ _ _ (myproc_settled _ _ _ Hon)).
  pose proof Hon as (_ & _ & Hp). erewrite bind_eq by (apply proc_at_ok; exact Hp).
  rewrite (fetchint_ok me p) by (done || apply u32_range). rewrite settled_idem. done.
Qed.

End Facts.

(** ** Results of operations, as predicates on every way they can end *)

Lemma ret_only {S A} (P : A -> S -> Prop) (m : M S A) s :
  (forall a s', m s = Ret a s' -> P a s') ->
  match m s with Ret a s' => P a s' | _ => True end.
Proof. intros H. destruct (m s) eqn:E; try done. by apply H. Qed.

End SyscallFacts.

Import SyscallFacts.

(** A pointer argument that the kernel accepts lies in the process: for
    every stack pointer, argument number, size and memory contents, [argptr]
    returns and either fails or hands out an address whose whole block is below
    [sz], even when the 32-bit additions wrap; it fails exactly when the
    argument word or the block does not fit. *)
Theorem argptr_safe {R} (s : kst R) me p n size :
  on_cpu me p s -> 0 <= sz p <= KERNBASE -> -2147483648 <= size < 2147483648 ->
  exists r, argptr n size s = Ret r (settled s) /\
    match r with
    | Some a => 0 <= a /\ 0 <= size /\ a < sz p /\ a + size <= sz p /\
                arg n p s = Some (i32 a)
    | None => forall v, arg n p s = Some v ->
                size < 0 \/ sz p <= u32 v \/ sz p < u32 v + size
    end.
Proof.
  intros Hon Hsz Hsize. unfold argptr.
  rewrite (bind_eq _ _ _ _ _ (myproc_settled _ _ _ Hon)).
  rewrite (bind_eq _ _ _ _ _ (argint_ok me p (settled s) n Hon Hsz)), settled_idem.
  change (arg n p (settled s)) with (arg n p s).
  destruct (arg n p s) as [v|] eqn:Ev; [|by exists None].
  erewrite bind_eq by (apply proc_at_ok; apply Hon).
  pose proof (u32_range v) as Hv. unfold KERNBASE in Hsz.
  destruct (Z.ltb_spec size 0); cbn [orb].
  { exists None. split; [done|]. intros ? [= <-]. by left. }
  destruct (Z.geb_spec (u32 v) (sz p)); cbn [orb].
  { exists None. split; [done|]. intros ? [= <-]. right. left. lia. }
  rewrite (u32_small (u32 v + size)) by lia.
  destruct (Z.gtb_spec (u32 v + size) (sz p)); cbn [orb].
  { exists None. split; [done|]. intros ? [= <-]. lia. }
  exists (Some (u32 v)). split; [done|]. split_and!; try lia. f_equal.
  rewrite i32_of_u32. unfold arg in Ev. case_match; simplify_eq.
  symmetry. apply i32_small, i32_range.
Qed.

(** A process of one page whose stack holds the word 100 as first argument. *)
Definition arg_sample : kst Z :=
  let p := set_sz 4096 (live 3 RUNNING (Some 1%nat)) in
  with_umem (mset (fun _ => 0) 4 100)
    (with_procs (<[2%nat := set_tf (Trap.set_eax 0 {| tf_eax := 0; tf_eip := 0; tf_esp := 0;
       tf_eflags := 0; tf_cs := 0; tf_ds := 0; tf_es := 0; tf_ss := 0; tf_others := [] |}) p]>
       (procs (sample family 4 (Some 2%nat)))) (sample family 4 (Some 2%nat))).

Lemma argptr_safe_witness :
  exists p r, procs arg_sample !! 2%nat = Some p /\ argptr 0 16 arg_sample = Ret r (settled arg_sample) /\
    r = Some 100.
Proof.
  destruct (argptr_safe arg_sample 2 (default blank (procs arg_sample !! 2%nat)) 0 16) as (r & Hr & H).
  - split; [split; cbn; lia|]. split; reflexivity.
  - vm_compute. split; discriminate.
  - lia.
  - exists (default blank (procs arg_sample !! 2%nat)), r. split; [reflexivity|]. split; [exact Hr|].
    assert (E : argptr 0 16 arg_sample = Ret (Some 100) (settled arg_sample)) by reflexivity.
    rewrite E in Hr. by injection Hr as <-.
Defined.

Module StrFacts.

Lemma scan_nul_Some m n : forall a e,
  scan_nul m a n = Some e <->
  a <= e < a + Z.of_nat n /\ m e = 0 /\ forall x, a <= x < e -> m x <> 0.
Proof.
  induction n as [|n IH]; intros a e; cbn [scan_nul].
  { split; [done|]. lia. }
  destruct (Z.eqb_spec (m a) 0) as [Ha|Ha].
  - split.
    + intros [= <-]. split_and!; [lia..|done|]. intros; lia.
    + intros (Hr & He & Hall). f_equal. destruct (decide (a = e)); [done|].
      exfalso. apply (Hall a); [lia|done].
  - rewrite IH. split.
    + intros (Hr & He & Hall). split_and!; [lia..|done|].
      intros x Hx. destruct (decide (x = a)) as [->|]; [done|]. apply Hall. lia.
    + intros (Hr & He & Hall). assert (a <> e) by congruence.
      split_and!; [lia..|done|]. intros x Hx. apply Hall. lia.
Qed.

Lemma scan_nul_None m n : forall a,
  scan_nul m a n = None <-> forall x, a <= x < a + Z.of_nat n -> m x <> 0.
Proof.
  induction n as [|n IH]; intros a; cbn [scan_nul].
  { split; [|done]. intros _ x Hx. lia. }
  destruct (Z.eqb_spec (m a) 0) as [Ha|Ha].
  - split; [done|]. intros H. exfalso. apply (H a); [lia|done].
  - rewrite IH. split; intros H x Hx.
    + destruct (decide (x = a)) as [->|]; [done|]. apply H. lia.
    + apply H. lia.
Qed.

End StrFacts.

(** A string argument that the kernel accepts ends inside the process:
    [fetchstr] returns the distance to the first NUL, which lies below [sz],
    and fails exactly when there is none. *)
Theorem fetchstr_spec {R} (s : kst R) me p addr :
  on_cpu me p s -> 0 <= addr ->
  exists r, fetchstr addr s = Ret r (settled s) /\
    match r with
    | Some (a, len) => a = addr /\ 0 <= len /\ addr + len < sz p /\ umem s (addr + len) = 0 /\
        forall x, addr <= x < addr + len -> umem s x <> 0
    | None => forall x, addr <= x < sz p -> umem s x <> 0
    end.
Proof.
  intros Hon Ha. unfold fetchstr. rewrite (bind_eq _ _ _ _ _ (myproc_settled _ _ _ Hon)).
  erewrite bind_eq by (apply proc_at_ok; apply Hon).
  destruct (Z.geb_spec addr (sz p)) as [Hge|Hlt].
  { exists None. split; [done|]. lia. }
  erewrite (bind_eq get) by reflexivity. change (umem (settled s)) with (umem s).
  destruct (scan_nul (umem s) addr (Z.to_nat (sz p - addr))) as [e|] eqn:Hs.
  - apply StrFacts.scan_nul_Some in Hs as (He & H0 & Hall).
    exists (Some (addr, e - addr)). split; [done|]. rewrite Zplus_minus.
    split_and!; [done|lia|lia|done|done].
  - exists None. split; [done|]. rewrite StrFacts.scan_nul_None in Hs.
    intros x Hx. apply Hs. lia.
Qed.

Lemma fetchstr_spec_witness :
  exists r, fetchstr 0 arg_sample = Ret r (settled arg_sample) /\ r = Some (0, 0).
Proof.
  destruct (fetchstr_spec arg_sample 2 (default blank (procs arg_sample !! 2%nat)) 0)
    as (r & Hr & _).
  - split; [split; cbn; lia|]. split; reflexivity.
  - lia.
  - exists r. split; [exact Hr|].
    assert (E : fetchstr 0 arg_sample = Ret (Some (0, 0)) (settled arg_sample)) by reflexivity.
    rewrite E in Hr. by injection Hr as <-.
Defined.

(** ** Tickets *)

Module Tickets.
Import Sysproc.

Section Tickets.
Context {R : Type} `{!Services R}.
Implicit Type s : kst R.

Definition total (l : list proc) : Z := foldr (fun p a => tickets p + a) 0 l.

Lemma total_alter l i p f :
  l !! i = Some p -> total (alter f i l) = total l + tickets (f p) - tickets p.
Proof.
  unfold total. revert i. induction l as [|q l IH]; intros [|i] H; simplify_eq/=; [lia|].
  rewrite (IH _ H). lia.
Qed.

(** The table after [t] tickets went from [me] to [i]. *)
Definition moved (me i : nat) (t : Z) (l : list proc) : list proc :=
  alter (fun p => set_tickets (tickets p + t) p) i
    (alter (fun p => set_tickets (tickets p - t) p) me l).

(** What the call answers, from its two arguments. *)
Definition transfer_answer (me : nat) (p : proc) (a b : option Z) s : Z * option (nat * Z) :=
  match a, b with
  | Some n, Some t =>
      match getProc n s with
      | None => (-3, None)
      | Some i =>
          if t <? 0 then (-1, None)
          else if t >? tickets p - 1 then (-2, None)
          else (tickets p - t, Some (i, t))
      end
  | _, _ => (-1, None)
  end.

Lemma getProc_runnable n s i :
  getProc n s = Some i -> exists q, procs s !! i = Some q /\ state q = RUNNABLE /\ pid q = n.
Proof.
  intros (q & Hq & H & _)%find_idx_Some. exists q. split; [done|]. bools.
  destruct H as [[H _] Hn]. split; [|done]. by apply bool_decide_eq_true in H.
Qed.

Lemma transfer_run s me p :
  on_cpu me p s -> state p = RUNNING -> 0 <= sz p <= KERNBASE ->
  (forall i q, procs s !! i = Some q -> 0 <= tickets q <= 100) ->
  let '(v, mv) := transfer_answer me p (arg 0 p s) (arg 1 p s) s in
  sys_transfer_tickets s =
    Ret v (if mv is Some (i, t) then with_procs (moved me i t (procs s)) (settled s)
           else settled s).
Proof.
  intros Hon Hst Hsz Htk. unfold sys_transfer_tickets, transfer_answer.
  rewrite (bind_eq _ _ _ _ _ (argint_ok me p s 0 Hon Hsz)).
  destruct (arg 0 p s) as [n|]; [|done].
  rewrite (bind_eq _ _ _ _ _ (argint_ok me p (settled s) 1 Hon Hsz)), settled_idem.
  change (arg 1 p (settled s)) with (arg 1 p s).
  destruct (arg 1 p s) as [t|]; [|done].
  erewrite (bind_eq get) by reflexivity. change (getProc n (settled s)) with (getProc n s).
  destruct (getProc n s) as [i|] eqn:Hg; [|done].
  apply getProc_runnable in Hg as (q & Hq & Hqst & _).
  destruct (Z.ltb_spec t 0); [done|].
  rewrite (bind_eq _ _ _ _ _ (myproc_settled _ _ (settled s) Hon)), settled_idem.
  erewrite bind_eq by (apply proc_at_ok; apply Hon).
  destruct (Z.gtb_spec t (tickets p - 1)); [done|].
  rewrite (bind_eq _ _ _ _ _ (myproc_settled _ _ (settled s) Hon)), settled_idem.
  unfold bind at 1, upd at 1, modify at 1. set (f := fun p => set_tickets (tickets p - t) p).
  assert (Hne : i <> me) by (intros ->; destruct Hon as (_ & _ & Hp); congruence).
  erewrite bind_eq.
  2:{ apply proc_at_ok. cbn [procs with_procs]. rewrite list_lookup_alter_ne by done. exact Hq. }
  pose proof (Htk _ _ Hq) as Ht1. pose proof (Htk _ _ (proj2 (proj2 Hon))) as Ht2.
  unfold to_int, int_ok. rewrite !(proj2 (Z.leb_le _ _)) by lia. cbn [andb].
  unfold bind at 1, ret at 1. unfold bind at 1, upd at 1, modify at 1.
  assert (Hon' : on_cpu me (f p) (with_procs (alter (set_tickets (tickets q + t)) i
      (alter f me (procs s))) (settled s))).
  { destruct Hon as (Hc & Hcur & Hp). split; [done|]. split; [done|]. cbn [procs with_procs].
    rewrite list_lookup_alter_ne, list_lookup_alter_eq by done. by rewrite Hp. }
  change (procs (settled s)) with (procs s).
  erewrite bind_eq by exact (myproc_settled _ _ _ Hon').
  erewrite bind_eq by (apply proc_at_ok; apply Hon').
  unfold ret. cbn [tickets f set_tickets].
  assert (E : alter (set_tickets (tickets q + t)) i (alter f me (procs s)) = moved me i t (procs s)).
  { unfold moved. apply list_alter_ext; [|done]. intros x.
    rewrite list_lookup_alter_ne by done. congruence. }
  rewrite E. unfold settled. cbn. by rewrite unnest_idem.
Qed.

(** A write to the tickets of a process that competes is lost in the next
    [updateTickets]. *)
Lemma give_tickets_alter n (f : proc -> proc) k (l : list proc) :
  (forall y, competes (f y) = competes y) ->
  (forall m y, set_tickets m (f y) = set_tickets m y) ->
  (forall y, l !! k = Some y -> competes y = true) ->
  give_tickets n <$> alter f k l = give_tickets n <$> l.
Proof.
  intros Hf1 Hf2 Hl. apply list_eq. intros j. rewrite !list_lookup_fmap.
  destruct (decide (j = k)) as [->|Hne]; [|by rewrite list_lookup_alter_ne].
  rewrite list_lookup_alter_eq. destruct (l !! k) as [y|] eqn:Hy; [|done].
  cbn. unfold give_tickets. rewrite Hf1, (Hl y eq_refl). by rewrite Hf2.
Qed.

Lemma count_competing_alter (f : proc -> proc) k (l : list proc) :
  (forall y, competes (f y) = competes y) -> count_competing (alter f k l) = count_competing l.
Proof.
  intros Hf. unfold count_competing. f_equal. revert k.
  induction l as [|y l IH]; intros [|k]; try done; simpl; rewrite !filter_cons.
  - rewrite Hf. by case_decide.
  - specialize (IH k). case_decide; [apply (f_equal S), IH|apply IH].
Qed.

End Tickets.
End Tickets.

Import Tickets.

(** [transfer_tickets] answers -3 when no runnable process has the pid, -1
    for a missing argument or a negative amount, -2 when the caller would not
    keep a ticket; otherwise it moves exactly the amount to the other process,
    answers what the caller has left, at least one, and keeps the total. *)
Theorem transfer_tickets_spec {R} `{!Services R} (s : kst R) me p :
  on_cpu me p s -> state p = RUNNING -> 0 <= sz p <= KERNBASE ->
  (forall i q, procs s !! i = Some q -> 0 <= tickets q <= 100) ->
  exists v s', Sysproc.sys_transfer_tickets s = Ret v s' /\
    total (procs s') = total (procs s) /\
    (v < 0 -> procs s' = procs s) /\
    (v = -3 <-> exists n t, arg 0 p s = Some n /\ arg 1 p s = Some t /\ getProc n s = None) /\
    (0 <= v -> exists n t i, arg 0 p s = Some n /\ arg 1 p s = Some t /\ getProc n s = Some i /\
       i <> me /\ 0 <= t /\ v = tickets p - t /\ 1 <= v /\ procs s' = moved me i t (procs s)).
Proof.
  intros Hon Hst Hsz Htk. pose proof (transfer_run s me p Hon Hst Hsz Htk) as Hrun.
  assert (Hne : forall n i, getProc n s = Some i -> i <> me /\ exists q, procs s !! i = Some q).
  { intros n i (q & Hq & Hq' & _)%getProc_runnable. split; [|by exists q].
    intros ->. destruct Hon as (_ & _ & Hp). congruence. }
  unfold transfer_answer in Hrun.
  destruct (arg 0 p s) as [n|]; [|eexists _, _; split; [exact Hrun|]; naive_solver lia].
  destruct (arg 1 p s) as [t|]; [|eexists _, _; split; [exact Hrun|]; naive_solver lia].
  destruct (getProc n s) as [i|] eqn:Hg; [|eexists _, _; split; [exact Hrun|]; naive_solver lia].
  destruct (Z.ltb_spec t 0); [eexists _, _; split; [exact Hrun|]; naive_solver lia|].
  destruct (Z.gtb_spec t (tickets p - 1)); [eexists _, _; split; [exact Hrun|]; naive_solver lia|].
  eexists _, _. split; [exact Hrun|]. cbn [procs with_procs].
  destruct (Hne _ _ Hg) as [Him [q Hq]]. destruct Hon as (_ & _ & Hp).
  split.
  { unfold moved. rewrite (total_alter _ _ q) by (by rewrite list_lookup_alter_ne).
    rewrite (total_alter _ _ p) by done. cbn. lia. }
  split; [lia|]. split; [split; [lia|naive_solver]|].
  intros _. exists n, t, i. split_and!; try done; lia.
Qed.

(** Process 3 gives 5 of its tickets to process 2. *)
Definition ticket_sample : kst Z :=
  let tf0 := Trap.set_eax 0 {| tf_eax := 0; tf_eip := 0; tf_esp := 0; tf_eflags := 0;
       tf_cs := 0; tf_ds := 0; tf_es := 0; tf_ss := 0; tf_others := [] |} in
  with_umem (mset (mset (fun _ => 0) 4 2) 8 5)
    (sample [live 1 SLEEPING None; set_tickets 50 (live 2 RUNNABLE (Some 0%nat));
             set_tickets 50 (set_tf tf0 (set_sz 4096 (live 3 RUNNING (Some 1%nat))))]
            4 (Some 2%nat)).

Definition ticket_caller : proc := default blank (procs ticket_sample !! 2%nat).

Lemma ticket_sample_range i q :
  procs ticket_sample !! i = Some q -> 0 <= tickets q <= 100.
Proof.
  intros Hi. do 3 (destruct i as [|i]; [cbn in Hi; simplify_eq; cbn; lia|]).
  change (replicate 61 blank !! i = Some q) in Hi.
  apply lookup_replicate in Hi as [-> _]. cbn. lia.
Qed.

#[local] Existing Instance counting_services.

Lemma transfer_tickets_spec_witness :
  exists v s', Sysproc.sys_transfer_tickets ticket_sample = Ret v s' /\
    total (procs s') = 100 /\ v = 45.
Proof.
  destruct (transfer_tickets_spec ticket_sample 2 ticket_caller) as (v & s' & Hrun & Ht & _).
  - split; [split; cbn; lia|]. split; reflexivity.
  - reflexivity.
  - vm_compute. split; discriminate.
  - exact ticket_sample_range.
  - exists v, s'. split; [exact Hrun|]. split; [exact Ht|].
    assert (E : value_of (Sysproc.sys_transfer_tickets ticket_sample) = Some 45) by reflexivity.
    rewrite Hrun in E. by injection E.
Defined.

(** A transfer of tickets has no effect on stride scheduling: every round
    starts with [updateTickets], which gives the same table whether or not the
    transfer took place. *)
Theorem transfer_undone {R} `{!Services R} (s : kst R) me p v s' :
  on_cpu me p s -> state p = RUNNING -> 0 <= sz p <= KERNBASE ->
  (forall i q, procs s !! i = Some q -> 0 <= tickets q <= 100) ->
  Sysproc.sys_transfer_tickets s = Ret v s' ->
  exists s1 s2, updateTickets s = Ret tt s1 /\ updateTickets s' = Ret tt s2 /\
    procs s2 = procs s1.
Proof.
  intros Hon Hst Hsz Htk Hrun. pose proof (transfer_run s me p Hon Hst Hsz Htk) as Hrun'.
  destruct (transfer_answer me p (arg 0 p s) (arg 1 p s) s) as [v' mv] eqn:Ea.
  rewrite Hrun in Hrun'. injection Hrun' as -> ->.
  eexists _, _. split; [reflexivity|]. split; [reflexivity|]. cbn [procs with_procs].
  destruct mv as [[i t]|]; [|done]. cbn [procs with_procs].
  assert (Hi : exists n, getProc n s = Some i).
  { unfold transfer_answer in Ea. repeat case_match; simplify_eq. by eexists. }
  destruct Hi as (n & (q & Hq & Hqst & _)%getProc_runnable). destruct Hon as (_ & _ & Hp).
  assert (Hc : forall x, (state x = RUNNABLE \/ state x = RUNNING) -> competes x = true).
  { intros x [E|E]; unfold competes, is_state; rewrite E; done. }
  unfold moved. rewrite !count_competing_alter by done.
  rewrite !give_tickets_alter; try done.
  - intros y Hy. simplify_eq. eauto.
  - intros y. rewrite list_lookup_alter. case_decide; [subst; rewrite Hq; cbn|]; intros Hy;
      simplify_eq; eauto.
Qed.

Lemma transfer_undone_witness :
  exists s' s1 s2, Sysproc.sys_transfer_tickets ticket_sample = Ret 45 s' /\
    updateTickets ticket_sample = Ret tt s1 /\ updateTickets s' = Ret tt s2 /\
    procs s2 = procs s1.
Proof.
  set (s' := with_procs (moved 2 1 5 (procs ticket_sample)) (settled ticket_sample)).
  assert (Hon : on_cpu 2 ticket_caller ticket_sample).
  { split; [split; cbn; lia|]. split; reflexivity. }
  assert (Ha : transfer_answer 2 ticket_caller (arg 0 ticket_caller ticket_sample)
      (arg 1 ticket_caller ticket_sample) ticket_sample = (45, Some (1%nat, 5))) by reflexivity.
  pose proof (transfer_run ticket_sample 2 ticket_caller Hon eq_refl
    ltac:(vm_compute; split; discriminate) ticket_sample_range) as E.
  rewrite Ha in E. fold s' in E.
  destruct (transfer_undone ticket_sample 2 ticket_caller 45 s') as (s1 & s2 & H).
  - exact Hon.
  - reflexivity.
  - vm_compute. split; discriminate.
  - exact ticket_sample_range.
  - exact E.
  - exists s', s1, s2. split; [exact E|exact H].
Defined.

(** [tickets_owned] of the caller's own pid never works: the search only
    looks at runnable processes, the caller is running, and the null result is
    dereferenced. *)
Theorem tickets_owned_self_faults {R} (s : kst R) me p :
  on_cpu me p s -> pids_ok s -> state p = RUNNING -> pid p <> 0 ->
  0 <= sz p <= KERNBASE -> arg 0 p s = Some (pid p) ->
  Sysproc.sys_tickets_owned s = Fault.
Proof.
  intros Hon Hpids Hst Hpid Hsz Harg. unfold Sysproc.sys_tickets_owned.
  rewrite (bind_eq _ _ _ _ _ (argint_ok me p s 0 Hon Hsz)), Harg.
  erewrite (bind_eq get) by reflexivity. change (getProc (pid p) (settled s)) with (getProc (pid p) s).
  destruct (getProc (pid p) s) as [i|] eqn:Hg; [|done].
  apply getProc_runnable in Hg as (q & Hq & Hqst & Hqpid). destruct Hon as (_ & _ & Hp).
  pose proof (pids_uniq _ Hpids me i p q Hp Hq Hpid (eq_sym Hqpid)) as <-. congruence.
Qed.

Definition owner_sample : kst Z := with_umem (mset (fun _ => 0) 4 3) ticket_sample.

Lemma tickets_owned_self_faults_witness : Sysproc.sys_tickets_owned owner_sample = Fault.
Proof.
  apply (tickets_owned_self_faults owner_sample 2 ticket_caller).
  - split; [split; cbn; lia|]. split; reflexivity.
  - assert (Hp : forall i p, procs owner_sample !! i = Some p ->
      pid p = 0 \/ pid p = Z.of_nat i + 1 /\ (i < 3)%nat).
    { intros i p Hi. do 3 (destruct i as [|i]; [cbn in Hi; simplify_eq; right; cbn; lia|]).
      left. change (replicate 61 blank !! i = Some p) in Hi.
      apply lookup_replicate in Hi as [-> _]. done. }
    split; [done|done|..].
    + intros i p Hi%Hp. cbn. lia.
    + intros i j p q Hi%Hp Hj%Hp. lia.
  - reflexivity.
  - discriminate.
  - vm_compute. split; discriminate.
  - reflexivity.
Defined.

(** ** Traps *)

Module TrapFacts.
Import Trap.

Section Trap.
Context {R : Type} `{!Services R}.
Implicit Type s : kst R.

Lemma myproc_inv s r s' :
  myproc s = Ret r s' -> r = cur s /\ cur s' = cur s /\ procs s' = procs s.
Proof.
  unfold myproc, Cli.pushcli, Cli.popcli, mycpu, bind, get, gets, modify. cbn.
  destruct (Cli.ncli (cpu s) + 1 - 1 <? 0); [done|]. unfold ret. by intros [= <- <-].
Qed.

Lemma myproc__inv s me s' :
  myproc_ s = Ret me s' -> cur s = Some me /\ cur s' = cur s /\ procs s' = procs s.
Proof.
  unfold myproc_. intros (r & s1 & H & Hr)%bind_ret_inv.
  apply myproc_inv in H as (-> & Hc & Hp). destruct (cur s) as [i|]; [|done].
  injection Hr as <- <-. done.
Qed.

Lemma proc_at_inv i s p s' : proc_at i s = Ret p s' -> procs s !! i = Some p /\ s' = s.
Proof.
  unfold proc_at, bind, get. destruct (procs s !! i); [|done]. by intros [= <- <-].
Qed.

(** [exit] does not return to its caller, whatever happens after it has given
    up the CPU. *)
Lemma exit_no_return resume s u s' : exit resume s <> Ret u s'.
Proof.
  unfold exit. intros (p & s1 & _ & H)%bind_ret_inv.
  apply bind_ret_inv in H as (st & s2 & _ & H). destruct (bool_decide _); [done|].
  apply bind_ret_inv in H as (me & s3 & _ & H).
  do 6 (apply bind_ret_inv in H as (? & ? & _ & H)).
  do 5 (apply bind_ret_inv in H as (? & ? & _ & H)).
  by apply bind_ret_inv in H as (? & ? & _ & H).
Qed.

(** The process on the CPU, if any, is not marked killed. *)
Definition not_killed s : Prop :=
  forall me p, cur s = Some me -> procs s !! me = Some p -> killed p = 0.

Lemma not_killed_ext s s' : cur s' = cur s -> procs s' = procs s -> not_killed s -> not_killed s'.
Proof. unfold not_killed. by intros -> ->. Qed.

Lemma exit_if_killed_inv cs r s s' :
  exit_if_killed cs r s = Ret tt s' -> Z.land cs 3 = 3 -> not_killed s'.
Proof.
  unfold exit_if_killed. intros (p & s1 & Hm & H)%bind_ret_inv Hcs.
  apply myproc_inv in Hm as (-> & Hc & Hp). destruct (cur s) as [me|] eqn:Hcur.
  - apply bind_ret_inv in H as (q & s2 & Hq & H). apply proc_at_inv in Hq as [Hq ->].
    rewrite Hcs, andb_true_r in H. destruct (Z.eqb_spec (killed q) 0) as [E|E]; cbn in H.
    + injection H as <-. intros me' q' Hc' Hq'. rewrite Hc in Hc'. simplify_eq. done.
    + by apply exit_no_return in H.
  - injection H as <-. intros me q Hc'. congruence.
Qed.

End Trap.
End TrapFacts.

Import TrapFacts.

(** C38: A killed process never gets back to user mode: when [trap], entered
    from user mode for a system call, a device interrupt, a clock tick or a
    fault, returns, the process on the CPU is not marked killed, whatever
    other threads did while it slept or was switched out.  (A new process leaves
    for the first time through [forkret], which has no such test.) *)
Theorem trap_kills {R} `{!Services R} file_call dev cpuid trapno err cr2 t r (s s' : kst R) :
  Z.land (tf_cs t) 3 = 3 ->
  Trap.trap file_call dev cpuid trapno err cr2 t r s = Ret tt s' -> not_killed s'.
Proof.
  intros Hcs H. unfold Trap.trap in H. destruct (trapno =? 64).
  - apply bind_ret_inv in H as (me & s1 & _ & H).
    do 5 (apply bind_ret_inv in H as (? & ? & _ & H)).
    apply bind_ret_inv in H as (me' & s2 & Hm & H). apply myproc__inv in Hm as (Hc1 & Hc & Hp).
    apply bind_ret_inv in H as (q & s3 & Hq & H). apply proc_at_inv in Hq as [Hq ->].
    destruct (Z.eqb_spec (killed q) 0) as [E|E]; cbn in H.
    + injection H as <-. intros me2 q2 Hc2 Hq2. congruence.
    + by apply exit_no_return in H.
  - do 4 (apply bind_ret_inv in H as (? & ? & _ & H)).
    by eapply exit_if_killed_inv.
Qed.

(** A process without a kill mark makes an unknown system call from user mode
    and returns. *)
Definition user_frame : trapframe :=
  {| tf_eax := 99; tf_eip := 0; tf_esp := 0; tf_eflags := 512; tf_cs := 27; tf_ds := 35;
     tf_es := 35; tf_ss := 35; tf_others := [] |}.
Definition no_devices : @Trap.devices Z :=
  {| Trap.ideintr := ret tt; Trap.kbdintr := ret tt; Trap.uartintr := ret tt;
     Trap.lapiceoi := ret tt |}.
Definition no_resumption : @Trap.resumption Z := {| Trap.resume1 := None; Trap.resumes := [] |}.

Lemma trap_kills_witness :
  match Trap.trap (fun _ => None) no_devices 0 64 0 0 user_frame no_resumption
          (sample family 4 (Some 2%nat)) with
  | Ret _ s' => not_killed s'
  | _ => False
  end.
Proof.
  destruct (Trap.trap (fun _ => None) no_devices 0 64 0 0 user_frame no_resumption
    (sample family 4 (Some 2%nat))) as [[] s'| | | |] eqn:E.
  - exact (trap_kills (fun _ => None) no_devices 0 64 0 0 user_frame no_resumption
      (sample family 4 (Some 2%nat)) s' eq_refl E).
  - vm_compute in E. discriminate E.
  - vm_compute in E. discriminate E.
  - vm_compute in E. discriminate E.
  - vm_compute in E. discriminate E.
Defined.
