(* ===== verification/Kalloc.v ===== *)
(** * The physical page allocator

    [kalloc.c]: the free list is threaded through the free pages themselves.
    [Kalloc] is the code over byte memory; [KallocFacts] reads the list back
    and the properties show that the allocator refines a list of free pages. *)

From S2P Require Import Prelude CString Locks.

Module Kalloc.

Definition PGSIZE : Z := 4096.
Definition KERNBASE : Z := 2147483648.
Definition PHYSTOP : Z := 234881024.
Definition V2P (a : Z) : Z := u32 (a - KERNBASE).
Definition P2V (a : Z) : Z := u32 (a + KERNBASE).
Definition PGROUNDUP (a : Z) : Z := Z.ldiff (u32 (a + PGSIZE - 1)) (PGSIZE - 1).
Definition PGROUNDDOWN (a : Z) : Z := Z.ldiff a (PGSIZE - 1).

(** [kmem], the memory it manages, and this CPU's view of its lock. *)
Record kmem := {
  use_lock : bool; freelist : Z; ram : mem; klock : bool; kcpu : Cli.cpu }.

Definition with_ram (m : mem) (s : kmem) : kmem :=
  {| use_lock := use_lock s; freelist := freelist s; ram := m; klock := klock s; kcpu := kcpu s |}.
Definition with_freelist (r : Z) (s : kmem) : kmem :=
  {| use_lock := use_lock s; freelist := r; ram := ram s; klock := klock s; kcpu := kcpu s |}.
Definition with_use_lock (b : bool) (s : kmem) : kmem :=
  {| use_lock := b; freelist := freelist s; ram := ram s; klock := klock s; kcpu := kcpu s |}.

#[global] Instance kmem_spin : Cli.SpinState kmem unit := {|
  Cli.cpu_of := kcpu;
  Cli.set_cpu := fun c s => {| use_lock := use_lock s; freelist := freelist s; ram := ram s;
                               klock := klock s; kcpu := c |};
  Cli.lk_of := fun _ => klock;
  Cli.set_lk := fun _ b s => {| use_lock := use_lock s; freelist := freelist s; ram := ram s;
                                klock := b; kcpu := kcpu s |} |}.

(** [if(kmem.use_lock) f(&kmem.lock);] *)
Definition if_locking (f : M kmem unit) : M kmem unit :=
  let! s := get in if use_lock s then f else ret tt.

Section Kalloc.
(** The linker's [end]. *)
Variable kend : Z.

Definition kfree (v : Z) : M kmem unit :=
  if negb (v mod PGSIZE =? 0) || (v <? kend) || (V2P v >=? PHYSTOP) then panic "kfree"
  else
    modify (fun s => with_ram (Str.memset (ram s) v 1 PGSIZE) s) ;;;
    if_locking (Cli.acquire tt) ;;;
    modify (fun s => with_ram (st32 (ram s) v (freelist s)) s) ;;;
    modify (with_freelist v) ;;;
    if_locking (Cli.release tt).

Definition kalloc : M kmem Z :=
  if_locking (Cli.acquire tt) ;;;
  let! r := gets freelist in
  (if negb (r =? 0) then modify (fun s => with_freelist (ld32 (ram s) r) s) else ret tt) ;;;
  if_locking (Cli.release tt) ;;;
  ret r.

(** The loop of [freerange]; the fuel bounds the number of pages. *)
Definition freerange_body (vend p : Z) : M kmem (Z + unit) :=
  if p + PGSIZE <=? vend then
    kfree p ;;;
    ret (inl (p + PGSIZE))
  else ret (inr tt).
Definition freerange (vstart vend : Z) : M kmem unit :=
  loop (S (Z.to_nat (vend / PGSIZE))) (freerange_body vend) (PGROUNDUP vstart).

Definition kinit1 (vstart vend : Z) : M kmem unit :=
  modify (fun s => {| use_lock := use_lock s; freelist := freelist s; ram := ram s;
                      klock := false; kcpu := kcpu s |}) ;;;
  modify (with_use_lock false) ;;;
  freerange vstart vend.

Definition kinit2 (vstart vend : Z) : M kmem unit :=
  freerange vstart vend ;;;
  modify (with_use_lock true).

End Kalloc.
End Kalloc.

Module KallocFacts.
Import Kalloc.

Section Facts.
Variable kend : Z.
Hypothesis kend_ok : KERNBASE <= kend.

(** The list threaded through the pages, from [a] on. *)
Fixpoint chain (m : mem) (a : Z) (l : list Z) : Prop :=
  match l with
  | [] => a = 0
  | p :: l' => a = p /\ chain m (ld32 m p) l'
  end.

(** A page [kfree] accepts. *)
Definition page_ok (p : Z) : Prop :=
  p mod PGSIZE = 0 /\ kend <= p /\ p < KERNBASE + PHYSTOP.

Lemma page_V2P p : page_ok p -> V2P p = p - KERNBASE.
Proof.
  intros (_ & H1 & H2). unfold V2P, KERNBASE, PHYSTOP in *. apply u32_small. lia.
Qed.

(** Distinct pages do not overlap. *)
Lemma page_disjoint p q : page_ok p -> page_ok q -> p <> q -> p + PGSIZE <= q \/ q + PGSIZE <= p.
Proof.
  intros (Hp & _) (Hq & _) Hne. unfold PGSIZE in *.
  apply Z.mod_divide in Hp as [a ->]; [|lia]. apply Z.mod_divide in Hq as [b ->]; [|lia]. lia.
Qed.

(** The free list holds exactly the pages [l]. *)
Record free_ok (s : kmem) (l : list Z) : Prop := {
  free_chain : chain (ram s) (freelist s) l;
  free_nodup : NoDup l;
  free_pages : Forall page_ok l;
  free_lock : use_lock s = true -> klock s = false /\ CliFacts.nest_ok (kcpu s) }.

Lemma chain_frame m m' a l v :
  page_ok v -> Forall page_ok l -> v ∉ l ->
  (forall x, x < v \/ v + PGSIZE <= x -> m' x = m x) -> chain m a l -> chain m' a l.
Proof.
  intros Hv Hl Hnot Hm. revert a. induction Hl as [|p l Hp Hl IH]; intros a; [done|].
  intros [-> Hc]. split; [done|]. apply not_elem_of_cons in Hnot as [Hne Hnot].
  replace (ld32 m' p) with (ld32 m p); [by apply IH|]. symmetry. apply ld32_ext.
  intros x Hx. apply Hm. pose proof (page_disjoint v p Hv Hp Hne). unfold PGSIZE in *. lia.
Qed.

#[export] Instance kmem_laws : Cli.SpinLaws kmem unit.
Proof. by split; intros; try (destruct l). Qed.

Lemma lock_run s :
  (use_lock s = true -> klock s = false /\ CliFacts.nest_ok (kcpu s)) ->
  exists s', if_locking (Cli.acquire tt) s = Ret tt s' /\ ram s' = ram s /\
    freelist s' = freelist s /\ use_lock s' = use_lock s /\
    (use_lock s = true -> klock s' = true /\ exists c, CliFacts.nest_ok c /\ kcpu s' = CliFacts.inside c).
Proof.
  intros H. unfold if_locking, bind, get. destruct (use_lock s) eqn:E.
  - destruct (H eq_refl) as [Hk Hc]. rewrite CliFacts.acquire_run. cbn. rewrite Hk.
    eexists. split; [done|]. split_and!; try done. intros _. split; [done|]. by exists (kcpu s).
  - exists s. split_and!; done.
Qed.

Lemma unlock_run s :
  (use_lock s = true -> klock s = true /\ exists c, CliFacts.nest_ok c /\ kcpu s = CliFacts.inside c) ->
  exists s', if_locking (Cli.release tt) s = Ret tt s' /\ ram s' = ram s /\
    freelist s' = freelist s /\ use_lock s' = use_lock s /\
    (use_lock s = true -> klock s' = false /\ CliFacts.nest_ok (kcpu s')).
Proof.
  intros H. unfold if_locking, bind, get. destruct (use_lock s) eqn:E.
  - destruct (H eq_refl) as (Hk & c & Hc & Ec). destruct Hc as [Hn Hi].
    rewrite CliFacts.release_run; [|cbn; rewrite Ec; cbn; lia|cbn; by rewrite Ec].
    cbn. rewrite Hk. eexists. split; [done|]. cbn. split_and!; try done. intros _. split; [done|].
    rewrite Ec. cbn -[Z.sub Z.add]. split; cbn -[Z.sub Z.add]; [lia|].
    intros Hpos. by rewrite (proj2 (Z.eqb_neq _ _)) by lia.
  - exists s. split_and!; done.
Qed.

Lemma kfree_ok s l v :
  free_ok s l -> page_ok v -> v ∉ l ->
  exists s', kfree kend v s = Ret tt s' /\ free_ok s' (v :: l) /\ use_lock s' = use_lock s /\
    (forall x, x < v \/ v + PGSIZE <= x -> ram s' x = ram s x) /\
    (forall x, v + 4 <= x < v + PGSIZE -> ram s' x = 1).
Proof.
  intros Hok Hv Hnot. pose proof (page_V2P _ Hv) as Ev. pose proof Hok as [Hc Hnd Hp Hl].
  pose proof Hv as (Hv1 & Hv2 & Hv3). unfold kfree.
  rewrite Ev, Hv1, Z.eqb_refl, (proj2 (Z.ltb_ge _ _)) by lia. cbn [negb orb].
  destruct (Z.geb_spec (v - KERNBASE) PHYSTOP); [lia|].
  assert (Hv4 : 0 <= v < 4294967296) by (unfold KERNBASE, PHYSTOP in *; lia).
  assert (Hfree : 0 <= freelist s < 4294967296).
  { destruct l as [|p l]; cbn in Hc; [lia|]. destruct Hc as [-> _].
    apply Forall_cons in Hp as [(_ & ? & ?) _]. unfold KERNBASE, PHYSTOP in *. lia. }
  unfold bind at 1, modify at 1. set (s1 := with_ram _ s).
  destruct (lock_run s1 Hl) as (s2 & Hr2 & Em2 & Ef2 & Eu2 & Hl2).
  rewrite (bind_eq _ _ _ _ _ Hr2). unfold bind at 1, modify at 1. unfold bind at 1, modify at 1.
  set (s3 := with_freelist v _).
  destruct (unlock_run s3) as (s4 & Hr4 & Em4 & Ef4 & Eu4 & Hl4).
  { cbn. rewrite Eu2. exact Hl2. }
  assert (Em : ram s4 = st32 (Str.memset (ram s) v 1 PGSIZE) v (freelist s)).
  { rewrite Em4. cbn. rewrite Em2, Ef2. done. }
  assert (Hout : forall x, x < v \/ v + PGSIZE <= x -> ram s4 x = ram s x).
  { intros x Hx. rewrite Em, st32_other by (unfold PGSIZE in *; lia).
    rewrite memset_get by (unfold PGSIZE; lia).
    destruct Hx; [rewrite (proj2 (Z.leb_gt _ _)) by lia|rewrite (proj2 (Z.ltb_ge _ _)), andb_false_r by lia]; done. }
  exists s4. split; [done|]. split; [split|].
  - rewrite Ef4. cbn [chain]. split; [done|]. rewrite Em, ld32_st32 by done.
    rewrite <- Em. by apply (chain_frame (ram s) _ _ _ v).
  - by constructor.
  - by constructor.
  - rewrite Eu4. cbn. rewrite Eu2. intros Hu. apply Hl4. cbn. by rewrite Eu2.
  - split; [by rewrite Eu4; cbn; rewrite Eu2|]. split; [done|].
    intros x Hx. rewrite Em, st32_other by lia. rewrite memset_get by (unfold PGSIZE; lia).
    rewrite (proj2 (Z.leb_le _ _)), (proj2 (Z.ltb_lt _ _)) by lia. done.
Qed.

Lemma kfree_panics v s :
  ~ page_ok v -> KERNBASE <= v < 4294967296 -> kfree kend v s = Panic "kfree".
Proof.
  intros Hv Hr. unfold kfree. assert (Ev : V2P v = v - KERNBASE).
  { unfold V2P, KERNBASE in *. apply u32_small. lia. }
  rewrite Ev. destruct (Z.eqb_spec (v mod PGSIZE) 0); [|done]. cbn [negb orb].
  destruct (Z.ltb_spec v kend); [done|]. cbn [orb].
  destruct (Z.geb_spec (v - KERNBASE) PHYSTOP); [done|]. exfalso. apply Hv. split_and!; [done|lia..].
Qed.

Lemma kalloc_ok s l :
  free_ok s l ->
  exists s', kalloc s = Ret (default 0 (head l)) s' /\ free_ok s' (tail l) /\ ram s' = ram s /\
    use_lock s' = use_lock s.
Proof.
  intros [Hc Hnd Hp Hl]. unfold kalloc.
  destruct (lock_run s Hl) as (s2 & Hr2 & Em2 & Ef2 & Eu2 & Hl2).
  rewrite (bind_eq _ _ _ _ _ Hr2). unfold bind at 1, gets at 1. rewrite Ef2.
  destruct l as [|p l]; cbn in Hc.
  - rewrite Hc. cbn [Z.eqb negb]. unfold bind at 1, ret at 1.
    destruct (unlock_run s2) as (s4 & Hr4 & Em4 & Ef4 & Eu4 & Hl4); [by rewrite Eu2|].
    rewrite (bind_eq _ _ _ _ _ Hr4). exists s4. split; [done|].
    split; [|split; [by rewrite Em4, Em2|by rewrite Eu4, Eu2]].
    split; [|done..|].
    + rewrite Ef4, Ef2, Hc. done.
    + rewrite Eu4. apply Hl4.
  - destruct Hc as [Ef Hc]. apply Forall_cons in Hp as [Hpp Hp]. apply NoDup_cons in Hnd as [_ Hnd].
    rewrite Ef. assert (p <> 0) by (destruct Hpp as (_ & ? & _); unfold KERNBASE in *; lia).
    rewrite (proj2 (Z.eqb_neq _ _)) by done. cbn [negb]. unfold bind at 1, modify at 1.
    rewrite Em2. set (s3 := with_freelist _ s2).
    destruct (unlock_run s3) as (s4 & Hr4 & Em4 & Ef4 & Eu4 & Hl4); [cbn; by rewrite Eu2|].
    rewrite (bind_eq _ _ _ _ _ Hr4). exists s4. split; [done|].
    split; [|split; [by rewrite Em4; cbn; rewrite Em2|by rewrite Eu4; cbn; rewrite Eu2]].
    split; [|done..|].
    + rewrite Ef4, Em4. cbn. by rewrite Em2.
    + rewrite Eu4. apply Hl4.
Qed.

(** What a client does: take a page, or give back the n-th it holds. *)
Inductive request := Take | Give (n : nat).

Fixpoint client (rs : list request) (held : list Z) : M kmem (list Z) :=
  match rs with
  | [] => ret held
  | Take :: rs' =>
      let! p := kalloc in client rs' (if p =? 0 then held else p :: held)
  | Give n :: rs' =>
      match held !! n with
      | Some p => kfree kend p ;;; client rs' (delete n held)
      | None => client rs' held
      end
  end.

End Facts.
End KallocFacts.

Import Kalloc KallocFacts.

(** C22: The page allocator refines a set of free pages.  However a client takes
    and gives back pages, the pages it holds are distinct, none of them is on
    the free list, no page is lost or invented, and the allocator always
    answers: a page is refused only when none is free. *)
Theorem kalloc_refines kend rs s l held :
  KERNBASE <= kend -> free_ok kend s l -> NoDup (l ++ held) -> Forall (page_ok kend) held ->
  exists held' s' l', client kend rs held s = Ret held' s' /\ free_ok kend s' l' /\
    l' ++ held' ≡ₚ l ++ held /\ NoDup (l' ++ held').
Proof.
  intros Hk. revert s l held. induction rs as [|[|n] rs IH]; intros s l held Hok Hnd Hh; cbn [client].
  - exists held, s, l. by split_and!.
  - destruct (kalloc_ok kend Hk s l Hok) as (s1 & Hr & Hok1 & _).
    rewrite (bind_eq _ _ _ _ _ Hr). destruct l as [|p l]; cbn in *.
    + apply (IH s1 [] held Hok1 Hnd Hh).
    + pose proof (free_pages _ _ _ Hok) as [Hp Hl]%Forall_cons.
      assert (p <> 0) by (destruct Hp as (_ & ? & _); unfold KERNBASE in *; lia).
      rewrite (proj2 (Z.eqb_neq _ _)) by done.
      assert (Hpm : l ++ p :: held ≡ₚ p :: l ++ held) by (symmetry; apply Permutation_middle).
      destruct (IH s1 l (p :: held) Hok1) as (held' & s' & l' & Hrun & Hok' & Hperm & Hnd').
      { by rewrite Hpm. }
      { by constructor. }
      exists held', s', l'. split_and!; try done. by rewrite Hperm.
  - destruct (held !! n) as [p|] eqn:Hp; [|by apply IH].
    pose proof (delete_Permutation _ _ _ Hp) as Hpm.
    assert (Hpo : page_ok kend p) by (eapply Forall_lookup_1; eauto).
    assert (Hnot : p ∉ l).
    { intros Hin. apply NoDup_app in Hnd as (_ & Hd & _). apply (Hd p Hin).
      by eapply list_elem_of_lookup_2. }
    destruct (kfree_ok kend Hk s l p Hok Hpo Hnot) as (s1 & Hr & Hok1 & _).
    rewrite (bind_eq _ _ _ _ _ Hr).
    assert (Hpm2 : (p :: l) ++ delete n held ≡ₚ l ++ held)
      by (cbn; rewrite Permutation_middle, <- Hpm; done).
    destruct (IH s1 (p :: l) (delete n held) Hok1) as (held' & s' & l' & Hrun & Hok' & Hperm & Hnd').
    { by rewrite Hpm2. }
    { rewrite Hpm in Hh. by apply Forall_cons in Hh as [_ ?]. }
    exists held', s', l'. split_and!; try done. by rewrite Hperm.
Qed.

(** One free page, held by nobody: a client takes it, is refused another, and
    gives it back. *)
Definition one_page : kmem :=
  {| use_lock := true; freelist := 2148532224; ram := fun _ => 0; klock := false;
     kcpu := {| Cli.ncli := 0; Cli.intena := false; Cli.intr := true |} |}.

Lemma one_page_free : free_ok 2148532224 one_page [2148532224].
Proof.
  split.
  - split; reflexivity.
  - apply NoDup_singleton.
  - apply Forall_singleton. split; [reflexivity|]. unfold KERNBASE, PHYSTOP. lia.
  - intros _. split; [reflexivity|]. split; cbn; lia.
Qed.

Lemma kalloc_refines_witness :
  exists held' s' l', client 2148532224 [Take; Take; Give 0] [] one_page = Ret held' s' /\
    free_ok 2148532224 s' l' /\ l' ++ held' ≡ₚ [2148532224] /\ NoDup (l' ++ held').
Proof.
  apply (kalloc_refines 2148532224 [Take; Take; Give 0] one_page [2148532224] []).
  - discriminate.
  - exact one_page_free.
  - apply NoDup_singleton.
  - apply Forall_nil_2.
Defined.

Module InitFacts.
Section Init.
Variable kend : Z.
Hypothesis kend_ok : KERNBASE <= kend.

Lemma PGROUNDUP_spec a :
  0 <= a < 4294963200 -> PGROUNDUP a = (a + 4095) / 4096 * 4096.
Proof.
  intros Ha. unfold PGROUNDUP, PGSIZE. rewrite u32_small by lia.
  replace (4096 - 1) with (Z.ones 12) by done.
  rewrite Z.ldiff_ones_r by lia. rewrite Z.shiftr_div_pow2, Z.shiftl_mul_pow2 by lia.
  replace (a + 4096 - 1) with (a + 4095) by lia. done.
Qed.

(** The pages wholly inside [p, vend), for an aligned [p]. *)
Definition in_range (p vend q : Z) : Prop := q mod PGSIZE = 0 /\ p <= q /\ q + PGSIZE <= vend.

Lemma freerange_loop vend fuel : forall p s l,
  kend <= p -> p mod PGSIZE = 0 -> vend <= KERNBASE + PHYSTOP ->
  vend - p < PGSIZE * Z.of_nat (S fuel) ->
  free_ok kend s l -> (forall q, q ∈ l -> q < p) ->
  exists s' l', loop (S fuel) (freerange_body kend vend) p s = Ret tt s' /\ free_ok kend s' l' /\
    use_lock s' = use_lock s /\ forall q, q ∈ l' <-> q ∈ l \/ in_range p vend q.
Proof.
  induction fuel as [|fuel IH]; intros p s l Hp Hal Hv Hfuel Hok Hl;
    try remember (S fuel) as n eqn:En; cbn [loop]; unfold freerange_body at 1;
    destruct (Z.leb_spec (p + PGSIZE) vend) as [Hle|Hgt]; unfold bind at 1, ret at 1.
  1: (unfold PGSIZE in *; lia).
  1,3: (exists s, l; split_and!; try done; intros q; split; [by left|];
      intros [?|(_ & H1 & H2)]; [done|unfold PGSIZE in *; lia]).
  assert (Hpage : page_ok kend p) by (split_and!; [done|done|unfold PGSIZE in *; lia]).
  destruct (kfree_ok kend kend_ok s l p Hok Hpage) as (s1 & Hr & Hok1 & Hu1 & _).
  { intros Hin%Hl. lia. }
  unfold bind at 1. rewrite Hr. subst n.
  assert (Hmod : (p + PGSIZE) mod PGSIZE = 0).
  { unfold PGSIZE in *. rewrite <- Z.add_mod_idemp_r, Z_mod_same_full, Z.add_0_r by lia. done. }
  destruct (IH (p + PGSIZE) s1 (p :: l)) as (s' & l' & Hrun & Hok' & Hu' & Hl').
  { unfold PGSIZE. lia. }
  { done. }
  { done. }
  { unfold PGSIZE in *. lia. }
  { done. }
  { intros q [->|Hq]%elem_of_cons; [unfold PGSIZE; lia|]. specialize (Hl _ Hq). unfold PGSIZE. lia. }
  exists s', l'. split_and!; [exact Hrun|done|congruence|].
  intros q. rewrite Hl', elem_of_cons. unfold in_range. split.
  - intros [[->|?]|(? & ? & ?)]; [|by left|]; right; split_and!; unfold PGSIZE in *; (done || lia).
  - intros [?|(Hq & ? & ?)]; [by left; right|].
    destruct (decide (q = p)) as [->|Hne]; [by left; left|]. right. split_and!; [done| |done].
    unfold PGSIZE in *. apply Z.mod_divide in Hq as [a ->]; [|lia].
    apply Z.mod_divide in Hal as [b ->]; [|lia]. lia.
Qed.

End Init.
End InitFacts.

Import InitFacts.

(** After [kinit1] the free list holds exactly the whole pages between its
    two addresses, each once; the loop ends. *)
Theorem kinit1_spec kend s vstart vend :
  KERNBASE <= kend -> kend <= vstart -> vstart < 4294963200 -> vend <= KERNBASE + PHYSTOP ->
  freelist s = 0 ->
  exists s' l, kinit1 kend vstart vend s = Ret tt s' /\ free_ok kend s' l /\ use_lock s' = false /\
    forall q, q ∈ l <-> q mod PGSIZE = 0 /\ vstart <= q /\ q + PGSIZE <= vend.
Proof.
  intros Hk Hs Hsv Hv Hf. unfold kinit1, freerange.
  unfold bind at 1, modify at 1. unfold bind at 1, modify at 1. set (s1 := with_use_lock false _).
  unfold KERNBASE in Hk. pose proof (PGROUNDUP_spec vstart ltac:(lia)) as Eup.
  pose proof (Z.div_mod (vstart + 4095) 4096). pose proof (Z.mod_pos_bound (vstart + 4095) 4096).
  assert (Hup : vstart <= PGROUNDUP vstart < vstart + 4096) by (rewrite Eup; lia).
  assert (Hal : PGROUNDUP vstart mod PGSIZE = 0) by (rewrite Eup; apply Z_mod_mult).
  destruct (freerange_loop kend Hk vend (Z.to_nat (vend / PGSIZE)) (PGROUNDUP vstart) s1 [])
    as (s' & l & Hrun & Hok & Hu & Hl).
  { lia. }
  { done. }
  { done. }
  { unfold PGSIZE in *. pose proof (Z.div_mod vend 4096). pose proof (Z.mod_pos_bound vend 4096).
    destruct (decide (0 <= vend)).
    - assert (0 <= vend / 4096) by (apply Z.div_pos; lia). lia.
    - lia. }
  { split; [done|apply NoDup_nil_2|apply Forall_nil_2|done]. }
  { intros q Hq. by apply not_elem_of_nil in Hq. }
  exists s', l. split_and!; [done..|]. intros q. rewrite Hl. unfold in_range. split.
  - intros [Hq|(? & ? & ?)]; [by apply not_elem_of_nil in Hq|]. split_and!; (done || lia).
  - intros (Hq & ? & ?). right. split_and!; [done| |done]. unfold PGSIZE in *.
    apply Z.mod_divide in Hq as [a ->]; [|lia]. rewrite Eup in *. lia.
Qed.

(** Two whole pages lie between these addresses. *)
Lemma kinit1_spec_witness :
  exists s' (l : list Z), kinit1 2148532224 2148532230 2148544512 (with_freelist 0 one_page) = Ret tt s' /\
    2148536320 ∈ l /\ 2148540416 ∈ l.
Proof.
  destruct (kinit1_spec 2148532224 (with_freelist 0 one_page) 2148532230 2148544512)
    as (s' & l & Hr & _ & _ & Hl).
  - discriminate.
  - lia.
  - lia.
  - unfold KERNBASE, PHYSTOP. lia.
  - reflexivity.
  - exists s', l. split; [exact Hr|]. split; apply Hl; (split; [reflexivity|unfold PGSIZE; lia]).
Defined.
