(* ===== verification/Pipe.v ===== *)
(** * Pipes

    [pipe.c]: a 512-byte ring with free-running 32-bit counters.  [Pipe] is
    the code; what other processes do to the pipe while the caller sleeps is a
    list of events, one per wake-up.  The properties show that the ring is a
    FIFO queue of at most 512 bytes, also when the counters wrap. *)

From S2P Require Import Prelude Locks.

Module Pipe.

Definition PIPESIZE : Z := 512.

(** The channels slept on: [&p->nread] and [&p->nwrite]. *)
Inductive chan := ChRead | ChWrite.
Definition chan_id (c : chan) : Z := match c with ChRead => 1 | ChWrite => 2 end.

(** [struct pipe], this CPU's view of its lock, [myproc()->killed], the
    channels woken so far, and whether the page was given back. *)
Record pipe := {
  data : list Z; nread : Z; nwrite : Z; readopen : Z; writeopen : Z;
  plock : bool; pcpu : Cli.cpu; killed : Z; woken : list chan; freed : bool }.

Definition with_data v s := {| data := v; nread := nread s; nwrite := nwrite s; readopen := readopen s; writeopen := writeopen s; plock := plock s; pcpu := pcpu s; killed := killed s; woken := woken s; freed := freed s |}.
Definition with_nread v s := {| data := data s; nread := v; nwrite := nwrite s; readopen := readopen s; writeopen := writeopen s; plock := plock s; pcpu := pcpu s; killed := killed s; woken := woken s; freed := freed s |}.
Definition with_nwrite v s := {| data := data s; nread := nread s; nwrite := v; readopen := readopen s; writeopen := writeopen s; plock := plock s; pcpu := pcpu s; killed := killed s; woken := woken s; freed := freed s |}.
Definition with_readopen v s := {| data := data s; nread := nread s; nwrite := nwrite s; readopen := v; writeopen := writeopen s; plock := plock s; pcpu := pcpu s; killed := killed s; woken := woken s; freed := freed s |}.
Definition with_writeopen v s := {| data := data s; nread := nread s; nwrite := nwrite s; readopen := readopen s; writeopen := v; plock := plock s; pcpu := pcpu s; killed := killed s; woken := woken s; freed := freed s |}.
Definition with_killed v s := {| data := data s; nread := nread s; nwrite := nwrite s; readopen := readopen s; writeopen := writeopen s; plock := plock s; pcpu := pcpu s; killed := v; woken := woken s; freed := freed s |}.
Definition with_woken v s := {| data := data s; nread := nread s; nwrite := nwrite s; readopen := readopen s; writeopen := writeopen s; plock := plock s; pcpu := pcpu s; killed := killed s; woken := v; freed := freed s |}.
Definition with_freed v s := {| data := data s; nread := nread s; nwrite := nwrite s; readopen := readopen s; writeopen := writeopen s; plock := plock s; pcpu := pcpu s; killed := killed s; woken := woken s; freed := v |}.

#[global] Instance pipe_spin : Cli.SpinState pipe unit := {|
  Cli.cpu_of := pcpu;
  Cli.set_cpu := fun c s => {| data := data s; nread := nread s; nwrite := nwrite s;
    readopen := readopen s; writeopen := writeopen s; plock := plock s; pcpu := c;
    killed := killed s; woken := woken s; freed := freed s |};
  Cli.lk_of := fun _ => plock;
  Cli.set_lk := fun _ b s => {| data := data s; nread := nread s; nwrite := nwrite s;
    readopen := readopen s; writeopen := writeopen s; plock := b; pcpu := pcpu s;
    killed := killed s; woken := woken s; freed := freed s |} |}.

Definition acquire : M pipe unit := Cli.acquire tt.
Definition release : M pipe unit := Cli.release tt.
Definition wakeup (c : chan) : M pipe unit := modify (fun s => with_woken (woken s ++ [c]) s).

(** The assignments [pipealloc] makes to a fresh pipe. *)
Definition pipeinit (s : pipe) : pipe :=
  {| data := data s; nread := 0; nwrite := 0; readopen := 1; writeopen := 1; plock := false;
     pcpu := pcpu s; killed := killed s; woken := woken s; freed := false |}.

(** [p->data[p->nwrite++ % PIPESIZE] = b] and [p->data[p->nread++ % PIPESIZE]]. *)
Definition put (b : Z) (s : pipe) : pipe :=
  with_nwrite (u32 (nwrite s + 1))
    (with_data (<[Z.to_nat (nwrite s mod PIPESIZE) := b]> (data s)) s).
Definition peek (s : pipe) : Z := nth (Z.to_nat (nread s mod PIPESIZE)) (data s) 0.
Definition advance (s : pipe) : pipe := with_nread (u32 (nread s + 1)) s.

(** The copy loop of [piperead]. *)
Fixpoint copy_out (n : nat) (s : pipe) : list Z * pipe :=
  match n with
  | O => ([], s)
  | S n' =>
      if nread s =? nwrite s then ([], s)
      else
        let '(l, s') := copy_out n' (advance s) in (peek s :: l, s')
  end.

(** What others do while this process sleeps. *)
Inductive event :=
| EvRead (n : nat) | EvWrite (l : list Z) | EvCloseReader | EvCloseWriter | EvKill.

Definition occurs (e : event) (s : pipe) : pipe :=
  match e with
  | EvRead n => (copy_out n s).2
  | EvWrite l =>
      foldl (fun s b => if nwrite s =? u32 (nread s + PIPESIZE) then s else put b s) s l
  | EvCloseReader => with_readopen 0 s
  | EvCloseWriter => with_writeopen 0 s
  | EvKill => with_killed 1 s
  end.

(** [sleep(c, &p->lock)]. *)
Definition sleep (c : chan) (e : option event) : M pipe unit :=
  match e with
  | Some e => modify (occurs e)
  | None => fun s => Asleep (chan_id c) (Cli.set_lk tt false s)
  end.

(** [pipewrite]'s wait for room: the events left, or nothing when the call
    gives up. *)
Fixpoint wait_room (env : list event) : M pipe (option (list event)) :=
  let! s := get in
  if nwrite s =? u32 (nread s + PIPESIZE) then
    if (readopen s =? 0) || negb (killed s =? 0) then ret None
    else
      wakeup ChRead ;;;
      sleep ChWrite (head env) ;;;
      match env with
      | [] => fault
      | _ :: env' => wait_room env'
      end
  else ret (Some env).

Fixpoint write_loop (bytes : list Z) (env : list event) : M pipe bool :=
  match bytes with
  | [] => ret true
  | b :: bytes' =>
      let! r := wait_room env in
      match r with
      | None => ret false
      | Some env' => modify (put b) ;;; write_loop bytes' env'
      end
  end.

Definition pipewrite (bytes : list Z) (env : list event) : M pipe Z :=
  acquire ;;;
  let! ok := write_loop bytes env in
  if ok then
    wakeup ChRead ;;;
    release ;;;
    ret (Z.of_nat (length bytes))
  else
    release ;;;
    ret (-1).

Fixpoint wait_data (env : list event) : M pipe bool :=
  let! s := get in
  if (nread s =? nwrite s) && negb (writeopen s =? 0) then
    if negb (killed s =? 0) then ret false
    else
      sleep ChRead (head env) ;;;
      match env with
      | [] => fault
      | _ :: env' => wait_data env'
      end
  else ret true.

(** The count and the bytes put at [addr]. *)
Definition piperead (n : nat) (env : list event) : M pipe (Z * list Z) :=
  acquire ;;;
  let! ok := wait_data env in
  if ok then
    let! s := get in
    let '(l, s') := copy_out n s in
    modify (fun _ => s') ;;;
    wakeup ChWrite ;;;
    release ;;;
    ret (Z.of_nat (length l), l)
  else
    release ;;;
    ret (-1, []).

Definition pipeclose (writable : bool) : M pipe unit :=
  acquire ;;;
  (if writable then modify (with_writeopen 0) ;;; wakeup ChRead
   else modify (with_readopen 0) ;;; wakeup ChWrite) ;;;
  let! s := get in
  if (readopen s =? 0) && (writeopen s =? 0) then
    release ;;;
    modify (with_freed true)
  else release.

End Pipe.

Module PipeFacts.
Import Pipe.

(** ** The ring as a queue *)

Definition count (s : pipe) : nat := Z.to_nat (u32 (nwrite s - nread s)).
Definition slot (s : pipe) (i : nat) : Z :=
  nth (Z.to_nat ((nread s + Z.of_nat i) mod PIPESIZE)) (data s) 0.
Definition contents (s : pipe) : list Z := slot s <$> seq 0 (count s).

Record pipe_ok (s : pipe) : Prop := {
  ok_len : length (data s) = 512%nat;
  ok_read : 0 <= nread s < 4294967296;
  ok_write : 0 <= nwrite s < 4294967296;
  ok_count : (count s <= 512)%nat }.

Lemma mod_u32 a : u32 a mod PIPESIZE = a mod PIPESIZE.
Proof.
  unfold u32, PIPESIZE. rewrite (Z.div_mod a 4294967296) at 2 by lia.
  replace (4294967296 * (a / 4294967296) + a mod 4294967296)
    with (a mod 4294967296 + (8388608 * (a / 4294967296)) * 512) by lia.
  by rewrite Z_mod_plus_full.
Qed.

(** The counters in terms of the number of bytes held. *)
Lemma nwrite_count s : pipe_ok s -> nwrite s = u32 (nread s + Z.of_nat (count s)).
Proof.
  intros [_ Hr Hw _]. unfold count. rewrite Z2Nat.id by apply u32_range.
  rewrite u32_add_r. replace (nread s + (nwrite s - nread s)) with (nwrite s) by lia.
  by rewrite u32_small.
Qed.

Lemma count_unique s n :
  0 <= nread s < 4294967296 -> (n <= 512)%nat -> nwrite s = u32 (nread s + Z.of_nat n) -> count s = n.
Proof.
  intros Hr Hn E. unfold count. rewrite E, u32_sub_l.
  replace (nread s + Z.of_nat n - nread s) with (Z.of_nat n) by lia.
  rewrite u32_small by lia. lia.
Qed.

Lemma full_count s : pipe_ok s -> (nwrite s =? u32 (nread s + PIPESIZE)) = bool_decide (count s = 512%nat).
Proof.
  intros Hs. destruct (Z.eqb_spec (nwrite s) (u32 (nread s + PIPESIZE))) as [E|E].
  - symmetry. apply bool_decide_true. apply count_unique; [apply Hs|lia|exact E].
  - symmetry. apply bool_decide_false. intros H. apply E.
    rewrite (nwrite_count s Hs), H. done.
Qed.

Lemma empty_count s : pipe_ok s -> (nread s =? nwrite s) = bool_decide (count s = 0%nat).
Proof.
  intros Hs. destruct (Z.eqb_spec (nread s) (nwrite s)) as [E|E].
  - symmetry. apply bool_decide_true. unfold count. by rewrite E, Z.sub_diag.
  - symmetry. apply bool_decide_false. intros H. apply E.
    rewrite (nwrite_count s Hs), H. rewrite u32_small by (pose proof (ok_read _ Hs); lia). lia.
Qed.

Lemma contents_length s : length (contents s) = count s.
Proof. unfold contents. by rewrite length_fmap, length_seq. Qed.

(** Two of the 512 positions from [r] on are different slots of the ring. *)
Lemma slots_differ r i j :
  0 <= i < 512 -> 0 <= j < 512 -> i <> j -> (r + i) mod PIPESIZE <> (r + j) mod PIPESIZE.
Proof.
  intros Hi Hj Hne E. unfold PIPESIZE in E.
  pose proof (Z.div_mod (r + i) 512). pose proof (Z.div_mod (r + j) 512). lia.
Qed.

Lemma put_ok s b :
  pipe_ok s -> (count s < 512)%nat ->
  pipe_ok (put b s) /\ count (put b s) = S (count s) /\ contents (put b s) = contents s ++ [b].
Proof.
  intros Hs Hc. pose proof Hs as [Hl Hr Hw _].
  assert (Hcount : count (put b s) = S (count s)).
  { apply count_unique; [done|lia|]. cbn -[u32]. rewrite (nwrite_count s Hs), u32_add_l. f_equal. lia. }
  split.
  { split; cbn -[u32]; [by rewrite length_insert|done|apply u32_range|lia]. }
  split; [done|]. unfold contents. rewrite Hcount, seq_S, fmap_app. cbn -[put].
  pose proof (Z.mod_pos_bound (nwrite s) PIPESIZE ltac:(done)) as Hpos.
  unfold PIPESIZE in Hpos. f_equal.
  - apply list_fmap_ext. intros i j Hij. apply lookup_seq in Hij as [-> Hi].
    unfold slot. cbn. rewrite !nth_lookup. f_equal.
    rewrite list_lookup_insert_ne; [done|].
    rewrite (nwrite_count s Hs), mod_u32. intros E. apply Z2Nat.inj in E.
    + by apply slots_differ in E; try lia.
    + by apply Z.mod_pos_bound.
    + by apply Z.mod_pos_bound.
  - f_equal. unfold slot. cbn. rewrite nth_lookup, (nwrite_count s Hs), mod_u32.
    rewrite list_lookup_insert_eq; [done|]. rewrite Hl.
    pose proof (Z.mod_pos_bound (nread s + Z.of_nat (count s)) PIPESIZE ltac:(done)).
    unfold PIPESIZE in *. lia.
Qed.

Lemma advance_ok s :
  pipe_ok s -> (0 < count s)%nat ->
  pipe_ok (advance s) /\ contents s = peek s :: contents (advance s).
Proof.
  intros Hs Hc. pose proof Hs as [Hl Hr Hw Hle].
  assert (Hcount : count (advance s) = pred (count s)).
  { apply count_unique; [apply u32_range|lia|]. cbn -[u32]. rewrite u32_add_l.
    rewrite (nwrite_count s Hs). f_equal. lia. }
  split.
  { split; cbn -[u32]; [done|apply u32_range|done|lia]. }
  unfold contents. rewrite Hcount. destruct (count s) as [|n]; [lia|]. cbn -[u32].
  f_equal; [unfold slot, peek; by rewrite Z.add_0_r|].
  rewrite <- fmap_S_seq, <- list_fmap_compose. apply list_fmap_ext. intros i j _. cbn.
  unfold slot. cbn -[u32]. f_equal. f_equal.
  rewrite <- (mod_u32 (u32 (nread s + 1) + _)), u32_add_l, mod_u32. f_equal. lia.
Qed.

Lemma copy_out_ok n : forall s,
  pipe_ok s ->
  pipe_ok (copy_out n s).2 /\ (copy_out n s).1 = take n (contents s) /\
  contents (copy_out n s).2 = drop n (contents s) /\
  readopen (copy_out n s).2 = readopen s /\ writeopen (copy_out n s).2 = writeopen s /\
  killed (copy_out n s).2 = killed s /\ plock (copy_out n s).2 = plock s /\
  pcpu (copy_out n s).2 = pcpu s /\ woken (copy_out n s).2 = woken s.
Proof.
  induction n as [|n IH]; intros s Hs; [done|]. cbn [copy_out]. rewrite (empty_count s Hs).
  case_bool_decide as H0.
  - assert (E : contents s = []) by (apply nil_length_inv; rewrite contents_length; done).
    rewrite E. by split_and!.
  - destruct (advance_ok s Hs) as [Ha Hcon]; [lia|].
    destruct (IH _ Ha) as (H1 & H2 & H3 & H4). destruct (copy_out n (advance s)) as [l s'].
    cbn in *. rewrite Hcon. cbn. split_and!; [done|by rewrite H2|done|apply H4..].
Qed.

(** ** Streams *)

(** Events of readers, and of writers, of the other side. *)
Definition reader_event (e : event) : Prop :=
  match e with EvRead _ | EvCloseReader | EvKill => True | _ => False end.
Definition writer_event (e : event) : Prop :=
  match e with EvWrite _ | EvCloseWriter | EvKill => True | _ => False end.

(** [s'] comes after [s] under the same lock, with [new] added at the end and
    some bytes taken from the front. *)
Definition stream (s s' : pipe) (new : list Z) : Prop :=
  pipe_ok s' /\ plock s' = plock s /\ pcpu s' = pcpu s /\
  exists got, contents s ++ new = got ++ contents s'.

Lemma stream_refl s : pipe_ok s -> stream s s [].
Proof. intros H. split_and!; [done..|]. exists []. by rewrite app_nil_r. Qed.

Lemma stream_trans s s1 s2 a b : stream s s1 a -> stream s1 s2 b -> stream s s2 (a ++ b).
Proof.
  intros (_ & Hl1 & Hc1 & g1 & H1) (Hok & Hl2 & Hc2 & g2 & H2). split_and!; [done|congruence..|].
  exists (g1 ++ g2). rewrite app_assoc, H1, <- app_assoc, H2. by rewrite app_assoc.
Qed.

Lemma wakeup_stream s c : pipe_ok s -> stream s (with_woken (woken s ++ [c]) s) [].
Proof. intros H. split_and!; [by destruct H; split|done..|]. exists []. by rewrite app_nil_r. Qed.

Lemma reader_stream e s : pipe_ok s -> reader_event e -> stream s (occurs e s) [].
Proof.
  intros Hs He. destruct e as [n|l| | |]; try done.
  - destruct (copy_out_ok n s Hs) as (Hok & _ & Hc & _ & _ & _ & Hl & Hcpu & _).
    split_and!; try done. exists (take n (contents s)). cbn. by rewrite Hc, take_drop, app_nil_r.
  - split_and!; [by destruct Hs; split|done..|]. exists []. by rewrite app_nil_r.
  - split_and!; [by destruct Hs; split|done..|]. exists []. by rewrite app_nil_r.
Qed.

Lemma wait_room_ok env : forall s,
  pipe_ok s -> Forall reader_event env ->
  match wait_room env s with
  | Ret (Some env') s' => stream s s' [] /\ (count s' < 512)%nat /\ Forall reader_event env'
  | Ret None s' => stream s s' [] /\ (readopen s' = 0 \/ killed s' <> 0)
  | Asleep c s' => c = chan_id ChWrite /\ plock s' = false /\ pipe_ok s' /\ count s' = 512%nat /\
      last (woken s') = Some ChRead /\ readopen s' <> 0 /\ killed s' = 0 /\
      exists got, contents s = got ++ contents s'
  | _ => False
  end.
Proof.
  induction env as [|e env IH]; intros s Hs He; cbn [wait_room]; unfold bind at 1, get;
    rewrite (full_count s Hs); case_bool_decide as Hfull.
  2,4: (split_and!; [by apply stream_refl|pose proof (ok_count _ Hs); lia|done]).
  all: destruct (Z.eqb_spec (readopen s) 0) as [Hr|Hr]; cbn [orb];
    [split; [by apply stream_refl|by left]|].
  all: destruct (Z.eqb_spec (killed s) 0) as [Hk|Hk]; cbn [negb];
    [|split; [by apply stream_refl|by right]].
  all: unfold bind at 1, wakeup, modify; unfold bind at 1, sleep; cbn [head];
    set (s1 := with_woken _ s); pose proof (wakeup_stream s ChRead Hs) as H1; fold s1 in H1.
  - split_and!; try done.
    + destruct H1 as [H1 _]. by destruct H1; split.
    + cbn. by rewrite last_snoc.
    + exists []. done.
  - apply Forall_cons in He as [He Henv].
    pose proof (reader_stream e s1 (proj1 H1) He) as H2.
    pose proof (stream_trans _ _ _ _ _ H1 H2) as H12. cbn in H12. unfold modify.
    specialize (IH (occurs e s1) (proj1 H2) Henv).
    destruct (wait_room env (occurs e s1)) as [[env'|] s'| |c s'| |]; try done.
    + destruct IH as (H3 & ? & ?). split_and!; try done. by apply (stream_trans _ _ _ [] []  H12).
    + destruct IH as (H3 & ?). split; [|done]. by apply (stream_trans _ _ _ [] [] H12).
    + destruct IH as (? & ? & ? & ? & ? & ? & ? & g & Hg). split_and!; try done.
      destruct H12 as (_ & _ & _ & g1 & Hg1). exists (g1 ++ g).
      rewrite app_nil_r in Hg1. by rewrite Hg1, Hg, app_assoc.
Qed.

Lemma write_loop_ok bytes : forall s env,
  pipe_ok s -> Forall reader_event env ->
  match write_loop bytes env s with
  | Ret true s' => stream s s' bytes
  | Ret false s' => (exists k, (k < length bytes)%nat /\ stream s s' (take k bytes)) /\
      (readopen s' = 0 \/ killed s' <> 0)
  | Asleep c s' => c = chan_id ChWrite /\ plock s' = false /\ pipe_ok s' /\ count s' = 512%nat /\
      last (woken s') = Some ChRead /\ readopen s' <> 0 /\ killed s' = 0 /\
      exists k got, (k < length bytes)%nat /\ contents s ++ take k bytes = got ++ contents s'
  | _ => False
  end.
Proof.
  induction bytes as [|b bytes IH]; intros s env Hs He; cbn [write_loop]; [by apply stream_refl|].
  pose proof (wait_room_ok env s Hs He) as Hw. unfold bind at 1.
  destruct (wait_room env s) as [[env'|] s1| |c s1| |]; try done.
  - destruct Hw as (Hst & Hc & He'). unfold bind at 1, modify.
    destruct (put_ok s1 b (proj1 Hst) Hc) as (Hok & _ & Hcon).
    assert (Hput : stream s (put b s1) [b]).
    { apply (stream_trans s s1 _ [] [b]); [done|]. split_and!; [done..|]. exists []. done. }
    specialize (IH (put b s1) env' Hok He').
    destruct (write_loop bytes env' (put b s1)) as [[] s'| |c s'| |]; try done.
    + by apply (stream_trans _ _ _ [b] bytes Hput).
    + destruct IH as [(k & Hk & Hst') Hend]. split; [|done]. exists (S k).
      split; [cbn; lia|]. by apply (stream_trans _ _ _ [b] (take k bytes) Hput).
    + destruct IH as (? & ? & ? & ? & ? & ? & ? & k & g & Hk & Hg). split_and!; try done.
      destruct Hput as (_ & _ & _ & g1 & Hg1). exists (S k), (g1 ++ g). split; [cbn; lia|].
      cbn. rewrite cons_middle, app_assoc, Hg1, <- app_assoc, Hg. by rewrite app_assoc.
  - destruct Hw as [Hst Hend]. split; [|done]. exists 0%nat. split; [cbn; lia|done].
  - destruct Hw as (? & ? & ? & ? & ? & ? & ? & g & Hg). split_and!; try done.
    exists 0%nat, g. split; [cbn; lia|]. by rewrite app_nil_r.
Qed.

(** The bytes a writer's event adds at the end: as many as there is room for. *)
Definition added (e : event) (s : pipe) : list Z :=
  match e with EvWrite l => take (512 - count s) l | _ => [] end.

Lemma writer_ok e s :
  pipe_ok s -> writer_event e ->
  pipe_ok (occurs e s) /\ plock (occurs e s) = plock s /\ pcpu (occurs e s) = pcpu s /\
  contents (occurs e s) = contents s ++ added e s.
Proof.
  intros Hs He. destruct e as [n|l| | |]; try done.
  2,3: by (split_and!; [by destruct Hs; split|done..|by rewrite app_nil_r]).
  clear He. cbn [occurs added]. revert s Hs.
  induction l as [|b l IH]; intros s Hs; [by rewrite take_nil, app_nil_r|]. cbn [foldl].
  rewrite (full_count s Hs). case_bool_decide as Hf.
  - assert (E : forall l, take (512 - count s) l = @nil Z) by (intros; by rewrite Hf).
    destruct (IH s Hs) as (? & ? & ? & H). rewrite E in *. by split_and!.
  - pose proof (ok_count _ Hs). destruct (put_ok s b Hs) as (Hok & Hc & Hcon); [lia|].
    destruct (IH _ Hok) as (? & ? & ? & H'). split_and!; try done.
    rewrite H', Hcon, Hc, <- app_assoc.
    by replace (512 - count s)%nat with (S (512 - S (count s)))%nat by lia.
Qed.

(** The bytes that have arrived when the reader goes on. *)
Fixpoint arrived (env : list event) (s : pipe) : list Z :=
  if (count s =? 0)%nat && negb (writeopen s =? 0) && (killed s =? 0) then
    match env with
    | [] => []
    | e :: env' => added e s ++ arrived env' (occurs e s)
    end
  else [].

Lemma wait_data_ok env : forall s,
  pipe_ok s -> Forall writer_event env ->
  match wait_data env s with
  | Ret true s' => pipe_ok s' /\ plock s' = plock s /\ pcpu s' = pcpu s /\
      contents s' = contents s ++ arrived env s /\ (count s' = 0%nat -> writeopen s' = 0)
  | Ret false s' => pipe_ok s' /\ plock s' = plock s /\ pcpu s' = pcpu s /\
      killed s' <> 0 /\ count s' = 0%nat
  | Asleep c s' => c = chan_id ChRead /\ plock s' = false /\ count s' = 0%nat /\
      writeopen s' <> 0 /\ killed s' = 0
  | _ => False
  end.
Proof.
  induction env as [|e env IH]; intros s Hs He; cbn [wait_data arrived]; unfold bind at 1, get;
    rewrite (empty_count s Hs); case_bool_decide as H0; cbn [andb].
  2,4: rewrite (proj2 (Nat.eqb_neq _ _)) by done; cbn [andb]; by rewrite app_nil_r.
  all: rewrite (proj2 (Nat.eqb_eq _ _)) by done; cbn [andb].
  all: destruct (Z.eqb_spec (writeopen s) 0) as [Hw|Hw]; cbn [negb andb]; [by rewrite app_nil_r|].
  all: destruct (Z.eqb_spec (killed s) 0) as [Hk|Hk]; cbn [negb]; [|by split_and!].
  all: unfold bind at 1, sleep; cbn [head].
  - by split_and!.
  - apply Forall_cons in He as [He Henv]. unfold modify.
    destruct (writer_ok e s Hs He) as (Hok & Hl & Hc & Hcon).
    specialize (IH _ Hok Henv). destruct (wait_data env (occurs e s)) as [[] s'| |c s'| |]; try done;
      rewrite Hl, Hc in IH; [|done].
    by rewrite Hcon, <- app_assoc in IH.
Qed.

(** The lock taken and the pipe well formed. *)
#[export] Instance pipe_laws : Cli.SpinLaws pipe unit.
Proof. by split; intros; try (destruct l). Qed.

Definition idle (s : pipe) : Prop := pipe_ok s /\ plock s = false /\ CliFacts.nest_ok (pcpu s).

(** Two states of the ring that differ in lock and bookkeeping only. *)
Definition same_ring (s1 s2 : pipe) : Prop :=
  data s1 = data s2 /\ nread s1 = nread s2 /\ nwrite s1 = nwrite s2 /\
  writeopen s1 = writeopen s2 /\ killed s1 = killed s2.

Lemma occurs_ext e s1 s2 : same_ring s1 s2 -> writer_event e -> same_ring (occurs e s1) (occurs e s2).
Proof.
  intros H He. destruct e as [n|l| | |]; try done; cbn [occurs].
  - clear He. revert s1 s2 H. induction l as [|b l IH]; intros s1 s2 H; [done|]. cbn [foldl].
    apply IH. destruct H as (H1 & H2 & H3 & H4 & H5). rewrite H2, H3.
    case_match; [by split_and!|]. unfold same_ring. cbn. by rewrite H1, H3.
  - by destruct H as (H1 & H2 & H3 & H4 & H5).
  - by destruct H as (H1 & H2 & H3 & H4 & H5).
Qed.

Lemma arrived_ext env : forall s1 s2,
  same_ring s1 s2 -> Forall writer_event env -> arrived env s1 = arrived env s2.
Proof.
  induction env as [|e env IH]; intros s1 s2 H He; cbn [arrived].
  - by repeat case_match.
  - apply Forall_cons in He as [He Henv].
    assert (Ec : count s1 = count s2) by (destruct H as (_ & H2 & H3 & _); unfold count; by rewrite H2, H3).
    rewrite (IH _ _ (occurs_ext _ _ _ H He) Henv).
    assert (Ea : added e s1 = added e s2) by (unfold added; by rewrite Ec).
    destruct H as (_ & _ & _ & H4 & H5). by rewrite Ec, Ea, H4, H5.
Qed.

Lemma acquire_idle s :
  idle s -> exists s1, acquire s = Ret tt s1 /\ pipe_ok s1 /\ plock s1 = true /\
    pcpu s1 = CliFacts.inside (pcpu s) /\ contents s1 = contents s /\
    same_ring s1 s /\ writeopen s1 = writeopen s /\ killed s1 = killed s.
Proof.
  intros (Hs & Hl & Hc). unfold acquire. rewrite CliFacts.acquire_run. cbn. rewrite Hl.
  eexists. split; [done|]. split_and!; try done. by destruct Hs; split.
Qed.

Lemma release_idle s c :
  pipe_ok s -> plock s = true -> CliFacts.nest_ok c -> pcpu s = CliFacts.inside c ->
  exists s1, release s = Ret tt s1 /\ idle s1 /\ contents s1 = contents s /\
    readopen s1 = readopen s /\ writeopen s1 = writeopen s /\ killed s1 = killed s /\
    woken s1 = woken s /\ freed s1 = freed s.
Proof.
  intros Hs Hl Hc Ec. destruct Hc as [Hn Hi]. unfold release.
  rewrite CliFacts.release_run; [|cbn; rewrite Ec; cbn; lia|cbn; by rewrite Ec].
  cbn. rewrite Hl. eexists. split; [done|]. split; [|by split_and!].
  split; [by destruct Hs; split|]. split; [done|].
  - cbn -[Z.sub Z.add]. rewrite Ec. split; cbn -[Z.sub Z.add]; [lia|].
    intros Hpos. by rewrite (proj2 (Z.eqb_neq _ _)) by lia.
Qed.

End PipeFacts.

Import Pipe PipeFacts.

(** C23: Writing to a pipe, with readers draining and closing it in any way in
    between: the bytes go through in order, none lost or repeated; the call
    returns the full count, or -1 after a prefix when there is no reader left
    or the writer is killed; it sleeps only when the ring is full, having
    woken the readers, with the lock free.  The 32-bit counters may wrap. *)
Theorem pipewrite_spec (s : pipe) bytes env :
  idle s -> Forall reader_event env ->
  match pipewrite bytes env s with
  | Ret v s' => idle s' /\
      ((v = Z.of_nat (length bytes) /\ last (woken s') = Some ChRead /\
        exists got, contents s ++ bytes = got ++ contents s') \/
       (v = -1 /\ (readopen s' = 0 \/ killed s' <> 0) /\
        exists k got, (k < length bytes)%nat /\ contents s ++ take k bytes = got ++ contents s'))
  | Asleep c s' => c = chan_id ChWrite /\ plock s' = false /\ count s' = 512%nat /\
      last (woken s') = Some ChRead /\
      exists k got, (k < length bytes)%nat /\ contents s ++ take k bytes = got ++ contents s'
  | _ => False
  end.
Proof.
  intros Hidle He. destruct (acquire_idle s Hidle) as (s1 & Hr & Hs1 & Hl1 & Hc1 & Hcon & _).
  destruct Hidle as (_ & _ & Hc). unfold pipewrite. rewrite (bind_eq _ _ _ _ _ Hr).
  pose proof (write_loop_ok bytes s1 env Hs1 He) as Hw. unfold bind at 1.
  destruct (write_loop bytes env s1) as [[] s2| |c s2| |]; try done.
  - destruct Hw as (Hs2 & Hl2 & Hc2 & got & Hg). unfold bind at 1, wakeup, modify.
    destruct (release_idle (with_woken (woken s2 ++ [ChRead]) s2) (pcpu s))
      as (s3 & Hr3 & Hi3 & Hcon3 & _ & _ & _ & Hw3 & _); [by destruct Hs2; split|cbn; congruence|done|cbn; congruence|].
    rewrite (bind_eq _ _ _ _ _ Hr3). split; [done|]. left.
    split; [done|]. split; [rewrite Hw3; cbn; by rewrite last_snoc|].
    exists got. rewrite <- Hcon, Hg, Hcon3. done.
  - destruct Hw as [(k & Hk & Hs2 & Hl2 & Hc2 & got & Hg) Hend].
    destruct (release_idle s2 (pcpu s)) as (s3 & Hr3 & Hi3 & Hcon3 & Hro & _ & Hki & _);
      [done|congruence|done|congruence|].
    rewrite (bind_eq _ _ _ _ _ Hr3). split; [done|]. right. split; [done|].
    split; [by rewrite Hro, Hki|]. exists k, got. split; [done|]. by rewrite <- Hcon, Hg, Hcon3.
  - destruct Hw as (? & ? & ? & ? & ? & ? & ? & k & g & Hk & Hg). split_and!; try done.
    exists k, g. split; [done|]. by rewrite <- Hcon.
Qed.

Definition sample_pipe : pipe :=
  {| data := replicate 512 0; nread := 4294967295; nwrite := 4294967295; readopen := 1;
     writeopen := 1; plock := false;
     pcpu := {| Cli.ncli := 0; Cli.intena := false; Cli.intr := true |};
     killed := 0; woken := []; freed := false |}.

Lemma sample_pipe_idle : idle sample_pipe.
Proof.
  split_and!; [split; [reflexivity|cbn; lia|cbn; lia|vm_compute; lia]|reflexivity|split; cbn; lia].
Qed.

(** Six hundred bytes go through the ring while the counters wrap. *)
Lemma pipewrite_spec_witness :
  match pipewrite (replicate 600 7) [EvRead 300] sample_pipe with
  | Ret v _ => v = 600
  | _ => False
  end.
Proof.
  pose proof (pipewrite_spec sample_pipe (replicate 600 7) [EvRead 300] sample_pipe_idle
    ltac:(repeat constructor)) as H.
  assert (E : value_of (pipewrite (replicate 600 7) [EvRead 300] sample_pipe) = Some 600)
    by (vm_compute; reflexivity).
  destruct (pipewrite (replicate 600 7) [EvRead 300] sample_pipe) as [v s'| |c s'| |];
    try discriminate E.
  injection E as ->. destruct H as [_ [[H _]|[H _]]]; [exact H|discriminate H].
Defined.

(** C34: Reading from a pipe, with writers filling and closing it in between:
    the call delivers the oldest bytes, as many as asked for or have arrived,
    and removes exactly those; it returns 0 only when the pipe is empty and has no
    writer, -1 only when killed while waiting, and sleeps only when empty with
    a writer left. *)
Theorem piperead_spec (s : pipe) n env :
  idle s -> Forall writer_event env ->
  match piperead n env s with
  | Ret (v, l) s' => idle s' /\
      ((v = -1 /\ l = [] /\ killed s' <> 0 /\ count s' = 0%nat) \/
       (v = Z.of_nat (length l) /\ last (woken s') = Some ChWrite /\
        l = take n (contents s ++ arrived env s) /\
        contents s' = drop n (contents s ++ arrived env s) /\
        (l = [] -> n = 0%nat \/ writeopen s' = 0)))
  | Asleep c s' => c = chan_id ChRead /\ plock s' = false /\ count s' = 0%nat /\
      writeopen s' <> 0 /\ killed s' = 0
  | _ => False
  end.
Proof.
  intros Hidle He. unfold piperead.
  destruct (acquire_idle s Hidle) as (s1 & Hr & Hs1 & Hl1 & Hc1 & Hcon & Hsame & Hwo1 & Hki1).
  destruct Hidle as (Hs & _ & Hc). rewrite (bind_eq _ _ _ _ _ Hr).
  pose proof (wait_data_ok env s1 Hs1 He) as Hw.
  assert (Earr : arrived env s1 = arrived env s) by (by apply arrived_ext).
  unfold bind at 1. destruct (wait_data env s1) as [[] s2| |c s2| |]; try done.
  - destruct Hw as (Hs2 & Hl2 & Hc2 & Hcon2 & Hempty). unfold bind at 1, get.
    destruct (copy_out_ok n s2 Hs2) as (Hok & Htk & Hdr & Hro & Hwo & Hki & Hlk & Hcpu & _).
    destruct (copy_out n s2) as [l s3]. cbn [fst snd] in *.
    unfold bind at 1, modify. unfold bind at 1, wakeup, modify.
    destruct (release_idle (with_woken (woken s3 ++ [ChWrite]) s3) (pcpu s))
      as (s4 & Hr4 & Hi4 & Hcon4 & _ & Hwo4 & _ & Hw4 & _);
      [by destruct Hok; split|cbn; congruence|done|cbn; congruence|].
    rewrite (bind_eq _ _ _ _ _ Hr4). split; [done|]. right. split; [done|].
    split; [rewrite Hw4; cbn; by rewrite last_snoc|].
    rewrite Hcon, Earr in Hcon2. rewrite <- Hcon2. split_and!; [done|by rewrite Hcon4|].
    intros ->. destruct n as [|n]; [by left|]. right. rewrite Hwo4. cbn. rewrite Hwo. apply Hempty.
    rewrite <- contents_length. by destruct (contents s2).
  - destruct Hw as (Hs2 & Hl2 & Hc2 & Hk & H0).
    destruct (release_idle s2 (pcpu s)) as (s3 & Hr3 & Hi3 & Hcon3 & _ & _ & Hki & _);
      [done|congruence|done|congruence|].
    rewrite (bind_eq _ _ _ _ _ Hr3). split; [done|]. left. split_and!; [done..|by rewrite Hki|].
    by rewrite <- contents_length, Hcon3, contents_length.
Qed.

(** A reader asks for five bytes; a writer delivers three while it sleeps. *)
Lemma piperead_spec_witness :
  match piperead 5 [EvWrite [1; 2; 3]] sample_pipe with
  | Ret (v, l) _ => v = 3 /\ l = [1; 2; 3]
  | _ => False
  end.
Proof.
  pose proof (piperead_spec sample_pipe 5 [EvWrite [1; 2; 3]] sample_pipe_idle
    ltac:(repeat constructor)) as H.
  assert (E : value_of (piperead 5 [EvWrite [1; 2; 3]] sample_pipe) = Some (3, [1; 2; 3]))
    by (vm_compute; reflexivity).
  destruct (piperead 5 [EvWrite [1; 2; 3]] sample_pipe) as [[v l] s'| |c s'| |]; try discriminate E.
  injection E as -> ->. destruct H as [_ [(H & _)|(H & _)]]; [discriminate H|].
  split; [exact H|reflexivity].
Defined.
