(* ===== verification/Bio.v ===== *)
(** * The block cache

    [bio.c] and the in-memory disk of [memide.c].  [Bio] is the code; the
    doubly linked list of buffers is the list of the buffer numbers it links,
    most recently used first.  [BioFacts] proves what the code above the cache
    relies on: every block has one current value ([view]), reading returns it,
    writing changes it and the disk together. *)

From S2P Require Import Prelude Locks.

Module Bio.

Definition BSIZE : nat := 512.
Definition NBUF : nat := 30.

(** [struct buf]: the two flag bits, whether its sleep lock is held, and the
    data. *)
Record buf := {
  valid : bool; dirty : bool; dev : Z; blockno : Z; refcnt : Z; locked : bool;
  bdata : list Z }.

Definition set_flags (v d : bool) (b : buf) : buf :=
  {| valid := v; dirty := d; dev := dev b; blockno := blockno b; refcnt := refcnt b;
     locked := locked b; bdata := bdata b |}.
Definition set_refcnt (n : Z) (b : buf) : buf :=
  {| valid := valid b; dirty := dirty b; dev := dev b; blockno := blockno b; refcnt := n;
     locked := locked b; bdata := bdata b |}.
Definition set_locked (l : bool) (b : buf) : buf :=
  {| valid := valid b; dirty := dirty b; dev := dev b; blockno := blockno b; refcnt := refcnt b;
     locked := l; bdata := bdata b |}.
Definition set_bdata (d : list Z) (b : buf) : buf :=
  {| valid := valid b; dirty := dirty b; dev := dev b; blockno := blockno b; refcnt := refcnt b;
     locked := locked b; bdata := d |}.
(** A recycled buffer. *)
Definition recycle (dv bn : Z) (b : buf) : buf :=
  {| valid := false; dirty := false; dev := dv; blockno := bn; refcnt := 1;
     locked := locked b; bdata := bdata b |}.

(** The cache, this CPU's view of its lock, and the disk with the block writes
    made so far. *)
Record bst := {
  bufs : list buf; order : list nat; bclk : bool; bcpu : Cli.cpu;
  disk : Z -> list Z; disksize : Z; writes : list (Z * list Z) }.

Definition with_bufs v s := {| bufs := v; order := order s; bclk := bclk s; bcpu := bcpu s; disk := disk s; disksize := disksize s; writes := writes s |}.
Definition with_order v s := {| bufs := bufs s; order := v; bclk := bclk s; bcpu := bcpu s; disk := disk s; disksize := disksize s; writes := writes s |}.
Definition write_block (b : Z) (d : list Z) s := {| bufs := bufs s; order := order s; bclk := bclk s; bcpu := bcpu s; disk := fun x => if x =? b then d else disk s x; disksize := disksize s; writes := writes s ++ [(b, d)] |}.

#[global] Instance bst_spin : Cli.SpinState bst unit := {|
  Cli.cpu_of := bcpu;
  Cli.set_cpu := fun c s => {| bufs := bufs s; order := order s; bclk := bclk s; bcpu := c;
    disk := disk s; disksize := disksize s; writes := writes s |};
  Cli.lk_of := fun _ => bclk;
  Cli.set_lk := fun _ b s => {| bufs := bufs s; order := order s; bclk := b; bcpu := bcpu s;
    disk := disk s; disksize := disksize s; writes := writes s |} |}.

Definition acquire : M bst unit := Cli.acquire tt.
Definition release : M bst unit := Cli.release tt.

Definition buf_at (i : nat) : M bst buf := let! s := get in from_opt (bufs s !! i).
Definition upd (i : nat) (f : buf -> buf) : M bst unit :=
  modify (fun s => with_bufs (alter f i (bufs s)) s).

(** The sleep lock of buffer [i]; waiting for it ends the run. *)
Definition acquiresleep (i : nat) : M bst unit :=
  let! b := buf_at i in
  if locked b then fun s => Asleep (Z.of_nat i) s else upd i (set_locked true).
Definition releasesleep (i : nat) : M bst unit := upd i (set_locked false).
Definition holdingsleep (i : nat) : M bst bool := let! b := buf_at i in ret (locked b).

Definition blank_buf : buf :=
  {| valid := false; dirty := false; dev := 0; blockno := 0; refcnt := 0; locked := false;
     bdata := replicate BSIZE 0 |}.

(** [binit]'s loop puts each buffer at the head. *)
Definition binit (s : bst) : bst :=
  with_order (foldl (fun o i => i :: o) [] (seq 0 NBUF)) s.

(** [iderw] of the memory disk. *)
Definition iderw (i : nat) : M bst unit :=
  let! h := holdingsleep i in
  if negb h then panic "iderw: buf not locked"
  else
    let! b := buf_at i in
    if valid b && negb (dirty b) then panic "iderw: nothing to do"
    else if negb (dev b =? 1) then panic "iderw: request not for disk 1"
    else
      let! s := get in
      if blockno b >=? disksize s then panic "iderw: block out of range"
      else
        (if dirty b then
           upd i (set_flags (valid b) false) ;;;
           modify (write_block (blockno b) (bdata b))
         else upd i (set_bdata (disk s (blockno b)))) ;;;
        upd i (fun b => set_flags true (dirty b) b).

(** A walk along the linked list to the first buffer satisfying [f]. *)
Fixpoint bscan (f : buf -> bool) (bs : list buf) (ord : list nat) : option nat :=
  match ord with
  | [] => None
  | i :: ord' =>
      match bs !! i with
      | Some b => if f b then Some i else bscan f bs ord'
      | None => bscan f bs ord'
      end
  end.

Definition bget (dv bn : Z) : M bst nat :=
  acquire ;;;
  let! s := get in
  match bscan (fun b => (dev b =? dv) && (blockno b =? bn)) (bufs s) (order s) with
  | Some i =>
      upd i (fun b => set_refcnt (refcnt b + 1) b) ;;;
      release ;;;
      acquiresleep i ;;;
      ret i
  | None =>
      match bscan (fun b => (refcnt b =? 0) && negb (dirty b)) (bufs s) (rev (order s)) with
      | Some i =>
          upd i (recycle dv bn) ;;;
          release ;;;
          acquiresleep i ;;;
          ret i
      | None => panic "bget: no buffers"
      end
  end.

Definition bread (dv bn : Z) : M bst nat :=
  let! i := bget dv bn in
  let! b := buf_at i in
  (if negb (valid b) then iderw i else ret tt) ;;;
  ret i.

Definition bwrite (i : nat) : M bst unit :=
  let! h := holdingsleep i in
  if negb h then panic "bwrite"
  else
    upd i (fun b => set_flags (valid b) true b) ;;;
    iderw i.

Definition brelse (i : nat) : M bst unit :=
  let! h := holdingsleep i in
  if negb h then panic "brelse"
  else
    releasesleep i ;;;
    acquire ;;;
    upd i (fun b => set_refcnt (refcnt b - 1) b) ;;;
    let! b := buf_at i in
    (if refcnt b =? 0 then modify (fun s => with_order (i :: filter (fun j => j <> i) (order s)) s)
     else ret tt) ;;;
    release.

End Bio.

Module BioFacts.
Import Bio.

(** ** The invariant *)

(** Buffer [i] caches block [n] of the disk. *)
Definition caches (s : bst) (i : nat) (b : buf) (n : Z) : Prop :=
  bufs s !! i = Some b /\ dev b = 1 /\ blockno b = n.

Record cache_ok (s : bst) : Prop := {
  co_len : length (bufs s) = NBUF;
  co_order : order s ≡ₚ seq 0 NBUF;
  co_lock : bclk s = false /\ CliFacts.nest_ok (bcpu s);
  co_one : forall i j b c n, caches s i b n -> caches s j c n -> i = j;
  co_valid : forall i b n, caches s i b n -> valid b = true;
  co_clean : forall i b n, caches s i b n -> dirty b = false -> locked b = false ->
    bdata b = disk s n;
  co_dirty : forall i b, bufs s !! i = Some b -> dirty b = true \/ locked b = true -> dev b = 1;
  co_ref : forall i b, bufs s !! i = Some b ->
    if locked b then refcnt b = 1 else refcnt b = 0 }.

(** The current value of a block: the cached one, else the disk's. *)
Definition view (s : bst) (n : Z) : list Z :=
  match list_find (fun b => dev b = 1 /\ blockno b = n) (bufs s) with
  | Some (_, b) => bdata b
  | None => disk s n
  end.

Definition cached (s : bst) (n : Z) : Prop := exists i b, caches s i b n.

Lemma view_cached s i b n : cache_ok s -> caches s i b n -> view s n = bdata b.
Proof.
  intros Hs Hc. unfold view. destruct (list_find _ (bufs s)) as [[j c]|] eqn:E.
  - apply list_find_Some in E as (Hj & Hp & _).
    assert (i = j) as <- by (eapply (co_one s Hs); [exact Hc|split; [exact Hj|exact Hp]]).
    destruct Hc as [Hi _]. congruence.
  - exfalso. apply list_find_None in E. destruct Hc as (Hi & Hp).
    rewrite Forall_lookup in E. by apply (E _ _ Hi).
Qed.

Lemma view_uncached s n : ~ cached s n -> view s n = disk s n.
Proof.
  intros Hn. unfold view. destruct (list_find _ (bufs s)) as [[j c]|] eqn:E; [|done].
  apply list_find_Some in E as (Hj & Hp & _). exfalso. apply Hn. exists j, c. by split.
Qed.

Lemma cached_dec s n : cached s n \/ ~ cached s n.
Proof.
  destruct (list_find (fun b => dev b = 1 /\ blockno b = n) (bufs s)) as [[j c]|] eqn:E.
  - apply list_find_Some in E as (Hj & Hp & _). left. exists j, c. by split.
  - right. intros (i & b & Hi & Hp). apply list_find_None in E. rewrite Forall_lookup in E.
    by apply (E _ _ Hi).
Qed.

(** The blocks whose buffer is dirty, or locked. *)
Definition dirty_block (s : bst) (n : Z) : Prop := exists i b, caches s i b n /\ dirty b = true.
Definition locked_block (s : bst) (n : Z) : Prop := exists i b, caches s i b n /\ locked b = true.

(** There is a buffer [bget] may recycle. *)
Definition has_free (s : bst) : Prop :=
  exists i b, bufs s !! i = Some b /\ locked b = false /\ dirty b = false.

Lemma bscan_Some f bs ord i :
  bscan f bs ord = Some i -> i ∈ ord /\ exists b, bs !! i = Some b /\ f b = true.
Proof.
  induction ord as [|j ord IH]; cbn [bscan]; [done|].
  destruct (bs !! j) as [b|] eqn:Hj; [destruct (f b) eqn:Hf|].
  - intros [= <-]. split; [set_solver|]. by exists b.
  - intros H. apply IH in H as [? ?]. split; [set_solver|done].
  - intros H. apply IH in H as [? ?]. split; [set_solver|done].
Qed.

Lemma bscan_None f bs ord i b :
  bscan f bs ord = None -> i ∈ ord -> bs !! i = Some b -> f b = false.
Proof.
  induction ord as [|j ord IH]; cbn [bscan]; intros H Hi Hb; [by apply not_elem_of_nil in Hi|].
  apply elem_of_cons in Hi as [->|Hi].
  - rewrite Hb in H. by destruct (f b).
  - apply IH; try done. destruct (bs !! j) as [c|]; [|done]. by destruct (f c).
Qed.

#[export] Instance bst_laws : Cli.SpinLaws bst unit.
Proof. by split; intros; try (destruct l). Qed.

(** Every buffer is on the list. *)
Lemma in_order s i b : cache_ok s -> bufs s !! i = Some b -> i ∈ order s.
Proof.
  intros Hs Hi. rewrite (co_order s Hs). apply elem_of_seq.
  apply lookup_lt_Some in Hi. rewrite (co_len s Hs) in Hi. lia.
Qed.

(** There is a free buffer as long as fewer blocks than buffers are dirty or
    locked. *)
Lemma free_exists s (l : list Z) :
  cache_ok s -> (forall m, dirty_block s m \/ locked_block s m -> m ∈ l) ->
  (length l < NBUF)%nat -> has_free s.
Proof.
  intros Hs Hl Hlen.
  destruct (list_find (fun b => locked b = false /\ dirty b = false) (bufs s)) as [[i b]|] eqn:E.
  { apply list_find_Some in E as (Hi & Hp & _). by exists i, b. }
  exfalso. apply list_find_None in E. rewrite Forall_lookup in E.
  assert (Hbusy : forall i b, bufs s !! i = Some b -> dirty b = true \/ locked b = true).
  { intros i b Hi. specialize (E i b Hi). destruct (dirty b), (locked b); naive_solver. }
  assert (Hnd : NoDup (blockno <$> bufs s)).
  { apply NoDup_alt. intros i j n. rewrite !list_lookup_fmap.
    intros (b & Hi & ->)%fmap_Some (c & Hj & Ec)%fmap_Some.
    apply (co_one s Hs i j b c (blockno b)); split_and!; try done.
    - apply (co_dirty s Hs i b Hi). eauto.
    - apply (co_dirty s Hs j c Hj). eauto. }
  assert (Hsub : (blockno <$> bufs s) ⊆ l).
  { intros n (b & -> & (i & Hi)%list_elem_of_lookup_1)%list_elem_of_fmap_1. apply Hl.
    destruct (Hbusy _ _ Hi) as [H|H]; [left|right]; exists i, b; (split; [|done]);
      split_and!; try done; apply (co_dirty s Hs i b Hi); auto. }
  assert (Hle : (length (blockno <$> bufs s) <= length l)%nat).
  { apply NoDup_incl_length; [by apply NoDup_ListNoDup|].
    intros n Hn. apply list_elem_of_In, Hsub, list_elem_of_In, Hn. }
  rewrite length_fmap, (co_len s Hs) in Hle. lia.
Qed.

(** ** One lemma per operation *)

(** The facts the clients see of a state, for one buffer [i] replaced by
    [b']. *)
Section Update.
Variables (s s' : bst) (i : nat) (b b' : buf).
Hypothesis Hok : cache_ok s.
Hypothesis Hi : bufs s !! i = Some b.
Hypothesis Hbufs : bufs s' = <[i := b']> (bufs s).
Hypothesis Horder : order s' ≡ₚ order s.
Hypothesis Hlock : bclk s' = false /\ CliFacts.nest_ok (bcpu s').
Hypothesis Hdev : dev b' = 1.
Hypothesis Hvalid : valid b' = true.
Hypothesis Hone : forall j c, caches s j c (blockno b') -> j = i.
Hypothesis Hdisk : forall m, m <> blockno b' -> disk s' m = disk s m.
Hypothesis Hclean : dirty b' = false -> locked b' = false -> bdata b' = disk s' (blockno b').
Hypothesis Href : if locked b' then refcnt b' = 1 else refcnt b' = 0.
(** A buffer that changes its block was clean and free. *)
Hypothesis Hold : dev b = 1 -> blockno b <> blockno b' -> dirty b = false /\ locked b = false.

Lemma upd_lookup j : bufs s' !! j = if decide (j = i) then Some b' else bufs s !! j.
Proof.
  rewrite Hbufs. case_decide; subst.
  - apply list_lookup_insert_eq. by apply lookup_lt_Some in Hi.
  - by apply list_lookup_insert_ne.
Qed.

Lemma upd_caches j c m :
  caches s' j c m <->
  (j = i /\ c = b' /\ m = blockno b') \/ (j <> i /\ m <> blockno b' /\ caches s j c m).
Proof.
  unfold caches. rewrite upd_lookup. case_decide as E.
  - subst j. split; [intros ([= <-] & _ & <-); by left|].
    intros [(_ & -> & ->)|(? & _)]; [by split_and!|done].
  - split.
    + intros (Hj & Hd & Hm). right. split_and!; try done. intros ->. apply E.
      by apply (Hone j c).
    + intros [(? & _)|(_ & _ & H)]; done.
Qed.

Lemma upd_ok : cache_ok s'.
Proof.
  pose proof Hok as [Hlen Hord _ Ho Hv Hc Hd Hr]. split.
  - by rewrite Hbufs, length_insert.
  - by rewrite Horder.
  - done.
  - intros j k c d m [(-> & _ & ->)|(? & ? & H1)]%upd_caches [(-> & _ & ?)|(? & ? & H2)]%upd_caches;
      try done. by apply (Ho _ _ _ _ _ H1 H2).
  - intros j c m [(-> & -> & _)|(_ & _ & H)]%upd_caches; [done|eauto].
  - intros j c m [(-> & -> & ->)|(_ & Hm & H)]%upd_caches; [done|].
    rewrite Hdisk by done. eauto.
  - intros j c. rewrite upd_lookup. case_decide; [by intros [= <-]|eauto].
  - intros j c. rewrite upd_lookup. case_decide; [by intros [= <-]|apply Hr].
Qed.

Lemma upd_cached : caches s' i b' (blockno b').
Proof. apply upd_caches. by left. Qed.

Lemma upd_view m : view s' m = if decide (m = blockno b') then bdata b' else view s m.
Proof.
  case_decide as E.
  - subst m. apply (view_cached _ _ _ _ upd_ok upd_cached).
  - destruct (cached_dec s' m) as [(j & c & Hc)|Hn].
    + rewrite (view_cached _ _ _ _ upd_ok Hc). apply upd_caches in Hc as [(_ & _ & ?)|(_ & _ & Hc)]; [done|].
      by rewrite (view_cached _ _ _ _ Hok Hc).
    + rewrite (view_uncached _ _ Hn), Hdisk by done.
      destruct (cached_dec s m) as [(j & c & Hc)|Hn2]; [|by rewrite view_uncached].
      rewrite (view_cached _ _ _ _ Hok Hc). destruct (decide (j = i)) as [->|Hne].
      * assert (c = b) as -> by (destruct Hc as [? _]; congruence). destruct Hc as (_ & Hdv & Hbn).
        destruct Hold as [Hd1 Hl1]; [done|congruence|].
        symmetry. apply (co_clean s Hok i b m); [by split|done|done].
      * exfalso. apply Hn. exists j, c. apply upd_caches. by right.
Qed.

Lemma upd_dirty m :
  dirty_block s' m <-> (m = blockno b' /\ dirty b' = true) \/ (m <> blockno b' /\ dirty_block s m).
Proof.
  unfold dirty_block. split.
  - intros (j & c & [(-> & -> & ->)|(? & ? & H)]%upd_caches & Hd); [by left|].
    right. split; [done|]. by exists j, c.
  - intros [[-> Hd]|[Hm (j & c & Hc & Hd)]].
    + exists i, b'. split; [apply upd_cached|done].
    + exists j, c. split; [|done]. apply upd_caches. right. split_and!; try done.
      intros ->. assert (c = b) as -> by (destruct Hc as [? _]; congruence).
      destruct Hc as (_ & Hdv & Hbn). destruct Hold; [done|congruence|]. congruence.
Qed.

Lemma upd_locked m :
  locked_block s' m <-> (m = blockno b' /\ locked b' = true) \/ (m <> blockno b' /\ locked_block s m).
Proof.
  unfold locked_block. split.
  - intros (j & c & [(-> & -> & ->)|(? & ? & H)]%upd_caches & Hd); [by left|].
    right. split; [done|]. by exists j, c.
  - intros [[-> Hd]|[Hm (j & c & Hc & Hd)]].
    + exists i, b'. split; [apply upd_cached|done].
    + exists j, c. split; [|done]. apply upd_caches. right. split_and!; try done.
      intros ->. assert (c = b) as -> by (destruct Hc as [? _]; congruence).
      destruct Hc as (_ & Hdv & Hbn). destruct Hold; [done|congruence|]. congruence.
Qed.

End Update.

Lemma cache_acquire_ok s : cache_ok s ->
  acquire s = Ret tt (Cli.set_lk tt true (Cli.set_cpu (CliFacts.inside (bcpu s)) s)).
Proof.
  intros Hs. unfold acquire. rewrite CliFacts.acquire_run. cbn.
  by rewrite (proj1 (co_lock s Hs)).
Qed.

Lemma cache_release_ok s c :
  CliFacts.nest_ok c -> bcpu s = CliFacts.inside c -> bclk s = true ->
  exists c', CliFacts.nest_ok c' /\ release s = Ret tt (Cli.set_cpu c' (Cli.set_lk tt false s)).
Proof.
  intros [Hn Hi] Ec El. unfold release.
  rewrite CliFacts.release_run; [|cbn; rewrite Ec; cbn; lia|cbn; by rewrite Ec].
  cbn [Cli.lk_of bst_spin]. rewrite El. eexists. split; [|done].
  cbn -[Z.sub Z.add]. rewrite Ec. split; cbn -[Z.sub Z.add]; [lia|].
  intros Hpos. by rewrite (proj2 (Z.eqb_neq _ _)) by lia.
Qed.

Section Ops.
Implicit Type s : bst.

(** Two states with the same cache, disk and trace. *)
Lemma buf_at_ok s i b : bufs s !! i = Some b -> buf_at i s = Ret b s.
Proof. intros H. unfold buf_at, bind, get. by rewrite H. Qed.

Lemma holdingsleep_ok s i b : bufs s !! i = Some b -> holdingsleep i s = Ret (locked b) s.
Proof. intros H. unfold holdingsleep. by rewrite (bind_eq _ _ _ _ _ (buf_at_ok _ _ _ H)). Qed.

(** [iderw] on a locked buffer of disk 1. *)
Lemma iderw_read s i b :
  bufs s !! i = Some b -> locked b = true -> valid b = false -> dirty b = false ->
  dev b = 1 -> blockno b < disksize s ->
  iderw i s = Ret tt (with_bufs (<[i := set_flags true false (set_bdata (disk s (blockno b)) b)]> (bufs s)) s).
Proof.
  intros Hi Hl Hv Hd Hdev Hn. unfold iderw.
  rewrite (bind_eq _ _ _ _ _ (holdingsleep_ok _ _ _ Hi)), Hl. cbn [negb]. rewrite (bind_eq _ _ _ _ _ (buf_at_ok _ _ _ Hi)), Hv, Hdev, Z.eqb_refl. cbn [andb negb].
  erewrite (bind_eq get) by reflexivity.
  destruct (Z.geb_spec (blockno b) (disksize s)); [lia|]. rewrite Hd.
  unfold bind, upd, modify. cbn [bufs with_bufs]. rewrite alter_alter.
  rewrite (alter_insert _ _ _ _ Hi). cbn [dirty set_bdata]. by rewrite Hd.
Qed.

Lemma iderw_write s i b :
  bufs s !! i = Some b -> locked b = true -> dirty b = true ->
  dev b = 1 -> blockno b < disksize s ->
  iderw i s = Ret tt (write_block (blockno b) (bdata b)
    (with_bufs (<[i := set_flags true false b]> (bufs s)) s)).
Proof.
  intros Hi Hl Hd Hdev Hn. unfold iderw.
  rewrite (bind_eq _ _ _ _ _ (holdingsleep_ok _ _ _ Hi)), Hl. cbn [negb]. rewrite (bind_eq _ _ _ _ _ (buf_at_ok _ _ _ Hi)), Hd, Hdev, Z.eqb_refl, andb_false_r. cbn [negb].
  erewrite (bind_eq get) by reflexivity.
  destruct (Z.geb_spec (blockno b) (disksize s)); [lia|].
  unfold bind, upd, modify. cbn [bufs with_bufs write_block]. rewrite alter_alter.
  rewrite (alter_insert _ _ _ _ Hi). done.
Qed.

(** What one operation on block [n] does to the clients' picture: [v] is the
    block's value afterwards, [d] and [l] say whether it is dirty and locked. *)
Record effect (s s' : bst) (n : Z) (v : list Z) (d l : Prop) : Prop := {
  ef_ok : cache_ok s';
  ef_view : forall m, view s' m = if decide (m = n) then v else view s m;
  ef_dirty : forall m, dirty_block s' m <-> (m = n /\ d) \/ (m <> n /\ dirty_block s m);
  ef_locked : forall m, locked_block s' m <-> (m = n /\ l) \/ (m <> n /\ locked_block s m);
  ef_held : forall j c m, caches s j c m -> locked c = true -> m <> n -> caches s' j c m;
  ef_size : disksize s' = disksize s }.

Lemma not_cached_one s i j c n : ~ cached s n -> caches s j c n -> j = i.
Proof. intros H Hc. exfalso. apply H. by exists j, c. Qed.

(** Replace buffer [i] by one for block [n]. *)
Lemma buffer_effect s s' i b b' n :
  cache_ok s -> bufs s !! i = Some b -> blockno b' = n -> dev b' = 1 -> valid b' = true ->
  (forall j c, caches s j c n -> j = i) -> (dev b = 1 -> blockno b <> n -> dirty b = false /\ locked b = false) ->
  bufs s' = <[i := b']> (bufs s) -> order s' ≡ₚ order s ->
  bclk s' = false /\ CliFacts.nest_ok (bcpu s') ->
  (forall m, m <> n -> disk s' m = disk s m) -> disksize s' = disksize s ->
  (dirty b' = false -> locked b' = false -> bdata b' = disk s' n) ->
  (if locked b' then refcnt b' = 1 else refcnt b' = 0) ->
  effect s s' n (bdata b') (dirty b' = true) (locked b' = true) /\ caches s' i b' n.
Proof.
  intros Hok Hi Hbn Hdev Hval Hone Hold Hbufs Hord Hlock Hdisk Hsize Hclean Href. subst n.
  assert (Hup := upd_caches s s' i b b' Hi Hbufs Hdev Hone).
  split; [split|].
  - by apply (upd_ok s s' i b b').
  - intros m. by rewrite (upd_view s s' i b b').
  - intros m. by rewrite (upd_dirty s s' i b b').
  - intros m. by rewrite (upd_locked s s' i b b').
  - intros j c m Hj Hlj Hm. apply Hup. right. split_and!; [|done|done].
    intros ->. destruct Hj as (Hj & Hd & Hbm). assert (c = b) as -> by congruence.
    destruct Hold as [_ Hl]; congruence.
  - done.
  - apply Hup. by left.
Qed.

Lemma effect_iff s s' n v v' d d' l l' : effect s s' n v d l -> v = v' -> (d <-> d') -> (l <-> l') -> effect s s' n v' d' l'.
Proof.
  intros [H1 H2 H3 H4 H5 H6] -> Hd Hl. split; [done|done| | |done|done].
  - intros m. by rewrite H3, Hd.
  - intros m. by rewrite H4, Hl.
Qed.

(** The end of [bget]: the buffer chosen is changed under the lock of the cache,
    which is given up before the buffer's own is taken. *)
Lemma claim_ok s i b f : cache_ok s -> bufs s !! i = Some b -> locked (f b) = false -> exists s',
  (upd i f ;;; release ;;; acquiresleep i ;;; ret i) (Cli.set_lk tt true (Cli.set_cpu (CliFacts.inside (bcpu s)) s)) = Ret i s' /\
  bufs s' = <[i := set_locked true (f b)]> (bufs s) /\ order s' = order s /\ bclk s' = false /\ CliFacts.nest_ok (bcpu s') /\
  disk s' = disk s /\ disksize s' = disksize s /\ writes s' = writes s.
Proof.
  intros Hok Hi Hl. set (s1 := Cli.set_lk tt true _). unfold bind at 1, upd at 1, modify at 1.
  change (bufs s1) with (bufs s). rewrite (alter_insert _ _ _ _ Hi).
  destruct (cache_release_ok (with_bufs (<[i := f b]> (bufs s)) s1) (bcpu s)) as (c' & Hc' & Hrel); [apply (co_lock s Hok)|done|done|].
  rewrite (bind_eq _ _ _ _ _ Hrel). set (s2 := Cli.set_cpu c' _).
  assert (Hi2 : bufs s2 !! i = Some (f b)) by (cbn; apply list_lookup_insert_eq; by apply lookup_lt_Some in Hi).
  unfold bind at 1, acquiresleep. rewrite (bind_eq _ _ _ _ _ (buf_at_ok _ _ _ Hi2)), Hl. unfold upd at 1, modify at 1, ret at 1.
  eexists. split; [reflexivity|]. cbn [bufs with_bufs]. rewrite (alter_insert _ _ _ _ Hi2).
  change (bufs s2) with (<[i := f b]> (bufs s)). by rewrite list_insert_insert_eq.
Qed.

Definition bread_result s n : Prop :=
  exists i b s', bread 1 n s = Ret i s' /\ caches s' i b n /\ locked b = true /\
    bdata b = view s n /\ (dirty b = true <-> dirty_block s n) /\
    effect s s' n (view s n) (dirty_block s n) True /\ disk s' = disk s /\ writes s' = writes s.

(** The block is cached. *)
Lemma bread_hit s n i b : cache_ok s -> ~ locked_block s n -> caches s i b n ->
  bscan (fun b => (dev b =? 1) && (blockno b =? n)) (bufs s) (order s) = Some i -> bread_result s n.
Proof.
  intros Hok Hnl Hc Hscan. pose proof Hc as (Hi & Hdev & Hbn).
  assert (Hlk : locked b = false).
  { destruct (locked b) eqn:E; [|done]. exfalso. apply Hnl. by exists i, b. }
  pose proof (co_ref s Hok i b Hi) as Href. rewrite Hlk in Href.
  destruct (claim_ok s i b (fun b => set_refcnt (refcnt b + 1) b) Hok Hi Hlk) as (s' & R & Eb & Eo & El & En & Ek & Ez & Ew).
  set (b' := set_locked true (set_refcnt (refcnt b + 1) b)) in Eb.
  assert (Hi' : bufs s' !! i = Some b') by (rewrite Eb; apply list_lookup_insert_eq; by apply lookup_lt_Some in Hi).
  assert (Hval : valid b = true) by (by apply (co_valid s Hok i b n)).
  assert (Hone : forall j c, caches s j c n -> j = i) by (intros j c Hj; by apply (co_one s Hok j i c b n)).
  assert (Ev : bdata b' = view s n) by exact (eq_sym (view_cached s i b n Hok Hc)).
  assert (Ed : dirty b' = true <-> dirty_block s n).
  { split; [intros Hd; by exists i, b|]. intros (j & c & Hj & Hd). assert (j = i) as -> by (by apply Hone with c).
    destruct Hj as [Hj _]. cbn. congruence. }
  destruct (buffer_effect s s' i b b' n) as [He Hc']; try done.
  - by rewrite Eo.
  - intros m _. by rewrite Ek.
  - cbn. lia.
  - exists i, b', s'. split; [|split; [done|split; [done|split; [done|split; [done|split; [|done]]]]]].
    + unfold bread, bget. unfold bind at 1. rewrite (bind_eq _ _ _ _ _ (cache_acquire_ok s Hok)). erewrite (bind_eq get) by reflexivity.
      set (s0 := Cli.set_lk tt true _) in *. change (bufs s0) with (bufs s). change (order s0) with (order s). rewrite Hscan, R. rewrite (bind_eq _ _ _ _ _ (buf_at_ok _ _ _ Hi')).
      change (valid b') with (valid b). rewrite Hval. reflexivity.
    + by apply (effect_iff _ _ _ _ _ _ _ _ _ He).
Qed.

(** It is not, and a free buffer is given to it. *)
Lemma bread_miss s n i b : cache_ok s -> n < disksize s -> ~ cached s n -> bufs s !! i = Some b -> refcnt b = 0 -> dirty b = false ->
  bscan (fun b => (dev b =? 1) && (blockno b =? n)) (bufs s) (order s) = None ->
  bscan (fun b => (refcnt b =? 0) && negb (dirty b)) (bufs s) (rev (order s)) = Some i -> bread_result s n.
Proof.
  intros Hok Hn Hnc Hi Hr0 Hd Hscan Hscan2.
  assert (Hlk : locked b = false).
  { pose proof (co_ref s Hok i b Hi) as Hr. destruct (locked b); [lia|done]. }
  destruct (claim_ok s i b (recycle 1 n) Hok Hi Hlk) as (s1 & R & Eb & Eo & El & En & Ek & Ez & Ew).
  set (b1 := set_locked true (recycle 1 n b)) in Eb.
  assert (Hi1 : bufs s1 !! i = Some b1) by (rewrite Eb; apply list_lookup_insert_eq; by apply lookup_lt_Some in Hi).
  pose proof (iderw_read s1 i b1 Hi1 eq_refl eq_refl eq_refl eq_refl ltac:(cbn; lia)) as Rw.
  rewrite Eb, list_insert_insert_eq in Rw. set (b' := set_flags true false (set_bdata (disk s1 (blockno b1)) b1)) in Rw. set (s' := with_bufs _ s1) in Rw.
  assert (Ev : bdata b' = view s n) by (rewrite view_uncached by done; cbn; by rewrite Ek).
  assert (Ed : dirty b' = true <-> dirty_block s n).
  { split; [done|]. intros (j & c & Hj & _). exfalso. apply Hnc. by exists j, c. }
  destruct (buffer_effect s s' i b b' n) as [He Hc']; try done.
  - intros j c Hj. by apply (not_cached_one s i j c n).
  - cbn. by rewrite Eo.
  - intros m _. cbn. by rewrite Ek.
  - exists i, b', s'. split; [|split; [done|split; [done|split; [done|split; [done|split; [|by cbn]]]]]].
    + unfold bread, bget. unfold bind at 1. rewrite (bind_eq _ _ _ _ _ (cache_acquire_ok s Hok)). erewrite (bind_eq get) by reflexivity.
      set (s0 := Cli.set_lk tt true _) in *. change (bufs s0) with (bufs s). change (order s0) with (order s). rewrite Hscan, Hscan2, R. rewrite (bind_eq _ _ _ _ _ (buf_at_ok _ _ _ Hi1)).
      change (negb (valid b1)) with true. cbv iota. by rewrite (bind_eq _ _ _ _ _ Rw).
    + by apply (effect_iff _ _ _ _ _ _ _ _ _ He).
Qed.

Lemma bread_ok s n :
  cache_ok s -> n < disksize s -> ~ locked_block s n -> cached s n \/ has_free s -> bread_result s n.
Proof.
  intros Hok Hn Hnl Hfree. destruct (bscan (fun b => (dev b =? 1) && (blockno b =? n)) (bufs s) (order s)) as [i|] eqn:Hscan.
  - pose proof Hscan as (_ & b & Hi & Hb)%bscan_Some. bools. destruct Hb as [Hdev Hbn].
    by apply (bread_hit s n i b).
  - assert (Hnc : ~ cached s n).
    { intros (i & b & Hi & Hdev & Hbn).
      pose proof (bscan_None _ _ _ _ _ Hscan (in_order s i b Hok Hi) Hi) as Hf. cbn in Hf.
      rewrite Hdev, Hbn, !Z.eqb_refl in Hf. done. }
    destruct Hfree as [?|Hfree]; [done|].
    destruct (bscan (fun b => (refcnt b =? 0) && negb (dirty b)) (bufs s) (rev (order s))) as [i|] eqn:Hs2.
    + pose proof Hs2 as (_ & b & Hi & Hb)%bscan_Some. bools. destruct Hb as [Hr0 Hd]. by apply (bread_miss s n i b).
    + destruct Hfree as (i & b & Hi & Hl & Hd). exfalso.
      assert (Hin : i ∈ rev (order s)).
      { apply list_elem_of_In, in_rev. rewrite rev_involutive. apply list_elem_of_In. by apply (in_order s i b). }
      pose proof (bscan_None _ _ _ _ _ Hs2 Hin Hi) as Hf. cbn in Hf.
      pose proof (co_ref s Hok i b Hi) as Hr. rewrite Hl in Hr. rewrite Hr, Hd in Hf. done.
Qed.

(** Replace a held buffer by one for the same block. *)
Lemma held_update s s' i b b' n :
  cache_ok s -> caches s i b n -> locked b = true -> blockno b' = n -> dev b' = 1 -> valid b' = true ->
  bufs s' = <[i := b']> (bufs s) -> order s' ≡ₚ order s ->
  bclk s' = false /\ CliFacts.nest_ok (bcpu s') ->
  (forall m, m <> n -> disk s' m = disk s m) -> disksize s' = disksize s ->
  (dirty b' = false -> locked b' = false -> bdata b' = disk s' n) ->
  (if locked b' then refcnt b' = 1 else refcnt b' = 0) ->
  effect s s' n (bdata b') (dirty b' = true) (locked b' = true) /\ caches s' i b' n.
Proof.
  intros Hok Hc Hl Hbn Hdev Hval Hbufs Hord Hlock Hdisk Hsize Hclean Href.
  pose proof Hc as (Hi & Hd & Hb). apply (buffer_effect s s' i b b' n); try done.
  intros j c Hj. by apply (co_one s Hok j i c b n).
Qed.

Lemma set_bdata_ok s i b n d :
  cache_ok s -> caches s i b n -> locked b = true ->
  exists s', upd i (set_bdata d) s = Ret tt s' /\ effect s s' n d (dirty b = true) True /\
    caches s' i (set_bdata d b) n /\ disk s' = disk s /\ writes s' = writes s.
Proof.
  intros Hok Hc Hl. pose proof Hc as (Hi & Hd & Hb). unfold upd, modify.
  rewrite (alter_insert _ _ _ _ Hi). eexists. split; [done|].
  pose proof (co_ref s Hok i b Hi) as Hr. rewrite Hl in Hr.
  destruct (held_update s (with_bufs (<[i := set_bdata d b]> (bufs s)) s) i b (set_bdata d b) n)
    as [He Hc']; try done.
  - by apply (co_valid s Hok i b n).
  - apply (co_lock s Hok).
  - cbn. by rewrite Hl.
  - cbn. by rewrite Hl.
  - split; [|by split]. cbn in He. rewrite Hl in He. destruct He as [H1 H2 H3 H4 H5 H6]. split; try done.
    intros m. rewrite H4. naive_solver.
Qed.

Lemma bwrite_ok s i b n :
  cache_ok s -> caches s i b n -> locked b = true -> n < disksize s ->
  exists s', bwrite i s = Ret tt s' /\ effect s s' n (bdata b) False True /\
    caches s' i (set_flags true false b) n /\
    disk s' = (fun x => if x =? n then bdata b else disk s x) /\
    writes s' = writes s ++ [(n, bdata b)].
Proof.
  intros Hok Hc Hl Hn. pose proof Hc as (Hi & Hd & Hb). unfold bwrite.
  rewrite (bind_eq _ _ _ _ _ (holdingsleep_ok _ _ _ Hi)), Hl. cbn [negb].
  unfold bind at 1, upd at 1, modify at 1. rewrite (alter_insert _ _ _ _ Hi).
  set (b1 := set_flags (valid b) true b). set (s1 := with_bufs _ s).
  assert (Hi1 : bufs s1 !! i = Some b1)
    by (cbn; apply list_lookup_insert_eq; by apply lookup_lt_Some in Hi).
  rewrite (iderw_write s1 i b1 Hi1 Hl eq_refl Hd) by (cbn; lia).
  change (bufs s1) with (<[i := b1]> (bufs s)). rewrite list_insert_insert_eq.
  change (set_flags true false b1) with (set_flags true false b).
  change (blockno b1) with (blockno b). change (bdata b1) with (bdata b). rewrite Hb.
  eexists. split; [done|]. set (s2 := write_block n _ _).
  pose proof (co_ref s Hok i b Hi) as Hr. rewrite Hl in Hr.
  destruct (held_update s s2 i b (set_flags true false b) n) as [He Hc']; try done.
  - apply (co_lock s Hok).
  - intros m Hm. cbn. by rewrite (proj2 (Z.eqb_neq _ _)).
  - intros _ _. cbn. by rewrite Z.eqb_refl.
  - cbn. by rewrite Hl.
  - split; [|by split]. destruct He as [H1 H2 H3 H4 H5 H6]. split; try done.
    + intros m. rewrite H3. cbn. naive_solver.
    + intros m. rewrite H4. cbn. rewrite Hl. naive_solver.
Qed.

Lemma move_to_front i (o : list nat) : i ∈ o -> NoDup o -> i :: filter (fun j => j <> i) o ≡ₚ o.
Proof.
  intros Hi Hnd. apply list_elem_of_split in Hi as (l1 & l2 & ->).
  apply NoDup_app in Hnd as (H1 & H2 & H3). apply NoDup_cons in H3 as [H3 H4].
  assert (Hf : forall l : list nat, i ∉ l -> filter (fun j => j <> i) l = l).
  { intros l Hl. induction l as [|x l IH]; [done|]. rewrite filter_cons_True by set_solver.
    f_equal. apply IH. set_solver. }
  rewrite filter_app, (Hf l1), filter_cons_False, (Hf l2) by (try tauto; try done; set_solver).
  by rewrite Permutation_middle.
Qed.

Lemma brelse_ok s i b n :
  cache_ok s -> caches s i b n -> locked b = true ->
  (dirty b = false -> bdata b = disk s n) ->
  exists s', brelse i s = Ret tt s' /\ effect s s' n (bdata b) (dirty b = true) False /\
    disk s' = disk s /\ writes s' = writes s.
Proof.
  intros Hok Hc Hl Hclean. pose proof Hc as (Hi & Hd & Hb). unfold brelse.
  rewrite (bind_eq _ _ _ _ _ (holdingsleep_ok _ _ _ Hi)), Hl. cbn [negb].
  pose proof (co_ref s Hok i b Hi) as Hr. rewrite Hl in Hr.
  unfold bind at 1, releasesleep, upd at 1, modify at 1. rewrite (alter_insert _ _ _ _ Hi).
  set (b1 := set_locked false b). set (s1 := with_bufs _ s).
  assert (Hacq : acquire s1 = Ret tt (Cli.set_lk tt true (Cli.set_cpu (CliFacts.inside (bcpu s1)) s1))).
  { unfold acquire. rewrite CliFacts.acquire_run. cbn. by rewrite (proj1 (co_lock s Hok)). }
  rewrite (bind_eq _ _ _ _ _ Hacq). clear Hacq. set (s2 := Cli.set_lk tt true _).
  assert (Hlt : (i < length (bufs s))%nat) by (by apply lookup_lt_Some in Hi).
  assert (Hi2 : bufs s2 !! i = Some b1) by (cbn; by apply list_lookup_insert_eq).
  unfold bind at 1, upd at 1, modify at 1. rewrite (alter_insert _ _ _ _ Hi2).
  change (bufs s2) with (<[i := b1]> (bufs s)). rewrite list_insert_insert_eq.
  change (refcnt b1) with (refcnt b). rewrite Hr. change (1 - 1) with 0.
  set (b2 := set_refcnt 0 b1). set (s3 := with_bufs _ s2).
  assert (Hi3 : bufs s3 !! i = Some b2) by (cbn; by apply list_lookup_insert_eq).
  rewrite (bind_eq _ _ _ _ _ (buf_at_ok _ _ _ Hi3)). change (refcnt b2 =? 0) with true. cbv iota.
  unfold bind at 1, modify at 1.
  destruct (cache_release_ok (with_order (i :: filter (fun j => j <> i) (order s3)) s3) (bcpu s))
    as (c' & Hc' & Hrel); [apply (co_lock s Hok)|done|done|].
  rewrite Hrel. eexists. split; [done|]. set (s4 := Cli.set_cpu c' _).
  destruct (held_update s s4 i b b2 n) as [He _]; try done.
  - by apply (co_valid s Hok i b n).
  - cbn. apply move_to_front; [by apply (in_order s i b)|].
    rewrite (co_order s Hok). apply NoDup_seq.
  - intros Hdb _. by apply Hclean.
  - split; [|by split]. destruct He as [H1 H2 H3 H4 H5 H6]. split; try done.
    intros m. rewrite H4. cbn. naive_solver.
Qed.

End Ops.

(** ** The cache as the file system sees it *)

Definition empty_cache : bst :=
  {| bufs := replicate NBUF blank_buf; order := seq 0 NBUF; bclk := false;
     bcpu := {| Cli.ncli := 0; Cli.intena := true; Cli.intr := true |};
     disk := fun m => replicate BSIZE m; disksize := 100; writes := [] |}.

Lemma empty_uncached i b n : ~ caches empty_cache i b n.
Proof. intros (H & Hd & _). cbn -[replicate] in H. by apply lookup_replicate in H as [-> _]. Qed.

Lemma empty_ok : cache_ok empty_cache.
Proof.
  split; try (intros; exfalso; by eapply empty_uncached).
  - done.
  - done.
  - split; [done|]. split; [done|]. cbn. lia.
  - intros i b H. cbn -[replicate] in H. apply lookup_replicate in H as [-> _]. by intros [?|?].
  - intros i b H. cbn -[replicate] in H. by apply lookup_replicate in H as [-> _].
Qed.

(** C28: the cache is transparent: whichever buffers hold blocks, [bread]
    returns the current value of block [n] in a buffer held by the caller;
    changing the data, [bwrite] and [brelse] make the new data the block's
    value for every later reader and on the disk, with exactly one disk write
    and no other block touched. *)
Theorem block_cache_coherent s n d :
  cache_ok s -> n < disksize s -> ~ locked_block s n -> cached s n \/ has_free s ->
  exists i b s1 s2 s3 s4,
    bread 1 n s = Ret i s1 /\ bufs s1 !! i = Some b /\ bdata b = view s n /\ locked b = true /\
    writes s1 = writes s /\
    upd i (set_bdata d) s1 = Ret tt s2 /\ bwrite i s2 = Ret tt s3 /\ brelse i s3 = Ret tt s4 /\
    cache_ok s4 /\ ~ locked_block s4 n /\ ~ dirty_block s4 n /\
    writes s4 = writes s ++ [(n, d)] /\
    (forall m, view s4 m = if decide (m = n) then d else view s m) /\
    (forall m, disk s4 m = if decide (m = n) then d else disk s m).
Proof.
  intros Hok Hn Hl Hf.
  destruct (bread_ok s n Hok Hn Hl Hf) as (i & b & s1 & R1 & C1 & L1 & V1 & _ & E1 & D1 & W1).
  destruct (set_bdata_ok s1 i b n d (ef_ok _ _ _ _ _ _ E1) C1 L1) as (s2 & R2 & E2 & C2 & D2 & W2).
  destruct (bwrite_ok s2 i _ n (ef_ok _ _ _ _ _ _ E2) C2 L1) as (s3 & R3 & E3 & C3 & D3 & W3).
  { by rewrite (ef_size _ _ _ _ _ _ E2), (ef_size _ _ _ _ _ _ E1). }
  destruct (brelse_ok s3 i _ n (ef_ok _ _ _ _ _ _ E3) C3 L1) as (s4 & R4 & E4 & D4 & W4).
  { intros _. rewrite D3. by rewrite Z.eqb_refl. }
  exists i, b, s1, s2, s3, s4. split; [done|]. split; [apply C1|]. do 6 (split; [done|]).
  split; [apply E4|]. split; [|split; [|split; [|split]]].
  - rewrite (ef_locked _ _ _ _ _ _ E4). naive_solver.
  - rewrite (ef_dirty _ _ _ _ _ _ E4). cbn. naive_solver.
  - by rewrite W4, W3, W2, W1.
  - intros m. rewrite (ef_view _ _ _ _ _ _ E4), (ef_view _ _ _ _ _ _ E3),
      (ef_view _ _ _ _ _ _ E2), (ef_view _ _ _ _ _ _ E1). cbn. by case_decide.
  - intros m. rewrite D4, D3, D2, D1. cbn.
    case_decide as E; [subst; by rewrite Z.eqb_refl|by rewrite (proj2 (Z.eqb_neq _ _))].
Qed.

Lemma block_cache_coherent_witness :
  exists i b s1 s2 s3 s4,
    bread 1 7 empty_cache = Ret i s1 /\ bufs s1 !! i = Some b /\ bdata b = view empty_cache 7 /\
    locked b = true /\ writes s1 = writes empty_cache /\
    upd i (set_bdata [1; 2]) s1 = Ret tt s2 /\ bwrite i s2 = Ret tt s3 /\ brelse i s3 = Ret tt s4 /\
    cache_ok s4 /\ ~ locked_block s4 7 /\ ~ dirty_block s4 7 /\
    writes s4 = writes empty_cache ++ [(7, [1; 2])] /\
    (forall m, view s4 m = if decide (m = 7) then [1; 2] else view empty_cache m) /\
    (forall m, disk s4 m = if decide (m = 7) then [1; 2] else disk empty_cache m).
Proof.
  apply (block_cache_coherent empty_cache 7 [1; 2] empty_ok).
  - cbn. lia.
  - intros (i & b & H & _). by apply empty_uncached in H.
  - right. exists 0%nat, blank_buf. done.
Defined.

End BioFacts.
