(* ===== verification/Ide.v ===== *)
(** * The disk driver

    [ide.c], the driver of the build with a disk behind ports: a queue of
    buffers linked through [qnext], one request at the disk at a time, and an
    interrupt at the end of each.  What the disk answers is a function of the
    accesses to its ports so far. *)

From S2P Require Import Prelude Locks Bio.

Module Ide.

Definition SECTOR_SIZE : Z := 512.
Definition IDE_BSY : Z := 0x80.
Definition IDE_DRDY : Z := 0x40.
Definition IDE_DF : Z := 0x20.
Definition IDE_ERR : Z := 0x01.
Definition IDE_CMD_READ : Z := 0x20.
Definition IDE_CMD_WRITE : Z := 0x30.
Definition IDE_CMD_RDMUL : Z := 0xc4.
Definition IDE_CMD_WRMUL : Z := 0xc5.
Definition FSSIZE : Z := 1000.

(** Accesses to ports: [inb], [outb], [insl], [outsl]. *)
Inductive access :=
| In (port v : Z) | Out (port v : Z) | Ins (port : Z) (l : list Z) | Outs (port : Z) (l : list Z).

(** The buffers of the cache with their [qnext], [idequeue], [havedisk1], the
    accesses to ports, this CPU's view of [idelock], and the channels woken. *)
Record ist := {
  bufs : list Bio.buf; qnext : nat -> option nat; idequeue : option nat; havedisk1 : bool;
  ports : list access; idelock : bool; icpu : Cli.cpu; woken : list nat }.

Definition with_bufs v s := {| bufs := v; qnext := qnext s; idequeue := idequeue s; havedisk1 := havedisk1 s; ports := ports s; idelock := idelock s; icpu := icpu s; woken := woken s |}.
Definition with_qnext i v s := {| bufs := bufs s; qnext := fun j => if Nat.eqb j i then v else qnext s j; idequeue := idequeue s; havedisk1 := havedisk1 s; ports := ports s; idelock := idelock s; icpu := icpu s; woken := woken s |}.
Definition with_idequeue v s := {| bufs := bufs s; qnext := qnext s; idequeue := v; havedisk1 := havedisk1 s; ports := ports s; idelock := idelock s; icpu := icpu s; woken := woken s |}.
Definition with_havedisk1 v s := {| bufs := bufs s; qnext := qnext s; idequeue := idequeue s; havedisk1 := v; ports := ports s; idelock := idelock s; icpu := icpu s; woken := woken s |}.
Definition with_ports v s := {| bufs := bufs s; qnext := qnext s; idequeue := idequeue s; havedisk1 := havedisk1 s; ports := v; idelock := idelock s; icpu := icpu s; woken := woken s |}.
Definition with_lock b s := {| bufs := bufs s; qnext := qnext s; idequeue := idequeue s; havedisk1 := havedisk1 s; ports := ports s; idelock := b; icpu := icpu s; woken := woken s |}.
Definition with_cpu c s := {| bufs := bufs s; qnext := qnext s; idequeue := idequeue s; havedisk1 := havedisk1 s; ports := ports s; idelock := idelock s; icpu := c; woken := woken s |}.
Definition with_woken v s := {| bufs := bufs s; qnext := qnext s; idequeue := idequeue s; havedisk1 := havedisk1 s; ports := ports s; idelock := idelock s; icpu := icpu s; woken := v |}.

#[global] Instance ist_spin : Cli.SpinState ist unit := {|
  Cli.cpu_of := icpu; Cli.set_cpu := with_cpu;
  Cli.lk_of := fun _ => idelock; Cli.set_lk := fun _ => with_lock |}.

Definition acquire : M ist unit := Cli.acquire tt.
Definition release : M ist unit := Cli.release tt.
Definition wakeup (i : nat) : M ist unit := modify (fun s => with_woken (woken s ++ [i]) s).

Definition buf_at (i : nat) : M ist Bio.buf := let! s := get in from_opt (bufs s !! i).
Definition upd (i : nat) (f : Bio.buf -> Bio.buf) : M ist unit :=
  modify (fun s => with_bufs (alter f i (bufs s)) s).

(** The disk: what a read of a port gives after the accesses so far.  [polls]
    and [qlen] are the fuel of the loop on the status and along the queue. *)
Section Disk.
Context (inb_of : list access -> Z -> Z) (insl_of : list access -> Z -> list Z) (polls qlen : nat).

Definition access_port (a : access) : M ist unit := modify (fun s => with_ports (ports s ++ [a]) s).
Definition outb (port v : Z) : M ist unit := access_port (Out port (u8 v)).
Definition outsl (port : Z) (l : list Z) : M ist unit := access_port (Outs port l).
Definition inb (port : Z) : M ist Z :=
  let! s := get in
  let v := inb_of (ports s) port in
  access_port (In port v) ;;; ret v.
Definition insl (port : Z) : M ist (list Z) :=
  let! s := get in
  let l := insl_of (ports s) port in
  access_port (Ins port l) ;;; ret l.

Fixpoint wait_status (fuel : nat) : M ist Z :=
  match fuel with
  | O => fun _ => NoFuel
  | S fuel' =>
      let! r := inb 0x1f7 in
      if Z.land r (Z.lor IDE_BSY IDE_DRDY) =? IDE_DRDY then ret r else wait_status fuel'
  end.

Definition idewait (checkerr : bool) : M ist Z :=
  let! r := wait_status polls in
  if checkerr && negb (Z.land r (Z.lor IDE_DF IDE_ERR) =? 0) then ret (-1) else ret 0.

(** The search for disk 1. *)
Fixpoint probe (n : nat) : M ist unit :=
  match n with
  | O => ret tt
  | S n' =>
      let! r := inb 0x1f7 in
      if negb (r =? 0) then modify (with_havedisk1 true) else probe n'
  end.

(** [ioapicenable] has ports of its own. *)
Definition ideinit : M ist unit :=
  modify (with_lock false) ;;;
  idewait false ;;;
  outb 0x1f6 (Z.lor 0xe0 (Z.shiftl 1 4)) ;;;
  probe 1000 ;;;
  outb 0x1f6 (Z.lor 0xe0 (Z.shiftl 0 4)).

Definition idestart (o : option nat) : M ist unit :=
  match o with
  | None => panic "idestart"
  | Some i =>
      let! b := buf_at i in
      if Bio.blockno b >=? FSSIZE then panic "incorrect blockno"
      else
        let sector_per_block := Z.of_nat Bio.BSIZE / SECTOR_SIZE in
        let sector := i32 (Bio.blockno b * sector_per_block) in
        let read_cmd := if sector_per_block =? 1 then IDE_CMD_READ else IDE_CMD_RDMUL in
        let write_cmd := if sector_per_block =? 1 then IDE_CMD_WRITE else IDE_CMD_WRMUL in
        if sector_per_block >? 7 then panic "idestart"
        else
          idewait false ;;;
          outb 0x3f6 0 ;;;
          outb 0x1f2 sector_per_block ;;;
          outb 0x1f3 (Z.land sector 0xff) ;;;
          outb 0x1f4 (Z.land (Z.shiftr sector 8) 0xff) ;;;
          outb 0x1f5 (Z.land (Z.shiftr sector 16) 0xff) ;;;
          outb 0x1f6 (Z.lor (Z.lor 0xe0 (Z.shiftl (Z.land (Bio.dev b) 1) 4)) (Z.land (Z.shiftr sector 24) 0x0f)) ;;;
          if Bio.dirty b then outb 0x1f7 write_cmd ;;; outsl 0x1f0 (Bio.bdata b)
          else outb 0x1f7 read_cmd
  end.

Definition ideintr : M ist unit :=
  acquire ;;;
  let! s := get in
  match idequeue s with
  | None => release
  | Some i =>
      modify (with_idequeue (qnext s i)) ;;;
      let! b := buf_at i in
      (if negb (Bio.dirty b) then
         let! r := idewait true in
         if r >=? 0 then let! l := insl 0x1f0 in upd i (Bio.set_bdata l) else ret tt
       else ret tt) ;;;
      upd i (fun b => Bio.set_flags true (Bio.dirty b) b) ;;;
      upd i (fun b => Bio.set_flags (Bio.valid b) false b) ;;;
      wakeup i ;;;
      let! s := get in
      (if idequeue s then idestart (idequeue s) else ret tt) ;;;
      release
  end.

(** [pp]: [&idequeue] or [&(pp)->qnext]. *)
Inductive link := Head | Next (i : nat).
Definition deref (pp : link) : M ist (option nat) :=
  gets (fun s => match pp with Head => idequeue s | Next i => qnext s i end).
Definition assign (pp : link) (v : option nat) : M ist unit :=
  modify (match pp with Head => with_idequeue v | Next i => with_qnext i v end).

Fixpoint append (fuel : nat) (pp : link) (i : nat) : M ist unit :=
  match fuel with
  | O => fun _ => NoFuel
  | S fuel' =>
      let! p := deref pp in
      match p with
      | Some j => append fuel' (Next j) i
      | None => assign pp (Some i)
      end
  end.

(** [iderw] up to its wait. *)
Definition submit (i : nat) : M ist unit :=
  let! b := buf_at i in
  let! s := get in
  if negb (Bio.locked b) then panic "iderw: buf not locked"
  else if Bio.valid b && negb (Bio.dirty b) then panic "iderw: nothing to do"
  else if negb (Bio.dev b =? 0) && negb (havedisk1 s) then panic "iderw: ide disk 1 not present"
  else
    acquire ;;;
    modify (with_qnext i None) ;;;
    append qlen Head i ;;;
    let! s := get in
    if decide (idequeue s = Some i) then idestart (Some i) else ret tt.

(** What happens while a process sleeps in [iderw]: the disk interrupts,
    another process calls [iderw] and goes to sleep, or one that holds a
    buffer changes it.  Each runs with the lock free and its own nesting. *)
Inductive event := Interrupt | Request (i : nat) | Change (i : nat) (b : Bio.buf).
Definition occurs (e : event) : M ist unit :=
  match e with
  | Interrupt => ideintr
  | Request i => submit i ;;; release
  | Change i b => upd i (fun _ => b)
  end.
Definition its_cpu (e : event) : Cli.cpu :=
  {| Cli.ncli := 0; Cli.intena := true; Cli.intr := match e with Interrupt => false | _ => true end |}.
Definition elsewhere (e : event) : M ist unit :=
  let! s := get in
  modify (with_cpu (its_cpu e)) ;;;
  occurs e ;;;
  modify (with_cpu (icpu s)).

(** [sleep(b, &idelock)]. *)
Definition sleep (i : nat) (e : option event) : M ist unit :=
  match e with
  | Some e => modify (with_lock false) ;;; elsewhere e ;;; modify (with_lock true)
  | None => fun s => Asleep (Z.of_nat i) (with_lock false s)
  end.

(** The wait of [iderw]; the events left over. *)
Fixpoint wait_done (i : nat) (env : list event) : M ist (list event) :=
  let! b := buf_at i in
  if Bio.valid b && negb (Bio.dirty b) then ret env
  else
    sleep i (head env) ;;;
    match env with
    | [] => fault
    | _ :: env' => wait_done i env'
    end.

Definition iderw (i : nat) (env : list event) : M ist (list event) :=
  submit i ;;;
  let! env := wait_done i env in
  release ;;;
  ret env.
End Disk.

End Ide.
