(* ===== verification/IdeFacts.v ===== *)
(** * The disk driver: what it promises

    Against any device that answers as the ATA standard says, the queue, the
    interrupts and the port accesses of [ide.c] do what the memory disk of
    [memide.c] does, one request after another in the order they were made. *)

From S2P Require Import Prelude Locks Bio Ide.
Import Ide.

#[global] Instance ist_laws : Cli.SpinLaws ist unit.
Proof. by split. Qed.

Section Queue.
Implicit Types (q : list nat).

(** The buffers linked from [h]. *)
Fixpoint chain (nx : nat -> option nat) (h : option nat) q : Prop :=
  match q with [] => h = None | i :: q' => h = Some i /\ chain nx (nx i) q' end.

Lemma queue_frame nx nx' h q : chain nx h q -> (forall i, i ∈ q -> nx' i = nx i) -> chain nx' h q.
Proof.
  revert h. induction q as [|i q IH]; intros h; [done|]. intros [-> H] E. split; [done|].
  rewrite (E i) by left. apply IH; [done|]. intros j Hj. apply E. by right.
Qed.

Lemma chain_snoc nx h q i : chain nx h q -> NoDup q -> i ∉ q -> nx i = None ->
  match last q with
  | None => chain nx (Some i) [i]
  | Some j => chain (fun x => if Nat.eqb x j then Some i else nx x) h (q ++ [i])
  end.
Proof.
  intros H Hq Hi Hn. destruct q as [|j q' _] using rev_ind; [by cbn|]. rewrite last_snoc.
  revert h H. induction q' as [|k q' IH]; intros h [-> H]; cbn -[Nat.eqb].
  - rewrite Nat.eqb_refl. assert (i <> j) by (intros ->; apply Hi; by left). by rewrite (proj2 (Nat.eqb_neq i j)).
  - apply NoDup_cons in Hq as [Hk Hq]. assert (k <> j) by (intros ->; apply Hk; set_solver).
    rewrite (proj2 (Nat.eqb_neq k j)) by done. split; [done|]. apply IH; [done|set_solver|done].
Qed.

End Queue.

(** ** The device *)

(** What the registers hold, the command given last with its number of
    sectors, unit and first sector, and the sectors of each unit. *)
Record ata := { reg : Z -> Z; cmd : option (Z * Z * Z * Z); media : Z -> Z -> list Z }.

Definition sector_reg (r : Z -> Z) : Z := r 0x1f3 + 256 * r 0x1f4 + 65536 * r 0x1f5 + 16777216 * Z.land (r 0x1f6) 15.
Definition unit_reg (r : Z -> Z) : Z := Z.land (Z.shiftr (r 0x1f6) 4) 1.

Definition ata_step (t : ata) (a : access) : ata :=
  match a with
  | Out p v =>
      let r := fun x => if x =? p then v else reg t x in
      if p =? 0x1f7 then {| reg := r; cmd := Some (v, r 0x1f2, unit_reg r, sector_reg r); media := media t |}
      else {| reg := r; cmd := cmd t; media := media t |}
  | Outs p l =>
      match cmd t with
      | Some (c, 1, u, x) =>
          if (p =? 0x1f0) && (c =? IDE_CMD_WRITE)
          then {| reg := reg t; cmd := cmd t; media := fun v y => if (v =? u) && (y =? x) then l else media t v y |}
          else t
      | _ => t
      end
  | _ => t
  end.

(** A device from the accesses made, and what the driver relies on: after a
    few polls it is ready, it reports no error, and after a command to read
    one sector it delivers that sector. *)
Section Device.
Context (ata0 : ata) (inb_of : list access -> Z -> Z) (insl_of : list access -> Z -> list Z) (polls qlen : nat).

Definition ata_of (h : list access) : ata := foldl ata_step ata0 h.

Fixpoint ready_after (n : nat) (h : list access) : Prop :=
  let v := inb_of h 0x1f7 in
  match n with
  | O => Z.land v 0xc0 = 0x40
  | S n' => Z.land v 0xc0 <> 0x40 -> ready_after n' (h ++ [In 0x1f7 v])
  end.

Record ata_device : Prop := {
  dev_ready : forall h, exists n, (n < polls)%nat /\ ready_after n h;
  dev_data : forall h u x, cmd (ata_of h) = Some (IDE_CMD_READ, 1, u, x) -> insl_of h 0x1f0 = media (ata_of h) u x }.
Definition no_errors : Prop := forall h, Z.land (inb_of h 0x1f7) 0x21 = 0.

(** Reads of a status register change nothing. *)
Definition quiet (l : list access) : Prop := Forall (fun a => match a with In _ _ | Ins _ _ => True | _ => False end) l.

Lemma ata_quiet h l : quiet l -> ata_of (h ++ l) = ata_of h.
Proof.
  intros H. unfold ata_of. rewrite foldl_app. set (t := foldl ata_step ata0 h). clearbody t. revert t.
  induction H as [|a l Ha _ IH]; intros t; [done|]. cbn. rewrite <- (IH t). by destruct a.
Qed.

Lemma inb_ok p s : inb inb_of p s = Ret (inb_of (ports s) p) (with_ports (ports s ++ [In p (inb_of (ports s) p)]) s).
Proof. done. Qed.

Lemma wait_status_ok n : forall fuel s, ready_after n (ports s) -> (n < fuel)%nat ->
  exists r h l, wait_status inb_of fuel s = Ret r (with_ports (ports s ++ l) s) /\ quiet l /\ r = inb_of h 0x1f7.
Proof.
  induction n as [|n IH]; intros [|fuel] s Hr Hf; try lia; cbn [wait_status].
  - rewrite (bind_eq _ _ _ _ _ (inb_ok _ _)). change (Z.lor IDE_BSY IDE_DRDY) with 0xc0. cbn [ready_after] in Hr. rewrite Hr. cbn.
    eexists _, _, _. split; [reflexivity|]. split; [by repeat constructor|done].
  - rewrite (bind_eq _ _ _ _ _ (inb_ok _ _)). change (Z.lor IDE_BSY IDE_DRDY) with 0xc0. cbn [ready_after] in Hr.
    destruct (Z.eqb_spec (Z.land (inb_of (ports s) 0x1f7) 0xc0) IDE_DRDY) as [E|E].
    + eexists _, _, _. split; [reflexivity|]. split; [by repeat constructor|done].
    + destruct (IH fuel (with_ports (ports s ++ [In 0x1f7 (inb_of (ports s) 0x1f7)]) s)) as (r & h & l & R & Q & Eh); [by apply Hr|lia|].
      exists r, h, ([In 0x1f7 (inb_of (ports s) 0x1f7)] ++ l). split; [rewrite app_assoc; exact R|]. split; [by constructor|done].
Qed.

Context (HD : ata_device).

Lemma idewait_ok chk s : exists r l, idewait inb_of polls chk s = Ret r (with_ports (ports s ++ l) s) /\ quiet l /\
  (chk = false \/ no_errors -> r = 0).
Proof using HD.
  destruct (dev_ready HD (ports s)) as (n & Hn & Hr). destruct (wait_status_ok n polls s Hr Hn) as (r & h & l & R & Q & ->).
  unfold idewait. rewrite (bind_eq _ _ _ _ _ R). change (Z.lor IDE_DF IDE_ERR) with 0x21. case_if.
  - exists (-1), l. split; [done|]. split; [done|]. destruct Heqb as [-> Hne]. intros [?|He]; [done|]. by rewrite He in Hne.
  - exists 0, l. done.
Qed.

(** The registers of a request name its block. *)
Lemma sector_split x : 0 <= x < 1000 ->
  u8 (Z.land x 0xff) + 256 * u8 (Z.land (Z.shiftr x 8) 0xff) + 65536 * u8 (Z.land (Z.shiftr x 16) 0xff) = x /\ Z.shiftr x 24 = 0.
Proof.
  intros H. change 0xff with (Z.ones 8). rewrite !Z.land_ones, !Z.shiftr_div_pow2 by lia.
  change (2 ^ 8) with 256. change (2 ^ 16) with 65536. change (2 ^ 24) with 16777216.
  unfold u8. rewrite !Zmod_mod. rewrite (Z.div_small x 65536), (Z.div_small x 16777216) by lia.
  rewrite (Z.mod_small (x / 256)) by (split; [apply Z.div_pos|apply Z.div_lt_upper_bound]; lia).
  rewrite (Z.mod_small 0) by lia. pose proof (Z.div_mod x 256). lia.
Qed.

Definition command (b : Bio.buf) : Z := if Bio.dirty b then IDE_CMD_WRITE else IDE_CMD_READ.

Lemma idestart_ok s i b : bufs s !! i = Some b -> 0 <= Bio.blockno b < 1000 -> Bio.dev b = 1 ->
  exists l, idestart inb_of polls (Some i) s = Ret tt (with_ports (ports s ++ l) s) /\
    cmd (ata_of (ports s ++ l)) = Some (command b, 1, 1, Bio.blockno b) /\
    forall u x, media (ata_of (ports s ++ l)) u x =
      if Bio.dirty b && ((u =? 1) && (x =? Bio.blockno b)) then Bio.bdata b else media (ata_of (ports s)) u x.
Proof using HD.
  intros Hb Hn Hd. unfold idestart. erewrite (bind_eq (buf_at i)) by (unfold buf_at, bind, get; by rewrite Hb).
  destruct (Z.geb_spec (Bio.blockno b) FSSIZE) as [?|_]; [unfold FSSIZE in *; lia|].
  change (Z.of_nat Bio.BSIZE / SECTOR_SIZE) with 1. cbn [Z.eqb Pos.eqb]. change (1 >? 7) with false. cbv iota.
  rewrite Z.mul_1_r, i32_small by lia. destruct (idewait_ok false s) as (r & l & R & Q & _). rewrite (bind_eq _ _ _ _ _ R).
  destruct (sector_split _ Hn) as [E1 E2]. rewrite Hd, E2.
  assert (Ea : forall l', ata_of (ports s ++ l ++ l') = foldl ata_step (ata_of (ports s)) l').
  { intros l'. rewrite app_assoc. unfold ata_of at 1. rewrite foldl_app. fold (ata_of (ports s ++ l)). by rewrite (ata_quiet _ _ Q). }
  unfold outb. change (u8 0) with 0. change (u8 1) with 1. change (u8 IDE_CMD_WRITE) with 48. change (u8 IDE_CMD_READ) with 32.
  change (u8 (Z.lor (Z.lor 224 (Z.shiftl (Z.land 1 1) 4)) (Z.land 0 15))) with 240.
  revert E1. generalize (u8 (Z.land (Bio.blockno b) 0xff)) (u8 (Z.land (Z.shiftr (Bio.blockno b) 8) 0xff)) (u8 (Z.land (Z.shiftr (Bio.blockno b) 16) 0xff)).
  intros x y z <-. unfold command. destruct (Bio.dirty b); eexists;
    (split; [unfold bind, outsl, access_port, modify; cbn [ports with_ports]; rewrite <- !app_assoc; reflexivity|]);
    rewrite Ea; cbn -[Z.add Z.mul]; unfold unit_reg, sector_reg; cbn -[Z.add Z.mul]; change (Z.land 240 15) with 0; change (Z.land (Z.shiftr 240 4) 1) with 1;
    rewrite Z.mul_0_r, Z.add_0_r; done.
Qed.

(** ** The memory disk, with requests waiting *)

(** The cache over the memory disk of [memide.c], and the requests not served
    yet.  An interrupt serves the first of them, by [iderw] of [Bio]. *)
Record model := { cache : Bio.bst; waiting : list nat }.

Definition may_request (m : model) (i : nat) : bool :=
  match Bio.bufs (cache m) !! i with
  | Some b =>
      Bio.locked b && negb (Bio.valid b && negb (Bio.dirty b)) && (Bio.dev b =? 1) &&
      (0 <=? Bio.blockno b) && (Bio.blockno b <? 1000) && bool_decide (i ∉ waiting m)
  | None => false
  end.
Definition mstep (e : event) (m : model) : option model :=
  match e with
  | Request i => if may_request m i then Some {| cache := cache m; waiting := waiting m ++ [i] |} else None
  | Change i b =>
      if bool_decide (i ∉ waiting m) then
        Some {| cache := Bio.with_bufs (alter (fun _ => b) i (Bio.bufs (cache m))) (cache m); waiting := waiting m |}
      else None
  | Interrupt =>
      match waiting m with
      | [] => Some m
      | i :: q => match Bio.iderw i (cache m) with Ret _ c => Some {| cache := c; waiting := q |} | _ => None end
      end
  end.
Fixpoint mrun (l : list event) (m : model) : option model :=
  match l with [] => Some m | e :: l' => m' ← mstep e m; mrun l' m' end.

(** What the first of the waiting requests has already done to the disk. *)
Definition started (c : Bio.bst) (q : list nat) (x : Z) : list Z :=
  match q with
  | i :: _ =>
      match Bio.bufs c !! i with
      | Some b => if Bio.dirty b && (x =? Bio.blockno b) then Bio.bdata b else Bio.disk c x
      | None => Bio.disk c x
      end
  | [] => Bio.disk c x
  end.
Definition active (c : Bio.bst) (q : list nat) (o : option (Z * Z * Z * Z)) : Prop :=
  match q with
  | i :: _ => exists b, Bio.bufs c !! i = Some b /\ o = Some (command b, 1, 1, Bio.blockno b)
  | [] => True
  end.

Record related (m : model) (s : ist) : Prop := {
  r_bufs : bufs s = Bio.bufs (cache m);
  r_queue : chain (qnext s) (idequeue s) (waiting m);
  r_nodup : NoDup (waiting m);
  r_waiting : forall i, i ∈ waiting m -> exists b, Bio.bufs (cache m) !! i = Some b /\
    Bio.locked b = true /\ Bio.valid b && negb (Bio.dirty b) = false /\ Bio.dev b = 1 /\ 0 <= Bio.blockno b < 1000;
  r_disk1 : havedisk1 s = true;
  r_size : Bio.disksize (cache m) = 1000;
  r_active : active (cache m) (waiting m) (cmd (ata_of (ports s)));
  r_media : forall x, media (ata_of (ports s)) 1 x = started (cache m) (waiting m) x }.

Definition free_lock (s : ist) : Prop := idelock s = false /\ CliFacts.nest_ok (icpu s).

(** The parts of the state [related] looks at. *)
Lemma related_ext m s s' : related m s -> bufs s' = bufs s -> qnext s' = qnext s -> idequeue s' = idequeue s ->
  havedisk1 s' = havedisk1 s -> ports s' = ports s -> related m s'.
Proof. intros [] E1 E2 E3 E4 E5. split; by rewrite ?E1, ?E2, ?E3, ?E4, ?E5. Qed.

Lemma ide_acquire s : free_lock s -> acquire s = Ret tt (with_lock true (with_cpu (CliFacts.inside (icpu s)) s)).
Proof. intros [Hl _]. unfold acquire. rewrite CliFacts.acquire_run. cbn. by rewrite Hl. Qed.

Lemma ide_release c s : CliFacts.nest_ok c -> idelock s = true -> icpu s = CliFacts.inside c ->
  exists c', release s = Ret tt (with_cpu c' (with_lock false s)) /\ CliFacts.nest_ok c'.
Proof.
  intros [H1 H2] Hl Hc. unfold release. rewrite CliFacts.release_run; cbn; rewrite Hc; cbn; [|lia|done]. rewrite Hl.
  eexists. split; [reflexivity|]. split; cbn; [lia|]. intros H. destruct (Z.eqb_spec (Cli.ncli c + 1 - 1) 0); [lia|done].
Qed.

Lemma append_ok i q : forall fuel pp s,
  chain (qnext s) (match pp with Head => idequeue s | Next j => qnext s j end) q -> (length q < fuel)%nat ->
  append fuel pp i s = Ret tt
    (match last q with Some j => with_qnext j (Some i) s | None => match pp with Head => with_idequeue (Some i) s | Next j => with_qnext j (Some i) s end end).
Proof.
  induction q as [|j q IH]; intros [|fuel] pp s H Hf; cbn [length] in Hf; try lia; cbn [append].
  - erewrite (bind_eq (deref pp)) by (unfold deref, gets; reflexivity). cbn in H. rewrite H. by destruct pp.
  - destruct H as [H1 H2]. erewrite (bind_eq (deref pp)) by (unfold deref, gets; reflexivity). rewrite H1.
    rewrite (IH fuel (Next j) s H2) by lia. rewrite last_cons. by destruct (last q).
Qed.

Lemma may_request_spec m i : may_request m i = true -> i ∉ waiting m /\
  exists b, Bio.bufs (cache m) !! i = Some b /\ Bio.locked b = true /\ Bio.valid b && negb (Bio.dirty b) = false /\
    Bio.dev b = 1 /\ 0 <= Bio.blockno b < 1000.
Proof.
  unfold may_request. destruct (Bio.bufs (cache m) !! i) as [b|]; [|done]. rewrite !andb_true_iff, negb_true_iff.
  intros (((((? & ?) & ?) & ?) & ?) & Hw). apply bool_decide_eq_true in Hw. split; [done|]. exists b. bools. split_and!; [done..|lia|lia].
Qed.

Lemma submit_ok m s i : related m s -> free_lock s -> may_request m i = true -> (length (waiting m) < qlen)%nat ->
  exists s', submit inb_of polls qlen i s = Ret tt s' /\ related {| cache := cache m; waiting := waiting m ++ [i] |} s' /\
    idelock s' = true /\ icpu s' = CliFacts.inside (icpu s) /\ woken s' = woken s.
Proof using HD.
  intros [Eb Hq Hnd Hw Hd1 Hsz Hac Hmd] Hfl Hreq Hlen. destruct (may_request_spec m i Hreq) as (Hi & b & Hb & Hlk & Hvd & Hdev & Hbn).
  unfold submit. erewrite (bind_eq (buf_at i)) by (unfold buf_at, bind, get; by rewrite Eb, Hb). erewrite (bind_eq get) by reflexivity.
  rewrite Hlk, Hvd, Hd1, andb_false_r. cbn [negb]. rewrite (bind_eq _ _ _ _ _ (ide_acquire s Hfl)).
  erewrite (bind_eq (modify _)) by reflexivity.
  set (s1 := with_qnext i None (with_lock true (with_cpu (CliFacts.inside (icpu s)) s))).
  assert (Hq1 : chain (qnext s1) (idequeue s1) (waiting m)).
  { apply (queue_frame (qnext s)); [exact Hq|]. intros j Hj. cbn. rewrite (proj2 (Nat.eqb_neq j i)); [done|]. by intros ->. }
  rewrite (bind_eq _ _ _ _ _ (append_ok i (waiting m) qlen Head s1 Hq1 Hlen)). erewrite (bind_eq get) by reflexivity.
  pose proof (chain_snoc (qnext s1) (idequeue s1) (waiting m) i Hq1 Hnd Hi) as Hc.
  assert (Hni : qnext s1 i = None) by (cbn; by rewrite Nat.eqb_refl). specialize (Hc Hni).
  assert (Hnd' : NoDup (waiting m ++ [i])).
  { apply NoDup_app. split; [done|]. split; [set_solver|]. apply NoDup_singleton. }
  assert (Hw' : forall j, j ∈ waiting m ++ [i] -> exists b, Bio.bufs (cache m) !! j = Some b /\ Bio.locked b = true /\
    Bio.valid b && negb (Bio.dirty b) = false /\ Bio.dev b = 1 /\ 0 <= Bio.blockno b < 1000).
  { intros j [Hj| ->%list_elem_of_singleton]%elem_of_app; [by apply Hw|]. by exists b. }
  destruct (waiting m) as [|k q] eqn:Ew.
  - cbn [last]. cbn [idequeue with_idequeue]. rewrite decide_True by done.
    destruct (idestart_ok (with_idequeue (Some i) s1) i b) as (l & R & Hcmd & Hmed); [cbn; by rewrite Eb|done|done|].
    rewrite R. eexists. split; [reflexivity|]. split; [|done]. split; try done.
    + exists b. done.
    + intros x. cbn [ports with_ports]. rewrite Hmed. cbn. rewrite Hb. cbn. destruct (Bio.dirty b); cbn; [|by rewrite Hmd].
      case_match; [done|]. by rewrite Hmd.
  - destruct (last (k :: q)) as [j|] eqn:El; [|by apply last_None in El].
    assert (Hh : idequeue (with_qnext j (Some i) s1) <> Some i).
    { cbn. destruct Hq as [-> _]. intros [= ->]. apply Hi. by left. }
    rewrite decide_False by done. eexists. split; [reflexivity|]. split; [|done]. split; done.
Qed.

(** The end of [ideintr]. *)
Lemma start_next_ok c q s c0 :
  bufs s = Bio.bufs c -> chain (qnext s) (idequeue s) q -> NoDup q ->
  (forall i, i ∈ q -> exists b, Bio.bufs c !! i = Some b /\ Bio.locked b = true /\ Bio.valid b && negb (Bio.dirty b) = false /\
    Bio.dev b = 1 /\ 0 <= Bio.blockno b < 1000) ->
  havedisk1 s = true -> Bio.disksize c = 1000 -> (forall x, media (ata_of (ports s)) 1 x = Bio.disk c x) ->
  CliFacts.nest_ok c0 -> idelock s = true -> icpu s = CliFacts.inside c0 ->
  exists s', (let! s := get in (if idequeue s then idestart inb_of polls (idequeue s) else ret tt) ;;; release) s = Ret tt s' /\
    related {| cache := c; waiting := q |} s' /\ free_lock s' /\ woken s' = woken s /\ bufs s' = bufs s.
Proof using HD.
  intros Eb Hq Hnd Hw Hd1 Hsz Hmd Hc0 Hl Hc. erewrite (bind_eq get) by reflexivity. destruct q as [|k q].
  - cbn in Hq. rewrite Hq. erewrite (bind_eq (ret tt)) by reflexivity. destruct (ide_release c0 s Hc0 Hl Hc) as (c' & R & Hn).
    eexists. split; [exact R|]. split; [|done]. split; done.
  - destruct Hq as [Ek Hq]. rewrite Ek. destruct (Hw k) as (b & Hb & Hlk & Hvd & Hdev & Hbn); [by left|].
    destruct (idestart_ok s k b) as (l & R & Hcmd & Hmed); [by rewrite Eb|done|done|]. rewrite (bind_eq _ _ _ _ _ R).
    destruct (ide_release c0 (with_ports (ports s ++ l) s) Hc0 Hl Hc) as (c' & R' & Hn).
    eexists. split; [exact R'|]. split; [|done]. split; try done.
    + by exists b.
    + intros x. cbn. rewrite Hmed, Hb, Hmd. by destruct (Bio.dirty b); cbn; repeat case_match.
Qed.

(** What an interrupt does: the first request is served as the memory disk
    serves it, the next one goes to the disk. *)
Lemma ideintr_ok m s : no_errors -> related m s -> free_lock s -> exists m' s',
  ideintr inb_of insl_of polls s = Ret tt s' /\ mstep Interrupt m = Some m' /\ waiting m' = tail (waiting m) /\
  related m' s' /\ free_lock s' /\ woken s' = woken s ++ take 1 (waiting m) /\
  forall i, i ∈ take 1 (waiting m) -> exists b, bufs s' !! i = Some b /\ Bio.valid b && negb (Bio.dirty b) = true.
Proof using HD.
  intros Hne Hr Hfl. pose proof Hr as [Eb Hq Hnd Hw Hd1 Hsz Hac Hmd].
  unfold ideintr. rewrite (bind_eq _ _ _ _ _ (ide_acquire s Hfl)). erewrite (bind_eq get) by reflexivity.
  set (s1 := with_lock true (with_cpu (CliFacts.inside (icpu s)) s)). change (idequeue s1) with (idequeue s).
  destruct m as [c q]. cbn [cache waiting] in *. destruct q as [|i q].
  - cbn in Hq. rewrite Hq. destruct (ide_release (icpu s) s1 (proj2 Hfl) eq_refl eq_refl) as (c' & R & Hn).
    exists {| cache := c; waiting := [] |}. eexists. split; [exact R|]. split; [done|]. split; [done|].
    split; [by eapply related_ext|]. split; [done|]. split; [by rewrite app_nil_r|]. intros i Hi. by apply not_elem_of_nil in Hi.
  - destruct Hq as [Ei Hq]. rewrite Ei. apply NoDup_cons in Hnd as [Hiq Hnd].
    destruct (Hw i) as (b & Hb & Hlk & Hvd & Hdev & Hbn); [by left|]. erewrite (bind_eq (modify _)) by reflexivity.
    change (qnext s1 i) with (qnext s i). set (s2 := with_idequeue (qnext s i) s1).
    erewrite (bind_eq (buf_at i)) by (unfold buf_at, bind, get; cbn; by rewrite Eb, Hb).
    destruct Hac as (b' & Hb' & Hcmd). rewrite Hb in Hb'. injection Hb' as <-.
    assert (Hq2 : forall j, j ∈ q -> exists b, Bio.bufs c !! j = Some b /\ j <> i /\ Bio.locked b = true /\
      Bio.valid b && negb (Bio.dirty b) = false /\ Bio.dev b = 1 /\ 0 <= Bio.blockno b < 1000).
    { intros j Hj. destruct (Hw j) as (bj & ?); [by right|]. exists bj. split; [tauto|]. split; [by intros ->|tauto]. }
    destruct (Bio.dirty b) eqn:Hdt; cbn [negb].
    + erewrite (bind_eq (ret tt)) by reflexivity. unfold upd, wakeup. do 3 (erewrite (bind_eq (modify _)) by reflexivity).
      match goal with |- context [bind get _ ?x] => set (s3 := x) end.
      set (c' := Bio.write_block (Bio.blockno b) (Bio.bdata b) (Bio.with_bufs (<[i := Bio.set_flags true false b]> (Bio.bufs c)) c)).
      assert (Eb3 : bufs s3 = Bio.bufs c').
      { cbn. rewrite Eb. unfold s2, s1. rewrite alter_alter. rewrite (alter_insert _ _ _ _ Hb). done. }
      destruct (start_next_ok c' q s3 (icpu s)) as (s' & R & Hr' & Hf' & Hwk & Hbf); try done.
      * intros j Hj. destruct (Hq2 j Hj) as (bj & Hbj & Hne' & ?). exists bj. split; [|done]. cbn. by rewrite list_lookup_insert_ne.
      * intros x. cbn. rewrite Hmd. cbn. rewrite Hb, Hdt. done.
      * exact (proj2 Hfl).
      * exists {| cache := c'; waiting := q |}, s'. split; [exact R|]. split; [|split; [done|split; [done|split; [done|split]]]].
        -- cbn. rewrite (BioFacts.iderw_write c i b) by (done || lia). done.
        -- by rewrite Hwk.
        -- intros j ->%list_elem_of_singleton. rewrite Hbf, Eb3. cbn. rewrite list_lookup_insert_eq by (by eapply lookup_lt_Some). by eexists.
    + destruct (idewait_ok true s2) as (r & l & R & Q & E0). rewrite (E0 (or_intror Hne)) in R.
      set (data := insl_of (ports s2 ++ l) 0x1f0).
      assert (Ed : data = Bio.disk c (Bio.blockno b)).
      { unfold data, command in *. rewrite Hdt in Hcmd. rewrite (dev_data HD _ 1 (Bio.blockno b)) by (rewrite ata_quiet by done; exact Hcmd).
        rewrite ata_quiet by done. cbn. rewrite Hmd. cbn. by rewrite Hb, Hdt. }
      assert (Er : (let! r := idewait inb_of polls true in
          if r >=? 0 then let! l := insl insl_of 0x1f0 in upd i (Bio.set_bdata l) else ret tt) s2 =
        Ret tt (with_bufs (alter (Bio.set_bdata data) i (bufs s2)) (with_ports ((ports s2 ++ l) ++ [Ins 0x1f0 data]) s2)))
        by (by rewrite (bind_eq _ _ _ _ _ R)).
      rewrite (bind_eq _ _ _ _ _ Er). unfold upd, wakeup. do 3 (erewrite (bind_eq (modify _)) by reflexivity).
      match goal with |- context [bind get _ ?x] => set (s3 := x) end.
      assert (Hv : Bio.valid b = false) by (by destruct (Bio.valid b)).
      set (c' := Bio.with_bufs (<[i := Bio.set_flags true false (Bio.set_bdata data b)]> (Bio.bufs c)) c).
      assert (Eb3 : bufs s3 = Bio.bufs c').
      { cbn. rewrite Eb. unfold s2, s1. rewrite !alter_alter. rewrite (alter_insert _ _ _ _ Hb). done. }
      destruct (start_next_ok c' q s3 (icpu s)) as (s' & R' & Hr' & Hf' & Hwk & Hbf); try done.
      * intros j Hj. destruct (Hq2 j Hj) as (bj & Hbj & Hne' & ?). exists bj. split; [|done]. cbn. by rewrite list_lookup_insert_ne.
      * intros x. cbn [s3 ports with_woken with_bufs with_ports]. rewrite <- app_assoc, ata_quiet by (apply Forall_app; split; [done|by repeat constructor]).
        change (ports s2) with (ports s). rewrite Hmd. cbn. by rewrite Hb, Hdt.
      * exact (proj2 Hfl).
      * exists {| cache := c'; waiting := q |}, s'. split; [exact R'|]. split; [|split; [done|split; [done|split; [done|split]]]].
        -- cbn. rewrite (BioFacts.iderw_read c i b) by (done || lia). unfold c'. by rewrite Ed.
        -- by rewrite Hwk.
        -- intros j ->%list_elem_of_singleton. rewrite Hbf, Eb3. cbn. rewrite list_lookup_insert_eq by (by eapply lookup_lt_Some). by eexists.
Qed.

Lemma iderw_length i c u c' : Bio.iderw i c = Ret u c' -> length (Bio.bufs c') = length (Bio.bufs c).
Proof.
  unfold Bio.iderw, Bio.holdingsleep, Bio.buf_at, Bio.upd, bind, get, from_opt, ret, modify. repeat case_match; try done; intros [= _ <-]; simplify_eq; cbn;
    rewrite ?length_alter; done.
Qed.

Lemma mstep_length e m m' : mstep e m = Some m' -> length (Bio.bufs (cache m')) = length (Bio.bufs (cache m)).
Proof.
  destruct e as [|j|j b]; cbn.
  - destruct (waiting m); [by intros [= <-]|]. destruct (Bio.iderw n (cache m)) eqn:E; try done. intros [= <-]. by eapply iderw_length.
  - case_match; [|done]. by intros [= <-].
  - case_match; [|done]. intros [= <-]. cbn. by rewrite length_alter.
Qed.

Lemma waiting_bound m s i : related m s -> may_request m i = true -> (length (waiting m) < length (Bio.bufs (cache m)))%nat.
Proof.
  intros Hr Hi. destruct (may_request_spec m i Hi) as (Hni & b & Hb & _). pose proof (r_nodup m s Hr) as Hnd.
  assert (H : i :: waiting m ⊆+ seq 0 (length (Bio.bufs (cache m)))).
  { apply NoDup_submseteq; [by constructor|]. intros j Hj. apply elem_of_seq.
    assert (exists bj, Bio.bufs (cache m) !! j = Some bj) as [bj Hbj].
    { apply elem_of_cons in Hj as [->|Hj]; [by exists b|]. destruct (r_waiting m s Hr j Hj) as (bj & ? & _). by exists bj. }
    apply lookup_lt_Some in Hbj. lia. }
  apply submseteq_length in H. rewrite length_seq in H. exact H.
Qed.

(** One thing that happens while a process sleeps. *)
Lemma sleep_ok m m' s i e : no_errors -> related m s -> idelock s = true -> (length (Bio.bufs (cache m)) <= qlen)%nat ->
  mstep e m = Some m' -> exists s', sleep inb_of insl_of polls qlen i (Some e) s = Ret tt s' /\ related m' s' /\
    idelock s' = true /\ icpu s' = icpu s /\
    (e = Interrupt -> waiting m' = tail (waiting m) /\ woken s' = woken s ++ take 1 (waiting m) /\
      forall j, j ∈ take 1 (waiting m) -> exists b, bufs s' !! j = Some b /\ Bio.valid b && negb (Bio.dirty b) = true).
Proof using HD.
  intros Hne Hr Hl Hq Hm. unfold sleep. erewrite (bind_eq (modify _)) by reflexivity.
  set (s1 := with_cpu (its_cpu e) (with_lock false s)).
  assert (H1 : related m s1 /\ free_lock s1) by (split; [by eapply related_ext|split; [done|split; done]]).
  destruct H1 as [Hr1 Hf1].
  assert (Ho : forall s2, occurs inb_of insl_of polls qlen e s1 = Ret tt s2 ->
    (elsewhere inb_of insl_of polls qlen e ;;; modify (with_lock true)) (with_lock false s) = Ret tt (with_lock true (with_cpu (icpu s) s2))).
  { intros s2 R. unfold elsewhere, bind, get, modify in *. cbn. fold s1. by rewrite R. }
  destruct e as [|j|j b].
  - destruct (ideintr_ok m s1 Hne Hr1 Hf1) as (m2 & s2 & R & Hm2 & Hw & Hr2 & Hf2 & Hk & Hv).
    rewrite Hm in Hm2. injection Hm2 as <-. exists (with_lock true (with_cpu (icpu s) s2)). split; [by apply Ho|].
    split; [by eapply related_ext|]. split; [done|]. split; [done|]. intros _. done.
  - cbn in Hm. destruct (may_request m j) eqn:Hj; [|done]. injection Hm as <-. pose proof (waiting_bound m s1 j Hr1 Hj).
    destruct (submit_ok m s1 j Hr1 Hf1 Hj) as (s2 & R & Hr2 & Hl2 & Hc2 & Hk); [lia|].
    destruct (ide_release (icpu s1) s2 (proj2 Hf1) Hl2 Hc2) as (c' & R' & _).
    exists (with_lock true (with_cpu (icpu s) (with_cpu c' (with_lock false s2)))). split.
    + apply Ho. cbn. by rewrite (bind_eq _ _ _ _ _ R).
    + split; [by eapply related_ext|]. done.
  - cbn in Hm. case_bool_decide as Hj; [|done]. injection Hm as <-.
    exists (with_lock true (with_cpu (icpu s) (with_bufs (alter (fun _ => b) j (bufs s1)) s1))). split; [by apply Ho|]. split; [|done].
    destruct Hr as [Eb Hch Hnd Hw Hd1 Hsz Hac Hmd].
    assert (Hlk : forall k, k ∈ waiting m -> alter (fun _ => b) j (Bio.bufs (cache m)) !! k = Bio.bufs (cache m) !! k).
    { intros k Hk. apply list_lookup_alter_ne. by intros ->. }
    split; try done.
    + cbn. by rewrite Eb.
    + intros k Hk. cbn. rewrite (Hlk k Hk). by apply Hw.
    + cbn [waiting cache Bio.with_bufs ports with_lock with_cpu with_bufs s1]. destruct (waiting m) as [|k q]; [done|].
      cbn. rewrite (Hlk k) by left. exact Hac.
    + intros x. cbn [waiting cache]. etrans; [apply Hmd|]. destruct (waiting m) as [|k q]; [done|]. cbn. by rewrite (Hlk k) by left.
Qed.

Fixpoint interrupts (l : list event) : nat :=
  match l with [] => O | Interrupt :: l' => S (interrupts l') | _ :: l' => interrupts l' end.

Lemma wait_done_ok i env : no_errors -> forall m s ahead behind m',
  related m s -> idelock s = true -> (length (Bio.bufs (cache m)) <= qlen)%nat -> waiting m = ahead ++ i :: behind ->
  mrun env m = Some m' ->
  match wait_done inb_of insl_of polls qlen i env s with
  | Ret rest s' => exists pre m1, env = pre ++ rest /\ interrupts pre = S (length ahead) /\ mrun pre m = Some m1 /\
      related m1 s' /\ idelock s' = true /\ icpu s' = icpu s /\ last (woken s') = Some i
  | Asleep c s' => c = Z.of_nat i /\ (interrupts env <= length ahead)%nat /\ related m' s' /\ idelock s' = false
  | _ => False
  end.
Proof using HD.
  intros Hne. induction env as [|e env IH]; intros m s ahead behind m' Hr Hl Hq Hw Hm.
  - destruct (r_waiting m s Hr i) as (b & Hb & _ & Hvd & _); [rewrite Hw; set_solver|]. cbn [wait_done].
    erewrite (bind_eq (buf_at i)) by (unfold buf_at, bind, get; by rewrite (r_bufs m s Hr), Hb). rewrite Hvd.
    unfold bind, sleep. cbn. split; [done|]. split; [lia|]. injection Hm as <-. split; [|done]. by eapply related_ext.
  - destruct (r_waiting m s Hr i) as (b & Hb & _ & Hvd & _); [rewrite Hw; set_solver|]. cbn [wait_done].
    erewrite (bind_eq (buf_at i)) by (unfold buf_at, bind, get; by rewrite (r_bufs m s Hr), Hb). rewrite Hvd.
    cbn [head]. cbn [mrun] in Hm. destruct (mstep e m) as [m1|] eqn:E; [|done]. cbn in Hm.
    destruct (sleep_ok m m1 s i e Hne Hr Hl Hq E) as (s1 & R & Hr1 & Hl1 & Hc1 & Hint). rewrite (bind_eq _ _ _ _ _ R).
    pose proof (mstep_length e m m1 E) as Hlen.
    assert (Go : forall ahead', waiting m1 = ahead' ++ i :: (match e with Request j => behind ++ [j] | _ => behind end) ->
      length ahead = ((match e with Interrupt => 1 | _ => 0 end) + length ahead')%nat ->
      match wait_done inb_of insl_of polls qlen i env s1 with
      | Ret rest s' => exists pre m1, e :: env = pre ++ rest /\ interrupts pre = S (length ahead) /\ mrun pre m = Some m1 /\
          related m1 s' /\ idelock s' = true /\ icpu s' = icpu s /\ last (woken s') = Some i
      | Asleep c s' => c = Z.of_nat i /\ (interrupts (e :: env) <= length ahead)%nat /\ related m' s' /\ idelock s' = false
      | _ => False
      end).
    { intros ahead' Hw1 Hla. specialize (IH m1 s1 ahead' _ m' Hr1 Hl1 ltac:(lia) Hw1 Hm).
      destruct (wait_done inb_of insl_of polls qlen i env s1) as [rest s'| |c s'| |]; try done.
      - destruct IH as (pre & m2 & -> & Hi & Hm2 & Hr2 & Hl2 & Hc2 & Hk). exists (e :: pre), m2. split; [done|].
        split; [destruct e; cbn [interrupts]; lia|]. split; [cbn; by rewrite E|]. split_and!; try done. congruence.
      - destruct IH as (-> & Hi & ? & ?). split; [done|]. split; [destruct e; cbn [interrupts]; lia|]. done. }
    destruct e as [|j|j bj].
    + destruct (Hint eq_refl) as (Hw1 & Hk & Hv). rewrite Hw in Hw1, Hk, Hv. destruct ahead as [|a ahead].
      * destruct (Hv i) as (b1 & Hb1 & Hd1); [by left|].
        assert (Ed : wait_done inb_of insl_of polls qlen i env s1 = Ret env s1).
        { destruct env; cbn [wait_done]; (erewrite (bind_eq (buf_at i)) by (unfold buf_at, bind, get; by rewrite Hb1)); by rewrite Hd1. }
        rewrite Ed. exists [Interrupt], m1. split; [done|]. split; [done|]. split; [cbn [mrun]; by rewrite E|].
        split_and!; try done. rewrite Hk. apply last_snoc.
      * apply (Go ahead); [exact Hw1|done].
    + cbn in E. destruct (may_request m j); [|done]. injection E as <-. apply (Go ahead); [|done]. cbn. by rewrite Hw, <- app_assoc.
    + cbn in E. case_bool_decide; [|done]. injection E as <-. by apply (Go ahead).
Qed.
End Device.

(** C33: [iderw] of the disk driver against a device that answers as the standard
    says, whatever interrupts come, requests are made and buffers change while
    it sleeps: the requests are served by the memory disk's [iderw], one at an
    interrupt, in the order they were made.  The call returns at the interrupt
    that serves its own request, one more than the requests before it, having
    been woken then; with fewer it sleeps on its buffer with the lock free. *)
Theorem iderw_spec ata0 inb_of insl_of polls qlen m s i env m' :
  ata_device ata0 inb_of insl_of polls -> no_errors inb_of ->
  related ata0 m s -> free_lock s -> (length (Bio.bufs (cache m)) <= qlen)%nat ->
  mrun (Request i :: env) m = Some m' ->
  match iderw inb_of insl_of polls qlen i env s with
  | Ret rest s' => exists pre m1, env = pre ++ rest /\ interrupts pre = S (length (waiting m)) /\
      mrun (Request i :: pre) m = Some m1 /\ related ata0 m1 s' /\ free_lock s' /\ last (woken s') = Some i
  | Asleep c s' => c = Z.of_nat i /\ (interrupts env <= length (waiting m))%nat /\ related ata0 m' s' /\ idelock s' = false
  | _ => False
  end.
Proof.
  intros HD Hne Hr Hf Hq Hm. cbn [mrun mstep] in *. destruct (may_request m i) eqn:Hi; [|done]. cbn in Hm |- *.
  pose proof (waiting_bound _ _ _ _ Hr Hi) as Hb.
  destruct (submit_ok ata0 inb_of insl_of polls qlen HD m s i Hr Hf Hi) as (s1 & R & Hr1 & Hl1 & Hc1 & _); [lia|].
  unfold iderw. rewrite (bind_eq _ _ _ _ _ R).
  pose proof (wait_done_ok ata0 inb_of insl_of polls qlen HD i env Hne _ s1 (waiting m) [] m' Hr1 Hl1 Hq eq_refl Hm) as W.
  unfold bind at 1. destruct (wait_done inb_of insl_of polls qlen i env s1) as [rest s2| |c s2| |]; try done.
  destruct W as (pre & m1 & E & Hp & Hm1 & Hr2 & Hl2 & Hc2 & Hk).
  destruct (ide_release (icpu s) s2 (proj2 Hf) Hl2) as (c' & R' & Hn); [congruence|]. rewrite (bind_eq _ _ _ _ _ R').
  exists pre, m1. split; [done|]. split; [done|]. split; [done|]. split; [by eapply related_ext|]. split; [done|]. done.
Qed.

(** A disk, one buffer and one request. *)
Definition ata1 : ata := {| reg := fun _ => 0; cmd := None; media := fun _ x => replicate 512 (u8 x) |}.
Definition status1 (h : list access) (port : Z) : Z := 0x40.
Definition data1 (h : list access) (port : Z) : list Z :=
  match cmd (ata_of ata1 h) with Some (_, _, u, x) => media (ata_of ata1 h) u x | None => [] end.
Definition buf1 : Bio.buf :=
  {| Bio.valid := false; Bio.dirty := false; Bio.dev := 1; Bio.blockno := 7; Bio.refcnt := 1; Bio.locked := true; Bio.bdata := [] |}.
Definition cpu1 : Cli.cpu := {| Cli.ncli := 0; Cli.intena := true; Cli.intr := true |}.
Definition model1 : model :=
  {| cache := {| Bio.bufs := [buf1]; Bio.order := [0%nat]; Bio.bclk := false; Bio.bcpu := cpu1;
                 Bio.disk := media ata1 1; Bio.disksize := 1000; Bio.writes := [] |}; waiting := [] |}.
Definition ist1 : ist :=
  {| bufs := [buf1]; qnext := fun _ => None; idequeue := None; havedisk1 := true; ports := []; idelock := false;
     icpu := cpu1; woken := [] |}.

Lemma device1 : ata_device ata1 status1 data1 1.
Proof. split; [intros h; exists 0%nat; split; [lia|reflexivity]|]. intros h u x E. unfold data1. by rewrite E. Qed.
Lemma related1 : related ata1 model1 ist1.
Proof. split; try done; [constructor|]. intros i Hi. by apply not_elem_of_nil in Hi. Qed.
Lemma free_lock1 : free_lock ist1.
Proof. split; [reflexivity|]. split; cbn; [lia|]. intros H. lia. Qed.

Lemma iderw_spec_witness : exists rest s',
  iderw status1 data1 1 1 0 [Interrupt] ist1 = Ret rest s' /\ last (woken s') = Some 0%nat.
Proof.
  assert (E : is_Some (mrun [Request 0; Interrupt] model1)) by (eexists; reflexivity). destruct E as [m' E].
  pose proof (iderw_spec ata1 status1 data1 1 1 model1 ist1 0 [Interrupt] m' device1 (fun _ => eq_refl) related1 free_lock1 ltac:(cbn; lia) E) as H.
  destruct (iderw status1 data1 1 1 0 [Interrupt] ist1) as [rest s'| |c s'| |].
  - destruct H as (pre & m1 & _ & _ & _ & _ & _ & Hk). exists rest, s'. split; [reflexivity|exact Hk].
  - destruct H.
  - destruct H as (_ & Hi & _). cbn in Hi. lia.
  - destruct H.
  - destruct H.
Defined.

(** C39: When the disk reports an error after a read, [ideintr] skips the transfer
    and still sets [B_VALID]: the reader goes on with what the buffer held
    before, and nobody is told. *)
Theorem ideintr_error_ignored inb_of insl_of polls s i b :
  free_lock s -> idequeue s = Some i -> qnext s i = None -> bufs s !! i = Some b -> Bio.dirty b = false -> (0 < polls)%nat ->
  (forall h, Z.land (inb_of h 0x1f7) 0xc0 = 0x40) -> (forall h, Z.land (inb_of h 0x1f7) 0x21 <> 0) ->
  exists s', ideintr inb_of insl_of polls s = Ret tt s' /\ bufs s' !! i = Some (Bio.set_flags true false b) /\
    Forall (fun a => match a with In _ _ => True | _ => False end) (drop (length (ports s)) (ports s')) /\
    woken s' = woken s ++ [i] /\ idelock s' = false.
Proof.
  intros Hf Hi Hn Hb Hd Hp Hr He. unfold ideintr. rewrite (bind_eq _ _ _ _ _ (ide_acquire s Hf)). erewrite (bind_eq get) by reflexivity.
  set (s1 := with_lock true (with_cpu (CliFacts.inside (icpu s)) s)). change (idequeue s1) with (idequeue s). rewrite Hi.
  erewrite (bind_eq (modify _)) by reflexivity. erewrite (bind_eq (buf_at i)) by (unfold buf_at, bind, get; cbn; by rewrite Hb). rewrite Hd. cbn [negb].
  set (s2 := with_idequeue (qnext s1 i) s1). set (a := In 0x1f7 (inb_of (ports s) 0x1f7)).
  assert (Er : idewait inb_of polls true s2 = Ret (-1) (with_ports (ports s ++ [a]) s2)).
  { unfold idewait. destruct polls as [|n]; [lia|]. cbn [wait_status].
    assert (Es : forall k : Z -> M ist Z, bind (bind (inb inb_of 0x1f7) (fun r => if Z.land r (Z.lor IDE_BSY IDE_DRDY) =? IDE_DRDY then ret r else wait_status inb_of n)) k s2
      = k (inb_of (ports s) 0x1f7) (with_ports (ports s ++ [a]) s2)).
    { intros k. unfold bind at 1. rewrite (bind_eq _ _ _ _ _ (inb_ok inb_of _ s2)). change (Z.lor IDE_BSY IDE_DRDY) with 0xc0.
      change (ports s2) with (ports s). by rewrite Hr. }
    rewrite Es. change (Z.lor IDE_DF IDE_ERR) with 0x21. by rewrite (proj2 (Z.eqb_neq _ _) (He (ports s))). }
  assert (Ew : (let! r := idewait inb_of polls true in
      if r >=? 0 then let! l := insl insl_of 0x1f0 in upd i (Bio.set_bdata l) else ret tt) s2 = Ret tt (with_ports (ports s ++ [a]) s2))
    by (by rewrite (bind_eq _ _ _ _ _ Er)).
  rewrite (bind_eq _ _ _ _ _ Ew). unfold upd, wakeup. do 3 (erewrite (bind_eq (modify _)) by reflexivity). erewrite (bind_eq get) by reflexivity.
  cbn [idequeue with_woken with_bufs with_ports s2 with_idequeue]. change (qnext s1 i) with (qnext s i). rewrite Hn.
  erewrite (bind_eq (ret tt)) by reflexivity.
  match goal with |- context [release ?x] => destruct (ide_release (icpu s) x (proj2 Hf) eq_refl eq_refl) as (c' & R & _) end.
  eexists. split; [exact R|]. cbn. split.
  - rewrite alter_alter. rewrite (alter_insert _ _ _ _ Hb), list_lookup_insert_eq by (by eapply lookup_lt_Some). cbn. by rewrite Hd.
  - rewrite drop_app_length. split; [by repeat constructor|]. done.
Qed.

Lemma ideintr_error_ignored_witness : exists s',
  ideintr (fun _ _ => 0x41) data1 1 (with_idequeue (Some 0%nat) ist1) = Ret tt s' /\ bufs s' !! 0%nat = Some (Bio.set_flags true false buf1).
Proof.
  destruct (ideintr_error_ignored (fun _ _ => 0x41) data1 1 (with_idequeue (Some 0%nat) ist1) 0 buf1) as (s' & R & Hb & _).
  - split; [reflexivity|exact (proj2 free_lock1)].
  - reflexivity.
  - reflexivity.
  - reflexivity.
  - reflexivity.
  - lia.
  - reflexivity.
  - intros h E. discriminate E.
  - exists s'. split; [exact R|exact Hb].
Defined.
