(* ===== verification/Boot.v ===== *)
(** * The boot loader

    [bootmain.c]: the kernel, an ELF image from sector 1 of the disk on, is read
    to the physical addresses of its program headers.  The disk is a device
    behind ports, as for the driver of [Ide]. *)

From S2P Require Import Prelude CString Ide.

Module Boot.

Definition SECTSIZE : Z := 512.
Definition ELF_MAGIC : Z := 0x464C457F.

(** Physical memory, and the accesses made to ports. *)
Record bst := { memory : mem; ports : list Ide.access }.
Definition with_memory m s := {| memory := m; ports := ports s |}.
Definition with_ports l s := {| memory := memory s; ports := l |}.

(** [insl]: bytes into memory. *)
Definition store (m : mem) (a : Z) (l : list Z) : mem :=
  fun x => if (a <=? x) && (x <? a + Z.of_nat (length l)) then nth (Z.to_nat (x - a)) l 0 else m x.
Definition ld16 (m : mem) (a : Z) : Z := m a + 256 * m (a + 1).

Section Disk.
Context (inb_of : list Ide.access -> Z -> Z) (insl_of : list Ide.access -> Z -> list Z) (polls : nat).

Definition outb (port v : Z) : M bst unit := modify (fun s => with_ports (ports s ++ [Ide.Out port (u8 v)]) s).

Fixpoint waitdisk (fuel : nat) : M bst unit :=
  match fuel with
  | O => fun _ => NoFuel
  | S fuel' =>
      let! s := get in
      let v := inb_of (ports s) 0x1F7 in
      modify (fun s => with_ports (ports s ++ [Ide.In 0x1F7 v]) s) ;;;
      if negb (Z.land v 0xC0 =? 0x40) then waitdisk fuel' else ret tt
  end.

Definition readsect (dst offset : Z) : M bst unit :=
  waitdisk polls ;;;
  outb 0x1F2 1 ;;;
  outb 0x1F3 offset ;;;
  outb 0x1F4 (Z.shiftr offset 8) ;;;
  outb 0x1F5 (Z.shiftr offset 16) ;;;
  outb 0x1F6 (Z.lor (Z.shiftr offset 24) 0xE0) ;;;
  outb 0x1F7 0x20 ;;;
  waitdisk polls ;;;
  let! s := get in
  let l := insl_of (ports s) 0x1F0 in
  modify (fun s => with_ports (ports s ++ [Ide.Ins 0x1F0 l]) s) ;;;
  modify (fun s => with_memory (store (memory s) dst l) s).

Fixpoint read_loop (fuel : nat) (pa epa offset : Z) : M bst unit :=
  match fuel with
  | O => fun _ => NoFuel
  | S fuel' =>
      if pa <? epa then readsect pa offset ;;; read_loop fuel' (u32 (pa + SECTSIZE)) epa (u32 (offset + 1)) else ret tt
  end.

Definition readseg (fuel : nat) (pa count offset : Z) : M bst unit :=
  let epa := u32 (pa + count) in
  let pa := u32 (pa - offset mod SECTSIZE) in
  let offset := u32 (offset / SECTSIZE + 1) in
  read_loop fuel pa epa offset.

(** The program header at [ph]; the next one is 32 bytes on. *)
Fixpoint load_segments (fuel n : nat) (ph : Z) : M bst unit :=
  match n with
  | O => ret tt
  | S n' =>
      let! s := get in
      let pa := ld32 (memory s) (ph + 12) in
      readseg fuel pa (ld32 (memory s) (ph + 16)) (ld32 (memory s) (ph + 4)) ;;;
      let! s := get in
      (if ld32 (memory s) (ph + 20) >? ld32 (memory s) (ph + 16) then
         modify (fun s => with_memory (Str.stosb (memory s) (pa + ld32 (memory s) (ph + 16)) 0
           (ld32 (memory s) (ph + 20) - ld32 (memory s) (ph + 16))) s)
       else ret tt) ;;;
      load_segments fuel n' (ph + 32)
  end.

(** The entry point that is called, or nothing when the image is no ELF file. *)
Definition bootmain (fuel : nat) : M bst (option Z) :=
  let elf := 0x10000 in
  readseg fuel elf 4096 0 ;;;
  let! s := get in
  if negb (ld32 (memory s) elf =? ELF_MAGIC) then ret None
  else
    let ph := elf + ld32 (memory s) (elf + 28) in
    load_segments fuel (Z.to_nat (ld16 (memory s) (elf + 44))) ph ;;;
    let! s := get in
    ret (Some (ld32 (memory s) (elf + 24))).
End Disk.

End Boot.
