(* ===== verification/BootFacts.v ===== *)
(** * The boot loader: what it leaves in memory

    Against a device that answers as the ATA standard says: [readseg] brings the
    bytes asked for, and [bootmain] every segment of an image whose segments do
    not run into one another. *)

From Stdlib Require Import Sorted.
From S2P Require Import Prelude CString Ide IdeFacts Boot.
Import Boot.

Section Disk.
Context (ata0 : ata) (inb_of : list Ide.access -> Z -> Z) (insl_of : list Ide.access -> Z -> list Z) (polls : nat).
Hypothesis HD : ata_device ata0 inb_of insl_of polls.

(** The sectors of disk 0, and the bytes of the kernel from sector 1 on. *)
Context (sector : Z -> list Z).
Hypothesis Hsec : forall x, length (sector x) = 512%nat.
Definition image (k : Z) : Z := nth (Z.to_nat (k mod 512)) (sector (k / 512 + 1)) 0.

Definition holds_disk (s : bst) : Prop := forall x, media (ata_of ata0 (ports s)) 0 x = sector x.

Lemma waitdisk_ok n : forall fuel s, ready_after inb_of n (ports s) -> (n < fuel)%nat ->
  exists l, waitdisk inb_of fuel s = Ret tt (with_ports (ports s ++ l) s) /\ quiet l.
Proof using.
  induction n as [|n IH]; intros [|fuel] s Hr Hf; try lia; cbn [waitdisk]; erewrite (bind_eq get) by reflexivity;
    erewrite (bind_eq (modify _)) by reflexivity; cbn [ready_after] in Hr.
  - rewrite Hr. exists [Ide.In 0x1F7 (inb_of (ports s) 0x1F7)]. split; [done|by repeat constructor].
  - destruct (Z.eqb_spec (Z.land (inb_of (ports s) 0x1F7) 0xC0) 0x40) as [E|E]; cbn [negb].
    + exists [Ide.In 0x1F7 (inb_of (ports s) 0x1F7)]. split; [done|by repeat constructor].
    + destruct (IH fuel (with_ports (ports s ++ [Ide.In 0x1F7 (inb_of (ports s) 0x1F7)]) s)) as (l & R & Q); [by apply Hr|lia|].
      exists ([Ide.In 0x1F7 (inb_of (ports s) 0x1F7)] ++ l). split; [rewrite app_assoc; exact R|by constructor].
Qed.

Lemma wait_ok s : exists l, waitdisk inb_of polls s = Ret tt (with_ports (ports s ++ l) s) /\ quiet l.
Proof using HD. destruct (dev_ready _ _ _ _ HD (ports s)) as (n & Hn & Hr). by apply (waitdisk_ok n). Qed.

Lemma sector_bytes x : 0 <= x < 16777216 ->
  u8 x + 256 * u8 (Z.shiftr x 8) + 65536 * u8 (Z.shiftr x 16) = x /\ Z.shiftr x 24 = 0.
Proof using.
  intros H. rewrite !Z.shiftr_div_pow2 by lia. change (2 ^ 8) with 256. change (2 ^ 16) with 65536. change (2 ^ 24) with 16777216.
  unfold u8. rewrite (Z.div_small x 16777216) by lia. split; [|done].
  replace (x / 65536) with (x / 256 / 256) by (rewrite Z.div_div by lia; done).
  pose proof (Z.div_mod x 256). pose proof (Z.div_mod (x / 256) 256).
  assert (0 <= x / 256 / 256 < 256) by (rewrite Z.div_div by lia; split; [apply Z.div_pos|apply Z.div_lt_upper_bound]; lia).
  rewrite (Z.mod_small (x / 256 / 256)) by lia. lia.
Qed.

Lemma readsect_ok s dst off : holds_disk s -> 0 <= off < 16777216 -> exists s',
  readsect inb_of insl_of polls dst off s = Ret tt s' /\ memory s' = store (memory s) dst (sector off) /\ holds_disk s'.
Proof using HD.
  intros Hs Ho. unfold readsect. destruct (wait_ok s) as (l & R & Q). rewrite (bind_eq _ _ _ _ _ R).
  destruct (sector_bytes off Ho) as [E1 E2]. rewrite E2. unfold outb. change (u8 1) with 1. change (u8 0x20) with 32. change (u8 (Z.lor 0 0xE0)) with 224.
  revert E1. generalize (u8 off) (u8 (Z.shiftr off 8)) (u8 (Z.shiftr off 16)). intros x y z E1.
  do 6 (erewrite (bind_eq (modify _)) by reflexivity). cbn [ports with_ports]. rewrite <- !app_assoc. cbn [app].
  set (l1 := l ++ [Ide.Out 498 1; Ide.Out 499 x; Ide.Out 500 y; Ide.Out 501 z; Ide.Out 502 224; Ide.Out 503 32]).
  match goal with |- context [bind _ _ ?s1] => set (s1' := s1) end.
  destruct (wait_ok s1') as (l2 & R2 & Q2). rewrite (bind_eq _ _ _ _ _ R2). erewrite (bind_eq get) by reflexivity.
  assert (Ea : forall h, quiet h -> forall v w, media (ata_of ata0 (ports s ++ l1 ++ h)) v w = media (ata_of ata0 (ports s)) v w /\
    cmd (ata_of ata0 (ports s ++ l1 ++ h)) = Some (32, 1, 0, off)).
  { intros h Qh v w. rewrite app_assoc, (ata_quiet ata0 _ _ Qh). unfold l1. rewrite app_assoc. unfold ata_of at 1 3. rewrite foldl_app.
    fold (ata_of ata0 (ports s ++ l)). rewrite (ata_quiet ata0 _ _ Q). cbn -[Z.add Z.mul]. unfold unit_reg, sector_reg. cbn -[Z.add Z.mul].
    change (Z.land 224 15) with 0. change (Z.land (Z.shiftr 224 4) 1) with 0. rewrite Z.mul_0_r, Z.add_0_r, E1. done. }
  do 1 (erewrite (bind_eq (modify _)) by reflexivity). eexists. split; [reflexivity|]. cbn [memory ports with_memory with_ports s1'].
  assert (Ep : (ports s ++ l1) ++ l2 = ports s ++ l1 ++ l2) by (by rewrite app_assoc).
  rewrite Ep. split.
  - f_equal. rewrite (dev_data _ _ _ _ HD _ 0 off); [|exact (proj2 (Ea l2 Q2 0 0))]. rewrite (proj1 (Ea l2 Q2 0 off)). apply Hs.
  - intros v. cbn [ports with_memory with_ports]. rewrite <- !app_assoc. rewrite (proj1 (Ea (l2 ++ [Ide.Ins 0x1F0 (insl_of (ports s ++ l1 ++ l2) 0x1F0)]) ltac:(apply Forall_app; split; [done|by repeat constructor]) 0 v)). apply Hs.
Qed.

(** ** A segment *)

(** The sectors read from [pa] to reach [epa]. *)
Definition nsectors (pa epa : Z) : Z := Z.max 0 ((epa - pa + 511) / 512).

Lemma nsectors_step pa epa : pa < epa -> nsectors pa epa = 1 + nsectors (pa + 512) epa.
Proof using.
  intros H. unfold nsectors. replace (epa - (pa + 512) + 511) with (epa - pa - 1) by lia.
  replace (epa - pa + 511) with (epa - pa - 1 + 1 * 512) by lia. rewrite Z.div_add by lia.
  pose proof (Z.div_pos (epa - pa - 1) 512 ltac:(lia) ltac:(lia)). lia.
Qed.

Lemma nsectors_none pa epa : epa <= pa -> nsectors pa epa = 0.
Proof using.
  intros H. unfold nsectors. assert ((epa - pa + 511) / 512 < 1) by (apply Z.div_lt_upper_bound; lia). lia.
Qed.

Lemma nsectors_cover pa epa : epa <= pa + 512 * nsectors pa epa /\ 512 * nsectors pa epa < Z.max 512 (epa - pa + 512) /\ 0 <= nsectors pa epa.
Proof using.
  unfold nsectors. pose proof (Z.div_mod (epa - pa + 511) 512 ltac:(lia)). pose proof (Z.mod_pos_bound (epa - pa + 511) 512 ltac:(lia)). lia.
Qed.

Lemma sectors_ok epa fuel : forall s pa off, holds_disk s -> 0 <= pa -> 0 <= off -> epa + 512 < 4294967296 ->
  off + Z.of_nat fuel < 16777216 -> epa <= pa + 512 * (Z.of_nat fuel - 1) -> (0 < fuel)%nat -> exists s',
  read_loop inb_of insl_of polls fuel pa epa off s = Ret tt s' /\ holds_disk s' /\
  forall x, memory s' x = if (pa <=? x) && (x <? pa + 512 * nsectors pa epa)
    then nth (Z.to_nat ((x - pa) mod 512)) (sector (off + (x - pa) / 512)) 0 else memory s x.
Proof using HD Hsec.
  induction fuel as [|fuel IH]; intros s pa off Hs Hp Ho He Hof Hf H0; [lia|]. cbn [read_loop]. destruct (Z.ltb_spec pa epa) as [Hlt|Hge].
  - destruct (readsect_ok s pa off Hs ltac:(lia)) as (s1 & R1 & M1 & H1). rewrite (bind_eq _ _ _ _ _ R1).
    unfold SECTSIZE. rewrite !u32_small by lia.
    destruct (IH s1 (pa + 512) (off + 1)) as (s2 & R2 & H2 & M2); [done|lia..|].
    exists s2. split; [exact R2|]. split; [done|]. intros x. rewrite M2, (nsectors_step pa epa Hlt), M1. unfold store. rewrite Hsec.
    pose proof (nsectors_cover (pa + 512) epa) as (_ & _ & Hn).
    destruct (Z.leb_spec pa x); cbn [andb].
    2:{ rewrite (proj2 (Z.leb_gt (pa + 512) x)) by lia. done. }
    destruct (Z.leb_spec (pa + 512) x) as [Hx|Hx]; cbn [andb].
    + replace (pa + 512 * (1 + nsectors (pa + 512) epa)) with (pa + 512 + 512 * nsectors (pa + 512) epa) by lia.
      rewrite (proj2 (Z.ltb_ge x (pa + Z.of_nat 512))) by lia.
      case_match; [|done]. replace (x - pa) with (x - (pa + 512) + 1 * 512) by lia. rewrite Z.mod_add, Z.div_add by lia. by rewrite <- Z.add_assoc, (Z.add_comm 1).
    + rewrite (proj2 (Z.ltb_lt x (pa + Z.of_nat 512))), (proj2 (Z.ltb_lt x (pa + 512 * _))) by lia.
      rewrite Z.mod_small, Z.div_small, Z.add_0_r by lia. done.
  - exists s. split; [done|]. split; [done|]. intros x. rewrite (nsectors_none pa epa Hge). destruct (Z.leb_spec pa x), (Z.ltb_spec x (pa + 512 * 0)); cbn [andb]; try done. lia.
Qed.

(** [readseg]: the sectors that hold the bytes, which may begin below [pa] and
    end above. *)
Definition lowest (pa off : Z) : Z := pa - off mod 512.
Definition highest (pa count off : Z) : Z := lowest pa off + 512 * nsectors (lowest pa off) (pa + count).

Lemma readseg_ok s pa count off fuel : holds_disk s -> off mod 512 <= pa -> 0 <= off -> 0 <= count -> pa + count + 512 < 4294967296 ->
  off + count < 4294967296 -> count + 1024 <= 512 * Z.of_nat fuel -> Z.of_nat fuel < 8388607 -> exists s',
  readseg inb_of insl_of polls fuel pa count off s = Ret tt s' /\ holds_disk s' /\
  forall x, memory s' x = if (lowest pa off <=? x) && (x <? highest pa count off) then image (off + (x - pa)) else memory s x.
Proof using HD Hsec.
  intros Hs Hd Ho Hc Hp Hoc Hf Hf2. unfold readseg, SECTSIZE. pose proof (Z.mod_pos_bound off 512 ltac:(lia)). pose proof (Z.div_mod off 512 ltac:(lia)).
  rewrite !u32_small by lia.
  destruct (sectors_ok (pa + count) fuel s (pa - off mod 512) (off / 512 + 1)) as (s' & R & Hs' & M); try lia; [done|].
  exists s'. split; [exact R|]. split; [done|]. intros x. rewrite M. fold (lowest pa off). fold (highest pa count off). case_match; [|done].
  unfold image. assert (E : off + (x - pa) = x - lowest pa off + off / 512 * 512) by (unfold lowest; lia).
  rewrite E, Z.mod_add, Z.div_add by lia. do 2 f_equal. lia.
Qed.

(** ** All of them *)

Record seg := { g_off : Z; g_pa : Z; g_filesz : Z; g_memsz : Z }.
Definition seg_at (m : mem) (ph : Z) : seg :=
  {| g_off := ld32 m (ph + 4); g_pa := ld32 m (ph + 12); g_filesz := ld32 m (ph + 16); g_memsz := ld32 m (ph + 20) |}.

(** The bytes a segment occupies, and the ones its loading may change. *)
Definition seg_end (g : seg) : Z := g_pa g + Z.max (g_filesz g) (g_memsz g).
Definition lo (g : seg) : Z := lowest (g_pa g) (g_off g).
Definition hi (g : seg) : Z := Z.max (seg_end g) (highest (g_pa g) (g_filesz g) (g_off g)).

Definition seg_ok (fuel : nat) (g : seg) : Prop :=
  0 <= g_off g /\ g_off g mod 512 <= g_pa g /\ 0 <= g_filesz g /\ 0 <= g_memsz g /\ g_pa g + g_filesz g + 512 < 4294967296 /\
  g_off g + g_filesz g < 4294967296 /\ g_filesz g + 1024 <= 512 * Z.of_nat fuel.
(** A segment after [g] leaves [g] alone, and the headers are left alone. *)
Definition apart (g g' : seg) : Prop := hi g' <= g_pa g \/ seg_end g <= lo g'.
Definition spares (a b : Z) (g : seg) : Prop := hi g <= a \/ b <= lo g.

Definition loaded (m : mem) (g : seg) : Prop :=
  (forall x, g_pa g <= x < g_pa g + g_filesz g -> m x = image (g_off g + (x - g_pa g))) /\
  (forall x, g_pa g + g_filesz g <= x < g_pa g + g_memsz g -> m x = 0).

Lemma seg_at_ext m m' ph : (forall x, ph <= x < ph + 32 -> m' x = m x) -> seg_at m' ph = seg_at m ph.
Proof using. intros H. unfold seg_at. f_equal; apply ld32_ext; intros x Hx; apply H; lia. Qed.

Lemma load_segments_ok fuel a b n : forall s ph segs, holds_disk s -> Z.of_nat fuel < 8388607 ->
  (forall i, (i < n)%nat -> segs !! i = Some (seg_at (memory s) (ph + 32 * Z.of_nat i))) -> length segs = n ->
  a <= ph -> ph + 32 * Z.of_nat n <= b -> Forall (seg_ok fuel) segs -> Forall (spares a b) segs -> StronglySorted apart segs ->
  exists s', load_segments inb_of insl_of polls fuel n ph s = Ret tt s' /\ holds_disk s' /\ Forall (loaded (memory s')) segs /\
    forall x, Forall (fun g => x < lo g \/ hi g <= x) segs -> memory s' x = memory s x.
Proof using HD Hsec.
  induction n as [|n IH]; intros s ph segs Hs Hf2 Hh Hlen Ha Hb Hok Hsp Hap.
  { destruct segs; [|done]. exists s. split; [done|]. split; [done|]. split; [constructor|done]. }
  destruct segs as [|g segs]; [done|]. pose proof (Hh O ltac:(lia)) as Hg. cbn in Hg. injection Hg as Hg. rewrite Z.add_0_r in Hg.
  apply Forall_cons in Hok as [Hokg Hok]. apply Forall_cons in Hsp as [Hspg Hsp]. apply StronglySorted_inv in Hap as [Hap Hgap].
  destruct Hokg as (H1 & H2 & H3 & H4 & H5 & H6 & H7). cbn [load_segments]. erewrite (bind_eq get) by reflexivity.
  assert (Eoff : ld32 (memory s) (ph + 4) = g_off g) by (by rewrite Hg). assert (Epa : ld32 (memory s) (ph + 12) = g_pa g) by (by rewrite Hg).
  assert (Efs : ld32 (memory s) (ph + 16) = g_filesz g) by (by rewrite Hg). assert (Ems : ld32 (memory s) (ph + 20) = g_memsz g) by (by rewrite Hg).
  rewrite Eoff, Epa, Efs. destruct (readseg_ok s (g_pa g) (g_filesz g) (g_off g) fuel Hs H2 H1 H3 H5 H6 H7 Hf2) as (s1 & R1 & Hs1 & M1).
  rewrite (bind_eq _ _ _ _ _ R1). erewrite (bind_eq get) by reflexivity.
  fold (lo g) in M1. assert (Hhi : highest (g_pa g) (g_filesz g) (g_off g) <= hi g) by (unfold hi; lia).
  assert (Hlo : lo g <= g_pa g) by (unfold lo, lowest; pose proof (Z.mod_pos_bound (g_off g) 512); lia).
  assert (Hhf : g_pa g + g_filesz g <= highest (g_pa g) (g_filesz g) (g_off g)).
  { unfold highest. apply nsectors_cover. }
  assert (Fr1 : forall x, x < lo g \/ hi g <= x -> memory s1 x = memory s x).
  { intros x Hx. rewrite M1. destruct (Z.leb_spec (lo g) x), (Z.ltb_spec x (highest (g_pa g) (g_filesz g) (g_off g))); cbn [andb]; try done. lia. }
  assert (Hhdr : forall x, a <= x < b -> memory s1 x = memory s x) by (intros x Hx; apply Fr1; destruct Hspg; lia).
  assert (Eh : seg_at (memory s1) ph = g) by (rewrite Hg; apply seg_at_ext; intros x Hx; apply Hhdr; lia).
  assert (Efs1 : ld32 (memory s1) (ph + 16) = g_filesz g) by (by rewrite <- Eh). assert (Ems1 : ld32 (memory s1) (ph + 20) = g_memsz g) by (by rewrite <- Eh).
  rewrite Efs1, Ems1.
  assert (Z2 : exists s2, (if g_memsz g >? g_filesz g then modify (fun s => with_memory (Str.stosb (memory s) (g_pa g + ld32 (memory s) (ph + 16)) 0
      (ld32 (memory s) (ph + 20) - ld32 (memory s) (ph + 16))) s) else ret tt) s1 = Ret tt s2 /\ holds_disk s2 /\ loaded (memory s2) g /\
      forall x, x < lo g \/ hi g <= x -> memory s2 x = memory s x).
  { assert (Hl1 : forall x, g_pa g <= x < g_pa g + g_filesz g -> memory s1 x = image (g_off g + (x - g_pa g))).
    { intros x Hx. rewrite M1, (proj2 (Z.leb_le _ _)), (proj2 (Z.ltb_lt _ _)) by lia. done. }
    destruct (Z.gtb_spec (g_memsz g) (g_filesz g)) as [Hgt|Hle].
    - eexists. split; [unfold modify; rewrite Efs1, Ems1; reflexivity|]. split; [exact Hs1|]. cbn [memory with_memory]. unfold Str.stosb. split.
      + split; intros x Hx.
        * destruct (Z.leb_spec (g_pa g + g_filesz g) x); [lia|]. cbn [andb]. by apply Hl1.
        * rewrite (proj2 (Z.leb_le _ _)), (proj2 (Z.ltb_lt _ _)) by lia. done.
      + intros x Hx. assert (seg_end g <= hi g) by (unfold hi; lia). unfold seg_end in *.
        destruct (Z.leb_spec (g_pa g + g_filesz g) x), (Z.ltb_spec x (g_pa g + g_filesz g + (g_memsz g - g_filesz g))); cbn [andb]; try (by apply Fr1). lia.
    - exists s1. split; [done|]. split; [done|]. split; [|done]. split; [done|]. intros x Hx. lia. }
  destruct Z2 as (s2 & R2 & Hs2 & L2 & Fr2). rewrite (bind_eq _ _ _ _ _ R2).
  destruct (IH s2 (ph + 32) segs Hs2 Hf2) as (s3 & R3 & Hs3 & L3 & Fr3); try done; [|by injection Hlen|lia|lia|].
  { intros i Hi. pose proof (Hh (S i) ltac:(lia)) as Hgi. change ((g :: segs) !! S i) with (segs !! i) in Hgi.
    rewrite Hgi. f_equal. replace (ph + 32 + 32 * Z.of_nat i) with (ph + 32 * Z.of_nat (S i)) by lia. symmetry. apply seg_at_ext.
    intros x Hx. apply Fr2. destruct Hspg; lia. }
  exists s3. split; [exact R3|]. split; [done|]. split.
  - constructor; [|done]. assert (Hk : forall x, g_pa g <= x < seg_end g -> memory s3 x = memory s2 x).
    { intros x Hx. apply Fr3. eapply Forall_impl; [exact Hgap|]. intros g' Hg'. unfold apart in Hg'. lia. }
    destruct L2 as [La Lb]. unfold seg_end in Hk. split; intros x Hx; rewrite Hk by lia; [by apply La|by apply Lb].
  - intros x Hx. apply Forall_cons in Hx as [Hx Hxs]. rewrite (Fr3 x Hxs). by apply Fr2.
Qed.
End Disk.

(** [bootmain] on a disk whose kernel is an ELF file with its program headers in
    the first page: the entry point is called with every segment in memory, its
    bytes from the file and zero behind them, provided that the sectors read for
    a segment, which begin below it and end above, spare the segments before it
    and the page of the headers.  On anything else it returns. *)
Theorem bootmain_spec ata0 inb_of insl_of polls sector s fuel segs :
  ata_device ata0 inb_of insl_of polls -> (forall x, length (sector x) = 512%nat) -> holds_disk ata0 sector s ->
  (10 <= fuel)%nat -> Z.of_nat fuel < 8388607 ->
  let file := image sector in
  let phoff := ld32 file 28 in
  let n := Z.to_nat (ld16 file 44) in
  segs = map (fun i => seg_at file (phoff + 32 * Z.of_nat i)) (seq 0 n) -> 0 <= phoff -> phoff + 32 * Z.of_nat n <= 4096 -> 46 <= phoff ->
  Forall (seg_ok fuel) segs -> Forall (spares 0x10000 0x11000) segs -> StronglySorted apart segs ->
  exists s', bootmain inb_of insl_of polls fuel s =
      Ret (if ld32 file 0 =? ELF_MAGIC then Some (ld32 file 24) else None) s' /\
    (ld32 file 0 = ELF_MAGIC -> Forall (loaded sector (memory s')) segs).
Proof.
  intros HD Hsec Hs Hf1 Hf2 file phoff n Hsegs Hp0 Hpn Hp46 Hok Hsp Hap. unfold bootmain.
  destruct (readseg_ok ata0 inb_of insl_of polls HD sector Hsec s 0x10000 4096 0 fuel Hs) as (s1 & R1 & Hs1 & M1); try lia; [change (0 mod 512) with 0; lia|].
  rewrite (bind_eq _ _ _ _ _ R1). erewrite (bind_eq get) by reflexivity.
  assert (Hm : forall k x, 0 <= k -> x = 0x10000 + k -> k < 4096 -> memory s1 x = file k).
  { intros k x Hk -> Hk2. rewrite M1. unfold lowest, highest. change (0 mod 512) with 0. change (0x10000 - 0) with 0x10000.
    change (nsectors (lowest 0x10000 0) (0x10000 + 4096)) with 8. unfold lowest. change (0 mod 512) with 0.
    rewrite (proj2 (Z.leb_le _ _)), (proj2 (Z.ltb_lt _ _)) by lia. cbn [andb]. unfold file. f_equal. lia. }
  assert (L : forall k, 0 <= k -> k + 4 <= 4096 -> ld32 (memory s1) (0x10000 + k) = ld32 file k).
  { intros k H1 H2. unfold ld32. rewrite (Hm k), (Hm (k + 1)), (Hm (k + 2)), (Hm (k + 3)) by lia. done. }
  change 0x10000 with (0x10000 + 0) at 1. rewrite L by lia. destruct (Z.eqb_spec (ld32 file 0) ELF_MAGIC) as [Hmg|Hmg]; cbn [negb].
  2:{ exists s1. split; [done|]. by intros ?. }
  rewrite (L 28) by lia. fold phoff.
  assert (En : ld16 (memory s1) (0x10000 + 44) = ld16 file 44) by (unfold ld16; rewrite (Hm 44), (Hm (44 + 1)) by lia; done).
  rewrite En. fold n.
  destruct (load_segments_ok ata0 inb_of insl_of polls HD sector Hsec fuel 0x10000 0x11000 n s1 (0x10000 + phoff) segs Hs1 Hf2) as (s2 & R2 & Hs2 & L2 & Fr2);
    try done; try lia.
  - intros i Hi. rewrite Hsegs. rewrite list_lookup_fmap, lookup_seq_lt by lia. cbn [fmap option_fmap option_map]. f_equal. rewrite Nat.add_0_l.
    assert (E : forall k, 0 <= k -> k + 4 <= 32 -> ld32 (memory s1) (0x10000 + phoff + 32 * Z.of_nat i + k) = ld32 file (phoff + 32 * Z.of_nat i + k)).
    { intros k H1 H2. rewrite <- L by lia. f_equal. lia. }
    unfold seg_at. by rewrite !E by lia.
  - rewrite Hsegs. by rewrite length_map, length_seq.
  - rewrite (bind_eq _ _ _ _ _ R2). erewrite (bind_eq get) by reflexivity. exists s2. split; [|by intros _].
    unfold ret. do 2 f_equal. rewrite <- L by lia. apply ld32_ext. intros x Hx. apply Fr2. eapply Forall_impl; [exact Hsp|].
    intros g Hg. unfold spares in Hg. lia.
Qed.

(** A kernel of one segment of eight bytes, four of them in the file. *)
Definition sector1 (x : Z) : list Z :=
  foldl (fun l p => <[Z.to_nat p.1 := p.2]> l) (replicate 512 0)
    (if x =? 1 then [(0, 0x7F); (1, 0x45); (2, 0x4C); (3, 0x46); (26, 0x10); (28, 52); (44, 1); (57, 2); (66, 0x10); (68, 4); (72, 8)]
     else if x =? 2 then [(0, 1); (1, 2); (2, 3); (3, 4)] else []).
Definition boot_ata : ata := {| reg := fun _ => 0; cmd := None; media := fun _ x => sector1 x |}.
Definition boot_data (h : list Ide.access) (port : Z) : list Z :=
  match cmd (ata_of boot_ata h) with Some (_, _, u, x) => media (ata_of boot_ata h) u x | None => [] end.

Lemma boot_device : ata_device boot_ata status1 boot_data 1.
Proof. split; [intros h; exists 0%nat; split; [lia|reflexivity]|]. intros h u x E. unfold boot_data. by rewrite E. Qed.
Lemma sector1_length x : length (sector1 x) = 512%nat.
Proof. unfold sector1. destruct (x =? 1); [|destruct (x =? 2)]; reflexivity. Qed.

Lemma bootmain_spec_witness : exists s',
  bootmain status1 boot_data 1 10 {| memory := fun _ => 0xFF; ports := [] |} = Ret (Some 0x100000) s' /\
  loaded sector1 (memory s') {| g_off := 512; g_pa := 0x100000; g_filesz := 4; g_memsz := 8 |}.
Proof.
  set (g := {| g_off := 512; g_pa := 0x100000; g_filesz := 4; g_memsz := 8 |}).
  destruct (bootmain_spec boot_ata status1 boot_data 1 sector1 {| memory := fun _ => 0xFF; ports := [] |} 10 [g]) as (s' & R & L).
  - exact boot_device.
  - exact sector1_length.
  - intros x. reflexivity.
  - lia.
  - lia.
  - vm_compute. reflexivity.
  - vm_compute. discriminate.
  - vm_compute. discriminate.
  - vm_compute. discriminate.
  - repeat constructor; vm_compute; discriminate.
  - constructor; [|constructor]. right. vm_compute. discriminate.
  - repeat constructor.
  - exists s'. split; [exact R|]. assert (H := L ltac:(vm_compute; reflexivity)). apply Forall_cons in H as [H _]. exact H.
Defined.
