(* ===== verification/Mp.v ===== *)
(** * Finding the processors, and the gates of the interrupts

    [mp.c]: the tables the firmware leaves in memory say which processors there
    are.  [tvinit] of [trap.c] with [SETGATE] of [mmu.h]: the table the
    processor takes its interrupts through. *)

From S2P Require Import Prelude.

Module Mp.

Definition KERNBASE : Z := 0x80000000.
Definition P2V (a : Z) : Z := u32 (a + KERNBASE).
Definition NCPU : Z := 8.
Definition MPPROC : Z := 0.
Definition MPBUS : Z := 1.
Definition MPIOAPIC : Z := 2.
Definition MPIOINTR : Z := 3.
Definition MPLINTR : Z := 4.

(** [cpus[].apicid], [ncpu], [ioapicid] and [lapic], and the bytes sent to the
    ports of the IMCR. *)
Record mst := { apicids : list Z; ncpu : Z; ioapicid : Z; lapic : Z; outs : list (Z * Z) }.
Definition with_cpu i a s := {| apicids := <[Z.to_nat i := a]> (apicids s); ncpu := ncpu s; ioapicid := ioapicid s; lapic := lapic s; outs := outs s |}.
Definition with_ncpu v s := {| apicids := apicids s; ncpu := v; ioapicid := ioapicid s; lapic := lapic s; outs := outs s |}.
Definition with_ioapicid v s := {| apicids := apicids s; ncpu := ncpu s; ioapicid := v; lapic := lapic s; outs := outs s |}.
Definition with_lapic v s := {| apicids := apicids s; ncpu := ncpu s; ioapicid := ioapicid s; lapic := v; outs := outs s |}.
Definition with_outs v s := {| apicids := apicids s; ncpu := ncpu s; ioapicid := ioapicid s; lapic := lapic s; outs := v |}.

Section Memory.
(** Memory at the addresses of the kernel, and what port 0x23 answers. *)
Context (m : mem) (inb_imcr : Z).

Fixpoint sum (addr : Z) (len : nat) : Z :=
  match len with O => 0 | S len' => u8 (m addr + sum (addr + 1) len') end.

(** [memcmp(p, s, 4) == 0]. *)
Definition signature (p : Z) (s : list Z) : bool := forallb (fun q : nat * Z => m (p + Z.of_nat q.1) =? q.2) (combine (seq 0 4) s).
Definition MP : list Z := [95; 77; 80; 95].
Definition PCMP : list Z := [80; 67; 77; 80].

Fixpoint search_from (n : nat) (p : Z) : option Z :=
  match n with
  | O => None
  | S n' => if signature p MP && (sum p 16 =? 0) then Some p else search_from n' (p + 16)
  end.
(** One step for each 16 bytes, the last ones perhaps incomplete. *)
Definition mpsearch1 (a : Z) (len : nat) : option Z := search_from ((len + 15) / 16) (P2V a).

Definition or_else {A} (o o' : option A) : option A := match o with Some _ => o | None => o' end.
Definition mpsearch : option Z :=
  let bda := P2V 0x400 in
  let p := Z.shiftl (Z.lor (Z.shiftl (m (bda + 0x0F)) 8) (m (bda + 0x0E))) 4 in
  or_else
    (if negb (p =? 0) then mpsearch1 p 1024
     else
       let p := Z.lor (Z.shiftl (m (bda + 0x14)) 8) (m (bda + 0x13)) * 1024 in
       mpsearch1 (u32 (p - 1024)) 1024)
    (mpsearch1 0xF0000 0x10000).

Definition ld16 (a : Z) : Z := m a + 256 * m (a + 1).

Definition mpconfig : option (Z * Z) :=
  match mpsearch with
  | None => None
  | Some mp =>
      if ld32 m (mp + 4) =? 0 then None
      else
        let conf := P2V (ld32 m (mp + 4)) in
        if negb (signature conf PCMP) then None
        else if negb (m (conf + 6) =? 1) && negb (m (conf + 6) =? 4) then None
        else if negb (sum conf (Z.to_nat (ld16 (conf + 4))) =? 0) then None
        else Some (mp, conf)
  end.

(** The loop over the entries: the final [ismp]. *)
Fixpoint entries (fuel : nat) (p e : Z) (ismp : bool) : M mst bool :=
  match fuel with
  | O => fun _ => NoFuel
  | S fuel' =>
      if p <? e then
        if m p =? MPPROC then
          let! s := get in
          (if ncpu s <? NCPU then modify (with_cpu (ncpu s) (m (p + 1))) ;;; modify (with_ncpu (ncpu s + 1)) else ret tt) ;;;
          entries fuel' (p + 20) e ismp
        else if m p =? MPIOAPIC then
          modify (with_ioapicid (m (p + 1))) ;;;
          entries fuel' (p + 8) e ismp
        else if (m p =? MPBUS) || (m p =? MPIOINTR) || (m p =? MPLINTR) then entries fuel' (p + 8) e ismp
        else entries fuel' p e false
      else ret ismp
  end.

Definition mpinit (fuel : nat) : M mst unit :=
  match mpconfig with
  | None => panic "Expect to run on an SMP"
  | Some (mp, conf) =>
      modify (with_lapic (ld32 m (conf + 36))) ;;;
      let! ismp := entries fuel (conf + 44) (conf + ld16 (conf + 4)) true in
      if negb ismp then panic "Didn't find a suitable machine"
      else if negb (m (mp + 12) =? 0) then
        modify (fun s => with_outs (outs s ++ [(0x22, 0x70); (0x23, Z.lor inb_imcr 1)]) s)
      else ret tt
  end.
End Memory.

(** [struct gatedesc] and [SETGATE]. *)
Record gatedesc := {
  off_15_0 : Z; cs : Z; args : Z; rsv1 : Z; type : Z; s_bit : Z; dpl : Z; p_bit : Z; off_31_16 : Z }.
Definition STS_IG32 : Z := 0xE.
Definition STS_TG32 : Z := 0xF.
Definition SEG_KCODE : Z := 1.
Definition DPL_USER : Z := 3.
Definition T_SYSCALL : Z := 64.

Definition SETGATE (istrap : bool) (sel off d : Z) : gatedesc :=
  {| off_15_0 := Z.land (u32 off) 0xffff; cs := sel; args := 0; rsv1 := 0;
     type := if istrap then STS_TG32 else STS_IG32; s_bit := 0; dpl := d; p_bit := 1; off_31_16 := Z.shiftr (u32 off) 16 |}.

(** [idt] and whether [tickslock] is held after [tvinit]; [vectors] is built by
    [vectors.pl]. *)
Definition tvinit (vectors : nat -> Z) : list gatedesc * bool :=
  let idt := map (fun i => SETGATE false (Z.shiftl SEG_KCODE 3) (vectors i) 0) (seq 0 256) in
  let idt := <[Z.to_nat T_SYSCALL := SETGATE true (Z.shiftl SEG_KCODE 3) (vectors (Z.to_nat T_SYSCALL)) DPL_USER]> idt in
  (idt, false).

End Mp.
