(* ===== verification/MpFacts.v ===== *)
(** * Processors and gates: what the tables give *)

From S2P Require Import Prelude Mp.
Import Mp.

Section Memory.
Context (m : mem) (inb_imcr : Z).

(** ** The search *)

Definition is_mp (p : Z) : Prop := signature m p MP = true /\ sum m p 16 = 0.

(** The search finds the first structure with its signature and check sum. *)
Lemma search_from_ok n : forall p,
  match search_from m n p with
  | Some q => exists i, (i < n)%nat /\ q = p + 16 * Z.of_nat i /\ is_mp q /\ forall j, (j < i)%nat -> ~ is_mp (p + 16 * Z.of_nat j)
  | None => forall j, (j < n)%nat -> ~ is_mp (p + 16 * Z.of_nat j)
  end.
Proof.
  induction n as [|n IH]; intros p; cbn [search_from]; [lia|]. destruct (signature m p MP && (sum m p 16 =? 0)) eqn:E.
  - apply andb_true_iff in E as [E1 E2%Z.eqb_eq]. exists 0%nat. split; [lia|]. split; [lia|]. split; [done|]. lia.
  - assert (Hp : ~ is_mp (p + 16 * Z.of_nat 0)).
    { rewrite Z.add_0_r. intros [E1 E2]. by rewrite E1, E2 in E. }
    specialize (IH (p + 16)). destruct (search_from m n (p + 16)) as [q|].
    + destruct IH as (i & Hi & -> & Hq & Hj). exists (S i). split; [lia|]. split; [lia|]. split; [done|].
      intros [|j] H; [exact Hp|]. replace (p + 16 * Z.of_nat (S j)) with (p + 16 + 16 * Z.of_nat j) by lia. apply Hj. lia.
    + intros [|j] H; [exact Hp|]. replace (p + 16 * Z.of_nat (S j)) with (p + 16 + 16 * Z.of_nat j) by lia. apply IH. lia.
Qed.

(** ** The entries *)

Inductive entry := Proc (apicid : Z) | Ioapic (apicno : Z) | Other.

(** The entries from [p] to [q], those that begin below [e]. *)
Inductive walk (e : Z) : Z -> list entry -> Z -> Prop :=
| walk_end p : walk e p [] p
| walk_proc p l q : p < e -> m p = 0 -> walk e (p + 20) l q -> walk e p (Proc (m (p + 1)) :: l) q
| walk_ioapic p l q : p < e -> m p = 2 -> walk e (p + 8) l q -> walk e p (Ioapic (m (p + 1)) :: l) q
| walk_other p l q : p < e -> m p = 1 \/ m p = 3 \/ m p = 4 -> walk e (p + 8) l q -> walk e p (Other :: l) q.

Definition procs (l : list entry) : list Z := omap (fun x => match x with Proc a => Some a | _ => None end) l.
Definition ioapics (l : list entry) : list Z := omap (fun x => match x with Ioapic a => Some a | _ => None end) l.

(** The state after entries: the first eight processors in order, and the last
    I/O APIC. *)
Definition described (l : list entry) (s s' : mst) : Prop :=
  length (apicids s') = 8%nat /\ ncpu s' = Z.min 8 (ncpu s + Z.of_nat (length (procs l))) /\
  take (Z.to_nat (ncpu s')) (apicids s') = take 8 (take (Z.to_nat (ncpu s)) (apicids s) ++ procs l) /\
  ioapicid s' = default (ioapicid s) (last (ioapics l)) /\ lapic s' = lapic s /\ outs s' = outs s.

Lemma procs_app l l' : procs (l ++ l') = procs l ++ procs l'.
Proof. apply omap_app. Qed.
Lemma ioapics_app l l' : ioapics (l ++ l') = ioapics l ++ ioapics l'.
Proof. apply omap_app. Qed.

Lemma described_trans l l' s s1 s2 : length (apicids s) = 8%nat -> 0 <= ncpu s <= 8 ->
  described l s s1 -> described l' s1 s2 -> described (l ++ l') s s2.
Proof.
  intros Hl Hn (L1 & N1 & T1 & I1 & A1 & O1) (L2 & N2 & T2 & I2 & A2 & O2). unfold described.
  rewrite procs_app, ioapics_app, length_app. split; [done|]. split; [lia|]. split; [|split; [|by rewrite A2, O2]].
  - rewrite T2, T1. generalize (take (Z.to_nat (ncpu s)) (apicids s)) (procs l) (procs l'). intros x y z.
    rewrite app_assoc. generalize (x ++ y). clear. intros x. rewrite !take_app, take_take. rewrite Nat.min_id, length_take. f_equal. f_equal. lia.
  - rewrite I2, I1, last_app. by destruct (last (ioapics l')).
Qed.

Lemma entries_ok e p l q : walk e p l q -> forall k s ismp, length (apicids s) = 8%nat -> 0 <= ncpu s <= 8 ->
  exists s', entries m (length l + k) p e ismp s = entries m k q e ismp s' /\ described l s s'.
Proof.
  induction 1 as [p|p l q Hp Ht _ IH|p l q Hp Ht _ IH|p l q Hp Ht _ IH]; intros k s ismp Hl Hn.
  - exists s. split; [done|]. unfold described. cbn. rewrite app_nil_r, take_take, Nat.min_r by lia. split_and!; try done. lia.
  - cbn [length Nat.add entries]. rewrite (proj2 (Z.ltb_lt _ _) Hp). unfold MPPROC. rewrite Ht, Z.eqb_refl.
    erewrite (bind_eq get) by reflexivity. unfold NCPU.
    assert (S1 : exists s1, (if ncpu s <? 8 then modify (with_cpu (ncpu s) (m (p + 1))) ;;; modify (with_ncpu (ncpu s + 1)) else ret tt) s = Ret tt s1 /\
      described [Proc (m (p + 1))] s s1).
    { destruct (Z.ltb_spec (ncpu s) 8).
      - eexists. split; [reflexivity|]. unfold described. cbn [apicids ncpu ioapicid lapic outs with_ncpu with_cpu procs ioapics omap list_omap length default].
        rewrite length_insert. split; [done|]. split; [lia|]. split; [|done].
        replace (Z.to_nat (ncpu s + 1)) with (S (Z.to_nat (ncpu s))) by lia.
        rewrite (take_S_r _ _ (m (p + 1))) by (apply list_lookup_insert_eq; lia). rewrite take_insert_ge by lia.
        rewrite (take_ge (_ ++ _)); [done|]. rewrite length_app, length_take. cbn. lia.
      - exists s. split; [done|]. unfold described. cbn [procs ioapics omap list_omap length default last]. split; [done|]. split; [lia|]. split; [|done].
        rewrite (take_ge (apicids s)) by lia. rewrite take_app_le by lia. by rewrite take_ge by lia. }
    destruct S1 as (s1 & R1 & D1). rewrite (bind_eq _ _ _ _ _ R1).
    destruct (IH k s1 ismp) as (s2 & R2 & D2); [apply D1|destruct D1 as (_ & -> & _); lia|]. exists s2. split; [exact R2|].
    by apply (described_trans [Proc (m (p + 1))] l s s1 s2).
  - cbn [length Nat.add entries]. rewrite (proj2 (Z.ltb_lt _ _) Hp). unfold MPPROC, MPIOAPIC. rewrite Ht. cbn [Z.eqb Pos.eqb].
    erewrite (bind_eq (modify _)) by reflexivity.
    destruct (IH k (with_ioapicid (m (p + 1)) s) ismp Hl Hn) as (s2 & R2 & D2). exists s2. split; [exact R2|].
    apply (described_trans [Ioapic (m (p + 1))] l s (with_ioapicid (m (p + 1)) s) s2); try done.
    unfold described. cbn. rewrite app_nil_r, take_take, Nat.min_r by lia. split_and!; try done. lia.
  - cbn [length Nat.add entries]. rewrite (proj2 (Z.ltb_lt _ _) Hp). unfold MPPROC, MPIOAPIC, MPBUS, MPIOINTR, MPLINTR.
    rewrite (proj2 (Z.eqb_neq (m p) 0)), (proj2 (Z.eqb_neq (m p) 2)) by lia.
    assert (E : (m p =? 1) || (m p =? 3) || (m p =? 4) = true) by (bools; lia). rewrite E.
    destruct (IH k s ismp Hl Hn) as (s2 & R2 & D2). exists s2. split; [exact R2|].
    apply (described_trans [Other] l s s s2); try done.
    unfold described. cbn. rewrite app_nil_r, take_take, Nat.min_r by lia. split_and!; try done. lia.
Qed.

(** An entry of a type that is not known is never left. *)
Lemma entries_stuck e q fuel : forall ismp s, q < e -> ~ 0 <= m q <= 4 -> entries m fuel q e ismp s = NoFuel.
Proof.
  induction fuel as [|fuel IH]; intros ismp s Hq Hm; [done|]. cbn [entries]. rewrite (proj2 (Z.ltb_lt _ _) Hq).
  unfold MPPROC, MPIOAPIC, MPBUS, MPIOINTR, MPLINTR. rewrite (proj2 (Z.eqb_neq (m q) 0)), (proj2 (Z.eqb_neq (m q) 2)) by lia.
  rewrite (proj2 (Z.eqb_neq (m q) 1)), (proj2 (Z.eqb_neq (m q) 3)), (proj2 (Z.eqb_neq (m q) 4)) by lia. cbn [orb]. by apply IH.
Qed.
End Memory.

(** [mpinit] with a valid table: when the entries fill the table, it has the
    first eight processors in order, the last I/O APIC and the local APIC, and
    one turn for each entry is enough; when an entry has a type of no known
    kind, the loop stays at it for ever: the [break] leaves the [switch] only, so
    the panic after the loop is never reached. *)
Theorem mpinit_spec m imcr mp conf l q s :
  mpconfig m = Some (mp, conf) -> walk m (conf + ld16 m (conf + 4)) (conf + 44) l q -> length (apicids s) = 8%nat -> ncpu s = 0 ->
  (conf + ld16 m (conf + 4) <= q -> forall fuel, (length l < fuel)%nat -> exists s', mpinit m imcr fuel s = Ret tt s' /\
     take (Z.to_nat (ncpu s')) (apicids s') = take 8 (procs l) /\ ncpu s' = Z.min 8 (Z.of_nat (length (procs l))) /\
     ioapicid s' = default (ioapicid s) (last (ioapics l)) /\ lapic s' = ld32 m (conf + 36)) /\
  (q < conf + ld16 m (conf + 4) -> ~ 0 <= m q <= 4 -> forall fuel, mpinit m imcr fuel s = NoFuel).
Proof.
  intros Hc Hw Hl Hn. split.
  - intros Hq fuel Hf. unfold mpinit. rewrite Hc. erewrite (bind_eq (modify _)) by reflexivity.
    destruct (entries_ok m _ _ l q Hw (fuel - length l) (with_lapic (ld32 m (conf + 36)) s) true Hl ltac:(cbn; lia)) as (s1 & R & (D1 & D2 & D3 & D4 & D5 & D6)).
    replace (length l + (fuel - length l))%nat with fuel in R by lia.
    assert (E : entries m (fuel - length l) q (conf + ld16 m (conf + 4)) true s1 = Ret true s1).
    { destruct (fuel - length l)%nat eqn:Ef; [lia|]. cbn [entries]. by rewrite (proj2 (Z.ltb_ge _ _) Hq). }
    rewrite E in R. rewrite (bind_eq _ _ _ _ _ R). cbn [negb]. cbn [ncpu apicids ioapicid lapic with_lapic] in *. rewrite Hn in *. cbn [Z.to_nat take app] in D3.
    destruct (m (mp + 12) =? 0); cbn [negb]; (eexists; split; [reflexivity|]); cbn; by split_and!.
  - intros Hq Hm fuel. unfold mpinit. rewrite Hc. erewrite (bind_eq (modify _)) by reflexivity.
    destruct (Nat.le_gt_cases (length l) fuel) as [Hle|Hlt].
    + destruct (entries_ok m _ _ l q Hw (fuel - length l) (with_lapic (ld32 m (conf + 36)) s) true Hl ltac:(cbn; lia)) as (s1 & R & _).
      replace (length l + (fuel - length l))%nat with fuel in R by lia. unfold bind. rewrite R. by rewrite (entries_stuck m _ _ _ _ _ Hq Hm).
    + assert (Hs : forall p l, walk m (conf + ld16 m (conf + 4)) p l q -> forall fuel ismp s, (fuel < length l)%nat ->
        entries m fuel p (conf + ld16 m (conf + 4)) ismp s = NoFuel).
      { clear. intros p l. induction 1 as [p|p l q Hp Ht _ IH|p l q Hp Ht _ IH|p l q Hp Ht _ IH]; intros [|fuel] ismp s Hf; cbn [length] in Hf; try lia; try done;
          cbn [entries]; rewrite (proj2 (Z.ltb_lt _ _) Hp); unfold MPPROC, MPIOAPIC, MPBUS, MPIOINTR, MPLINTR.
        - rewrite Ht, Z.eqb_refl. unfold bind at 1, get. unfold bind at 1.
          destruct ((if ncpu s <? NCPU then modify (with_cpu (ncpu s) (m (p + 1))) ;;; modify (with_ncpu (ncpu s + 1)) else ret tt) s) eqn:E;
            [apply IH; lia|..]; by destruct (ncpu s <? NCPU).
        - rewrite Ht. cbn [Z.eqb Pos.eqb]. erewrite (bind_eq (modify _)) by reflexivity. apply IH. lia.
        - rewrite (proj2 (Z.eqb_neq (m p) 0)), (proj2 (Z.eqb_neq (m p) 2)) by lia.
          assert (E : (m p =? 1) || (m p =? 3) || (m p =? 4) = true) by (bools; lia). rewrite E. apply IH. lia. }
      unfold bind. by rewrite (Hs _ _ Hw).
Qed.

(** ** Gates *)

Definition target (g : gatedesc) : Z := off_15_0 g + 65536 * off_31_16 g.

(** Every vector goes to its own entry in the kernel's code; only the system
    call can be raised by a program, and only its gate leaves interrupts on. *)
Theorem tvinit_spec vectors i : (i < 256)%nat -> 0 <= vectors i < 4294967296 -> exists g,
  (tvinit vectors).1 !! i = Some g /\ target g = vectors i /\ p_bit g = 1 /\ cs g = 8 /\ s_bit g = 0 /\
  dpl g = (if (i =? 64)%nat then 3 else 0) /\ type g = (if (i =? 64)%nat then 15 else 14).
Proof.
  intros Hi Hv. assert (T : forall b d, target (SETGATE b 8 (vectors i) d) = vectors i).
  { intros b d. unfold target, SETGATE. cbn [off_15_0 off_31_16]. rewrite u32_small by done. change 0xffff with (Z.ones 16).
    rewrite Z.land_ones, Z.shiftr_div_pow2 by lia. change (2 ^ 16) with 65536. pose proof (Z.div_mod (vectors i) 65536). lia. }
  unfold tvinit. cbn [fst]. change (Z.shiftl SEG_KCODE 3) with 8. change (Z.to_nat T_SYSCALL) with 64%nat. destruct (Nat.eqb_spec i 64) as [->|Hne].
  - eexists. split; [apply list_lookup_insert_eq; by rewrite length_map, length_seq|]. split; [apply T|done].
  - rewrite list_lookup_insert_ne by done. rewrite list_lookup_fmap, lookup_seq_lt by lia. eexists. split; [reflexivity|]. split; [apply T|done].
Qed.
