(* ===== verification/Apic.v ===== *)
(** * The interrupt controllers and the clock

    [lapic.c], [ioapic.c] and [picirq.c]: sequences of accesses to device
    registers.  What the local APIC and the clock answer is a function of the
    accesses so far; the I/O APIC is its registers, reached one at a time. *)

From S2P Require Import Prelude.

Module Apic.

Definition T_IRQ0 : Z := 32.
Definition IRQ_TIMER : Z := 0.
Definition IRQ_ERROR : Z := 19.
Definition IRQ_SPURIOUS : Z := 31.

(** ** The local APIC *)

Definition ID : Z := 0x0020 / 4.
Definition VER : Z := 0x0030 / 4.
Definition TPR : Z := 0x0080 / 4.
Definition EOI : Z := 0x00B0 / 4.
Definition SVR : Z := 0x00F0 / 4.
Definition ENABLE : Z := 0x00000100.
Definition ESR : Z := 0x0280 / 4.
Definition ICRLO : Z := 0x0300 / 4.
Definition INIT : Z := 0x00000500.
Definition STARTUP : Z := 0x00000600.
Definition DELIVS : Z := 0x00001000.
Definition ASSERT : Z := 0x00004000.
Definition LEVEL : Z := 0x00008000.
Definition BCAST : Z := 0x00080000.
Definition ICRHI : Z := 0x0310 / 4.
Definition TIMER : Z := 0x0320 / 4.
Definition X1 : Z := 0x0000000B.
Definition PERIODIC : Z := 0x00020000.
Definition PCINT : Z := 0x0340 / 4.
Definition LINT0 : Z := 0x0350 / 4.
Definition LINT1 : Z := 0x0360 / 4.
Definition ERROR : Z := 0x0370 / 4.
Definition MASKED : Z := 0x00010000.
Definition TICR : Z := 0x0380 / 4.
Definition TDCR : Z := 0x03E0 / 4.
Definition CMOS_PORT : Z := 0x70.
Definition CMOS_RETURN : Z := 0x71.
Definition CMOS_STATA : Z := 0x0a.
Definition CMOS_STATB : Z := 0x0b.
Definition CMOS_UIP : Z := Z.shiftl 1 7.

(** Accesses: a register of the local APIC written or read, a port written or
    read, a half word of memory written. *)
Inductive access := W (index v : Z) | R (index : Z) | Out (port v : Z) | In (port : Z) | W16 (a v : Z).
Definition log : Type := list access.

Section Devices.
(** [lapic] non-null; what a register and a port answer. *)
Context (lapic : bool) (reg : log -> Z -> Z) (inb_of : log -> Z -> Z).

Definition note (a : access) : M log unit := modify (fun l => l ++ [a]).
Definition lapicr (index : Z) : M log Z := let! l := get in note (R index) ;;; ret (reg l index).
Definition lapicw (index value : Z) : M log unit := note (W index (u32 value)) ;;; let! _ := lapicr ID in ret tt.
Definition outb (port v : Z) : M log unit := note (Out port (u8 v)).
Definition inb (port : Z) : M log Z := let! l := get in note (In port) ;;; ret (inb_of l port).

Fixpoint wait_delivered (fuel : nat) : M log unit :=
  match fuel with
  | O => fun _ => NoFuel
  | S fuel' =>
      let! v := lapicr ICRLO in
      if negb (Z.land v DELIVS =? 0) then wait_delivered fuel' else ret tt
  end.

Definition lapicinit (fuel : nat) : M log unit :=
  if negb lapic then ret tt
  else
    lapicw SVR (Z.lor ENABLE (T_IRQ0 + IRQ_SPURIOUS)) ;;;
    lapicw TDCR X1 ;;;
    lapicw TIMER (Z.lor PERIODIC (T_IRQ0 + IRQ_TIMER)) ;;;
    lapicw TICR 10000000 ;;;
    lapicw LINT0 MASKED ;;;
    lapicw LINT1 MASKED ;;;
    let! v := lapicr VER in
    (if Z.land (Z.shiftr v 16) 0xFF >=? 4 then lapicw PCINT MASKED else ret tt) ;;;
    lapicw ERROR (T_IRQ0 + IRQ_ERROR) ;;;
    lapicw ESR 0 ;;;
    lapicw ESR 0 ;;;
    lapicw EOI 0 ;;;
    lapicw ICRHI 0 ;;;
    lapicw ICRLO (Z.lor (Z.lor BCAST INIT) LEVEL) ;;;
    wait_delivered fuel ;;;
    lapicw TPR 0.

Definition lapicid : M log Z :=
  if negb lapic then ret 0 else let! v := lapicr ID in ret (Z.shiftr v 24).

Definition lapiceoi : M log unit := if lapic then lapicw EOI 0 else ret tt.

Definition microdelay (us : Z) : M log unit := ret tt.

Definition lapicstartap (apicid addr : Z) : M log unit :=
  outb CMOS_PORT 0xF ;;;
  outb (CMOS_PORT + 1) 0x0A ;;;
  let wrv := u32 (Z.lor (Z.shiftl 0x40 4) 0x67 + 0x80000000) in
  note (W16 wrv 0) ;;;
  note (W16 (wrv + 2) (u16 (Z.shiftr addr 4))) ;;;
  lapicw ICRHI (Z.shiftl apicid 24) ;;;
  lapicw ICRLO (Z.lor (Z.lor INIT LEVEL) ASSERT) ;;;
  microdelay 200 ;;;
  lapicw ICRLO (Z.lor INIT LEVEL) ;;;
  microdelay 100 ;;;
  for_each [0; 1] (fun _ =>
    lapicw ICRHI (Z.shiftl apicid 24) ;;;
    lapicw ICRLO (Z.lor STARTUP (Z.shiftr addr 12)) ;;;
    microdelay 200).

(** ** The clock *)

Definition SECS : Z := 0x00.
Definition MINS : Z := 0x02.
Definition HOURS : Z := 0x04.
Definition DAY : Z := 0x07.
Definition MONTH : Z := 0x08.
Definition YEAR : Z := 0x09.

Record rtcdate := { second : Z; minute : Z; hour : Z; day : Z; month : Z; year : Z }.
#[global] Instance rtcdate_eq : EqDecision rtcdate.
Proof. solve_decision. Defined.

Definition cmos_read (r : Z) : M log Z :=
  outb CMOS_PORT r ;;;
  microdelay 200 ;;;
  inb CMOS_RETURN.

Definition fill_rtcdate : M log rtcdate :=
  let! s := cmos_read SECS in
  let! mi := cmos_read MINS in
  let! h := cmos_read HOURS in
  let! d := cmos_read DAY in
  let! mo := cmos_read MONTH in
  let! y := cmos_read YEAR in
  ret {| second := s; minute := mi; hour := h; day := d; month := mo; year := y |}.

(** The loop of [cmostime]: a date read twice in a row without an update. *)
Fixpoint stable_date (fuel : nat) : M log rtcdate :=
  match fuel with
  | O => fun _ => NoFuel
  | S fuel' =>
      let! t1 := fill_rtcdate in
      let! a := cmos_read CMOS_STATA in
      if negb (Z.land a CMOS_UIP =? 0) then stable_date fuel'
      else
        let! t2 := fill_rtcdate in
        if decide (t1 = t2) then ret t1 else stable_date fuel'
  end.

Definition CONV (x : Z) : Z := u32 (Z.shiftr x 4 * 10 + Z.land x 0xf).

Definition cmostime (fuel : nat) : M log rtcdate :=
  let! sb := cmos_read CMOS_STATB in
  let bcd := Z.land sb (Z.shiftl 1 2) =? 0 in
  let! t1 := stable_date fuel in
  let t1 :=
    if bcd then {| second := CONV (second t1); minute := CONV (minute t1); hour := CONV (hour t1);
                   day := CONV (day t1); month := CONV (month t1); year := CONV (year t1) |}
    else t1 in
  ret {| second := second t1; minute := minute t1; hour := hour t1; day := day t1; month := month t1; year := u32 (year t1 + 2000) |}.
End Devices.

(** ** The I/O APIC *)

Definition REG_ID : Z := 0x00.
Definition REG_VER : Z := 0x01.
Definition REG_TABLE : Z := 0x10.
Definition INT_DISABLED : Z := 0x00010000.

(** The register selected and all of them. *)
Record ioapic := { selected : Z; registers : Z -> Z }.
Definition ioapicread (r : Z) : M ioapic Z :=
  modify (fun s => {| selected := r; registers := registers s |}) ;;;
  gets (fun s => registers s (selected s)).
Definition ioapicwrite (r data : Z) : M ioapic unit :=
  modify (fun s => {| selected := r; registers := registers s |}) ;;;
  modify (fun s => {| selected := selected s;
                      registers := fun x => if x =? selected s then u32 data else registers s x |}).

(** Whether the identifier is not the one [mpinit] found. *)
Definition ioapicinit (ioapicid : Z) : M ioapic bool :=
  let! v := ioapicread REG_VER in
  let maxintr := Z.land (Z.shiftr v 16) 0xFF in
  let! v := ioapicread REG_ID in
  let id := Z.shiftr v 24 in
  for_each (seqZ 0 (maxintr + 1)) (fun i =>
    ioapicwrite (REG_TABLE + 2 * i) (Z.lor INT_DISABLED (T_IRQ0 + i)) ;;;
    ioapicwrite (REG_TABLE + 2 * i + 1) 0) ;;;
  ret (negb (id =? ioapicid)).

Definition ioapicenable (irq cpunum : Z) : M ioapic unit :=
  ioapicwrite (REG_TABLE + 2 * irq) (T_IRQ0 + irq) ;;;
  ioapicwrite (REG_TABLE + 2 * irq + 1) (Z.shiftl cpunum 24).

(** [picinit]: the bytes for the ports of the old controllers. *)
Definition IO_PIC1 : Z := 0x20.
Definition IO_PIC2 : Z := 0xA0.
Definition picinit : M (list (Z * Z)) unit :=
  modify (fun l => l ++ [(IO_PIC1 + 1, 0xFF)]) ;;;
  modify (fun l => l ++ [(IO_PIC2 + 1, 0xFF)]).

End Apic.
