(* ===== verification/ApicFacts.v ===== *)
(** * Interrupt controllers and clock: what they promise *)

From S2P Require Import Prelude Apic.
Import Apic.

(** ** The I/O APIC *)

(** The two registers of an interrupt. *)
Definition routed (s : ioapic) (i : Z) : Z * Z := (registers s (REG_TABLE + 2 * i), registers s (REG_TABLE + 2 * i + 1)).

Lemma ioapicenable_ok irq cpu s : 0 <= irq < 256 -> 0 <= cpu < 256 -> exists s', ioapicenable irq cpu s = Ret tt s' /\
  forall i, 0 <= i -> routed s' i = if i =? irq then (32 + irq, cpu * 16777216) else routed s i.
Proof.
  intros Hi Hc. eexists. split; [reflexivity|]. intros i H0. unfold routed, REG_TABLE, T_IRQ0 in *. cbn [registers selected].
  rewrite Z.shiftl_mul_pow2 by lia. change (2 ^ 24) with 16777216. rewrite !u32_small by lia.
  destruct (Z.eqb_spec i irq) as [->|Hne].
  - rewrite (proj2 (Z.eqb_neq (16 + 2 * irq) (16 + 2 * irq + 1))), !Z.eqb_refl by lia. done.
  - rewrite (proj2 (Z.eqb_neq (16 + 2 * i) (16 + 2 * irq + 1))), (proj2 (Z.eqb_neq (16 + 2 * i) (16 + 2 * irq))),
      (proj2 (Z.eqb_neq (16 + 2 * i + 1) (16 + 2 * irq + 1))), (proj2 (Z.eqb_neq (16 + 2 * i + 1) (16 + 2 * irq))) by lia. done.
Qed.

Lemma masks_ok n : forall k s, 0 <= k -> k + Z.of_nat n <= 256 -> exists s',
  for_each (seqZ k (Z.of_nat n)) (fun i => ioapicwrite (REG_TABLE + 2 * i) (Z.lor INT_DISABLED (T_IRQ0 + i)) ;;; ioapicwrite (REG_TABLE + 2 * i + 1) 0) s = Ret tt s' /\
  forall i, 0 <= i -> routed s' i = if (k <=? i) && (i <? k + Z.of_nat n) then (Z.lor INT_DISABLED (32 + i), 0) else routed s i.
Proof.
  induction n as [|n IH]; intros k s Hk Hn.
  - exists s. split; [done|]. intros i Hi. destruct (Z.leb_spec k i), (Z.ltb_spec i (k + Z.of_nat 0)); cbn [andb]; try done. lia.
  - rewrite seqZ_cons by lia. replace (Z.pred (Z.of_nat (S n))) with (Z.of_nat n) by lia. cbn [for_each].
    set (s1 := {| selected := 16 + 2 * k + 1; registers := fun x => if x =? 16 + 2 * k + 1 then 0 else if x =? 16 + 2 * k then u32 (Z.lor INT_DISABLED (32 + k)) else registers s x |}).
    erewrite (bind_eq (bind _ _) _ s tt s1) by reflexivity.
    destruct (IH (Z.succ k) s1) as (s2 & R & H); [lia..|]. exists s2. split; [exact R|]. intros i Hi. rewrite (H i Hi).
    assert (E : u32 (Z.lor INT_DISABLED (32 + k)) = Z.lor INT_DISABLED (32 + k)).
    { apply u32_small. unfold INT_DISABLED. pose proof (Z.add_lor_land 0x10000 (32 + k)) as El.
      assert (E0 : Z.land 0x10000 (32 + k) = 0); [|lia].
      apply Z.bits_inj'. intros b Hb. rewrite Z.land_spec, Z.bits_0. change 0x10000 with (2 ^ 16). rewrite Z.pow2_bits_eqb by lia.
      destruct (Z.eqb_spec 16 b) as [<-|]; [|done]. cbn [andb]. apply Z.bits_above_log2; [lia|]. apply Z.log2_lt_pow2; lia. }
    unfold routed at 1. cbn [registers s1]. unfold REG_TABLE. fold REG_TABLE.
    destruct (Z.eqb_spec i k) as [->|Hne].
    + rewrite (proj2 (Z.leb_gt (Z.succ k) k)), (proj2 (Z.leb_le k k)), (proj2 (Z.ltb_lt k (k + Z.of_nat (S n)))) by lia. cbn [andb].
      unfold REG_TABLE. rewrite (proj2 (Z.eqb_neq (16 + 2 * k) (16 + 2 * k + 1))), !Z.eqb_refl by lia. by rewrite E.
    + unfold REG_TABLE. rewrite (proj2 (Z.eqb_neq (16 + 2 * i) (16 + 2 * k + 1))), (proj2 (Z.eqb_neq (16 + 2 * i) (16 + 2 * k))),
        (proj2 (Z.eqb_neq (16 + 2 * i + 1) (16 + 2 * k + 1))), (proj2 (Z.eqb_neq (16 + 2 * i + 1) (16 + 2 * k))) by lia.
      fold REG_TABLE. change (registers s (16 + 2 * i), registers s (16 + 2 * i + 1)) with (routed s i).
      destruct (Z.leb_spec (Z.succ k) i), (Z.leb_spec k i), (Z.ltb_spec i (Z.succ k + Z.of_nat n)), (Z.ltb_spec i (k + Z.of_nat (S n))); cbn [andb]; try done; lia.
Qed.

(** After [ioapicinit] and some [ioapicenable]s, an interrupt the chip has goes
    to the processor it was given last, and the others are masked. *)
Definition enables (l : list (Z * Z)) : M ioapic unit := for_each l (fun p => ioapicenable p.1 p.2).
Fixpoint last_cpu (l : list (Z * Z)) (i : Z) (d : option Z) : option Z :=
  match l with [] => d | p :: l' => last_cpu l' i (if i =? p.1 then Some p.2 else d) end.

Lemma enables_ok l : forall s d, Forall (fun p => 0 <= p.1 < 256 /\ 0 <= p.2 < 256) l ->
  (forall i, 0 <= i < 256 -> d i = None \/ exists c, d i = Some c /\ routed s i = (32 + i, c * 16777216)) ->
  exists s', enables l s = Ret tt s' /\ forall i, 0 <= i < 256 ->
    match last_cpu l i (d i) with Some c => routed s' i = (32 + i, c * 16777216) | None => routed s' i = routed s i end.
Proof.
  unfold enables. induction l as [|[irq cpu] l IH]; intros s d Hl Hd; cbn [for_each last_cpu fst snd].
  - exists s. split; [done|]. intros i Hi. destruct (Hd i Hi) as [->|(c & -> & E)]; done.
  - apply Forall_cons in Hl as [[H1 H2] Hl]. destruct (ioapicenable_ok irq cpu s H1 H2) as (s1 & R1 & E1). rewrite (bind_eq _ _ _ _ _ R1).
    destruct (IH s1 (fun i => if i =? irq then Some cpu else d i) Hl) as (s2 & R2 & E2).
    { intros i Hi. rewrite (E1 i ltac:(lia)). destruct (Z.eqb_spec i irq) as [->|]; [right; by exists cpu|by apply Hd]. }
    exists s2. split; [exact R2|]. intros i Hi. specialize (E2 i Hi). cbv beta in E2. destruct (last_cpu l i _) as [c|] eqn:El; [done|].
    rewrite E2, (E1 i ltac:(lia)). destruct (Z.eqb_spec i irq); [|done]. exfalso. clear -El. revert El. generalize cpu.
    induction l as [|[a b] l IHl]; intros c; cbn; [done|]. case_match; apply IHl.
Qed.

Theorem ioapic_spec id s l :
  Forall (fun p => 0 <= p.1 < 256 /\ 0 <= p.2 < 256) l -> 0 <= registers s REG_VER ->
  exists b s', (let! b := ioapicinit id in enables l ;;; ret b) s = Ret b s' /\
    forall i, 0 <= i <= Z.land (Z.shiftr (registers s REG_VER) 16) 0xFF ->
      routed s' i = match last_cpu l i None with Some c => (32 + i, c * 16777216) | None => (Z.lor INT_DISABLED (32 + i), 0) end.
Proof.
  intros Hl Hv. unfold ioapicinit. set (maxintr := Z.land (Z.shiftr (registers s REG_VER) 16) 0xFF).
  assert (Hm : 0 <= maxintr < 256).
  { unfold maxintr. change 0xFF with (Z.ones 8). rewrite Z.land_ones by lia. apply Z.mod_pos_bound. done. }
  set (s1 := {| selected := REG_ID; registers := registers s |}).
  destruct (masks_ok (Z.to_nat (maxintr + 1)) 0 s1) as (s2 & R2 & H2); [lia..|]. rewrite Z2Nat.id in R2, H2 by lia.
  assert (Ri : ioapicinit id s = Ret (negb (Z.shiftr (registers s REG_ID) 24 =? id)) s2).
  { unfold ioapicinit. erewrite (bind_eq (ioapicread REG_VER)) by reflexivity. erewrite (bind_eq (ioapicread REG_ID)) by reflexivity.
    cbn [registers selected]. fold maxintr. fold s1. by rewrite (bind_eq _ _ _ _ _ R2). }
  fold (ioapicinit id). rewrite (bind_eq _ _ _ _ _ Ri).
  destruct (enables_ok l s2 (fun _ => None) Hl) as (s3 & R3 & H3); [by left|]. rewrite (bind_eq _ _ _ _ _ R3).
  eexists _, s3. split; [reflexivity|]. intros i Hi. specialize (H3 i ltac:(lia)). destruct (last_cpu l i None); [done|].
  rewrite H3, (H2 i ltac:(lia)), (proj2 (Z.leb_le _ _)), (proj2 (Z.ltb_lt _ _)) by lia. done.
Qed.

(** ** The clock *)

(** Two decimal digits of the clock are the number they write. *)
Lemma CONV_ok t o : 0 <= t < 16 -> 0 <= o < 16 -> CONV (16 * t + o) = 10 * t + o.
Proof.
  intros Ht Ho. unfold CONV. change 0xf with (Z.ones 4). rewrite Z.land_ones, Z.shiftr_div_pow2 by lia. change (2 ^ 4) with 16.
  replace (16 * t + o) with (o + t * 16) by lia. rewrite Z.div_add, Z.mod_add, Z.div_small, Z.mod_small by lia. rewrite u32_small; lia.
Qed.

(** A clock that stands still: register [r] holds [date r]. *)
Section Clock.
Context (inb_of : log -> Z -> Z) (date : Z -> Z).
Hypothesis Hclock : forall l r, inb_of (l ++ [Out CMOS_PORT r]) CMOS_RETURN = date r.

Lemma cmos_read_ok r l : 0 <= r < 256 -> exists l', cmos_read inb_of r l = Ret (date r) l'.
Proof using Hclock.
  intros Hr. unfold cmos_read, outb, inb, note, microdelay, bind, get, modify, ret. rewrite u8_small by done. rewrite Hclock. by eexists.
Qed.

Definition now : rtcdate :=
  {| second := date SECS; minute := date MINS; hour := date HOURS; day := date DAY; month := date MONTH; year := date YEAR |}.

Lemma fill_ok l : exists l', fill_rtcdate inb_of l = Ret now l'.
Proof using Hclock.
  unfold fill_rtcdate, SECS, MINS, HOURS, DAY, MONTH, YEAR.
  destruct (cmos_read_ok 0 l) as (l1 & R1); [lia|]. rewrite (bind_eq _ _ _ _ _ R1).
  destruct (cmos_read_ok 2 l1) as (l2 & R2); [lia|]. rewrite (bind_eq _ _ _ _ _ R2).
  destruct (cmos_read_ok 4 l2) as (l3 & R3); [lia|]. rewrite (bind_eq _ _ _ _ _ R3).
  destruct (cmos_read_ok 7 l3) as (l4 & R4); [lia|]. rewrite (bind_eq _ _ _ _ _ R4).
  destruct (cmos_read_ok 8 l4) as (l5 & R5); [lia|]. rewrite (bind_eq _ _ _ _ _ R5).
  destruct (cmos_read_ok 9 l5) as (l6 & R6); [lia|]. rewrite (bind_eq _ _ _ _ _ R6). by exists l6.
Qed.

(** [cmostime] reads the date in one turn of its loop, and turns the digits into
    numbers when the clock keeps them as such. *)
Lemma cmostime_ok fuel l : (0 < fuel)%nat -> Z.land (date CMOS_STATA) CMOS_UIP = 0 -> exists l',
  cmostime inb_of fuel l =
    Ret (let f := if Z.land (date CMOS_STATB) 4 =? 0 then CONV else fun x => x in
         {| second := f (date SECS); minute := f (date MINS); hour := f (date HOURS); day := f (date DAY); month := f (date MONTH);
            year := u32 (f (date YEAR) + 2000) |}) l'.
Proof using Hclock.
  intros Hf Hu. unfold cmostime. destruct (cmos_read_ok CMOS_STATB l) as (l1 & R1); [unfold CMOS_STATB; lia|]. rewrite (bind_eq _ _ _ _ _ R1).
  change (Z.shiftl 1 2) with 4. destruct fuel as [|fuel]; [lia|]. cbn [stable_date].
  destruct (fill_ok l1) as (l2 & R2). destruct (cmos_read_ok CMOS_STATA l2) as (l3 & R3); [unfold CMOS_STATA; lia|]. destruct (fill_ok l3) as (l4 & R4).
  erewrite (bind_eq (bind _ _)); [|rewrite (bind_eq _ _ _ _ _ R2), (bind_eq _ _ _ _ _ R3), Hu; cbn [Z.eqb negb]; rewrite (bind_eq _ _ _ _ _ R4), decide_True by done; reflexivity].
  exists l4. unfold ret. f_equal. by destruct (Z.land (date CMOS_STATB) 4 =? 0).
Qed.
End Clock.
