(* ===== verification/Log.v ===== *)
(** * The write-ahead log

    [log.c] over the block cache.  A commit is a sequence of block writes to
    the disk, kept in [writes]; a crash keeps a prefix of them.  The main
    property: whatever the prefix, running [initlog] on what is left brings
    the blocks outside the log to their values before the transaction or to
    their values after it, all of them together. *)

From S2P Require Import Prelude Locks Bio.

Module Log.
Import Bio.

Definition LOGSIZE : nat := 30.
Definition MAXOPBLOCKS : Z := 10.

(** ** Words in a block of bytes, little-endian *)

Definition ld_word (d : list Z) (i : nat) : Z :=
  nth (4 * i) d 0 + 256 * nth (4 * i + 1) d 0 + 65536 * nth (4 * i + 2) d 0
    + 16777216 * nth (4 * i + 3) d 0.
Definition word_bytes (v : Z) : list Z :=
  [v mod 256; v / 256 mod 256; v / 65536 mod 256; v / 16777216 mod 256].
Definition st_word (d : list Z) (i : nat) (v : Z) : list Z :=
  take (4 * i) d ++ word_bytes (u32 v) ++ drop (4 * i + 4) d.

(** [struct log], with this CPU's view of its lock, over the cache. *)
Record lst := {
  io : bst; start : Z; lsize : Z; outstanding : Z; committing : Z; ldev : Z;
  lh_n : Z; lh_block : list Z; llk : bool }.

Definition with_io v s := {| io := v; start := start s; lsize := lsize s; outstanding := outstanding s; committing := committing s; ldev := ldev s; lh_n := lh_n s; lh_block := lh_block s; llk := llk s |}.
Definition with_outstanding v s := {| io := io s; start := start s; lsize := lsize s; outstanding := v; committing := committing s; ldev := ldev s; lh_n := lh_n s; lh_block := lh_block s; llk := llk s |}.
Definition with_committing v s := {| io := io s; start := start s; lsize := lsize s; outstanding := outstanding s; committing := v; ldev := ldev s; lh_n := lh_n s; lh_block := lh_block s; llk := llk s |}.
Definition with_lh_n v s := {| io := io s; start := start s; lsize := lsize s; outstanding := outstanding s; committing := committing s; ldev := ldev s; lh_n := v; lh_block := lh_block s; llk := llk s |}.
Definition with_lh_block v s := {| io := io s; start := start s; lsize := lsize s; outstanding := outstanding s; committing := committing s; ldev := ldev s; lh_n := lh_n s; lh_block := v; llk := llk s |}.
Definition with_sb st sz dv s := {| io := io s; start := st; lsize := sz; outstanding := outstanding s; committing := committing s; ldev := dv; lh_n := lh_n s; lh_block := lh_block s; llk := llk s |}.

#[global] Instance lst_spin : Cli.SpinState lst unit := {|
  Cli.cpu_of := fun s => bcpu (io s);
  Cli.set_cpu := fun c s => with_io (Cli.set_cpu c (io s)) s;
  Cli.lk_of := fun _ => llk;
  Cli.set_lk := fun _ b s => {| io := io s; start := start s; lsize := lsize s;
    outstanding := outstanding s; committing := committing s; ldev := ldev s;
    lh_n := lh_n s; lh_block := lh_block s; llk := b |} |}.

Definition acquire : M lst unit := Cli.acquire tt.
Definition release : M lst unit := Cli.release tt.

(** A call of the block cache. *)
Definition blk {A} (m : M bst A) : M lst A := zoom io with_io m.

(** [log.lh.block[i]]; out of range is a fault. *)
Definition lh_at (i : nat) : M lst Z := let! s := get in from_opt (lh_block s !! i).
Definition set_lh (i : nat) (v : Z) : M lst unit :=
  if (i <? LOGSIZE)%nat then modify (fun s => with_lh_block (<[i := v]> (lh_block s)) s) else fault.

Definition install_trans : M lst unit :=
  let! s := get in
  for_each (seq 0 (Z.to_nat (lh_n s))) (fun tail =>
    let! lbuf := blk (bread (ldev s) (start s + Z.of_nat tail + 1)) in
    let! bn := lh_at tail in
    let! dbuf := blk (bread (ldev s) bn) in
    let! lb := blk (buf_at lbuf) in
    blk (upd dbuf (set_bdata (bdata lb))) ;;;
    blk (bwrite dbuf) ;;;
    blk (brelse lbuf) ;;;
    blk (brelse dbuf)).

Definition read_head : M lst unit :=
  let! s := get in
  let! i := blk (bread (ldev s) (start s)) in
  let! b := blk (buf_at i) in
  let n := i32 (ld_word (bdata b) 0) in
  modify (with_lh_n n) ;;;
  for_each (seq 0 (Z.to_nat n)) (fun k => set_lh k (ld_word (bdata b) (S k))) ;;;
  blk (brelse i).

Definition write_head : M lst unit :=
  let! s := get in
  let! i := blk (bread (ldev s) (start s)) in
  blk (upd i (fun b => set_bdata (st_word (bdata b) 0 (lh_n s)) b)) ;;;
  for_each (seq 0 (Z.to_nat (lh_n s))) (fun k =>
    let! v := lh_at k in
    blk (upd i (fun b => set_bdata (st_word (bdata b) (S k) v) b))) ;;;
  blk (bwrite i) ;;;
  blk (brelse i).

Definition recover_from_log : M lst unit :=
  read_head ;;;
  install_trans ;;;
  modify (with_lh_n 0) ;;;
  write_head.

(** [readsb] of [fs.c]: the words of block 1; the log's are the fourth and
    fifth. *)
Definition readsb (dv : Z) : M lst (list Z) :=
  let! i := blk (bread dv 1) in
  let! b := blk (buf_at i) in
  blk (brelse i) ;;;
  ret ((fun k => ld_word (bdata b) k) <$> seq 0 7).

Definition initlog (dv : Z) : M lst unit :=
  modify (Cli.set_lk tt false) ;;;
  let! sb := readsb dv in
  modify (with_sb (nth 4 sb 0) (nth 3 sb 0) dv) ;;;
  recover_from_log.

Definition write_log : M lst unit :=
  let! s := get in
  for_each (seq 0 (Z.to_nat (lh_n s))) (fun tail =>
    let! to := blk (bread (ldev s) (start s + Z.of_nat tail + 1)) in
    let! bn := lh_at tail in
    let! from := blk (bread (ldev s) bn) in
    let! fb := blk (buf_at from) in
    blk (upd to (set_bdata (bdata fb))) ;;;
    blk (bwrite to) ;;;
    blk (brelse from) ;;;
    blk (brelse to)).

Definition commit : M lst unit :=
  let! s := get in
  if lh_n s >? 0 then
    write_log ;;;
    write_head ;;;
    install_trans ;;;
    modify (with_lh_n 0) ;;;
    write_head
  else ret tt.

(** The [while(1)] of [begin_op]; [env] is what others did to the log by each
    wake-up.  [&log] is the channel. *)
Fixpoint begin_loop (env : list (lst -> lst)) : M lst unit :=
  let! s := get in
  if negb (committing s =? 0) || (lh_n s + (outstanding s + 1) * MAXOPBLOCKS >? Z.of_nat LOGSIZE) then
    match env with
    | [] => fun s => Asleep 3 (Cli.set_lk tt false s)
    | f :: env' => modify f ;;; begin_loop env'
    end
  else
    modify (with_outstanding (outstanding s + 1)) ;;;
    release.

Definition begin_op (env : list (lst -> lst)) : M lst unit :=
  acquire ;;;
  begin_loop env.

(** [wakeup(&log)] changes the process table only. *)
Definition end_op : M lst unit :=
  acquire ;;;
  let! s := get in
  modify (with_outstanding (outstanding s - 1)) ;;;
  if negb (committing s =? 0) then panic "log.committing"
  else
    let do_commit := outstanding s - 1 =? 0 in
    (if do_commit then modify (with_committing 1) else ret tt) ;;;
    release ;;;
    if do_commit then
      commit ;;;
      acquire ;;;
      modify (with_committing 0) ;;;
      release
    else ret tt.

(** The search of [log_write] and its two writes. *)
Definition log_write (i : nat) : M lst unit :=
  let! s := get in
  if (lh_n s >=? Z.of_nat LOGSIZE) || (lh_n s >=? lsize s - 1) then panic "too big a transaction"
  else if outstanding s <? 1 then panic "log_write outside of trans"
  else
    acquire ;;;
    let! b := blk (buf_at i) in
    let n := Z.to_nat (lh_n s) in
    let k := default n (find_idx (fun x => x =? blockno b) (take n (lh_block s))) in
    set_lh k (blockno b) ;;;
    (if (k =? n)%nat then modify (fun s => with_lh_n (lh_n s + 1) s) else ret tt) ;;;
    blk (upd i (fun b => set_flags (valid b) true b)) ;;;
    release.

(** [bzero] of [fs.c]: a block zeroed inside a transaction. *)
Definition bzero (dv bno : Z) : M lst unit :=
  let! bp := blk (bread dv bno) in
  blk (upd bp (set_bdata (replicate BSIZE 0))) ;;;
  log_write bp ;;;
  blk (brelse bp).

End Log.
