(* ===== verification/LogFacts.v ===== *)
(** * The write-ahead log: lemmas and crash safety

    [LogFacts] runs the loops of [Log] on states described by the current
    value of each block, its value on disk and the set of dirty blocks; the
    properties are about the disk after a crash. *)

From S2P Require Import Prelude Locks Bio Log.
Import Bio BioFacts Log.

Module LogFacts.

(** ** The cache between operations *)

(** Nothing locked, and exactly the blocks [dl] dirty. *)
Record calm (b : bst) (dl : list Z) : Prop := {
  calm_ok : cache_ok b;
  calm_locked : forall m, ~ locked_block b m;
  calm_dirty : forall m, dirty_block b m <-> m ∈ dl }.

Lemma calm_clean b dl m : calm b dl -> m ∉ dl -> view b m = disk b m.
Proof.
  intros [Hok Hl Hd] Hm. destruct (cached_dec b m) as [(i & c & Hc)|Hn]; [|by apply view_uncached].
  rewrite (view_cached _ _ _ _ Hok Hc). apply (co_clean b Hok i c m Hc).
  - destruct (dirty c) eqn:E; [|done]. exfalso. apply Hm, Hd. by exists i, c.
  - destruct (locked c) eqn:E; [|done]. exfalso. apply (Hl m). by exists i, c.
Qed.

Lemma calm_free b dl : calm b dl -> (length dl < NBUF)%nat -> has_free b.
Proof.
  intros [Hok Hl Hd] Hlen. apply (free_exists b dl Hok); [|done].
  intros m [H|H]; [by apply Hd|by apply Hl in H].
Qed.

Lemma dirty_cached b m : dirty_block b m -> cached b m.
Proof. intros (i & c & Hc & _). by exists i, c. Qed.

(** How a stretch of code moves the picture: the blocks written, in order. *)
Definition put_all (ws : list (Z * list Z)) (f : Z -> list Z) : Z -> list Z :=
  foldl (fun f w m => if m =? fst w then snd w else f m) f ws.

Lemma put_all_app ws ws' f : put_all (ws ++ ws') f = put_all ws' (put_all ws f).
Proof. unfold put_all. by rewrite foldl_app. Qed.

Lemma put_all_other ws f m : m ∉ ws.*1 -> put_all ws f m = f m.
Proof.
  revert f. induction ws as [|[x d] ws IH]; intros f Hm; [done|].
  cbn in *. apply not_elem_of_cons in Hm as [Hne Hm].
  change (put_all ws (fun m => if m =? x then d else f m) m = f m). rewrite (IH _ Hm).
  by rewrite (proj2 (Z.eqb_neq _ _)).
Qed.

Lemma put_all_in ws f m d : NoDup ws.*1 -> (m, d) ∈ ws -> put_all ws f m = d.
Proof.
  revert f. induction ws as [|[x e] ws IH]; intros f Hnd Hin; [by apply not_elem_of_nil in Hin|].
  cbn in Hnd. apply NoDup_cons in Hnd as [Hx Hnd].
  change (put_all ws (fun m => if m =? x then e else f m) m = d).
  apply elem_of_cons in Hin as [[= <- <-]|Hin]; [|by apply IH].
  rewrite put_all_other by done. by rewrite Z.eqb_refl.
Qed.

Lemma put_all_ext ws f g m : f m = g m -> put_all ws f m = put_all ws g m.
Proof.
  revert f g. induction ws as [|[x d] ws IH]; intros f g H; [done|].
  change (put_all ws (fun m => if m =? x then d else f m) m =
          put_all ws (fun m => if m =? x then d else g m) m).
  apply IH. by destruct (m =? x).
Qed.

(** After writing [ws] from [b], with the dirty blocks now [dl]. *)
Record wrote (b b' : bst) (ws : list (Z * list Z)) (dl : list Z) : Prop := {
  wr_calm : calm b' dl;
  wr_view : forall m, view b' m = put_all ws (view b) m;
  wr_disk : forall m, disk b' m = put_all ws (disk b) m;
  wr_writes : writes b' = writes b ++ ws;
  wr_size : disksize b' = disksize b }.

Lemma wrote_trans b b1 b2 ws1 ws2 dl1 dl2 :
  wrote b b1 ws1 dl1 -> wrote b1 b2 ws2 dl2 -> wrote b b2 (ws1 ++ ws2) dl2.
Proof.
  intros [_ Hv1 Hd1 Hw1 Hs1] [Hc Hv2 Hd2 Hw2 Hs2]. split; [done|..].
  - intros m. rewrite Hv2, put_all_app. by apply put_all_ext.
  - intros m. rewrite Hd2, put_all_app. by apply put_all_ext.
  - by rewrite Hw2, Hw1, app_assoc.
  - congruence.
Qed.

Lemma wrote_nil b dl : calm b dl -> wrote b b [] dl.
Proof. intros H. split; try done. by rewrite app_nil_r. Qed.

(** ** Copying one block to another, both held *)

Lemma copy_held b i j bi bj dst src dl :
  cache_ok b -> caches b i bi dst -> locked bi = true -> caches b j bj src -> locked bj = true ->
  src <> dst -> dst < disksize b ->
  (forall m, locked_block b m -> m = dst \/ m = src) ->
  (forall m, m <> dst -> dirty_block b m <-> m ∈ dl) -> dst ∉ dl ->
  (dirty bj = false -> bdata bj = disk b src) ->
  exists b1 b2 b3 b4, upd i (set_bdata (bdata bj)) b = Ret tt b1 /\ bwrite i b1 = Ret tt b2 /\
    brelse j b2 = Ret tt b3 /\ brelse i b3 = Ret tt b4 /\
    wrote b b4 [(dst, bdata bj)] dl.
Proof.
  intros Hok Hi Hli Hj Hlj Hne Hsz Hlk Hd Hdst Hcl.
  destruct (set_bdata_ok b i bi dst (bdata bj) Hok Hi Hli) as (b1 & R1 & E1 & C1 & D1 & W1).
  pose proof (ef_ok _ _ _ _ _ _ E1) as Hok1.
  destruct (bwrite_ok b1 i _ dst Hok1 C1 Hli) as (b2 & R2 & E2 & C2 & D2 & W2);
    [by rewrite (ef_size _ _ _ _ _ _ E1)|].
  pose proof (ef_ok _ _ _ _ _ _ E2) as Hok2.
  pose proof (ef_held _ _ _ _ _ _ E1 j bj src Hj Hlj Hne) as Hj1.
  pose proof (ef_held _ _ _ _ _ _ E2 j bj src Hj1 Hlj Hne) as Hj2.
  destruct (brelse_ok b2 j bj src Hok2 Hj2 Hlj) as (b3 & R3 & E3 & D3 & W3).
  { intros Hdj. rewrite D2, (proj2 (Z.eqb_neq _ _)), D1 by done. by apply Hcl. }
  pose proof (ef_ok _ _ _ _ _ _ E3) as Hok3.
  pose proof (ef_held _ _ _ _ _ _ E3 i _ dst C2 Hli ltac:(congruence)) as Hi3.
  destruct (brelse_ok b3 i _ dst Hok3 Hi3 Hli) as (b4 & R4 & E4 & D4 & W4).
  { intros _. rewrite D3, D2. cbn. by rewrite Z.eqb_refl. }
  exists b1, b2, b3, b4. split_and!; try done. cbn in *.
  assert (Hvsrc : view b src = bdata bj) by (by apply (view_cached b j)).
  split; [split|..].
  - apply (ef_ok _ _ _ _ _ _ E4).
  - intros m. rewrite (ef_locked _ _ _ _ _ _ E4), (ef_locked _ _ _ _ _ _ E3),
      (ef_locked _ _ _ _ _ _ E2), (ef_locked _ _ _ _ _ _ E1). specialize (Hlk m). tauto.
  - intros m. rewrite (ef_dirty _ _ _ _ _ _ E4), (ef_dirty _ _ _ _ _ _ E3),
      (ef_dirty _ _ _ _ _ _ E2), (ef_dirty _ _ _ _ _ _ E1). cbn.
    destruct (decide (m = dst)) as [->|Hm]; [split; [naive_solver|done]|].
    rewrite <- Hd by done. destruct (decide (m = src)) as [->|Hms].
    + split; [|intros H; right; split; [done|left; split; [done|]]].
      * intros [[? _]|[_ [[_ H]|[? _]]]]; [done| |done]. by exists j, bj.
      * destruct H as (k & c & Hk & Hdc). assert (k = j) as -> by (by apply (co_one b Hok k j c bj src)).
        destruct Hk as [Hk _], Hj as [Hj _]. congruence.
    + tauto.
  - intros m. rewrite (ef_view _ _ _ _ _ _ E4), (ef_view _ _ _ _ _ _ E3),
      (ef_view _ _ _ _ _ _ E2), (ef_view _ _ _ _ _ _ E1). cbn.
    destruct (decide (m = dst)) as [->|Hm]; [by rewrite Z.eqb_refl|].
    rewrite (proj2 (Z.eqb_neq _ _)) by done. destruct (decide (m = src)) as [->|]; [by rewrite Hvsrc|done].
  - intros m. rewrite D4, D3, D2, D1. done.
  - by rewrite W4, W3, W2, W1.
  - by rewrite (ef_size _ _ _ _ _ _ E4), (ef_size _ _ _ _ _ _ E3), (ef_size _ _ _ _ _ _ E2),
      (ef_size _ _ _ _ _ _ E1).
Qed.

(** ** The loops *)

Section Loops.
Implicit Type s : lst.

Lemma blk_ok {A} (m : M bst A) s a b : m (io s) = Ret a b -> blk m s = Ret a (with_io b s).
Proof. intros H. unfold blk, zoom. by rewrite H. Qed.

Lemma with_io_io b b' s : with_io b (with_io b' s) = with_io b s.
Proof. done. Qed.

Lemma lh_at_ok s k n : lh_block s !! k = Some n -> lh_at k s = Ret n s.
Proof. intros H. unfold lh_at, bind, get. by rewrite H. Qed.

(** Where the log keeps its [k]-th block. *)
Definition slot s (k : nat) : Z := start s + Z.of_nat k + 1.

(** The static facts about a log and the blocks it holds. *)
Record log_ok s (bl : list Z) : Prop := {
  lo_dev : ldev s = 1;
  lo_len : length (lh_block s) = LOGSIZE;
  lo_n : lh_n s = Z.of_nat (length bl);
  lo_blocks : forall k n, bl !! k = Some n -> lh_block s !! k = Some n;
  lo_max : (length bl < NBUF)%nat;
  lo_nodup : NoDup bl;
  lo_region : 0 <= start s /\ start s + Z.of_nat (length bl) < disksize (io s);
  lo_home : Forall (fun n => 0 <= n < disksize (io s) /\
    (n < start s \/ start s + Z.of_nat (length bl) < n)) bl }.

Lemma slot_home s bl k n : log_ok s bl -> (k < length bl)%nat -> n ∈ bl -> slot s k <> n.
Proof.
  intros H Hk Hn. pose proof (lo_home _ _ H) as Hh. rewrite Forall_forall in Hh.
  apply Hh in Hn. unfold slot. lia.
Qed.

Definition write_log_body s : nat -> M lst unit := fun tail =>
    let! to := blk (bread (ldev s) (start s + Z.of_nat tail + 1)) in
    let! bn := lh_at tail in
    let! from := blk (bread (ldev s) bn) in
    let! fb := blk (buf_at from) in
    blk (upd to (set_bdata (bdata fb))) ;;;
    blk (bwrite to) ;;;
    blk (brelse from) ;;;
    blk (brelse to).

Lemma write_log_step s bl b k n :
  log_ok s bl -> disksize b = disksize (io s) -> calm b bl -> bl !! k = Some n ->
  exists b', write_log_body s k (with_io b s) = Ret tt (with_io b' s) /\
    wrote b b' [(slot s k, view b n)] bl.
Proof.
  intros Hlog Hsz Hcalm Hk. pose proof (lookup_lt_Some _ _ _ Hk) as Hlt.
  assert (Hin : n ∈ bl) by (by eapply list_elem_of_lookup_2).
  pose proof (slot_home s bl k n Hlog Hlt Hin) as Hne.
  pose proof (lo_home _ _ Hlog) as Hhome. rewrite Forall_forall in Hhome.
  pose proof (Hhome _ Hin) as [Hn _].
  assert (Hslot : slot s k < disksize b).
  { rewrite Hsz. pose proof (lo_region _ _ Hlog). unfold slot. lia. }
  assert (Hsd : slot s k ∉ bl) by (intros H; by apply (slot_home s bl k _ Hlog Hlt H)).
  unfold write_log_body. rewrite (lo_dev _ _ Hlog). fold (slot s k).
  destruct (bread_ok b (slot s k) (calm_ok _ _ Hcalm) Hslot) as (i & bi & b1 & R1 & C1 & L1 & V1 & _ & E1 & D1 & W1).
  { apply (calm_locked _ _ Hcalm). }
  { right. apply (calm_free _ _ Hcalm), Hlog. }
  erewrite bind_eq by (apply blk_ok; exact R1). rewrite with_io_io.
  erewrite bind_eq by (apply lh_at_ok; by apply (lo_blocks _ _ Hlog)).
  assert (Hd1 : forall m, m <> slot s k -> dirty_block b1 m <-> m ∈ bl).
  { intros m Hm. rewrite (ef_dirty _ _ _ _ _ _ E1), <- (calm_dirty _ _ Hcalm). tauto. }
  destruct (bread_ok b1 n (ef_ok _ _ _ _ _ _ E1)) as (j & bj & b2 & R2 & C2 & L2 & V2 & Dj & E2 & D2 & W2).
  { rewrite (ef_size _ _ _ _ _ _ E1). lia. }
  { rewrite (ef_locked _ _ _ _ _ _ E1). intros [[? _]|[_ H]]; [congruence|].
    by apply (calm_locked _ _ Hcalm) in H. }
  { left. apply dirty_cached. apply (ef_dirty _ _ _ _ _ _ E1). right. split; [congruence|].
    by apply (calm_dirty _ _ Hcalm). }
  erewrite bind_eq by (apply blk_ok; exact R2). rewrite with_io_io.
  erewrite bind_eq by (apply blk_ok; apply buf_at_ok; apply C2). rewrite with_io_io.
  assert (Hi2 : caches b2 i bi (slot s k)) by (by apply (ef_held _ _ _ _ _ _ E2)).
  assert (Hdj : dirty bj = true).
  { apply Dj, (ef_dirty _ _ _ _ _ _ E1). right. split; [congruence|]. by apply (calm_dirty _ _ Hcalm). }
  destruct (copy_held b2 i j bi bj (slot s k) n bl) as (b3 & b4 & b5 & b6 & R3 & R4 & R5 & R6 & Hw);
    try done.
  { apply (ef_ok _ _ _ _ _ _ E2). }
  { by rewrite (ef_size _ _ _ _ _ _ E2), (ef_size _ _ _ _ _ _ E1). }
  { intros m. rewrite (ef_locked _ _ _ _ _ _ E2), (ef_locked _ _ _ _ _ _ E1).
    pose proof (calm_locked _ _ Hcalm m). tauto. }
  { intros m Hm. rewrite (ef_dirty _ _ _ _ _ _ E2).
    destruct (decide (m = n)) as [->|Hmn].
    - rewrite <- (Hd1 n) by congruence. tauto.
    - rewrite <- (Hd1 m) by done. tauto. }
  { intros. congruence. }
  erewrite bind_eq by (apply blk_ok; exact R3). erewrite bind_eq by (apply blk_ok; exact R4).
  erewrite bind_eq by (apply blk_ok; exact R5). rewrite !with_io_io.
  cbv beta. erewrite blk_ok by exact R6. rewrite with_io_io. exists b6. split; [done|].
  assert (Ev : bdata bj = view b n).
  { rewrite V2, (ef_view _ _ _ _ _ _ E1). by rewrite decide_False by congruence. }
  rewrite Ev in Hw. destruct Hw as [Hw1 Hw2 Hw3 Hw4 Hw5]. split; [done|..].
  - intros m. rewrite Hw2. apply put_all_ext.
    rewrite (ef_view _ _ _ _ _ _ E2), !(ef_view _ _ _ _ _ _ E1).
    repeat case_decide; subst; try done; congruence.
  - intros m. by rewrite Hw3, D2, D1.
  - by rewrite Hw4, W2, W1.
  - by rewrite Hw5, (ef_size _ _ _ _ _ _ E2), (ef_size _ _ _ _ _ _ E1).
Qed.

(** What the loop of [write_log] writes for the entries [ks]. *)
Definition log_entries s (bl : list Z) (v : Z -> list Z) (ks : list nat) : list (Z * list Z) :=
  (fun k => (slot s k, v (nth k bl 0))) <$> ks.
Definition home_entries s (bl : list Z) (v : Z -> list Z) (ks : list nat) : list (Z * list Z) :=
  (fun k => (nth k bl 0, v (slot s k))) <$> ks.

Lemma write_log_loop s bl ks : forall b,
  log_ok s bl -> disksize b = disksize (io s) -> calm b bl ->
  (forall k, k ∈ ks -> (k < length bl)%nat) ->
  exists b', for_each ks (write_log_body s) (with_io b s) = Ret tt (with_io b' s) /\
    wrote b b' (log_entries s bl (view b) ks) bl.
Proof.
  induction ks as [|k ks IH]; intros b Hlog Hsz Hc Hks.
  { exists b. split; [done|by apply wrote_nil]. }
  destruct (lookup_lt_is_Some_2 bl k) as [n Hn]; [apply Hks; set_solver|].
  destruct (write_log_step s bl b k n Hlog Hsz Hc Hn) as (b1 & R1 & W1).
  destruct (IH b1 Hlog) as (b2 & R2 & W2); [by rewrite (wr_size _ _ _ _ W1)|apply W1|set_solver|].
  exists b2. split; [cbn [for_each]; by rewrite (bind_eq _ _ _ _ _ R1)|].
  assert (E : log_entries s bl (view b1) ks = log_entries s bl (view b) ks).
  { unfold log_entries. apply list_fmap_ext. intros x j Hj. f_equal.
    assert (Hlt : (j < length bl)%nat) by (apply Hks; apply list_elem_of_lookup_2 in Hj; set_solver).
    destruct (lookup_lt_is_Some_2 bl j Hlt) as [m Hm]. rewrite (nth_lookup_Some _ _ _ _ Hm).
    rewrite (wr_view _ _ _ _ W1). apply put_all_other. cbn.
    intros H%list_elem_of_singleton. subst m.
    apply (slot_home s bl k (slot s k) Hlog); [|by eapply list_elem_of_lookup_2|done].
    apply lookup_lt_Some in Hn. done. }
  rewrite E in W2. cbn. rewrite (nth_lookup_Some _ _ _ _ Hn).
  by apply (wrote_trans _ _ _ _ _ _ _ W1 W2).
Qed.

Definition install_body s : nat -> M lst unit := fun tail =>
    let! lbuf := blk (bread (ldev s) (start s + Z.of_nat tail + 1)) in
    let! bn := lh_at tail in
    let! dbuf := blk (bread (ldev s) bn) in
    let! lb := blk (buf_at lbuf) in
    blk (upd dbuf (set_bdata (bdata lb))) ;;;
    blk (bwrite dbuf) ;;;
    blk (brelse lbuf) ;;;
    blk (brelse dbuf).

Lemma install_step s bl b k n dl :
  log_ok s bl -> disksize b = disksize (io s) -> calm b dl -> bl !! k = Some n ->
  slot s k ∉ dl -> (n ∈ dl \/ (S (length dl) < NBUF)%nat) -> (length dl < NBUF)%nat ->
  exists b', install_body s k (with_io b s) = Ret tt (with_io b' s) /\
    wrote b b' [(n, view b (slot s k))] (filter (fun m => m <> n) dl).
Proof.
  intros Hlog Hsz Hcalm Hk Hsd Hroom Hlen. pose proof (lookup_lt_Some _ _ _ Hk) as Hlt.
  assert (Hin : n ∈ bl) by (by eapply list_elem_of_lookup_2).
  pose proof (slot_home s bl k n Hlog Hlt Hin) as Hne.
  pose proof (lo_home _ _ Hlog) as Hhome. rewrite Forall_forall in Hhome.
  pose proof (Hhome _ Hin) as [Hn _].
  assert (Hslot : slot s k < disksize b).
  { rewrite Hsz. pose proof (lo_region _ _ Hlog). unfold slot. lia. }
  unfold install_body. rewrite (lo_dev _ _ Hlog). fold (slot s k).
  destruct (bread_ok b (slot s k) (calm_ok _ _ Hcalm) Hslot) as (j & bj & b1 & R1 & C1 & L1 & V1 & Dj & E1 & D1 & W1).
  { apply (calm_locked _ _ Hcalm). }
  { right. by apply (calm_free _ _ Hcalm). }
  erewrite bind_eq by (apply blk_ok; exact R1). rewrite with_io_io.
  erewrite bind_eq by (apply lh_at_ok; by apply (lo_blocks _ _ Hlog)).
  assert (Hd1 : forall m, dirty_block b1 m <-> m ∈ dl).
  { intros m. rewrite (ef_dirty _ _ _ _ _ _ E1), <- (calm_dirty _ _ Hcalm).
    destruct (decide (m = slot s k)) as [->|]; tauto. }
  assert (Hl1 : forall m, locked_block b1 m <-> m = slot s k).
  { intros m. rewrite (ef_locked _ _ _ _ _ _ E1). pose proof (calm_locked _ _ Hcalm m). tauto. }
  destruct (bread_ok b1 n (ef_ok _ _ _ _ _ _ E1)) as (i & bi & b2 & R2 & C2 & L2 & V2 & _ & E2 & D2 & W2).
  { rewrite (ef_size _ _ _ _ _ _ E1). lia. }
  { rewrite Hl1. congruence. }
  { destruct Hroom as [Hr|Hr]; [left; apply dirty_cached, Hd1; done|right].
    apply (free_exists b1 (slot s k :: dl)); [apply (ef_ok _ _ _ _ _ _ E1)| |done].
    intros m. rewrite Hd1, Hl1. set_solver. }
  erewrite bind_eq by (apply blk_ok; exact R2). rewrite with_io_io.
  assert (Hj2 : caches b2 j bj (slot s k)) by (by apply (ef_held _ _ _ _ _ _ E2)).
  erewrite bind_eq by (apply blk_ok; apply buf_at_ok; apply Hj2). rewrite with_io_io.
  destruct (copy_held b2 i j bi bj n (slot s k) (filter (fun m => m <> n) dl))
    as (b3 & b4 & b5 & b6 & R3 & R4 & R5 & R6 & Hw); try done.
  { apply (ef_ok _ _ _ _ _ _ E2). }
  { rewrite (ef_size _ _ _ _ _ _ E2), (ef_size _ _ _ _ _ _ E1). lia. }
  { intros m. rewrite (ef_locked _ _ _ _ _ _ E2), Hl1. tauto. }
  { intros m Hm. rewrite (ef_dirty _ _ _ _ _ _ E2), !Hd1, list_elem_of_filter. tauto. }
  { rewrite list_elem_of_filter. tauto. }
  { intros _. rewrite V1, D2, D1. by apply (calm_clean b dl). }
  erewrite bind_eq by (apply blk_ok; exact R3). erewrite bind_eq by (apply blk_ok; exact R4).
  erewrite bind_eq by (apply blk_ok; exact R5). rewrite !with_io_io.
  cbv beta. erewrite blk_ok by exact R6. rewrite with_io_io. exists b6. split; [done|].
  rewrite V1 in Hw. destruct Hw as [Hw1 Hw2 Hw3 Hw4 Hw5]. split; [done|..].
  - intros m. rewrite Hw2. apply put_all_ext.
    rewrite (ef_view _ _ _ _ _ _ E2), !(ef_view _ _ _ _ _ _ E1).
    repeat case_decide; subst; try done; congruence.
  - intros m. by rewrite Hw3, D2, D1.
  - by rewrite Hw4, W2, W1.
  - by rewrite Hw5, (ef_size _ _ _ _ _ _ E2), (ef_size _ _ _ _ _ _ E1).
Qed.

(** The dirty blocks that are left when the entries [ks] are installed. *)
Definition left_dirty (bl : list Z) (ks : list nat) (dl : list Z) : list Z :=
  foldl (fun dl k => filter (fun m => m <> nth k bl 0) dl) dl ks.

Lemma install_loop s bl ks : forall b dl,
  log_ok s bl -> disksize b = disksize (io s) -> calm b dl ->
  (forall k, k ∈ ks -> (k < length bl)%nat) -> NoDup ks ->
  (forall k, (k < length bl)%nat -> slot s k ∉ dl) -> (length dl < NBUF)%nat ->
  ((forall k, k ∈ ks -> nth k bl 0 ∈ dl) \/ dl = []) ->
  exists b', for_each ks (install_body s) (with_io b s) = Ret tt (with_io b' s) /\
    wrote b b' (home_entries s bl (view b) ks) (left_dirty bl ks dl).
Proof.
  induction ks as [|k ks IH]; intros b dl Hlog Hsz Hc Hks Hnd Hsl Hlen Hroom.
  { exists b. split; [done|by apply wrote_nil]. }
  apply NoDup_cons in Hnd as [Hk Hnd].
  assert (Hklt : (k < length bl)%nat) by (apply Hks; set_solver).
  destruct (lookup_lt_is_Some_2 bl k Hklt) as [n Hn].
  pose proof (nth_lookup_Some _ _ 0 _ Hn) as En.
  destruct (install_step s bl b k n dl Hlog Hsz Hc Hn) as (b1 & R1 & W1); [by apply Hsl| |done|].
  { destruct Hroom as [H| ->]; [left; rewrite <- En; apply H; set_solver|right; cbn; unfold NBUF; lia]. }
  pose proof (length_filter (fun m => m <> n) dl) as Hfl.
  destruct (IH b1 (filter (fun m => m <> n) dl) Hlog) as (b2 & R2 & W2).
  { by rewrite (wr_size _ _ _ _ W1). }
  { apply W1. }
  { set_solver. }
  { done. }
  { intros j Hj. rewrite list_elem_of_filter. intros [_ H]. by apply (Hsl j Hj). }
  { lia. }
  { destruct Hroom as [H| ->]; [left|by right]. intros j Hj. apply list_elem_of_filter.
    split; [|apply H; set_solver]. intros E.
    assert (Hjlt : (j < length bl)%nat) by (apply Hks; set_solver).
    destruct (lookup_lt_is_Some_2 bl j Hjlt) as [m Hm]. rewrite (nth_lookup_Some _ _ _ _ Hm) in E. subst m.
    assert (j = k) as -> by (eapply NoDup_lookup; [apply (lo_nodup _ _ Hlog)|done|done]). done. }
  exists b2. split; [cbn [for_each]; by rewrite (bind_eq _ _ _ _ _ R1)|].
  assert (E : home_entries s bl (view b1) ks = home_entries s bl (view b) ks).
  { unfold home_entries. apply list_fmap_ext. intros x j Hj. f_equal.
    rewrite (wr_view _ _ _ _ W1). apply put_all_other. cbn. intros H%list_elem_of_singleton.
    apply (slot_home s bl j n Hlog); [|by eapply list_elem_of_lookup_2|done].
    apply Hks. apply list_elem_of_lookup_2 in Hj. set_solver. }
  rewrite E in W2. cbn. rewrite En. cbn [left_dirty foldl].
  by apply (wrote_trans _ _ _ _ _ _ _ W1 W2).
Qed.

(** ** The header *)

(** The header block [write_head] makes of the old contents [d]. *)
Definition header (d : list Z) (bl : list Z) : list Z :=
  foldl (fun d k => st_word d (S k) (nth k bl 0)) (st_word d 0 (Z.of_nat (length bl)))
    (seq 0 (length bl)).

Lemma set_bdata_twice d d' b : set_bdata d' (set_bdata d b) = set_bdata d' b.
Proof. done. Qed.

Lemma header_loop s bl i bi b0 ks : forall d,
  bufs b0 !! i = Some bi ->
  (forall k, k ∈ ks -> lh_block s !! k = Some (nth k bl 0)) ->
  for_each ks (fun k =>
    let! v := lh_at k in
    blk (upd i (fun b => set_bdata (st_word (bdata b) (S k) v) b)))
    (with_io (with_bufs (<[i := set_bdata d bi]> (bufs b0)) b0) s) =
  Ret tt (with_io (with_bufs (<[i := set_bdata (foldl (fun d k => st_word d (S k) (nth k bl 0)) d ks) bi]>
    (bufs b0)) b0) s).
Proof.
  induction ks as [|k ks IH]; intros d Hi Hks; [done|]. cbn [for_each foldl].
  rewrite <- IH by set_solver.
  assert (Hlt : (i < length (bufs b0))%nat) by (by apply lookup_lt_Some in Hi).
  unfold bind at 1. erewrite (bind_eq (lh_at k)) by (apply lh_at_ok; cbn; apply Hks; set_solver).
  unfold blk, zoom, upd, modify. cbn [io with_io bufs with_bufs].
  erewrite alter_insert by (by apply list_lookup_insert_eq). rewrite list_insert_insert_eq. done.
Qed.

Lemma write_head_ok s bl b dl :
  ldev s = 1 -> lh_n s = Z.of_nat (length bl) ->
  (forall k n, bl !! k = Some n -> lh_block s !! k = Some n) ->
  calm b dl -> start s ∉ dl -> start s < disksize b -> (length dl < NBUF)%nat ->
  exists b', write_head (with_io b s) = Ret tt (with_io b' s) /\
    wrote b b' [(start s, header (view b (start s)) bl)] dl.
Proof.
  intros Hdev Hn Hbl Hc Hs Hsz Hlen. unfold write_head.
  erewrite (bind_eq get) by reflexivity. cbn [ldev start lh_n with_io]. rewrite Hdev, Hn, Nat2Z.id.
  destruct (bread_ok b (start s) (calm_ok _ _ Hc) Hsz) as (i & bi & b1 & R1 & C1 & L1 & V1 & _ & E1 & D1 & W1).
  { apply (calm_locked _ _ Hc). }
  { right. by apply (calm_free _ _ Hc). }
  erewrite bind_eq by (apply blk_ok; exact R1). rewrite with_io_io.
  assert (Hi : bufs b1 !! i = Some bi) by apply C1.
  set (d0 := st_word (bdata bi) 0 (Z.of_nat (length bl))).
  assert (Hupd : blk (upd i (fun b => set_bdata (st_word (bdata b) 0 (Z.of_nat (length bl))) b)) (with_io b1 s) =
    Ret tt (with_io (with_bufs (<[i := set_bdata d0 bi]> (bufs b1)) b1) s)).
  { unfold blk, zoom, upd, modify. cbn [io with_io]. by rewrite (alter_insert _ _ _ _ Hi). }
  rewrite (bind_eq _ _ _ _ _ Hupd).
  erewrite bind_eq by (apply (header_loop s bl); [exact Hi|]; intros k Hk;
    apply elem_of_seq in Hk; destruct (lookup_lt_is_Some_2 bl k) as [n Hkn]; [lia|];
    rewrite (nth_lookup_Some _ _ _ _ Hkn); by apply Hbl).
  set (d := foldl _ d0 _). assert (Ed : d = header (view b (start s)) bl) by (unfold d, d0, header; by rewrite V1).
  clearbody d. subst d.
  destruct (set_bdata_ok b1 i bi (start s) (header (view b (start s)) bl) (ef_ok _ _ _ _ _ _ E1) C1 L1)
    as (b2 & R2 & E2 & C2 & D2 & W2).
  assert (Eb : with_bufs (<[i := set_bdata (header (view b (start s)) bl) bi]> (bufs b1)) b1 = b2).
  { unfold upd, modify in R2. rewrite (alter_insert _ _ _ _ Hi) in R2. by injection R2. }
  rewrite Eb.
  destruct (bwrite_ok b2 i _ (start s) (ef_ok _ _ _ _ _ _ E2) C2 L1) as (b3 & R3 & E3 & C3 & D3 & W3).
  { by rewrite (ef_size _ _ _ _ _ _ E2), (ef_size _ _ _ _ _ _ E1). }
  erewrite bind_eq by (apply blk_ok; exact R3). rewrite with_io_io.
  destruct (brelse_ok b3 i _ (start s) (ef_ok _ _ _ _ _ _ E3) C3 L1) as (b4 & R4 & E4 & D4 & W4).
  { intros _. rewrite D3. by rewrite Z.eqb_refl. }
  cbv beta. erewrite blk_ok by exact R4. rewrite with_io_io. exists b4. split; [done|]. cbn in *.
  split; [split|..].
  - apply (ef_ok _ _ _ _ _ _ E4).
  - intros m. rewrite (ef_locked _ _ _ _ _ _ E4), (ef_locked _ _ _ _ _ _ E3),
      (ef_locked _ _ _ _ _ _ E2), (ef_locked _ _ _ _ _ _ E1). pose proof (calm_locked _ _ Hc m). tauto.
  - intros m. rewrite (ef_dirty _ _ _ _ _ _ E4), (ef_dirty _ _ _ _ _ _ E3),
      (ef_dirty _ _ _ _ _ _ E2), (ef_dirty _ _ _ _ _ _ E1), <- (calm_dirty _ _ Hc). cbn.
    assert (~ dirty_block b (start s)) by (by rewrite (calm_dirty _ _ Hc)).
    destruct (decide (m = start s)) as [->|]; [|tauto]. split; [naive_solver|done].
  - intros m. rewrite (ef_view _ _ _ _ _ _ E4), (ef_view _ _ _ _ _ _ E3),
      (ef_view _ _ _ _ _ _ E2), (ef_view _ _ _ _ _ _ E1). cbn.
    destruct (decide (m = start s)) as [->|Hm]; [by rewrite Z.eqb_refl|].
    by rewrite (proj2 (Z.eqb_neq _ _)).
  - intros m. rewrite D4, D3, D2, D1. done.
  - by rewrite W4, W3, W2, W1.
  - by rewrite (ef_size _ _ _ _ _ _ E4), (ef_size _ _ _ _ _ _ E3), (ef_size _ _ _ _ _ _ E2),
      (ef_size _ _ _ _ _ _ E1).
Qed.

End Loops.

(** ** Words of a block *)

Lemma st_word_length d i v : (4 * i + 4 <= length d)%nat -> length (st_word d i v) = length d.
Proof.
  intros H. unfold st_word. rewrite !length_app, length_take, length_drop. cbn [length word_bytes]. lia.
Qed.

Lemma st_word_nth d i v j : (4 * i + 4 <= length d)%nat ->
  nth j (st_word d i v) 0 =
  if decide (4 * i <= j < 4 * i + 4)%nat then nth (j - 4 * i) (word_bytes (u32 v)) 0 else nth j d 0.
Proof.
  intros H. unfold st_word. rewrite !nth_lookup.
  assert (Hl : length (take (4 * i) d) = (4 * i)%nat) by (rewrite length_take; lia).
  assert (Hw : length (word_bytes (u32 v)) = 4%nat) by done.
  case_decide as E.
  - rewrite lookup_app_r, Hl, lookup_app_l by lia. done.
  - destruct (decide (j < 4 * i)%nat).
    + rewrite lookup_app_l, lookup_take_lt by lia. done.
    + rewrite lookup_app_r, Hl, lookup_app_r, Hw, lookup_drop by lia. do 2 f_equal. lia.
Qed.

Lemma word_bytes_sum v : 0 <= v < 4294967296 ->
  v mod 256 + 256 * (v / 256 mod 256) + 65536 * (v / 65536 mod 256)
    + 16777216 * (v / 16777216 mod 256) = v.
Proof.
  intros Hv. pose proof (ld32_st32 (fun _ => 0) 0 v Hv) as H. exact H.
Qed.

Lemma ld_st_word d i j v : (4 * i + 4 <= length d)%nat -> 0 <= v < 4294967296 ->
  ld_word (st_word d i v) j = if decide (i = j) then v else ld_word d j.
Proof.
  intros Hd Hv. unfold ld_word. rewrite !st_word_nth by done. rewrite (u32_small v Hv).
  destruct (decide (i = j)) as [<-|E].
  - rewrite !decide_True by lia.
    replace (4 * i - 4 * i)%nat with 0%nat by lia. replace (4 * i + 1 - 4 * i)%nat with 1%nat by lia.
    replace (4 * i + 2 - 4 * i)%nat with 2%nat by lia. replace (4 * i + 3 - 4 * i)%nat with 3%nat by lia.
    by apply word_bytes_sum.
  - rewrite !decide_False by lia. done.
Qed.

(** Every block number is a 32-bit word. *)
Definition words (bl : list Z) : Prop := Forall (fun v => 0 <= v < 4294967296) bl.

Lemma foldl_words bl ks : forall d,
  words bl -> (forall k, k ∈ ks -> (k < length bl)%nat) -> (4 * length bl + 4 <= length d)%nat ->
  let d' := foldl (fun d k => st_word d (S k) (nth k bl 0)) d ks in
  length d' = length d /\ ld_word d' 0 = ld_word d 0 /\
  forall k, k ∈ ks \/ ld_word d (S k) = nth k bl 0 -> ld_word d' (S k) = nth k bl 0.
Proof.
  induction ks as [|x ks IH]; intros d Hw Hks Hd; cbn [foldl].
  { split_and!; try done. by intros k [?%not_elem_of_nil|]. }
  assert (Hx : (x < length bl)%nat) by (apply Hks; set_solver).
  destruct (lookup_lt_is_Some_2 bl x Hx) as [v Hv]. pose proof (nth_lookup_Some _ _ 0 _ Hv) as Ev.
  assert (Hvr : 0 <= v < 4294967296) by (unfold words in Hw; rewrite Forall_lookup in Hw; eauto).
  assert (Hd1 : (4 * S x + 4 <= length d)%nat) by lia.
  pose proof (st_word_length d (S x) v Hd1) as Hl.
  rewrite Ev. destruct (IH (st_word d (S x) v) Hw) as (L & Z0 & R); [set_solver|lia|].
  cbn zeta in *. rewrite L, Z0, Hl, ld_st_word by done. split_and!; try done.
  intros k Hk. apply R. rewrite ld_st_word by done. case_decide as E; [right; injection E as ->; done|].
  destruct Hk as [Hk|Hk]; [|by right]. apply elem_of_cons in Hk as [->|]; [done|by left].
Qed.

Lemma header_words d bl :
  words bl -> (length bl < NBUF)%nat -> length d = BSIZE ->
  length (header d bl) = BSIZE /\ ld_word (header d bl) 0 = Z.of_nat (length bl) /\
  forall k n, bl !! k = Some n -> ld_word (header d bl) (S k) = n.
Proof.
  intros Hw Hn Hd. unfold NBUF in Hn. unfold BSIZE in Hd.
  pose proof (st_word_length d 0 (Z.of_nat (length bl)) ltac:(lia)) as Hl.
  destruct (foldl_words bl (seq 0 (length bl)) (st_word d 0 (Z.of_nat (length bl))) Hw) as (L & H0 & R).
  { intros k Hk. apply elem_of_seq in Hk. lia. }
  { lia. }
  unfold header. rewrite L, H0, Hl, ld_st_word by lia. split_and!; [done|done|].
  intros k n Hk. rewrite R.
  - by apply nth_lookup_Some.
  - left. apply elem_of_seq. apply lookup_lt_Some in Hk. lia.
Qed.

(** ** A commit *)

(** The block writes of a commit, in order: the log's copy of each block, the
    header that names them, each block at home, and the empty header. *)
Definition commit_writes s (bl : list Z) (v : Z -> list Z) (ks : list nat) : list (Z * list Z) :=
  let h := header (v (start s)) bl in
  log_entries s bl v ks ++ [(start s, h)] ++
  ((fun k => (nth k bl 0, v (nth k bl 0))) <$> ks) ++ [(start s, header h [])].

Lemma with_io_eta s : with_io (io s) s = s.
Proof. by destruct s. Qed.

Lemma slots_fst s bl v ks m : m ∈ (log_entries s bl v ks).*1 -> exists k, k ∈ ks /\ m = slot s k.
Proof.
  unfold log_entries. rewrite <- list_fmap_compose. intros (k & -> & Hk)%list_elem_of_fmap. by exists k.
Qed.

Lemma log_entries_nodup s bl v ks : NoDup ks -> NoDup (log_entries s bl v ks).*1.
Proof.
  intros H. unfold log_entries. rewrite <- list_fmap_compose.
  apply NoDup_fmap_2_strong; [|done]. intros i j _ _. cbn. unfold slot. lia.
Qed.

Lemma start_slot s k : slot s k <> start s.
Proof. unfold slot. lia. Qed.

Lemma left_dirty_in bl ks m : forall dl,
  m ∈ left_dirty bl ks dl -> m ∈ dl /\ forall k, k ∈ ks -> m <> nth k bl 0.
Proof.
  induction ks as [|x ks IH]; intros dl H; [by split; [|intros k ?%not_elem_of_nil]|].
  cbn [left_dirty foldl] in H. apply IH in H as [[H1 H2]%list_elem_of_filter H3].
  split; [done|]. intros k [->|Hk]%elem_of_cons; eauto.
Qed.

Lemma left_dirty_all bl dl : dl = bl \/ dl = [] -> left_dirty bl (seq 0 (length bl)) dl = [].
Proof.
  intros Hdl. destruct (left_dirty _ _ _) as [|m l] eqn:E; [done|]. exfalso.
  destruct (left_dirty_in bl (seq 0 (length bl)) m dl) as [H1 H2]; [rewrite E; set_solver|].
  destruct Hdl as [->| ->]; [|set_solver]. apply list_elem_of_lookup in H1 as [k Hk].
  apply (H2 k).
  - apply elem_of_seq. apply lookup_lt_Some in Hk. lia.
  - symmetry. by apply nth_lookup_Some.
Qed.

Lemma install_ok s bl b dl :
  log_ok s bl -> disksize b = disksize (io s) -> calm b dl -> dl = bl \/ dl = [] ->
  exists b', install_trans (with_io b s) = Ret tt (with_io b' s) /\
    wrote b b' (home_entries s bl (view b) (seq 0 (length bl))) [].
Proof.
  intros Hlog Hsz Hc Hdl. unfold install_trans. erewrite (bind_eq get) by reflexivity.
  cbn [lh_n with_io]. rewrite (lo_n _ _ Hlog), Nat2Z.id.
  change (for_each _ _ (with_io b s)) with
    (for_each (seq 0 (length bl)) (install_body s) (with_io b s)).
  destruct (install_loop s bl (seq 0 (length bl)) b dl Hlog Hsz Hc) as (b' & R & W).
  - intros k Hk. apply elem_of_seq in Hk. lia.
  - apply NoDup_seq.
  - intros k Hk Hin. destruct Hdl as [->| ->]; [|set_solver].
    by apply (slot_home s bl k _ Hlog Hk Hin).
  - destruct Hdl as [->| ->]; [apply Hlog|cbn; unfold NBUF; lia].
  - destruct Hdl as [->| ->]; [left|by right]. intros k Hk.
    destruct (lookup_lt_is_Some_2 bl k) as [n Hn]; [apply elem_of_seq in Hk; lia|].
    rewrite (nth_lookup_Some _ _ _ _ Hn). by eapply list_elem_of_lookup_2.
  - exists b'. split; [exact R|]. by rewrite left_dirty_all in W.
Qed.

Lemma commit_ok s bl :
  log_ok s bl -> bl <> [] -> calm (io s) bl -> start s ∉ bl ->
  exists b', commit s = Ret tt (with_io b' (with_lh_n 0 s)) /\
    wrote (io s) b' (commit_writes s bl (view (io s)) (seq 0 (length bl))) [].
Proof.
  intros Hlog Hne Hc Hst. set (ks := seq 0 (length bl)).
  assert (Hks : forall k, k ∈ ks -> (k < length bl)%nat) by (intros k Hk; apply elem_of_seq in Hk; lia).
  pose proof (lo_region _ _ Hlog) as [Hst0 Hreg].
  unfold commit. erewrite (bind_eq get) by reflexivity.
  assert (Hpos : lh_n s >? 0 = true).
  { rewrite (lo_n _ _ Hlog). destruct bl; [done|]. apply Z.gtb_lt. cbn [length]. lia. }
  rewrite Hpos. clear Hpos.
  destruct (write_log_loop s bl ks (io s) Hlog eq_refl Hc Hks) as (b1 & R1 & W1).
  rewrite with_io_eta in R1.
  assert (R1' : write_log s = Ret tt (with_io b1 s)).
  { unfold write_log. erewrite (bind_eq get) by reflexivity. rewrite (lo_n _ _ Hlog), Nat2Z.id. exact R1. }
  rewrite (bind_eq _ _ _ _ _ R1').
  destruct (write_head_ok s bl b1 bl) as (b2 & R2 & W2); try apply Hlog; try done.
  { apply W1. }
  { rewrite (wr_size _ _ _ _ W1). lia. }
  rewrite (bind_eq _ _ _ _ _ R2).
  assert (W12 := wrote_trans _ _ _ _ _ _ _ W1 W2).
  destruct (install_ok s bl b2 bl Hlog) as (b3 & R3 & W3).
  { by rewrite (wr_size _ _ _ _ W12). }
  { apply W12. }
  { by left. }
  rewrite (bind_eq _ _ _ _ _ R3).
  assert (W123 := wrote_trans _ _ _ _ _ _ _ W12 W3).
  unfold bind at 1, modify at 1.
  destruct (write_head_ok (with_lh_n 0 s) [] b3 []) as (b4 & R4 & W4); try done.
  { apply Hlog. }
  { apply W123. }
  { apply not_elem_of_nil. }
  { cbn. rewrite (wr_size _ _ _ _ W123). lia. }
  { cbn. unfold NBUF. lia. }
  exists b4. split; [exact R4|].
  assert (W := wrote_trans _ _ _ _ _ _ _ W123 W4).
  assert (V1 : view b1 (start s) = view (io s) (start s)).
  { rewrite (wr_view _ _ _ _ W1). apply put_all_other.
    intros (k & _ & E)%slots_fst. by apply (start_slot s k). }
  assert (V2 : forall k, k ∈ ks -> view b2 (slot s k) = view (io s) (nth k bl 0)).
  { intros k Hk. rewrite (wr_view _ _ _ _ W12), put_all_app. rewrite put_all_other.
    2:{ cbn. intros H%list_elem_of_singleton. by apply (start_slot s k). }
    apply put_all_in; [apply log_entries_nodup, NoDup_seq|].
    unfold log_entries. apply (list_elem_of_fmap_2 (fun k => (slot s k, view (io s) (nth k bl 0)))). done. }
  assert (V3 : view b3 (start s) = header (view (io s) (start s)) bl).
  { rewrite (wr_view _ _ _ _ W3), put_all_other.
    2:{ unfold home_entries. rewrite <- list_fmap_compose. intros (k & E & Hk)%list_elem_of_fmap.
        cbn in E. apply Hst. rewrite E. apply Hks in Hk. destruct (lookup_lt_is_Some_2 bl k Hk) as [n Hn].
        rewrite (nth_lookup_Some _ _ _ _ Hn). by eapply list_elem_of_lookup_2. }
    rewrite (wr_view _ _ _ _ W2). cbn. by rewrite Z.eqb_refl, V1. }
  assert (H3 : home_entries s bl (view b2) ks = (fun k => (nth k bl 0, view (io s) (nth k bl 0))) <$> ks).
  { unfold home_entries. apply list_fmap_ext. intros x k Hk. f_equal. apply V2. by eapply list_elem_of_lookup_2. }
  unfold commit_writes. fold ks. fold ks in W. cbn [start with_lh_n] in W. rewrite V1, V3, H3 in W.
  by rewrite <- !app_assoc in W.
Qed.

(** ** Recovery *)

(** The machine after a reboot: an empty cache over the disk [d]. *)
Definition cold_cpu : Cli.cpu := {| Cli.ncli := 0; Cli.intena := false; Cli.intr := false |}.
Definition boot (d : Z -> list Z) (sz : Z) : lst :=
  {| io := binit {| bufs := replicate NBUF blank_buf; order := []; bclk := false; bcpu := cold_cpu;
                    disk := d; disksize := sz; writes := [] |};
     start := 0; lsize := 0; outstanding := 0; committing := 0; ldev := 0;
     lh_n := 0; lh_block := replicate LOGSIZE 0; llk := false |}.

Lemma boot_bufs d sz i b n : ~ caches (io (boot d sz)) i b n.
Proof.
  intros (H & Hd & _). cbn -[replicate] in H. apply lookup_replicate in H as [-> _]. done.
Qed.

Lemma boot_calm d sz : calm (io (boot d sz)) [].
Proof.
  pose proof (boot_bufs d sz) as Hb. split.
  - split; try (intros; exfalso; by eapply Hb).
    + done.
    + change (order (io (boot d sz))) with (rev (seq 0 NBUF)). symmetry. apply Permutation_rev.
    + split; [done|]. split; [done|]. intros H. cbn in H. lia.
    + intros i b H. cbn -[replicate] in H. apply lookup_replicate in H as [-> _]. cbn. by intros [?|?].
    + intros i b H. cbn -[replicate] in H. by apply lookup_replicate in H as [-> _].
  - intros m (i & b & H & _). by apply Hb in H.
  - intros m. split; [|set_solver]. intros (i & b & H & _). by apply Hb in H.
Qed.

Lemma boot_view d sz m : view (io (boot d sz)) m = d m.
Proof. apply view_uncached. intros (i & b & H). by apply boot_bufs in H. Qed.

(** Reading a block and giving the buffer back. *)
Lemma read_back b n dl :
  calm b dl -> n < disksize b -> (length dl < NBUF)%nat ->
  exists i bi b1 b2, bread 1 n b = Ret i b1 /\ buf_at i b1 = Ret bi b1 /\ bdata bi = view b n /\
    brelse i b1 = Ret tt b2 /\ wrote b b2 [] dl.
Proof.
  intros Hc Hn Hlen.
  destruct (bread_ok b n (calm_ok _ _ Hc) Hn) as (i & bi & b1 & R1 & C1 & L1 & V1 & Db & E1 & D1 & W1).
  { apply (calm_locked _ _ Hc). }
  { right. by apply (calm_free _ _ Hc). }
  destruct (brelse_ok b1 i bi n (ef_ok _ _ _ _ _ _ E1) C1 L1) as (b2 & R2 & E2 & D2 & W2).
  { intros Hd. rewrite V1, D1. apply (calm_clean b dl); [done|]. rewrite <- (calm_dirty _ _ Hc).
    rewrite <- Db. congruence. }
  exists i, bi, b1, b2. split_and!; try done; [by apply buf_at_ok, C1|]. split; [split|..].
  - apply E2.
  - intros m. rewrite (ef_locked _ _ _ _ _ _ E2), (ef_locked _ _ _ _ _ _ E1).
    pose proof (calm_locked _ _ Hc m). tauto.
  - intros m. rewrite (ef_dirty _ _ _ _ _ _ E2), (ef_dirty _ _ _ _ _ _ E1), <- (calm_dirty _ _ Hc).
    destruct (decide (m = n)) as [->|]; [|tauto]. rewrite Db. tauto.
  - intros m. rewrite (ef_view _ _ _ _ _ _ E2), (ef_view _ _ _ _ _ _ E1), V1. cbn.
    by case_decide; subst.
  - intros m. by rewrite D2, D1.
  - by rewrite W2, W1, app_nil_r.
  - by rewrite (ef_size _ _ _ _ _ _ E2), (ef_size _ _ _ _ _ _ E1).
Qed.

Lemma readsb_ok s b dl :
  calm b dl -> 1 < disksize b -> (length dl < NBUF)%nat ->
  exists b', readsb 1 (with_io b s) = Ret ((fun k => ld_word (view b 1) k) <$> seq 0 7) (with_io b' s) /\
    wrote b b' [] dl.
Proof.
  intros Hc Hn Hlen. destruct (read_back b 1 dl Hc Hn Hlen) as (i & bi & b1 & b2 & R1 & R2 & V & R3 & W).
  unfold readsb. erewrite bind_eq by (apply blk_ok; exact R1). rewrite with_io_io.
  erewrite bind_eq by (apply blk_ok; exact R2). rewrite with_io_io.
  erewrite bind_eq by (apply blk_ok; exact R3). rewrite with_io_io, V. by exists b2.
Qed.

Definition fill (f : nat -> Z) (ks : list nat) (l : list Z) : list Z :=
  foldl (fun l k => <[k := f k]> l) l ks.

Lemma fill_length f ks l : length (fill f ks l) = length l.
Proof. revert l. induction ks as [|k ks IH]; intros l; [done|].
  change (length (fill f ks (<[k:=f k]> l)) = length l). by rewrite IH, length_insert. Qed.

Lemma fill_lookup f ks : forall l k, (k < length l)%nat -> k ∈ ks \/ l !! k = Some (f k) ->
  fill f ks l !! k = Some (f k).
Proof.
  induction ks as [|x ks IH]; intros l k Hk H.
  { by destruct H as [?%not_elem_of_nil|]. }
  change (fill f ks (<[x:=f x]> l) !! k = Some (f k)).
  apply IH; [by rewrite length_insert|]. destruct (decide (x = k)) as [->|Hne].
  { right. by apply list_lookup_insert_eq. }
  rewrite list_lookup_insert_ne by done. set_solver.
Qed.

Lemma set_lh_loop f ks : forall s, (forall k, k ∈ ks -> (k < LOGSIZE)%nat) ->
  for_each ks (fun k => set_lh k (f k)) s = Ret tt (with_lh_block (fill f ks (lh_block s)) s).
Proof.
  induction ks as [|x ks IH]; intros s H; [by destruct s|].
  cbn [for_each]. assert (Hx : (x < LOGSIZE)%nat) by (apply H; set_solver).
  unfold set_lh at 1. apply Nat.ltb_lt in Hx. rewrite Hx.
  unfold bind at 1, modify at 1. rewrite IH by set_solver. done.
Qed.

(** A disk whose log names the blocks [bl]. *)
Record log_disk (d : Z -> list Z) (sz st nlog : Z) (bl : list Z) : Prop := {
  ld_sb : ld_word (d 1) 4 = st /\ ld_word (d 1) 3 = nlog;
  ld_sz : 1 < sz;
  ld_n : ld_word (d st) 0 = Z.of_nat (length bl);
  ld_blocks : forall k n, bl !! k = Some n -> ld_word (d st) (S k) = n;
  ld_max : (length bl < NBUF)%nat;
  ld_nodup : NoDup bl;
  ld_region : 0 <= st /\ st + Z.of_nat (length bl) < sz;
  ld_home : Forall (fun n => 0 <= n < sz /\ (n < st \/ st + Z.of_nat (length bl) < n)) bl }.

Lemma read_head_ok s b bl :
  ldev s = 1 -> calm b [] -> start s < disksize b -> length (lh_block s) = LOGSIZE ->
  ld_word (view b (start s)) 0 = Z.of_nat (length bl) ->
  (forall k n, bl !! k = Some n -> ld_word (view b (start s)) (S k) = n) -> (length bl < NBUF)%nat ->
  exists b' lb, read_head (with_io b s) = Ret tt (with_io b' (with_lh_block lb (with_lh_n (Z.of_nat (length bl)) s))) /\
    wrote b b' [] [] /\ length lb = LOGSIZE /\ forall k n, bl !! k = Some n -> lb !! k = Some n.
Proof.
  intros Hdev Hc Hn Hll H0 Hk Hlen. unfold NBUF in Hlen.
  destruct (read_back b (start s) [] Hc Hn) as (i & bi & b1 & b2 & R1 & R2 & V & R3 & W).
  { cbn. unfold NBUF. lia. }
  unfold read_head. erewrite (bind_eq get) by reflexivity. cbn [ldev start with_io]. rewrite Hdev.
  erewrite bind_eq by (apply blk_ok; exact R1). rewrite with_io_io.
  erewrite bind_eq by (apply blk_ok; exact R2). rewrite with_io_io, V, H0.
  rewrite i32_small, Nat2Z.id by lia. unfold bind at 1, modify at 1.
  erewrite bind_eq by (apply (set_lh_loop (fun k => ld_word (view b (start s)) (S k)));
    intros k Hin; apply elem_of_seq in Hin; unfold LOGSIZE; lia).
  erewrite blk_ok by exact R3.
  exists b2, (fill (fun k => ld_word (view b (start s)) (S k)) (seq 0 (length bl)) (lh_block s)).
  split; [done|]. split; [done|]. split; [rewrite <- Hll; apply fill_length|]. intros k n Hkn.
  pose proof (Hk _ _ Hkn) as E. apply lookup_lt_Some in Hkn. cbn [lh_block with_io with_lh_n].
  rewrite (fill_lookup (fun k => ld_word (view b (start s)) (S k))).
  - by rewrite E.
  - rewrite Hll. unfold LOGSIZE. lia.
  - left. apply elem_of_seq. lia.
Qed.

(** The block writes of recovery. *)
Definition recover_writes (d : Z -> list Z) (st : Z) (bl : list Z) (ks : list nat) : list (Z * list Z) :=
  ((fun k => (nth k bl 0, d (st + Z.of_nat k + 1))) <$> ks) ++ [(st, header (d st) [])].

(** Recovery from any state of a quiet cache that shows the disk [d]. *)
Lemma initlog_from r0 d sz st nlog bl :
  log_disk d sz st nlog bl -> calm (io r0) [] -> (forall m, view (io r0) m = d m) -> disksize (io r0) = sz ->
  length (lh_block r0) = LOGSIZE ->
  exists s', initlog 1 r0 = Ret tt s' /\ lh_n s' = 0 /\ start s' = st /\ lsize s' = nlog /\
    wrote (io r0) (io s') (recover_writes d st bl (seq 0 (length bl))) [].
Proof.
  intros [[Hst Hnl] Hsz H0 Hk Hmax Hnd Hreg Hhome] Hc Hview Hdsz Hlhb.
  unfold initlog. unfold bind at 1, modify at 1. set (s0 := Cli.set_lk tt false r0).
  destruct (readsb_ok s0 (io r0) [] Hc) as (b1 & R1 & W1); [lia|cbn; unfold NBUF; lia|].
  assert (R1' : readsb 1 s0 = Ret ((fun k => ld_word (d 1) k) <$> seq 0 7) (with_io b1 s0)).
  { rewrite Hview in R1. destruct r0; exact R1. }
  rewrite (bind_eq _ _ _ _ _ R1'). unfold bind at 1, modify at 1.
  change (nth 4 _ 0) with (ld_word (d 1) 4). change (nth 3 _ 0) with (ld_word (d 1) 3). rewrite Hst, Hnl.
  set (s1 := with_sb st nlog 1 s0). change (with_sb st nlog 1 (with_io b1 s0)) with (with_io b1 s1).
  assert (V1 : forall m, view b1 m = d m).
  { intros m. rewrite (wr_view _ _ _ _ W1). apply Hview. }
  assert (S1 : disksize b1 = sz) by (by rewrite (wr_size _ _ _ _ W1)).
  unfold recover_from_log.
  destruct (read_head_ok s1 b1 bl) as (b2 & lb & R2 & W2 & L2 & B2); try done.
  { apply W1. }
  { cbn. rewrite S1. lia. }
  { cbn [start s1 with_sb]. by rewrite V1. }
  { cbn [start s1 with_sb]. by rewrite V1. }
  rewrite (bind_eq _ _ _ _ _ R2). set (s2 := with_lh_block lb _).
  assert (W12 := wrote_trans _ _ _ _ _ _ _ W1 W2).
  assert (S2 : disksize b2 = sz) by (by rewrite (wr_size _ _ _ _ W12)).
  assert (Hlog : log_ok (with_io b2 s2) bl).
  { split; try done; cbn [io with_io]; rewrite S2; done. }
  destruct (install_ok (with_io b2 s2) bl b2 [] Hlog eq_refl) as (b3 & R3 & W3).
  { apply W12. }
  { by right. }
  rewrite with_io_io in R3. rewrite (bind_eq _ _ _ _ _ R3).
  assert (W123 := wrote_trans _ _ _ _ _ _ _ W12 W3).
  unfold bind at 1, modify at 1.
  destruct (write_head_ok (with_lh_n 0 s2) [] b3 []) as (b4 & R4 & W4); try done.
  { apply W123. }
  { apply not_elem_of_nil. }
  { change (start (with_lh_n 0 s2)) with st. rewrite (wr_size _ _ _ _ W123), Hdsz. lia. }
  { cbn. unfold NBUF. lia. }
  eexists. split; [exact R4|]. do 3 (split; [done|]).
  assert (W := wrote_trans _ _ _ _ _ _ _ W123 W4).
  assert (V2 : forall m, view b2 m = d m).
  { intros m. rewrite (wr_view _ _ _ _ W12). apply Hview. }
  assert (V3 : view b3 st = d st).
  { rewrite (wr_view _ _ _ _ W3), put_all_other; [apply V2|].
    unfold home_entries. rewrite <- list_fmap_compose. intros (k & E & Hin)%list_elem_of_fmap.
    cbn in E. apply elem_of_seq in Hin. destruct (lookup_lt_is_Some_2 bl k) as [n Hn]; [lia|].
    rewrite (nth_lookup_Some _ _ _ _ Hn) in E. subst n.
    rewrite Forall_lookup in Hhome. apply Hhome in Hn. lia. }
  assert (E : home_entries (with_io b2 s2) bl (view b2) (seq 0 (length bl)) =
    (fun k => (nth k bl 0, d (st + Z.of_nat k + 1))) <$> seq 0 (length bl)).
  { unfold home_entries. apply list_fmap_ext. intros x k _. f_equal. apply V2. }
  rewrite E in W. change (start (with_lh_n 0 s2)) with st in W. rewrite V3 in W. exact W.
Qed.

Lemma initlog_ok d sz st nlog bl :
  log_disk d sz st nlog bl ->
  exists s', initlog 1 (boot d sz) = Ret tt s' /\ lh_n s' = 0 /\ start s' = st /\ lsize s' = nlog /\
    wrote (io (boot d sz)) (io s') (recover_writes d st bl (seq 0 (length bl))) [].
Proof. intros H. apply (initlog_from (boot d sz) d sz); [done|apply boot_calm|apply boot_view|done..]. Qed.

(** ** Crashes *)

(** The disk when only the first [k] of the block writes [ws] were made. *)
Definition crash (ws : list (Z * list Z)) (k : nat) (d : Z -> list Z) : Z -> list Z :=
  put_all (take k ws) d.

Lemma crash_other ws k d m : m ∉ ws.*1 -> crash ws k d m = d m.
Proof.
  intros H. apply put_all_other. intros Hin. apply H.
  rewrite <- (take_drop k ws), fmap_app. set_solver.
Qed.

Lemma nth_seq_id (bl : list Z) : (fun k => nth k bl 0) <$> seq 0 (length bl) = bl.
Proof.
  apply list_eq. intros i. rewrite list_lookup_fmap. destruct (decide (i < length bl)%nat).
  - rewrite lookup_seq_lt by done. cbn. destruct (lookup_lt_is_Some_2 bl i) as [v Hv]; [done|].
    by rewrite Hv, (nth_lookup_Some _ _ _ _ Hv).
  - rewrite lookup_seq_ge by lia. cbn. symmetry. apply lookup_ge_None. lia.
Qed.

Lemma bl_fst (v : nat -> list Z) (bl : list Z) :
  ((fun k => (nth k bl 0, v k)) <$> seq 0 (length bl)).*1 = bl.
Proof. rewrite <- list_fmap_compose. apply nth_seq_id. Qed.

(** Recovery gives every block of [home] its value under [f], when the log
    does for the blocks it names and the disk does for the others. *)
Lemma recover_value d sz st nlog bl f (home : Z -> Prop) :
  log_disk d sz st nlog bl -> length (d st) = BSIZE ->
  (forall m, home m -> m <> st) ->
  (forall k n, bl !! k = Some n -> d (st + Z.of_nat k + 1) = f n) ->
  (forall m, home m -> m ∉ bl -> d m = f m) ->
  exists r, initlog 1 (boot d sz) = Ret tt r /\ (forall m, home m -> disk (io r) m = f m) /\
    ld_word (disk (io r) st) 0 = 0 /\ writes (io r) = recover_writes d st bl (seq 0 (length bl)) /\
    calm (io r) [].
Proof.
  intros Hd Hlen Hst Hin Hout. destruct (initlog_ok _ _ _ _ _ Hd) as (r & R & _ & _ & _ & W).
  exists r. split; [done|]. split; [|split; [|split; [|apply W]]].
  - intros m Hm. rewrite (wr_disk _ _ _ _ W). unfold recover_writes. rewrite put_all_app.
    rewrite put_all_other by (cbn; intros ?%list_elem_of_singleton; by apply (Hst m)).
    destruct (decide (m ∈ bl)) as [Hb|Hb].
    + apply put_all_in; [rewrite bl_fst; apply Hd|]. apply list_elem_of_lookup in Hb as [k Hk].
      rewrite <- (Hin k m Hk), <- (nth_lookup_Some _ _ 0 _ Hk).
      apply (list_elem_of_fmap_2 (fun k => (nth k bl 0, d (st + Z.of_nat k + 1)))).
      apply elem_of_seq. apply lookup_lt_Some in Hk. lia.
    + rewrite put_all_other by (by rewrite bl_fst). by apply Hout.
  - rewrite (wr_disk _ _ _ _ W). unfold recover_writes. rewrite put_all_app. cbn [put_all foldl fst snd].
    rewrite Z.eqb_refl. apply (header_words (d st) []); [by apply Forall_nil|cbn; unfold NBUF; lia|done].
  - by rewrite (wr_writes _ _ _ _ W).
Qed.

(** A block outside the part of the log that [bl] takes. *)
Definition home st (bl : list Z) (m : Z) : Prop := m < st \/ st + Z.of_nat (length bl) < m.

Lemma log_disk_empty d sz st nlog :
  ld_word (d 1) 4 = st /\ ld_word (d 1) 3 = nlog -> 1 < sz -> 0 <= st < sz -> ld_word (d st) 0 = 0 ->
  log_disk d sz st nlog [].
Proof.
  intros Hsb Hsz Hst H0. split; try done.
  - cbn. unfold NBUF. lia.
  - by apply NoDup_nil.
  - cbn. lia.
Qed.

(** The disk part way through installing a committed log. *)
Lemma installing d d' sz st nlog bl ws :
  log_disk d sz st nlog bl -> 1 < st -> 1 ∉ bl -> (forall m, m ∈ ws.*1 -> m ∈ bl) ->
  (forall m, d' m = put_all ws d m) ->
  log_disk d' sz st nlog bl /\ d' st = d st /\
  forall k, (k < length bl)%nat -> d' (st + Z.of_nat k + 1) = d (st + Z.of_nat k + 1).
Proof.
  intros Hd H1 H1b Hws Hd'.
  assert (Hsame : forall m, m ∉ bl -> d' m = d m).
  { intros m Hm. rewrite Hd'. apply put_all_other. eauto. }
  assert (Hreg : forall m, st <= m <= st + Z.of_nat (length bl) -> m ∉ bl).
  { intros m Hm Hin. pose proof (ld_home _ _ _ _ _ Hd) as Hh. rewrite Forall_forall in Hh.
    apply Hh in Hin. lia. }
  assert (Est : d' st = d st) by (apply Hsame, Hreg; lia).
  split; [|split; [done|]].
  - destruct Hd as [? ? ? ? ? ? ? ?]. split; rewrite ?Est, ?(Hsame 1 H1b); done.
  - intros k Hk. apply Hsame, Hreg. lia.
Qed.

(** A commit and its block writes, described once for the crash theorems. *)
Section Crash.
Variables (s : lst) (bl : list Z) (nlog : Z).
Hypothesis Hlog : log_ok s bl.
Hypothesis Hcalm : calm (io s) bl.
Hypothesis Hw : words bl.
Hypothesis Hone : 1 < start s /\ 1 ∉ bl.
Hypothesis Hsb : ld_word (disk (io s) 1) 4 = start s /\ ld_word (disk (io s) 1) 3 = nlog.
Hypothesis Hempty : ld_word (disk (io s) (start s)) 0 = 0.
Hypothesis Hlen : length (disk (io s) (start s)) = BSIZE.

Let n := length bl.
Let d0 := disk (io s).
Let v := view (io s).
Let hd := header (d0 (start s)) bl.
Let A := log_entries s bl v (seq 0 n).
Let C := (fun k => (nth k bl 0, v (nth k bl 0))) <$> seq 0 n.

Lemma start_not_in : start s ∉ bl.
Proof.
  intros H. pose proof (lo_home _ _ Hlog) as Hh. rewrite Forall_forall in Hh. apply Hh in H. lia.
Qed.

Lemma start_clean : v (start s) = d0 (start s).
Proof. apply (calm_clean _ bl); [done|apply start_not_in]. Qed.

Lemma commit_writes_eq : commit_writes s bl v (seq 0 n) = (A ++ [(start s, hd)]) ++ C ++ [(start s, header hd [])].
Proof. unfold commit_writes. rewrite start_clean. fold hd A C. by rewrite <- app_assoc. Qed.

Lemma A_len : length A = n.
Proof. unfold A, log_entries. by rewrite length_fmap, length_seq. Qed.
Lemma C_len : length C = n.
Proof. unfold C. by rewrite length_fmap, length_seq. Qed.

Lemma A_other m : m = 1 \/ home (start s) bl m \/ m = start s -> m ∉ A.*1.
Proof.
  intros Hm (k & Hk & ->)%slots_fst. apply elem_of_seq in Hk. fold n in Hm. unfold slot, home in Hm.
  fold n in Hm. lia.
Qed.

(** The disk when the header has just been written. *)
Let dc := put_all (A ++ [(start s, hd)]) d0.

Lemma dc_start : dc (start s) = hd.
Proof. unfold dc. rewrite put_all_app. cbn. by rewrite Z.eqb_refl. Qed.

Lemma dc_other m : m = 1 \/ home (start s) bl m -> dc m = d0 m.
Proof.
  intros Hm. unfold dc. rewrite put_all_app, put_all_other.
  - apply put_all_other, A_other. tauto.
  - cbn. intros ->%list_elem_of_singleton. unfold home in Hm. lia.
Qed.

Lemma dc_slot k : (k < n)%nat -> dc (slot s k) = v (nth k bl 0).
Proof.
  intros Hk. unfold dc. rewrite put_all_app, put_all_other.
  2:{ cbn. intros H%list_elem_of_singleton. by apply (start_slot s k). }
  apply put_all_in; [apply log_entries_nodup, NoDup_seq|].
  apply (list_elem_of_fmap_2 (fun k => (slot s k, v (nth k bl 0)))). apply elem_of_seq. lia.
Qed.

Lemma dc_log : log_disk dc (disksize (io s)) (start s) nlog bl.
Proof.
  destruct (header_words (d0 (start s)) bl Hw (lo_max _ _ Hlog) Hlen) as (L & H0 & Hk).
  pose proof (lo_region _ _ Hlog). split; try apply Hlog.
  - rewrite dc_other by tauto. exact Hsb.
  - lia.
  - rewrite dc_start. exact H0.
  - rewrite dc_start. exact Hk.
Qed.

Lemma home_bl m : m ∈ bl -> home (start s) bl m.
Proof.
  intros H. pose proof (lo_home _ _ Hlog) as Hh. rewrite Forall_forall in Hh. apply Hh in H.
  unfold home. tauto.
Qed.

(** Before the header is written the old values come back. *)
Lemma crash_before k : (k <= n)%nat ->
  exists r, initlog 1 (boot (crash (commit_writes s bl v (seq 0 n)) k d0) (disksize (io s))) = Ret tt r /\
    (forall m, home (start s) bl m -> disk (io r) m = d0 m) /\ ld_word (disk (io r) (start s)) 0 = 0 /\
    calm (io r) [].
Proof.
  intros Hk. rewrite commit_writes_eq. unfold crash.
  rewrite <- app_assoc, take_app_le by (rewrite A_len; lia). set (d := put_all (take k A) d0).
  assert (Hd : forall m, m = 1 \/ home (start s) bl m \/ m = start s -> d m = d0 m).
  { intros m Hm. apply (crash_other A k d0 m). by apply A_other. }
  pose proof (lo_region _ _ Hlog).
  destruct (recover_value d (disksize (io s)) (start s) nlog [] d0 (home (start s) bl)) as (r & R & H1 & H2 & _ & H3).
  - apply log_disk_empty; rewrite ?Hd by tauto; try done; lia.
  - rewrite Hd by tauto. exact Hlen.
  - intros m. unfold home. lia.
  - intros j x Hx. by rewrite lookup_nil in Hx.
  - intros m Hm _. apply Hd. tauto.
  - by exists r.
Qed.

(** From the header on the new ones do. *)
Lemma crash_after k : (n < k)%nat ->
  exists r, initlog 1 (boot (crash (commit_writes s bl v (seq 0 n)) k d0) (disksize (io s))) = Ret tt r /\
    (forall m, home (start s) bl m -> disk (io r) m = v m) /\ ld_word (disk (io r) (start s)) 0 = 0 /\
    calm (io r) [].
Proof.
  intros Hk. rewrite commit_writes_eq. unfold crash.
  assert (HA : length (A ++ [(start s, hd)]) = S n) by (rewrite length_app, A_len; cbn; lia).
  rewrite take_app_ge, HA by (rewrite HA; lia). set (j := (k - S n)%nat).
  rewrite put_all_app. fold dc. pose proof (lo_region _ _ Hlog).
  assert (Hclean : forall m, home (start s) bl m -> m ∉ bl -> dc m = v m).
  { intros m Hm Hb. rewrite dc_other by tauto. symmetry. by apply (calm_clean _ bl). }
  destruct (header_words (d0 (start s)) bl Hw (lo_max _ _ Hlog) Hlen) as (L & _ & _).
  destruct (decide (j <= n)%nat) as [Hj|Hj].
  - rewrite take_app_le by (rewrite C_len; lia). set (d := put_all (take j C) dc).
    assert (Hfst : forall m, m ∈ (take j C).*1 -> m ∈ bl).
    { intros m Hm. rewrite <- (bl_fst (fun k => v (nth k bl 0)) bl). fold n C.
      rewrite <- (take_drop j C), fmap_app. set_solver. }
    destruct (installing dc d _ _ _ _ (take j C) dc_log) as (Hd & Est & Hsl); [tauto..|done|done|].
    destruct (recover_value d (disksize (io s)) (start s) nlog bl v (home (start s) bl))
      as (r & R & H1 & H2 & _ & H3); [done|..].
    + rewrite Est, dc_start. exact L.
    + intros m. unfold home. lia.
    + intros i x Hx. pose proof (lookup_lt_Some _ _ _ Hx) as Hlt.
      rewrite Hsl by done. rewrite <- (nth_lookup_Some _ _ 0 _ Hx).
      replace (start s + Z.of_nat i + 1) with (slot s i) by done. by apply dc_slot.
    + intros m Hm Hb. unfold d. rewrite put_all_other by eauto. by apply Hclean.
    + by exists r.
  - rewrite take_ge by (rewrite length_app, C_len; cbn; lia). set (d := put_all _ dc).
    assert (Est : d (start s) = header hd []).
    { unfold d. rewrite put_all_app. cbn. by rewrite Z.eqb_refl. }
    assert (Eo : forall m, m <> start s -> d m = put_all C dc m).
    { intros m Hm. unfold d. rewrite put_all_app. apply put_all_other. cbn.
      by intros ?%list_elem_of_singleton. }
    assert (Hb1 : forall m, m ∉ bl -> put_all C dc m = dc m).
    { intros m Hm. apply put_all_other. unfold C, n. by rewrite (bl_fst (fun k => v (nth k bl 0))). }
    destruct (header_words hd []) as (L2 & H0 & _); [by apply Forall_nil|cbn; unfold NBUF; lia|exact L|].
    destruct (recover_value d (disksize (io s)) (start s) nlog [] v (home (start s) bl))
      as (r & R & H1 & H2 & _ & H3).
    + apply log_disk_empty; [|lia|lia|by rewrite Est].
      rewrite Eo, Hb1, dc_other by (tauto || lia). exact Hsb.
    + rewrite Est. exact L2.
    + intros m. unfold home. lia.
    + intros i x Hx. by rewrite lookup_nil in Hx.
    + intros m Hm _. rewrite Eo by (unfold home in Hm; lia). destruct (decide (m ∈ bl)) as [Hb|Hb].
      * apply put_all_in; [unfold C, n; rewrite (bl_fst (fun k => v (nth k bl 0))); apply Hlog|].
        apply list_elem_of_lookup in Hb as [i Hi]. rewrite <- (nth_lookup_Some _ _ 0 _ Hi).
        apply (list_elem_of_fmap_2 (fun k => (nth k bl 0, v (nth k bl 0)))).
        apply elem_of_seq. apply lookup_lt_Some in Hi. unfold n. lia.
      * rewrite Hb1 by done. by apply Hclean.
    + by exists r.
Qed.

End Crash.

(** ** Transactions *)

#[export] Instance lst_laws : Cli.SpinLaws lst unit.
Proof. by split; intros; try (destruct l); try (destruct s as [[]]). Qed.

Lemma log_release_ok s c :
  CliFacts.nest_ok c -> bcpu (io s) = CliFacts.inside c -> llk s = true ->
  exists c', CliFacts.nest_ok c' /\ Log.release s = Ret tt (Cli.set_cpu c' (Cli.set_lk tt false s)).
Proof.
  intros [Hn Hi] Ec El. unfold Log.release.
  rewrite CliFacts.release_run; [|cbn; rewrite Ec; cbn; lia|cbn; by rewrite Ec].
  cbn [Cli.lk_of lst_spin]. rewrite El. eexists. split; [|done].
  cbn -[Z.sub Z.add]. rewrite Ec. split; cbn -[Z.sub Z.add]; [lia|].
  intros Hpos. by rewrite (proj2 (Z.eqb_neq _ _)) by lia.
Qed.

Lemma log_acquire_ok s : llk s = false ->
  Log.acquire s = Ret tt (Cli.set_lk tt true (Cli.set_cpu (CliFacts.inside (bcpu (io s))) s)).
Proof. intros H. unfold Log.acquire. rewrite CliFacts.acquire_run. cbn. by rewrite H. Qed.

(** Inside a transaction that has logged the blocks [bl], none of them held. *)
Record in_trans s (bl : list Z) : Prop := {
  it_dev : ldev s = 1;
  it_len : length (lh_block s) = LOGSIZE;
  it_n : lh_n s = Z.of_nat (length bl);
  it_blocks : forall k n, bl !! k = Some n -> lh_block s !! k = Some n;
  it_nodup : NoDup bl;
  it_max : Z.of_nat (length bl) < lsize s <= Z.of_nat LOGSIZE;
  it_region : 0 <= start s /\ start s + lsize s <= disksize (io s);
  it_home : Forall (fun n => 0 <= n < disksize (io s) /\ (n < start s \/ start s + lsize s <= n)) bl;
  it_lock : llk s = false /\ committing s = 0 /\ 1 <= outstanding s }.

Lemma in_trans_log_ok s bl : in_trans s bl -> log_ok s bl.
Proof.
  intros [? ? ? ? ? Hm ? Hh ?]. split; try done.
  - unfold NBUF. unfold LOGSIZE in Hm. lia.
  - lia.
  - eapply Forall_impl; [exact Hh|]. cbn. lia.
Qed.

(** [log_write]'s list after block [n]. *)
Definition absorb (bl : list Z) (n : Z) : list Z := if decide (n ∈ bl) then bl else bl ++ [n].

Lemma absorb_scan s bl n :
  in_trans s bl ->
  default (length bl) (find_idx (fun x => x =? n) (take (length bl) (lh_block s))) =
  default (length bl) (find_idx (fun x => x =? n) bl).
Proof.
  intros H. assert (E : take (length bl) (lh_block s) = bl); [|by rewrite E].
  apply list_eq. intros k. destruct (decide (k < length bl)%nat) as [Hk|Hk].
  - rewrite lookup_take_lt by done. destruct (lookup_lt_is_Some_2 bl k Hk) as [v Hv].
    rewrite Hv. by apply (it_blocks _ _ H).
  - rewrite lookup_take_ge by lia. symmetry. apply lookup_ge_None. lia.
Qed.

(** The place log absorption finds: that of the block when it is in the log, else the end. *)
Lemma absorb_index bl n (k := default (length bl) (find_idx (fun x => x =? n) bl)) :
  (n ∈ bl /\ bl !! k = Some n) \/ (n ∉ bl /\ k = length bl).
Proof.
  unfold k. destruct (find_idx _ bl) as [j|] eqn:E; cbn.
  - apply find_idx_Some in E as (x & Hx & Hxn & _). apply Z.eqb_eq in Hxn. subst x. left.
    split; [by eapply list_elem_of_lookup_2|done].
  - right. split; [|done]. intros (j & Hj)%list_elem_of_lookup_1. apply find_idx_None in E.
    rewrite Forall_lookup in E. apply E in Hj. by rewrite Z.eqb_refl in Hj.
Qed.

(** Writing the block number there makes the header list [absorb bl n]. *)
Lemma absorb_slot s bl n k : in_trans s bl ->
  (n ∈ bl /\ bl !! k = Some n) \/ (n ∉ bl /\ k = length bl) -> (k < LOGSIZE)%nat ->
  forall j m, absorb bl n !! j = Some m -> <[k:=n]> (lh_block s) !! j = Some m.
Proof.
  intros Ht Hk Hkl j m Hj. pose proof (it_len _ _ Ht) as Hlen.
  rewrite list_lookup_insert. unfold absorb in Hj. destruct Hk as [[Hin Hk]|[Hin ->]].
  - rewrite decide_True in Hj by done. case_decide as Ej; [|by apply (it_blocks _ _ Ht)].
    destruct Ej as [<- _]. congruence.
  - rewrite decide_False in Hj by done. apply lookup_app_Some in Hj as [Hj|[Hj1 Hj2]].
    + rewrite decide_False by (apply lookup_lt_Some in Hj; lia). by apply (it_blocks _ _ Ht).
    + apply list_lookup_singleton_Some in Hj2 as [Hj2 ->]. rewrite decide_True by lia. done.
Qed.

Lemma absorb_length bl n : Z.of_nat (length (absorb bl n)) <= Z.of_nat (length bl) + 1.
Proof. unfold absorb. case_decide; [lia|]. rewrite length_app. cbn [length]. lia. Qed.

Lemma absorb_NoDup bl n : NoDup bl -> NoDup (absorb bl n).
Proof.
  unfold absorb. case_decide; [done|]. intros H'. apply NoDup_app. split; [done|].
  split; [set_solver|apply NoDup_singleton].
Qed.

Lemma absorb_Forall (P : Z -> Prop) bl n : Forall P bl -> P n -> Forall P (absorb bl n).
Proof.
  intros H Hn. unfold absorb. case_decide; [done|]. apply Forall_app. split; [done|by apply Forall_singleton].
Qed.

(** The flag [log_write] sets, and the list it leaves. *)
Lemma log_write_ok s b bl i c n :
  in_trans s bl -> cache_ok b -> caches b i c n -> locked c = true -> disksize b = disksize (io s) ->
  0 <= n < disksize (io s) -> n < start s \/ start s + lsize s <= n ->
  Z.of_nat (length bl) < lsize s - 1 ->
  exists s', log_write i (with_io b s) = Ret tt s' /\ in_trans s' (absorb bl n) /\
    effect b (io s') n (bdata c) True True /\ caches (io s') i (set_flags (valid c) true c) n /\
    disk (io s') = disk b /\ writes (io s') = writes b /\ start s' = start s /\ lsize s' = lsize s /\
    outstanding s' = outstanding s.
Proof.
  intros Ht Hok Hc Hl Hsz Hn Hhome Hroom. pose proof Hc as (Hi & Hd & Hb).
  destruct (it_lock _ _ Ht) as (Hlk & Hcm & Hout). pose proof (it_max _ _ Ht) as Hmax.
  unfold log_write. erewrite (bind_eq get) by reflexivity. cbn [lh_n lsize outstanding with_io].
  rewrite (it_n _ _ Ht).
  destruct (Z.geb_spec (Z.of_nat (length bl)) (Z.of_nat LOGSIZE)); [lia|].
  destruct (Z.geb_spec (Z.of_nat (length bl)) (lsize s - 1)); [lia|]. cbn [orb].
  destruct (Z.ltb_spec (outstanding s) 1); [lia|].
  rewrite (bind_eq _ _ _ _ _ (log_acquire_ok (with_io b s) Hlk)). set (s1 := Cli.set_lk tt true _).
  assert (R1 : blk (buf_at i) s1 = Ret c s1).
  { unfold blk, zoom. by rewrite (buf_at_ok (io s1) i c). }
  rewrite (bind_eq _ _ _ _ _ R1), Nat2Z.id, Hb. change (lh_block (with_io b s)) with (lh_block s).
  rewrite (absorb_scan s bl n Ht). set (k := default _ _).
  assert (Hk : (n ∈ bl /\ bl !! k = Some n) \/ (n ∉ bl /\ k = length bl)) by apply absorb_index.
  clearbody k.
  assert (Hkl : (k < LOGSIZE)%nat).
  { unfold LOGSIZE in *. destruct Hk as [[_ Hlt%lookup_lt_Some]|[_ ->]]; lia. }
  unfold set_lh. rewrite (proj2 (Nat.ltb_lt _ _) Hkl). unfold bind at 1, modify at 1.
  set (s2 := with_lh_block _ s1).
  assert (Es2 : exists s3, (if (k =? length bl)%nat then modify (fun s => with_lh_n (lh_n s + 1) s) else ret tt) s2
    = Ret tt s3 /\ s3 = with_lh_n (Z.of_nat (length (absorb bl n))) s2).
  { unfold absorb. destruct Hk as [[Hin Hk]|[Hin ->]].
    - apply lookup_lt_Some in Hk. rewrite (proj2 (Nat.eqb_neq _ _)) by lia. rewrite decide_True by done.
      eexists. split; [done|]. rewrite <- (it_n _ _ Ht). done.
    - rewrite Nat.eqb_refl, decide_False by done. eexists. split; [done|].
      change (lh_n s2) with (lh_n s). rewrite (it_n _ _ Ht), length_app. cbn [length].
      f_equal. lia. }
  destruct Es2 as (s3 & R3 & E3). rewrite (bind_eq _ _ _ _ _ R3). subst s3. clear R3.
  unfold bind at 1, blk, zoom, upd, modify at 1.
  set (s3 := with_lh_n _ s2). change (bufs (io s3)) with (bufs b). rewrite (alter_insert _ _ _ _ Hi). set (c' := set_flags (valid c) true c).
  set (s4 := with_io _ s3).
  destruct (log_release_ok s4 (bcpu b)) as (cp & Hcp & R4).
  { apply (co_lock b Hok). }
  { done. }
  { done. }
  rewrite R4. eexists. split; [done|].
  pose proof (absorb_slot s bl n k Ht Hk Hkl) as Ebk. pose proof (absorb_length bl n) as Hal.
  destruct (held_update b (io (Cli.set_cpu cp (Cli.set_lk tt false s4))) i c c' n) as [He Hc']; try done.
  - by apply (co_valid b Hok i c n).
  - split; [apply (co_lock b Hok)|done].
  - cbn. rewrite Hl. pose proof (co_ref b Hok i c Hi) as Hr. by rewrite Hl in Hr.
  - split_and!; try done.
    + split; cbn -[Z.of_nat]; try apply Ht; try done.
      * rewrite length_insert. apply Ht.
      * apply absorb_NoDup, Ht.
      * lia.
      * rewrite Hsz. apply Ht.
      * rewrite Hsz. apply absorb_Forall; [apply Ht|done].
    + destruct He as [F1 F2 F3 F4 F5 F6]. split; try done.
      * intros m. rewrite F3. change (dirty c') with true. naive_solver.
      * intros m. rewrite F4. change (locked c') with (locked c). naive_solver.
Qed.

Lemma cache_ok_cpu b c : cache_ok b -> CliFacts.nest_ok c -> cache_ok (Cli.set_cpu c b).
Proof. intros [? ? [? _] ? ? ? ? ?] Hc. by split. Qed.

Lemma calm_cpu b c dl : calm b dl -> CliFacts.nest_ok c -> calm (Cli.set_cpu c b) dl.
Proof. intros [Hok Hl Hd] Hc. split; [by apply cache_ok_cpu|exact Hl|exact Hd]. Qed.

Lemma nest_inside c : CliFacts.nest_ok c -> CliFacts.nest_ok (CliFacts.inside c).
Proof. intros [? ?]. split; [cbn; lia|done]. Qed.

(** Taking the lock, a step on the other fields, and giving it back. *)
Lemma locked_step s (f : lst -> lst) :
  llk s = false -> CliFacts.nest_ok (bcpu (io s)) ->
  (forall t, io (f t) = io t /\ llk (f t) = llk t) ->
  exists c, CliFacts.nest_ok c /\
    (Log.acquire ;;; modify f ;;; Log.release) s =
    Ret tt (Cli.set_cpu c (Cli.set_lk tt false
      (f (Cli.set_lk tt true (Cli.set_cpu (CliFacts.inside (bcpu (io s))) s))))).
Proof.
  intros Hl Hn Hf. rewrite (bind_eq _ _ _ _ _ (log_acquire_ok s Hl)). unfold bind, modify at 1.
  set (t := Cli.set_lk tt true _). destruct (Hf t) as [E1 E2].
  apply (log_release_ok (f t) (bcpu (io s))); [done|by rewrite E1|by rewrite E2].
Qed.

(** A block changed inside a transaction, as [bzero] and its like do it. *)
Definition update_block (n : Z) (d : list Z) : M lst unit :=
  let! i := blk (bread 1 n) in
  blk (upd i (set_bdata d)) ;;;
  log_write i ;;;
  blk (brelse i).

Lemma update_block_ok s bl n d :
  in_trans s bl -> calm (io s) bl -> 0 <= n < disksize (io s) ->
  n < start s \/ start s + lsize s <= n -> Z.of_nat (length bl) < lsize s - 1 ->
  exists s', update_block n d s = Ret tt s' /\ in_trans s' (absorb bl n) /\ calm (io s') (absorb bl n) /\
    (forall m, view (io s') m = if m =? n then d else view (io s) m) /\
    disk (io s') = disk (io s) /\ writes (io s') = writes (io s) /\
    start s' = start s /\ lsize s' = lsize s.
Proof.
  intros Ht Hc Hn Hhome Hroom. unfold update_block.
  destruct (bread_ok (io s) n (calm_ok _ _ Hc)) as (i & c & b1 & R1 & C1 & L1 & _ & _ & E1 & D1 & W1).
  { lia. }
  { apply (calm_locked _ _ Hc). }
  { right. apply (calm_free _ _ Hc). pose proof (it_max _ _ Ht). unfold LOGSIZE in *. unfold NBUF. lia. }
  erewrite bind_eq by (apply blk_ok; exact R1).
  destruct (set_bdata_ok b1 i c n d (ef_ok _ _ _ _ _ _ E1) C1 L1) as (b2 & R2 & E2 & C2 & D2 & W2).
  erewrite bind_eq by (apply blk_ok; exact R2). rewrite with_io_io.
  destruct (log_write_ok s b2 bl i (set_bdata d c) n Ht (ef_ok _ _ _ _ _ _ E2) C2 L1)
    as (s3 & R3 & Ht3 & E3 & C3 & D3 & W3 & St3 & Sz3 & _); try done.
  { by rewrite (ef_size _ _ _ _ _ _ E2), (ef_size _ _ _ _ _ _ E1). }
  rewrite (bind_eq _ _ _ _ _ R3).
  destruct (brelse_ok (io s3) i _ n (ef_ok _ _ _ _ _ _ E3) C3 L1) as (b4 & R4 & E4 & D4 & W4); [done|].
  erewrite blk_ok by exact R4. eexists. split; [done|]. cbn [io with_io start lsize].
  assert (Hsz : disksize b4 = disksize (io s3)) by apply E4.
  split_and!; try done.
  - destruct Ht3. split; cbn [io with_io ldev lh_block lh_n lsize start llk committing outstanding];
      rewrite ?Hsz; done.
  - split.
    + apply E4.
    + intros m. rewrite (ef_locked _ _ _ _ _ _ E4), (ef_locked _ _ _ _ _ _ E3),
        (ef_locked _ _ _ _ _ _ E2), (ef_locked _ _ _ _ _ _ E1). pose proof (calm_locked _ _ Hc m). tauto.
    + intros m. rewrite (ef_dirty _ _ _ _ _ _ E4), (ef_dirty _ _ _ _ _ _ E3),
        (ef_dirty _ _ _ _ _ _ E2), (ef_dirty _ _ _ _ _ _ E1), (calm_dirty _ _ Hc n), (calm_dirty _ _ Hc m). cbn.
      unfold absorb. destruct (decide (n ∈ bl)); rewrite ?elem_of_app, ?list_elem_of_singleton; destruct (decide (m = n)) as [->|Hm]; naive_solver.
  - intros m. rewrite (ef_view _ _ _ _ _ _ E4), (ef_view _ _ _ _ _ _ E3),
      (ef_view _ _ _ _ _ _ E2), (ef_view _ _ _ _ _ _ E1). cbn.
    destruct (decide (m = n)) as [->|Hm]; [by rewrite Z.eqb_refl|]. by rewrite (proj2 (Z.eqb_neq _ _)).
  - by rewrite D4, D3, D2, D1.
  - by rewrite W4, W3, W2, W1.
Qed.

(** The [end_op] that finds no other operation running commits. *)
Lemma end_op_ok s bl :
  in_trans s bl -> calm (io s) bl -> bl <> [] -> outstanding s = 1 ->
  exists s', end_op s = Ret tt s' /\ outstanding s' = 0 /\ committing s' = 0 /\ llk s' = false /\
    lh_n s' = 0 /\
    wrote (io s) (io s') (commit_writes s bl (view (io s)) (seq 0 (length bl))) [].
Proof.
  intros Ht Hc Hne Ho. destruct (it_lock _ _ Ht) as (Hlk & Hcm & _).
  pose proof (co_lock _ (calm_ok _ _ Hc)) as [_ Hnest].
  unfold end_op. rewrite (bind_eq _ _ _ _ _ (log_acquire_ok s Hlk)). erewrite (bind_eq get) by reflexivity.
  set (s1 := Cli.set_lk tt true _). unfold bind at 1, modify at 1.
  change (committing s1) with (committing s). change (outstanding s1) with (outstanding s).
  rewrite Hcm, Ho. change (negb (0 =? 0)) with false. change (1 - 1) with 0. change (0 =? 0) with true.
  cbv iota zeta. unfold bind at 1, modify at 1.
  set (s2 := with_committing 1 _).
  destruct (log_release_ok s2 (bcpu (io s)) Hnest) as (c & Hcn & R2); [done|done|].
  rewrite (bind_eq _ _ _ _ _ R2). set (s3 := Cli.set_cpu c _).
  assert (Hlog : log_ok s3 bl) by (destruct (in_trans_log_ok _ _ Ht); by split).
  assert (Hc3 : calm (io s3) bl) by exact (calm_cpu (io s) c bl Hc Hcn).
  destruct (commit_ok s3 bl Hlog Hne Hc3) as (b4 & R4 & W4).
  { intros H. pose proof (it_home _ _ Ht) as Hh. rewrite Forall_forall in Hh. apply Hh in H.
    change (start s3) with (start s) in H. pose proof (it_max _ _ Ht). lia. }
  rewrite (bind_eq _ _ _ _ _ R4). set (s4 := with_io b4 _).
  destruct (locked_step s4 (with_committing 0)) as (c5 & Hc5 & R5); [done| |done|].
  { apply (co_lock _ (calm_ok _ _ (wr_calm _ _ _ _ W4))). }
  rewrite R5. eexists. split; [done|]. do 4 (split; [done|]).
  destruct W4 as [Wc Wv Wd Ww Ws]. split; try done. exact (calm_cpu b4 c5 [] Wc Hc5).
Qed.

(** The [end_op] of an operation that logged nothing. *)
Lemma end_op_nothing s :
  in_trans s [] -> calm (io s) [] -> outstanding s = 1 ->
  exists s', end_op s = Ret tt s' /\ writes (io s') = writes (io s).
Proof.
  intros Ht Hc Ho. destruct (it_lock _ _ Ht) as (Hlk & Hcm & _).
  pose proof (co_lock _ (calm_ok _ _ Hc)) as [_ Hnest].
  unfold end_op. rewrite (bind_eq _ _ _ _ _ (log_acquire_ok s Hlk)). erewrite (bind_eq get) by reflexivity.
  set (s1 := Cli.set_lk tt true _). unfold bind at 1, modify at 1.
  change (committing s1) with (committing s). change (outstanding s1) with (outstanding s).
  rewrite Hcm, Ho. change (negb (0 =? 0)) with false. change (1 - 1) with 0. change (0 =? 0) with true.
  cbv iota zeta. unfold bind at 1, modify at 1. set (s2 := with_committing 1 _).
  destruct (log_release_ok s2 (bcpu (io s)) Hnest) as (c & Hcn & R2); [done|done|].
  rewrite (bind_eq _ _ _ _ _ R2). set (s3 := Cli.set_cpu c _).
  assert (Rc : commit s3 = Ret tt s3).
  { unfold commit. erewrite (bind_eq get) by reflexivity. change (lh_n s3) with (lh_n s). by rewrite (it_n _ _ Ht). }
  rewrite (bind_eq _ _ _ _ _ Rc).
  destruct (locked_step s3 (with_committing 0)) as (c5 & Hc5 & R5); [done|done|done|].
  rewrite R5. by eexists.
Qed.

(** Restarting over a disk whose log is empty. *)
Lemma initlog_clean d sz nlog st :
  ld_word (d 1) 4 = st /\ ld_word (d 1) 3 = nlog -> 1 < st < sz -> ld_word (d st) 0 = 0 ->
  exists r, initlog 1 (boot d sz) = Ret tt r /\ (forall m, m <> st -> disk (io r) m = d m) /\ calm (io r) [].
Proof.
  intros Hsb Hst H0. destruct (initlog_ok d sz st nlog []) as (r & R & _ & _ & _ & W).
  { apply log_disk_empty; [done|lia|lia|done]. }
  exists r. split; [done|]. split; [|apply W]. intros m Hm. rewrite (wr_disk _ _ _ _ W). cbn.
  by rewrite (proj2 (Z.eqb_neq m st)).
Qed.

(** ** Properties of the log *)

(** A disk block holding a superblock that puts a log of [nlog] blocks at
    [st]. *)
Definition sample_sb (nlog st : Z) : list Z := st_word (st_word (replicate BSIZE 0) 3 nlog) 4 st.
Definition sample_disk : Z -> list Z :=
  fun m => if m =? 1 then sample_sb 30 2 else replicate BSIZE 0.

(** Block 50 changed in the cache by the only running operation. *)
Definition sample_dirty : buf :=
  {| valid := true; dirty := true; dev := 1; blockno := 50; refcnt := 0; locked := false;
     bdata := replicate BSIZE 7 |}.
Definition sample_cache : bst :=
  {| bufs := sample_dirty :: replicate 29 blank_buf; order := seq 0 NBUF; bclk := false;
     bcpu := cold_cpu; disk := sample_disk; disksize := 1000; writes := [] |}.
Definition sample_log : lst :=
  {| io := sample_cache; start := 2; lsize := 30; outstanding := 1; committing := 0; ldev := 1;
     lh_n := 1; lh_block := 50 :: replicate 29 0; llk := false |}.

Lemma sample_caches i b n : caches sample_cache i b n <-> i = 0%nat /\ b = sample_dirty /\ n = 50.
Proof.
  split.
  - intros (H & Hd & Hn). destruct i as [|i].
    + injection H as <-. done.
    + cbn -[replicate] in H. apply lookup_replicate in H as [-> _]. done.
  - by intros (-> & -> & ->).
Qed.

Lemma sample_lookup i b : bufs sample_cache !! i = Some b -> b = sample_dirty \/ b = blank_buf.
Proof.
  destruct i as [|i]; [intros [= <-]; by left|]. cbn -[replicate].
  intros [-> _]%lookup_replicate. by right.
Qed.

Lemma sample_calm : calm (io sample_log) [50].
Proof.
  cbn [io sample_log]. split.
  - split.
    + done.
    + done.
    + split; [done|]. split; [done|]. cbn. lia.
    + intros i j b c n H1%sample_caches H2%sample_caches. naive_solver.
    + intros i b n H%sample_caches. naive_solver.
    + intros i b n H%sample_caches. naive_solver.
    + intros i b [->| ->]%sample_lookup; [done|]. cbn. by intros [?|?].
    + intros i b [->| ->]%sample_lookup; done.
  - intros m (i & b & H%sample_caches & Hl). naive_solver.
  - intros m. rewrite list_elem_of_singleton. split.
    + intros (i & b & H%sample_caches & _). naive_solver.
    + intros ->. exists 0%nat, sample_dirty. split; [by apply sample_caches|done].
Qed.

Lemma sample_trans : in_trans sample_log [50].
Proof.
  split; try done.
  - intros [|k] n H; [by injection H as <-|done].
  - apply NoDup_singleton.
  - apply Forall_singleton. cbn. lia.
Qed.

(** C1: a transaction is atomic across a crash: however many of the block
    writes of the last [end_op] reach the disk, restarting and running
    [initlog] succeeds and brings every block outside the log to its value
    before the transaction when the header had not been written, and to its
    value after it otherwise, with the log empty. *)
Theorem crash_safe s bl nlog :
  in_trans s bl -> calm (io s) bl -> bl <> [] -> outstanding s = 1 -> words bl ->
  1 < start s -> 1 ∉ bl ->
  ld_word (disk (io s) 1) 4 = start s /\ ld_word (disk (io s) 1) 3 = nlog ->
  ld_word (disk (io s) (start s)) 0 = 0 -> length (disk (io s) (start s)) = BSIZE ->
  exists s' ws, end_op s = Ret tt s' /\ writes (io s') = writes (io s) ++ ws /\
    length ws = (2 * length bl + 2)%nat /\ (forall m, disk (io s') m = put_all ws (disk (io s)) m) /\
    forall k, exists r,
      initlog 1 (boot (crash ws k (disk (io s))) (disksize (io s))) = Ret tt r /\
      ld_word (disk (io r) (start s)) 0 = 0 /\
      forall m, home (start s) bl m ->
        disk (io r) m = if (k <=? length bl)%nat then disk (io s) m else view (io s) m.
Proof.
  intros Ht Hc Hne Ho Hw H1 Hb1 Hsb H0 Hlen.
  destruct (end_op_ok s bl Ht Hc Hne Ho) as (s' & R & _ & _ & _ & _ & W).
  pose proof (in_trans_log_ok _ _ Ht) as Hlog.
  exists s', (commit_writes s bl (view (io s)) (seq 0 (length bl))).
  split; [done|]. split; [apply W|]. split.
  { unfold commit_writes, log_entries. rewrite !length_app, !length_fmap, length_seq. cbn [length]. lia. }
  split; [apply W|].
  intros k. destruct (Nat.leb_spec k (length bl)) as [Hk|Hk].
  - destruct (crash_before s bl nlog Hlog Hc (conj H1 Hb1) Hsb H0 Hlen k Hk) as (r & Hr & Hh & Hz & _).
    by exists r.
  - destruct (crash_after s bl nlog Hlog Hc Hw (conj H1 Hb1) Hsb H0 Hlen k Hk) as (r & Hr & Hh & Hz & _).
    by exists r.
Qed.

Lemma crash_safe_witness :
  exists s' ws, end_op sample_log = Ret tt s' /\ writes (io s') = writes (io sample_log) ++ ws /\
    length ws = (2 * length [50%Z] + 2)%nat /\
    (forall m, disk (io s') m = put_all ws (disk (io sample_log)) m) /\
    forall k, exists r,
      initlog 1 (boot (crash ws k (disk (io sample_log))) (disksize (io sample_log))) = Ret tt r /\
      ld_word (disk (io r) (start sample_log)) 0 = 0 /\
      forall m, home (start sample_log) [50] m ->
        disk (io r) m = if (k <=? length [50%Z])%nat then disk (io sample_log) m else view (io sample_log) m.
Proof.
  apply (crash_safe sample_log [50] 30 sample_trans sample_calm).
  - done.
  - done.
  - apply Forall_singleton. lia.
  - cbn. lia.
  - set_solver.
  - split; vm_compute; reflexivity.
  - vm_compute. reflexivity.
  - vm_compute. reflexivity.
Defined.

(** C27: recovery may itself be interrupted: when only the first [k] of its
    block writes reached the disk, running it again gives every block outside
    the log the value the first, uninterrupted run gives it. *)
Theorem recovery_idempotent d sz st nlog bl k :
  log_disk d sz st nlog bl -> 1 < st -> 1 ∉ bl -> length (d st) = BSIZE ->
  exists r r', initlog 1 (boot d sz) = Ret tt r /\
    initlog 1 (boot (crash (writes (io r)) k d) sz) = Ret tt r' /\
    ld_word (disk (io r') st) 0 = 0 /\
    forall m, home st bl m -> disk (io r') m = disk (io r) m.
Proof.
  intros Hd H1 Hb1 Hlen.
  set (f := fun m => match list_find (fun n => n = m) bl with
                     | Some (k, _) => d (st + Z.of_nat k + 1) | None => d m end).
  assert (Hf : forall k n, bl !! k = Some n -> d (st + Z.of_nat k + 1) = f n).
  { intros j n Hj. unfold f. destruct (list_find _ bl) as [[i x]|] eqn:E.
    - apply list_find_Some in E as (Hi & -> & _).
      by rewrite (NoDup_lookup _ _ _ _ (ld_nodup _ _ _ _ _ Hd) Hj Hi).
    - apply list_find_None in E. rewrite Forall_lookup in E. by destruct (E j n Hj). }
  assert (Hf' : forall m, m ∉ bl -> d m = f m).
  { intros m Hm. unfold f. destruct (list_find _ bl) as [[i x]|] eqn:E; [|done].
    apply list_find_Some in E as (Hi & -> & _). by destruct Hm; eapply list_elem_of_lookup_2. }
  assert (Hst : forall m, home st bl m -> m <> st) by (intros m; unfold home; lia).
  pose proof (ld_region _ _ _ _ _ Hd) as Hreg.
  destruct (recover_value d sz st nlog bl f (home st bl) Hd Hlen Hst Hf) as (r & R & Hr & _ & Wr & _); [auto|].
  exists r. rewrite Wr. unfold crash, recover_writes.
  set (C := _ <$> seq 0 (length bl)).
  assert (HC : length C = length bl) by (unfold C; by rewrite length_fmap, length_seq).
  assert (HC1 : C.*1 = bl) by apply bl_fst.
  destruct (decide (k <= length bl)%nat) as [Hk|Hk].
  - rewrite take_app_le by (rewrite HC; lia). set (d' := put_all (take k C) d).
    assert (Hfst : forall m, m ∈ (take k C).*1 -> m ∈ bl).
    { intros m Hm. rewrite <- HC1, <- (take_drop k C), fmap_app. set_solver. }
    destruct (installing d d' _ _ _ _ (take k C) Hd H1 Hb1 Hfst) as (Hd' & Est & Hsl); [done|].
    destruct (recover_value d' sz st nlog bl f (home st bl) Hd') as (r' & R' & Hr' & Hz & _); [|done|..].
    + by rewrite Est.
    + intros j n Hj. rewrite Hsl by (by apply lookup_lt_Some in Hj). eauto.
    + intros m Hm Hb. unfold d'. rewrite put_all_other by eauto. auto.
    + exists r'. split_and!; try done. intros m Hm. by rewrite Hr, Hr'.
  - rewrite take_ge by (rewrite length_app, HC; cbn; lia). set (d' := put_all _ d).
    assert (Est : d' st = header (d st) []) by (unfold d'; rewrite put_all_app; cbn; by rewrite Z.eqb_refl).
    assert (Eo : forall m, m <> st -> d' m = put_all C d m).
    { intros m Hm. unfold d'. rewrite put_all_app. apply put_all_other. cbn.
      by intros ?%list_elem_of_singleton. }
    destruct (header_words (d st) []) as (L & H0 & _); [by apply Forall_nil|cbn; unfold NBUF; lia|done|].
    destruct (recover_value d' sz st nlog [] f (home st bl)) as (r' & R' & Hr' & Hz & _); [..|done|done| |].
    + apply log_disk_empty; [|apply Hd|lia|by rewrite Est].
      rewrite Eo, put_all_other by (rewrite ?HC1; lia || done). apply Hd.
    + by rewrite Est.
    + intros m Hm _. rewrite Eo by auto. destruct (decide (m ∈ bl)) as [Hb|Hb].
      * apply put_all_in; [rewrite HC1; apply Hd|]. apply list_elem_of_lookup in Hb as [i Hi].
        rewrite <- (Hf i m Hi), <- (nth_lookup_Some _ _ 0 _ Hi).
        apply (list_elem_of_fmap_2 (fun k => (nth k bl 0, d (st + Z.of_nat k + 1)))).
        apply elem_of_seq. apply lookup_lt_Some in Hi. lia.
      * rewrite put_all_other by (by rewrite HC1). auto.
    + exists r'. split_and!; try done. intros m Hm. by rewrite Hr, Hr'.
Qed.

(** A disk whose log names block 50. *)
Definition committed_disk : Z -> list Z :=
  fun m => if m =? 1 then sample_sb 30 2 else if m =? 2 then header (replicate BSIZE 0) [50]
           else replicate BSIZE m.

Lemma recovery_idempotent_witness :
  exists r r', initlog 1 (boot committed_disk 1000) = Ret tt r /\
    initlog 1 (boot (crash (writes (io r)) 1 committed_disk) 1000) = Ret tt r' /\
    ld_word (disk (io r') 2) 0 = 0 /\
    forall m, home 2 [50] m -> disk (io r') m = disk (io r) m.
Proof.
  apply (recovery_idempotent committed_disk 1000 2 30 [50] 1).
  - split.
    + split; vm_compute; reflexivity.
    + lia.
    + vm_compute. reflexivity.
    + intros [|j] n H; [|done]. injection H as <-. vm_compute. reflexivity.
    + cbn. unfold NBUF. lia.
    + apply NoDup_singleton.
    + cbn. lia.
    + apply Forall_singleton. cbn. lia.
  - lia.
  - set_solver.
  - vm_compute. reflexivity.
Defined.

(** [bzero], the way the file system changes a block inside a
    transaction: the block reads as zeros at once, no other block changes,
    nothing reaches the disk, and the block is in the log's list exactly
    once however often it is written. *)
Theorem bzero_spec s bl n :
  in_trans s bl -> calm (io s) bl -> 0 <= n < disksize (io s) ->
  n < start s \/ start s + lsize s <= n -> Z.of_nat (length bl) < lsize s - 1 ->
  exists s', bzero 1 n s = Ret tt s' /\ in_trans s' (absorb bl n) /\ calm (io s') (absorb bl n) /\
    (forall m, view (io s') m = if m =? n then replicate BSIZE 0 else view (io s) m) /\
    disk (io s') = disk (io s) /\ writes (io s') = writes (io s).
Proof.
  intros Ht Hc Hn Hh Hr. destruct (update_block_ok s bl n (replicate BSIZE 0) Ht Hc Hn Hh Hr)
    as (s' & R & H1 & H2 & H3 & H4 & H5 & _). by exists s'.
Qed.

Lemma bzero_spec_witness :
  exists s', bzero 1 60 sample_log = Ret tt s' /\ in_trans s' (absorb [50] 60) /\
    calm (io s') (absorb [50] 60) /\
    (forall m, view (io s') m = if m =? 60 then replicate BSIZE 0 else view (io sample_log) m) /\
    disk (io s') = disk (io sample_log) /\ writes (io s') = writes (io sample_log).
Proof.
  apply (bzero_spec sample_log [50] 60 sample_trans sample_calm); cbn; lia.
Defined.

(** Three operations may be inside a transaction at once, each allowed
    [MAXOPBLOCKS] blocks, but a log of [LOGSIZE] blocks holds one block less
    than they may write together: with the log [mkfs] makes, the 30th distinct
    block panics. *)
Theorem log_reservation_too_large :
  exists s, (initlog 1 ;;; begin_op [] ;;; begin_op [] ;;; begin_op []) (boot sample_disk 1000) = Ret tt s /\
    lh_n s + outstanding s * MAXOPBLOCKS <= Z.of_nat LOGSIZE /\
    (exists s', for_each (seq 100 29) (fun n => bzero 1 (Z.of_nat n)) s = Ret tt s') /\
    for_each (seq 100 30) (fun n => bzero 1 (Z.of_nat n)) s = Panic "too big a transaction".
Proof.
  eexists. split; [vm_compute; reflexivity|]. split; [vm_compute; discriminate|].
  split; [eexists|]; vm_compute; reflexivity.
Qed.

End LogFacts.
