(* ===== verification/Shell.v ===== *)
(** * The shells

    [ShLex] is the lexer the two shells share; [Sh] is [sh.c], the shell of
    the operating system, and [MySh] the shell of project 3 ([parser.c],
    [main.c]).  A command line is the list of its bytes without the final NUL,
    a pointer into it a position, and the parsers run on the cursor [*ps].
    Running a command gives the tree of what its processes do. *)

From S2P Require Import Prelude.

Module ShLex.

(** The first [n] characters from [s] on that satisfy [p] are skipped. *)
Fixpoint skip_while (p : Z -> bool) (at_ : nat -> Z) (n s : nat) : nat :=
  match n with
  | O => s
  | S n' => if p (at_ s) then skip_while p at_ n' (S s) else s
  end.

Definition strchr (toks : list Z) (c : Z) : bool := existsb (fun t => t =? c) toks.

(** [" \t\r\n\v"] *)
Definition whitespace : list Z := [32; 9; 13; 10; 11].

(** A token: what kind it is, where it starts and where it ends. *)
Definition token : Type := (Z * nat * nat)%type.

Section Lex.
(** The characters that end a word, and those that are tokens by
    themselves. *)
Variables (symbols single : list Z).
Variable line : list Z.

Definition es : nat := length line.
(** [*s]; the NUL is at [es]. *)
Definition char_at (s : nat) : Z := nth s line 0.

Definition skip_ws (s : nat) : nat := skip_while (strchr whitespace) char_at (es - s) s.
Definition word_char (c : Z) : bool := negb (strchr whitespace c) && negb (strchr symbols c).

Definition gettoken : M nat token :=
  let! s := get in
  let q := skip_ws s in
  let c := char_at q in
  let '(ret_, eq) :=
    if c =? 0 then (0, q)
    else if strchr single c then (c, S q)
    else if c =? 62 then
      if char_at (S q) =? 62 then (43, S (S q)) else (c, S q)
    else (97, skip_while word_char char_at (es - q) q) in
  modify (fun _ => skip_ws eq) ;;;
  ret (ret_, q, eq).

Definition peek (toks : list Z) : M nat bool :=
  let! s := get in
  let s' := skip_ws s in
  modify (fun _ => s') ;;;
  ret (negb (char_at s' =? 0) && strchr toks (char_at s')).

End Lex.

(** The parsed command; a counted string is its start and its end. *)
Inductive cmd :=
| EXEC (argv : list (nat * nat))
| REDIR (sub : cmd) (file efile : nat) (mode fd : Z)
| PIPE (left right : cmd)
| LIST (left right : cmd)
| BACK (sub : cmd).

(** [cmd->argv[argc] = q; cmd->eargv[argc] = eq;] through the pointer that
    [parseexec] keeps to the innermost [execcmd]. *)
Fixpoint add_arg (w : nat * nat) (c : cmd) : cmd :=
  match c with
  | EXEC argv => EXEC (argv ++ [w])
  | REDIR sub f ef mode fd => REDIR (add_arg w sub) f ef mode fd
  | _ => c
  end.

(** The counted strings of a command, in the order [nulterminate] visits
    them. *)
Fixpoint spans (c : cmd) : list (nat * nat) :=
  match c with
  | EXEC argv => argv
  | REDIR sub f ef _ _ => spans sub ++ [(f, ef)]
  | PIPE l r | LIST l r => spans l ++ spans r
  | BACK sub => spans sub
  end.

(** [*p = 0] in a buffer. *)
Definition put_nul (p : nat) : M (list Z) unit :=
  let! b := get in
  if (p <? length b)%nat then modify (fun b => <[p := 0]> b) else fault.

Fixpoint nulterminate (c : cmd) : M (list Z) unit :=
  match c with
  | EXEC argv => for_each argv (fun w => put_nul (snd w))
  | REDIR sub _ ef _ _ => nulterminate sub ;;; put_nul ef
  | PIPE l r => nulterminate l ;;; nulterminate r
  | LIST l r => nulterminate l ;;; nulterminate r
  | BACK sub => nulterminate sub
  end.

(** [gets]: characters up to and including an end of line, at most
    [max - 1]; what is left of the input. *)
Fixpoint gets_loop (n : nat) (input : list Z) : list Z * list Z :=
  match n, input with
  | S n', c :: input' =>
      if (c =? 10) || (c =? 13) then ([c], input')
      else let '(b, rest) := gets_loop n' input' in (c :: b, rest)
  | _, _ => ([], input)
  end.

(** The C string at [q]. *)
Fixpoint cstring (b : list Z) : list Z :=
  match b with
  | [] => []
  | x :: b' => if x =? 0 then [] else x :: cstring b'
  end.
Definition str_at (b : list Z) (q : nat) : list Z := cstring (drop q b).

End ShLex.

(** ** [sh.c] *)

Module Sh.
Import ShLex.

Definition MAXARGS : nat := 10.
Definition O_RDONLY : Z := 0.
Definition O_WRONLY : Z := 1.
Definition O_CREATE : Z := 512.

(** ["<|>&;()"], and the one-character tokens of [gettoken]'s switch. *)
Definition symbols : list Z := [60; 124; 62; 38; 59; 40; 41].
Definition single : list Z := [124; 40; 41; 59; 38; 60].

Section Parse.
Variable line : list Z.

Definition gettoken : M nat token := ShLex.gettoken symbols single line.
Definition peek (toks : list Z) : M nat bool := ShLex.peek line toks.

Definition execcmd : cmd := EXEC [].
Definition redircmd (sub : cmd) (file efile : nat) (mode fd : Z) : cmd := REDIR sub file efile mode fd.
Definition pipecmd (left right : cmd) : cmd := PIPE left right.
Definition listcmd (left right : cmd) : cmd := LIST left right.
Definition backcmd (sub : cmd) : cmd := BACK sub.

Definition redir_body (c : cmd) : M nat (cmd + cmd) :=
  let! more := peek [60; 62] in
  if more then
    let! (tok, _, _) := gettoken in
    let! (t, q, eq) := gettoken in
    if negb (t =? 97) then panic "missing file for redirection"
    else
      ret (inl (if tok =? 60 then redircmd c q eq O_RDONLY 0
                else if tok =? 62 then redircmd c q eq (Z.lor O_WRONLY O_CREATE) 1
                else if tok =? 43 then redircmd c q eq (Z.lor O_WRONLY O_CREATE) 1
                else c))
  else ret (inr c).
Definition parseredirs (fuel : nat) (c : cmd) : M nat cmd := loop fuel redir_body c.

(** One turn of the argument loop, on [ret] and [argc]. *)
Definition arg_body (fuel : nat) (st : cmd * nat) : M nat (cmd * nat + cmd) :=
  let '(c, argc) := st in
  let! stop := peek [124; 41; 38; 59] in
  if stop then ret (inr c)
  else
    let! (tok, q, eq) := gettoken in
    if tok =? 0 then ret (inr c)
    else if negb (tok =? 97) then panic "syntax"
    else
      let c := add_arg (q, eq) c in
      let argc := S argc in
      if (MAXARGS <=? argc)%nat then panic "too many args"
      else
        let! c := parseredirs fuel c in
        ret (inl (c, argc)).

Fixpoint parseline (fuel : nat) : M nat cmd :=
  match fuel with
  | O => fun _ => NoFuel
  | S f =>
      let! c := parsepipe f in
      let! c := loop f (fun c =>
        let! b := peek [38] in
        if b then
          gettoken ;;;
          ret (inl (backcmd c))
        else ret (inr c)) c in
      let! b := peek [59] in
      if b then
        gettoken ;;;
        let! r := parseline f in
        ret (listcmd c r)
      else ret c
  end
with parsepipe (fuel : nat) : M nat cmd :=
  match fuel with
  | O => fun _ => NoFuel
  | S f =>
      let! c := parseexec f in
      let! b := peek [124] in
      if b then
        gettoken ;;;
        let! r := parsepipe f in
        ret (pipecmd c r)
      else ret c
  end
with parseexec (fuel : nat) : M nat cmd :=
  match fuel with
  | O => fun _ => NoFuel
  | S f =>
      let! b := peek [40] in
      if b then parseblock f
      else
        let! c := parseredirs f execcmd in
        loop f (arg_body f) (c, 0%nat)
  end
with parseblock (fuel : nat) : M nat cmd :=
  match fuel with
  | O => fun _ => NoFuel
  | S f =>
      let! b := peek [40] in
      if negb b then panic "parseblock"
      else
        gettoken ;;;
        let! c := parseline f in
        let! b := peek [41] in
        if negb b then panic "syntax - missing )"
        else
          gettoken ;;;
          parseredirs f c
  end.

(** The parser proper, from the start of the line. *)
Definition parse : M nat cmd :=
  let! c := parseline (4 * es line + 4) in
  peek [] ;;;
  let! s := get in
  if negb (s =? es line)%nat then panic "syntax"
  else ret c.

End Parse.

(** [parsecmd]: the command and the buffer it leaves. *)
Definition parsecmd (line : list Z) : outcome (list Z) cmd :=
  match parse line 0%nat with
  | Ret c _ => (nulterminate c ;;; ret c) (line ++ [0])
  | Panic msg => Panic msg
  | Asleep ch s => Asleep ch []
  | Fault => Fault
  | NoFuel => NoFuel
  end.

(** *** Running a command *)

(** What a file descriptor refers to: one the shell was started with, a file,
    or an end of a pipe. *)
Inductive target := TInit (n : nat) | TFile (name : list Z) (mode : Z) | TPipeR (n : nat) | TPipeW (n : nat).

(** What a process does, its children's doings inside. *)
Inductive event :=
| Forked (child : list event)
| Wait
| Ran (argv : list (list Z)) (fds : list (option target))
| ExecFailed (name : list Z)
| OpenFailed (name : list Z)
| Chdir (name : list Z)
| Died (msg : string).

(** The descriptors of the process, and how many pipes and forks there have
    been. *)
Record proc := { fds : list (option target); npipe : nat; nfork : nat }.
Definition with_fds v s := {| fds := v; npipe := npipe s; nfork := nfork s |}.

Definition close (fd : nat) (s : proc) : proc :=
  with_fds (if decide (fd < length (fds s))%nat then <[fd := None]> (fds s) else fds s) s.

(** The lowest free descriptor gets the target. *)
Definition is_free (o : option target) : bool := match o with None => true | Some _ => false end.
Definition fd_alloc (t : target) (s : proc) : option (nat * proc) :=
  match find_idx is_free (fds s) with
  | Some fd => Some (fd, with_fds (<[fd := Some t]> (fds s)) s)
  | None => None
  end.
Definition dup (fd : nat) (s : proc) : proc :=
  match fds s !! fd with
  | Some (Some t) => match fd_alloc t s with Some (_, s') => s' | None => s end
  | _ => s
  end.

Section Run.
(** The files the system opens, the programs it runs and the forks that
    succeed; and the buffer with the command's strings. *)
Variables (can_open : list Z -> Z -> bool) (can_exec : list Z -> bool) (can_fork : nat -> bool).
Variable buf : list Z.

Definition open (name : list Z) (mode : Z) (s : proc) : option proc :=
  if can_open name mode then snd <$> fd_alloc (TFile name mode) s else None.

Definition pipe (s : proc) : option (nat * nat * proc) :=
  match fd_alloc (TPipeR (npipe s)) s with
  | None => None
  | Some (r, s1) =>
      match fd_alloc (TPipeW (npipe s)) s1 with
      | None => None
      | Some (w, s2) => Some (r, w, {| fds := fds s2; npipe := S (npipe s); nfork := nfork s2 |})
      end
  end.

(** [if(fork1() == 0) child]: the child gets a copy of the descriptors. *)
Definition fork1 (child : proc -> list event * proc) (s : proc) : option (list event * proc) :=
  if can_fork (nfork s) then
    let '(ev, s') := child {| fds := fds s; npipe := npipe s; nfork := S (nfork s) |} in
    Some (ev, {| fds := fds s; npipe := npipe s'; nfork := nfork s' |})
  else None.

(** What the process that runs [c] does, to its end. *)
Fixpoint runcmd (c : cmd) (s : proc) : list event * proc :=
  match c with
  | EXEC argv =>
      match argv with
      | [] => ([], s)
      | (q, _) :: _ =>
          if can_exec (str_at buf q) then ([Ran ((fun w => str_at buf (fst w)) <$> argv) (fds s)], s)
          else ([ExecFailed (str_at buf q)], s)
      end
  | REDIR sub f _ mode fd =>
      let s := close (Z.to_nat fd) s in
      match open (str_at buf f) mode s with
      | None => ([OpenFailed (str_at buf f)], s)
      | Some s => runcmd sub s
      end
  | LIST l r =>
      match fork1 (runcmd l) s with
      | None => ([Died "fork"], s)
      | Some (ev, s) =>
          let '(evr, s) := runcmd r s in
          (Forked ev :: Wait :: evr, s)
      end
  | PIPE l r =>
      match pipe s with
      | None => ([Died "pipe"], s)
      | Some (p0, p1, s) =>
          match fork1 (fun s => runcmd l (close p1 (close p0 (dup p1 (close 1 s))))) s with
          | None => ([Died "fork"], s)
          | Some (ev1, s) =>
              match fork1 (fun s => runcmd r (close p1 (close p0 (dup p0 (close 0 s))))) s with
              | None => ([Forked ev1; Died "fork"], s)
              | Some (ev2, s) =>
                  ([Forked ev1; Forked ev2; Wait; Wait], close p1 (close p0 s))
              end
          end
      end
  | BACK sub =>
      match fork1 (runcmd sub) s with
      | None => ([Died "fork"], s)
      | Some (ev, s) => ([Forked ev], s)
      end
  end.

(** *** The main loop *)

(** [while((fd = open("console", O_RDWR)) >= 0) if(fd >= 3) ...] *)
Definition console : list Z := [99; 111; 110; 115; 111; 108; 101].
Fixpoint open_console (fuel : nat) (s : proc) : proc :=
  match fuel with
  | O => s
  | S fuel' =>
      if can_open console 2 then
        match fd_alloc (TFile console 2) s with
        | None => s
        | Some (fd, s') => if (3 <=? fd)%nat then close fd s' else open_console fuel' s'
        end
      else s
  end.

End Run.

Section Main.
Variables (can_open : list Z -> Z -> bool) (can_exec : list Z -> bool) (can_fork : nat -> bool).

(** [runcmd(parsecmd(buf))] in the child. *)
Definition child_of (line : list Z) (s : proc) : list event * proc :=
  match parsecmd line with
  | Ret c buf => runcmd can_open can_exec can_fork buf c s
  | Panic msg => ([Died msg], s)
  | _ => ([], s)
  end.

(** One line: [cd] is done by the shell itself, with the last character of
    the line cut off. *)
Definition main_line (line : list Z) (s : proc) : list event * proc :=
  if (nth 0 line 0 =? 99) && (nth 1 line 0 =? 100) && (nth 2 line 0 =? 32) then
    ([Chdir (drop 3 (take (length line - 1) line))], s)
  else
    match fork1 can_fork (child_of line) s with
    | None => ([Died "fork"], s)
    | Some (ev, s) => ([Forked ev; Wait], s)
    end.

(** [getcmd] on the input that is left: the C string in the buffer. *)
Definition getcmd (nbuf : nat) (input : list Z) : option (list Z * list Z) :=
  let '(b, rest) := gets_loop (nbuf - 1) input in
  match cstring b with
  | [] => None
  | line => Some (line, rest)
  end.

(** The loop of [main]; it ends at the end of the input, or when a fork
    fails, which is fatal to the shell. *)
Fixpoint main_loop (fuel : nat) (input : list Z) (s : proc) : list event :=
  match fuel with
  | O => []
  | S fuel' =>
      match getcmd 100 input with
      | None => []
      | Some (line, rest) =>
          let '(ev, s) := main_line line s in
          match ev with
          | [Died _] => ev
          | _ => ev ++ main_loop fuel' rest s
          end
      end
  end.
Definition main (input : list Z) (s : proc) : list event :=
  main_loop (S (length input)) input (open_console can_open 4 s).

End Main.

End Sh.

(** ** Project 3 *)

Module MySh.
Import ShLex.

Definition MAXARGS : nat := 10.
(** ["<|>&;"]: no parentheses here. *)
Definition symbols : list Z := [60; 124; 62; 38; 59].
Definition single : list Z := [124; 59; 38; 60].
(** Linux's values. *)
Definition O_RDONLY : Z := 0.
Definition O_WRONLY : Z := 1.
Definition O_CREAT : Z := 64.

Section Parse.
Variable line : list Z.

Definition gettoken : M nat token := ShLex.gettoken symbols single line.
Definition peek (toks : list Z) : M nat bool := ShLex.peek line toks.

Definition init_execcmd : cmd := EXEC [].
Definition init_redircmd (sub : cmd) (file efile : nat) (mode fd_to_close : Z) : cmd :=
  REDIR sub file efile mode fd_to_close.
Definition init_pipecmd (left right : cmd) : cmd := PIPE left right.
Definition init_backcmd (sub : cmd) : cmd := BACK sub.
Definition init_listcmd (left right : cmd) : cmd := LIST left right.

Definition redir_body (c : cmd) : M nat (cmd + cmd) :=
  let! more := peek [60; 62] in
  if more then
    let! (tok, _, _) := gettoken in
    let! (t, q, eq) := gettoken in
    if negb (t =? 97) then panic "missing file for redirection"
    else
      ret (inl (if tok =? 60 then init_redircmd c q eq O_RDONLY 0
                else if tok =? 62 then init_redircmd c q eq (Z.lor O_WRONLY O_CREAT) 1
                else if tok =? 43 then init_redircmd c q eq (Z.lor O_WRONLY O_CREAT) 1
                else c))
  else ret (inr c).
Definition parseredirs (fuel : nat) (c : cmd) : M nat cmd := loop fuel redir_body c.

(** The word [exit] as the first argument ends the shell. *)
Definition is_exit (q eq : nat) : bool :=
  (char_at line q =? 101) && (char_at line (q + 1) =? 120) && (char_at line (q + 2) =? 105)
    && (char_at line (q + 3) =? 116) && (q + 4 =? eq)%nat.

Definition arg_body (fuel : nat) (st : cmd * nat) : M nat (cmd * nat + cmd) :=
  let '(c, argc) := st in
  let! stop := peek [124; 41; 38; 59] in
  if stop then ret (inr c)
  else
    let! (tok, q, eq) := gettoken in
    if tok =? 0 then ret (inr c)
    else if negb (tok =? 97) then panic "syntax"
    else if (argc =? 0)%nat && is_exit q eq then panic "exit(0)"
    else
      let c := add_arg (q, eq) c in
      let argc := S argc in
      if (MAXARGS <=? argc)%nat then panic "too many args"
      else
        let! c := parseredirs fuel c in
        ret (inl (c, argc)).

Definition parseexec (fuel : nat) : M nat cmd :=
  let! c := parseredirs fuel init_execcmd in
  loop fuel (arg_body fuel) (c, 0%nat).

Fixpoint parsepipe (fuel : nat) : M nat cmd :=
  match fuel with
  | O => fun _ => NoFuel
  | S f =>
      let! c := parseexec f in
      let! b := peek [124] in
      if b then
        gettoken ;;;
        let! r := parsepipe f in
        ret (init_pipecmd c r)
      else ret c
  end.

Fixpoint parseline (fuel : nat) : M nat cmd :=
  match fuel with
  | O => fun _ => NoFuel
  | S f =>
      let! c := parsepipe f in
      let! c := loop f (fun c =>
        let! b := peek [38] in
        if b then
          gettoken ;;;
          ret (inl (init_backcmd c))
        else ret (inr c)) c in
      let! b := peek [59] in
      if b then
        gettoken ;;;
        let! r := parseline f in
        ret (init_listcmd c r)
      else ret c
  end.

Definition parse : M nat cmd :=
  let! c := parseline (es line + 3) in
  peek [] ;;;
  let! s := get in
  if negb (s =? es line)%nat then panic "syntax"
  else ret c.

End Parse.

Definition parsecmd (line : list Z) : outcome (list Z) cmd :=
  match parse line 0%nat with
  | Ret c _ => (nulterminate c ;;; ret c) (line ++ [0])
  | Panic msg => Panic msg
  | Asleep ch s => Asleep ch []
  | Fault => Fault
  | NoFuel => NoFuel
  end.

(** *** Running a command

    A process may come back from [execcmd] and go on with what follows: the
    continuation [k] is what it does then.  A child that falls out of the
    [switch] goes on with the same [k]. *)

Inductive target := TInit (n : nat) | TFile (name : list Z) (mode : Z) | TPipeR (n : nat) | TPipeW (n : nat).

Inductive event :=
| Forked (child : list event)
| WaitPid
| WaitAny
| WaitAll
| Ran (argv : list (list Z)) (fds : list (option target))
| ExecFailed (name : list Z)
| Exited (status : Z)
| Prompt (fds : list (option target)).

Record proc := { fds : list (option target); npipe : nat }.
Definition with_fds v s := {| fds := v; npipe := npipe s |}.

Definition close (fd : nat) (s : proc) : proc :=
  with_fds (if decide (fd < length (fds s))%nat then <[fd := None]> (fds s) else fds s) s.
Definition is_free (o : option target) : bool := match o with None => true | Some _ => false end.
Definition fd_alloc (t : target) (s : proc) : option (nat * proc) :=
  match find_idx is_free (fds s) with
  | Some fd => Some (fd, with_fds (<[fd := Some t]> (fds s)) s)
  | None => None
  end.
(** [dup]: the new descriptor, or -1. *)
Definition dup (fd : nat) (s : proc) : Z * proc :=
  match fds s !! fd with
  | Some (Some t) => match fd_alloc t s with Some (d, s') => (Z.of_nat d, s') | None => (-1, s) end
  | _ => (-1, s)
  end.
(** [dup2(old, new)]: nothing happens when [old] is not open. *)
Definition dup2 (old : Z) (new : nat) (s : proc) : proc :=
  if old <? 0 then s
  else match fds s !! Z.to_nat old with
       | Some (Some t) => with_fds (<[new := Some t]> (fds s)) s
       | _ => s
       end.

Section Run.
Variables (can_open : list Z -> Z -> bool) (can_exec : list Z -> bool).
Variable buf : list Z.
(** The indeterminate values of [saved_stdin] and [saved_stdout] in the
    process that runs a pipeline. *)
Variables (saved_stdin saved_stdout : Z).

Definition open (name : list Z) (mode : Z) (s : proc) : Z * proc :=
  if can_open name mode then
    match fd_alloc (TFile name mode) s with Some (d, s') => (Z.of_nat d, s') | None => (-1, s) end
  else (-1, s).

Definition pipe (s : proc) : option (nat * nat * proc) :=
  match fd_alloc (TPipeR (npipe s)) s with
  | None => None
  | Some (r, s1) =>
      match fd_alloc (TPipeW (npipe s)) s1 with
      | None => None
      | Some (w, s2) => Some (r, w, {| fds := fds s2; npipe := S (npipe s) |})
      end
  end.

(** The redirection in the child of [REDIR]. *)
Definition redirect (name : list Z) (mode fd_to_close : Z) (s : proc) : proc :=
  if (fd_to_close =? 0) || (fd_to_close =? 1) then
    let '(fd, s) := open name mode s in
    let s := dup2 fd (Z.to_nat fd_to_close) s in
    if fd <? 0 then s else close (Z.to_nat fd) s
  else s.

Fixpoint execcmd (c : cmd) (k : proc -> list event) (s : proc) : list event :=
  match c with
  | EXEC argv =>
      match argv with
      | [] => k s
      | (q, _) :: _ =>
          Forked (if can_exec (str_at buf q)
                  then [Ran ((fun w => str_at buf (fst w)) <$> argv) (fds s)]
                  else ExecFailed (str_at buf q) :: k s) :: WaitPid :: k s
      end
  | REDIR sub f _ mode fd =>
      let '(s_stdout, s) := dup 1 s in
      let '(s_stdin, s) := dup 0 s in
      Forked (execcmd sub (fun _ => [Exited 0]) (redirect (str_at buf f) mode fd s)) :: WaitAll ::
      k (dup2 s_stdout 1 (dup2 s_stdin 0 s))
  | LIST l r =>
      Forked (execcmd l (fun _ => [Exited 0]) s) :: WaitAny :: execcmd r k s
  | PIPE l r =>
      match pipe s with
      | None => [Exited (-1)]
      | Some (p0, p1, s) =>
          Forked (let '(_, s) := dup 1 s in
                  execcmd l (fun _ => [Exited 0]) (close p1 (close p0 (dup2 (Z.of_nat p1) 1 s)))) ::
          Forked (let '(_, s) := dup 0 s in
                  execcmd r (fun _ => [Exited 0]) (close p1 (close p0 (dup2 (Z.of_nat p0) 0 s)))) ::
          WaitAll :: WaitAll ::
          k (dup2 saved_stdout 1 (dup2 saved_stdin 0 (close p1 (close p0 s))))
      end
  | BACK sub =>
      Forked (execcmd sub (fun _ => [Exited 1]) s) :: k s
  end.

End Run.

Section Main.
Variables (can_open : list Z -> Z -> bool) (can_exec : list Z -> bool).
Variables (saved_stdin saved_stdout : Z).

Definition gets (max : nat) (input : list Z) : list Z * list Z := gets_loop (max - 1) input.

Definition getcmd (nbuf : nat) (input : list Z) : option (list Z * list Z) :=
  let '(b, rest) := gets nbuf input in
  match cstring b with
  | [] => None
  | line => Some (line, rest)
  end.

(** One line of the main loop; the shell then asks for the next one. *)
Definition main_line (line : list Z) (s : proc) : list event :=
  match parsecmd line with
  | Ret c buf => execcmd can_open can_exec buf saved_stdin saved_stdout c (fun s => [Prompt (fds s)]) s
  | Panic msg => [Exited (if String.eqb msg "exit(0)" then 0 else -1)]
  | _ => []
  end.

End Main.

End MySh.
