(* ===== verification/ShellFacts.v ===== *)
(** * The shells: lemmas and properties

    [LexFacts] is about the lexer, [SafeFacts] about what every run of the two
    parsers keeps: it ends, and the strings of the command are words of the
    line.  The properties of running a command come last. *)

From S2P Require Import Prelude Shell.

Module LexFacts.
Import ShLex.

(** A run that ends between [lo] and the end [hi] of the line with a value
    satisfying [P], or stops with a message. *)
Definition within {A} (lo hi : nat) (P : A -> Prop) (o : outcome nat A) : Prop :=
  match o with
  | Ret a s => (lo <= s <= hi)%nat /\ P a
  | Panic _ => True
  | _ => False
  end.

Lemma within_bind {A B} (m : M nat A) (k : A -> M nat B) lo hi P Q s :
  within lo hi P (m s) ->
  (forall a s', (lo <= s' <= hi)%nat -> P a -> m s = Ret a s' -> within lo hi Q (k a s')) ->
  within lo hi Q (bind m k s).
Proof. intros Hm Hk. unfold bind. destruct (m s) eqn:E; try done. destruct Hm. by apply Hk. Qed.

Lemma within_weaken {A} (o : outcome nat A) lo lo' hi (P Q : A -> Prop) :
  within lo' hi P o -> (lo <= lo')%nat -> (forall a, P a -> Q a) -> within lo hi Q o.
Proof. destruct o; cbn; try done. intros [? ?] ? HPQ. split; [lia|auto]. Qed.

(** A loop whose body moves the cursor whenever it goes round again. *)
Lemma within_loop {A B} (body : A -> M nat (A + B)) lo hi (P : A -> Prop) (Q : B -> Prop) :
  (forall a s, (lo <= s <= hi)%nat -> P a ->
     within s hi (fun r => match r with inl a' => P a' | inr b => Q b end) (body a s) /\
     forall a' s', body a s = Ret (inl a') s' -> (s < s')%nat) ->
  forall fuel a s, (lo <= s <= hi)%nat -> P a -> (hi - s < fuel)%nat -> within s hi Q (loop fuel body a s).
Proof.
  intros Hb. induction fuel as [|fuel IH]; intros a s Hs HP Hf; [lia|]. cbn [loop].
  destruct (Hb a s Hs HP) as [Hw Hp]. apply (within_bind _ _ _ _ _ _ _ Hw).
  intros [a'|b] s' Hs' HP' E; [|split; [lia|done]].
  apply Hp in E. eapply within_weaken; [apply IH; [lia|done|lia]|lia|done].
Qed.

Section Lex.
Variables (symbols single line : list Z).
(** Every symbol is a token by itself or starts one, and a word does not look
    like one. *)
Hypothesis Hsym : forall c, strchr symbols c = true -> c = 62 \/ strchr single c = true.
Hypothesis Hsingle : forall c, strchr single c = true -> c <> 97 /\ c <> 0.
Hypothesis Hnul : Forall (fun c => c <> 0) line.

Notation es := (es line).
Notation char_at := (char_at line).

Lemma char_end s : char_at s <> 0 -> (s < es)%nat.
Proof.
  intros H. destruct (decide (s < es)%nat) as [|Hge]; [done|]. exfalso. apply H.
  unfold char_at. apply nth_overflow. unfold ShLex.es in Hge. lia.
Qed.

Lemma char_inside s : (s < es)%nat -> char_at s <> 0.
Proof.
  intros H. unfold char_at. destruct (lookup_lt_is_Some_2 line s H) as [c Hc].
  rewrite (nth_lookup_Some _ _ _ _ Hc). rewrite Forall_lookup in Hnul. eauto.
Qed.

Lemma skip_while_spec p n : forall s,
  let s' := skip_while p char_at n s in
  (s <= s' <= s + n)%nat /\ (forall i, (s <= i < s')%nat -> p (char_at i) = true) /\
  ((s' < s + n)%nat -> p (char_at s') = false).
Proof.
  induction n as [|n IH]; intros s; cbn.
  { split; [lia|]. split; intros; lia. }
  destruct (p (char_at s)) eqn:E.
  - destruct (IH (S s)) as (H1 & H2 & H3). split; [lia|]. split.
    + intros i Hi. destruct (decide (i = s)) as [->|]; [done|]. apply H2. lia.
    + intros. apply H3. lia.
  - split; [lia|]. split; [intros; lia|done].
Qed.

Lemma skip_ws_spec s : (s <= es)%nat ->
  (s <= skip_ws line s <= es)%nat /\
  ((skip_ws line s < es)%nat -> strchr whitespace (char_at (skip_ws line s)) = false).
Proof.
  intros H. unfold skip_ws.
  destruct (skip_while_spec (strchr whitespace) (es - s) s) as (H1 & _ & H3). cbn in *.
  split; [lia|]. intros. apply H3. lia.
Qed.

Lemma skip_ws_stop s : (s < es)%nat -> strchr whitespace (char_at s) = false -> skip_ws line s = s.
Proof.
  intros H Hc. unfold skip_ws. destruct (es - s)%nat as [|n] eqn:E; [lia|]. cbn [skip_while]. by rewrite Hc.
Qed.

(** A word of the line: not empty, ending where no word character is. *)
Definition word_ok (w : nat * nat) : Prop :=
  (fst w < snd w <= es)%nat /\
  (forall i, (fst w <= i < snd w)%nat -> word_char symbols (char_at i) = true) /\
  ((snd w < es)%nat -> word_char symbols (char_at (snd w)) = false).

Lemma gettoken_ok s : (s <= es)%nat ->
  exists tok q e s', gettoken symbols single line s = Ret (tok, q, e) s' /\
    (s <= s' <= es)%nat /\ q = skip_ws line s /\ (tok = 97 -> word_ok (q, e)) /\
    (char_at q <> 0 -> (s < s')%nat) /\ (tok = 0 <-> char_at q = 0).
Proof.
  intros Hs. pose proof (skip_ws_spec s Hs) as [Hq Hqc]. set (q := skip_ws line s) in *.
  unfold gettoken. erewrite (bind_eq get) by reflexivity. fold q.
  assert (Hfin : forall tok e, (q <= e <= es)%nat -> (tok = 97 -> word_ok (q, e)) ->
    (char_at q <> 0 -> (q < e)%nat) -> (tok = 0 <-> char_at q = 0) ->
    exists tok' q' e' s', (modify (fun _ => skip_ws line e) ;;; ret (tok, q, e)) s =
      Ret (tok', q', e') s' /\ (s <= s' <= es)%nat /\ q' = q /\ (tok' = 97 -> word_ok (q', e')) /\
      (char_at q' <> 0 -> (s < s')%nat) /\ (tok' = 0 <-> char_at q' = 0)).
  { intros tok e He Hw Hp Hz. pose proof (skip_ws_spec e ltac:(lia)) as [He' _].
    exists tok, q, e, (skip_ws line e). split; [done|]. split; [lia|]. do 2 (split; [done|]).
    split; [|done]. intros H. specialize (Hp H). lia. }
  destruct (Z.eqb_spec (char_at q) 0) as [E0|E0].
  { apply Hfin; [lia|done|done|done]. }
  pose proof (char_end q E0) as Hlt.
  destruct (strchr single (char_at q)) eqn:Es.
  { apply Hsingle in Es as [? ?]. apply Hfin; [lia|done|lia|done]. }
  destruct (Z.eqb_spec (char_at q) 62) as [E1|E1].
  { destruct (Z.eqb_spec (char_at (S q)) 62) as [E2|E2].
    - pose proof (char_end (S q) ltac:(congruence)). apply Hfin; [lia|done|lia|]. split; [done|congruence].
    - apply Hfin; [lia|congruence|lia|done]. }
  destruct (skip_while_spec (word_char symbols) (es - q) q) as (H1 & H2 & H3). cbn zeta in *.
  set (e := skip_while _ _ _ _) in *.
  assert (Hwc : word_char symbols (char_at q) = true).
  { unfold word_char. rewrite (Hqc Hlt). destruct (strchr symbols (char_at q)) eqn:E; [|done].
    destruct (Hsym _ E) as [?|?]; congruence. }
  assert (Hqe : (q < e)%nat).
  { destruct (decide (q = e)) as [E|]; [|lia]. rewrite <- E in H3. rewrite H3 in Hwc by lia. done. }
  apply Hfin; [lia| |lia|].
  - intros _. split; [cbn; lia|]. split; [exact H2|]. cbn. intros. apply H3. lia.
  - split; [done|congruence].
Qed.

Lemma peek_ok toks s : (s <= es)%nat ->
  exists b s', peek line toks s = Ret b s' /\ (s <= s' <= es)%nat /\ s' = skip_ws line s /\
    (b = true -> char_at s' <> 0 /\ strchr toks (char_at s') = true) /\
    (b = false -> char_at s' <> 0 -> strchr toks (char_at s') = false).
Proof.
  intros Hs. pose proof (skip_ws_spec s Hs) as [Hq _].
  do 2 eexists. split; [unfold peek, bind, get, modify, ret; reflexivity|]. split; [done|]. split; [done|].
  destruct (Z.eqb_spec (char_at (skip_ws line s)) 0); cbn; [by split|]. split; [done|]. by intros ->.
Qed.

(** After a successful [peek] the next token moves the cursor. *)
Lemma peek_gettoken s : (s <= es)%nat -> char_at s <> 0 -> strchr whitespace (char_at s) = false ->
  exists tok q e s', gettoken symbols single line s = Ret (tok, q, e) s' /\ (s < s' <= es)%nat /\ q = s.
Proof.
  intros Hs Hc Hw. destruct (gettoken_ok s Hs) as (tok & q & e & s' & R & H1 & H2 & _ & H4 & _).
  rewrite skip_ws_stop in H2 by (done || by apply char_end). subst q.
  exists tok, s, e, s'. split; [done|]. split; [|done]. specialize (H4 Hc). lia.
Qed.

Lemma peek_true toks s s' : (s <= es)%nat -> peek line toks s = Ret true s' ->
  (s <= s' < es)%nat /\ char_at s' <> 0 /\ strchr whitespace (char_at s') = false /\
  strchr toks (char_at s') = true.
Proof.
  intros Hs R. destruct (peek_ok toks s Hs) as (b & s2 & R2 & H1 & H2 & H3 & _).
  rewrite R in R2. injection R2 as <- <-. destruct (H3 eq_refl) as [Hc Ht].
  pose proof (char_end _ Hc). pose proof (skip_ws_spec s Hs) as [_ Hw]. rewrite <- H2 in Hw.
  split; [lia|]. split; [done|]. split; [by apply Hw|done].
Qed.

End Lex.
End LexFacts.

Module SafeFacts.
Import ShLex LexFacts.

(** The commands inside [c] all have room for the final null argument. *)
Fixpoint args_ok (c : cmd) : Prop :=
  match c with
  | EXEC argv => (length argv < Sh.MAXARGS)%nat
  | REDIR sub _ _ _ _ | BACK sub => args_ok sub
  | PIPE l r | LIST l r => args_ok l /\ args_ok r
  end.

(** Redirections around a simple command of [n] arguments. *)
Fixpoint simple (n : nat) (c : cmd) : Prop :=
  match c with
  | EXEC argv => length argv = n
  | REDIR sub _ _ _ _ => simple n sub
  | _ => False
  end.

Lemma simple_add n w c : simple n c -> simple (S n) (add_arg w c).
Proof.
  induction c as [argv| | | |]; cbn; try done. intros <-. rewrite length_app. cbn. lia.
Qed.

Lemma add_arg_args w c n : simple n c -> (S n < Sh.MAXARGS)%nat -> args_ok (add_arg w c).
Proof.
  induction c as [argv| | | |]; cbn; try done. intros <- H. rewrite length_app. cbn. lia.
Qed.

Lemma add_arg_spans w c n x : simple n c -> x ∈ spans (add_arg w c) <-> x = w \/ x ∈ spans c.
Proof.
  induction c as [argv|sub IH f ef mode fd| | |]; cbn [simple add_arg spans]; try done.
  - intros _. rewrite elem_of_app, list_elem_of_singleton. tauto.
  - intros H. rewrite !elem_of_app, (IH H). tauto.
Qed.

Section Safe.
Variables (symbols single line : list Z).
Hypothesis Hsym : forall c, strchr symbols c = true -> c = 62 \/ strchr single c = true.
Hypothesis Hsingle : forall c, strchr single c = true -> c <> 97 /\ c <> 0.
Hypothesis Hnul : Forall (fun c => c <> 0) line.

Notation es := (es line).
Notation gettoken := (gettoken symbols single line).
Notation peek := (peek line).

(** Every string of the command is a word of the line. *)
Definition cmd_ok (c : cmd) : Prop := Forall (word_ok symbols line) (spans c) /\ args_ok c.

Lemma within_peek {B} toks s (k : bool -> M nat B) Q : (s <= es)%nat ->
  (forall s', (s <= s' <= es)%nat -> within s' es Q (k false s')) ->
  (forall s', (s <= s' < es)%nat -> char_at line s' <> 0 -> strchr whitespace (char_at line s') = false ->
     within s' es Q (k true s')) ->
  within s es Q (bind (peek toks) k s).
Proof.
  intros Hs Hf Ht. destruct (peek_ok line toks s Hs) as (b & s' & R & H1 & _).
  rewrite (bind_eq _ _ _ _ _ R). eapply within_weaken; [|apply H1|done]. destruct b; [|by apply Hf].
  destruct (peek_true line toks s s' Hs R) as (H2 & H3 & H4 & _). by apply Ht.
Qed.

Lemma within_skip {B} s (k : token -> M nat B) Q : (s <= es)%nat -> char_at line s <> 0 ->
  strchr whitespace (char_at line s) = false ->
  (forall t s', (s < s' <= es)%nat -> within s' es Q (k t s')) ->
  within s es Q (bind gettoken k s).
Proof.
  intros Hs Hc Hw Hk.
  destruct (peek_gettoken symbols single line Hsym Hsingle s Hs Hc Hw)
    as (tok & q & e & s' & R & H1 & _).
  rewrite (bind_eq _ _ _ _ _ R). eapply within_weaken; [by apply Hk|lia|done].
Qed.

Lemma within_ret {A} (a : A) s (Q : A -> Prop) : (s <= es)%nat -> Q a -> within s es Q (ret a s).
Proof. intros. by split. Qed.

(** The loop of [parseredirs], for any way of making the new command. *)
Section Redirs.
Variables (mk : Z -> nat -> nat -> cmd -> cmd) (msg : string).
Hypothesis Hmk : forall tok q e c, word_ok symbols line (q, e) -> cmd_ok c ->
  cmd_ok (mk tok q e c) /\ forall n, simple n c -> simple n (mk tok q e c).

Definition redirs_body (c : cmd) : M nat (cmd + cmd) :=
  let! more := peek [60; 62] in
  if more then
    let! (tok, _, _) := gettoken in
    let! (t, q, eq) := gettoken in
    if negb (t =? 97) then panic msg else ret (inl (mk tok q eq c))
  else ret (inr c).

Lemma redirs_ok fuel c0 s : (s <= es)%nat -> cmd_ok c0 -> (es - s < fuel)%nat ->
  within s es (fun c => cmd_ok c /\ forall n, simple n c0 -> simple n c) (loop fuel redirs_body c0 s).
Proof.
  intros Hs Hc Hf.
  apply (within_loop redirs_body s es (fun c => cmd_ok c /\ forall n, simple n c0 -> simple n c)
    (fun c => cmd_ok c /\ forall n, simple n c0 -> simple n c)); [|lia|done|done].
  clear Hc Hf Hs fuel. intros c s' [_ Hs] [Hc Hn]. clear s. rename s' into s. unfold redirs_body.
  destruct (peek_ok line [60; 62] s Hs) as (b & s1 & R1 & H1 & _).
  rewrite !(bind_eq _ _ _ _ _ R1). destruct b.
  2:{ split; [by split; [lia|]|done]. }
  destruct (peek_true line _ s s1 Hs R1) as (H2 & H3 & H4 & _).
  destruct (peek_gettoken symbols single line Hsym Hsingle s1 ltac:(lia) H3 H4)
    as (tok & q0 & e0 & s2 & R2 & H5 & _).
  rewrite !(bind_eq _ _ _ _ _ R2).
  destruct (gettoken_ok symbols single line Hsym Hsingle s2 ltac:(lia))
    as (t & q & e & s3 & R3 & H6 & _ & Hw & _).
  rewrite !(bind_eq _ _ _ _ _ R3).
  destruct (Z.eqb_spec t 97) as [->|Ht]; cbn [negb]; [|by split].
  destruct (Hmk tok q e c (Hw eq_refl) Hc) as [Hc' Hn']. split.
  - split; [lia|]. split; [done|]. auto.
  - intros a' s' [= <- <-]. lia.
Qed.

(** The argument loop of [parseexec], with a test that stops the shell. *)
Variables (stops : nat -> nat -> nat -> bool) (m1 m2 m3 : string).

Definition args_body (fuel : nat) (st : cmd * nat) : M nat (cmd * nat + cmd) :=
  let '(c, argc) := st in
  let! stop := peek [124; 41; 38; 59] in
  if stop then ret (inr c)
  else
    let! (tok, q, eq) := gettoken in
    if tok =? 0 then ret (inr c)
    else if negb (tok =? 97) then panic m1
    else if stops argc q eq then panic m2
    else
      let c := add_arg (q, eq) c in
      let argc := S argc in
      if (Sh.MAXARGS <=? argc)%nat then panic m3
      else
        let! c := loop fuel redirs_body c in
        ret (inl (c, argc)).

Lemma args_step f st s : (s <= es)%nat -> (es - s < f)%nat ->
  cmd_ok (fst st) /\ simple (snd st) (fst st) ->
  within s es (fun r => match r with inl a' => cmd_ok (fst a') /\ simple (snd a') (fst a') | inr b => cmd_ok b end)
    (args_body f st s) /\
  forall a' s', args_body f st s = Ret (inl a') s' -> (s < s')%nat.
Proof.
  destruct st as [c argc]. cbn [fst snd]. intros Hs Hf [Hc Hn]. unfold args_body.
  destruct (peek_ok line [124; 41; 38; 59] s Hs) as (b & s1 & R1 & H1 & _).
  rewrite !(bind_eq _ _ _ _ _ R1). destruct b.
  { split; [by split; [lia|]|done]. }
  destruct (gettoken_ok symbols single line Hsym Hsingle s1 ltac:(lia))
    as (t & q & e & s2 & R2 & H2 & _ & Hw & Hp & Hz).
  rewrite !(bind_eq _ _ _ _ _ R2).
  destruct (Z.eqb_spec t 0) as [->|Ht]. { split; [by split; [lia|]|done]. }
  destruct (Z.eqb_spec t 97) as [->|Ht']; cbn [negb]; [|by split].
  destruct (stops argc q e); [by split|].
  destruct (Nat.leb_spec Sh.MAXARGS (S argc)) as [|Hlt]; [by split|].
  assert (Hlt2 : (s1 < s2)%nat). { apply Hp. intros H0. by apply Ht, Hz. }
  assert (Hc2 : cmd_ok (add_arg (q, e) c)).
  { split; [|by apply add_arg_args with argc]. destruct Hc as [Hc _]. rewrite Forall_forall in Hc.
    apply Forall_forall. intros x [->|Hx]%(add_arg_spans _ _ argc); auto. }
  pose proof (redirs_ok f _ s2 ltac:(lia) Hc2 ltac:(lia)) as Hr.
  unfold bind. destruct (loop f redirs_body _ s2) as [c3 s3| | | |]; try done.
  destruct Hr as [H3 [Hc3 Hn3]]. split.
  - split; [lia|]. split; [done|]. apply Hn3, simple_add. done.
  - intros a' s' [= <- <-]. lia.
Qed.

Lemma args_ok_run f c s : (s <= es)%nat -> (es - s < f)%nat -> cmd_ok c -> simple 0 c ->
  within s es cmd_ok (loop f (args_body f) (c, 0%nat) s).
Proof.
  intros Hs Hf Hc Hn.
  apply (within_loop (args_body f) s es (fun st => cmd_ok (fst st) /\ simple (snd st) (fst st)) cmd_ok);
    [|lia|done|lia].
  intros st s' Hs' Hst. apply args_step; [lia|lia|done].
Qed.

(** The loop over [&]. *)
Lemma backs_ok f (mkb : cmd -> cmd) s c : (forall c, cmd_ok c -> cmd_ok (mkb c)) ->
  (s <= es)%nat -> (es - s < f)%nat -> cmd_ok c ->
  within s es cmd_ok (loop f (fun c =>
        let! b := peek [38] in
        if b then
          gettoken ;;;
          ret (inl (mkb c))
        else ret (inr c)) c s).
Proof.
  intros Hmkb Hs Hf Hc. apply (within_loop _ s es cmd_ok cmd_ok); [|lia|done|lia].
  clear c Hc Hs Hf. intros c s' [_ Hs] Hc. clear s. rename s' into s.
  destruct (peek_ok line [38] s Hs) as (b & s1 & R1 & H1 & _).
  rewrite !(bind_eq _ _ _ _ _ R1). destruct b.
  2:{ split; [by split; [lia|]|done]. }
  destruct (peek_true line _ s s1 Hs R1) as (H2 & H3 & H4 & _).
  destruct (peek_gettoken symbols single line Hsym Hsingle s1 ltac:(lia) H3 H4)
    as (tok & q0 & e0 & s2 & R2 & H5 & _).
  rewrite !(bind_eq _ _ _ _ _ R2). split.
  - split; [lia|]. auto.
  - intros a' s' [= <- <-]. lia.
Qed.

End Redirs.

End Safe.

(** ** The parser of [sh.c] *)

Section ShParse.
Variable line : list Z.
Hypothesis Hnul : Forall (fun c => c <> 0) line.

Lemma sh_sym c : strchr Sh.symbols c = true -> c = 62 \/ strchr Sh.single c = true.
Proof.
  unfold strchr, Sh.symbols, Sh.single. cbn [existsb]. rewrite !orb_true_iff, !Z.eqb_eq. lia.
Qed.
Lemma sh_single c : strchr Sh.single c = true -> c <> 97 /\ c <> 0.
Proof. unfold strchr, Sh.single. cbn [existsb]. rewrite !orb_true_iff, !Z.eqb_eq. lia. Qed.

Notation es := (es line).
Notation cmd_ok := (cmd_ok Sh.symbols line).

Lemma sh_mk_ok tok q e c : word_ok Sh.symbols line (q, e) -> cmd_ok c ->
  let mk := if tok =? 60 then Sh.redircmd c q e Sh.O_RDONLY 0
            else if tok =? 62 then Sh.redircmd c q e (Z.lor Sh.O_WRONLY Sh.O_CREATE) 1
            else if tok =? 43 then Sh.redircmd c q e (Z.lor Sh.O_WRONLY Sh.O_CREATE) 1 else c in
  cmd_ok mk /\ forall n, simple n c -> simple n mk.
Proof.
  intros Hw [H1 H2]. assert (Hr : forall mode fd, cmd_ok (REDIR c q e mode fd)).
  { intros mode fd. split; [|done]. cbn [spans]. apply Forall_app. split; [done|]. by apply Forall_singleton. }
  cbn zeta. unfold Sh.redircmd.
  repeat case_match; (split; [apply Hr || by split|done]).
Qed.

Lemma sh_redirs_ok fuel c s : (s <= es)%nat -> cmd_ok c -> (es - s < fuel)%nat ->
  within s es (fun c' => cmd_ok c' /\ forall n, simple n c -> simple n c') (Sh.parseredirs line fuel c s).
Proof.
  intros Hs Hc Hf. unfold Sh.parseredirs, Sh.redir_body, Sh.peek, Sh.gettoken.
  by apply (redirs_ok Sh.symbols Sh.single line sh_sym sh_single
    (fun tok q e c => if tok =? 60 then Sh.redircmd c q e Sh.O_RDONLY 0
            else if tok =? 62 then Sh.redircmd c q e (Z.lor Sh.O_WRONLY Sh.O_CREATE) 1
            else if tok =? 43 then Sh.redircmd c q e (Z.lor Sh.O_WRONLY Sh.O_CREATE) 1 else c)
    "missing file for redirection" sh_mk_ok).
Qed.

Lemma sh_args_ok fuel c s : (s <= es)%nat -> (es - s < fuel)%nat -> cmd_ok c -> simple 0 c ->
  within s es cmd_ok (loop fuel (Sh.arg_body line fuel) (c, 0%nat) s).
Proof.
  intros Hs Hf Hc Hn.
  by apply (args_ok_run Sh.symbols Sh.single line sh_sym sh_single
    (fun tok q e c => if tok =? 60 then Sh.redircmd c q e Sh.O_RDONLY 0
            else if tok =? 62 then Sh.redircmd c q e (Z.lor Sh.O_WRONLY Sh.O_CREATE) 1
            else if tok =? 43 then Sh.redircmd c q e (Z.lor Sh.O_WRONLY Sh.O_CREATE) 1 else c)
    "missing file for redirection" sh_mk_ok (fun _ _ _ => false) "syntax" "" "too many args").
Qed.

Lemma cmd_ok_exec : cmd_ok Sh.execcmd /\ simple 0 Sh.execcmd.
Proof. split; [split; [by apply Forall_nil|]|done]. cbn. unfold Sh.MAXARGS. lia. Qed.

Lemma cmd_ok_two l r : cmd_ok l -> cmd_ok r -> cmd_ok (PIPE l r) /\ cmd_ok (LIST l r).
Proof. intros [? ?] [? ?]. split; (split; [cbn; by apply Forall_app|done]). Qed.

Lemma sh_parse_ok fuel : forall s, (s <= es)%nat ->
  ((4 * (es - s) + 4 <= fuel)%nat -> within s es cmd_ok (Sh.parseline line fuel s)) /\
  ((4 * (es - s) + 3 <= fuel)%nat -> within s es cmd_ok (Sh.parsepipe line fuel s)) /\
  ((4 * (es - s) + 2 <= fuel)%nat -> within s es cmd_ok (Sh.parseexec line fuel s)) /\
  ((4 * (es - s) + 1 <= fuel)%nat -> within s es cmd_ok (Sh.parseblock line fuel s)).
Proof.
  induction fuel as [|f IH]; intros s Hs; [split_and!; lia|]. split_and!; intros Hf.
  - change (Sh.parseline line (S f)) with
      (let! c := Sh.parsepipe line f in
       let! c := loop f (fun c => let! b := Sh.peek line [38] in
         if b then Sh.gettoken line ;;; ret (inl (Sh.backcmd c)) else ret (inr c)) c in
       let! b := Sh.peek line [59] in
       if b then Sh.gettoken line ;;; let! r := Sh.parseline line f in ret (Sh.listcmd c r) else ret c).
    eapply within_bind; [apply IH; lia|]. intros c s1 H1 Hc _. eapply within_weaken; [|apply H1|done].
    eapply within_bind; [apply (backs_ok Sh.symbols Sh.single line sh_sym sh_single _ Sh.backcmd); [done|lia|lia|done]|].
    intros c2 s2 H2 Hc2 _. eapply within_weaken; [|apply H2|done].
    apply within_peek; [lia|intros; by apply within_ret; [lia|]|].
    intros s3 H3 Hch Hws. apply (within_skip Sh.symbols Sh.single line sh_sym sh_single); [lia|done|done|].
    intros t s4 H4. eapply within_bind; [apply IH; lia|]. intros r s5 H5 Hr _.
    split; [lia|]. by apply cmd_ok_two.
  - change (Sh.parsepipe line (S f)) with
      (let! c := Sh.parseexec line f in
       let! b := Sh.peek line [124] in
       if b then Sh.gettoken line ;;; let! r := Sh.parsepipe line f in ret (Sh.pipecmd c r) else ret c).
    eapply within_bind; [apply IH; lia|]. intros c s1 H1 Hc _. eapply within_weaken; [|apply H1|done].
    apply within_peek; [lia|intros; by apply within_ret; [lia|]|].
    intros s3 H3 Hch Hws. apply (within_skip Sh.symbols Sh.single line sh_sym sh_single); [lia|done|done|].
    intros t s4 H4. eapply within_bind; [apply IH; lia|]. intros r s5 H5 Hr _.
    split; [lia|]. by apply cmd_ok_two.
  - change (Sh.parseexec line (S f)) with
      (let! b := Sh.peek line [40] in
       if b then Sh.parseblock line f
       else let! c := Sh.parseredirs line f Sh.execcmd in loop f (Sh.arg_body line f) (c, 0%nat)).
    destruct cmd_ok_exec as [He1 He2].
    apply within_peek; [lia| |intros s1 H1 _ _; apply IH; lia].
    intros s1 H1. eapply within_bind; [apply sh_redirs_ok; [lia|done|lia]|].
    intros c s2 H2 [Hc Hn] _. eapply within_weaken; [apply sh_args_ok; auto; lia|lia|done].
  - change (Sh.parseblock line (S f)) with
      (let! b := Sh.peek line [40] in
       if negb b then panic "parseblock"
       else
         Sh.gettoken line ;;;
         let! c := Sh.parseline line f in
         let! b := Sh.peek line [41] in
         if negb b then panic "syntax - missing )"
         else Sh.gettoken line ;;; Sh.parseredirs line f c).
    apply within_peek; [lia|done|]. intros s1 H1 Hch Hws. cbn [negb].
    apply (within_skip Sh.symbols Sh.single line sh_sym sh_single); [lia|done|done|].
    intros t s2 H2. eapply within_bind; [apply IH; lia|]. intros c s3 H3 Hc _.
    eapply within_weaken; [|apply H3|done].
    apply within_peek; [lia|done|]. intros s4 H4 Hch4 Hws4. cbn [negb].
    apply (within_skip Sh.symbols Sh.single line sh_sym sh_single); [lia|done|done|].
    intros t' s5 H5. eapply within_weaken; [apply sh_redirs_ok; [lia|done|lia]|lia|]. by intros c' [? _].
Qed.

Lemma sh_parse_total : within 0 es cmd_ok (Sh.parse line 0%nat).
Proof.
  unfold Sh.parse. eapply within_bind; [apply sh_parse_ok; lia|]. intros c s H Hc _.
  eapply within_weaken; [|apply H|done].
  destruct (peek_ok line [] s ltac:(lia)) as (b & s1 & R & H1 & _).
  rewrite (bind_eq _ _ _ _ _ R). erewrite (bind_eq get) by reflexivity.
  destruct (s1 =? es)%nat; cbn [negb]; [|done]. by split.
Qed.

End ShParse.

(** ** The parser of project 3 *)

Section MyParse.
Variable line : list Z.
Hypothesis Hnul : Forall (fun c => c <> 0) line.

Lemma my_sym c : strchr MySh.symbols c = true -> c = 62 \/ strchr MySh.single c = true.
Proof.
  unfold strchr, MySh.symbols, MySh.single. cbn [existsb]. rewrite !orb_true_iff, !Z.eqb_eq. lia.
Qed.
Lemma my_single c : strchr MySh.single c = true -> c <> 97 /\ c <> 0.
Proof. unfold strchr, MySh.single. cbn [existsb]. rewrite !orb_true_iff, !Z.eqb_eq. lia. Qed.

Notation es := (es line).
Notation cmd_ok := (cmd_ok MySh.symbols line).

Definition my_mk (tok : Z) (q e : nat) (c : cmd) : cmd :=
  if tok =? 60 then MySh.init_redircmd c q e MySh.O_RDONLY 0
  else if tok =? 62 then MySh.init_redircmd c q e (Z.lor MySh.O_WRONLY MySh.O_CREAT) 1
  else if tok =? 43 then MySh.init_redircmd c q e (Z.lor MySh.O_WRONLY MySh.O_CREAT) 1 else c.

Lemma my_mk_ok tok q e c : word_ok MySh.symbols line (q, e) -> cmd_ok c ->
  cmd_ok (my_mk tok q e c) /\ forall n, simple n c -> simple n (my_mk tok q e c).
Proof.
  intros Hw [H1 H2]. assert (Hr : forall mode fd, cmd_ok (REDIR c q e mode fd)).
  { intros mode fd. split; [|done]. cbn [spans]. apply Forall_app. split; [done|]. by apply Forall_singleton. }
  unfold my_mk, MySh.init_redircmd. repeat case_match; (split; [apply Hr || by split|done]).
Qed.

Lemma my_exec_ok fuel s : (s <= es)%nat -> (es - s < fuel)%nat ->
  within s es cmd_ok (MySh.parseexec line fuel s).
Proof.
  intros Hs Hf. unfold MySh.parseexec, MySh.parseredirs. eapply within_bind.
  - apply (redirs_ok MySh.symbols MySh.single line my_sym my_single my_mk "missing file for redirection" my_mk_ok);
      [lia| |done]. split; [by apply Forall_nil|]. cbn. unfold Sh.MAXARGS. lia.
  - intros c s1 H1 [Hc Hn] _. eapply within_weaken; [|apply H1|done].
    apply (args_ok_run MySh.symbols MySh.single line my_sym my_single my_mk "missing file for redirection"
      my_mk_ok (fun argc q e => (argc =? 0)%nat && MySh.is_exit line q e) "syntax" "exit(0)" "too many args");
      [lia|lia|done|by apply Hn].
Qed.

Lemma my_two l r : cmd_ok l -> cmd_ok r -> cmd_ok (PIPE l r) /\ cmd_ok (LIST l r).
Proof. intros [? ?] [? ?]. split; (split; [cbn; by apply Forall_app|done]). Qed.

Lemma my_pipe_ok fuel : forall s, (s <= es)%nat -> (es - s + 2 <= fuel)%nat ->
  within s es cmd_ok (MySh.parsepipe line fuel s).
Proof.
  induction fuel as [|f IH]; intros s Hs Hf; [lia|]. cbn [MySh.parsepipe].
  eapply within_bind; [apply my_exec_ok; lia|]. intros c s1 H1 Hc _. eapply within_weaken; [|apply H1|done].
  apply within_peek; [lia|intros; by apply within_ret; [lia|]|].
  intros s3 H3 Hch Hws. apply (within_skip MySh.symbols MySh.single line my_sym my_single); [lia|done|done|].
  intros t s4 H4. eapply within_bind; [apply IH; lia|]. intros r s5 H5 Hr _.
  split; [lia|]. by apply my_two.
Qed.

Lemma my_line_ok fuel : forall s, (s <= es)%nat -> (es - s + 3 <= fuel)%nat ->
  within s es cmd_ok (MySh.parseline line fuel s).
Proof.
  induction fuel as [|f IH]; intros s Hs Hf; [lia|]. cbn [MySh.parseline].
  eapply within_bind; [apply my_pipe_ok; lia|]. intros c s1 H1 Hc _. eapply within_weaken; [|apply H1|done].
  eapply within_bind;
    [apply (backs_ok MySh.symbols MySh.single line my_sym my_single _ MySh.init_backcmd); [done|lia|lia|done]|].
  intros c2 s2 H2 Hc2 _. eapply within_weaken; [|apply H2|done].
  apply within_peek; [lia|intros; by apply within_ret; [lia|]|].
  intros s3 H3 Hch Hws. apply (within_skip MySh.symbols MySh.single line my_sym my_single); [lia|done|done|].
  intros t s4 H4. eapply within_bind; [apply IH; lia|]. intros r s5 H5 Hr _.
  split; [lia|]. by apply my_two.
Qed.

Lemma my_parse_total : within 0 es cmd_ok (MySh.parse line 0%nat).
Proof.
  unfold MySh.parse. eapply within_bind; [apply my_line_ok; lia|]. intros c s H Hc _.
  eapply within_weaken; [|apply H|done].
  destruct (peek_ok line [] s ltac:(lia)) as (b & s1 & R & H1 & _).
  rewrite (bind_eq _ _ _ _ _ R). erewrite (bind_eq get) by reflexivity.
  destruct (s1 =? es)%nat; cbn [negb]; [|done]. by split.
Qed.

End MyParse.

(** ** Terminating the strings *)

Definition zero_all (b : list Z) (ps : list nat) : list Z := foldl (fun b p => <[p := 0]> b) b ps.

Lemma zero_all_length b ps : length (zero_all b ps) = length b.
Proof.
  revert b. induction ps as [|p ps IH]; intros b; [done|].
  change (length (zero_all (<[p:=0]> b) ps) = length b). by rewrite IH, length_insert.
Qed.

Lemma zero_all_lookup ps i : forall b, (i < length b)%nat ->
  zero_all b ps !! i = if decide (i ∈ ps) then Some 0 else b !! i.
Proof.
  induction ps as [|p ps IH]; intros b Hi; [done|].
  change (zero_all (<[p:=0]> b) ps !! i = if decide (i ∈ p :: ps) then Some 0 else b !! i).
  rewrite IH by (by rewrite length_insert). destruct (decide (i ∈ ps)) as [H1|H1].
  - rewrite decide_True by set_solver. done.
  - destruct (decide (p = i)) as [->|Hne].
    + rewrite list_lookup_insert_eq by done. rewrite decide_True by set_solver. done.
    + rewrite list_lookup_insert_ne by done. rewrite decide_False by set_solver. done.
Qed.

Lemma nulterminate_run c : forall b, Forall (fun w : nat * nat => (snd w < length b)%nat) (spans c) ->
  nulterminate c b = Ret tt (zero_all b (snd <$> spans c)).
Proof.
  assert (Happ : forall b l1 l2, zero_all b (snd <$> (l1 ++ l2 : list (nat * nat))) =
    zero_all (zero_all b (snd <$> l1)) (snd <$> l2)).
  { intros b l1 l2. unfold zero_all. by rewrite fmap_app, foldl_app. }
  induction c as [argv|sub IH f ef mode fd|l IHl r IHr|l IHl r IHr|sub IH]; intros b H; cbn [nulterminate spans] in *.
  - revert b H. induction argv as [|w argv IH]; intros b H; [done|].
    apply Forall_cons in H as [Hw H]. cbn [for_each].
    unfold bind at 1, put_nul, bind at 1, get. apply Nat.ltb_lt in Hw. rewrite Hw. unfold modify.
    rewrite IH; [done|]. by rewrite length_insert.
  - apply Forall_app in H as [H1 H2]. rewrite Forall_singleton in H2. cbn in H2.
    rewrite (bind_eq _ _ _ _ _ (IH b H1)), Happ. unfold put_nul, bind, get.
    apply Nat.ltb_lt in H2. by rewrite zero_all_length, H2.
  - apply Forall_app in H as [H1 H2]. rewrite (bind_eq _ _ _ _ _ (IHl b H1)), Happ.
    apply IHr. by rewrite zero_all_length.
  - apply Forall_app in H as [H1 H2]. rewrite (bind_eq _ _ _ _ _ (IHl b H1)), Happ.
    apply IHr. by rewrite zero_all_length.
  - by apply IH.
Qed.

(** The characters of a word of the line. *)
Definition word (line : list Z) (w : nat * nat) : list Z := take (snd w - fst w) (drop (fst w) line).

Lemma cstring_stop (w b : list Z) : Forall (fun c => c <> 0) w -> cstring (w ++ 0 :: b) = w.
Proof.
  induction 1 as [|c w Hc Hw IH]; [done|]. cbn [app cstring].
  rewrite (proj2 (Z.eqb_neq _ _)) by done. by f_equal.
Qed.

(** After [nulterminate] every counted string is the C string of exactly its
    characters. *)
Lemma nulterminate_words symbols line c :
  Forall (fun c => c <> 0) line -> Forall (word_ok symbols line) (spans c) ->
  exists buf, nulterminate c (line ++ [0]) = Ret tt buf /\ length buf = S (length line) /\
    forall w, w ∈ spans c -> str_at buf (fst w) = word line w.
Proof.
  intros Hnul Hw. exists (zero_all (line ++ [0]) (snd <$> spans c)).
  assert (Hlen : length (zero_all (line ++ [0]) (snd <$> spans c)) = S (length line)).
  { rewrite zero_all_length, length_app. cbn. lia. }
  split; [|split; [done|]].
  - apply nulterminate_run. eapply Forall_impl; [exact Hw|]. intros w [H _].
    rewrite length_app. cbn. unfold es in H. lia.
  - intros w Hin. rewrite Forall_forall in Hw. pose proof (Hw w Hin) as (Hr & Hchars & _).
    unfold es in Hr. set (buf := zero_all _ _) in *.
    assert (Hb : forall i, (fst w <= i < snd w)%nat -> buf !! i = line !! i).
    { intros i Hi. unfold buf. rewrite zero_all_lookup by (rewrite length_app; cbn; lia).
      rewrite lookup_app_l by lia. apply decide_False. intros (x & Ex & Hx)%list_elem_of_fmap.
      destruct (Hw x Hx) as (Hrx & _ & Hstop). pose proof (Hchars i Hi) as Hc. rewrite Ex in Hc.
      rewrite Hstop in Hc; [done|]. unfold es. rewrite <- Ex. lia. }
    assert (Hz : buf !! snd w = Some 0).
    { unfold buf. rewrite zero_all_lookup by (rewrite length_app; cbn; lia).
      apply decide_True. apply (list_elem_of_fmap_2 snd), Hin. }
    unfold str_at, word.
    assert (E : drop (fst w) buf = take (snd w - fst w) (drop (fst w) line) ++ 0 :: drop (S (snd w)) buf).
    { apply list_eq. intros i. rewrite lookup_drop.
      assert (Hl : length (take (snd w - fst w) (drop (fst w) line)) = (snd w - fst w)%nat)
        by (rewrite length_take, length_drop; lia).
      destruct (decide (i < snd w - fst w)%nat) as [Hi|Hi].
      - rewrite lookup_app_l by lia. rewrite lookup_take_lt, lookup_drop by lia. apply Hb. lia.
      - rewrite lookup_app_r, Hl by lia. destruct (i - (snd w - fst w))%nat as [|j] eqn:Ei.
        + change (buf !! (fst w + i)%nat = Some 0). rewrite <- Hz. f_equal. lia.
        + change (buf !! (fst w + i)%nat = drop (S (snd w)) buf !! j). rewrite lookup_drop. f_equal. lia. }
    rewrite E. apply cstring_stop. apply Forall_take, Forall_drop, Hnul.
Qed.

End SafeFacts.

Module RoundTrip.
Import ShLex LexFacts SafeFacts.

(** A command as text: its words, not where they stand in a line. *)
Inductive tree :=
| TExec (words : list (list Z))
| TRedir (sub : tree) (mode fd : Z) (file : list Z)
| TPipe (left right : tree)
| TList (left right : tree)
| TBack (sub : tree).

(** The command read back through [f], the string of each counted string. *)
Fixpoint text (f : nat * nat -> list Z) (c : cmd) : tree :=
  match c with
  | EXEC argv => TExec (f <$> argv)
  | REDIR sub q e mode fd => TRedir (text f sub) mode fd (f (q, e))
  | PIPE l r => TPipe (text f l) (text f r)
  | LIST l r => TList (text f l) (text f r)
  | BACK sub => TBack (text f sub)
  end.

Lemma text_ext f g c : (forall w, w ∈ spans c -> f w = g w) -> text f c = text g c.
Proof.
  induction c as [argv|sub IH q e mode fd|l IHl r IHr|l IHl r IHr|sub IH]; cbn [text spans]; intros H.
  - f_equal. apply list_fmap_ext. intros i w Hw. apply H. by eapply list_elem_of_lookup_2.
  - rewrite IH by set_solver. rewrite (H (q, e)) by set_solver. done.
  - rewrite IHl, IHr by set_solver. done.
  - rewrite IHl, IHr by set_solver. done.
  - by rewrite IH.
Qed.

(** One way of writing a command: every operand in parentheses. *)
Fixpoint print_words (ws : list (list Z)) : list Z :=
  match ws with [] => [] | w :: ws' => w ++ 32 :: print_words ws' end.
Fixpoint print (t : tree) : list Z :=
  match t with
  | TExec ws => print_words ws
  | TRedir sub mode fd f => 40 :: print sub ++ 41 :: (if fd =? 0 then 60 else 62) :: f
  | TPipe l r => 40 :: print l ++ 41 :: 124 :: 40 :: print r ++ [41]
  | TList l r => 40 :: print l ++ 41 :: 59 :: 40 :: print r ++ [41]
  | TBack sub => 40 :: print sub ++ [41; 38]
  end.

(** Words that the shell can read, and the redirections it makes. *)
Definition good_word (w : list Z) : Prop :=
  w <> [] /\ Forall (fun c => c <> 0 /\ word_char Sh.symbols c = true) w.
Fixpoint printable (t : tree) : Prop :=
  match t with
  | TExec ws => Forall good_word ws /\ (length ws < Sh.MAXARGS)%nat
  | TRedir sub mode fd f => printable sub /\ good_word f /\
      (mode, fd) ∈ [(Sh.O_RDONLY, 0); (Z.lor Sh.O_WRONLY Sh.O_CREATE, 1)]
  | TPipe l r | TList l r => printable l /\ printable r
  | TBack sub => printable sub
  end.

Section Trip.
Variable line : list Z.
Hypothesis Hnul : Forall (fun c => c <> 0) line.

Notation es := (es line).

(** The cursor [s] stands before [r]. *)
Definition before (s : nat) (r : list Z) : Prop := (s <= es)%nat /\ drop s line = r.

Lemma before_app s w r : before s (w ++ r) -> before (s + length w) r.
Proof.
  intros [Hs E]. split.
  - apply (f_equal length) in E. rewrite length_drop, length_app in E. unfold ShLex.es in *. lia.
  - by rewrite <- drop_drop, E, drop_app_length.
Qed.

Lemma before_cons s c r : before s (c :: r) -> before (S s) r.
Proof. intros H. apply (before_app s [c] r) in H. by rewrite Nat.add_comm in H. Qed.

Lemma before_len s r : before s r -> (es - s = length r)%nat.
Proof. intros [Hs E]. rewrite <- E, length_drop. done. Qed.

Lemma before_char s r : before s r -> char_at line s = default 0 (head r).
Proof.
  intros [_ E]. unfold char_at. rewrite nth_lookup, <- E.
  replace s with (s + 0)%nat at 1 by lia. rewrite <- lookup_drop. by destruct (drop s line).
Qed.

Lemma before_in s r : before s r -> Forall (fun c => c <> 0) r.
Proof. intros [_ <-]. by apply Forall_drop. Qed.

Lemma skip_while_word p w : forall n s r, before s (w ++ r) -> n = length (w ++ r) ->
  Forall (fun c => p c = true) w -> (forall c r', r = c :: r' -> p c = false) ->
  skip_while p (char_at line) n s = (s + length w)%nat.
Proof.
  induction w as [|c w IH]; intros n s r Hb -> Hw Hr.
  - cbn [app length]. rewrite Nat.add_0_r. destruct r as [|c r]; [done|]. cbn [length skip_while].
    rewrite (before_char s _ Hb). change (default 0 (head ([] ++ c :: r))) with c.
    by rewrite (Hr c r).
  - apply Forall_cons in Hw as [Hc Hw]. cbn [app length skip_while].
    rewrite (before_char s _ Hb). change (default 0 (head ((c :: w) ++ r))) with c. rewrite Hc.
    rewrite (IH _ (S s) r); [lia|by apply before_cons in Hb|done|done|done].
Qed.

(** What follows is not white space. *)
Definition solid (r : list Z) : Prop := forall c r', r = c :: r' -> strchr whitespace c = false.

Lemma skip_ws_solid s r : before s r -> solid r -> skip_ws line s = s.
Proof.
  intros Hb Hr. unfold skip_ws. rewrite (skip_while_word _ [] _ s r); [cbn; lia|done|by apply before_len|done|done].
Qed.

Lemma peek_solid toks s r : before s r -> solid r ->
  peek line toks s = Ret (match r with [] => false | c :: _ => strchr toks c end) s.
Proof.
  intros Hb Hr. unfold peek, bind, get, modify, ret. rewrite (skip_ws_solid s r Hb Hr), (before_char s r Hb).
  pose proof (before_in s r Hb) as Hz. destruct r as [|c r]; [done|]. cbn.
  apply Forall_cons in Hz as [Hz _]. by rewrite (proj2 (Z.eqb_neq _ _)).
Qed.

Lemma tok_single s c r : before s (c :: r) -> strchr whitespace c = false -> strchr Sh.single c = true ->
  solid r -> Sh.gettoken line s = Ret (c, s, S s) (S s).
Proof.
  intros Hb Hc Hs Hr. unfold Sh.gettoken, gettoken, bind, get, modify, ret.
  rewrite (skip_ws_solid s (c :: r) Hb) by (by intros ? ? [= <- <-]).
  rewrite (before_char s _ Hb). change (default 0 (head (c :: r))) with c.
  pose proof (before_in s _ Hb) as Hz. apply Forall_cons in Hz as [Hz _].
  rewrite (proj2 (Z.eqb_neq _ _) Hz), Hs. by rewrite (skip_ws_solid (S s) r (before_cons _ _ _ Hb) Hr).
Qed.

Lemma tok_greater s r : before s (62 :: r) -> solid r -> (forall r', r <> 62 :: r') ->
  Sh.gettoken line s = Ret (62, s, S s) (S s).
Proof.
  intros Hb Hr H62. unfold Sh.gettoken, gettoken, bind, get, modify, ret.
  rewrite (skip_ws_solid s (62 :: r) Hb) by (by intros ? ? [= <- <-]).
  rewrite (before_char s _ Hb). change (default 0 (head (62 :: r))) with 62. change (62 =? 0) with false.
  change (strchr Sh.single 62) with false. change (62 =? 62) with true. cbv iota.
  rewrite (before_char (S s) r) by (by apply before_cons in Hb).
  assert (E : (default 0 (head r) =? 62) = false).
  { destruct r as [|c r]; [done|]. cbn. apply Z.eqb_neq. intros ->. by apply (H62 r). }
  rewrite E. by rewrite (skip_ws_solid (S s) r (before_cons _ _ _ Hb) Hr).
Qed.

Lemma word_solid w r : good_word w -> solid (w ++ r).
Proof.
  intros [Hne Hw] c r' E. destruct w as [|x w]; [done|]. injection E as <- _.
  apply Forall_cons in Hw as [[_ Hx] _]. unfold word_char in Hx.
  by destruct (strchr whitespace x).
Qed.

(** A word and the white space after it. *)
Lemma tok_word s w sp r : before s (w ++ sp ++ r) -> good_word w -> sp = [] \/ sp = [32] -> solid r ->
  (sp = [] -> forall c r', r = c :: r' -> word_char Sh.symbols c = false) ->
  Sh.gettoken line s = Ret (97, s, (s + length w)%nat) (s + length w + length sp)%nat.
Proof.
  intros Hb Hw Hsp Hr Hstop. unfold Sh.gettoken, gettoken, bind, get, modify, ret.
  rewrite (skip_ws_solid s _ Hb) by (by apply word_solid).
  destruct Hw as [Hne Hw]. destruct w as [|c w]; [done|].
  rewrite (before_char s _ Hb). change (default 0 (head ((c :: w) ++ sp ++ r))) with c.
  pose proof Hw as [[Hz Hc] _]%Forall_cons.
  rewrite (proj2 (Z.eqb_neq _ _) Hz).
  assert (E1 : strchr Sh.single c = false /\ c <> 62).
  { unfold word_char in Hc. apply andb_prop in Hc as [_ Hc]. apply negb_true_iff in Hc.
    split; [|intros ->; done]. destruct (strchr Sh.single c) eqn:E; [|done]. rewrite <- Hc.
    unfold strchr, Sh.single, Sh.symbols in *. cbn [existsb] in *.
    rewrite !orb_true_iff, !Z.eqb_eq in E.
    destruct E as [<-|[<-|[<-|[<-|[<-|[<-|?]]]]]]; done. }
  destruct E1 as [-> E62]. rewrite (proj2 (Z.eqb_neq _ _) E62).
  rewrite (skip_while_word (word_char Sh.symbols) (c :: w) _ s (sp ++ r)); [|done|by apply before_len| |].
  - cbn [length]. f_equal. apply before_app in Hb. cbn [length] in Hb. unfold skip_ws.
    rewrite (skip_while_word (strchr whitespace) sp _ _ r); [done|done|by apply before_len| |done].
    by destruct Hsp as [->| ->]; [apply Forall_nil|apply Forall_singleton].
  - eapply Forall_impl; [exact Hw|]. by intros x [_ ?].
  - intros x r' E. destruct Hsp as [->| ->]; [by eapply Hstop|]. by injection E as <- _.
Qed.

Lemma word_at s w r : before s (w ++ r) -> word line (s, (s + length w)%nat) = w.
Proof.
  intros [_ E]. unfold word. cbn [fst snd]. replace (s + length w - s)%nat with (length w) by lia.
  by rewrite E, take_app_length.
Qed.

(** The end of the line, or of the block. *)
Definition closing (r : list Z) : Prop := r = [] \/ exists r', r = 41 :: r'.

Lemma closing_solid r : closing r -> solid r.
Proof. by intros [->|[r' ->]] c r2 [= <- <-]. Qed.

(** What follows does not start with one of [toks]. *)
Definition off (toks : list Z) (r : list Z) : Prop := forall c r', r = c :: r' -> strchr toks c = false.

Lemma closing_off toks r : strchr toks 41 = false -> closing r -> off toks r.
Proof. intros Ht [->|[r' ->]] c r2 [= <- <-]. done. Qed.

Lemma word_off toks w r : (forall c, strchr toks c = true -> strchr Sh.symbols c = true) ->
  good_word w -> off toks (w ++ r).
Proof.
  intros Ht [Hne Hw] c r' E. destruct w as [|x w]; [done|]. injection E as <- _.
  apply Forall_cons in Hw as [[_ Hx] _]. unfold word_char in Hx.
  destruct (strchr toks x) eqn:E; [|done]. apply Ht in E. by rewrite E, andb_false_r in Hx.
Qed.

Lemma toks_sub toks : forallb (fun t => strchr Sh.symbols t) toks = true ->
  forall c, strchr toks c = true -> strchr Sh.symbols c = true.
Proof.
  intros H c Hc. apply existsb_exists in Hc as (t & Ht & E). apply Z.eqb_eq in E. subst t.
  rewrite forallb_forall in H. by apply H.
Qed.

Lemma words_off toks ws r : forallb (fun t => strchr Sh.symbols t) toks = true ->
  Forall good_word ws -> off toks r -> off toks (print_words ws ++ r).
Proof.
  intros Ht Hw Hr. destruct ws as [|w ws]; [done|]. apply Forall_cons in Hw as [Hw _].
  cbn [print_words]. rewrite <- app_assoc. apply word_off; [by apply toks_sub|done].
Qed.

Lemma words_solid ws r : Forall good_word ws -> solid r -> solid (print_words ws ++ r).
Proof.
  intros Hw Hr. destruct ws as [|w ws]; [done|]. apply Forall_cons in Hw as [Hw _].
  cbn [print_words]. rewrite <- app_assoc. by apply word_solid.
Qed.

Lemma peek_off toks s r : before s r -> solid r -> off toks r -> Sh.peek line toks s = Ret false s.
Proof.
  intros Hb Hr Ho. unfold Sh.peek. rewrite (peek_solid toks s r Hb Hr).
  destruct r as [|c r]; [done|]. by rewrite (Ho c r).
Qed.

Lemma peek_on toks s c r : before s (c :: r) -> strchr whitespace c = false -> strchr toks c = true ->
  Sh.peek line toks s = Ret true s.
Proof.
  intros Hb Hc Ht. unfold Sh.peek. rewrite (peek_solid toks s (c :: r) Hb); [by rewrite Ht|].
  by intros ? ? [= <- <-].
Qed.

Lemma redirs_none fuel c s r : (0 < fuel)%nat -> before s r -> solid r -> off [60; 62] r ->
  Sh.parseredirs line fuel c s = Ret c s.
Proof.
  intros Hf Hb Hr Ho. destruct fuel as [|f]; [lia|]. unfold Sh.parseredirs. cbn [loop].
  unfold Sh.redir_body, bind. by rewrite (peek_off _ _ _ Hb Hr Ho).
Qed.

Lemma redirs_one fuel c s mode fd w r : (1 < fuel)%nat ->
  before s ((if fd =? 0 then 60 else 62) :: w ++ r) -> good_word w -> closing r ->
  (mode, fd) ∈ [(Sh.O_RDONLY, 0); (Z.lor Sh.O_WRONLY Sh.O_CREATE, 1)] ->
  Sh.parseredirs line fuel c s =
    Ret (REDIR c (S s) (S s + length w)%nat mode fd) (S s + length w)%nat.
Proof.
  intros Hf Hb Hw Hr Hm. destruct fuel as [|[|f]]; [lia|lia|].
  pose proof (before_cons _ _ _ Hb) as Hb1. pose proof (before_app _ _ _ Hb1) as Hb2.
  assert (Htok : Sh.gettoken line (S s) = Ret (97, S s, (S s + length w)%nat) (S s + length w)%nat).
  { rewrite (tok_word (S s) w [] r Hb1 Hw); [|by left|by apply closing_solid|].
    - by rewrite Nat.add_0_r.
    - intros _ x r' ->. destruct Hr as [?|[r2 [= -> ->]]]; done. }
  assert (Hrest : forall c', Sh.parseredirs line (S f) c' (S s + length w)%nat = Ret c' (S s + length w)%nat).
  { intros c'. apply (redirs_none _ _ _ r); [lia|done|by apply closing_solid|by apply closing_off]. }
  unfold Sh.parseredirs in *. change (loop (S (S f)) ?b ?a) with (let! r := b a in match r with inl a' => loop (S f) b a' | inr b' => ret b' end).
  unfold Sh.redir_body at 1. unfold bind at 1 2.
  destruct (Z.eqb_spec fd 0) as [->|Hfd].
  - rewrite (peek_on _ s 60 (w ++ r)) by done. unfold bind at 1.
    rewrite (tok_single s 60 (w ++ r)) by (done || by apply word_solid).
    rewrite (bind_eq _ _ _ _ _ Htok). change (negb (97 =? 97)) with false. cbv iota.
    change (60 =? 60) with true. cbv iota. unfold ret at 1. rewrite Hrest. unfold Sh.redircmd.
    apply elem_of_cons in Hm as [E|Hm]; [by injection E as ->|].
    apply list_elem_of_singleton in Hm. by injection Hm.
  - rewrite (peek_on _ s 62 (w ++ r)) by done. unfold bind at 1.
    rewrite (tok_greater s (w ++ r)); [|done|by apply word_solid|].
    2:{ intros r' E. by pose proof (word_off [62] w r (toks_sub [62] eq_refl) Hw _ _ E). }
    rewrite (bind_eq _ _ _ _ _ Htok). change (negb (97 =? 97)) with false. cbv iota.
    change (62 =? 60) with false. change (62 =? 62) with true. cbv iota. unfold ret at 1.
    rewrite Hrest. unfold Sh.redircmd.
    apply elem_of_cons in Hm as [E|Hm]; [by injection E|].
    apply list_elem_of_singleton in Hm. by injection Hm as -> ->.
Qed.

(** Where the words of a printed simple command stand. *)
Fixpoint places (s : nat) (ws : list (list Z)) : list (nat * nat) :=
  match ws with [] => [] | w :: ws' => (s, (s + length w)%nat) :: places (s + length w + 1) ws' end.

Lemma places_words s ws r : before s (print_words ws ++ r) -> word line <$> places s ws = ws.
Proof.
  revert s. induction ws as [|w ws IH]; intros s Hb; [done|].
  cbn [print_words] in Hb. rewrite <- app_assoc in Hb.
  change (word line (s, (s + length w)%nat) :: (word line <$> places (s + length w + 1) ws) = w :: ws).
  rewrite (word_at s w _ Hb). f_equal. apply IH.
  apply before_app in Hb. apply before_cons in Hb. by rewrite Nat.add_1_r.
Qed.

Lemma args_words ws : forall fuel f argv s r,
  before s (print_words ws ++ r) -> closing r -> Forall good_word ws ->
  (length argv + length ws < Sh.MAXARGS)%nat -> (length ws < fuel)%nat -> (0 < f)%nat ->
  loop fuel (Sh.arg_body line f) (EXEC argv, length argv) s =
    Ret (EXEC (argv ++ places s ws)) (s + length (print_words ws))%nat.
Proof.
  induction ws as [|w ws IH]; intros fuel f argv s r Hb Hr Hw Hlen Hf Hff;
    (destruct fuel as [|fuel]; [cbn in Hf; lia|]).
  - cbn [print_words app length places] in *. rewrite app_nil_r, Nat.add_0_r.
    cbn [loop]. unfold Sh.arg_body at 1. unfold bind at 1 2. destruct Hr as [->|[r' ->]].
    + rewrite (peek_off _ s []) by done. unfold bind at 1. unfold Sh.gettoken, gettoken, bind, get, modify, ret.
      rewrite (skip_ws_solid s [] Hb) by done. rewrite (before_char s [] Hb).
      change (default 0 (head []) =? 0) with true. cbv iota beta. by rewrite (skip_ws_solid s [] Hb).
    + by rewrite (peek_on _ s 41 r') by done.
  - apply Forall_cons in Hw as [Hw Hws]. cbn [print_words] in Hb. rewrite <- app_assoc in Hb.
    change ((32 :: print_words ws) ++ r) with ([32] ++ print_words ws ++ r) in Hb.
    pose proof (before_app _ _ _ Hb) as Hb1. apply before_cons in Hb1.
    assert (Hs2 : solid (print_words ws ++ r)) by (apply words_solid; [done|by apply closing_solid]).
    cbn [loop]. unfold Sh.arg_body at 1. unfold bind at 1 2.
    rewrite (peek_off _ s _ Hb); [|by apply word_solid|by apply word_off; [apply toks_sub|]].
    rewrite (bind_eq _ _ _ _ _ (tok_word s w [32] _ Hb Hw (or_intror eq_refl) Hs2 ltac:(done))).
    change (97 =? 0) with false. change (negb (97 =? 97)) with false. cbv iota.
    cbn [length] in Hlen. rewrite (proj2 (Nat.leb_gt _ _)) by lia. cbn [add_arg length].
    assert (Es : (s + length w + 1 = S (s + length w))%nat) by lia.
    rewrite Es. unfold bind at 1.
    rewrite (redirs_none _ _ _ _ Hff Hb1 Hs2) by (apply words_off; [done|done|by apply closing_off]).
    unfold ret at 1. replace (S (length argv)) with (length (argv ++ [(s, (s + length w)%nat)]))
      by (rewrite length_app; cbn; lia).
    rewrite (IH fuel f _ _ r); [|done|done|done|rewrite length_app; cbn [length]; lia|cbn in Hf; lia|done].
    cbn [places print_words]. rewrite <- app_assoc, Es, (length_app w). cbn [length app]. f_equal. lia.
Qed.

(** The equations of the parser. *)
Lemma parseline_S f : Sh.parseline line (S f) =
  (let! c := Sh.parsepipe line f in
   let! c := loop f (fun c => let! b := Sh.peek line [38] in
     if b then Sh.gettoken line ;;; ret (inl (Sh.backcmd c)) else ret (inr c)) c in
   let! b := Sh.peek line [59] in
   if b then Sh.gettoken line ;;; let! r := Sh.parseline line f in ret (Sh.listcmd c r) else ret c).
Proof. done. Qed.
Lemma parsepipe_S f : Sh.parsepipe line (S f) =
  (let! c := Sh.parseexec line f in
   let! b := Sh.peek line [124] in
   if b then Sh.gettoken line ;;; let! r := Sh.parsepipe line f in ret (Sh.pipecmd c r) else ret c).
Proof. done. Qed.
Lemma parseexec_S f : Sh.parseexec line (S f) =
  (let! b := Sh.peek line [40] in
   if b then Sh.parseblock line f
   else let! c := Sh.parseredirs line f Sh.execcmd in loop f (Sh.arg_body line f) (c, 0%nat)).
Proof. done. Qed.
Lemma parseblock_S f : Sh.parseblock line (S f) =
  (let! b := Sh.peek line [40] in
   if negb b then panic "parseblock"
   else
     Sh.gettoken line ;;;
     let! c := Sh.parseline line f in
     let! b := Sh.peek line [41] in
     if negb b then panic "syntax - missing )"
     else Sh.gettoken line ;;; Sh.parseredirs line f c).
Proof. done. Qed.

(** The loop over [&] when there is none. *)
Lemma backs_none f c s r : (0 < f)%nat -> before s r -> solid r -> off [38] r ->
  loop f (fun c => let! b := Sh.peek line [38] in
     if b then Sh.gettoken line ;;; ret (inl (Sh.backcmd c)) else ret (inr c)) c s = Ret c s.
Proof.
  intros Hf Hb Hr Ho. destruct f as [|f]; [lia|]. cbn [loop]. unfold bind at 1 2.
  by rewrite (peek_off _ _ _ Hb Hr Ho).
Qed.

(** [parseline] and [parsepipe] when the command ends where the line or block
    does. *)
Lemma line_ends f s c s' r : Sh.parsepipe line f s = Ret c s' -> (0 < f)%nat -> before s' r ->
  closing r -> Sh.parseline line (S f) s = Ret c s'.
Proof.
  intros R Hf Hb Hr. pose proof (closing_solid r Hr) as Hs. rewrite parseline_S, (bind_eq _ _ _ _ _ R).
  rewrite (bind_eq _ _ _ _ _ (backs_none f c s' r Hf Hb Hs (closing_off [38] r eq_refl Hr))).
  by rewrite (bind_eq _ _ _ _ _ (peek_off [59] s' r Hb Hs (closing_off [59] r eq_refl Hr))).
Qed.

Lemma pipe_ends f s c s' r : Sh.parseexec line f s = Ret c s' -> before s' r -> solid r -> off [124] r ->
  Sh.parsepipe line (S f) s = Ret c s'.
Proof.
  intros R Hb Hs Ho. rewrite parsepipe_S, (bind_eq _ _ _ _ _ R).
  by rewrite (bind_eq _ _ _ _ _ (peek_off [124] s' r Hb Hs Ho)).
Qed.

(** The parser reads [t] up to a closing [r]. *)
Definition reads (t : tree) : Prop :=
  forall s r fuel, before s (print t ++ r) -> closing r -> (4 * length (print t ++ r) + 4 <= fuel)%nat ->
  exists c, Sh.parseline line fuel s = Ret c (s + length (print t))%nat /\ text (word line) c = t.

(** A parenthesised command, up to its redirections. *)
Lemma print_solid t r : printable t -> solid r -> solid (print t ++ r).
Proof.
  intros Ht Hr. destruct t as [ws| | | |]; [by apply words_solid; [apply Ht|]|..];
    by intros x r' [= <- _].
Qed.

Lemma block_reads t (s : nat) (r : list Z) (fuel : nat) : printable t -> reads t -> solid r ->
  before s (40 :: print t ++ 41 :: r) -> (4 * (length (print t) + length r + 2) + 2 <= fuel)%nat ->
  exists c, text (word line) c = t /\ before (s + length (print t) + 2) r /\
    Sh.parseexec line fuel s = Sh.parseredirs line (fuel - 2) c (s + length (print t) + 2)%nat.
Proof.
  intros Hp Ht Hr Hb Hf. destruct fuel as [|[|f]]; [lia|lia|].
  pose proof (before_cons _ _ _ Hb) as Hb1. pose proof (before_app _ _ _ Hb1) as Hb2.
  pose proof (before_cons _ _ _ Hb2) as Hb3.
  assert (Hs1 : solid (print t ++ 41 :: r)).
  { apply print_solid; [done|]. by intros x r' [= <- _]. }
  destruct (Ht (S s) (41 :: r) f Hb1) as (c & R & Hc); [right; by exists r|rewrite length_app; cbn [length]; lia|].
  exists c. split; [done|]. replace (s + length (print t) + 2)%nat with (S (S s + length (print t))) by lia.
  split; [done|]. rewrite parseexec_S, (bind_eq _ _ _ _ _ (peek_on [40] s 40 _ Hb eq_refl eq_refl)).
  rewrite parseblock_S, (bind_eq _ _ _ _ _ (peek_on [40] s 40 _ Hb eq_refl eq_refl)). cbn [negb].
  rewrite (bind_eq _ _ _ _ _ (tok_single s 40 _ Hb eq_refl eq_refl Hs1)), (bind_eq _ _ _ _ _ R).
  rewrite (bind_eq _ _ _ _ _ (peek_on [41] _ 41 r Hb2 eq_refl eq_refl)). cbn [negb].
  rewrite (bind_eq _ _ _ _ _ (tok_single _ 41 r Hb2 eq_refl eq_refl Hr)).
  by replace (S (S f) - 2)%nat with f by lia.
Qed.

Lemma block_alone t (s : nat) (r : list Z) (fuel : nat) : printable t -> reads t -> solid r -> off [60; 62] r ->
  before s (40 :: print t ++ 41 :: r) -> (4 * (length (print t) + length r + 2) + 2 <= fuel)%nat ->
  exists c, text (word line) c = t /\ before (s + length (print t) + 2) r /\
    Sh.parseexec line fuel s = Ret c (s + length (print t) + 2)%nat.
Proof.
  intros Hp Ht Hr Ho Hb Hf. destruct (block_reads t s r fuel Hp Ht Hr Hb Hf) as (c & Hc & Hb2 & R).
  exists c. split; [done|]. split; [done|]. rewrite R. by apply (redirs_none _ _ _ r); [lia|..].
Qed.

Lemma block_pipe t (s : nat) (r : list Z) (fuel : nat) : printable t -> reads t -> solid r ->
  off [60; 62; 124] r ->
  before s (40 :: print t ++ 41 :: r) -> (4 * (length (print t) + length r + 2) + 3 <= fuel)%nat ->
  exists c, text (word line) c = t /\ before (s + length (print t) + 2) r /\
    Sh.parsepipe line fuel s = Ret c (s + length (print t) + 2)%nat.
Proof.
  intros Hp Ht Hr Ho Hb Hf. destruct fuel as [|f]; [lia|].
  assert (off [60; 62] r /\ off [124] r) as [Ho1 Ho2].
  { split; intros c r' E; specialize (Ho c r' E); unfold strchr in *; cbn [existsb] in *;
      rewrite !orb_false_iff in *; tauto. }
  destruct (block_alone t s r f Hp Ht Hr Ho1 Hb ltac:(lia)) as (c & Hc & Hb2 & R).
  exists c. split; [done|]. split; [done|]. by apply (pipe_ends _ _ _ _ r).
Qed.

Lemma solid_cons c r : strchr whitespace c = false -> solid (c :: r).
Proof. by intros H x r' [= <- _]. Qed.
Lemma off_cons toks c r : strchr toks c = false -> off toks (c :: r).
Proof. by intros H x r' [= <- _]. Qed.

Lemma backs_one f c s r : (1 < f)%nat -> before s (38 :: r) -> closing r ->
  loop f (fun c => let! b := Sh.peek line [38] in
     if b then Sh.gettoken line ;;; ret (inl (Sh.backcmd c)) else ret (inr c)) c s = Ret (BACK c) (S s).
Proof.
  intros Hf Hb Hr. destruct f as [|f]; [lia|]. pose proof (closing_solid r Hr) as Hs. cbn [loop].
  unfold bind at 1 2. rewrite (peek_on [38] _ 38 _ Hb eq_refl eq_refl).
  rewrite (bind_eq _ _ _ _ _ (tok_single _ 38 _ Hb eq_refl eq_refl Hs)). unfold ret at 1.
  apply (backs_none f (BACK c) (S s) r); [lia|by apply before_cons in Hb|done|by apply closing_off].
Qed.

Lemma reads_exec ws : printable (TExec ws) -> reads (TExec ws).
Proof.
  intros [Hw Hn] s r fuel Hb Hr Hf. cbn [print] in *. destruct fuel as [|[|[|f]]]; [lia..|].
  pose proof (closing_solid r Hr) as Hs.
  exists (EXEC (places s ws)). split.
  2:{ cbn [text]. f_equal. by apply (places_words s ws r). }
  assert (Hlen : (length ws <= length (print_words ws))%nat).
  { clear. induction ws as [|w ws IH]; [done|]. cbn [print_words length]. rewrite length_app. cbn [length]. lia. }
  rewrite length_app in Hf.
  apply (line_ends _ _ _ _ r); [|lia|by apply before_app in Hb|done].
  apply (pipe_ends _ _ _ _ r); [|by apply before_app in Hb|done|by apply closing_off].
  rewrite parseexec_S, (bind_eq _ _ _ _ _ (peek_off [40] s _ Hb (words_solid ws r Hw Hs)
    (words_off [40] ws r eq_refl Hw (closing_off [40] r eq_refl Hr)))).
  rewrite (bind_eq _ _ _ _ _ (redirs_none f Sh.execcmd s _ ltac:(lia) Hb (words_solid ws r Hw Hs)
    (words_off [60; 62] ws r eq_refl Hw (closing_off [60; 62] r eq_refl Hr)))).
  by apply (args_words ws _ _ [] s r); [..|lia|lia].
Qed.

(** A redirection of a command in parentheses. *)
Lemma reads_redir sub mode fd w :
  (printable sub -> reads sub) -> printable (TRedir sub mode fd w) -> reads (TRedir sub mode fd w).
Proof.
  intros IH Hp s r' fuel Hb Hr Hf; pose proof (closing_solid r' Hr) as Hs; rewrite length_app in Hf.
  destruct Hp as (Hp & Hw & Hm). cbn [print] in *.
  rewrite <- app_comm_cons, <- app_assoc, <- !app_comm_cons in Hb. cbn [length] in *.
  rewrite length_app in *. cbn [length] in *. destruct fuel as [|[|f]]; [lia..|].
  assert (Hsx : solid ((if fd =? 0 then 60 else 62) :: w ++ r')).
  { apply solid_cons. by destruct (fd =? 0). }
  destruct (block_reads sub s _ f Hp (IH Hp) Hsx Hb)
    as (c & Hc & Hb2 & R). { cbn [length]. rewrite length_app. lia. }
  rewrite (redirs_one (f - 2) c _ mode fd w r') in R by (done || lia).
  exists (REDIR c (S (s + length (print sub) + 2)) (S (s + length (print sub) + 2) + length w)%nat mode fd).
  pose proof (before_app _ _ _ (before_cons _ _ _ Hb2)) as Hb3. split.
  + replace (s + S (length (print sub) + S (S (length w))))%nat with
      (S (s + length (print sub) + 2) + length w)%nat by lia.
    apply (line_ends _ _ _ _ r'); [|lia|done|done]. apply (pipe_ends _ _ _ _ r'); [done|done|done|].
    by apply closing_off.
  + cbn [text]. rewrite Hc. f_equal. apply (word_at _ w r'). by apply before_cons in Hb2.
Qed.

(** A pipe between two commands in parentheses. *)
Lemma reads_pipe l r :
  (printable l -> reads l) -> (printable r -> reads r) -> printable (TPipe l r) -> reads (TPipe l r).
Proof.
  intros IHl IHr Hp s r' fuel Hb Hr Hf; pose proof (closing_solid r' Hr) as Hs; rewrite length_app in Hf.
  destruct Hp as [Hpl Hpr]. cbn [print] in *.
  rewrite <- app_comm_cons, <- app_assoc, <- !app_comm_cons, <- app_assoc in Hb. cbn [app] in Hb.
  cbn [length] in *. rewrite !length_app in *. cbn [length] in *. rewrite !length_app in *. cbn [length] in *.
  destruct fuel as [|[|f]]; [lia..|].
  destruct (block_alone l s _ f Hpl (IHl Hpl) (solid_cons 124 _ eq_refl) (off_cons [60; 62] 124 _ eq_refl) Hb)
    as (c1 & Hc1 & Hb2 & R1). { cbn [length]. rewrite length_app. cbn [length]. lia. }
  destruct (block_pipe r _ _ f Hpr (IHr Hpr) Hs (closing_off [60; 62; 124] _ eq_refl Hr) (before_cons _ _ _ Hb2))
    as (c2 & Hc2 & Hb3 & R2). { lia. }
  exists (PIPE c1 c2). split; [|cbn [text]; by rewrite Hc1, Hc2].
  replace (s + S (length (print l) + S (S (S (length (print r) + 1)))))%nat with
    (S (s + length (print l) + 2) + length (print r) + 2)%nat by lia.
  apply (line_ends _ _ _ _ r'); [|lia|done|done].
  rewrite parsepipe_S, (bind_eq _ _ _ _ _ R1).
  rewrite (bind_eq _ _ _ _ _ (peek_on [124] _ 124 _ Hb2 eq_refl eq_refl)).
  rewrite (bind_eq _ _ _ _ _ (tok_single _ 124 _ Hb2 eq_refl eq_refl (solid_cons 40 _ eq_refl))).
  by rewrite (bind_eq _ _ _ _ _ R2).
Qed.

(** A sequence of two commands in parentheses. *)
Lemma reads_list l r :
  (printable l -> reads l) -> (printable r -> reads r) -> printable (TList l r) -> reads (TList l r).
Proof.
  intros IHl IHr Hp s r' fuel Hb Hr Hf; pose proof (closing_solid r' Hr) as Hs; rewrite length_app in Hf.
  destruct Hp as [Hpl Hpr]. cbn [print] in *.
  rewrite <- app_comm_cons, <- app_assoc, <- !app_comm_cons, <- app_assoc in Hb. cbn [app] in Hb.
  cbn [length] in *. rewrite !length_app in *. cbn [length] in *. rewrite !length_app in *. cbn [length] in *.
  destruct fuel as [|f]; [lia|].
  destruct (block_pipe l s _ f Hpl (IHl Hpl) (solid_cons 59 _ eq_refl) (off_cons [60; 62; 124] 59 _ eq_refl) Hb)
    as (c1 & Hc1 & Hb2 & R1). { cbn [length]. rewrite length_app. cbn [length]. lia. }
  destruct f as [|f]; [lia|].
  destruct (block_pipe r _ _ f Hpr (IHr Hpr) Hs (closing_off [60; 62; 124] _ eq_refl Hr) (before_cons _ _ _ Hb2))
    as (c2 & Hc2 & Hb3 & R2). { lia. }
  exists (LIST c1 c2). split; [|cbn [text]; by rewrite Hc1, Hc2].
  replace (s + S (length (print l) + S (S (S (length (print r) + 1)))))%nat with
    (S (s + length (print l) + 2) + length (print r) + 2)%nat by lia.
  rewrite parseline_S, (bind_eq _ _ _ _ _ R1).
  erewrite bind_eq by (apply (backs_none (S f) c1 _ _ ltac:(lia) Hb2 (solid_cons 59 _ eq_refl) (off_cons [38] 59 _ eq_refl))).
  rewrite (bind_eq _ _ _ _ _ (peek_on [59] _ 59 _ Hb2 eq_refl eq_refl)).
  rewrite (bind_eq _ _ _ _ _ (tok_single _ 59 _ Hb2 eq_refl eq_refl (solid_cons 40 _ eq_refl))).
  rewrite (bind_eq _ _ _ _ _ (line_ends f _ _ _ r' R2 ltac:(lia) Hb3 Hr)). done.
Qed.

(** A command in the background. *)
Lemma reads_back sub :
  (printable sub -> reads sub) -> printable (TBack sub) -> reads (TBack sub).
Proof.
  intros IH Hp s r' fuel Hb Hr Hf; pose proof (closing_solid r' Hr) as Hs; rewrite length_app in Hf.
  cbn [print printable] in *.
  rewrite <- app_comm_cons, <- app_assoc in Hb. cbn [app] in Hb.
  cbn [length] in *. rewrite !length_app in *. cbn [length] in *.
  destruct fuel as [|[|[|f]]]; [lia..|].
  destruct (block_pipe sub s _ (S (S f)) Hp (IH Hp) (solid_cons 38 _ eq_refl) (off_cons [60; 62; 124] 38 _ eq_refl) Hb)
    as (c1 & Hc1 & Hb2 & R1). { cbn [length]. lia. }
  exists (BACK c1). split; [|cbn [text]; by rewrite Hc1].
  pose proof (before_cons _ _ _ Hb2) as Hb3.
  replace (s + S (length (print sub) + 2))%nat with (S (s + length (print sub) + 2)) by lia.
  rewrite parseline_S, (bind_eq _ _ _ _ _ R1), (bind_eq _ _ _ _ _ (backs_one (S (S f)) c1 _ r' ltac:(lia) Hb2 Hr)).
  by rewrite (bind_eq _ _ _ _ _ (peek_off [59] _ r' Hb3 Hs (closing_off [59] r' eq_refl Hr))).
Qed.

Lemma reads_all t : printable t -> reads t.
Proof.
  induction t; [apply reads_exec|by apply reads_redir|by apply reads_pipe|by apply reads_list|by apply reads_back].
Qed.

End Trip.
End RoundTrip.

(** ** Properties of [sh.c] *)

Section ShProps.
Import ShLex LexFacts SafeFacts RoundTrip.

Lemma good_word_nonzero w : good_word w -> Forall (fun c => c <> 0) w.
Proof. intros [_ H]. eapply Forall_impl; [exact H|]. by intros c [? _]. Qed.

Lemma print_nonzero t : printable t -> Forall (fun c => c <> 0) (print t).
Proof.
  induction t as [ws|sub IH mode fd w|l IHl r IHr|l IHl r IHr|sub IH]; cbn [print printable].
  - intros [H _]. induction H as [|w ws Hw _ IH]; [by apply Forall_nil|]. cbn [print_words].
    apply Forall_app. split; [by apply good_word_nonzero|]. by apply Forall_cons.
  - intros (Hs & Hw & _). apply Forall_cons. split; [done|]. apply Forall_app. split; [by apply IH|].
    apply Forall_cons. split; [done|]. apply Forall_cons. split; [by destruct (fd =? 0)|by apply good_word_nonzero].
  - intros [Hl Hr]. apply Forall_cons. split; [done|]. apply Forall_app. split; [by apply IHl|].
    do 3 (apply Forall_cons; split; [done|]). apply Forall_app. split; [by apply IHr|]. by apply Forall_singleton.
  - intros [Hl Hr]. apply Forall_cons. split; [done|]. apply Forall_app. split; [by apply IHl|].
    do 3 (apply Forall_cons; split; [done|]). apply Forall_app. split; [by apply IHr|]. by apply Forall_singleton.
  - intros Hs. apply Forall_cons. split; [done|]. apply Forall_app. split; [by apply IH|].
    apply Forall_cons. split; [done|]. by apply Forall_singleton.
Qed.

(** What a successful parse leaves: strings that are words of the line. *)
Lemma sh_parsecmd_run line c s : Forall (fun c => c <> 0) line -> Sh.parse line 0%nat = Ret c s ->
  exists buf, Sh.parsecmd line = Ret c buf /\ length buf = S (length line) /\ cmd_ok Sh.symbols line c /\
    forall w, w ∈ spans c -> str_at buf (fst w) = word line w.
Proof.
  intros Hnul R. pose proof (sh_parse_total line) as Ht. rewrite R in Ht. destruct Ht as [_ Hc].
  destruct (nulterminate_words Sh.symbols line c Hnul (proj1 Hc)) as (buf & Rn & Hl & Hw).
  exists buf. split; [|by split_and!]. unfold Sh.parsecmd. rewrite R. by rewrite (bind_eq _ _ _ _ _ Rn).
Qed.

(** C20: the shell reads back what was written: a command tree printed with
    its operands in parentheses is parsed, from the whole line, to the same
    tree, every string in the buffer being exactly the word that was
    printed. *)
Theorem sh_parse_print t : printable t ->
  exists c buf, Sh.parsecmd (print t) = Ret c buf /\ text (fun w => str_at buf (fst w)) c = t.
Proof.
  intros Hp. pose proof (print_nonzero t Hp) as Hz. set (line := print t) in *.
  destruct (reads_all line Hz t Hp 0%nat [] (4 * es line + 4)%nat) as (c & R & Hc).
  - split; [lia|]. by rewrite app_nil_r.
  - by left.
  - rewrite app_nil_r. unfold es, line. lia.
  - assert (Rp : Sh.parse line 0%nat = Ret c (es line)).
    { unfold Sh.parse. rewrite (bind_eq _ _ _ _ _ R). change (0 + length (print t))%nat with (es line).
      assert (Hb : before line (es line) []) by (split; [done|unfold es; apply drop_ge; lia]).
      rewrite (bind_eq _ _ _ _ _ (peek_off line Hz [] (es line) [] Hb ltac:(done) ltac:(done))).
      unfold bind, get, ret. by rewrite Nat.eqb_refl. }
    destruct (sh_parsecmd_run line c _ Hz Rp) as (buf & R2 & _ & _ & Hw).
    exists c, buf. split; [done|]. rewrite <- Hc. by apply text_ext.
Qed.

Definition sample_tree : tree :=
  TPipe (TRedir (TExec [[99; 97; 116]; [120]]) 0 0 [102])
        (TList (TExec [[119; 99]]) (TBack (TExec [[108; 115]]))).

Lemma sample_printable : printable sample_tree.
Proof.
  assert (Hg : forall w, w <> [] -> forallb (fun c => negb (c =? 0) && word_char Sh.symbols c) w = true -> good_word w).
  { intros w Hne H. split; [done|]. apply Forall_forall. intros c Hc.
    rewrite forallb_forall in H. specialize (H c (proj1 (list_elem_of_In _ _) Hc)).
    apply andb_prop in H as [H1 H2]. split; [|done]. intros ->. done. }
  cbn [printable sample_tree]. unfold Sh.MAXARGS. cbn [length].
  repeat (split || apply Forall_cons || apply Forall_nil); try lia; try (apply Hg; [done|reflexivity]).
  set_solver.
Qed.

Lemma sh_parse_print_witness :
  exists c buf, Sh.parsecmd (print sample_tree) = Ret c buf /\
    text (fun w => str_at buf (fst w)) c = sample_tree.
Proof. apply (sh_parse_print sample_tree sample_printable). Defined.

(** On every line the parser of [sh.c] ends: it stops with a message, or
    returns a command with at most [MAXARGS - 1] arguments each, whose
    strings, in the buffer as [nulterminate] leaves it, are non-empty words
    of the line without white space or symbols; the parse writes only zeros
    into the buffer and not past the NUL of the line. *)
Theorem sh_parsecmd_safe line : Forall (fun c => c <> 0) line ->
  (exists msg, Sh.parsecmd line = Panic msg) \/
  exists c buf, Sh.parsecmd line = Ret c buf /\ length buf = S (length line) /\ args_ok c /\
    forall w, w ∈ spans c ->
      (fst w < snd w <= length line)%nat /\ str_at buf (fst w) = word line w /\
      Forall (fun x => word_char Sh.symbols x = true) (word line w).
Proof.
  intros Hnul. pose proof (sh_parse_total line) as Ht.
  destruct (Sh.parse line 0%nat) as [c s|msg| | |] eqn:R; try done.
  2:{ left. exists msg. unfold Sh.parsecmd. by rewrite R. }
  destruct (sh_parsecmd_run line c s Hnul R) as (buf & R2 & Hl & [Hw Ha] & Hs). right.
  exists c, buf. split_and!; try done. intros w Hin. rewrite Forall_forall in Hw.
  destruct (Hw w Hin) as (H1 & H2 & _). unfold es in H1. split; [done|]. split; [by apply Hs|].
  unfold word. apply Forall_lookup. intros i x Hx. apply lookup_take_Some in Hx as [Hx Hi].
  rewrite lookup_drop in Hx. specialize (H2 (fst w + i)%nat ltac:(lia)). unfold char_at in H2.
  by rewrite (nth_lookup_Some _ _ _ _ Hx) in H2.
Qed.

Lemma sh_parsecmd_safe_witness :
  (exists msg, Sh.parsecmd [108; 115; 32; 124] = Panic msg) \/
  exists c buf, Sh.parsecmd [108; 115; 32; 124] = Ret c buf /\ length buf = 5%nat /\ args_ok c /\
    forall w, w ∈ spans c ->
      (fst w < snd w <= 4)%nat /\ str_at buf (fst w) = word [108; 115; 32; 124] w /\
      Forall (fun x => word_char Sh.symbols x = true) (word [108; 115; 32; 124] w).
Proof.
  apply (sh_parsecmd_safe [108; 115; 32; 124]). by repeat constructor.
Defined.

End ShProps.

(** ** Pipelines of [sh.c] *)

Section ShPipe.
Import ShLex Sh.

Lemma first_free (l : list (option target)) i :
  l !! i = Some None -> (forall j, (j < i)%nat -> exists t, l !! j = Some (Some t)) ->
  find_idx is_free l = Some i.
Proof.
  intros Hi Hj. apply find_idx_Some. exists None. split; [done|]. split; [done|].
  intros j y Hlt Hy. destruct (Hj j Hlt) as [t Ht]. rewrite Ht in Hy. by injection Hy as <-.
Qed.

Lemma fd_alloc_Some t s fd s' : fd_alloc t s = Some (fd, s') ->
  fds s !! fd = Some None /\ (forall j o, (j < fd)%nat -> fds s !! j = Some o -> o <> None) /\
  s' = with_fds (<[fd := Some t]> (fds s)) s.
Proof.
  unfold fd_alloc. destruct (find_idx is_free (fds s)) as [i|] eqn:E; [|done]. intros [= <- <-].
  apply find_idx_Some in E as (x & Hx & Hf & Hj). destruct x; [done|]. split; [done|]. split; [|done].
  intros j o Hlt Ho ->. by specialize (Hj j None Hlt Ho).
Qed.

(** What [close fd; dup(p)] puts at [fd] when every lower descriptor is in
    use. *)
Lemma redirect_to s fd p t : (fd < length (fds s))%nat -> fd <> p ->
  fds s !! p = Some (Some t) -> (forall j, (j < fd)%nat -> exists t, fds s !! j = Some (Some t)) ->
  dup p (close fd s) = with_fds (<[fd := Some t]> (fds s)) s.
Proof.
  intros Hfd Hne Hp Hlow. unfold close. rewrite decide_True by done. unfold dup. cbn [fds with_fds].
  rewrite list_lookup_insert_ne, Hp by done. unfold fd_alloc. cbn [fds with_fds].
  rewrite (first_free _ fd).
  - unfold with_fds. cbn [fds npipe nfork]. by rewrite list_insert_insert_eq.
  - by apply list_lookup_insert_eq.
  - intros j Hj. rewrite list_lookup_insert_ne by lia. by apply Hlow.
Qed.

Lemma close_ok fd s : (fd < length (fds s))%nat -> close fd s = with_fds (<[fd := None]> (fds s)) s.
Proof. intros H. unfold close. by rewrite decide_True. Qed.

(** A pipeline is wired correctly and leaks nothing: with descriptors 0
    and 1 open, room for a pipe and forks that succeed, the left command runs
    with exactly the shell's descriptors except that 1 is the write end of a
    new pipe, the right one with 0 its read end, and the shell, which waits
    for both, keeps neither end. *)
Theorem sh_pipe_wiring can_open can_exec can_fork buf l r s a b p0 p1 s1 :
  fds s !! 0%nat = Some (Some a) -> fds s !! 1%nat = Some (Some b) ->
  pipe s = Some (p0, p1, s1) -> (forall n, can_fork n = true) ->
  exists sl sr s', 
    runcmd can_open can_exec can_fork buf (PIPE l r) s =
      ([Forked (fst (runcmd can_open can_exec can_fork buf l sl));
        Forked (fst (runcmd can_open can_exec can_fork buf r sr)); Wait; Wait], s') /\
    fds sl = <[1%nat := Some (TPipeW (npipe s))]> (fds s) /\
    fds sr = <[0%nat := Some (TPipeR (npipe s))]> (fds s) /\
    fds s' = fds s.
Proof.
  intros H0 H1 Hp Hf. pose proof Hp as Hpipe. unfold pipe in Hp.
  destruct (fd_alloc (TPipeR (npipe s)) s) as [[p2 s2]|] eqn:E2; [|done].
  destruct (fd_alloc (TPipeW (npipe s)) s2) as [[p3 s3]|] eqn:E3; [|done].
  injection Hp as <- <- <-. 
  apply fd_alloc_Some in E2 as (Hp2 & _ & ->). apply fd_alloc_Some in E3 as (Hp3 & _ & ->).
  cbn [fds with_fds npipe nfork] in *.
  assert (Hn2 : p2 <> 0%nat /\ p2 <> 1%nat) by (split; intros ->; congruence).
  pose proof (lookup_lt_Some _ _ _ Hp2) as Hl2.
  assert (Hne : p2 <> p3). { intros <-. rewrite list_lookup_insert_eq in Hp3 by done. done. }
  rewrite list_lookup_insert_ne in Hp3 by done. pose proof (lookup_lt_Some _ _ _ Hp3) as Hl3.
  assert (Hn3 : p3 <> 0%nat /\ p3 <> 1%nat) by (split; intros ->; congruence).
  set (tab := <[p3 := Some (TPipeW (npipe s))]> (<[p2 := Some (TPipeR (npipe s))]> (fds s))).
  assert (Hlen : length tab = length (fds s)) by (unfold tab; by rewrite !length_insert).
  pose proof (lookup_lt_Some _ _ _ H1) as Hl1.
  assert (Ht0 : tab !! 0%nat = Some (Some a)) by (unfold tab; rewrite !list_lookup_insert_ne by tauto; done).
  assert (Ht2 : tab !! p2 = Some (Some (TPipeR (npipe s)))).
  { unfold tab. rewrite list_lookup_insert_ne by done. by apply list_lookup_insert_eq. }
  assert (Ht3 : tab !! p3 = Some (Some (TPipeW (npipe s)))).
  { unfold tab. apply list_lookup_insert_eq. by rewrite length_insert. }
  assert (Hback : forall fd o, fd <> p2 -> fd <> p3 ->
    <[p3 := None]> (<[p2 := None]> (<[fd := o]> tab)) = <[fd := o]> (fds s)).
  { intros fd o Hfd2 Hfd3. apply list_eq. intros i. unfold tab.
    rewrite !list_lookup_insert, !length_insert.
    repeat case_decide; subst; try tauto; try (destruct_and?; congruence); naive_solver. }
  assert (Hdrop : forall fd o n np, fd <> p2 -> fd <> p3 ->
    fds (close p3 (close p2 {| fds := <[fd := o]> tab; npipe := n; nfork := np |})) = <[fd := o]> (fds s)).
  { intros fd o n np Hfd2 Hfd3. rewrite (close_ok p2) by (cbn; rewrite length_insert, Hlen; done).
    rewrite close_ok by (cbn; rewrite !length_insert, Hlen; done). cbn. by apply Hback. }
  set (L := fun s1 => close p3 (close p2 (dup p3 (close 1 s1)))).
  set (R := fun s1 => close p3 (close p2 (dup p2 (close 0 s1)))).
  assert (HL : forall n np, fds (L {| fds := tab; npipe := n; nfork := np |}) = <[1%nat := Some (TPipeW (npipe s))]> (fds s)).
  { intros n np. unfold L. rewrite (redirect_to _ 1 p3 (TPipeW (npipe s))); cbn [fds]; [|lia|lia|done|].
    - apply Hdrop; lia.
    - intros j Hj. replace j with 0%nat by lia. by exists a. }
  assert (HR : forall n np, fds (R {| fds := tab; npipe := n; nfork := np |}) = <[0%nat := Some (TPipeR (npipe s))]> (fds s)).
  { intros n np. unfold R. rewrite (redirect_to _ 0 p2 (TPipeR (npipe s))); cbn [fds]; [|lia|lia|done|lia].
    apply Hdrop; lia. }
  change (pipe s = Some (p2, p3, {| fds := tab; npipe := S (npipe s); nfork := nfork s |})) in Hpipe.
  cbn [runcmd]. rewrite Hpipe. unfold fork1 at 1. cbn [fds npipe nfork]. rewrite Hf.
  set (sl0 := {| fds := tab; npipe := S (npipe s); nfork := S (nfork s) |}).
  change (close p3 (close p2 (dup p3 (close 1 sl0)))) with (L sl0).
  destruct (runcmd can_open can_exec can_fork buf l (L sl0)) as [ev1 s1] eqn:R1.
  unfold fork1. cbn [fds npipe nfork]. rewrite Hf.
  set (sr0 := {| fds := tab; npipe := npipe s1; nfork := S (nfork s1) |}).
  change (close p3 (close p2 (dup p2 (close 0 sr0)))) with (R sr0).
  destruct (runcmd can_open can_exec can_fork buf r (R sr0)) as [ev2 s2] eqn:R2.
  exists (L sl0), (R sr0), (close p3 (close p2 {| fds := tab; npipe := npipe s2; nfork := nfork s2 |})).
  rewrite R1, R2. split; [done|]. split; [apply HL|]. split; [apply HR|].
  assert (Etab : tab = <[0%nat := Some a]> tab) by (symmetry; by apply list_insert_id).
  rewrite Etab, Hdrop by lia. by apply list_insert_id.
Qed.

Definition sample_proc : proc :=
  {| fds := [Some (TInit 0); Some (TInit 1); Some (TInit 2); None; None]; npipe := 0; nfork := 0 |}.

Lemma sh_pipe_wiring_witness :
  exists sl sr s',
    runcmd (fun _ _ => true) (fun _ => true) (fun _ => true) [97; 0; 98; 0]
      (PIPE (EXEC [(0, 1)%nat]) (EXEC [(2, 3)%nat])) sample_proc =
      ([Forked (fst (runcmd (fun _ _ => true) (fun _ => true) (fun _ => true) [97; 0; 98; 0] (EXEC [(0, 1)%nat]) sl));
        Forked (fst (runcmd (fun _ _ => true) (fun _ => true) (fun _ => true) [97; 0; 98; 0] (EXEC [(2, 3)%nat]) sr));
        Wait; Wait], s') /\
    fds sl = <[1%nat := Some (TPipeW 0)]> (fds sample_proc) /\
    fds sr = <[0%nat := Some (TPipeR 0)]> (fds sample_proc) /\
    fds s' = fds sample_proc.
Proof.
  eapply (sh_pipe_wiring _ _ _ _ _ _ sample_proc (TInit 0) (TInit 1)); reflexivity.
Defined.

End ShPipe.

(** ** Properties of the shell of project 3 *)

Section MyProps.
Import ShLex LexFacts SafeFacts.

(** C37: the parser of project 3 ends on every line too: it stops the shell
    with a message (or at the word [exit]), or returns a command of at most
    [MAXARGS - 1] arguments each whose strings are exactly words of the
    line. *)
Theorem mysh_parsecmd_safe line : Forall (fun c => c <> 0) line ->
  (exists msg, MySh.parsecmd line = Panic msg) \/
  exists c buf, MySh.parsecmd line = Ret c buf /\ length buf = S (length line) /\ args_ok c /\
    forall w, w ∈ spans c ->
      (fst w < snd w <= length line)%nat /\ str_at buf (fst w) = word line w /\
      Forall (fun x => word_char MySh.symbols x = true) (word line w).
Proof.
  intros Hnul. pose proof (my_parse_total line) as Ht. unfold MySh.parsecmd.
  destruct (MySh.parse line 0%nat) as [c s|msg| | |] eqn:R; try done; [|left; by exists msg].
  destruct Ht as [_ [Hw Ha]].
  destruct (nulterminate_words MySh.symbols line c Hnul Hw) as (buf & Rn & Hl & Hs). right.
  exists c, buf. split; [by rewrite (bind_eq _ _ _ _ _ Rn)|]. split_and!; try done.
  intros w Hin. rewrite Forall_forall in Hw.
  destruct (Hw w Hin) as (H1 & H2 & _). unfold es in H1. split; [done|]. split; [by apply Hs|].
  unfold word. apply Forall_lookup. intros i x Hx. apply lookup_take_Some in Hx as [Hx Hi].
  rewrite lookup_drop in Hx. specialize (H2 (fst w + i)%nat ltac:(lia)). unfold char_at in H2.
  by rewrite (nth_lookup_Some _ _ _ _ Hx) in H2.
Qed.

Lemma mysh_parsecmd_safe_witness :
  (exists msg, MySh.parsecmd [108; 115; 62] = Panic msg) \/
  exists c buf, MySh.parsecmd [108; 115; 62] = Ret c buf /\ length buf = 4%nat /\ args_ok c /\
    forall w, w ∈ spans c ->
      (fst w < snd w <= 3)%nat /\ str_at buf (fst w) = word [108; 115; 62] w /\
      Forall (fun x => word_char MySh.symbols x = true) (word [108; 115; 62] w).
Proof. apply (mysh_parsecmd_safe [108; 115; 62]). by repeat constructor. Defined.

(** How many processes ask for the next command line. *)
Fixpoint prompts (ev : MySh.event) : nat :=
  match ev with
  | MySh.Forked child => fold_right (fun e n => (prompts e + n)%nat) 0%nat child
  | MySh.Prompt _ => 1
  | _ => 0
  end.
Definition prompts_of (evs : list MySh.event) : nat := fold_right (fun e n => (prompts e + n)%nat) 0%nat evs.

(** The command the shell runs last by itself. *)
Fixpoint last_of (c : cmd) : cmd :=
  match c with LIST _ r => last_of r | _ => c end.

Section Exec.
Variables (can_open : list Z -> Z -> bool) (can_exec : list Z -> bool) (buf : list Z) (gi go : Z).
Notation execcmd := (MySh.execcmd can_open can_exec buf gi go).

(** A process that exits whatever it does asks for nothing. *)
Lemma exits_quiet c z : forall s, prompts_of (execcmd c (fun _ => [MySh.Exited z]) s) = 0%nat.
Proof.
  revert z. induction c as [argv|sub IH q e mode fd|l IHl r IHr|l IHl r IHr|sub IH]; intros z s; cbn [MySh.execcmd].
  - destruct argv as [|[q e] argv]; [done|]. by destruct (can_exec (str_at buf q)).
  - destruct (MySh.dup 1 s) as [o s1]. destruct (MySh.dup 0 s1) as [i s2].
    cbn [prompts_of fold_right prompts]. specialize (IH 0). unfold prompts_of in IH. by rewrite IH.
  - destruct (MySh.pipe s) as [[[p0 p1] s1]|]; [|done]. destruct (MySh.dup 1 s1) as [o s2]. destruct (MySh.dup 0 s1) as [i s3].
    cbn [prompts_of fold_right prompts]. specialize (IHl 0). specialize (IHr 0). unfold prompts_of in IHl, IHr.
    by rewrite IHl, IHr.
  - cbn [prompts_of fold_right prompts]. specialize (IHl 0). unfold prompts_of in IHl, IHr. rewrite IHl. apply IHr.
  - cbn [prompts_of fold_right prompts]. specialize (IH 1). unfold prompts_of in IH. by rewrite IH.
Qed.

(** After a command line exactly one process goes back to the prompt,
    unless the last simple command of the line cannot be executed: then the
    child that failed to execute it also goes back to reading commands, as a
    second shell on the same input. *)
Theorem mysh_prompts c s :
  (forall l r, last_of c = PIPE l r -> is_Some (MySh.pipe s)) ->
  prompts_of (execcmd c (fun s => [MySh.Prompt (MySh.fds s)]) s) =
    match last_of c with
    | EXEC ((q, _) :: _) => if can_exec (str_at buf q) then 1%nat else 2%nat
    | _ => 1%nat
    end.
Proof.
  assert (Q : forall c z s, fold_right (fun e n => (prompts e + n)%nat) 0%nat (execcmd c (fun _ => [MySh.Exited z]) s) = 0%nat)
    by (intros; apply exits_quiet).
  revert s. induction c as [argv|sub IH q e mode fd|l IHl r IHr|l IHl r IHr|sub IH]; intros s Hp;
    cbn [MySh.execcmd last_of] in *.
  - destruct argv as [|[q e] argv]; [done|]. by destruct (can_exec (str_at buf q)).
  - destruct (MySh.dup 1 s) as [o s1]. destruct (MySh.dup 0 s1) as [i s2].
    cbn [prompts_of fold_right prompts]. by rewrite Q.
  - destruct (Hp l r eq_refl) as [[[p0 p1] s1] ->].
    destruct (MySh.dup 1 s1) as [o s2]. destruct (MySh.dup 0 s1) as [i s3].
    cbn [prompts_of fold_right prompts]. by rewrite !Q.
  - cbn [prompts_of fold_right prompts]. rewrite Q. by apply IHr.
  - cbn [prompts_of fold_right prompts]. by rewrite Q.
Qed.

Lemma my_alloc_Some t d s s' : MySh.fd_alloc t s = Some (d, s') ->
  MySh.fds s !! d = Some None /\ s' = MySh.with_fds (<[d := Some t]> (MySh.fds s)) s.
Proof.
  unfold MySh.fd_alloc. destruct (find_idx MySh.is_free (MySh.fds s)) as [i|] eqn:E; [|done]. intros [= <- <-].
  apply find_idx_Some in E as (x & Hx & Hf & _). by destruct x.
Qed.

(** A redirection leaves its saved copies of standard input and output
    open in the shell: every line with a redirection uses up two descriptors
    for good. *)
Theorem mysh_redir_leaks sub q e mode fd k s a b d0 d1 s1 s2 :
  MySh.fds s !! 0%nat = Some (Some a) -> MySh.fds s !! 1%nat = Some (Some b) ->
  MySh.fd_alloc b s = Some (d1, s1) -> MySh.fd_alloc a s1 = Some (d0, s2) ->
  exists child s', execcmd (REDIR sub q e mode fd) k s = MySh.Forked child :: MySh.WaitAll :: k s' /\
    MySh.fds s !! d1 = Some None /\ MySh.fds s !! d0 = Some None /\ d0 <> d1 /\
    MySh.fds s' = <[d0 := Some a]> (<[d1 := Some b]> (MySh.fds s)).
Proof.
  intros H0 H1 A1 A0. destruct (my_alloc_Some _ _ _ _ A1) as (F1 & ->).
  destruct (my_alloc_Some _ _ _ _ A0) as (F0 & ->).
  cbn [MySh.fds MySh.with_fds] in F0. pose proof (lookup_lt_Some _ _ _ F1) as L1.
  assert (Hne : d0 <> d1). { intros ->. by rewrite list_lookup_insert_eq in F0. }
  rewrite list_lookup_insert_ne in F0 by done. pose proof (lookup_lt_Some _ _ _ F0) as L0.
  cbn [MySh.execcmd]. unfold MySh.dup. rewrite H1, A1. cbn [MySh.fds MySh.with_fds].
  assert (N1 : d1 <> 0%nat /\ d1 <> 1%nat) by (split; intros ->; congruence).
  assert (N0 : d0 <> 0%nat /\ d0 <> 1%nat) by (split; intros ->; congruence).
  rewrite list_lookup_insert_ne, H0, A0 by tauto.
  do 2 eexists. split; [done|]. do 3 (split; [done|]).
  set (tab := <[d0 := Some a]> (<[d1 := Some b]> (MySh.fds s))).
  assert (T0 : tab !! d0 = Some (Some a)) by (unfold tab; apply list_lookup_insert_eq; by rewrite length_insert).
  assert (T1 : tab !! d1 = Some (Some b)).
  { unfold tab. rewrite list_lookup_insert_ne by done. by apply list_lookup_insert_eq. }
  assert (U0 : tab !! 0%nat = Some (Some a)) by (unfold tab; rewrite !list_lookup_insert_ne by tauto; done).
  assert (U1 : tab !! 1%nat = Some (Some b)) by (unfold tab; rewrite !list_lookup_insert_ne by tauto; done).
  unfold MySh.dup2. rewrite !(proj2 (Z.ltb_ge _ 0)) by lia. rewrite !Nat2Z.id.
  cbn [MySh.fds MySh.with_fds MySh.npipe]. fold tab. rewrite T0. cbn [MySh.fds MySh.with_fds].
  rewrite (list_insert_id _ _ _ U0), T1. cbn [MySh.fds MySh.with_fds]. by apply list_insert_id.
Qed.

End Exec.

Lemma mysh_prompts_witness :
  prompts_of (MySh.execcmd (fun _ _ => true) (fun _ => false) [108; 115; 0] 0 0
    (LIST (EXEC [(0, 2)%nat]) (EXEC [(0, 2)%nat])) (fun s => [MySh.Prompt (MySh.fds s)])
    {| MySh.fds := [Some (MySh.TInit 0); Some (MySh.TInit 1)]; MySh.npipe := 0 |}) = 2%nat.
Proof.
  apply (mysh_prompts (fun _ _ => true) (fun _ => false) [108; 115; 0] 0 0
    (LIST (EXEC [(0, 2)%nat]) (EXEC [(0, 2)%nat]))). intros l r H. discriminate H.
Defined.

Lemma mysh_redir_leaks_witness :
  exists child s', MySh.execcmd (fun _ _ => true) (fun _ => true) [108; 0; 102; 0] 0 0
    (REDIR (EXEC [(0, 1)%nat]) 2 3 65 1) (fun _ => [])
    {| MySh.fds := [Some (MySh.TInit 0); Some (MySh.TInit 1); None; None]; MySh.npipe := 0 |} =
    [MySh.Forked child; MySh.WaitAll] /\
    [Some (MySh.TInit 0); Some (MySh.TInit 1); None; None] !! 2%nat = Some None /\
    [Some (MySh.TInit 0); Some (MySh.TInit 1); None; None] !! 3%nat = Some None /\ 3%nat <> 2%nat /\
    MySh.fds s' = <[3%nat := Some (MySh.TInit 0)]> (<[2%nat := Some (MySh.TInit 1)]>
      [Some (MySh.TInit 0); Some (MySh.TInit 1); None; None]).
Proof.
  apply (mysh_redir_leaks (fun _ _ => true) (fun _ => true) [108; 0; 102; 0] 0 0 (EXEC [(0, 1)%nat]) 2 3 65 1
    (fun _ => []) {| MySh.fds := [Some (MySh.TInit 0); Some (MySh.TInit 1); None; None]; MySh.npipe := 0 |}
    (MySh.TInit 0) (MySh.TInit 1) 3 2 _ _ eq_refl eq_refl eq_refl eq_refl).
Defined.

End MyProps.
