(* ===== verification/Vm.v ===== *)
(** * Page tables and user address spaces

    [vm.c]: the two-level x86 page table over byte memory.  A pointer is a
    kernel virtual address; the memory is the one the page allocator of
    [Kalloc] manages, so a page table is read out of the bytes of its pages.
    [seginit] fills the segment descriptors of one CPU. *)

From S2P Require Import Prelude CString Locks Kalloc.

Module Vm.

(** ** Addresses and entries ([mmu.h], [memlayout.h]) *)

Definition EXTMEM : Z := 1048576.
Definition DEVSPACE : Z := 4261412864.
Definition KERNLINK : Z := Kalloc.KERNBASE + EXTMEM.
Definition PDX (va : Z) : Z := Z.land (Z.shiftr va 22) 1023.
Definition PTX (va : Z) : Z := Z.land (Z.shiftr va 12) 1023.
Definition PGADDR (d t o : Z) : Z := u32 (Z.lor (Z.lor (Z.shiftl d 22) (Z.shiftl t 12)) o).
Definition PTE_P : Z := 1.
Definition PTE_W : Z := 2.
Definition PTE_U : Z := 4.
Definition PTE_ADDR (e : Z) : Z := Z.ldiff e 4095.
Definition PTE_FLAGS (e : Z) : Z := Z.land e 4095.
Definition NPDENTRIES : Z := 1024.
(** [e & flag] *)
Definition has (e flag : Z) : bool := negb (Z.land e flag =? 0).

(** A segment descriptor, by its bit fields. *)
Record segdesc := {
  lim_15_0 : Z; base_15_0 : Z; base_23_16 : Z; type : Z; seg_s : Z; dpl : Z; seg_p : Z;
  lim_19_16 : Z; avl : Z; rsv1 : Z; db : Z; seg_g : Z; base_31_24 : Z }.

(** Initialising a field of w bits keeps the low w bits of the value. *)
Definition SEG (ty base lim d : Z) : segdesc := {|
  lim_15_0 := Z.land (Z.shiftr lim 12) 65535; base_15_0 := Z.land base 65535;
  base_23_16 := Z.land (Z.land (Z.shiftr base 16) 65535) 255; type := Z.land ty 15;
  seg_s := 1; dpl := Z.land d 3; seg_p := 1; lim_19_16 := Z.land (Z.shiftr lim 28) 15;
  avl := 0; rsv1 := 0; db := 1; seg_g := 1; base_31_24 := Z.land (Z.shiftr base 24) 255 |}.

Definition null_seg : segdesc :=
  {| lim_15_0 := 0; base_15_0 := 0; base_23_16 := 0; type := 0; seg_s := 0; dpl := 0;
     seg_p := 0; lim_19_16 := 0; avl := 0; rsv1 := 0; db := 0; seg_g := 0; base_31_24 := 0 |}.

(** ** State: the page allocator with its memory, the kernel page directory,
    the page table register, the segment table and the console. *)
Record vm := {
  km : Kalloc.kmem; kpgdir : Z; cr3 : Z; gdt : list segdesc; gdtr : option (list segdesc);
  console : list string }.

Definition with_km (k : Kalloc.kmem) (s : vm) : vm :=
  {| km := k; kpgdir := kpgdir s; cr3 := cr3 s; gdt := gdt s; gdtr := gdtr s;
     console := console s |}.
Definition with_kpgdir (p : Z) (s : vm) : vm :=
  {| km := km s; kpgdir := p; cr3 := cr3 s; gdt := gdt s; gdtr := gdtr s; console := console s |}.
Definition lcr3 (p : Z) (s : vm) : vm :=
  {| km := km s; kpgdir := kpgdir s; cr3 := p; gdt := gdt s; gdtr := gdtr s;
     console := console s |}.
Definition with_gdt (f : list segdesc -> list segdesc) (s : vm) : vm :=
  {| km := km s; kpgdir := kpgdir s; cr3 := cr3 s; gdt := f (gdt s); gdtr := gdtr s;
     console := console s |}.
Definition lgdt (s : vm) : vm :=
  {| km := km s; kpgdir := kpgdir s; cr3 := cr3 s; gdt := gdt s; gdtr := Some (gdt s);
     console := console s |}.
Definition cprintf (msg : string) : M vm unit := modify (fun s =>
  {| km := km s; kpgdir := kpgdir s; cr3 := cr3 s; gdt := gdt s; gdtr := gdtr s;
     console := console s ++ [msg] |}).

(** Memory accesses: [*p], [*p = v] for 32-bit words, [memset], [memmove]. *)
Definition rd (a : Z) : M vm Z := gets (fun s => ld32 (Kalloc.ram (km s)) a).
Definition on_ram (f : mem -> mem) : M vm unit :=
  modify (fun s => with_km (Kalloc.with_ram (f (Kalloc.ram (km s))) (km s)) s).
Definition wr (a v : Z) : M vm unit := on_ram (fun m => st32 m a v).
Definition memset (a c n : Z) : M vm unit := on_ram (fun m => Str.memset m a c n).
Definition memmove (d src n : Z) : M vm unit := on_ram (fun m => Str.memmove m d src n).
Definition kalloc : M vm Z := zoom km with_km Kalloc.kalloc.

Definition seginit : M vm unit :=
  modify (with_gdt (fun g => <[1%nat := SEG (Z.lor 8 2) 0 4294967295 0]> g)) ;;;
  modify (with_gdt (fun g => <[2%nat := SEG 2 0 4294967295 0]> g)) ;;;
  modify (with_gdt (fun g => <[3%nat := SEG (Z.lor 8 2) 0 4294967295 3]> g)) ;;;
  modify (with_gdt (fun g => <[4%nat := SEG 2 0 4294967295 3]> g)) ;;;
  modify lgdt.

(** ** Walking and filling a page table *)

Definition walkpgdir (pgdir va : Z) (alloc : bool) : M vm Z :=
  let pde := pgdir + 4 * PDX va in
  let! e := rd pde in
  if has e PTE_P then ret (Kalloc.P2V (PTE_ADDR e) + 4 * PTX va)
  else if negb alloc then ret 0
  else
    let! pgtab := kalloc in
    if pgtab =? 0 then ret 0
    else
      memset pgtab 0 Kalloc.PGSIZE ;;;
      wr pde (Z.lor (Z.lor (Z.lor (Kalloc.V2P pgtab) PTE_P) PTE_W) PTE_U) ;;;
      ret (pgtab + 4 * PTX va).

(** One turn of the loop of [mappages]: [inr] is its return value. *)
Definition mappages_body (pgdir last perm : Z) (ap : Z * Z) : M vm (Z * Z + Z) :=
  let '(a, pa) := ap in
  let! pte := walkpgdir pgdir a true in
  if pte =? 0 then ret (inr (-1))
  else
    let! e := rd pte in
    if has e PTE_P then panic "remap"
    else
      wr pte (Z.lor (Z.lor pa perm) PTE_P) ;;;
      if a =? last then ret (inr 0)
      else ret (inl (u32 (a + Kalloc.PGSIZE), u32 (pa + Kalloc.PGSIZE))).

(** The fuel is the number of pages from the first to the last. *)
Definition mappages (pgdir va size pa perm : Z) : M vm Z :=
  let a := Kalloc.PGROUNDDOWN va in
  let last := Kalloc.PGROUNDDOWN (u32 (va + size - 1)) in
  loop (S (Z.to_nat (u32 (last - a) / Kalloc.PGSIZE))) (mappages_body pgdir last perm) (a, pa).

Section Vm.
(** The linker's [end], the start of free memory. *)
Variable kend : Z.

Definition kfree (v : Z) : M vm unit := zoom km with_km (Kalloc.kfree kend v).

(** ** Giving an address space back *)

Definition dealloc_body (pgdir oldsz a : Z) : M vm (Z + unit) :=
  if a <? oldsz then
    let! pte := walkpgdir pgdir a false in
    if pte =? 0 then
      let a := u32 (PGADDR (PDX a + 1) 0 0 - Kalloc.PGSIZE) in
      ret (inl (u32 (a + Kalloc.PGSIZE)))
    else
      let! e := rd pte in
      (if has e PTE_P then
         let pa := PTE_ADDR e in
         if pa =? 0 then panic "kfree"
         else kfree (Kalloc.P2V pa) ;;; wr pte 0
       else ret tt) ;;;
      ret (inl (u32 (a + Kalloc.PGSIZE)))
  else ret (inr tt).

(** The loop visits each page below [oldsz] at most once. *)
Definition deallocuvm (pgdir oldsz newsz : Z) : M vm Z :=
  if newsz >=? oldsz then ret oldsz
  else
    loop (S (Z.to_nat (oldsz / Kalloc.PGSIZE + 1))) (dealloc_body pgdir oldsz)
      (Kalloc.PGROUNDUP newsz) ;;;
    ret newsz.

Definition free_table (pgdir i : Z) : M vm unit :=
  let! e := rd (pgdir + 4 * i) in
  if has e PTE_P then kfree (Kalloc.P2V (PTE_ADDR e)) else ret tt.

Definition freevm (pgdir : Z) : M vm unit :=
  if pgdir =? 0 then panic "freevm: no pgdir"
  else
    let! _ := deallocuvm pgdir Kalloc.KERNBASE 0 in
    for_each (seqZ 0 NPDENTRIES) (free_table pgdir) ;;;
    kfree pgdir.

(** ** The kernel's part of every page table *)

(** The linker's [data], where the kernel's writable data begins. *)
Variable data : Z.

Record kmap_entry := { virt : Z; phys_start : Z; phys_end : Z; perm : Z }.

Definition kmap : list kmap_entry := [
  {| virt := Kalloc.KERNBASE; phys_start := 0; phys_end := EXTMEM; perm := PTE_W |};
  {| virt := KERNLINK; phys_start := Kalloc.V2P KERNLINK; phys_end := Kalloc.V2P data; perm := 0 |};
  {| virt := data; phys_start := Kalloc.V2P data; phys_end := Kalloc.PHYSTOP; perm := PTE_W |};
  {| virt := DEVSPACE; phys_start := DEVSPACE; phys_end := 0; perm := PTE_W |} ].

(** The loop over [kmap]. *)
Fixpoint map_kernel (pgdir : Z) (ks : list kmap_entry) : M vm Z :=
  match ks with
  | [] => ret pgdir
  | k :: ks' =>
      let! r := mappages pgdir (virt k) (u32 (phys_end k - phys_start k)) (phys_start k) (perm k) in
      if r <? 0 then freevm pgdir ;;; ret 0 else map_kernel pgdir ks'
  end.

Definition setupkvm : M vm Z :=
  let! pgdir := kalloc in
  if pgdir =? 0 then ret 0
  else
    memset pgdir 0 Kalloc.PGSIZE ;;;
    if Kalloc.P2V Kalloc.PHYSTOP >? DEVSPACE then panic "PHYSTOP too high"
    else map_kernel pgdir kmap.

Definition switchkvm : M vm unit :=
  let! p := gets kpgdir in modify (lcr3 (Kalloc.V2P p)).

Definition kvmalloc : M vm unit :=
  let! p := setupkvm in
  modify (with_kpgdir p) ;;;
  switchkvm.

(** ** User memory *)

Definition inituvm (pgdir init sz : Z) : M vm unit :=
  if sz >=? Kalloc.PGSIZE then panic "inituvm: more than a page"
  else
    let! mem := kalloc in
    memset mem 0 Kalloc.PGSIZE ;;;
    let! _ := mappages pgdir 0 Kalloc.PGSIZE (Kalloc.V2P mem) (Z.lor PTE_W PTE_U) in
    memmove mem init sz.

(** [readi dst off n] reads the file of the program; it runs in a state that
    has the memory as a part. *)
Definition loaduvm_body {S} (on_vm : forall A, M vm A -> M S A) (readi : Z -> Z -> Z -> M S Z)
    (pgdir addr offset sz i : Z) : M S (Z + Z) :=
  if i <? sz then
    let! pte := on_vm _ (walkpgdir pgdir (u32 (addr + i)) false) in
    if pte =? 0 then panic "loaduvm: address should exist"
    else
      let! e := on_vm _ (rd pte) in
      let pa := PTE_ADDR e in
      let n := if u32 (sz - i) <? Kalloc.PGSIZE then u32 (sz - i) else Kalloc.PGSIZE in
      let! r := readi (Kalloc.P2V pa) (u32 (offset + i)) n in
      if negb (r =? n) then ret (inr (-1)) else ret (inl (u32 (i + Kalloc.PGSIZE)))
  else ret (inr 0).

Definition loaduvm {S} (on_vm : forall A, M vm A -> M S A) (readi : Z -> Z -> Z -> M S Z)
    (pgdir addr offset sz : Z) : M S Z :=
  if negb (addr mod Kalloc.PGSIZE =? 0) then panic "loaduvm: addr must be page aligned"
  else loop (Datatypes.S (Z.to_nat (sz / Kalloc.PGSIZE + 1)))
         (loaduvm_body on_vm readi pgdir addr offset sz) 0.

Definition alloc_body (pgdir oldsz newsz a : Z) : M vm (Z + Z) :=
  if a <? newsz then
    let! mem := kalloc in
    if mem =? 0 then
      cprintf "allocuvm out of memory" ;;;
      deallocuvm pgdir newsz oldsz ;;;
      ret (inr 0)
    else
      memset mem 0 Kalloc.PGSIZE ;;;
      let! r := mappages pgdir a Kalloc.PGSIZE (Kalloc.V2P mem) (Z.lor PTE_W PTE_U) in
      if r <? 0 then
        cprintf "allocuvm out of memory (2)" ;;;
        deallocuvm pgdir newsz oldsz ;;;
        kfree mem ;;;
        ret (inr 0)
      else ret (inl (u32 (a + Kalloc.PGSIZE)))
  else ret (inr newsz).

Definition allocuvm (pgdir oldsz newsz : Z) : M vm Z :=
  if newsz >=? Kalloc.KERNBASE then ret 0
  else if newsz <? oldsz then ret oldsz
  else loop (S (Z.to_nat (newsz / Kalloc.PGSIZE + 1))) (alloc_body pgdir oldsz newsz)
         (Kalloc.PGROUNDUP oldsz).

Definition clearpteu (pgdir uva : Z) : M vm unit :=
  let! pte := walkpgdir pgdir uva false in
  if pte =? 0 then panic "clearpteu"
  else let! e := rd pte in wr pte (Z.ldiff e PTE_U).

(** [inr] leaves the loop: 0 for [goto bad], 1 at the end of the range. *)
Definition copyuvm_body (pgdir d sz i : Z) : M vm (Z + bool) :=
  if i <? sz then
    let! pte := walkpgdir pgdir i false in
    if pte =? 0 then panic "copyuvm: pte should exist"
    else
      let! e := rd pte in
      if negb (has e PTE_P) then panic "copyuvm: page not present"
      else
        let pa := PTE_ADDR e in
        let flags := PTE_FLAGS e in
        let! mem := kalloc in
        if mem =? 0 then ret (inr false)
        else
          memmove mem (Kalloc.P2V pa) Kalloc.PGSIZE ;;;
          let! r := mappages d i Kalloc.PGSIZE (Kalloc.V2P mem) flags in
          if r <? 0 then ret (inr false) else ret (inl (u32 (i + Kalloc.PGSIZE)))
  else ret (inr true).

Definition copyuvm (pgdir sz : Z) : M vm Z :=
  let! d := setupkvm in
  if d =? 0 then ret 0
  else
    let! ok := loop (S (Z.to_nat (sz / Kalloc.PGSIZE + 1))) (copyuvm_body pgdir d sz) 0 in
    if ok then ret d else freevm d ;;; ret 0.

(** The result of [walkpgdir] is used unchecked: a null entry pointer is
    followed. *)
Definition uva2ka (pgdir uva : Z) : M vm Z :=
  let! pte := walkpgdir pgdir uva false in
  if pte =? 0 then fault
  else
    let! e := rd pte in
    if negb (has e PTE_P) then ret 0
    else if negb (has e PTE_U) then ret 0
    else ret (Kalloc.P2V (PTE_ADDR e)).

(** [move d buf n] copies [n] bytes at [buf] of the caller's buffer to the
    kernel address [d]. *)
Definition copyout_body (move : Z -> Z -> Z -> M vm unit) (pgdir : Z) (st : Z * Z * Z) : M vm (Z * Z * Z + Z) :=
  let '(va, buf, len) := st in
  if len >? 0 then
    let va0 := Kalloc.PGROUNDDOWN va in
    let! pa0 := uva2ka pgdir va0 in
    if pa0 =? 0 then ret (inr (-1))
    else
      let n := u32 (Kalloc.PGSIZE - (va - va0)) in
      let n := if n >? len then len else n in
      move (pa0 + (va - va0)) buf n ;;;
      ret (inl (u32 (va0 + Kalloc.PGSIZE), buf + n, u32 (len - n)))
  else ret (inr 0).

Definition copyout_from (move : Z -> Z -> Z -> M vm unit) (pgdir va p len : Z) : M vm Z :=
  loop (S (Z.to_nat (len / Kalloc.PGSIZE + 2))) (copyout_body move pgdir) (va, p, len).
(** ... of a buffer in the kernel's memory. *)
Definition copyout (pgdir va p len : Z) : M vm Z := copyout_from memmove pgdir va p len.

End Vm.
End Vm.
