(* ===== verification/VmFacts.v ===== *)
(** * What the page-table code keeps true

    The page table is read back out of memory as a function [mapping] from
    page numbers to entries; the pages a table owns are its directory, its
    tables and the frames of user memory.  The lemmas show what one walk, one
    mapping and one unmapping do to that view, and that pages only move
    between an owner and the free list. *)

From S2P Require Import Prelude CString Locks Kalloc Vm.
Import Kalloc.KallocFacts Vm.
Import Kalloc(PGSIZE, KERNBASE, PHYSTOP, V2P, P2V, ram, PGROUNDUP, PGROUNDDOWN).

(** ** Lists that grow by one element *)

Section Omap.
Context `{EqDecision A} {B : Type}.
Implicit Types (f g : A -> option B) (l : list A).

Lemma omap_ext_in f g l : (forall x, x ∈ l -> g x = f x) -> omap g l = omap f l.
Proof.
  induction l as [|x l IH]; intros H; [done|].
  assert (E : omap g l = omap f l) by (apply IH; intros; apply H; by right).
  cbn. rewrite (H x) by left. destruct (f x); [by f_equal|done].
Qed.

Lemma omap_none f l : (forall x, x ∈ l -> f x = None) -> omap f l = [].
Proof.
  induction l as [|x l IH]; intros H; [done|]. cbn. rewrite (H x) by left.
  apply IH. intros. apply H. by right.
Qed.

(** The function gains a value at one place: so does the list. *)
Lemma omap_gain f g l x b :
  NoDup l -> x ∈ l -> f x = None -> g x = Some b ->
  (forall y, y ∈ l -> y <> x -> g y = f y) -> omap g l ≡ₚ b :: omap f l.
Proof.
  intros Hnd. induction Hnd as [|y l Hy Hnd IH]; intros Hx Hf Hg H.
  { by apply not_elem_of_nil in Hx. }
  destruct (decide (y = x)) as [->|Hne].
  - cbn. rewrite Hf, Hg. rewrite (omap_ext_in f g l); [done|].
    intros z Hz. apply H; [by right|]. intros ->. done.
  - apply elem_of_cons in Hx as [->|Hx]; [done|].
    assert (E : omap g l ≡ₚ b :: omap f l).
    { apply IH; try done. intros z Hz. apply H. by right. }
    cbn. rewrite (H y) by (done || left). destruct (f y); rewrite E; [apply perm_swap|done].
Qed.

(** Two places with the same value repeat it in the list. *)
Lemma omap_NoDup_inj f l x y b :
  NoDup (omap f l) -> x ∈ l -> y ∈ l -> f x = Some b -> f y = Some b -> x = y.
Proof.
  induction l as [|z l IH]; intros Hnd Hx Hy Fx Fy.
  { by apply not_elem_of_nil in Hx. }
  assert (Hin : forall w, w ∈ l -> f w = Some b -> b ∈ omap f l).
  { intros w Hw Fw. apply list_elem_of_omap. by exists w. }
  cbn in Hnd. apply elem_of_cons in Hx as [->|Hx]; apply elem_of_cons in Hy as [->|Hy]; [done|..].
  - rewrite Fx in Hnd. apply NoDup_cons in Hnd as [Hnd _]. exfalso. eauto.
  - rewrite Fy in Hnd. apply NoDup_cons in Hnd as [Hnd _]. exfalso. eauto.
  - apply IH; try done. destruct (f z); [|done]. by apply NoDup_cons in Hnd as [_ ?].
Qed.
End Omap.

(** ** Entries as numbers *)

Lemma PTE_ADDR_eq e : PTE_ADDR e = e / 4096 * 4096.
Proof.
  unfold PTE_ADDR. change 4095 with (Z.ones 12). rewrite Z.ldiff_ones_r by lia.
  by rewrite Z.shiftr_div_pow2, Z.shiftl_mul_pow2 by lia.
Qed.

Lemma PTE_FLAGS_eq e : PTE_FLAGS e = e mod 4096.
Proof. unfold PTE_FLAGS. change 4095 with (Z.ones 12). by rewrite Z.land_ones by lia. Qed.

Lemma PGROUNDDOWN_eq a : PGROUNDDOWN a = a / 4096 * 4096.
Proof.
  unfold PGROUNDDOWN, PGSIZE. change (4096 - 1) with (Z.ones 12). rewrite Z.ldiff_ones_r by lia.
  by rewrite Z.shiftr_div_pow2, Z.shiftl_mul_pow2 by lia.
Qed.

Lemma PDX_eq va : 0 <= va < 4294967296 -> PDX va = va / 4096 / 1024.
Proof.
  intros H. unfold PDX. change 1023 with (Z.ones 10). rewrite Z.land_ones by lia.
  rewrite Z.shiftr_div_pow2, Z.div_div by lia. apply Z.mod_small.
  change (2 ^ 22) with 4194304. change (2 ^ 10) with 1024.
  split; [apply Z.div_pos|apply Z.div_lt_upper_bound]; lia.
Qed.

Lemma PTX_eq va : PTX va = va / 4096 mod 1024.
Proof.
  unfold PTX. change 1023 with (Z.ones 10). rewrite Z.land_ones by lia.
  by rewrite Z.shiftr_div_pow2 by lia.
Qed.

(** An address and its flags do not overlap: [|] adds them. *)
Lemma entry_add pa fl : pa mod 4096 = 0 -> 0 <= fl < 4096 -> Z.lor pa fl = pa + fl.
Proof.
  intros Hpa Hfl. apply Z.mod_divide in Hpa as [q ->]; [|lia].
  symmetry. rewrite <- Z.lxor_lor; [apply Z.add_nocarry_lxor|]; apply Z.bits_inj'; intros n Hn.
  all: rewrite Z.land_spec, Z.bits_0.
  all: change 4096 with (2 ^ 12); rewrite <- Z.shiftl_mul_pow2 by lia.
  all: destruct (Z.ltb_spec n 12);
    [rewrite Z.shiftl_spec_low by lia; done|].
  all: rewrite <- (Z.mod_small fl (2 ^ 12)) by (change (2 ^ 12) with 4096; lia);
    rewrite Z.mod_pow2_bits_high by lia; by rewrite andb_false_r.
Qed.

Lemma lor_flag fl n : 0 <= fl < 4096 -> 0 <= n < 4096 -> 0 <= Z.lor fl n < 4096.
Proof.
  intros H1 H2. split; [apply Z.lor_nonneg; lia|].
  assert (Z.lor fl n = Z.land (Z.lor fl n) (Z.ones 12)) as ->; [|rewrite Z.land_ones by lia;
    apply Z.mod_pos_bound; lia].
  rewrite Z.land_lor_distr_l, !Z.land_ones by lia. by rewrite !Z.mod_small by (change (2 ^ 12) with 4096; lia).
Qed.

Lemma has_add pa fl flag : pa mod 4096 = 0 -> 0 <= fl < 4096 -> 0 <= flag < 4096 ->
  has (pa + fl) flag = has fl flag.
Proof.
  intros Hpa Hfl Hflag. unfold has. f_equal. f_equal.
  assert (E : forall z, Z.land z flag = Z.land (z mod 4096) flag).
  { intros z. rewrite <- (Z.mod_small flag 4096) at 1 by lia. change 4096 with (2 ^ 12).
    rewrite <- !Z.land_ones by lia. rewrite (Z.land_comm flag (Z.ones 12)), Z.land_assoc. done. }
  rewrite E, (E fl). f_equal. rewrite Z.add_mod, Hpa, Z.add_0_l by lia. by rewrite Z.mod_mod by lia.
Qed.

Lemma has_lor_P fl : has (Z.lor fl 1) PTE_P = true.
Proof.
  unfold has, PTE_P. apply negb_true_iff, Z.eqb_neq. rewrite Z.land_lor_distr_l.
  change (Z.land 1 1) with 1. intros H. apply Z.lor_eq_0_iff in H as [_ H]. done.
Qed.

(** An entry made of an aligned address and flags. *)
Lemma entry_fields pa fl : pa mod 4096 = 0 -> 0 <= fl < 4096 ->
  PTE_ADDR (pa + fl) = pa /\ PTE_FLAGS (pa + fl) = fl.
Proof.
  intros Hpa Hfl. rewrite PTE_ADDR_eq, PTE_FLAGS_eq. apply Z.mod_divide in Hpa as [q ->]; [|lia].
  rewrite Z.add_comm, Z.div_add, Z.mod_add, Z.div_small, Z.mod_small by lia. lia.
Qed.

(** ** Reading a page table out of memory *)

(** The i-th page table, the address and the value of the entry of page [v]. *)
Definition tab (m : mem) (pg i : Z) : option Z :=
  let e := ld32 m (pg + 4 * i) in
  if has e PTE_P then Some (P2V (PTE_ADDR e)) else None.
Definition pte_addr (m : mem) (pg v : Z) : option Z :=
  (fun t => t + 4 * (v mod 1024)) <$> tab m pg (v / 1024).
Definition mapping (m : mem) (pg v : Z) : option Z :=
  a ← pte_addr m pg v; if has (ld32 m a) PTE_P then Some (ld32 m a) else None.
Definition frame_of (m : mem) (pg v : Z) : option Z := (fun e => P2V (PTE_ADDR e)) <$> mapping m pg v.

(** The lists are sealed: nothing should ever compute half a million entries. *)
Definition tabs_def (m : mem) (pg : Z) : list Z := omap (tab m pg) (seqZ 0 1024).
Definition tabs_aux : seal tabs_def. Proof. by eexists. Qed.
Definition tabs : mem -> Z -> list Z := tabs_aux.(unseal).
Lemma tabs_eq m pg : tabs m pg = omap (tab m pg) (seqZ 0 1024).
Proof. unfold tabs. by rewrite tabs_aux.(seal_eq). Qed.

Definition user_pages : Z := 524288.
Lemma user_pages_eq : user_pages = 524288.
Proof. done. Qed.
Definition frames_def (m : mem) (pg : Z) : list Z := omap (frame_of m pg) (seqZ 0 user_pages).
Definition frames_aux : seal frames_def. Proof. by eexists. Qed.
Definition frames : mem -> Z -> list Z := frames_aux.(unseal).
Lemma frames_eq m pg : frames m pg = omap (frame_of m pg) (seqZ 0 user_pages).
Proof. unfold frames. by rewrite frames_aux.(seal_eq). Qed.
#[global] Opaque user_pages.

(** Page number and table index of an address. *)
Lemma vpn_range va : 0 <= va < 4294967296 -> 0 <= va / 4096 < 1048576.
Proof. intros. split; [apply Z.div_pos|apply Z.div_lt_upper_bound]; lia. Qed.
Lemma idx_range v : 0 <= v < 1048576 -> 0 <= v / 1024 < 1024.
Proof. intros. split; [apply Z.div_pos|apply Z.div_lt_upper_bound]; lia. Qed.
Lemma sub_range v : 0 <= v mod 1024 < 1024.
Proof. apply Z.mod_pos_bound. lia. Qed.

(** [agree ps m m']: the pages [ps] have the same bytes; [only ps m m']: no
    other byte differs. *)
Definition agree (ps : list Z) (m m' : mem) : Prop :=
  forall p x, p ∈ ps -> p <= x < p + PGSIZE -> m' x = m x.
Definition only (ps : list Z) (m m' : mem) : Prop :=
  forall x, (forall p, p ∈ ps -> x < p \/ p + PGSIZE <= x) -> m' x = m x.

Lemma agree_refl ps m : agree ps m m.
Proof. done. Qed.
Lemma agree_trans ps m1 m2 m3 : agree ps m1 m2 -> agree ps m2 m3 -> agree ps m1 m3.
Proof. intros H1 H2 p x Hp Hx. by rewrite (H2 p x), (H1 p x). Qed.
Lemma agree_sub ps qs m m' : qs ⊆ ps -> agree ps m m' -> agree qs m m'.
Proof. intros H Ha p x Hp. apply Ha. by apply H. Qed.
Lemma only_refl ps m : only ps m m.
Proof. done. Qed.
Lemma only_trans ps m1 m2 m3 : only ps m1 m2 -> only ps m2 m3 -> only ps m1 m3.
Proof. intros H1 H2 x Hx. by rewrite (H2 x), (H1 x). Qed.
Lemma only_sub ps qs m m' : ps ⊆ qs -> only ps m m' -> only qs m m'.
Proof. intros H Ha x Hx. apply Ha. intros p Hp. apply Hx. by apply H. Qed.

Lemma agree_ld32 ps m m' p k :
  agree ps m m' -> p ∈ ps -> 0 <= k <= PGSIZE - 4 -> ld32 m' (p + k) = ld32 m (p + k).
Proof. intros H Hp Hk. apply ld32_ext. intros x Hx. apply (H p); [done|lia]. Qed.

(** The view depends on the directory and the tables only. *)
Lemma tab_agree m m' pg i : agree [pg] m m' -> 0 <= i < 1024 -> tab m' pg i = tab m pg i.
Proof.
  intros H Hi. unfold tab. rewrite (agree_ld32 _ _ _ _ (4 * i) H); [done|by left|].
  unfold PGSIZE. lia.
Qed.

Lemma elem_tabs m pg i t : 0 <= i < 1024 -> tab m pg i = Some t -> t ∈ tabs m pg.
Proof. intros Hi E. rewrite tabs_eq. apply list_elem_of_omap. exists i. split; [by apply elem_of_seqZ; lia|done]. Qed.

Lemma elem_frames m pg v f : 0 <= v < user_pages -> frame_of m pg v = Some f -> f ∈ frames m pg.
Proof. intros Hi E. rewrite frames_eq. apply list_elem_of_omap. exists v. split; [by apply elem_of_seqZ; lia|done]. Qed.

Lemma view_agree m m' pg :
  agree (pg :: tabs m pg) m m' ->
  tabs m' pg = tabs m pg /\
  (forall v, 0 <= v < 1048576 -> pte_addr m' pg v = pte_addr m pg v /\
                                 mapping m' pg v = mapping m pg v).
Proof.
  intros H.
  assert (Ht : forall i, 0 <= i < 1024 -> tab m' pg i = tab m pg i).
  { intros i Hi. apply tab_agree; [|done]. eapply agree_sub; [|exact H]. set_solver. }
  split; [rewrite !tabs_eq; apply omap_ext_in; intros i Hi%elem_of_seqZ; apply Ht; lia|].
  intros v Hv. assert (Ea : pte_addr m' pg v = pte_addr m pg v)
    by (unfold pte_addr; by rewrite Ht by (by apply idx_range)).
  split; [done|]. unfold mapping. rewrite Ea. unfold pte_addr.
  destruct (tab m pg (v / 1024)) as [t|] eqn:Et; [|done]. cbn.
  rewrite (agree_ld32 _ _ _ t (4 * (v mod 1024)) H); [done| |].
  - right. eapply elem_tabs; [|exact Et]. by apply idx_range.
  - pose proof (sub_range v). unfold PGSIZE. lia.
Qed.

Lemma frames_ext m m' pg :
  (forall v, 0 <= v < user_pages -> mapping m' pg v = mapping m pg v) -> frames m' pg = frames m pg.
Proof.
  intros H. rewrite !frames_eq. apply omap_ext_in. intros v Hv%elem_of_seqZ. unfold frame_of. rewrite H by lia. done.
Qed.

(** ** Page tables and the free list *)

Section Tables.
Variable kend : Z.
Hypothesis kend_ok : KERNBASE < kend.

Local Notation page_ok := (page_ok kend).
Local Notation mem_of s := (ram (km s)).

Local Lemma kend_le : KERNBASE <= kend.
Proof. lia. Qed.

Lemma page_range p : page_ok p -> KERNBASE < p /\ p + PGSIZE <= KERNBASE + PHYSTOP /\ p mod 4096 = 0.
Proof.
  intros (H1 & H2 & H3). unfold PGSIZE, KERNBASE, PHYSTOP in *. split_and!; [lia| |done].
  apply Z.mod_divide in H1 as [q ->]; [|lia]. lia.
Qed.

Lemma page_P2V p : page_ok p -> P2V (V2P p) = p /\ V2P p = p - KERNBASE /\ V2P p mod 4096 = 0 /\
  0 < V2P p < 4294963200.
Proof.
  intros Hp. pose proof (page_V2P _ kend_le _ Hp) as E. pose proof (page_range _ Hp) as (H1 & H2 & H3).
  rewrite E. unfold P2V, KERNBASE, PHYSTOP, PGSIZE in *. split_and!; [|done| |lia|lia].
  - rewrite u32_small by lia. lia.
  - rewrite Zminus_mod, H3. done.
Qed.

Lemma only_agree ps qs m m' : only ps m m' -> Forall page_ok ps -> Forall page_ok qs ->
  (forall p, p ∈ ps -> p ∉ qs) -> agree qs m m'.
Proof.
  intros H Hps Hqs Hd q x Hq Hx. apply H. intros p Hp.
  rewrite Forall_forall in Hps, Hqs.
  assert (Hne : p <> q) by (intros ->; by apply (Hd q)).
  pose proof (page_disjoint _ _ _ (Hps _ Hp) (Hqs _ Hq) Hne). lia.
Qed.

Lemma chain_agree m m' a l : agree l m m' -> chain m a l -> chain m' a l.
Proof.
  revert a. induction l as [|p l IH]; intros a H; [done|]. intros [-> Hc]. split; [done|].
  assert (E : ld32 m' p = ld32 m p).
  { rewrite <- (Z.add_0_r p). apply (agree_ld32 (p :: l)); [done|by left|]. unfold PGSIZE. lia. }
  rewrite E. apply IH; [|done]. eapply agree_sub; [|exact H]. set_solver.
Qed.

Lemma free_ok_agree s l m : free_ok kend s l -> agree l (ram s) m ->
  free_ok kend (Kalloc.with_ram m s) l.
Proof. intros [H1 H2 H3 H4] Ha. split; try done. cbn. by eapply chain_agree. Qed.

(** The directory [pg], its tables, other pages [o] in use and the free pages
    [l] are all distinct. *)
Record tables (s : vm) (pg : Z) (o l : list Z) : Prop := {
  t_free : free_ok kend (km s) l;
  t_nodup : NoDup (pg :: tabs (mem_of s) pg ++ o ++ l);
  t_pages : Forall page_ok (pg :: tabs (mem_of s) pg ++ o) }.

Lemma tables_all s pg o l : tables s pg o l -> Forall page_ok (pg :: tabs (mem_of s) pg ++ o ++ l).
Proof.
  intros [Hf _ Hp]. pose proof (free_pages _ _ _ Hf).
  rewrite !Forall_cons, !Forall_app in *. tauto.
Qed.

Lemma tables_perm s pg o o' l : o ≡ₚ o' -> tables s pg o l -> tables s pg o' l.
Proof. intros E [H1 H2 H3]. split; [done|by rewrite <- E|by rewrite <- E]. Qed.

(** A table's page is known, and two entries of one table do not overlap. *)
Lemma tab_page s pg o l i t : tables s pg o l -> 0 <= i < 1024 -> tab (mem_of s) pg i = Some t ->
  page_ok t /\ t <> pg /\ t ∈ tabs (mem_of s) pg.
Proof.
  intros [_ Hn Hp] Hi Et. pose proof (elem_tabs _ _ _ _ Hi Et) as Hin.
  apply Forall_cons in Hp as [_ Hp]. rewrite Forall_forall in Hp.
  apply NoDup_cons in Hn as [Hn _]. split_and!; [apply Hp; set_solver| |done].
  intros ->. apply Hn. set_solver.
Qed.

Lemma pte_addr_in s pg o l v a : tables s pg o l -> 0 <= v < 1048576 ->
  pte_addr (mem_of s) pg v = Some a ->
  exists t, tab (mem_of s) pg (v / 1024) = Some t /\ a = t + 4 * (v mod 1024) /\
    page_ok t /\ t <> pg /\ t ∈ tabs (mem_of s) pg /\ a <> 0.
Proof.
  intros Ht Hv Ea. unfold pte_addr in Ea. destruct (tab (mem_of s) pg (v / 1024)) as [t|] eqn:Et; [|done].
  injection Ea as <-. exists t.
  destruct (tab_page _ _ _ _ _ _ Ht (idx_range v Hv) Et) as (Hp & Hne & Hin).
  split_and!; try done. pose proof (page_range _ Hp) as (? & _). pose proof (sub_range v).
  unfold KERNBASE in *. lia.
Qed.

Lemma tab_inj s pg o l i j t : tables s pg o l -> 0 <= i < 1024 -> 0 <= j < 1024 ->
  tab (mem_of s) pg i = Some t -> tab (mem_of s) pg j = Some t -> i = j.
Proof.
  intros [_ Hn _] Hi Hj Ei Ej. apply NoDup_cons in Hn as [_ Hn].
  apply NoDup_app in Hn as (Hn & _). rewrite tabs_eq in Hn.
  assert (Hin : forall k, 0 <= k < 1024 -> k ∈ seqZ 0 1024)
    by (intros k Hk; apply elem_of_seqZ; lia).
  exact (omap_NoDup_inj _ _ _ _ _ Hn (Hin i Hi) (Hin j Hj) Ei Ej).
Qed.

Lemma pte_addr_apart s pg o l v w a b : tables s pg o l -> 0 <= v < 1048576 -> 0 <= w < 1048576 ->
  pte_addr (mem_of s) pg v = Some a -> pte_addr (mem_of s) pg w = Some b -> v <> w ->
  a + 4 <= b \/ b + 4 <= a.
Proof.
  intros Ht Hv Hw Ea Eb Hne.
  destruct (pte_addr_in _ _ _ _ _ _ Ht Hv Ea) as (t & Et & -> & Htp & _).
  destruct (pte_addr_in _ _ _ _ _ _ Ht Hw Eb) as (u & Eu & -> & Hup & _).
  pose proof (sub_range v). pose proof (sub_range w).
  pose proof (Z.div_mod v 1024). pose proof (Z.div_mod w 1024).
  destruct (decide (t = u)) as [->|Htu].
  - pose proof (tab_inj _ _ _ _ _ _ _ Ht (idx_range v Hv) (idx_range w Hw) Et Eu). lia.
  - pose proof (page_disjoint _ _ _ Htp Hup Htu). unfold PGSIZE in *. lia.
Qed.

(** ** One store into a page table *)

Lemma st32_only m p k v : 0 <= k <= PGSIZE - 4 -> only [p] m (st32 m (p + k) v).
Proof.
  intros Hk x Hx. apply st32_other. destruct (Hx p); [by left|lia..].
Qed.

Lemma set_pte s pg o l v a e : tables s pg o l -> 0 <= v < 1048576 ->
  pte_addr (mem_of s) pg v = Some a -> 0 <= e < 4294967296 ->
  let m' := st32 (mem_of s) a e in
  let s' := with_km (Kalloc.with_ram m' (km s)) s in
  tables s' pg o l /\ tabs m' pg = tabs (mem_of s) pg /\ only (tabs (mem_of s) pg) (mem_of s) m' /\
  (forall w, 0 <= w < 1048576 -> pte_addr m' pg w = pte_addr (mem_of s) pg w) /\
  (forall w, 0 <= w < 1048576 -> mapping m' pg w =
     if decide (w = v) then (if has e PTE_P then Some e else None) else mapping (mem_of s) pg w).
Proof.
  intros Ht Hv Ea He m' s'.
  destruct (pte_addr_in _ _ _ _ _ _ Ht Hv Ea) as (t & Et & Eat & Htp & Htne & Htin & _).
  pose proof (sub_range v).
  assert (Ho : only [t] (mem_of s) m') by (unfold m'; rewrite Eat; apply st32_only; unfold PGSIZE; lia).
  pose proof (tables_all _ _ _ _ Ht) as Hall. pose proof Ht as [Hf Hn Hp].
  assert (Hrest : forall qs, qs ⊆ pg :: o ++ l -> agree qs (mem_of s) m').
  { intros qs Hqs. eapply only_agree; [exact Ho|by apply Forall_singleton| |].
    - rewrite Forall_forall in Hall |- *. intros q Hq. apply Hall. set_solver.
    - intros p ->%list_elem_of_singleton Hin. apply Hqs in Hin.
      apply NoDup_cons in Hn as [Hn1 Hn]. apply NoDup_app in Hn as (_ & Hn & _).
      apply elem_of_cons in Hin as [->|Hin]; [done|]. by apply (Hn t). }
  assert (Htabs : forall i, 0 <= i < 1024 -> tab m' pg i = tab (mem_of s) pg i).
  { intros i Hi. apply tab_agree; [|done]. apply Hrest. set_solver. }
  assert (Hpa : forall w, 0 <= w < 1048576 -> pte_addr m' pg w = pte_addr (mem_of s) pg w).
  { intros w Hw. unfold pte_addr. by rewrite Htabs by (by apply idx_range). }
  assert (Etabs : tabs m' pg = tabs (mem_of s) pg)
    by (rewrite !tabs_eq; apply omap_ext_in; intros i Hi%elem_of_seqZ; apply Htabs; lia).
  split_and!; [|done| |done|].
  - split; cbn; [|by rewrite Etabs|by rewrite Etabs].
    apply free_ok_agree; [done|]. apply Hrest. set_solver.
  - eapply only_sub; [|exact Ho]. set_solver.
  - intros w Hw. unfold mapping. rewrite Hpa by done. destruct (decide (w = v)) as [->|Hne].
    + rewrite Ea. cbn. unfold m'. by rewrite ld32_st32 by done.
    + destruct (pte_addr (mem_of s) pg w) as [b|] eqn:Eb; [|done]. cbn.
      assert (E : ld32 m' b = ld32 (mem_of s) b); [|by rewrite E].
      pose proof (pte_addr_apart _ _ _ _ _ _ _ _ Ht Hw Hv Eb Ea Hne).
      apply ld32_ext. intros x Hx. apply st32_other. lia.
Qed.

Lemma with_ram_twice m s : with_km (Kalloc.with_ram m (km s)) s =
  with_km (Kalloc.with_ram m (km (with_km (Kalloc.with_ram m (km s)) s))) s.
Proof. done. Qed.

Lemma memset_only m p c : 0 <= p -> only [p] m (Str.memset m p c PGSIZE).
Proof.
  intros Hp x Hx. rewrite memset_get by (unfold PGSIZE; lia).
  destruct (Hx p) as [H|H]; [by left| |].
  - by rewrite (proj2 (Z.leb_gt _ _)) by lia.
  - by rewrite (proj2 (Z.ltb_ge _ _)), andb_false_r by lia.
Qed.

Lemma memset_zero m p k : 0 <= p -> 0 <= k <= PGSIZE - 4 ->
  ld32 (Str.memset m p 0 PGSIZE) (p + k) = 0.
Proof.
  intros Hp Hk. assert (E : forall x, p <= x < p + PGSIZE -> Str.memset m p 0 PGSIZE x = 0).
  { intros x Hx. rewrite memset_get by (unfold PGSIZE; lia).
    by rewrite (proj2 (Z.leb_le _ _)), (proj2 (Z.ltb_lt _ _)) by lia. }
  unfold ld32. by rewrite !E by lia.
Qed.

(** Zero the page [p] and hang it up as the i-th page table. *)
Lemma add_table s pg o l p i e : tables s pg (p :: o) l -> 0 <= i < 1024 ->
  tab (mem_of s) pg i = None -> e = Z.lor (Z.lor (Z.lor (V2P p) PTE_P) PTE_W) PTE_U ->
  let m' := st32 (Str.memset (mem_of s) p 0 PGSIZE) (pg + 4 * i) e in
  let s' := with_km (Kalloc.with_ram m' (km s)) s in
  tables s' pg o l /\ tabs m' pg ≡ₚ p :: tabs (mem_of s) pg /\ only [pg; p] (mem_of s) m' /\
  tab m' pg i = Some p /\
  (forall v, 0 <= v < 1048576 -> mapping m' pg v = mapping (mem_of s) pg v).
Proof.
  intros Ht Hi Hnone He m' s'. pose proof (tables_all _ _ _ _ Ht) as Hall.
  pose proof Ht as [Hf Hn Hp].
  assert (Hpp : page_ok p) by (rewrite Forall_forall in Hp; apply Hp; set_solver).
  assert (Hpg : page_ok pg) by (rewrite Forall_forall in Hp; apply Hp; set_solver).
  pose proof (page_range _ Hpp) as (Hp1 & _ & _). pose proof (page_range _ Hpg) as (Hpg1 & _ & _).
  assert (Hppg : p <> pg) by (apply NoDup_cons in Hn as [Hn _]; intros ->; apply Hn; set_solver).
  assert (Hp0 : 0 <= p) by (unfold KERNBASE in *; lia).
  set (m1 := Str.memset (mem_of s) p 0 PGSIZE) in *.
  assert (O1 : only [p] (mem_of s) m1) by (by apply memset_only).
  assert (O2 : only [pg] m1 m') by (apply st32_only; unfold PGSIZE; lia).
  assert (Ho : only [pg; p] (mem_of s) m').
  { eapply only_trans; [eapply only_sub; [|exact O1]|eapply only_sub; [|exact O2]]; set_solver. }
  assert (Hrest : forall qs, qs ⊆ tabs (mem_of s) pg ++ o ++ l -> agree qs (mem_of s) m').
  { intros qs Hqs. eapply only_agree; [exact Ho| | |].
    - by rewrite !Forall_cons.
    - rewrite Forall_forall in Hall |- *. intros q Hq. apply Hall. set_solver.
    - apply NoDup_cons in Hn as [Hn1 Hn]. apply NoDup_app in Hn as (_ & Hn2 & Hn3).
      apply NoDup_cons in Hn3 as [Hn3 _].
      intros q [->|Hq]%elem_of_cons Hin%Hqs; [apply Hn1; set_solver|].
      apply list_elem_of_singleton in Hq as ->. apply elem_of_app in Hin as [Hin|Hin]; [|done].
      apply (Hn2 p Hin). left. }
  pose proof (page_P2V _ Hpp) as (Ep & _ & Hal & Hbd).
  assert (Ee : e = V2P p + 7).
  { rewrite He, <- !Z.lor_assoc. change (Z.lor PTE_P (Z.lor PTE_W PTE_U)) with 7.
    by apply entry_add; [|lia]. }
  destruct (entry_fields (V2P p) 7 Hal) as [Ea _]; [lia|].
  assert (Htab : forall j, 0 <= j < 1024 ->
    tab m' pg j = if decide (j = i) then Some p else tab (mem_of s) pg j).
  { intros j Hj. unfold tab. destruct (decide (j = i)) as [->|Hne].
    - unfold m'. rewrite ld32_st32, Ee, has_add, Ea, Ep by (done || lia). done.
    - assert (E : ld32 m' (pg + 4 * j) = ld32 (mem_of s) (pg + 4 * j)); [|by rewrite E].
      apply ld32_ext. intros x Hx. unfold m'. rewrite st32_other by lia. apply O1.
      intros q ->%list_elem_of_singleton. unfold PGSIZE.
      pose proof (page_disjoint _ _ _ Hpg Hpp (not_eq_sym Hppg)). unfold PGSIZE in *. lia. }
  assert (Hperm : tabs m' pg ≡ₚ p :: tabs (mem_of s) pg).
  { rewrite !tabs_eq. apply (omap_gain _ _ _ i); [apply NoDup_seqZ|apply elem_of_seqZ; lia|done| |].
    - rewrite Htab, decide_True by done. done.
    - intros j Hj%elem_of_seqZ Hne. rewrite Htab, decide_False by (done || lia). done. }
  split_and!; [|done|done| |].
  - split; cbn.
    + apply free_ok_agree; [done|]. apply Hrest. set_solver.
    + rewrite Hperm. cbn. eapply NoDup_Permutation_proper; [|exact Hn].
      apply Permutation_skip, Permutation_middle.
    + rewrite Hperm. rewrite !Forall_cons, !Forall_app, ?Forall_cons in *. tauto.
  - by rewrite Htab, decide_True by done.
  - intros v Hv. unfold mapping, pte_addr. rewrite Htab by (by apply idx_range).
    pose proof (sub_range v). destruct (decide (v / 1024 = i)) as [Ei|Hne].
    + rewrite Ei, Hnone. cbn.
      assert (E : ld32 m' (p + 4 * (v mod 1024)) = 0); [|by rewrite E].
      rewrite <- (memset_zero (mem_of s) p (4 * (v mod 1024))) by (unfold PGSIZE; lia).
      apply ld32_ext. intros x Hx. apply O2. intros q ->%list_elem_of_singleton.
      pose proof (page_disjoint _ _ _ Hpg Hpp (not_eq_sym Hppg)). unfold PGSIZE in *. lia.
    + destruct (tab (mem_of s) pg (v / 1024)) as [t|] eqn:Et; [|done]. cbn.
      assert (E : ld32 m' (t + 4 * (v mod 1024)) = ld32 (mem_of s) (t + 4 * (v mod 1024)));
        [|by rewrite E].
      apply (agree_ld32 (tabs (mem_of s) pg)); [apply Hrest; set_solver| |unfold PGSIZE; lia].
      eapply elem_tabs; [|exact Et]. by apply idx_range.
Qed.

(** ** Walking *)

Lemma kalloc_some s pg o p l : tables s pg o (p :: l) ->
  exists s', Vm.kalloc s = Ret p s' /\ mem_of s' = mem_of s /\ tables s' pg (p :: o) l.
Proof.
  intros Ht. pose proof (tables_all _ _ _ _ Ht) as Hall. pose proof Ht as [Hf Hn Hp].
  destruct (kalloc_ok kend kend_le _ _ Hf) as (k' & Hr & Hf' & Em & _).
  exists (with_km k' s). split; [unfold Vm.kalloc, zoom; by rewrite Hr|]. split; [done|].
  split; cbn; rewrite ?Em; [done| |].
  - eapply NoDup_Permutation_proper; [|exact Hn]. apply Permutation_skip.
    apply Permutation_app_head. cbn. by rewrite Permutation_middle.
  - rewrite !Forall_cons, !Forall_app, !Forall_cons in *. tauto.
Qed.

Lemma kalloc_none s pg o : tables s pg o [] ->
  exists s', Vm.kalloc s = Ret 0 s' /\ mem_of s' = mem_of s /\ tables s' pg o [].
Proof.
  intros [Hf Hn Hp]. destruct (kalloc_ok kend kend_le _ _ Hf) as (k' & Hr & Hf' & Em & _).
  exists (with_km k' s). split; [unfold Vm.kalloc, zoom; by rewrite Hr|]. split; [done|].
  by split; cbn; rewrite ?Em.
Qed.

Lemma walk_lookup s pg va : 0 <= va < 4294967296 ->
  walkpgdir pg va false s = Ret (default 0 (pte_addr (mem_of s) pg (va / 4096))) s.
Proof.
  intros Hva. unfold walkpgdir, bind at 1, rd, gets. rewrite PDX_eq, PTX_eq by done.
  unfold pte_addr, tab. destruct (has _ PTE_P); done.
Qed.

(** Table pages are taken from the free list: nothing else changes hands, and
    no page but these is written. *)
Record grown (s : vm) (pg : Z) (o l : list Z) (s' : vm) (l' : list Z) : Prop := {
  g_tables : tables s' pg o l';
  g_perm : tabs (mem_of s') pg ++ l' ≡ₚ tabs (mem_of s) pg ++ l;
  g_sub : l' ⊆ l;
  g_only : only (pg :: tabs (mem_of s) pg ++ l) (mem_of s) (mem_of s') }.

Lemma grown_refl s pg o l : tables s pg o l -> grown s pg o l s l.
Proof. by split. Qed.

Lemma grown_same s pg o l s' : tables s' pg o l -> mem_of s' = mem_of s -> grown s pg o l s' l.
Proof. intros H E. split; by rewrite ?E. Qed.

Lemma grown_trans s pg o l s1 l1 s2 l2 :
  grown s pg o l s1 l1 -> grown s1 pg o l1 s2 l2 -> grown s pg o l s2 l2.
Proof.
  intros [H1 P1 S1 O1] [H2 P2 S2 O2]. split; [done|by rewrite P2|set_solver|].
  eapply only_trans; [exact O1|]. eapply only_sub; [|exact O2].
  intros x Hx. assert (Hx' : x ∈ pg :: tabs (mem_of s1) pg ++ l1) by done.
  by rewrite P1 in Hx'.
Qed.

Lemma walk_alloc s pg o l va : tables s pg o l -> 0 <= va < 4294967296 ->
  (pte_addr (mem_of s) pg (va / 4096) = None /\ l = [] /\
   exists s', walkpgdir pg va true s = Ret 0 s' /\ mem_of s' = mem_of s /\ tables s' pg o []) \/
  (exists a s' l', walkpgdir pg va true s = Ret a s' /\
     pte_addr (mem_of s') pg (va / 4096) = Some a /\ grown s pg o l s' l' /\
     forall v, 0 <= v < 1048576 -> mapping (mem_of s') pg v = mapping (mem_of s) pg v).
Proof.
  intros Ht Hva. unfold walkpgdir. set (pde := pg + 4 * PDX va).
  assert (Erd : rd pde s = Ret (ld32 (mem_of s) pde) s) by done.
  rewrite (bind_eq _ _ _ _ _ Erd). pose proof (idx_range _ (vpn_range va Hva)) as Hi.
  destruct (tab (mem_of s) pg (va / 4096 / 1024)) as [t|] eqn:Et.
  - right. pose proof Et as Et'. unfold tab in Et. unfold pde. rewrite PDX_eq, PTX_eq by done.
    destruct (has (ld32 (mem_of s) _) PTE_P) eqn:Eh; [|done]. injection Et as <-.
    eexists _, s, l. split; [reflexivity|]. split_and!; try done.
    unfold pte_addr. by rewrite Et'.
  - assert (Ha : pte_addr (mem_of s) pg (va / 4096) = None) by (unfold pte_addr; by rewrite Et).
    pose proof Et as Et'. unfold tab in Et.
    assert (Eh : has (ld32 (mem_of s) pde) PTE_P = false).
    { unfold pde. rewrite PDX_eq by done. by destruct (has _ PTE_P). }
    rewrite Eh. cbn [negb]. destruct l as [|p l].
    + left. destruct (kalloc_none _ _ _ Ht) as (s' & Hr & Em & Ht').
      split_and!; [done..|]. exists s'. rewrite (bind_eq _ _ _ _ _ Hr). done.
    + right. destruct (kalloc_some _ _ _ _ _ Ht) as (s1 & Hr & Em & Ht1).
      rewrite (bind_eq _ _ _ _ _ Hr).
      assert (Hp : page_ok p) by (pose proof (tables_all _ _ _ _ Ht1) as H;
        rewrite Forall_forall in H; apply H; set_solver).
      pose proof (page_range _ Hp) as (Hp1 & _). destruct (Z.eqb_spec p 0); [unfold KERNBASE in *; lia|].
      set (e := Z.lor (Z.lor (Z.lor (V2P p) PTE_P) PTE_W) PTE_U).
      rewrite <- Em in Et'.
      destruct (add_table s1 pg o l p _ e Ht1 Hi Et' eq_refl) as (Ht2 & Hpm & Ho & Etab & Hmap).
      eexists (p + 4 * PTX va), _, l. split; [reflexivity|]. cbn [km Kalloc.ram with_km Kalloc.with_ram].
      unfold pde. rewrite PDX_eq by done. split_and!.
      * unfold pte_addr. rewrite Etab, PTX_eq. done.
      * split; [exact Ht2|..].
        -- cbn. rewrite Hpm, Em. cbn. by rewrite Permutation_middle.
        -- set_solver.
        -- cbn. rewrite <- Em. eapply only_sub; [|exact Ho]. set_solver.
      * intros v Hv. by rewrite Hmap, Em.
Qed.

(** ** Mapping pages *)

Definition entry (pa perm : Z) : Z := pa + Z.lor perm PTE_P.

Lemma entry_ok pa perm : pa mod 4096 = 0 -> 0 <= pa < 4294967296 -> 0 <= perm < 4096 ->
  Z.lor (Z.lor pa perm) PTE_P = entry pa perm /\ 0 <= entry pa perm < 4294967296 /\
  has (entry pa perm) PTE_P = true /\ PTE_ADDR (entry pa perm) = pa.
Proof.
  intros Hal Hpa Hp. pose proof (lor_flag perm 1 Hp ltac:(lia)) as Hl. unfold entry.
  change PTE_P with 1. split_and!.
  - rewrite <- Z.lor_assoc. by apply entry_add.
  - lia.
  - apply Z.mod_divide in Hal as [q ->]; lia.
  - rewrite has_add by (done || lia). exact (has_lor_P perm).
  - by apply entry_fields.
Qed.

Lemma map_step s pg o l v pa perm last : tables s pg o l -> 0 <= v < 1048576 ->
  mapping (mem_of s) pg v = None -> pa mod 4096 = 0 -> 0 <= pa < 4294967296 -> 0 <= perm < 4096 ->
  (l = [] /\ exists s', mappages_body pg last perm (v * 4096, pa) s = Ret (inr (-1)) s' /\
     grown s pg o l s' [] /\ mem_of s' = mem_of s) \/
  (exists s' l', mappages_body pg last perm (v * 4096, pa) s =
       Ret (if v * 4096 =? last then inr 0
            else inl (u32 (v * 4096 + PGSIZE), u32 (pa + PGSIZE))) s' /\
     grown s pg o l s' l' /\
     forall w, 0 <= w < 1048576 -> mapping (mem_of s') pg w =
       if decide (w = v) then Some (entry pa perm) else mapping (mem_of s) pg w).
Proof.
  intros Ht Hv Hnone Hal Hpa Hperm. unfold mappages_body.
  destruct (walk_alloc _ _ _ _ (v * 4096) Ht) as [(Ha & -> & s' & Hr & Em & Ht')|
    (a & s1 & l1 & Hr & Ha & Hg & Hmap)]; [lia|..]; rewrite ?Z.div_mul in Ha by lia.
  - left. split; [done|]. exists s'. rewrite (bind_eq _ _ _ _ _ Hr). split; [done|].
    split; [|done]. by apply grown_same.
  - right. rewrite (bind_eq _ _ _ _ _ Hr). pose proof (g_tables _ _ _ _ _ _ Hg) as Ht1.
    destruct (pte_addr_in _ _ _ _ _ _ Ht1 Hv Ha) as (t & _ & _ & _ & _ & _ & Ha0).
    rewrite (proj2 (Z.eqb_neq _ _)) by done.
    assert (Erd : rd a s1 = Ret (ld32 (mem_of s1) a) s1) by done. rewrite (bind_eq _ _ _ _ _ Erd).
    assert (Eh : has (ld32 (mem_of s1) a) PTE_P = false).
    { assert (E : mapping (mem_of s1) pg v = None) by (by rewrite Hmap).
      unfold mapping in E. rewrite Ha in E. cbn in E. by destruct (has _ _). }
    rewrite Eh. destruct (entry_ok pa perm Hal Hpa Hperm) as (E1 & E2 & E3 & E4). rewrite E1.
    destruct (set_pte _ _ _ _ _ _ _ Ht1 Hv Ha E2) as (Ht2 & Htabs & Ho & _ & Hmap2).
    set (s2 := with_km _ s1) in *. exists s2, l1.
    assert (Ewr : wr a (entry pa perm) s1 = Ret tt s2) by done.
    rewrite (bind_eq _ _ _ _ _ Ewr). split; [by destruct (v * 4096 =? last)|]. split.
    + eapply grown_trans; [exact Hg|]. split; [done| |done|].
      * cbn. by rewrite Htabs.
      * eapply only_sub; [|exact Ho]. set_solver.
    + intros w Hw. cbn [mem_of km Kalloc.ram s2]. rewrite Hmap2, E3 by done.
      destruct (decide (w = v)); [done|]. by apply Hmap.
Qed.

(** The pages from [v0] to [v0 + n]; on failure a prefix is mapped. *)
Lemma map_loop pg o perm last n : forall s l v0 pa,
  tables s pg o l -> 0 <= v0 -> v0 + Z.of_nat n < 1048576 ->
  (forall w, v0 <= w <= v0 + Z.of_nat n -> mapping (mem_of s) pg w = None) ->
  pa mod 4096 = 0 -> 0 <= pa -> pa + Z.of_nat n * 4096 < 4294967296 -> 0 <= perm < 4096 ->
  last = (v0 + Z.of_nat n) * 4096 ->
  exists r s' l' k, loop (S n) (mappages_body pg last perm) (v0 * 4096, pa) s = Ret r s' /\
    grown s pg o l s' l' /\
    (r = 0 /\ k = v0 + Z.of_nat n + 1 \/ r = -1 /\ l' = [] /\ v0 <= k <= v0 + Z.of_nat n) /\
    (forall w, 0 <= w < 1048576 -> mapping (mem_of s') pg w =
       if decide (v0 <= w < k) then Some (entry (pa + (w - v0) * 4096) perm)
       else mapping (mem_of s) pg w).
Proof.
  induction n as [|n IH]; intros s l v0 pa Ht Hv0 Hv Hnone Hal Hpa Hpn Hperm Hlast;
    (destruct (map_step s pg o l v0 pa perm last Ht) as [(-> & s1 & Hr & Hg & Em)|
      (s1 & l1 & Hr & Hg & Hmap)]; [lia|apply Hnone; lia|done|lia|done|..]).
  1,3: (exists (-1), s1, [], v0; cbn [loop]; rewrite (bind_eq _ _ _ _ _ Hr); split_and!; try done;
    [right; split_and!; [done|done|lia|lia]|];
    intros w Hw; rewrite decide_False by lia; by rewrite Em).
  - assert (E : v0 * 4096 =? last = true) by (apply Z.eqb_eq; lia). rewrite E in Hr.
    exists 0, s1, l1, (v0 + 1). cbn [loop]. rewrite (bind_eq _ _ _ _ _ Hr).
    split_and!; try done; [left; split; [done|lia]|]. intros w Hw. rewrite Hmap by done.
    destruct (decide (w = v0)) as [->|Hne].
    + rewrite decide_True by lia. do 2 f_equal. lia.
    + by rewrite decide_False by lia.
  - assert (E : v0 * 4096 =? last = false) by (apply Z.eqb_neq; lia). rewrite E in Hr.
    rewrite !u32_small in Hr by (unfold PGSIZE; lia).
    replace (v0 * 4096 + PGSIZE) with ((v0 + 1) * 4096) in Hr by (unfold PGSIZE; lia).
    destruct (IH s1 l1 (v0 + 1) (pa + PGSIZE)) as (r & s2 & l2 & k & Hrun & Hg2 & Hk & Hmap2);
      try (unfold PGSIZE; lia).
    + by apply Hg.
    + intros w Hw. rewrite Hmap, decide_False by lia. apply Hnone. lia.
    + unfold PGSIZE. rewrite <- Z.add_mod_idemp_r, Z_mod_same_full, Z.add_0_r by lia. done.
    + exists r, s2, l2, k. remember (S n) as sn. cbn [loop].
      rewrite (bind_eq _ _ _ _ _ Hr). split_and!; [exact Hrun|by eapply grown_trans| |].
      * destruct Hk as [[-> ->]|(-> & -> & Hk)]; [left; lia|right; split_and!; (done || lia)].
      * intros w Hw. rewrite Hmap2, Hmap by done. destruct (decide (w = v0)) as [->|Hne].
        -- rewrite decide_False by lia. destruct (decide (v0 <= v0 < k)); [|lia].
           do 2 f_equal. lia.
        -- destruct (decide (v0 + 1 <= w < k)), (decide (v0 <= w < k)); try lia; [|done].
           do 2 f_equal. unfold PGSIZE. lia.
Qed.

Lemma PGROUNDDOWN_page v r : 0 <= r < 4096 -> PGROUNDDOWN (v * 4096 + r) = v * 4096.
Proof.
  intros Hr. rewrite PGROUNDDOWN_eq, Z.add_comm, Z.div_add, Z.div_small by lia. lia.
Qed.

(** [mappages] on whole pages none of which is mapped. *)
Lemma mappages_ok s pg o l v0 n pa perm :
  tables s pg o l -> 0 <= v0 -> 0 < n -> v0 + n <= 1048576 ->
  (forall w, v0 <= w < v0 + n -> mapping (mem_of s) pg w = None) ->
  pa mod 4096 = 0 -> 0 <= pa -> pa + n * 4096 <= 4294967296 -> 0 <= perm < 4096 ->
  exists r s' l' k, mappages pg (v0 * 4096) (n * 4096) pa perm s = Ret r s' /\
    grown s pg o l s' l' /\
    (r = 0 /\ k = v0 + n \/ r = -1 /\ l' = [] /\ v0 <= k < v0 + n) /\
    (forall w, 0 <= w < 1048576 -> mapping (mem_of s') pg w =
       if decide (v0 <= w < k) then Some (entry (pa + (w - v0) * 4096) perm)
       else mapping (mem_of s) pg w).
Proof.
  intros Ht Hv0 Hn Hv Hnone Hal Hpa Hpn Hperm. unfold mappages.
  rewrite (u32_small (v0 * 4096 + n * 4096 - 1)) by lia.
  replace (v0 * 4096 + n * 4096 - 1) with ((v0 + n - 1) * 4096 + 4095) by lia.
  rewrite PGROUNDDOWN_page by lia. rewrite <- (Z.add_0_r (v0 * 4096)), PGROUNDDOWN_page by lia.
  rewrite u32_small by lia.
  replace ((v0 + n - 1) * 4096 - v0 * 4096) with ((n - 1) * 4096) by lia.
  rewrite Z.div_mul by (unfold PGSIZE; lia).
  destruct (map_loop pg o perm ((v0 + n - 1) * 4096) (Z.to_nat (n - 1)) s l v0 pa)
    as (r & s' & l' & k & Hr & Hg & Hk & Hmap); try (done || lia).
  { intros w Hw. apply Hnone. lia. }
  exists r, s', l', k. split_and!; try done. destruct Hk as [[-> ->]|(-> & -> & ?)]; [left|right];
    split_and!; (done || lia).
Qed.

(** ** User address spaces

    A space owns its directory, its tables and its user frames; [rest] are
    the pages others use. *)

Definition owned (m : mem) (pg : Z) : list Z := pg :: tabs m pg ++ frames m pg.
Definition space (s : vm) (pg : Z) (rest l : list Z) : Prop :=
  tables s pg (frames (mem_of s) pg ++ rest) l.

(** One user page appears in, or disappears from, the view. *)
Lemma frames_gain m m' pg v e : 0 <= v < user_pages -> mapping m pg v = None ->
  (forall w, 0 <= w < 1048576 ->
     mapping m' pg w = if decide (w = v) then Some e else mapping m pg w) ->
  frames m' pg ≡ₚ P2V (PTE_ADDR e) :: frames m pg.
Proof.
  intros Hv Hnone Hmap. pose proof user_pages_eq. rewrite !frames_eq.
  apply (omap_gain _ _ _ v); [apply NoDup_seqZ|apply elem_of_seqZ; lia| | |].
  - unfold frame_of. by rewrite Hnone.
  - unfold frame_of. rewrite Hmap, decide_True by (done || lia). done.
  - intros w Hw%elem_of_seqZ Hne. unfold frame_of. by rewrite Hmap, decide_False by (done || lia).
Qed.

Lemma frames_lose m m' pg v e : 0 <= v < user_pages -> mapping m pg v = Some e ->
  (forall w, 0 <= w < 1048576 ->
     mapping m' pg w = if decide (w = v) then None else mapping m pg w) ->
  frames m pg ≡ₚ P2V (PTE_ADDR e) :: frames m' pg.
Proof.
  intros Hv Hsome Hmap. pose proof user_pages_eq. apply (frames_gain m' m pg v e); [done|..].
  - by rewrite Hmap, decide_True by (done || lia).
  - intros w Hw. rewrite Hmap by done. by destruct (decide (w = v)) as [->|].
Qed.

Lemma space_perm s pg o rest l :
  tables s pg o l -> o ≡ₚ frames (mem_of s) pg ++ rest -> space s pg rest l.
Proof. intros H E. by eapply tables_perm. Qed.

Lemma frames_Some m pg v e : 0 <= v < user_pages -> mapping m pg v = Some e ->
  P2V (PTE_ADDR e) ∈ frames m pg.
Proof. intros Hv E. eapply elem_frames; [exact Hv|]. unfold frame_of. by rewrite E. Qed.

(** The page [f] in hand is mapped at user page [v]. *)
Lemma map_user s pg rest l v f perm :
  tables s pg (f :: frames (mem_of s) pg ++ rest) l -> 0 <= v < user_pages ->
  mapping (mem_of s) pg v = None -> 0 <= perm < 4096 ->
  exists r s' l', mappages pg (v * 4096) PGSIZE (V2P f) perm s = Ret r s' /\
    grown s pg (f :: frames (mem_of s) pg ++ rest) l s' l' /\
    (r = 0 /\ space s' pg rest l' /\ frames (mem_of s') pg ≡ₚ f :: frames (mem_of s) pg /\
       (forall w, 0 <= w < 1048576 -> mapping (mem_of s') pg w =
          if decide (w = v) then Some (entry (V2P f) perm) else mapping (mem_of s) pg w) \/
     r = -1 /\ l' = [] /\ frames (mem_of s') pg = frames (mem_of s) pg /\
       forall w, 0 <= w < 1048576 -> mapping (mem_of s') pg w = mapping (mem_of s) pg w).
Proof.
  intros Ht Hv Hnone Hperm. pose proof user_pages_eq as Eu.
  assert (Hf : page_ok f) by (pose proof (tables_all _ _ _ _ Ht) as H;
    rewrite Forall_forall in H; apply H; set_solver).
  destruct (page_P2V _ Hf) as (Ef & _ & Hal & Hbd).
  destruct (mappages_ok s pg _ l v 1 (V2P f) perm Ht) as (r & s' & l' & k & Hr & Hg & Hk & Hmap);
    try (done || lia).
  { intros w Hw. by replace w with v by lia. }
  exists r, s', l'. split; [exact Hr|]. split; [done|].
  destruct Hk as [[-> ->]|(-> & -> & Hk)].
  - left. assert (Hmap' : forall w, 0 <= w < 1048576 -> mapping (mem_of s') pg w =
      if decide (w = v) then Some (entry (V2P f) perm) else mapping (mem_of s) pg w).
    { intros w Hw. rewrite Hmap by done. destruct (decide (w = v)) as [->|].
      - rewrite decide_True by lia. do 2 f_equal. lia.
      - by rewrite decide_False by lia. }
    pose proof (frames_gain _ _ pg v _ Hv Hnone Hmap') as Hfr.
    destruct (entry_ok (V2P f) perm Hal ltac:(lia) Hperm) as (_ & _ & _ & Ea).
    rewrite Ea, Ef in Hfr. split_and!; try done.
    eapply space_perm; [apply Hg|]. by rewrite Hfr.
  - right. assert (Hmap' : forall w, 0 <= w < 1048576 ->
      mapping (mem_of s') pg w = mapping (mem_of s) pg w)
      by (intros w Hw; by rewrite Hmap, decide_False by lia).
    split_and!; try done. apply frames_ext. intros w Hw. apply Hmap'. lia.
Qed.

(** ** Unmapping and freeing *)

Lemma kfree_run s pg o l f : tables s pg (f :: o) l ->
  exists s', Vm.kfree kend f s = Ret tt s' /\ tables s' pg o (f :: l) /\
    only [f] (mem_of s) (mem_of s') /\ agree (pg :: tabs (mem_of s) pg ++ o) (mem_of s) (mem_of s').
Proof.
  intros Ht. pose proof (tables_all _ _ _ _ Ht) as Hall. pose proof Ht as [Hf Hn Hp].
  assert (Hpf : page_ok f) by (rewrite Forall_forall in Hall; apply Hall; set_solver).
  assert (Hperm : pg :: tabs (mem_of s) pg ++ (f :: o) ++ l ≡ₚ
                  f :: pg :: tabs (mem_of s) pg ++ o ++ l).
  { cbn. rewrite <- (Permutation_middle (tabs (mem_of s) pg)). apply perm_swap. }
  rewrite Hperm in Hn. apply NoDup_cons in Hn as [Hnf Hn].
  destruct (kfree_ok kend kend_le _ _ f Hf Hpf) as (k' & Hr & Hf' & _ & Ho & _); [set_solver|].
  assert (Honly : only [f] (mem_of s) (ram k')).
  { intros x Hx. apply Ho. destruct (Hx f); [by left|by left|by right]. }
  assert (Hag : agree (pg :: tabs (mem_of s) pg ++ o) (mem_of s) (ram k')).
  { eapply only_agree; [exact Honly|by apply Forall_singleton| |].
    - rewrite Forall_forall in Hall |- *. intros q Hq. apply Hall. set_solver.
    - intros p ->%list_elem_of_singleton. set_solver. }
  assert (Htabs : tabs (ram k') pg = tabs (mem_of s) pg).
  { apply view_agree. eapply agree_sub; [|exact Hag]. set_solver. }
  exists (with_km k' s). split; [unfold Vm.kfree, zoom; by rewrite Hr|].
  split_and!; [split; cbn; rewrite ?Htabs|done|done].
  - done.
  - eapply NoDup_Permutation_proper; [|apply NoDup_cons; split; [exact Hnf|exact Hn]].
    rewrite !app_assoc, <- (Permutation_middle _ l f). apply perm_swap.
  - rewrite !Forall_cons, !Forall_app, ?Forall_cons in *. tauto.
Qed.

Lemma space_frame s pg rest l f : space s pg rest l -> f ∈ frames (mem_of s) pg -> page_ok f.
Proof.
  intros [_ _ Hp] Hf. rewrite Forall_forall in Hp. apply Hp. clear - Hf. set_solver.
Qed.

(** User frames go back to the free list; the tables stay. *)
Record shrunk (s : vm) (pg : Z) (rest l : list Z) (s' : vm) (l' : list Z) : Prop := {
  sh_space : space s' pg rest l';
  sh_tabs : tabs (mem_of s') pg = tabs (mem_of s) pg;
  sh_perm : frames (mem_of s') pg ++ l' ≡ₚ frames (mem_of s) pg ++ l;
  sh_sub : l ⊆ l';
  sh_only : only (tabs (mem_of s) pg ++ l') (mem_of s) (mem_of s') }.

Lemma shrunk_refl s pg rest l : space s pg rest l -> shrunk s pg rest l s l.
Proof. by split. Qed.

Lemma shrunk_trans s pg rest l s1 l1 s2 l2 :
  shrunk s pg rest l s1 l1 -> shrunk s1 pg rest l1 s2 l2 -> shrunk s pg rest l s2 l2.
Proof.
  intros [H1 T1 P1 S1 O1] [H2 T2 P2 S2 O2].
  split; [done|by rewrite T2|by rewrite P2|set_solver|].
  eapply only_trans; (eapply only_sub; [|eassumption]); rewrite ?T1; set_solver.
Qed.

(** The next page the loop of [deallocuvm] looks at. *)
Definition dealloc_next (m : mem) (pg v : Z) : Z :=
  if pte_addr m pg v then v + 1 else (v / 1024 + 1) * 1024.

Lemma skip_none m pg v w : pte_addr m pg v = None -> v <= w < dealloc_next m pg v ->
  mapping m pg w = None.
Proof.
  unfold dealloc_next. intros Ea Hd. rewrite Ea in Hd. unfold mapping, pte_addr in *.
  assert (w / 1024 = v / 1024) as ->; [|by destruct (tab m pg (v / 1024))].
  pose proof (Z.div_mod v 1024). pose proof (sub_range v).
  apply Z.le_antisymm; [apply Z.lt_succ_r, Z.div_lt_upper_bound|apply Z.div_le_mono]; lia.
Qed.

Lemma pgaddr_next v : 0 <= v < user_pages ->
  u32 (u32 (PGADDR (PDX (v * 4096) + 1) 0 0 - PGSIZE) + PGSIZE) = (v / 1024 + 1) * 1024 * 4096.
Proof.
  intros Hv. rewrite user_pages_eq in Hv. unfold PGADDR. rewrite !Z.lor_0_r.
  rewrite PDX_eq, Z.div_mul, Z.shiftl_mul_pow2 by lia. change (2 ^ 22) with 4194304.
  assert (0 <= v / 1024 < 512) by (split; [apply Z.div_pos|apply Z.div_lt_upper_bound]; lia).
  rewrite u32_add_l. rewrite (u32_small ((_ + 1) * 4194304)) by lia.
  unfold PGSIZE. rewrite u32_small by lia. lia.
Qed.

Lemma dealloc_step s pg rest l v oldsz : space s pg rest l -> 0 <= v < user_pages ->
  v * 4096 < oldsz ->
  exists s' l', dealloc_body kend pg oldsz (v * 4096) s =
      Ret (inl (dealloc_next (mem_of s) pg v * 4096)) s' /\ shrunk s pg rest l s' l' /\
    (forall w, 0 <= w < 1048576 -> mapping (mem_of s') pg w =
       if decide (v <= w < dealloc_next (mem_of s) pg v) then None else mapping (mem_of s) pg w).
Proof.
  intros Hs Hv Hlt. pose proof user_pages_eq as Eu. unfold dealloc_body.
  rewrite (proj2 (Z.ltb_lt _ _)) by done.
  rewrite (bind_eq _ _ _ _ _ (walk_lookup s pg (v * 4096) ltac:(lia))), Z.div_mul by lia.
  unfold dealloc_next. destruct (pte_addr (mem_of s) pg v) as [a|] eqn:Ea; cbn [default].
  2:{ exists s, l. rewrite Z.eqb_refl. unfold PGSIZE at 1. rewrite pgaddr_next by done.
      split; [done|]. split; [by apply shrunk_refl|]. intros w Hw.
      destruct (decide _) as [Hd|]; [|done]. apply (skip_none _ _ v); [done|].
      unfold dealloc_next. by rewrite Ea. }
  destruct (pte_addr_in _ _ _ _ v _ Hs ltac:(lia) Ea) as (t & Et & Eat & Htp & Htne & Htin & Ha0).
  rewrite (proj2 (Z.eqb_neq _ _)) by done.
  assert (Erd : rd a s = Ret (ld32 (mem_of s) a) s) by done. rewrite (bind_eq _ _ _ _ _ Erd).
  assert (Enext : u32 (v * 4096 + PGSIZE) = (v + 1) * 4096)
    by (unfold PGSIZE; rewrite u32_small by lia; lia).
  rewrite Enext. destruct (has (ld32 (mem_of s) a) PTE_P) eqn:Eh.
  2:{ exists s, l. split; [done|]. split; [by apply shrunk_refl|]. intros w Hw.
      destruct (decide _) as [Hd|]; [|done]. assert (w = v) as -> by lia.
      unfold mapping. rewrite Ea. cbn. by rewrite Eh. }
  set (e := ld32 (mem_of s) a) in *.
  assert (Emap : mapping (mem_of s) pg v = Some e) by (unfold mapping; rewrite Ea; cbn; fold e; by rewrite Eh).
  pose proof (frames_Some _ _ _ _ Hv Emap) as Hin.
  assert (Hpf : page_ok (P2V (PTE_ADDR e))).
  { by eapply space_frame. }
  destruct (Z.eqb_spec (PTE_ADDR e) 0) as [E0|_].
  { exfalso. rewrite E0 in Hpf. destruct (page_range _ Hpf) as (H & _). by cbn in H. }
  set (f := P2V (PTE_ADDR e)) in *.
  apply list_elem_of_split in Hin as (f1 & f2 & Efr).
  assert (Hs' : tables s pg (f :: (f1 ++ f2) ++ rest) l).
  { eapply tables_perm; [|exact Hs]. rewrite Efr. cbn. by rewrite <- !app_assoc, Permutation_middle. }
  destruct (kfree_run _ _ _ _ _ Hs') as (s1 & Hr1 & Ht1 & Ho1 & Hag).
  destruct (view_agree (mem_of s) (mem_of s1) pg) as [Etabs Hview].
  { eapply agree_sub; [|exact Hag]. set_solver. }
  assert (Ea1 : pte_addr (mem_of s1) pg v = Some a) by (by rewrite (proj1 (Hview v ltac:(lia)))).
  destruct (set_pte _ _ _ _ v _ 0 Ht1 ltac:(lia) Ea1 ltac:(lia)) as (Ht2 & Htabs2 & Ho2 & _ & Hmap2).
  set (s2 := with_km _ s1) in *.
  assert (Ewr : wr a 0 s1 = Ret tt s2) by done.
  exists s2, (f :: l).
  assert (Erun : (Vm.kfree kend f ;;; wr a 0) s = Ret tt s2) by (by rewrite (bind_eq _ _ _ _ _ Hr1)).
  rewrite (bind_eq _ _ _ _ _ Erun). split; [done|].
  assert (Hmap' : forall w, 0 <= w < 1048576 -> mapping (mem_of s2) pg w =
    if decide (w = v) then None else mapping (mem_of s) pg w).
  { intros w Hw. cbn [mem_of km Kalloc.ram s2]. rewrite Hmap2 by done.
    destruct (decide (w = v)); [done|]. apply Hview. done. }
  pose proof (frames_lose _ _ _ _ _ Hv Emap Hmap') as Hlose. fold f in Hlose.
  assert (Hfr2 : frames (mem_of s2) pg ≡ₚ f1 ++ f2).
  { apply (Permutation_cons_inv (a := f)). rewrite <- Hlose, Efr. by rewrite Permutation_middle. }
  split; [split|].
  - eapply space_perm; [exact Ht2|]. by rewrite Hfr2.
  - change (mem_of s2) with (st32 (mem_of s1) a 0). by rewrite Htabs2, Etabs.
  - rewrite Hfr2, Efr. by rewrite <- (Permutation_middle (f1 ++ f2) l f), <- (Permutation_middle f1 f2 f).
  - clear. set_solver.
  - eapply only_trans; [eapply only_sub; [|exact Ho1]; clear; set_solver|].
    eapply only_sub; [|exact Ho2]. rewrite Etabs. clear. set_solver.
  - intros w Hw. rewrite Hmap' by done.
    destruct (decide (w = v)), (decide (v <= w < v + 1)); (done || lia).
Qed.

(** The first page at or above an address. *)
Definition page_up (sz : Z) : Z := (sz + 4095) / 4096.

Lemma page_up_lt v sz : v * 4096 < sz <-> v < page_up sz.
Proof.
  unfold page_up. pose proof (Z.div_mod (sz + 4095) 4096).
  pose proof (Z.mod_pos_bound (sz + 4095) 4096). lia.
Qed.

Lemma page_up_mono a b : a <= b -> page_up a <= page_up b.
Proof. intros. apply Z.div_le_mono; lia. Qed.

Lemma page_up_user sz : 0 <= sz <= KERNBASE -> 0 <= page_up sz <= user_pages.
Proof.
  intros H. rewrite user_pages_eq. unfold page_up, KERNBASE in *.
  pose proof (Z.div_mod (sz + 4095) 4096). pose proof (Z.mod_pos_bound (sz + 4095) 4096). lia.
Qed.

Lemma PGROUNDUP_page sz : 0 <= sz <= KERNBASE -> PGROUNDUP sz = page_up sz * 4096.
Proof. intros H. apply Kalloc.InitFacts.PGROUNDUP_spec. unfold KERNBASE in *. lia. Qed.

Lemma dealloc_next_gt m pg v : v < dealloc_next m pg v.
Proof.
  unfold dealloc_next. destruct (pte_addr m pg v); [lia|].
  pose proof (Z.div_mod v 1024). pose proof (sub_range v). lia.
Qed.

Lemma dealloc_loop pg rest oldsz fuel : forall s l v, space s pg rest l -> 0 <= v ->
  0 <= oldsz <= KERNBASE -> page_up oldsz - v <= Z.of_nat fuel ->
  exists s' l', loop (S fuel) (dealloc_body kend pg oldsz) (v * 4096) s = Ret tt s' /\
    shrunk s pg rest l s' l' /\
    (forall w, 0 <= w < 1048576 -> mapping (mem_of s') pg w =
       if decide (v <= w < page_up oldsz) then None else mapping (mem_of s) pg w).
Proof.
  pose proof user_pages_eq as Eu.
  induction fuel as [|fuel IH]; intros s l v Hs Hv Hold Hfuel;
    (destruct (Z.lt_ge_cases v (page_up oldsz)) as [Hlt|Hge];
     [|exists s, l; split; [|split; [by apply shrunk_refl|intros w Hw; by rewrite decide_False by lia]];
       cbn [loop]; unfold dealloc_body, bind; apply Z.le_ngt in Hge; rewrite <- page_up_lt in Hge;
       destruct (Z.ltb_spec (v * 4096) oldsz); [lia|done]]); [lia|].
  pose proof (page_up_user _ Hold). pose proof Hlt as Hlt'. rewrite <- page_up_lt in Hlt'.
  destruct (dealloc_step _ _ _ _ v oldsz Hs ltac:(lia) Hlt') as (s1 & l1 & Hr & Hsh & Hmap).
  pose proof (dealloc_next_gt (mem_of s) pg v) as Hnext.
  destruct (IH s1 l1 (dealloc_next (mem_of s) pg v)) as (s2 & l2 & Hr2 & Hsh2 & Hmap2);
    [apply Hsh|lia|done|lia|].
  exists s2, l2. remember (S fuel) as fu. cbn [loop]. rewrite (bind_eq _ _ _ _ _ Hr).
  split_and!; [exact Hr2|by eapply shrunk_trans|].
  intros w Hw. rewrite Hmap2, Hmap by lia.
  destruct (pte_addr (mem_of s) pg v) eqn:Ea;
    [|pose proof (skip_none (mem_of s) pg v w Ea) as Hskip].
  - unfold dealloc_next in *. rewrite Ea in *. repeat case_decide; (done || lia).
  - repeat case_decide; try (done || lia). by rewrite Hskip by lia.
Qed.

(** The fuel of the loops over a range of pages. *)
Lemma page_up_fuel sz v : 0 <= sz -> 0 <= v -> page_up sz - v <= Z.of_nat (Z.to_nat (sz / PGSIZE + 1)).
Proof.
  intros Hsz Hv. assert (0 <= sz / 4096) by (apply Z.div_pos; lia). unfold page_up, PGSIZE.
  pose proof (Z.div_mod (sz + 4095) 4096). pose proof (Z.mod_pos_bound (sz + 4095) 4096).
  pose proof (Z.div_mod sz 4096). pose proof (Z.mod_pos_bound sz 4096). lia.
Qed.

Lemma deallocuvm_ok s pg rest l oldsz newsz : space s pg rest l -> 0 <= newsz ->
  0 <= oldsz <= KERNBASE ->
  exists s' l', deallocuvm kend pg oldsz newsz s = Ret (Z.min newsz oldsz) s' /\
    shrunk s pg rest l s' l' /\
    (forall w, 0 <= w < 1048576 -> mapping (mem_of s') pg w =
       if decide (page_up newsz <= w < page_up oldsz) then None else mapping (mem_of s) pg w).
Proof.
  intros Hs Hn Hold. unfold deallocuvm. rewrite Z.geb_leb. destruct (Z.leb_spec oldsz newsz).
  - exists s, l. rewrite Z.min_r by lia. split; [done|]. split; [by apply shrunk_refl|].
    pose proof (page_up_mono _ _ H). intros w Hw. by rewrite decide_False by lia.
  - pose proof (page_up_user newsz ltac:(lia)).
    rewrite PGROUNDUP_page by lia.
    pose proof (page_up_fuel oldsz (page_up newsz) ltac:(lia) ltac:(lia)) as Hfu.
    destruct (dealloc_loop pg rest oldsz _ s l (page_up newsz) Hs ltac:(lia) Hold Hfu)
      as (s' & l' & Hr & Hsh & Hmap).
    exists s', l'. rewrite (bind_eq _ _ _ _ _ Hr), Z.min_l by lia. done.
Qed.

Lemma kfree_vm s l f : free_ok kend (km s) l -> page_ok f -> f ∉ l ->
  exists s', Vm.kfree kend f s = Ret tt s' /\ free_ok kend (km s') (f :: l) /\
    only [f] (mem_of s) (mem_of s').
Proof.
  intros Hf Hp Hn. destruct (kfree_ok kend kend_le _ _ f Hf Hp Hn) as (k' & Hr & Hf' & _ & Ho & _).
  exists (with_km k' s). split; [unfold Vm.kfree, zoom; by rewrite Hr|]. split; [done|].
  intros x Hx. apply Ho. destruct (Hx f); [by left|by left|by right].
Qed.

(** The loop of [freevm] over the page tables; the directory is still there. *)
Lemma free_tables pg js : forall s l, free_ok kend (km s) l -> Forall (fun i => 0 <= i < 1024) js ->
  page_ok pg -> Forall page_ok (omap (tab (mem_of s) pg) js) ->
  NoDup (pg :: omap (tab (mem_of s) pg) js ++ l) ->
  exists s' l', for_each js (free_table kend pg) s = Ret tt s' /\ free_ok kend (km s') l' /\
    l' ≡ₚ omap (tab (mem_of s) pg) js ++ l /\
    only (omap (tab (mem_of s) pg) js) (mem_of s) (mem_of s').
Proof.
  induction js as [|i js IH]; intros s l Hf Hi Hpg Hp Hn; [by exists s, l|].
  apply Forall_cons in Hi as [Hi His]. cbn [for_each]. unfold free_table at 1.
  assert (Erd : rd (pg + 4 * i) s = Ret (ld32 (mem_of s) (pg + 4 * i)) s) by done.
  cbn [omap list_omap] in *.
  destruct (tab (mem_of s) pg i) as [t|] eqn:Et; pose proof Et as Et'; unfold tab in Et;
    destruct (has (ld32 (mem_of s) (pg + 4 * i)) PTE_P) eqn:Eh; try done.
  - injection Et as <-. set (t := P2V _) in *. apply Forall_cons in Hp as [Hpt Hp].
    apply NoDup_cons in Hn as [Hpgn Hn]. cbn in Hn. apply NoDup_cons in Hn as [Htn Hn].
    destruct (kfree_vm s l t Hf Hpt) as (s1 & Hr & Hf1 & Ho); [clear - Htn; set_solver|].
    assert (Hag : agree [pg] (mem_of s) (mem_of s1)).
    { eapply only_agree; [exact Ho|by apply Forall_singleton..|].
      intros q ->%list_elem_of_singleton ->%list_elem_of_singleton. apply Hpgn. left. }
    assert (Eo : omap (tab (mem_of s1) pg) js = omap (tab (mem_of s) pg) js).
    { apply omap_ext_in. intros j Hj. apply tab_agree; [done|].
      rewrite Forall_forall in His. by apply His. }
    destruct (IH s1 (t :: l)) as (s2 & l2 & Hr2 & Hf2 & Hpm & Ho2); rewrite ?Eo in *; try done.
    { rewrite <- Permutation_middle. apply NoDup_cons. split; [clear - Hpgn; set_solver|].
      by apply NoDup_cons. }
    exists s2, l2. rewrite (bind_eq _ _ s tt s1); [|by rewrite (bind_eq _ _ _ _ _ Erd), Eh].
    split_and!; [done|done|by rewrite Hpm, <- Permutation_middle|].
    eapply only_trans; (eapply only_sub; [|eassumption]); clear; set_solver.
  - destruct (IH s l) as (s2 & l2 & Hr2 & Hrest); try done. exists s2, l2.
    rewrite (bind_eq _ _ s tt s); [done|]. by rewrite (bind_eq _ _ _ _ _ Erd), Eh.
Qed.

Lemma freevm_ok s pg rest l : space s pg rest l ->
  exists s' l', freevm kend pg s = Ret tt s' /\ free_ok kend (km s') l' /\
    l' ≡ₚ owned (mem_of s) pg ++ l /\
    only (owned (mem_of s) pg ++ l) (mem_of s) (mem_of s').
Proof.
  intros Hs. pose proof (tables_all _ _ _ _ Hs) as Hall. apply Forall_cons in Hall as [Hpg _].
  pose proof (page_range _ Hpg) as (Hpg0 & _).
  unfold freevm. destruct (Z.eqb_spec pg 0); [unfold KERNBASE in *; lia|].
  destruct (deallocuvm_ok s pg rest l KERNBASE 0 Hs) as (s1 & l1 & Hr1 & Hsh & Hmap);
    [lia|unfold KERNBASE; lia|].
  rewrite (bind_eq _ _ _ _ _ Hr1). destruct Hsh as [Hsp Et Hpm Hsub Ho].
  assert (Efr : frames (mem_of s1) pg = []).
  { rewrite frames_eq. apply omap_none. intros v Hv%elem_of_seqZ. unfold frame_of.
    rewrite Hmap, decide_True; [done| |rewrite user_pages_eq in *; lia].
    split; [|rewrite user_pages_eq in *; change (page_up KERNBASE) with 524288; lia].
    change (page_up 0) with 0. lia. }
  unfold space in Hsp. rewrite Efr in *. cbn [app] in *. pose proof (tables_all _ _ _ _ Hsp) as Hall1.
  destruct Hsp as [Hf1 Hn1 Hp1]. rewrite tabs_eq in Hn1, Hp1.
  assert (Hn1' : NoDup (pg :: omap (tab (mem_of s1) pg) (seqZ 0 1024) ++ l1)).
  { eapply sublist_NoDup; [exact Hn1|]. apply sublist_skip, sublist_app; [done|].
    by apply sublist_inserts_l. }
  destruct (free_tables pg (seqZ 0 1024) s1 l1 Hf1) as (s2 & l2 & Hr2 & Hf2 & Hpm2 & Ho2); try done.
  { apply Forall_forall. intros i Hi%elem_of_seqZ. lia. }
  { apply Forall_cons in Hp1 as [_ Hp1]. by apply Forall_app in Hp1 as [? _]. }
  unfold NPDENTRIES. rewrite (bind_eq _ _ _ _ _ Hr2).
  destruct (kfree_vm s2 l2 pg Hf2 Hpg) as (s3 & Hr3 & Hf3 & Ho3).
  { rewrite Hpm2. by apply NoDup_cons in Hn1' as [? _]. }
  rewrite <- tabs_eq, Et in Hpm2, Ho2.
  exists s3, (pg :: l2). split_and!; [done|done| |].
  - unfold owned. cbn. apply Permutation_skip. rewrite Hpm2, <- app_assoc. by rewrite <- Hpm.
  - assert (Hl : forall x, x ∈ l1 -> x ∈ owned (mem_of s) pg ++ l).
    { intros x Hx. rewrite Hpm in Hx. unfold owned. clear - Hx. set_solver. }
    unfold owned in *. eapply only_trans; [eapply only_sub; [|exact Ho]; clear - Hl; set_solver|].
    eapply only_trans; [eapply only_sub; [|exact Ho2]|eapply only_sub; [|exact Ho3]];
      clear; set_solver.
Qed.

(** ** Growing a user space *)

(** Pages move from the free list to the space; the user frames it had, and
    the pages of others, are not written. *)
Record ugrown (s : vm) (pg : Z) (rest l : list Z) (s' : vm) (l' : list Z) : Prop := {
  ug_space : space s' pg rest l';
  ug_perm : owned (mem_of s') pg ++ l' ≡ₚ owned (mem_of s) pg ++ l;
  ug_sub : tabs (mem_of s') pg ++ l' ⊆ tabs (mem_of s) pg ++ l;
  ug_only : only (pg :: tabs (mem_of s) pg ++ l) (mem_of s) (mem_of s') }.

Lemma ugrown_refl s pg rest l : space s pg rest l -> ugrown s pg rest l s l.
Proof. by split. Qed.

Lemma ugrown_trans s pg rest l s1 l1 s2 l2 :
  ugrown s pg rest l s1 l1 -> ugrown s1 pg rest l1 s2 l2 -> ugrown s pg rest l s2 l2.
Proof.
  intros [H1 P1 S1 O1] [H2 P2 S2 O2]. split; [done|by rewrite P2|set_solver|].
  eapply only_trans; [exact O1|]. eapply only_sub; [|exact O2]. clear - S1. set_solver.
Qed.

Lemma tables_km s s' pg o l : km s' = km s -> tables s pg o l -> tables s' pg o l.
Proof. intros E [H1 H2 H3]. split; by rewrite ?E. Qed.

(** Pages in use by others, and user frames, keep their bytes. *)
Lemma tables_agree s pg o l m' : tables s pg o l ->
  only (pg :: tabs (mem_of s) pg ++ l) (mem_of s) m' -> agree o (mem_of s) m'.
Proof.
  intros Ht Ho. pose proof (tables_all _ _ _ _ Ht) as Hall. rewrite Forall_forall in Hall.
  eapply only_agree; [exact Ho| | |].
  - apply Forall_forall. intros x Hx. apply Hall. clear - Hx. set_solver.
  - apply Forall_forall. intros x Hx. apply Hall. clear - Hx. set_solver.
  - destruct Ht as [_ Hn _]. apply NoDup_cons in Hn as [Hn1 Hn].
    apply NoDup_app in Hn as (_ & Hn2 & Hn). apply NoDup_app in Hn as (_ & Hn3 & _).
    intros x Hx Hxo. apply elem_of_cons in Hx as [->|Hx]; [clear - Hn1 Hxo; set_solver|].
    apply elem_of_app in Hx as [Hx|Hx]; [|by apply (Hn3 x)].
    apply (Hn2 x Hx). clear - Hxo. set_solver.
Qed.

(** Writing the page in hand changes no view. *)
Lemma write_page s pg o l f m1 : tables s pg (f :: o) l -> only [f] (mem_of s) m1 ->
  tables (with_km (Kalloc.with_ram m1 (km s)) s) pg (f :: o) l /\
  tabs m1 pg = tabs (mem_of s) pg /\
  forall w, 0 <= w < 1048576 -> pte_addr m1 pg w = pte_addr (mem_of s) pg w /\
                                mapping m1 pg w = mapping (mem_of s) pg w.
Proof.
  intros Ht Ho. pose proof (tables_all _ _ _ _ Ht) as H. rewrite Forall_forall in H.
  assert (Hag : agree (pg :: tabs (mem_of s) pg ++ l) (mem_of s) m1).
  { eapply only_agree; [exact Ho| | |].
    - apply Forall_singleton, H. clear; set_solver.
    - apply Forall_forall. intros x Hx. apply H. clear - Hx. set_solver.
    - intros q ->%list_elem_of_singleton. destruct Ht as [_ Hn _].
      assert (Hpm : pg :: tabs (mem_of s) pg ++ (f :: o) ++ l ≡ₚ
        f :: o ++ pg :: tabs (mem_of s) pg ++ l) by (clear; perm_solve).
      rewrite Hpm in Hn. apply NoDup_cons in Hn as [Hn _]. clear - Hn. set_solver. }
  destruct (view_agree (mem_of s) m1 pg) as [Etabs Hview].
  { eapply agree_sub; [|exact Hag]. clear; set_solver. }
  split; [|split; [done|exact Hview]].
  destruct Ht as [Hf1 Hn1 Hp1]. split; cbn [mem_of km Kalloc.ram Kalloc.with_ram with_km].
  - apply free_ok_agree; [done|]. eapply agree_sub; [|exact Hag]. clear; set_solver.
  - by rewrite Etabs.
  - by rewrite Etabs.
Qed.

(** Filling the page in hand, which is mapped nowhere yet, keeps the directory and what it maps. *)
Lemma fill_page s pg rest l f m1 :
  tables s pg (f :: frames (mem_of s) pg ++ rest) l -> only [f] (mem_of s) m1 ->
  let s' := with_km (Kalloc.with_ram m1 (km s)) s in
  tables s' pg (f :: frames (mem_of s') pg ++ rest) l /\
  tabs (mem_of s') pg = tabs (mem_of s) pg /\ frames (mem_of s') pg = frames (mem_of s) pg /\
  forall w, 0 <= w < 1048576 -> mapping (mem_of s') pg w = mapping (mem_of s) pg w.
Proof.
  intros Ht Ho s'. pose proof user_pages_eq as Eu.
  destruct (write_page _ _ _ _ _ _ Ht Ho) as (Ht' & Etab & Hview).
  change m1 with (mem_of s') in Etab, Hview. fold s' in Ht'.
  assert (Hmap : forall w, 0 <= w < 1048576 -> mapping (mem_of s') pg w = mapping (mem_of s) pg w)
    by (intros w Hw; by apply Hview).
  assert (Efr : frames (mem_of s') pg = frames (mem_of s) pg)
    by (apply frames_ext; intros w Hw; apply Hmap; lia).
  by rewrite Efr.
Qed.

(** [memset] clears the page in hand. *)
Lemma clear_page s pg rest f l : tables s pg (f :: frames (mem_of s) pg ++ rest) l ->
  exists s', memset f 0 PGSIZE s = Ret tt s' /\
    tables s' pg (f :: frames (mem_of s') pg ++ rest) l /\ only [f] (mem_of s) (mem_of s') /\
    tabs (mem_of s') pg = tabs (mem_of s) pg /\ frames (mem_of s') pg = frames (mem_of s) pg /\
    (forall w, 0 <= w < 1048576 -> mapping (mem_of s') pg w = mapping (mem_of s) pg w) /\
    forall x, f <= x < f + PGSIZE -> mem_of s' x = 0.
Proof.
  intros Ht. assert (Hf : page_ok f) by (pose proof (tables_all _ _ _ _ Ht) as H;
    rewrite Forall_forall in H; apply H; set_solver).
  pose proof (page_range _ Hf) as (Hf0 & Hf1 & _).
  assert (Ho : only [f] (mem_of s) (Str.memset (mem_of s) f 0 PGSIZE))
    by (apply memset_only; unfold KERNBASE in *; lia).
  destruct (fill_page _ _ _ _ _ _ Ht Ho) as (Ht2 & Etab & Efr & Hmap).
  eexists. split; [reflexivity|]. split_and!; try done.
  intros x Hx. change (Str.memset (mem_of s) f 0 PGSIZE x = 0).
  rewrite memset_get by (unfold PGSIZE, KERNBASE in *; lia).
  by rewrite (proj2 (Z.leb_le _ _)), (proj2 (Z.ltb_lt _ _)) by lia.
Qed.

(** User page [w] is a fresh page of zeroes. *)
Definition zero_page (m : mem) (pg : Z) (l : list Z) (w : Z) : Prop :=
  exists p, p ∈ l /\ mapping m pg w = Some (entry (V2P p) 6) /\
    forall x, p <= x < p + PGSIZE -> m x = 0.

Lemma alloc_step s pg rest l v : space s pg rest l -> 0 <= v < user_pages ->
  mapping (mem_of s) pg v = None ->
  forall newsz oldsz, v * 4096 < newsz ->
  (exists s' l', alloc_body kend pg oldsz newsz (v * 4096) s = Ret (inl ((v + 1) * 4096)) s' /\
     ugrown s pg rest l s' l' /\ l' ⊆ l /\ zero_page (mem_of s') pg l v /\
     forall w, 0 <= w < 1048576 -> w <> v -> mapping (mem_of s') pg w = mapping (mem_of s) pg w) \/
  (exists s1 s2 d, alloc_body kend pg oldsz newsz (v * 4096) s =
       (deallocuvm kend pg newsz oldsz ;;; ((if d =? 0 then ret tt else Vm.kfree kend d) ;;; ret (inr 0))) s2 /\
     km s2 = km s1 /\
     (forall w, 0 <= w < 1048576 -> mapping (mem_of s1) pg w = mapping (mem_of s) pg w) /\
     frames (mem_of s1) pg = frames (mem_of s) pg /\
     only (pg :: tabs (mem_of s) pg ++ l) (mem_of s) (mem_of s1) /\
     (d = 0 /\ space s1 pg rest [] /\ l = [] /\ tabs (mem_of s1) pg = tabs (mem_of s) pg \/
      d <> 0 /\ space s1 pg (d :: rest) [] /\ d :: tabs (mem_of s1) pg ≡ₚ tabs (mem_of s) pg ++ l)).
Proof.
  intros Hs Hv Hnone newsz oldsz Hlt. pose proof user_pages_eq as Eu. unfold alloc_body.
  rewrite (proj2 (Z.ltb_lt _ _)) by done. destruct l as [|f l].
  { right. destruct (kalloc_none _ _ _ Hs) as (s1 & Hr & Em & Ht1).
    rewrite (bind_eq _ _ _ _ _ Hr), Z.eqb_refl. eexists s1, _, 0.
    split; [unfold cprintf, modify, bind at 1; reflexivity|].
    split; [done|]. rewrite !Em. split_and!; try done. left. split_and!; try done.
    unfold space. by rewrite Em. }
  destruct (kalloc_some _ _ _ _ _ Hs) as (s1 & Hr & Em & Ht1).
  rewrite (bind_eq _ _ _ _ _ Hr).
  assert (Hpf : page_ok f) by (pose proof (tables_all _ _ _ _ Ht1) as H;
    rewrite Forall_forall in H; apply H; clear; set_solver).
  pose proof (page_range _ Hpf) as (Hf0 & _).
  assert (Hfz : f <> 0) by (unfold KERNBASE in *; lia).
  rewrite (proj2 (Z.eqb_neq _ _)) by done.
  rewrite <- Em in Ht1.
  destruct (clear_page _ _ _ _ _ Ht1) as (s2 & Ems & Ht2 & Ho1 & Htab2 & Hfr2 & Hview2 & Hclear).
  rewrite (bind_eq _ _ _ _ _ Ems). rewrite Em in Ho1, Htab2, Hfr2, Hview2.
  destruct (map_user s2 pg rest l v f (Z.lor PTE_W PTE_U) Ht2 Hv) as
    (r & s3 & l3 & Hr3 & Hg & Hcase); [by rewrite Hview2 by lia|done|].
  rewrite (bind_eq _ _ _ _ _ Hr3).
  assert (Hon : only (pg :: tabs (mem_of s) pg ++ f :: l) (mem_of s) (mem_of s3)).
  { eapply only_trans; [eapply only_sub; [|exact Ho1]; clear; set_solver|].
    eapply only_sub; [|exact (g_only _ _ _ _ _ _ Hg)]. rewrite Htab2. clear. set_solver. }
  pose proof (g_perm _ _ _ _ _ _ Hg) as Hpm. rewrite Htab2 in Hpm.
  destruct Hcase as [(-> & Hsp & Hfr & Hmap)|(-> & -> & Hfr & Hmap)].
  - left. exists s3, l3. cbn [Z.ltb Z.compare].
    assert (En : u32 (v * 4096 + PGSIZE) = (v + 1) * 4096)
      by (unfold PGSIZE; rewrite u32_small by lia; lia).
    rewrite En. split; [done|]. split; [split; try done|split; [|split]].
    + unfold owned. rewrite Hfr2 in Hfr. clear - Hfr Hpm. perm_solve.
    + intros x Hx. rewrite Hpm in Hx. clear - Hx. set_solver.
    + pose proof (g_sub _ _ _ _ _ _ Hg) as H. clear - H. set_solver.
    + exists f. split; [left|]. split; [by rewrite Hmap, decide_True by (done || lia)|].
      intros x Hx. rewrite <- (Hclear x Hx).
      eapply (tables_agree _ _ _ _ _ Ht2 (g_only _ _ _ _ _ _ Hg) f); [left|done].
    + intros w Hw Hne. by rewrite Hmap, decide_False, Hview2 by done.
  - right. cbn [Z.ltb Z.compare]. eexists s3, _, f.
    split; [unfold cprintf, modify, bind at 1; rewrite (proj2 (Z.eqb_neq _ _)) by done; reflexivity|].
    split; [done|]. split; [intros w Hw; by rewrite Hmap, Hview2|].
    split; [by rewrite Hfr, Hfr2|]. split; [done|]. right. split; [done|]. split.
    + eapply tables_perm; [|exact (g_tables _ _ _ _ _ _ Hg)].
      rewrite Hfr. by rewrite <- Permutation_middle.
    + rewrite app_nil_r in Hpm. by rewrite Hpm, Permutation_middle.
Qed.

(** Out of memory: the pages mapped so far, and the page in hand [ds], go back,
    and the space is as it was. *)
Lemma alloc_fail s0 pg rest l0 s l s1 s2 ds newsz oldsz :
  ugrown s0 pg rest l0 s l -> 0 <= oldsz -> oldsz <= newsz -> newsz <= KERNBASE ->
  (forall w, 0 <= w < 1048576 -> ~ page_up oldsz <= w < page_up newsz ->
     mapping (mem_of s) pg w = mapping (mem_of s0) pg w) ->
  (forall w, page_up oldsz <= w < page_up newsz -> mapping (mem_of s0) pg w = None) ->
  km s2 = km s1 ->
  (forall w, 0 <= w < 1048576 -> mapping (mem_of s1) pg w = mapping (mem_of s) pg w) ->
  frames (mem_of s1) pg = frames (mem_of s) pg ->
  only (pg :: tabs (mem_of s) pg ++ l) (mem_of s) (mem_of s1) ->
  space s1 pg (ds ++ rest) [] -> ds ++ tabs (mem_of s1) pg ≡ₚ tabs (mem_of s) pg ++ l ->
  exists z s3 l3, deallocuvm kend pg newsz oldsz s2 = Ret z s3 /\
    tables s3 pg (ds ++ frames (mem_of s0) pg ++ rest) l3 /\
    (forall w, 0 <= w < 1048576 -> mapping (mem_of s3) pg w = mapping (mem_of s0) pg w) /\
    frames (mem_of s3) pg = frames (mem_of s0) pg /\
    tabs (mem_of s3) pg ++ ds ++ l3 ≡ₚ tabs (mem_of s0) pg ++ l0 /\
    only (pg :: tabs (mem_of s0) pg ++ l0) (mem_of s0) (mem_of s3).
Proof.
  intros [Hsp0 Hpm0 Hsub0 Ho0] Hold Hle Hnew Hout Hnone Ekm Hmap1 Hfr1 Ho1 Hsp1 Hd.
  pose proof user_pages_eq as Eu.
  assert (Hsp2 : space s2 pg (ds ++ rest) []).
  { unfold space. rewrite Ekm. by apply (tables_km s1). }
  destruct (deallocuvm_ok s2 pg (ds ++ rest) [] newsz oldsz Hsp2) as (s3 & l3 & Hr3 & Hsh & Hmap3);
    [lia..|]. rewrite Ekm in Hmap3. destruct Hsh as [Hsp3 Et3 Hpm3 _ Ho3]. rewrite Ekm in *.
  assert (Hmap : forall w, 0 <= w < 1048576 -> mapping (mem_of s3) pg w = mapping (mem_of s0) pg w).
  { intros w Hw. rewrite Hmap3 by done. destruct (decide _) as [Hd'|Hd'].
    - by rewrite Hnone.
    - by rewrite Hmap1, Hout by (done || lia). }
  assert (Hfr : frames (mem_of s3) pg = frames (mem_of s0) pg)
    by (apply frames_ext; intros w Hw; apply Hmap; lia).
  assert (Hpm : tabs (mem_of s3) pg ++ ds ++ l3 ≡ₚ tabs (mem_of s0) pg ++ l0).
  { rewrite Hfr, Hfr1 in Hpm3. unfold owned in Hpm0. rewrite Et3. clear - Hpm0 Hpm3 Hd. perm_solve. }
  exists (Z.min oldsz newsz), s3, l3. split_and!; try done.
  - eapply tables_perm; [|exact Hsp3]. rewrite Hfr. apply Permutation_app_swap_app.
  - assert (Hin : forall x, x ∈ tabs (mem_of s3) pg ++ ds ++ l3 -> x ∈ tabs (mem_of s0) pg ++ l0).
    { intros x Hx. by rewrite Hpm in Hx. }
    rewrite Et3 in Hin.
    eapply only_trans; [exact Ho0|]. eapply only_trans; [eapply only_sub; [|exact Ho1]|
      eapply only_sub; [|exact Ho3]].
    + clear - Hsub0. set_solver.
    + clear - Hin. set_solver.
Qed.

Lemma free_page s pg o l p : tables s pg o l -> p ∈ l -> page_ok p.
Proof. intros [Hf _ _] Hp. pose proof (free_pages _ _ _ Hf) as H. rewrite Forall_forall in H. auto. Qed.

Lemma entry_frame m pg w p perm : page_ok p -> 0 <= perm < 4096 -> 0 <= w < user_pages ->
  mapping m pg w = Some (entry (V2P p) perm) -> p ∈ frames m pg.
Proof.
  intros Hp Hperm Hw E. destruct (page_P2V _ Hp) as (Ep & _ & Hal & Hbd).
  destruct (entry_ok (V2P p) perm Hal ltac:(lia) Hperm) as (_ & _ & _ & Ea).
  pose proof (frames_Some _ _ _ _ Hw E) as H. by rewrite Ea, Ep in H.
Qed.

Lemma zero_page_agree m m' pg w l l' : agree (frames m pg) m m' -> Forall page_ok l -> l ⊆ l' ->
  0 <= w < user_pages -> mapping m' pg w = mapping m pg w ->
  zero_page m pg l w -> zero_page m' pg l' w.
Proof.
  intros Hag Hl Hsub Hw Hmap (q & Hq & Hqm & Hqz). exists q. rewrite Forall_forall in Hl.
  split; [by apply Hsub|]. split; [by rewrite Hmap|]. intros x Hx.
  rewrite (Hag q x); [by apply Hqz| |done].
  eapply (entry_frame _ _ w q 6); [by apply Hl|lia|done..].
Qed.

(** After the pages are given back and the page in hand too, if there is one, nothing is lost. *)
Lemma alloc_undone s0 pg rest l0 ds s l : (length ds <= 1)%nat ->
  tables s pg (ds ++ frames (mem_of s0) pg ++ rest) l ->
  (forall w, 0 <= w < 1048576 -> mapping (mem_of s) pg w = mapping (mem_of s0) pg w) ->
  tabs (mem_of s) pg ++ ds ++ l ≡ₚ tabs (mem_of s0) pg ++ l0 ->
  only (pg :: tabs (mem_of s0) pg ++ l0) (mem_of s0) (mem_of s) ->
  exists s', match ds with [] => ret tt | d :: _ => Vm.kfree kend d end s = Ret tt s' /\
    ugrown s0 pg rest l0 s' (ds ++ l) /\
    forall w, 0 <= w < 1048576 -> mapping (mem_of s') pg w = mapping (mem_of s0) pg w.
Proof.
  intros Hlen Ht Hmap Hpm Ho. pose proof user_pages_eq as Eu.
  assert (E : exists s', match ds with [] => ret tt | d :: _ => Vm.kfree kend d end s = Ret tt s' /\
    tables s' pg (frames (mem_of s0) pg ++ rest) (ds ++ l) /\ only ds (mem_of s) (mem_of s') /\
    agree (pg :: tabs (mem_of s) pg ++ frames (mem_of s0) pg ++ rest) (mem_of s) (mem_of s')).
  { destruct ds as [|d [|]]; [exists s|destruct (kfree_run _ _ _ _ _ Ht) as (s' & H); by exists s'
      |cbn in Hlen; lia].
    by split_and!; [|exact Ht|apply only_refl|apply agree_refl]. }
  destruct E as (s' & Hr & Ht' & Ho' & Hag). exists s'. split; [done|].
  destruct (view_agree (mem_of s) (mem_of s') pg) as [Etab Hview].
  { eapply agree_sub; [|exact Hag]. clear; set_solver. }
  assert (Hmap' : forall w, 0 <= w < 1048576 -> mapping (mem_of s') pg w = mapping (mem_of s0) pg w)
    by (intros w Hw; rewrite <- Hmap by done; by apply Hview).
  assert (Hfr : frames (mem_of s') pg = frames (mem_of s0) pg)
    by (apply frames_ext; intros w Hw; apply Hmap'; lia).
  split; [split|done].
  - unfold space. by rewrite Hfr.
  - unfold owned. rewrite Hfr, Etab. clear - Hpm. perm_solve.
  - intros x. by rewrite Etab, Hpm.
  - eapply only_trans; [exact Ho|]. eapply only_sub; [|exact Ho'].
    intros x Hx. right. rewrite <- Hpm. clear - Hx. set_solver.
Qed.

Lemma alloc_loop s0 pg rest l0 oldsz newsz fuel : forall s l v,
  space s0 pg rest l0 -> l ⊆ l0 -> ugrown s0 pg rest l0 s l -> 0 <= oldsz -> oldsz <= newsz -> newsz <= KERNBASE ->
  page_up oldsz <= v <= page_up newsz -> page_up newsz - v <= Z.of_nat fuel ->
  (forall w, page_up oldsz <= w < page_up newsz -> mapping (mem_of s0) pg w = None) ->
  (forall w, 0 <= w < 1048576 -> ~ page_up oldsz <= w < v ->
     mapping (mem_of s) pg w = mapping (mem_of s0) pg w) ->
  (forall w, page_up oldsz <= w < v -> zero_page (mem_of s) pg l0 w) ->
  exists r s' l', loop (S fuel) (alloc_body kend pg oldsz newsz) (v * 4096) s = Ret r s' /\
    ugrown s0 pg rest l0 s' l' /\
    (r = newsz /\ (forall w, page_up oldsz <= w < page_up newsz -> zero_page (mem_of s') pg l0 w) /\
       (forall w, 0 <= w < 1048576 -> ~ page_up oldsz <= w < page_up newsz ->
          mapping (mem_of s') pg w = mapping (mem_of s0) pg w) \/
     r = 0 /\ forall w, 0 <= w < 1048576 -> mapping (mem_of s') pg w = mapping (mem_of s0) pg w).
Proof.
  pose proof user_pages_eq as Eu.
  induction fuel as [|fuel IH]; intros s l v Hsp0 Hl Hug Hold Hle Hnew Hv Hfuel Hnone Hout Hzero;
    (destruct (Z.lt_ge_cases v (page_up newsz)) as [Hlt|Hge];
     [|exists newsz, s, l; split;
       [cbn [loop]; unfold alloc_body, bind; apply Z.le_ngt in Hge; rewrite <- page_up_lt in Hge;
        destruct (Z.ltb_spec (v * 4096) newsz); [lia|done]|
        split; [done|left; assert (v = page_up newsz) as -> by lia; done]]]); [lia|].
  assert (Hu : 0 <= page_up newsz <= user_pages) by (apply page_up_user; lia).
  assert (Hu0 : 0 <= page_up oldsz) by (apply page_up_user; lia).
  pose proof Hlt as Hlt'. rewrite <- page_up_lt in Hlt'.
  assert (Hnv : mapping (mem_of s) pg v = None) by (rewrite Hout by lia; apply Hnone; lia).
  remember (S fuel) as fu. cbn [loop].
  destruct (alloc_step s pg rest l v (ug_space _ _ _ _ _ _ Hug) ltac:(lia) Hnv newsz oldsz Hlt') as
    [(s1 & l1 & Hr & Hug1 & Hl1 & Hz & Hmap)|
     (s1 & s2 & d & Hr & Ekm & Hmap1 & Hfr1 & Ho1 & Hcase)].
  - rewrite (bind_eq _ _ _ _ _ Hr). subst fu.
    pose proof (tables_agree _ _ _ _ _ (ug_space _ _ _ _ _ _ Hug) (ug_only _ _ _ _ _ _ Hug1)) as Hag.
    apply (agree_sub _ (frames (mem_of s) pg)) in Hag; [|clear; set_solver].
    assert (Hpl : Forall page_ok l0)
      by (apply Forall_forall; intros x Hx; by eapply free_page).
    destruct (IH s1 l1 (v + 1)) as (r & s' & l' & Hrun & Hug' & Hres); try (done || lia).
    + by transitivity l.
    + by eapply ugrown_trans.
    + intros w Hw Hn. rewrite Hmap by lia. apply Hout; lia.
    + intros w Hw. destruct (decide (w = v)) as [->|Hne].
      * destruct Hz as (p & Hp & Hz). exists p. split; [by apply Hl|done].
      * eapply (zero_page_agree (mem_of s)); [done|done|done|lia|by apply Hmap; lia|].
        apply Hzero. lia.
    + exists r, s', l'. done.
  - assert (Hds : exists ds, (if d =? 0 then ret tt else Vm.kfree kend d) =
        match ds with [] => ret tt | d :: _ => Vm.kfree kend d end /\ (length ds <= 1)%nat /\
      space s1 pg (ds ++ rest) [] /\ ds ++ tabs (mem_of s1) pg ≡ₚ tabs (mem_of s) pg ++ l).
    { destruct Hcase as [(-> & Hsp & -> & Et)|(Hd & Hsp & Et)].
      - exists []. split_and!; [done|cbn; lia|done|]. cbn. by rewrite Et, app_nil_r.
      - exists [d]. rewrite (proj2 (Z.eqb_neq _ _)) by done. split_and!; [done|cbn; lia|done|done]. }
    destruct Hds as (ds & Efree & Hlen & Hsp1 & Hd). rewrite Efree in Hr.
    destruct (alloc_fail s0 pg rest l0 s l s1 s2 ds newsz oldsz) as
      (z & s3 & l3 & Hr3 & Ht3 & Hmap3 & Hfr3 & Hpm3 & Ho3); try done.
    { intros w Hw Hn. apply Hout; [done|lia]. }
    destruct (alloc_undone s0 pg rest l0 ds s3 l3 Hlen) as (s4 & Hr4 & Hug4 & Hmap4); try done.
    exists 0, s4, (ds ++ l3). split; [|split; [done|right; done]].
    rewrite (bind_eq _ _ _ _ _ Hr3), (bind_eq _ _ _ _ _ Hr4) in Hr. by rewrite (bind_eq _ _ _ _ _ Hr).
Qed.

Lemma allocuvm_ok s pg rest l oldsz newsz : space s pg rest l -> 0 <= oldsz ->
  oldsz <= newsz -> newsz < KERNBASE ->
  (forall w, page_up oldsz <= w < page_up newsz -> mapping (mem_of s) pg w = None) ->
  exists r s' l', allocuvm kend pg oldsz newsz s = Ret r s' /\ ugrown s pg rest l s' l' /\
    (r = newsz /\ (forall w, page_up oldsz <= w < page_up newsz -> zero_page (mem_of s') pg l w) /\
       (forall w, 0 <= w < 1048576 -> ~ page_up oldsz <= w < page_up newsz ->
          mapping (mem_of s') pg w = mapping (mem_of s) pg w) \/
     r = 0 /\ forall w, 0 <= w < 1048576 -> mapping (mem_of s') pg w = mapping (mem_of s) pg w).
Proof.
  intros Hs Hold Hle Hnew Hnone. unfold allocuvm. rewrite Z.geb_leb.
  destruct (Z.leb_spec KERNBASE newsz); [lia|]. destruct (Z.ltb_spec newsz oldsz); [lia|].
  rewrite PGROUNDUP_page by lia. pose proof (page_up_mono _ _ Hle).
  pose proof (page_up_user oldsz ltac:(lia)).
  assert (Hfu : page_up newsz - page_up oldsz <= Z.of_nat (Z.to_nat (newsz / PGSIZE + 1)))
    by (apply page_up_fuel; lia).
  by eapply alloc_loop; try lia; try apply ugrown_refl.
Qed.

(** ** The kernel's mappings *)

(** No address space yet: [rest] are the pages in use. *)
Record pool (s : vm) (rest l : list Z) : Prop := {
  p_free : free_ok kend (km s) l;
  p_nodup : NoDup (rest ++ l);
  p_pages : Forall page_ok rest }.

(** An empty directory: page [p] of zeroes. *)
Lemma new_dir s rest p l : pool s rest (p :: l) ->
  exists s1 s', Vm.kalloc s = Ret p s1 /\ memset p 0 PGSIZE s1 = Ret tt s' /\ p <> 0 /\ tables s' p rest l /\ tabs (mem_of s') p = [] /\ only [p] (mem_of s) (mem_of s') /\
    (forall w, 0 <= w < 1048576 -> mapping (mem_of s') p w = None).
Proof.
  intros [Hf Hn Hp]. destruct (kalloc_ok kend kend_le _ _ Hf) as (k' & Hr & Hf' & Em & _).
  cbn [head tail default] in *. pose proof (free_pages _ _ _ Hf) as Hfp.
  apply Forall_cons in Hfp as [Hpp Hlp]. pose proof (page_range _ Hpp) as (Hp0 & _).
  set (m1 := Str.memset (ram k') p 0 PGSIZE).
  assert (Ho : only [p] (ram k') m1) by (apply memset_only; unfold KERNBASE in *; lia).
  assert (Htab : forall i, 0 <= i < 1024 -> tab m1 p i = None).
  { intros i Hi. unfold tab, m1. by rewrite memset_zero by (unfold PGSIZE, KERNBASE in *; lia). }
  assert (Etabs : tabs m1 p = []).
  { rewrite tabs_eq. apply omap_none. intros i Hi%elem_of_seqZ. apply Htab. lia. }
  assert (Hperm : rest ++ p :: l ≡ₚ p :: rest ++ l) by (symmetry; apply Permutation_middle).
  rewrite Hperm in Hn.
  exists (with_km k' s), (with_km (Kalloc.with_ram m1 k') s). split_and!.
  - unfold Vm.kalloc, zoom. by rewrite Hr.
  - done.
  - unfold KERNBASE in *. lia.
  - split; cbn [mem_of km with_km Kalloc.ram Kalloc.with_ram]; rewrite ?Etabs.
    + apply free_ok_agree; [done|]. eapply only_agree; [exact Ho|by apply Forall_singleton|done|].
      intros q ->%list_elem_of_singleton Hin. apply NoDup_cons in Hn as [Hn _].
      apply Hn. clear - Hin. set_solver.
    + done.
    + by constructor.
  - done.
  - cbn. by rewrite <- Em.
  - intros w Hw. unfold mapping, pte_addr. cbn [mem_of km with_km Kalloc.ram Kalloc.with_ram].
    by rewrite Htab by (by apply idx_range).
Qed.

(** The entry of page [w] in every page table, above the user's half. *)
Definition kernel_pte (data w : Z) : option Z :=
  let a := w * 4096 in
  if decide (KERNBASE <= a < KERNLINK) then Some (entry (a - KERNBASE) PTE_W)
  else if decide (KERNLINK <= a < data) then Some (entry (a - KERNBASE) 0)
  else if decide (data <= a < KERNBASE + PHYSTOP) then Some (entry (a - KERNBASE) PTE_W)
  else if decide (DEVSPACE <= a) then Some (entry a PTE_W) else None.

Lemma map_kernel_step s pg o l k ks v0 n :
  tables s pg o l -> virt k = v0 * 4096 -> u32 (phys_end k - phys_start k) = n * 4096 ->
  user_pages <= v0 -> 0 < n -> v0 + n <= 1048576 -> phys_start k mod 4096 = 0 ->
  0 <= phys_start k -> phys_start k + n * 4096 <= 4294967296 -> 0 <= perm k < 4096 ->
  (forall w, v0 <= w < v0 + n -> mapping (mem_of s) pg w = None) ->
  exists s' l', grown s pg o l s' l' /\
    (map_kernel kend pg (k :: ks) s = (freevm kend pg ;;; ret 0) s' /\
       (forall w, 0 <= w < user_pages -> mapping (mem_of s') pg w = mapping (mem_of s) pg w) \/
     map_kernel kend pg (k :: ks) s = map_kernel kend pg ks s' /\
       (forall w, 0 <= w < 1048576 -> mapping (mem_of s') pg w =
          if decide (v0 <= w < v0 + n) then Some (entry (phys_start k + (w - v0) * 4096) (perm k))
          else mapping (mem_of s) pg w)).
Proof.
  intros Ht Ev En Hu Hn Hv Hal Hps Hpn Hperm Hnone. rewrite user_pages_eq in *.
  destruct (mappages_ok s pg o l v0 n (phys_start k) (perm k) Ht)
    as (r & s' & l' & e & Hr & Hg & Hk & Hmap); try (done || lia).
  exists s', l'. split; [done|]. cbn [map_kernel]. rewrite Ev, En, (bind_eq _ _ _ _ _ Hr).
  destruct Hk as [[-> ->]|(-> & -> & Hk)]; [right|left]; split; try done.
  intros w Hw. rewrite Hmap by lia. by rewrite decide_False by lia.
Qed.

Lemma kernel_fail s pg rest l : tables s pg rest l ->
  (forall w, 0 <= w < user_pages -> mapping (mem_of s) pg w = None) ->
  exists s' l', (freevm kend pg ;;; ret 0) s = Ret 0 s' /\ pool s' rest l' /\
    l' ≡ₚ pg :: tabs (mem_of s) pg ++ l /\
    only (pg :: tabs (mem_of s) pg ++ l) (mem_of s) (mem_of s').
Proof.
  intros Ht Hnone.
  assert (Efr : frames (mem_of s) pg = []).
  { rewrite frames_eq. apply omap_none. intros v Hv%elem_of_seqZ. unfold frame_of.
    by rewrite Hnone by lia. }
  destruct (freevm_ok s pg rest l) as (s' & l' & Hr & Hf & Hpm & Ho); [by unfold space; rewrite Efr|].
  unfold owned in *. rewrite Efr, app_nil_r in *. exists s', l'.
  rewrite (bind_eq _ _ _ _ _ Hr). split_and!; try done.
  destruct Ht as [_ Hn Hp]. split; [done| |].
  - rewrite Hpm. eapply NoDup_Permutation_proper; [|exact Hn]. clear. perm_solve.
  - apply Forall_cons in Hp as [_ Hp]. by apply Forall_app in Hp as [_ ?].
Qed.

(** An entry of [kmap] covers whole pages of the kernel's half. *)
Definition k_lo (k : kmap_entry) : Z := virt k / 4096.
Definition k_len (k : kmap_entry) : Z := u32 (phys_end k - phys_start k) / 4096.
Definition k_in (k : kmap_entry) (w : Z) : Prop := k_lo k <= w < k_lo k + k_len k.
Record kentry_ok (k : kmap_entry) : Prop := {
  k_virt : virt k = k_lo k * 4096;
  k_size : u32 (phys_end k - phys_start k) = k_len k * 4096;
  k_high : user_pages <= k_lo k /\ 0 < k_len k /\ k_lo k + k_len k <= 1048576;
  k_phys : phys_start k mod 4096 = 0 /\ 0 <= phys_start k /\
           phys_start k + k_len k * 4096 <= 4294967296;
  k_perm : 0 <= perm k < 4096 }.

(** What the entries of the table say of page [w]. *)
Fixpoint kmap_at (ks : list kmap_entry) (w : Z) : option Z :=
  match ks with
  | [] => None
  | k :: ks' =>
      if decide (k_lo k <= w < k_lo k + k_len k)
      then Some (entry (phys_start k + (w - k_lo k) * 4096) (perm k)) else kmap_at ks' w
  end.

Lemma kmap_at_in ks w : (forall k, k ∈ ks -> ~ k_in k w) -> kmap_at ks w = None.
Proof.
  induction ks as [|k ks IH]; intros H; [done|]. cbn. rewrite decide_False; [|apply H; left].
  apply IH. intros k' Hk. apply H. by right.
Qed.

Lemma map_kernel_all pg o ks : forall s l, tables s pg o l -> Forall kentry_ok ks ->
  ForallOrdPairs (fun k k' => forall w, k_in k w -> k_in k' w -> False) ks ->
  (forall k w, k ∈ ks -> k_in k w -> mapping (mem_of s) pg w = None) ->
  exists s' l', grown s pg o l s' l' /\
    (map_kernel kend pg ks s = (freevm kend pg ;;; ret 0) s' /\
       (forall w, 0 <= w < user_pages -> mapping (mem_of s') pg w = mapping (mem_of s) pg w) \/
     map_kernel kend pg ks s = Ret pg s' /\
       (forall w, 0 <= w < 1048576 -> mapping (mem_of s') pg w =
          match kmap_at ks w with Some e => Some e | None => mapping (mem_of s) pg w end)).
Proof.
  pose proof user_pages_eq as Eu.
  induction ks as [|k ks IH]; intros s l Ht Hok Hdis Hnone.
  { exists s, l. split; [by apply grown_refl|]. right. done. }
  apply Forall_cons in Hok as [[Kv Ks (K1 & K2 & K3) (K4 & K5 & K6) K7] Hok].
  assert (Hdis' : Forall (fun k' => forall w, k_in k w -> k_in k' w -> False) ks /\
    ForallOrdPairs (fun k k' => forall w, k_in k w -> k_in k' w -> False) ks) by (by inversion Hdis).
  destruct Hdis' as [Hd Hdis']. rewrite Forall_forall in Hd.
  destruct (map_kernel_step s pg o l k ks (k_lo k) (k_len k) Ht) as (s1 & l1 & Hg & Hcase);
    try (done || lia).
  { intros w Hw. apply (Hnone k); [left|exact Hw]. }
  destruct Hcase as [[Hr Hu]|[Hr Hmap]]; [exists s1, l1; split; [done|by left]|].
  destruct (IH s1 l1 (g_tables _ _ _ _ _ _ Hg) Hok Hdis') as (s2 & l2 & Hg2 & Hcase).
  { intros k' w Hk' Hw. assert (0 <= w < 1048576).
    { rewrite Forall_forall in Hok. destruct (Hok _ Hk') as [_ _ Hh _ _].
      unfold k_in in Hw. lia. }
    rewrite Hmap by done. rewrite decide_False; [apply (Hnone k'); [by right|done]|].
    intros Hin. by apply (Hd k' Hk' w). }
  exists s2, l2. split; [by eapply grown_trans|]. rewrite Hr.
  destruct Hcase as [[Hr2 Hu]|[Hr2 Hmap2]]; [left|right]; (split; [done|]); intros w Hw.
  - rewrite Hu, Hmap by lia. by rewrite decide_False by lia.
  - rewrite Hmap2, Hmap by done. cbn [kmap_at]. destruct (decide _) as [Hin|]; [|done].
    rewrite (kmap_at_in ks w); [done|]. intros k' Hk'. intros Hw'. by apply (Hd k' Hk' w).
Qed.

Lemma kmap_ok data : data mod 4096 = 0 -> KERNLINK < data < KERNBASE + PHYSTOP ->
  Forall kentry_ok (kmap data) /\
  ForallOrdPairs (fun k k' => forall w, k_in k w -> k_in k' w -> False) (kmap data) /\
  forall w, 0 <= w < 1048576 -> kmap_at (kmap data) w = kernel_pte data w.
Proof.
  intros Hal Hdata. apply Z.mod_divide in Hal as [d ->]; [|lia].
  unfold KERNLINK, EXTMEM, KERNBASE, PHYSTOP in Hdata. cbn in Hdata.
  assert (Ev : V2P (d * 4096) = (d - 524288) * 4096) by (unfold V2P, KERNBASE; rewrite u32_small; lia).
  set (k1 := {| virt := KERNBASE; phys_start := 0; phys_end := EXTMEM; perm := PTE_W |}).
  set (k2 := {| virt := KERNLINK; phys_start := V2P KERNLINK; phys_end := V2P (d * 4096); perm := 0 |}).
  set (k3 := {| virt := d * 4096; phys_start := V2P (d * 4096); phys_end := PHYSTOP; perm := PTE_W |}).
  set (k4 := {| virt := DEVSPACE; phys_start := DEVSPACE; phys_end := 0; perm := PTE_W |}).
  assert (E1 : k_lo k1 = 524288 /\ k_len k1 = 256) by done.
  assert (E2 : k_lo k2 = 524544 /\ k_len k2 = d - 524544).
  { split; [done|]. unfold k_len. cbn [phys_end phys_start k2]. rewrite Ev.
    change (V2P KERNLINK) with 1048576. rewrite u32_small by lia.
    replace ((d - 524288) * 4096 - 1048576) with ((d - 524544) * 4096) by lia. by rewrite Z.div_mul. }
  assert (E3 : k_lo k3 = d /\ k_len k3 = 581632 - d).
  { split; [unfold k_lo; cbn; by rewrite Z.div_mul|]. unfold k_len. cbn [phys_end phys_start k3].
    rewrite Ev. unfold PHYSTOP. rewrite u32_small by lia.
    replace (234881024 - (d - 524288) * 4096) with ((581632 - d) * 4096) by lia. by rewrite Z.div_mul. }
  assert (E4 : k_lo k4 = 1040384 /\ k_len k4 = 8192) by done.
  change (kmap (d * 4096)) with [k1; k2; k3; k4].
  destruct E1 as [L1 N1], E2 as [L2 N2], E3 as [L3 N3], E4 as [L4 N4].
  split_and!.
  - rewrite !Forall_cons. split_and!; [..|by apply Forall_nil]; split; unfold PTE_W;
      rewrite ?L1, ?N1, ?L2, ?N2, ?L3, ?N3, ?L4, ?N4, ?user_pages_eq; cbn [virt phys_start phys_end perm k1 k2 k3 k4];
      rewrite ?Ev; unfold KERNLINK, KERNBASE, EXTMEM, DEVSPACE, PHYSTOP; try done; try lia.
    all: try (change (V2P (2147483648 + 1048576)) with 1048576).
    all: try (rewrite u32_small; lia). all: split_and!; try done; try lia.
    all: apply Z_mod_mult.
  - repeat constructor; unfold k_in; rewrite ?L1, ?N1, ?L2, ?N2, ?L3, ?N3, ?L4, ?N4; intros w; lia.
  - intros w Hw. cbn [kmap_at]. rewrite L1, N1, L2, N2, L3, N3, L4, N4. unfold kernel_pte, KERNLINK,
      EXTMEM, KERNBASE, PHYSTOP, DEVSPACE, PTE_W. cbn [virt phys_start phys_end perm k1 k2 k3 k4].
    rewrite Ev. change (V2P KERNLINK) with 1048576. unfold DEVSPACE.
    repeat case_decide; try lia; try done; do 2 f_equal; lia.
Qed.

Lemma setupkvm_ok data s rest l : pool s rest l -> data mod 4096 = 0 ->
  KERNLINK < data < KERNBASE + PHYSTOP ->
  exists r s' l', setupkvm kend data s = Ret r s' /\ only l (mem_of s) (mem_of s') /\
    (r = 0 /\ pool s' rest l' /\ l' ≡ₚ l \/
     r <> 0 /\ space s' r rest l' /\ owned (mem_of s') r ++ l' ≡ₚ l /\
       frames (mem_of s') r = [] /\
       forall w, 0 <= w < 1048576 -> mapping (mem_of s') r w = kernel_pte data w).
Proof.
  intros Hpool Hal Hdata. pose proof user_pages_eq as Eu. unfold setupkvm.
  destruct l as [|p l].
  { destruct Hpool as [Hf Hn Hp]. destruct (kalloc_ok kend kend_le _ _ Hf) as (k' & Hr & Hf' & Em & _).
    exists 0, (with_km k' s), []. assert (E : Vm.kalloc s = Ret 0 (with_km k' s))
      by (unfold Vm.kalloc, zoom; by rewrite Hr).
    rewrite (bind_eq _ _ _ _ _ E). split; [done|]. split; [cbn; by rewrite Em|]. left. done. }
  destruct (new_dir _ _ _ _ Hpool) as (s1 & s2 & Hr1 & Hr2 & Hp0 & Ht & Etabs & Ho & Hmap).
  rewrite (bind_eq _ _ _ _ _ Hr1), (proj2 (Z.eqb_neq _ _)), (bind_eq _ _ _ _ _ Hr2) by done.
  change (P2V PHYSTOP >? DEVSPACE) with false. cbn match.
  destruct (kmap_ok data Hal Hdata) as (Hkok & Hkdis & Hkat).
  destruct (map_kernel_all p rest (kmap data) s2 l Ht Hkok Hkdis) as (s3 & l3 & Hg & Hcase).
  { intros k w Hk Hw. apply Hmap. rewrite Forall_forall in Hkok. destruct (Hkok _ Hk) as [_ _ Hh _ _].
    unfold k_in in Hw. lia. }
  destruct Hg as [Ht3 Hpm3 _ Ho3]. rewrite Etabs in *. cbn [app] in *.
  assert (Hon : only (p :: l) (mem_of s) (mem_of s3)).
  { eapply only_trans; [eapply only_sub; [|exact Ho]; clear; set_solver|exact Ho3]. }
  destruct Hcase as [[Hr3 Hu]|[Hr3 Hmap3]]; rewrite Hr3.
  - destruct (kernel_fail _ _ _ _ Ht3) as (s4 & l4 & Hr4 & Hpool4 & Hpm4 & Ho4).
    { intros w Hw. rewrite Hu by done. apply Hmap. lia. }
    rewrite Hpm3 in Hpm4. exists 0, s4, l4. split; [done|]. split; [|left; done].
    eapply only_trans; [exact Hon|]. eapply only_sub; [|exact Ho4].
    intros x Hx. by rewrite Hpm3 in Hx.
  - assert (Hk : forall w, 0 <= w < 1048576 -> mapping (mem_of s3) p w = kernel_pte data w).
    { intros w Hw. rewrite Hmap3, Hmap, Hkat by done. by destruct (kernel_pte data w). }
    assert (Efr : frames (mem_of s3) p = []).
    { rewrite frames_eq. apply omap_none. intros v Hv%elem_of_seqZ. unfold frame_of.
      rewrite Hk by lia. unfold kernel_pte, KERNLINK, KERNBASE, EXTMEM, PHYSTOP, DEVSPACE in *.
      repeat rewrite decide_False by lia. done. }
    exists p, s3, l3. split; [done|]. split; [done|]. right. unfold space, owned. rewrite Efr.
    cbn [app]. rewrite app_nil_r. split_and!; try done. cbn. by rewrite Hpm3.
Qed.

(** ** Copying an address space *)

Lemma pool_agree s rest l m' : pool s rest l -> only l (mem_of s) m' -> agree rest (mem_of s) m'.
Proof.
  intros [Hf Hn Hp] Ho. eapply only_agree; [exact Ho|by apply (free_pages _ _ _ Hf)|done|].
  intros x Hl Hr. apply NoDup_app in Hn as (_ & Hn & _). by apply (Hn x).
Qed.

(** The copy of a page, byte by byte; nothing else is written. *)
Lemma memmove_page m f p : page_ok f -> page_ok p ->
  (forall x, Str.memmove m f p PGSIZE x =
     if (f <=? x) && (x <? f + PGSIZE) then m (p + (x - f)) else m x) /\
  only [f] m (Str.memmove m f p PGSIZE).
Proof.
  intros Hf Hp. pose proof (page_range _ Hf). pose proof (page_range _ Hp) as (H1 & H2 & _).
  assert (E : forall x, Str.memmove m f p PGSIZE x =
     if (f <=? x) && (x <? f + PGSIZE) then m (p + (x - f)) else m x)
    by (intros x; apply memmove_get; unfold PGSIZE, KERNBASE, PHYSTOP in *; lia).
  split; [done|]. intros x Hx. rewrite E. destruct (Hx f) as [H'|H']; [by left|..].
  - by rewrite (proj2 (Z.leb_gt _ _)) by lia.
  - by rewrite (proj2 (Z.ltb_ge _ _)), andb_false_r by lia.
Qed.

(** Child page [w] is a private copy of the parent's. *)
Definition copied (m0 : mem) (pg : Z) (m : mem) (d : Z) (l : list Z) (w : Z) : Prop :=
  exists e f, mapping m0 pg w = Some e /\ f ∈ l /\
    mapping m d w = Some (entry (V2P f) (PTE_FLAGS e)) /\
    forall k, 0 <= k < PGSIZE -> m (f + k) = m0 (P2V (PTE_ADDR e) + k).

Record copying (s0 : vm) (pg : Z) (R l0 : list Z) (data : Z) (v : Z) (s : vm) (d : Z) (l : list Z) : Prop := {
  c_space : space s d R l;
  c_perm : owned (mem_of s) d ++ l ≡ₚ l0;
  c_only : only l0 (mem_of s0) (mem_of s);
  c_done : forall w, 0 <= w < v -> copied (mem_of s0) pg (mem_of s) d l0 w;
  c_todo : forall w, v <= w < 1048576 -> mapping (mem_of s) d w = kernel_pte data w }.

Lemma kernel_pte_user data w : KERNLINK < data -> w < user_pages -> kernel_pte data w = None.
Proof.
  rewrite user_pages_eq. unfold kernel_pte, KERNLINK, KERNBASE, EXTMEM, PHYSTOP, DEVSPACE.
  intros. by repeat rewrite decide_False by lia.
Qed.

(** The page in hand is not one the directory maps already. *)
Lemma hand_fresh s d rest f l : tables s d (f :: frames (mem_of s) d ++ rest) l ->
  f ∉ frames (mem_of s) d.
Proof.
  intros [_ Hn _] Hin.
  assert (Hp : d :: tabs (mem_of s) d ++ (f :: frames (mem_of s) d ++ rest) ++ l ≡ₚ
    f :: frames (mem_of s) d ++ d :: tabs (mem_of s) d ++ rest ++ l) by (clear; perm_solve).
  rewrite Hp in Hn. apply NoDup_cons in Hn as [Hn _]. apply Hn. clear - Hin. set_solver.
Qed.

(** The entry the child copies is the one its parent had when the copy began. *)
Lemma copy_entry s0 pg rest l0 s v e :
  pool s0 (owned (mem_of s0) pg ++ rest) l0 -> space s0 pg rest l0 -> only l0 (mem_of s0) (mem_of s) ->
  0 <= v < user_pages -> mapping (mem_of s0) pg v = Some e ->
  P2V (PTE_ADDR e) ∈ owned (mem_of s0) pg /\
  exists a, pte_addr (mem_of s) pg v = Some a /\ a <> 0 /\ rd a s = Ret e s /\ has e PTE_P = true.
Proof.
  intros Hpool Hs0 Ho Hv He. pose proof user_pages_eq as Eu.
  pose proof (pool_agree _ _ _ _ Hpool Ho) as HagR.
  destruct (view_agree (mem_of s0) (mem_of s) pg) as [_ Hview].
  { eapply agree_sub; [|exact HagR]. unfold owned. clear; set_solver. }
  split; [pose proof (frames_Some _ _ _ _ Hv He); unfold owned; clear - H; set_solver|].
  destruct (Hview v ltac:(lia)) as [Epa Emap]. rewrite He in Emap. unfold mapping in Emap.
  destruct (pte_addr (mem_of s) pg v) as [a|] eqn:Ea; [|done]. cbn in Emap.
  destruct (has (ld32 (mem_of s) a) PTE_P) eqn:Eh; [|done]. injection Emap as Eld.
  destruct (pte_addr_in s0 pg _ _ v a Hs0 ltac:(lia) (eq_sym Epa)) as (_ & _ & _ & _ & _ & _ & Ha0).
  exists a. rewrite Eld in Eh. split_and!; [done|done| |done]. unfold rd, gets. by rewrite Eld.
Qed.

(** [memmove] fills the page [f] that was taken, and changes no table. *)
Lemma copy_page s d rest f l src :
  tables s d (f :: frames (mem_of s) d ++ rest) l -> page_ok src ->
  exists s', memmove f src PGSIZE s = Ret tt s' /\
    tables s' d (f :: frames (mem_of s') d ++ rest) l /\ only [f] (mem_of s) (mem_of s') /\
    tabs (mem_of s') d = tabs (mem_of s) d /\ frames (mem_of s') d = frames (mem_of s) d /\
    (forall w, 0 <= w < 1048576 -> mapping (mem_of s') d w = mapping (mem_of s) d w) /\
    forall k, 0 <= k < PGSIZE -> mem_of s' (f + k) = mem_of s (src + k).
Proof.
  intros Ht Hsrc.
  assert (Hpf : page_ok f) by (pose proof (tables_all _ _ _ _ Ht) as H;
    rewrite Forall_forall in H; apply H; set_solver).
  destruct (memmove_page (mem_of s) f _ Hpf Hsrc) as [Hm Ho].
  destruct (fill_page _ _ _ _ _ _ Ht Ho) as (Ht2 & Etab & Efr & Hmap).
  eexists. split; [reflexivity|]. split_and!; try done.
  intros k Hk. change (Str.memmove (mem_of s) f src PGSIZE (f + k) = mem_of s (src + k)).
  rewrite Hm, (proj2 (Z.leb_le _ _)), (proj2 (Z.ltb_lt _ _)) by lia. cbn [andb]. f_equal. lia.
Qed.

(** One more page is copied when the new page is mapped and the older copies keep their bytes. *)
Lemma copy_advance s0 pg R l0 data v s d f l e s' l' :
  0 <= v < user_pages -> Forall page_ok l0 -> copying s0 pg R l0 data v s d (f :: l) ->
  mapping (mem_of s0) pg v = Some e -> space s' d R l' -> owned (mem_of s') d ++ l' ≡ₚ l0 ->
  only l0 (mem_of s0) (mem_of s') ->
  (forall w, 0 <= w < 1048576 -> mapping (mem_of s') d w =
     if decide (w = v) then Some (entry (V2P f) (PTE_FLAGS e)) else mapping (mem_of s) d w) ->
  (forall k, 0 <= k < PGSIZE -> mem_of s' (f + k) = mem_of s0 (P2V (PTE_ADDR e) + k)) ->
  (forall f' k, page_ok f' -> f' ∈ frames (mem_of s) d -> 0 <= k < PGSIZE ->
     mem_of s' (f' + k) = mem_of s (f' + k)) ->
  copying s0 pg R l0 data (v + 1) s' d l'.
Proof.
  intros Hv Hl0 [_ Hpm _ Hdone Htodo] He Hsp' Hpm' Ho' Hmap Hnew Hold. pose proof user_pages_eq as Eu.
  split; [done..| |].
  - intros w Hw. destruct (decide (w = v)) as [->|Hne].
    + exists e, f. split_and!; [done| |by rewrite Hmap, decide_True by (done || lia)|done].
      rewrite <- Hpm. clear; set_solver.
    + destruct (Hdone w ltac:(lia)) as (e' & f' & He' & Hf' & Hm' & Hb').
      exists e', f'. split_and!; [done|done|by rewrite Hmap, decide_False by (done || lia)|].
      rewrite Forall_forall in Hl0. specialize (Hl0 _ Hf').
      intros k Hk. rewrite <- Hb' by done. apply Hold; [done| |done].
      eapply (entry_frame _ _ w f' (PTE_FLAGS e')); [done| |lia|done].
      rewrite PTE_FLAGS_eq. apply Z.mod_pos_bound. lia.
  - intros w Hw. rewrite Hmap, decide_False by lia. apply Htodo. lia.
Qed.

Lemma copy_step s0 pg rest l0 data v s d l sz e :
  pool s0 (owned (mem_of s0) pg ++ rest) l0 -> space s0 pg rest l0 -> KERNLINK < data ->
  copying s0 pg (owned (mem_of s0) pg ++ rest) l0 data v s d l -> 0 <= v < user_pages ->
  v * 4096 < sz -> mapping (mem_of s0) pg v = Some e ->
  (exists s' l', copyuvm_body pg d sz (v * 4096) s = Ret (inl ((v + 1) * 4096)) s' /\
     copying s0 pg (owned (mem_of s0) pg ++ rest) l0 data (v + 1) s' d l') \/
  (exists s' lost, copyuvm_body pg d sz (v * 4096) s = Ret (inr false) s' /\ (length lost <= 1)%nat /\
     space s' d (lost ++ owned (mem_of s0) pg ++ rest) [] /\
     owned (mem_of s') d ++ lost ≡ₚ l0 /\ only l0 (mem_of s0) (mem_of s')).
Proof.
  intros Hpool Hs0 Hdata Hc Hv Hlt He. pose proof user_pages_eq as Eu. pose proof Hc as [Hsp Hpm Ho _ Htodo].
  destruct (copy_entry _ _ _ _ s _ _ Hpool Hs0 Ho Hv He) as (Hin & a & Ea & Ha0 & Erd & Eh).
  set (R := owned (mem_of s0) pg ++ rest) in *. pose proof (pool_agree _ _ _ _ Hpool Ho) as HagR.
  assert (Hin' : P2V (PTE_ADDR e) ∈ R) by (unfold R; clear - Hin; set_solver).
  assert (Hpe : page_ok (P2V (PTE_ADDR e)))
    by (destruct Hpool as [_ _ H]; rewrite Forall_forall in H; by apply H).
  assert (Hl0 : forall x, x ∈ d :: tabs (mem_of s) d ++ l -> x ∈ l0).
  { intros x Hx. rewrite <- Hpm. unfold owned. clear - Hx. set_solver. }
  unfold copyuvm_body. rewrite (proj2 (Z.ltb_lt _ _)) by done.
  rewrite (bind_eq _ _ _ _ _ (walk_lookup s pg (v * 4096) ltac:(lia))), Z.div_mul, Ea by lia.
  cbn [default]. rewrite (proj2 (Z.eqb_neq _ _)), (bind_eq _ _ _ _ _ Erd), Eh by done. cbn [negb].
  destruct l as [|f l].
  { right. destruct (kalloc_none _ _ _ Hsp) as (s1 & Hr & Em & Ht1).
    rewrite (bind_eq _ _ _ _ _ Hr), Z.eqb_refl. exists s1, []. split; [done|]. split; [cbn; lia|].
    rewrite Em. split_and!; [|done|done]. unfold space. by rewrite Em. }
  destruct (kalloc_some _ _ _ _ _ Hsp) as (s1 & Hr & Em & Ht1). rewrite (bind_eq _ _ _ _ _ Hr).
  assert (Hpf : page_ok f) by (eapply free_page; [exact Hsp|left]).
  pose proof (page_range _ Hpf) as (Hf0 & _).
  rewrite (proj2 (Z.eqb_neq f 0)) by (unfold KERNBASE in *; lia). rewrite <- Em in Ht1.
  destruct (copy_page _ _ _ _ _ _ Ht1 Hpe) as (s2 & Ems & Ht2 & Ho1 & Etab2 & Efr2 & Hmap2 & Hbytes).
  rewrite (bind_eq _ _ _ _ _ Ems). rewrite Em in Ho1, Etab2, Efr2, Hmap2, Hbytes.
  assert (Hfl : 0 <= PTE_FLAGS e < 4096) by (rewrite PTE_FLAGS_eq; apply Z.mod_pos_bound; lia).
  destruct (map_user s2 d R l v f (PTE_FLAGS e) Ht2 Hv) as (r & s3 & l3 & Hr3 & Hg & Hcase); [|done|].
  { rewrite Hmap2, Htodo by lia. apply kernel_pte_user; lia. }
  rewrite (bind_eq _ _ _ _ _ Hr3).
  pose proof (g_perm _ _ _ _ _ _ Hg) as Hpm3. rewrite Etab2 in Hpm3.
  assert (Ho3 : only l0 (mem_of s0) (mem_of s3)).
  { eapply only_trans; [exact Ho|].
    eapply only_trans; [eapply only_sub; [|exact Ho1]; intros x ->%list_elem_of_singleton; apply Hl0;
      clear; set_solver|].
    eapply only_sub; [|exact (g_only _ _ _ _ _ _ Hg)]. rewrite Etab2.
    intros x Hx. apply Hl0. clear - Hx. set_solver. }
  pose proof (tables_agree _ _ _ _ _ Ht2 (g_only _ _ _ _ _ _ Hg)) as Hag3.
  unfold owned in Hpm.
  destruct Hcase as [(-> & Hsp3 & Hfr & Hmap)|(-> & -> & Hfr & Hmap)].
  - left. exists s3, l3. cbn [Z.ltb Z.compare].
    replace (u32 (v * 4096 + PGSIZE)) with ((v + 1) * 4096)
      by (unfold PGSIZE; rewrite u32_small by lia; lia).
    split; [done|]. rewrite Efr2 in Hfr. eapply copy_advance; try done.
    + destruct Hpool as [H _ _]. by apply (free_pages _ _ _ H).
    + unfold owned. clear - Hpm Hpm3 Hfr. perm_solve.
    + intros w Hw. rewrite Hmap, Hmap2 by done. done.
    + intros k Hk. rewrite (Hag3 f (f + k)), Hbytes by (left || lia).
      apply (HagR (P2V (PTE_ADDR e))); [done|lia].
    + intros f' k Hpf' Hf' Hk.
      rewrite (Hag3 f' (f' + k)) by (lia || (rewrite Efr2; clear - Hf'; set_solver)).
      apply Ho1. intros q ->%list_elem_of_singleton.
      assert (Hne : f' <> f) by (intros ->; apply (hand_fresh _ _ _ _ _ Ht2); by rewrite Efr2).
      pose proof (page_disjoint _ _ _ Hpf' Hpf Hne). unfold PGSIZE in *. lia.
  - right. exists s3, [f]. cbn [Z.ltb Z.compare]. split; [done|]. split; [cbn; lia|].
    rewrite Efr2 in Hfr. split_and!; [| |done].
    + eapply space_perm; [exact (g_tables _ _ _ _ _ _ Hg)|]. rewrite Efr2, Hfr. clear. perm_solve.
    + unfold owned. rewrite Hfr. clear - Hpm Hpm3. perm_solve.
Qed.

Lemma copy_loop s0 pg rest l0 data sz d fuel :
  pool s0 (owned (mem_of s0) pg ++ rest) l0 -> space s0 pg rest l0 -> KERNLINK < data ->
  0 <= sz <= KERNBASE -> (forall w, 0 <= w < page_up sz -> is_Some (mapping (mem_of s0) pg w)) ->
  forall s l v, copying s0 pg (owned (mem_of s0) pg ++ rest) l0 data v s d l ->
  0 <= v <= page_up sz -> page_up sz - v <= Z.of_nat fuel ->
  (exists s' l', loop (S fuel) (copyuvm_body pg d sz) (v * 4096) s = Ret true s' /\
     copying s0 pg (owned (mem_of s0) pg ++ rest) l0 data (page_up sz) s' d l') \/
  (exists s' lost, loop (S fuel) (copyuvm_body pg d sz) (v * 4096) s = Ret false s' /\
     (length lost <= 1)%nat /\ space s' d (lost ++ owned (mem_of s0) pg ++ rest) [] /\
     owned (mem_of s') d ++ lost ≡ₚ l0 /\ only l0 (mem_of s0) (mem_of s')).
Proof.
  intros Hpool Hs0 Hdata Hsz Hall. pose proof (page_up_user _ Hsz) as Hu. pose proof user_pages_eq.
  induction fuel as [|fuel IH]; intros s l v Hc Hv Hfuel;
    (destruct (Z.lt_ge_cases v (page_up sz)) as [Hlt|Hge];
     [|left; exists s, l; split;
       [cbn [loop]; unfold copyuvm_body, bind; apply Z.le_ngt in Hge; rewrite <- page_up_lt in Hge;
        destruct (Z.ltb_spec (v * 4096) sz); [lia|done]|by assert (page_up sz = v) as -> by lia]]); [lia|].
  pose proof Hlt as Hlt'. rewrite <- page_up_lt in Hlt'. destruct (Hall v ltac:(lia)) as [e He].
  remember (S fuel) as fu. cbn [loop].
  destruct (copy_step s0 pg rest l0 data v s d l sz e Hpool Hs0 Hdata Hc ltac:(lia) Hlt' He) as
    [(s1 & l1 & Hr & Hc1)|(s1 & lost & Hr & Hlost)]; rewrite (bind_eq _ _ _ _ _ Hr).
  - apply (IH s1 l1 (v + 1)); (done || lia).
  - right. exists s1, lost. done.
Qed.

Lemma space_pool s pg rest l : space s pg rest l -> pool s (owned (mem_of s) pg ++ rest) l.
Proof.
  intros [Hf Hn Hp]. split; [done| |].
  - eapply NoDup_Permutation_proper; [|exact Hn]. unfold owned. clear. perm_solve.
  - unfold owned. rewrite !app_comm_cons, !app_assoc in *. by rewrite <- app_comm_cons in *.
Qed.

Lemma copyuvm_ok data s pg rest l sz : space s pg rest l -> data mod 4096 = 0 ->
  KERNLINK < data < KERNBASE + PHYSTOP -> 0 <= sz <= KERNBASE ->
  (forall w, 0 <= w < page_up sz -> is_Some (mapping (mem_of s) pg w)) ->
  exists r s' l', copyuvm kend data pg sz s = Ret r s' /\
    agree (owned (mem_of s) pg ++ rest) (mem_of s) (mem_of s') /\
    (r <> 0 /\ space s' r (owned (mem_of s) pg ++ rest) l' /\ owned (mem_of s') r ++ l' ≡ₚ l /\
       (forall w, 0 <= w < page_up sz -> copied (mem_of s) pg (mem_of s') r l w) /\
       (forall w, page_up sz <= w < 1048576 -> mapping (mem_of s') r w = kernel_pte data w) \/
     r = 0 /\ exists lost, pool s' (lost ++ owned (mem_of s) pg ++ rest) l' /\ lost ++ l' ≡ₚ l /\
       (length lost <= 1)%nat).
Proof.
  intros Hs Hal Hdata Hsz Hall. pose proof (space_pool _ _ _ _ Hs) as Hpool. unfold copyuvm.
  destruct (setupkvm_ok data s _ l Hpool Hal Hdata) as (d & s1 & l1 & Hr1 & Ho1 & Hcase).
  rewrite (bind_eq _ _ _ _ _ Hr1).
  destruct Hcase as [(-> & Hp1 & Hpm1)|(Hd0 & Hsp1 & Hpm1 & Hfr1 & Hmap1)].
  { rewrite Z.eqb_refl. exists 0, s1, l1. split; [done|]. split; [by eapply pool_agree|].
    right. split; [done|]. exists []. split_and!; [done|done|cbn; lia]. }
  rewrite (proj2 (Z.eqb_neq _ _)) by done.
  assert (Hc : copying s pg (owned (mem_of s) pg ++ rest) l data 0 s1 d l1).
  { split; try done. intros w Hw. lia. }
  destruct (page_up_user _ Hsz) as [Hu _].
  destruct (copy_loop s pg rest l data sz d _ Hpool Hs ltac:(lia) Hsz Hall s1 l1 0 Hc ltac:(lia)
    (page_up_fuel sz 0 ltac:(lia) ltac:(lia))) as
    [(s2 & l2 & Hr2 & [Hsp2 Hpm2 Ho2 Hdone Htodo])|(s2 & lost & Hr2 & Hlen & Hsp2 & Hpm2 & Ho2)];
    rewrite (bind_eq _ _ _ _ _ Hr2).
  - exists d, s2, l2. split; [done|]. split; [by eapply pool_agree|]. left. done.
  - destruct (freevm_ok s2 d _ [] Hsp2) as (s3 & l3 & Hr3 & Hf3 & Hpm3 & Ho3).
    rewrite app_nil_r in Hpm3. exists 0, s3, l3. rewrite (bind_eq _ _ _ _ _ Hr3). split; [done|].
    assert (Hin : forall x, x ∈ owned (mem_of s2) d ++ [] -> x ∈ l).
    { intros x Hx. rewrite <- Hpm2. clear - Hx. set_solver. }
    split.
    + eapply pool_agree; [done|]. eapply only_trans; [exact Ho2|]. eapply only_sub; [|exact Ho3].
      exact Hin.
    + right. split; [done|]. exists lost. split_and!; [|rewrite Hpm3, <- Hpm2; clear; perm_solve|done].
      destruct Hsp2 as [_ Hn Hp]. split; [done| |].
      * rewrite Hpm3. eapply NoDup_Permutation_proper; [|exact Hn]. unfold owned. clear. perm_solve.
      * rewrite !Forall_cons, !Forall_app in *. tauto.
Qed.

(** ** Reading and writing user memory from the kernel *)

(** The kernel address of a user byte that a user may touch. *)
Definition user_addr (m : mem) (pg va : Z) : option Z :=
  e ← mapping m pg (va / 4096);
  if has e PTE_U then Some (P2V (PTE_ADDR e) + va mod 4096) else None.

Lemma uva2ka_ok s pg o l va : tables s pg o l -> 0 <= va < 4294967296 -> va mod 4096 = 0 ->
  is_Some (mapping (mem_of s) pg (va / 4096)) ->
  uva2ka pg va s = Ret (default 0 (user_addr (mem_of s) pg va)) s.
Proof.
  intros Ht Hva Hal [e He]. unfold uva2ka.
  rewrite (bind_eq _ _ _ _ _ (walk_lookup s pg va Hva)).
  unfold user_addr. rewrite He. unfold mapping in He.
  destruct (pte_addr (mem_of s) pg (va / 4096)) as [a|] eqn:Ea; [|done]. cbn in He.
  destruct (pte_addr_in _ _ _ _ _ _ Ht (vpn_range _ Hva) Ea) as (_ & _ & _ & _ & _ & _ & Ha0).
  destruct (has (ld32 (mem_of s) a) PTE_P) eqn:Eh; [|done]. injection He as Eld.
  cbn [default mbind option_bind]. rewrite (proj2 (Z.eqb_neq _ _)) by done.
  assert (Erd : rd a s = Ret e s) by (unfold rd, gets; by rewrite Eld).
  rewrite (bind_eq _ _ _ _ _ Erd). rewrite Eld in Eh. rewrite Eh. cbn [negb].
  destruct (has e PTE_U); cbn [negb default]; [|done]. rewrite Hal, Z.add_0_r. done.
Qed.

Lemma user_addr_page s pg rest l u a : space s pg rest l -> 0 <= u < KERNBASE ->
  user_addr (mem_of s) pg u = Some a ->
  exists f, f ∈ frames (mem_of s) pg /\ frame_of (mem_of s) pg (u / 4096) = Some f /\ page_ok f /\
    a = f + u mod 4096.
Proof.
  intros Hs Hu E. unfold user_addr in E. unfold frame_of.
  destruct (mapping (mem_of s) pg (u / 4096)) as [e|] eqn:Em; [|done]. cbn in E.
  destruct (has e PTE_U); [|done]. injection E as <-. exists (P2V (PTE_ADDR e)).
  assert (Hin : P2V (PTE_ADDR e) ∈ frames (mem_of s) pg).
  { eapply frames_Some; [|exact Em]. rewrite user_pages_eq. unfold KERNBASE in *.
    split; [apply Z.div_pos|apply Z.div_lt_upper_bound]; lia. }
  split_and!; [done|done|by eapply space_frame|done].
Qed.

(** Distinct user addresses are distinct bytes. *)
Lemma user_addr_inj s pg rest l u w a : space s pg rest l -> 0 <= u < KERNBASE -> 0 <= w < KERNBASE ->
  user_addr (mem_of s) pg u = Some a -> user_addr (mem_of s) pg w = Some a -> u = w.
Proof.
  intros Hs Hu Hw Eu Ew. pose proof user_pages_eq as Ep.
  destruct (user_addr_page _ _ _ _ _ _ Hs Hu Eu) as (f & Hf & Ff & (Hfa & _) & Ea).
  destruct (user_addr_page _ _ _ _ _ _ Hs Hw Ew) as (g & Hg & Fg & (Hga & _) & Eb).
  pose proof (Z.mod_pos_bound u 4096 ltac:(lia)). pose proof (Z.mod_pos_bound w 4096 ltac:(lia)).
  unfold PGSIZE in *. apply Z.mod_divide in Hfa as [x ->]; [|lia]. apply Z.mod_divide in Hga as [y ->]; [|lia].
  assert (x = y) by lia. subst y.
  assert (Hin : forall v, 0 <= v < KERNBASE -> v / 4096 ∈ seqZ 0 user_pages).
  { intros v Hv. rewrite elem_of_seqZ, Ep. unfold KERNBASE in *.
    split; [apply Z.div_pos|apply Z.div_lt_upper_bound]; lia. }
  assert (E : u / 4096 = w / 4096).
  { destruct Hs as [_ Hn _]. apply NoDup_cons in Hn as [_ Hn]. apply NoDup_app in Hn as (_ & _ & Hn).
    apply NoDup_app in Hn as (Hn & _). apply NoDup_app in Hn as (Hn & _). rewrite frames_eq in Hn.
    exact (omap_NoDup_inj _ _ _ _ _ Hn (Hin u Hu) (Hin w Hw) Ff Fg). }
  pose proof (Z.div_mod u 4096). pose proof (Z.div_mod w 4096). lia.
Qed.

(** The user bytes [va .. va + n) now hold the bytes from [p], and nothing
    else has changed. *)
Definition wrote_user (m m' : mem) (pg va p n : Z) : Prop :=
  (forall i, 0 <= i < n -> exists a, user_addr m pg (va + i) = Some a /\ m' a = m (p + i)) /\
  forall x, (forall i, 0 <= i < n -> user_addr m pg (va + i) <> Some x) -> m' x = m x.

Lemma user_addr_ext m m' pg u : mapping m' pg (u / 4096) = mapping m pg (u / 4096) ->
  user_addr m' pg u = user_addr m pg u.
Proof. intros E. unfold user_addr. by rewrite E. Qed.

Lemma user_addr_in_page m pg va i : 0 <= va mod 4096 + i < 4096 ->
  user_addr m pg (va + i) = (fun a => a + va mod 4096 + i) <$> user_addr m pg (va / 4096 * 4096).
Proof.
  intros Hi. unfold user_addr. pose proof (Z.div_mod va 4096) as Hd.
  assert (E : va + i = va mod 4096 + i + va / 4096 * 4096) by lia.
  rewrite E, Z.div_add, (Z.div_small (va mod 4096 + i)), Z.add_0_l, Z.div_mul, Z.mod_add, Z.mod_mul, (Z.mod_small (va mod 4096 + i)) by lia.
  destruct (mapping m pg (va / 4096)) as [e|]; [|done]. cbn. destruct (has e PTE_U); [|done].
  cbn. f_equal. lia.
Qed.

(** One [memmove] of [copyout], inside one page. *)
Lemma copyout_chunk s pg rest l va p n a : space s pg rest l -> 0 <= va < KERNBASE ->
  user_addr (mem_of s) pg (va / 4096 * 4096) = Some a -> 0 < n -> va mod 4096 + n <= 4096 ->
  0 <= p -> p + n < 4294967296 ->
  exists s', memmove (a + va mod 4096) p n s = Ret tt s' /\ space s' pg rest l /\
    (forall w, 0 <= w < 1048576 -> mapping (mem_of s') pg w = mapping (mem_of s) pg w) /\
    wrote_user (mem_of s) (mem_of s') pg va p n.
Proof.
  intros Hs Hva Ea Hn Hpg Hp Hpn. pose proof (Z.mod_pos_bound va 4096 ltac:(lia)) as Hmod.
  assert (Hbase : 0 <= va / 4096 * 4096 < KERNBASE).
  { pose proof (Z.div_mod va 4096). assert (0 <= va / 4096) by (apply Z.div_pos; lia). lia. }
  destruct (user_addr_page _ _ _ _ _ _ Hs Hbase Ea) as (f & Hf & Ff & Hpf & Eaf).
  rewrite Z.mod_mul, Z.add_0_r in Eaf by lia. subst a.
  set (m1 := Str.memmove (mem_of s) (f + va mod 4096) p n).
  assert (Hm1 : forall x, m1 x = if (f + va mod 4096 <=? x) && (x <? f + va mod 4096 + n)
    then mem_of s (p + (x - (f + va mod 4096))) else mem_of s x)
    by (intros x; unfold m1; apply memmove_get; lia).
  assert (Ho : only [f] (mem_of s) m1).
  { intros x Hx. rewrite Hm1. destruct (Hx f) as [H|H]; [by left|..]; unfold PGSIZE in *.
    - by rewrite (proj2 (Z.leb_gt _ _)) by lia.
    - by rewrite (proj2 (Z.ltb_ge _ _)), andb_false_r by lia. }
  apply list_elem_of_split in Hf as (f1 & f2 & Efr).
  assert (Hs' : tables s pg (f :: (f1 ++ f2) ++ rest) l).
  { eapply tables_perm; [|exact Hs]. rewrite Efr. clear. perm_solve. }
  destruct (write_page _ _ _ _ _ _ Hs' Ho) as (Ht & _ & Hview).
  pose proof (fun w Hw => proj2 (Hview w Hw)) as Hmap. set (s' := with_km _ s) in *.
  assert (Efr' : frames (mem_of s') pg = frames (mem_of s) pg).
  { apply frames_ext. intros w Hw. apply Hmap. rewrite user_pages_eq in Hw. lia. }
  exists s'. split; [done|]. split; [|split; [done|split]].
  - eapply space_perm; [exact Ht|]. rewrite Efr', Efr. clear. perm_solve.
  - intros i Hi. exists (f + va mod 4096 + i).
    split; [rewrite user_addr_in_page, Ea by lia; done|]. change (mem_of s') with m1.
    rewrite Hm1, (proj2 (Z.leb_le _ _)), (proj2 (Z.ltb_lt _ _)) by lia. cbn [andb]. f_equal. lia.
  - intros x Hx. change (mem_of s') with m1. rewrite Hm1.
    destruct ((f + va mod 4096 <=? x) && (x <? f + va mod 4096 + n)) eqn:E; [|done]. bools.
    exfalso. apply (Hx (x - (f + va mod 4096))); [lia|]. rewrite user_addr_in_page, Ea by lia.
    cbn. f_equal. lia.
Qed.

(** One turn: it stops at a page the user may not touch, or copies up to the
    end of the page. *)
Lemma copyout_turn s pg rest l va p len : space s pg rest l -> 0 <= va -> 0 < len ->
  va + len <= KERNBASE -> 0 <= p -> p + len < 4294967296 ->
  is_Some (mapping (mem_of s) pg (va / 4096)) ->
  (user_addr (mem_of s) pg va = None /\ copyout_body memmove pg (va, p, len) s = Ret (inr (-1)) s) \/
  exists n s', copyout_body memmove pg (va, p, len) s =
      Ret (inl (va / 4096 * 4096 + 4096, p + n, len - n)) s' /\ space s' pg rest l /\
    0 < n <= len /\ (n = len \/ va / 4096 * 4096 + 4096 = va + n) /\
    (forall w, 0 <= w < 1048576 -> mapping (mem_of s') pg w = mapping (mem_of s) pg w) /\
    wrote_user (mem_of s) (mem_of s') pg va p n.
Proof.
  intros Hs Hva Hlen Hend Hp Hpl Hmapd.
  pose proof (Z.div_mod va 4096 ltac:(lia)) as Hdm.
  pose proof (Z.mod_pos_bound va 4096 ltac:(lia)) as Hmod.
  assert (Hq : 0 <= va / 4096) by (apply Z.div_pos; lia).
  assert (Hkb : KERNBASE = 2147483648) by done.
  assert (Eka : uva2ka pg (va / 4096 * 4096) s =
    Ret (default 0 (user_addr (mem_of s) pg (va / 4096 * 4096))) s).
  { eapply uva2ka_ok; [exact Hs|lia|by apply Z.mod_mul|]. by rewrite Z.div_mul by lia. }
  unfold copyout_body. rewrite (proj2 (Z.gtb_lt _ _)), PGROUNDDOWN_eq by lia.
  rewrite (bind_eq _ _ _ _ _ Eka).
  destruct (user_addr (mem_of s) pg (va / 4096 * 4096)) as [a|] eqn:Ea; cbn [default].
  2:{ left. split; [|done]. pose proof (user_addr_in_page (mem_of s) pg va 0 ltac:(lia)) as H.
      by rewrite Z.add_0_r, Ea in H. }
  right. destruct (user_addr_page s pg rest l (va / 4096 * 4096) a Hs ltac:(lia) Ea)
    as (f & Hf & _ & Hpf & Eaf).
  pose proof (page_range _ Hpf) as (Hf0 & _). rewrite Z.mod_mul in Eaf by lia.
  change (id a) with a.   rewrite (proj2 (Z.eqb_neq a 0)) by lia.
  replace (va - va / 4096 * 4096) with (va mod 4096) by lia.
  set (n := if u32 (PGSIZE - va mod 4096) >? len then len else u32 (PGSIZE - va mod 4096)).
  assert (Hn : 0 < n /\ n <= len /\ va mod 4096 + n <= 4096 /\ (n = len \/ va mod 4096 + n = 4096)).
  { unfold n, PGSIZE. rewrite u32_small by lia. destruct (Z.gtb_spec (4096 - va mod 4096) len); lia. }
  destruct (copyout_chunk s pg rest l va p n a Hs ltac:(lia) Ea ltac:(lia) ltac:(lia) Hp ltac:(lia))
    as (s1 & Hr1 & Hs1 & Hmap1 & Hw1).
  exists n, s1. rewrite (bind_eq _ _ _ _ _ Hr1). rewrite (u32_small (len - n)) by lia.
  unfold PGSIZE. rewrite (u32_small (va / 4096 * 4096 + 4096)) by lia.
  split_and!; try done; lia.
Qed.

Lemma copyout_loop pg rest l fuel : forall s va p len, space s pg rest l -> 0 <= va -> 0 <= len ->
  va + len <= KERNBASE -> 0 <= p -> p + len < 4294967296 ->
  (forall u, va <= u < va + len -> is_Some (mapping (mem_of s) pg (u / 4096))) ->
  (forall f, f ∈ frames (mem_of s) pg -> p + len <= f \/ f + PGSIZE <= p) ->
  len = 0 \/ page_up (va + len) - va / 4096 <= Z.of_nat fuel ->
  exists r s' n, loop (S fuel) (copyout_body memmove pg) (va, p, len) s = Ret r s' /\ space s' pg rest l /\
    (forall w, 0 <= w < 1048576 -> mapping (mem_of s') pg w = mapping (mem_of s) pg w) /\
    wrote_user (mem_of s) (mem_of s') pg va p n /\
    (r = 0 /\ n = len \/ r = -1 /\ 0 <= n < len /\ user_addr (mem_of s) pg (va + n) = None).
Proof.
  induction fuel as [|fuel IH]; intros s va p len Hs Hva Hlen Hend Hp Hpl Hmapd Hbuf Hfuel.
  all: destruct (decide (len = 0)) as [->|Hlen0];
    [exists 0, s, 0; split; [done|]; split; [done|]; split; [done|]; split;
     [split; [intros i Hi; lia|done]|left; done]|].
  all: pose proof (Z.div_mod va 4096 ltac:(lia)) as Hdm; pose proof (Z.mod_pos_bound va 4096 ltac:(lia)) as Hmod.
  { exfalso. destruct Hfuel as [|Hf]; [done|].
    assert (va / 4096 < page_up (va + len)) by (apply page_up_lt; lia). lia. }
  remember (S fuel) as fu. cbn [loop]. assert (Hkb : KERNBASE = 2147483648) by done.
  destruct (copyout_turn s pg rest l va p len) as
    [[Eu Hr1]|(n & s1 & Hr1 & Hs1 & Hn & Hlast & Hmap1 & [Hw1 Ho1])]; try (done || lia).
  { apply Hmapd. lia. }
  { rewrite (bind_eq _ _ _ _ _ Hr1). exists (-1), s, 0. split; [done|]. split; [done|].
    split; [done|]. split; [split; [intros i Hi; lia|done]|].
    right. split; [done|]. split; [lia|by rewrite Z.add_0_r]. }
  rewrite (bind_eq _ _ _ _ _ Hr1). cbn match.
  assert (Efr : frames (mem_of s1) pg = frames (mem_of s) pg).
  { apply frames_ext. intros w Hw. apply Hmap1. rewrite user_pages_eq in Hw. lia. }
  assert (Hua : forall u, 0 <= u < KERNBASE -> user_addr (mem_of s1) pg u = user_addr (mem_of s) pg u).
  { intros u Hu. apply user_addr_ext, Hmap1. apply vpn_range. lia. }
  destruct (decide (n = len)) as [->|Hne].
  { (* the last chunk *)
    rewrite Z.sub_diag. exists 0, s1, len. split; [by subst fu|]. split; [done|]. split; [done|].
    split; [done|left; done]. }
  destruct (IH s1 (va / 4096 * 4096 + 4096) (p + n) (len - n)) as
    (r & s2 & k & Hr2 & Hs2 & Hmap2 & [Hw2 Ho2] & Hres); try (done || lia).
  { intros u Hu. rewrite Hmap1; [apply Hmapd; lia|]. apply vpn_range. unfold KERNBASE in *. lia. }
  { intros g Hg. rewrite Efr in Hg. destruct (Hbuf g Hg); lia. }
  { right. replace (va / 4096 * 4096 + 4096 + (len - n)) with (va + len) by lia.
    replace (va / 4096 * 4096 + 4096) with ((va / 4096 + 1) * 4096) by lia. rewrite Z.div_mul by lia.
    destruct Hfuel; lia. }
  assert (Evn : va / 4096 * 4096 + 4096 = va + n) by lia. rewrite Evn in *.
  exists r, s2, (n + k). split; [exact Hr2|]. split; [done|].
  split; [intros w Hw; by rewrite Hmap2, Hmap1|].
  assert (Hk : k <= len - n) by lia.
  split; [split|].
  - intros i Hi. destruct (decide (i < n)) as [Hlt|Hge].
    + destruct (Hw1 i ltac:(lia)) as (b & Eb & Hb). exists b. split; [done|]. rewrite Ho2; [done|].
      intros j Hj Ej. rewrite Hua in Ej by (unfold KERNBASE in *; lia).
      pose proof (user_addr_inj s pg rest l (va + i) (va + n + j) b Hs ltac:(lia) ltac:(lia) Eb Ej). lia.
    + destruct (Hw2 (i - n) ltac:(lia)) as (b & Eb & Hb). exists b.
      rewrite Hua in Eb by lia. replace (va + n + (i - n)) with (va + i) in Eb by lia.
      split; [done|]. rewrite Hb. replace (p + n + (i - n)) with (p + i) by lia. apply Ho1.
      intros j Hj Ej.
      destruct (user_addr_page s pg rest l (va + j) _ Hs ltac:(lia) Ej) as (g & Hg & _ & _ & Eg).
      pose proof (Z.mod_pos_bound (va + j) 4096 ltac:(lia)).
      destruct (Hbuf g Hg); unfold PGSIZE in *; lia.
  - intros x Hx. rewrite Ho2; [apply Ho1|].
    + intros i Hi. apply Hx. lia.
    + intros i Hi. rewrite Hua by lia. replace (va + n + i) with (va + (n + i)) by lia. apply Hx. lia.
  - destruct Hres as [[-> ->]|(-> & ? & Eu)]; [left; lia|right]. split; [done|]. split; [lia|].
    rewrite Hua in Eu by lia. by rewrite Z.add_assoc.
Qed.
End Tables.
