(* ===== verification/VmSpec.v ===== *)
(** * What the address-space calls promise

    The contracts of [vm.c] in terms of what a process sees: the byte behind a
    user address.  Every page is owned by one space or is free; the calls move
    pages between owners and lose none, one error path of [copyuvm] excepted. *)

From S2P Require Import Prelude CString Locks Kalloc Vm VmFacts.
Import Kalloc.KallocFacts Vm.
Import Kalloc(PGSIZE, KERNBASE, PHYSTOP, V2P, P2V, ram).

Notation mem_of s := (ram (km s)).

(** The byte a user program reads at [va], if it may. *)
Definition user_byte (m : mem) (pg va : Z) : option Z := m <$> user_addr m pg va.

Section Views.
Variable kend : Z.
Hypothesis kend_ok : KERNBASE < kend.

Lemma user_page va : 0 <= va < KERNBASE -> 0 <= va / 4096 < user_pages /\ 0 <= va / 4096 < 1048576.
Proof.
  intros H. rewrite user_pages_eq. unfold KERNBASE in *.
  assert (0 <= va / 4096 < 524288) by (split; [apply Z.div_pos|apply Z.div_lt_upper_bound]; lia). lia.
Qed.

(** A space whose pages are not written looks the same. *)
Lemma space_unchanged s pg rest l m' : space kend s pg rest l -> agree (owned (mem_of s) pg) (mem_of s) m' ->
  forall va, 0 <= va < KERNBASE -> user_addr m' pg va = user_addr (mem_of s) pg va /\
    user_byte m' pg va = user_byte (mem_of s) pg va.
Proof.
  intros Hs Hag va Hva. destruct (user_page _ Hva) as [Hu Hv].
  destruct (view_agree (mem_of s) m' pg) as [_ Hview].
  { eapply agree_sub; [|exact Hag]. unfold owned. clear. set_solver. }
  assert (E : user_addr m' pg va = user_addr (mem_of s) pg va) by (apply user_addr_ext, Hview, Hv).
  split; [done|]. unfold user_byte. rewrite E.
  destruct (user_addr (mem_of s) pg va) as [a|] eqn:Ea; [|done].
  destruct (user_addr_page kend s pg rest l va a Hs Hva Ea) as (f & Hf & _ & _ & ->).
  cbn. f_equal. apply (Hag f); [unfold owned; clear - Hf; set_solver|].
  pose proof (Z.mod_pos_bound va 4096 ltac:(lia)). unfold PGSIZE. lia.
Qed.

Lemma has_U_entry pa e : pa mod 4096 = 0 -> has (entry pa (PTE_FLAGS e)) PTE_U = has e PTE_U.
Proof.
  intros Hpa. pose proof (Z.mod_pos_bound e 4096 ltac:(lia)) as He. unfold entry. rewrite PTE_FLAGS_eq.
  rewrite has_add; [|done|apply lor_flag; unfold PTE_P; lia|unfold PTE_U; lia].
  pose proof (Z.div_mod e 4096 ltac:(lia)) as Hd.
  assert (E : has e PTE_U = has (e mod 4096) PTE_U).
  { rewrite Hd at 1. apply has_add; [|lia|unfold PTE_U; lia].
    rewrite Z.mul_comm. by apply Z.mod_mul. }
  rewrite E. unfold has. rewrite Z.land_lor_distr_l. change (Z.land PTE_P PTE_U) with 0.
  by rewrite Z.lor_0_r.
Qed.

(** A copied page reads like the original. *)
Lemma copied_byte m0 pg m d l va : 0 <= va < KERNBASE -> Forall (page_ok kend) l ->
  copied m0 pg m d l (va / 4096) -> user_byte m d va = user_byte m0 pg va.
Proof.
  intros Hva Hl (e & f & He & Hf & Hm & Hb). rewrite Forall_forall in Hl.
  destruct (page_P2V kend kend_ok f (Hl f Hf)) as (Ef & _ & Hal & Hbd).
  assert (Hfl : 0 <= PTE_FLAGS e < 4096) by (rewrite PTE_FLAGS_eq; apply Z.mod_pos_bound; lia).
  destruct (entry_ok (V2P f) (PTE_FLAGS e) Hal ltac:(lia) Hfl) as (_ & _ & _ & Ea).
  unfold user_byte, user_addr. rewrite He, Hm. cbn. rewrite has_U_entry, Ea, Ef by done.
  destruct (has e PTE_U); [|done]. cbn. f_equal. apply Hb. apply (Z.mod_pos_bound va 4096). lia.
Qed.

(** A fresh page reads zero, and the user may touch it. *)
Lemma zero_byte m pg l va : 0 <= va < KERNBASE -> Forall (page_ok kend) l ->
  zero_page m pg l (va / 4096) -> user_byte m pg va = Some 0.
Proof.
  intros Hva Hl (f & Hf & Hm & Hz). rewrite Forall_forall in Hl.
  destruct (page_P2V kend kend_ok f (Hl f Hf)) as (Ef & _ & Hal & Hbd).
  destruct (entry_ok (V2P f) 6 Hal ltac:(lia) ltac:(lia)) as (_ & _ & _ & Ea).
  unfold user_byte, user_addr. rewrite Hm. cbn. rewrite Ea, Ef.
  assert (Hu : has (entry (V2P f) 6) PTE_U = true).
  { unfold entry. rewrite has_add; [|done|apply lor_flag; unfold PTE_P; lia|unfold PTE_U; lia]. done. }
  rewrite Hu. cbn. f_equal. apply Hz. pose proof (Z.mod_pos_bound va 4096 ltac:(lia)). unfold PGSIZE. lia.
Qed.

Lemma space_free_pages s pg o l : tables kend s pg o l -> Forall (page_ok kend) l.
Proof. intros [H _ _]. apply (free_pages _ _ _ H). Qed.

(** Two spaces that own different pages share no byte. *)
Lemma spaces_disjoint s d pg rest l : space kend s d (owned (mem_of s) pg ++ rest) l ->
  forall u w a b, 0 <= u < KERNBASE -> 0 <= w < KERNBASE ->
    user_addr (mem_of s) d u = Some a -> user_addr (mem_of s) pg w = Some b -> a <> b.
Proof.
  intros Hs u w a b Hu Hw Ea Eb.
  destruct (user_addr_page kend s d _ l u a Hs Hu Ea) as (f & Hf & _ & Hpf & ->).
  assert (Hg : exists g, g ∈ frames (mem_of s) pg /\ b = g + w mod 4096).
  { unfold user_addr in Eb. destruct (mapping (mem_of s) pg (w / 4096)) as [e|] eqn:Em; [|done].
    cbn in Eb. destruct (has e PTE_U); [|done]. injection Eb as <-.
    exists (P2V (PTE_ADDR e)). split; [|done]. eapply frames_Some; [|exact Em]. by apply user_page. }
  destruct Hg as (g & Hg & ->).
  destruct Hs as [_ Hn Hp]. rewrite Forall_forall in Hp.
  assert (Hgo : g ∈ owned (mem_of s) pg) by (unfold owned; clear - Hg; set_solver).
  assert (Hpg : page_ok kend g) by (apply Hp; clear - Hgo; set_solver).
  assert (Hne : f <> g).
  { intros ->. apply NoDup_cons in Hn as [_ Hn]. apply NoDup_app in Hn as (_ & _ & Hn).
    apply NoDup_app in Hn as (Hn & _). apply NoDup_app in Hn as (_ & Hn & _).
    apply (Hn g Hf). clear - Hgo. set_solver. }
  pose proof (page_disjoint _ _ _ Hpf Hpg Hne). unfold PGSIZE in *.
  pose proof (Z.mod_pos_bound u 4096 ltac:(lia)). pose proof (Z.mod_pos_bound w 4096 ltac:(lia)). lia.
Qed.
End Views.

Lemma only_nodup kend ps qs os m m' : only ps m m' ->
  Forall (page_ok kend) (ps ++ qs) -> NoDup os -> (exists k, os ≡ₚ k ++ ps ++ qs) ->
  agree qs m m'.
Proof.
  intros Ho Hp Hn [k Hperm]. rewrite Hperm in Hn. apply Forall_app in Hp as [Hp Hq].
  apply NoDup_app in Hn as (_ & _ & Hn). apply NoDup_app in Hn as (_ & Hn & _).
  eapply (only_agree kend); [exact Ho|done|done|]. intros x Hx Hxq. by apply (Hn x).
Qed.

(** A sequence of [sbrk]-like requests: each asks for a size. *)
Fixpoint resize (kend pg sz : Z) (rs : list Z) : M vm Z :=
  match rs with
  | [] => ret sz
  | n :: rs' =>
      if n >? sz then
        let! r := allocuvm kend pg sz n in resize kend pg (if r =? 0 then sz else r) rs'
      else let! r := deallocuvm kend pg sz n in resize kend pg r rs'
  end.

Lemma resize_ok kend pg rest rs : KERNBASE < kend -> forall s l sz,
  space kend s pg rest l -> 0 <= sz < KERNBASE -> Forall (fun n => 0 <= n < KERNBASE) rs ->
  (forall w, page_up sz <= w < user_pages -> mapping (mem_of s) pg w = None) ->
  exists r s' l', resize kend pg sz rs s = Ret r s' /\ space kend s' pg rest l' /\
    owned (mem_of s') pg ++ l' ≡ₚ owned (mem_of s) pg ++ l /\
    agree rest (mem_of s) (mem_of s').
Proof.
  intros Hk. pose proof user_pages_eq as Eu.
  induction rs as [|n rs IH]; intros s l sz Hs Hsz Hrs Hnone; [by exists sz, s, l|].
  apply Forall_cons in Hrs as [Hn Hrs]. cbn [resize]. destruct (Z.gtb_spec n sz) as [Hgt|Hle].
  - pose proof (page_up_user n ltac:(lia)). pose proof (page_up_user sz ltac:(lia)).
    destruct (allocuvm_ok kend Hk s pg rest l sz n Hs) as
      (r & s1 & l1 & Hr & [Hs1 Hpm1 _ Ho1] & Hcase); try lia.
    { intros w Hw. apply Hnone. lia. }
    pose proof (tables_agree kend _ _ _ _ _ Hs Ho1) as Hag.
    apply (agree_sub _ rest) in Hag; [|clear; set_solver].
    set (sz' := if r =? 0 then sz else r).
    destruct (IH s1 l1 sz') as (r' & s2 & l2 & Hr2 & Hs2 & Hpm2 & Hag2); try done.
    { unfold sz'. destruct Hcase as [(-> & _)|(-> & _)]; [|cbn; lia].
      destruct (Z.eqb_spec n 0); lia. }
    { intros w Hw. unfold sz' in Hw. destruct Hcase as [(-> & _ & Hmap)|(-> & Hmap)].
      - destruct (Z.eqb_spec n 0); [lia|]. rewrite Hmap by lia. apply Hnone.
        pose proof (page_up_mono sz n ltac:(lia)). lia.
      - rewrite Hmap by (cbn in Hw; lia). apply Hnone. cbn in Hw. lia. }
    exists r', s2, l2. rewrite (bind_eq _ _ _ _ _ Hr). split_and!; [done|done|by rewrite Hpm2|].
    by eapply agree_trans.
  - destruct (deallocuvm_ok kend Hk s pg rest l sz n Hs) as
      (s1 & l1 & Hr & [Hs1 Et1 Hpm1 _ Ho1] & Hmap); try lia.
    assert (Hag : agree rest (mem_of s) (mem_of s1)).
    { pose proof (tables_all _ _ _ _ _ Hs1) as H. rewrite <- Et1 in Ho1.
      eapply (only_nodup kend); [exact Ho1| |exact (t_nodup _ _ _ _ _ Hs1)|].
      - rewrite !Forall_cons, !Forall_app in *. tauto.
      - exists (pg :: frames (mem_of s1) pg). clear. perm_solve. }
    destruct (IH s1 l1 (Z.min n sz)) as (r' & s2 & l2 & Hr2 & Hs2 & Hpm2 & Hag2); try (done || lia).
    { intros w Hw. rewrite Z.min_l in Hw by lia. pose proof (page_up_user n ltac:(lia)).
      rewrite Hmap by lia. destruct (decide _) as [|Hd]; [done|]. apply Hnone. lia. }
    exists r', s2, l2. rewrite (bind_eq _ _ _ _ _ Hr). split_and!; [done|done| |by eapply agree_trans].
    rewrite Hpm2. unfold owned. rewrite Et1. clear - Hpm1. perm_solve.
Qed.

(** The life of an address space: set up, resized at will, torn down. *)
Definition life (kend data : Z) (rs : list Z) : M vm Z :=
  let! pg := setupkvm kend data in
  if pg =? 0 then ret 0
  else let! r := resize kend pg 0 rs in freevm kend pg ;;; ret r.

(** C18: An address space leaks nothing.  Whatever sizes a process asks for, in
    whatever order and however often memory runs out, after [freevm] the free
    list holds exactly the pages it held before [setupkvm], and no page of
    anybody else was written.  No call panics. *)
Theorem address_space_leaks_nothing kend data rs s rest l :
  KERNBASE < kend -> pool kend s rest l -> data mod 4096 = 0 ->
  KERNLINK < data < KERNBASE + PHYSTOP -> Forall (fun n => 0 <= n < KERNBASE) rs ->
  exists r s' l', life kend data rs s = Ret r s' /\ pool kend s' rest l' /\ l' ≡ₚ l /\
    agree rest (mem_of s) (mem_of s').
Proof.
  intros Hk Hpool Hal Hdata Hrs. unfold life.
  destruct (setupkvm_ok kend Hk data s rest l Hpool Hal Hdata) as
    (pg & s1 & l1 & Hr1 & Ho1 & [(-> & Hp1 & Hpm1)|(Hpg & Hs1 & Hpm1 & _ & Hmap1)]);
    rewrite (bind_eq _ _ _ _ _ Hr1).
  { exists 0, s1, l1. split_and!; [done|done|done|by eapply pool_agree]. }
  rewrite (proj2 (Z.eqb_neq _ _)) by done.
  destruct (resize_ok kend pg rest rs Hk s1 l1 0 Hs1) as (r & s2 & l2 & Hr2 & Hs2 & Hpm2 & Hag2);
    [unfold KERNBASE; lia|done| |].
  { intros w Hw. change (page_up 0) with 0 in Hw. rewrite user_pages_eq in Hw.
    rewrite Hmap1 by lia. apply kernel_pte_user; [lia|rewrite user_pages_eq; lia]. }
  rewrite (bind_eq _ _ _ _ _ Hr2).
  destruct (freevm_ok kend Hk s2 pg rest l2 Hs2) as (s3 & l3 & Hr3 & Hf3 & Hpm3 & Ho3).
  exists r, s3, l3. rewrite (bind_eq _ _ _ _ _ Hr3). split; [done|].
  pose proof (space_pool _ _ _ _ _ Hs2) as [Hf2 Hn2 Hp2].
  assert (Hpm : l3 ≡ₚ l) by (by rewrite Hpm3, Hpm2).
  assert (Hp3 : Forall (page_ok kend) rest) by (by apply Forall_app in Hp2 as [_ ?]).
  split; [split; [done| |done]|split; [done|]].
  - rewrite Hpm3. eapply NoDup_Permutation_proper; [|exact Hn2]. clear. perm_solve.
  - eapply agree_trans; [by eapply pool_agree|]. eapply agree_trans; [done|].
    pose proof (free_pages _ _ _ Hf2) as Hpl.
    eapply (only_nodup kend); [exact Ho3| |exact Hn2|].
    + rewrite !Forall_app in *. tauto.
    + exists []. clear. perm_solve.
Qed.

(** C21: [fork] gives the child a private copy.  [copyuvm] leaves the parent as
    it was; the child then reads the same bytes, under the same permissions,
    on the same pages, and no byte of the child is a byte of the parent, so a
    later write to one is not seen by the other.  When memory runs out the
    call returns 0 and all but at most one page are back on the free list. *)
Theorem copyuvm_private kend data s pg rest l sz :
  KERNBASE < kend -> space kend s pg rest l -> data mod 4096 = 0 ->
  KERNLINK < data < KERNBASE + PHYSTOP -> 0 <= sz <= KERNBASE ->
  (forall w, 0 <= w < page_up sz -> is_Some (mapping (mem_of s) pg w)) ->
  exists d s' l', copyuvm kend data pg sz s = Ret d s' /\ free_ok kend (km s') l' /\
    (forall va, 0 <= va < KERNBASE -> user_byte (mem_of s') pg va = user_byte (mem_of s) pg va) /\
    (d <> 0 /\ owned (mem_of s') d ++ l' ≡ₚ l /\
       (forall va, 0 <= va < KERNBASE -> user_byte (mem_of s') d va =
          if decide (va < page_up sz * 4096) then user_byte (mem_of s) pg va else None) /\
       (forall u w a b, 0 <= u < KERNBASE -> 0 <= w < KERNBASE ->
          user_addr (mem_of s') d u = Some a -> user_addr (mem_of s') pg w = Some b -> a <> b) \/
     d = 0 /\ exists lost, lost ++ l' ≡ₚ l /\ (length lost <= 1)%nat).
Proof.
  intros Hk Hs Hal Hdata Hsz Hall.
  destruct (copyuvm_ok kend Hk data s pg rest l sz Hs Hal Hdata Hsz Hall) as
    (d & s' & l' & Hr & Hag & Hcase).
  assert (Hago : agree (owned (mem_of s) pg) (mem_of s) (mem_of s'))
    by (eapply agree_sub; [|exact Hag]; clear; set_solver).
  pose proof (space_unchanged kend s pg rest l _ Hs Hago) as Hsame.
  destruct (view_agree (mem_of s) (mem_of s') pg) as [Etabs Hview].
  { eapply agree_sub; [|exact Hago]. unfold owned. clear; set_solver. }
  exists d, s', l'. split; [done|].
  destruct Hcase as [(Hd & Hsp & Hpm & Hcopy & Hrest)|(-> & lost & Hp & Hpm & Hlen)].
  - split; [apply Hsp|]. split; [intros va Hva; by apply Hsame|]. left.
    split; [done|]. split; [done|]. split.
    + intros va Hva. pose proof (user_page va Hva) as [Hu Hv].
      destruct (decide _) as [Hlt|Hge].
      * eapply copied_byte; [exact Hk|done|exact (space_free_pages _ _ _ _ _ Hs)|].
        apply Hcopy. split; [lia|]. apply Z.div_lt_upper_bound; lia.
      * unfold user_byte, user_addr. rewrite Hrest, kernel_pte_user; [done|lia|lia|].
        split; [|lia]. apply Z.div_le_lower_bound; lia.
    + assert (Eo : owned (mem_of s') pg = owned (mem_of s) pg).
      { unfold owned. rewrite Etabs. do 2 f_equal. apply frames_ext. intros w Hw.
        apply Hview. rewrite user_pages_eq in Hw. lia. }
      rewrite <- Eo in Hsp. by eapply spaces_disjoint.
  - split; [apply Hp|]. split; [intros va Hva; by apply Hsame|]. right. split; [done|]. by exists lost.
Qed.

(** Growing a process.  [allocuvm] either maps every page of the new range
    to fresh memory that reads zero and leaves the rest of user memory alone,
    or returns 0 with user memory as before; either way no page is lost. *)
Theorem allocuvm_grows kend s pg rest l oldsz newsz :
  KERNBASE < kend -> space kend s pg rest l -> 0 <= oldsz -> oldsz <= newsz -> newsz < KERNBASE ->
  (forall w, page_up oldsz <= w < page_up newsz -> mapping (mem_of s) pg w = None) ->
  exists r s' l', allocuvm kend pg oldsz newsz s = Ret r s' /\ space kend s' pg rest l' /\
    owned (mem_of s') pg ++ l' ≡ₚ owned (mem_of s) pg ++ l /\
    (r = newsz /\ (forall va, 0 <= va < KERNBASE -> user_byte (mem_of s') pg va =
        if decide (page_up oldsz <= va / 4096 < page_up newsz) then Some 0
        else user_byte (mem_of s) pg va) \/
     r = 0 /\ forall va, 0 <= va < KERNBASE ->
        user_byte (mem_of s') pg va = user_byte (mem_of s) pg va).
Proof.
  intros Hk Hs Hold Hle Hnew Hnone.
  destruct (allocuvm_ok kend Hk s pg rest l oldsz newsz Hs Hold Hle Hnew Hnone) as
    (r & s' & l' & Hr & [Hs' Hpm _ Ho] & Hcase).
  exists r, s', l'. split_and!; try done.
  pose proof (tables_agree kend _ _ _ _ _ Hs Ho) as Hag.
  assert (Hsame : forall va, 0 <= va < KERNBASE ->
    mapping (mem_of s') pg (va / 4096) = mapping (mem_of s) pg (va / 4096) ->
    user_byte (mem_of s') pg va = user_byte (mem_of s) pg va).
  { intros va Hva Em. unfold user_byte. rewrite (user_addr_ext _ _ _ _ Em).
    destruct (user_addr (mem_of s) pg va) as [a|] eqn:Ea; [|done].
    destruct (user_addr_page kend s pg rest l va a Hs Hva Ea) as (f & Hf & _ & _ & ->).
    cbn. f_equal. apply (Hag f); [clear - Hf; set_solver|].
    pose proof (Z.mod_pos_bound va 4096 ltac:(lia)). unfold PGSIZE. lia. }
  destruct Hcase as [(-> & Hz & Hmap)|(-> & Hmap)]; [left|right]; (split; [done|]); intros va Hva.
  - destruct (decide _) as [Hin|Hout].
    + eapply zero_byte; [exact Hk|done|exact (space_free_pages _ _ _ _ _ Hs)|by apply Hz].
    + apply Hsame; [done|]. apply Hmap; [by apply user_page|done].
  - apply Hsame; [done|]. apply Hmap. by apply user_page.
Qed.

(** [copyout] writes user memory only.  It copies the buffer byte by byte
    to the user addresses and stops with -1 at the first page the user may not
    touch; no byte outside the addressed range changes, and the page table
    stays as it is. *)
Theorem copyout_spec kend s pg rest l va p len :
  KERNBASE < kend -> space kend s pg rest l -> 0 <= va -> 0 <= len -> va + len <= KERNBASE ->
  0 <= p -> p + len < 4294967296 ->
  (forall u, va <= u < va + len -> is_Some (mapping (mem_of s) pg (u / 4096))) ->
  (forall f, f ∈ frames (mem_of s) pg -> p + len <= f \/ f + PGSIZE <= p) ->
  exists r s' n, copyout pg va p len s = Ret r s' /\ space kend s' pg rest l /\
    (forall u, 0 <= u < KERNBASE -> user_addr (mem_of s') pg u = user_addr (mem_of s) pg u) /\
    (forall i, 0 <= i < n -> user_byte (mem_of s') pg (va + i) = Some (mem_of s (p + i))) /\
    (forall x, (forall i, 0 <= i < n -> user_addr (mem_of s) pg (va + i) <> Some x) ->
       mem_of s' x = mem_of s x) /\
    (r = 0 /\ n = len \/ r = -1 /\ 0 <= n < len /\ user_addr (mem_of s) pg (va + n) = None).
Proof.
  intros Hk Hs Hva Hlen Hend Hp Hpl Hmapd Hbuf. unfold copyout, copyout_from.
  destruct (copyout_loop kend Hk pg rest l (Z.to_nat (len / PGSIZE + 2)) s va p len) as
    (r & s' & n & Hr & Hs' & Hmap & [Hw Ho] & Hres); try done.
  { right. assert (0 <= len / 4096) by (apply Z.div_pos; lia). unfold page_up, PGSIZE.
    pose proof (Z.div_mod (va + len + 4095) 4096). pose proof (Z.mod_pos_bound (va + len + 4095) 4096).
    pose proof (Z.div_mod len 4096). pose proof (Z.mod_pos_bound len 4096).
    pose proof (Z.div_mod va 4096). pose proof (Z.mod_pos_bound va 4096). lia. }
  assert (Hua : forall u, 0 <= u < KERNBASE -> user_addr (mem_of s') pg u = user_addr (mem_of s) pg u).
  { intros u Hu. apply user_addr_ext, Hmap. by apply user_page. }
  exists r, s', n. split_and!; try done. intros i Hi. destruct (Hw i Hi) as (a & Ea & Ha).
  unfold user_byte. rewrite Hua, Ea by lia. cbn. by rewrite Ha.
Qed.

(** Every page table maps the kernel alike.  [setupkvm] either fails with
    every page back on the free list or returns a directory in which the
    physical memory up to PHYSTOP appears at KERNBASE, the kernel's text
    read-only, the devices in place, and no user page. *)
Theorem setupkvm_maps kend data s rest l :
  KERNBASE < kend -> pool kend s rest l -> data mod 4096 = 0 ->
  KERNLINK < data < KERNBASE + PHYSTOP ->
  exists pg s' l', setupkvm kend data s = Ret pg s' /\ agree rest (mem_of s) (mem_of s') /\
    (pg = 0 /\ pool kend s' rest l' /\ l' ≡ₚ l \/
     pg <> 0 /\ space kend s' pg rest l' /\ owned (mem_of s') pg ++ l' ≡ₚ l /\
       forall w, 0 <= w < 1048576 -> mapping (mem_of s') pg w = kernel_pte data w).
Proof.
  intros Hk Hp Hal Hdata.
  destruct (setupkvm_ok kend Hk data s rest l Hp Hal Hdata) as (pg & s' & l' & Hr & Ho & Hcase).
  exists pg, s', l'. split; [done|]. split; [by eapply pool_agree|].
  destruct Hcase as [?|(? & ? & ? & _ & ?)]; [by left|by right].
Qed.

Lemma space_swap kend s d pg rest l :
  space kend s d (owned (mem_of s) pg ++ rest) l -> space kend s pg (owned (mem_of s) d ++ rest) l.
Proof.
  intros [Hf Hn Hp]. split; [done| |].
  - eapply NoDup_Permutation_proper; [|exact Hn]. unfold owned. clear. perm_solve.
  - unfold owned in *. rewrite !Forall_cons, !Forall_app, !Forall_cons, !Forall_app in *. tauto.
Qed.

(** No table and no free page: the walk gives up, and so does [mappages]. *)
Lemma map_fail kend s pg o v pa perm : KERNBASE < kend -> tables kend s pg o [] ->
  0 <= v < 1048576 -> pte_addr (mem_of s) pg v = None ->
  exists s', mappages pg (v * 4096) PGSIZE pa perm s = Ret (-1) s' /\
    tables kend s' pg o [] /\ mem_of s' = mem_of s.
Proof.
  intros Hk Ht Hv Hnone. destruct (kalloc_none kend Hk _ _ _ Ht) as (s' & Hr & Em & Ht').
  assert (Hw : walkpgdir pg (v * 4096) true s = Ret 0 s').
  { unfold walkpgdir. rewrite PDX_eq, Z.div_mul by lia. unfold pte_addr, tab in Hnone.
    assert (Erd : rd (pg + 4 * (v / 1024)) s = Ret (ld32 (mem_of s) (pg + 4 * (v / 1024))) s) by done.
    rewrite (bind_eq _ _ _ _ _ Erd). destruct (has _ PTE_P); [done|]. cbn [negb].
    by rewrite (bind_eq _ _ _ _ _ Hr). }
  exists s'. split; [|done]. unfold mappages. rewrite <- (Z.add_0_r (v * 4096)), PGROUNDDOWN_page by lia.
  rewrite Z.add_0_r. cbn [loop]. unfold mappages_body at 1. unfold bind at 1.
  by rewrite (bind_eq _ _ _ _ _ Hw).
Qed.

(** [copyuvm] can lose a page.  When the last free page is taken for the
    child's copy and the child has no page table for it yet, [mappages] fails
    and the code gives up without freeing the page: after [freevm] the child's
    pages are free again, and that page is owned by nobody and not free. *)
Theorem copyuvm_leaks kend s d pg rest f v e sz :
  KERNBASE < kend -> space kend s d (owned (mem_of s) pg ++ rest) [f] ->
  0 <= v < user_pages -> v * 4096 < sz -> pte_addr (mem_of s) d v = None ->
  mapping (mem_of s) pg v = Some e ->
  exists s1 s2 l', copyuvm_body pg d sz (v * 4096) s = Ret (inr false) s1 /\
    freevm kend d s1 = Ret tt s2 /\ free_ok kend (km s2) l' /\
    l' ≡ₚ owned (mem_of s) d /\ f ∉ l' /\ f ∉ owned (mem_of s) pg ++ rest.
Proof.
  intros Hk Hd Hv Hlt Hnone He. pose proof user_pages_eq as Eu.
  pose proof (space_swap _ _ _ _ _ _ Hd) as Hpg. pose proof He as He'. unfold mapping in He'.
  destruct (pte_addr (mem_of s) pg v) as [a|] eqn:Ea; [|done]. cbn in He'.
  destruct (has (ld32 (mem_of s) a) PTE_P) eqn:Eh; [|done]. injection He' as Eld.
  destruct (pte_addr_in kend Hk s pg _ _ v a Hpg ltac:(lia) Ea) as (_ & _ & _ & _ & _ & _ & Ha0).
  unfold copyuvm_body. rewrite (proj2 (Z.ltb_lt _ _)) by done.
  rewrite (bind_eq _ _ _ _ _ (walk_lookup s pg (v * 4096) ltac:(lia))), Z.div_mul, Ea by lia.
  change (default 0 (Some a)) with a. rewrite (proj2 (Z.eqb_neq _ _)) by done.
  assert (Erd : rd a s = Ret e s) by (unfold rd, gets; by rewrite Eld).
  rewrite (bind_eq _ _ _ _ _ Erd). rewrite Eld in Eh. rewrite Eh. cbn [negb].
  destruct (kalloc_some kend Hk _ _ _ _ _ Hd) as (s1 & Hr & Em & Ht1). rewrite (bind_eq _ _ _ _ _ Hr).
  assert (Hpf : page_ok kend f) by (eapply free_page; [exact Hd|left]).
  pose proof (page_range kend Hk _ Hpf) as (Hf0 & _).
  rewrite (proj2 (Z.eqb_neq f 0)) by (unfold KERNBASE in *; lia).
  assert (Hpe : page_ok kend (P2V (PTE_ADDR e))).
  { eapply space_frame; [exact Hpg|]. by eapply frames_Some. }
  set (m1 := Str.memmove (mem_of s1) f (P2V (PTE_ADDR e)) PGSIZE).
  set (s2 := with_km (Kalloc.with_ram m1 (km s1)) s1).
  assert (Ems : memmove f (P2V (PTE_ADDR e)) PGSIZE s1 = Ret tt s2) by done.
  rewrite (bind_eq _ _ _ _ _ Ems).
  destruct (memmove_page kend Hk (mem_of s1) f _ Hpf Hpe) as [_ Ho1]. fold m1 in Ho1.
  destruct (write_page kend Hk s1 d _ [] f m1 Ht1 Ho1) as (Ht2 & Etab2 & Hview2).
  fold s2 in Ht2. change m1 with (mem_of s2) in Etab2, Hview2. rewrite Em in Etab2, Hview2.
  destruct (map_fail kend s2 d _ v (V2P f) (PTE_FLAGS e) Hk Ht2 ltac:(lia)) as (s3 & Hr3 & Ht3 & Em3).
  { by rewrite (proj1 (Hview2 v ltac:(lia))). }
  rewrite (bind_eq _ _ _ _ _ Hr3). cbn [Z.ltb Z.compare].
  assert (Efr : frames (mem_of s3) d = frames (mem_of s) d).
  { rewrite Em3. apply frames_ext. intros w Hw. apply Hview2. lia. }
  assert (Eo : owned (mem_of s3) d = owned (mem_of s) d).
  { unfold owned. rewrite Efr, Em3. do 2 f_equal. done. }
  destruct (freevm_ok kend Hk s3 d (f :: owned (mem_of s) pg ++ rest) []) as (s4 & l' & Hr4 & Hf4 & Hpm4 & _).
  { eapply space_perm; [exact Ht3|]. rewrite Efr. clear. perm_solve. }
  rewrite app_nil_r, Eo in Hpm4. exists s3, s4, l'. split; [done|]. split; [done|]. split; [done|].
  split; [done|].
  assert (Hn : NoDup (f :: owned (mem_of s) d ++ (owned (mem_of s) pg ++ rest))).
  { eapply NoDup_Permutation_proper; [|exact (t_nodup _ _ _ _ _ Hd)]. unfold owned. clear. perm_solve. }
  apply NoDup_cons in Hn as [Hn _]. rewrite Hpm4. clear - Hn. set_solver.
Qed.

(** ** A small machine for the witnesses

    [n] free pages from [base]; below them a directory, a table and a frame. *)
Module Demo.

Definition kend0 : Z := 2151677952.
Definition base : Z := 2152726528.
Definition dirA : Z := 2152722432.
Definition tabT : Z := 2152718336.
Definition frmF : Z := 2152714240.
Definition dirD : Z := 2152710144.

(** The first word of each free page but the last points to the next. *)
Definition boot_ram (n : Z) : mem := fun x =>
  if (base <=? x) && (x <? base + 4096 * (n - 1)) then
    let k := (x - base) / 4096 + 1 in
    let o := (x - base) mod 4096 in
    if o =? 1 then k * 16 mod 256 else if o =? 2 then 80 + k / 16 else if o =? 3 then 128 else 0
  else 0.

Definition boot (n : Z) : vm := {|
  km := {| Kalloc.use_lock := false; Kalloc.freelist := base; Kalloc.ram := boot_ram n;
           Kalloc.klock := false;
           Kalloc.kcpu := {| Cli.ncli := 0; Cli.intena := false; Cli.intr := true |} |};
  kpgdir := 0; cr3 := 0; gdt := []; gdtr := None; console := [] |}.

Definition pages (n : Z) : list Z := (fun k => base + 4096 * k) <$> seqZ 0 n.

Lemma pages_in n p : p ∈ pages n -> base <= p.
Proof. unfold pages. intros (k & -> & Hk%elem_of_seqZ)%list_elem_of_fmap. lia. Qed.

Lemma pages_NoDup n : NoDup (pages n).
Proof. unfold pages. apply NoDup_fmap_2; [|apply NoDup_seqZ]. intros x y. lia. Qed.

Lemma page_ok_low p : p mod 4096 = 0 -> kend0 <= p <= base -> page_ok kend0 p.
Proof. unfold kend0, base. intros Hm Hp. split_and!; [done|lia|unfold KERNBASE, PHYSTOP; lia]. Qed.

Lemma boot_free n : 0 < n <= 1000 -> chain (boot_ram n) base (pages n) ->
  free_ok kend0 (km (boot n)) (pages n).
Proof.
  intros Hn Hc. split; [done|apply pages_NoDup| |done].
  apply Forall_forall. intros p (k & -> & Hk%elem_of_seqZ)%list_elem_of_fmap. unfold base, kend0.
  split_and!; [|lia|unfold KERNBASE, PHYSTOP; lia]. unfold PGSIZE.
  rewrite Z.mul_comm, Z.mod_add by lia. done.
Qed.

Lemma boot_pool n : 0 < n <= 1000 -> chain (boot_ram n) base (pages n) -> pool kend0 (boot n) [] (pages n).
Proof.
  intros Hn Hc. split; [by apply boot_free|apply pages_NoDup|by constructor].
Qed.

Lemma boot_low n x : x < base -> boot_ram n x = 0.
Proof. intros Hx. unfold boot_ram. by rewrite (proj2 (Z.leb_gt _ _)) by lia. Qed.

Lemma tab_low m pg i : (forall x, pg <= x < pg + 4096 -> m x = 0) -> 0 <= i < 1024 -> tab m pg i = None.
Proof. intros Hm Hi. unfold tab, ld32. by rewrite !Hm by lia. Qed.

Lemma boot_tables n : 0 < n <= 1000 -> chain (boot_ram n) base (pages n) ->
  tables kend0 (boot n) dirA [tabT; frmF; dirD] (pages n) /\ tabs (boot_ram n) dirA = [].
Proof.
  intros Hn Hc.
  assert (Et : tabs (boot_ram n) dirA = []).
  { rewrite tabs_eq. apply omap_none. intros i Hi%elem_of_seqZ. apply tab_low; [|lia].
    intros x Hx. apply boot_low. unfold dirA, base in *. lia. }
  split; [|done]. split; [by apply boot_free| |]; cbn [km boot Kalloc.ram]; rewrite Et; cbn [app].
  - pose proof (pages_in n) as Hin. unfold base in Hin.
    assert (Hout : forall p, p < 2152726528 -> p ∉ pages n) by (intros p Hp H%Hin; lia).
    assert (Hne : NoDup [dirA; tabT; frmF; dirD]) by (apply (bool_decide_unpack _); by vm_compute).
    change (NoDup ([dirA; tabT; frmF; dirD] ++ pages n)). apply NoDup_app. split; [done|].
    split; [|apply pages_NoDup]. intros x Hx. apply Hout. unfold dirA, tabT, frmF, dirD in Hx. set_solver by lia.
  - repeat constructor; unfold dirA, tabT, frmF, dirD, kend0, KERNBASE, PHYSTOP; done || lia.
Qed.

(** The frame mapped at user address 0 of the directory. *)
Definition tab_entry : Z := Z.lor (Z.lor (Z.lor (V2P tabT) PTE_P) PTE_W) PTE_U.
Definition demo_ram1 (n : Z) : mem := st32 (Str.memset (boot_ram n) tabT 0 PGSIZE) (dirA + 4 * 0) tab_entry.
Definition demo_ram (n : Z) : mem := st32 (demo_ram1 n) tabT (entry (V2P frmF) 6).
Definition demo (n : Z) : vm := with_km (Kalloc.with_ram (demo_ram n) (km (boot n))) (boot n).

Lemma demo_view n : 0 < n <= 1000 -> chain (boot_ram n) base (pages n) ->
  tables kend0 (demo n) dirA [frmF; dirD] (pages n) /\
  tabs (demo_ram n) dirA ≡ₚ [tabT] /\ frames (demo_ram n) dirA ≡ₚ [frmF] /\
  forall w, 0 <= w < 1048576 ->
    mapping (demo_ram n) dirA w = if decide (w = 0) then Some (entry (V2P frmF) 6) else None.
Proof.
  intros Hn Hc. destruct (boot_tables n Hn Hc) as [Ht0 Et0].
  assert (Hk : KERNBASE < kend0) by done.
  assert (Hm0 : forall w, 0 <= w < 1048576 -> mapping (boot_ram n) dirA w = None).
  { intros w Hw. unfold mapping, pte_addr. rewrite tab_low; [done| |by apply idx_range].
    intros x Hx. apply boot_low. unfold dirA, base in *. lia. }
  assert (Hi0 : 0 <= 0 < 1024) by lia.
  assert (Htab0 : tab (boot_ram n) dirA 0 = None).
  { apply tab_low; [|lia]. intros x Hx. apply boot_low. unfold dirA, base in *. lia. }
  destruct (add_table kend0 Hk (boot n) dirA [frmF; dirD] (pages n) tabT 0 tab_entry Ht0 Hi0 Htab0 eq_refl)
    as (Ht1 & Htabs1 & _ & Htab1 & Hmap1).
  change (mem_of (boot n)) with (boot_ram n) in *. fold (demo_ram1 n) in *.
  set (s1 := with_km _ _) in *.
  assert (Ea : pte_addr (mem_of s1) dirA 0 = Some tabT).
  { unfold pte_addr. change (0 / 1024) with 0. change (mem_of s1) with (demo_ram1 n). by rewrite Htab1. }
  assert (He : 0 <= entry (V2P frmF) 6 < 4294967296) by (split; [by vm_compute|by vm_compute]).
  destruct (set_pte kend0 Hk s1 dirA [frmF; dirD] (pages n) 0 tabT _ Ht1 ltac:(lia) Ea He)
    as (Ht2 & Htabs2 & _ & _ & Hmap2).
  change (mem_of s1) with (demo_ram1 n) in *. fold (demo_ram n) in *.
  assert (Hmap : forall w, 0 <= w < 1048576 -> mapping (demo_ram n) dirA w =
    if decide (w = 0) then Some (entry (V2P frmF) 6) else mapping (boot_ram n) dirA w).
  { intros w Hw. rewrite Hmap2 by done. destruct (decide (w = 0)); [done|]. by rewrite Hmap1. }
  assert (Efr0 : frames (boot_ram n) dirA = []).
  { rewrite frames_eq. apply omap_none. intros v Hv%elem_of_seqZ. rewrite user_pages_eq in Hv.
    unfold frame_of. by rewrite Hm0 by lia. }
  split_and!; [done|by rewrite Htabs2, Htabs1; cbn [km boot Kalloc.ram]; rewrite Et0| |].
  - rewrite (frames_gain (boot_ram n) _ _ 0 (entry (V2P frmF) 6)), Efr0; [done| |by apply Hm0|done].
    rewrite user_pages_eq. lia.
  - intros w Hw. rewrite Hmap by done. destruct (decide (w = 0)); [done|]. by apply Hm0.
Qed.

Lemma demo_space n : 0 < n <= 1000 -> chain (boot_ram n) base (pages n) ->
  space kend0 (demo n) dirA [dirD] (pages n).
Proof.
  intros Hn Hc. destruct (demo_view n Hn Hc) as (Ht & _ & Hfr & _).
  eapply space_perm; [exact Ht|]. change (mem_of (demo n)) with (demo_ram n). by rewrite Hfr.
Qed.

Lemma chain70 : chain (boot_ram 70) base (pages 70).
Proof. vm_compute. repeat split. Qed.
Lemma chain1 : chain (boot_ram 1) base (pages 1).
Proof. vm_compute. repeat split. Qed.
End Demo.

Import Demo.

Lemma demo_data : 2148540416 mod 4096 = 0 /\ KERNLINK < 2148540416 < KERNBASE + PHYSTOP.
Proof. split; [done|]. unfold KERNLINK, KERNBASE, EXTMEM, PHYSTOP. lia. Qed.

(** Seventy free pages; the process grows, shrinks and asks for too much. *)
Lemma address_space_leaks_nothing_witness :
  exists r s' l', life kend0 2148540416 [8192; 4096; 1000000000; 0; 20000] (boot 70) = Ret r s' /\
    pool kend0 s' [] l' /\ l' ≡ₚ pages 70.
Proof.
  destruct (address_space_leaks_nothing kend0 2148540416 [8192; 4096; 1000000000; 0; 20000]
    (boot 70) [] (pages 70)) as (r & s' & l' & Hr & Hp & Hpm & _).
  - reflexivity.
  - apply boot_pool; [lia|apply chain70].
  - apply demo_data.
  - apply demo_data.
  - repeat constructor; unfold KERNBASE; lia.
  - exists r, s', l'. split_and!; assumption.
Defined.

(** A one-page process and seventy free pages. *)
Lemma copyuvm_private_witness :
  exists d s' l', copyuvm kend0 2148540416 dirA 100 (demo 70) = Ret d s' /\
    free_ok kend0 (km s') l' /\
    forall va, 0 <= va < KERNBASE -> user_byte (mem_of s') dirA va = user_byte (demo_ram 70) dirA va.
Proof.
  destruct (copyuvm_private kend0 2148540416 (demo 70) dirA [dirD] (pages 70) 100)
    as (d & s' & l' & Hr & Hf & Hpar & _).
  - reflexivity.
  - apply demo_space; [lia|apply chain70].
  - apply demo_data.
  - apply demo_data.
  - unfold KERNBASE. lia.
  - intros w Hw. change (page_up 100) with 1 in Hw.
    destruct (demo_view 70 ltac:(lia) chain70) as (_ & _ & _ & Hmap).
    change (mem_of (demo 70)) with (demo_ram 70). rewrite Hmap by lia.
    rewrite decide_True by lia. eauto.
  - exists d, s', l'. split; [exact Hr|]. split; [exact Hf|exact Hpar].
Defined.

(** The one-page process grows to 10000 bytes. *)
Lemma allocuvm_grows_witness :
  exists r s' l', allocuvm kend0 dirA 4096 10000 (demo 70) = Ret r s' /\
    space kend0 s' dirA [dirD] l'.
Proof.
  destruct (allocuvm_grows kend0 (demo 70) dirA [dirD] (pages 70) 4096 10000)
    as (r & s' & l' & Hr & Hs & _).
  - reflexivity.
  - apply demo_space; [lia|apply chain70].
  - lia.
  - lia.
  - unfold KERNBASE. lia.
  - intros w Hw. change (page_up 4096) with 1 in Hw. change (page_up 10000) with 3 in Hw.
    destruct (demo_view 70 ltac:(lia) chain70) as (_ & _ & _ & Hmap).
    change (mem_of (demo 70)) with (demo_ram 70). rewrite Hmap by lia.
    rewrite decide_False by lia. reflexivity.
  - exists r, s', l'. split_and!; assumption.
Defined.

(** Four bytes of kernel memory go to user address 10. *)
Lemma copyout_spec_witness :
  exists r s' n, copyout dirA 10 dirD 4 (demo 1) = Ret r s' /\ space kend0 s' dirA [dirD] (pages 1) /\
    forall i, 0 <= i < n -> user_byte (mem_of s') dirA (10 + i) = Some (demo_ram 1 (dirD + i)).
Proof.
  destruct (demo_view 1 ltac:(lia) chain1) as (_ & _ & Hfr & Hmap).
  destruct (copyout_spec kend0 (demo 1) dirA [dirD] (pages 1) 10 dirD 4)
    as (r & s' & n & Hr & Hs & _ & Hb & _).
  - reflexivity.
  - apply demo_space; [lia|apply chain1].
  - lia.
  - lia.
  - unfold KERNBASE. lia.
  - discriminate.
  - reflexivity.
  - intros u Hu. assert (u / 4096 = 0) as -> by (apply Z.div_small; lia).
    change (mem_of (demo 1)) with (demo_ram 1). rewrite Hmap by lia. eauto.
  - intros f Hf. change (mem_of (demo 1)) with (demo_ram 1) in Hf. rewrite Hfr in Hf.
    apply list_elem_of_singleton in Hf as ->. left. unfold dirD, frmF. lia.
  - exists r, s', n. split_and!; assumption.
Defined.

Lemma setupkvm_maps_witness :
  exists pg s' l', setupkvm kend0 2148540416 (boot 70) = Ret pg s' /\
    (pg = 0 /\ l' ≡ₚ pages 70 \/ pg <> 0 /\ space kend0 s' pg [] l').
Proof.
  destruct (setupkvm_maps kend0 2148540416 (boot 70) [] (pages 70))
    as (pg & s' & l' & Hr & _ & Hcase).
  - reflexivity.
  - apply boot_pool; [lia|apply chain70].
  - apply demo_data.
  - apply demo_data.
  - exists pg, s', l'. split; [exact Hr|]. destruct Hcase as [(? & _ & ?)|(? & ? & _)]; [left|right]; split; assumption.
Defined.

(** One free page: the child [dirD] has no table yet. *)
Lemma copyuvm_leaks_witness :
  exists s1 s2 l', copyuvm_body dirA dirD 100 (0 * 4096) (demo 1) = Ret (inr false) s1 /\
    freevm kend0 dirD s1 = Ret tt s2 /\ free_ok kend0 (km s2) l' /\ base ∉ l'.
Proof.
  destruct (demo_view 1 ltac:(lia) chain1) as (Ht & Htabs & Hfr & Hmap).
  assert (Hz : forall x, dirD <= x < dirD + 4096 -> demo_ram 1 x = 0).
  { intros x Hx. unfold demo_ram, demo_ram1. unfold dirD, tabT, dirA in *.
    rewrite !st32_other by lia. rewrite memset_get by (unfold PGSIZE; lia).
    rewrite (proj2 (Z.leb_gt _ _)) by lia. apply boot_low. unfold base. lia. }
  assert (Hno : forall i, 0 <= i < 1024 -> tab (demo_ram 1) dirD i = None)
    by (intros i Hi; by apply tab_low).
  assert (HtD : tabs (demo_ram 1) dirD = []).
  { rewrite tabs_eq. apply omap_none. intros i Hi%elem_of_seqZ. apply Hno. lia. }
  assert (HfD : frames (demo_ram 1) dirD = []).
  { rewrite frames_eq. apply omap_none. intros v Hv%elem_of_seqZ. rewrite user_pages_eq in Hv.
    unfold frame_of, mapping, pte_addr. rewrite Hno; [done|]. apply idx_range. lia. }
  destruct (copyuvm_leaks kend0 (demo 1) dirD dirA [] base 0 (entry (V2P frmF) 6) 100)
    as (s1 & s2 & l' & H1 & H2 & H3 & _ & H4 & _).
  - reflexivity.
  - change (pages 1) with [base] in Ht. destruct Ht as [Hf Hn Hp].
    change (mem_of (demo 1)) with (demo_ram 1) in *.
    split; change (mem_of (demo 1)) with (demo_ram 1); rewrite ?HtD, ?HfD; [exact Hf| |].
    + eapply NoDup_Permutation_proper; [|exact Hn]. unfold owned. clear - Htabs Hfr. perm_solve.
    + assert (E : dirD :: [] ++ [] ++ owned (demo_ram 1) dirA ++ [] ≡ₚ [dirD; dirA; tabT; frmF])
        by (unfold owned; clear - Htabs Hfr; perm_solve).
      cbn [app] in *. rewrite E. repeat (apply Forall_cons; split;
        [apply page_ok_low; [reflexivity|unfold dirD, dirA, tabT, frmF, kend0, base; lia]|]).
      by constructor.
  - rewrite user_pages_eq. lia.
  - lia.
  - unfold pte_addr. change (mem_of (demo 1)) with (demo_ram 1). rewrite Hno; [done|]. done.
  - change (mem_of (demo 1)) with (demo_ram 1). rewrite Hmap by lia. by rewrite decide_True by lia.
  - exists s1, s2, l'. split_and!; assumption.
Defined.
