(* ===== verification/Fs.v ===== *)
(** * The file system

    [fs.c] over the log: blocks, inodes, directories and path names.  A
    pointer to a cached inode is its index in the inode cache; a buffer that a
    caller hands over is the list of its bytes, a C string the list of its
    bytes before the NUL.  The superblock's fields are kept as the seven words
    of block 1. *)

From S2P Require Import Prelude Locks Bio Log.

Module Fs.
Import Bio Log.

Definition NINODE : nat := 50.
Definition NDEV : Z := 10.
Definition ROOTDEV : Z := 1.
Definition ROOTINO : Z := 1.
Definition NDIRECT : Z := 12.
Definition NINDIRECT : Z := 128.
Definition MAXFILE : Z := NDIRECT + NINDIRECT.
Definition IPB : Z := 8.
Definition BPB : Z := 4096.
Definition DIRSIZ : nat := 14.
Definition T_DIR : Z := 1.
Definition T_FILE : Z := 2.
Definition T_DEV : Z := 3.
Definition bsize : Z := 512.

Definition i16 (z : Z) : Z := (z + 32768) mod 65536 - 32768.

Record superblock := {
  size : Z; nblocks : Z; ninodes : Z; nlog : Z; logstart : Z; inodestart : Z; bmapstart : Z }.

Definition sb_of (w : list Z) : superblock :=
  {| size := nth 0 w 0; nblocks := nth 1 w 0; ninodes := nth 2 w 0; nlog := nth 3 w 0;
     logstart := nth 4 w 0; inodestart := nth 5 w 0; bmapstart := nth 6 w 0 |}.

(** [struct inode]; of the sleep lock, whether it is held. *)
Record inode := {
  idev : Z; inum : Z; iref : Z; ilocked : bool; ivalid : bool;
  type : Z; major : Z; minor : Z; nlink : Z; isize : Z; addrs : list Z }.

Definition set_iref n ip := {| idev := idev ip; inum := inum ip; iref := n; ilocked := ilocked ip; ivalid := ivalid ip; type := type ip; major := major ip; minor := minor ip; nlink := nlink ip; isize := isize ip; addrs := addrs ip |}.
Definition set_ilocked b ip := {| idev := idev ip; inum := inum ip; iref := iref ip; ilocked := b; ivalid := ivalid ip; type := type ip; major := major ip; minor := minor ip; nlink := nlink ip; isize := isize ip; addrs := addrs ip |}.
Definition set_ivalid b ip := {| idev := idev ip; inum := inum ip; iref := iref ip; ilocked := ilocked ip; ivalid := b; type := type ip; major := major ip; minor := minor ip; nlink := nlink ip; isize := isize ip; addrs := addrs ip |}.
Definition set_type n ip := {| idev := idev ip; inum := inum ip; iref := iref ip; ilocked := ilocked ip; ivalid := ivalid ip; type := n; major := major ip; minor := minor ip; nlink := nlink ip; isize := isize ip; addrs := addrs ip |}.
Definition set_dev mj mn ip := {| idev := idev ip; inum := inum ip; iref := iref ip; ilocked := ilocked ip; ivalid := ivalid ip; type := type ip; major := mj; minor := mn; nlink := nlink ip; isize := isize ip; addrs := addrs ip |}.
Definition set_nlink n ip := {| idev := idev ip; inum := inum ip; iref := iref ip; ilocked := ilocked ip; ivalid := ivalid ip; type := type ip; major := major ip; minor := minor ip; nlink := n; isize := isize ip; addrs := addrs ip |}.
Definition set_isize n ip := {| idev := idev ip; inum := inum ip; iref := iref ip; ilocked := ilocked ip; ivalid := ivalid ip; type := type ip; major := major ip; minor := minor ip; nlink := nlink ip; isize := n; addrs := addrs ip |}.
Definition set_addrs l ip := {| idev := idev ip; inum := inum ip; iref := iref ip; ilocked := ilocked ip; ivalid := ivalid ip; type := type ip; major := major ip; minor := minor ip; nlink := nlink ip; isize := isize ip; addrs := l |}.

(** The assignments [iget] makes to an empty slot. *)
Definition fresh_inode (dv i : Z) (ip : inode) : inode :=
  {| idev := dv; inum := i; iref := 1; ilocked := ilocked ip; ivalid := false; type := type ip;
     major := major ip; minor := minor ip; nlink := nlink ip; isize := isize ip; addrs := addrs ip |}.

(** The log and the cache under it, the superblock in memory, [icache] with
    this CPU's view of its lock, and the calls of [cprintf]: format and numbers. *)
Record fst := {
  lg : lst; sb : superblock; icache : list inode; icache_lk : bool; console : list (string * list Z) }.

Definition with_lg v s := {| lg := v; sb := sb s; icache := icache s; icache_lk := icache_lk s; console := console s |}.
Definition with_super v s := {| lg := lg s; sb := v; icache := icache s; icache_lk := icache_lk s; console := console s |}.
Definition with_icache v s := {| lg := lg s; sb := sb s; icache := v; icache_lk := icache_lk s; console := console s |}.
Definition with_console v s := {| lg := lg s; sb := sb s; icache := icache s; icache_lk := icache_lk s; console := v |}.

#[global] Instance fst_spin : Cli.SpinState fst unit := {|
  Cli.cpu_of := fun s => bcpu (io (lg s));
  Cli.set_cpu := fun c s => with_lg (Cli.set_cpu c (lg s)) s;
  Cli.lk_of := fun _ => icache_lk;
  Cli.set_lk := fun _ b s => {| lg := lg s; sb := sb s; icache := icache s; icache_lk := b;
    console := console s |} |}.

Definition acquire : M fst unit := Cli.acquire tt.
Definition release : M fst unit := Cli.release tt.

(** Calls of the log and of the block cache. *)
Definition log {A} (m : M lst A) : M fst A := zoom lg with_lg m.
Definition bread (dv n : Z) : M fst nat := log (blk (Bio.bread dv n)).
Definition brelse (i : nat) : M fst unit := log (blk (Bio.brelse i)).
Definition log_write (i : nat) : M fst unit := log (Log.log_write i).
(** [bp->data], read and assigned. *)
Definition data (i : nat) : M fst (list Z) := log (blk (let! b := buf_at i in ret (bdata b))).
Definition set_data (i : nat) (d : list Z) : M fst unit := log (blk (upd i (set_bdata d))).

Definition iat (ip : nat) : M fst inode := let! s := get in from_opt (icache s !! ip).
Definition iupd (ip : nat) (f : inode -> inode) : M fst unit :=
  modify (fun s => with_icache (alter f ip (icache s)) s).

(** The inode's sleep lock; waiting for it ends the run. *)
Definition acquiresleep (ip : nat) : M fst unit :=
  let! i := iat ip in
  if ilocked i then fun s => Asleep (Z.of_nat ip) s else iupd ip (set_ilocked true).
Definition releasesleep (ip : nat) : M fst unit := iupd ip (set_ilocked false).
Definition holdingsleep (ip : nat) : M fst bool := let! i := iat ip in ret (ilocked i).

(** ** Bytes of a block *)

(** Replace the bytes from [off]. *)
Definition splice (d : list Z) (off : Z) (bs : list Z) : list Z :=
  take (Z.to_nat off) d ++ bs ++ drop (Z.to_nat off + length bs) d.
Definition ld_half (d : list Z) (i : nat) : Z := i16 (nth (2 * i) d 0 + 256 * nth (2 * i + 1) d 0).
Definition st_half (d : list Z) (i : nat) (v : Z) : list Z :=
  splice d (Z.of_nat (2 * i)) [v mod 256; v / 256 mod 256].

(** ** Blocks *)

Definition readsb (dv : Z) : M fst unit :=
  let! w := log (Log.readsb dv) in modify (with_super (sb_of w)).

Definition bzero (dv bno : Z) : M fst unit := log (Log.bzero dv bno).

Definition BBLOCK (b : Z) (s : superblock) : Z := u32 (b / BPB + bmapstart s).
Definition IBLOCK (i : Z) (s : superblock) : Z := u32 (i / IPB + inodestart s).

(** The loop over the bits of one bitmap block: the first clear bit. *)
Fixpoint scan_bits (fuel : nat) (d : list Z) (b bi sz : Z) : option Z :=
  match fuel with
  | O => None
  | S fuel' =>
      if (bi <? BPB) && (b + bi <? sz) then
        let m := Z.shiftl 1 (bi mod 8) in
        if Z.land (nth (Z.to_nat (bi / 8)) d 0) m =? 0 then Some bi
        else scan_bits fuel' d b (bi + 1) sz
      else None
  end.

(** [data[bi/8] |= m] and [data[bi/8] &= ~m]. *)
Definition set_bit (d : list Z) (bi : Z) : list Z :=
  <[Z.to_nat (bi / 8) := Z.lor (nth (Z.to_nat (bi / 8)) d 0) (Z.shiftl 1 (bi mod 8))]> d.
Definition clear_bit (d : list Z) (bi : Z) : list Z :=
  <[Z.to_nat (bi / 8) := Z.ldiff (nth (Z.to_nat (bi / 8)) d 0) (Z.shiftl 1 (bi mod 8))]> d.

Definition balloc_body (dv b : Z) : M fst (Z + Z) :=
  let! s := get in
  if b <? size (sb s) then
    let! bp := bread dv (BBLOCK b (sb s)) in
    let! d := data bp in
    match scan_bits (S (Z.to_nat BPB)) d b 0 (size (sb s)) with
    | Some bi =>
        set_data bp (set_bit d bi) ;;;
        log_write bp ;;;
        brelse bp ;;;
        bzero dv (b + bi) ;;;
        ret (inr (b + bi))
    | None =>
        brelse bp ;;;
        ret (inl (b + BPB))
    end
  else panic "balloc: out of blocks".

Definition balloc (dv : Z) : M fst Z :=
  let! s := get in
  loop (S (Z.to_nat (size (sb s) / BPB + 1))) (balloc_body dv) 0.

Definition bfree (dv b : Z) : M fst unit :=
  readsb dv ;;;
  let! s := get in
  let! bp := bread dv (BBLOCK b (sb s)) in
  let! d := data bp in
  let bi := b mod BPB in
  let m := Z.shiftl 1 (bi mod 8) in
  if Z.land (nth (Z.to_nat (bi / 8)) d 0) m =? 0 then panic "freeing free block"
  else
    set_data bp (clear_bit d bi) ;;;
    log_write bp ;;;
    brelse bp.

(** ** Inodes *)

Definition newline : string := String (Ascii.ascii_of_nat 10) EmptyString.
Definition cprintf (format : string) (args : list Z) : M fst unit :=
  modify (fun s => with_console (console s ++ [(format, args)]) s).

Definition iinit (dv : Z) : M fst unit :=
  modify (Cli.set_lk tt false) ;;;
  modify (fun s => with_icache (set_ilocked false <$> icache s) s) ;;;
  readsb dv ;;;
  let! s := get in
  let b := sb s in
  cprintf (String.append
    "sb: size %d nblocks %d ninodes %d nlog %d logstart %d inodestart %d bmap start %d" newline)
    [size b; nblocks b; ninodes b; nlog b; logstart b; inodestart b; bmapstart b].

Definition iget (dv i : Z) : M fst nat :=
  acquire ;;;
  let! s := get in
  match find_idx (fun ip => (iref ip >? 0) && (idev ip =? dv) && (inum ip =? i)) (icache s) with
  | Some ip =>
      iupd ip (fun x => set_iref (iref x + 1) x) ;;;
      release ;;;
      ret ip
  | None =>
      match find_idx (fun ip => iref ip =? 0) (icache s) with
      | None => panic "iget: no inodes"
      | Some ip =>
          iupd ip (fresh_inode dv i) ;;;
          release ;;;
          ret ip
      end
  end.

Definition idup (ip : nat) : M fst nat :=
  acquire ;;;
  iupd ip (fun x => set_iref (iref x + 1) x) ;;;
  release ;;;
  ret ip.

(** The on-disk inode in slot [k] of its block: half-words and words. *)
Definition ialloc_body (dv ty i : Z) : M fst (Z + nat) :=
  let! s := get in
  if i <? ninodes (sb s) then
    let! bp := bread dv (IBLOCK i (sb s)) in
    let! d := data bp in
    let k := Z.to_nat (i mod IPB) in
    if ld_half d (32 * k) =? 0 then
      let d1 := splice d (64 * Z.of_nat k) (replicate 64 0) in
      set_data bp (st_half d1 (32 * k) ty) ;;;
      log_write bp ;;;
      brelse bp ;;;
      let! ip := iget dv i in
      ret (inr ip)
    else
      brelse bp ;;;
      ret (inl (i + 1))
  else panic "ialloc: no inodes".

Definition ialloc (dv ty : Z) : M fst nat :=
  let! s := get in
  loop (S (Z.to_nat (ninodes (sb s)))) (ialloc_body dv ty) 1.

(** The assignments to [dip], field by field. *)
Definition put_dinode (x : inode) (k : nat) (d : list Z) : list Z :=
  let d := st_half d (32 * k) (type x) in
  let d := st_half d (32 * k + 1) (major x) in
  let d := st_half d (32 * k + 2) (minor x) in
  let d := st_half d (32 * k + 3) (nlink x) in
  let d := st_word d (16 * k + 2) (isize x) in
  foldl (fun d j => st_word d (16 * k + 3 + j) (nth j (addrs x) 0)) d (seq 0 13).

Definition iupdate (ip : nat) : M fst unit :=
  let! x := iat ip in
  let! s := get in
  let! bp := bread (idev x) (IBLOCK (inum x) (sb s)) in
  let! d := data bp in
  set_data bp (put_dinode x (Z.to_nat (inum x mod IPB)) d) ;;;
  log_write bp ;;;
  brelse bp.

(** The assignments from [dip]. *)
Definition get_dinode (k : nat) (d : list Z) (x : inode) : inode :=
  {| idev := idev x; inum := inum x; iref := iref x; ilocked := ilocked x; ivalid := ivalid x;
     type := ld_half d (32 * k); major := ld_half d (32 * k + 1); minor := ld_half d (32 * k + 2);
     nlink := ld_half d (32 * k + 3); isize := ld_word d (16 * k + 2);
     addrs := (fun j => ld_word d (16 * k + 3 + j)) <$> seq 0 13 |}.

(** A null inode pointer is [None]. *)
Definition ilock (p : option nat) : M fst unit :=
  match p with
  | None => panic "ilock"
  | Some ip =>
      let! x := iat ip in
      if iref x <? 1 then panic "ilock"
      else
        acquiresleep ip ;;;
        let! x := iat ip in
        if negb (ivalid x) then
          let! s := get in
          let! bp := bread (idev x) (IBLOCK (inum x) (sb s)) in
          let! d := data bp in
          iupd ip (get_dinode (Z.to_nat (inum x mod IPB)) d) ;;;
          brelse bp ;;;
          iupd ip (set_ivalid true) ;;;
          let! x := iat ip in
          if type x =? 0 then panic "ilock: no type" else ret tt
        else ret tt
  end.

Definition iunlock (p : option nat) : M fst unit :=
  match p with
  | None => panic "iunlock"
  | Some ip =>
      let! h := holdingsleep ip in
      let! x := iat ip in
      if negb h || (iref x <? 1) then panic "iunlock" else releasesleep ip
  end.

(** ** Inode content *)

(** [ip->addrs[j]], and its assignment. *)
Definition addr_at (x : inode) (j : Z) : Z := nth (Z.to_nat j) (addrs x) 0.
Definition set_addr (ip : nat) (j a : Z) : M fst unit :=
  iupd ip (fun x => set_addrs (<[Z.to_nat j := a]> (addrs x)) x).

Definition bmap (ip : nat) (bn : Z) : M fst Z :=
  let! x := iat ip in
  if bn <? NDIRECT then
    if addr_at x bn =? 0 then
      let! a := balloc (idev x) in
      set_addr ip bn a ;;;
      ret a
    else ret (addr_at x bn)
  else
    let bn := bn - NDIRECT in
    if bn <? NINDIRECT then
      let! addr :=
        (if addr_at x NDIRECT =? 0 then
           let! a := balloc (idev x) in
           set_addr ip NDIRECT a ;;;
           ret a
         else ret (addr_at x NDIRECT)) in
      let! bp := bread (idev x) addr in
      let! d := data bp in
      let! addr :=
        (if ld_word d (Z.to_nat bn) =? 0 then
           let! a := balloc (idev x) in
           let! d := data bp in
           set_data bp (st_word d (Z.to_nat bn) a) ;;;
           log_write bp ;;;
           ret a
         else ret (ld_word d (Z.to_nat bn))) in
      brelse bp ;;;
      ret addr
    else panic "bmap: out of range".

Definition itrunc (ip : nat) : M fst unit :=
  for_each (seqZ 0 NDIRECT) (fun i =>
    let! x := iat ip in
    if negb (addr_at x i =? 0) then
      bfree (idev x) (addr_at x i) ;;;
      set_addr ip i 0
    else ret tt) ;;;
  let! x := iat ip in
  (if negb (addr_at x NDIRECT =? 0) then
     let! bp := bread (idev x) (addr_at x NDIRECT) in
     for_each (seqZ 0 NINDIRECT) (fun j =>
       let! d := data bp in
       if negb (ld_word d (Z.to_nat j) =? 0) then bfree (idev x) (ld_word d (Z.to_nat j))
       else ret tt) ;;;
     brelse bp ;;;
     bfree (idev x) (addr_at x NDIRECT) ;;;
     set_addr ip NDIRECT 0
   else ret tt) ;;;
  iupd ip (set_isize 0) ;;;
  iupdate ip.

Definition iput (ip : nat) : M fst unit :=
  acquiresleep ip ;;;
  let! x := iat ip in
  (if ivalid x && (nlink x =? 0) then
     acquire ;;;
     let! x := iat ip in
     let r := iref x in
     release ;;;
     if r =? 1 then
       itrunc ip ;;;
       iupd ip (set_type 0) ;;;
       iupdate ip ;;;
       iupd ip (set_ivalid false)
     else ret tt
   else ret tt) ;;;
  releasesleep ip ;;;
  acquire ;;;
  iupd ip (fun x => set_iref (iref x - 1) x) ;;;
  release.

Definition iunlockput (p : option nat) : M fst unit :=
  iunlock p ;;;
  match p with Some ip => iput ip | None => fault end.

(** [struct stat]. *)
Record stat := { st_dev : Z; st_ino : Z; st_type : Z; st_nlink : Z; st_size : Z }.

Definition stati (ip : nat) : M fst stat :=
  let! x := iat ip in
  ret {| st_dev := i32 (idev x); st_ino := inum x; st_type := type x; st_nlink := nlink x;
         st_size := isize x |}.

Section Devices.
(** The device table: what the driver of a major number reads into the
    caller's buffer, or does with the bytes it is handed. *)
Context (devsw_read : Z -> option (nat -> Z -> M fst (Z * list Z))).
Context (devsw_write : Z -> option (nat -> list Z -> M fst Z)).

(** One turn of the loop of [readi]: the bytes read so far. *)
Definition readi_body (ip : nat) (n : Z) (st : Z * Z * list Z) : M fst ((Z * Z * list Z) + list Z) :=
  let '(tot, off, dst) := st in
  if tot <? n then
    let! a := bmap ip (off / bsize) in
    let! x := iat ip in
    let! bp := bread (idev x) a in
    let m := Z.min (u32 (n - tot)) (bsize - off mod bsize) in
    let! d := data bp in
    let dst := dst ++ take (Z.to_nat m) (drop (Z.to_nat (off mod bsize)) d) in
    brelse bp ;;;
    ret (inl (u32 (tot + m), u32 (off + m), dst))
  else ret (inr dst).

(** The result of [readi] and the bytes it puts at [dst]. *)
Definition readi (ip : nat) (off n : Z) : M fst (Z * list Z) :=
  let! x := iat ip in
  if type x =? T_DEV then
    if (major x <? 0) || (major x >=? NDEV) then ret (-1, [])
    else match devsw_read (major x) with
         | None => ret (-1, [])
         | Some rd => rd ip (i32 n)
         end
  else if (off >? isize x) || (u32 (off + n) <? off) then ret (-1, [])
  else
    let n := if u32 (off + n) >? isize x then u32 (isize x - off) else n in
    let! dst := loop (S (Z.to_nat (n / bsize + 2))) (readi_body ip n) (0, off, []) in
    ret (i32 n, dst).

Definition writei_body (ip : nat) (n : Z) (st : Z * Z * list Z) : M fst ((Z * Z * list Z) + Z) :=
  let '(tot, off, src) := st in
  if tot <? n then
    let! a := bmap ip (off / bsize) in
    let! x := iat ip in
    let! bp := bread (idev x) a in
    let m := Z.min (u32 (n - tot)) (bsize - off mod bsize) in
    let! d := data bp in
    set_data bp (splice d (off mod bsize) (take (Z.to_nat m) src)) ;;;
    log_write bp ;;;
    brelse bp ;;;
    ret (inl (u32 (tot + m), u32 (off + m), drop (Z.to_nat m) src))
  else ret (inr off).

(** [src] are the bytes at the caller's pointer. *)
Definition writei (ip : nat) (src : list Z) (off n : Z) : M fst Z :=
  let! x := iat ip in
  if type x =? T_DEV then
    if (major x <? 0) || (major x >=? NDEV) then ret (-1)
    else match devsw_write (major x) with
         | None => ret (-1)
         | Some wr => wr ip (take (Z.to_nat (i32 n)) src)
         end
  else if (off >? isize x) || (u32 (off + n) <? off) then ret (-1)
  else if u32 (off + n) >? MAXFILE * bsize then ret (-1)
  else
    let! off := loop (S (Z.to_nat (n / bsize + 2))) (writei_body ip n) (0, off, src) in
    let! x := iat ip in
    (if (n >? 0) && (off >? isize x) then
       iupd ip (set_isize off) ;;;
       iupdate ip
     else ret tt) ;;;
    ret (i32 n).

(** ** Directories *)

Fixpoint strncmp (p q : list Z) (n : nat) : Z :=
  match n with
  | O => 0
  | S n' =>
      if negb (hd 0 p =? 0) && (hd 0 p =? hd 0 q) then strncmp (tl p) (tl q) n'
      else u8 (hd 0 p) - u8 (hd 0 q)
  end.

Fixpoint strncpy (t : list Z) (n : nat) : list Z :=
  match n with
  | O => []
  | S n' => match t with [] => 0 :: strncpy [] n' | c :: t' => c :: strncpy t' n' end
  end.

Definition namecmp (s t : list Z) : Z := strncmp s t DIRSIZ.

(** [struct dirent]: the inode number and the name in sixteen bytes. *)
Definition de_inum (de : list Z) : Z := u16 (nth 0 de 0 + 256 * nth 1 de 0).
Definition de_name (de : list Z) : list Z := drop 2 de.
Definition dirent (i : Z) (name : list Z) : list Z :=
  [u16 i mod 256; u16 i / 256] ++ strncpy name DIRSIZ.
Definition de_size : Z := 16.

(** [inr] is the inode and the offset of its entry, or null. *)
Definition dirlookup_body (dp : nat) (name : list Z) (off : Z) : M fst (Z + option (nat * Z)) :=
  let! x := iat dp in
  if off <? isize x then
    let! (r, de) := readi dp off de_size in
    if negb (r =? de_size) then panic "dirlookup read"
    else if de_inum de =? 0 then ret (inl (u32 (off + de_size)))
    else if namecmp name (de_name de) =? 0 then
      let! ip := iget (idev x) (de_inum de) in
      ret (inr (Some (ip, off)))
    else ret (inl (u32 (off + de_size)))
  else ret (inr None).

Definition dirlookup (dp : nat) (name : list Z) : M fst (option (nat * Z)) :=
  let! x := iat dp in
  if negb (type x =? T_DIR) then panic "dirlookup not DIR"
  else loop (S (Z.to_nat (isize x / de_size + 1))) (dirlookup_body dp name) 0.

(** The search of [dirlink] for an empty entry. *)
Definition dirlink_body (dp : nat) (off : Z) : M fst (Z + Z) :=
  let! x := iat dp in
  if off <? isize x then
    let! (r, de) := readi dp off de_size in
    if negb (r =? de_size) then panic "dirlink read"
    else if de_inum de =? 0 then ret (inr off) else ret (inl (u32 (off + de_size)))
  else ret (inr off).

Definition dirlink (dp : nat) (name : list Z) (i : Z) : M fst Z :=
  let! r := dirlookup dp name in
  match r with
  | Some (ip, _) => iput ip ;;; ret (-1)
  | None =>
      let! x := iat dp in
      let! off := loop (S (Z.to_nat (isize x / de_size + 1))) (dirlink_body dp) 0 in
      let! r := writei dp (dirent i name) off de_size in
      if negb (r =? de_size) then panic "dirlink" else ret 0
  end.

(** ** Paths *)

Definition slash : Z := 47.

Fixpoint skip_slashes (path : list Z) : list Z :=
  match path with
  | c :: path' => if c =? slash then skip_slashes path' else path
  | [] => []
  end.

(** The element up to the next slash, and what follows it. *)
Fixpoint element (path : list Z) : list Z * list Z :=
  match path with
  | c :: path' =>
      if c =? slash then ([], path) else let '(e, r) := element path' in (c :: e, r)
  | [] => ([], [])
  end.

(** The name copied and the rest of the path. *)
Definition skipelem (path : list Z) : option (list Z * list Z) :=
  match skip_slashes path with
  | [] => None
  | path =>
      let '(s, rest) := element path in
      Some (take DIRSIZ s, skip_slashes rest)
  end.

Definition namex_body (parent : bool) (st : nat * list Z * list Z)
    : M fst ((nat * list Z * list Z) + option (nat * list Z)) :=
  let '(ip, path, name) := st in
  match skipelem path with
  | Some (name, path) =>
      ilock (Some ip) ;;;
      let! x := iat ip in
      if negb (type x =? T_DIR) then
        iunlockput (Some ip) ;;;
        ret (inr None)
      else if parent && (match path with [] => true | _ => false end) then
        iunlock (Some ip) ;;;
        ret (inr (Some (ip, name)))
      else
        let! next := dirlookup ip name in
        match next with
        | None =>
            iunlockput (Some ip) ;;;
            ret (inr None)
        | Some (next, _) =>
            iunlockput (Some ip) ;;;
            ret (inl (next, path, name))
        end
  | None =>
      if parent then
        iput ip ;;;
        ret (inr None)
      else ret (inr (Some (ip, name)))
  end.

(** [cwd] is [myproc()->cwd]; the result carries the last name copied. *)
Definition namex (cwd : nat) (path : list Z) (parent : bool) : M fst (option (nat * list Z)) :=
  let! ip := (if hd 0 path =? slash then iget ROOTDEV ROOTINO else idup cwd) in
  loop (S (length path)) (namex_body parent) (ip, path, []).

Definition namei (cwd : nat) (path : list Z) : M fst (option nat) :=
  let! r := namex cwd path false in ret (fmap (M := option) Datatypes.fst r).
Definition nameiparent (cwd : nat) (path : list Z) : M fst (option (nat * list Z)) :=
  namex cwd path true.

End Devices.
End Fs.
