(* ===== verification/Console.v ===== *)
(** * The console

    [console.c] with the output half of [uart.c]: formatted printing, the text
    screen, and the line discipline between the keyboard interrupt and
    [consoleread].  The devices are part of the state: the bytes sent to the
    serial port, the cells of the screen and its cursor register. *)

From S2P Require Import Prelude Locks Fs.

Module Console.

(** ** State *)

(** [panicked], [cons], the serial port, the screen, [input], and of the
    running process whether it was killed; the number of wake-ups of
    [&input.r] and of process listings. *)
Record cst := {
  panicked : bool; locking : bool; clk : bool; ccpu : Cli.cpu;
  uart : bool; serial : list Z; crt : list Z; pos : Z;
  ibuf : list Z; ir : Z; iw : Z; ie : Z;
  killed : Z; wakes : nat; dumps : nat }.

Definition with_panicked v s := {| panicked := v; locking := locking s; clk := clk s; ccpu := ccpu s; uart := uart s; serial := serial s; crt := crt s; pos := pos s; ibuf := ibuf s; ir := ir s; iw := iw s; ie := ie s; killed := killed s; wakes := wakes s; dumps := dumps s |}.
Definition with_locking v s := {| panicked := panicked s; locking := v; clk := clk s; ccpu := ccpu s; uart := uart s; serial := serial s; crt := crt s; pos := pos s; ibuf := ibuf s; ir := ir s; iw := iw s; ie := ie s; killed := killed s; wakes := wakes s; dumps := dumps s |}.
Definition with_serial v s := {| panicked := panicked s; locking := locking s; clk := clk s; ccpu := ccpu s; uart := uart s; serial := v; crt := crt s; pos := pos s; ibuf := ibuf s; ir := ir s; iw := iw s; ie := ie s; killed := killed s; wakes := wakes s; dumps := dumps s |}.
Definition with_screen c p s := {| panicked := panicked s; locking := locking s; clk := clk s; ccpu := ccpu s; uart := uart s; serial := serial s; crt := c; pos := p; ibuf := ibuf s; ir := ir s; iw := iw s; ie := ie s; killed := killed s; wakes := wakes s; dumps := dumps s |}.
Definition with_input b r w e s := {| panicked := panicked s; locking := locking s; clk := clk s; ccpu := ccpu s; uart := uart s; serial := serial s; crt := crt s; pos := pos s; ibuf := b; ir := r; iw := w; ie := e; killed := killed s; wakes := wakes s; dumps := dumps s |}.
Definition with_killed v s := {| panicked := panicked s; locking := locking s; clk := clk s; ccpu := ccpu s; uart := uart s; serial := serial s; crt := crt s; pos := pos s; ibuf := ibuf s; ir := ir s; iw := iw s; ie := ie s; killed := v; wakes := wakes s; dumps := dumps s |}.
Definition with_wakes v s := {| panicked := panicked s; locking := locking s; clk := clk s; ccpu := ccpu s; uart := uart s; serial := serial s; crt := crt s; pos := pos s; ibuf := ibuf s; ir := ir s; iw := iw s; ie := ie s; killed := killed s; wakes := v; dumps := dumps s |}.
Definition with_dumps v s := {| panicked := panicked s; locking := locking s; clk := clk s; ccpu := ccpu s; uart := uart s; serial := serial s; crt := crt s; pos := pos s; ibuf := ibuf s; ir := ir s; iw := iw s; ie := ie s; killed := killed s; wakes := wakes s; dumps := v |}.

#[global] Instance cons_spin : Cli.SpinState cst unit := {|
  Cli.cpu_of := ccpu;
  Cli.set_cpu := fun c s => {| panicked := panicked s; locking := locking s; clk := clk s; ccpu := c;
    uart := uart s; serial := serial s; crt := crt s; pos := pos s; ibuf := ibuf s; ir := ir s; iw := iw s;
    ie := ie s; killed := killed s; wakes := wakes s; dumps := dumps s |};
  Cli.lk_of := fun _ => clk;
  Cli.set_lk := fun _ b s => {| panicked := panicked s; locking := locking s; clk := b; ccpu := ccpu s;
    uart := uart s; serial := serial s; crt := crt s; pos := pos s; ibuf := ibuf s; ir := ir s; iw := iw s;
    ie := ie s; killed := killed s; wakes := wakes s; dumps := dumps s |} |}.

#[global] Instance cons_laws : Cli.SpinLaws cst unit.
Proof. by split. Qed.

Definition acquire : M cst unit := Cli.acquire tt.
Definition release : M cst unit := Cli.release tt.

(** ** The devices *)

Definition BACKSPACE : Z := 256.

(** The wait for the transmitter, at most 128 polls, has no other effect. *)
Definition uartputc (c : Z) : M cst unit :=
  let! s := get in
  if negb (uart s) then ret tt else modify (with_serial (serial s ++ [u8 c])).

(** A cell of the screen; [crt] ends after 25 rows. *)
Definition set_cell (i v : Z) : M cst unit :=
  let! s := get in
  if (0 <=? i) && (i <? Z.of_nat (length (crt s)))
  then modify (with_screen (<[Z.to_nat i := v]> (crt s)) (pos s))
  else fault.

(** [memmove(crt, crt+80, 23 rows)] and [memset] of the cells from [p] to the end
    of row 23. *)
Definition scroll_up (p : Z) (c : list Z) : list Z :=
  let c1 := take (23 * 80) (drop 80 c) ++ drop (23 * 80) c in
  take (Z.to_nat p) c1 ++ replicate (Z.to_nat (24 * 80 - p)) 0 ++ drop (24 * 80) c1.

Definition cgaputc (c : Z) : M cst unit :=
  let! s := get in
  let p := pos s in
  let! p :=
    (if c =? 10 then ret (p + (80 - p mod 80))
     else if c =? BACKSPACE then ret (if p >? 0 then p - 1 else p)
     else set_cell p (Z.lor (Z.land c 255) 1792) ;;; ret (p + 1)) in
  if (p <? 0) || (p >? 25 * 80) then panic "pos under/overflow"
  else
    let! p :=
      (if 24 <=? p / 80 then
         modify (fun s => with_screen (scroll_up (p - 80) (crt s)) (pos s) s) ;;;
         ret (p - 80)
       else ret p) in
    modify (fun s => with_screen (crt s) (u16 p) s) ;;;
    set_cell p (Z.lor 32 1792).

(** A CPU that finds [panicked] set stops for good. *)
Definition consputc (c : Z) : M cst unit :=
  let! s := get in
  if panicked s then fun _ => NoFuel
  else
    (if c =? BACKSPACE then uartputc 8 ;;; uartputc 32 ;;; uartputc 8 else uartputc c) ;;;
    cgaputc c.

(** ** Formatted printing *)

Definition hexdigits : list Z := [48; 49; 50; 51; 52; 53; 54; 55; 56; 57; 97; 98; 99; 100; 101; 102].

(** The loop of [printint]: the digits of [x], the last one first, in a buffer of
    sixteen characters. *)
Fixpoint digit_loop (fuel : nat) (digits : list Z) (base x : Z) (buf : list Z) : option (list Z) :=
  match fuel with
  | O => None
  | S fuel' =>
      if (length buf <? 16)%nat then
        let buf := buf ++ [nth (Z.to_nat (x mod base)) digits 0] in
        let x := x / base in
        if x =? 0 then Some buf else digit_loop fuel' digits base x buf
      else None
  end.

Definition printint (xx base : Z) (sign : bool) : M cst unit :=
  let neg := sign && (i32 xx <? 0) in
  let x := if neg then u32 (- xx) else u32 xx in
  match digit_loop 17 hexdigits base x [] with
  | None => fault
  | Some buf =>
      if neg && negb (length buf <? 16)%nat then fault
      else for_each (rev (buf ++ if neg then [45] else [])) consputc
  end.

Section Format.
(** The string a pointer leads to. *)
Context (string_at : Z -> option (list Z)).

Definition null_string : list Z := [40; 110; 117; 108; 108; 41].

Definition next_arg (args : list Z) (k : Z -> list Z -> M cst unit) : M cst unit :=
  match args with a :: args' => k a args' | [] => fault end.

Fixpoint format (fmt : list Z) (args : list Z) : M cst unit :=
  match fmt with
  | [] => ret tt
  | c :: fmt1 =>
      if negb (c =? 37) then consputc c ;;; format fmt1 args
      else
        match fmt1 with
        | [] => ret tt
        | c :: fmt2 =>
            if c =? 100 then next_arg args (fun a args' => printint a 10 true ;;; format fmt2 args')
            else if (c =? 120) || (c =? 112) then next_arg args (fun a args' => printint a 16 false ;;; format fmt2 args')
            else if c =? 115 then
              next_arg args (fun a args' =>
                match (if a =? 0 then Some null_string else string_at a) with
                | None => fault
                | Some l => for_each l consputc ;;; format fmt2 args'
                end)
            else if c =? 37 then consputc 37 ;;; format fmt2 args
            else consputc 37 ;;; consputc c ;;; format fmt2 args
        end
  end.

(** [None] is a null format. *)
Definition cprintf (fmt : option (list Z)) (args : list Z) : M cst unit :=
  let! s := get in
  let lk := locking s in
  (if lk then acquire else ret tt) ;;;
  match fmt with
  | None => panic "null fmt"
  | Some fmt => format fmt args
  end ;;;
  (if lk then release else ret tt).
End Format.

(** [panic]: the message and the callers, then the console is dead. *)
Definition panic_prefix : list Z := [108; 97; 112; 105; 99; 105; 100; 32; 37; 100; 58; 32; 112; 97; 110; 105; 99; 58; 32].
Definition kpanic (string_at : Z -> option (list Z)) (lapicid : Z) (msg : list Z) (pcs : list Z) : M cst unit :=
  modify (fun s => Cli.set_cpu {| Cli.ncli := Cli.ncli (ccpu s); Cli.intena := Cli.intena (ccpu s); Cli.intr := false |} s) ;;;
  modify (with_locking false) ;;;
  cprintf string_at (Some panic_prefix) [lapicid] ;;;
  cprintf string_at (Some msg) [] ;;;
  cprintf string_at (Some [10]) [] ;;;
  for_each pcs (fun pc => cprintf string_at (Some [32; 37; 112]) [pc]) ;;;
  modify (with_panicked true) ;;;
  (fun _ => NoFuel).

(** ** Input *)

Definition INPUT_BUF : Z := 128.
(** [C('P')] and so on. *)
Definition C (x : Z) : Z := x - 64.

(** [input.buf[i % INPUT_BUF]]. *)
Definition in_char (i : Z) (s : cst) : Z := nth (Z.to_nat (i mod INPUT_BUF)) (ibuf s) 0.

Definition unedit (s : cst) : cst := with_input (ibuf s) (ir s) (iw s) (u32 (ie s - 1)) s.
Definition edit (c : Z) (s : cst) : cst :=
  with_input (<[Z.to_nat (ie s mod INPUT_BUF) := u8 c]> (ibuf s)) (ir s) (iw s) (u32 (ie s + 1)) s.
Definition commit (s : cst) : cst := with_input (ibuf s) (ir s) (ie s) (ie s) s.
Definition take_char (s : cst) : cst := with_input (ibuf s) (u32 (ir s + 1)) (iw s) (ie s) s.
Definition untake (s : cst) : cst := with_input (ibuf s) (u32 (ir s - 1)) (iw s) (ie s) s.
Definition wakeup : M cst unit := modify (fun s => with_wakes (S (wakes s)) s).
(** [procdump] of proc.c writes the processes to the console. *)
Definition procdump : M cst unit := modify (fun s => with_dumps (S (dumps s)) s).

Fixpoint kill_line (fuel : nat) : M cst unit :=
  match fuel with
  | O => fun _ => NoFuel
  | S fuel' =>
      let! s := get in
      if negb (ie s =? iw s) && negb (in_char (u32 (ie s - 1)) s =? 10) then
        modify unedit ;;; consputc BACKSPACE ;;; kill_line fuel'
      else ret tt
  end.

(** One character of the loop of [consoleintr]: whether it asks for a listing. *)
Definition intr_char (c : Z) : M cst bool :=
  let! s := get in
  if c =? C 80 then ret true
  else if c =? C 85 then kill_line (S (Z.to_nat (u32 (ie s - iw s)))) ;;; ret false
  else if (c =? C 72) || (c =? 127) then
    (if negb (ie s =? iw s) then modify unedit ;;; consputc BACKSPACE else ret tt) ;;; ret false
  else
    (if negb (c =? 0) && (u32 (ie s - ir s) <? INPUT_BUF) then
       let c := if c =? 13 then 10 else c in
       modify (edit c) ;;;
       consputc c ;;;
       let! s := get in
       if (c =? 10) || (c =? C 68) || (ie s =? u32 (ir s + INPUT_BUF)) then modify commit ;;; wakeup
       else ret tt
     else ret tt) ;;;
    ret false.

Fixpoint intr_loop (cs : list Z) (doprocdump : bool) : M cst bool :=
  match cs with
  | [] => ret doprocdump
  | c :: cs' => let! d := intr_char c in intr_loop cs' (doprocdump || d)
  end.

(** [cs]: what [getc] returns before it answers a negative number. *)
Definition consoleintr (cs : list Z) : M cst unit :=
  acquire ;;;
  let! d := intr_loop cs false in
  release ;;;
  if d then procdump else ret tt.

(** What happens while a reader sleeps: characters arrive, another reader takes
    some, or the process is killed. *)
Inductive event := EvType (cs : list Z) | EvRead (n : nat) | EvKill.
Fixpoint others_read (n : nat) (s : cst) : cst :=
  match n with
  | O => s
  | S n' => if ir s =? iw s then s else others_read n' (take_char s)
  end.
Definition occurs (e : event) : M cst unit :=
  match e with
  | EvType cs => let! d := intr_loop cs false in if d then procdump else ret tt
  | EvRead n => modify (others_read n)
  | EvKill => modify (with_killed 1)
  end.

(** [sleep(&input.r, &cons.lock)]. *)
Definition chan_input : Z := 1.
Definition sleep (e : option event) : M cst unit :=
  match e with
  | Some e => occurs e
  | None => fun s => Asleep chan_input (Cli.set_lk tt false s)
  end.

Fixpoint wait_input (env : list event) : M cst (option (list event)) :=
  let! s := get in
  if ir s =? iw s then
    if negb (killed s =? 0) then ret None
    else
      sleep (head env) ;;;
      match env with
      | [] => fault
      | _ :: env' => wait_input env'
      end
  else ret (Some env).

(** The loop of [consoleread] with [n] characters to go: the characters stored
    and whether the process was not killed. *)
Fixpoint read_loop (n : nat) (target : Z) (env : list event) : M cst (list Z * bool) :=
  match n with
  | O => ret ([], true)
  | S n' =>
      let! r := wait_input env in
      match r with
      | None => ret ([], false)
      | Some env' =>
          let! s := get in
          let c := in_char (ir s) s in
          modify take_char ;;;
          if c =? C 68 then
            (if Z.of_nat n <? target then modify untake else ret tt) ;;;
            ret ([], true)
          else if c =? 10 then ret ([c], true)
          else
            let! (l, ok) := read_loop n' target env' in
            ret (c :: l, ok)
      end
  end.

(** ** The device, with the locks of its inode *)

Record dev := { fs : Fs.fst; con : cst }.
Definition on_fs {A} (m : M Fs.fst A) : M dev A := zoom fs (fun f d => {| fs := f; con := con d |}) m.
Definition on_con {A} (m : M cst A) : M dev A := zoom con (fun c d => {| fs := fs d; con := c |}) m.

Definition consoleread (ip : nat) (n : Z) (env : list event) : M dev (Z * list Z) :=
  on_fs (Fs.iunlock (Some ip)) ;;;
  on_con acquire ;;;
  let! (l, ok) := on_con (read_loop (Z.to_nat n) n env) in
  on_con release ;;;
  on_fs (Fs.ilock (Some ip)) ;;;
  ret (if ok then Z.of_nat (length l) else -1, l).

Definition consolewrite (ip : nat) (bytes : list Z) : M dev Z :=
  on_fs (Fs.iunlock (Some ip)) ;;;
  on_con acquire ;;;
  on_con (for_each bytes (fun b => consputc (Z.land b 255))) ;;;
  on_con release ;;;
  on_fs (Fs.ilock (Some ip)) ;;;
  ret (Z.of_nat (length bytes)).

(** The lock and [locking]; the device switch is the argument of the file
    layer. *)
Definition consoleinit : M cst unit := modify (fun s => Cli.set_lk tt false (with_locking true s)).

End Console.
