(* ===== verification/ConsoleFacts.v ===== *)
(** * What the console promises

    The input ring as two lists, the committed characters and the line being
    edited, on which a key press is an editing step; reading as taking from the
    committed ones; what is sent to the devices; and printing of numbers. *)

From S2P Require Import Prelude Locks Fs Console.
Import Console.

(** ** Output *)

(** The cursor is on the screen and the CPU runs. *)
Record screen_ok (s : cst) : Prop := {
  so_cells : length (crt s) = 2000%nat;
  so_pos : 0 <= pos s < 2000;
  so_alive : panicked s = false }.

(** [s'] is [s] after the bytes [l] went to the serial port; the screen may
    differ. *)
Definition shown (l : list Z) (s s' : cst) : Prop :=
  exists c p, s' = with_screen c p (with_serial (serial s ++ if uart s then l else []) s) /\
    length c = 2000%nat /\ 0 <= p < 2000.

Lemma shown_refl s : screen_ok s -> shown [] s s.
Proof.
  intros [? ? ?]. exists (crt s), (pos s). split; [|done]. destruct s as [? ? ? ? u l]. cbn. destruct u; by rewrite app_nil_r.
Qed.
Lemma shown_ok l s s' : screen_ok s -> shown l s s' -> screen_ok s'.
Proof. intros [? ? ?] (c & p & -> & ? & ?). by split. Qed.
Lemma shown_trans l l' s s1 s2 : shown l s s1 -> shown l' s1 s2 -> shown (l ++ l') s s2.
Proof.
  intros (c & p & -> & Hc & Hp) (c' & p' & -> & Hc' & Hp'). exists c', p'. split; [|done]. cbn. destruct (uart s); cbn;
    by rewrite <- app_assoc.
Qed.

Lemma scroll_length p c : length c = 2000%nat -> 0 <= p <= 1920 -> length (scroll_up p c) = 2000%nat.
Proof. intros Hc Hp. unfold scroll_up. rewrite !length_app, length_replicate, length_take, !length_drop, !length_app, length_take, !length_drop. lia. Qed.

Lemma set_cell_ok i v s : length (crt s) = 2000%nat -> 0 <= i < 2000 ->
  set_cell i v s = Ret tt (with_screen (<[Z.to_nat i := v]> (crt s)) (pos s) s).
Proof.
  intros Hl Hi. unfold set_cell, bind, get. rewrite Hl, (proj2 (Z.leb_le _ _)), (proj2 (Z.ltb_lt _ _)) by lia. done.
Qed.

(** The steps of [cgaputc] after the character: scroll, move the cursor, blank
    the cell under it. *)
Definition finish (p : Z) : M cst unit :=
  if (p <? 0) || (p >? 25 * 80) then panic "pos under/overflow"
  else
    let! p :=
      (if 24 <=? p / 80 then
         modify (fun s => with_screen (scroll_up (p - 80) (crt s)) (pos s) s) ;;;
         ret (p - 80)
       else ret p) in
    modify (fun s => with_screen (crt s) (u16 p) s) ;;;
    set_cell p (Z.lor 32 1792).

Lemma finish_ok p s : length (crt s) = 2000%nat -> 0 <= p <= 2000 ->
  exists c p', finish p s = Ret tt (with_screen c p' s) /\ length c = 2000%nat /\ 0 <= p' < 2000.
Proof.
  intros Hl Hp. unfold finish. rewrite (proj2 (Z.ltb_ge _ _)), Z.gtb_ltb, (proj2 (Z.ltb_ge _ _)) by lia. cbn [orb].
  assert (H : exists c q, (if 24 <=? p / 80 then modify (fun s => with_screen (scroll_up (p - 80) (crt s)) (pos s) s) ;;; ret (p - 80)
      else ret p) s = Ret q (with_screen c (pos s) s) /\ length c = 2000%nat /\ 0 <= q < 2000).
  { destruct (Z.leb_spec 24 (p / 80)) as [H|H]; pose proof (Z.div_mod p 80 ltac:(lia)); pose proof (Z.mod_pos_bound p 80 ltac:(lia)).
    - eexists _, _. split; [done|]. split; [by apply scroll_length; [|lia]|lia].
    - exists (crt s), p. split; [by destruct s|]. lia. }
  destruct H as (c & q & E & Hc & Hq). rewrite (bind_eq _ _ _ _ _ E). unfold bind at 1, modify. cbn [crt with_screen].
  rewrite set_cell_ok; [|done|done]. cbn [crt pos with_screen]. rewrite u16_small by lia.
  eexists _, q. split; [done|]. by rewrite length_insert.
Qed.

Lemma cgaputc_ok c s : screen_ok s ->
  exists c' p', cgaputc c s = Ret tt (with_screen c' p' s) /\ length c' = 2000%nat /\ 0 <= p' < 2000.
Proof.
  intros [Hl Hp _]. unfold cgaputc. unfold bind at 1, get.
  change (fun p => if (p <? 0) || (p >? 25 * 80) then _ else _) with finish.
  destruct (c =? 10).
  - unfold bind at 1, ret. pose proof (Z.div_mod (pos s) 80 ltac:(lia)). pose proof (Z.mod_pos_bound (pos s) 80 ltac:(lia)).
    apply finish_ok; [done|lia].
  - destruct (c =? BACKSPACE).
    + unfold bind at 1, ret. apply finish_ok; [done|]. destruct (Z.gtb_spec (pos s) 0); lia.
    + unfold bind at 1. rewrite (bind_eq _ _ _ _ _ (set_cell_ok _ _ _ Hl Hp)). unfold ret.
      destruct (finish_ok (pos s + 1) (with_screen (<[Z.to_nat (pos s):=Z.lor (Z.land c 255) 1792]> (crt s)) (pos s) s))
        as (c' & p' & E & H'); [cbn; by rewrite length_insert|lia|].
      exists c', p'. by rewrite E.
Qed.

(** What [consputc] sends for a character. *)
Definition echo (c : Z) : list Z := if c =? BACKSPACE then [8; 32; 8] else [u8 c].

Lemma uartputc_ok c s : uartputc c s = Ret tt (with_serial (serial s ++ if uart s then [u8 c] else []) s).
Proof. unfold uartputc, bind, get, modify. destruct s as [? ? ? ? u]. cbn. destruct u; cbn; by rewrite ?app_nil_r. Qed.

Lemma consputc_ok c s : screen_ok s -> exists s', consputc c s = Ret tt s' /\ shown (echo c) s s'.
Proof.
  intros Hs. pose proof Hs as [Hl Hp Ha]. unfold consputc. unfold bind at 1, get. rewrite Ha.
  assert (E : (if c =? BACKSPACE then uartputc 8 ;;; uartputc 32 ;;; uartputc 8 else uartputc c) s =
    Ret tt (with_serial (serial s ++ if uart s then echo c else []) s)).
  { unfold echo. destruct (c =? BACKSPACE); [|apply uartputc_ok].
    rewrite (bind_eq _ _ _ _ _ (uartputc_ok 8 s)), (bind_eq _ _ _ _ _ (uartputc_ok 32 _)), uartputc_ok. cbn. f_equal.
    destruct s as [? ? ? ? u]. cbn. destruct u; by rewrite <- ?app_assoc, ?app_nil_r. }
  rewrite (bind_eq _ _ _ _ _ E). clear E.
  destruct (cgaputc_ok c (with_serial (serial s ++ if uart s then echo c else []) s)) as (c' & p' & E & H'); [by split|].
  eexists. split; [exact E|]. by exists c', p'.
Qed.

Lemma consputs_ok l : forall s, screen_ok s ->
  exists s', for_each l consputc s = Ret tt s' /\ shown (mjoin (echo <$> l)) s s'.
Proof.
  induction l as [|c l IH]; intros s Hs; [exists s; split; [done|by apply shown_refl]|].
  destruct (consputc_ok c s Hs) as (s1 & R1 & S1). destruct (IH s1 (shown_ok _ _ _ Hs S1)) as (s2 & R2 & S2).
  exists s2. cbn [for_each]. rewrite (bind_eq _ _ _ _ _ R1). split; [done|]. by apply (shown_trans _ _ _ _ _ S1 S2).
Qed.

(** ** The ring *)

(** The [n] characters from index [r] on. *)
Definition ring (b : list Z) (r : Z) (n : nat) : list Z :=
  (fun i => nth (Z.to_nat ((r + Z.of_nat i) mod INPUT_BUF)) b 0) <$> seq 0 n.

Lemma ring_length b r n : length (ring b r n) = n.
Proof. unfold ring. by rewrite length_fmap, length_seq. Qed.
Lemma ring_mod a : u32 a mod INPUT_BUF = a mod INPUT_BUF.
Proof.
  unfold u32, INPUT_BUF. rewrite (Z.div_mod a 4294967296) at 2 by lia.
  replace (4294967296 * (a / 4294967296) + a mod 4294967296)
    with (a mod 4294967296 + (33554432 * (a / 4294967296)) * 128) by lia.
  by rewrite Z_mod_plus_full.
Qed.
Lemma ring_cast b r n : ring b (u32 r) n = ring b r n.
Proof.
  unfold ring. apply list_fmap_ext. intros i j _.
  assert (E : (u32 r + Z.of_nat j) mod INPUT_BUF = (r + Z.of_nat j) mod INPUT_BUF) by by rewrite <- ring_mod, u32_add_l, ring_mod.
  by rewrite E.
Qed.
Lemma ring_S b r n : ring b r (S n) = nth (Z.to_nat (r mod INPUT_BUF)) b 0 :: ring b (r + 1) n.
Proof.
  unfold ring. cbn [seq]. rewrite <- fmap_S_seq, fmap_cons, <- list_fmap_compose. f_equal.
  - by rewrite Z.add_0_r.
  - apply list_fmap_ext. intros i j _. cbn [compose]. do 3 f_equal. lia.
Qed.
Lemma ring_app b r n m : ring b r (n + m) = ring b r n ++ ring b (r + Z.of_nat n) m.
Proof.
  revert r. induction n as [|n IH]; intros r; [by rewrite Z.add_0_r|]. cbn [Nat.add]. rewrite !ring_S, IH. cbn [app].
  do 2 f_equal. f_equal. lia.
Qed.
Lemma ring_snoc b r n : ring b r (S n) = ring b r n ++ [nth (Z.to_nat ((r + Z.of_nat n) mod INPUT_BUF)) b 0].
Proof. replace (S n) with (n + 1)%nat by lia. by rewrite ring_app, ring_S. Qed.
(** A character stored behind fewer than 128 others. *)
Lemma ring_insert b r n c : (n < 128)%nat -> ring (<[Z.to_nat ((r + Z.of_nat n) mod INPUT_BUF) := c]> b) r n = ring b r n.
Proof.
  intros Hn. unfold ring. apply list_fmap_ext. intros i j Hij. apply lookup_seq in Hij as [-> Hi]. cbn [Nat.add].
  rewrite !nth_lookup, list_lookup_insert_ne; [done|]. unfold INPUT_BUF. intros E. apply Z2Nat.inj in E;
    try (by apply Z.mod_pos_bound).
  pose proof (Z.div_mod (r + Z.of_nat i) 128). pose proof (Z.div_mod (r + Z.of_nat n) 128). lia.
Qed.

(** The ring holds the committed characters [com] and then the line [ed] that
    is being edited. *)
Record holds (s : cst) (com ed : list Z) : Prop := {
  ho_buf : length (ibuf s) = 128%nat;
  ho_r : 0 <= ir s < 4294967296;
  ho_w : iw s = u32 (ir s + Z.of_nat (length com));
  ho_e : ie s = u32 (ir s + Z.of_nat (length com + length ed));
  ho_room : (length com + length ed <= 128)%nat;
  ho_chars : ring (ibuf s) (ir s) (length com + length ed) = com ++ ed }.

Lemma index_eq a b : 0 <= a < 4294967296 -> 0 <= b <= 128 -> (u32 (a + b) =? a) = (b =? 0).
Proof.
  intros Ha Hb. unfold u32. destruct (Z.eqb_spec b 0) as [->|Hn].
  - rewrite Z.add_0_r, Z.mod_small by done. apply Z.eqb_refl.
  - apply Z.eqb_neq. intros E. pose proof (Z.div_mod (a + b) 4294967296 ltac:(lia)). lia.
Qed.

Section Held.
Variables (s : cst) (com ed : list Z).
Hypothesis H : holds s com ed.

Lemma held_empty_line : (ie s =? iw s) = match ed with [] => true | _ => false end.
Proof.
  pose proof (ho_room _ _ _ H). rewrite (ho_w _ _ _ H), (ho_e _ _ _ H), Nat2Z.inj_add, Z.add_assoc, <- (u32_add_l (ir s + Z.of_nat (length com))).
  rewrite index_eq; [|apply u32_range|lia]. by destruct ed.
Qed.
Lemma held_empty : (ir s =? iw s) = match com with [] => true | _ => false end.
Proof.
  pose proof (ho_room _ _ _ H). rewrite (ho_w _ _ _ H), Z.eqb_sym, index_eq; [|apply (ho_r _ _ _ H)|lia]. by destruct com.
Qed.
Lemma held_count : u32 (ie s - ir s) = Z.of_nat (length com + length ed).
Proof.
  pose proof (ho_room _ _ _ H). rewrite (ho_e _ _ _ H), u32_sub_l. rewrite u32_small; lia.
Qed.
Lemma held_line_count : u32 (ie s - iw s) = Z.of_nat (length ed).
Proof.
  pose proof (ho_room _ _ _ H). rewrite (ho_e _ _ _ H), (ho_w _ _ _ H), u32_sub_l, u32_sub_r. rewrite u32_small; lia.
Qed.
Lemma held_full : (ie s =? u32 (ir s + INPUT_BUF)) = (length com + length ed =? 128)%nat.
Proof.
  pose proof (ho_room _ _ _ H). rewrite (ho_e _ _ _ H). destruct (Nat.eqb_spec (length com + length ed) 128) as [->|Hn].
  - apply Z.eqb_refl.
  - apply Z.eqb_neq. unfold u32, INPUT_BUF. intros E.
    pose proof (Z.div_mod (ir s + Z.of_nat (length com + length ed)) 4294967296 ltac:(lia)).
    pose proof (Z.div_mod (ir s + 128) 4294967296 ltac:(lia)). lia.
Qed.

Lemma edit_holds c : (length com + length ed < 128)%nat -> holds (edit c s) com (ed ++ [u8 c]).
Proof.
  intros Hr. destruct H as [Hb Hir Hw He _ Hch]. unfold edit.
  assert (Ei : ie s mod INPUT_BUF = (ir s + Z.of_nat (length com + length ed)) mod INPUT_BUF) by (by rewrite He, ring_mod).
  split; cbn -[ring u32 u8]; rewrite ?length_app; cbn [length].
  - by rewrite length_insert.
  - done.
  - done.
  - rewrite He, u32_add_l. f_equal. lia.
  - lia.
  - rewrite Nat.add_1_r, Nat.add_succ_r, ring_snoc, Ei, ring_insert, Hch by done. rewrite app_assoc. do 2 f_equal.
    rewrite nth_lookup, list_lookup_insert_eq; [done|]. rewrite Hb.
    pose proof (Z.mod_pos_bound (ir s + Z.of_nat (length com + length ed)) INPUT_BUF ltac:(done)). unfold INPUT_BUF in *. lia.
Qed.
End Held.

Lemma unedit_holds s com ed c : holds s com (ed ++ [c]) -> holds (unedit s) com ed /\ in_char (u32 (ie s - 1)) s = c.
Proof.
  intros [Hb Hir Hw He Hr Hch]. rewrite length_app in *. cbn [length] in *.
  assert (Ee : u32 (ie s - 1) = u32 (ir s + Z.of_nat (length com + length ed))) by (rewrite He, u32_sub_l; f_equal; lia).
  replace (length com + (length ed + 1))%nat with (S (length com + length ed)) in Hch by lia.
  rewrite ring_snoc, app_assoc in Hch. apply app_inj_tail in Hch as [Hch Hc]. split.
  - unfold unedit. split; cbn -[ring u32]; try done. lia.
  - unfold in_char. by rewrite Ee, ring_mod.
Qed.

Lemma commit_holds s com ed : holds s com ed -> holds (commit s) (com ++ ed) [].
Proof.
  intros [Hb Hir Hw He Hr Hch]. split; cbn -[ring u32]; rewrite ?length_app, ?Nat.add_0_r, ?app_nil_r; done.
Qed.

Lemma take_holds s c com ed : holds s (c :: com) ed ->
  holds (take_char s) com ed /\ in_char (ir s) s = c /\ untake (take_char s) = s.
Proof.
  intros [Hb Hir Hw He Hr Hch]. cbn [length Nat.add app] in *. rewrite ring_S in Hch. injection Hch as Hc Hch. split; [|split].
  - unfold take_char. split; cbn -[ring u32]; try done.
    + apply u32_range.
    + rewrite u32_add_l, Hw. f_equal. lia.
    + rewrite u32_add_l, He. f_equal. lia.
    + lia.
    + by rewrite ring_cast.
  - done.
  - unfold untake, take_char. cbn -[u32]. rewrite u32_sub_l. replace (ir s + 1 - 1) with (ir s) by lia.
    rewrite u32_small by lia. by destruct s.
Qed.

(** What is shown leaves the input alone. *)
Lemma shown_holds l s s' com ed : shown l s s' -> holds s com ed -> holds s' com ed.
Proof. intros (c & p & -> & _) []. by split. Qed.

(** ** The line discipline *)

(** The abstract terminal. *)
Record tty := { lines : list Z; line : list Z }.
Definition line_ok (t : tty) : Prop := 10 ∉ line t.

(** One key: the new lines and what is echoed; whether a line was committed. *)
Definition erase : list Z := [8; 32; 8].
Definition key (t : tty) (c : Z) : tty * list Z * bool :=
  if c =? C 80 then (t, [], false)
  else if c =? C 85 then ({| lines := lines t; line := [] |}, mjoin (replicate (length (line t)) erase), false)
  else if (c =? C 72) || (c =? 127) then
    ({| lines := lines t; line := removelast (line t) |}, match line t with [] => [] | _ => erase end, false)
  else if negb (c =? 0) && (length (lines t) + length (line t) <? 128)%nat then
    let c := if c =? 13 then 10 else c in
    if (c =? 10) || (c =? C 68) || (length (lines t) + length (line t) + 1 =? 128)%nat
    then ({| lines := lines t ++ line t ++ [c]; line := [] |}, [c], true)
    else ({| lines := lines t; line := line t ++ [c] |}, [c], false)
  else (t, [], false).

Fixpoint keys (t : tty) (cs : list Z) : tty * list Z * nat :=
  match cs with
  | [] => (t, [], 0%nat)
  | c :: cs' =>
      let '(t1, l1, w1) := key t c in
      let '(t2, l2, w2) := keys t1 cs' in
      (t2, l1 ++ l2, ((if w1 then 1 else 0) + w2)%nat)
  end.

(** [l] was sent, readers were woken [w] times; the rest of the console but
    the input and the screen is the same. *)
Record typed (l : list Z) (w : nat) (s s' : cst) : Prop := {
  ty_screen : screen_ok s';
  ty_serial : serial s' = serial s ++ (if uart s then l else []);
  ty_wakes : wakes s' = (wakes s + w)%nat;
  ty_rest : uart s' = uart s /\ clk s' = clk s /\ ccpu s' = ccpu s /\ killed s' = killed s /\ locking s' = locking s /\ dumps s' = dumps s }.

Lemma typed_refl s : screen_ok s -> typed [] 0 s s.
Proof. intros H. split; try done; try lia. destruct (uart s); by rewrite app_nil_r. Qed.
Lemma typed_trans l1 l2 w1 w2 s s1 s2 : typed l1 w1 s s1 -> typed l2 w2 s1 s2 -> typed (l1 ++ l2) (w1 + w2) s s2.
Proof.
  intros [_ E1 W1 (U1 & R1)] [Hs E2 W2 (U2 & R2)]. split; [done| |lia|].
  - rewrite E2, E1, U1. destruct (uart s); rewrite <- app_assoc; done.
  - split; [congruence|]. destruct R1 as (? & ? & ? & ? & ?), R2 as (? & ? & ? & ? & ?). split_and!; congruence.
Qed.
Lemma shown_typed l s s' : screen_ok s -> shown l s s' -> typed l 0 s s'.
Proof. intros Hs H. pose proof (shown_ok _ _ _ Hs H). destruct H as (c & p & -> & _). split; try done; cbn; lia. Qed.

(** A change of the input only. *)
Lemma input_typed b r w e s : screen_ok s -> typed [] 0 s (with_input b r w e s).
Proof. intros [? ? ?]. split; try done; try (cbn; lia); cbn; destruct (uart s); by rewrite app_nil_r. Qed.

Lemma erase_ok s com ed c :
  screen_ok s -> holds s com (ed ++ [c]) ->
  exists s', (modify unedit ;;; consputc BACKSPACE) s = Ret tt s' /\ holds s' com ed /\ typed erase 0 s s'.
Proof.
  intros Hs Hh. destruct (unedit_holds s com ed c Hh) as [Hu _].
  destruct (consputc_ok BACKSPACE (unedit s)) as (s' & R & S); [by destruct Hs; split|].
  exists s'. split; [exact R|]. split; [by apply (shown_holds _ _ _ _ _ S)|].
  apply (typed_trans [] erase 0 0 s (unedit s)); [by apply input_typed|]. apply shown_typed; [by destruct Hs; split|exact S].
Qed.

Lemma kill_line_ok : forall ed s com fuel, (length ed < fuel)%nat -> screen_ok s -> holds s com ed -> 10 ∉ ed ->
  exists s', kill_line fuel s = Ret tt s' /\ holds s' com [] /\ typed (mjoin (replicate (length ed) erase)) 0 s s'.
Proof.
  induction ed as [|c ed IH] using rev_ind; intros s com fuel Hf Hs Hh Hl; (destruct fuel as [|fuel]; [lia|]);
    cbn [kill_line]; unfold bind at 1, get; rewrite (held_empty_line s com _ Hh).
  - exists s. split; [done|]. split; [done|]. by apply typed_refl.
  - rewrite length_app in *. cbn [length] in *. destruct (unedit_holds s com ed c Hh) as [_ ->].
    assert (E : (match ed ++ [c] with [] => true | _ => false end) = false) by by destruct ed. rewrite E. clear E.
    apply not_elem_of_app in Hl as [Hl Hc]. rewrite list_elem_of_singleton in Hc.
    rewrite (proj2 (Z.eqb_neq c 10)) by congruence. cbn [negb andb].
    destruct (erase_ok s com ed c Hs Hh) as (s1 & R1 & H1 & T1).
    destruct (IH s1 com fuel) as (s2 & R2 & H2 & T2); [lia|apply T1|done|done|]. exists s2. split; [|split; [done|]].
    + apply bind_ret_inv in R1 as (u & s0 & Ra & Rb). rewrite (bind_eq _ _ _ _ _ Ra).
      destruct u. by rewrite (bind_eq _ _ _ _ _ Rb).
    + rewrite Nat.add_1_r. apply (typed_trans erase _ 0 0 s s1 s2 T1 T2).
Qed.

Definition byte_ok (c : Z) : Prop := 0 <= c < 256.

(** A character put into the line, and the line committed when it ends. *)
Lemma con_put_ok s com ed c :
  screen_ok s -> holds s com ed -> byte_ok c -> (length com + length ed < 128)%nat ->
  exists s', (modify (edit c) ;;; consputc c) s = Ret tt s' /\ holds s' com (ed ++ [c]) /\ typed [c] 0 s s'.
Proof.
  intros Hs Hh Hc Hr. destruct (consputc_ok c (edit c s)) as (s' & R & S); [by destruct Hs; split|].
  assert (Eu : u8 c = c) by (apply u8_small; apply Hc).
  assert (Ee : echo c = [c]).
  { unfold echo, BACKSPACE. rewrite (proj2 (Z.eqb_neq c 256)) by (unfold byte_ok in Hc; lia). by rewrite Eu. }
  pose proof (edit_holds s com ed Hh c Hr) as He. rewrite Eu in He. rewrite Ee in S.
  exists s'. split; [exact R|]. split; [by apply (shown_holds _ _ _ _ _ S)|].
  apply (typed_trans [] [c] 0 0 s (edit c s)); [by apply input_typed|]. apply shown_typed; [by destruct Hs; split|exact S].
Qed.

Lemma con_commit_ok s com ed :
  screen_ok s -> holds s com ed ->
  exists s', (modify commit ;;; wakeup) s = Ret tt s' /\ holds s' (com ++ ed) [] /\ typed [] 1 s s'.
Proof.
  intros Hs Hh. pose proof (commit_holds _ _ _ Hh) as Hc. eexists. split; [reflexivity|]. split; [by destruct Hc; split|].
  destruct Hs. split; try done; try (cbn; lia); cbn; destruct (uart s); by rewrite app_nil_r.
Qed.

Ltac unchanged s := exists s; split; [done|split; [done|split; [done|by apply typed_refl]]].

Lemma intr_char_ok s t c :
  screen_ok s -> holds s (lines t) (line t) -> line_ok t -> byte_ok c ->
  let '(t', l, w) := key t c in
  exists s', intr_char c s = Ret (c =? C 80) s' /\ holds s' (lines t') (line t') /\ line_ok t' /\
    typed l (if w then 1 else 0) s s'.
Proof.
  intros Hs Hh Hl Hc. unfold key, intr_char. unfold bind at 1, get.
  destruct (c =? C 80) eqn:E80; [unchanged s|].
  destruct (c =? C 85).
  { rewrite (held_line_count _ _ _ Hh).
    destruct (kill_line_ok (line t) s (lines t) (S (Z.to_nat (Z.of_nat (length (line t)))))) as (s' & R & H' & T); [lia|done..|].
    exists s'. rewrite (bind_eq _ _ _ _ _ R). split; [done|]. split; [done|]. split; [apply not_elem_of_nil|done]. }
  destruct ((c =? C 72) || (c =? 127)).
  { rewrite (held_empty_line _ _ _ Hh). unfold line_ok in *. destruct (line t) as [|x l] eqn:Et.
    - unchanged s.
    - destruct (@exists_last _ (x :: l)) as (ed' & y & E); [done|]. rewrite E in *. cbn [negb].
      destruct (erase_ok s (lines t) ed' y Hs Hh) as (s' & R & H' & T). exists s'. rewrite (bind_eq _ _ _ _ _ R).
      rewrite removelast_last. split; [done|]. split; [done|]. split; [|exact T]. cbn. set_solver. }
  rewrite (held_count _ _ _ Hh).
  assert (Er : (Z.of_nat (length (lines t) + length (line t)) <? INPUT_BUF) = (length (lines t) + length (line t) <? 128)%nat).
  { unfold INPUT_BUF. destruct (Nat.ltb_spec (length (lines t) + length (line t)) 128); [apply Z.ltb_lt|apply Z.ltb_ge]; lia. }
  rewrite Er. destruct (negb (c =? 0) && (length (lines t) + length (line t) <? 128)%nat) eqn:Eg; [|unchanged s].
  apply andb_true_iff in Eg as [_ Hroom%Nat.ltb_lt].
  set (d := if c =? 13 then 10 else c). assert (Hd : byte_ok d) by (unfold d, byte_ok in *; destruct (c =? 13); lia).
  destruct (con_put_ok s (lines t) (line t) d Hs Hh Hd Hroom) as (s1 & R1 & H1 & T1).
  pose proof (held_full _ _ _ H1) as Ef. rewrite length_app, Nat.add_assoc in Ef. cbn [length] in Ef.
  apply bind_ret_inv in R1 as (u & s0 & Ra & Rb). destruct u. cbv zeta. fold d.
  set (rest := let! s := get in if (d =? 10) || (d =? C 68) || (ie s =? u32 (ir s + INPUT_BUF)) then modify commit ;;; wakeup else ret tt).
  assert (Eb : forall o, rest s1 = Ret tt o -> (((modify (edit d) ;;; consputc d ;;; rest) ;;; ret false) s) = Ret false o).
  { intros o Eo. assert (E : (modify (edit d) ;;; consputc d ;;; rest) s = Ret tt o).
    { rewrite (bind_eq _ _ _ _ _ Ra). by rewrite (bind_eq _ _ _ _ _ Rb). }
    by rewrite (bind_eq _ _ _ _ _ E). }
  assert (Hrest : rest s1 = (if (d =? 10) || (d =? C 68) || (length (lines t) + length (line t) + 1 =? 128)%nat
    then modify commit ;;; wakeup else ret tt) s1) by (unfold rest; unfold bind at 1, get; by rewrite Ef).
  destruct ((d =? 10) || (d =? C 68) || (length (lines t) + length (line t) + 1 =? 128)%nat) eqn:Ecm.
  - destruct (con_commit_ok s1 _ _ (ty_screen _ _ _ _ T1) H1) as (s2 & R2 & H2 & T2).
    exists s2. split; [apply Eb; by rewrite Hrest|]. split; [done|]. split; [apply not_elem_of_nil|].
    apply (typed_trans [d] [] 0 1 s s1 s2 T1 T2).
  - exists s1. split; [apply Eb; by rewrite Hrest|]. split; [done|]. split; [|exact T1].
    unfold line_ok in *. cbn. apply orb_false_iff in Ecm as [[Ed%Z.eqb_neq _]%orb_false_iff _]. set_solver.
Qed.

Lemma intr_loop_ok cs : forall s t d,
  screen_ok s -> holds s (lines t) (line t) -> line_ok t -> Forall byte_ok cs ->
  let '(t', l, w) := keys t cs in
  exists s', intr_loop cs d s = Ret (d || bool_decide (C 80 ∈ cs)) s' /\ holds s' (lines t') (line t') /\ line_ok t' /\
    typed l w s s'.
Proof.
  induction cs as [|c cs IH]; intros s t d Hs Hh Hl Hb.
  - cbn. rewrite bool_decide_false, orb_false_r by apply not_elem_of_nil. unchanged s.
  - apply Forall_cons in Hb as [Hc Hb]. cbn [keys intr_loop]. pose proof (intr_char_ok s t c Hs Hh Hl Hc) as K.
    destruct (key t c) as [[t1 l1] w1]. destruct K as (s1 & R1 & H1 & Hl1 & T1).
    specialize (IH s1 t1 (d || (c =? C 80)) (ty_screen _ _ _ _ T1) H1 Hl1 Hb).
    destruct (keys t1 cs) as [[t2 l2] w2]. destruct IH as (s2 & R2 & H2 & Hl2 & T2).
    exists s2. rewrite (bind_eq _ _ _ _ _ R1), R2. split; [|split; [done|split; [done|by eapply typed_trans]]].
    f_equal. rewrite <- orb_assoc. f_equal. destruct (Z.eqb_spec c (C 80)) as [->|Hne]; cbn [orb].
    + symmetry. apply bool_decide_true. left.
    + apply bool_decide_ext. rewrite elem_of_cons. split; [by right|]. intros [?|?]; [congruence|done].
Qed.

(** ** Under the lock *)

Definition locked_view (s : cst) : cst := Cli.set_lk tt true (Cli.set_cpu (CliFacts.inside (ccpu s)) s).

Lemma con_acquire_ok s : clk s = false -> acquire s = Ret tt (locked_view s).
Proof. intros H. unfold acquire. rewrite CliFacts.acquire_run. cbn. by rewrite H. Qed.

(** Released: the lock is free and the CPU is as before it was taken. *)
Lemma con_release_ok s s1 : CliFacts.nest_ok (ccpu s) -> clk s1 = true -> ccpu s1 = CliFacts.inside (ccpu s) ->
  exists c, release s1 = Ret tt (Cli.set_cpu c (Cli.set_lk tt false s1)) /\ Cli.ncli c = Cli.ncli (ccpu s) /\ Cli.intr c = Cli.intr (ccpu s).
Proof.
  intros [Hn Hi] Hl Hc. unfold release. rewrite CliFacts.release_run; cbn [Cli.cpu_of cons_spin]; rewrite Hc; [|cbn; lia|done].
  cbn [Cli.lk_of cons_spin]. rewrite Hl. eexists. split; [done|]. cbn. split; [lia|].
  replace (Cli.ncli (ccpu s) + 1 - 1) with (Cli.ncli (ccpu s)) by lia.
  destruct (Z.eqb_spec (Cli.ncli (ccpu s)) 0); cbn; [done|]. symmetry. apply Hi. lia.
Qed.

Lemma locked_holds s com ed : holds s com ed -> holds (locked_view s) com ed.
Proof. by intros []; split. Qed.
Lemma locked_screen s : screen_ok s -> screen_ok (locked_view s).
Proof. by intros []; split. Qed.
Lemma unlocked_holds s c com ed : holds s com ed -> holds (Cli.set_cpu c (Cli.set_lk tt false s)) com ed.
Proof. by intros []; split. Qed.
Lemma unlocked_screen s c : screen_ok s -> screen_ok (Cli.set_cpu c (Cli.set_lk tt false s)).
Proof. by intros []; split. Qed.

(** ** Reading *)

Definition strike (e : event) (t : tty) : tty :=
  match e with
  | EvType cs => Datatypes.fst (Datatypes.fst (keys t cs))
  | EvRead n => {| lines := drop n (lines t); line := line t |}
  | EvKill => t
  end.
Definition is_kill (e : event) : bool := match e with EvKill => true | _ => false end.

(** Waiting for a committed character. *)
Inductive waited := Ready (env : list event) (t : tty) (k : bool) | Killed (t : tty) | Waits (t : tty).
Fixpoint awaits (env : list event) (t : tty) (k : bool) : waited :=
  match lines t with
  | _ :: _ => Ready env t k
  | [] =>
      if k then Killed t
      else match env with [] => Waits t | e :: env' => awaits env' (strike e t) (is_kill e) end
  end.

(** Reading up to [n] more of [target] characters: up to the end of a line, or
    to a ^D, which stays for the next read when something was read before it. *)
Inductive reading := Done (l : list Z) (t : tty) | Dead (l : list Z) (t : tty) | Sleeps (t : tty).
Definition after (c : Z) (r : reading) : reading :=
  match r with Done l t => Done (c :: l) t | Dead l t => Dead (c :: l) t | Sleeps t => Sleeps t end.
Fixpoint reads (n : nat) (target : Z) (env : list event) (t : tty) (k : bool) : reading :=
  match n with
  | O => Done [] t
  | S n' =>
      match awaits env t k with
      | Waits t => Sleeps t
      | Killed t => Dead [] t
      | Ready env t k =>
          match lines t with
          | [] => Dead [] t
          | c :: rest =>
              let t1 := {| lines := rest; line := line t |} in
              if c =? C 68 then Done [] (if Z.of_nat n <? target then t else t1)
              else if c =? 10 then Done [c] t1
              else after c (reads n' target env t1 k)
          end
      end
  end.

Definition event_ok (e : event) : Prop := match e with EvType cs => Forall byte_ok cs | _ => True end.

(** The console of the terminal [t], in use by this CPU as in [s]. *)
Record at_tty (s s' : cst) (t : tty) : Prop := {
  at_screen : screen_ok s';
  at_holds : holds s' (lines t) (line t);
  at_line : line_ok t;
  at_lk : clk s' = clk s;
  at_cpu : ccpu s' = ccpu s }.

Lemma others_read_ok n : forall s t, holds s (lines t) (line t) ->
  exists r, others_read n s = with_input (ibuf s) r (iw s) (ie s) s /\
    holds (others_read n s) (drop n (lines t)) (line t).
Proof.
  induction n as [|n IH]; intros s t Hh; cbn [others_read]; [exists (ir s); by destruct s|].
  rewrite (held_empty _ _ _ Hh). destruct (lines t) as [|c l] eqn:E; [exists (ir s); split; [by destruct s|done]|].
  destruct (take_holds s c l (line t) Hh) as (Ht & _ & _).
  destruct (IH (take_char s) {| lines := l; line := line t |} Ht) as (r & -> & H'). by exists r.
Qed.

Lemma occurs_ok e s s0 t : at_tty s0 s t -> event_ok e ->
  exists s', occurs e s = Ret tt s' /\ at_tty s0 s' (strike e t) /\
    (killed s' =? 0) = (killed s =? 0) && negb (is_kill e).
Proof.
  intros [Hs Hh Hl Hk Hc] He. destruct e as [cs|n|].
  - pose proof (intr_loop_ok cs s t false Hs Hh Hl He) as L. cbn [occurs strike is_kill negb]. rewrite andb_true_r.
    destruct (keys t cs) as [[t' l] w]. destruct L as (s1 & R & H1 & Hl1 & [S1 _ _ (Eu & Ek & Ec & Ekl & _)]).
    rewrite (bind_eq _ _ _ _ _ R). cbn [Datatypes.fst]. destruct (false || _).
    + eexists. split; [reflexivity|]. split; [|cbn; by rewrite Ekl]. split; cbn; try congruence; [by destruct S1|by destruct H1].
    + exists s1. split; [done|]. split; [|by rewrite Ekl]. split; try done; congruence.
  - destruct (others_read_ok n s t Hh) as (r & E & H'). exists (others_read n s). split; [done|]. cbn [strike is_kill negb].
    rewrite andb_true_r. split; [|by rewrite E]. split; try done; rewrite E; [by destruct Hs|done..].
  - exists (with_killed 1 s). split; [done|]. split; [|by rewrite andb_false_r]. split; try done; [by destruct Hs|by destruct Hh].
Qed.

Lemma wait_input_ok env : forall s s0 t k, at_tty s0 s t -> Forall event_ok env -> (killed s =? 0) = negb k ->
  match awaits env t k with
  | Ready env' t' k' => exists s', wait_input env s = Ret (Some env') s' /\ at_tty s0 s' t' /\ lines t' <> [] /\
      Forall event_ok env' /\ (killed s' =? 0) = negb k'
  | Killed t' => exists s', wait_input env s = Ret None s' /\ at_tty s0 s' t'
  | Waits t' => exists s', wait_input env s = Asleep chan_input (Cli.set_lk tt false s') /\ at_tty s0 s' t' /\ lines t' = []
  end.
Proof.
  induction env as [|e env IH]; intros s s0 t k Ha He Hk; cbn [awaits wait_input]; erewrite (bind_eq get) by reflexivity;
    rewrite (held_empty _ _ _ (at_holds _ _ _ Ha)); destruct (lines t) as [|c l] eqn:El.
  2,4: (exists s; split; [done|]; split; [done|]; split; [by rewrite El|done]).
  - rewrite Hk. destruct k; cbn [negb]; [by exists s|]. exists s. done.
  - rewrite Hk. destruct k; cbn [negb]; [by exists s|]. apply Forall_cons in He as [He Henv].
    destruct (occurs_ok e s s0 t Ha He) as (s1 & R & Ha1 & Hk1). rewrite (bind_eq _ _ _ _ _ R).
    apply IH; [done..|]. by rewrite Hk1, Hk.
Qed.

Lemma read_loop_ok n target : forall env s s0 t k, at_tty s0 s t -> Forall event_ok env -> (killed s =? 0) = negb k ->
  match reads n target env t k with
  | Done l t' => exists s', read_loop n target env s = Ret (l, true) s' /\ at_tty s0 s' t'
  | Dead l t' => exists s', read_loop n target env s = Ret (l, false) s' /\ at_tty s0 s' t'
  | Sleeps t' => exists s', read_loop n target env s = Asleep chan_input (Cli.set_lk tt false s') /\ at_tty s0 s' t' /\ lines t' = []
  end.
Proof.
  induction n as [|n IH]; intros env s s0 t k Ha He Hk; cbn [reads read_loop]; [by exists s|].
  pose proof (wait_input_ok env s s0 t k Ha He Hk) as W. destruct (awaits env t k) as [env' t' k'|t'|t'].
  2:{ destruct W as (s' & R & Ha'). exists s'. by rewrite (bind_eq _ _ _ _ _ R). }
  2:{ destruct W as (s' & R & Ha' & E). exists s'. unfold bind at 1. by rewrite R. }
  destruct W as (s1 & R & Ha1 & Hne & He1 & Hk1). rewrite !(bind_eq _ _ _ _ _ R). erewrite !(bind_eq get) by reflexivity.
  destruct (lines t') as [|c rest] eqn:El; [done|]. pose proof Ha1 as [Hs1 Hh1 Hl1 Hlk1 Hc1]. rewrite El in Hh1.
  destruct (take_holds s1 c rest (line t') Hh1) as (Ht & Ec & Hu). rewrite Ec. clear Ec. erewrite !(bind_eq (modify take_char)) by reflexivity.
  assert (Ha2 : at_tty s0 (take_char s1) {| lines := rest; line := line t' |}) by (split; try done; by destruct Hs1).
  destruct (c =? C 68).
  { destruct (Z.of_nat (S n) <? target).
    - exists s1. unfold bind, ret, modify. rewrite Hu. done.
    - exists (take_char s1). done. }
  destruct (c =? 10); [by exists (take_char s1)|].
  specialize (IH env' (take_char s1) s0 {| lines := rest; line := line t' |} k' Ha2 He1 Hk1).
  destruct (reads n target env' _ k') as [l t2|l t2|t2]; cbn [after].
  - destruct IH as (s2 & R2 & Ha'). exists s2. by rewrite (bind_eq _ _ _ _ _ R2).
  - destruct IH as (s2 & R2 & Ha3). exists s2.  by rewrite (bind_eq _ _ _ _ _ R2).
  - destruct IH as (s2 & R2 & Ha'). exists s2. unfold bind. by rewrite R2.
Qed.

(** ** Numbers *)

(** The digits of [x], the last one first. *)
Definition value (base : Z) (le : list Z) : Z := foldr (fun d v => d + base * v) 0 le.
Definition chars (digits : list Z) (le : list Z) : list Z := (fun d => nth (Z.to_nat d) digits 0) <$> le.

Lemma digit_loop_ok digits base k : 2 <= base -> forall fuel x buf,
  0 <= x < base ^ Z.of_nat k -> (0 < k)%nat -> (length buf + k <= 16)%nat -> (k <= fuel)%nat ->
  exists le, digit_loop fuel digits base x buf = Some (buf ++ chars digits le) /\ value base le = x /\
    Forall (fun d => 0 <= d < base) le /\ (le = [0] \/ exists d, last le = Some d /\ d <> 0) /\ (length le <= k)%nat.
Proof.
  intros Hb. induction k as [|k IH]; intros fuel x buf Hx Hk Hlen Hf; [lia|]. destruct fuel as [|fuel]; [lia|]. cbn [digit_loop].
  rewrite (proj2 (Nat.ltb_lt _ _)) by lia. pose proof (Z.mod_pos_bound x base ltac:(lia)) as Hm. pose proof (Z.div_mod x base ltac:(lia)) as Hd.
  assert (Hq : 0 <= x / base) by (apply Z.div_pos; lia). cbv zeta.
  destruct (Z.eqb_spec (x / base) 0) as [E|E].
  - exists [x mod base]. cbn [chars fmap list_fmap value foldr length]. split; [done|]. split; [lia|]. split; [by apply Forall_cons; split; [|apply Forall_nil_2]|].
    split; [|lia]. destruct (decide (x mod base = 0)) as [->|Hne]; [by left|right; by exists (x mod base)].
  - assert (Hk0 : (0 < k)%nat). { destruct k; [|lia]. change (base ^ Z.of_nat 1) with (base ^ 1) in Hx. rewrite Z.pow_1_r in Hx. rewrite Z.div_small in E by lia. done. }
    assert (Hqx : x / base < base ^ Z.of_nat k).
    { apply Z.div_lt_upper_bound; [lia|]. rewrite <- Z.pow_succ_r by lia. replace (Z.succ (Z.of_nat k)) with (Z.of_nat (S k)) by lia. apply Hx. }
    destruct (IH fuel (x / base) (buf ++ [nth (Z.to_nat (x mod base)) digits 0])) as (le & R & V & F & L & Ln); try lia.
    { rewrite length_app. cbn. lia. }
    exists (x mod base :: le). rewrite R, <- app_assoc. split; [done|]. cbn [value foldr length]. fold (value base le).
    split; [rewrite V; lia|]. split; [by apply Forall_cons|]. split; [right|lia].
    destruct L as [->|(d & L & Hd0)]; [cbn in V; lia|]. exists d. split; [|done]. rewrite last_cons, L. done.
Qed.

(** The text of an integer. *)
Definition int_text (digits : list Z) (base : Z) (sign : bool) (xx : Z) : option (list Z) :=
  let neg := sign && (i32 xx <? 0) in
  (fun buf => (if neg then [45] else []) ++ rev buf) <$> digit_loop 17 digits base (if neg then u32 (- xx) else u32 xx) [].
(** The integer that was meant. *)
Definition int_of (sign : bool) (xx : Z) : Z := if sign then i32 xx else u32 xx.

(** Reading a number back. *)
Definition digit_of (digits : list Z) (base c : Z) : option Z :=
  i ← find_idx (Z.eqb c) digits; if Z.of_nat i <? base then Some (Z.of_nat i) else None.
Fixpoint parse_digits (digits : list Z) (base : Z) (l : list Z) (acc : Z) : option Z :=
  match l with
  | [] => Some acc
  | c :: l' => d ← digit_of digits base c; parse_digits digits base l' (base * acc + d)
  end.
Definition parse_int (digits : list Z) (base : Z) (l : list Z) : option Z :=
  match l with
  | [] => None
  | c :: l' => if c =? 45 then Z.opp <$> parse_digits digits base l' 0 else parse_digits digits base l 0
  end.

Lemma parse_app digits base l1 : forall l2 acc,
  parse_digits digits base (l1 ++ l2) acc = (v ← parse_digits digits base l1 acc; parse_digits digits base l2 v).
Proof.
  induction l1 as [|c l1 IH]; intros l2 acc; [done|]. cbn [app parse_digits].
  destruct (digit_of digits base c) as [d|]; [apply IH|done].
Qed.

(** Digits that can be told apart, and from the sign. *)
Definition alphabet (digits : list Z) : Prop := length digits = 16%nat /\ NoDup digits /\ 45 ∉ digits.

Lemma digit_of_char digits base d : alphabet digits -> 0 <= d < base -> base <= 16 ->
  digit_of digits base (nth (Z.to_nat d) digits 0) = Some d.
Proof.
  intros (Hl & Hn & _) Hd Hb. unfold digit_of.
  destruct (lookup_lt_is_Some_2 digits (Z.to_nat d)) as [c Hc]; [lia|]. rewrite (nth_lookup_Some _ _ 0 _ Hc).
  assert (E : find_idx (Z.eqb c) digits = Some (Z.to_nat d)).
  { apply find_idx_Some. exists c. split; [done|]. split; [apply Z.eqb_refl|]. intros j y Hj Hy. apply Z.eqb_neq. intros <-.
    pose proof (NoDup_lookup _ _ _ _ Hn Hy Hc). lia. }
  rewrite E. cbn [mbind option_bind]. rewrite Z2Nat.id, (proj2 (Z.ltb_lt _ _)) by lia. done.
Qed.

Lemma parse_chars digits base le : alphabet digits -> Forall (fun d => 0 <= d < base) le -> base <= 16 ->
  parse_digits digits base (rev (chars digits le)) 0 = Some (value base le).
Proof.
  intros Ha Hf Hb. induction le as [|d le IH]; [done|]. apply Forall_cons in Hf as [Hd Hf].
  cbn [chars fmap list_fmap rev]. fold (chars digits le). rewrite parse_app, (IH Hf). cbn [mbind option_bind parse_digits].
  rewrite digit_of_char by done. cbn [mbind option_bind value foldr]. fold (value base le). f_equal. lia.
Qed.

Lemma chars_in digits le c : alphabet digits -> Forall (fun d => 0 <= d < 16) le -> c ∈ chars digits le -> c ∈ digits.
Proof.
  intros (Hl & _) Hf. unfold chars. intros (d & -> & Hd)%list_elem_of_fmap. rewrite Forall_forall in Hf. specialize (Hf d Hd).
  destruct (lookup_lt_is_Some_2 digits (Z.to_nat d)) as [c Hc]; [lia|]. rewrite (nth_lookup_Some _ _ 0 _ Hc).
  by eapply list_elem_of_lookup_2.
Qed.

(** The text of an integer is the integer, in at most as many characters as
    the buffer has. *)
Lemma int_text_ok digits base sign xx : alphabet digits -> base = 10 \/ base = 16 ->
  exists l, int_text digits base sign xx = Some l /\ parse_int digits base l = Some (int_of sign xx) /\
    (length l <= 11)%nat /\ (forall c, c ∈ l -> c = 45 \/ c ∈ digits).
Proof.
  intros Ha Hbase. pose proof (u32_range xx) as Hu. pose proof (u32_range (- xx)) as Hu'.
  set (neg := sign && (i32 xx <? 0)). set (x := if neg then u32 (- xx) else u32 xx).
  assert (Hx : 0 <= x < base ^ Z.of_nat 10) by (unfold x; destruct neg, Hbase as [->| ->]; cbn; lia).
  destruct (digit_loop_ok digits base 10 ltac:(lia) 17 x [] Hx ltac:(lia) ltac:(cbn; lia) ltac:(lia)) as (le & R & V & F & L & Ln).
  assert (F16 : Forall (fun d => 0 <= d < 16) le) by (eapply Forall_impl; [exact F|]; cbn; lia).
  assert (Hne : rev (chars digits le) <> []).
  { intros E. apply (f_equal length) in E. unfold chars in E. rewrite length_rev, length_fmap in E. destruct L as [->|(d & E2 & _)]; [done|].
    by destruct le. }
  pose proof (parse_chars digits base le Ha F ltac:(lia)) as P. rewrite V in P.
  exists ((if neg then [45] else []) ++ rev (chars digits le)). split; [|split; [|split]].
  - unfold int_text. fold neg. fold x. by rewrite R.
  - unfold parse_int, int_of. destruct neg eqn:En; cbn [app].
    + cbn [Z.eqb Pos.eqb]. rewrite P. cbn. unfold neg in En. apply andb_true_iff in En as [-> Hlt%Z.ltb_lt]. f_equal. unfold x.
      pose proof (i32_range xx).
      assert (E : u32 (- xx) = - i32 xx); [|lia].
      rewrite <- (Z.sub_0_l xx), <- u32_sub_r, <- (u32_of_i32 xx), u32_sub_r, Z.sub_0_l. apply u32_small. lia.
    + destruct (rev (chars digits le)) as [|c l] eqn:E; [done|]. assert (Hc : c <> 45).
      { intros ->. apply (proj2 (proj2 Ha)), (chars_in digits le 45 Ha F16). apply list_elem_of_In, in_rev. rewrite E. by left. }
      rewrite (proj2 (Z.eqb_neq _ _) Hc), P. f_equal. unfold x, neg in *. destruct sign; [|done]. cbn [andb] in En.
      apply Z.ltb_ge in En. pose proof (i32_range xx). rewrite <- (u32_of_i32 xx). apply u32_small. lia.
  - rewrite length_app, length_rev. unfold chars. rewrite length_fmap. destruct neg; cbn [length]; lia.
  - intros c Hc. apply elem_of_app in Hc as [Hc|Hc].
    + left. destruct neg; [by apply list_elem_of_singleton in Hc|by apply not_elem_of_nil in Hc].
    + right. apply (chars_in digits le c Ha F16). apply list_elem_of_In, in_rev. by apply list_elem_of_In.
Qed.

Lemma hexdigits_alphabet : alphabet hexdigits.
Proof.
  split; [done|]. split; [by apply (bool_decide_unpack _)|by apply (bool_decide_unpack (45 ∉ hexdigits))].
Qed.

Lemma echo_bytes l : Forall byte_ok l -> mjoin (echo <$> l) = l.
Proof.
  induction l as [|c l IH]; intros H; [done|]. apply Forall_cons in H as [Hc H]. unfold byte_ok in Hc. 
  change (mjoin (echo <$> (c :: l))) with (echo c ++ mjoin (echo <$> l)). rewrite (IH H). unfold echo, BACKSPACE. rewrite (proj2 (Z.eqb_neq c 256)), u8_small by lia. done.
Qed.

Lemma puts_ok l s : Forall byte_ok l -> screen_ok s -> exists s', for_each l consputc s = Ret tt s' /\ shown l s s'.
Proof. intros Hl Hs. destruct (consputs_ok l s Hs) as (s' & R & S). rewrite (echo_bytes l Hl) in S. by exists s'. Qed.

Lemma putc_ok c s : byte_ok c -> screen_ok s -> exists s', consputc c s = Ret tt s' /\ shown [c] s s'.
Proof.
  intros Hc Hs. destruct (consputc_ok c s Hs) as (s' & R & S). exists s'. split; [done|].
  pose proof (echo_bytes [c] ltac:(by apply Forall_cons; split; [|apply Forall_nil_2])) as E. cbn in E. rewrite app_nil_r in E. by rewrite E in S.
Qed.

Lemma text_bytes digits l : Forall byte_ok digits -> (forall c, c ∈ l -> c = 45 \/ c ∈ digits) -> Forall byte_ok l.
Proof.
  intros Hd H. apply Forall_forall. intros c Hc. destruct (H c Hc) as [->|Hin]; [unfold byte_ok; lia|].
  rewrite Forall_forall in Hd. by apply Hd.
Qed.

Lemma hexdigits_bytes : Forall byte_ok hexdigits.
Proof. repeat (apply Forall_cons; split; [unfold byte_ok; lia|]). apply Forall_nil_2. Qed.

Lemma printint_ok xx base sign s : base = 10 \/ base = 16 -> screen_ok s ->
  exists l s', int_text hexdigits base sign xx = Some l /\ printint xx base sign s = Ret tt s' /\ shown l s s'.
Proof.
  intros Hb Hs. destruct (int_text_ok hexdigits base sign xx hexdigits_alphabet Hb) as (l & E & _ & Hlen & Hin).
  exists l. pose proof E as E0. unfold printint. unfold int_text in E. set (neg := sign && (i32 xx <? 0)) in *.
  destruct (digit_loop 17 hexdigits base _ []) as [buf|]; [|done]. cbn [fmap option_fmap option_map] in E. injection E as <-.
  rewrite length_app, length_rev in Hlen.
  assert (Er : rev (buf ++ if neg then [45] else []) = (if neg then [45] else []) ++ rev buf) by (rewrite rev_app_distr; by destruct neg).
  destruct (puts_ok ((if neg then [45] else []) ++ rev buf) s) as (s' & R & S); [by apply (text_bytes hexdigits); [apply hexdigits_bytes|]|done|].
  exists s'. split; [exact E0|]. split; [|done]. rewrite (proj2 (Nat.ltb_lt _ _)) by lia. rewrite andb_false_r. by rewrite Er.
Qed.

(** ** Formatted text *)

(** What a format stands for: the reference for [cprintf] and for [printf] of
    the user library. *)
Section Render.
Context (digits : list Z) (string_at : Z -> option (list Z)).

Fixpoint render (fmt : list Z) (args : list Z) : option (list Z) :=
  match fmt with
  | [] => Some []
  | c :: fmt1 =>
      if negb (c =? 37) then cons c <$> render fmt1 args
      else
        match fmt1, args with
        | [], _ => Some []
        | c :: fmt2, args =>
            if (c =? 100) || (c =? 120) || (c =? 112) then
              match args with
              | [] => None
              | a :: args' =>
                  l ← int_text digits (if c =? 100 then 10 else 16) (c =? 100) a; app l <$> render fmt2 args'
              end
            else if c =? 115 then
              match args with
              | [] => None
              | a :: args' => l ← (if a =? 0 then Some null_string else string_at a); app l <$> render fmt2 args'
              end
            else (app (if c =? 37 then [37] else [37; c])) <$> render fmt2 args
        end
  end.
End Render.

Definition strings_ok (string_at : Z -> option (list Z)) : Prop := forall a l, string_at a = Some l -> Forall byte_ok l.

Lemma null_string_bytes : Forall byte_ok null_string.
Proof. repeat (apply Forall_cons; split; [unfold byte_ok; lia|]). apply Forall_nil_2. Qed.

(** One more piece of output. *)
Lemma then_shown {A} (m : M cst unit) (k : M cst A) (a : A) s s1 l l' :
  m s = Ret tt s1 -> shown l s s1 -> (exists s', k s1 = Ret a s' /\ shown l' s1 s') ->
  exists s', (m ;;; k) s = Ret a s' /\ shown (l ++ l') s s'.
Proof.
  intros R S (s' & R' & S'). exists s'. rewrite (bind_eq _ _ _ _ _ R). split; [done|]. by eapply shown_trans.
Qed.

Lemma format_ok string_at n : strings_ok string_at -> forall fmt args s l,
  (length fmt < n)%nat -> Forall byte_ok fmt -> screen_ok s -> render hexdigits string_at fmt args = Some l ->
  exists s', format string_at fmt args s = Ret tt s' /\ shown l s s'.
Proof.
  intros Hstr. induction n as [|n IH]; intros fmt args s l Hn Hb Hs Hl; [lia|].
  destruct fmt as [|c fmt1]; [injection Hl as <-; exists s; split; [done|by apply shown_refl]|].
  apply Forall_cons in Hb as [Hc Hb]. cbn [length] in Hn. cbn [format render] in *. destruct (negb (c =? 37)).
  { apply fmap_Some in Hl as (l1 & Hl & ->). destruct (putc_ok c s Hc Hs) as (s1 & R1 & S1).
    apply (then_shown _ _ tt s s1 [c] l1 R1 S1). apply IH; [lia|done|by eapply shown_ok|done]. }
  destruct fmt1 as [|d fmt2]; [injection Hl as <-; exists s; split; [done|by apply shown_refl]|].
  apply Forall_cons in Hb as [Hd Hb]. cbn [length] in Hn.
  destruct (d =? 100) eqn:E1; [|destruct ((d =? 120) || (d =? 112)) eqn:E2; [|destruct (d =? 115) eqn:E3; [|]]].
  - cbn [orb] in Hl. destruct args as [|a args]; [done|]. apply bind_Some in Hl as (t & Ht & (l1 & Hl & ->)%fmap_Some).
    destruct (printint_ok a 10 true s) as (t' & s1 & Ht' & R1 & S1); [by left|done|]. assert (t' = t) as -> by congruence.
    apply (then_shown _ _ tt s s1 t l1 R1 S1). apply IH; [lia|done|by eapply shown_ok|done].
  - cbn [orb] in Hl. rewrite E2 in Hl. destruct args as [|a args]; [done|]. apply bind_Some in Hl as (t & Ht & (l1 & Hl & ->)%fmap_Some).
    destruct (printint_ok a 16 false s) as (t' & s1 & Ht' & R1 & S1); [by right|done|]. assert (t' = t) as -> by congruence.
    apply (then_shown _ _ tt s s1 t l1 R1 S1). apply IH; [lia|done|by eapply shown_ok|done].
  - cbn [orb] in Hl. rewrite E2 in Hl. destruct args as [|a args]; [done|]. apply bind_Some in Hl as (t & Ht & (l1 & Hl & ->)%fmap_Some).
    cbn [next_arg]. rewrite Ht. assert (Htb : Forall byte_ok t).
    { destruct (a =? 0); [injection Ht as <-; apply null_string_bytes|by eapply Hstr]. }
    destruct (puts_ok t s Htb Hs) as (s1 & R1 & S1).
    apply (then_shown _ _ tt s s1 t l1 R1 S1). apply IH; [lia|done|by eapply shown_ok|done].
  - cbn [orb] in Hl. rewrite E2 in Hl. apply fmap_Some in Hl as (l1 & Hl & ->).
    destruct (putc_ok 37 s) as (s1 & R1 & S1); [unfold byte_ok; lia|done|].
    destruct (d =? 37).
    + apply (then_shown _ _ tt s s1 [37] l1 R1 S1). apply IH; [lia|done|by eapply shown_ok|done].
    + destruct (putc_ok d s1 Hd) as (s2 & R2 & S2); [by eapply shown_ok|].
      apply (then_shown _ _ tt s s1 [37] ([d] ++ l1) R1 S1). apply (then_shown _ _ tt s1 s2 [d] l1 R2 S2).
      apply IH; [lia|done| |done]. eapply shown_ok; [|exact S2]. by eapply shown_ok.
Qed.
