(* ===== verification/Kbd.v ===== *)
(** * Keyboard and serial input

    [kbd.c] with the tables of [kbd.h], and the input half of [uart.c]: where
    the characters of [consoleintr] come from.  The controller of the keyboard
    holds the codes not read yet, the serial port the bytes that have come. *)

From S2P Require Import Prelude Console.

Module Kbd.

Definition KBS_DIB : Z := 1.
Definition NO : Z := 0.
Definition SHIFT : Z := 1.
Definition CTL : Z := 2.
Definition ALT : Z := 4.
Definition CAPSLOCK : Z := 8.
Definition NUMLOCK : Z := 16.
Definition SCROLLLOCK : Z := 32.
Definition E0ESC : Z := 64.

Definition KEY_HOME : Z := 0xE0.
Definition KEY_END : Z := 0xE1.
Definition KEY_UP : Z := 0xE2.
Definition KEY_DN : Z := 0xE3.
Definition KEY_LF : Z := 0xE4.
Definition KEY_RT : Z := 0xE5.
Definition KEY_PGUP : Z := 0xE6.
Definition KEY_PGDN : Z := 0xE7.
Definition KEY_INS : Z := 0xE8.
Definition KEY_DEL : Z := 0xE9.

(** An array of 256 bytes with an initialiser: elements from the start on, and
    elements by index. *)
Definition table (first : list Z) (at_index : list (Z * Z)) : list Z :=
  foldl (fun t p => <[Z.to_nat p.1 := p.2]> t) (first ++ replicate (256 - length first) 0) at_index.

Definition shiftcode : list Z :=
  table [] [(0x1D, CTL); (0x2A, SHIFT); (0x36, SHIFT); (0x38, ALT); (0x9D, CTL); (0xB8, ALT)].
Definition togglecode : list Z := table [] [(0x3A, CAPSLOCK); (0x45, NUMLOCK); (0x46, SCROLLLOCK)].

(** The cursor keys, the same in the three maps. *)
Definition cursor_keys : list (Z * Z) :=
  [(0xC8, KEY_UP); (0xD0, KEY_DN); (0xC9, KEY_PGUP); (0xD1, KEY_PGDN); (0xCB, KEY_LF); (0xCD, KEY_RT);
   (0x97, KEY_HOME); (0xCF, KEY_END); (0xD2, KEY_INS); (0xD3, KEY_DEL)].

Definition ch (c : string) : Z := match c with String a _ => Z.of_nat (Ascii.nat_of_ascii a) | EmptyString => 0 end.
Definition chars (s : string) : list Z := map (fun a => Z.of_nat (Ascii.nat_of_ascii a)) (String.list_ascii_of_string s).

Definition normalmap : list Z :=
  table ([NO; 0x1B] ++ chars "1234567890-=" ++ [8; 9] ++ chars "qwertyuiop[]" ++ [10; NO] ++ chars "asdfghjkl;'`" ++
         [NO] ++ chars "\zxcvbnm,./" ++ [NO] ++ chars "*" ++ [NO] ++ chars " " ++ replicate 13 NO ++ chars "789-456+1230." ++ replicate 4 NO)
        ([(0x9C, 10); (0xB5, ch "/")] ++ cursor_keys).
Definition shiftmap : list Z :=
  table ([NO; 27] ++ chars "!@#$%^&*()_+" ++ [8; 9] ++ chars "QWERTYUIOP{}" ++ [10; NO] ++ chars "ASDFGHJKL:" ++ [34] ++ chars "~" ++
         [NO] ++ chars "|ZXCVBNM<>?" ++ [NO] ++ chars "*" ++ [NO] ++ chars " " ++ replicate 13 NO ++ chars "789-456+1230." ++ replicate 4 NO)
        ([(0x9C, 10); (0xB5, ch "/")] ++ cursor_keys).
Definition C : Z -> Z := Console.C.
Definition ctlmap : list Z :=
  table (replicate 16 NO ++ map C (chars "QWERTYUIOP") ++ [NO; NO; 13; NO] ++ map C (chars "ASDFGHJKL") ++ [NO; NO; NO; NO] ++
         map C (chars "\ZXCVBNM") ++ [NO; NO; u8 (C (ch "/")); NO; NO])
        ([(0x9C, 13); (0xB5, u8 (C (ch "/")))] ++ cursor_keys).

(** [shift], and the codes waiting in the controller. *)
Record kst := { shift : Z; codes : list Z }.
Definition set_shift v s := {| shift := v; codes := codes s |}.

(** [inb(KBSTATP)] and [inb(KBDATAP)]. *)
Definition inb_status : M kst Z := gets (fun s => match codes s with [] => 0 | _ => KBS_DIB end).
Definition inb_data : M kst Z :=
  let! s := get in
  match codes s with
  | [] => ret 0
  | c :: cs => modify (fun s => {| shift := shift s; codes := cs |}) ;;; ret c
  end.

Definition at_byte (t : list Z) (i : Z) : M kst Z := from_opt (t !! Z.to_nat i).

Definition charcode : list (list Z) := [normalmap; shiftmap; ctlmap; ctlmap].

Definition kbdgetc : M kst Z :=
  let! st := inb_status in
  if Z.land st KBS_DIB =? 0 then ret (-1)
  else
    let! data := inb_data in
    let! s := get in
    if data =? 0xE0 then modify (set_shift (Z.lor (shift s) E0ESC)) ;;; ret 0
    else if negb (Z.land data 0x80 =? 0) then
      let data := if negb (Z.land (shift s) E0ESC =? 0) then data else Z.land data 0x7F in
      let! k := at_byte shiftcode data in
      modify (set_shift (Z.land (shift s) (u32 (Z.lnot (Z.lor k E0ESC))))) ;;;
      ret 0
    else
      let! data :=
        (if negb (Z.land (shift s) E0ESC =? 0) then
           modify (set_shift (Z.land (shift s) (u32 (Z.lnot E0ESC)))) ;;; ret (Z.lor data 0x80)
         else ret data) in
      let! k := at_byte shiftcode data in
      modify (fun s => set_shift (Z.lor (shift s) k) s) ;;;
      let! k := at_byte togglecode data in
      modify (fun s => set_shift (Z.lxor (shift s) k) s) ;;;
      let! s := get in
      let! map := from_opt (charcode !! Z.to_nat (Z.land (shift s) (Z.lor CTL SHIFT))) in
      let! c := at_byte map data in
      let c :=
        if negb (Z.land (shift s) CAPSLOCK =? 0) then
          if (97 <=? c) && (c <=? 122) then u32 (c + (65 - 97))
          else if (65 <=? c) && (c <=? 90) then u32 (c + (97 - 65))
          else c
        else c in
      ret (i32 c).

(** The loop of [consoleintr] on [getc], up to its first negative answer. *)
Fixpoint drain {S} (fuel : nat) (getc : M S Z) : M S (list Z) :=
  match fuel with
  | O => fun _ => NoFuel
  | S fuel' =>
      let! c := getc in
      if c <? 0 then ret [] else let! cs := drain fuel' getc in ret (c :: cs)
  end.

Definition on_console {D A} (m : M Console.cst A) : M (D * Console.cst) A := zoom snd (fun c s => (s.1, c)) m.
Definition on_device {D A} (m : M D A) : M (D * Console.cst) A := zoom fst (fun d s => (d, s.2)) m.

Definition kbdintr (fuel : nat) : M (kst * Console.cst) unit :=
  let! cs := on_device (drain fuel kbdgetc) in
  on_console (Console.consoleintr cs).

(** [uartgetc]: the bytes received and not read yet; [uart] is a field of the
    console. *)
Definition uartgetc (uart : bool) : M (list Z) Z :=
  let! l := get in
  if negb uart then ret (-1)
  else match l with [] => ret (-1) | c :: l' => modify (fun _ => l') ;;; ret c end.

Definition uartintr (fuel : nat) : M (list Z * Console.cst) unit :=
  let! s := get in
  let! cs := on_device (drain fuel (uartgetc (Console.uart s.2))) in
  on_console (Console.consoleintr cs).

(** [uartinit]: the bytes written to its ports and, when the status does not
    say that there is no port, the console with a serial port that announces
    itself.  [ioapicenable] has ports of its own. *)
Definition COM1 : Z := 0x3f8.
Definition outb {S} (port v : Z) : M (list (Z * Z) * S) unit := modify (fun s => (s.1 ++ [(port, u8 v)], s.2)).
Definition set_uart (v : bool) (s : Console.cst) : Console.cst :=
  {| Console.panicked := Console.panicked s; Console.locking := Console.locking s; Console.clk := Console.clk s;
     Console.ccpu := Console.ccpu s; Console.uart := v; Console.serial := Console.serial s; Console.crt := Console.crt s;
     Console.pos := Console.pos s; Console.ibuf := Console.ibuf s; Console.ir := Console.ir s; Console.iw := Console.iw s;
     Console.ie := Console.ie s; Console.killed := Console.killed s; Console.wakes := Console.wakes s; Console.dumps := Console.dumps s |}.

Definition uartinit (status : Z) : M (list (Z * Z) * Console.cst) unit :=
  outb (COM1 + 2) 0 ;;;
  outb (COM1 + 3) 0x80 ;;;
  outb (COM1 + 0) (115200 / 9600) ;;;
  outb (COM1 + 1) 0 ;;;
  outb (COM1 + 3) 0x03 ;;;
  outb (COM1 + 4) 0 ;;;
  outb (COM1 + 1) 0x01 ;;;
  if status =? 0xFF then ret tt
  else
    on_console (modify (set_uart true)) ;;;
    on_console (for_each (chars "xv6..." ++ [10]) Console.uartputc).

End Kbd.
