(* ===== verification/KbdFacts.v ===== *)
(** * Keyboard input: what the codes mean

    A reference reading of the codes of the keyboard as presses and releases of
    keys, with the state of the modifier keys, and the proof that [kbdintr]
    hands exactly the characters it gives to the console. *)

From S2P Require Import Prelude Locks Console Kbd.
Import Kbd.

(** ** The reference *)

(** A key is its code, 128 added for the keys that send 0xE0 first. *)
Inductive key := Press (k : Z) | Release (k : Z).

(** [esc]: whether the last code was 0xE0. *)
Fixpoint parse (esc : bool) (cs : list Z) : list key * bool :=
  match cs with
  | [] => ([], esc)
  | c :: cs' =>
      if c =? 0xE0 then parse true cs'
      else
        let k := if c <? 128 then Press (if esc then c + 128 else c) else Release (if esc then c else c - 128) in
        let '(ks, e) := parse false cs' in (k :: ks, e)
  end.

Record mods := { m_shift : bool; m_ctl : bool; m_alt : bool; m_caps : bool; m_num : bool; m_scroll : bool }.

Definition shift_key (k : Z) : bool := (k =? 0x2A) || (k =? 0x36).
Definition ctl_key (k : Z) : bool := (k =? 0x1D) || (k =? 0x9D).
Definition alt_key (k : Z) : bool := (k =? 0x38) || (k =? 0xB8).

Definition pressed (k : Z) (m : mods) : mods :=
  {| m_shift := m_shift m || shift_key k; m_ctl := m_ctl m || ctl_key k; m_alt := m_alt m || alt_key k;
     m_caps := xorb (m_caps m) (k =? 0x3A); m_num := xorb (m_num m) (k =? 0x45); m_scroll := xorb (m_scroll m) (k =? 0x46) |}.
Definition released (k : Z) (m : mods) : mods :=
  {| m_shift := m_shift m && negb (shift_key k); m_ctl := m_ctl m && negb (ctl_key k); m_alt := m_alt m && negb (alt_key k);
     m_caps := m_caps m; m_num := m_num m; m_scroll := m_scroll m |}.

Definition swap_case (c : Z) : Z :=
  if (97 <=? c) && (c <=? 122) then c - 32 else if (65 <=? c) && (c <=? 90) then c + 32 else c.
Definition char_of (m : mods) (k : Z) : Z :=
  let c := nth (Z.to_nat k) (if m_ctl m then ctlmap else if m_shift m then shiftmap else normalmap) 0 in
  if m_caps m then swap_case c else c.

(** The characters of keys, and the modifiers after them. *)
Fixpoint typed (m : mods) (ks : list key) : list Z * mods :=
  match ks with
  | [] => ([], m)
  | Release k :: ks' => typed (released k m) ks'
  | Press k :: ks' =>
      let m := pressed k m in
      let '(cs, m') := typed m ks' in
      ((if char_of m k =? 0 then [] else [char_of m k]) ++ cs, m')
  end.

(** The word [shift]. *)
Definition bit (b : bool) (v : Z) : Z := if b then v else 0.
Definition word (m : mods) (esc : bool) : Z :=
  bit (m_shift m) SHIFT + bit (m_ctl m) CTL + bit (m_alt m) ALT + bit (m_caps m) CAPSLOCK + bit (m_num m) NUMLOCK +
  bit (m_scroll m) SCROLLLOCK + bit esc E0ESC.

(** ** One code *)

(** What one code gives: the character, or 0, and the modifiers. *)
Definition code_step (m : mods) (esc : bool) (c : Z) : Z * mods * bool :=
  if c =? 0xE0 then (0, m, true)
  else if c <? 128 then
    let k := if esc then c + 128 else c in (char_of (pressed k m) k, pressed k m, false)
  else (0, released (if esc then c else c - 128) m, false).

(** The tables, byte by byte. *)
Definition shift_bits (k : Z) : Z := bit (shift_key k) SHIFT + bit (ctl_key k) CTL + bit (alt_key k) ALT.
Definition toggle_bits (k : Z) : Z := bit (k =? 0x3A) CAPSLOCK + bit (k =? 0x45) NUMLOCK + bit (k =? 0x46) SCROLLLOCK.

Lemma table_entry (t : list Z) (f : Z -> Z) k : t = map f (seqZ 0 256) -> 0 <= k < 256 -> t !! Z.to_nat k = Some (f k).
Proof.
  intros -> Hk. rewrite list_lookup_fmap. rewrite (proj2 (lookup_seqZ 0 256 (Z.to_nat k) k)) by lia. done.
Qed.
Lemma shiftcode_ok k : 0 <= k < 256 -> shiftcode !! Z.to_nat k = Some (shift_bits k).
Proof. apply table_entry. vm_compute. reflexivity. Qed.
Lemma togglecode_ok k : 0 <= k < 256 -> togglecode !! Z.to_nat k = Some (toggle_bits k).
Proof. apply table_entry. vm_compute. reflexivity. Qed.

Definition char_table (m : mods) : list Z := if m_ctl m then ctlmap else if m_shift m then shiftmap else normalmap.
Definition is_table (t : list Z) : bool := (length t =? 256)%nat && forallb (fun c => (0 <=? c) && (c <? 256)) t.
Lemma tables_ok : forallb is_table charcode = true.
Proof. vm_compute. reflexivity. Qed.

Lemma char_table_ok m k : 0 <= k < 256 -> char_table m !! Z.to_nat k = Some (nth (Z.to_nat k) (char_table m) 0) /\
  0 <= nth (Z.to_nat k) (char_table m) 0 < 256.
Proof.
  intros Hk. pose proof tables_ok as H. rewrite forallb_forall in H.
  assert (Hin : In (char_table m) charcode) by (unfold char_table, charcode; destruct (m_ctl m), (m_shift m); cbn; tauto).
  apply H in Hin. apply andb_true_iff in Hin as [Hl%Nat.eqb_eq Hb]. rewrite forallb_forall in Hb.
  destruct (lookup_lt_is_Some_2 (char_table m) (Z.to_nat k)) as [c Hc]; [lia|]. rewrite (nth_lookup_Some _ _ _ _ Hc). split; [done|].
  apply list_elem_of_lookup_2, list_elem_of_In, Hb in Hc. bools. lia.
Qed.

(** The word [shift] under the operations of [kbdgetc]. *)
Ltac all_mods m := destruct m as [[] [] [] [] [] []].
Lemma word_lor m b1 b2 b3 : Z.lor (word m false) (bit b1 SHIFT + bit b2 CTL + bit b3 ALT) =
  word {| m_shift := m_shift m || b1; m_ctl := m_ctl m || b2; m_alt := m_alt m || b3; m_caps := m_caps m; m_num := m_num m; m_scroll := m_scroll m |} false.
Proof. all_mods m; destruct b1, b2, b3; reflexivity. Qed.
Lemma word_lxor m b1 b2 b3 : Z.lxor (word m false) (bit b1 CAPSLOCK + bit b2 NUMLOCK + bit b3 SCROLLLOCK) =
  word {| m_shift := m_shift m; m_ctl := m_ctl m; m_alt := m_alt m; m_caps := xorb (m_caps m) b1; m_num := xorb (m_num m) b2; m_scroll := xorb (m_scroll m) b3 |} false.
Proof. all_mods m; destruct b1, b2, b3; reflexivity. Qed.
Lemma word_clear m esc b1 b2 b3 : Z.land (word m esc) (u32 (Z.lnot (Z.lor (bit b1 SHIFT + bit b2 CTL + bit b3 ALT) E0ESC))) =
  word {| m_shift := m_shift m && negb b1; m_ctl := m_ctl m && negb b2; m_alt := m_alt m && negb b3; m_caps := m_caps m; m_num := m_num m; m_scroll := m_scroll m |} false.
Proof. all_mods m; destruct esc, b1, b2, b3; reflexivity. Qed.
Lemma word_esc m esc : Z.lor (word m esc) E0ESC = word m true /\ Z.land (word m esc) (u32 (Z.lnot E0ESC)) = word m false /\
  (Z.land (word m esc) E0ESC =? 0) = negb esc /\ (Z.land (word m esc) CAPSLOCK =? 0) = negb (m_caps m).
Proof. all_mods m; destruct esc; repeat split. Qed.
Lemma word_table m : charcode !! Z.to_nat (Z.land (word m false) (Z.lor CTL SHIFT)) = Some (char_table m).
Proof. all_mods m; reflexivity. Qed.

(** The high bit of a code, for the 256 of them. *)
Lemma code_bits : forallb (fun c => Bool.eqb (Z.land c 0x80 =? 0) (c <? 128) && (Z.land c 0x7F =? (if c <? 128 then c else c - 128)) &&
  (Z.lor c 0x80 =? (if c <? 128 then c + 128 else c))) (seqZ 0 256) = true.
Proof. vm_compute. reflexivity. Qed.

Lemma code_bits_ok c : 0 <= c < 256 -> (Z.land c 0x80 =? 0) = (c <? 128) /\ Z.land c 0x7F = (if c <? 128 then c else c - 128) /\
  Z.lor c 0x80 = (if c <? 128 then c + 128 else c).
Proof.
  intros Hc. pose proof code_bits as H. rewrite forallb_forall in H. specialize (H c (proj1 (list_elem_of_In _ _) (proj2 (elem_of_seqZ 0 256 c) Hc))).
  apply andb_true_iff in H as [[H1%eqb_prop H2%Z.eqb_eq]%andb_true_iff H3%Z.eqb_eq]. done.
Qed.

Lemma swap_case_ok c : 0 <= c < 256 -> 0 <= swap_case c /\
  i32 (if (97 <=? c) && (c <=? 122) then u32 (c + (65 - 97)) else if (65 <=? c) && (c <=? 90) then u32 (c + (97 - 65)) else c) = swap_case c.
Proof.
  intros Hc. unfold swap_case. destruct ((97 <=? c) && (c <=? 122)) eqn:E1; [|destruct ((65 <=? c) && (c <=? 90)) eqn:E2]; bools;
    (split; [lia|]); rewrite ?u32_small by lia; rewrite i32_small by lia; lia.
Qed.

(** The end of [kbdgetc], for a key that goes down. *)
Definition key_down (data : Z) : M kst Z :=
  let! k := at_byte shiftcode data in
  modify (fun s => set_shift (Z.lor (shift s) k) s) ;;;
  let! k := at_byte togglecode data in
  modify (fun s => set_shift (Z.lxor (shift s) k) s) ;;;
  let! s := get in
  let! map := from_opt (charcode !! Z.to_nat (Z.land (shift s) (Z.lor CTL SHIFT))) in
  let! c := at_byte map data in
  let c :=
    if negb (Z.land (shift s) CAPSLOCK =? 0) then
      if (97 <=? c) && (c <=? 122) then u32 (c + (65 - 97))
      else if (65 <=? c) && (c <=? 90) then u32 (c + (97 - 65))
      else c
    else c in
  ret (i32 c).

Lemma key_down_ok m k cs : 0 <= k < 256 -> 0 <= char_of (pressed k m) k /\
  key_down k {| shift := word m false; codes := cs |} = Ret (char_of (pressed k m) k) {| shift := word (pressed k m) false; codes := cs |}.
Proof.
  intros Hk. unfold key_down, at_byte. rewrite (shiftcode_ok k Hk), (togglecode_ok k Hk). cbn [from_opt].
  do 2 (erewrite (bind_eq (ret _)) by reflexivity; erewrite (bind_eq (modify _)) by reflexivity). cbn [set_shift shift codes].
  unfold shift_bits, toggle_bits. rewrite word_lor, word_lxor. cbn [m_shift m_ctl m_alt m_caps m_num m_scroll]. fold (pressed k m).
  erewrite (bind_eq get) by reflexivity. cbn [shift set_shift codes]. rewrite word_table. cbn [from_opt].
  destruct (char_table_ok (pressed k m) k Hk) as [Ec Hc]. erewrite (bind_eq (ret _)) by reflexivity. rewrite Ec. cbn [from_opt].
  erewrite (bind_eq (ret _)) by reflexivity. destruct (word_esc (pressed k m) false) as (_ & _ & _ & ->). rewrite negb_involutive.
  unfold char_of. fold (char_table (pressed k m)). destruct (m_caps (pressed k m)).
  - destruct (swap_case_ok _ Hc) as [H0 ->]. done.
  - split; [lia|]. by rewrite i32_small by lia.
Qed.

Lemma kbdgetc_ok m esc c cs : 0 <= c < 256 ->
  let '(v, m', e) := code_step m esc c in
  0 <= v /\ kbdgetc {| shift := word m esc; codes := c :: cs |} = Ret v {| shift := word m' e; codes := cs |}.
Proof.
  intros Hc. unfold kbdgetc, code_step. 
  assert (S : inb_status {| shift := word m esc; codes := c :: cs |} = Ret 1 {| shift := word m esc; codes := c :: cs |}) by reflexivity.
  rewrite (bind_eq _ _ _ _ _ S). change (Z.land 1 KBS_DIB =? 0) with false. cbv iota.
  erewrite (bind_eq inb_data) by reflexivity. erewrite (bind_eq get) by reflexivity. cbn [shift].
  destruct (code_bits_ok c Hc) as (E1 & E2 & E3). destruct (word_esc m esc) as (W1 & W2 & W3 & _).
  destruct (Z.eqb_spec c 0xE0) as [->|Hne].
  - split; [done|]. rewrite W1. reflexivity.
  - rewrite E1, W3, negb_involutive. destruct (Z.ltb_spec c 128) as [Hlt|Hge]; cbn [negb].
    + assert (Hk : 0 <= (if esc then c + 128 else c) < 256) by (destruct esc; lia).
      destruct (key_down_ok m _ cs Hk) as [Hv R]. split; [exact Hv|]. rewrite <- R. destruct esc.
      * rewrite W2, E3. reflexivity.
      * reflexivity.
    + rewrite E2. assert (Hk : 0 <= (if esc then c else c - 128) < 256) by (destruct esc; lia).
      split; [done|]. unfold at_byte. rewrite (shiftcode_ok _ Hk). cbn [from_opt]. erewrite (bind_eq (ret _)) by reflexivity.
      unfold shift_bits. rewrite word_clear. reflexivity.
Qed.

(** ** All the codes waiting *)

Definition heard (cs : list Z) : list Z := filter (fun c => c <> 0) cs.

Lemma drain_kbd cs : forall m esc fuel, Forall (fun c => 0 <= c < 256) cs -> (length cs < fuel)%nat ->
  let '(ks, e) := parse esc cs in
  let '(out, m') := typed m ks in
  exists l, drain fuel kbdgetc {| shift := word m esc; codes := cs |} = Ret l {| shift := word m' e; codes := [] |} /\ heard l = out.
Proof.
  induction cs as [|c cs IH]; intros m esc [|fuel] Hb Hf; cbn [length] in Hf; try lia; cbn [parse typed drain].
  - by exists [].
  - apply Forall_cons in Hb as [Hc Hb]. pose proof (kbdgetc_ok m esc c cs Hc) as K. unfold code_step in K.
    assert (Hr : forall m1 e1 v, 0 <= v -> kbdgetc {| shift := word m esc; codes := c :: cs |} = Ret v {| shift := word m1 e1; codes := cs |} ->
      let '(ks, e) := parse e1 cs in
      let '(out, m') := typed m1 ks in
      exists l, (let! c := kbdgetc in if c <? 0 then ret [] else let! cs := drain fuel kbdgetc in ret (c :: cs))
        {| shift := word m esc; codes := c :: cs |} = Ret l {| shift := word m' e; codes := [] |} /\ heard l = (if v =? 0 then [] else [v]) ++ out).
    { intros m1 e1 v Hv R. specialize (IH m1 e1 fuel Hb ltac:(lia)). destruct (parse e1 cs) as [ks e]. destruct (typed m1 ks) as [out m'].
      destruct IH as (l & Rl & E). exists (v :: l). split.
      - rewrite (bind_eq _ _ _ _ _ R), (proj2 (Z.ltb_ge v 0) Hv). by rewrite (bind_eq _ _ _ _ _ Rl).
      - unfold heard in *. rewrite <- E. destruct (Z.eqb_spec v 0) as [->|Hne]; [by rewrite filter_cons_False by lia|by rewrite filter_cons_True]. }
    destruct (Z.eqb_spec c 0xE0); [|destruct (Z.ltb_spec c 128)]; destruct K as [Hv K]; specialize (Hr _ _ _ Hv K).
    + exact Hr.
    + destruct (parse false cs) as [ks e]. cbn [typed]. destruct (typed _ ks) as [out m']. exact Hr.
    + destruct (parse false cs) as [ks e]. cbn [typed]. destruct (typed _ ks) as [out m']. exact Hr.
Qed.

(** A null character does nothing. *)
Lemma intr_null s : Console.intr_char 0 s = Ret false s.
Proof. reflexivity. Qed.

Lemma intr_heard l : forall d s, Console.intr_loop l d s = Console.intr_loop (heard l) d s.
Proof.
  induction l as [|c l IH]; intros d s; [done|]. unfold heard in *. destruct (decide (c = 0)) as [->|Hne].
  - rewrite filter_cons_False by lia. cbn [Console.intr_loop]. rewrite (bind_eq _ _ _ _ _ (intr_null s)), orb_false_r. apply IH.
  - rewrite filter_cons_True by done. cbn [Console.intr_loop]. unfold bind. destruct (Console.intr_char c s); try done.
Qed.

Lemma consoleintr_heard l s : Console.consoleintr l s = Console.consoleintr (heard l) s.
Proof. unfold Console.consoleintr, bind. destruct (Console.acquire s); try done. by rewrite intr_heard. Qed.

(** C40: The interrupt of the keyboard reads all the codes the controller holds and
    gives the console the characters of the keys pressed, under the modifier
    keys held and locked at each, an 0xE0 at the end of what came before
    included; no index leaves a table, no code is lost, and what is left in
    [shift] is the state of the modifiers.  The character of a key is the entry
    of the maps of [kbd.h], which both sides read. *)
Theorem kbdintr_spec m esc cs con fuel : Forall (fun c => 0 <= c < 256) cs -> (length cs < fuel)%nat ->
  let '(ks, e) := parse esc cs in
  let '(out, m') := typed m ks in
  kbdintr fuel ({| shift := word m esc; codes := cs |}, con) =
    on_console (Console.consoleintr out) ({| shift := word m' e; codes := [] |}, con).
Proof.
  intros Hb Hf. pose proof (drain_kbd cs m esc fuel Hb Hf) as D. destruct (parse esc cs) as [ks e]. destruct (typed m ks) as [out m'].
  destruct D as (l & R & <-). unfold kbdintr, on_device. unfold bind at 1, zoom at 1. cbn [fst]. rewrite R. cbn [snd].
  unfold on_console, zoom. cbn [snd]. by rewrite consoleintr_heard.
Qed.

Definition no_mods : mods := {| m_shift := false; m_ctl := false; m_alt := false; m_caps := false; m_num := false; m_scroll := false |}.

Definition blank_console : Console.cst :=
  {| Console.panicked := false; Console.locking := true; Console.clk := false;
     Console.ccpu := {| Cli.ncli := 0; Cli.intena := true; Cli.intr := false |};
     Console.uart := false; Console.serial := []; Console.crt := replicate 2000 0; Console.pos := 0; Console.ibuf := replicate 128 0;
     Console.ir := 0; Console.iw := 0; Console.ie := 0; Console.killed := 0; Console.wakes := O; Console.dumps := O |}.

(** Shift and h, then i, then the cursor key up. *)
Lemma kbdintr_spec_witness :
  kbdintr 10 ({| shift := 0; codes := [0x2A; 0x23; 0xA3; 0xAA; 0x17; 0xE0; 0x48] |}, blank_console) =
    on_console (Console.consoleintr [72; 105; 0xE2]) ({| shift := 0; codes := [] |}, blank_console).
Proof.
  apply (kbdintr_spec no_mods false [0x2A; 0x23; 0xA3; 0xAA; 0x17; 0xE0; 0x48] blank_console 10); [repeat constructor; lia|cbn; lia].
Defined.

(** The serial port hands on the bytes as they came. *)
Lemma uartintr_ok l con fuel : Forall (fun c => 0 <= c) l -> (length l < fuel)%nat -> Console.uart con = true ->
  uartintr fuel (l, con) = on_console (Console.consoleintr l) ([], con).
Proof.
  intros Hb Hf Hu. unfold uartintr. erewrite (bind_eq get) by reflexivity. cbn [snd]. rewrite Hu.
  assert (R : drain fuel (uartgetc true) l = Ret l []).
  { clear Hu. revert fuel Hf. induction Hb as [|c l Hc _ IH]; intros [|fuel] Hf; cbn [length] in Hf; try lia; cbn [drain]; [done|].
    erewrite (bind_eq (uartgetc true)) by reflexivity. rewrite (proj2 (Z.ltb_ge c 0) Hc). by rewrite (bind_eq _ _ _ _ _ (IH fuel ltac:(lia))). }
  unfold on_device. unfold bind, zoom at 1. cbn [fst]. by rewrite R.
Qed.

Lemma uart_puts l : forall con, Console.uart con = true ->
  for_each l Console.uartputc con = Ret tt (Console.with_serial (Console.serial con ++ map u8 l) con).
Proof.
  induction l as [|c l IH]; intros con Hu; cbn [for_each map].
  - rewrite app_nil_r. by destruct con.
  - assert (R : Console.uartputc c con = Ret tt (Console.with_serial (Console.serial con ++ [u8 c]) con)).
    { unfold Console.uartputc. erewrite (bind_eq get) by reflexivity. by rewrite Hu. }
    rewrite (bind_eq _ _ _ _ _ R), IH by done. cbn. by rewrite <- app_assoc.
Qed.

(** With a port there, [uartinit] sets it to 9600 baud with eight data bits and
    the announcement is the first thing sent. *)
Lemma uartinit_ok status con : status <> 0xFF -> exists l,
  uartinit status ([], con) =
    Ret tt (l, Console.with_serial (Console.serial con ++ map u8 (chars "xv6..." ++ [10])) (set_uart true con)).
Proof.
  intros H. unfold uartinit. do 7 (erewrite (bind_eq (outb _ _)) by reflexivity). rewrite (proj2 (Z.eqb_neq _ _) H).
  erewrite (bind_eq (on_console _)) by reflexivity. unfold on_console, zoom. cbn [snd fst]. rewrite uart_puts by done. by eexists.
Qed.
