(* ===== verification/Printf.v ===== *)
(** * Printing in user programs

    [printf.c]: a format is read with one flag of state, and every character
    is a [write] of one byte.  The digits come out in capitals. *)

From S2P Require Import Prelude Console.

Module Printf.

(** The bytes written so far, each with its descriptor. *)
Definition out : Type := list (Z * Z).

Definition putc (fd c : Z) : M out unit := modify (fun o => o ++ [(fd, u8 c)]).

Definition digits : list Z := [48; 49; 50; 51; 52; 53; 54; 55; 56; 57; 65; 66; 67; 68; 69; 70].

Definition printint (fd xx base : Z) (sgn : bool) : M out unit :=
  let neg := sgn && (i32 xx <? 0) in
  let x := if neg then u32 (- xx) else u32 xx in
  match Console.digit_loop 17 digits base x [] with
  | None => fault
  | Some buf =>
      if neg && negb (length buf <? 16)%nat then fault
      else for_each (rev (buf ++ if neg then [45] else [])) (putc fd)
  end.

Section Printf.
(** The string a pointer leads to. *)
Context (string_at : Z -> option (list Z)) (fd : Z).

(** One character after a [%]: what it prints and the arguments left. *)
Definition directive (c : Z) (args : list Z) : M out (list Z) :=
  let next (k : Z -> M out unit) : M out (list Z) :=
    match args with a :: args' => k a ;;; ret args' | [] => fault end in
  if c =? 100 then next (fun a => printint fd a 10 true)
  else if (c =? 120) || (c =? 112) then next (fun a => printint fd a 16 false)
  else if c =? 115 then
    next (fun a =>
      match (if a =? 0 then Some Console.null_string else string_at a) with
      | None => fault
      | Some l => for_each l (putc fd)
      end)
  else if c =? 99 then next (fun a => putc fd a)
  else if c =? 37 then putc fd c ;;; ret args
  else putc fd 37 ;;; putc fd c ;;; ret args.

(** [state]: whether the last character was a [%]. *)
Fixpoint printf_loop (fmt : list Z) (state : bool) (args : list Z) : M out unit :=
  match fmt with
  | [] => ret tt
  | c :: fmt' =>
      if negb state then
        if c =? 37 then printf_loop fmt' true args
        else putc fd c ;;; printf_loop fmt' false args
      else
        let! args := directive c args in
        printf_loop fmt' false args
  end.

Definition printf (fmt : list Z) (args : list Z) : M out unit := printf_loop fmt false args.
End Printf.

End Printf.
