(* ===== verification/Umalloc.v ===== *)
(** * The allocator of user programs

    [umalloc.c]: free blocks in one circular list, sorted by address, through
    the headers in front of them; memory comes from [sbrk].  A pointer to a
    header is its address, and the headers are bytes of the memory of the
    process. *)

From S2P Require Import Prelude.

Module Umalloc.

(** The memory of the process, [freep], and the end of its memory. *)
Record ust := { memory : mem; freep : Z; brk : Z }.

Definition with_memory m s := {| memory := m; freep := freep s; brk := brk s |}.
Definition with_freep p s := {| memory := memory s; freep := p; brk := brk s |}.
Definition with_brk b s := {| memory := memory s; freep := freep s; brk := b |}.

(** [sizeof(Header)]. *)
Definition HDR : Z := 8.
(** [p + n] and [(Header* )ap - 1]. *)
Definition hadd (p n : Z) : Z := u32 (p + HDR * n).

(** [p->s.ptr] and [p->s.size], read and assigned. *)
Definition ptr (p : Z) : M ust Z := gets (fun s => ld32 (memory s) p).
Definition size (p : Z) : M ust Z := gets (fun s => ld32 (memory s) (p + 4)).
Definition set_ptr (p v : Z) : M ust unit := modify (fun s => with_memory (st32 (memory s) p v) s).
Definition set_size (p v : Z) : M ust unit := modify (fun s => with_memory (st32 (memory s) (p + 4) v) s).

(** The address of [base], and whether the kernel has the memory to grow the
    process from one size to another. *)
Section Alloc.
Context (base : Z) (has_memory : Z -> Z -> bool).

Definition KERNBASE : Z := 2147483648.

(** [sys_sbrk] with [growproc]: the size before, or -1.  What the new memory
    holds is what [memory] has there; nothing depends on it. *)
Definition sbrk (n : Z) : M ust Z :=
  let! s := get in
  let n := i32 n in
  let sz := brk s in
  let new := u32 (sz + n) in
  if n >? 0 then
    if (new >=? KERNBASE) then ret (u32 (-1))
    else if new <? sz then ret sz
    else if has_memory sz new then modify (with_brk new) ;;; ret sz
    else ret (u32 (-1))
  else if n <? 0 then
    let new := if new >=? sz then sz else new in
    if new =? 0 then ret (u32 (-1)) else modify (with_brk new) ;;; ret sz
  else ret sz.

(** The loop of [free]: the block after which [bp] goes. *)
Fixpoint find_place (fuel : nat) (bp p : Z) : M ust Z :=
  match fuel with
  | O => fun _ => NoFuel
  | S fuel' =>
      let! q := ptr p in
      if (bp >? p) && (bp <? q) then ret p
      else if (p >=? q) && ((bp >? p) || (bp <? q)) then ret p
      else find_place fuel' bp q
  end.

Definition free (fuel : nat) (ap : Z) : M ust unit :=
  let bp := hadd ap (-1) in
  let! s := get in
  let! p := find_place fuel bp (freep s) in
  let! n := size bp in
  let! q := ptr p in
  (if hadd bp n =? q then
     let! t := size q in
     set_size bp (u32 (n + t)) ;;;
     let! r := ptr q in
     set_ptr bp r
   else set_ptr bp q) ;;;
  let! m := size p in
  (if hadd p m =? bp then
     let! t := size bp in
     set_size p (u32 (m + t)) ;;;
     let! r := ptr bp in
     set_ptr p r
   else set_ptr p bp) ;;;
  modify (with_freep p).

Definition morecore (fuel : nat) (nu : Z) : M ust Z :=
  let nu := if nu <? 4096 then 4096 else nu in
  let! p := sbrk (u32 (nu * HDR)) in
  if p =? u32 (-1) then ret 0
  else
    set_size p nu ;;;
    free fuel (hadd p 1) ;;;
    gets freep.

(** The loop of [malloc]; [fuel2] is for the loop of [free]. *)
Fixpoint search (fuel fuel2 : nat) (nunits prevp p : Z) : M ust Z :=
  match fuel with
  | O => fun _ => NoFuel
  | S fuel' =>
      let! n := size p in
      if n >=? nunits then
        let! p :=
          (if n =? nunits then let! q := ptr p in set_ptr prevp q ;;; ret p
           else
             set_size p (u32 (n - nunits)) ;;;
             let r := hadd p (u32 (n - nunits)) in
             set_size r nunits ;;;
             ret r) in
        modify (with_freep prevp) ;;;
        ret (hadd p 1)
      else
        let! s := get in
        if p =? freep s then
          let! p := morecore fuel2 nunits in
          if p =? 0 then ret 0
          else let! q := ptr p in search fuel' fuel2 nunits p q
        else let! q := ptr p in search fuel' fuel2 nunits p q
  end.

Definition units (nbytes : Z) : Z := u32 (u32 (nbytes + HDR - 1) / HDR + 1).

Definition malloc (fuel fuel2 : nat) (nbytes : Z) : M ust Z :=
  let nunits := units nbytes in
  let! s := get in
  (if freep s =? 0 then
     set_ptr base base ;;;
     modify (with_freep base) ;;;
     set_size base 0
   else ret tt) ;;;
  let! s := get in
  let prevp := freep s in
  let! p := ptr prevp in
  search fuel fuel2 nunits prevp p.
End Alloc.

End Umalloc.
