(* ===== verification/UmallocFacts.v ===== *)
(** * The allocator of user programs: lemmas and properties

    The circular list as the list of its blocks by address; [free] as an
    insertion that merges neighbours, [malloc] as taking the end of the first
    block that is long enough, after asking for more when there is none. *)

From Stdlib Require Import Sorted.
From S2P Require Import Prelude Umalloc.
Import Umalloc.

Definition cell : Type := Z * Z.
Implicit Types (c d : cell) (cs L : list cell) (m : mem) (live : gmap Z Z).

(** ** Blocks *)

(** [c] ends before [d], with something between them. *)
Definition before c d : Prop := c.1 + 8 * c.2 < d.1.
Definition disj c d : Prop := c.1 + 8 * c.2 <= d.1 \/ d.1 + 8 * d.2 <= c.1.

(** Two blocks that touch become one. *)
Definition join c cs : list cell :=
  match cs with
  | d :: cs' => if c.1 + 8 * c.2 =? d.1 then (c.1, c.2 + d.2) :: cs' else c :: cs
  | [] => [c]
  end.

(** The reference for [free]: insertion by address, merging with both
    neighbours. *)
Fixpoint insert_block c cs : list cell :=
  match cs with
  | [] => [c]
  | d :: cs' => if c.1 <? d.1 then join c cs else join d (insert_block c cs')
  end.

(** Header words of the cells, the last one linked to [last]. *)
Definition first cs (last : Z) : Z := match cs with [] => last | c :: _ => c.1 end.
Fixpoint links m cs (last : Z) : Prop :=
  match cs with
  | [] => True
  | c :: cs' => ld32 m c.1 = first cs' last /\ ld32 m (c.1 + 4) = c.2 /\ links m cs' last
  end.

Lemma links_app m cs1 cs2 last : links m (cs1 ++ cs2) last <-> links m cs1 (first cs2 last) /\ links m cs2 last.
Proof.
  induction cs1 as [|c cs1 IH]; [cbn; tauto|]. cbn [app links]. rewrite IH.
  assert (E : first (cs1 ++ cs2) last = first cs1 (first cs2 last)) by (by destruct cs1). rewrite E. tauto.
Qed.

Lemma links_frame m m' cs last : links m cs last -> (forall c x, c ∈ cs -> c.1 <= x < c.1 + 8 -> m' x = m x) -> links m' cs last.
Proof.
  induction cs as [|c cs IH]; [done|]. intros (H1 & H2 & H3) Hm. cbn [links]. split_and!.
  - rewrite <- H1. apply ld32_ext. intros x Hx. apply (Hm c); [left|lia].
  - rewrite <- H2. apply ld32_ext. intros x Hx. apply (Hm c); [left|lia].
  - apply IH; [done|]. intros d x Hd. apply Hm. by right.
Qed.

(** ** Insertion *)

(** The bytes of a list of blocks. *)
Definition bytes_of cs (x : Z) : Prop := exists c, c ∈ cs /\ c.1 <= x < c.1 + 8 * c.2.

Lemma bytes_cons c cs x : bytes_of (c :: cs) x <-> c.1 <= x < c.1 + 8 * c.2 \/ bytes_of cs x.
Proof. unfold bytes_of. setoid_rewrite elem_of_cons. naive_solver. Qed.
Lemma bytes_of_app cs1 cs2 x : bytes_of (cs1 ++ cs2) x <-> bytes_of cs1 x \/ bytes_of cs2 x.
Proof. unfold bytes_of. setoid_rewrite elem_of_app. naive_solver. Qed.

Lemma join_bytes c cs x : 0 <= c.2 -> Forall (fun d => 0 <= d.2) cs -> bytes_of (join c cs) x <-> bytes_of (c :: cs) x.
Proof.
  intros Hc Hcs. destruct cs as [|d cs]; [done|]. apply Forall_cons in Hcs as [Hd _]. cbn [join].
  destruct (Z.eqb_spec (c.1 + 8 * c.2) d.1) as [E|]; [|done]. rewrite !bytes_cons. cbn. split; intros [?|?]; try tauto; [|left; lia|].
  - destruct (decide (x < c.1 + 8 * c.2)); [left; lia|right; left; lia].
  - destruct H as [?|?]; [left; lia|by right].
Qed.

Lemma join_pos c cs : 1 <= c.2 -> Forall (fun d => 1 <= d.2) cs -> Forall (fun d => 1 <= d.2) (join c cs).
Proof.
  intros Hc Hcs. destruct cs as [|d cs]; [by constructor|]. cbn [join]. case_match; [|by constructor].
  apply Forall_cons in Hcs as [? ?]. constructor; [cbn; lia|done].
Qed.
Lemma insert_pos c cs : 1 <= c.2 -> Forall (fun d => 1 <= d.2) cs -> Forall (fun d => 1 <= d.2) (insert_block c cs).
Proof.
  intros Hc. induction cs as [|d cs IH]; intros H; [by constructor|]. cbn [insert_block]. case_match; [by apply join_pos|].
  apply Forall_cons in H as [? ?]. apply join_pos; [done|by apply IH].
Qed.

Lemma insert_bytes c cs x : 1 <= c.2 -> Forall (fun d => 1 <= d.2) cs -> bytes_of (insert_block c cs) x <-> bytes_of (c :: cs) x.
Proof.
  intros Hc. induction cs as [|d cs IH]; intros H; [done|]. cbn [insert_block].
  assert (Hw : forall l, Forall (fun e : cell => 1 <= e.2) l -> Forall (fun e : cell => 0 <= e.2) l)
    by (intros l Hl; eapply Forall_impl; [exact Hl|cbn; lia]).
  case_match; [apply join_bytes; [lia|by apply Hw]|]. apply Forall_cons in H as [Hd H].
  rewrite join_bytes by (lia || (apply Hw; by apply insert_pos)). rewrite !bytes_cons, IH, bytes_cons by done. tauto.
Qed.

(** Addresses of the result are addresses of the blocks. *)
Lemma join_addr c cs e : e ∈ join c cs -> e.1 = c.1 \/ exists d, d ∈ cs /\ e.1 = d.1.
Proof.
  destruct cs as [|d cs]; cbn [join]; [intros ->%list_elem_of_singleton; by left|]. case_match; intros [->|He]%elem_of_cons; [by left| |by left|].
  - right. exists e. split; [by right|done].
  - right. by exists e.
Qed.
Lemma insert_addr c cs e : e ∈ insert_block c cs -> e.1 = c.1 \/ exists d, d ∈ cs /\ e.1 = d.1.
Proof.
  revert e. induction cs as [|d cs IH]; intros e; cbn [insert_block]; [intros ->%list_elem_of_singleton; by left|]. case_match; [apply join_addr|].
  intros [He|(f & Hf & He)]%join_addr; [right; exists d; split; [left|done]|]. rewrite He. destruct (IH f Hf) as [?|(g & ? & ?)]; [by left|].
  right. exists g. split; [by right|done].
Qed.

Lemma join_sorted c cs : StronglySorted before cs -> Forall (fun d => c.1 + 8 * c.2 <= d.1 /\ 1 <= d.2) cs -> StronglySorted before (join c cs).
Proof.
  intros Hs Hf. destruct cs as [|d cs]; [by repeat constructor|]. apply StronglySorted_inv in Hs as [Hs Hd].
  apply Forall_cons in Hf as [Hcd Hf]. cbn [join]. rewrite Forall_forall in Hd. destruct (Z.eqb_spec (c.1 + 8 * c.2) d.1) as [E|E]; constructor.
  - done.
  - apply Forall_forall. intros e He. specialize (Hd e He). unfold before in *. cbn. lia.
  - constructor; [done|by apply Forall_forall].
  - constructor; [unfold before; lia|]. apply Forall_forall. intros e He. specialize (Hd e He). unfold before in *. lia.
Qed.

Lemma insert_sorted_blocks c cs : 1 <= c.2 -> StronglySorted before cs -> Forall (fun d => 1 <= d.2 /\ disj c d) cs -> StronglySorted before (insert_block c cs).
Proof.
  intros Hc. induction cs as [|d cs IH]; intros Hs Hf; [by repeat constructor|]. cbn [insert_block]. apply Forall_cons in Hf as [[Hd Hdis] Hf].
  pose proof Hs as [Hs' Hdd]%StronglySorted_inv. rewrite Forall_forall in Hf, Hdd. destruct (Z.ltb_spec c.1 d.1) as [Hlt|Hge].
  - apply join_sorted; [done|]. unfold disj in Hdis. apply Forall_cons. split; [lia|]. apply Forall_forall. intros e He.
    specialize (Hf e He). specialize (Hdd e He). unfold before, disj in *. lia.
  - apply join_sorted; [apply IH; [done|by apply Forall_forall]|]. apply Forall_forall. intros e He.
    assert (H1 : 1 <= e.2) by (assert (Hp : Forall (fun d : cell => 1 <= d.2) (insert_block c cs)); [apply insert_pos; [done|]; apply Forall_forall; intros f Hf'; by apply Hf|]; rewrite Forall_forall in Hp; by apply Hp).
    split; [|done]. destruct (insert_addr c cs e He) as [E|(f & Hfin & E)]; rewrite E; [unfold disj in Hdis; lia|].
    specialize (Hdd f Hfin). unfold before in Hdd. lia.
Qed.

(** The insertion as the code does it: found place, right, left. *)
Lemma insert_split c l1 : forall p l2, StronglySorted before (l1 ++ p :: l2) ->
  Forall (fun d => d.1 < c.1) (l1 ++ [p]) -> Forall (fun d => c.1 < d.1) l2 ->
  insert_block c (l1 ++ p :: l2) = l1 ++ join p (join c l2).
Proof.
  induction l1 as [|d l1 IH]; intros p l2 Hs Hl Hr.
  - cbn [app insert_block] in *. apply Forall_cons in Hl as [Hp _]. rewrite (proj2 (Z.ltb_ge _ _)) by lia. f_equal.
    destruct l2 as [|e l2]; [done|]. apply Forall_cons in Hr as [He _]. cbn [insert_block]. by rewrite (proj2 (Z.ltb_lt _ _) He).
  - cbn [app insert_block] in *. apply Forall_cons in Hl as [Hd Hl]. apply StronglySorted_inv in Hs as [Hs Hf].
    rewrite (proj2 (Z.ltb_ge _ _)) by lia. rewrite (IH p l2 Hs Hl Hr). rewrite Forall_forall in Hf.
    assert (Hb : forall e l, l1 ++ join p (join c l2) = e :: l -> before d e).
    { intros e l. destruct l1 as [|f l1]; cbn [app].
      - intros E. assert (He : e.1 = p.1). { destruct (join c l2) as [|g k]; cbn [join] in E; [by injection E as <- _|]. case_match; by injection E as <- _. }
        unfold before. rewrite He. apply (Hf p). left.
      - intros [= <- _]. apply Hf. left. }
    destruct (l1 ++ join p (join c l2)) as [|e l] eqn:E; [done|]. cbn [join]. specialize (Hb e l eq_refl). unfold before in Hb.
    by rewrite (proj2 (Z.eqb_neq _ _)) by lia.
Qed.

(** Some block of the result is as long as the one inserted. *)
Lemma insert_fits c cs : Forall (fun d => 1 <= d.2) cs -> 1 <= c.2 -> exists e, e ∈ insert_block c cs /\ c.2 <= e.2.
Proof.
  intros Hp Hc. assert (J : forall d l, Forall (fun d : cell => 1 <= d.2) l -> 1 <= d.2 -> forall e, e ∈ d :: l -> exists f, f ∈ join d l /\ e.2 <= f.2).
  { intros d l Hl Hd e He. destruct l as [|g l]; cbn [join]; [exists e; split; [done|lia]|]. apply Forall_cons in Hl as [Hg _]. case_match.
    - apply elem_of_cons in He as [->|[->|He]%elem_of_cons]; [| |exists e; split; [by right|lia]];
        (eexists; split; [left|cbn; lia]).
    - exists e. split; [done|lia]. }
  induction cs as [|d cs IH]; cbn [insert_block]; [exists c; split; [left|lia]|]. case_match; [apply J; [done|done|left]|].
  apply Forall_cons in Hp as [Hd Hp]. destruct (IH Hp) as (e & He & Hce).
  destruct (J d (insert_block c cs) (insert_pos c cs Hc Hp) Hd e ltac:(by right)) as (f & Hf & Hef). exists f. split; [done|lia].
Qed.

(** Blocks that share no byte are apart. *)
Lemma disj_bytes c d : 1 <= c.2 -> 1 <= d.2 -> (forall x, c.1 <= x < c.1 + 8 * c.2 -> ~ d.1 <= x < d.1 + 8 * d.2) -> disj c d.
Proof. intros Hc Hd H. unfold disj. specialize (H (Z.max c.1 d.1)). lia. Qed.

Section Heap.
Context (base : Z).

Notation cells cs := (@cons cell (base, 0) cs).

(** The free blocks [cs] in order of address, and the blocks [live] in use: they
    have headers, nothing overlaps, and free blocks do not touch. *)
Record heap (s : ust) (cs : list cell) (live : gmap Z Z) : Prop := {
  hp_links : links (memory s) (cells cs) base;
  hp_freep : freep s ∈ (cells cs).*1;
  hp_sorted : StronglySorted before cs;
  hp_free : Forall (fun c => base + 8 <= c.1 /\ 1 <= c.2 /\ c.1 + 8 * c.2 <= brk s) cs;
  hp_live : forall a n, live !! a = Some n -> base + 8 <= a /\ 1 <= n /\ a + 8 * n <= brk s /\ ld32 (memory s) (a + 4) = n;
  hp_apart : forall a n c, live !! a = Some n -> c ∈ cs -> disj (a, n) c;
  hp_lives : forall a n b k, live !! a = Some n -> live !! b = Some k -> a <> b -> disj (a, n) (b, k);
  hp_base : 0 < base /\ base + 8 <= brk s <= KERNBASE }.

(** A byte of the heap is in a free block or in one in use. *)
Definition covered (cs : list cell) (live : gmap Z Z) (x : Z) : Prop :=
  (exists c, c ∈ cs /\ c.1 <= x < c.1 + 8 * c.2) \/ (exists a n, live !! a = Some n /\ a <= x < a + 8 * n).

(** The bytes of the blocks in use, headers included, are as they were. *)
Definition kept (live : gmap Z Z) (s s' : ust) : Prop :=
  forall a n x, live !! a = Some n -> a <= x < a + 8 * n -> memory s' x = memory s x.

Section Sorted.
Variables (s : ust) (cs : list cell) (live : gmap Z Z).
Hypothesis H : heap s cs live.

Lemma sorted_split l1 d l2 c : cs = l1 ++ d :: l2 -> c ∈ l1 -> before c d.
Proof using H.
  intros -> Hc. pose proof (hp_sorted _ _ _ H) as Hs. clear H. induction l1 as [|e l1 IH]; [by apply not_elem_of_nil in Hc|].
  cbn [app] in Hs. apply StronglySorted_inv in Hs as [Hs Hf]. apply elem_of_cons in Hc as [->|Hc]; [|by apply IH].
  rewrite Forall_forall in Hf. apply Hf. set_solver.
Qed.

Lemma block_ok c : c ∈ cs -> base + 8 <= c.1 /\ 1 <= c.2 /\ c.1 + 8 * c.2 <= brk s.
Proof using H. intros Hc. pose proof (hp_free _ _ _ H) as Hf. rewrite Forall_forall in Hf. by apply Hf. Qed.

(** Headers of different cells do not overlap, and addresses grow. *)
Lemma cells_split l1 d l2 c : cells cs = l1 ++ d :: l2 -> c ∈ l1 -> c.1 + 8 <= d.1 /\ c.1 + 8 * c.2 < d.1.
Proof using H.
  intros E Hc. destruct l1 as [|b l1]; [by apply not_elem_of_nil in Hc|]. cbn in E. injection E as <- E.
  assert (Hd : d ∈ cs) by (rewrite E; set_solver). pose proof (block_ok d Hd).
  apply elem_of_cons in Hc as [->|Hc]; [cbn; lia|].
  pose proof (sorted_split l1 d l2 c E Hc) as Hb. assert (Hcc : c ∈ cs) by (rewrite E; set_solver).
  pose proof (block_ok c Hcc). unfold before in *. lia.
Qed.

Lemma cells_range c : c ∈ cells cs -> 0 < c.1 /\ c.1 + 8 <= brk s /\ 0 <= c.2 /\ c.1 + 8 * c.2 <= brk s.
Proof using H.
  pose proof (hp_base _ _ _ H). intros [->|Hc]%elem_of_cons; [cbn; lia|]. pose proof (block_ok c Hc). lia.
Qed.

Lemma cells_base c : c ∈ cells cs -> base <= c.1.
Proof using H. intros [->|Hc]%elem_of_cons; [cbn; lia|]. pose proof (block_ok c Hc). lia. Qed.

Lemma hadd_cell c n : c ∈ cells cs -> 0 <= n <= c.2 -> hadd c.1 n = c.1 + 8 * n.
Proof using H.
  intros Hc Hn. pose proof (cells_range c Hc). pose proof (hp_base _ _ _ H). unfold hadd, HDR. apply u32_small. unfold KERNBASE in *. lia.
Qed.

(** ** Reading the list *)

Lemma read_ptr pre c post : cells cs = pre ++ c :: post -> ptr c.1 s = Ret (first post base) s.
Proof using H.
  intros E. pose proof (hp_links _ _ _ H) as Hl. rewrite E in Hl. apply links_app in Hl as [_ [Hp _]]. unfold ptr, gets. by rewrite Hp.
Qed.
Lemma read_size c : c ∈ cells cs -> size c.1 s = Ret c.2 s.
Proof using H.
  intros (pre & post & E)%list_elem_of_split. pose proof (hp_links _ _ _ H) as Hl. rewrite E in Hl. apply links_app in Hl as (_ & _ & Hp & _).
  unfold size, gets. by rewrite Hp.
Qed.

(** The walk to the cell [p] after which [bp] goes, from cells before it and
    from cells behind it. *)
Section Walk.
Variables (l1 l2 : list cell) (p : cell) (bp : Z).
Hypothesis E : cells cs = l1 ++ p :: l2.
Hypothesis Hp : p.1 < bp.
Hypothesis Hl2 : forall c, c ∈ l2 -> bp < c.1.

Lemma walk_here fuel : find_place (S fuel) bp p.1 s = Ret p.1 s.
Proof using All.
  cbn [find_place]. rewrite (bind_eq _ _ _ _ _ (read_ptr l1 p l2 E)). rewrite (proj2 (Z.gtb_lt bp p.1)) by lia. cbn [andb orb].
  destruct l2 as [|c l2']; cbn [first].
  - destruct (bp <? base); [done|].
    assert (Hb : base <= p.1).
    { apply cells_base. rewrite E. set_solver. }
    by rewrite (proj2 (Z.geb_le p.1 base)) by lia.
  - rewrite (proj2 (Z.ltb_lt bp c.1)); [done|]. apply Hl2. left.
Qed.

Lemma walk_forward k : forall pre mid fuel, l1 = pre ++ mid -> length mid = k -> (k < fuel)%nat ->
  find_place fuel bp (first (mid ++ [p]) base) s = Ret p.1 s.
Proof using All.
  induction k as [|k IH]; intros pre mid fuel E1 Hk Hf; (destruct fuel as [|fuel]; [lia|]).
  - destruct mid; [|done]. apply walk_here.
  - destruct mid as [|c mid]; [done|]. cbn [app first]. cbn [find_place].
    assert (Ec : cells cs = pre ++ c :: (mid ++ p :: l2)) by (rewrite E, E1, <- app_assoc; done).
    rewrite (bind_eq _ _ _ _ _ (read_ptr pre c _ Ec)).
    assert (Hq : c.1 < first (mid ++ p :: l2) base <= p.1).
    { assert (Hcp : c.1 < p.1) by (pose proof (cells_split l1 p l2 c E ltac:(rewrite E1; set_solver)); lia).
      destruct mid as [|d mid]; cbn [app first]; [lia|].
      pose proof (cells_split l1 p l2 d E ltac:(rewrite E1; set_solver)).
      pose proof (cells_split (pre ++ [c]) d (mid ++ p :: l2) c ltac:(rewrite Ec, <- app_assoc; done) ltac:(set_solver)). lia. }
    rewrite (proj2 (Z.gtb_lt bp c.1)) by lia. rewrite (proj2 (Z.ltb_ge bp _)) by lia. cbn [andb orb].
    assert (Eg : (c.1 >=? first (mid ++ p :: l2) base) = false) by (destruct (Z.geb_spec c.1 (first (mid ++ p :: l2) base)); [lia|done]).
    rewrite Eg. cbn [andb]. replace (first (mid ++ p :: l2) base) with (first (mid ++ [p]) base) by (by destruct mid).
    apply (IH (pre ++ [c]) mid); [by rewrite <- app_assoc|by injection Hk|lia].
Qed.

Lemma walk_base fuel : (length l1 < fuel)%nat -> find_place fuel bp base s = Ret p.1 s.
Proof using All.
  intros Hf. pose proof (walk_forward (length l1) [] l1 fuel eq_refl eq_refl Hf) as W.
  assert (Eb : first (l1 ++ [p]) base = base). { destruct l1 as [|c l1']; cbn in E |- *; by inversion E. }
  by rewrite Eb in W.
Qed.

Lemma walk_behind k : forall pre mid fuel, l2 = pre ++ mid -> length mid = k -> (k + length l1 < fuel)%nat ->
  find_place fuel bp (first mid base) s = Ret p.1 s.
Proof using All.
  induction k as [|k IH]; intros pre mid fuel E2 Hk Hf.
  - destruct mid; [|done]. apply walk_base. lia.
  - destruct mid as [|c mid]; [done|]. destruct fuel as [|fuel]; [lia|]. cbn [first find_place].
    assert (Ec : cells cs = (l1 ++ p :: pre) ++ c :: mid) by (rewrite E, E2, <- app_assoc; done).
    rewrite (bind_eq _ _ _ _ _ (read_ptr _ c _ Ec)).
    assert (Hc : bp < c.1) by (apply Hl2; rewrite E2; set_solver).
    assert (Eg : (bp >? c.1) = false) by (rewrite Z.gtb_ltb; apply Z.ltb_ge; lia). rewrite Eg. cbn [andb orb].
    assert (Eq : (c.1 >=? first mid base) && (bp <? first mid base) = false).
    { destruct mid as [|d mid]; cbn [first].
      - rewrite (proj2 (Z.ltb_ge bp base)); [apply andb_false_r|].
        assert (Hpb : base <= p.1); [|lia].
        apply cells_base. rewrite E. set_solver.
      - pose proof (cells_split ((l1 ++ p :: pre) ++ [c]) d mid c ltac:(rewrite Ec, <- (app_assoc _ [c]); done) ltac:(set_solver)).
        destruct (Z.geb_spec c.1 d.1); [lia|done]. }
    rewrite Eq. apply (IH (pre ++ [c]) mid); [by rewrite <- app_assoc, E2|by injection Hk|lia].
Qed.

(** From [freep], wherever it is. *)
Lemma find_place_ok fuel : (length cs < fuel)%nat -> find_place fuel bp (freep s) s = Ret p.1 s.
Proof using All.
  intros Hf. assert (Hlen : S (length cs) = (length l1 + S (length l2))%nat) by (change (S (length cs)) with (length (cells cs)); rewrite E, length_app; done).
  pose proof (hp_freep _ _ _ H) as (c & Ec & Hc)%list_elem_of_fmap. rewrite E in Hc. rewrite Ec.
  apply elem_of_app in Hc as [Hc|Hc]; [|apply elem_of_cons in Hc as [->|Hc]].
  - apply list_elem_of_split in Hc as (pre & post & E1).
    pose proof (walk_forward (S (length post)) pre (c :: post) fuel E1 eq_refl) as W. cbn [app first] in W. apply W.
    rewrite E1, length_app in Hlen. cbn in Hlen. lia.
  - destruct fuel; [lia|]. apply walk_here.
  - apply list_elem_of_split in Hc as (pre & post & E2).
    pose proof (walk_behind (S (length post)) pre (c :: post) fuel E2 eq_refl) as W. cbn [first] in W. apply W.
    rewrite E2, length_app in Hlen. cbn in Hlen. lia.
Qed.
End Walk.
End Sorted.

(** ** Writing headers *)

Definition frame_out (a b : Z) m m' : Prop := forall x, x < a \/ b <= x -> m' x = m x.

Lemma links_put m m' l1 c l2 v : links m (l1 ++ c :: l2) base ->
  (forall d x, d ∈ l1 ++ l2 -> d.1 <= x < d.1 + 8 -> m' x = m x) ->
  forall l2', links m l2' base -> (forall d x, d ∈ l2' -> d.1 <= x < d.1 + 8 -> m' x = m x) ->
  ld32 m' c.1 = first l2' base -> ld32 m' (c.1 + 4) = v ->
  links m' (l1 ++ (c.1, v) :: l2') base.
Proof.
  intros Hl Hf l2' Hl2 Hf2 H1 H2. apply links_app in Hl as [Hl _]. apply links_app. split.
  - apply (links_frame m); [exact Hl|]. intros d x Hd. apply Hf. set_solver.
  - cbn [links]. split; [done|]. split; [done|]. by apply (links_frame m).
Qed.

Lemma ld_st_size m a v w : 0 <= v < 4294967296 -> 0 <= w < 4294967296 ->
  let m' := st32 (st32 m (a + 4) v) a w in ld32 m' a = w /\ ld32 m' (a + 4) = v /\ frame_out a (a + 8) m m'.
Proof.
  intros Hv Hw m'. unfold m'. split; [by apply ld32_st32|]. split.
  - rewrite (ld32_ext (st32 m (a + 4) v)); [by apply ld32_st32|]. intros x Hx. apply st32_other. lia.
  - intros x Hx. rewrite !st32_other by lia. done.
Qed.

Lemma ld_st_ptr m a w : 0 <= w < 4294967296 ->
  let m' := st32 m a w in ld32 m' a = w /\ ld32 m' (a + 4) = ld32 m (a + 4) /\ frame_out a (a + 8) m m'.
Proof.
  intros Hw m'. unfold m'. split; [by apply ld32_st32|]. split.
  - apply ld32_ext. intros x Hx. apply st32_other. lia.
  - intros x Hx. apply st32_other. lia.
Qed.

(** ** [free] *)

Section Free.
Variables (s : ust) (cs : list cell) (live : gmap Z Z) (a n : Z).
Hypothesis H : heap s cs live.
Hypothesis Ha : live !! a = Some n.

Lemma used_range : base + 8 <= a /\ 1 <= n /\ a + 8 * n <= brk s /\ brk s <= 2147483648 /\ 0 < base.
Proof using H Ha. pose proof (hp_live _ _ _ H a n Ha). pose proof (hp_base _ _ _ H). unfold KERNBASE in *. lia. Qed.

Lemma used_disj c : c ∈ cs -> disj (a, n) c /\ 1 <= c.2.
Proof using H Ha. intros Hc. split; [by apply (hp_apart _ _ _ H a n)|]. pose proof (block_ok s cs live H c Hc). lia. Qed.

(** The place exists. *)
Lemma place_split : exists (l1 : list cell) (p : cell) (l2 : list cell), cells cs = l1 ++ p :: l2 /\ Forall (fun d : cell => d.1 < a) (l1 ++ [p]) /\ Forall (fun d : cell => a < d.1) l2.
Proof using H Ha.
  pose proof used_range as Hr. pose proof (hp_sorted _ _ _ H) as Hs.
  assert (Hd : forall c, c ∈ cs -> disj (a, n) c /\ 1 <= c.2) by apply used_disj.
  assert (G : forall l c0, c0.1 < a -> StronglySorted before l -> (forall c, c ∈ l -> disj (a, n) c /\ 1 <= c.2) ->
    exists l1 p l2, c0 :: l = l1 ++ p :: l2 /\ Forall (fun d : cell => d.1 < a) (l1 ++ [p]) /\ Forall (fun d : cell => a < d.1) l2).
  { clear - Hr. induction l as [|d l IH]; intros c0 Hc0 Hs Hd; [exists [], c0, []; by repeat constructor|].
    apply StronglySorted_inv in Hs as [Hs Hf]. destruct (decide (d.1 < a)) as [Hlt|Hge].
    - destruct (IH d Hlt Hs) as (l1 & p & l2 & E & H1 & H2); [intros c Hc; apply Hd; by right|].
      exists (c0 :: l1), p, l2. rewrite E. split; [done|]. split; [by constructor|done].
    - exists [], c0, (d :: l). split; [done|]. split; [by repeat constructor|].
      destruct (Hd d ltac:(left)) as [Hdd Hd1]. unfold disj in Hdd. cbn in Hdd. constructor; [lia|].
      apply Forall_forall. intros e He. rewrite Forall_forall in Hf. specialize (Hf e He). unfold before in Hf. lia. }
  apply (G cs (base, 0)); [cbn; lia|done|done].
Qed.

Lemma cells_sorted : StronglySorted before (cells cs).
Proof using H.
  constructor; [apply H|]. apply Forall_forall. intros c Hc. pose proof (block_ok s cs live H c Hc). unfold before. cbn. lia.
Qed.

Lemma insert_cells (l1 : list cell) (p : cell) (l2 : list cell) : cells cs = l1 ++ p :: l2 -> Forall (fun d : cell => d.1 < a) (l1 ++ [p]) -> Forall (fun d : cell => a < d.1) l2 ->
  cells (insert_block (a, n) cs) = l1 ++ join p (join (a, n) l2).
Proof using H Ha.
  intros E H1 H2. etransitivity; [|apply (insert_split (a, n) l1 p l2); [rewrite <- E; apply cells_sorted|done|done]]. rewrite <- E.
  cbn [insert_block]. pose proof used_range. rewrite (proj2 (Z.ltb_ge _ _)) by (cbn; lia).
  destruct (insert_block (a, n) cs) as [|e l] eqn:Ei; [done|]. cbn [join].
  assert (He : e ∈ insert_block (a, n) cs) by (rewrite Ei; left).
  assert (Hb : base + 8 <= e.1).
  { destruct (insert_addr _ _ _ He) as [->|(d & Hd & ->)]; [cbn; lia|]. pose proof (block_ok s cs live H d Hd). lia. }
  by rewrite (proj2 (Z.eqb_neq _ _)) by (cbn; lia).
Qed.

(** The heap with the block put back. *)
Lemma heap_insert s' : links (memory s') (cells (insert_block (a, n) cs)) base -> freep s' ∈ (cells (insert_block (a, n) cs)).*1 ->
  brk s' = brk s -> kept (delete a live) s s' -> heap s' (insert_block (a, n) cs) (delete a live).
Proof using H Ha.
  intros Hl Hf Hb Hk. pose proof used_range as Hr. pose proof (hp_free _ _ _ H) as Hfree.
  assert (Hpos : Forall (fun d : cell => 1 <= d.2) cs) by (eapply Forall_impl; [exact Hfree|cbn; lia]).
  assert (Hn : 1 <= (a, n).2) by (cbn; lia).
  assert (Hby : forall c, c ∈ insert_block (a, n) cs -> 1 <= c.2 /\ forall x, c.1 <= x < c.1 + 8 * c.2 -> a <= x < a + 8 * n \/ bytes_of cs x).
  { intros c Hc. split.
    - pose proof (insert_pos (a, n) cs Hn Hpos) as Hp. rewrite Forall_forall in Hp. by apply Hp.
    - intros x Hx. apply (bytes_cons (a, n) cs x). apply (insert_bytes (a, n) cs x Hn Hpos). by exists c. }
  split.
  - done.
  - done.
  - apply insert_sorted_blocks; [done|apply H|]. apply Forall_forall. intros c Hc. destruct (used_disj c Hc). done.
  - apply Forall_forall. intros c Hc. destruct (Hby c Hc) as [H1 H2]. rewrite Forall_forall in Hfree.
    assert (Hin : forall x, c.1 <= x < c.1 + 8 * c.2 -> base + 8 <= x < brk s).
    { intros x Hx. destruct (H2 x Hx) as [?|(d & Hd & ?)]; [lia|]. specialize (Hfree d Hd). lia. }
    pose proof (Hin c.1 ltac:(lia)). pose proof (Hin (c.1 + 8 * c.2 - 1) ltac:(lia)). lia.
  - intros b k Hbk. apply lookup_delete_Some in Hbk as [Hne Hbk]. destruct (hp_live _ _ _ H b k Hbk) as (? & ? & ? & E).
    split_and!; [lia..|]. rewrite <- E. apply ld32_ext. intros x Hx. apply (Hk b k); [by rewrite lookup_delete_ne|lia].
  - intros b k c Hbk Hc. apply lookup_delete_Some in Hbk as [Hne Hbk]. destruct (Hby c Hc) as [H1 H2].
    pose proof (hp_live _ _ _ H b k Hbk). apply disj_bytes; [cbn; lia|done|]. cbn. intros x Hx Hx2.
    destruct (H2 x Hx2) as [Hax|(d & Hd & Hdx)].
    + pose proof (hp_lives _ _ _ H b k a n Hbk Ha ltac:(done)) as Hdj. unfold disj in Hdj. cbn in Hdj. lia.
    + pose proof (hp_apart _ _ _ H b k d Hbk Hd) as Hdj. unfold disj in Hdj. cbn in Hdj. lia.
  - intros b k b' k' [Hb1 Hb2]%lookup_delete_Some [Hc1 Hc2]%lookup_delete_Some. by apply (hp_lives _ _ _ H).
  - rewrite Hb. apply H.
Qed.

Lemma first_word l1 (l2 : list cell) : cells cs = l1 ++ l2 -> 0 <= first l2 base < 4294967296.
Proof using H Ha.
  intros E. pose proof used_range. destruct l2 as [|d l2]; cbn [first]; [lia|].
  pose proof (cells_range s cs live H d ltac:(rewrite E; set_solver)). lia.
Qed.

Section Run.
Variables (l1 : list cell) (p : cell) (l2 : list cell).
Hypothesis E : cells cs = l1 ++ p :: l2.
Hypothesis H1 : Forall (fun d : cell => d.1 < a) (l1 ++ [p]).
Hypothesis H2 : Forall (fun d : cell => a < d.1) l2.

Lemma right_far d : d ∈ l2 -> a + 8 * n <= d.1 /\ a + 8 <= d.1.
Proof using All.
  intros Hd. rewrite Forall_forall in H2. specialize (H2 d Hd). pose proof used_range.
  assert (Hdc : d ∈ cs).
  { assert (Hin : d ∈ cells cs) by (rewrite E; set_solver). apply elem_of_cons in Hin as [->|Hin]; [cbn in H2; lia|done]. }
  destruct (used_disj d Hdc) as [Hdj Hp]. unfold disj in Hdj. cbn in Hdj. lia.
Qed.

Lemma left_far d : d ∈ l1 ++ [p] -> d.1 + 8 <= a /\ d.1 + 8 * d.2 <= a.
Proof using All.
  intros Hd. rewrite Forall_forall in H1. specialize (H1 d Hd). pose proof used_range.
  assert (Hin : d ∈ cells cs) by (rewrite E; set_solver). apply elem_of_cons in Hin as [->|Hin]; [cbn in *; lia|].
  destruct (used_disj d Hin) as [Hdj Hp]. unfold disj in Hdj. cbn in Hdj. lia.
Qed.

Lemma right_links : links (memory s) l2 base.
Proof using H E. pose proof (hp_links _ _ _ H) as Hl. rewrite E in Hl. by apply links_app in Hl as [_ [_ [_ ?]]]. Qed.

(** Merging with what follows. *)
Lemma free_right : exists sA n' l2',
  (let! q := ptr p.1 in
   if hadd a n =? q then
     let! t := size q in set_size a (u32 (n + t)) ;;; let! r := ptr q in set_ptr a r
   else set_ptr a q) s = Ret tt sA /\
  join (a, n) l2 = (a, n') :: l2' /\ links (memory s) l2' base /\ (forall d, d ∈ l2' -> d ∈ l2) /\ 0 <= n' < 4294967296 /\
  ld32 (memory sA) a = first l2' base /\ ld32 (memory sA) (a + 4) = n' /\ frame_out a (a + 8) (memory s) (memory sA) /\
  freep sA = freep s /\ brk sA = brk s.
Proof using All.
  pose proof used_range as Hr. pose proof right_links as Hl. pose proof (read_ptr s cs live H l1 p l2 E) as Rp.
  rewrite (bind_eq _ _ _ _ _ Rp). assert (Eh : hadd a n = a + 8 * n) by (unfold hadd, HDR; apply u32_small; lia). rewrite Eh.
  pose proof (hp_live _ _ _ H a n Ha) as (_ & _ & _ & En).
  assert (C : l2 = [] \/ exists d l2', l2 = d :: l2') by (clear; destruct l2 as [|d l2']; [by left|right; by exists d, l2']).
  destruct C as [El|(d & l2' & El)]; rewrite El in Hl |- *; cbn [first join fst snd].
  - rewrite (proj2 (Z.eqb_neq _ _)) by lia. destruct (ld_st_ptr (memory s) a base ltac:(lia)) as (A1 & A2 & A3).
    eexists _, n, []. split; [reflexivity|]. split_and!; try done; try lia. cbn [memory with_memory]. by rewrite A2.
  - destruct (right_far d ltac:(rewrite El; left)) as [Hf1 Hf2]. pose proof Hl as (L1 & L2 & L3).
    pose proof (cells_range s cs live H d ltac:(rewrite E, El; set_solver)) as Hdr.
    pose proof (first_word (l1 ++ [p; d]) l2' ltac:(rewrite E, El, <- app_assoc; done)) as Hw.
    destruct (Z.eqb_spec (a + 8 * n) d.1) as [Ed|Ed].
    + rewrite (bind_eq _ _ _ _ _ (read_size s cs live H d ltac:(rewrite E, El; set_solver))).
      rewrite (u32_small (n + d.2)) by lia.
      erewrite (bind_eq (set_size _ _)) by reflexivity.
      set (s1 := with_memory _ s).
      assert (Rq : ptr d.1 s1 = Ret (first l2' base) s1).
      { unfold ptr, gets. do 2 f_equal. unfold s1. cbn [memory with_memory]. rewrite <- L1. apply ld32_ext. intros x Hx. apply st32_other. lia. }
      rewrite (bind_eq _ _ _ _ _ Rq). destruct (ld_st_size (memory s) a (n + d.2) (first l2' base) ltac:(lia) Hw) as (A1 & A2 & A3).
      eexists _, (n + d.2), l2'. split; [reflexivity|]. split_and!; try done; try lia. intros e He. by right.
    + destruct (ld_st_ptr (memory s) a d.1 ltac:(lia)) as (A1 & A2 & A3).
      eexists _, n, (d :: l2'). split; [reflexivity|]. split_and!; try done; try lia. cbn [memory with_memory]. by rewrite A2.
Qed.

(** Merging with what precedes. *)
Lemma free_left sA n' l2' : links (memory s) l2' base -> (forall d, d ∈ l2' -> d ∈ l2) -> 0 <= n' -> p.2 + n' < 4294967296 ->
  ld32 (memory sA) a = first l2' base -> ld32 (memory sA) (a + 4) = n' -> frame_out a (a + 8) (memory s) (memory sA) ->
  0 <= first l2' base < 4294967296 ->
  exists sB,
    (let! k := size p.1 in
     if hadd p.1 k =? a then
       let! t := size a in set_size p.1 (u32 (k + t)) ;;; let! r := ptr a in set_ptr p.1 r
     else set_ptr p.1 a) sA = Ret tt sB /\
    links (memory sB) (l1 ++ join p ((a, n') :: l2')) base /\
    frame_out p.1 (p.1 + 8) (memory sA) (memory sB) /\ freep sB = freep sA /\ brk sB = brk sA.
Proof using All.
  intros Hl2' Hin Hn0 Hn1 A1 A2 A3 Hw. pose proof used_range as Hr.
  destruct (left_far p ltac:(set_solver)) as [P1 P2]. assert (Hpc : p ∈ cells cs) by (rewrite E; set_solver).
  pose proof (cells_range s cs live H p Hpc) as Pr.
  pose proof (hp_links _ _ _ H) as Hl. rewrite E in Hl. apply links_app in Hl as (Ll1 & Lp & Lps & _).
  assert (Es : ld32 (memory sA) (p.1 + 4) = p.2).
  { rewrite <- Lps. apply ld32_ext. intros x Hx. apply A3. lia. }
  assert (Rs : size p.1 sA = Ret p.2 sA) by (unfold size, gets; by rewrite Es). rewrite (bind_eq _ _ _ _ _ Rs).
  rewrite (hadd_cell s cs live H p p.2 Hpc) by lia.
  (* the cells before and behind keep their headers *)
  assert (K1 : forall mB, frame_out p.1 (p.1 + 8) (memory sA) mB -> links mB l1 p.1).
  { intros mB FB. apply (links_frame (memory s)); [exact Ll1|]. intros d x Hd Hx.
    pose proof (cells_split s cs live H l1 p l2 d E Hd). rewrite FB by lia. apply A3.
    destruct (left_far d ltac:(set_solver)). lia. }
  assert (K2 : forall mB, frame_out p.1 (p.1 + 8) (memory sA) mB -> links mB l2' base).
  { intros mB FB. apply (links_frame (memory s)); [exact Hl2'|]. intros d x Hd Hx.
    destruct (right_far d (Hin d Hd)). rewrite FB by lia. apply A3. lia. }
  cbn [join]. change ((a, n').1) with a. change ((a, n').2) with n'. destruct (Z.eqb_spec (p.1 + 8 * p.2) a) as [Ep|Ep].
  - assert (Rt : size a sA = Ret n' sA) by (unfold size, gets; by rewrite A2). rewrite (bind_eq _ _ _ _ _ Rt).
    rewrite (u32_small (p.2 + n')) by lia. erewrite (bind_eq (set_size _ _)) by reflexivity. set (s1 := with_memory _ sA).
    assert (Rq : ptr a s1 = Ret (first l2' base) s1).
    { unfold ptr, gets. do 2 f_equal. unfold s1. cbn [memory with_memory]. rewrite <- A1. apply ld32_ext. intros x Hx. apply st32_other. lia. }
    rewrite (bind_eq _ _ _ _ _ Rq). destruct (ld_st_size (memory sA) p.1 (p.2 + n') (first l2' base) ltac:(lia) Hw) as (B1 & B2 & B3).
    eexists. split; [reflexivity|]. split_and!; try done. apply links_app. split; [by apply K1|]. cbn [links]. split; [done|]. split; [done|by apply K2].
  - destruct (ld_st_ptr (memory sA) p.1 a ltac:(lia)) as (B1 & B2 & B3).
    eexists. split; [reflexivity|]. split_and!; try done. apply links_app. split; [by apply K1|]. cbn [links].
    split; [done|]. split; [cbn [memory with_memory]; by rewrite B2|].
    cbn [memory with_memory]. split; [|split; [|by apply K2]].
    + rewrite <- A1. apply ld32_ext. intros x Hx. apply B3. cbn in Hx. lia.
    + cbn. rewrite <- A2. apply ld32_ext. intros x Hx. apply B3. cbn in Hx. lia.
Qed.
End Run.

Lemma free_ok fuel : (length cs < fuel)%nat ->
  exists s', free fuel (a + 8) s = Ret tt s' /\ heap s' (insert_block (a, n) cs) (delete a live) /\ brk s' = brk s /\
    kept (delete a live) s s' /\ (exists l1 p l2, cells (insert_block (a, n) cs) = l1 ++ p :: l2 /\ p.1 = freep s').
Proof using H Ha.
  intros Hf. destruct place_split as (l1 & p & l2 & E & H1 & H2). pose proof used_range as Hr.
  assert (Hpc : p ∈ cells cs) by (rewrite E; set_solver). pose proof (cells_range s cs live H p Hpc) as Pr.
  assert (Hpa : p.1 < a) by (rewrite Forall_forall in H1; apply H1; set_solver).
  assert (Hpl : forall c, c ∈ l2 -> a < c.1) by (by rewrite Forall_forall in H2).
  destruct (free_right l1 p l2 E H1 H2) as (sA & n' & l2' & RA & Ej & Ll2 & Hin & Hn' & A1 & A2 & A3 & A4 & A5).
  pose proof (insert_cells l1 p l2 E H1 H2) as Ei. rewrite Ej in Ei.
  assert (Hn'b : a + 8 * n' <= brk s).
  { assert (Hb : bytes_of (join (a, n) l2) (a + 8 * n' - 1)).
    { rewrite Ej. exists (a, n'). split; [left|]. cbn. destruct (decide (1 <= n')); [lia|]. exfalso.
      assert (Hp : Forall (fun d : cell => 1 <= d.2) (join (a, n) l2)).
      { apply join_pos; [cbn; lia|]. apply Forall_forall. intros d Hd. assert (Hdc : d ∈ cells cs) by (rewrite E; set_solver).
        apply elem_of_cons in Hdc as [->|Hdc]; [specialize (Hpl _ Hd); cbn in Hpl; lia|]. by apply used_disj. }
      rewrite Ej in Hp. apply Forall_cons in Hp as [Hp _]. cbn in Hp. lia. }
    apply join_bytes in Hb; [|cbn; lia|].
    - apply bytes_cons in Hb as [Hb|(d & Hd & Hb)]; [cbn in Hb; lia|]. pose proof (cells_range s cs live H d ltac:(rewrite E; set_solver)). lia.
    - apply Forall_forall. intros d Hd. pose proof (cells_range s cs live H d ltac:(rewrite E; set_solver)). lia. }
  assert (Hw : 0 <= first l2' base < 4294967296).
  { destruct l2' as [|d l2']; cbn [first]; [lia|]. pose proof (cells_range s cs live H d ltac:(rewrite E; specialize (Hin d); set_solver)). lia. }
  destruct (free_left l1 p l2 E H1 H2 sA n' l2' Ll2 Hin ltac:(lia) ltac:(lia) A1 A2 A3 Hw) as (sB & RB & LB & B3 & B4 & B5).
  exists (with_freep p.1 sB). split.
  { unfold free. assert (Eh : hadd (a + 8) (-1) = a) by (unfold hadd, HDR; rewrite u32_small by lia; lia). rewrite Eh.
    erewrite (bind_eq get) by reflexivity.
    rewrite (bind_eq _ _ _ _ _ (find_place_ok s cs live H l1 l2 p a E Hpa Hpl fuel Hf)).
    assert (Rn : size a s = Ret n s) by (unfold size, gets; by rewrite (proj2 (proj2 (proj2 (hp_live _ _ _ H a n Ha))))).
    rewrite (bind_eq _ _ _ _ _ Rn). pose proof (read_ptr s cs live H l1 p l2 E) as Rp.
    rewrite (bind_eq _ _ _ _ _ Rp) in RA. rewrite (bind_eq _ _ _ _ _ Rp), (bind_eq _ _ _ _ _ RA).
    erewrite (bind_eq (size p.1)) in RB by reflexivity. erewrite (bind_eq (size p.1)) by reflexivity. by rewrite (bind_eq _ _ _ _ _ RB). }
  assert (Hfp : exists v r, l1 ++ join p ((a, n') :: l2') = l1 ++ (p.1, v) :: r).
  { cbn [join]. case_match; [by eexists _, _|]. exists p.2, ((a, n') :: l2'). by destruct p. }
  destruct Hfp as (v & r & Efp). rewrite <- Ei in Efp.
  assert (K : kept (delete a live) s (with_freep p.1 sB)).
  { intros b k x [Hne Hb]%lookup_delete_Some Hx. cbn [memory with_freep]. pose proof (hp_lives _ _ _ H b k a n Hb Ha ltac:(done)) as Hd.
    pose proof (hp_live _ _ _ H b k Hb). unfold disj in Hd. cbn in Hd. rewrite B3; [apply A3; lia|].
    apply elem_of_cons in Hpc as [->|Hpc]; [cbn; lia|]. pose proof (hp_apart _ _ _ H b k p Hb Hpc) as Hd2. destruct (used_disj p Hpc).
    unfold disj in Hd2. cbn in Hd2. lia. }
  split; [|split; [cbn; lia|split; [done|by exists l1, (p.1, v), r]]].
  apply heap_insert; [|rewrite Efp|cbn; lia|done].
  - rewrite Ei. exact LB.
  - rewrite fmap_app. apply elem_of_app. right. left.
Qed.
End Free.

(** ** Taking a block *)

(** The block that is taken, [n] units from the end of [c]. *)
Definition left_over c (n : Z) : list cell := if c.2 =? n then [] else [(c.1, c.2 - n)].
Definition took (n : Z) cs (a : Z) cs' : Prop :=
  exists pre c post, cs = pre ++ c :: post /\ n <= c.2 /\ a = c.1 + 8 * (c.2 - n) /\ cs' = pre ++ left_over c n ++ post.

(** What [malloc] does to the block it found. *)
Definition take_block (n prevp p k : Z) : M ust Z :=
  let! p :=
    (if k =? n then let! q := ptr p in set_ptr prevp q ;;; ret p
     else
       set_size p (u32 (k - n)) ;;;
       let r := hadd p (u32 (k - n)) in
       set_size r n ;;;
       ret r) in
  modify (with_freep prevp) ;;;
  ret (hadd p 1).

Lemma left_over_in c n e : n <= c.2 -> 1 <= n -> e ∈ left_over c n -> e.1 = c.1 /\ 1 <= e.2 /\ e.1 + 8 * e.2 = c.1 + 8 * (c.2 - n).
Proof. unfold left_over. destruct (Z.eqb_spec c.2 n); intros ? ?; [by intros ?%not_elem_of_nil|]. intros ->%list_elem_of_singleton. cbn. lia. Qed.

Section Take.
Variables (s : ust) (cs : list cell) (live : gmap Z Z) (n : Z).
Hypothesis H : heap s cs live.
Hypothesis Hn : 1 <= n.

Section Carve.
Variables (pre : list cell) (c : cell) (post : list cell).
Hypothesis E : cs = pre ++ c :: post.
Hypothesis Hc : n <= c.2.

Let a := c.1 + 8 * (c.2 - n).
Let cs' := pre ++ left_over c n ++ post.

Lemma carve_range : base + 8 <= c.1 /\ c.1 + 8 * c.2 <= brk s /\ brk s <= 2147483648 /\ 0 < base.
Proof using H E Hc Hn. pose proof (block_ok s cs live H c ltac:(rewrite E; set_solver)). pose proof (hp_base _ _ _ H). unfold KERNBASE in *. lia. Qed.

(** Every block that is left is a block of before, or the start of [c]. *)
Lemma carve_in e : e ∈ cs' -> (e ∈ pre \/ e ∈ post) /\ e ∈ cs \/ e.1 = c.1 /\ 1 <= e.2 /\ e.1 + 8 * e.2 = a.
Proof using E Hc Hn.
  clear H. unfold cs'. rewrite !elem_of_app. intros [He|[He|He]].
  - left. split; [by left|]. rewrite E. set_solver.
  - right. by apply (left_over_in c n).
  - left. split; [by right|]. rewrite E. set_solver.
Qed.

Lemma carve_others e : e ∈ pre \/ e ∈ post -> disj e c.
Proof using H E Hc Hn.
  intros [He|He]; unfold disj.
  - pose proof (sorted_split s cs live H pre c post e E He) as Hb. unfold before in Hb. lia.
  - apply list_elem_of_split in He as (l1 & l2 & ->). pose proof (sorted_split s cs live H (pre ++ c :: l1) e l2 c ltac:(rewrite E, <- app_assoc; done) ltac:(set_solver)) as Hb.
    unfold before in Hb. lia.
Qed.

Lemma carve_fresh : live !! a = None.
Proof using H E Hc Hn.
  destruct (live !! a) as [k|] eqn:Ea; [|done]. pose proof (hp_apart _ _ _ H a k c Ea ltac:(rewrite E; set_solver)) as Hd.
  pose proof (hp_live _ _ _ H a k Ea). unfold disj, a in *. cbn in Hd. lia.
Qed.

Lemma carve_sorted : StronglySorted before cs'.
Proof using H E Hc Hn.
  pose proof (hp_sorted _ _ _ H) as Hs. pose proof carve_range as Hr. rewrite E in Hs. unfold cs'. clear E H. revert Hs.
  induction pre as [|d l IH]; cbn [app]; intros [Hs Hf]%StronglySorted_inv.
  - unfold left_over. destruct (Z.eqb_spec c.2 n); cbn [app]; [done|]. constructor; [done|].
    eapply Forall_impl; [exact Hf|]. intros e He. unfold before in *. cbn. lia.
  - constructor; [by apply IH|]. rewrite Forall_forall in Hf. apply Forall_forall. intros e He.
    rewrite !elem_of_app in He. destruct He as [He|[He|He]]; [apply Hf; set_solver| |apply Hf; set_solver].
    apply left_over_in in He as (E1 & _); [|done..]. specialize (Hf c ltac:(set_solver)). unfold before in *. lia.
Qed.

Lemma heap_carve s' : links (memory s') (cells cs') base -> freep s' ∈ (cells cs').*1 -> brk s' = brk s ->
  ld32 (memory s') (a + 4) = n -> kept live s s' -> heap s' cs' (<[a := n]> live).
Proof using H E Hc Hn.
  intros Hl Hf Hb Ha Hk. pose proof carve_range as Hr. pose proof carve_fresh as Hfr.
  assert (Hcc : c ∈ cs) by (rewrite E; set_solver).
  split; [done|done|apply carve_sorted| | | | |rewrite Hb; apply H].
  - apply Forall_forall. intros e He. destruct (carve_in e He) as [[_ Hin]|(E1 & E2 & E3)].
    + pose proof (block_ok s cs live H e Hin). lia.
    + unfold a in E3. lia.
  - intros b k Hbk. apply lookup_insert_Some in Hbk as [[<- <-]|[Hne Hbk]]; [unfold a in *; lia|].
    destruct (hp_live _ _ _ H b k Hbk) as (? & ? & ? & E1). split_and!; [lia..|]. rewrite <- E1. apply ld32_ext. intros x Hx. apply (Hk b k); [done|lia].
  - intros b k e Hbk He. apply lookup_insert_Some in Hbk as [[<- <-]|[Hne Hbk]].
    + unfold disj. cbn. destruct (carve_in e He) as [[Hin _]|(E1 & E2 & E3)]; [|lia].
      pose proof (carve_others e Hin) as Hd. unfold disj, a in *. lia.
    + destruct (carve_in e He) as [[_ Hin]|(E1 & E2 & E3)]; [by apply (hp_apart _ _ _ H)|].
      pose proof (hp_apart _ _ _ H b k c Hbk Hcc) as Hd. unfold disj, a in *. cbn in *. lia.
  - assert (Hnew : forall b k, live !! b = Some k -> disj (b, k) (a, n)).
    { intros b k Hbk. pose proof (hp_apart _ _ _ H b k c Hbk Hcc) as Hd. unfold disj, a in *. cbn in *. lia. }
    intros b k b' k' [[<- <-]|[Hb1 Hb2]]%lookup_insert_Some [[<- <-]|[Hc1 Hc2]]%lookup_insert_Some Hne; [done| | |by apply (hp_lives _ _ _ H)].
    + specialize (Hnew b' k' Hc2). unfold disj in *. lia.
    + by apply Hnew.
Qed.

(** The code, with [prev] in front of [c]. *)
Lemma carve_ok pre0 prev : cells cs = pre0 ++ prev :: c :: post -> cells pre = pre0 ++ [prev] ->
  exists s', take_block n prev.1 c.1 c.2 s = Ret (a + 8) s' /\ heap s' cs' (<[a := n]> live) /\ brk s' = brk s /\ kept live s s'.
Proof using H E Hc Hn.
  intros Ec Ep. pose proof carve_range as Hr. assert (Hcc : c ∈ cs) by (rewrite E; set_solver).
  pose proof (hp_links _ _ _ H) as Hl. rewrite Ec in Hl. apply links_app in Hl as (Ll & Lp1 & Lp2 & Lc1 & Lc2 & Lpost).
  pose proof (cells_split s cs live H (pre0 ++ [prev]) c post prev ltac:(rewrite Ec, <- app_assoc; done) ltac:(set_solver)) as [Pc _].
  assert (Hprev : prev ∈ cells cs) by (rewrite Ec; set_solver). pose proof (cells_range s cs live H prev Hprev) as Pr.
  assert (Fpost : forall d, d ∈ post -> c.1 + 8 * c.2 <= d.1 /\ 1 <= d.2 /\ c.1 + 8 <= d.1).
  { intros d Hd. assert (Hdc : d ∈ cs) by (rewrite E; set_solver). pose proof (block_ok s cs live H d Hdc).
    apply list_elem_of_split in Hd as (l1 & l2 & ->).
    pose proof (sorted_split s cs live H (pre ++ c :: l1) d l2 c ltac:(rewrite E, <- app_assoc; done) ltac:(set_solver)) as Hb. unfold before in Hb. lia. }
  assert (Fpre : forall d, d ∈ pre0 -> d.1 + 8 <= prev.1).
  { intros d Hd. apply (cells_split s cs live H pre0 prev (c :: post) d Ec Hd). }
  assert (Flive : forall b k, live !! b = Some k -> (b + 8 * k <= c.1 \/ c.1 + 8 * c.2 <= b) /\ (b + 8 * k <= prev.1 \/ prev.1 + 8 <= b) /\ 1 <= k).
  { intros b k Hbk. pose proof (hp_live _ _ _ H b k Hbk). pose proof (hp_apart _ _ _ H b k c Hbk Hcc) as Hd. unfold disj in Hd. cbn in Hd.
    split; [lia|]. split; [|lia]. apply elem_of_cons in Hprev as [->|Hpc]; [cbn; lia|].
    pose proof (hp_apart _ _ _ H b k prev Hbk Hpc) as Hd2. pose proof (block_ok s cs live H prev Hpc). unfold disj in Hd2. cbn in Hd2. lia. }
  assert (Hfp : forall l, prev.1 ∈ (cells (pre ++ l)).*1).
  { intros l. change (cells (pre ++ l)) with (cells pre ++ l). rewrite Ep, <- app_assoc, fmap_app. apply elem_of_app. right. left. }
  assert (Ecs' : cells cs' = pre0 ++ prev :: left_over c n ++ post).
  { unfold cs'. change (cells (pre ++ left_over c n ++ post)) with (cells pre ++ left_over c n ++ post). by rewrite Ep, <- app_assoc. }
  unfold take_block. destruct (Z.eqb_spec c.2 n) as [En|En].
  - assert (Ea : a = c.1) by (unfold a; lia). assert (El : left_over c n = []) by (unfold left_over; by rewrite (proj2 (Z.eqb_eq _ _) En)).
    assert (Hq : 0 <= first post base < 4294967296).
    { destruct post as [|d l]; cbn [first]; [lia|]. assert (Hdc : d ∈ cs) by (rewrite E; set_solver). pose proof (block_ok s cs live H d Hdc). lia. }
    destruct (ld_st_ptr (memory s) prev.1 (first post base) Hq) as (B1 & B2 & B3).
    exists (with_freep prev.1 (with_memory (st32 (memory s) prev.1 (first post base)) s)). split; [|split; [|split; [done|]]].
    + assert (Rq : ptr c.1 s = Ret (first post base) s) by (unfold ptr, gets; by rewrite Lc1).
      unfold bind at 1. rewrite (bind_eq _ _ _ _ _ Rq). cbn. do 2 f_equal. rewrite Ea. unfold hadd, HDR. apply u32_small. lia.
    + apply heap_carve; [|unfold cs'; by apply Hfp|done| |].
      * rewrite Ecs', El. cbn [memory with_freep with_memory app]. apply links_app. split.
        -- apply (links_frame (memory s)); [exact Ll|]. intros d x Hd Hx. apply B3. specialize (Fpre d Hd). lia.
        -- cbn [links]. split; [exact B1|]. split; [by rewrite B2|]. apply (links_frame (memory s)); [exact Lpost|].
           intros d x Hd Hx. apply B3. specialize (Fpost d Hd). lia.
      * rewrite Ea, <- En, <- Lc2. apply ld32_ext. intros x Hx. apply B3. lia.
      * intros b k x Hbk Hx. apply B3. specialize (Flive b k Hbk). lia.
    + intros b k x Hbk Hx. apply B3. specialize (Flive b k Hbk). lia.
  - assert (El : left_over c n = [(c.1, c.2 - n)]) by (unfold left_over; by rewrite (proj2 (Z.eqb_neq _ _) En)).
    assert (Er : hadd c.1 (c.2 - n) = a) by (unfold hadd, HDR, a; apply u32_small; lia).
    assert (Ea : c.1 + 8 <= a /\ a + 8 <= c.1 + 8 * c.2) by (unfold a; lia).
    set (m1 := st32 (memory s) (c.1 + 4) (c.2 - n)). set (m2 := st32 m1 (a + 4) n).
    assert (F1 : forall x, x < c.1 + 4 \/ c.1 + 8 <= x < a + 4 \/ a + 8 <= x -> m2 x = memory s x).
    { intros x Hx. unfold m2, m1. rewrite !st32_other by lia. done. }
    exists (with_freep prev.1 (with_memory m2 s)). split; [|split; [|split; [done|]]].
    + rewrite (u32_small (c.2 - n)) by lia. unfold bind, set_size, modify, ret. cbn. rewrite Er. do 2 f_equal.
      unfold hadd, HDR. apply u32_small. lia.
    + apply heap_carve; [|unfold cs'; by apply Hfp|done| |].
      * rewrite Ecs', El. cbn [memory with_freep with_memory app]. apply links_app. split.
        -- apply (links_frame (memory s)); [exact Ll|]. intros d x Hd Hx. apply F1. specialize (Fpre d Hd). lia.
        -- cbn [links first]. split_and!.
           ++ etransitivity; [|exact Lp1]. apply ld32_ext. intros x Hx. apply F1. lia.
           ++ etransitivity; [|exact Lp2]. apply ld32_ext. intros x Hx. apply F1. lia.
           ++ etransitivity; [|exact Lc1]. apply ld32_ext. intros x Hx. apply F1. cbn in Hx. lia.
           ++ cbn. rewrite (ld32_ext m1); [unfold m1; apply ld32_st32; lia|]. intros x Hx. unfold m2. apply st32_other. lia.
           ++ apply (links_frame (memory s)); [exact Lpost|]. intros d x Hd Hx. apply F1. specialize (Fpost d Hd). lia.
      * cbn [memory with_freep with_memory]. unfold m2. apply ld32_st32. lia.
      * intros b k x Hbk Hx. apply F1. specialize (Flive b k Hbk). lia.
    + intros b k x Hbk Hx. apply F1. specialize (Flive b k Hbk). lia.
Qed.
End Carve.

(** ** The search *)

(** [y] follows [x] in the circle; a walk along it, and its last cell. *)
Definition follows (x y : cell) : Prop :=
  (exists pre post, cells cs = pre ++ x :: y :: post) \/ (exists pre, cells cs = pre ++ [x] /\ y = (base, 0)).
Fixpoint linked (x : cell) (l : list cell) : Prop :=
  match l with [] => True | y :: l' => follows x y /\ linked y l' end.
Fixpoint end_of (x : cell) (l : list cell) : cell := match l with [] => x | y :: l' => end_of y l' end.

Lemma follows_ptr x y : follows x y -> ptr x.1 s = Ret y.1 s.
Proof using All. intros [(pre & post & E)|(pre & E & ->)]; [by rewrite (read_ptr s cs live H pre x (y :: post) E)|by rewrite (read_ptr s cs live H pre x [] E)]. Qed.

Lemma follows_in x y : follows x y -> y ∈ cells cs.
Proof using All. intros [(pre & post & E)|(pre & _ & ->)]; [rewrite E; set_solver|left]. Qed.

Lemma linked_app l1 : forall x l2, linked x (l1 ++ l2) <-> linked x l1 /\ linked (end_of x l1) l2.
Proof using All. induction l1 as [|y l1 IH]; intros x l2; cbn [app linked end_of]; [tauto|]. rewrite IH. tauto. Qed.

Lemma linked_seg l : forall pre x post, cells cs = pre ++ x :: l ++ post -> linked x l.
Proof using All.
  induction l as [|y l IH]; intros pre x post E; [done|]. split; [left; by exists pre, (l ++ post)|].
  apply (IH (pre ++ [x]) y post). by rewrite <- app_assoc.
Qed.

Lemma end_of_app l1 : forall x l2, end_of x (l1 ++ l2) = end_of (end_of x l1) l2.
Proof using. clear. induction l1 as [|y l1 IH]; intros x l2; [done|]. apply IH. Qed.
Lemma end_of_split l : forall x : cell, exists pre, x :: l = pre ++ [end_of x l].
Proof using. clear. induction l as [|y l IH]; intros x; [by exists []|]. destruct (IH y) as [pre E]. exists (x :: pre). cbn [end_of]. by rewrite E. Qed.

(** The whole circle, from the cell [f] to itself. *)
Lemma linked_round A f B : cells cs = A ++ f :: B -> linked f (B ++ A ++ [f]).
Proof using All.
  intros E. apply linked_app. split; [by apply (linked_seg B A f []); rewrite app_nil_r|].
  destruct (end_of_split B f) as [pre Ep].
  assert (Hbase : follows (end_of f B) (base, 0)).
  { right. exists (A ++ pre). rewrite <- app_assoc, <- Ep. done. }
  destruct A as [|b A].
  - cbn [app linked] in *. assert (f = (base, 0)) as -> by (by injection E as <- _). done.
  - cbn [app linked]. cbn in E. assert (Eb : b = (base, 0)) by (by injection E as <- _). rewrite Eb at 1. split; [done|].
    apply linked_app. assert (E2 : cells cs = [] ++ b :: (A ++ [f]) ++ B) by (rewrite E, <- app_assoc; done).
    pose proof (linked_seg (A ++ [f]) [] b B E2) as Hl. by apply linked_app in Hl.
Qed.

Section Search.
Context (has_memory : Z -> Z -> bool).
Notation find_from := (search has_memory).

(** Cells that are too short are passed by. *)
Lemma search_pass V1 : forall x c fuel fuel2, linked x (V1 ++ [c]) ->
  Forall (fun d : cell => d.2 < n /\ d.1 <> freep s) V1 ->
  find_from (length V1 + fuel) fuel2 n x.1 (match V1 with [] => c.1 | d :: _ => d.1 end) s =
    find_from fuel fuel2 n (end_of x V1).1 c.1 s.
Proof using All.
  induction V1 as [|d V1 IH]; intros x c fuel fuel2 Hl Hf; [done|]. cbn [app linked length] in Hl |- *. destruct Hl as [Hxd Hl].
  apply Forall_cons in Hf as [[Hd Hdf] Hf].
  cbn [Nat.add search]. rewrite (bind_eq _ _ _ _ _ (read_size s cs live H d (follows_in x d Hxd))).
  assert (Eg : (d.2 >=? n) = false) by (destruct (Z.geb_spec d.2 n); [lia|done]). rewrite Eg.
  erewrite (bind_eq get) by reflexivity. rewrite (proj2 (Z.eqb_neq _ _) Hdf).
  assert (Hn1 : follows d (match V1 with [] => c | e :: _ => e end)) by (destruct V1; cbn [app linked] in Hl; by destruct Hl).
  rewrite (bind_eq _ _ _ _ _ (follows_ptr _ _ Hn1)). cbn [end_of]. rewrite <- (IH d c fuel fuel2 Hl Hf). by destruct V1.
Qed.

(** One that is long enough is taken. *)
Lemma search_take x c fuel fuel2 : follows x c -> n <= c.2 ->
  exists a cs' s', find_from (S fuel) fuel2 n x.1 c.1 s = Ret (a + 8) s' /\ took n cs a cs' /\ live !! a = None /\
    heap s' cs' (<[a := n]> live) /\ brk s' = brk s /\ kept live s s'.
Proof using All.
  intros Hf Hc. assert (Ec : exists pre0 post, cells cs = pre0 ++ x :: c :: post).
  { destruct Hf as [?|(pre & _ & ->)]; [done|cbn in Hc; lia]. }
  destruct Ec as (pre0 & post & Ec). destruct (pre0 ++ [x]) as [|b pre] eqn:Ep; [by destruct pre0|].
  assert (E2 : cells cs = (b :: pre) ++ c :: post) by (rewrite Ec, <- Ep, <- app_assoc; done).
  cbn in E2. injection E2 as Eb E. destruct (carve_ok pre c post E Hc pre0 x Ec) as (s' & R & Hh & Hb & K).
  { by rewrite Eb, Ep. }
  exists (c.1 + 8 * (c.2 - n)), (pre ++ left_over c n ++ post), s'. split.
  - cbn [search]. rewrite (bind_eq _ _ _ _ _ (read_size s cs live H c (follows_in x c Hf))).
    assert (Eg : (c.2 >=? n) = true) by (destruct (Z.geb_spec c.2 n); [done|lia]). rewrite Eg. exact R.
  - split; [by exists pre, c, post|]. split; [by apply (carve_fresh pre c post)|done].
Qed.

(** From [freep] round the circle: the first that is long enough. *)
Definition from_freep A (f : cell) B : Prop := cells cs = A ++ f :: B /\ f.1 = freep s.

Lemma freep_split : exists A f B, from_freep A f B.
Proof using All.
  pose proof (hp_freep _ _ _ H) as (f & Ef & Hf)%list_elem_of_fmap. apply list_elem_of_split in Hf as (A & B & E). by exists A, f, B.
Qed.

(** Addresses of cells are all different. *)
Lemma other_cells A f B : from_freep A f B -> forall d, d ∈ B ++ A -> d.1 <> freep s.
Proof using All.
  intros [E <-] d [Hd|Hd]%elem_of_app.
  - apply list_elem_of_split in Hd as (l1 & l2 & ->).
    pose proof (cells_split s cs live H (A ++ f :: l1) d l2 f ltac:(rewrite E, <- app_assoc; done) ltac:(set_solver)). lia.
  - pose proof (cells_split s cs live H A f B d E Hd). lia.
Qed.

Lemma search_ok fuel fuel2 : (exists c, c ∈ cs /\ n <= c.2) -> (length cs < fuel)%nat ->
  exists a cs' s', (let! p := ptr (freep s) in find_from fuel fuel2 n (freep s) p) s = Ret (a + 8) s' /\ took n cs a cs' /\ live !! a = None /\
    heap s' cs' (<[a := n]> live) /\ brk s' = brk s /\ kept live s s'.
Proof using All.
  intros (c0 & Hc0 & Hfit) Hfuel. destruct freep_split as (A & f & B & Hff). pose proof Hff as [E Ef].
  pose proof (linked_round A f B E) as Hl. set (V := B ++ A ++ [f]) in *.
  assert (HV : forall d, d ∈ cells cs -> d ∈ V) by (intros d; rewrite E; unfold V; set_solver).
  assert (Hlen : length V = S (length cs)).
  { change (S (length cs)) with (length (cells cs)). rewrite E. unfold V. rewrite !length_app. cbn. lia. }
  (* the first that fits *)
  assert (G : forall l, (exists c, c ∈ l /\ n <= c.2) -> exists V1 c V2, l = V1 ++ c :: V2 /\ n <= c.2 /\ Forall (fun d : cell => d.2 < n) V1).
  { clear. induction l as [|d l IH]; intros (c & Hc & Hn); [by apply not_elem_of_nil in Hc|]. destruct (decide (n <= d.2)); [by exists [], d, l|].
    destruct IH as (V1 & e & V2 & -> & He & HF). { exists c. apply elem_of_cons in Hc as [->|Hc]; [lia|done]. }
    exists (d :: V1), e, V2. split_and!; [done..|]. constructor; [lia|done]. }
  destruct (G V) as (V1 & c & V2 & EV & Hc & Hs). { exists c0. split; [apply HV; by right|done]. }
  assert (Hlk : linked f (V1 ++ [c])).
  { rewrite EV in Hl. apply linked_app in Hl as [Hl1 [Hl2 _]]. apply linked_app. by split. }
  assert (Hf1 : Forall (fun d : cell => d.2 < n /\ d.1 <> freep s) V1).
  { rewrite Forall_forall in Hs |- *. intros d Hd. split; [by apply Hs|]. apply (other_cells A f B Hff).
    apply list_elem_of_split in Hd as (l1 & l2 & ->).
    assert (EV' : (B ++ A) ++ [f] = (l1 ++ d :: l2 ++ removelast (c :: V2)) ++ [List.last (c :: V2) f]).
    { rewrite <- app_assoc. fold V. rewrite EV, <- !app_assoc. cbn [app]. do 2 f_equal. rewrite <- app_assoc. f_equal. by apply app_removelast_last. }
    apply app_inj_2 in EV' as [-> _]; [|done]. set_solver. }
  assert (Hend : follows (end_of f V1) c) by (apply linked_app in Hlk as [_ [Hk _]]; exact Hk).
  assert (Hl1 : (length V1 <= length cs)%nat). { rewrite EV, length_app in Hlen. cbn in Hlen. lia. }
  destruct (search_take (end_of f V1) c (fuel - length V1 - 1) fuel2 Hend Hc) as (a & cs' & s' & R & HT).
  exists a, cs', s'. split; [|done].
  assert (Hn1 : follows f (match V1 with [] => c | e :: _ => e end)) by (destruct V1; cbn [app linked] in Hlk; by destruct Hlk).
  rewrite <- Ef. rewrite (bind_eq _ _ _ _ _ (follows_ptr _ _ Hn1)).
  replace fuel with (length V1 + S (fuel - length V1 - 1))%nat by lia.
  rewrite <- R, <- (search_pass V1 f c _ fuel2 Hlk Hf1). by destruct V1.
Qed.

(** When none is, the search comes back to [freep]. *)
Lemma search_none fuel fuel2 : Forall (fun c : cell => c.2 < n) cs ->
  (let! p := ptr (freep s) in find_from (S (length cs) + fuel) fuel2 n (freep s) p) s =
  (let! p := morecore has_memory fuel2 n in if p =? 0 then ret 0 else let! q := ptr p in find_from fuel fuel2 n p q) s.
Proof using All.
  intros Hs. destruct freep_split as (A & f & B & Hff). pose proof Hff as [E Ef].
  pose proof (linked_round A f B E) as Hl. rewrite app_assoc in Hl.
  assert (Hall : forall d, d ∈ cells cs -> d.2 < n).
  { intros d [->|Hd]%elem_of_cons; [cbn; lia|]. rewrite Forall_forall in Hs. by apply Hs. }
  assert (Hf1 : Forall (fun d : cell => d.2 < n /\ d.1 <> freep s) (B ++ A)).
  { apply Forall_forall. intros d Hd. split; [apply Hall; rewrite E; set_solver|by apply (other_cells A f B Hff)]. }
  assert (Hlen : length (B ++ A) = length cs).
  { assert (El : length (cells cs) = S (length cs)) by done. rewrite E, length_app in El. rewrite length_app. cbn in El. lia. }
  assert (Hn1 : exists y, follows f y /\ y.1 = match B ++ A with [] => f.1 | d :: _ => d.1 end).
  { destruct (B ++ A) as [|e V]; cbn [app linked] in Hl; destruct Hl as [Hy _]; by eexists. }
  destruct Hn1 as (y & Hn1 & Em). pose proof (search_pass (B ++ A) f f (S fuel) fuel2 Hl Hf1) as P. rewrite Hlen in P.
  rewrite <- Ef. rewrite (bind_eq _ _ _ _ _ (follows_ptr _ _ Hn1)).
  replace (S (length cs) + fuel)%nat with (length cs + S fuel)%nat by lia.
  rewrite Em, P. cbn [search]. rewrite (bind_eq _ _ _ _ _ (read_size s cs live H f ltac:(rewrite E; set_solver))).
  assert (Eg : (f.2 >=? n) = false).
  { assert (f.2 < n) by (apply Hall; rewrite E; set_solver). destruct (Z.geb_spec f.2 n); [lia|done]. }
  rewrite Eg. erewrite (bind_eq get) by reflexivity. by rewrite (proj2 (Z.eqb_eq _ _) Ef).
Qed.
End Search.
End Take.

(** ** More memory *)

Section Grow.
Context (has_memory : Z -> Z -> bool).

(** The units asked for, and whether the process can have them. *)
Definition request (n : Z) : Z := Z.max 4096 n.
Definition room (s : ust) (nu : Z) : bool := (brk s + 8 * nu <? KERNBASE) && has_memory (brk s) (brk s + 8 * nu).

Lemma sbrk_ok s nu : 1 <= nu -> 8 * nu < 2147483648 -> 0 < brk s <= KERNBASE ->
  sbrk has_memory (u32 (nu * HDR)) s = if room s nu then Ret (brk s) (with_brk (brk s + 8 * nu) s) else Ret (u32 (-1)) s.
Proof.
  intros H1 H2 Hb. unfold sbrk. erewrite (bind_eq get) by reflexivity. unfold HDR, KERNBASE in *.
  rewrite (u32_small (nu * 8)), (i32_small (nu * 8)) by lia. rewrite (u32_small (brk s + nu * 8)) by lia.
  rewrite (proj2 (Z.gtb_lt (nu * 8) 0)) by lia. replace (nu * 8) with (8 * nu) by lia. unfold room, KERNBASE.
  destruct (Z.ltb_spec (brk s + 8 * nu) 2147483648) as [Hlt|Hge]; cbn [andb].
  - assert (Eg : (brk s + 8 * nu >=? 2147483648) = false) by (destruct (Z.geb_spec (brk s + 8 * nu) 2147483648); [lia|done]).
    rewrite Eg, (proj2 (Z.ltb_ge _ _)) by lia. by destruct (has_memory _ _).
  - assert (Eg : (brk s + 8 * nu >=? 2147483648) = true) by (destruct (Z.geb_spec (brk s + 8 * nu) 2147483648); [done|lia]). by rewrite Eg.
Qed.

Lemma morecore_ok s cs live n fuel : heap s cs live -> 1 <= n -> 8 * n < 2147483648 -> (length cs < fuel)%nat ->
  if room s (request n)
  then exists s', morecore has_memory fuel n s = Ret (freep s') s' /\ heap s' (insert_block (brk s, request n) cs) live /\
    brk s' = brk s + 8 * request n /\ kept live s s' /\ freep s' <> 0
  else morecore has_memory fuel n s = Ret 0 s.
Proof.
  intros H Hn Hn2 Hf. pose proof (hp_base _ _ _ H) as Hb. unfold morecore.
  assert (Er : (if n <? 4096 then 4096 else n) = request n) by (unfold request; destruct (Z.ltb_spec n 4096); lia). rewrite Er.
  assert (Hq : 1 <= request n /\ 8 * request n < 2147483648) by (unfold request; lia).
  pose proof (sbrk_ok s (request n) ltac:(lia) ltac:(lia) ltac:(lia)) as Rs. destruct (room s (request n)) eqn:Ero.
  2:{ rewrite (bind_eq _ _ _ _ _ Rs). done. }
  unfold room in Ero. apply andb_true_iff in Ero as [Ero%Z.ltb_lt _]. set (nu := request n) in *. unfold KERNBASE in *.
  rewrite (bind_eq _ _ _ _ _ Rs). assert (Em : u32 (-1) = 4294967295) by done. rewrite Em, (proj2 (Z.eqb_neq _ _)) by lia.
  erewrite (bind_eq (set_size _ _)) by reflexivity. set (s1 := with_memory _ _). set (b := brk s) in *.
  assert (F1 : forall x, x < b -> memory s1 x = memory s x).
  { intros x Hx. unfold s1. cbn [memory with_memory with_brk]. apply st32_other. lia. }
  assert (Hfree : forall c, c ∈ cs -> base + 8 <= c.1 /\ 1 <= c.2 /\ c.1 + 8 * c.2 <= b) by (intros c Hc; by apply (block_ok s cs live H)).
  assert (Hlv : forall a k, live !! a = Some k -> base + 8 <= a /\ 1 <= k /\ a + 8 * k <= b) by (intros a k Ha; pose proof (hp_live _ _ _ H a k Ha); lia).
  assert (Hnone : live !! b = None) by (destruct (live !! b) eqn:E0; [specialize (Hlv _ _ E0); lia|done]).
  assert (H1 : heap s1 cs (<[b := nu]> live)).
  { split.
    - apply (links_frame (memory s)); [apply H|]. intros c x Hc Hx. apply F1. apply elem_of_cons in Hc as [->|Hc]; [cbn in Hx; lia|].
      specialize (Hfree c Hc). lia.
    - apply H.
    - apply H.
    - apply Forall_forall. intros c Hc. specialize (Hfree c Hc). cbn. lia.
    - intros a k Ha. apply lookup_insert_Some in Ha as [[<- <-]|[Hne Ha]].
      + cbn. split_and!; [lia..|]. apply ld32_st32. lia.
      + pose proof (hp_live _ _ _ H a k Ha) as (? & ? & ? & E0). cbn [brk s1 with_memory with_brk]. split_and!; [lia..|].
        rewrite <- E0. apply ld32_ext. intros x Hx. apply F1. lia.
    - intros a k c Ha Hc. specialize (Hfree c Hc). apply lookup_insert_Some in Ha as [[<- <-]|[Hne Ha]]; [unfold disj; cbn; lia|by apply (hp_apart _ _ _ H)].
    - intros a k a' k' [[<- <-]|[Hne Ha]]%lookup_insert_Some [[<- <-]|[Hne' Ha']]%lookup_insert_Some Hd; [done| | |by apply (hp_lives _ _ _ H)].
      + specialize (Hlv _ _ Ha'). unfold disj. cbn. lia.
      + specialize (Hlv _ _ Ha). unfold disj. cbn. lia.
    - cbn. unfold KERNBASE. lia. }
  destruct (free_ok s1 cs _ b nu H1 (lookup_insert_eq _ _ _) fuel Hf) as (s2 & R2 & H2 & B2 & K2 & _).
  rewrite delete_insert_id in H2, K2 by done. exists s2. split; [|split; [done|split; [done|split]]].
  - assert (Eh : hadd b 1 = b + 8) by (unfold hadd, HDR; rewrite u32_small by lia; lia). rewrite Eh. by rewrite (bind_eq _ _ _ _ _ R2).
  - intros a k x Ha Hx. rewrite (K2 a k x Ha Hx). apply F1. specialize (Hlv _ _ Ha). lia.
  - pose proof (hp_freep _ _ _ H2) as (f & Ef & Hf2)%list_elem_of_fmap. pose proof (cells_range _ _ _ H2 f Hf2). lia.
Qed.

(** Nothing allocated yet, or a heap. *)
Definition ready (s : ust) cs live : Prop :=
  heap s cs live \/ freep s = 0 /\ cs = [] /\ live = ∅ /\ 0 < base /\ base + 8 <= brk s <= KERNBASE.

Lemma ready_heap s cs live : ready s cs live -> exists s1,
  (let! s := get in if freep s =? 0 then set_ptr base base ;;; modify (with_freep base) ;;; set_size base 0 else ret tt) s = Ret tt s1 /\
  heap s1 cs live /\ brk s1 = brk s /\ kept live s s1.
Proof.
  intros [H|(Hf & -> & -> & Hb & Hbrk)].
  - exists s. erewrite (bind_eq get) by reflexivity.
    assert (Hne : freep s <> 0).
    { pose proof (hp_freep _ _ _ H) as (f & Ef & Hf)%list_elem_of_fmap. pose proof (cells_range _ _ _ H f Hf). lia. }
    rewrite (proj2 (Z.eqb_neq _ _) Hne). done.
  - eexists. erewrite (bind_eq get) by reflexivity. rewrite Hf. split; [reflexivity|]. split; [|done].
    unfold KERNBASE in *. split; try done; cbn.
    + split; [|split; [|done]].
      * etransitivity; [apply ld32_ext|apply (ld32_st32 (memory s) base base)]; [|lia]. intros x Hx. apply st32_other. lia.
      * apply ld32_st32. lia.
    + left.
    + constructor.
Qed.
End Grow.
End Heap.

(** What a program may do to memory between calls: write in the blocks it has,
    behind their headers. *)
Definition scribbled live (s s' : ust) : Prop :=
  freep s' = freep s /\ brk s' = brk s /\
  forall x, memory s' x = memory s x \/ exists a n, live !! a = Some n /\ a + 8 <= x < a + 8 * n.

Lemma heap_scribbled base s s' cs live : heap base s cs live -> scribbled live s s' -> heap base s' cs live.
Proof.
  intros H (Ef & Eb & Hm). pose proof H as [Hl Hf Hs Hfr Hlv Hap Hll Hbs].
  assert (Hh : forall c x, c ∈ (base, 0) :: cs -> c.1 <= x < c.1 + 8 -> memory s' x = memory s x).
  { intros c x Hc Hx. destruct (Hm x) as [?|(a & n & Ha & Hax)]; [done|]. exfalso. pose proof (Hlv a n Ha).
    apply elem_of_cons in Hc as [->|Hc]; [cbn in Hx; lia|]. pose proof (Hap a n c Ha Hc) as Hd. pose proof (block_ok base s cs live H c Hc).
    unfold disj in Hd. cbn in Hd. lia. }
  split; [|by rewrite Ef|done|by rewrite Eb| |done|done|by rewrite Eb].
  - apply (links_frame (memory s)); [exact Hl|]. exact Hh.
  - intros a n Ha. destruct (Hlv a n Ha) as (? & ? & ? & E). rewrite Eb. split_and!; [lia..|]. rewrite <- E. apply ld32_ext.
    intros x Hx. destruct (Hm x) as [?|(b & k & Hb & Hbx)]; [done|]. exfalso. destruct (decide (a = b)) as [->|Hne]; [lia|].
    pose proof (Hll a n b k Ha Hb Hne) as Hd. pose proof (Hlv b k Hb). unfold disj in Hd. cbn in Hd. lia.
Qed.

(** The units for [nbytes]: a header and the bytes, rounded up. *)
Lemma units_ok nbytes : 0 <= nbytes < 1073741824 -> nbytes + 8 <= 8 * units nbytes < nbytes + 16.
Proof.
  intros H. unfold units, HDR. rewrite (u32_small (nbytes + 8 - 1)) by lia.
  pose proof (Z.div_mod (nbytes + 8 - 1) 8 ltac:(lia)). pose proof (Z.mod_pos_bound (nbytes + 8 - 1) 8 ltac:(lia)).
  rewrite u32_small by lia. lia.
Qed.

(** C32: [malloc] of the user library, for a request below one gigabyte: it
    returns within the length of the list.  When a free block is long enough the
    end of one is taken and no memory is asked for; when none is, the process
    grows by 4096 units or more, the new memory joins the free block it touches,
    and the search goes on there; when the process cannot grow the result is
    null and the heap is as it was.  The block handed out holds the request,
    overlaps no free block and no block in use, and no byte of a block in use
    is written. *)
Theorem malloc_spec base has_memory s0 s cs live fuel fuel2 nbytes :
  ready base s0 cs live -> scribbled live s0 s -> 0 <= nbytes < 1073741824 ->
  (2 * length cs + 4 < fuel)%nat -> (length cs < fuel2)%nat ->
  let n := units nbytes in
  let grow := negb (existsb (fun c => n <=? c.2) cs) in
  nbytes <= 8 * (n - 1) /\
  if grow && negb (room has_memory s (request n))
  then exists s', malloc base has_memory fuel fuel2 nbytes s = Ret 0 s' /\ heap base s' cs live /\ brk s' = brk s /\ kept live s s'
  else exists a cs' s', malloc base has_memory fuel fuel2 nbytes s = Ret (a + 8) s' /\
    took n (if grow then insert_block (brk s, request n) cs else cs) a cs' /\ live !! a = None /\
    heap base s' cs' (<[a := n]> live) /\ brk s' = (if grow then brk s + 8 * request n else brk s) /\ kept live s s'.
Proof.
  intros Hr0 Hsc Hnb Hf1 Hf2 n grow. pose proof (units_ok nbytes Hnb) as Hu. fold n in Hu. split; [lia|].
  assert (Hr : ready base s cs live).
  { destruct Hr0 as [H|(Hf & -> & -> & Hb)]; [left; by eapply heap_scribbled|]. right. destruct Hsc as (E1 & E2 & _). by rewrite E1, E2. }
  destruct (ready_heap base s cs live Hr) as (s1 & R1 & H & B1 & K1).
  assert (Hn : 1 <= n) by lia.
  assert (Em : malloc base has_memory fuel fuel2 nbytes s = (let! p := ptr (freep s1) in search has_memory fuel fuel2 n (freep s1) p) s1).
  { unfold malloc. fold n. erewrite (bind_eq get) by reflexivity. erewrite (bind_eq get) in R1 by reflexivity.
    rewrite (bind_eq _ _ _ _ _ R1). done. }
  assert (Kt : forall s', kept live s1 s' -> kept live s s').
  { intros s' K a k x Ha Hx. rewrite (K a k x Ha Hx). by apply (K1 a k x). }
  rewrite Em. destruct grow eqn:Eg; cbn [andb].
  - assert (Hno : Forall (fun c : cell => c.2 < n) cs).
    { apply Forall_forall. intros c Hc. destruct (decide (c.2 < n)) as [|Hge]; [done|]. exfalso. unfold grow in Eg.
      apply negb_true_iff in Eg. assert (existsb (fun c : cell => n <=? c.2) cs = true); [|congruence].
      apply existsb_exists. exists c. split; [by apply list_elem_of_In|apply Z.leb_le; lia]. }
    pose proof (morecore_ok base has_memory s1 cs live n fuel2 H Hn ltac:(lia) Hf2) as Mc.
    assert (Ero : room has_memory s1 (request n) = room has_memory s (request n)) by (unfold room; by rewrite B1). rewrite Ero, B1 in Mc.
    set (left := (fuel - S (length cs))%nat). replace fuel with (S (length cs) + left)%nat by (unfold left; lia).
    rewrite (search_none base s1 cs live n H Hn has_memory left fuel2 Hno).
    destruct (room has_memory s (request n)); cbn [negb].
    + destruct Mc as (s2 & R2 & H2 & B2 & K2 & Hne). rewrite (bind_eq _ _ _ _ _ R2), (proj2 (Z.eqb_neq _ _) Hne).
      assert (Hlen : (length (insert_block (brk s, request n) cs) <= S (length cs))%nat).
      { clear. induction cs as [|d cs IH]; [done|]. cbn [insert_block]. assert (J : forall e l, (length (join e l) <= S (length l))%nat).
        { intros e [|f l]; [done|]. cbn [join]. case_match; cbn; lia. }
        case_match; [apply J|]. etrans; [apply J|]. cbn [length]. lia. }
      destruct (search_ok base s2 _ live n H2 Hn has_memory left fuel2) as (a & cs' & s' & R & T & Hl & H' & B' & K').
      * destruct (insert_fits (brk s, request n) cs) as (c & Hc & Hcn); [|unfold request; cbn; lia|].
        -- pose proof (hp_free _ _ _ _ H) as Hfr. eapply Forall_impl; [exact Hfr|]. cbn. lia.
        -- exists c. split; [done|]. cbn in Hcn. unfold request in Hcn. lia.
      * unfold left. lia.
      * exists a, cs', s'. split; [exact R|]. split; [done|]. split; [done|]. split; [done|]. split; [lia|].
        apply Kt. intros b k x Hb Hx. rewrite (K' b k x Hb Hx). by apply (K2 b k x).
    + rewrite (bind_eq _ _ _ _ _ Mc). exists s1. split; [done|]. split; [done|]. split; [done|]. exact K1.
  - assert (Hex : exists c, c ∈ cs /\ n <= c.2).
    { unfold grow in Eg. apply negb_false_iff, existsb_exists in Eg as (c & Hc & Hn'). exists c. split; [by apply list_elem_of_In|by apply Z.leb_le]. }
    destruct (search_ok base s1 cs live n H Hn has_memory fuel fuel2 Hex ltac:(lia)) as (a & cs' & s' & R & T & Hl & H' & B' & K').
    exists a, cs', s'. split; [exact R|]. split; [done|]. split; [done|]. split; [done|]. split; [lia|]. by apply Kt.
Qed.

(** C36: [free] of a block in use puts it among the free ones at its place by
    address, one block with each neighbour it touches, whatever the program
    wrote into its blocks; the other blocks keep every byte, and the bytes of
    the heap are the same as before. *)
Theorem free_spec base s0 s cs live a n fuel :
  heap base s0 cs live -> scribbled live s0 s -> live !! a = Some n -> (length cs < fuel)%nat ->
  exists s', free fuel (a + 8) s = Ret tt s' /\ heap base s' (insert_block (a, n) cs) (delete a live) /\ brk s' = brk s /\
    kept (delete a live) s s' /\
    forall x, covered (insert_block (a, n) cs) (delete a live) x <-> covered cs live x.
Proof.
  intros H0 Hsc Ha Hf. pose proof (heap_scribbled base s0 s cs live H0 Hsc) as H.
  destruct (free_ok base s cs live a n H Ha fuel Hf) as (s' & R & H' & B & K & _). exists s'. split; [done|]. split; [done|]. split; [done|].
  split; [done|]. intros x.
  assert (Hpos : Forall (fun d : cell => 1 <= d.2) cs) by (eapply Forall_impl; [exact (hp_free _ _ _ _ H)|cbn; lia]).
  assert (Hn : 1 <= n) by (pose proof (hp_live _ _ _ _ H a n Ha); lia).
  unfold covered. fold (bytes_of (insert_block (a, n) cs) x). fold (bytes_of cs x). rewrite (insert_bytes (a, n) cs x Hn Hpos), bytes_cons. cbn.
  setoid_rewrite lookup_delete_Some. split.
  - intros [[?|?]|(b & k & [Hne Hb] & Hx)]; [right; by exists a, n|by left|right; by exists b, k].
  - intros [?|(b & k & Hb & Hx)]; [by left; right|]. destruct (decide (a = b)) as [<-|Hne]; [left; left; by simplify_eq|].
    right. by exists b, k.
Qed.

Definition start : ust := {| memory := fun _ => 0; freep := 0; brk := 8192 |}.

Lemma malloc_spec_witness : exists a cs' s',
  malloc 4096 (fun _ _ => true) 10 10 100 start = Ret (a + 8) s' /\ heap 4096 s' cs' {[a := 14]} /\ brk s' = 40960.
Proof.
  destruct (malloc_spec 4096 (fun _ _ => true) start start [] ∅ 10 10 100) as [_ E].
  - right. repeat split; try reflexivity; cbn; unfold KERNBASE; lia.
  - split; [reflexivity|split; [reflexivity|by left]].
  - lia.
  - cbn. lia.
  - cbn. lia.
  - destruct E as (a & cs' & s' & R & _ & _ & H & B & _). exists a, cs', s'. split; [exact R|]. split; [exact H|]. exact B.
Defined.

(** One block of four units, in use. *)
Definition one_block : ust := {| memory := st32 (st32 (fun _ => 0) 4096 4096) 8196 4; freep := 4096; brk := 8224 |}.

Lemma one_block_heap : heap 4096 one_block [] {[8192 := 4]}.
Proof.
  split.
  - split; [reflexivity|]. split; [reflexivity|exact I].
  - left.
  - constructor.
  - constructor.
  - intros a n [<- <-]%lookup_singleton_Some. cbn. split_and!; [lia..|reflexivity].
  - intros a n c _ Hc. by apply not_elem_of_nil in Hc.
  - intros a n b k [<- <-]%lookup_singleton_Some [<- <-]%lookup_singleton_Some Hne. done.
  - cbn. unfold KERNBASE. lia.
Qed.

Lemma free_spec_witness : exists s', free 1 8200 one_block = Ret tt s' /\ heap 4096 s' [(8192, 4)] ∅ /\ brk s' = 8224.
Proof.
  destruct (free_spec 4096 one_block one_block [] {[8192 := 4]} 8192 4 1) as (s' & R & H & B & _).
  - exact one_block_heap.
  - split; [reflexivity|split; [reflexivity|by left]].
  - apply lookup_singleton_eq.
  - cbn. lia.
  - exists s'. split; [exact R|]. rewrite delete_singleton_eq in H. split; [exact H|exact B].
Defined.

(** The sum in [units] is made in 32 bits: the largest request is granted one
    header and no byte. *)
Lemma units_wrap : units 4294967295 = 1.
Proof. reflexivity. Qed.

(** For two gigabytes the argument of [sbrk] turns negative, [sbrk] answers as
    if it had grown, and the pointer returned is above the end of the
    process. *)
Lemma malloc_past_break : exists s', malloc 4096 (fun _ _ => true) 10 10 2147483648 start = Ret 8200 s' /\ brk s' < 8200.
Proof. eexists. split; [vm_compute; reflexivity|]. reflexivity. Qed.
