(* ===== verification/ConsoleSpec.v ===== *)
(** * The console and printing: properties

    The keyboard interrupt as editing steps on lines, [consoleread] as reading
    from them, and formatted printing, in the kernel and in user programs,
    against one reference. *)

From S2P Require Import Prelude Locks Bio Log LogFacts Fs Console ConsoleFacts Printf.
Import Console.

(** ** A console *)

Module ConDemo.
Definition console : cst :=
  {| panicked := false; locking := true; clk := false;
     ccpu := {| Cli.ncli := 0; Cli.intena := false; Cli.intr := true |};
     uart := true; serial := []; crt := replicate 2000 0; pos := 0;
     ibuf := replicate 128 0; ir := 4294967295; iw := 4294967295; ie := 4294967295;
     killed := 0; wakes := 0; dumps := 0 |}.
Definition empty : tty := {| lines := []; line := [] |}.

Lemma console_screen : screen_ok console.
Proof. split; [apply length_replicate|cbn; lia|done]. Qed.
Lemma console_holds : holds console [] [].
Proof. split; try done; cbn; lia. Qed.
Lemma console_nest : CliFacts.nest_ok (ccpu console).
Proof. split; cbn; lia. Qed.
Lemma bytes_of l : forallb (fun v => (0 <=? v) && (v <? 256)) l = true -> Forall byte_ok l.
Proof.
  intros H. apply Forall_forall. intros v Hv%list_elem_of_In. rewrite forallb_forall in H. apply H in Hv.
  unfold byte_ok. bools. lia.
Qed.
End ConDemo.

(** ** The line discipline *)

(** C16: The keyboard interrupt edits lines: [consoleintr] changes the ring of
    128 characters, whatever its free-running counters are, exactly as [key]
    changes the lists of committed and edited characters (a backspace and a kill
    never reach a committed line, a full ring drops the key), echoes exactly what
    [key] says on the serial port, wakes the readers once for each line committed, lists the
    processes when asked to, and neither panics nor leaves the screen or keeps
    the lock. *)
Theorem consoleintr_spec s t cs :
  screen_ok s -> holds s (lines t) (line t) -> line_ok t -> Forall byte_ok cs -> clk s = false -> CliFacts.nest_ok (ccpu s) ->
  let '(t', l, w) := keys t cs in
  exists s', consoleintr cs s = Ret tt s' /\ holds s' (lines t') (line t') /\ line_ok t' /\ screen_ok s' /\
    serial s' = serial s ++ (if uart s then l else []) /\ wakes s' = (wakes s + w)%nat /\
    dumps s' = (dumps s + if bool_decide (C 80 ∈ cs) then 1 else 0)%nat /\ clk s' = false /\
    Cli.ncli (ccpu s') = Cli.ncli (ccpu s) /\ Cli.intr (ccpu s') = Cli.intr (ccpu s).
Proof.
  intros Hs Hh Hl Hb Hlk Hn. pose proof (intr_loop_ok cs (locked_view s) t false (locked_screen s Hs) (locked_holds _ _ _ Hh) Hl Hb) as L.
  destruct (keys t cs) as [[t' l] w]. destruct L as (s1 & R1 & H1 & Hl1 & [S1 E1 W1 (Eu & Ek & Ec & _ & _ & Ed)]).
  cbn [orb] in R1. unfold consoleintr. rewrite (bind_eq _ _ _ _ _ (con_acquire_ok s Hlk)), (bind_eq _ _ _ _ _ R1).
  destruct (con_release_ok s s1 Hn) as (c & R2 & Hc & Hi); [by rewrite Ek|by rewrite Ec|].
  rewrite (bind_eq _ _ _ _ _ R2). pose proof (unlocked_screen s1 c S1) as S2. pose proof (unlocked_holds s1 c _ _ H1) as H2.
  cbn [serial locked_view wakes dumps uart] in E1, W1, Ed. case_bool_decide as Hp.
  - eexists. split; [reflexivity|]. cbn in *. split; [by destruct H2|]. split; [done|]. split; [by destruct S2|].
    split_and!; try done. lia.
  - eexists. split; [reflexivity|]. cbn in *. split; [by destruct H2|]. split; [done|]. split; [by destruct S2|].
    split_and!; try done. lia.
Qed.

Lemma consoleintr_spec_witness :
  exists s', consoleintr [104; 120; 8; 105; 13; 111] ConDemo.console = Ret tt s' /\
    holds s' [104; 105; 10] [111] /\ serial s' = [104; 120; 8; 32; 8; 105; 10; 111] /\ wakes s' = 1%nat.
Proof.
  destruct (consoleintr_spec ConDemo.console ConDemo.empty [104; 120; 8; 105; 13; 111] ConDemo.console_screen ConDemo.console_holds
    ltac:(apply not_elem_of_nil) ltac:(apply ConDemo.bytes_of; reflexivity) eq_refl ConDemo.console_nest)
    as (s' & R & H & _ & _ & E & W & _).
  exists s'. exact (conj R (conj H (conj E W))).
Defined.

(** ** Reading *)

Lemma on_con_ret {A} (m : M cst A) d a c : m (con d) = Ret a c -> on_con m d = Ret a {| fs := fs d; con := c |}.
Proof. intros E. unfold on_con, zoom. by rewrite E. Qed.
Lemma on_con_asleep {A} (m : M cst A) d ch c : m (con d) = Asleep ch c -> on_con m d = Asleep ch {| fs := fs d; con := c |}.
Proof. intros E. unfold on_con, zoom. by rewrite E. Qed.
Lemma bind_asleep {S A B} (m : M S A) (f : A -> M S B) s ch s' : m s = Asleep ch s' -> bind m f s = Asleep ch s'.
Proof. intros E. unfold bind. by rewrite E. Qed.
Lemma on_fs_ret {A} (m : M Fs.fst A) d a f : m (fs d) = Ret a f -> on_fs m d = Ret a {| fs := f; con := con d |}.
Proof. intros E. unfold on_fs, zoom. by rewrite E. Qed.

(** A whole line is there: it is what the read returns. *)
Lemma reads_line l : forall n target env t k rest,
  lines t = l ++ 10 :: rest -> 10 ∉ l -> C 68 ∉ l -> (length l < n)%nat ->
  reads n target env t k = Done (l ++ [10]) {| lines := rest; line := line t |}.
Proof.
  induction l as [|c l IH]; intros n target env t k rest Ht H10 H4 Hn; (destruct n as [|n]; [cbn in Hn; lia|]); cbn [reads];
    destruct env as [|e env]; cbn [awaits]; rewrite Ht; cbn [app]; rewrite Ht; cbn [app]; [done..| |].
  all: apply not_elem_of_cons in H10 as [Hc10 H10]; apply not_elem_of_cons in H4 as [Hc4 H4]; cbn [length] in Hn;
    rewrite (proj2 (Z.eqb_neq c (C 68))), (proj2 (Z.eqb_neq c 10)) by congruence.
  - by rewrite (IH n target [] {| lines := l ++ 10 :: rest; line := line t |} k rest) by (done || lia).
  - by rewrite (IH n target (e :: env) {| lines := l ++ 10 :: rest; line := line t |} k rest) by (done || lia).
Qed.

(** The console after a call: free again, with the terminal [t]. *)
Definition settled (s s' : cst) (t : tty) : Prop :=
  screen_ok s' /\ holds s' (lines t) (line t) /\ line_ok t /\ clk s' = false /\
  Cli.ncli (ccpu s') = Cli.ncli (ccpu s) /\ Cli.intr (ccpu s') = Cli.intr (ccpu s).

(** C15: [consoleread] reads from the committed lines: it takes the characters
    that [reads] takes, through whatever is typed, read by others or killed while
    it sleeps; a line that is there is returned whole, with its newline.  While it
    sleeps, waiting for the first character that is missing, neither the lock of
    the console nor that of the inode is held; when it returns the first is free
    and the second held. *)
Theorem consoleread_spec d ip n env t f1 f2 :
  screen_ok (con d) -> holds (con d) (lines t) (line t) -> line_ok t -> clk (con d) = false -> CliFacts.nest_ok (ccpu (con d)) ->
  Forall event_ok env -> Fs.iunlock (Some ip) (fs d) = Ret tt f1 -> Fs.ilock (Some ip) f1 = Ret tt f2 ->
  let k := negb (killed (con d) =? 0) in
  match reads (Z.to_nat n) n env t k with
  | Done l t' => exists d', consoleread ip n env d = Ret (Z.of_nat (length l), l) d' /\ fs d' = f2 /\ settled (con d) (con d') t'
  | Dead l t' => exists d', consoleread ip n env d = Ret (-1, l) d' /\ fs d' = f2 /\ settled (con d) (con d') t'
  | Sleeps t' => exists d', consoleread ip n env d = Asleep chan_input d' /\ fs d' = f1 /\ lines t' = [] /\
      holds (con d') [] (line t') /\ clk (con d') = false
  end /\
  forall l rest, lines t = l ++ 10 :: rest -> 10 ∉ l -> C 68 ∉ l -> (length l < Z.to_nat n)%nat ->
    reads (Z.to_nat n) n env t k = Done (l ++ [10]) {| lines := rest; line := line t |}.
Proof.
  intros Hs Hh Hl Hlk Hn He Hu Hil k. split; [|intros l rest Hlin H10 H4 Hlen; by apply reads_line].
  assert (Ha : at_tty (locked_view (con d)) (locked_view (con d)) t).
  { split; try done; [by apply locked_screen|by apply locked_holds]. }
  pose proof (read_loop_ok (Z.to_nat n) n env (locked_view (con d)) _ t k Ha He ltac:(unfold k; cbn; by rewrite negb_involutive)) as L.
  assert (Hfin : forall l ok t' s', at_tty (locked_view (con d)) s' t' -> read_loop (Z.to_nat n) n env (locked_view (con d)) = Ret (l, ok) s' ->
    exists d', consoleread ip n env d = Ret (if ok then Z.of_nat (length l) else -1, l) d' /\ fs d' = f2 /\ settled (con d) (con d') t').
  { intros l ok t' s' [S1 H1 Hl1 Hk1 Hc1] R. destruct (con_release_ok (con d) s' Hn Hk1 Hc1) as (c & Rr & Hnc & Hi).
    unfold consoleread. rewrite (bind_eq _ _ _ _ _ (on_fs_ret _ d _ _ Hu)).
    rewrite (bind_eq _ _ _ _ _ (on_con_ret _ {| fs := f1; con := con d |} _ _ (con_acquire_ok (con d) Hlk))).
    rewrite (bind_eq _ _ _ _ _ (on_con_ret _ {| fs := f1; con := locked_view (con d) |} _ _ R)).
    rewrite (bind_eq _ _ _ _ _ (on_con_ret _ {| fs := f1; con := s' |} _ _ Rr)).
    rewrite (bind_eq _ _ _ _ _ (on_fs_ret (Fs.ilock (Some ip)) {| fs := f1; con := _ |} _ _ Hil)).
    eexists. split; [reflexivity|]. split; [done|]. split_and!; try done; [by apply unlocked_screen|by apply unlocked_holds]. }
  destruct (reads (Z.to_nat n) n env t k) as [l t'|l t'|t'].
  - destruct L as (s' & R & Ha'). by apply (Hfin l true t' s').
  - destruct L as (s' & R & Ha'). by apply (Hfin l false t' s').
  - destruct L as (s' & R & [S1 H1 Hl1 Hk1 Hc1] & E). eexists. split; [|split; [|split; [exact E|]]].
    + unfold consoleread. rewrite (bind_eq _ _ _ _ _ (on_fs_ret _ d _ _ Hu)).
      rewrite (bind_eq _ _ _ _ _ (on_con_ret _ {| fs := f1; con := con d |} _ _ (con_acquire_ok (con d) Hlk))).
      apply bind_asleep. exact (on_con_asleep _ {| fs := f1; con := locked_view (con d) |} _ _ R).
    + done.
    + rewrite E in H1. split; [|done]. by destruct H1.
Qed.

Module DevDemo.
Definition tty_inode (lk : bool) : Fs.inode :=
  {| Fs.idev := 1; Fs.inum := 5; Fs.iref := 1; Fs.ilocked := lk; Fs.ivalid := true; Fs.type := Fs.T_DEV; Fs.major := 1;
     Fs.minor := 1; Fs.nlink := 1; Fs.isize := 0; Fs.addrs := replicate 13 0 |}.
Definition fs_with (lk : bool) : Fs.fst :=
  {| Fs.lg := LogFacts.boot (fun _ => []) 60; Fs.sb := Fs.sb_of []; Fs.icache := [tty_inode lk]; Fs.icache_lk := false; Fs.console := [] |}.
Definition device : dev := {| fs := fs_with true; con := ConDemo.console |}.
End DevDemo.

Lemma consoleread_spec_witness :
  exists d', consoleread 0 10 [EvType [104; 105; 10; 33]] DevDemo.device = Ret (3, [104; 105; 10]) d' /\
    fs d' = DevDemo.fs_with true /\ settled ConDemo.console (con d') {| lines := []; line := [33] |}.
Proof.
  apply (proj1 (consoleread_spec DevDemo.device 0 10 [EvType [104; 105; 10; 33]] ConDemo.empty (DevDemo.fs_with false) (DevDemo.fs_with true)
    ConDemo.console_screen ConDemo.console_holds ltac:(apply not_elem_of_nil) eq_refl ConDemo.console_nest
    ltac:(apply Forall_cons; split; [apply ConDemo.bytes_of; reflexivity|apply Forall_nil_2]) eq_refl eq_refl)).
Defined.

(** ** Printing *)

(** A format without the directive that only user programs have. *)
Fixpoint no_chars (fmt : list Z) : bool :=
  match fmt with
  | [] => true
  | c :: fmt1 =>
      if negb (c =? 37) then no_chars fmt1
      else match fmt1 with [] => true | c :: fmt2 => negb (c =? 99) && no_chars fmt2 end
  end.

Section User.
Context (string_at : Z -> option (list Z)) (fd : Z).
Hypothesis Hstr : strings_ok string_at.

Definition wrote (l : list Z) (o : Printf.out) : Printf.out := o ++ ((fun b => (fd, b)) <$> l).

Lemma wrote_app l l' o : wrote l' (wrote l o) = wrote (l ++ l') o.
Proof using. unfold wrote. by rewrite fmap_app, app_assoc. Qed.

Lemma user_putc c o : byte_ok c -> Printf.putc fd c o = Ret tt (wrote [c] o).
Proof using. intros H. unfold Printf.putc, modify, wrote. cbn [fmap list_fmap]. by rewrite u8_small. Qed.

Lemma user_puts l : forall o, Forall byte_ok l -> for_each l (Printf.putc fd) o = Ret tt (wrote l o).
Proof using.
  induction l as [|c l IH]; intros o H; [unfold wrote; cbn; by rewrite app_nil_r|]. apply Forall_cons in H as [Hc H].
  cbn [for_each]. rewrite (bind_eq _ _ _ _ _ (user_putc c o Hc)), (IH _ H), wrote_app. done.
Qed.

Lemma digits_alphabet : alphabet Printf.digits.
Proof using.
  split; [done|]. split; [by apply (bool_decide_unpack _)|by apply (bool_decide_unpack (45 ∉ Printf.digits))].
Qed.

Lemma user_printint xx base sgn o l : base = 10 \/ base = 16 -> int_text Printf.digits base sgn xx = Some l ->
  Printf.printint fd xx base sgn o = Ret tt (wrote l o).
Proof using.
  intros Hb E. destruct (int_text_ok Printf.digits base sgn xx digits_alphabet Hb) as (l' & E' & _ & Hlen & Hin).
  assert (l' = l) as -> by congruence. unfold Printf.printint. unfold int_text in E. set (neg := sgn && (i32 xx <? 0)) in *.
  destruct (digit_loop 17 Printf.digits base _ []) as [buf|]; [|done]. cbn [fmap option_fmap option_map] in E. injection E as <-.
  rewrite length_app, length_rev in Hlen.
  assert (Er : rev (buf ++ if neg then [45] else []) = (if neg then [45] else []) ++ rev buf) by (rewrite rev_app_distr; by destruct neg).
  rewrite (proj2 (Nat.ltb_lt _ _)) by lia. rewrite andb_false_r, Er. apply user_puts. apply (text_bytes Printf.digits); [|done].
  repeat (apply Forall_cons; split; [unfold byte_ok; lia|]). apply Forall_nil_2.
Qed.

(** The loop with its flag, and the reference that looks ahead. *)
Lemma printf_loop_ok n : forall fmt args o l,
  (length fmt < n)%nat -> Forall byte_ok fmt -> no_chars fmt = true -> render Printf.digits string_at fmt args = Some l ->
  Printf.printf_loop string_at fd fmt false args o = Ret tt (wrote l o).
Proof using Hstr.
  induction n as [|n IH]; intros fmt args o l Hn Hb Hc Hl; [lia|].
  destruct fmt as [|c fmt1]; [injection Hl as <-; unfold wrote; cbn; by rewrite app_nil_r|].
  apply Forall_cons in Hb as [Hbc Hb]. cbn [length] in Hn. cbn [Printf.printf_loop render no_chars negb] in *.
  destruct (c =? 37) eqn:E37; cbn [negb] in *.
  2:{ apply fmap_Some in Hl as (l1 & Hl & ->). rewrite (bind_eq _ _ _ _ _ (user_putc c o Hbc)).
      rewrite (IH fmt1 args _ l1) by (done || lia). by rewrite wrote_app. }
  destruct fmt1 as [|d fmt2]; [injection Hl as <-; unfold wrote; cbn; by rewrite app_nil_r|].
  apply Forall_cons in Hb as [Hbd Hb]. cbn [length] in Hn. apply andb_true_iff in Hc as [Hd99%negb_true_iff Hc].
  cbn [Printf.printf_loop negb].
  assert (D : exists l1 l2 args', Printf.directive string_at fd d args o = Ret args' (wrote l1 o) /\ l = l1 ++ l2 /\
    render Printf.digits string_at fmt2 args' = Some l2); [|].
  2:{ destruct D as (l1 & l2 & args' & R & -> & Hr). rewrite (bind_eq _ _ _ _ _ R), (IH fmt2 args' _ l2) by (done || lia).
      by rewrite wrote_app. }
  unfold Printf.directive. rewrite Hd99.
  destruct (d =? 100) eqn:E1; [|destruct ((d =? 120) || (d =? 112)) eqn:E2; [|destruct (d =? 115) eqn:E3]]; cbn [orb] in Hl;
    rewrite ?E2 in Hl.
  - destruct args as [|a args]; [done|]. apply bind_Some in Hl as (t & Ht & (l1 & Hl & ->)%fmap_Some).
    exists t, l1, args. by rewrite (bind_eq _ _ _ _ _ (user_printint a 10 true o t ltac:(by left) Ht)).
  - destruct args as [|a args]; [done|]. apply bind_Some in Hl as (t & Ht & (l1 & Hl & ->)%fmap_Some).
    exists t, l1, args. by rewrite (bind_eq _ _ _ _ _ (user_printint a 16 false o t ltac:(by right) Ht)).
  - destruct args as [|a args]; [done|]. apply bind_Some in Hl as (t & Ht & (l1 & Hl & ->)%fmap_Some).
    exists t, l1, args. rewrite Ht. rewrite (bind_eq _ _ _ _ _ (user_puts t o ltac:(destruct (a =? 0); [injection Ht as <-; apply null_string_bytes|by eapply Hstr]))).
    done.
  - apply fmap_Some in Hl as (l1 & Hl & ->). destruct (d =? 37) eqn:E4.
    + apply Z.eqb_eq in E4 as ->. exists [37], l1, args. by rewrite (bind_eq _ _ _ _ _ (user_putc 37 o Hbd)).
    + exists [37; d], l1, args. rewrite (bind_eq _ _ _ _ _ (user_putc 37 o ltac:(unfold byte_ok; lia))).
      rewrite (bind_eq _ _ _ _ _ (user_putc d _ Hbd)), wrote_app. done.
Qed.
End User.

(** C17: Formatted printing: [cprintf] of the kernel and [printf] of user programs,
    one looking ahead and one with a flag of state, both print what the format
    and the arguments stand for, with small and capital digits; the text of
    an integer reads back as the integer, the smallest one included, and fits the
    buffer of sixteen characters. *)
Theorem printf_spec string_at fmt args :
  strings_ok string_at -> Forall byte_ok fmt ->
  (forall s l, screen_ok s -> clk s = false -> CliFacts.nest_ok (ccpu s) -> render hexdigits string_at fmt args = Some l ->
     exists s', cprintf string_at (Some fmt) args s = Ret tt s' /\ screen_ok s' /\ clk s' = false /\
       serial s' = serial s ++ (if uart s then l else [])) /\
  (forall fd l o, no_chars fmt = true -> render Printf.digits string_at fmt args = Some l ->
     Printf.printf string_at fd fmt args o = Ret tt (o ++ ((fun b => (fd, b)) <$> l))) /\
  (forall digits sign base xx, digits = hexdigits \/ digits = Printf.digits -> base = 10 \/ base = 16 ->
     exists l, int_text digits base sign xx = Some l /\ parse_int digits base l = Some (int_of sign xx) /\ (length l <= 11)%nat).
Proof.
  intros Hstr Hb. split; [|split].
  - intros s l Hs Hlk Hn Hl. unfold cprintf. erewrite (bind_eq get) by reflexivity. destruct (locking s).
    + rewrite (bind_eq _ _ _ _ _ (con_acquire_ok s Hlk)).
      destruct (format_ok string_at (S (length fmt)) Hstr fmt args (locked_view s) l ltac:(lia) Hb (locked_screen s Hs) Hl)
        as (s1 & R1 & Sh). pose proof (shown_ok _ _ _ (locked_screen s Hs) Sh) as S1.
      rewrite (bind_eq _ _ _ _ _ R1). destruct Sh as (c1 & p1 & -> & _).
      destruct (con_release_ok s (with_screen c1 p1 (with_serial (serial s ++ if uart s then l else []) (locked_view s))) Hn) as (c & R2 & _); [done..|].
      eexists. split; [exact R2|]. split; [by destruct S1|done].
    + destruct (format_ok string_at (S (length fmt)) Hstr fmt args s l ltac:(lia) Hb Hs Hl) as (s1 & R1 & Sh).
      pose proof (shown_ok _ _ _ Hs Sh) as S1. exists s1.
      unfold bind at 1, ret at 1. rewrite (bind_eq _ _ _ _ _ R1). split; [done|]. split; [done|].
      destruct Sh as (c1 & p1 & -> & _). done.
  - intros fd l o Hc Hl. by apply (printf_loop_ok string_at fd Hstr (S (length fmt)) fmt args o l ltac:(lia)).
  - intros digits sign base xx Hd Hbase.
    assert (Ha : alphabet digits) by (destruct Hd as [->| ->]; [apply hexdigits_alphabet|apply digits_alphabet]).
    destruct (int_text_ok digits base sign xx Ha Hbase) as (l & E & P & Hlen & _). by exists l.
Qed.

Lemma printf_spec_witness :
  exists s', cprintf (fun _ => None) (Some [37; 100; 32; 37; 120]) [4294967254; 255] ConDemo.console = Ret tt s' /\
    serial s' = [45; 52; 50; 32; 102; 102].
Proof.
  destruct (proj1 (printf_spec (fun _ => None) [37; 100; 32; 37; 120] [4294967254; 255] ltac:(done) ltac:(apply ConDemo.bytes_of; reflexivity))
    ConDemo.console [45; 52; 50; 32; 102; 102] ConDemo.console_screen eq_refl ConDemo.console_nest eq_refl) as (s' & R & _ & _ & E).
  exists s'. split; [exact R|exact E].
Defined.
