(* ===== verification/Programs.v ===== *)
(** * Small user programs

    [cat.c], [wc.c], [grep.c]'s [main], [ls.c], [echo.c], [ln.c], [rm.c],
    [mkdir.c], [kill.c], [zombie.c], [shutdown.c] and [init.c], against the
    system calls they make.  [Unix] is the calls; [UnixLaws] is what a program
    that reads files and writes text relies on. *)

From S2P Require Import Prelude CString Grep Printf.

Module Programs.

Definition text (s : string) : list Z := map (fun a => Z.of_nat (Ascii.nat_of_ascii a)) (String.list_ascii_of_string s).

Definition line (s : string) : string := String.append s (String (Ascii.ascii_of_nat 10) EmptyString).

(** [struct stat]. *)
Record stat := { st_type : Z; st_ino : Z; st_size : Z }.

(** The system calls, on the state of the system; strings without their NUL.
    [sys_exec] returns only when it fails. *)
Class Unix (W : Type) := {
  sys_open : list Z -> Z -> M W Z;
  sys_read : Z -> Z -> M W (Z * list Z);
  sys_write : Z -> list Z -> M W Z;
  sys_close : Z -> M W Z;
  sys_fstat : Z -> M W (Z * stat);
  sys_link : list Z -> list Z -> M W Z;
  sys_unlink : list Z -> M W Z;
  sys_mkdir : list Z -> M W Z;
  sys_mknod : list Z -> Z -> Z -> M W Z;
  sys_dup : Z -> M W Z;
  sys_kill : Z -> M W Z;
  sys_fork : M W Z;
  sys_wait : M W Z;
  sys_exec : list Z -> list (list Z) -> M W Z;
  sys_sleep : Z -> M W Z;
  sys_shutdown : M W Z }.

Section Code.
Context {W : Type} `{!Unix W}.

(** [printf] of the library: every character is a [write]; the pointers are the
    positions of the strings given. *)
Definition printf (fd : Z) (fmt : string) (strings : list (list Z)) (args : list Z) : M W unit :=
  let string_at a := if a <? 1 then None else strings !! Z.to_nat (a - 1) in
  match Printf.printf string_at fd (text fmt) args [] with
  | Ret _ out => for_each out (fun p : Z * Z => let! _ := sys_write p.1 [p.2] in ret tt)
  | _ => fault
  end.

(** A function that may leave the program says whether it goes on. *)

(** [for(i = 1; i < argc; i++)] of [cat], [wc] and [grep]: open, work, close. *)
Fixpoint open_each (cannot : string) (work : Z -> list Z -> M W bool) (args : list (list Z)) : M W unit :=
  match args with
  | [] => ret tt
  | a :: args' =>
      let! fd := sys_open a 0 in
      if fd <? 0 then printf 1 cannot [a] [1]
      else
        let! go := work fd a in
        if go then let! _ := sys_close fd in open_each cannot work args' else ret tt
  end.

(** [cat.c].  [args]: [argv] without the name of the program. *)
Fixpoint cat (fuel : nat) (fd : Z) : M W bool :=
  match fuel with
  | O => fun _ => NoFuel
  | S fuel' =>
      let! (n, l) := sys_read fd 512 in
      if n >? 0 then
        let! k := sys_write 1 l in
        if negb (k =? n) then printf 1 (line "cat: write error") [] [] ;;; ret false
        else cat fuel' fd
      else if n <? 0 then printf 1 (line "cat: read error") [] [] ;;; ret false
      else ret true
  end.
Definition cat_main (fuel : nat) (args : list (list Z)) : M W unit :=
  match args with
  | [] => let! _ := cat fuel 0 in ret tt
  | _ => open_each (line "cat: cannot open %s") (fun fd _ => cat fuel fd) args
  end.

(** [wc.c]: lines, words, characters and [inword]. *)
Record counts := { cl : Z; cw : Z; cc : Z; inword : bool }.
Definition wc_char (b : Z) (k : counts) : M W counts :=
  let! c := to_int (cc k + 1) in
  let! l := to_int (if b =? 10 then cl k + 1 else cl k) in
  if existsb (Z.eqb b) [32; 13; 9; 10; 11] then ret {| cl := l; cw := cw k; cc := c; inword := false |}
  else if negb (inword k) then
    let! w := to_int (cw k + 1) in ret {| cl := l; cw := w; cc := c; inword := true |}
  else ret {| cl := l; cw := cw k; cc := c; inword := inword k |}.
Fixpoint wc_chunk (bs : list Z) (k : counts) : M W counts :=
  match bs with [] => ret k | b :: bs' => let! k := wc_char b k in wc_chunk bs' k end.
Fixpoint wc_loop (fuel : nat) (fd : Z) (k : counts) : M W (Z * counts) :=
  match fuel with
  | O => fun _ => NoFuel
  | S fuel' =>
      let! (n, l) := sys_read fd 512 in
      if n >? 0 then let! k := wc_chunk l k in wc_loop fuel' fd k else ret (n, k)
  end.
Definition wc (fuel : nat) (fd : Z) (name : list Z) : M W bool :=
  let! (n, k) := wc_loop fuel fd {| cl := 0; cw := 0; cc := 0; inword := false |} in
  if n <? 0 then printf 1 (line "wc: read error") [] [] ;;; ret false
  else
    printf 1 (line "%d %d %d %s") [name] [cl k; cw k; cc k; 1] ;;;
    ret true.
Definition wc_main (fuel : nat) (args : list (list Z)) : M W unit :=
  match args with
  | [] => let! _ := wc fuel 0 [] in ret tt
  | _ => open_each (line "wc: cannot open %s") (wc fuel) args
  end.

(** [grep] of [grep.c] with its reads and writes, [kept] the bytes in front of
    the buffer; and [main]. *)
Fixpoint grep (fuel : nat) (pattern : list Z) (fd : Z) (kept : list Z) : M W unit :=
  match fuel with
  | O => fun _ => NoFuel
  | S fuel' =>
      let! (n, l) := sys_read fd (1024 - Z.of_nat (length kept) - 1) in
      if n >? 0 then
        let '(out, rest) := Grep.grep_chunk pattern kept l in
        for_each out (fun line => let! _ := sys_write 1 line in ret tt) ;;;
        grep fuel' pattern fd rest
      else ret tt
  end.
Definition grep_main (fuel : nat) (args : list (list Z)) : M W unit :=
  match args with
  | [] => printf 2 (line "usage: grep pattern [file ...]") [] []
  | [pattern] => grep fuel pattern 0 []
  | pattern :: files => open_each (line "grep: cannot open %s") (fun fd _ => grep fuel pattern fd [] ;;; ret true) files
  end.

(** [echo.c]. *)
Fixpoint echo_main (args : list (list Z)) : M W unit :=
  match args with
  | [] => ret tt
  | a :: args' =>
      printf 1 "%s%s" [a; match args' with [] => [10] | _ => [32] end] [1; 2] ;;;
      echo_main args'
  end.

(** [ln.c], [rm.c], [mkdir.c], [kill.c], [zombie.c], [shutdown.c]. *)
Definition ln_main (args : list (list Z)) : M W unit :=
  match args with
  | [old; new] =>
      let! r := sys_link old new in
      if r <? 0 then printf 2 (line "link %s %s: failed") [old; new] [1; 2] else ret tt
  | _ => printf 2 (line "Usage: ln old new") [] []
  end.

Fixpoint until_failure (call : list Z -> M W Z) (failed : string) (args : list (list Z)) : M W unit :=
  match args with
  | [] => ret tt
  | a :: args' =>
      let! r := call a in
      if r <? 0 then printf 2 failed [a] [1] else until_failure call failed args'
  end.
Definition rm_main (args : list (list Z)) : M W unit :=
  match args with
  | [] => printf 2 (line "Usage: rm files...") [] []
  | _ => until_failure sys_unlink (line "rm: %s failed to delete") args
  end.
Definition mkdir_main (args : list (list Z)) : M W unit :=
  match args with
  | [] => printf 2 (line "Usage: mkdir files...") [] []
  | _ => until_failure sys_mkdir (line "mkdir: %s failed to create") args
  end.

(** [atoi] on a string of its own. *)
Definition atoi (s : list Z) : M W Z :=
  from_opt (Ulib.atoi (S (length s)) (fun x => if x <? 0 then 0 else nth (Z.to_nat x) s 0) 0).
Definition kill_main (args : list (list Z)) : M W unit :=
  match args with
  | [] => printf 2 (line "usage: kill pid...") [] []
  | _ => for_each args (fun a => let! pid := atoi a in let! _ := sys_kill pid in ret tt)
  end.

Definition zombie_main : M W unit :=
  let! pid := sys_fork in
  if pid >? 0 then let! _ := sys_sleep 5 in ret tt else ret tt.

Definition shutdown_main : M W unit :=
  printf 1 (line "BYE~") [] [] ;;;
  let! _ := sys_shutdown in
  ret tt.

(** [ls.c]. *)
Definition DIRSIZ : nat := 14.
Definition T_DIR : Z := 1.
Definition T_FILE : Z := 2.

(** The characters after the last slash. *)
Fixpoint after_slash (path : list Z) : list Z :=
  match path with
  | [] => []
  | c :: path' => if existsb (Z.eqb 47) path' then after_slash path' else if c =? 47 then path' else path
  end.
Definition fmtname (path : list Z) : list Z :=
  let p := after_slash path in
  if (DIRSIZ <=? length p)%nat then p else p ++ replicate (DIRSIZ - length p) 32.

(** The string in an array: up to its NUL. *)
Fixpoint cstring (l : list Z) : list Z :=
  match l with [] => [] | c :: l' => if c =? 0 then [] else c :: cstring l' end.

(** [stat] of the library. *)
Definition stat_path (path : list Z) : M W (Z * stat) :=
  let! fd := sys_open path 0 in
  if fd <? 0 then ret (-1, {| st_type := 0; st_ino := 0; st_size := 0 |})
  else
    let! r := sys_fstat fd in
    let! _ := sys_close fd in
    ret r.

Definition ls_line (path : list Z) (st : stat) : M W unit :=
  printf 1 (line "%s %d %d %d") [fmtname path] [1; st_type st; st_ino st; st_size st].

Fixpoint ls_entries (fuel : nat) (fd : Z) (path : list Z) : M W unit :=
  match fuel with
  | O => fun _ => NoFuel
  | S fuel' =>
      let! (n, de) := sys_read fd 16 in
      if n =? 16 then
        (if (nth 0 de 0 =? 0) && (nth 1 de 0 =? 0) then ret tt
         else
           let buf := path ++ [47] ++ cstring (drop 2 de) in
           let! (r, st) := stat_path buf in
           if r <? 0 then printf 1 (line "ls: cannot stat %s") [buf] [1]
           else ls_line buf st) ;;;
        ls_entries fuel' fd path
      else ret tt
  end.

Definition ls (fuel : nat) (path : list Z) : M W unit :=
  let! fd := sys_open path 0 in
  if fd <? 0 then printf 2 (line "ls: cannot open %s") [path] [1]
  else
    let! (r, st) := sys_fstat fd in
    if r <? 0 then
      printf 2 (line "ls: cannot stat %s") [path] [1] ;;;
      let! _ := sys_close fd in ret tt
    else
      (if st_type st =? T_FILE then ls_line path st
       else if st_type st =? T_DIR then
         if (512 <? length path + 1 + DIRSIZ + 1)%nat then printf 1 (line "ls: path too long") [] []
         else ls_entries fuel fd path
       else ret tt) ;;;
      let! _ := sys_close fd in ret tt.
Definition ls_main (fuel : nat) (args : list (list Z)) : M W unit :=
  match args with
  | [] => ls fuel (text ".")
  | _ => for_each args (ls fuel)
  end.

(** [init.c].  The wait for the shell answers whether there is anything to
    wait for. *)
Definition O_RDWR : Z := 2.
Fixpoint reap (fuel : nat) (pid : Z) : M W unit :=
  match fuel with
  | O => fun _ => NoFuel
  | S fuel' =>
      let! wpid := sys_wait in
      if (wpid >=? 0) && negb (wpid =? pid) then printf 1 (line "zombie!") [] [] ;;; reap fuel' pid
      else ret tt
  end.
Fixpoint init_loop (rounds fuel : nat) : M W unit :=
  match rounds with
  | O => fun _ => NoFuel
  | S rounds' =>
      printf 1 (line "init: starting sh") [] [] ;;;
      let! pid := sys_fork in
      if pid <? 0 then printf 1 (line "init: fork failed") [] []
      else if pid =? 0 then
        let! _ := sys_exec (text "sh") [text "sh"] in
        printf 1 (line "init: exec sh failed") [] []
      else reap fuel pid ;;; init_loop rounds' fuel
  end.
Definition init_main (rounds fuel : nat) : M W unit :=
  let! fd := sys_open (text "console") O_RDWR in
  (if fd <? 0 then
     let! _ := sys_mknod (text "console") 1 1 in
     let! _ := sys_open (text "console") O_RDWR in ret tt
   else ret tt) ;;;
  let! _ := sys_dup 0 in
  let! _ := sys_dup 0 in
  init_loop rounds fuel.
End Code.

End Programs.
