(* ===== verification/ProgramsFacts.v ===== *)
(** * Small user programs: what they write

    The programs that read files are shown right against the laws of the system
    calls, for every way the reads may split a file; a small system of files
    and descriptors has the laws. *)

From S2P Require Import Prelude Console ConsoleFacts Printf ConsoleSpec Grep Programs.
Import Programs.

(** What a program that reads files and writes text relies on: what is left to
    read on a descriptor, the bytes written with their descriptor, and the
    files. *)
Class UnixLaws (W : Type) `{!Unix W} := {
  input : Z -> W -> option (list Z);
  output : W -> list (Z * Z);
  content : list Z -> W -> option (list Z);
  law_read : forall fd n w c, input fd w = Some c -> 0 < n -> exists l rest w',
    c = l ++ rest /\ Z.of_nat (length l) <= n /\ (l = [] -> rest = []) /\
    sys_read fd n w = Ret (Z.of_nat (length l), l) w' /\ input fd w' = Some rest /\ output w' = output w /\
    (forall p, content p w' = content p w);
  law_read_closed : forall fd n w, input fd w = None -> exists w',
    sys_read fd n w = Ret (-1, []) w' /\ output w' = output w /\ (forall p, content p w' = content p w);
  law_write : forall fd l w, fd = 1 \/ fd = 2 -> exists w',
    sys_write fd l w = Ret (Z.of_nat (length l)) w' /\ output w' = output w ++ map (pair fd) l /\
    (forall f, input f w' = input f w) /\ (forall p, content p w' = content p w);
  law_open : forall p w, exists fd w', sys_open p 0 w = Ret fd w' /\ output w' = output w /\
    (forall q, content q w' = content q w) /\
    match content p w with Some c => 0 <= fd /\ input fd w' = Some c | None => fd < 0 end;
  law_close : forall fd w, exists r w', sys_close fd w = Ret r w' /\ output w' = output w /\
    (forall p, content p w' = content p w) }.

(** ** The counts of wc *)

Definition space (b : Z) : bool := existsb (Z.eqb b) [32; 13; 9; 10; 11].
(** The pieces between spaces, empty ones included. *)
Fixpoint fields (l : list Z) : list (list Z) :=
  match l with
  | [] => [[]]
  | b :: l' => if space b then [] :: fields l' else match fields l' with f :: fs => (b :: f) :: fs | [] => [[b]] end
  end.
Definition nonempty (fs : list (list Z)) : Z := Z.of_nat (length (filter (fun f => f <> []) fs)).
Definition words (l : list Z) : Z := nonempty (fields l).
Definition newlines (l : list Z) : Z := Z.of_nat (length (filter (fun b => b = 10) l)).

(** The words that start in [l], inside a word or not. *)
Definition starting (inside : bool) (l : list Z) : Z := nonempty (if inside then tail (fields l) else fields l).

Lemma fields_cons l : exists f fs, fields l = f :: fs.
Proof. destruct l as [|b l]; [by exists [], []|]. cbn [fields]. destruct (space b); [by exists [], (fields l)|]. destruct (fields l) as [|f fs]; [by exists [b], []|by exists (b :: f), fs]. Qed.

Lemma starting_cons i b l : starting i (b :: l) =
  if space b then starting false l else (if i then 0 else 1) + starting true l.
Proof.
  unfold starting. cbn [fields]. destruct (space b).
  - destruct i; [done|]. unfold nonempty. by rewrite filter_cons_False by naive_solver.
  - destruct (fields_cons l) as (f & fs & ->). destruct i; [done|]. cbn [tail]. unfold nonempty. rewrite filter_cons_True by done. cbn [length]. lia.
Qed.

Lemma starting_nil i : starting i [] = 0.
Proof. by destruct i. Qed.

Lemma newlines_cons b l : newlines (b :: l) = (if b =? 10 then 1 else 0) + newlines l.
Proof.
  unfold newlines. destruct (Z.eqb_spec b 10) as [->|Hne]; [rewrite filter_cons_True by done; cbn [length]; lia|by rewrite filter_cons_False].
Qed.

Lemma starting_bound i l : 0 <= starting i l <= Z.of_nat (length l) /\ 0 <= newlines l <= Z.of_nat (length l).
Proof.
  revert i. induction l as [|b l IH]; intros i; [by destruct i|]. rewrite starting_cons, newlines_cons. cbn [length].
  pose proof (IH false). pose proof (IH true). destruct (space b), i, (b =? 10); lia.
Qed.

Section Laws.
Context {W : Type} `{!Unix W, !UnixLaws W}.

(** [o] was written and no file changed. *)
Definition said (o : list (Z * Z)) (w w' : W) : Prop :=
  output w' = output w ++ o /\ forall p, content p w' = content p w.

Lemma said_nil w w' : output w' = output w -> (forall p, content p w' = content p w) -> said [] w w'.
Proof. intros E C. split; [by rewrite app_nil_r|done]. Qed.
Lemma said_trans o o' w w1 w2 : said o w w1 -> said o' w1 w2 -> said (o ++ o') w w2.
Proof. intros [E1 C1] [E2 C2]. split; [by rewrite E2, E1, app_assoc|]. intros p. by rewrite C2, C1. Qed.

(** ** Printing *)

Definition put (fd : Z) (l : list Z) : list (Z * Z) := map (pair fd) l.
Lemma put_app fd l l' : put fd (l ++ l') = put fd l ++ put fd l'.
Proof. apply map_app. Qed.

Lemma writes_ok fd l : fd = 1 \/ fd = 2 -> forall w, exists w',
  for_each (put fd l) (fun p : Z * Z => let! _ := sys_write p.1 [p.2] in ret tt) w = Ret tt w' /\ said (put fd l) w w' /\
  forall f, input f w' = input f w.
Proof.
  intros Hfd. induction l as [|b l IH]; intros w; [exists w; split; [done|]; split; [by apply said_nil|done]|].
  destruct (law_write fd [b] w Hfd) as (w1 & R1 & O1 & I1 & C1). destruct (IH w1) as (w2 & R2 & S2 & I2). exists w2. split; [|split].
  - cbn [put map for_each fst snd]. erewrite (bind_eq (bind _ _)) by (rewrite (bind_eq _ _ _ _ _ R1); reflexivity). exact R2.
  - change (put fd (b :: l)) with (put fd [b] ++ put fd l). eapply said_trans; [split; [exact O1|exact C1]|exact S2].
  - intros f. by rewrite I2, I1.
Qed.

(** The reference text of a format with strings. *)
Definition string_at (strings : list (list Z)) (a : Z) : option (list Z) := if a <? 1 then None else strings !! Z.to_nat (a - 1).
Definition meant (fmt : string) (strings : list (list Z)) (args : list Z) : option (list Z) :=
  render Printf.digits (string_at strings) (text fmt) args.

Definition ascii_text (fmt : string) : bool := forallb (fun b => (0 <=? b) && (b <? 256)) (text fmt) && no_chars (text fmt).

Lemma printf_ok fd fmt strings args l w : fd = 1 \/ fd = 2 -> ascii_text fmt = true -> Forall (Forall byte_ok) strings ->
  meant fmt strings args = Some l -> exists w', printf fd fmt strings args w = Ret tt w' /\ said (put fd l) w w' /\
  forall f, input f w' = input f w.
Proof.
  intros Hfd [Hb Hc]%andb_true_iff Hs Hl.
  assert (Hstr : strings_ok (string_at strings)).
  { intros a s E. unfold string_at in E. case_match; [done|]. by eapply Forall_lookup_1. }
  assert (Hb' : Forall byte_ok (text fmt)).
  { rewrite forallb_forall in Hb. apply Forall_forall. intros b Hbin. apply list_elem_of_In in Hbin. apply Hb in Hbin. unfold byte_ok. bools. lia. }
  pose proof (printf_loop_ok (string_at strings) fd Hstr (S (length (text fmt))) (text fmt) args [] l ltac:(lia) Hb' Hc Hl) as R.
  unfold printf, Printf.printf. fold (string_at strings). rewrite R. unfold wrote. cbn [app]. apply (writes_ok fd l Hfd).
Qed.

(** ** Opening each file *)

(** What is said about each file, up to the first that is missing. *)
Fixpoint each_text (missing : list Z -> list Z) (T : list Z -> list Z -> list Z) (w : W) (args : list (list Z)) : list Z :=
  match args with
  | [] => []
  | a :: args' =>
      match content a w with
      | Some c => T a c ++ each_text missing T w args'
      | None => missing a
      end
  end.

Lemma each_text_ext missing T w w' args : (forall p, content p w' = content p w) -> each_text missing T w' args = each_text missing T w args.
Proof. intros E. induction args as [|a args IH]; [done|]. cbn. by rewrite E, IH. Qed.

Lemma open_each_ok cannot work missing T args : ascii_text cannot = true -> Forall (Forall byte_ok) args ->
  (forall a, meant cannot [a] [1] = Some (missing a)) -> forall w,
  (forall a c w1 fd, a ∈ args -> content a w = Some c -> input fd w1 = Some c ->
     exists w', work fd a w1 = Ret true w' /\ said (put 1 (T a c)) w1 w') ->
  exists w', open_each cannot work args w = Ret tt w' /\ said (put 1 (each_text missing T w args)) w w'.
Proof.
  intros Hc Ha Hm. induction Ha as [|a args Hba _ IH]; intros w Hw; cbn [open_each each_text].
  { exists w. split; [done|]. by apply said_nil. }
  destruct (law_open a w) as (fd & w1 & R1 & O1 & C1 & Hfd). rewrite (bind_eq _ _ _ _ _ R1).
  pose proof (said_nil w w1 O1 C1) as S1. destruct (content a w) as [c|] eqn:Ec.
  - destruct Hfd as [Hfd Hi]. rewrite (proj2 (Z.ltb_ge fd 0) Hfd).
    destruct (Hw a c w1 fd) as (w2 & R2 & S2); [by left|done|done|]. rewrite (bind_eq _ _ _ _ _ R2).
    destruct (law_close fd w2) as (r & w3 & R3 & O3 & C3). rewrite (bind_eq _ _ _ _ _ R3).
    pose proof (said_trans _ _ _ _ _ (said_trans _ _ _ _ _ S1 S2) (said_nil w2 w3 O3 C3)) as S3. cbn [app] in S3. rewrite app_nil_r in S3.
    destruct (IH w3) as (w4 & R4 & S4).
    { intros b d w5 f Hb Hd. rewrite (proj2 S3) in Hd. apply Hw; [by right|done]. }
    exists w4. split; [exact R4|]. rewrite put_app. eapply said_trans; [exact S3|]. by rewrite (each_text_ext _ _ _ _ _ (proj2 S3)) in S4.
  - rewrite (proj2 (Z.ltb_lt fd 0) Hfd).
    destruct (printf_ok 1 cannot [a] [1] (missing a) w1 (or_introl eq_refl) Hc ltac:(by repeat constructor) (Hm a)) as (w2 & R2 & S2 & _).
    exists w2. split; [exact R2|]. exact (said_trans _ _ _ _ _ S1 S2).
Qed.

(** ** cat *)

Lemma cat_ok fd n : forall c w, (length c <= n)%nat -> input fd w = Some c ->
  exists w', cat (S n) fd w = Ret true w' /\ said (put 1 c) w w'.
Proof.
  induction n as [|n IH]; intros c w Hn Hi; cbn [cat];
    destruct (law_read fd 512 w c Hi ltac:(lia)) as (l & rest & w1 & -> & Hl & Hend & R1 & I1 & O1 & C1); rewrite (bind_eq _ _ _ _ _ R1);
    pose proof (said_nil w w1 O1 C1) as S1; (destruct l as [|b l]; [rewrite (Hend eq_refl); by exists w1|]); rewrite length_app in Hn; cbn [length] in Hn; try lia.
  destruct (Z.gtb_spec (Z.of_nat (length (b :: l))) 0) as [_|?]; [|cbn [length] in *; lia].
  destruct (law_write 1 (b :: l) w1 (or_introl eq_refl)) as (w2 & R2 & O2 & I2 & C2). rewrite (bind_eq _ _ _ _ _ R2), Z.eqb_refl. cbn [negb].
  destruct (IH rest w2) as (w3 & R3 & S3); [lia|by rewrite I2|]. exists w3. split; [exact R3|].
  rewrite put_app. eapply said_trans; [|exact S3]. exact (said_trans [] _ _ _ _ S1 (conj O2 C2)).
Qed.

Definition cat_missing (a : list Z) : list Z := text "cat: cannot open " ++ a ++ [10].
(** What [cat] writes: the files one after another, up to one that cannot be
    opened, or else its input. *)
Definition cat_text (w : W) (args : list (list Z)) : list Z :=
  match args with
  | [] => match input 0 w with Some c => c | None => text (line "cat: read error") end
  | _ => each_text cat_missing (fun _ c => c) w args
  end.

Lemma cat_fuel fuel (c : list Z) : (length c < fuel)%nat -> exists n, fuel = S n /\ (length c <= n)%nat.
Proof. destruct fuel as [|n]; [lia|]. exists n. split; [done|lia]. Qed.

(** [cat] copies files, and its input when it has no arguments, byte for byte
    to its output, however the reads split them; it stops at the first file that
    cannot be opened, and says so. *)
Theorem cat_spec w args fuel : Forall (Forall byte_ok) args ->
  (forall a c, a ∈ args -> content a w = Some c -> (length c < fuel)%nat) -> (forall c, input 0 w = Some c -> (length c < fuel)%nat) ->
  (0 < fuel)%nat ->
  exists w', cat_main fuel args w = Ret tt w' /\ said (put 1 (cat_text w args)) w w'.
Proof.
  intros Ha Hf H0 Hpos. destruct args as [|a args].
  - unfold cat_main, cat_text. destruct (input 0 w) as [c|] eqn:Ei.
    + destruct (cat_fuel fuel c (H0 c eq_refl)) as (n & -> & Hn). destruct (cat_ok 0 n c w Hn Ei) as (w' & R & S).
      exists w'. split; [by rewrite (bind_eq _ _ _ _ _ R)|done].
    + destruct fuel as [|n]; [lia|]. cbn [cat]. destruct (law_read_closed 0 512 w Ei) as (w1 & R1 & O1 & C1).
      destruct (printf_ok 1 (line "cat: read error") [] [] _ w1 (or_introl eq_refl) eq_refl ltac:(constructor) eq_refl) as (w2 & R2 & S2 & _).
      exists w2. split; [|exact (said_trans [] _ _ _ _ (said_nil w w1 O1 C1) S2)].
      erewrite bind_eq; [reflexivity|]. rewrite (bind_eq _ _ _ _ _ R1). cbn. by rewrite (bind_eq _ _ _ _ _ R2).
  - apply (open_each_ok _ _ cat_missing (fun _ c => c)); [reflexivity|done| |].
    + intros b. unfold cat_missing. cbn. by rewrite <- ?app_assoc.
    + intros b c w1 fd Hb Hc Hi. destruct (cat_fuel fuel c (Hf b c Hb Hc)) as (n & -> & Hn). by apply cat_ok.
Qed.

(** ** wc *)

Definition small (k : counts) (n : nat) : Prop :=
  0 <= cl k <= cc k /\ 0 <= cw k <= cc k /\ cc k + Z.of_nat n <= 2147483647.

Definition counted (l : list Z) (k : counts) : counts :=
  {| cl := cl k + newlines l; cw := cw k + starting (inword k) l; cc := cc k + Z.of_nat (length l);
     inword := foldl (fun _ b => negb (space b)) (inword k) l |}.

Lemma counted_nil k : counted [] k = k.
Proof.
  destruct k as [x y z i]. unfold counted. rewrite starting_nil. cbn [cl cw cc inword foldl length]. change (newlines []) with 0.
  by rewrite !Z.add_0_r.
Qed.

Lemma counted_app l l' k : counted l' (counted l k) = counted (l ++ l') k.
Proof.
  revert k. induction l as [|b l IH]; intros k.
  - by rewrite counted_nil.
  - assert (E : forall m, counted (b :: m) k = counted m {| cl := cl k + (if b =? 10 then 1 else 0);
      cw := cw k + (if space b then 0 else if inword k then 0 else 1); cc := cc k + 1; inword := negb (space b) |}).
    { intros m. unfold counted. cbn [cl cw cc inword foldl length]. rewrite newlines_cons, starting_cons.
      f_equal; [lia|destruct (space b), (inword k); cbn [negb]; lia|lia]. }
    cbn [app]. by rewrite !E, IH.
Qed.

Lemma wc_chunk_ok l : forall k n (w : W), small k (length l + n) -> wc_chunk l k w = Ret (counted l k) w /\ small (counted l k) n.
Proof.
  induction l as [|b l IH]; intros k n w (H1 & H2 & H3); cbn [wc_chunk].
  - rewrite counted_nil. split; [done|]. split_and!; try lia; cbn in H3; lia.
  - cbn [length] in H3. set (k1 := counted [b] k).
    assert (Hs : 0 <= cl k1 <= cc k1 /\ 0 <= cw k1 <= cc k1 /\ cc k1 = cc k + 1).
    { unfold k1, counted. cbn [cl cw cc length]. pose proof (starting_bound (inword k) [b]). cbn [length] in *. lia. }
    assert (R : wc_char b k w = Ret k1 w).
    { unfold wc_char. assert (To : forall z, 0 <= z <= cc k + 1 -> @to_int W z w = Ret z w).
      { intros z Hz. unfold to_int, int_ok. rewrite (proj2 (Z.leb_le _ _)), (proj2 (Z.leb_le _ _)) by lia. done. }
      rewrite (bind_eq _ _ _ _ _ (To (cc k + 1) ltac:(lia))). rewrite (bind_eq _ _ _ _ _ (To (if b =? 10 then cl k + 1 else cl k) ltac:(case_match; lia))).
      fold (space b). unfold k1, counted. rewrite newlines_cons, starting_cons, !starting_nil. cbn [foldl length]. change (newlines []) with 0.
      replace (if space b then 0 else (if inword k then 0 else 1) + 0) with (if space b then 0 else if inword k then 0 else 1) by (repeat case_match; done).
      change (Z.of_nat 1) with 1. destruct (space b), (inword k), (b =? 10); cbn [negb]; rewrite ?Z.add_0_r; try done;
        by rewrite (bind_eq _ _ _ _ _ (To (cw k + 1) ltac:(lia))). }
    rewrite (bind_eq _ _ _ _ _ R). destruct (IH k1 n w) as [R1 S1]; [split_and!; lia|]. rewrite R1. unfold k1 in *. rewrite counted_app in *. done.
Qed.

Lemma wc_loop_ok fd n : forall c k w, (length c <= n)%nat -> input fd w = Some c -> small k (length c) ->
  exists w', wc_loop (S n) fd k w = Ret (0, counted c k) w' /\ said [] w w'.
Proof.
  induction n as [|n IH]; intros c k w Hn Hi Hk; cbn [wc_loop];
    destruct (law_read fd 512 w c Hi ltac:(lia)) as (l & rest & w1 & -> & Hl & Hend & R1 & I1 & O1 & C1); rewrite (bind_eq _ _ _ _ _ R1);
    pose proof (said_nil w w1 O1 C1) as S1;
    (destruct l as [|b l]; [rewrite (Hend eq_refl) in *; exists w1; split; [by rewrite counted_nil|done]|]);
    rewrite length_app in Hn; cbn [length] in Hn; try lia.
  destruct (Z.gtb_spec (Z.of_nat (length (b :: l))) 0) as [_|?]; [|cbn [length] in *; lia].
  rewrite length_app in Hk. destruct (wc_chunk_ok (b :: l) k (length rest) w1 Hk) as [R2 S2]. rewrite (bind_eq _ _ _ _ _ R2).
  destruct (IH rest (counted (b :: l) k) w1) as (w3 & R3 & S3); [lia|done|done|]. exists w3. split; [rewrite <- counted_app; exact R3|].
  exact (said_trans [] [] _ _ _ S1 S3).
Qed.

Definition dec (z : Z) : list Z := default [] (int_text Printf.digits 10 true z).
Definition wc_line (name c : list Z) : list Z :=
  dec (newlines c) ++ [32] ++ dec (words c) ++ [32] ++ dec (Z.of_nat (length c)) ++ [32] ++ name ++ [10].

Lemma meant_wc name x y z : meant (line "%d %d %d %s") [name] [x; y; z; 1] = Some (dec x ++ [32] ++ dec y ++ [32] ++ dec z ++ [32] ++ name ++ [10]).
Proof.
  assert (D : forall v, int_text Printf.digits 10 true v = Some (dec v)).
  { intros v. unfold dec. destruct (int_text_ok Printf.digits 10 true v digits_alphabet (or_introl eq_refl)) as (l & E & _). by rewrite E. }
  unfold meant. set (f := text _). vm_compute in f. subst f. cbn -[int_text Printf.digits]. by rewrite !D.
Qed.

Lemma wc_ok fd name c w n : Forall byte_ok name -> (length c <= n)%nat -> Z.of_nat (length c) <= 2147483647 -> input fd w = Some c ->
  exists w', wc (S n) fd name w = Ret true w' /\ said (put 1 (wc_line name c)) w w'.
Proof.
  intros Hb Hn Hc Hi. unfold wc. destruct (wc_loop_ok fd n c {| cl := 0; cw := 0; cc := 0; inword := false |} w Hn Hi) as (w1 & R1 & S1).
  { split_and!; cbn; lia. }
  rewrite (bind_eq _ _ _ _ _ R1). unfold counted. cbn [Z.ltb Z.compare cl cw cc inword]. rewrite !Z.add_0_l.
  destruct (printf_ok 1 (line "%d %d %d %s") [name] _ (wc_line name c) w1 (or_introl eq_refl) eq_refl ltac:(by repeat constructor) (meant_wc name _ _ _))
    as (w2 & R2 & S2 & _). rewrite (bind_eq _ _ _ _ _ R2). exists w2. split; [done|]. exact (said_trans [] _ _ _ _ S1 S2).
Qed.

Definition wc_missing (a : list Z) : list Z := text "wc: cannot open " ++ a ++ [10].
Definition wc_text (w : W) (args : list (list Z)) : list Z :=
  match args with
  | [] => match input 0 w with Some c => wc_line [] c | None => text (line "wc: read error") end
  | _ => each_text wc_missing wc_line w args
  end.

(** [wc] counts the newlines, the maximal runs of characters that are not spaces
    and the characters of each file, also when a word is split over two reads. *)
Theorem wc_spec w args fuel : Forall (Forall byte_ok) args ->
  (forall a c, a ∈ args -> content a w = Some c -> (length c < fuel)%nat) -> (forall c, input 0 w = Some c -> (length c < fuel)%nat) ->
  (0 < fuel)%nat -> Z.of_nat fuel <= 2147483647 ->
  exists w', wc_main fuel args w = Ret tt w' /\ said (put 1 (wc_text w args)) w w'.
Proof.
  intros Ha Hf H0 Hpos Hmax. destruct args as [|a args].
  - unfold wc_main, wc_text. destruct (input 0 w) as [c|] eqn:Ei.
    + destruct (cat_fuel fuel c (H0 c eq_refl)) as (n & -> & Hn). destruct (wc_ok 0 [] c w n ltac:(constructor) Hn ltac:(lia) Ei) as (w' & R & S).
      exists w'. split; [by rewrite (bind_eq _ _ _ _ _ R)|done].
    + destruct fuel as [|n]; [lia|]. destruct (law_read_closed 0 512 w Ei) as (w1 & R1 & O1 & C1).
      destruct (printf_ok 1 (line "wc: read error") [] [] _ w1 (or_introl eq_refl) eq_refl ltac:(constructor) eq_refl) as (w2 & R2 & S2 & _).
      exists w2. split; [|exact (said_trans [] _ _ _ _ (said_nil w w1 O1 C1) S2)].
      unfold wc. cbn [wc_loop]. erewrite bind_eq; [reflexivity|]. erewrite bind_eq; [|rewrite (bind_eq _ _ _ _ _ R1); reflexivity].
      cbn. by rewrite (bind_eq _ _ _ _ _ R2).
  - apply (open_each_ok _ _ wc_missing wc_line); [reflexivity|done| |].
    + intros b. unfold wc_missing. cbn. by rewrite <- ?app_assoc.
    + intros b c w1 fd Hb Hc Hi. pose proof (Hf b c Hb Hc). destruct (cat_fuel fuel c (Hf b c Hb Hc)) as (n & -> & Hn). apply wc_ok; [|done|lia|done].
      by eapply Forall_forall in Hb.
Qed.

(** ** echo *)

Fixpoint joined (args : list (list Z)) : list Z :=
  match args with [] => [] | [a] => a ++ [10] | a :: args' => a ++ [32] ++ joined args' end.

Theorem echo_ok args : Forall (Forall byte_ok) args -> forall w : W,
  exists w', echo_main args w = Ret tt w' /\ said (put 1 (joined args)) w w'.
Proof.
  induction 1 as [|a args Ha Hargs IH]; intros w; cbn [echo_main joined].
  - exists w. split; [done|]. by apply said_nil.
  - set (sep := match args with [] => [10] | _ => [32] end).
    destruct (printf_ok 1 "%s%s" [a; sep] [1; 2] (a ++ sep) w (or_introl eq_refl) eq_refl) as (w1 & R1 & S1 & _).
    { repeat constructor; [done|]. unfold sep. destruct args; repeat constructor; unfold byte_ok; lia. }
    { unfold meant. set (f := text _). vm_compute in f. subst f. cbn. change ([a; sep] !! Z.to_nat (1 - 1)) with (Some a). change ([a; sep] !! Z.to_nat (2 - 1)) with (Some sep). cbn. by rewrite app_nil_r. }
    rewrite (bind_eq _ _ _ _ _ R1). destruct (IH w1) as (w2 & R2 & S2). exists w2. split; [exact R2|].
    assert (E : match args with [] => a ++ [10] | _ :: _ => a ++ [32] ++ joined args end = (a ++ sep) ++ joined args).
    { unfold sep. destruct args; [by rewrite app_nil_r|by rewrite app_assoc]. }
    rewrite E, put_app. exact (said_trans _ _ _ _ _ S1 S2).
Qed.
End Laws.

(** ** ls *)

(** The name [ls] prints: the last component of the path, filled up with blanks
    to the length of a directory entry. *)
Lemma fmtname_ok dir name : 47 ∉ name ->
  fmtname (dir ++ 47 :: name) = name ++ replicate (DIRSIZ - length name) 32 /\ fmtname name = name ++ replicate (DIRSIZ - length name) 32.
Proof.
  intros Hn. assert (Hno : existsb (Z.eqb 47) name = false).
  { apply not_true_iff_false. intros (x & Hx & E)%existsb_exists. apply Z.eqb_eq in E as <-. by apply Hn, list_elem_of_In. }
  assert (E1 : after_slash name = name).
  { destruct name as [|c name]; [done|]. cbn [existsb] in Hno. apply orb_false_iff in Hno as [Hc Hno]. cbn [after_slash]. rewrite Hno.
    rewrite Z.eqb_sym in Hc. by rewrite Hc. }
  assert (E2 : after_slash (dir ++ 47 :: name) = name).
  { induction dir as [|c dir IH]; cbn [app after_slash]; [by rewrite Hno|].
    assert (E : existsb (Z.eqb 47) (dir ++ 47 :: name) = true) by (apply existsb_exists; exists 47; split; [apply in_or_app; right; by left|done]).
    by rewrite E. }
  unfold fmtname. rewrite E1, E2. split; (destruct (Nat.leb_spec DIRSIZ (length name)); [|done]);
    (replace (DIRSIZ - length name)%nat with O by lia); by rewrite app_nil_r.
Qed.

(** [kill] with something that is no number calls [kill(0)]. *)
Lemma kill_word {W} `{!Unix W} (w : W) : kill_main [text "init"] w = (let! _ := sys_kill 0 in ret tt) w.
Proof.
  assert (E : atoi (text "init") w = Ret 0 w) by (vm_compute; reflexivity).
  unfold kill_main. cbn [for_each]. unfold bind at 1. rewrite (bind_eq _ _ _ _ _ E). unfold bind. by destruct (sys_kill 0 w).
Qed.

(** ** A system *)

(** Files, what is left on each descriptor, the next descriptor, and what was
    written; a read gives three bytes at most. *)
Record host := { h_files : gmap (list Z) (list Z); h_fds : gmap Z (list Z); h_next : nat; h_out : list (Z * Z) }.
Definition h_fail : M host Z := ret (-1).

#[global] Instance host_unix : Unix host := {|
  sys_open p _ := fun w =>
    match h_files w !! p with
    | Some c => Ret (Z.of_nat (h_next w)) {| h_files := h_files w; h_fds := <[Z.of_nat (h_next w) := c]> (h_fds w); h_next := S (h_next w); h_out := h_out w |}
    | None => Ret (-1) w
    end;
  sys_read fd n := fun w =>
    match h_fds w !! fd with
    | Some c =>
        let k := Z.to_nat (Z.min n 3) in
        Ret (Z.of_nat (length (take k c)), take k c)
          {| h_files := h_files w; h_fds := <[fd := drop k c]> (h_fds w); h_next := h_next w; h_out := h_out w |}
    | None => Ret (-1, []) w
    end;
  sys_write fd l := fun w =>
    Ret (Z.of_nat (length l)) {| h_files := h_files w; h_fds := h_fds w; h_next := h_next w; h_out := h_out w ++ map (pair fd) l |};
  sys_close fd := fun w => Ret 0 {| h_files := h_files w; h_fds := delete fd (h_fds w); h_next := h_next w; h_out := h_out w |};
  sys_fstat fd := ret (-1, {| st_type := 0; st_ino := 0; st_size := 0 |});
  sys_link _ _ := h_fail; sys_unlink _ := h_fail; sys_mkdir _ := h_fail; sys_mknod _ _ _ := h_fail; sys_dup _ := h_fail;
  sys_kill _ := h_fail; sys_fork := h_fail; sys_wait := h_fail; sys_exec _ _ := h_fail; sys_sleep _ := h_fail; sys_shutdown := h_fail |}.

#[global, refine] Instance host_laws : UnixLaws host := {|
  input fd w := h_fds w !! fd; output := h_out; content p w := h_files w !! p |}.
Proof.
  - intros fd n w c H Hn. exists (take (Z.to_nat (Z.min n 3)) c), (drop (Z.to_nat (Z.min n 3)) c). cbn. rewrite H. eexists.
    split; [by rewrite take_drop|]. split; [rewrite length_take; lia|]. split.
    + intros E. destruct c as [|b c]; [by rewrite drop_nil|]. destruct (Z.to_nat (Z.min n 3)) eqn:Ek; [lia|done].
    + split; [reflexivity|]. cbn. split; [apply lookup_insert_eq|done].
  - intros fd n w H. cbn. rewrite H. by exists w.
  - intros fd l w _. by eexists.
  - intros p w. cbn. destruct (h_files w !! p) as [c|]; eexists _, _; (split; [reflexivity|]); (split; [done|]); (split; [done|]).
    + split; [lia|]. apply lookup_insert_eq.
    + lia.
  - intros fd w. eexists _, _. split; [reflexivity|done].
Defined.

Definition host1 : host := {| h_files := {[text "a" := text "one two"; text "b" := [10]]}; h_fds := ∅; h_next := 3; h_out := [] |}.

Lemma cat_spec_witness : exists w', cat_main 10 [text "a"; text "b"; text "c"; text "a"] host1 = Ret tt w' /\
  h_out w' = map (pair 1) (text "one two" ++ [10] ++ text (line "cat: cannot open c")).
Proof.
  destruct (cat_spec host1 [text "a"; text "b"; text "c"; text "a"] 10) as (w' & R & O & _).
  - repeat constructor; unfold byte_ok; cbn; lia.
  - intros a c _ H. cbn in H. unfold host1 in H. cbn in H. apply lookup_insert_Some in H as [[_ <-]|[_ H]]; [cbn; lia|].
    apply lookup_insert_Some in H as [[_ <-]|[_ H]]; [cbn; lia|]. by rewrite lookup_empty in H.
  - intros c H. cbn in H. by rewrite lookup_empty in H.
  - lia.
  - exists w'. split; [exact R|]. etransitivity; [exact O|]. vm_compute. reflexivity.
Defined.

Lemma wc_spec_witness : exists w', wc_main 10 [text "a"; text "b"] host1 = Ret tt w' /\
  h_out w' = map (pair 1) (text (line "0 2 7 a") ++ text (line "1 0 1 b")).
Proof.
  destruct (wc_spec host1 [text "a"; text "b"] 10) as (w' & R & O & _).
  - repeat constructor; unfold byte_ok; cbn; lia.
  - intros a c _ H. cbn in H. unfold host1 in H. cbn in H. apply lookup_insert_Some in H as [[_ <-]|[_ H]]; [cbn; lia|].
    apply lookup_insert_Some in H as [[_ <-]|[_ H]]; [cbn; lia|]. by rewrite lookup_empty in H.
  - intros c H. cbn in H. by rewrite lookup_empty in H.
  - lia.
  - lia.
  - exists w'. split; [exact R|]. etransitivity; [exact O|]. vm_compute. reflexivity.
Defined.
