(* ===== verification/FsTx.v ===== *)
(** * Transactions seen from the file system

    What the file system may assume of the log and the block cache: a block
    has one current value, read through a held buffer; a held buffer written
    and logged changes exactly that value; the log has room for the blocks it
    was given.  [held] is the cache with some buffers held, [tx] adds an open
    transaction with the blocks [F] paid for and room for [k] more. *)

From S2P Require Import Prelude Locks Bio Log LogFacts Fs.
Import Bio BioFacts Log LogFacts Fs.

(** The current value of a block. *)
Definition val (s : fst) (n : Z) : list Z := view (io (lg s)) n.

(** What no operation on blocks changes: the log's place, the size and content
    of the disk, and everything above the log. *)
Record keeps (s s' : fst) : Prop := {
  kp_fs : s' = with_lg (lg s') s;
  kp_start : start (lg s') = start (lg s);
  kp_lsize : lsize (lg s') = lsize (lg s);
  kp_size : disksize (io (lg s')) = disksize (io (lg s));
  kp_out : outstanding (lg s') = outstanding (lg s);
  kp_disk : disk (io (lg s')) = disk (io (lg s)) }.

(** Only buffers were fetched or given back. *)
Record same (s s' : fst) : Prop := {
  sm_lg : s' = with_lg (with_io (io (lg s')) (lg s)) s;
  sm_size : disksize (io (lg s')) = disksize (io (lg s));
  sm_disk : disk (io (lg s')) = disk (io (lg s));
  sm_val : forall m, val s' m = val s m }.

#[export] Instance keeps_refl : Reflexive keeps.
Proof. intros [[] ? ? ? ?]. by split. Qed.
#[export] Instance keeps_trans : Transitive keeps.
Proof.
  intros s1 s2 s3 [E1 ? ? ? ? ?] [E2 ? ? ? ? ?]. split; try congruence.
  rewrite E2 at 1. rewrite E1. done.
Qed.
#[export] Instance same_refl : Reflexive same.
Proof. intros [[] ? ? ? ?]. by split. Qed.
#[export] Instance same_trans : Transitive same.
Proof.
  intros s1 s2 s3 [E1 ? ? V1] [E2 ? ? V2]. split; try congruence.
  rewrite E2 at 1. rewrite E1. done.
Qed.

Lemma same_keeps s s' : same s s' -> keeps s s'.
Proof. intros [E ? ? ?]. split; try done; rewrite E; done. Qed.

(** The buffers [hl], each with its block, are held, and nothing is lost when
    one of them is given back; the blocks [bl] are dirty. *)
Record held_in (b : bst) (bl : list Z) (hl : list (nat * Z)) : Prop := {
  hd_ok : cache_ok b;
  hd_locked : forall m, locked_block b m <-> m ∈ hl.*2;
  hd_dirty : forall m, dirty_block b m <-> m ∈ bl;
  hd_bufs : forall i n, (i, n) ∈ hl -> exists c, caches b i c n /\ locked c = true /\
    (dirty c = false -> bdata c = disk b n);
  hd_nodup : NoDup hl.*2 }.
Definition held (s : fst) : list Z -> list (nat * Z) -> Prop := held_in (io (lg s)).

Lemma held_calm s bl : held s bl [] <-> calm (io (lg s)) bl.
Proof.
  split.
  - intros [? Hl ? _ _]. split; try done. intros m H%Hl. by apply not_elem_of_nil in H.
  - intros [? Hl ?]. split; try done.
    + intros m. split; [by intros ?%Hl|by intros ?%not_elem_of_nil].
    + intros i n H. by apply not_elem_of_nil in H.
    + constructor.
Qed.

Lemma log_blk_ok {A} (m : M bst A) s a b :
  m (io (lg s)) = Ret a b -> log (blk m) s = Ret a (with_lg (with_io b (lg s)) s).
Proof. intros H. unfold log, zoom. by rewrite (blk_ok _ _ _ _ H). Qed.

Lemma log_run {A} (m : M lst A) s a l : m (lg s) = Ret a l -> log m s = Ret a (with_lg l s).
Proof. intros H. unfold log, zoom. by rewrite H. Qed.

Section Held.
Implicit Types (s : fst) (bl : list Z) (hl : list (nat * Z)).

Lemma held_bread s bl hl n :
  held s bl hl -> n ∉ hl.*2 -> n < disksize (io (lg s)) -> (length bl + length hl < NBUF)%nat ->
  exists i s', Fs.bread 1 n s = Ret i s' /\ held s' bl ((i, n) :: hl) /\ same s s'.
Proof.
  intros [Hok Hl Hd Hb Hnd] Hn Hsz Hroom.
  destruct (bread_ok (io (lg s)) n Hok Hsz) as (i & c & b & R & C & L & V & D & E & Dk & W).
  { rewrite Hl. exact Hn. }
  { right. apply (free_exists _ (bl ++ hl.*2) Hok); [|rewrite length_app, length_fmap; lia].
    intros m. rewrite Hl, Hd, elem_of_app. done. }
  exists i, (with_lg (with_io b (lg s)) s). split; [by apply log_blk_ok|]. split; [split|split].
  - apply E.
  - intros m. change (io (lg (with_lg (with_io b (lg s)) s))) with b.
    rewrite (ef_locked _ _ _ _ _ _ E), Hl, fmap_cons, elem_of_cons.
    destruct (decide (m = n)) as [->|]; cbn; tauto.
  - intros m. change (io (lg (with_lg (with_io b (lg s)) s))) with b.
    rewrite (ef_dirty _ _ _ _ _ _ E), !Hd. destruct (decide (m = n)) as [->|]; tauto.
  - intros j m. change (io (lg (with_lg (with_io b (lg s)) s))) with b.
    rewrite elem_of_cons. intros [[= -> ->]|Hj].
    + exists c. split_and!; try done. intros Hc. rewrite V, Dk.
      destruct (cached_dec (io (lg s)) n) as [(k & c' & Hk)|Hnc]; [|by apply view_uncached].
      rewrite (view_cached _ _ _ _ Hok Hk). apply (co_clean _ Hok k c' n Hk).
      * destruct (dirty c') eqn:Ed; [|done].
        assert (dirty c = true) by (apply D; by exists k, c'). congruence.
      * destruct (locked c') eqn:El; [|done].
        exfalso. apply Hn, Hl. by exists k, c'.
    + destruct (Hb j m Hj) as (c' & Hc' & Hl' & Hd').
      assert (m <> n) by (intros ->; apply Hn; apply list_elem_of_fmap; by exists (j, n)).
      exists c'. split_and!; [by apply (ef_held _ _ _ _ _ _ E)|done|by rewrite Dk].
  - cbn. apply NoDup_cons. done.
  - done.
  - apply E.
  - done.
  - intros m. unfold val. change (io (lg (with_lg (with_io b (lg s)) s))) with b.
    rewrite (ef_view _ _ _ _ _ _ E). by case_decide as Em; [rewrite Em|].
Qed.

Lemma held_buf s bl hl i n :
  held s bl hl -> (i, n) ∈ hl ->
  exists c, log (blk (buf_at i)) s = Ret c s /\ bdata c = val s n.
Proof.
  intros H Hin. destruct (hd_bufs _ _ _ H i n Hin) as (c & Hc & Hl & Hd).
  exists c. split.
  - erewrite log_blk_ok by (apply buf_at_ok; apply Hc). by destruct s as [[] ? ? ? ?].
  - unfold val. by rewrite (view_cached _ _ _ _ (hd_ok _ _ _ H) Hc).
Qed.

Lemma held_data s bl hl i n :
  held s bl hl -> (i, n) ∈ hl -> data i s = Ret (val s n) s.
Proof.
  intros H Hin. destruct (held_buf s bl hl i n H Hin) as (c & R & <-).
  unfold data. unfold log, zoom, blk, zoom, bind in *.
  destruct (buf_at i (io (lg s))); try discriminate R. injection R as -> Es.
  cbn. by rewrite Es.
Qed.

Lemma held_brelse s bl hl i n :
  held s bl ((i, n) :: hl) ->
  exists s', Fs.brelse i s = Ret tt s' /\ held s' bl hl /\ same s s'.
Proof.
  intros [Hok Hl Hd Hb Hnd]. destruct (Hb i n) as (c & C & L & Cl); [left|].
  cbn in Hnd. apply NoDup_cons in Hnd as [Hn Hnd].
  destruct (brelse_ok (io (lg s)) i c n Hok C L Cl) as (b & R & E & Dk & W).
  assert (Hdc : dirty c = true <-> n ∈ bl).
  { rewrite <- Hd. split; [intros; by exists i, c|]. intros (k & c' & Hk & Hc').
    assert (k = i) as -> by (by apply (co_one _ Hok k i c' c n)).
    destruct Hk as [Hk _], C as [C _]. congruence. }
  assert (Ev : bdata c = view (io (lg s)) n) by (symmetry; by apply (view_cached _ i)).
  exists (with_lg (with_io b (lg s)) s). split; [by apply log_blk_ok|]. split; [split|split].
  - apply E.
  - intros m. change (io (lg (with_lg (with_io b (lg s)) s))) with b.
    rewrite (ef_locked _ _ _ _ _ _ E), Hl, fmap_cons, elem_of_cons. cbn.
    split; [tauto|]. intros H. right. split; [|by right]. by intros ->.
  - intros m. change (io (lg (with_lg (with_io b (lg s)) s))) with b.
    rewrite (ef_dirty _ _ _ _ _ _ E), Hd, Hdc. destruct (decide (m = n)) as [->|]; tauto.
  - intros j m Hj. change (io (lg (with_lg (with_io b (lg s)) s))) with b.
    destruct (Hb j m) as (c' & Hc' & Hl' & Hd'); [by right|].
    assert (m <> n) by (intros ->; apply Hn; apply list_elem_of_fmap; by exists (j, n)).
    exists c'. split_and!; [by apply (ef_held _ _ _ _ _ _ E)|done|by rewrite Dk].
  - done.
  - done.
  - apply E.
  - done.
  - intros m. unfold val. change (io (lg (with_lg (with_io b (lg s)) s))) with b.
    rewrite (ef_view _ _ _ _ _ _ E). by case_decide as Em; [rewrite Em|].
Qed.

End Held.

(** ** Inside a transaction *)

(** The blocks the file system writes: neither the superblock nor the log. *)
Definition home_block (s : fst) (n : Z) : Prop :=
  0 <= n < disksize (io (lg s)) /\ (n < start (lg s) \/ start (lg s) + lsize (lg s) <= n) /\ n <> 1.

Definition tx (s : fst) (hl : list (nat * Z)) (F : gset Z) (k : nat) : Prop :=
  exists bl, in_trans (lg s) bl /\ held s bl hl /\ 1 ∉ bl /\
    Z.of_nat (base.size (list_to_set bl ∪ F) + k) + 2 <= lsize (lg s).

Lemma tx_len s bl (F : gset Z) k :
  in_trans (lg s) bl -> Z.of_nat (base.size (list_to_set bl ∪ F) + k) + 2 <= lsize (lg s) ->
  Z.of_nat (length bl) + 2 <= lsize (lg s) /\ (length bl < 29)%nat.
Proof.
  intros Ht Hk. pose proof (it_max _ _ Ht) as Hm. unfold LOGSIZE in Hm.
  assert (Hle : (length bl <= base.size (list_to_set bl ∪ F : gset Z))%nat).
  { rewrite <- (size_list_to_set (C := gset Z) bl (it_nodup _ _ Ht)). apply subseteq_size. set_solver. }
  lia.
Qed.

Lemma in_trans_io s b bl :
  in_trans s bl -> disksize b = disksize (io s) -> in_trans (with_io b s) bl.
Proof. intros [? ? ? ? ? ? ? ? ?] E. split; cbn; rewrite ?E; done. Qed.

(** What reading code does to the cache it may do inside a transaction. *)
Lemma tx_same s s' hl hl' F k :
  tx s hl F k -> (forall bl, held s bl hl -> (length bl < 29)%nat -> held s' bl hl') ->
  same s s' -> tx s' hl' F k.
Proof.
  intros (bl & Ht & Hh & H1 & Hk) H Hs. exists bl. destruct (tx_len s bl F k Ht Hk) as [_ Hlen].
  assert (El : lg s' = with_io (io (lg s')) (lg s)) by (pose proof (sm_lg _ _ Hs) as E; by rewrite E).
  rewrite El. split_and!; [|by apply H|done|done]. apply in_trans_io; [done|apply Hs].
Qed.

Lemma tx_run {A} (m : M fst A) s hl F k (Q : A -> fst -> Prop) (hl' : A -> list (nat * Z)) :
  tx s hl F k ->
  (forall bl, held s bl hl -> (length bl < 29)%nat ->
    exists a s', m s = Ret a s' /\ held s' bl (hl' a) /\ same s s' /\ Q a s') ->
  exists a s', m s = Ret a s' /\ tx s' (hl' a) F k /\ same s s' /\ Q a s'.
Proof.
  intros Htx H. pose proof Htx as (bl & Ht & Hh & _ & Hk).
  destruct (tx_len s bl F k Ht Hk) as [_ Hlen].
  destruct (H bl Hh Hlen) as (a & s' & R & Hh' & Hs & HQ).
  exists a, s'. split_and!; try done. apply (tx_same s s' hl); try done.
  intros bl2 H2 Hl2. destruct (H bl2 H2 Hl2) as (a2 & s2 & R2 & Hh2 & _ & _). congruence.
Qed.

Lemma tx_bread s hl F k n :
  tx s hl F k -> n ∉ hl.*2 -> (length hl <= 1)%nat -> n < disksize (io (lg s)) ->
  exists i s', Fs.bread 1 n s = Ret i s' /\ tx s' ((i, n) :: hl) F k /\ same s s'.
Proof.
  intros Htx Hn Hl Hsz.
  destruct (tx_run (Fs.bread 1 n) s hl F k (fun _ _ => True) (fun i => (i, n) :: hl) Htx)
    as (i & s' & ? & ? & ? & _); [|by exists i, s'].
  intros bl Hh Hlen. destruct (held_bread s bl hl n Hh Hn Hsz) as (i & s' & ? & ? & ?).
  { unfold NBUF. lia. }
  by exists i, s'.
Qed.

Lemma tx_data s hl F k i n : tx s hl F k -> (i, n) ∈ hl -> data i s = Ret (val s n) s.
Proof. intros (bl & _ & Hh & _) Hin. by apply (held_data s bl hl). Qed.

Lemma tx_brelse s hl F k i n :
  tx s ((i, n) :: hl) F k ->
  exists s', Fs.brelse i s = Ret tt s' /\ tx s' hl F k /\ same s s'.
Proof.
  intros Htx.
  destruct (tx_run (Fs.brelse i) s _ F k (fun _ _ => True) (fun _ => hl) Htx)
    as ([] & s' & ? & ? & ? & _); [|by exists s'].
  intros bl Hh _. destruct (held_brelse s bl hl i n Hh) as (s' & ? & ? & ?). by exists tt, s'.
Qed.

Lemma tx_nodup s hl F k i n j : tx s hl F k -> (i, n) ∈ hl -> (j, n) ∈ hl -> i = j.
Proof.
  intros (bl & _ & Hh & _) Hi Hj.
  destruct (hd_bufs _ _ _ Hh i n Hi) as (c & Hc & _), (hd_bufs _ _ _ Hh j n Hj) as (c' & Hc' & _).
  by apply (co_one _ (hd_ok _ _ _ Hh) i j c c' n).
Qed.

(** A block paid for is written without taking room; any other takes one. *)
Lemma tx_write s hl F k i n d :
  tx s hl F k -> (i, n) ∈ hl -> n ∈ F -> home_block s n ->
  exists s', (set_data i d ;;; Fs.log_write i) s = Ret tt s' /\ tx s' hl F k /\ keeps s s' /\
    (forall m, val s' m = if decide (m = n) then d else val s m).
Proof.
  intros (bl & Ht & Hh & Hb1 & Hk) Hin HF (Hrange & Hhome & Hn1).
  destruct (tx_len s bl F k Ht Hk) as [Hroom _].
  destruct (hd_bufs _ _ _ Hh i n Hin) as (c & C & L & _).
  destruct (set_bdata_ok (io (lg s)) i c n d (hd_ok _ _ _ Hh) C L) as (b & R & E & C' & Dk & W).
  unfold bind at 1, set_data. rewrite (log_blk_ok _ _ _ _ R).
  destruct (log_write_ok (lg s) b bl i (set_bdata d c) n Ht (ef_ok _ _ _ _ _ _ E) C' L)
    as (l & R2 & Ht2 & E2 & C2 & D2 & W2 & St2 & Sz2 & Out2); [apply E|done|done|lia|].
  exists (with_lg l s).
  split; [exact (log_run (Log.log_write i) (with_lg (with_io b (lg s)) s) tt l R2)|].
  assert (Hinl : forall j m, (j, m) ∈ hl -> m ∈ hl.*2)
    by (intros j m Hj; apply list_elem_of_fmap; by exists (j, m)).
  split; [exists (absorb bl n); split_and!; [done|split| |]|split; [split|]].
  - apply E2.
  - intros m. cbn. rewrite (ef_locked _ _ _ _ _ _ E2), (ef_locked _ _ _ _ _ _ E), (hd_locked _ _ _ Hh).
    destruct (decide (m = n)) as [->|]; [|tauto]. specialize (Hinl i n Hin). tauto.
  - intros m. cbn. rewrite (ef_dirty _ _ _ _ _ _ E2), (ef_dirty _ _ _ _ _ _ E), (hd_dirty _ _ _ Hh).
    unfold absorb. destruct (decide (n ∈ bl)) as [Hnb|Hnb];
      rewrite ?elem_of_app, ?list_elem_of_singleton; destruct (decide (m = n)) as [->|]; tauto.
  - intros j m Hj. cbn. destruct (decide (m = n)) as [->|Hne].
    + assert (j = i) as ->.
      { destruct (hd_bufs _ _ _ Hh j n Hj) as (c' & Hc' & _).
        by apply (co_one _ (hd_ok _ _ _ Hh) j i c' c n). }
      eexists. split_and!; [exact C2|done|done].
    + destruct (hd_bufs _ _ _ Hh j m Hj) as (c' & Hc' & Hl' & Hd').
      exists c'. split_and!; [|done|by rewrite D2, Dk].
      apply (ef_held _ _ _ _ _ _ E2); try done. by apply (ef_held _ _ _ _ _ _ E).
  - apply Hh.
  - unfold absorb. case_decide; [done|]. intros [?|E1%list_elem_of_singleton]%elem_of_app; [done|by rewrite E1 in Hn1].
  - cbn. rewrite Sz2. replace (list_to_set (absorb bl n) ∪ F) with (list_to_set bl ∪ F : gset Z); [done|].
    unfold absorb. destruct (decide (n ∈ bl)); [done|].
    apply leibniz_equiv. rewrite list_to_set_app. cbn. clear - HF. set_solver.
  - done.
  - done.
  - done.
  - cbn. rewrite (ef_size _ _ _ _ _ _ E2). apply E.
  - done.
  - cbn. by rewrite D2.
  - intros m. unfold val. cbn. rewrite (ef_view _ _ _ _ _ _ E2), (ef_view _ _ _ _ _ _ E). by case_decide.
Qed.

Lemma tx_pay s hl F k n : tx s hl F (S k) -> tx s hl ({[n]} ∪ F) k.
Proof.
  intros (bl & Ht & Hh & H1 & Hk). exists bl. split_and!; try done.
  assert (base.size (list_to_set bl ∪ ({[n]} ∪ F) : gset Z) <= S (base.size (list_to_set bl ∪ F : gset Z)))%nat; [|lia].
  replace (list_to_set bl ∪ ({[n]} ∪ F) : gset Z) with ({[n]} ∪ (list_to_set bl ∪ F) : gset Z)
    by (apply leibniz_equiv; clear; set_solver).
  rewrite size_union_alt, size_singleton.
  assert (base.size ((list_to_set bl ∪ F) ∖ {[n]} : gset Z) <= base.size (list_to_set bl ∪ F : gset Z))%nat;
    [apply subseteq_size; clear; set_solver|lia].
Qed.

Lemma tx_weaken s hl F k F' k' : tx s hl F k -> F' ⊆ F -> (k' <= k)%nat -> tx s hl F' k'.
Proof.
  intros (bl & Ht & Hh & H1 & Hk) HF Hle. exists bl. split_and!; try done.
  assert (base.size (list_to_set bl ∪ F' : gset Z) <= base.size (list_to_set bl ∪ F : gset Z))%nat; [|lia].
  apply subseteq_size. set_solver.
Qed.

(** Two steps at once. *)
Lemma bind_eq2 {S A B C} (m1 : M S A) (m2 : M S B) (k : B -> M S C) s b s' :
  (m1 ;;; m2) s = Ret b s' -> (m1 ;;; (let! x := m2 in k x)) s = k b s'.
Proof.
  intros H. apply bind_ret_inv in H as (a & s1 & R1 & R2).
  rewrite (bind_eq _ _ _ _ _ R1). by rewrite (bind_eq _ _ _ _ _ R2).
Qed.

Lemma log_bind {A B} (m : M lst A) (f : A -> M lst B) s :
  log (bind m f) s = bind (log m) (fun a => log (f a)) s.
Proof. unfold log, zoom, bind. destruct (m (lg s)); done. Qed.

Lemma tx_bzero s hl F k n :
  tx s hl F k -> n ∉ hl.*2 -> (length hl <= 1)%nat -> n ∈ F -> home_block s n ->
  exists s', Fs.bzero 1 n s = Ret tt s' /\ tx s' hl F k /\ keeps s s' /\
    (forall m, val s' m = if decide (m = n) then replicate BSIZE 0 else val s m).
Proof.
  intros Ht Hn Hl HF Hh. unfold Fs.bzero, Log.bzero. rewrite log_bind.
  destruct (tx_bread s hl F k n Ht Hn Hl) as (i & s1 & R1 & T1 & S1); [apply Hh|].
  rewrite (bind_eq _ _ _ _ _ R1), log_bind.
  destruct (tx_write s1 _ F k i n (replicate BSIZE 0) T1) as (s2 & R2 & T2 & K2 & V2); [left|done|..].
  { pose proof (same_keeps _ _ S1) as K. unfold home_block. by rewrite (kp_size _ _ K), (kp_start _ _ K), (kp_lsize _ _ K). }
  destruct (tx_brelse s2 hl F k i n T2) as (s3 & R3 & T3 & S3).
  exists s3. split_and!; [|done| |].
  - apply bind_ret_inv in R2 as ([] & s1' & R2 & R2').
    rewrite (bind_eq _ _ _ _ _ R2), log_bind. by rewrite (bind_eq _ _ _ _ _ R2').
  - etrans; [apply (same_keeps _ _ S1)|]. etrans; [done|by apply same_keeps].
  - intros m. by rewrite (sm_val _ _ S3), V2, (sm_val _ _ S1).
Qed.

(** Reading the superblock. *)
Lemma held_readsb s bl hl :
  held s bl hl -> 1 ∉ hl.*2 -> 1 < disksize (io (lg s)) -> (length bl + length hl < NBUF)%nat ->
  exists s', Fs.readsb 1 s = Ret tt (with_super (sb_of ((fun k => ld_word (val s 1) k) <$> seq 0 7)) s') /\
    held s' bl hl /\ same s s'.
Proof.
  intros Hh Hn Hsz Hroom. unfold Fs.readsb, Log.readsb.
  destruct (held_bread s bl hl 1 Hh Hn Hsz Hroom) as (i & s1 & R1 & H1 & S1).
  destruct (held_buf s1 bl _ i 1 H1 ltac:(left)) as (c & Rc & Ec).
  destruct (held_brelse s1 bl hl i 1 H1) as (s2 & R2 & H2 & S2).
  exists s2. split_and!; [|done|by etrans].
  unfold bind at 1. rewrite log_bind. unfold Fs.bread in R1. rewrite (bind_eq _ _ _ _ _ R1), log_bind.
  rewrite (bind_eq _ _ _ _ _ Rc), log_bind. unfold Fs.brelse in R2. rewrite (bind_eq _ _ _ _ _ R2).
  rewrite Ec, (sm_val _ _ S1). unfold log, zoom, ret, modify. by destruct s2 as [[] ? ? ? ?].
Qed.

(** ** The spin lock of the inode cache *)

Definition cpu_of (s : fst) : Cli.cpu := bcpu (io (lg s)).
Definition locked_view (s : fst) : fst :=
  Cli.set_lk tt true (Cli.set_cpu (CliFacts.inside (cpu_of s)) s).

#[export] Instance fst_laws : Cli.SpinLaws fst unit.
Proof. by split; intros; try (destruct l); try (destruct s as [[[]]]). Qed.

Lemma fs_acquire_ok s : icache_lk s = false -> Fs.acquire s = Ret tt (locked_view s).
Proof. intros H. unfold Fs.acquire. rewrite CliFacts.acquire_run. cbn. by rewrite H. Qed.

Lemma held_cpu s c bl hl :
  held s bl hl -> CliFacts.nest_ok c ->
  held (Cli.set_cpu c s) bl hl /\ same s (Cli.set_cpu c s).
Proof.
  intros [Hok Hl Hd Hb Hn] Hc. split; [split; try done|by split].
  by apply cache_ok_cpu.
Qed.

Lemma fs_release_ok s ic bl hl :
  held s bl hl -> icache_lk s = false ->
  exists s', Fs.release (with_icache ic (locked_view s)) = Ret tt s' /\ held s' bl hl /\
    same (with_icache ic s) s'.
Proof.
  intros Hh Hl. pose proof (proj2 (co_lock _ (hd_ok _ _ _ Hh))) as [Hn Hi].
  unfold Fs.release. rewrite CliFacts.release_run; [|cbn; unfold cpu_of; lia|done].
  change (Cli.lk_of tt (with_icache ic (locked_view s))) with true. cbv iota.
  eexists. split; [done|].
  match goal with |- context [Cli.set_cpu ?c (Cli.set_lk _ _ _)] => set (c' := c) end.
  assert (Hc : CliFacts.nest_ok c').
  { unfold c'. split; cbn -[Z.sub Z.add]; unfold cpu_of; [lia|].
    intros Hpos. by rewrite (proj2 (Z.eqb_neq _ _)) by lia. }
  destruct (held_cpu (with_icache ic s) c' bl hl Hh Hc) as [H1 H2].
  assert (E : Cli.set_cpu c' (Cli.set_lk tt false (with_icache ic (locked_view s))) =
    Cli.set_cpu c' (with_icache ic s)).
  { destruct s as [[[]] ? ? ? ?]. cbn in *. by rewrite Hl. }
  by rewrite E.
Qed.
