(* ===== verification/FsBlocks.v ===== *)
(** * The free-block bitmap

    Bits of a bitmap block, the layout of the disk, and what [balloc] and
    [bfree] do to the set of used blocks. *)

From S2P Require Import Prelude Locks Bio Log LogFacts Fs FsTx.
Import Bio BioFacts Log LogFacts Fs.

(** ** Bits and bytes *)

Definition byte (v : Z) : Prop := 0 <= v < 256.
Definition block_ok (d : list Z) : Prop := length d = BSIZE /\ Forall byte d.

Lemma land_bit x k : 0 <= k -> (Z.land x (Z.shiftl 1 k) =? 0) = negb (Z.testbit x k).
Proof.
  intros Hk. assert (Hb : Z.testbit (Z.land x (Z.shiftl 1 k)) k = Z.testbit x k).
  { rewrite Z.land_spec, Z.shiftl_1_l, Z.pow2_bits_true by done. apply andb_true_r. }
  destruct (Z.testbit x k) eqn:E; cbn.
  - apply Z.eqb_neq. intros H. by rewrite H, Z.bits_0 in Hb.
  - apply Z.eqb_eq. apply Z.bits_inj'. intros j Hj. rewrite Z.bits_0, Z.land_spec, Z.shiftl_1_l.
    destruct (decide (j = k)) as [->|]; [by rewrite E|].
    rewrite (Z.pow2_bits_false k j) by done. apply andb_false_r.
Qed.

Lemma byte_bits v : 0 <= v -> byte v <-> forall k, 8 <= k -> Z.testbit v k = false.
Proof.
  intros Hv. unfold byte. split.
  - intros Hb k Hk. destruct (decide (v = 0)) as [->|]; [apply Z.bits_0|].
    apply Z.bits_above_log2; [done|]. assert (Z.log2 v < 8) by (apply Z.log2_lt_pow2; lia). lia.
  - intros H. split; [done|]. destruct (Z.lt_ge_cases v 256) as [|Hge]; [done|].
    assert (8 <= Z.log2 v) by (apply Z.log2_le_pow2; lia).
    pose proof (Z.bit_log2 v ltac:(lia)) as Ht. rewrite H in Ht by done. done.
Qed.

Definition bit (d : list Z) (i : Z) : bool := Z.testbit (nth (Z.to_nat (i / 8)) d 0) (i mod 8).

Lemma nth_insert (d : list Z) i j v :
  nth j (<[i := v]> d) 0 = if decide (i = j /\ (j < length d)%nat) then v else nth j d 0.
Proof.
  rewrite !nth_lookup, list_lookup_insert. repeat case_decide; try done; naive_solver.
Qed.

Lemma bit_index i j : 0 <= i -> 0 <= j -> Z.to_nat (i / 8) = Z.to_nat (j / 8) -> i mod 8 = j mod 8 -> i = j.
Proof.
  intros Hi Hj E1 E2. pose proof (Z.div_mod i 8 ltac:(lia)). pose proof (Z.div_mod j 8 ltac:(lia)).
  pose proof (Z.div_pos i 8 ltac:(lia) ltac:(lia)). pose proof (Z.div_pos j 8 ltac:(lia) ltac:(lia)). lia.
Qed.

Lemma bit_set_bit d i j :
  0 <= i -> 0 <= j -> (Z.to_nat (i / 8) < length d)%nat ->
  bit (set_bit d i) j = bool_decide (i = j) || bit d j.
Proof.
  intros Hi Hj Hl. unfold bit, set_bit. rewrite nth_insert.
  pose proof (Z.mod_pos_bound i 8 ltac:(lia)). pose proof (Z.mod_pos_bound j 8 ltac:(lia)).
  case_decide as E.
  - destruct E as [E _]. rewrite Z.lor_spec, Z.shiftl_1_l, E, orb_comm. f_equal.
    case_bool_decide as Eij.
    + subst j. apply Z.pow2_bits_true. lia.
    + apply Z.pow2_bits_false. intros Em. apply Eij. by apply bit_index.
  - rewrite bool_decide_false; [done|]. intros ->. by destruct E.
Qed.

Lemma bit_clear_bit d i j :
  0 <= i -> 0 <= j -> (Z.to_nat (i / 8) < length d)%nat ->
  bit (clear_bit d i) j = negb (bool_decide (i = j)) && bit d j.
Proof.
  intros Hi Hj Hl. unfold bit, clear_bit. rewrite nth_insert.
  pose proof (Z.mod_pos_bound i 8 ltac:(lia)). pose proof (Z.mod_pos_bound j 8 ltac:(lia)).
  case_decide as E.
  - destruct E as [E _]. rewrite Z.ldiff_spec, Z.shiftl_1_l, E, andb_comm. f_equal. f_equal.
    case_bool_decide as Eij.
    + subst j. apply Z.pow2_bits_true. lia.
    + apply Z.pow2_bits_false. intros Em. apply Eij. by apply bit_index.
  - rewrite bool_decide_false; [done|]. intros ->. by destruct E.
Qed.

Lemma insert_byte (d : list Z) i v :
  block_ok d -> byte v -> block_ok (<[i := v]> d).
Proof.
  intros [Hl Hb] Hv. split; [by rewrite length_insert|]. by apply Forall_insert.
Qed.

Lemma nth_byte d i : block_ok d -> byte (nth i d 0).
Proof.
  intros [_ Hb]. rewrite nth_lookup. destruct (d !! i) as [v|] eqn:E; [|cbn; unfold byte; lia].
  by apply (Forall_lookup_1 _ _ _ _ Hb E).
Qed.

Lemma shiftl_byte k : 0 <= k < 8 -> byte (Z.shiftl 1 k).
Proof.
  intros Hk. rewrite Z.shiftl_1_l. split; [apply Z.pow_nonneg; lia|].
  change 256 with (2 ^ 8). apply Z.pow_lt_mono_r; lia.
Qed.

Lemma set_bit_ok d i : block_ok d -> block_ok (set_bit d i).
Proof.
  intros H. apply insert_byte; [done|]. pose proof (nth_byte d (Z.to_nat (i / 8)) H) as Hb.
  pose proof (shiftl_byte (i mod 8) (Z.mod_pos_bound i 8 ltac:(lia))) as Hs.
  assert (0 <= Z.lor (nth (Z.to_nat (i / 8)) d 0) (Z.shiftl 1 (i mod 8)))
    by (apply Z.lor_nonneg; unfold byte in *; lia).
  apply byte_bits; [done|]. intros k Hk. rewrite Z.lor_spec.
  by rewrite (proj1 (byte_bits _ (proj1 Hb)) Hb k Hk), (proj1 (byte_bits _ (proj1 Hs)) Hs k Hk).
Qed.

Lemma clear_bit_ok d i : block_ok d -> block_ok (clear_bit d i).
Proof.
  intros H. apply insert_byte; [done|]. pose proof (nth_byte d (Z.to_nat (i / 8)) H) as Hb.
  assert (0 <= Z.ldiff (nth (Z.to_nat (i / 8)) d 0) (Z.shiftl 1 (i mod 8)))
    by (apply Z.ldiff_nonneg; unfold byte in *; lia).
  apply byte_bits; [done|]. intros k Hk. rewrite Z.ldiff_spec.
  by rewrite (proj1 (byte_bits _ (proj1 Hb)) Hb k Hk).
Qed.

Lemma zeros_ok : block_ok (replicate BSIZE 0).
Proof. split; [by rewrite length_replicate|]. apply Forall_replicate. unfold byte. lia. Qed.

(** The scan of a bitmap block finds its first clear bit in range. *)
Lemma scan_bits_spec d b sz fuel : forall bi,
  0 <= bi -> BPB - bi < Z.of_nat fuel ->
  match scan_bits fuel d b bi sz with
  | Some r => bi <= r < BPB /\ b + r < sz /\ bit d r = false /\ forall j, bi <= j < r -> bit d j = true
  | None => forall j, bi <= j < BPB -> b + j < sz -> bit d j = true
  end.
Proof.
  induction fuel as [|fuel IH]; intros bi Hbi Hf.
  { cbn -[BPB] in *. intros j Hj. lia. }
  cbn [scan_bits].
  destruct (Z.ltb_spec bi BPB); [|intros j ? ?; lia].
  destruct (Z.ltb_spec (b + bi) sz); [|intros j ? ?; lia]. cbn [andb]. cbv zeta.
  rewrite land_bit by (apply Z.mod_pos_bound; lia). fold (bit d bi).
  destruct (bit d bi) eqn:Eb; cbn [negb].
  - specialize (IH (bi + 1) ltac:(lia) ltac:(lia)).
    destruct (scan_bits fuel d b (bi + 1) sz) as [r|].
    + destruct IH as (? & ? & ? & Hall). split_and!; try lia; try done.
      intros j Hj. destruct (decide (j = bi)) as [->|]; [done|]. apply Hall. lia.
    + intros j ? ?. destruct (decide (j = bi)) as [->|]; [done|]. apply IH; lia.
  - split_and!; try lia; done.
Qed.

(** ** The disk and its layout *)

Record layout (s : fst) : Prop := {
  ly_log : 1 < start (lg s) /\ 0 <= lsize (lg s);
  ly_inode : start (lg s) + lsize (lg s) <= inodestart (sb s) /\ 0 <= ninodes (sb s);
  ly_bmap : inodestart (sb s) + ninodes (sb s) / IPB < bmapstart (sb s);
  ly_data : bmapstart (sb s) + size (sb s) / BPB < size (sb s);
  ly_size : size (sb s) <= disksize (io (lg s)) < 2147483648 }.

(** The first block after the bitmap, and the blocks [balloc] hands out. *)
Definition meta_end (s : fst) : Z := bmapstart (sb s) + size (sb s) / BPB + 1.
Definition data_block (s : fst) (b : Z) : Prop := meta_end s <= b < size (sb s).

Definition bitmap_block (s : fst) (m : Z) : Prop := bmapstart (sb s) <= m < meta_end s.

(** The bit of block [b]. *)
Definition used (s : fst) (b : Z) : bool := bit (val s (BBLOCK b (sb s))) (b mod BPB).

Record fs_ok (s : fst) : Prop := {
  fo_layout : layout s;
  fo_sb : sb_of ((fun k => ld_word (val s 1) k) <$> seq 0 7) = sb s;
  fo_blocks : forall m, block_ok (val s m);
  fo_meta : forall b, 0 <= b < meta_end s -> used s b = true }.

Section Layout.
Variable s : fst.
Hypothesis Hs : layout s.

Lemma layout_pos : 0 <= size (sb s) < 2147483648 /\ 1 < bmapstart (sb s) /\ 0 <= size (sb s) / BPB.
Proof.
  destruct Hs as [[? ?] [? ?] ? ? [? ?]].
  assert (0 <= ninodes (sb s) / IPB) by (apply Z.div_pos; [done|unfold IPB; lia]).
  destruct (Z.lt_ge_cases (size (sb s)) 0).
  - assert (size (sb s) <= size (sb s) / BPB) by (apply Z.div_le_lower_bound; unfold BPB; lia). lia.
  - assert (0 <= size (sb s) / BPB) by (apply Z.div_pos; unfold BPB; lia). lia.
Qed.

Lemma BBLOCK_eq b : 0 <= b < size (sb s) -> BBLOCK b (sb s) = b / BPB + bmapstart (sb s).
Proof.
  intros Hb. destruct layout_pos as (? & ? & ?). destruct Hs as [[? ?] [? ?] ? ? [? ?]].
  unfold BBLOCK. apply u32_small.
  assert (0 <= b / BPB) by (apply Z.div_pos; unfold BPB; lia).
  assert (b / BPB <= size (sb s) / BPB) by (apply Z.div_le_mono; unfold BPB; lia). lia.
Qed.

Lemma BBLOCK_bitmap b : 0 <= b < size (sb s) -> bitmap_block s (BBLOCK b (sb s)).
Proof.
  intros Hb. rewrite BBLOCK_eq by done. unfold bitmap_block, meta_end.
  assert (0 <= b / BPB) by (apply Z.div_pos; unfold BPB; lia).
  assert (b / BPB <= size (sb s) / BPB) by (apply Z.div_le_mono; unfold BPB; lia). lia.
Qed.

Lemma bitmap_home m : bitmap_block s m -> home_block s m /\ m <> 1.
Proof.
  intros [? ?]. destruct layout_pos as (? & ? & ?). destruct Hs as [[? ?] [? ?] ? ? [? ?]].
  unfold meta_end in *.
  assert (0 <= ninodes (sb s) / IPB) by (apply Z.div_pos; [done|unfold IPB; lia]).
  unfold home_block. lia.
Qed.

Lemma data_home b : data_block s b -> home_block s b /\ b <> 1 /\ ~ bitmap_block s b /\ 0 <= b < size (sb s).
Proof.
  intros [? ?]. destruct layout_pos as (? & ? & ?). destruct Hs as [[? ?] [? ?] ? ? [? ?]].
  unfold meta_end in *.
  assert (0 <= ninodes (sb s) / IPB) by (apply Z.div_pos; [done|unfold IPB; lia]).
  unfold home_block, bitmap_block, meta_end. lia.
Qed.

(** The bits of two blocks in the same bitmap block differ. *)
Lemma bit_place b c :
  0 <= b < size (sb s) -> 0 <= c < size (sb s) ->
  BBLOCK b (sb s) = BBLOCK c (sb s) -> b mod BPB = c mod BPB -> b = c.
Proof.
  intros Hb Hc. rewrite !BBLOCK_eq by done. intros E1 E2.
  rewrite (Z.div_mod b BPB), (Z.div_mod c BPB) by (unfold BPB; lia).
  assert (b / BPB = c / BPB) as -> by lia. by rewrite E2.
Qed.

End Layout.

(** ** What stays when blocks change *)

Lemma keeps_fields s s' : keeps s s' ->
  sb s' = sb s /\ icache s' = icache s /\ icache_lk s' = icache_lk s.
Proof. intros K. by rewrite (kp_fs _ _ K). Qed.

Lemma keeps_layout s s' : keeps s s' -> layout s -> layout s'.
Proof.
  intros K [? ? ? ? ?]. destruct (keeps_fields _ _ K) as (E & _ & _).
  split; by rewrite ?E, ?(kp_start _ _ K), ?(kp_lsize _ _ K), ?(kp_size _ _ K).
Qed.

Lemma keeps_geometry s s' : keeps s s' ->
  meta_end s' = meta_end s /\ (forall m, data_block s' m <-> data_block s m) /\
  (forall m, bitmap_block s' m <-> bitmap_block s m) /\ (forall m, home_block s' m <-> home_block s m).
Proof.
  intros K. destruct (keeps_fields _ _ K) as (E & _ & _).
  unfold data_block, bitmap_block, home_block, meta_end.
  by rewrite E, (kp_start _ _ K), (kp_lsize _ _ K), (kp_size _ _ K).
Qed.

Lemma fs_ok_step s s' :
  fs_ok s -> keeps s s' -> (forall m, block_ok (val s' m)) -> val s' 1 = val s 1 ->
  (forall b, 0 <= b < meta_end s -> used s' b = true) -> fs_ok s'.
Proof.
  intros [Hl Hsb Hb Hm] K Hb' H1 Hu. destruct (keeps_fields _ _ K) as (E & _ & _). split.
  - by apply (keeps_layout s).
  - by rewrite H1, E.
  - done.
  - intros b. rewrite (proj1 (keeps_geometry _ _ K)). apply Hu.
Qed.

Lemma same_used s s' b : same s s' -> used s' b = used s b.
Proof.
  intros H. unfold used. rewrite (sm_val _ _ H).
  by destruct (keeps_fields _ _ (same_keeps _ _ H)) as (-> & _ & _).
Qed.

Lemma same_fs_ok s s' : same s s' -> fs_ok s -> fs_ok s'.
Proof.
  intros H Hok. apply (fs_ok_step s); [done|by apply same_keeps|..].
  - intros m. rewrite (sm_val _ _ H). apply Hok.
  - apply H.
  - intros b Hb. rewrite (same_used s s' b H). by apply Hok.
Qed.

(** ** Allocating and freeing *)

(** The blocks held are blocks of files, and the bitmap is paid for. *)
Definition holds_data (s : fst) (hl : list (nat * Z)) : Prop :=
  (length hl <= 1)%nat /\ forall n, n ∈ hl.*2 -> data_block s n /\ used s n = true.
Definition bitmap_paid (s : fst) (F : gset Z) : Prop := forall m, bitmap_block s m -> m ∈ F.

(** Block [b] was free and is now a used block of zeros; no other block but
    the bitmap's changed. *)
Record balloced (s s' : fst) (b : Z) : Prop := {
  al_data : data_block s b;
  al_free : used s b = false;
  al_keeps : keeps s s';
  al_zero : val s' b = replicate BSIZE 0;
  al_val : forall m, m <> b -> ~ bitmap_block s m -> val s' m = val s m;
  al_used : forall c, 0 <= c < size (sb s) -> used s' c = bool_decide (b = c) || used s c;
  al_ok : fs_ok s' }.

Record bfreed (s s' : fst) (b : Z) : Prop := {
  fr_keeps : keeps s s';
  fr_val : forall m, ~ bitmap_block s m -> val s' m = val s m;
  fr_used : forall c, 0 <= c < size (sb s) -> used s' c = negb (bool_decide (b = c)) && used s c;
  fr_ok : fs_ok s' }.

(** The bitmap after one of its blocks was rewritten by [f], which changes the
    bit of [b] as [g] says. *)
Lemma used_rewrite s s' b (f : list Z -> Z -> list Z) (g : bool -> bool -> bool) :
  layout s -> keeps s s' -> 0 <= b < size (sb s) -> (forall m, block_ok (val s m)) ->
  (forall d i j, 0 <= i -> 0 <= j -> (Z.to_nat (i / 8) < length d)%nat ->
     bit (f d i) j = g (bool_decide (i = j)) (bit d j)) ->
  (forall x, g false x = x) ->
  (forall m, bitmap_block s m ->
     val s' m = if decide (m = BBLOCK b (sb s)) then f (val s (BBLOCK b (sb s))) (b mod BPB) else val s m) ->
  forall c, 0 <= c < size (sb s) -> used s' c = g (bool_decide (b = c)) (used s c).
Proof.
  intros Hs K Hb Hok Hf Hg Hv c Hc. unfold used.
  destruct (keeps_fields _ _ K) as (-> & _ & _).
  rewrite Hv by (by apply BBLOCK_bitmap). unfold BPB in *.
  pose proof (Z.mod_pos_bound b 4096 ltac:(lia)). pose proof (Z.mod_pos_bound c 4096 ltac:(lia)).
  case_decide as E.
  - rewrite Hf; [|lia|lia|].
    + rewrite E. f_equal. apply bool_decide_ext. split; [|by intros ->].
      intros Em. symmetry in E. by apply (bit_place s Hs b c).
    + rewrite (proj1 (Hok _)). unfold BSIZE. apply Nat2Z.inj_lt. rewrite Z2Nat.id by (apply Z.div_pos; lia).
      apply Z.div_lt_upper_bound; lia.
  - rewrite bool_decide_false, Hg; [done|]. by intros ->.
Qed.

(** Block 1 is outside the log, the bitmap and the data. *)
Lemma sb_block s hl : fs_ok s -> holds_data s hl -> 1 ∉ hl.*2 /\ 1 < disksize (io (lg s)).
Proof.
  intros Hok [Hl Hh]. pose proof (fo_layout _ Hok) as Hs. split.
  - intros H1. destruct (Hh 1 H1) as [Hd _]. by apply (data_home s Hs) in Hd as (_ & ? & _).
  - destruct (layout_pos s Hs) as (? & ? & ?). pose proof (ly_size _ Hs). pose proof (ly_data _ Hs). lia.
Qed.

Lemma fs_readsb_ok s bl hl :
  held s bl hl -> (length bl < 29)%nat -> fs_ok s -> holds_data s hl ->
  exists s', Fs.readsb 1 s = Ret tt s' /\ held s' bl hl /\ same s s'.
Proof.
  intros Hh Hlen Hok Hhd. destruct (sb_block s hl Hok Hhd) as [H1 H1d].
  destruct (held_readsb s bl hl Hh H1 H1d) as (s' & R & Hh' & S).
  { unfold NBUF. destruct Hhd. lia. }
  exists s'. split_and!; try done. rewrite R, (fo_sb _ Hok).
  destruct (keeps_fields _ _ (same_keeps _ _ S)) as (<- & _ & _). by destruct s'.
Qed.

Lemma tx_readsb s hl F k :
  tx s hl F k -> fs_ok s -> holds_data s hl ->
  exists s', Fs.readsb 1 s = Ret tt s' /\ tx s' hl F k /\ same s s'.
Proof.
  intros Ht Hok Hhd.
  destruct (tx_run (Fs.readsb 1) s hl F k (fun _ _ => True) (fun _ => hl) Ht)
    as ([] & s' & ? & ? & ? & _); [|by exists s'].
  intros bl Hh Hlen. destruct (fs_readsb_ok s bl hl Hh Hlen Hok Hhd) as (s' & ? & ? & ?). by exists tt, s'.
Qed.

(** A bitmap block is fetched beside the block held. *)
Lemma tx_bread_bitmap s hl F k b :
  tx s hl F k -> fs_ok s -> holds_data s hl -> 0 <= b < size (sb s) ->
  exists i s', Fs.bread 1 (BBLOCK b (sb s)) s = Ret i s' /\ same s s' /\
    tx s' ((i, BBLOCK b (sb s)) :: hl) F k /\ data i s' = Ret (val s (BBLOCK b (sb s))) s'.
Proof.
  intros Ht Hok [Hl Hh] Hb. pose proof (fo_layout _ Hok) as Hs.
  pose proof (BBLOCK_bitmap s Hs b Hb) as Hbm. destruct (bitmap_home s Hs _ Hbm) as [[Hbh _] _].
  destruct (tx_bread s hl F k (BBLOCK b (sb s)) Ht) as (i & s' & R & T & S); [|done|lia|].
  { intros Hin. destruct (Hh _ Hin) as [Hd _]. by apply (data_home s Hs) in Hd as (_ & _ & ? & _). }
  exists i, s'. split_and!; try done. rewrite (tx_data s' _ F k i (BBLOCK b (sb s)) T) by left.
  by rewrite (sm_val _ _ S).
Qed.

Lemma same_holds_data s s' hl : same s s' -> holds_data s hl -> holds_data s' hl.
Proof.
  intros S [Hl Hh]. split; [done|]. intros n Hn. destruct (Hh n Hn).
  rewrite (same_used s s' n S). split; [|done].
  by apply (keeps_geometry _ _ (same_keeps _ _ S)).
Qed.

(** The bitmap block rewritten, logged and given back. *)
Lemma tx_bitmap_write s hl F k i b d :
  tx s ((i, BBLOCK b (sb s)) :: hl) F k -> fs_ok s -> bitmap_paid s F -> 0 <= b < size (sb s) ->
  exists s', (set_data i d ;;; Fs.log_write i ;;; Fs.brelse i) s = Ret tt s' /\ tx s' hl F k /\
    keeps s s' /\ (forall m, val s' m = if decide (m = BBLOCK b (sb s)) then d else val s m).
Proof.
  intros Ht Hok HF Hb. pose proof (fo_layout _ Hok) as Hs.
  pose proof (BBLOCK_bitmap s Hs b Hb) as Hbm. destruct (bitmap_home s Hs _ Hbm) as [Hbh _].
  destruct (tx_write s _ F k i (BBLOCK b (sb s)) d Ht) as (s1 & R1 & T1 & K1 & V1); [left|by apply HF|done|].
  destruct (tx_brelse s1 hl F k i _ T1) as (s2 & R2 & T2 & S2).
  exists s2. split_and!; try done.
  - by rewrite (bind_eq2 _ _ _ _ _ _ R1).
  - etrans; [done|by apply same_keeps].
  - intros m. by rewrite (sm_val _ _ S2), V1.
Qed.

Lemma bfree_ok s hl F k b :
  tx s hl F k -> fs_ok s -> holds_data s hl -> bitmap_paid s F ->
  data_block s b -> used s b = true ->
  exists s', bfree 1 b s = Ret tt s' /\ tx s' hl F k /\ bfreed s s' b.
Proof.
  intros Ht Hok Hhd HF Hb Hu. pose proof (fo_layout _ Hok) as Hs.
  destruct (data_home s Hs b Hb) as (_ & _ & _ & Hr). unfold bfree.
  destruct (tx_readsb s hl F k Ht Hok Hhd) as (s1 & R1 & T1 & S1).
  rewrite (bind_eq _ _ _ _ _ R1). erewrite (bind_eq get) by reflexivity.
  pose proof (same_keeps _ _ S1) as K1. destruct (keeps_fields _ _ K1) as (Esb & _ & _).
  assert (Hr1 : 0 <= b < size (sb s1)) by (by rewrite Esb).
  destruct (tx_bread_bitmap s1 hl F k b T1 (same_fs_ok _ _ S1 Hok) (same_holds_data _ _ _ S1 Hhd) Hr1)
    as (i & s2 & R2 & S2 & T2 & D2).
  rewrite (bind_eq _ _ _ _ _ R2), (bind_eq _ _ _ _ _ D2). cbv zeta.
  assert (S02 : same s s2) by (by etrans). pose proof (same_keeps _ _ S02) as K2.
  destruct (keeps_fields _ _ K2) as (Esb2 & _ & _).
  rewrite land_bit by (apply Z.mod_pos_bound; lia).
  change (Z.testbit _ _) with (used s1 b). rewrite (same_used s s1 b S1), Hu. cbn [negb].
  assert (T2' : tx s2 ((i, BBLOCK b (sb s2)) :: hl) F k) by (by rewrite Esb2, <- Esb).
  destruct (tx_bitmap_write s2 hl F k i b (clear_bit (val s1 (BBLOCK b (sb s1))) (b mod BPB)) T2')
    as (s3 & R3 & T3 & K3 & V3).
  { by apply (same_fs_ok s). }
  { intros m Hm. apply HF. by apply (keeps_geometry _ _ K2). }
  { by rewrite Esb2. }
  exists s3. split; [done|]. split; [done|].
  assert (K : keeps s s3) by (by etrans).
  assert (V : forall m, val s3 m = if decide (m = BBLOCK b (sb s))
      then clear_bit (val s (BBLOCK b (sb s))) (b mod BPB) else val s m).
  { intros m. rewrite V3, Esb2, Esb, (sm_val _ _ S1), (sm_val _ _ S02). done. }
  assert (U : forall c, 0 <= c < size (sb s) -> used s3 c = negb (bool_decide (b = c)) && used s c).
  { apply (used_rewrite s s3 b clear_bit (fun e x => negb e && x)); try done.
    - apply Hok.
    - intros. by apply bit_clear_bit. }
  assert (Vn : forall m, ~ bitmap_block s m -> val s3 m = val s m).
  { intros m Hm. rewrite V, decide_False; [done|]. intros ->. by apply Hm, BBLOCK_bitmap. }
  split; try done. apply (fs_ok_step s); try done.
  - intros m. rewrite V. case_decide; [apply clear_bit_ok|]; apply Hok.
  - apply Vn. intros Hm. by apply (bitmap_home s Hs) in Hm as [_ ?].
  - intros c Hc. rewrite U by (destruct Hb; unfold data_block in *; lia).
    rewrite bool_decide_false by (destruct Hb; lia). by apply (fo_meta s Hok).
Qed.

(** The bits of the bitmap block that [balloc] looks at in one turn. *)
Lemma turn_bit s q j :
  layout s -> 0 <= q -> 0 <= j < BPB -> BPB * q + j < size (sb s) ->
  BBLOCK (BPB * q + j) (sb s) = BBLOCK (BPB * q) (sb s) /\ (BPB * q + j) mod BPB = j /\
  bit (val s (BBLOCK (BPB * q) (sb s))) j = used s (BPB * q + j).
Proof.
  intros Hs Hq Hj Hsz. unfold BPB in *.
  assert (Ed : (4096 * q + j) / BPB = q) by (unfold BPB; rewrite (Z.mul_comm 4096), Z.div_add_l, Z.div_small; lia).
  assert (Ed0 : (4096 * q) / BPB = q) by (unfold BPB; rewrite (Z.mul_comm 4096), Z.div_mul; lia).
  assert (Em : (4096 * q + j) mod 4096 = j).
  { rewrite Z.add_comm, (Z.mul_comm 4096), Z.mod_add by lia. apply Z.mod_small. lia. }
  assert (EB : BBLOCK (4096 * q + j) (sb s) = BBLOCK (4096 * q) (sb s)).
  { rewrite !BBLOCK_eq by (done || lia). by rewrite Ed, Ed0. }
  split_and!; try done. unfold used. rewrite EB. unfold BPB. by rewrite Em.
Qed.

(** One turn that finds nothing. *)
Lemma balloc_miss s hl F k q :
  tx s hl F k -> fs_ok s -> holds_data s hl -> 0 <= q -> BPB * q < size (sb s) ->
  (forall c, BPB * q <= c < BPB * q + BPB -> c < size (sb s) -> used s c = true) ->
  exists s', balloc_body 1 (BPB * q) s = Ret (inl (BPB * (q + 1))) s' /\ tx s' hl F k /\ same s s'.
Proof.
  intros Ht Hok Hhd Hq Hsz Hu. pose proof (fo_layout _ Hok) as Hs.
  unfold balloc_body. erewrite (bind_eq get) by reflexivity.
  rewrite (proj2 (Z.ltb_lt _ _) Hsz).
  destruct (tx_bread_bitmap s hl F k (BPB * q) Ht Hok Hhd) as (i & s1 & R1 & S1 & T1 & D1).
  { unfold BPB in *. lia. }
  rewrite (bind_eq _ _ _ _ _ R1), (bind_eq _ _ _ _ _ D1).
  pose proof (scan_bits_spec (val s (BBLOCK (BPB * q) (sb s))) (BPB * q) (size (sb s)) (S (Z.to_nat BPB)) 0
    ltac:(lia) ltac:(unfold BPB; lia)) as Hscan.
  destruct (scan_bits _ _ _ _ _) as [r|].
  { exfalso. destruct Hscan as (Hr1 & Hr2 & Hr3 & _).
    destruct (turn_bit s q r Hs Hq Hr1 Hr2) as (_ & _ & E).
    rewrite E, Hu in Hr3; [done|unfold BPB in *; lia|done]. }
  destruct (tx_brelse s1 hl F k i _ T1) as (s2 & R2 & T2 & S2).
  rewrite (bind_eq _ _ _ _ _ R2). exists s2. split_and!; [|done|by etrans].
  unfold ret. do 2 f_equal. lia.
Qed.

(** The turn that finds block [b]. *)
Lemma balloc_hit s hl F k q j :
  tx s hl F (S k) -> fs_ok s -> holds_data s hl -> bitmap_paid s F -> 0 <= q -> 0 <= j < BPB ->
  BPB * q + j < size (sb s) -> used s (BPB * q + j) = false ->
  (forall c, BPB * q <= c < BPB * q + j -> used s c = true) ->
  exists s', balloc_body 1 (BPB * q) s = Ret (inr (BPB * q + j)) s' /\
    tx s' hl ({[BPB * q + j]} ∪ F) k /\ balloced s s' (BPB * q + j).
Proof.
  intros Ht Hok Hhd HF Hq Hj Hsz Hu Hlow. pose proof (fo_layout _ Hok) as Hs.
  destruct (turn_bit s q j Hs Hq Hj Hsz) as (EB & Em & Eb).
  assert (Hb : data_block s (BPB * q + j)).
  { split; [|done]. apply Z.nlt_ge. intros Hlt. rewrite (fo_meta s Hok) in Hu; [done|unfold BPB in *; lia]. }
  unfold balloc_body. erewrite (bind_eq get) by reflexivity.
  rewrite (proj2 (Z.ltb_lt _ _)) by lia.
  apply (tx_pay s hl F k (BPB * q + j)) in Ht.
  destruct (tx_bread_bitmap s hl _ k (BPB * q + j) Ht Hok Hhd) as (i & s1 & R1 & S1 & T1 & D1).
  { unfold BPB in *. lia. }
  rewrite EB in R1, D1.
  rewrite (bind_eq _ _ _ _ _ R1), (bind_eq _ _ _ _ _ D1).
  pose proof (scan_bits_spec (val s (BBLOCK (BPB * q) (sb s))) (BPB * q) (size (sb s)) (S (Z.to_nat BPB)) 0
    ltac:(lia) ltac:(unfold BPB; lia)) as Hscan.
  destruct (scan_bits _ _ _ _ _) as [r|].
  2:{ exfalso. rewrite (Hscan j) in Eb by lia. congruence. }
  assert (r = j) as ->.
  { destruct Hscan as (Hr1 & Hr2 & Hr3 & Hr4).
    destruct (Z.lt_trichotomy r j) as [Hlt|[?|Hlt]]; [|done|].
    - destruct (turn_bit s q r Hs Hq Hr1 Hr2) as (_ & _ & E). rewrite E, Hlow in Hr3; [done|lia].
    - rewrite Hr4 in Eb by lia. congruence. }
  clear Hscan. pose proof (same_keeps _ _ S1) as K1. destruct (keeps_fields _ _ K1) as (Esb & _ & _).
  rewrite <- Esb in T1.
  destruct (tx_bitmap_write s1 hl _ k i (BPB * q + j) (set_bit (val s (BBLOCK (BPB * q) (sb s))) j) T1)
    as (s2 & R2 & T2 & K2 & V2).
  { by apply (same_fs_ok s). }
  { intros m Hm. apply elem_of_union_r, HF. by apply (keeps_geometry _ _ K1). }
  { rewrite Esb. unfold BPB in *. lia. }
  assert (R2' : forall (A : Type) (k : M fst A), (set_data i (set_bit (val s (BBLOCK (BPB * q) (sb s))) j) ;;;
    Fs.log_write i ;;; Fs.brelse i ;;; k) s1 = k s2).
  { intros A k0. apply bind_ret_inv in R2 as ([] & s1a & Ra & R2). rewrite (bind_eq _ _ _ _ _ Ra).
    apply bind_ret_inv in R2 as ([] & s1b & Rb & R2). rewrite (bind_eq _ _ _ _ _ Rb).
    by rewrite (bind_eq _ _ _ _ _ R2). }
  rewrite R2'. assert (K02 : keeps s s2) by (by etrans).
  destruct (data_home s Hs _ Hb) as (Hhome & Hne1 & Hnbm & Hrange).
  destruct (tx_bzero s2 hl _ k (BPB * q + j) T2) as (s3 & R3 & T3 & K3 & V3).
  { intros Hin. destruct Hhd as [_ Hhd]. destruct (Hhd _ Hin) as [_ ?]. congruence. }
  { apply Hhd. }
  { set_solver. }
  { by apply (keeps_geometry _ _ K02). }
  rewrite (bind_eq _ _ _ _ _ R3). exists s3. split; [done|]. split; [done|].
  assert (V : forall m, val s3 m = if decide (m = BPB * q + j) then replicate BSIZE 0
      else if decide (m = BBLOCK (BPB * q + j) (sb s))
      then set_bit (val s (BBLOCK (BPB * q + j) (sb s))) ((BPB * q + j) mod BPB) else val s m).
  { intros m. rewrite V3, V2, Esb, (sm_val _ _ S1), EB, Em. done. }
  assert (Hbm : bitmap_block s (BBLOCK (BPB * q + j) (sb s))) by (by apply BBLOCK_bitmap).
  assert (K : keeps s s3) by (by etrans).
  assert (U : forall c, 0 <= c < size (sb s) -> used s3 c = bool_decide (BPB * q + j = c) || used s c).
  { apply (used_rewrite s s3 (BPB * q + j) set_bit orb); try done.
    - apply Hok.
    - intros. by apply bit_set_bit.
    - intros m Hm. rewrite V, decide_False; [done|]. by intros ->. }
  assert (Vn : forall m, m <> BPB * q + j -> ~ bitmap_block s m -> val s3 m = val s m).
  { intros m Hm Hnb. rewrite V, !decide_False; try done. by intros ->. }
  split; try done.
  - by rewrite V, decide_True.
  - apply (fs_ok_step s); try done.
    + intros m. rewrite V. repeat case_decide; [apply zeros_ok|apply set_bit_ok, Hok|apply Hok].
    + apply Vn; [done|]. intros Hm. by apply (bitmap_home s Hs) in Hm as [_ ?].
    + intros c Hc. rewrite U by (destruct Hb; lia). rewrite (fo_meta s Hok) by done. apply orb_true_r.
Qed.

(** The turns up to the one that finds a block, or to the end. *)
Lemma balloc_turns hl F k n : forall s q fuel,
  tx s hl F k -> fs_ok s -> holds_data s hl -> 0 <= q ->
  (forall c, BPB * q <= c < BPB * (q + Z.of_nat n) -> c < size (sb s) -> used s c = true) ->
  (n = O \/ BPB * (q + Z.of_nat n - 1) < size (sb s)) ->
  exists s', loop (n + fuel) (balloc_body 1) (BPB * q) s =
      loop fuel (balloc_body 1) (BPB * (q + Z.of_nat n)) s' /\ tx s' hl F k /\ same s s'.
Proof.
  induction n as [|n IH]; intros s q fuel Ht Hok Hhd Hq Hu Hsz.
  { exists s. split_and!; [|done|done]. cbn [Nat.add]. by rewrite Z.add_0_r. }
  destruct Hsz as [?|Hsz]; [done|].
  destruct (balloc_miss s hl F k q Ht Hok Hhd Hq) as (s1 & R1 & T1 & S1).
  { unfold BPB in *. lia. }
  { intros c Hc. apply Hu. unfold BPB in *. lia. }
  destruct (keeps_fields _ _ (same_keeps _ _ S1)) as (Esb & _ & _).
  destruct (IH s1 (q + 1) fuel T1 (same_fs_ok _ _ S1 Hok) (same_holds_data _ _ _ S1 Hhd)) as (s2 & R2 & T2 & S2).
  { lia. }
  { intros c Hc Hcs. rewrite (same_used s s1 c S1). rewrite Esb in Hcs. apply Hu; [|done].
    unfold BPB in *. lia. }
  { rewrite Esb. destruct n; [by left|right]. unfold BPB in *. lia. }
  exists s2. split_and!; [|done|by etrans].
  cbn [Nat.add loop]. rewrite (bind_eq _ _ _ _ _ R1), R2. f_equal. lia.
Qed.

(** [balloc] takes the first free block. *)
Lemma balloc_ok s hl F k b :
  tx s hl F (S k) -> fs_ok s -> holds_data s hl -> bitmap_paid s F ->
  0 <= b < size (sb s) -> used s b = false -> (forall c, 0 <= c < b -> used s c = true) ->
  exists s', balloc 1 s = Ret b s' /\ tx s' hl ({[b]} ∪ F) k /\ balloced s s' b.
Proof.
  intros Ht Hok Hhd HF Hb Hu Hlow. unfold balloc. erewrite (bind_eq get) by reflexivity.
  pose proof (Z.div_mod b BPB ltac:(unfold BPB; lia)) as Edm.
  pose proof (Z.mod_pos_bound b BPB ltac:(unfold BPB; lia)) as Hm.
  pose proof (Z.div_pos b BPB ltac:(lia) ltac:(unfold BPB; lia)) as Hq.
  assert (Hqs : b / BPB <= size (sb s) / BPB) by (apply Z.div_le_mono; unfold BPB; lia).
  set (q := b / BPB) in *. set (j := b mod BPB) in *.
  destruct (balloc_turns hl F (S k) (Z.to_nat q) s 0 (S (Z.to_nat (size (sb s) / BPB + 1) - Z.to_nat q))
    Ht Hok Hhd ltac:(lia)) as (s1 & R1 & T1 & S1).
  { intros c Hc _. apply Hlow. unfold BPB in *. lia. }
  { destruct (Z.to_nat q) eqn:Eq; [by left|right]. unfold BPB in *. lia. }
  replace (S (Z.to_nat (size (sb s) / BPB + 1)))
    with (Z.to_nat q + S (Z.to_nat (size (sb s) / BPB + 1) - Z.to_nat q))%nat by lia.
  change 0 with (BPB * 0). rewrite R1, Z.add_0_l, Z2Nat.id by done.
  pose proof (same_keeps _ _ S1) as K1. destruct (keeps_fields _ _ K1) as (Esb & _ & _).
  destruct (balloc_hit s1 hl F k q j T1 (same_fs_ok _ _ S1 Hok) (same_holds_data _ _ _ S1 Hhd))
    as (s2 & R2 & T2 & B2); try done.
  { intros m Hm'. apply HF. by apply (keeps_geometry _ _ K1). }
  { rewrite Esb, <- Edm. lia. }
  { rewrite <- Edm. by rewrite (same_used s s1 b S1). }
  { intros c Hc. rewrite (same_used s s1 c S1). apply Hlow. unfold BPB in *. lia. }
  rewrite <- Edm in *. exists s2. split.
  - cbn [loop]. by rewrite (bind_eq _ _ _ _ _ R2).
  - split; [done|]. destruct B2 as [H1 H2 H3 H4 H5 H6 H7]. split; try done.
    + by apply (keeps_geometry _ _ K1) in H1.
    + by etrans.
    + intros m Hm1 Hm2. rewrite H5; [by apply S1|done|].
      intros Hm3. apply Hm2. by apply (keeps_geometry _ _ K1).
    + intros c Hc. rewrite H6 by (by rewrite Esb). by rewrite (same_used s s1 c S1).
Qed.

Lemma balloc_full s hl F k :
  tx s hl F k -> fs_ok s -> holds_data s hl ->
  (forall c, 0 <= c < size (sb s) -> used s c = true) ->
  balloc 1 s = Panic "balloc: out of blocks".
Proof.
  intros Ht Hok Hhd Hu. unfold balloc. erewrite (bind_eq get) by reflexivity.
  destruct (layout_pos s (fo_layout _ Hok)) as ([Hsz _] & _ & Hq).
  set (q := (size (sb s) + BPB - 1) / BPB).
  pose proof (Z.div_mod (size (sb s)) BPB ltac:(unfold BPB; lia)) as Edm.
  pose proof (Z.mod_pos_bound (size (sb s)) BPB ltac:(unfold BPB; lia)) as Hm.
  pose proof (Z.div_mod (size (sb s) + BPB - 1) BPB ltac:(unfold BPB; lia)) as Edm2.
  pose proof (Z.mod_pos_bound (size (sb s) + BPB - 1) BPB ltac:(unfold BPB; lia)) as Hm2.
  fold q in Edm2. assert (Hqq : 0 <= q <= size (sb s) / BPB + 1) by (unfold BPB in *; lia).
  destruct (balloc_turns hl F k (Z.to_nat q) s 0 (S (Z.to_nat (size (sb s) / BPB + 1) - Z.to_nat q))
    Ht Hok Hhd ltac:(lia)) as (s1 & R1 & T1 & S1).
  { intros c Hc Hcs. apply Hu. unfold BPB in *. lia. }
  { destruct (Z.to_nat q) eqn:Eq; [by left|right]. unfold BPB in *. lia. }
  replace (S (Z.to_nat (size (sb s) / BPB + 1)))
    with (Z.to_nat q + S (Z.to_nat (size (sb s) / BPB + 1) - Z.to_nat q))%nat by lia.
  change 0 with (BPB * 0). rewrite R1, Z.add_0_l, Z2Nat.id by lia.
  destruct (keeps_fields _ _ (same_keeps _ _ S1)) as (Esb & _ & _).
  cbn [loop]. unfold bind at 1, balloc_body. erewrite (bind_eq get) by reflexivity.
  rewrite Esb. rewrite (proj2 (Z.ltb_ge _ _)) by (unfold BPB in *; lia). done.
Qed.

(** ** Counting the free blocks *)

Definition nfree (s : fst) : nat := length (filter (fun b => used s b = false) (seqZ 0 (size (sb s)))).

Lemma filter_same (f g : Z -> bool) (l : list Z) :
  (forall y, y ∈ l -> g y = f y) -> filter (fun y => f y = false) l = filter (fun y => g y = false) l.
Proof.
  induction l as [|z l IH]; intros H; [done|]. rewrite !filter_cons, (H z) by left.
  rewrite IH by (intros; apply H; by right). done.
Qed.

Lemma filter_drop_one (f g : Z -> bool) (l : list Z) x :
  NoDup l -> x ∈ l -> f x = false -> (forall y, y ∈ l -> g y = bool_decide (x = y) || f y) ->
  length (filter (fun y => f y = false) l) = S (length (filter (fun y => g y = false) l)).
Proof.
  intros Hnd. induction Hnd as [|y l Hy Hnd IH]; intros Hx Hf Hg; [by apply not_elem_of_nil in Hx|].
  rewrite !filter_cons. pose proof (Hg y ltac:(left)) as Ey.
  destruct (decide (x = y)) as [->|Hne].
  - rewrite bool_decide_true in Ey by done. rewrite decide_True by done.
    rewrite decide_False by (by rewrite Ey). cbn. do 2 f_equal. apply filter_same.
    intros z Hz. rewrite Hg by (by right). rewrite bool_decide_false; [done|]. by intros ->.
  - apply elem_of_cons in Hx as [->|Hx]; [done|].
    rewrite bool_decide_false in Ey by done. cbn in Ey. rewrite Ey.
    assert (E : length (filter (fun y => f y = false) l) = S (length (filter (fun y => g y = false) l))).
    { apply IH; try done. intros z Hz. apply Hg. by right. }
    case_decide; cbn; by rewrite E.
Qed.

Lemma first_free_block s :
  nfree s <> 0%nat ->
  exists b, 0 <= b < size (sb s) /\ used s b = false /\ forall c, 0 <= c < b -> used s c = true.
Proof.
  unfold nfree. intros Hn.
  destruct (list_find (fun b => used s b = false) (seqZ 0 (size (sb s)))) as [[i b]|] eqn:E.
  - apply list_find_Some in E as (Hi & Hu & Hlow). apply lookup_seqZ in Hi as [-> Hi].
    exists (0 + Z.of_nat i). split_and!; [lia..|done|]. intros c Hc.
    assert (Hlk : seqZ 0 (size (sb s)) !! Z.to_nat c = Some c) by (apply lookup_seqZ; lia).
    specialize (Hlow _ _ Hlk ltac:(lia)). by destruct (used s c).
  - apply list_find_None in E. exfalso. apply Hn. rewrite Forall_forall in E.
    destruct (filter _ _) as [|x l] eqn:Ef; [done|].
    assert (Hx : x ∈ filter (fun b => used s b = false) (seqZ 0 (size (sb s)))) by (rewrite Ef; left).
    apply list_elem_of_filter in Hx as [Hx1 Hx2]. by apply E in Hx2.
Qed.

Lemma no_free s : nfree s = 0%nat -> forall c, 0 <= c < size (sb s) -> used s c = true.
Proof.
  unfold nfree. intros Hn c Hc. apply length_zero_iff_nil in Hn.
  destruct (used s c) eqn:E; [done|].
  assert (Hx : c ∈ filter (fun b => used s b = false) (seqZ 0 (size (sb s)))).
  { apply list_elem_of_filter. split; [done|]. apply elem_of_seqZ. lia. }
  rewrite Hn in Hx. by apply not_elem_of_nil in Hx.
Qed.

(** Reading a block first makes no difference to what [balloc] does. *)
Lemma same_balloced s s1 s2 b : same s s1 -> balloced s1 s2 b -> balloced s s2 b.
Proof.
  intros S1 [D1 D2 D3 D4 D5 D6 D7]. pose proof (same_keeps _ _ S1) as K1.
  destruct (keeps_fields _ _ K1) as (Esb & _). split; try done.
  - by apply (keeps_geometry _ _ K1).
  - by rewrite <- (same_used s s1 b S1).
  - by etrans.
  - intros m Hm1 Hm2. rewrite D5; [apply S1|done|]. intros Hb. by apply Hm2, (keeps_geometry _ _ K1).
  - intros c Hc. rewrite D6 by (by rewrite Esb). by rewrite (same_used s s1 c S1).
Qed.

Lemma balloced_nfree s s' b : layout s -> balloced s s' b -> nfree s = S (nfree s').
Proof.
  intros Hs H. unfold nfree. destruct (keeps_fields _ _ (al_keeps _ _ _ H)) as (-> & _ & _).
  destruct (data_home s Hs b (al_data _ _ _ H)) as (_ & _ & _ & Hr).
  apply (filter_drop_one (used s) (used s') _ b); [apply NoDup_seqZ|apply elem_of_seqZ; lia|apply H|].
  intros y Hy. apply elem_of_seqZ in Hy. apply (al_used _ _ _ H). lia.
Qed.

Lemma balloc_any s hl F k :
  tx s hl F (S k) -> fs_ok s -> holds_data s hl -> bitmap_paid s F -> nfree s <> 0%nat ->
  exists b s', balloc 1 s = Ret b s' /\ tx s' hl ({[b]} ∪ F) k /\ balloced s s' b /\
    nfree s = S (nfree s').
Proof.
  intros Ht Hok Hhd HF Hn. destruct (first_free_block s Hn) as (b & Hb & Hu & Hlow).
  destruct (balloc_ok s hl F k b Ht Hok Hhd HF Hb Hu Hlow) as (s' & R & T & B).
  exists b, s'. split_and!; try done. apply (balloced_nfree s s' b); [apply Hok|done].
Qed.
