(* ===== verification/FsInode.v ===== *)
(** * Inodes on disk and in the cache

    Half-words and words of an inode block, the round trip between an inode in
    memory and its 64 bytes on disk, and [iupdate]. *)

From S2P Require Import Prelude Locks Bio Log LogFacts Fs FsTx FsBlocks.
Import Bio BioFacts Log LogFacts Fs.

(** ** Bytes replaced in a block *)

Lemma splice_length d off bs :
  0 <= off -> (Z.to_nat off + length bs <= length d)%nat -> length (splice d off bs) = length d.
Proof. intros Ho H. unfold splice. rewrite !length_app, length_take, length_drop. lia. Qed.

Lemma splice_nth d off bs j :
  (Z.to_nat off + length bs <= length d)%nat ->
  nth j (splice d off bs) 0 =
  if decide (Z.to_nat off <= j < Z.to_nat off + length bs)%nat then nth (j - Z.to_nat off) bs 0 else nth j d 0.
Proof.
  intros H. unfold splice. rewrite !nth_lookup.
  assert (Hl : length (take (Z.to_nat off) d) = Z.to_nat off) by (rewrite length_take; lia).
  case_decide as E.
  - rewrite lookup_app_r, Hl, lookup_app_l by lia. done.
  - destruct (decide (j < Z.to_nat off)%nat).
    + rewrite lookup_app_l, lookup_take_lt by lia. done.
    + rewrite lookup_app_r, Hl, lookup_app_r, lookup_drop by lia. do 2 f_equal. lia.
Qed.

Lemma splice_ok d off bs :
  block_ok d -> 0 <= off -> (Z.to_nat off + length bs <= BSIZE)%nat -> Forall byte bs -> block_ok (splice d off bs).
Proof.
  intros [Hl Hb] Ho H Hbs. split; [rewrite splice_length; lia|].
  unfold splice. repeat apply Forall_app_2; [by apply Forall_take|done|by apply Forall_drop].
Qed.

Lemma mod_byte v : byte (v mod 256).
Proof. apply Z.mod_pos_bound. lia. Qed.

Lemma st_word_ok d i v : block_ok d -> (4 * i + 4 <= BSIZE)%nat -> block_ok (st_word d i v).
Proof.
  intros [Hl Hb] Hi. split; [rewrite st_word_length; lia|]. unfold st_word.
  repeat apply Forall_app_2; [by apply Forall_take| |by apply Forall_drop].
  repeat (apply Forall_cons; split; [apply mod_byte|]). apply Forall_nil_2.
Qed.

Lemma st_half_ok d i v : block_ok d -> (2 * i + 2 <= BSIZE)%nat -> block_ok (st_half d i v).
Proof.
  intros H Hi. apply splice_ok; [done|lia|cbn [length]; lia|].
  repeat (apply Forall_cons; split; [apply mod_byte|]). apply Forall_nil_2.
Qed.

Lemma ld_word_range d i : block_ok d -> 0 <= ld_word d i < 4294967296.
Proof.
  intros H. unfold ld_word.
  pose proof (nth_byte d (4 * i) H). pose proof (nth_byte d (4 * i + 1) H).
  pose proof (nth_byte d (4 * i + 2) H). pose proof (nth_byte d (4 * i + 3) H). unfold byte in *. lia.
Qed.

Lemma ld_word_zeros i n : ld_word (replicate n 0) i = 0.
Proof.
  unfold ld_word.
  assert (H : forall j, nth j (replicate n 0) 0 = 0).
  { intros j. rewrite nth_lookup. destruct (replicate n 0 !! j) as [v|] eqn:E; [|done].
    by apply lookup_replicate in E as [-> _]. }
  by rewrite !H.
Qed.

Lemma i16_small v : -32768 <= v < 32768 -> i16 v = v.
Proof. intros H. unfold i16. rewrite Z.mod_small; lia. Qed.

Lemma i16_range v : -32768 <= i16 v < 32768.
Proof. unfold i16. pose proof (Z.mod_pos_bound (v + 32768) 65536). lia. Qed.

Lemma half_bytes v : -32768 <= v < 32768 -> i16 (v mod 256 + 256 * (v / 256 mod 256)) = v.
Proof.
  intros Hv. unfold i16. pose proof (Z.div_mod v 256 ltac:(lia)). pose proof (Z.mod_pos_bound v 256 ltac:(lia)).
  pose proof (Z.div_mod (v / 256) 256 ltac:(lia)). pose proof (Z.mod_pos_bound (v / 256) 256 ltac:(lia)).
  assert (v / 256 / 256 = 0 \/ v / 256 / 256 = -1) as [E|E] by lia; rewrite E in *.
  - rewrite Z.mod_small; lia.
  - replace (v mod 256 + 256 * (v / 256 mod 256) + 32768) with ((v + 32768) + 1 * 65536) by lia.
    rewrite Z.mod_add by lia. rewrite Z.mod_small; lia.
Qed.

Lemma ld_st_half d i j v :
  (2 * i + 2 <= length d)%nat -> -32768 <= v < 32768 ->
  ld_half (st_half d i v) j = if decide (i = j) then v else ld_half d j.
Proof.
  intros Hd Hv. unfold ld_half, st_half.
  rewrite !splice_nth by (rewrite Nat2Z.id; cbn [length]; lia). rewrite !Nat2Z.id. cbn [length].
  destruct (decide (i = j)) as [<-|E].
  - rewrite !decide_True by lia. replace (2 * i - 2 * i)%nat with 0%nat by lia.
    replace (2 * i + 1 - 2 * i)%nat with 1%nat by lia. by apply half_bytes.
  - rewrite !decide_False by lia. done.
Qed.

Lemma ld_half_st_word d i j v :
  (4 * i + 4 <= length d)%nat -> (j < 2 * i \/ 2 * i + 2 <= j)%nat ->
  ld_half (st_word d i v) j = ld_half d j.
Proof. intros Hd Hj. unfold ld_half. rewrite !st_word_nth, !decide_False by lia. done. Qed.

Lemma ld_word_st_half d i j v :
  (2 * i + 2 <= length d)%nat -> (i < 2 * j \/ 2 * j + 2 <= i)%nat ->
  ld_word (st_half d i v) j = ld_word d j.
Proof.
  intros Hd Hj. unfold ld_word, st_half.
  rewrite !splice_nth by (rewrite Nat2Z.id; cbn [length]; lia). rewrite Nat2Z.id. cbn [length].
  rewrite !decide_False by lia. done.
Qed.

Lemma st_half_length d i v : (2 * i + 2 <= length d)%nat -> length (st_half d i v) = length d.
Proof. intros H. apply splice_length; [lia|]. rewrite Nat2Z.id. cbn [length]. lia. Qed.

(** ** The round trip of an inode *)

(** The values the fields of an inode can hold. *)
Record fields_ok (x : inode) : Prop := {
  fd_type : -32768 <= type x < 32768; fd_major : -32768 <= major x < 32768;
  fd_minor : -32768 <= minor x < 32768; fd_nlink : -32768 <= nlink x < 32768;
  fd_size : 0 <= isize x < 4294967296; fd_len : length (addrs x) = 13%nat; fd_addrs : words (addrs x) }.

(** The stores of the addresses. *)
Lemma addr_stores (l : list Z) b n : forall d,
  words l -> (n <= length l)%nat -> (4 * (b + n) <= length d)%nat ->
  let d' := foldl (fun d j => st_word d (b + j) (nth j l 0)) d (seq 0 n) in
  length d' = length d /\
  (forall j, ld_word d' j = if decide (b <= j < b + n)%nat then nth (j - b) l 0 else ld_word d j) /\
  (forall j, (j < 2 * b \/ 2 * (b + n) <= j)%nat -> ld_half d' j = ld_half d j).
Proof.
  induction n as [|n IH]; intros d Hw Hn Hd; cbn zeta in *.
  { cbn. split_and!; [done| |done]. intros j. by rewrite decide_False by lia. }
  rewrite seq_S, foldl_app. cbn [foldl]. change (0 + n)%nat with n.
  destruct (IH d Hw ltac:(lia) ltac:(lia)) as (L & W & H).
  set (d' := foldl _ d (seq 0 n)) in *.
  assert (Hv : 0 <= nth n l 0 < 4294967296).
  { destruct (lookup_lt_is_Some_2 l n ltac:(lia)) as [v Hv]. rewrite (nth_lookup_Some _ _ 0 _ Hv).
    unfold words in Hw. rewrite Forall_lookup in Hw. eauto. }
  split_and!.
  - rewrite st_word_length; lia.
  - intros j. rewrite ld_st_word by (done || lia). rewrite W.
    destruct (decide (b + n = j)%nat) as [<-|].
    + rewrite decide_True by lia. f_equal. lia.
    + destruct (decide (b <= j < b + n)%nat); [by rewrite decide_True by lia|by rewrite decide_False by lia].
  - intros j Hj. rewrite ld_half_st_word by lia. apply H. lia.
Qed.

(** The four half-words, the size and the addresses that a [dinode] has in
    slot [k]. *)
Lemma put_dinode_fields x k d :
  fields_ok x -> (64 * k + 64 <= length d)%nat ->
  length (put_dinode x k d) = length d /\
  (forall j, ld_half (put_dinode x k d) (32 * k + j) =
     match j with 0%nat => type x | 1%nat => major x | 2%nat => minor x | 3%nat => nlink x
     | _ => ld_half (put_dinode x k d) (32 * k + j) end) /\
  ld_word (put_dinode x k d) (16 * k + 2) = isize x /\
  (forall j, (j < 13)%nat -> ld_word (put_dinode x k d) (16 * k + 3 + j) = nth j (addrs x) 0) /\
  (forall j, (j < 32 * k \/ 32 * k + 32 <= j)%nat -> ld_half (put_dinode x k d) j = ld_half d j) /\
  (forall j, (j < 16 * k \/ 16 * k + 16 <= j)%nat -> ld_word (put_dinode x k d) j = ld_word d j).
Proof.
  intros [Ht Hmj Hmn Hnl Hsz Hlen Hw] Hd. unfold put_dinode.
  set (d1 := st_half d (32 * k) (type x)). set (d2 := st_half d1 (32 * k + 1) (major x)).
  set (d3 := st_half d2 (32 * k + 2) (minor x)). set (d4 := st_half d3 (32 * k + 3) (nlink x)).
  set (d5 := st_word d4 (16 * k + 2) (isize x)). cbv zeta.
  assert (L1 : length d1 = length d) by (apply st_half_length; lia).
  assert (L2 : length d2 = length d) by (unfold d2; rewrite st_half_length; lia).
  assert (L3 : length d3 = length d) by (unfold d3; rewrite st_half_length; lia).
  assert (L4 : length d4 = length d) by (unfold d4; rewrite st_half_length; lia).
  assert (L5 : length d5 = length d) by (unfold d5; rewrite st_word_length; lia).
  destruct (addr_stores (addrs x) (16 * k + 3) 13 d5 Hw ltac:(lia) ltac:(lia)) as (L & W & H).
  set (d6 := foldl _ d5 (seq 0 13)) in *.
  assert (Hhalf : forall j, (j < 32 * k + 4 \/ 32 * k + 32 <= j)%nat ->
    ld_half d6 j = if decide (32 * k + 3 = j)%nat then nlink x else if decide (32 * k + 2 = j)%nat then minor x
      else if decide (32 * k + 1 = j)%nat then major x else if decide (32 * k = j)%nat then type x else ld_half d j).
  { intros j Hj. rewrite H by lia. unfold d5. rewrite ld_half_st_word by lia.
    unfold d4, d3, d2, d1. rewrite !ld_st_half by (fold d1; fold d2; fold d3; done || lia). done. }
  assert (Hword : forall j, (j < 16 * k \/ 16 * k + 2 <= j)%nat ->
    ld_word d5 j = if decide (16 * k + 2 = j)%nat then isize x else ld_word d j).
  { intros j Hj. unfold d5. rewrite ld_st_word by (done || lia). case_decide; [done|].
    unfold d4, d3, d2, d1. rewrite !ld_word_st_half by (fold d1; fold d2; fold d3; lia). done. }
  split_and!.
  - by rewrite L, L5.
  - intros j. do 4 (destruct j as [|j]; [rewrite Hhalf by lia; repeat case_decide; solve [done|lia]|]). done.
  - rewrite W, decide_False by lia. rewrite Hword by lia. by rewrite decide_True by done.
  - intros j Hj. rewrite W, decide_True by lia. f_equal. lia.
  - intros j Hj. rewrite Hhalf by lia. by rewrite !decide_False by lia.
  - intros j Hj. rewrite W, decide_False by lia. rewrite Hword by lia. by rewrite decide_False by lia.
Qed.

(** What of an inode is on disk, the rest taken from [y]. *)
Definition dinode_of (x y : inode) : inode :=
  {| idev := idev y; inum := inum y; iref := iref y; ilocked := ilocked y; ivalid := ivalid y;
     type := type x; major := major x; minor := minor x; nlink := nlink x; isize := isize x;
     addrs := addrs x |}.

Lemma get_put_dinode x y k d :
  fields_ok x -> (64 * k + 64 <= length d)%nat -> get_dinode k (put_dinode x k d) y = dinode_of x y.
Proof.
  intros Hx Hd. destruct (put_dinode_fields x k d Hx Hd) as (_ & H & Hs & Ha & _ & _).
  assert (H0 : ld_half (put_dinode x k d) (32 * k) = type x).
  { rewrite <- (Nat.add_0_r (32 * k)). exact (H 0%nat). }
  pose proof (H 1%nat : _ = major x) as H1. pose proof (H 2%nat : _ = minor x) as H2.
  pose proof (H 3%nat : _ = nlink x) as H3.
  unfold get_dinode, dinode_of. rewrite H0, H1, H2, H3, Hs. f_equal.
  apply list_eq. intros j. rewrite list_lookup_fmap.
  destruct (decide (j < 13)%nat) as [Hj|Hj].
  - rewrite lookup_seq_lt by done. change (0 + j)%nat with j. cbn [fmap option_fmap option_map]. rewrite Ha by lia.
    destruct (lookup_lt_is_Some_2 (addrs x) j) as [v Hv]; [by rewrite (fd_len _ Hx)|].
    by rewrite Hv, (nth_lookup_Some _ _ 0 _ Hv).
  - rewrite lookup_seq_ge by lia. cbn. symmetry. apply lookup_ge_None. rewrite (fd_len _ Hx). lia.
Qed.

Lemma get_put_other x y k k' d :
  fields_ok x -> (64 * k + 64 <= length d)%nat -> k <> k' ->
  get_dinode k' (put_dinode x k d) y = get_dinode k' d y.
Proof.
  intros Hx Hd Hk. destruct (put_dinode_fields x k d Hx Hd) as (_ & _ & _ & _ & Hh & Hw).
  unfold get_dinode. rewrite !Hh, !Hw by lia. f_equal.
  apply list_fmap_ext. intros i j Hj. apply Hw. apply lookup_seq in Hj. lia.
Qed.

Lemma put_dinode_ok x k d :
  block_ok d -> fields_ok x -> (k < 8)%nat -> block_ok (put_dinode x k d).
Proof.
  intros Hd Hx Hk. unfold put_dinode.
  assert (Hf : forall l d, block_ok d -> (forall j, j ∈ l -> (j < 13)%nat) ->
    block_ok (foldl (fun d j => st_word d (16 * k + 3 + j) (nth j (addrs x) 0)) d l)).
  { induction l as [|j l IH]; intros d0 Hd0 Hl; [done|]. cbn [foldl]. apply IH.
    - apply st_word_ok; [done|]. specialize (Hl j ltac:(left)). unfold BSIZE. lia.
    - intros i Hi. apply Hl. by right. }
  apply Hf; [|intros j Hj; apply elem_of_seq in Hj; lia].
  apply st_word_ok; [|unfold BSIZE; lia]. repeat (apply st_half_ok; [|unfold BSIZE; lia]). done.
Qed.

(** ** The block of an inode *)

Definition inode_block (s : fst) (m : Z) : Prop := inodestart (sb s) <= m < bmapstart (sb s).

Lemma IBLOCK_eq s i :
  layout s -> 0 <= i < ninodes (sb s) ->
  IBLOCK i (sb s) = i / IPB + inodestart (sb s) /\ inode_block s (IBLOCK i (sb s)).
Proof.
  intros Hs Hi. destruct (layout_pos s Hs) as (? & ? & ?). destruct Hs as [[? ?] [? ?] ? ? [? ?]].
  assert (0 <= i / IPB) by (apply Z.div_pos; unfold IPB; lia).
  assert (i / IPB <= ninodes (sb s) / IPB) by (apply Z.div_le_mono; unfold IPB; lia).
  assert (E : IBLOCK i (sb s) = i / IPB + inodestart (sb s)).
  { unfold IBLOCK. apply u32_small. lia. }
  split; [done|]. rewrite E. unfold inode_block. lia.
Qed.

Lemma inode_home s m :
  layout s -> inode_block s m ->
  home_block s m /\ m <> 1 /\ ~ bitmap_block s m /\ ~ data_block s m.
Proof.
  intros Hs Hm. destruct (layout_pos s Hs) as (? & ? & ?). destruct Hs as [[? ?] [? ?] ? ? [? ?]].
  unfold inode_block, home_block, bitmap_block, data_block, meta_end in *. lia.
Qed.

(** Inode [i] as the disk has it, the fields of the cache taken from [y]. *)
Definition ondisk (s : fst) (i : Z) (y : inode) : inode :=
  get_dinode (Z.to_nat (i mod IPB)) (val s (IBLOCK i (sb s))) y.

Lemma ondisk_fields s i y : fs_ok s -> fields_ok (ondisk s i y).
Proof.
  intros Hok. pose proof (fo_blocks _ Hok (IBLOCK i (sb s))) as Hb.
  split; cbn [ondisk get_dinode type major minor nlink isize addrs]; try apply i16_range.
  - by apply ld_word_range.
  - by rewrite length_fmap, length_seq.
  - apply Forall_fmap, Forall_forall. intros j _. by apply ld_word_range.
Qed.

(** Inodes in the same block have different slots. *)
Lemma inode_slots s i j :
  layout s -> 0 <= i < ninodes (sb s) -> 0 <= j < ninodes (sb s) ->
  IBLOCK i (sb s) = IBLOCK j (sb s) -> Z.to_nat (i mod IPB) = Z.to_nat (j mod IPB) -> i = j.
Proof.
  intros Hs Hi Hj. rewrite (proj1 (IBLOCK_eq s i Hs Hi)), (proj1 (IBLOCK_eq s j Hs Hj)).
  intros E1 E2. unfold IPB in *.
  pose proof (Z.mod_pos_bound i 8 ltac:(lia)). pose proof (Z.mod_pos_bound j 8 ltac:(lia)).
  pose proof (Z.div_mod i 8 ltac:(lia)). pose proof (Z.div_mod j 8 ltac:(lia)). lia.
Qed.

Lemma iat_ok s ip x : icache s !! ip = Some x -> iat ip s = Ret x s.
Proof. intros H. unfold iat, bind, get. by rewrite H. Qed.

(** [iupdate] makes the disk agree with the inode in memory, and touches no
    other inode. *)
Lemma iupdate_ok s hl F k ip x :
  tx s hl F k -> fs_ok s -> holds_data s hl -> icache s !! ip = Some x -> idev x = 1 ->
  0 <= inum x < ninodes (sb s) -> fields_ok x -> IBLOCK (inum x) (sb s) ∈ F ->
  exists s', iupdate ip s = Ret tt s' /\ tx s' hl F k /\ keeps s s' /\ fs_ok s' /\
    (forall m, m <> IBLOCK (inum x) (sb s) -> val s' m = val s m) /\
    (forall b, 0 <= b < size (sb s) -> used s' b = used s b) /\
    (forall y, ondisk s' (inum x) y = dinode_of x y) /\
    (forall i y, 0 <= i < ninodes (sb s) -> i <> inum x -> ondisk s' i y = ondisk s i y).
Proof.
  intros Ht Hok [Hl Hh] Hx Hdev Hi Hf HF. pose proof (fo_layout _ Hok) as Hs.
  destruct (IBLOCK_eq s (inum x) Hs Hi) as [_ Hib]. destruct (inode_home s _ Hs Hib) as (Hhome & Hn1 & Hnb & Hnd).
  unfold iupdate. rewrite (bind_eq _ _ _ _ _ (iat_ok _ _ _ Hx)). erewrite (bind_eq get) by reflexivity.
  rewrite Hdev. destruct (tx_bread s hl F k (IBLOCK (inum x) (sb s)) Ht) as (i & s1 & R1 & T1 & S1).
  { intros Hin. destruct (Hh _ Hin) as [Hd _]. by apply Hnd. }
  { done. }
  { apply Hhome. }
  rewrite (bind_eq _ _ _ _ _ R1). rewrite (bind_eq _ _ _ _ _ (tx_data s1 _ F k i _ T1 ltac:(left))).
  pose proof (same_keeps _ _ S1) as K1.
  destruct (tx_write s1 _ F k i (IBLOCK (inum x) (sb s))
    (put_dinode x (Z.to_nat (inum x mod IPB)) (val s1 (IBLOCK (inum x) (sb s)))) T1) as (s2 & R2 & T2 & K2 & V2).
  { left. }
  { done. }
  { by apply (keeps_geometry _ _ K1). }
  rewrite (bind_eq2 _ _ _ _ _ _ R2). destruct (tx_brelse s2 hl F k i _ T2) as (s3 & R3 & T3 & S3).
  exists s3. split; [done|]. split; [done|].
  assert (K : keeps s s3) by (etrans; [done|]; etrans; [done|by apply same_keeps]).
  destruct (keeps_fields _ _ K) as (Esb & _ & _).
  assert (V : forall m, val s3 m = if decide (m = IBLOCK (inum x) (sb s))
    then put_dinode x (Z.to_nat (inum x mod IPB)) (val s m) else val s m).
  { intros m. rewrite (sm_val _ _ S3), V2, !(sm_val _ _ S1). by case_decide as E; [rewrite E|]. }
  assert (Hk8 : (Z.to_nat (inum x mod IPB) < 8)%nat).
  { pose proof (Z.mod_pos_bound (inum x) IPB). unfold IPB in *. lia. }
  assert (Vn : forall m, m <> IBLOCK (inum x) (sb s) -> val s3 m = val s m)
    by (intros m Hm; by rewrite V, decide_False).
  assert (U : forall b, 0 <= b < size (sb s) -> used s3 b = used s b).
  { intros b Hb. unfold used. rewrite Esb, Vn; [done|]. intros E. apply Hnb. rewrite <- E.
    by apply BBLOCK_bitmap. }
  assert (Hlen : forall m, (64 * Z.to_nat (inum x mod IPB) + 64 <= length (val s m))%nat).
  { intros m. rewrite (proj1 (fo_blocks _ Hok m)). unfold BSIZE. lia. }
  split; [done|]. split; [|split; [done|split; [done|split]]].
  - apply (fs_ok_step s); try done.
    + intros m. rewrite V. case_decide; [apply put_dinode_ok; [apply Hok|done..]|apply Hok].
    + apply Vn. done.
    + intros b Hb. destruct (ly_data _ Hs). rewrite U; [by apply (fo_meta s Hok)|].
      pose proof (ly_data _ Hs). unfold meta_end in Hb. lia.
  - intros y. unfold ondisk. rewrite Esb, V, decide_True by done. by apply get_put_dinode.
  - intros j y Hj Hne. unfold ondisk. rewrite Esb, V. case_decide as E; [|done].
    rewrite get_put_other; [done..|]. intros Ek. apply Hne. symmetry. by apply (inode_slots s).
Qed.
