(* ===== verification/FsFile.v ===== *)
(** * The content of a file

    A file is the sequence of its bytes; [bmap] finds or allocates the block
    of a byte, [readi] reads a range and [writei] replaces one.  [slot] is the
    block that holds each part of the file, [fbyte] a byte of it, [touched]
    what an operation on the file may change. *)

From S2P Require Import Prelude Locks Bio Log LogFacts Fs FsTx FsBlocks FsInode.
Import Bio BioFacts Log LogFacts Fs.

(** The blocks of a file: the data blocks by their place, then the block of
    addresses. *)
Definition slot (s : fst) (x : inode) (j : Z) : Z :=
  if j <? NDIRECT then addr_at x j
  else if j =? MAXFILE then addr_at x NDIRECT
  else if addr_at x NDIRECT =? 0 then 0
  else ld_word (val s (addr_at x NDIRECT)) (Z.to_nat (j - NDIRECT)).

(** A byte of the file; a part without a block reads as zeros. *)
Definition fbyte (s : fst) (x : inode) (o : Z) : Z :=
  if slot s x (o / bsize) =? 0 then 0
  else nth (Z.to_nat (o mod bsize)) (val s (slot s x (o / bsize))) 0.

Definition place (j : Z) : Prop := 0 <= j <= MAXFILE.
Definition fsize_ok (x : inode) : Prop := 0 <= isize x <= MAXFILE * bsize.

(** The blocks of a file are used data blocks, each in one place. *)
Record file_ok (s : fst) (x : inode) : Prop := {
  fl_fields : fields_ok x;
  fl_dev : idev x = 1;
  fl_inum : 0 <= inum x < ninodes (sb s);
  fl_data : forall j, place j -> slot s x j <> 0 -> data_block s (slot s x j) /\ used s (slot s x j) = true;
  fl_inj : forall i j, place i -> place j -> slot s x i = slot s x j -> slot s x i <> 0 -> i = j;
  fl_size : fsize_ok x }.

(** What an operation on the file in slot [ip] of the cache may do: the file
    keeps its blocks and takes free ones; nothing else changes but the bitmap
    and, when [upd] is set, its own inode on disk. *)
Record changed (upd : bool) (s s' : fst) (ip : nat) (x x' : inode) : Prop := {
  to_keeps : keeps (with_icache (<[ip := x']> (icache s)) s) s';
  to_ok : fs_ok s';
  to_file : file_ok s' x';
  to_meta : x' = set_isize (isize x') (set_addrs (addrs x') x);
  to_slots : forall j, place j -> slot s x j <> 0 -> slot s' x' j = slot s x j;
  to_new : forall j, place j -> slot s x j = 0 -> slot s' x' j <> 0 -> used s (slot s' x' j) = false;
  to_used : forall b, 0 <= b < size (sb s) -> used s b = true -> used s' b = true;
  to_fresh : forall b, 0 <= b < size (sb s) -> used s b = false -> used s' b = true ->
    exists j, place j /\ slot s' x' j = b;
  to_val : forall m, ~ bitmap_block s m -> (upd = true -> m <> IBLOCK (inum x) (sb s)) ->
    (data_block s m -> used s m = true /\ forall j, place j -> slot s x j <> m) -> val s' m = val s m;
  to_inodes : forall i y, 0 <= i < ninodes (sb s) -> (upd = true -> i <> inum x) -> ondisk s' i y = ondisk s i y }.
Notation touched := (changed false).

Lemma keeps_icache c s s' : keeps s s' -> keeps (with_icache c s) (with_icache c s').
Proof. intros [E ? ? ? ? ?]. split; try done. by rewrite E. Qed.

Lemma touched_sb u s s' ip x x' : changed u s s' ip x x' ->
  sb s' = sb s /\ icache s' = <[ip := x']> (icache s) /\ icache_lk s' = icache_lk s.
Proof. intros H. apply (keeps_fields _ _ (to_keeps _ _ _ _ _ _ H)). Qed.

Lemma touched_geometry u s s' ip x x' : changed u s s' ip x x' ->
  (forall m, data_block s' m <-> data_block s m) /\ (forall m, bitmap_block s' m <-> bitmap_block s m) /\
  (forall m, home_block s' m <-> home_block s m).
Proof. intros H. apply (keeps_geometry _ _ (to_keeps _ _ _ _ _ _ H)). Qed.

Lemma data_pos s b : layout s -> data_block s b -> b <> 0 /\ 0 <= b < size (sb s).
Proof.
  intros Hs Hb. pose proof (data_home s Hs b Hb) as (_ & _ & _ & Hr).
  destruct (layout_pos s Hs) as (? & ? & ?). destruct Hb. unfold meta_end in *. lia.
Qed.

Lemma touched_refl s ip x :
  fs_ok s -> file_ok s x -> icache s !! ip = Some x -> touched s s ip x x.
Proof.
  intros Hok Hf Hx. split; try done.
  - rewrite list_insert_id by done. by destruct s.
  - by destruct x.
  - intros b _ E1 E2. congruence.
Qed.

Lemma touched_trans u s s1 s2 ip x x1 x2 :
  fs_ok s -> file_ok s x -> changed u s s1 ip x x1 -> changed u s1 s2 ip x1 x2 -> changed u s s2 ip x x2.
Proof.
  intros Hok Hf H1 H2. pose proof (fo_layout _ Hok) as Hs.
  destruct (touched_sb _ _ _ _ _ _ H1) as (Esb & Eic & _).
  destruct (touched_geometry _ _ _ _ _ _ H1) as (Gd & Gb & _).
  pose proof (to_meta _ _ _ _ _ _ H1) as M1. pose proof (to_meta _ _ _ _ _ _ H2) as M2.
  assert (Ei : inum x1 = inum x) by (by rewrite M1).
  split.
  - pose proof (to_keeps _ _ _ _ _ _ H2) as K. rewrite Eic, list_insert_insert_eq in K.
    etrans; [|exact K]. apply (keeps_icache (<[ip:=x2]> (icache s)) _ _ (to_keeps _ _ _ _ _ _ H1)).
  - apply H2.
  - apply H2.
  - rewrite M2 at 1. rewrite M1. done.
  - intros j Hj Hn. rewrite <- (to_slots _ _ _ _ _ _ H1 j Hj Hn).
    apply (to_slots _ _ _ _ _ _ H2 j Hj). by rewrite (to_slots _ _ _ _ _ _ H1 j Hj Hn).
  - intros j Hj E0 Hn. destruct (decide (slot s1 x1 j = 0)) as [E1|E1].
    + pose proof (to_new _ _ _ _ _ _ H2 j Hj E1 Hn) as Hu.
      destruct (fl_data _ _ (to_file _ _ _ _ _ _ H2) j Hj Hn) as [Hd _].
      assert (Hd1 : data_block s (slot s2 x2 j)).
      { apply Gd. by apply (touched_geometry _ _ _ _ _ _ H2). }
      destruct (used s (slot s2 x2 j)) eqn:Eu; [|done].
      apply (to_used _ _ _ _ _ _ H1) in Eu; [congruence|]. by apply (data_pos s _ Hs).
    + rewrite (to_slots _ _ _ _ _ _ H2 j Hj E1). by apply (to_new _ _ _ _ _ _ H1).
  - intros b Hb Hu. apply (to_used _ _ _ _ _ _ H2); [by rewrite Esb|]. by apply (to_used _ _ _ _ _ _ H1).
  - intros b Hb Hu Hu2. destruct (used s1 b) eqn:E1.
    + destruct (to_fresh _ _ _ _ _ _ H1 b Hb Hu E1) as (j & Hj & Ej). exists j. split; [done|].
      rewrite <- Ej. apply (to_slots _ _ _ _ _ _ H2 j Hj). rewrite Ej. intros ->.
      rewrite (fo_meta s Hok) in Hu; [done|]. destruct (layout_pos s Hs) as (? & ? & ?). unfold meta_end. lia.
    + apply (to_fresh _ _ _ _ _ _ H2); [by rewrite Esb|done..].
  - intros m Hb Hi Hd. rewrite (to_val _ _ _ _ _ _ H2 m), (to_val _ _ _ _ _ _ H1 m); try done.
    + by rewrite Gb.
    + by rewrite Ei, Esb.
    + rewrite Gd. intros Hdm. destruct (Hd Hdm) as [Hu Hsl].
      pose proof (proj2 (data_pos s m Hs Hdm)) as Hr. split; [by apply (to_used _ _ _ _ _ _ H1)|].
      intros j Hj E. destruct (decide (slot s x j = 0)) as [E0|E0].
      * assert (used s (slot s1 x1 j) = false); [|congruence].
        apply (to_new _ _ _ _ _ _ H1 j Hj E0). rewrite E. apply (data_pos s m Hs Hdm).
      * apply (Hsl j Hj). by rewrite <- (to_slots _ _ _ _ _ _ H1 j Hj E0).
  - intros i y Hi Hne. rewrite (to_inodes _ _ _ _ _ _ H2), (to_inodes _ _ _ _ _ _ H1); try done.
    + by rewrite Esb.
    + by rewrite Ei.
Qed.

(** Only buffers moved: the file is as it was. *)
Lemma same_slot s s' x j : (forall m, val s' m = val s m) -> slot s' x j = slot s x j.
Proof. intros H. unfold slot. by rewrite !H. Qed.

Lemma same_fbyte s s' x o : (forall m, val s' m = val s m) -> fbyte s' x o = fbyte s x o.
Proof. intros H. unfold fbyte. by rewrite !(same_slot s s' x _ H), !H. Qed.

Lemma same_file_ok s s' x : same s s' -> file_ok s x -> file_ok s' x.
Proof.
  intros S [Hf Hd Hi Hdt Hinj Hsz]. pose proof (same_keeps _ _ S) as K.
  assert (E : forall j, slot s' x j = slot s x j) by (intros; apply same_slot, S).
  split; try done.
  - by rewrite (proj1 (keeps_fields _ _ K)).
  - intros j Hj. rewrite E, (same_used s s' _ S). intros Hn. destruct (Hdt j Hj Hn).
    split; [by apply (keeps_geometry _ _ K)|done].
  - intros i j. rewrite !E. apply Hinj.
Qed.

Lemma same_touched s s' ip x :
  fs_ok s -> file_ok s x -> icache s !! ip = Some x -> same s s' -> touched s s' ip x x.
Proof.
  intros Hok Hf Hx S. pose proof (same_keeps _ _ S) as K.
  assert (E : forall j, slot s' x j = slot s x j) by (intros; apply same_slot, S).
  split.
  - rewrite list_insert_id by done. by destruct s.
  - by apply (same_fs_ok s).
  - by apply (same_file_ok s).
  - by destruct x.
  - intros j _ _. apply E.
  - intros j _ E0. by rewrite E.
  - intros b _. by rewrite (same_used s s' b S).
  - intros b _. rewrite (same_used s s' b S). congruence.
  - intros m _ _ _. apply S.
  - intros i y _ _. unfold ondisk. rewrite (sm_val _ _ S). by rewrite (proj1 (keeps_fields _ _ K)).
Qed.

(** ** Giving a file a block *)

(** After [balloc] gave [b], the place [j0], empty so far, holds [b]; only the
    block of addresses was written besides. *)
Section Plug.
Variables (s s1 s2 : fst) (ip : nat) (x x' : inode) (b j0 : Z).
Hypothesis Hok : fs_ok s.
Hypothesis Hf : file_ok s x.
Hypothesis Hb : balloced s s1 b.
Hypothesis K2 : keeps (with_icache (<[ip := x']> (icache s)) s1) s2.
Hypothesis Hok2 : forall m, block_ok (val s2 m).
Hypothesis Hj0 : place j0.
Hypothesis H0 : slot s x j0 = 0.
Hypothesis Hsl : forall j, place j -> slot s2 x' j = if decide (j = j0) then b else slot s x j.
Hypothesis Hmeta : x' = set_addrs (addrs x') x.
Hypothesis Hfld : fields_ok x'.
Hypothesis Hval : forall m, m = 0 \/ m <> slot s x MAXFILE -> val s2 m = val s1 m.

Let Hs : layout s := fo_layout s Hok.

Lemma plug_new : b <> 0 /\ 0 <= b < size (sb s) /\ forall j, place j -> slot s x j <> b.
Proof.
  destruct (data_pos s b Hs (al_data _ _ _ Hb)) as [Hb0 Hbr]. split_and!; try done; try lia.
  intros j Hj E. destruct (fl_data _ _ Hf j Hj) as [_ Hu]; [by rewrite E|].
  rewrite E, (al_free _ _ _ Hb) in Hu. done.
Qed.

Lemma MAXFILE_place : place MAXFILE.
Proof. unfold place, MAXFILE, NDIRECT, NINDIRECT. lia. Qed.

Lemma plug_keeps : keeps (with_icache (<[ip := x']> (icache s)) s) s2.
Proof.
  etrans; [|exact K2]. apply (keeps_icache (<[ip := x']> (icache s)) s s1 (al_keeps _ _ _ Hb)).
Qed.

Lemma plug_sb : sb s2 = sb s.
Proof. apply (keeps_fields _ _ plug_keeps). Qed.

Lemma plug_outside m : ~ data_block s m -> val s2 m = val s1 m.
Proof.
  intros Hm. apply Hval. destruct (decide (m = 0)) as [|]; [by left|right]. intros E.
  destruct (fl_data _ _ Hf MAXFILE MAXFILE_place) as [Hd _]; [by rewrite <- E|].
  apply Hm. by rewrite E.
Qed.

Lemma plug_used c : 0 <= c < size (sb s) -> used s2 c = bool_decide (b = c) || used s c.
Proof.
  intros Hc. rewrite <- (al_used _ _ _ Hb c Hc). unfold used.
  destruct (keeps_fields _ _ (al_keeps _ _ _ Hb)) as (-> & _ & _). rewrite plug_sb.
  rewrite plug_outside; [done|]. intros Hd. apply (data_home s Hs) in Hd as (_ & _ & Hd & _).
  by apply Hd, BBLOCK_bitmap.
Qed.

(** A block that [s] used, or that is no data block. *)
Lemma plug_val m : m = 0 \/ m <> slot s x MAXFILE -> ~ bitmap_block s m ->
  (data_block s m -> used s m = true) -> val s2 m = val s m.
Proof.
  intros H1 H2 H3. rewrite Hval by done. apply (al_val _ _ _ Hb); [|done].
  intros ->. rewrite (al_free _ _ _ Hb) in H3. by specialize (H3 (al_data _ _ _ Hb)).
Qed.

Lemma plug_meta m : ~ data_block s m -> ~ bitmap_block s m -> val s2 m = val s m.
Proof.
  intros H1 H2. rewrite plug_outside by done. apply (al_val _ _ _ Hb); [|done].
  intros ->. by apply H1, (al_data _ _ _ Hb).
Qed.

Lemma plug_fs_ok : fs_ok s2.
Proof.
  assert (Hl : layout s2).
  { apply (keeps_layout _ _ plug_keeps). destruct Hs. by split. }
  split; [done| |done|].
  - rewrite plug_sb, plug_meta; [apply Hok|..].
    + intros Hd. by apply (data_home s Hs) in Hd as (_ & ? & _).
    + intros Hd. by apply (bitmap_home s Hs) in Hd as [_ ?].
  - assert (Em : meta_end s2 = meta_end s) by (unfold meta_end; by rewrite plug_sb). rewrite Em.
    intros c Hc. pose proof (ly_data _ Hs). rewrite plug_used by (unfold meta_end in *; lia).
    rewrite (fo_meta s Hok) by done. apply orb_true_r.
Qed.

Lemma plug_file : file_ok s2 x'.
Proof.
  destruct plug_new as (Hb0 & Hbr & Hnew).
  assert (Hg : forall m, data_block s2 m <-> data_block s m).
  { intros m. unfold data_block, meta_end. by rewrite plug_sb. }
  split; try done.
  - rewrite Hmeta. apply (fl_dev _ _ Hf).
  - rewrite Hmeta, plug_sb. apply (fl_inum _ _ Hf).
  - intros j Hj. rewrite Hsl, Hg by done. case_decide as E.
    + intros _. split; [apply (al_data _ _ _ Hb)|]. rewrite plug_used by done. by rewrite bool_decide_true.
    + intros Hn. destruct (fl_data _ _ Hf j Hj Hn) as [Hd Hu]. split; [done|].
      rewrite plug_used, Hu by (by apply (data_pos s)). apply orb_true_r.
  - intros i j Hi Hj. rewrite !Hsl by done. repeat case_decide; subst; try done.
    + intros E _. exfalso. by apply (Hnew j Hj).
    + intros E _. exfalso. by apply (Hnew i Hi).
    + by apply (fl_inj _ _ Hf).
  - rewrite Hmeta. apply (fl_size _ _ Hf).
Qed.

Lemma plug_touched : touched s s2 ip x x'.
Proof.
  destruct plug_new as (Hb0 & Hbr & Hnew). split.
  - apply plug_keeps.
  - apply plug_fs_ok.
  - apply plug_file.
  - rewrite Hmeta at 1. rewrite Hmeta. by destruct x.
  - intros j Hj Hn. rewrite Hsl by done. case_decide; [by subst|done].
  - intros j Hj E Hn. rewrite Hsl in * by done. case_decide; [apply (al_free _ _ _ Hb)|done].
  - intros c Hc Hu. rewrite plug_used, Hu by done. apply orb_true_r.
  - intros c Hc Hu. rewrite plug_used, Hu by done. intros E. exists j0. split; [done|].
    rewrite Hsl, decide_True by done. by case_bool_decide.
  - intros m Hbm _ Hd. destruct (decide (m = 0 \/ m <> slot s x MAXFILE)) as [H|H].
    + apply plug_val; [done..|]. intros Hdm. by apply Hd.
    + apply plug_meta; [|done]. intros Hdm. destruct (Hd Hdm) as [_ Hn].
      apply H. right. intros E. by apply (Hn MAXFILE MAXFILE_place).
  - intros i y Hi _. unfold ondisk. rewrite plug_sb.
    destruct (IBLOCK_eq s i Hs Hi) as [_ Hib]. destruct (inode_home s _ Hs Hib) as (_ & _ & ? & ?).
    by rewrite plug_meta.
Qed.

Lemma plug_fbyte o : 0 <= o < MAXFILE * bsize -> fbyte s2 x' o = fbyte s x o.
Proof.
  intros Ho. destruct plug_new as (Hb0 & Hbr & Hnew).
  assert (Hbn : 0 <= o / bsize < MAXFILE).
  { split; [apply Z.div_pos; unfold bsize in *; lia|]. apply Z.div_lt_upper_bound; unfold bsize in *; lia. }
  assert (Hp : place (o / bsize)) by (unfold place; lia).
  unfold fbyte. rewrite Hsl by done. case_decide as E.
  - rewrite E, H0. rewrite (proj2 (Z.eqb_neq b 0)) by done. rewrite Z.eqb_refl.
    rewrite Hval, (al_zero _ _ _ Hb).
    + rewrite nth_lookup. destruct (replicate BSIZE 0 !! _) as [v|] eqn:Ev; [|done].
      by apply lookup_replicate in Ev as [-> _].
    + right. intros Eb. by apply (Hnew MAXFILE MAXFILE_place).
  - destruct (Z.eqb_spec (slot s x (o / bsize)) 0) as [|Hn]; [done|].
    destruct (fl_data _ _ Hf _ Hp Hn) as [Hd Hu]. rewrite plug_val; [done| |by apply (data_home s Hs)|done].
    right. intros Em. apply (fl_inj _ _ Hf _ _ Hp MAXFILE_place) in Em; [lia|done].
Qed.

End Plug.

Lemma addr_insert x q b j :
  length (addrs x) = 13%nat -> 0 <= q <= 12 -> 0 <= j ->
  addr_at (set_addrs (<[Z.to_nat q := b]> (addrs x)) x) j = if decide (j = q) then b else addr_at x j.
Proof.
  intros Hl Hq Hj. unfold addr_at. cbn [addrs set_addrs]. rewrite nth_insert.
  destruct (decide (j = q)) as [->|]; [rewrite decide_True by lia; done|].
  by rewrite decide_False by lia.
Qed.

Lemma alter_icache s ip x (f : inode -> inode) :
  icache s !! ip = Some x -> iupd ip f s = Ret tt (with_icache (<[ip := f x]> (icache s)) s).
Proof. intros H. unfold iupd, modify. by rewrite (alter_insert _ _ _ _ H). Qed.

Lemma word_data s b : layout s -> data_block s b -> 0 <= b < 4294967296.
Proof.
  intros Hs Hb. destruct (data_pos s b Hs Hb) as [_ ?]. destruct (layout_pos s Hs) as (? & _). lia.
Qed.

Lemma fields_addr x q b :
  fields_ok x -> 0 <= b < 4294967296 -> fields_ok (set_addrs (<[q := b]> (addrs x)) x).
Proof.
  intros [? ? ? ? ? ? ?] Hb. split; try done; cbn [addrs set_addrs].
  - by rewrite length_insert.
  - by apply Forall_insert.
Qed.

(** One of the thirteen addresses of the inode gets a block. *)
Lemma give_addr s ip x q F k :
  tx s [] F (S k) -> bitmap_paid s F -> fs_ok s -> file_ok s x -> icache s !! ip = Some x ->
  0 <= q <= NDIRECT -> addr_at x q = 0 -> nfree s <> 0%nat ->
  exists b s' x', (let! a := balloc (idev x) in set_addr ip q a ;;; ret a) s = Ret b s' /\
    tx s' [] ({[b]} ∪ F) k /\ touched s s' ip x x' /\ isize x' = isize x /\ b <> 0 /\
    (forall j, place j -> slot s' x' j =
       if decide (j = if q <? NDIRECT then q else MAXFILE) then b else slot s x j) /\
    (forall o, 0 <= o < MAXFILE * bsize -> fbyte s' x' o = fbyte s x o) /\ nfree s = S (nfree s').
Proof.
  intros Ht HF Hok Hf Hx Hq H0 Hn. pose proof (fo_layout _ Hok) as Hs.
  assert (Hhd : holds_data s []) by (split; [cbn; lia|intros n ?%not_elem_of_nil; done]).
  destruct (balloc_any s [] F k Ht Hok Hhd HF Hn) as (b & s1 & R1 & T1 & B1 & N1).
  pose proof (al_keeps _ _ _ B1) as K1. destruct (keeps_fields _ _ K1) as (Esb & Eic & _).
  rewrite (fl_dev _ _ Hf), (bind_eq _ _ _ _ _ R1). unfold set_addr.
  erewrite bind_eq by (apply alter_icache; by rewrite Eic). cbv beta.
  set (x' := set_addrs _ x). set (s2 := with_icache _ s1).
  exists b, s2, x'. set (j0 := if q <? NDIRECT then q else MAXFILE).
  pose proof (data_pos s b Hs (al_data _ _ _ B1)) as [Hb0 Hbr].
  assert (Hj0 : place j0).
  { unfold j0, place, MAXFILE, NINDIRECT, NDIRECT in *. destruct (Z.ltb_spec q 12); lia. }
  assert (Hlen : length (addrs x) = 13%nat) by apply (fl_fields _ _ Hf).
  assert (Ha : forall j, 0 <= j -> addr_at x' j = if decide (j = q) then b else addr_at x j)
    by (intros; by apply addr_insert).
  assert (H0' : slot s x j0 = 0).
  { unfold j0, slot. destruct (Z.ltb_spec q NDIRECT); [by rewrite (proj2 (Z.ltb_lt _ _))|].
    change (MAXFILE <? NDIRECT) with false. rewrite Z.eqb_refl. cbv iota. by replace NDIRECT with q by lia. }
  assert (Hind : addr_at x NDIRECT <> 0 -> val s2 (addr_at x NDIRECT) = val s (addr_at x NDIRECT)).
  { intros Hi. change (val s2 (addr_at x NDIRECT)) with (val s1 (addr_at x NDIRECT)).
    destruct (fl_data _ _ Hf MAXFILE) as [Hd Hu]; [apply MAXFILE_place|done|].
    change (slot s x MAXFILE) with (addr_at x NDIRECT) in *.
    apply (al_val _ _ _ B1); [|by apply (data_home s)]. intros E. rewrite E, (al_free _ _ _ B1) in Hu. done. }
  assert (Hsl : forall j, place j -> slot s2 x' j = if decide (j = j0) then b else slot s x j).
  { intros j Hj. unfold slot at 1. rewrite !Ha by (unfold place, NDIRECT in *; lia).
    destruct (Z.ltb_spec j NDIRECT).
    - unfold j0, slot. rewrite (proj2 (Z.ltb_lt j NDIRECT)) by done.
      destruct (Z.ltb_spec q NDIRECT); [done|]. rewrite !decide_False; [done|..]; unfold MAXFILE, NINDIRECT in *; lia.
    - destruct (Z.eqb_spec j MAXFILE) as [->|Hm].
      + unfold j0, slot. change (MAXFILE <? NDIRECT) with false. rewrite Z.eqb_refl. cbv iota.
        destruct (Z.ltb_spec q NDIRECT).
        * rewrite !decide_False; [done|..]; unfold MAXFILE, NINDIRECT in *; lia.
        * rewrite !decide_True; [done|done|lia].
      + assert (Hnj : j <> j0).
        { unfold j0. destruct (Z.ltb_spec q NDIRECT); lia. }
        rewrite (decide_False (P := j = j0)) by done. unfold slot.
        rewrite (proj2 (Z.ltb_ge j NDIRECT)), (proj2 (Z.eqb_neq j MAXFILE)) by done.
        case_decide as E.
        * rewrite (proj2 (Z.eqb_neq b 0)) by done. rewrite E, H0. cbn [Z.eqb].
          change (val s2 b) with (val s1 b). rewrite (al_zero _ _ _ B1). apply ld_word_zeros.
        * destruct (Z.eqb_spec (addr_at x NDIRECT) 0) as [|Hi]; [done|]. by rewrite Hind. }
  assert (K2 : keeps (with_icache (<[ip := x']> (icache s)) s1) s2).
  { unfold s2. rewrite Eic. done. }
  assert (Hb2 : forall m, block_ok (val s2 m)) by (intros m; apply (fo_blocks _ (al_ok _ _ _ B1))).
  assert (Hfl : fields_ok x') by (apply fields_addr; [apply Hf|by apply (word_data s); [|apply B1]]).
  split_and!; try done.
  - by apply (plug_touched s s1 s2 ip x x' b j0).
  - intros o Ho. by apply (plug_fbyte s s1 s2 x x' b j0).
Qed.

(** The part of [bmap] that looks up, or fills, entry [n] of the block of
    addresses. *)
Definition entry_of (x : inode) (addr n : Z) : M fst Z :=
  let! bp := Fs.bread (idev x) addr in
  let! d := data bp in
  let! addr :=
    (if ld_word d (Z.to_nat n) =? 0 then
       let! a := balloc (idev x) in
       let! d := data bp in
       set_data bp (st_word d (Z.to_nat n) a) ;;;
       Fs.log_write bp ;;;
       ret a
     else ret (ld_word d (Z.to_nat n))) in
  Fs.brelse bp ;;;
  ret addr.

Lemma slot_indirect s x n :
  0 <= n < NINDIRECT -> slot s x MAXFILE <> 0 ->
  slot s x (NDIRECT + n) = ld_word (val s (slot s x MAXFILE)) (Z.to_nat n).
Proof.
  intros Hn Hi. change (slot s x MAXFILE) with (addr_at x NDIRECT) in *. unfold slot.
  rewrite (proj2 (Z.ltb_ge _ _)), (proj2 (Z.eqb_neq _ MAXFILE)), (proj2 (Z.eqb_neq _ 0) Hi)
    by (unfold MAXFILE in *; lia). do 2 f_equal. lia.
Qed.

Lemma slot_no_indirect s x n :
  0 <= n < NINDIRECT -> slot s x MAXFILE = 0 -> slot s x (NDIRECT + n) = 0.
Proof.
  intros Hn Hi. change (slot s x MAXFILE) with (addr_at x NDIRECT) in *. unfold slot.
  rewrite (proj2 (Z.ltb_ge _ _)), (proj2 (Z.eqb_neq _ MAXFILE)), Hi by (unfold MAXFILE in *; lia). done.
Qed.

(** The file's own blocks can be fetched when nothing else is held. *)
Lemma file_block_range s x j :
  fs_ok s -> file_ok s x -> place j -> slot s x j <> 0 -> home_block s (slot s x j).
Proof.
  intros Hok Hf Hj Hn. destruct (fl_data _ _ Hf j Hj Hn) as [Hd _]. by apply (data_home s (fo_layout _ Hok)).
Qed.

Lemma held_bread_file s bl x j :
  held s bl [] -> (length bl < 29)%nat -> fs_ok s -> file_ok s x -> place j -> slot s x j <> 0 ->
  exists i s', Fs.bread (idev x) (slot s x j) s = Ret i s' /\ held s' bl [(i, slot s x j)] /\ same s s' /\
    data i s' = Ret (val s (slot s x j)) s'.
Proof.
  intros Hh Hlen Hok Hf Hj Hn. rewrite (fl_dev _ _ Hf).
  destruct (held_bread s bl [] (slot s x j) Hh) as (i & s' & R & H' & S).
  { by apply not_elem_of_nil. }
  { apply (file_block_range s x j Hok Hf Hj Hn). }
  { unfold NBUF. cbn [length]. lia. }
  exists i, s'. split_and!; try done. rewrite (held_data s' bl _ i (slot s x j) H') by left.
  by rewrite (sm_val _ _ S).
Qed.

(** [bmap] of a block the file has only reads. *)
Lemma bmap_held s bl ip x j :
  held s bl [] -> (length bl < 29)%nat -> fs_ok s -> file_ok s x -> icache s !! ip = Some x ->
  0 <= j < MAXFILE -> slot s x j <> 0 ->
  exists s', bmap ip j s = Ret (slot s x j) s' /\ held s' bl [] /\ same s s'.
Proof.
  intros Hh Hlen Hok Hf Hx Hj Hn. unfold bmap. rewrite (bind_eq _ _ _ _ _ (iat_ok _ _ _ Hx)).
  destruct (Z.ltb_spec j NDIRECT) as [Hlt|Hge].
  { assert (E : slot s x j = addr_at x j) by (unfold slot; by rewrite (proj2 (Z.ltb_lt _ _) Hlt)).
    rewrite <- E, (proj2 (Z.eqb_neq _ _) Hn). by exists s. }
  cbv zeta. assert (Hm : 0 <= j - NDIRECT < NINDIRECT) by (unfold MAXFILE in *; lia).
  rewrite (proj2 (Z.ltb_lt (j - NDIRECT) NINDIRECT)) by lia.
  assert (Ej : j = NDIRECT + (j - NDIRECT)) by lia.
  assert (Hi : slot s x MAXFILE <> 0).
  { intros Hi. apply Hn. rewrite Ej. by apply slot_no_indirect. }
  change (addr_at x NDIRECT) with (slot s x MAXFILE). rewrite (proj2 (Z.eqb_neq _ _) Hi).
  rewrite bind_ret_l.
  destruct (held_bread_file s bl x MAXFILE Hh Hlen Hok Hf MAXFILE_place Hi) as (i & s1 & R1 & H1 & S1 & D1).
  rewrite (bind_eq _ _ _ _ _ R1), (bind_eq _ _ _ _ _ D1).
  rewrite Ej, (slot_indirect s x _ Hm Hi) in Hn. rewrite (proj2 (Z.eqb_neq _ _) Hn), bind_ret_l.
  destruct (held_brelse s1 bl [] i _ H1) as (s2 & R2 & H2 & S2).
  rewrite (bind_eq _ _ _ _ _ R2). exists s2. split_and!; [|done|by etrans].
  rewrite Ej at 2. by rewrite (slot_indirect s x _ Hm Hi).
Qed.

Lemma nfree_ext s s' :
  sb s' = sb s -> (forall c, 0 <= c < size (sb s) -> used s' c = used s c) -> nfree s' = nfree s.
Proof.
  intros Esb Hu. unfold nfree. rewrite Esb. f_equal. symmetry. apply (filter_same (used s) (used s')).
  intros y Hy. apply elem_of_seqZ in Hy. apply Hu. lia.
Qed.

(** A word written in the indirect block is the slot of one block of the file. *)
Lemma slot_written s s' x n b j : 0 <= n < NINDIRECT -> slot s x MAXFILE <> 0 -> 0 <= b < 4294967296 ->
  length (val s (slot s x MAXFILE)) = BSIZE ->
  val s' (slot s x MAXFILE) = st_word (val s (slot s x MAXFILE)) (Z.to_nat n) b -> place j ->
  slot s' x j = if decide (j = NDIRECT + n) then b else slot s x j.
Proof.
  intros Hn Hi Hb Hlen E Hj.
  assert (Hn4 : (4 * Z.to_nat n + 4 <= BSIZE)%nat) by (unfold BSIZE, NINDIRECT in *; lia).
  change (slot s x MAXFILE) with (addr_at x NDIRECT) in *.
  unfold slot. destruct (Z.ltb_spec j NDIRECT); [by rewrite decide_False by lia|].
  destruct (Z.eqb_spec j MAXFILE) as [->|Hm].
  { rewrite decide_False; [done|]. unfold MAXFILE in *. lia. }
  rewrite (proj2 (Z.eqb_neq (addr_at x NDIRECT) 0)), E, ld_st_word by (done || by rewrite Hlen).
  destruct (decide (j = NDIRECT + n)) as [->|]; [by rewrite decide_True by lia|].
  by rewrite decide_False by lia.
Qed.

(** An empty entry of the block of addresses gets a block. *)
Lemma entry_give s ip x n F k :
  tx s [] F (S k) -> bitmap_paid s F -> fs_ok s -> file_ok s x -> icache s !! ip = Some x ->
  0 <= n < NINDIRECT -> slot s x MAXFILE <> 0 -> slot s x MAXFILE ∈ F ->
  slot s x (NDIRECT + n) = 0 -> nfree s <> 0%nat ->
  exists b s', entry_of x (slot s x MAXFILE) n s = Ret b s' /\
    tx s' [] ({[b]} ∪ F) k /\ touched s s' ip x x /\ b <> 0 /\
    (forall j, place j -> slot s' x j = if decide (j = NDIRECT + n) then b else slot s x j) /\
    (forall o, 0 <= o < MAXFILE * bsize -> fbyte s' x o = fbyte s x o) /\ nfree s = S (nfree s').
Proof.
  intros Ht HF Hok Hf Hx Hn Hi HiF H0 Hfree. pose proof (fo_layout _ Hok) as Hs.
  set (ind := slot s x MAXFILE) in *.
  destruct (fl_data _ _ Hf MAXFILE MAXFILE_place Hi) as [Hid Hiu]. fold ind in Hid, Hiu.
  unfold entry_of. rewrite (fl_dev _ _ Hf).
  destruct (tx_bread s [] F (S k) ind Ht) as (i & s1 & R1 & T1 & S1).
  { by apply not_elem_of_nil. }
  { cbn; lia. }
  { apply (data_home s Hs ind Hid). }
  rewrite (bind_eq _ _ _ _ _ R1), (bind_eq _ _ _ _ _ (tx_data s1 _ _ _ i ind T1 ltac:(left))).
  rewrite (sm_val _ _ S1). rewrite (slot_indirect s x n Hn Hi) in H0. fold ind in H0. rewrite H0.
  cbn [Z.eqb]. unfold bind at 1.
  pose proof (same_keeps _ _ S1) as K1. destruct (keeps_fields _ _ K1) as (Esb1 & Eic1 & _).
  destruct (balloc_any s1 _ F k T1 (same_fs_ok _ _ S1 Hok)) as (b & s2 & R2 & T2 & B2 & N2).
  { split; [cbn; lia|]. intros m Hm. apply list_elem_of_singleton in Hm as ->.
    split; [by apply (keeps_geometry _ _ K1)|]. by rewrite (same_used s s1 _ S1). }
  { intros m Hm. apply HF. by apply (keeps_geometry _ _ K1). }
  { by rewrite (nfree_ext s s1 Esb1 ltac:(intros; by apply same_used)). }
  rewrite (bind_eq _ _ _ _ _ R2), (bind_eq _ _ _ _ _ (tx_data s2 _ _ _ i ind T2 ltac:(left))).
  pose proof (al_keeps _ _ _ B2) as K2. destruct (keeps_fields _ _ K2) as (Esb2 & Eic2 & _).
  assert (K02 : keeps s s2) by (by etrans).
  pose proof (same_balloced s s1 s2 b S1 B2) as B.
  destruct (data_pos s b Hs (al_data _ _ _ B)) as [Hb0 Hbr].
  assert (Hbi : b <> ind) by (intros ->; rewrite (al_free _ _ _ B) in Hiu; done).
  assert (Eind : val s2 ind = val s ind).
  { apply (al_val _ _ _ B); [done|]. by apply (data_home s Hs). }
  destruct (tx_write s2 _ _ k i ind (st_word (val s2 ind) (Z.to_nat n) b) T2) as (s3 & R3 & T3 & K3 & V3).
  { left. }
  { set_solver. }
  { apply (keeps_geometry _ _ K02). by apply (data_home s Hs). }
  rewrite (bind_eq2 _ _ _ _ _ _ R3). unfold ret at 1.
  destruct (tx_brelse s3 [] _ k i ind T3) as (s4 & R4 & T4 & S4).
  rewrite (bind_eq _ _ _ _ _ R4). exists b, s4. split; [done|].
  assert (V4 : forall m, val s4 m = if decide (m = ind) then st_word (val s ind) (Z.to_nat n) b else val s2 m).
  { intros m. by rewrite (sm_val _ _ S4), V3, Eind. }
  assert (Hlen : length (val s ind) = BSIZE) by apply (fo_blocks _ Hok).
  assert (Hn4 : (4 * Z.to_nat n + 4 <= BSIZE)%nat) by (unfold BSIZE, NINDIRECT in *; lia).
  assert (Hsl : forall j, place j -> slot s4 x j = if decide (j = NDIRECT + n) then b else slot s x j).
  { intros j Hj. apply (slot_written s s4 x n b j Hn Hi); [by apply (word_data s b Hs), B|done| |done].
    fold ind. by rewrite V4, decide_True. }
  assert (Hb4 : forall m, block_ok (val s4 m)).
  { intros m. rewrite V4. case_decide; [apply st_word_ok; [apply Hok|done]|apply (fo_blocks _ (al_ok _ _ _ B))]. }
  assert (Hv4 : forall m, m = 0 \/ m <> slot s x MAXFILE -> val s4 m = val s2 m).
  { intros m Hm. rewrite V4, decide_False; [done|]. fold ind in Hm. intros ->. destruct Hm; done. }
  assert (K24 : keeps s2 s4) by (etrans; [done|by apply same_keeps]).
  assert (K4 : keeps (with_icache (<[ip:=x]> (icache s)) s2) s4).
  { destruct (keeps_fields _ _ K02) as (_ & E & _). rewrite <- E, list_insert_id by (by rewrite E).
    replace (with_icache (icache s2) s2) with s2 by (by destruct s2). done. }
  assert (Hm0 : x = set_addrs (addrs x) x) by (by destruct x).
  assert (Hp : place (NDIRECT + n)) by (unfold place, MAXFILE in *; unfold NDIRECT in *; lia).
  assert (Hz : slot s x (NDIRECT + n) = 0) by (by rewrite (slot_indirect s x n Hn Hi)).
  split; [done|]. split; [|split; [done|split; [done|split]]].
  - by apply (plug_touched s s2 s4 ip x x b (NDIRECT + n)); try done; apply Hf.
  - intros o Ho. by apply (plug_fbyte s s2 s4 x x b (NDIRECT + n)).
  - rewrite (balloced_nfree s s2 b Hs B). f_equal. symmetry. apply nfree_ext.
    + apply (keeps_fields _ _ K24).
    + intros c Hc. unfold used. destruct (keeps_fields _ _ K24) as (-> & _ & _). rewrite Hv4; [done|].
      right. fold ind. intros E. destruct (keeps_fields _ _ K02) as (Esb & _ & _).
      rewrite Esb in *. apply (data_home s Hs) in Hid as (_ & _ & Hnb & _). apply Hnb. rewrite <- E.
      by apply BBLOCK_bitmap.
Qed.

(** ** [bmap] inside a transaction *)

(** The block of addresses is paid for, or its allocation is. *)
Definition ind_credit (s : fst) (x : inode) : nat := if slot s x MAXFILE =? 0 then 1 else 0.

Record ftx (s : fst) (x : inode) (F : gset Z) (k : nat) : Prop := {
  ft_tx : tx s [] F (k + ind_credit s x);
  ft_bitmap : bitmap_paid s F;
  ft_ind : slot s x MAXFILE <> 0 -> slot s x MAXFILE ∈ F }.

(** Enough free blocks for the empty ones of the places [l]. *)
Definition holes (s : fst) (x : inode) (l : list Z) : nat := length (filter (fun j => slot s x j = 0) l).
Definition room (s : fst) (x : inode) (l : list Z) : Prop :=
  holes s x l = 0%nat \/ (holes s x l + ind_credit s x <= nfree s)%nat.

Lemma holes_ext s s' x x' l :
  (forall j, j ∈ l -> slot s' x' j = slot s x j) -> holes s' x' l = holes s x l.
Proof.
  unfold holes. induction l as [|j l IH]; intros H; [done|]. rewrite !filter_cons, (H j) by left.
  assert (E : length (filter (fun j => slot s' x' j = 0) l) = length (filter (fun j => slot s x j = 0) l))
    by (apply IH; intros; apply H; by right).
  case_decide; cbn; by rewrite E.
Qed.

Lemma holes_cons s x j l :
  holes s x (j :: l) = if decide (slot s x j = 0) then S (holes s x l) else holes s x l.
Proof. unfold holes. rewrite filter_cons. by case_decide. Qed.

Lemma ftx_same s s' x F k : tx s' [] F (k + ind_credit s x) -> same s s' -> ftx s x F k -> ftx s' x F k.
Proof.
  intros Ht S [_ Hb Hi]. assert (E : slot s' x MAXFILE = slot s x MAXFILE) by (apply same_slot, S).
  split.
  - unfold ind_credit in *. by rewrite E.
  - intros m Hm. apply Hb. by apply (keeps_geometry _ _ (same_keeps _ _ S)).
  - by rewrite E.
Qed.

Lemma paid_touched s s' ip x x' F b :
  touched s s' ip x x' -> bitmap_paid s F -> bitmap_paid s' ({[b]} ∪ F).
Proof.
  intros H HF m Hm. apply elem_of_union_r, HF. by apply (touched_geometry _ _ _ _ _ _ H).
Qed.

(** What [bmap] leaves behind: the file's bytes as they were, one place
    filled, and room for the rest. *)
Record mapped (s s' : fst) (ip : nat) (x x' : inode) (j a : Z) : Prop := {
  mp_touched : touched s s' ip x x';
  mp_size : isize x' = isize x;
  mp_here : slot s' x' j = a /\ a <> 0;
  mp_same : slot s x j <> 0 -> x' = x;
  mp_other : forall i, 0 <= i < MAXFILE -> i <> j -> slot s' x' i = slot s x i;
  mp_bytes : forall o, 0 <= o < MAXFILE * bsize -> fbyte s' x' o = fbyte s x o;
  mp_room : forall l, (forall i, i ∈ l -> 0 <= i < MAXFILE /\ i <> j) -> room s x (j :: l) -> room s' x' l }.

Lemma mapped_present s s' ip x j :
  fs_ok s -> file_ok s x -> icache s !! ip = Some x -> same s s' -> slot s x j <> 0 ->
  mapped s s' ip x x j (slot s x j).
Proof.
  intros Hok Hf Hx S Hn.
  assert (E : forall i, slot s' x i = slot s x i) by (intros; apply same_slot, S).
  split; try done.
  - by apply same_touched.
  - intros o _. apply same_fbyte, S.
  - intros l _. unfold room, ind_credit. rewrite holes_cons, decide_False, E by done.
    rewrite (holes_ext s s' x x l) by (intros; apply E).
    rewrite (nfree_ext s s'); [done| |intros; by apply same_used].
    apply (keeps_fields _ _ (same_keeps _ _ S)).
Qed.

Lemma room_alloc s s' x x' j l n :
  slot s x j = 0 -> room s x (j :: l) -> (forall i, i ∈ l -> slot s' x' i = slot s x i) ->
  (nfree s = nfree s' + S n)%nat -> (ind_credit s x = ind_credit s' x' + n)%nat -> room s' x' l.
Proof.
  intros H0 Hr Hl Hn Hi. unfold room in *. rewrite (holes_ext s s' x x' l Hl).
  rewrite holes_cons, decide_True in Hr by done. lia.
Qed.

Lemma room_free s x j l : slot s x j = 0 -> room s x (j :: l) -> (S (ind_credit s x) <= nfree s)%nat.
Proof. intros H0. unfold room. rewrite holes_cons, decide_True by done. lia. Qed.

Lemma mapped_given s s' ip x x' j b n :
  touched s s' ip x x' -> isize x' = isize x -> b <> 0 -> 0 <= j < MAXFILE -> slot s x j = 0 ->
  (forall i, 0 <= i < MAXFILE -> slot s' x' i = if decide (i = j) then b else slot s x i) ->
  (forall o, 0 <= o < MAXFILE * bsize -> fbyte s' x' o = fbyte s x o) ->
  nfree s = (nfree s' + S n)%nat -> ind_credit s x = (ind_credit s' x' + n)%nat ->
  mapped s s' ip x x' j b.
Proof.
  intros To Sz Hb Hj H0 Sl By N C. split; try done.
  - split; [|done]. rewrite Sl by done. by rewrite decide_True.
  - intros i Hi Hne. rewrite Sl by done. by rewrite decide_False.
  - intros l Hl Hr. apply (room_alloc s s' x x' j l n); try done.
    intros i Hi. destruct (Hl i Hi). rewrite Sl by done. by rewrite decide_False.
Qed.

(** The outcome of [bmap] in a transaction, from [s]. *)
Definition bmap_done (s : fst) (ip : nat) (x : inode) (F : gset Z) (k : nat) (j : Z) : Prop :=
  exists a s' x' F', bmap ip j s = Ret a s' /\ ftx s' x' F' k /\ mapped s s' ip x x' j a /\
    a ∈ F' /\ F ⊆ F'.

Section Bmap.
Variables (s : fst) (ip : nat) (x : inode) (F : gset Z) (k : nat) (j : Z).
Hypothesis Hft : ftx s x F (S k).
Hypothesis Hok : fs_ok s.
Hypothesis Hf : file_ok s x.
Hypothesis Hx : icache s !! ip = Some x.
Hypothesis Hj : 0 <= j < MAXFILE.

(** The file has the block. *)
Lemma bmap_present : slot s x j <> 0 -> bmap_done s ip x F k j.
Proof.
  intros Hn.
  destruct (tx_run (bmap ip j) s [] F (S k + ind_credit s x) (fun a _ => a = slot s x j) (fun _ => []) (ft_tx _ _ _ _ Hft))
    as (a & s' & R & T & S & ->).
  { intros bl Hh Hlen. destruct (bmap_held s bl ip x j Hh Hlen Hok Hf Hx Hj Hn) as (s' & ? & ? & ?).
    by exists (slot s x j), s'. }
  exists (slot s x j), s', x, ({[slot s x j]} ∪ F). split; [done|].
  split; [|split; [by apply mapped_present|clear; set_solver]].
  apply (ftx_same s); [by apply tx_pay|done|]. split; [apply tx_pay, Hft| |].
  - intros m Hm. by apply elem_of_union_r, (ft_bitmap _ _ _ _ Hft).
  - intros Hi. by apply elem_of_union_r, (ft_ind _ _ _ _ Hft).
Qed.

Hypothesis H0 : slot s x j = 0.
Hypothesis Hroom : room s x [j].

Lemma bmap_direct : j < NDIRECT -> bmap_done s ip x F k j.
Proof.
  intros Hlt. pose proof (room_free s x j [] H0 Hroom) as Hfree.
  assert (E : slot s x j = addr_at x j) by (unfold slot; by rewrite (proj2 (Z.ltb_lt _ _) Hlt)).
  destruct (give_addr s ip x j F (k + ind_credit s x) (ft_tx _ _ _ _ Hft) (ft_bitmap _ _ _ _ Hft) Hok Hf Hx)
    as (b & s' & x' & R & T & To & Sz & Hb & Sl & By & N); [unfold NDIRECT in *; lia|congruence|lia|].
  rewrite (proj2 (Z.ltb_lt _ _) Hlt) in Sl.
  assert (Ei : slot s' x' MAXFILE = slot s x MAXFILE).
  { rewrite Sl by apply MAXFILE_place. rewrite decide_False; [done|unfold MAXFILE, NDIRECT, NINDIRECT in *; lia]. }
  assert (Ec : ind_credit s' x' = ind_credit s x) by (unfold ind_credit; by rewrite Ei).
  exists b, s', x', ({[b]} ∪ F). split; [|split; [|split; [|clear; set_solver]]].
  - unfold bmap. rewrite (bind_eq _ _ _ _ _ (iat_ok _ _ _ Hx)), (proj2 (Z.ltb_lt _ _) Hlt), <- E, H0. exact R.
  - split; [by rewrite Ec| |].
    + apply (paid_touched s s' ip x x' F b To), Hft.
    + rewrite Ei. intros Hi. by apply elem_of_union_r, (ft_ind _ _ _ _ Hft).
  - apply (mapped_given s s' ip x x' j b 0); try done; try lia.
    intros i Hi. apply Sl. unfold place. lia.
Qed.

Lemma bmap_unfold : NDIRECT <= j ->
  bmap ip j s =
    (let! addr := (if slot s x MAXFILE =? 0 then
         let! a := balloc (idev x) in set_addr ip NDIRECT a ;;; ret a
       else ret (slot s x MAXFILE)) in entry_of x addr (j - NDIRECT)) s.
Proof.
  intros Hge. unfold bmap. rewrite (bind_eq _ _ _ _ _ (iat_ok _ _ _ Hx)).
  rewrite (proj2 (Z.ltb_ge j NDIRECT)) by lia. cbv zeta.
  rewrite (proj2 (Z.ltb_lt (j - NDIRECT) NINDIRECT)) by (unfold MAXFILE in *; lia). done.
Qed.

Lemma bmap_entry : NDIRECT <= j -> slot s x MAXFILE <> 0 -> bmap_done s ip x F k j.
Proof.
  intros Hge Hi. pose proof (room_free s x j [] H0 Hroom) as Hfree.
  assert (Hn : 0 <= j - NDIRECT < NINDIRECT) by (unfold MAXFILE in *; lia).
  assert (Ej : NDIRECT + (j - NDIRECT) = j) by lia.
  destruct (entry_give s ip x (j - NDIRECT) F (k + ind_credit s x) (ft_tx _ _ _ _ Hft) (ft_bitmap _ _ _ _ Hft)
    Hok Hf Hx Hn Hi) as (b & s2 & R2 & T2 & To2 & Hb & Sl2 & By2 & N2); [by apply (ft_ind _ _ _ _ Hft)|by rewrite Ej|lia|].
  rewrite Ej in Sl2.
  assert (Ei2 : slot s2 x MAXFILE = slot s x MAXFILE).
  { rewrite Sl2 by apply MAXFILE_place. by rewrite decide_False by lia. }
  assert (Ec : ind_credit s2 x = ind_credit s x) by (unfold ind_credit; by rewrite Ei2).
  exists b, s2, x, ({[b]} ∪ F). split; [|split; [|split; [|clear; set_solver]]].
  - rewrite bmap_unfold, (proj2 (Z.eqb_neq _ _) Hi), bind_ret_l by done. exact R2.
  - split; [by rewrite Ec| |].
    + apply (paid_touched s s2 ip x x F b To2), Hft.
    + rewrite Ei2. intros _. by apply elem_of_union_r, (ft_ind _ _ _ _ Hft).
  - apply (mapped_given s s2 ip x x j b 0); try done; try lia.
    intros i Hi1. apply Sl2. unfold place. lia.
Qed.

Lemma bmap_fresh : NDIRECT <= j -> slot s x MAXFILE = 0 -> bmap_done s ip x F k j.
Proof.
  intros Hge Hi. pose proof (room_free s x j [] H0 Hroom) as Hfree.
  assert (Hn : 0 <= j - NDIRECT < NINDIRECT) by (unfold MAXFILE in *; lia).
  assert (Ej : NDIRECT + (j - NDIRECT) = j) by lia.
  assert (Ec : ind_credit s x = 1%nat) by (unfold ind_credit; by rewrite Hi).
  pose proof (ft_tx _ _ _ _ Hft) as T0. rewrite Ec in T0, Hfree.
  replace (S k + 1)%nat with (S (S k)) in T0 by lia.
  destruct (give_addr s ip x NDIRECT F (S k) T0 (ft_bitmap _ _ _ _ Hft) Hok Hf Hx)
    as (c & s1 & x1 & R1 & T1 & To1 & Sz1 & Hc & Sl1 & By1 & N1); [unfold NDIRECT; lia|exact Hi|lia|].
  change (if NDIRECT <? NDIRECT then NDIRECT else MAXFILE) with MAXFILE in Sl1.
  destruct (touched_sb _ _ _ _ _ _ To1) as (Esb1 & Eic1 & _).
  assert (Hx1 : icache s1 !! ip = Some x1).
  { rewrite Eic1. apply list_lookup_insert_eq. by apply lookup_lt_Some in Hx. }
  assert (Ei1 : slot s1 x1 MAXFILE = c).
  { rewrite Sl1 by apply MAXFILE_place. by rewrite decide_True. }
  assert (Ed1 : entry_of x c (j - NDIRECT) = entry_of x1 (slot s1 x1 MAXFILE) (j - NDIRECT)).
  { rewrite Ei1. unfold entry_of. by rewrite (to_meta _ _ _ _ _ _ To1). }
  destruct (entry_give s1 ip x1 (j - NDIRECT) ({[c]} ∪ F) k T1) as (b & s2 & R2 & T2 & To2 & Hb & Sl2 & By2 & N2).
  { apply (paid_touched s s1 ip x x1 F c To1), Hft. }
  { apply To1. }
  { apply To1. }
  { exact Hx1. }
  { exact Hn. }
  { by rewrite Ei1. }
  { rewrite Ei1. clear. set_solver. }
  { rewrite Ej, Sl1 by (unfold place; lia). by rewrite decide_False by lia. }
  { lia. }
  rewrite Ej in Sl2.
  assert (Ei2 : slot s2 x1 MAXFILE = c).
  { rewrite Sl2 by apply MAXFILE_place. by rewrite decide_False by lia. }
  assert (Ec2 : ind_credit s2 x1 = 0%nat).
  { unfold ind_credit. by rewrite Ei2, (proj2 (Z.eqb_neq c 0)). }
  assert (To : touched s s2 ip x x1) by exact (touched_trans false s s1 s2 ip x x1 x1 Hok Hf To1 To2).
  exists b, s2, x1, ({[b]} ∪ ({[c]} ∪ F)). split; [|split; [|split; [|clear; set_solver]]].
  - rewrite bmap_unfold by done. rewrite Hi. cbn [Z.eqb]. rewrite (bind_eq _ _ _ _ _ R1), Ed1. exact R2.
  - split; [by rewrite Ec2, Nat.add_0_r| |].
    + intros m Hm. apply elem_of_union_r, elem_of_union_r, (ft_bitmap _ _ _ _ Hft).
      by apply (touched_geometry _ _ _ _ _ _ To).
    + rewrite Ei2. intros _. clear. set_solver.
  - apply (mapped_given s s2 ip x x1 j b 1); try assumption.
    + intros i Hi1. rewrite Sl2 by (unfold place; lia). case_decide; [done|].
      rewrite Sl1 by (unfold place; lia). by rewrite decide_False by lia.
    + intros o Ho. by rewrite By2, By1.
    + lia.
    + by rewrite Ec, Ec2.
Qed.

End Bmap.

Lemma bmap_ok s ip x F k j :
  ftx s x F (S k) -> fs_ok s -> file_ok s x -> icache s !! ip = Some x -> 0 <= j < MAXFILE ->
  room s x [j] -> bmap_done s ip x F k j.
Proof.
  intros Hft Hok Hf Hx Hj Hroom. destruct (decide (slot s x j = 0)) as [H0|Hn]; [|by apply bmap_present].
  destruct (Z.lt_ge_cases j NDIRECT) as [Hlt|Hge]; [by apply bmap_direct|].
  destruct (decide (slot s x MAXFILE = 0)); [by apply bmap_fresh|by apply bmap_entry].
Qed.

(** ** Reading and writing the bytes *)

(** One of the file's data blocks rewritten. *)
Section Store.
Variables (s s' : fst) (ip : nat) (x : inode) (j : Z) (d : list Z).
Hypothesis Hok : fs_ok s.
Hypothesis Hf : file_ok s x.
Hypothesis Hx : icache s !! ip = Some x.
Hypothesis Hj : 0 <= j < MAXFILE.
Hypothesis Hn : slot s x j <> 0.
Hypothesis K : keeps s s'.
Hypothesis Hd : block_ok d.
Hypothesis V : forall m, val s' m = if decide (m = slot s x j) then d else val s m.

Let Hs : layout s := fo_layout s Hok.

Lemma store_data : data_block s (slot s x j) /\ used s (slot s x j) = true.
Proof. apply (fl_data _ _ Hf); [unfold place; lia|done]. Qed.

Lemma store_other m : ~ data_block s m -> val s' m = val s m.
Proof. intros Hm. rewrite V, decide_False; [done|]. intros ->. by apply Hm, store_data. Qed.

Lemma store_used c : 0 <= c < size (sb s) -> used s' c = used s c.
Proof.
  intros Hc. unfold used. destruct (keeps_fields _ _ K) as (-> & _ & _). rewrite store_other; [done|].
  intros Hd'. apply (data_home s Hs) in Hd' as (_ & _ & Hb & _). by apply Hb, BBLOCK_bitmap.
Qed.

Lemma store_slot i : place i -> slot s' x i = slot s x i.
Proof.
  intros Hi. unfold slot. destruct (i <? NDIRECT); [done|]. destruct (i =? MAXFILE); [done|].
  destruct (Z.eqb_spec (addr_at x NDIRECT) 0) as [|Hz]; [done|]. rewrite V, decide_False; [done|].
  intros E. change (addr_at x NDIRECT) with (slot s x MAXFILE) in E, Hz.
  apply (fl_inj _ _ Hf MAXFILE j MAXFILE_place) in E; [lia|unfold place; lia|done].
Qed.

Lemma store_file : file_ok s' x.
Proof.
  destruct Hf as [? ? Hi Hdt Hinj ?]. destruct (keeps_fields _ _ K) as (Esb & _ & _). split; try done.
  - by rewrite Esb.
  - intros i Hi'. rewrite store_slot by done. intros Hn'. destruct (Hdt i Hi' Hn') as [Hdi Hu].
    split; [by apply (keeps_geometry _ _ K)|]. rewrite store_used; [done|]. by apply (data_pos s).
  - intros a b Ha Hb. rewrite !store_slot by done. by apply Hinj.
Qed.

Lemma store_touched : touched s s' ip x x.
Proof.
  destruct (keeps_fields _ _ K) as (Esb & Eic & _). split.
  - rewrite list_insert_id by done. by destruct s.
  - apply (fs_ok_step s); try done.
    + intros m. rewrite V. case_decide; [done|apply Hok].
    + apply store_other. intros H1. by apply (data_home s Hs) in H1 as (_ & ? & _).
    + intros b Hb. pose proof (ly_data _ Hs). rewrite store_used by (unfold meta_end in Hb; lia).
      by apply (fo_meta s Hok).
  - apply store_file.
  - by destruct x.
  - intros i Hi _. by apply store_slot.
  - intros i Hi E. by rewrite store_slot.
  - intros b Hb. by rewrite store_used.
  - intros b Hb. rewrite store_used by done. congruence.
  - intros m _ _ Hm. rewrite V, decide_False; [done|]. intros ->.
    destruct (Hm (proj1 store_data)) as [_ H]. apply (H j); [unfold place; lia|done].
  - intros i y Hi _. unfold ondisk. rewrite Esb. destruct (IBLOCK_eq s i Hs Hi) as [_ Hib].
    by rewrite store_other by (by apply (inode_home s _ Hs Hib)).
Qed.

Lemma store_fbyte o : 0 <= o < MAXFILE * bsize ->
  fbyte s' x o = if decide (o / bsize = j) then nth (Z.to_nat (o mod bsize)) d 0 else fbyte s x o.
Proof.
  intros Ho. assert (Hp : place (o / bsize)).
  { split; [apply Z.div_pos; unfold bsize in *; lia|].
    apply Z.lt_le_incl, Z.div_lt_upper_bound; unfold bsize in *; lia. }
  unfold fbyte. rewrite store_slot by done. case_decide as E.
  - rewrite E, (proj2 (Z.eqb_neq _ _) Hn), V, decide_True by done. done.
  - destruct (Z.eqb_spec (slot s x (o / bsize)) 0) as [|Hz]; [done|].
    rewrite V, decide_False; [done|]. intros Es. apply E.
    apply (fl_inj _ _ Hf (o / bsize) j Hp) in Es; [done|unfold place; lia|done].
Qed.

Lemma store_room l : (forall i, i ∈ l -> place i) -> room s x l -> room s' x l.
Proof.
  intros Hl. unfold room, ind_credit. rewrite store_slot by apply MAXFILE_place.
  rewrite (holes_ext s s' x x l) by (intros; by apply store_slot, Hl).
  rewrite (nfree_ext s s'); [done|apply (keeps_fields _ _ K)|apply store_used].
Qed.

Lemma store_ftx F k : tx s' [] F (k + ind_credit s x) -> ftx s x F k -> ftx s' x F k.
Proof.
  intros Ht [_ Hb Hi].
  assert (E : slot s' x MAXFILE = slot s x MAXFILE) by apply store_slot, MAXFILE_place.
  split.
  - unfold ind_credit in *. by rewrite E.
  - intros m Hm. apply Hb. by apply (keeps_geometry _ _ K).
  - by rewrite E.
Qed.

End Store.

(** The bytes of one block from offset [off]: at most [r] of them. *)
Definition chunk (off r : Z) : Z := Z.min r (bsize - off mod bsize).

Lemma chunk_pos off r : 0 < r -> 0 < chunk off r <= r /\ off mod bsize + chunk off r <= bsize /\ 0 <= off mod bsize < bsize.
Proof.
  intros Hr. unfold chunk, bsize. pose proof (Z.mod_pos_bound off 512 ltac:(lia)). lia.
Qed.

Lemma same_block off r o : 0 <= off -> 0 < r -> off <= o < off + chunk off r ->
  o / bsize = off / bsize /\ o mod bsize = off mod bsize + (o - off).
Proof.
  intros Ho Hr H. destruct (chunk_pos off r Hr) as (H1 & H2 & H3). unfold bsize in *.
  pose proof (Z.div_mod off 512 ltac:(lia)) as E.
  assert (Eo : o = 512 * (off / 512) + (off mod 512 + (o - off))) by lia.
  split.
  - symmetry. apply (Z.div_unique o 512 _ (off mod 512 + (o - off))); [lia|done].
  - symmetry. apply (Z.mod_unique o 512 (off / 512)); [lia|done].
Qed.

(** The offsets of block [off / bsize] outside the chunk. *)
Lemma other_offset off r o : 0 <= off -> 0 < r -> o / bsize = off / bsize -> ~ (off <= o < off + chunk off r) ->
  o mod bsize < off mod bsize \/ off mod bsize + chunk off r <= o mod bsize.
Proof.
  intros Ho Hr E H. destruct (chunk_pos off r Hr) as (H1 & H2 & H3). unfold bsize in *.
  pose proof (Z.div_mod off 512 ltac:(lia)). pose proof (Z.div_mod o 512 ltac:(lia)). lia.
Qed.

Lemma off_place off r : 0 <= off -> 0 < r -> off + r <= MAXFILE * bsize -> 0 <= off / bsize < MAXFILE.
Proof.
  intros Ho Hr H. split; [apply Z.div_pos; unfold bsize; lia|].
  apply Z.div_lt_upper_bound; unfold bsize in *; lia.
Qed.

Lemma bytes_in_chunk s x o off r d (src : list Z) :
  block_ok d -> 0 <= off -> 0 < r -> r <= Z.of_nat (length src) -> slot s x (off / bsize) <> 0 ->
  d = val s (slot s x (off / bsize)) ->
  (if decide (o / bsize = off / bsize)
   then nth (Z.to_nat (o mod bsize)) (splice d (off mod bsize) (take (Z.to_nat (chunk off r)) src)) 0
   else fbyte s x o) =
  if decide (off <= o < off + chunk off r) then nth (Z.to_nat (o - off)) src 0 else fbyte s x o.
Proof.
  intros Hd Ho Hr Hsrc Hn Ed. destruct (chunk_pos off r Hr) as (H1 & H2 & H3).
  assert (Hl : length (take (Z.to_nat (chunk off r)) src) = Z.to_nat (chunk off r)) by (rewrite length_take; lia).
  assert (Hsp : (Z.to_nat (off mod bsize) + length (take (Z.to_nat (chunk off r)) src) <= length d)%nat).
  { rewrite Hl, (proj1 Hd). unfold BSIZE, bsize in *. lia. }
  destruct (decide (off <= o < off + chunk off r)) as [Hin|Hout].
  - destruct (same_block off r o Ho Hr Hin) as [E1 E2]. rewrite decide_True by done.
    rewrite splice_nth, Hl, decide_True, E2 by (done || rewrite ?E2; lia).
    rewrite !nth_lookup, lookup_take_lt by lia. do 2 f_equal. lia.
  - case_decide as E; [|done]. pose proof (other_offset off r o Ho Hr E Hout) as Hm.
    pose proof (Z.mod_pos_bound o bsize ltac:(unfold bsize; lia)).
    rewrite splice_nth, Hl, decide_False by (done || lia).
    unfold fbyte. by rewrite E, (proj2 (Z.eqb_neq _ _) Hn), Ed.
Qed.

Lemma fsize_bound : MAXFILE * bsize < 4294967296.
Proof. done. Qed.

(** What one turn of a write does, from [s]: [m] bytes of [src] are at [off]. *)
Record written (s s' : fst) (ip : nat) (x x' : inode) (off m : Z) (src : list Z) : Prop := {
  wn_touched : touched s s' ip x x';
  wn_size : isize x' = isize x;
  wn_bytes : forall o, 0 <= o < MAXFILE * bsize ->
    fbyte s' x' o = if decide (off <= o < off + m) then nth (Z.to_nat (o - off)) src 0 else fbyte s x o;
  wn_slots : forall o, off <= o < off + m -> slot s' x' (o / bsize) <> 0;
  wn_same : (forall o, off <= o < off + m -> slot s x (o / bsize) <> 0) -> x' = x;
  wn_far : forall i, 0 <= i < MAXFILE -> (forall o, off <= o < off + m -> o / bsize <> i) ->
    slot s' x' i = slot s x i }.

Lemma touched_icache u s s' ip x x' : icache s !! ip = Some x -> changed u s s' ip x x' -> icache s' !! ip = Some x'.
Proof.
  intros Hx H. destruct (touched_sb _ _ _ _ _ _ H) as (_ & -> & _).
  apply list_lookup_insert_eq. by apply lookup_lt_Some in Hx.
Qed.

Section Turn.
Variables (s : fst) (ip : nat) (x : inode) (F : gset Z) (k : nat) (n tot off : Z) (src : list Z).
Hypothesis Hft : ftx s x F (S k).
Hypothesis Hok : fs_ok s.
Hypothesis Hf : file_ok s x.
Hypothesis Hx : icache s !! ip = Some x.
Hypothesis Htot : 0 <= tot < n.
Hypothesis Hn : n <= MAXFILE * bsize.
Hypothesis Hoff : 0 <= off.
Hypothesis Hend : off + (n - tot) <= MAXFILE * bsize.
Hypothesis Hsrc : n - tot <= Z.of_nat (length src).
Hypothesis Hbytes : Forall byte src.

Let j : Z := off / bsize.
Let m : Z := chunk off (n - tot).

Lemma turn_place : 0 <= j < MAXFILE.
Proof. apply (off_place off (n - tot)); lia. Qed.

Hypothesis Hroom : room s x [j].

Lemma writei_turn :
  exists s' x' F', writei_body ip n (tot, off, src) s =
      Ret (inl (tot + m, off + m, drop (Z.to_nat m) src)) s' /\
    ftx s' x' F' k /\ F ⊆ F' /\ written s s' ip x x' off m src /\
    (forall l, (forall i, i ∈ l -> 0 <= i < MAXFILE /\ i <> j) -> room s x (j :: l) -> room s' x' l).
Proof.
  pose proof turn_place as Hj. destruct (chunk_pos off (n - tot) ltac:(lia)) as (M1 & M2 & M3). fold m in M1, M2.
  pose proof fsize_bound as Hmax.
  destruct (bmap_ok s ip x F k j Hft Hok Hf Hx Hj Hroom) as (a & s1 & x1 & F1 & R1 & Ft1 & Mp & Ha & HF1).
  pose proof (mp_touched _ _ _ _ _ _ _ Mp) as To1. destruct (mp_here _ _ _ _ _ _ _ Mp) as [Ea Ha0].
  pose proof (touched_icache _ _ _ _ _ _ Hx To1) as Hx1. pose proof (to_ok _ _ _ _ _ _ To1) as Hok1.
  pose proof (to_file _ _ _ _ _ _ To1) as Hf1. subst a.
  destruct (fl_data _ _ Hf1 j) as [Hda _]; [unfold place; lia|done|].
  destruct (data_home s1 (fo_layout _ Hok1) _ Hda) as (Hh1 & _ & _ & _).
  unfold writei_body. rewrite (proj2 (Z.ltb_lt tot n)) by lia. fold j.
  rewrite (bind_eq _ _ _ _ _ R1), (bind_eq _ _ _ _ _ (iat_ok _ _ _ Hx1)), (fl_dev _ _ Hf1).
  destruct (tx_bread s1 [] F1 _ (slot s1 x1 j) (ft_tx _ _ _ _ Ft1)) as (i & s2 & R2 & T2 & S2).
  { by apply not_elem_of_nil. }
  { cbn; lia. }
  { apply Hh1. }
  rewrite (bind_eq _ _ _ _ _ R2). rewrite u32_small by lia. fold (chunk off (n - tot)). fold m. cbv zeta.
  rewrite (bind_eq _ _ _ _ _ (tx_data s2 _ _ _ i _ T2 ltac:(left))).
  pose proof (same_keeps _ _ S2) as K2. rewrite (sm_val _ _ S2).
  set (d := splice _ _ _).
  destruct (tx_write s2 _ _ _ i (slot s1 x1 j) d T2) as (s3 & R3 & T3 & K3 & V3).
  { left. }
  { done. }
  { by apply (keeps_geometry _ _ K2). }
  rewrite (bind_eq2 _ _ _ _ _ _ R3).
  destruct (tx_brelse s3 [] _ _ i _ T3) as (s4 & R4 & T4 & S4). rewrite (bind_eq _ _ _ _ _ R4).
  assert (K : keeps s1 s4) by (etrans; [done|]; etrans; [done|by apply same_keeps]).
  assert (V : forall b, val s4 b = if decide (b = slot s1 x1 j) then d else val s1 b).
  { intros b. rewrite (sm_val _ _ S4), V3, (sm_val _ _ S2). done. }
  assert (Hd : block_ok d).
  { apply splice_ok; [apply Hok1|lia| |by apply Forall_take].
    rewrite length_take. unfold BSIZE, bsize in *. lia. }
  exists s4, x1, F1. split; [|split; [|split; [done|split]]].
  - unfold ret. rewrite !u32_small by lia. done.
  - apply (store_ftx s1 s4 x1 j d); done.
  - split.
    + eapply touched_trans; [done..|]. by apply (store_touched s1 s4 ip x1 j d).
    + apply (mp_size _ _ _ _ _ _ _ Mp).
    + intros o Ho. rewrite (store_fbyte s1 s4 x1 j d Hf1 Hj Ha0 V o Ho).
      rewrite <- (mp_bytes _ _ _ _ _ _ _ Mp o Ho). unfold d, m, j.
      apply bytes_in_chunk; try done; try lia. apply Hok1.
    + intros o Ho. destruct (same_block off (n - tot) o Hoff ltac:(lia) Ho) as [-> _]. fold j.
      by rewrite (store_slot s1 s4 x1 j d) by (done || unfold place; lia).
    + intros H. apply (mp_same _ _ _ _ _ _ _ Mp), (H off). lia.
    + intros i0 Hi H. rewrite (store_slot s1 s4 x1 j d) by (done || unfold place; lia).
      apply (mp_other _ _ _ _ _ _ _ Mp); [done|]. intros ->. apply (H off); [lia|done].
  - intros l Hl Hr. apply (store_room s1 s4 x1 j d); try done.
    + intros i0 Hi. destruct (Hl i0 Hi). unfold place. lia.
    + by apply (mp_room _ _ _ _ _ _ _ Mp).
Qed.

End Turn.

(** The places a range of bytes meets. *)
Definition nblk (off r : Z) : Z := if 0 <? r then (off mod bsize + r + bsize - 1) / bsize else 0.
Definition visit (off r : Z) : list Z := seqZ (off / bsize) (nblk off r).

Lemma nblk_step off r : 0 <= off -> 0 < r ->
  nblk off r = 1 + nblk (off + chunk off r) (r - chunk off r) /\
  (r - chunk off r = 0 \/ (off + chunk off r) / bsize = off / bsize + 1).
Proof.
  intros Ho Hr. destruct (chunk_pos off r Hr) as (M1 & M2 & M3). unfold nblk.
  rewrite (proj2 (Z.ltb_lt 0 r) Hr). unfold chunk in *. unfold bsize in *.
  pose proof (Z.div_mod off 512 ltac:(lia)) as E.
  destruct (Z.min_spec r (512 - off mod 512)) as [[Hlt Em]|[Hge Em]]; rewrite Em in *.
  - rewrite Z.sub_diag. cbn [Z.ltb Z.compare]. split; [|by left].
    symmetry. apply (Z.div_unique _ 512 1 (off mod 512 + r - 1)); lia.
  - set (m := 512 - off mod 512) in *.
    assert (E1 : off + m = (off / 512 + 1) * 512) by lia.
    assert (Ed : (off + m) / 512 = off / 512 + 1) by (rewrite E1; apply Z.div_mul; lia).
    assert (Emod : (off + m) mod 512 = 0) by (rewrite E1; apply Z.mod_mul; lia).
    split; [|by right]. rewrite Emod. destruct (Z.ltb_spec 0 (r - m)).
    + replace (off mod 512 + r + 512 - 1) with (0 + (r - m) + 512 - 1 + 1 * 512) by lia.
      rewrite Z.div_add by lia. lia.
    + symmetry. apply (Z.div_unique _ 512 1 511); lia.
Qed.

Lemma nblk_nonneg off r : 0 <= nblk off r.
Proof.
  unfold nblk. destruct (Z.ltb_spec 0 r); [|lia]. apply Z.div_pos; unfold bsize; [|lia].
  pose proof (Z.mod_pos_bound off 512 ltac:(lia)). lia.
Qed.

Lemma visit_step off r : 0 <= off -> 0 < r ->
  visit off r = off / bsize :: visit (off + chunk off r) (r - chunk off r).
Proof.
  intros Ho Hr. destruct (nblk_step off r Ho Hr) as [E H]. unfold visit. rewrite E.
  pose proof (nblk_nonneg (off + chunk off r) (r - chunk off r)) as Hp.
  rewrite seqZ_cons by lia. f_equal. rewrite <- Z.add_1_r.
  replace (Z.pred (1 + nblk (off + chunk off r) (r - chunk off r))) with (nblk (off + chunk off r) (r - chunk off r)) by lia.
  destruct H as [H|H]; [|by rewrite H].
  unfold nblk. rewrite H. done.
Qed.

Lemma visit_in off r i : 0 <= off -> off + r <= MAXFILE * bsize -> i ∈ visit off r -> 0 <= i < MAXFILE.
Proof.
  intros Ho H Hi. apply elem_of_seqZ in Hi. unfold nblk in Hi. destruct (Z.ltb_spec 0 r); [|lia].
  assert (Hd : 0 <= off / bsize) by (apply Z.div_pos; unfold bsize; lia). split; [lia|].
  assert (Eq : off / bsize + (off mod bsize + r + bsize - 1) / bsize = (off + r + bsize - 1) / bsize).
  { unfold bsize. rewrite (Z.div_mod off 512) at 3 by lia.
    replace (512 * (off / 512) + off mod 512 + r + 512 - 1) with (off mod 512 + r + 512 - 1 + (off / 512) * 512) by lia.
    rewrite Z.div_add by lia. lia. }
  rewrite Eq in Hi. assert ((off + r + bsize - 1) / bsize < MAXFILE + 1); [|lia].
  apply Z.div_lt_upper_bound; unfold bsize in *; lia.
Qed.

Lemma room_head s x j l : room s x (j :: l) -> room s x [j].
Proof. unfold room. rewrite !holes_cons. change (holes s x []) with 0%nat. case_decide; lia. Qed.

Lemma written_nil s ip x off src :
  fs_ok s -> file_ok s x -> icache s !! ip = Some x -> written s s ip x x off 0 src.
Proof.
  intros Hok Hf Hx. split; try done; [by apply touched_refl|..].
  - intros o _. by rewrite decide_False by lia.
  - intros o Ho. lia.
Qed.

Lemma written_trans s s1 s2 ip x x1 x2 off m r src :
  fs_ok s -> file_ok s x -> 0 <= m <= r -> 0 <= off -> off + r <= MAXFILE * bsize ->
  written s s1 ip x x1 off m src -> written s1 s2 ip x1 x2 (off + m) (r - m) (drop (Z.to_nat m) src) ->
  written s s2 ip x x2 off r src.
Proof.
  intros Hok Hf Hm Ho Hl [T1 Z1 B1 S1 E1 F1] [T2 Z2 B2 S2 E2 F2].
  assert (Hp : forall o, off <= o < off + r -> place (o / bsize)).
  { intros o Hr. destruct (off_place o 1 ltac:(lia) ltac:(lia) ltac:(lia)). unfold place. lia. }
  split.
  - by apply (touched_trans false s s1 s2 ip x x1 x2).
  - congruence.
  - intros o Hr. rewrite B2, B1 by done.
    destruct (decide (off <= o < off + m)).
    + rewrite decide_False by lia. by rewrite decide_True by lia.
    + destruct (decide (off + m <= o < off + m + (r - m))).
      * rewrite decide_True by lia. rewrite !nth_lookup, lookup_drop. do 2 f_equal. lia.
      * by rewrite decide_False by lia.
  - intros o Hr. destruct (decide (o < off + m)) as [H|H].
    + rewrite (to_slots _ _ _ _ _ _ T2); [apply S1; lia|apply Hp; lia|apply S1; lia].
    + apply S2. lia.
  - intros H. rewrite E2; [apply E1; intros o Hr; apply H; lia|]. intros o Hr.
    assert (Hn : slot s x (o / bsize) <> 0) by (apply H; lia).
    by rewrite (to_slots _ _ _ _ _ _ T1) by (done || apply Hp; lia).
  - intros i Hi H. rewrite F2, F1; [done|done|intros o Hr; apply H; lia|done|intros o Hr; apply H; lia].
Qed.

(** The loop of [writei]. *)
Lemma writei_loop ip n k kb : forall s x F tot off src fuel,
  nblk off (n - tot) = Z.of_nat kb -> (kb < fuel)%nat ->
  ftx s x F (kb + k) -> fs_ok s -> file_ok s x -> icache s !! ip = Some x ->
  0 <= tot <= n -> n <= MAXFILE * bsize -> 0 <= off -> off + (n - tot) <= MAXFILE * bsize ->
  n - tot <= Z.of_nat (length src) -> Forall byte src -> room s x (visit off (n - tot)) ->
  exists s' x' F', loop fuel (writei_body ip n) (tot, off, src) s = Ret (off + (n - tot)) s' /\
    ftx s' x' F' k /\ F ⊆ F' /\ written s s' ip x x' off (n - tot) src.
Proof.
  induction kb as [|kb IH]; intros s x F tot off src fuel Hk Hfuel Hft Hok Hf Hx Htot Hn Ho Hend Hsrc Hb Hr;
    (destruct fuel as [|fuel]; [lia|]); cbn [loop];
    (destruct (Z.eq_dec tot n) as [->|Hne]; [|assert (Hlt : 0 < n - tot) by lia]).
  - unfold writei_body at 1. rewrite Z.ltb_irrefl. rewrite Z.sub_diag, Z.add_0_r.
    exists s, x, F. split_and!; try done. by apply written_nil.
  - destruct (nblk_step off (n - tot) Ho Hlt) as [E _].
    pose proof (nblk_nonneg (off + chunk off (n - tot)) (n - tot - chunk off (n - tot))). lia.
  - rewrite Z.sub_diag in Hk. cbn in Hk. lia.
  - destruct (nblk_step off (n - tot) Ho Hlt) as [E _]. rewrite visit_step in Hr by done.
    destruct (chunk_pos off (n - tot) Hlt) as (M1 & M2 & M3).
    destruct (writei_turn s ip x F (kb + k) n tot off src Hft Hok Hf Hx ltac:(lia) Hn Ho Hend Hsrc Hb (room_head _ _ _ _ Hr))
      as (s1 & x1 & F1 & R1 & Ft1 & HF1 & W1 & Rm1).
    rewrite (bind_eq _ _ _ _ _ R1).
    pose proof (wn_touched _ _ _ _ _ _ _ _ W1) as To1. set (m := chunk off (n - tot)) in *.
    replace (n - tot - m) with (n - (tot + m)) in * by lia.
    destruct (IH s1 x1 F1 (tot + m) (off + m) (drop (Z.to_nat m) src) fuel) as (s2 & x2 & F2 & R2 & Ft2 & HF2 & W2);
      try done; try lia; try apply To1.
    { by apply (touched_icache false s s1 ip x x1). }
    { rewrite length_drop. lia. }
    { by apply Forall_drop. }
    { apply Rm1; [|done]. intros i Hi. split; [apply (visit_in (off + m) (n - (tot + m))); try done; lia|].
      destruct (nblk_step off (n - tot) Ho Hlt) as [_ [H0|Hd]]; fold m in H0 || fold m in Hd.
      - replace (n - (tot + m)) with 0 in Hi by lia. by apply elem_of_seqZ in Hi; unfold nblk in Hi; cbn in Hi; lia.
      - apply elem_of_seqZ in Hi. lia. }
    exists s2, x2, F2. split; [|split; [done|split; [by etrans|]]].
    + rewrite R2. f_equal. lia.
    + replace (n - tot) with (m + (n - (tot + m))) by lia.
      apply (written_trans s s1 s2 ip x x1 x2 off m); try done; try lia.
      replace (m + (n - (tot + m)) - m) with (n - (tot + m)) by lia. done.
Qed.
