(* ===== verification/FsRW.v ===== *)
(** * Reading and writing files

    [readi] returns the bytes of the file and changes nothing; [writei]
    replaces a range of them, lengthens the file when it writes past its end
    and keeps the inode on disk up to date. *)

From S2P Require Import Prelude Locks Bio Log LogFacts Fs FsTx FsBlocks FsInode FsFile.
Import Bio BioFacts Log Fs.

(** Every byte below the size has a block. *)
Definition dense (s : fst) (x : inode) : Prop := forall o, 0 <= o < isize x -> slot s x (o / bsize) <> 0.
(** The inode on disk is the one in the cache. *)
Definition synced (s : fst) (x : inode) : Prop := forall y, ondisk s (inum x) y = dinode_of x y.

(** The bytes of a range. *)
Definition bytes (s : fst) (x : inode) (off n : Z) : list Z := fbyte s x <$> seqZ off n.

Lemma bytes_app s x off m n : 0 <= m -> 0 <= n -> bytes s x off (m + n) = bytes s x off m ++ bytes s x (off + m) n.
Proof. intros Hm Hn. unfold bytes. by rewrite seqZ_app, fmap_app. Qed.

Lemma bytes_same s s' x off n : (forall m, val s' m = val s m) -> bytes s' x off n = bytes s x off n.
Proof. intros H. unfold bytes. apply list_fmap_ext. intros i o _. by apply same_fbyte. Qed.

(** One chunk of a block. *)
Lemma chunk_bytes s x off r :
  block_ok (val s (slot s x (off / bsize))) -> 0 <= off -> 0 < r -> slot s x (off / bsize) <> 0 ->
  take (Z.to_nat (chunk off r)) (drop (Z.to_nat (off mod bsize)) (val s (slot s x (off / bsize)))) =
  bytes s x off (chunk off r).
Proof.
  intros [Hl _] Ho Hr Hn. destruct (chunk_pos off r Hr) as (M1 & M2 & M3).
  apply list_eq. intros i. unfold bytes. rewrite list_lookup_fmap.
  destruct (decide (Z.of_nat i < chunk off r)) as [Hi|Hi].
  - rewrite lookup_take_lt, lookup_drop by lia.
    assert (E : seqZ off (chunk off r) !! i = Some (off + Z.of_nat i)) by (apply lookup_seqZ; lia).
    rewrite E. cbn [fmap option_fmap option_map].
    destruct (same_block off r (off + Z.of_nat i) Ho Hr ltac:(lia)) as [E1 E2].
    unfold fbyte. rewrite E1, E2, (proj2 (Z.eqb_neq _ _) Hn).
    replace (Z.to_nat (off mod bsize + (off + Z.of_nat i - off))) with (Z.to_nat (off mod bsize) + i)%nat by lia.
    destruct (lookup_lt_is_Some_2 (val s (slot s x (off / bsize))) (Z.to_nat (off mod bsize) + i)) as [v Hv].
    { rewrite Hl. unfold BSIZE, bsize in *. lia. }
    by rewrite Hv, (nth_lookup_Some _ _ 0 _ Hv).
  - rewrite lookup_take_ge by lia. symmetry. rewrite fmap_None. apply lookup_ge_None. rewrite length_seqZ. lia.
Qed.

Section Read.
Variables (bl : list Z) (ip : nat) (x : inode) (n : Z).
Hypothesis Hlen : (length bl < 29)%nat.
Hypothesis Hn : n <= MAXFILE * bsize.

Lemma readi_turn s tot off dst :
  held s bl [] -> fs_ok s -> file_ok s x -> icache s !! ip = Some x ->
  0 <= tot < n -> 0 <= off -> off + (n - tot) <= MAXFILE * bsize -> slot s x (off / bsize) <> 0 ->
  exists s', readi_body ip n (tot, off, dst) s =
      Ret (inl (tot + chunk off (n - tot), off + chunk off (n - tot), dst ++ bytes s x off (chunk off (n - tot)))) s' /\
    held s' bl [] /\ same s s'.
Proof.
  intros Hh Hok Hf Hx Ht Ho Hend Hsl. pose proof fsize_bound as Hmax.
  pose proof (off_place off (n - tot) Ho ltac:(lia) Hend) as Hj.
  destruct (chunk_pos off (n - tot) ltac:(lia)) as (M1 & M2 & M3).
  unfold readi_body. rewrite (proj2 (Z.ltb_lt tot n)) by lia.
  destruct (bmap_held s bl ip x (off / bsize) Hh Hlen Hok Hf Hx Hj Hsl) as (s1 & R1 & H1 & S1).
  rewrite (bind_eq _ _ _ _ _ R1). pose proof (same_keeps _ _ S1) as K1.
  assert (Hx1 : icache s1 !! ip = Some x) by (destruct (keeps_fields _ _ K1) as (_ & -> & _); done).
  rewrite (bind_eq _ _ _ _ _ (iat_ok _ _ _ Hx1)).
  assert (E1 : slot s1 x (off / bsize) = slot s x (off / bsize)) by (apply same_slot, S1).
  destruct (held_bread_file s1 bl x (off / bsize) H1 Hlen (same_fs_ok _ _ S1 Hok) (same_file_ok _ _ _ S1 Hf))
    as (i & s2 & R2 & H2 & S2 & D2); [unfold place; lia|by rewrite E1|].
  rewrite E1 in *. rewrite (bind_eq _ _ _ _ _ R2). rewrite (u32_small (n - tot)) by lia. fold (chunk off (n - tot)). cbv zeta.
  rewrite (bind_eq _ _ _ _ _ D2), (sm_val _ _ S1).
  destruct (held_brelse s2 bl [] i _ H2) as (s3 & R3 & H3 & S3). rewrite (bind_eq _ _ _ _ _ R3).
  exists s3. split_and!; [|done|by etrans; [|etrans]].
  unfold ret. rewrite !u32_small by lia. rewrite chunk_bytes; [done|apply Hok|done|lia|done].
Qed.

Lemma readi_loop kb : forall s tot off dst fuel,
  nblk off (n - tot) = Z.of_nat kb -> (kb < fuel)%nat ->
  held s bl [] -> fs_ok s -> file_ok s x -> icache s !! ip = Some x ->
  0 <= tot <= n -> 0 <= off -> off + (n - tot) <= MAXFILE * bsize ->
  (forall o, off <= o < off + (n - tot) -> slot s x (o / bsize) <> 0) ->
  exists s', loop fuel (readi_body ip n) (tot, off, dst) s = Ret (dst ++ bytes s x off (n - tot)) s' /\
    held s' bl [] /\ same s s'.
Proof.
  induction kb as [|kb IH]; intros s tot off dst fuel Hk Hfuel Hh Hok Hf Hx Ht Ho Hend Hsl;
    (destruct fuel as [|fuel]; [lia|]); cbn [loop];
    (destruct (Z.eq_dec tot n) as [->|Hne]; [|assert (Hlt : 0 < n - tot) by lia]).
  - unfold readi_body at 1. rewrite Z.ltb_irrefl. rewrite Z.sub_diag.
    exists s. split_and!; [|done|done]. unfold bytes. cbn. by rewrite app_nil_r.
  - destruct (nblk_step off (n - tot) Ho Hlt) as [E _].
    pose proof (nblk_nonneg (off + chunk off (n - tot)) (n - tot - chunk off (n - tot))). lia.
  - rewrite Z.sub_diag in Hk. cbn in Hk. lia.
  - destruct (nblk_step off (n - tot) Ho Hlt) as [E _]. destruct (chunk_pos off (n - tot) Hlt) as (M1 & M2 & M3).
    destruct (readi_turn s tot off dst Hh Hok Hf Hx ltac:(lia) Ho Hend (Hsl off ltac:(lia))) as (s1 & R1 & H1 & S1).
    rewrite (bind_eq _ _ _ _ _ R1). set (m := chunk off (n - tot)) in *.
    replace (n - tot - m) with (n - (tot + m)) in * by lia.
    assert (Es : forall j, slot s1 x j = slot s x j) by (intros; apply same_slot, S1).
    destruct (IH s1 (tot + m) (off + m) (dst ++ bytes s x off m) fuel) as (s2 & R2 & H2 & S2);
      try done; try lia.
    { by apply (same_fs_ok s). }
    { by apply (same_file_ok s). }
    { by destruct (keeps_fields _ _ (same_keeps _ _ S1)) as (_ & -> & _). }
    { intros o Hr. rewrite Es. apply Hsl. lia. }
    exists s2. split_and!; [|done|by etrans]. rewrite R2. f_equal.
    rewrite <- app_assoc, (bytes_same s s1 x _ _ (sm_val _ _ S1)). f_equal.
    replace (n - tot) with (m + (n - (tot + m))) by lia. symmetry. apply bytes_app; lia.
Qed.

End Read.

(** How much of [n] bytes from [off] the file has. *)
Definition avail (x : inode) (off n : Z) : Z := Z.min n (isize x - off).

Lemma nblk_fuel off n : 0 <= n -> nblk off n < n / bsize + 3.
Proof.
  intros Hn. unfold nblk. destruct (Z.ltb_spec 0 n); unfold bsize.
  - pose proof (Z.mod_pos_bound off 512 ltac:(lia)). apply Z.div_lt_upper_bound; [lia|].
    pose proof (Z.div_mod n 512 ltac:(lia)). pose proof (Z.mod_pos_bound n 512 ltac:(lia)). lia.
  - assert (0 <= n / 512) by (apply Z.div_pos; lia). lia.
Qed.

Lemma readi_held s bl ip x rd off n :
  held s bl [] -> (length bl < 29)%nat -> fs_ok s -> file_ok s x -> dense s x -> icache s !! ip = Some x ->
  type x <> T_DEV -> 0 <= off <= isize x -> 0 <= n -> off + n < 4294967296 ->
  exists s', readi rd ip off n s = Ret (avail x off n, bytes s x off (avail x off n)) s' /\
    held s' bl [] /\ same s s'.
Proof.
  intros Hh Hlen Hok Hf Hdn Hx Hty Ho Hn Hw. pose proof fsize_bound as Hmax.
  destruct (fl_size _ _ Hf) as [Hs1 Hs2].
  unfold readi. rewrite (bind_eq _ _ _ _ _ (iat_ok _ _ _ Hx)), (proj2 (Z.eqb_neq _ _) Hty).
  rewrite (u32_small (off + n)) by lia.
  rewrite Z.gtb_ltb, (proj2 (Z.ltb_ge (isize x) off)), (proj2 (Z.ltb_ge (off + n) off)) by lia. cbn [orb].
  rewrite Z.gtb_ltb, (u32_small (isize x - off)) by lia. cbv zeta.
  assert (En : (if isize x <? off + n then isize x - off else n) = avail x off n).
  { unfold avail. destruct (Z.ltb_spec (isize x) (off + n)); lia. }
  rewrite En. assert (Ha : 0 <= avail x off n <= isize x - off) by (unfold avail; lia).
  pose proof (nblk_nonneg off (avail x off n)) as Hb. pose proof (nblk_fuel off (avail x off n) ltac:(lia)) as Hfu.
  assert (Hd0 : 0 <= avail x off n / bsize) by (apply Z.div_pos; unfold bsize; lia).
  destruct (readi_loop bl ip x (avail x off n) Hlen ltac:(lia) (Z.to_nat (nblk off (avail x off n))) s 0 off []
    (S (Z.to_nat (avail x off n / bsize + 2)))) as (s' & R & H' & S');
    rewrite ?Z.sub_0_r; try done; try lia.
  { intros o Hr. apply Hdn. lia. }
  rewrite Z.sub_0_r in R. exists s'. split_and!; try done.
  rewrite (bind_eq _ _ _ _ _ R). unfold ret. f_equal. rewrite i32_small; [done|]. 
  unfold MAXFILE, NDIRECT, NINDIRECT, bsize in *. lia.
Qed.

(** ** The inode changed in memory, and written back *)

Lemma layout_icache c s : layout s -> layout (with_icache c s).
Proof. intros [? ? ? ? ?]. by split. Qed.
Lemma fs_ok_icache c s : fs_ok s -> fs_ok (with_icache c s).
Proof. intros [? ? ? ?]. split; try done. by apply layout_icache. Qed.

Lemma set_isize_file s x v :
  file_ok s x -> 0 <= v <= MAXFILE * bsize -> file_ok s (set_isize v x).
Proof.
  intros [[? ? ? ? ? ? ?] ? ? ? ? ?] Hv. pose proof fsize_bound. split; try done. split; try done.
  cbn. lia.
Qed.

Lemma file_ok_icache c s x : file_ok s x -> file_ok (with_icache c s) x.
Proof. intros [? ? ? ? ? ?]. by split. Qed.

(** A new size, in memory only. *)
Lemma resize_changed u s ip x v :
  fs_ok s -> file_ok s x -> 0 <= v <= MAXFILE * bsize ->
  changed u s (with_icache (<[ip := set_isize v x]> (icache s)) s) ip x (set_isize v x).
Proof.
  intros Hok Hf Hv. split; try done.
  - by apply fs_ok_icache.
  - apply file_ok_icache. by apply set_isize_file.
  - intros b _ H1 H2. assert (used s b = true) by done. congruence.
Qed.

Lemma changed_weaken s s' ip x x' : touched s s' ip x x' -> changed true s s' ip x x'.
Proof.
  intros [? ? ? ? ? ? ? ? Hv Hi]. split; try done.
  - intros m Hm _ Hd. by apply Hv.
  - intros i y Hr _. by apply Hi.
Qed.

Section Update.
Variables (s s' : fst) (ip : nat) (x : inode).
Hypothesis Hok : fs_ok s.
Hypothesis Hf : file_ok s x.
Hypothesis Hx : icache s !! ip = Some x.
Hypothesis K : keeps s s'.
Hypothesis Hok' : fs_ok s'.
Hypothesis V : forall m, m <> IBLOCK (inum x) (sb s) -> val s' m = val s m.
Hypothesis U : forall b, 0 <= b < size (sb s) -> used s' b = used s b.
Hypothesis Hother : forall i y, 0 <= i < ninodes (sb s) -> i <> inum x -> ondisk s' i y = ondisk s i y.

Let Hs : layout s := fo_layout s Hok.

Lemma update_data m : data_block s m -> val s' m = val s m.
Proof.
  intros Hd. apply V. intros ->. destruct (IBLOCK_eq s (inum x) Hs (fl_inum _ _ Hf)) as [_ Hi].
  by apply (inode_home s _ Hs) in Hi as (_ & _ & _ & ?).
Qed.

Lemma update_slot y j : file_ok s y -> slot s' y j = slot s y j.
Proof.
  intros Hy. unfold slot. destruct (j <? NDIRECT); [done|]. destruct (j =? MAXFILE); [done|].
  destruct (Z.eqb_spec (addr_at y NDIRECT) 0) as [|Hn]; [done|].
  rewrite update_data; [done|]. apply (fl_data _ _ Hy MAXFILE MAXFILE_place Hn).
Qed.

Lemma update_fbyte o : 0 <= o < MAXFILE * bsize -> fbyte s' x o = fbyte s x o.
Proof.
  intros Ho. unfold fbyte. rewrite update_slot by done.
  destruct (Z.eqb_spec (slot s x (o / bsize)) 0) as [|Hn]; [done|]. rewrite update_data; [done|].
  apply (fl_data _ _ Hf); [|done]. destruct (off_place o 1) as [? ?]; unfold place; lia.
Qed.

Lemma update_changed : changed true s s' ip x x.
Proof.
  destruct (keeps_fields _ _ K) as (Esb & Eic & _). split; try done.
  - rewrite list_insert_id by done. by destruct s.
  - destruct Hf as [? ? ? Hdt Hinj ?]. split; try done.
    + by rewrite Esb.
    + intros j Hj. rewrite update_slot by done. intros Hn. destruct (Hdt j Hj Hn) as [Hd Hu].
      split; [by apply (keeps_geometry _ _ K)|]. rewrite U; [done|]. by apply (data_pos s).
    + intros i j Hi Hj. rewrite !update_slot by done. by apply Hinj.
  - by destruct x.
  - intros j Hj _. by apply update_slot.
  - intros j Hj E. by rewrite update_slot.
  - intros b Hb. by rewrite U.
  - intros b Hb. rewrite U by done. congruence.
  - intros m _ Hm _. by apply V, Hm.
  - intros i y Hi Hne. by apply Hother, Hne.
Qed.

End Update.

(** ** [writei] *)

Record write_done (s s' : fst) (ip : nat) (x x' : inode) (src : list Z) (off n : Z) : Prop := {
  wd_changed : changed true s s' ip x x';
  wd_size : isize x' = Z.max (isize x) (off + n);
  wd_bytes : forall o, 0 <= o < MAXFILE * bsize ->
    fbyte s' x' o = if decide (off <= o < off + n) then nth (Z.to_nat (o - off)) src 0 else fbyte s x o;
  wd_dense : dense s' x';
  wd_synced : synced s' x' }.

Section Writei.
Variables (s : fst) (ip : nat) (x : inode) (F : gset Z) (k : nat) (off n : Z) (src : list Z).
Variable wr : Z -> option (nat -> list Z -> M fst Z).
Hypothesis Hft : ftx s x F (Z.to_nat (nblk off n) + k).
Hypothesis Hib : IBLOCK (inum x) (sb s) ∈ F.
Hypothesis Hok : fs_ok s.
Hypothesis Hf : file_ok s x.
Hypothesis Hdn : dense s x.
Hypothesis Hsy : synced s x.
Hypothesis Hx : icache s !! ip = Some x.
Hypothesis Hty : type x <> T_DEV.
Hypothesis Ho : 0 <= off <= isize x.
Hypothesis Hn : 0 <= n.
Hypothesis Hend : off + n <= MAXFILE * bsize.
Hypothesis Hsrc : n <= Z.of_nat (length src).
Hypothesis Hbytes : Forall byte src.
Hypothesis Hroom : room s x (visit off n).

Lemma writei_dense s1 x1 m :
  written s s1 ip x x1 off n src -> m <= Z.max (isize x) (off + n) ->
  forall o, 0 <= o < m -> slot s1 x1 (o / bsize) <> 0.
Proof.
  intros W Hm o Hr. destruct (decide (off <= o < off + n)); [by apply (wn_slots _ _ _ _ _ _ _ _ W)|].
  assert (Hr' : 0 <= o < isize x) by lia. pose proof (Hdn o Hr') as Hsl.
  destruct (fl_size _ _ Hf) as [_ Hmax].
  rewrite (to_slots _ _ _ _ _ _ (wn_touched _ _ _ _ _ _ _ _ W)); [done| |done].
  destruct (off_place o 1) as [? ?]; unfold place; lia.
Qed.

Lemma writei_ok :
  exists s' x' F', writei wr ip src off n s = Ret n s' /\ ftx s' x' F' k /\ F ⊆ F' /\
    write_done s s' ip x x' src off n.
Proof.
  pose proof fsize_bound as Hmax. destruct (fl_size _ _ Hf) as [Hs1 Hs2].
  unfold writei. rewrite (bind_eq _ _ _ _ _ (iat_ok _ _ _ Hx)), (proj2 (Z.eqb_neq _ _) Hty).
  rewrite (u32_small (off + n)) by lia.
  rewrite Z.gtb_ltb, (proj2 (Z.ltb_ge (isize x) off)), (proj2 (Z.ltb_ge (off + n) off)) by lia. cbn [orb].
  rewrite Z.gtb_ltb, (proj2 (Z.ltb_ge (MAXFILE * bsize) (off + n))) by lia.
  pose proof (nblk_nonneg off n) as Hb. pose proof (nblk_fuel off n Hn) as Hfu.
  assert (Hd0 : 0 <= n / bsize) by (apply Z.div_pos; unfold bsize; lia).
  destruct (writei_loop ip n k (Z.to_nat (nblk off n)) s x F 0 off src (S (Z.to_nat (n / bsize + 2))))
    as (s1 & x1 & F1 & R1 & Ft1 & HF1 & W1); rewrite ?Z.sub_0_r; try done; try lia.
  rewrite Z.sub_0_r in R1, W1. pose proof (wn_touched _ _ _ _ _ _ _ _ W1) as To1.
  pose proof (touched_icache _ _ _ _ _ _ Hx To1) as Hx1. pose proof (wn_size _ _ _ _ _ _ _ _ W1) as Sz1.
  destruct (touched_sb _ _ _ _ _ _ To1) as (Esb1 & _ & _).
  assert (Einum : inum x1 = inum x) by (by rewrite (to_meta _ _ _ _ _ _ To1)).
  assert (Ei32 : i32 n = n) by (apply i32_small; unfold MAXFILE, NDIRECT, NINDIRECT, bsize in *; lia).
  rewrite (bind_eq _ _ _ _ _ R1), (bind_eq _ _ _ _ _ (iat_ok _ _ _ Hx1)), Sz1, !Z.gtb_ltb, Ei32.
  destruct ((0 <? n) && (isize x <? off + n)) eqn:Eg; bools.
  - (* the file grows *)
    destruct Eg as [Hn0 Hgrow]. set (x2 := set_isize (off + n) x1).
    assert (Hv : 0 <= off + n <= MAXFILE * bsize) by lia.
    pose proof (resize_changed true s1 ip x1 (off + n) (to_ok _ _ _ _ _ _ To1) (to_file _ _ _ _ _ _ To1) Hv) as To2.
    fold x2 in To2. set (s2 := with_icache (<[ip:=x2]> (icache s1)) s1) in *.
    assert (R2 : iupd ip (set_isize (off + n)) s1 = Ret tt s2) by (by apply alter_icache).
    pose proof (touched_icache _ _ _ _ _ _ Hx1 To2) as Hx2.
    destruct (iupdate_ok s2 [] F1 (k + ind_credit s1 x1) ip x2) as (s3 & R3 & T3 & K3 & Ok3 & V3 & U3 & D3 & O3); try done.
    { apply (ft_tx _ _ _ _ Ft1). }
    { apply To2. }
    { split; [cbn; lia|intros m ?%not_elem_of_nil; done]. }
    { apply (fl_dev _ _ (to_file _ _ _ _ _ _ To1)). }
    { apply (fl_inum _ _ (to_file _ _ _ _ _ _ To1)). }
    { apply (fl_fields _ _ (to_file _ _ _ _ _ _ To2)). }
    { apply HF1. change (inum x2) with (inum x1). change (sb s2) with (sb s1). by rewrite Einum, Esb1. }
    pose proof (update_changed s2 s3 ip x2 (to_ok _ _ _ _ _ _ To2) (to_file _ _ _ _ _ _ To2) Hx2 K3 Ok3 V3 U3 O3) as To3.
    assert (To : changed true s s3 ip x x2).
    { eapply touched_trans; [exact Hok|exact Hf|by apply changed_weaken|].
      eapply touched_trans; [apply To1|apply To1|exact To2|exact To3]. }
    assert (Esl : forall j, slot s3 x2 j = slot s1 x1 j).
    { intros j. rewrite (update_slot s2 s3 x2 (to_ok _ _ _ _ _ _ To2) (to_file _ _ _ _ _ _ To2) V3); [done|apply To2]. }
    exists s3, x2, F1. split; [|split; [|split; [done|split]]].
    + unfold bind at 1. unfold bind at 1. rewrite R2, R3. done.
    + destruct Ft1 as [H1 H2 H3]. split.
      * unfold ind_credit in *. by rewrite Esl.
      * intros m Hm. apply H2. by apply (keeps_geometry _ _ K3) in Hm.
      * by rewrite Esl.
    + done.
    + cbn. lia.
    + intros o Hr. rewrite (update_fbyte s2 s3 x2 (to_ok _ _ _ _ _ _ To2) (to_file _ _ _ _ _ _ To2) V3 o Hr).
      apply (wn_bytes _ _ _ _ _ _ _ _ W1 o Hr).
    + intros o Hr. rewrite Esl. apply (writei_dense s1 x1 (off + n) W1); [lia|done].
    + intros y. apply D3.
  - (* it does not *)
    exists s1, x1, F1. split; [done|]. split; [done|]. split; [done|]. split.
    + by apply changed_weaken.
    + rewrite Sz1. lia.
    + apply W1.
    + intros o Hr. rewrite Sz1 in Hr. apply (writei_dense s1 x1 (isize x) W1); [lia|done].
    + intros y. rewrite Einum, (to_inodes _ _ _ _ _ _ To1) by (done || apply Hf).
      rewrite Hsy. rewrite (wn_same _ _ _ _ _ _ _ _ W1); [done|]. intros o Hr. apply Hdn. lia.
Qed.

End Writei.

(** ** Other files *)

(** Two files with no block in common. *)
Definition apart (s : fst) (x y : inode) : Prop :=
  inum x <> inum y /\ forall i j, place i -> place j -> slot s y j <> 0 -> slot s x i <> slot s y j.

Section Other.
Variables (u : bool) (s s' : fst) (ip : nat) (x x' y : inode).
Hypothesis Hok : fs_ok s.
Hypothesis H : changed u s s' ip x x'.
Hypothesis Hy : file_ok s y.
Hypothesis Hxy : apart s x y.
Hypothesis Hf : file_ok s x.

Lemma other_val j : place j -> slot s y j <> 0 -> val s' (slot s y j) = val s (slot s y j).
Proof.
  intros Hj Hn. destruct (fl_data _ _ Hy j Hj Hn) as [Hd Hu]. pose proof (fo_layout _ Hok) as Hs.
  apply (to_val _ _ _ _ _ _ H).
  - by apply (data_home s Hs).
  - intros _ E. destruct (IBLOCK_eq s (inum x) Hs (fl_inum _ _ Hf)) as [_ Hi].
    rewrite <- E in Hi. by apply (inode_home s _ Hs) in Hi as (_ & _ & _ & ?).
  - intros _. split; [done|]. intros i Hi. by apply Hxy.
Qed.

Lemma other_slot j : place j -> slot s' y j = slot s y j.
Proof.
  intros Hj. unfold slot. destruct (j <? NDIRECT); [done|]. destruct (j =? MAXFILE); [done|].
  destruct (Z.eqb_spec (addr_at y NDIRECT) 0) as [|Hn]; [done|].
  change (addr_at y NDIRECT) with (slot s y MAXFILE) in *. by rewrite other_val by (done || apply MAXFILE_place).
Qed.

Lemma other_fbyte o : 0 <= o < MAXFILE * bsize -> fbyte s' y o = fbyte s y o.
Proof.
  intros Ho. destruct (off_place o 1) as [? ?]; [lia..|]. assert (Hp : place (o / bsize)) by (unfold place; lia).
  unfold fbyte. rewrite other_slot by done.
  destruct (Z.eqb_spec (slot s y (o / bsize)) 0) as [|Hn]; [done|]. by rewrite other_val.
Qed.

Lemma other_file : file_ok s' y /\ apart s' x' y /\
  (forall z, ondisk s' (inum y) z = ondisk s (inum y) z).
Proof.
  destruct (touched_sb _ _ _ _ _ _ H) as (Esb & _ & _). destruct (touched_geometry _ _ _ _ _ _ H) as (Gd & _ & _).
  pose proof Hy as [? ? Hi Hdt Hinj ?]. split_and!.
  - split; try done.
    + by rewrite Esb.
    + intros j Hj. rewrite other_slot by done. intros Hn. destruct (Hdt j Hj Hn) as [Hd Hu].
      split; [by apply Gd|]. apply (to_used _ _ _ _ _ _ H); [|done]. by apply (data_pos s _ (fo_layout _ Hok)).
    + intros i j Hi' Hj. rewrite !other_slot by done. by apply Hinj.
  - split.
    + rewrite (to_meta _ _ _ _ _ _ H). apply Hxy.
    + intros i j Hi' Hj. rewrite other_slot by done. intros Hn E.
      destruct (decide (slot s x i = 0)) as [E0|E0].
      * destruct (Hdt j Hj Hn) as [_ Hu]. pose proof (to_new _ _ _ _ _ _ H i Hi' E0) as Hnew.
        rewrite E in Hnew. by rewrite Hnew in Hu.
      * rewrite (to_slots _ _ _ _ _ _ H i Hi' E0) in E. by apply (proj2 Hxy i j).
  - intros z. apply (to_inodes _ _ _ _ _ _ H); [done|]. intros _ E. by apply (proj1 Hxy).
Qed.

End Other.

(** ** Files as lists of bytes *)

Definition content (s : fst) (x : inode) : list Z := bytes s x 0 (isize x).

(** A range of [l] replaced by [src]; past the end the list grows. *)
Definition overwrite (l : list Z) (off : Z) (src : list Z) : list Z :=
  take (Z.to_nat off) l ++ src ++ drop (Z.to_nat off + length src) l.

Lemma content_lookup s x i : 0 <= isize x ->
  content s x !! i = if decide (Z.of_nat i < isize x) then Some (fbyte s x (Z.of_nat i)) else None.
Proof.
  intros Hs. unfold content, bytes. rewrite list_lookup_fmap. case_decide.
  - assert (E : seqZ 0 (isize x) !! i = Some (0 + Z.of_nat i)) by (apply lookup_seqZ; lia). by rewrite E.
  - rewrite (proj2 (lookup_ge_None _ _)); [done|]. rewrite length_seqZ. lia.
Qed.

Lemma content_length s x : length (content s x) = Z.to_nat (isize x).
Proof. unfold content, bytes. by rewrite length_fmap, length_seqZ. Qed.

Lemma overwrite_content s s' ip x x' src off n :
  write_done s s' ip x x' src off n -> fsize_ok x -> 0 <= off <= isize x -> 0 <= n ->
  off + n <= MAXFILE * bsize -> n <= Z.of_nat (length src) ->
  content s' x' = overwrite (content s x) off (take (Z.to_nat n) src).
Proof.
  intros [_ Hsz Hb _ _] [Hs1 Hs2] Ho Hn Hend Hsrc. apply list_eq. intros i.
  rewrite content_lookup by lia. unfold overwrite.
  assert (Hl1 : length (take (Z.to_nat off) (content s x)) = Z.to_nat off) by (rewrite length_take, content_length; lia).
  assert (Hl2 : length (take (Z.to_nat n) src) = Z.to_nat n) by (rewrite length_take; lia).
  rewrite Hl2. destruct (decide (Z.of_nat i < off)).
  { rewrite lookup_app_l, lookup_take_lt by lia. rewrite content_lookup by lia.
    rewrite !decide_True by lia. rewrite Hb by lia. by rewrite decide_False by lia. }
  rewrite lookup_app_r, Hl1 by lia. destruct (decide (Z.of_nat i < off + n)).
  { rewrite lookup_app_l, lookup_take_lt by lia. rewrite decide_True by lia. rewrite Hb, decide_True by lia.
    destruct (lookup_lt_is_Some_2 src (i - Z.to_nat off)) as [v Hv]; [lia|].
    rewrite Hv. rewrite <- (nth_lookup_Some _ _ 0 _ Hv). do 2 f_equal. lia. }
  rewrite lookup_app_r, Hl2, lookup_drop, content_lookup by lia.
  replace (Z.of_nat (Z.to_nat off + Z.to_nat n + (i - Z.to_nat off - Z.to_nat n))) with (Z.of_nat i) by lia.
  repeat case_decide; try lia; [|done]. rewrite Hb by lia. by rewrite decide_False by lia.
Qed.

Lemma bytes_content s x off n : 0 <= off -> 0 <= n -> off + n <= isize x ->
  bytes s x off n = take (Z.to_nat n) (drop (Z.to_nat off) (content s x)).
Proof.
  intros Ho Hn He. unfold content. replace (isize x) with (off + (n + (isize x - off - n))) by lia.
  rewrite !bytes_app by lia. rewrite drop_app_length'.
  - rewrite take_app_length'; [by rewrite Z.add_0_l|]. unfold bytes. rewrite length_fmap, length_seqZ. lia.
  - unfold bytes. rewrite length_fmap, length_seqZ. lia.
Qed.

(** A regular file or directory, locked and valid in slot [ip] of the inode
    cache, in a file system in good order. *)
Record open_file (s : fst) (ip : nat) (x : inode) : Prop := {
  of_ok : fs_ok s;
  of_file : file_ok s x;
  of_dense : dense s x;
  of_synced : synced s x;
  of_here : icache s !! ip = Some x;
  of_type : type x <> T_DEV }.

Lemma write_done_open s s' ip x x' src off n :
  write_done s s' ip x x' src off n -> open_file s ip x -> open_file s' ip x'.
Proof.
  intros H [Ok Hf _ _ Hx Hty]. pose proof (wd_changed _ _ _ _ _ _ _ _ H) as Hc. split.
  - apply Hc.
  - apply Hc.
  - apply H.
  - apply H.
  - by apply (touched_icache true s s' ip x).
  - by rewrite (to_meta _ _ _ _ _ _ Hc).
Qed.

Lemma same_open s s' ip x : same s s' -> open_file s ip x -> open_file s' ip x.
Proof.
  intros S [Ok Hf Hd Hy Hx Hty]. pose proof (same_keeps _ _ S) as K. split; try done.
  - by apply (same_fs_ok s).
  - by apply (same_file_ok s).
  - intros o Ho. rewrite (same_slot s s' x _ (sm_val _ _ S)). by apply Hd.
  - intros y. unfold ondisk. rewrite (sm_val _ _ S). destruct (keeps_fields _ _ K) as (-> & _ & _). apply Hy.
  - by destruct (keeps_fields _ _ K) as (_ & -> & _).
Qed.

Lemma content_other u s s' ip x x' y :
  fs_ok s -> changed u s s' ip x x' -> file_ok s y -> apart s x y -> file_ok s x ->
  content s' y = content s y.
Proof.
  intros Hok H Hy Hxy Hf. unfold content, bytes. apply list_fmap_ext. intros i o Hi.
  apply lookup_seqZ in Hi. destruct (fl_size _ _ Hy).
  apply (other_fbyte u s s' ip x x' y); try done. lia.
Qed.

(** ** Files after a restart *)

(** A state with the same blocks outside the log shows the same files. *)
Section Restart.
Variables s sr : fst.
Hypothesis Hok : fs_ok s.
Hypothesis Esb : sb sr = sb s.
Hypothesis V : forall m, home_block s m -> val sr m = val s m.

Lemma restart_slot y j : file_ok s y -> slot sr y j = slot s y j.
Proof.
  intros Hy. unfold slot. destruct (j <? NDIRECT); [done|]. destruct (j =? MAXFILE); [done|].
  destruct (Z.eqb_spec (addr_at y NDIRECT) 0) as [|Hn]; [done|].
  rewrite V; [done|]. by apply (file_block_range s y MAXFILE Hok Hy MAXFILE_place).
Qed.

Lemma restart_content y : file_ok s y -> content sr y = content s y.
Proof.
  intros Hy. unfold content, bytes. apply list_fmap_ext. intros i o Hi. apply lookup_seqZ in Hi.
  destruct (fl_size _ _ Hy). unfold fbyte. rewrite restart_slot by done.
  destruct (Z.eqb_spec (slot s y (o / bsize)) 0) as [|Hn]; [done|]. rewrite V; [done|].
  apply file_block_range; try done. destruct (off_place o 1) as [? ?]; unfold place; lia.
Qed.

Lemma restart_inode i y : 0 <= i < ninodes (sb s) -> ondisk sr i y = ondisk s i y.
Proof.
  intros Hi. unfold ondisk. rewrite Esb, V; [done|].
  destruct (IBLOCK_eq s i (fo_layout _ Hok) Hi) as [_ Hb]. by apply (inode_home s _ (fo_layout _ Hok)).
Qed.

(** The file read through its inode on disk. *)
Lemma restart_file x y : file_ok s x -> synced s x -> content sr (ondisk sr (inum x) y) = content s x.
Proof.
  intros Hx Hsy. rewrite restart_inode by apply Hx. rewrite Hsy, <- (restart_content x Hx).
  unfold content, bytes. cbn [isize dinode_of]. apply list_fmap_ext. intros i o _.
  by unfold fbyte, slot, addr_at.
Qed.

End Restart.

(** A committed or lost transaction: the blocks outside the log have all their
    values of [s1] or all those of [s]. *)
Lemma end_op_crash s s1 :
  layout s1 -> fs_ok s1 -> tx s1 [] ∅ 0 -> outstanding (lg s1) = 1 ->
  (forall m, val s m = disk (io (lg s1)) m) -> logstart (sb s1) = start (lg s1) ->
  ld_word (disk (io (lg s1)) (start (lg s1))) 0 = 0 -> val s1 1 = val s 1 ->
  length (disk (io (lg s1)) (start (lg s1))) = BSIZE ->
  exists s2 ws, log end_op s1 = Ret tt s2 /\ writes (io (lg s2)) = writes (io (lg s1)) ++ ws /\
    forall j, exists r,
      initlog 1 (LogFacts.boot (LogFacts.crash ws j (disk (io (lg s1)))) (disksize (io (lg s1)))) = Ret tt r /\
      ((forall m, home_block s1 m -> view (io r) m = val s m) \/
       (forall m, home_block s1 m -> view (io r) m = val s1 m)).
Proof.
  intros Hs Hok (bl & Ht & Hh & H1 & Hk) Ho Hv Hst H0 Hv1 Hlen. apply held_calm in Hh.
  assert (Hw1 : ld_word (disk (io (lg s1)) 1) 4 = start (lg s1)).
  { rewrite <- Hst, <- Hv, <- Hv1. pose proof (fo_sb _ Hok) as E. rewrite <- E. done. }
  pose proof (LogFacts.it_max _ _ Ht) as Hmax. destruct (LogFacts.it_region _ _ Ht) as [Hr1 Hr2].
  pose proof (ly_log _ Hs) as [Hl _].
  assert (Hsz : start (lg s1) < disksize (io (lg s1))) by lia.
  destruct (decide (bl = [])) as [->|Hne].
  - destruct (LogFacts.end_op_nothing _ Ht Hh Ho) as (l & R & W).
    exists (with_lg l s1), []. split; [by apply log_run|]. split; [by rewrite app_nil_r|]. intros j.
    unfold LogFacts.crash. rewrite take_nil. cbn [LogFacts.put_all foldl].
    destruct (LogFacts.initlog_clean (disk (io (lg s1))) (disksize (io (lg s1))) _ (start (lg s1)) (conj Hw1 eq_refl))
      as (r & Rr & D & C); [lia|done|].
    exists r. split; [done|left]. intros m (Hm & Hm2 & _).
    rewrite (LogFacts.calm_clean _ [] m C) by apply not_elem_of_nil. rewrite D by lia. by rewrite Hv.
  - assert (Hwd : LogFacts.words bl).
    { pose proof (LogFacts.it_home _ _ Ht) as Hhome. pose proof (ly_size _ Hs). eapply Forall_impl; [exact Hhome|].
      cbn. intros n. lia. }
    pose proof (LogFacts.in_trans_log_ok _ _ Ht) as Hlog.
    destruct (LogFacts.end_op_ok _ bl Ht Hh Hne Ho) as (l & R & _ & _ & _ & _ & W).
    exists (with_lg l s1), (LogFacts.commit_writes (lg s1) bl (view (io (lg s1))) (seq 0 (length bl))).
    split; [by apply log_run|]. split; [apply W|]. intros j.
    assert (Hhm : forall m, home_block s1 m -> LogFacts.home (start (lg s1)) bl m).
    { intros m (Hm & Hm2 & _). unfold LogFacts.home. lia. }
    destruct (Nat.leb_spec j (length bl)) as [Hj|Hj].
    + destruct (LogFacts.crash_before (lg s1) bl _ Hlog Hh (conj Hl H1) (conj Hw1 eq_refl) H0 Hlen j Hj)
        as (r & Rr & Hd & _ & C).
      exists r. split; [done|left]. intros m Hm.
      rewrite (LogFacts.calm_clean _ [] m C) by apply not_elem_of_nil. rewrite Hd by auto. by rewrite Hv.
    + destruct (LogFacts.crash_after (lg s1) bl _ Hlog Hh Hwd (conj Hl H1) (conj Hw1 eq_refl) H0 Hlen j Hj)
        as (r & Rr & Hd & _ & C).
      exists r. split; [done|right]. intros m Hm.
      rewrite (LogFacts.calm_clean _ [] m C) by apply not_elem_of_nil. by rewrite Hd by auto.
Qed.
