(* ===== verification/FsTrunc.v ===== *)
(** * Giving a file's blocks back

    [itrunc] frees every block of a file and [iput] drops a reference, freeing
    the inode with its last reference when no directory names it. *)

From S2P Require Import Prelude Locks Bio Log LogFacts Fs FsTx FsBlocks FsInode FsFile FsRW.
Import Bio BioFacts Log Fs.

(** The used blocks [L] were freed; nothing but the bitmap changed, and the
    inode in slot [ip] is now [y]. *)
Record freed (s s' : fst) (ip : nat) (y : inode) (L : list Z) : Prop := {
  fz_keeps : keeps (with_icache (<[ip := y]> (icache s)) s) s';
  fz_val : forall m, ~ bitmap_block s m -> val s' m = val s m;
  fz_used : forall c, 0 <= c < size (sb s) -> used s' c = used s c && bool_decide (c ∉ L);
  fz_ok : fs_ok s' }.

Lemma freed_sb s s' ip y L : freed s s' ip y L ->
  sb s' = sb s /\ icache s' = <[ip := y]> (icache s) /\ icache_lk s' = icache_lk s.
Proof. intros H. apply (keeps_fields _ _ (fz_keeps _ _ _ _ _ H)). Qed.

Lemma freed_geometry s s' ip y L : freed s s' ip y L ->
  (forall m, data_block s' m <-> data_block s m) /\ (forall m, bitmap_block s' m <-> bitmap_block s m) /\
  (forall m, home_block s' m <-> home_block s m).
Proof. intros H. apply (keeps_geometry _ _ (fz_keeps _ _ _ _ _ H)). Qed.

Lemma freed_refl s ip y : fs_ok s -> icache s !! ip = Some y -> freed s s ip y [].
Proof.
  intros Hok Hy. split; try done.
  - rewrite list_insert_id by done. by destruct s.
  - intros c _. rewrite bool_decide_true by apply not_elem_of_nil. by rewrite andb_true_r.
Qed.

(** Fetching and giving back buffers adds nothing. *)
Lemma freed_same s s1 s2 ip y L : freed s s1 ip y L -> same s1 s2 -> freed s s2 ip y L.
Proof.
  intros [K V U O] S. split.
  - etrans; [exact K|by apply same_keeps].
  - intros m Hm. rewrite (sm_val _ _ S). by apply V.
  - intros c Hc. rewrite (same_used s1 s2 c S). by apply U.
  - by apply (same_fs_ok s1).
Qed.

(** A new inode in the slot. *)
Lemma freed_set s s1 ip y z L :
  freed s s1 ip y L -> freed s (with_icache (<[ip := z]> (icache s1)) s1) ip z L.
Proof.
  intros H. destruct (freed_sb _ _ _ _ _ H) as (_ & E & _). pose proof H as [K V U O]. split; try done.
  - rewrite E, list_insert_insert_eq. apply (keeps_icache (<[ip:=z]> (icache s)) _ _ K).
  - by apply fs_ok_icache.
Qed.

(** One more block freed. *)
Lemma freed_bfree s s1 hl F k ip y L b :
  fs_ok s -> freed s s1 ip y L -> tx s1 hl F k -> holds_data s1 hl -> bitmap_paid s F ->
  data_block s b -> used s b = true -> b ∉ L ->
  exists s2, bfree 1 b s1 = Ret tt s2 /\ tx s2 hl F k /\ freed s s2 ip y (b :: L).
Proof.
  intros Hok H Ht Hhd HF Hb Hu HL. destruct (freed_sb _ _ _ _ _ H) as (Esb & Eic & _).
  destruct (freed_geometry _ _ _ _ _ H) as (Gd & Gb & _). pose proof H as [K V U O].
  destruct (data_pos s b (fo_layout _ Hok) Hb) as [_ Hr].
  destruct (bfree_ok s1 hl F k b Ht O Hhd) as (s2 & R & T & [K2 V2 U2 O2]).
  { intros m Hm. apply HF. by apply Gb. }
  { by apply Gd. }
  { rewrite U, Hu, bool_decide_true by done. done. }
  exists s2. split_and!; try done. split; try done.
  - by etrans.
  - intros m Hm. rewrite V2; [by apply V|by rewrite Gb].
  - intros c Hc. rewrite U2, U by (rewrite ?Esb; done).
    destruct (decide (b = c)) as [->|Hne].
    + rewrite (bool_decide_true (c = c)) by done. rewrite (bool_decide_false (c ∉ c :: L)); [by rewrite andb_false_r|].
      intros Hc'. apply Hc'. left.
    + rewrite (bool_decide_false (b = c)) by done. cbn [negb andb]. f_equal. apply bool_decide_ext.
      rewrite not_elem_of_cons. naive_solver.
Qed.

Lemma set_addrs_id x : set_addrs (addrs x) x = x.
Proof. by destruct x. Qed.

Section Trunc.
Variables (s : fst) (ip : nat) (x : inode) (F : gset Z) (k : nat).
Hypothesis Hok : fs_ok s.
Hypothesis Hf : file_ok s x.
Hypothesis Hx : icache s !! ip = Some x.
Hypothesis HF : bitmap_paid s F.

Let Hs : layout s := fo_layout s Hok.

(** The blocks of the places [l]. *)
Definition blocks (l : list Z) : list Z := filter (fun b => b <> 0) (slot s x <$> l).

Lemma blocks_app l l' : blocks (l ++ l') = blocks l ++ blocks l'.
Proof. unfold blocks. by rewrite fmap_app, filter_app. Qed.

Lemma in_blocks b l : b ∈ blocks l <-> b <> 0 /\ exists j, j ∈ l /\ slot s x j = b.
Proof. unfold blocks. rewrite list_elem_of_filter, list_elem_of_fmap. naive_solver. Qed.

Lemma fresh_block j l : place j -> (forall i, i ∈ l -> place i) -> j ∉ l -> slot s x j <> 0 -> slot s x j ∉ blocks l.
Proof.
  intros Hj Hl Hjl Hn (_ & i & Hi & E)%in_blocks. apply Hjl.
  rewrite (fl_inj _ _ Hf j i) by (done || auto). done.
Qed.

(** A reached state: the blocks of [l] are free. *)
Definition reached (t : fst) (hl : list (nat * Z)) (y : inode) (l : list Z) : Prop :=
  tx t hl F k /\ freed s t ip y (blocks l).

Lemma reached_icache t hl y l : reached t hl y l -> icache t !! ip = Some y.
Proof.
  intros [_ H]. destruct (freed_sb _ _ _ _ _ H) as (_ & -> & _).
  apply list_lookup_insert_eq. by apply lookup_lt_Some in Hx.
Qed.

Lemma reached_free t hl y l j :
  reached t hl y l -> holds_data t hl -> place j -> (forall i, i ∈ l -> place i) -> j ∉ l -> slot s x j <> 0 ->
  exists t', bfree 1 (slot s x j) t = Ret tt t' /\ reached t' hl y (j :: l).
Proof.
  intros [T H] Hhd Hj Hl Hjl Hn. destruct (fl_data _ _ Hf j Hj Hn) as [Hd Hu].
  destruct (freed_bfree s t hl F k ip y (blocks l) (slot s x j) Hok H T Hhd HF Hd Hu (fresh_block j l Hj Hl Hjl Hn))
    as (t' & R & T' & H').
  exists t'. split; [done|]. split; [done|]. unfold blocks. rewrite fmap_cons, filter_cons_True by done. done.
Qed.

Lemma reached_skip t hl y l j : slot s x j = 0 -> reached t hl y l -> reached t hl y (j :: l).
Proof.
  intros E [T H]. split; [done|]. unfold blocks. rewrite fmap_cons, filter_cons_False; [done|].
  rewrite E. by intros [].
Qed.

Lemma no_holds t : holds_data t [].
Proof. split; [cbn; lia|]. by intros n ?%not_elem_of_nil. Qed.

(** The inode with the direct addresses below [i] cleared. *)
Definition cleared (i : nat) : inode := set_addrs (replicate i 0 ++ drop i (addrs x)) x.

Lemma cleared_step i : (i < 13)%nat ->
  set_addrs (<[i := 0]> (addrs (cleared i))) (cleared i) = cleared (S i).
Proof.
  intros Hi. unfold cleared. cbn [addrs set_addrs]. unfold set_addrs. f_equal.
  pose proof (fd_len _ (fl_fields _ _ Hf)) as Hl.
  apply list_eq. intros j. rewrite list_lookup_insert, length_app, length_replicate, length_drop.
  destruct (decide (j < S i)%nat).
  - rewrite (lookup_app_l (replicate (S i) 0)) by (rewrite length_replicate; lia).
    rewrite (lookup_replicate_2 (S i)) by lia. case_decide as E; [done|].
    rewrite lookup_app_l by (rewrite length_replicate; lia). apply lookup_replicate_2. lia.
  - rewrite decide_False by lia. rewrite !lookup_app_r by (rewrite length_replicate; lia).
    rewrite !length_replicate, !lookup_drop. f_equal. lia.
Qed.

Lemma cleared_at i j : (i <= j < 13)%nat -> addr_at (cleared i) (Z.of_nat j) = addr_at x (Z.of_nat j).
Proof.
  intros Hj. unfold addr_at, cleared. cbn [addrs set_addrs]. rewrite Nat2Z.id, !nth_lookup.
  rewrite lookup_app_r, length_replicate, lookup_drop by (rewrite length_replicate; lia). do 2 f_equal. lia.
Qed.

(** [addrs[i] = 0] in memory. *)
Lemma clear_addr i t hl l : (i < 13)%nat ->
  reached t hl (cleared i) l ->
  exists t', set_addr ip (Z.of_nat i) 0 t = Ret tt t' /\ reached t' hl (cleared (S i)) l.
Proof.
  intros Hi H. pose proof (reached_icache _ _ _ _ H) as Hy. destruct H as [T H].
  unfold set_addr. rewrite (alter_icache _ _ _ _ Hy). rewrite Nat2Z.id, cleared_step by done.
  eexists. split; [done|]. split; [done|]. by apply (freed_set s t ip (cleared i)).
Qed.

Definition direct_body : Z -> M fst unit := fun i =>
  let! x := iat ip in
  if negb (addr_at x i =? 0) then
    bfree (idev x) (addr_at x i) ;;;
    set_addr ip i 0
  else ret tt.

(** The first loop. *)
Lemma direct_loop n : forall i t l,
  (i + n = 12)%nat -> reached t [] (cleared i) l -> (forall j, j ∈ l <-> 0 <= j < Z.of_nat i) ->
  exists t' l', for_each (seqZ (Z.of_nat i) (Z.of_nat n)) direct_body t = Ret tt t' /\
    reached t' [] (cleared 12) l' /\ (forall j, j ∈ l' <-> 0 <= j < 12).
Proof.
  induction n as [|n IH]; intros i t l Hi H Hl.
  { replace i with 12%nat in * by lia. exists t, l. cbn. by split_and!. }
  rewrite seqZ_cons by lia. cbn [for_each].
  assert (Hit : iat ip t = Ret (cleared i) t) by (apply iat_ok; by apply (reached_icache t [] _ l)).
  assert (Hadr : addr_at (cleared i) (Z.of_nat i) = slot s x (Z.of_nat i)).
  { rewrite cleared_at by lia. unfold slot, NDIRECT. by rewrite (proj2 (Z.ltb_lt (Z.of_nat i) 12)) by lia. }
  assert (Hp : forall j, j ∈ l -> place j) by (intros j Hj%Hl; unfold place, MAXFILE, NDIRECT, NINDIRECT; lia).
  assert (Hstep : exists t1, direct_body (Z.of_nat i) t = Ret tt t1 /\
      reached t1 [] (cleared (S i)) (Z.of_nat i :: l)).
  { unfold direct_body. rewrite (bind_eq _ _ _ _ _ Hit), Hadr.
    destruct (Z.eqb_spec (slot s x (Z.of_nat i)) 0) as [E|Hn]; cbn [negb].
    - exists t. split; [done|]. apply reached_skip; [done|].
      assert (Ec : cleared (S i) = cleared i); [|by rewrite Ec].
      rewrite <- cleared_step by lia. rewrite list_insert_id; [apply set_addrs_id|].
      rewrite <- Hadr in E. unfold addr_at in E. rewrite Nat2Z.id, nth_lookup in E.
      destruct (lookup_lt_is_Some_2 (addrs (cleared i)) i) as [v Hv].
      { cbn [addrs cleared set_addrs]. rewrite length_app, length_replicate, length_drop, (fd_len _ (fl_fields _ _ Hf)). lia. }
      rewrite Hv in E. cbn in E. by rewrite Hv, E.
    - destruct (reached_free t [] (cleared i) l (Z.of_nat i) H (no_holds t)) as (t1 & R1 & H1); try done.
      { unfold place, MAXFILE, NDIRECT, NINDIRECT. lia. }
      { rewrite Hl. lia. }
      change (idev (cleared i)) with (idev x). rewrite (fl_dev _ _ Hf), (bind_eq _ _ _ _ _ R1).
      apply clear_addr; [lia|done]. }
  destruct Hstep as (t1 & R1 & H1). rewrite (bind_eq _ _ _ _ _ R1).
  replace (Z.succ (Z.of_nat i)) with (Z.of_nat (S i)) by lia.
  replace (Z.pred (Z.of_nat (S n))) with (Z.of_nat n) by lia.
  apply (IH (S i) t1 (Z.of_nat i :: l)); [lia|done|]. intros j. rewrite elem_of_cons, Hl. lia.
Qed.

(** The second loop, with the block of addresses held. *)
Definition entry_body (y : inode) (bp : nat) : Z -> M fst unit := fun j =>
  let! d := data bp in
  if negb (ld_word d (Z.to_nat j) =? 0) then bfree (idev y) (ld_word d (Z.to_nat j)) else ret tt.

Let ind : Z := slot s x MAXFILE.

Lemma reached_holds t b y l :
  ind <> 0 -> reached t [(b, ind)] y l -> (forall j, j ∈ l -> 0 <= j < MAXFILE) -> holds_data t [(b, ind)].
Proof.
  intros Hn [_ H] Hl. split; [cbn; lia|]. intros m Hm. apply list_elem_of_singleton in Hm. cbn in Hm. subst m.
  destruct (fl_data _ _ Hf MAXFILE MAXFILE_place Hn) as [Hd Hu].
  split; [by apply (freed_geometry _ _ _ _ _ H)|].
  rewrite (fz_used _ _ _ _ _ H) by (by apply (data_pos s)). unfold ind. rewrite Hu, bool_decide_true; [done|].
  apply (fresh_block MAXFILE l MAXFILE_place); [|intros Hin%Hl; lia|done].
  intros j Hj%Hl. unfold place. lia.
Qed.

Lemma entry_loop b n : forall j t l,
  ind <> 0 -> j + Z.of_nat n = NINDIRECT -> 0 <= j -> reached t [(b, ind)] (cleared 12) l ->
  (forall i, i ∈ l <-> 0 <= i < NDIRECT + j) ->
  exists t' l', for_each (seqZ j (Z.of_nat n)) (entry_body (cleared 12) b) t = Ret tt t' /\
    reached t' [(b, ind)] (cleared 12) l' /\ (forall i, i ∈ l' <-> 0 <= i < MAXFILE).
Proof.
  induction n as [|n IH]; intros j t l Hn Hj Hj0 H Hl.
  { exists t, l. cbn. split_and!; try done. intros i. rewrite Hl. unfold MAXFILE. lia. }
  rewrite seqZ_cons by lia. cbn [for_each].
  assert (Hp : forall i, i ∈ l -> 0 <= i < MAXFILE) by (intros i Hi%Hl; unfold MAXFILE; lia).
  assert (Hstep : exists t1, entry_body (cleared 12) b j t = Ret tt t1 /\
      reached t1 [(b, ind)] (cleared 12) ((NDIRECT + j) :: l)).
  { pose proof H as [T Hz]. unfold entry_body. rewrite (bind_eq _ _ _ _ _ (tx_data t _ F k b ind T ltac:(left))).
    destruct (fl_data _ _ Hf MAXFILE MAXFILE_place Hn) as [Hd _].
    rewrite (fz_val _ _ _ _ _ Hz) by (by apply (data_home s Hs)).
    assert (El : ld_word (val s ind) (Z.to_nat j) = slot s x (NDIRECT + j))
      by (symmetry; apply slot_indirect; [lia|done]).
    rewrite El.
    destruct (Z.eqb_spec (slot s x (NDIRECT + j)) 0) as [E|He]; cbn [negb].
    - exists t. split; [done|]. by apply reached_skip.
    - change (idev (cleared 12)) with (idev x). rewrite (fl_dev _ _ Hf).
      apply reached_free; try done.
      + by apply (reached_holds t b (cleared 12) l).
      + unfold place, MAXFILE, NDIRECT in *. lia.
      + intros i Hi%Hp. unfold place. lia.
      + rewrite Hl. lia. }
  destruct Hstep as (t1 & R1 & H1). rewrite (bind_eq _ _ _ _ _ R1).
  replace (Z.pred (Z.of_nat (S n))) with (Z.of_nat n) by lia. rewrite <- Z.add_1_r.
  apply (IH (j + 1) t1 ((NDIRECT + j) :: l)); try done; try lia.
  intros i. rewrite elem_of_cons, Hl. unfold NDIRECT. lia.
Qed.

(** Both loops: every block of the file is free and the addresses are
    cleared. *)
Lemma trunc_loops :
  tx s [] F k ->
  exists t, (for_each (seqZ 0 NDIRECT) direct_body ;;;
    let! y := iat ip in
    (if negb (addr_at y NDIRECT =? 0) then
       let! bp := Fs.bread (idev y) (addr_at y NDIRECT) in
       for_each (seqZ 0 NINDIRECT) (entry_body y bp) ;;;
       Fs.brelse bp ;;;
       bfree (idev y) (addr_at y NDIRECT) ;;;
       set_addr ip NDIRECT 0
     else ret tt)) s = Ret tt t /\
    tx t [] F k /\ exists L, freed s t ip (cleared 13) L /\
      forall c, c ∈ L <-> c <> 0 /\ exists j, place j /\ slot s x j = c.
Proof.
  intros Ht.
  assert (H0 : reached s [] (cleared 0) []).
  { split; [done|]. assert (E0 : cleared 0 = x) by exact (set_addrs_id x).
    rewrite E0. by apply freed_refl. }
  destruct (direct_loop 12 0 s [] eq_refl H0) as (t1 & l1 & R1 & H1 & Hl1).
  { intros j. rewrite elem_of_nil. lia. }
  change (Z.of_nat 0) with 0 in R1. change (Z.of_nat 12) with NDIRECT in R1. rewrite (bind_eq _ _ _ _ _ R1).
  rewrite (bind_eq _ _ _ _ _ (iat_ok _ _ _ (reached_icache _ _ _ _ H1))).
  assert (Ei : addr_at (cleared 12) NDIRECT = ind) by (unfold NDIRECT; change 12 with (Z.of_nat 12); by rewrite cleared_at by lia).
  rewrite Ei. destruct (Z.eqb_spec ind 0) as [E0|Hn]; cbn [negb].
  - exists t1. split; [done|]. destruct H1 as [T1 H1]. split; [done|]. exists (blocks l1).
    assert (Ec : cleared 13 = cleared 12).
    { rewrite <- cleared_step by lia. rewrite list_insert_id; [apply set_addrs_id|].
      rewrite <- Ei in E0. unfold addr_at, NDIRECT in E0. change (Z.to_nat 12) with 12%nat in E0. rewrite nth_lookup in E0.
      destruct (lookup_lt_is_Some_2 (addrs (cleared 12)) 12) as [v Hv].
      { cbn [addrs cleared set_addrs]. rewrite length_app, length_replicate, length_drop, (fd_len _ (fl_fields _ _ Hf)). lia. }
      rewrite Hv in E0. cbn in E0. by rewrite Hv, E0. }
    rewrite Ec. split; [done|]. intros c. rewrite in_blocks. split.
    + intros (Hc & j & Hj%Hl1 & E). split; [done|]. exists j. split; [|done].
      unfold place, MAXFILE, NDIRECT, NINDIRECT. lia.
    + intros (Hc & j & Hj & E). split; [done|]. exists j. split; [|done]. apply Hl1.
      destruct (decide (j = MAXFILE)) as [->|]; [exfalso; apply Hc; rewrite <- E; exact E0|].
      destruct (Z.lt_ge_cases j 12); [unfold place in Hj; lia|].
      exfalso. apply Hc. rewrite <- E. replace j with (NDIRECT + (j - NDIRECT)) by lia.
      apply slot_no_indirect; [|exact E0]. unfold place, MAXFILE, NDIRECT in *. lia.
  - change (idev (cleared 12)) with (idev x). rewrite (fl_dev _ _ Hf).
    destruct H1 as [T1 H1]. destruct (fl_data _ _ Hf MAXFILE MAXFILE_place Hn) as [Hd Hu]. fold ind in Hd, Hu.
    destruct (tx_bread t1 [] F k ind T1) as (b & t2 & R2 & T2 & S2).
    { by apply not_elem_of_nil. }
    { cbn; lia. }
    { apply (freed_geometry _ _ _ _ _ H1). by apply (data_home s Hs). }
    rewrite (bind_eq _ _ _ _ _ R2).
    destruct (entry_loop b 128 0 t2 l1 Hn eq_refl ltac:(lia)) as (t3 & l3 & R3 & [T3 H3] & Hl3).
    { split; [done|]. by apply (freed_same s t1). }
    { intros i. rewrite Hl1. unfold NDIRECT. lia. }
    change (Z.of_nat 128) with NINDIRECT in R3. rewrite (bind_eq _ _ _ _ _ R3).
    destruct (tx_brelse t3 [] F k b ind T3) as (t4 & R4 & T4 & S4). rewrite (bind_eq _ _ _ _ _ R4).
    assert (H4 : reached t4 [] (cleared 12) l3) by (split; [done|by apply (freed_same s t3)]).
    destruct (reached_free t4 [] (cleared 12) l3 MAXFILE H4 (no_holds t4) MAXFILE_place) as (t5 & R5 & H5).
    { intros i Hi%Hl3. unfold place. lia. }
    { rewrite Hl3. lia. }
    { done. }
    fold ind in R5. rewrite (bind_eq _ _ _ _ _ R5).
    destruct (clear_addr 12 t5 [] _ ltac:(lia) H5) as (t6 & R6 & [T6 H6]).
    exists t6. split; [exact R6|]. split; [done|]. exists (blocks (MAXFILE :: l3)). split; [done|].
    intros c. rewrite in_blocks. split; intros (Hc & j & Hj & E); (split; [done|]); exists j; (split; [|done]).
    + apply elem_of_cons in Hj as [->|Hj%Hl3]; [apply MAXFILE_place|unfold place; lia].
    + rewrite elem_of_cons, Hl3. unfold place in Hj. lia.
Qed.

End Trunc.

(** ** [itrunc] *)

Definition has_block (s : fst) (x : inode) (c : Z) : Prop := c <> 0 /\ exists j, place j /\ slot s x j = c.

(** The emptied inode. *)
Definition truncated (x : inode) : inode := set_isize 0 (set_addrs (replicate 13 0) x).

(** What [itrunc] does: the blocks of the file are free, its inode is empty in
    memory and on disk, nothing else changed. *)
Record trunc_done (s s' : fst) (ip : nat) (x y : inode) : Prop := {
  td_keeps : keeps (with_icache (<[ip := y]> (icache s)) s) s';
  td_ok : fs_ok s';
  td_used : forall c, 0 <= c < size (sb s) -> used s' c = true <-> used s c = true /\ ~ has_block s x c;
  td_val : forall m, ~ bitmap_block s m -> m <> IBLOCK (inum x) (sb s) -> val s' m = val s m;
  td_disk : forall z, ondisk s' (inum x) z = dinode_of y z;
  td_inodes : forall i z, 0 <= i < ninodes (sb s) -> i <> inum x -> ondisk s' i z = ondisk s i z }.

(** The inode written back after the blocks were freed. *)
Lemma freed_update s t ip x y F k L :
  fs_ok s -> file_ok s x -> icache s !! ip = Some x -> IBLOCK (inum x) (sb s) ∈ F ->
  tx t [] F k -> freed s t ip y L -> fields_ok y -> idev y = 1 -> inum y = inum x ->
  (forall c, c ∈ L <-> has_block s x c) ->
  exists s', iupdate ip t = Ret tt s' /\ tx s' [] F k /\ trunc_done s s' ip x y.
Proof.
  intros Hok Hf Hx HF T H Hy Hdev Hi HL. destruct (freed_sb _ _ _ _ _ H) as (Esb & Eic & _).
  destruct (freed_geometry _ _ _ _ _ H) as (_ & Gb & _). pose proof H as [K V U O].
  assert (Hty : icache t !! ip = Some y).
  { rewrite Eic. apply list_lookup_insert_eq. by apply lookup_lt_Some in Hx. }
  destruct (iupdate_ok t [] F k ip y T O) as (s' & R & T' & K' & O' & V' & U' & D' & I'); try done.
  { split; [cbn; lia|]. by intros n ?%not_elem_of_nil. }
  { rewrite Esb, Hi. apply Hf. }
  { by rewrite Esb, Hi. }
  rewrite Hi, Esb in *. exists s'. split; [done|]. split; [done|]. split.
  - by etrans.
  - done.
  - intros c Hc. rewrite U', U, andb_true_iff, bool_decide_eq_true, HL by done. tauto.
  - intros m Hm Hne. rewrite V' by done. by apply V.
  - done.
  - intros i z Hi' Hne. rewrite I' by done. unfold ondisk. rewrite Esb, V; [done|].
    destruct (IBLOCK_eq s i (fo_layout _ Hok) Hi') as [_ Hib]. by apply (inode_home s _ (fo_layout _ Hok)).
Qed.

Lemma truncated_fields x : fields_ok x -> fields_ok (truncated x).
Proof.
  intros [? ? ? ? ? ? ?]. split; try done.
  by apply Forall_replicate.
Qed.

Lemma itrunc_ok s ip x F k :
  tx s [] F k -> fs_ok s -> file_ok s x -> icache s !! ip = Some x -> bitmap_paid s F ->
  IBLOCK (inum x) (sb s) ∈ F ->
  exists s', itrunc ip s = Ret tt s' /\ tx s' [] F k /\ trunc_done s s' ip x (truncated x).
Proof.
  intros Ht Hok Hf Hx HF Hib.
  destruct (trunc_loops s ip x F k Hok Hf Hx HF Ht) as (t & R & T & L & H & HL).
  assert (E13 : cleared x 13 = set_addrs (replicate 13 0) x).
  { unfold cleared. rewrite drop_ge by (rewrite (fd_len _ (fl_fields _ _ Hf)); lia). by rewrite app_nil_r. }
  rewrite E13 in H. assert (Hty : icache t !! ip = Some (set_addrs (replicate 13 0) x)).
  { destruct (freed_sb _ _ _ _ _ H) as (_ & -> & _). apply list_lookup_insert_eq. by apply lookup_lt_Some in Hx. }
  set (t2 := with_icache (<[ip := truncated x]> (icache t)) t).
  assert (R2 : iupd ip (set_isize 0) t = Ret tt t2) by exact (alter_icache t ip _ (set_isize 0) Hty).
  destruct (freed_update s t2 ip x (truncated x) F k L Hok Hf Hx Hib T (freed_set _ _ _ _ (truncated x) _ H))
    as (s' & R' & T' & D); try done; try apply Hf.
  { apply truncated_fields, Hf. }
  exists s'. split; [|done].
  unfold itrunc. apply bind_ret_inv in R as ([] & t0 & Ra & Rb).
  rewrite (bind_eq _ _ _ _ _ Ra). apply bind_ret_inv in Rb as (y & t0' & Rb & Rc).
  rewrite (bind_eq _ _ _ _ _ Rb), (bind_eq _ _ _ _ _ Rc), (bind_eq _ _ _ _ _ R2). exact R'.
Qed.

(** Another file, when one was truncated. *)
Section TruncOther.
Variables (s s' : fst) (ip : nat) (x x' y : inode).
Hypothesis Hok : fs_ok s.
Hypothesis H : trunc_done s s' ip x x'.
Hypothesis Hf : file_ok s x.
Hypothesis Hy : file_ok s y.
Hypothesis Hxy : apart s x y.

Lemma trunc_val j : place j -> slot s y j <> 0 -> val s' (slot s y j) = val s (slot s y j).
Proof.
  intros Hj Hn. destruct (fl_data _ _ Hy j Hj Hn) as [Hd _]. pose proof (fo_layout _ Hok) as Hs.
  apply (td_val _ _ _ _ _ H).
  - by apply (data_home s Hs).
  - intros E. destruct (IBLOCK_eq s (inum x) Hs (fl_inum _ _ Hf)) as [_ Hi].
    rewrite <- E in Hi. by apply (inode_home s _ Hs) in Hi as (_ & _ & _ & ?).
Qed.

Lemma trunc_slot j : place j -> slot s' y j = slot s y j.
Proof.
  intros Hj. unfold slot. destruct (j <? NDIRECT); [done|]. destruct (j =? MAXFILE); [done|].
  destruct (Z.eqb_spec (addr_at y NDIRECT) 0) as [|Hn]; [done|].
  change (addr_at y NDIRECT) with (slot s y MAXFILE) in *. by rewrite trunc_val by (done || apply MAXFILE_place).
Qed.

Lemma trunc_content : content s' y = content s y.
Proof.
  unfold content, bytes. apply list_fmap_ext. intros i o Hi. apply lookup_seqZ in Hi.
  destruct (fl_size _ _ Hy). destruct (off_place o 1) as [? ?]; [lia..|].
  assert (Hp : place (o / bsize)) by (unfold place; lia).
  unfold fbyte. rewrite trunc_slot by done.
  destruct (Z.eqb_spec (slot s y (o / bsize)) 0) as [|Hn]; [done|]. by rewrite trunc_val.
Qed.

Lemma trunc_file : file_ok s' y.
Proof.
  pose proof (td_keeps _ _ _ _ _ H) as K. destruct (keeps_fields _ _ K) as (Esb & _ & _).
  pose proof Hy as [? ? Hi Hdt Hinj ?]. split; try done.
  - by rewrite Esb.
  - intros j Hj. rewrite trunc_slot by done. intros Hn. destruct (Hdt j Hj Hn) as [Hd Hu].
    split; [by apply (keeps_geometry _ _ K)|].
    apply (td_used _ _ _ _ _ H); [by apply (data_pos s _ (fo_layout _ Hok))|]. split; [done|].
    intros (_ & i & Hpi & E). by apply (proj2 Hxy i j).
  - intros i j Hi' Hj. rewrite !trunc_slot by done. by apply Hinj.
Qed.

End TruncOther.
