(* ===== verification/FsCache.v ===== *)
(** * The inode cache at work

    What [iget], [idup], [ilock], [iunlock] and [iput] do when they succeed, as
    equations on the list of cached inodes: every outcome is determined by the
    cache, the disk and the lock bits.  [iput] of the last reference to an
    inode without links frees its blocks and its place on disk. *)

From S2P Require Import Prelude Locks Bio Log LogFacts Fs FsTx FsBlocks FsInode FsFile FsRW FsTrunc.
Import Bio BioFacts Log Fs.

(** ** Changes to the cache *)

Definition moved (ic : list inode) (s s' : fst) : Prop := same (with_icache ic s) s'.

Lemma with_icache_id s : with_icache (icache s) s = s.
Proof. by destruct s. Qed.
Lemma moved_icache ic s s' : moved ic s s' -> icache s' = ic.
Proof. intros H. by rewrite (sm_lg _ _ H). Qed.
Lemma moved_lk ic s s' : moved ic s s' -> icache_lk s' = icache_lk s.
Proof. intros H. by rewrite (sm_lg _ _ H). Qed.
Lemma same_moved s s' : same s s' -> moved (icache s) s s'.
Proof. intros H. unfold moved. by rewrite with_icache_id. Qed.
Lemma moved_trans ic1 ic2 s1 s2 s3 : moved ic1 s1 s2 -> moved ic2 s2 s3 -> moved ic2 s1 s3.
Proof.
  intros [E1 Z1 D1 V1] [E2 Z2 D2 V2]. split; cbn in *; try congruence.
  - rewrite E2. cbn. rewrite E1 at 1 2. done.
  - intros m. rewrite V2. apply V1.
Qed.
Lemma moved_val ic s s' m : moved ic s s' -> val s' m = val s m.
Proof. intros H. apply (sm_val _ _ H). Qed.
Lemma moved_sb ic s s' : moved ic s s' -> sb s' = sb s.
Proof. intros H. by rewrite (sm_lg _ _ H). Qed.

(** Seen from inside a transaction. *)
Lemma moved_tx {A} (m : M fst A) s hl F k ic (a : A) :
  (forall bl, held s bl hl -> (length bl < 29)%nat -> exists s', m s = Ret a s' /\ held s' bl hl /\ moved ic s s') ->
  tx s hl F k -> exists s', m s = Ret a s' /\ tx s' hl F k /\ moved ic s s'.
Proof.
  intros H Ht. pose proof Ht as (bl & Htr & Hh & _ & Hk). destruct (tx_len s bl F k Htr Hk) as [_ Hl].
  destruct (H bl Hh Hl) as (s' & R & H' & S). exists s'. split_and!; try done.
  refine (tx_same (with_icache ic s) s' hl hl F k Ht _ S). intros bl2 H2 Hl2.
  destruct (H bl2 H2 Hl2) as (s2 & R2 & Hh2 & _). congruence.
Qed.

Lemma held_icache s ic bl hl : held s bl hl -> held (with_icache ic s) bl hl.
Proof. done. Qed.

(** ** [iget] and [idup] *)

Definition is_hit (dv i : Z) (x : inode) : bool := (iref x >? 0) && (idev x =? dv) && (inum x =? i).
(** A slot in use for inode [i]. *)
Definition in_use (dv i : Z) (x : inode) : Prop := 0 < iref x /\ idev x = dv /\ inum x = i.
Lemma is_hit_in_use dv i x : is_hit dv i x = true <-> in_use dv i x.
Proof. unfold is_hit, in_use. bools. lia. Qed.

Definition is_free (x : inode) : bool := iref x =? 0.
Definition more (x : inode) : inode := set_iref (iref x + 1) x.

(** The slot [iget] chooses and the cache it leaves. *)
Definition iget_slot (ic : list inode) (dv i : Z) : option (nat * list inode) :=
  match find_idx (is_hit dv i) ic with
  | Some ip => Some (ip, alter more ip ic)
  | None => (fun ip => (ip, alter (fresh_inode dv i) ip ic)) <$> find_idx is_free ic
  end.

Section Cache.
Implicit Types (s : fst) (bl : list Z) (hl : list (nat * Z)).

Lemma locked_update s bl hl ip f :
  held s bl hl -> icache_lk s = false ->
  exists s', (iupd ip f ;;; release) (locked_view s) = Ret tt s' /\ held s' bl hl /\ moved (alter f ip (icache s)) s s'.
Proof.
  intros Hh Hl. destruct (fs_release_ok s (alter f ip (icache s)) bl hl Hh Hl) as (s' & R & H' & S).
  exists s'. split; [|done]. unfold iupd, modify, bind. exact R.
Qed.

Lemma update_then {A} s bl hl ip f (a : A) :
  held s bl hl -> icache_lk s = false ->
  exists s', (iupd ip f ;;; release ;;; ret a) (locked_view s) = Ret a s' /\ held s' bl hl /\
    moved (alter f ip (icache s)) s s'.
Proof.
  intros Hh Hl. destruct (locked_update s bl hl ip f Hh Hl) as (s' & R & H). exists s'. split; [|done].
  apply bind_ret_inv in R as (u & s1 & R1 & R2). rewrite (bind_eq _ _ _ _ _ R1). by rewrite (bind_eq _ _ _ _ _ R2).
Qed.

Lemma iget_ok s bl hl dv i :
  held s bl hl -> icache_lk s = false ->
  match iget_slot (icache s) dv i with
  | Some (ip, ic) => exists s', iget dv i s = Ret ip s' /\ held s' bl hl /\ moved ic s s'
  | None => iget dv i s = Panic "iget: no inodes"
  end.
Proof.
  intros Hh Hl. unfold iget, iget_slot. rewrite (bind_eq _ _ _ _ _ (fs_acquire_ok s Hl)).
  erewrite (bind_eq get) by reflexivity. change (icache (locked_view s)) with (icache s).
  change (fun ip => (iref ip >? 0) && (idev ip =? dv) && (inum ip =? i)) with (is_hit dv i).
  change (fun ip => iref ip =? 0) with is_free.
  destruct (find_idx (is_hit dv i) (icache s)) as [ip|]; [by apply update_then|].
  destruct (find_idx is_free (icache s)) as [ip|]; cbn; [by apply update_then|done].
Qed.

Lemma idup_ok s bl hl ip :
  held s bl hl -> icache_lk s = false ->
  exists s', idup ip s = Ret ip s' /\ held s' bl hl /\ moved (alter more ip (icache s)) s s'.
Proof.
  intros Hh Hl. unfold idup. rewrite (bind_eq _ _ _ _ _ (fs_acquire_ok s Hl)). by apply update_then.
Qed.

(** ** [ilock] and [iunlock] *)

(** The inode as its holder sees it: read from disk if it was not. *)
Definition loaded s (x : inode) : inode :=
  if ivalid x then set_ilocked true x else set_ivalid true (ondisk s (inum x) (set_ilocked true x)).

Lemma acquiresleep_ok s ip x :
  icache s !! ip = Some x -> ilocked x = false ->
  acquiresleep ip s = Ret tt (with_icache (<[ip := set_ilocked true x]> (icache s)) s).
Proof.
  intros Hx Hl. unfold acquiresleep. rewrite (bind_eq _ _ _ _ _ (iat_ok _ _ _ Hx)), Hl. by apply alter_icache.
Qed.
Lemma releasesleep_ok s ip x :
  icache s !! ip = Some x -> releasesleep ip s = Ret tt (with_icache (<[ip := set_ilocked false x]> (icache s)) s).
Proof. intros Hx. by apply alter_icache. Qed.

Lemma ilock_ok s bl ip x :
  held s bl [] -> (length bl < 29)%nat -> fs_ok s -> icache s !! ip = Some x -> ilocked x = false -> 1 <= iref x ->
  idev x = 1 -> 0 <= inum x < ninodes (sb s) -> type (loaded s x) <> 0 ->
  exists s', ilock (Some ip) s = Ret tt s' /\ held s' bl [] /\ moved (<[ip := loaded s x]> (icache s)) s s'.
Proof.
  intros Hh Hlen Hok Hx Hl Hr Hd Hi Hty. pose proof (fo_layout _ Hok) as Hs. unfold ilock.
  rewrite (bind_eq _ _ _ _ _ (iat_ok _ _ _ Hx)), (proj2 (Z.ltb_ge _ _) Hr).
  rewrite (bind_eq _ _ _ _ _ (acquiresleep_ok _ _ _ Hx Hl)). set (s1 := with_icache _ s).
  assert (Hlt : (ip < length (icache s))%nat) by (by eapply lookup_lt_Some).
  assert (Hx1 : icache s1 !! ip = Some (set_ilocked true x)) by (by apply list_lookup_insert_eq).
  rewrite (bind_eq _ _ _ _ _ (iat_ok _ _ _ Hx1)). cbn [ivalid set_ilocked].
  unfold loaded in *. destruct (ivalid x); cbn [negb].
  { exists s1. split_and!; [done|done|unfold moved; reflexivity]. }
  erewrite (bind_eq get) by reflexivity. cbn [idev inum set_ilocked]. rewrite Hd.
  destruct (IBLOCK_eq s (inum x) Hs Hi) as [_ Hib]. destruct (inode_home s _ Hs Hib) as (Hhm & _).
  change (sb s1) with (sb s).
  destruct (held_bread s1 bl [] (IBLOCK (inum x) (sb s))) as (b & s2 & R2 & H2 & S2); [done|apply not_elem_of_nil|apply Hhm|cbn; unfold NBUF; lia|].
  rewrite (bind_eq _ _ _ _ _ R2), (bind_eq _ _ _ _ _ (held_data s2 _ _ b _ H2 ltac:(left))).
  assert (Hx2 : icache s2 !! ip = Some (set_ilocked true x)) by (by rewrite (sm_lg _ _ S2)).
  rewrite (bind_eq _ _ _ _ _ (alter_icache _ _ _ _ Hx2)). rewrite (sm_val _ _ S2). change (val s1 ?m) with (val s m).
  fold (ondisk s (inum x) (set_ilocked true x)). set (y := ondisk s (inum x) (set_ilocked true x)) in *.
  destruct (held_brelse (with_icache (<[ip := y]> (icache s2)) s2) bl [] b _ H2) as (s3 & R3 & H3 & S3).
  rewrite (bind_eq _ _ _ _ _ R3).
  assert (E3 : icache s3 = <[ip := y]> (icache s)).
  { rewrite (sm_lg _ _ S3). cbn. rewrite (sm_lg _ _ S2). cbn. by rewrite list_insert_insert_eq. }
  assert (Hx3 : icache s3 !! ip = Some y) by (rewrite E3; by apply list_lookup_insert_eq).
  rewrite (bind_eq _ _ _ _ _ (alter_icache _ _ _ _ Hx3)).
  assert (Hx4 : icache (with_icache (<[ip := set_ivalid true y]> (icache s3)) s3) !! ip = Some (set_ivalid true y)).
  { apply list_lookup_insert_eq. rewrite E3. by rewrite length_insert. }
  rewrite (bind_eq _ _ _ _ _ (iat_ok _ _ _ Hx4)).
  destruct (Z.eqb_spec (type (set_ivalid true y)) 0) as [|_]; [done|].
  eexists. split; [done|]. split; [exact H3|].
  pose proof (moved_trans _ _ s s2 s3 S2 S3) as M3.
  refine (moved_trans _ _ _ _ _ M3 _). unfold moved. rewrite E3, list_insert_insert_eq. reflexivity.
Qed.

Lemma iunlock_ok s ip x :
  icache s !! ip = Some x -> ilocked x = true -> 1 <= iref x ->
  iunlock (Some ip) s = Ret tt (with_icache (<[ip := set_ilocked false x]> (icache s)) s).
Proof.
  intros Hx Hl Hr. unfold iunlock, holdingsleep.
  assert (R : (let! i := iat ip in ret (ilocked i)) s = Ret true s) by (by rewrite (bind_eq _ _ _ _ _ (iat_ok _ _ _ Hx)), Hl).
  rewrite (bind_eq _ _ _ _ _ R), (bind_eq _ _ _ _ _ (iat_ok _ _ _ Hx)), (proj2 (Z.ltb_ge _ _) Hr). by apply releasesleep_ok.
Qed.

(** ** [iput] *)

Definition less (x : inode) : inode := set_iref (iref x - 1) x.

(** The last steps: the sleep lock is let go of, the count goes down. *)
Lemma iput_end s bl hl ip x :
  held s bl hl -> icache_lk s = false -> icache s !! ip = Some x ->
  exists s', (releasesleep ip ;;; acquire ;;; iupd ip less ;;; release) s = Ret tt s' /\ held s' bl hl /\
    moved (<[ip := less (set_ilocked false x)]> (icache s)) s s'.
Proof.
  intros Hh Hl Hx. rewrite (bind_eq _ _ _ _ _ (releasesleep_ok _ _ _ Hx)). set (s1 := with_icache _ s).
  assert (Hx1 : icache s1 !! ip = Some (set_ilocked false x)).
  { apply list_lookup_insert_eq. by eapply lookup_lt_Some. }
  rewrite (bind_eq _ _ _ _ _ (fs_acquire_ok s1 Hl)).
  destruct (locked_update s1 bl hl ip less Hh Hl) as (s' & R & H' & S). exists s'. split; [exact R|]. split; [done|].
  rewrite (alter_insert _ _ _ _ Hx1) in S. unfold s1 in S. cbn [icache with_icache] in S. rewrite list_insert_insert_eq in S.
  exact S.
Qed.

Lemma read_locked {A} s bl hl ip x (k : Z -> M fst A) :
  held s bl hl -> icache_lk s = false -> icache s !! ip = Some x ->
  exists s', (acquire ;;; let! y := iat ip in release ;;; k (iref y)) s = k (iref x) s' /\ held s' bl hl /\ same s s'.
Proof.
  intros Hh Hl Hx. rewrite (bind_eq _ _ _ _ _ (fs_acquire_ok s Hl)).
  rewrite (bind_eq _ _ _ _ _ (iat_ok (locked_view s) _ _ Hx)).
  destruct (fs_release_ok s (icache s) bl hl Hh Hl) as (s' & R & H' & S).
  replace (with_icache (icache s) (locked_view s)) with (locked_view s) in R by (by destruct s as [[[]]]).
  rewrite (bind_eq _ _ _ _ _ R). exists s'. split_and!; try done. by rewrite with_icache_id in S.
Qed.

(** A reference that is not the last, or to an inode that has links. *)
Lemma iput_ok s bl ip x :
  held s bl [] -> icache_lk s = false -> icache s !! ip = Some x -> ilocked x = false ->
  (ivalid x = true -> nlink x = 0 -> iref x <> 1) ->
  exists s', iput ip s = Ret tt s' /\ held s' bl [] /\ moved (<[ip := less x]> (icache s)) s s'.
Proof.
  intros Hh Hl Hx Hlk Hkeep. unfold iput. rewrite (bind_eq _ _ _ _ _ (acquiresleep_ok _ _ _ Hx Hlk)). set (s1 := with_icache _ s).
  assert (Hlt : (ip < length (icache s))%nat) by (by eapply lookup_lt_Some).
  assert (Hx1 : icache s1 !! ip = Some (set_ilocked true x)) by (by apply list_lookup_insert_eq).
  rewrite (bind_eq _ _ _ _ _ (iat_ok _ _ _ Hx1)). cbn [ivalid nlink set_ilocked]. cbv zeta.
  assert (Hcond : exists s2, (if ivalid x && (nlink x =? 0) then
      acquire ;;; (let! y := iat ip in release ;;; (if iref y =? 1 then itrunc ip ;;; iupd ip (set_type 0) ;;; iupdate ip ;;; iupd ip (set_ivalid false) else ret tt))
      else ret tt) s1 = Ret tt s2 /\ held s2 bl [] /\ same s1 s2).
  { destruct (ivalid x) eqn:Ev; cbn [andb]; [|exists s1; split_and!; [done..|reflexivity]].
    destruct (Z.eqb_spec (nlink x) 0) as [En|]; [|exists s1; split_and!; [done..|reflexivity]].
    destruct (read_locked s1 bl [] ip _ (fun r => if r =? 1 then itrunc ip ;;; iupd ip (set_type 0) ;;; iupdate ip ;;; iupd ip (set_ivalid false) else ret tt)
      Hh Hl Hx1) as (s2 & R & H2 & S2).
    exists s2. split; [|done]. rewrite R. cbn [iref set_ilocked]. by rewrite (proj2 (Z.eqb_neq _ _) (Hkeep eq_refl En)). }
  destruct Hcond as (s2 & R2 & H2 & S2). rewrite (bind_eq _ _ _ _ _ R2).
  assert (Hx2 : icache s2 !! ip = Some (set_ilocked true x)) by (by rewrite (sm_lg _ _ S2)).
  assert (Hl2 : icache_lk s2 = false) by (by rewrite (sm_lg _ _ S2)).
  destruct (iput_end s2 bl [] ip _ H2 Hl2 Hx2) as (s3 & R3 & H3 & S3). exists s3. split; [exact R3|]. split; [done|].
  assert (E2 : icache s2 = <[ip := set_ilocked true x]> (icache s)) by (by rewrite (sm_lg _ _ S2)).
  pose proof (moved_trans _ _ s s2 s3 S2 S3) as M. rewrite E2, list_insert_insert_eq in M.
  destruct x as [? ? ? lk ? ? ? ? ? ? ?]. cbn in Hlk. subst lk. exact M.
Qed.

End Cache.

(** ** The last reference to an inode without links *)

Lemma file_ok_meta s x y :
  addrs y = addrs x -> idev y = idev x -> inum y = inum x -> isize y = isize x -> fields_ok y -> file_ok s x -> file_ok s y.
Proof.
  intros Ea Ed Ei Es Hf [? ? ? Hd Hj Hs].
  assert (E : forall j, slot s y j = slot s x j) by (intros j; unfold slot, addr_at; by rewrite Ea).
  split; try congruence.
  - intros j. rewrite E. apply Hd.
  - intros i j. rewrite !E. apply Hj.
  - destruct Hs. split; by rewrite Es.
Qed.

(** The slot of an inode that was freed. *)
Definition gone (x : inode) : inode := set_iref 0 (set_ivalid false (set_type 0 (truncated x))).

Record freed_inode (s s' : fst) (ip : nat) (x : inode) : Prop := {
  fi_ok : fs_ok s';
  fi_icache : icache s' = <[ip := gone x]> (icache s);
  fi_lk : icache_lk s' = false;
  fi_disk : forall z, type (ondisk s' (inum x) z) = 0;
  fi_used : forall c, 0 <= c < size (sb s) -> used s' c = true <-> used s c = true /\ ~ has_block s x c;
  fi_val : forall m, ~ bitmap_block s m -> m <> IBLOCK (inum x) (sb s) -> val s' m = val s m;
  fi_sb : sb s' = sb s;
  fi_inodes : forall i z, 0 <= i < ninodes (sb s) -> i <> inum x -> ondisk s' i z = ondisk s i z }.

Lemma tx_read_locked {A} s hl F k ip x (K : Z -> M fst A) :
  tx s hl F k -> icache_lk s = false -> icache s !! ip = Some x ->
  exists s', (acquire ;;; let! y := iat ip in release ;;; K (iref y)) s = K (iref x) s' /\ tx s' hl F k /\ same s s'.
Proof.
  intros Ht Hl Hx.
  destruct (tx_run (acquire ;;; let! y := iat ip in release ;;; ret (iref y)) s hl F k (fun a _ => a = iref x) (fun _ => hl) Ht)
    as (a & s' & R & T & S & ->).
  { intros bl Hh _. destruct (read_locked s bl hl ip x (fun r => ret r) Hh Hl Hx) as (s' & R & H' & S).
    exists (iref x), s'. by split_and!. }
  exists s'. split; [|done]. apply bind_ret_inv in R as (u & t1 & R1 & R). apply bind_ret_inv in R as (y & t2 & R2 & R).
  apply bind_ret_inv in R as (v & t3 & R3 & [= E <-]).
  by rewrite (bind_eq _ _ _ _ _ R1), (bind_eq _ _ _ _ _ R2), (bind_eq _ _ _ _ _ R3), E.
Qed.

Lemma tx_iput_end s F k ip x :
  tx s [] F k -> icache_lk s = false -> icache s !! ip = Some x ->
  exists s', (releasesleep ip ;;; acquire ;;; iupd ip less ;;; release) s = Ret tt s' /\ tx s' [] F k /\
    moved (<[ip := less (set_ilocked false x)]> (icache s)) s s'.
Proof. intros Ht Hl Hx. apply moved_tx; [|done]. intros bl Hh _. by apply iput_end. Qed.

Lemma moved_same_fs ic s s' :
  moved ic s s' -> fs_ok s ->
  fs_ok s' /\ sb s' = sb s /\ (forall b, used s' b = used s b) /\ forall i z, ondisk s' i z = ondisk s i z.
Proof.
  intros S Hok. pose proof (moved_sb _ _ _ S) as Esb. split_and!; [|done|..].
  - apply (same_fs_ok (with_icache ic s)); [exact S|]. by apply fs_ok_icache.
  - intros b. unfold used. by rewrite Esb, (moved_val _ _ _ _ S).
  - intros i z. unfold ondisk. by rewrite Esb, (moved_val _ _ _ _ S).
Qed.

(** The body of the [if] of [iput]: the inode is emptied, made free on disk and
    forgotten in the cache. *)
Lemma iput_free s ip x F k :
  tx s [] F k -> fs_ok s -> file_ok s x -> icache s !! ip = Some x -> bitmap_paid s F -> IBLOCK (inum x) (sb s) ∈ F ->
  exists s', (itrunc ip ;;; iupd ip (set_type 0) ;;; iupdate ip ;;; iupd ip (set_ivalid false)) s = Ret tt s' /\
    tx s' [] F k /\ fs_ok s' /\ icache s' = <[ip := set_ivalid false (set_type 0 (truncated x))]> (icache s) /\
    icache_lk s' = icache_lk s /\ sb s' = sb s /\
    (forall z, type (ondisk s' (inum x) z) = 0) /\
    (forall c, 0 <= c < size (sb s) -> used s' c = true <-> used s c = true /\ ~ has_block s x c) /\
    (forall m, ~ bitmap_block s m -> m <> IBLOCK (inum x) (sb s) -> val s' m = val s m) /\
    (forall i z, 0 <= i < ninodes (sb s) -> i <> inum x -> ondisk s' i z = ondisk s i z).
Proof.
  intros Ht Hok Hf Hx HF Hib. pose proof (lookup_lt_Some _ _ _ Hx) as Hlt.
  destruct (itrunc_ok s ip x F k Ht Hok Hf Hx HF Hib) as (s1 & R1 & T1 & [K1 O1 U1 V1 D1 I1]).
  rewrite (bind_eq _ _ _ _ _ R1). pose proof (kp_fs _ _ K1) as Es1.
  assert (Hx1 : icache s1 !! ip = Some (truncated x)) by (rewrite Es1; by apply list_lookup_insert_eq).
  rewrite (bind_eq _ _ _ _ _ (alter_icache _ _ _ _ Hx1)). set (y := set_type 0 (truncated x)). set (s2 := with_icache _ s1).
  assert (Esb : sb s1 = sb s) by (by rewrite Es1).
  assert (Hx2 : icache s2 !! ip = Some y) by (apply list_lookup_insert_eq; rewrite Es1; cbn; by rewrite length_insert).
  destruct (iupdate_ok s2 [] F k ip y T1 (fs_ok_icache _ _ O1)) as (s3 & R3 & T3 & K3 & O3 & V3 & U3 & D3 & I3); try done.
  { split; [cbn; lia|]. by intros n ?%not_elem_of_nil. }
  { apply Hf. }
  { change (sb s2) with (sb s1). rewrite Esb. apply Hf. }
  { destruct (truncated_fields x (fl_fields _ _ Hf)) as [? ? ? ? ? ? ?]. by split. }
  { change (sb s2) with (sb s1). by rewrite Esb. }
  change (sb s2) with (sb s1) in *. rewrite Esb in *. change (inum y) with (inum x) in *.
  rewrite (bind_eq _ _ _ _ _ R3). pose proof (kp_fs _ _ K3) as Es3.
  assert (Hx3 : icache s3 !! ip = Some y) by (rewrite Es3; exact Hx2).
  rewrite (alter_icache _ _ _ _ Hx3). eexists. split; [done|].
  assert (E3 : icache s3 = <[ip := y]> (icache s)).
  { rewrite Es3. cbn. rewrite Es1. cbn. by rewrite list_insert_insert_eq. }
  split; [exact T3|]. split; [by apply fs_ok_icache|]. split; [by cbn; rewrite E3, list_insert_insert_eq|].
  split; [cbn; rewrite Es3; cbn; by rewrite Es1|]. split; [cbn; by rewrite Es3|]. split; [|split_and!].
  - intros z. change (type (ondisk s3 (inum x) z) = 0). by rewrite D3.
  - intros c Hc. change (used s3 c = true <-> used s c = true /\ ~ has_block s x c). rewrite U3 by done. by apply U1.
  - intros m Hm Hi. change (val s3 m = val s m). rewrite V3 by done. by apply V1.
  - intros i z Hi Hne. change (ondisk s3 i z = ondisk s i z). rewrite I3 by done. by apply I1.
Qed.

Lemma iput_last s ip x F k :
  tx s [] F k -> fs_ok s -> file_ok s x -> icache s !! ip = Some x -> icache_lk s = false ->
  ilocked x = false -> ivalid x = true -> nlink x = 0 -> iref x = 1 ->
  bitmap_paid s F -> IBLOCK (inum x) (sb s) ∈ F ->
  exists s', iput ip s = Ret tt s' /\ tx s' [] F k /\ freed_inode s s' ip x.
Proof.
  intros Ht Hok Hf Hx Hl Hlk Hv Hn Hr HF Hib. unfold iput. rewrite (bind_eq _ _ _ _ _ (acquiresleep_ok _ _ _ Hx Hlk)).
  set (x1 := set_ilocked true x). set (s1 := with_icache _ s). pose proof (lookup_lt_Some _ _ _ Hx) as Hlt.
  assert (Hx1 : icache s1 !! ip = Some x1) by (by apply list_lookup_insert_eq).
  rewrite (bind_eq _ _ _ _ _ (iat_ok _ _ _ Hx1)). cbn [ivalid nlink set_ilocked x1]. rewrite Hv, Hn. cbn [Z.eqb andb]. cbv zeta.
  destruct (tx_read_locked s1 [] F k ip x1 (fun r => if r =? 1 then itrunc ip ;;; iupd ip (set_type 0) ;;; iupdate ip ;;; iupd ip (set_ivalid false) else ret tt)
    Ht Hl Hx1) as (s2 & R2 & T2 & S2).
  cbn [iref set_ilocked x1] in R2. rewrite Hr in R2. cbn [Z.eqb Pos.eqb] in R2.
  destruct (moved_same_fs _ s s2 S2 Hok) as (O2 & Esb2 & U2 & D2).
  assert (E2 : icache s2 = <[ip := x1]> (icache s)) by (by rewrite (moved_icache _ _ _ S2)).
  assert (Hx2 : icache s2 !! ip = Some x1) by (rewrite E2; by apply list_lookup_insert_eq).
  assert (Hf2 : file_ok s2 x1).
  { apply (same_file_ok s1); [exact S2|]. apply file_ok_icache. apply (file_ok_meta s x); try done.
    destruct (fl_fields _ _ Hf). by split. }
  assert (Sl : forall j, slot s2 x1 j = slot s x j).
  { intros j. rewrite (same_slot s1 s2 x1 j (sm_val _ _ S2)). done. }
  destruct (iput_free s2 ip x1 F k T2 O2 Hf2 Hx2) as (s3 & R3 & T3 & O3 & E3 & L3 & Esb3 & D3 & U3 & V3 & I3).
  { intros m. unfold bitmap_block, meta_end. rewrite Esb2. apply HF. }
  { by rewrite Esb2. }
  rewrite R3 in R2. rewrite (bind_eq _ _ _ _ _ R2). rewrite E2, list_insert_insert_eq in E3.
  rewrite (moved_lk _ _ _ S2) in L3.
  assert (Hx3 : icache s3 !! ip = Some (set_ivalid false (set_type 0 (truncated x1)))) by (rewrite E3; by apply list_lookup_insert_eq).
  destruct (tx_iput_end s3 F k ip _ T3 ltac:(congruence) Hx3) as (s4 & R4 & T4 & S4). exists s4. split; [exact R4|]. split; [done|].
  destruct (moved_same_fs _ s3 s4 S4 O3) as (O4 & Esb4 & U4 & D4). rewrite Esb2 in *. split; try done.
  - rewrite (moved_icache _ _ _ S4), E3, list_insert_insert_eq. do 2 f_equal.
    destruct x as [? ? ? lk ? ? ? ? ? ? ?]. cbn in Hlk, Hr. subst. done.
  - rewrite (moved_lk _ _ _ S4). congruence.
  - intros z. rewrite D4. apply D3.
  - intros c Hc. rewrite U4, U3, U2 by done. unfold has_block. split; intros [H1 H2]; (split; [done|]); intros (? & j & Hj & E);
      apply H2; (split; [done|]); exists j; [rewrite Sl|rewrite <- Sl]; done.
  - intros m Hm Hi. rewrite (moved_val _ _ _ _ S4), V3; [by apply (moved_val _ _ _ _ S2)| |done].
    unfold bitmap_block, meta_end in *. by rewrite Esb2.
  - congruence.
  - intros i z Hi Hne. rewrite D4, I3, D2 by done. done.
Qed.
