(* ===== verification/FsDir.v ===== *)
(** * Directories

    A directory file is a list of sixteen-byte entries; what it means is the
    finite map from names to inode numbers in which the first entry of a name
    counts and entries with inode number 0 are empty.  [dirlookup] is a lookup
    in that map and [dirlink] an insertion. *)

From stdpp Require Import gmap.
From S2P Require Import Prelude Locks Bio Log LogFacts Fs FsTx FsBlocks FsInode FsFile FsRW FsCache.
Import Bio BioFacts Log Fs.

(** ** Names *)

(** The bytes of a name that count: up to the first NUL, at most [n]. *)
Fixpoint cname (n : nat) (l : list Z) : list Z :=
  match n with
  | O => []
  | S n' => if hd 0 l =? 0 then [] else hd 0 l :: cname n' (tl l)
  end.
Notation canon := (cname DIRSIZ).

Lemma byte_hd l : Forall byte l -> byte (hd 0 l).
Proof. intros [|x l' Hx _]; [unfold byte; cbn; lia|done]. Qed.
Lemma byte_tl l : Forall byte l -> Forall byte (tl l).
Proof. by intros [|x l' _ Hl]. Qed.

Lemma strncmp_zero n : forall p q, Forall byte p -> Forall byte q -> strncmp p q n = 0 <-> cname n p = cname n q.
Proof.
  induction n as [|n IH]; intros p q Hp Hq; [done|]. cbn [strncmp cname].
  pose proof (byte_hd p Hp) as Bp. pose proof (byte_hd q Hq) as Bq. unfold byte in *.
  destruct (Z.eqb_spec (hd 0 p) 0) as [Ep|Ep], (Z.eqb_spec (hd 0 q) 0) as [Eq|Eq]; cbn [negb andb].
  - by rewrite Ep, Eq.
  - rewrite !u8_small by lia. split; [lia|done].
  - destruct (Z.eqb_spec (hd 0 p) (hd 0 q)); [lia|]. rewrite !u8_small by lia. split; [lia|done].
  - destruct (Z.eqb_spec (hd 0 p) (hd 0 q)) as [E|E].
    + rewrite (IH (tl p) (tl q) (byte_tl p Hp) (byte_tl q Hq)), E. split; [by intros ->|by intros [= ?]].
    + rewrite !u8_small by lia. split; [lia|by intros [= ?]].
Qed.

Lemma cname_pad n : forall m l, (n <= m)%nat -> cname n (strncpy l m) = cname n l.
Proof.
  induction n as [|n IH]; intros m l Hm; [done|]. destruct m as [|m]; [lia|]. cbn [strncpy].
  destruct l as [|c l]; cbn [cname hd tl]; [done|]. by rewrite IH by lia.
Qed.

Lemma strncpy_length n : forall l, length (strncpy l n) = n.
Proof. induction n as [|n IH]; intros [|c l]; cbn; [done..| |]; by rewrite IH. Qed.
Lemma strncpy_bytes n : forall l, Forall byte l -> Forall byte (strncpy l n).
Proof.
  induction n as [|n IH]; intros [|c l] H; cbn; try done.
  - apply Forall_cons. split; [unfold byte; lia|]. by apply IH.
  - apply Forall_cons in H as [? ?]. apply Forall_cons. split; [done|]. by apply IH.
Qed.

(** ** Entries *)

Definition entry (c : list Z) (i : nat) : list Z := take 16 (drop (16 * i) c).
Definition entries (c : list Z) : list (list Z) := entry c <$> seq 0 (length c / 16).

Definition is_empty (de : list Z) : bool := de_inum de =? 0.
Definition names (name : list Z) (de : list Z) : bool := negb (is_empty de) && (namecmp name (de_name de) =? 0).

(** The first entry of a name, and the first empty place. *)
Definition dir_find (c name : list Z) : option nat := find_idx (names name) (entries c).
Definition dir_free (c : list Z) : nat := default (length (entries c)) (find_idx is_empty (entries c)).

(** What the directory says. *)
Definition add_entry (de : list Z) (m : gmap (list Z) Z) : gmap (list Z) Z :=
  if is_empty de then m else <[canon (de_name de) := de_inum de]> m.
Definition entries_map (es : list (list Z)) : gmap (list Z) Z := foldr add_entry ∅ es.
Definition dir_map (c : list Z) : gmap (list Z) Z := entries_map (entries c).

Lemma entries_length c : length (entries c) = (length c / 16)%nat.
Proof. unfold entries. by rewrite length_fmap, length_seq. Qed.
Lemma entries_lookup c i : (i < length c / 16)%nat -> entries c !! i = Some (entry c i).
Proof. intros H. unfold entries. rewrite list_lookup_fmap, lookup_seq_lt by done. done. Qed.

Lemma entry_bytes c i : Forall byte c -> Forall byte (entry c i).
Proof. intros H. unfold entry. by apply Forall_take, Forall_drop. Qed.

Lemma names_spec name de : Forall byte name -> Forall byte de ->
  names name de = true <-> is_empty de = false /\ canon (de_name de) = canon name.
Proof.
  intros Hn Hd. unfold names. rewrite andb_true_iff, negb_true_iff, Z.eqb_eq. unfold namecmp.
  rewrite strncmp_zero; [|done|by apply Forall_drop]. split; intros [? ?]; by split.
Qed.

Lemma entries_map_lookup name es : Forall byte name -> Forall (Forall byte) es ->
  entries_map es !! canon name = (i ← find_idx (names name) es; de_inum <$> es !! i).
Proof.
  intros Hn. induction es as [|de es IH]; intros Hes; [done|]. apply Forall_cons in Hes as [Hde Hes]. specialize (IH Hes).
  cbn [entries_map foldr find_idx]. fold (entries_map es). unfold add_entry.
  pose proof (names_spec name de Hn Hde) as Hs. destruct (names name de) eqn:En.
  - destruct (proj1 Hs eq_refl) as [-> <-]. cbn. by rewrite lookup_insert_eq.
  - assert (E : (if is_empty de then entries_map es else <[canon (de_name de) := de_inum de]> (entries_map es)) !! canon name =
      entries_map es !! canon name).
    { destruct (is_empty de) eqn:Ee; [done|]. rewrite lookup_insert_ne; [done|]. intros Ec.
      assert (false = true) by (by apply Hs). done. }
    rewrite E, IH. by destruct (find_idx (names name) es).
Qed.

Lemma dir_map_find c name : Forall byte name -> Forall byte c ->
  dir_map c !! canon name = (i ← dir_find c name; de_inum <$> entries c !! i).
Proof.
  intros Hn Hc. apply entries_map_lookup; [done|]. apply Forall_fmap, Forall_forall. intros i _. by apply entry_bytes.
Qed.

(** An entry put at a place that is empty, of a name that is not there. *)
Lemma entries_map_insert k de es f e :
  entries_map es !! k = None -> canon (de_name de) = k -> is_empty de = false ->
  es !! f = Some e -> is_empty e = true -> entries_map (<[f := de]> es) = <[k := de_inum de]> (entries_map es).
Proof.
  revert f. induction es as [|d es IH]; intros f Hk Hc He Hf Hfe; [done|]. destruct f as [|f].
  - injection Hf as ->. change (<[0%nat := de]> (e :: es)) with (de :: es). cbn [entries_map foldr] in *.
    unfold add_entry. rewrite Hfe, He, Hc. done.
  - change (<[S f := de]> (d :: es)) with (d :: <[f := de]> es). cbn [entries_map foldr] in *.
    fold (entries_map es) in *. fold (entries_map (<[f := de]> es)). unfold add_entry in *.
    destruct (is_empty d); [by apply IH|]. apply lookup_insert_None in Hk as [Hk Hne].
    rewrite (IH f Hk Hc He Hf Hfe). by apply insert_insert_ne.
Qed.

Lemma entries_map_app k de es :
  entries_map es !! k = None -> canon (de_name de) = k -> is_empty de = false ->
  entries_map (es ++ [de]) = <[k := de_inum de]> (entries_map es).
Proof.
  intros Hk Hc He. induction es as [|d es IH].
  - cbn. unfold add_entry. by rewrite He, Hc.
  - cbn [entries_map foldr app] in *. fold (entries_map es) in *. fold (entries_map (es ++ [de])). unfold add_entry in *.
    destruct (is_empty d); [by apply IH|]. apply lookup_insert_None in Hk as [Hk Hne]. rewrite IH by done. by apply insert_insert_ne.
Qed.

(** Sixteen bytes overwritten are one entry replaced, or one more. *)
Lemma entries_overwrite c f de :
  length c = (16 * (length c / 16))%nat -> length de = 16%nat -> (f <= length c / 16)%nat ->
  entries (overwrite c (16 * Z.of_nat f) de) =
    if decide (f < length c / 16)%nat then <[f := de]> (entries c) else entries c ++ [de].
Proof.
  intros Hc Hd Hf. pose proof (entries_length c) as El. remember (length c / 16)%nat as n eqn:En in *.
  assert (Hin : forall i, (i < n)%nat -> entries c !! i = Some (entry c i)) by (intros i Hi; apply entries_lookup; by rewrite <- En).
  assert (Ho : Z.to_nat (16 * Z.of_nat f) = (16 * f)%nat) by lia.
  assert (Hl : length (overwrite c (16 * Z.of_nat f) de) = (16 * Nat.max n (S f))%nat).
  { unfold overwrite. rewrite Ho, !length_app, length_take, length_drop, Hd. lia. }
  assert (Hn : (length (overwrite c (16 * Z.of_nat f) de) / 16)%nat = Nat.max n (S f)).
  { rewrite Hl, Nat.mul_comm. by apply Nat.div_mul. }
  apply list_eq. intros i. destruct (decide (i < Nat.max n (S f))%nat) as [Hi|Hi].
  2:{ rewrite (proj2 (lookup_ge_None (entries (overwrite c _ de)) i)) by (rewrite entries_length, Hn; lia).
      symmetry. apply lookup_ge_None. case_decide; rewrite ?length_insert, ?length_app, El; cbn; lia. }
  rewrite entries_lookup by (by rewrite Hn). unfold entry, overwrite. rewrite Ho.
  assert (Lt : length (take (16 * f) c) = (16 * f)%nat) by (rewrite length_take; lia).
  destruct (Nat.lt_trichotomy i f) as [Hlt|[->|Hgt]].
  - rewrite drop_app_le, take_app_le by (rewrite ?length_drop; lia).
    assert (E : take 16 (drop (16 * i) (take (16 * f) c)) = entry c i).
    { rewrite skipn_firstn_comm, take_take. unfold entry. f_equal. lia. }
    rewrite E. specialize (Hin i ltac:(lia)).
    case_decide; [by rewrite list_lookup_insert_ne by lia|]. rewrite lookup_app_l; [done|]. lia.
  - rewrite drop_app_length' by done. rewrite take_app_le, take_ge by lia.
    case_decide.
    + symmetry. apply list_lookup_insert_eq. lia.
    + rewrite lookup_app_r by lia. rewrite El. by replace (f - n)%nat with 0%nat by lia.
  - rewrite drop_app_ge by lia. rewrite Lt, drop_app_ge by lia. rewrite Hd, drop_drop.
    replace (16 * f + 16 + (16 * i - 16 * f - 16))%nat with (16 * i)%nat by lia.
    rewrite decide_True by lia. rewrite list_lookup_insert_ne by lia. fold (entry c i). symmetry. apply Hin. lia.
Qed.

Lemma find_idx_drop {A} (f : A -> bool) l i x :
  l !! i = Some x -> find_idx f (drop i l) = if f x then Some 0%nat else S <$> find_idx f (drop (S i) l).
Proof. intros Hx. by rewrite (drop_S l x i Hx). Qed.

(** ** Directories on disk *)

(** A directory in slot [ip]: whole entries. *)
Record open_dir (s : fst) (ip : nat) (x : inode) : Prop := {
  od_file : open_file s ip x;
  od_type : type x = T_DIR;
  od_whole : isize x mod 16 = 0 }.

Lemma content_bytes s x : fs_ok s -> Forall byte (content s x).
Proof.
  intros Hok. unfold content, bytes. apply Forall_fmap, Forall_forall. intros o _. cbn. unfold fbyte.
  case_match; [unfold byte; lia|]. apply nth_byte, Hok.
Qed.

Lemma same_content s s' x : same s s' -> content s' x = content s x.
Proof. intros S. apply bytes_same, S. Qed.

Lemma same_dir s s' ip x : same s s' -> open_dir s ip x -> open_dir s' ip x.
Proof. intros S [Ho Ht Hw]. split; [by apply (same_open s)|done..]. Qed.

Lemma dir_size s ip x : open_dir s ip x -> isize x = 16 * Z.of_nat (length (entries (content s x))) /\ isize x <= MAXFILE * bsize.
Proof.
  intros [[_ [_ _ _ _ _ [H1 H2]] _ _ _ _] _ Hw]. split; [|done].
  rewrite entries_length, content_length. pose proof (Z.div_mod (isize x) 16 ltac:(lia)).
  rewrite Nat2Z.inj_div, Z2Nat.id by done. change (Z.of_nat 16) with 16. lia.
Qed.

Section Dir.
Variables (ip : nat) (x : inode) (bl : list Z) (rd : Z -> option (nat -> Z -> M fst (Z * list Z))).
Hypothesis Hlen : (length bl < 29)%nat.
Implicit Types s : fst.

Lemma readi_entry s i de :
  held s bl [] -> open_dir s ip x -> entries (content s x) !! i = Some de ->
  exists s', readi rd ip (16 * Z.of_nat i) de_size s = Ret (de_size, de) s' /\ held s' bl [] /\ same s s'.
Proof.
  intros Hh Hd Hi. destruct (dir_size s ip x Hd) as [Hsz Hmax]. destruct Hd as [[Hok Hf Hdn Hsy Hx Hty] Ht Hw].
  pose proof (lookup_lt_Some _ _ _ Hi) as Hlt. pose proof fsize_bound. unfold de_size.
  destruct (readi_held s bl ip x rd (16 * Z.of_nat i) 16 Hh Hlen Hok Hf Hdn Hx Hty ltac:(lia) ltac:(lia) ltac:(lia))
    as (s' & R & H' & S).
  assert (Ea : avail x (16 * Z.of_nat i) 16 = 16) by (unfold avail; lia). rewrite Ea in R.
  exists s'. split; [|done]. rewrite R. do 2 f_equal. rewrite bytes_content by lia.
  rewrite entries_lookup in Hi by (by rewrite <- entries_length). injection Hi as <-. unfold entry.
  by replace (Z.to_nat (16 * Z.of_nat i)) with (16 * i)%nat by lia.
Qed.

(** One turn of a search through the entries. *)
Lemma next_entry s i : open_dir s ip x -> (i < length (entries (content s x)))%nat ->
  u32 (16 * Z.of_nat i + de_size) = 16 * Z.of_nat (S i).
Proof. intros Hd Hi. destruct (dir_size s ip x Hd). pose proof fsize_bound. unfold de_size. rewrite u32_small; lia. Qed.

(** ** [dirlookup] *)

(** The outcome of [dirlookup] when the entry is at place [r]. *)
Definition lookup_out s (c : list Z) (r : option nat) (o : outcome fst (option (nat * Z))) : Prop :=
  match r with
  | None => exists s', o = Ret None s' /\ held s' bl [] /\ same s s'
  | Some i =>
      match iget_slot (icache s) 1 (de_inum (entry c i)) with
      | Some (np, ic) => exists s', o = Ret (Some (np, 16 * Z.of_nat i)) s' /\ held s' bl [] /\ moved ic s s'
      | None => o = Panic "iget: no inodes"
      end
  end.

Lemma lookup_out_same s s' c r o : same s s' -> lookup_out s' c r o -> lookup_out s c r o.
Proof.
  intros S. assert (E : icache s' = icache s) by (by rewrite (sm_lg _ _ S)). pose proof (same_moved _ _ S) as M.
  unfold lookup_out. rewrite E. destruct r as [i|].
  - destruct (iget_slot _ _ _) as [[np ic]|]; [|done]. intros (s2 & R & H2 & M2). exists s2. split_and!; [done..|].
    by eapply moved_trans.
  - intros (s2 & R & H2 & M2). exists s2. split_and!; [done..|]. by etrans.
Qed.

(** One turn at an entry: on to the next, or the inode found. *)
Lemma lookup_turn s name i de :
  held s bl [] -> open_dir s ip x -> icache_lk s = false -> entries (content s x) !! i = Some de ->
  if names name de then
    match iget_slot (icache s) 1 (de_inum de) with
    | Some (np, ic) => exists s', dirlookup_body rd ip name (16 * Z.of_nat i) s = Ret (inr (Some (np, 16 * Z.of_nat i))) s' /\
        held s' bl [] /\ moved ic s s'
    | None => dirlookup_body rd ip name (16 * Z.of_nat i) s = Panic "iget: no inodes"
    end
  else exists s', dirlookup_body rd ip name (16 * Z.of_nat i) s = Ret (inl (16 * Z.of_nat (S i))) s' /\
    held s' bl [] /\ same s s'.
Proof.
  intros Hh Hd Hl Hi. pose proof (lookup_lt_Some _ _ _ Hi) as Hlt. destruct (dir_size s ip x Hd) as [Hsz _].
  destruct (readi_entry s i de Hh Hd Hi) as (s1 & R1 & H1 & S1).
  assert (Hb : forall o, dirlookup_body rd ip name (16 * Z.of_nat i) s = o <->
    (if is_empty de then ret (inl (16 * Z.of_nat (S i)))
     else if namecmp name (de_name de) =? 0 then
       let! np := iget (idev x) (de_inum de) in ret (inr (Some (np, 16 * Z.of_nat i)))
     else ret (inl (16 * Z.of_nat (S i)))) s1 = o).
  { intros o. unfold dirlookup_body. rewrite (bind_eq _ _ _ _ _ (iat_ok _ _ _ (of_here _ _ _ (od_file _ _ _ Hd)))).
    rewrite (proj2 (Z.ltb_lt _ _)) by lia. rewrite (bind_eq _ _ _ _ _ R1).
    rewrite (next_entry s i Hd Hlt). done. }
  unfold names. destruct (is_empty de) eqn:Ee; cbn [negb andb].
  { exists s1. split; [by apply Hb|done]. }
  destruct (namecmp name (de_name de) =? 0) eqn:En; [|exists s1; split; [by apply Hb|done]].
  pose proof (iget_ok s1 bl [] 1 (de_inum de) H1) as G. rewrite (moved_lk _ _ _ (same_moved _ _ S1)) in G.
  rewrite (moved_icache _ _ _ (same_moved _ _ S1)) in G. specialize (G Hl).
  rewrite (fl_dev _ _ (of_file _ _ _ (od_file _ _ _ Hd))) in Hb.
  destruct (iget_slot (icache s) 1 (de_inum de)) as [[np ic]|].
  - destruct G as (s2 & R2 & H2 & M2). exists s2. split; [|split; [done|]].
    + apply Hb. by rewrite (bind_eq _ _ _ _ _ R2).
    + eapply moved_trans; [by apply same_moved|done].
  - apply Hb. unfold bind. by rewrite G.
Qed.

Lemma lookup_loop name k : forall s i fuel,
  length (entries (content s x)) = (i + k)%nat -> (k < fuel)%nat ->
  held s bl [] -> open_dir s ip x -> icache_lk s = false ->
  lookup_out s (content s x) (Nat.add i <$> find_idx (names name) (drop i (entries (content s x))))
    (loop fuel (dirlookup_body rd ip name) (16 * Z.of_nat i) s).
Proof.
  induction k as [|k IH]; intros s i fuel Hk Hfuel Hh Hd Hl; (destruct fuel as [|fuel]; [lia|]); cbn [loop].
  - rewrite drop_ge by lia. exists s. split; [|done]. destruct (dir_size s ip x Hd) as [Hsz _].
    assert (R : dirlookup_body rd ip name (16 * Z.of_nat i) s = Ret (inr None) s).
    { unfold dirlookup_body. rewrite (bind_eq _ _ _ _ _ (iat_ok _ _ _ (of_here _ _ _ (od_file _ _ _ Hd)))).
      by rewrite (proj2 (Z.ltb_ge _ _)) by lia. }
    by rewrite (bind_eq _ _ _ _ _ R).
  - destruct (lookup_lt_is_Some_2 (entries (content s x)) i) as [de Hi]; [lia|].
    pose proof (lookup_turn s name i de Hh Hd Hl Hi) as T. rewrite (find_idx_drop _ _ _ _ Hi).
    destruct (names name de).
    + cbn [fmap option_fmap option_map]. rewrite Nat.add_0_r. unfold lookup_out.
      assert (Ei : entry (content s x) i = de).
      { rewrite entries_lookup in Hi; [by injection Hi|]. rewrite <- entries_length. lia. }
      rewrite Ei. destruct (iget_slot _ _ _) as [[np ic]|].
      * destruct T as (s1 & R1 & T1). exists s1. split; [|done]. by rewrite (bind_eq _ _ _ _ _ R1).
      * unfold bind. by rewrite T.
    + destruct T as (s1 & R1 & H1 & S1). rewrite (bind_eq _ _ _ _ _ R1).
      specialize (IH s1 (S i) fuel). rewrite (same_content s s1 x S1) in IH.
      apply (lookup_out_same _ s1); [done|].
      assert (E : Nat.add i <$> (S <$> find_idx (names name) (drop (S i) (entries (content s x)))) =
        Nat.add (S i) <$> find_idx (names name) (drop (S i) (entries (content s x)))).
      { destruct (find_idx _ _); cbn; [|done]. f_equal. lia. }
      rewrite E. apply IH; try done; [lia|lia|by apply (same_dir s)|by rewrite (moved_lk _ _ _ (same_moved _ _ S1))].
Qed.

Lemma dirlookup_ok s name :
  held s bl [] -> open_dir s ip x -> icache_lk s = false ->
  lookup_out s (content s x) (dir_find (content s x) name) (dirlookup rd ip name s).
Proof.
  intros Hh Hd Hl. unfold dirlookup.
  rewrite (bind_eq _ _ _ _ _ (iat_ok _ _ _ (of_here _ _ _ (od_file _ _ _ Hd)))), (od_type _ _ _ Hd). cbn [negb Z.eqb T_DIR].
  destruct (dir_size s ip x Hd) as [Hsz _].
  pose proof (lookup_loop name (length (entries (content s x))) s 0 (S (Z.to_nat (isize x / de_size + 1))) eq_refl) as L.
  rewrite drop_0 in L. unfold dir_find. replace (find_idx _ _) with (Nat.add 0 <$> find_idx (names name) (entries (content s x)))
    by (by destruct (find_idx _ _)).
  apply L; try done. unfold de_size. rewrite Hsz, Z.mul_comm, Z.div_mul by lia. lia.
Qed.

(** ** [dirlink] *)

Lemma free_loop k : forall s i fuel,
  length (entries (content s x)) = (i + k)%nat -> (k < fuel)%nat -> held s bl [] -> open_dir s ip x ->
  exists s', loop fuel (dirlink_body rd ip) (16 * Z.of_nat i) s =
      Ret (16 * Z.of_nat (i + default k (find_idx is_empty (drop i (entries (content s x)))))) s' /\
    held s' bl [] /\ same s s'.
Proof.
  induction k as [|k IH]; intros s i fuel Hk Hfuel Hh Hd; (destruct fuel as [|fuel]; [lia|]); cbn [loop];
    pose proof (iat_ok _ _ _ (of_here _ _ _ (od_file _ _ _ Hd))) as Hx; destruct (dir_size s ip x Hd) as [Hsz _].
  - rewrite drop_ge by lia. exists s. split; [|done].
    assert (R : dirlink_body rd ip (16 * Z.of_nat i) s = Ret (inr (16 * Z.of_nat i)) s).
    { unfold dirlink_body. rewrite (bind_eq _ _ _ _ _ Hx). by rewrite (proj2 (Z.ltb_ge _ _)) by lia. }
    rewrite (bind_eq _ _ _ _ _ R). cbn. by rewrite Nat.add_0_r.
  - destruct (lookup_lt_is_Some_2 (entries (content s x)) i) as [de Hi]; [lia|].
    destruct (readi_entry s i de Hh Hd Hi) as (s1 & R1 & H1 & S1). rewrite (find_idx_drop _ _ _ _ Hi).
    assert (R : dirlink_body rd ip (16 * Z.of_nat i) s =
      Ret (if is_empty de then inr (16 * Z.of_nat i) else inl (16 * Z.of_nat (S i))) s1).
    { unfold dirlink_body. rewrite (bind_eq _ _ _ _ _ Hx). rewrite (proj2 (Z.ltb_lt _ _)) by lia.
      rewrite (bind_eq _ _ _ _ _ R1), (next_entry s i Hd) by lia. cbn [negb Z.eqb de_size]. unfold is_empty. by destruct (_ =? 0). }
    rewrite (bind_eq _ _ _ _ _ R). destruct (is_empty de).
    + exists s1. split; [|done]. cbn. by rewrite Nat.add_0_r.
    + destruct (IH s1 (S i) fuel) as (s2 & R2 & H2 & S2); try done; try lia.
      { rewrite (same_content s s1 x S1). lia. }
      { by apply (same_dir s). }
      exists s2. split_and!; [|done|by etrans]. rewrite R2, (same_content s s1 x S1).
      assert (E : forall r : option nat, (S i + default k r)%nat = (i + default (S k) (S <$> r))%nat) by (intros [r|]; cbn; lia).
      by rewrite E.
Qed.

End Dir.

(** ** The map of a directory and the place of an entry *)

Lemma dir_find_lookup c name : Forall byte name -> Forall byte c ->
  match dir_find c name with
  | Some i => (i < length (entries c))%nat /\ dir_map c !! canon name = Some (de_inum (entry c i))
  | None => dir_map c !! canon name = None
  end.
Proof.
  intros Hn Hc. rewrite dir_map_find by done. destruct (dir_find c name) as [i|] eqn:E; [|done].
  pose proof (find_idx_lt _ _ _ E) as Hlt. split; [done|]. cbn [mbind option_bind].
  rewrite entries_lookup; [done|]. by rewrite <- entries_length.
Qed.

Lemma dirent_bytes i name : Forall byte name -> Forall byte (dirent i name).
Proof.
  intros Hn. unfold dirent. apply Forall_app. split; [|by apply strncpy_bytes].
  assert (0 <= u16 i < 65536) by (unfold u16; apply Z.mod_pos_bound; lia).
  pose proof (Z.mod_pos_bound (u16 i) 256 ltac:(lia)).
  assert (0 <= u16 i / 256 < 256) by (split; [apply Z.div_pos; lia|apply Z.div_lt_upper_bound; lia]).
  repeat (apply Forall_cons; split; [unfold byte; lia|]). apply Forall_nil_2.
Qed.

Lemma dirent_length i name : length (dirent i name) = 16%nat.
Proof. unfold dirent. rewrite length_app, strncpy_length. done. Qed.

Lemma dirent_fields i name : 0 < i < 65536 ->
  de_inum (dirent i name) = i /\ canon (de_name (dirent i name)) = canon name.
Proof.
  intros Hi. assert (Eu : u16 i = i) by (apply u16_small; lia). split.
  - unfold de_inum, dirent. cbn [nth app]. rewrite Eu. pose proof (Z.div_mod i 256 ltac:(lia)).
    rewrite Z.add_comm, <- Z.div_mod by lia. done.
  - unfold de_name, dirent. cbn [drop app]. apply cname_pad. lia.
Qed.

Lemma dir_free_le c : (dir_free c <= length (entries c))%nat.
Proof.
  unfold dir_free. destruct (find_idx is_empty (entries c)) as [f|] eqn:E; [|done].
  apply find_idx_lt in E. cbn [default from_option id]. lia.
Qed.

(** A new entry at the first empty place. *)
Lemma dir_map_add c name i :
  length c = (16 * (length c / 16))%nat -> 0 < i < 65536 -> dir_map c !! canon name = None ->
  dir_map (overwrite c (16 * Z.of_nat (dir_free c)) (dirent i name)) = <[canon name := i]> (dir_map c).
Proof.
  intros Hc Hi Hn. destruct (dirent_fields i name Hi) as [E1 E2].
  assert (Hne : is_empty (dirent i name) = false) by (unfold is_empty; rewrite E1; apply Z.eqb_neq; lia).
  unfold dir_map in *. rewrite entries_overwrite; [|done|apply dirent_length|].
  - replace (<[canon name := i]> (entries_map (entries c)))
      with (<[canon name := de_inum (dirent i name)]> (entries_map (entries c))) by (by rewrite E1).
    rewrite <- entries_length. unfold dir_free in *.
    destruct (find_idx is_empty (entries c)) as [f|] eqn:Ef; cbn [default].
    + rewrite decide_True by (by apply find_idx_lt in Ef).
      apply find_idx_Some in Ef as (e & He & Hemp & _). by apply (entries_map_insert _ _ _ f e).
    + rewrite decide_False by lia. by apply entries_map_app.
  - rewrite <- entries_length. apply dir_free_le.
Qed.

(** ** [dirlink] *)

(** The slot [iget] gives is not one that [iput] would free. *)
Lemma iget_slot_at ic0 dv i np ic : iget_slot ic0 dv i = Some (np, ic) ->
  exists y, ic !! np = Some y /\ ilocked y = default false (ilocked <$> ic0 !! np) /\
    (ivalid y = true -> nlink y = 0 -> iref y <> 1).
Proof.
  unfold iget_slot. destruct (find_idx (is_hit dv i) ic0) as [q|] eqn:E.
  - intros [= <- <-]. apply find_idx_Some in E as (z & Hz & Hit & _). exists (more z).
    unfold is_hit in Hit. rewrite list_lookup_alter_eq, Hz. split_and!; [done..|]. cbn. bools. lia.
  - intros (q & Eq & [= -> ->])%fmap_Some. apply find_idx_Some in Eq as (z & Hz & _). exists (fresh_inode dv i z).
    rewrite list_lookup_alter_eq, Hz. split_and!; done.
Qed.

Lemma nblk_entry f : nblk (16 * Z.of_nat f) 16 = 1.
Proof.
  unfold nblk, bsize. cbn [Z.ltb Z.compare]. replace 512 with (16 * 32) by lia.
  rewrite Z.mul_mod_distr_l by lia. pose proof (Z.mod_pos_bound (Z.of_nat f) 32 ltac:(lia)).
  symmetry. apply (Z.div_unique _ _ _ (16 * (Z.of_nat f mod 32) + 15)); lia.
Qed.

Lemma write_done_dir s s' ip x x' src off :
  write_done s s' ip x x' src off 16 -> open_dir s ip x -> off mod 16 = 0 -> open_dir s' ip x'.
Proof.
  intros W [Ho Ht Hw] Hm. split.
  - by apply (write_done_open s s' ip x x' src off 16).
  - by rewrite (to_meta _ _ _ _ _ _ (wd_changed _ _ _ _ _ _ _ _ W)).
  - rewrite (wd_size _ _ _ _ _ _ _ _ W). apply Z.max_case; [done|].
    pose proof (Z.div_mod off 16 ltac:(lia)). replace (off + 16) with ((off / 16 + 1) * 16) by lia. by apply Z.mod_mul.
Qed.

Lemma same_room s s' x l : same s s' -> room s x l -> room s' x l.
Proof.
  intros S. assert (E : forall j, slot s' x j = slot s x j) by (intros j; apply same_slot, S).
  pose proof (moved_sb _ _ _ (same_moved _ _ S)) as Esb.
  assert (En : nfree s' = nfree s).
  { unfold nfree. rewrite Esb. f_equal. apply list_filter_iff. intros b. by rewrite (same_used s s' b S). }
  unfold room, ind_credit. rewrite E, En, (holes_ext s s' x x) by auto. done.
Qed.

Section Link.
Variables (rd : Z -> option (nat -> Z -> M fst (Z * list Z))) (wr : Z -> option (nat -> list Z -> M fst Z)).
Variables (s : fst) (ip : nat) (x : inode) (F : gset Z) (k : nat) (name : list Z) (i : Z).
Hypothesis Hd : open_dir s ip x.
Hypothesis Hl : icache_lk s = false.
Hypothesis Hname : Forall byte name.
Let c := content s x.
Let off := 16 * Z.of_nat (dir_free c).

Lemma dirlink_new :
  ftx s x F (S k) -> IBLOCK (inum x) (sb s) ∈ F -> 0 < i < 65536 -> dir_map c !! canon name = None ->
  off + 16 <= MAXFILE * bsize -> room s x (visit off 16) ->
  exists s' x' F', dirlink rd wr ip name i s = Ret 0 s' /\ ftx s' x' F' k /\ open_dir s' ip x' /\
    changed true s s' ip x x' /\ dir_map (content s' x') = <[canon name := i]> (dir_map c).
Proof.
  intros Hft Hib Hi Hn Hend Hroom. pose proof (of_ok _ _ _ (od_file _ _ _ Hd)) as Hok.
  pose proof (dir_find_lookup c name Hname (content_bytes s x Hok)) as Hfind.
  destruct (dir_find c name) as [j|] eqn:Ef; [destruct Hfind; congruence|].
  destruct (dir_size s ip x Hd) as [Hsz Hmax]. fold c in Hsz. pose proof (dir_free_le c) as Hfr.
  unfold dirlink.
  destruct (tx_run (dirlookup rd ip name) s [] F _ (fun r _ => r = None) (fun _ => []) (ft_tx _ _ _ _ Hft))
    as (r & s1 & R1 & T1 & S1 & ->).
  { intros bl Hh Hlen. pose proof (dirlookup_ok ip x bl rd Hlen s name Hh Hd Hl) as L. fold c in L. rewrite Ef in L.
    destruct L as (s1 & R1 & H1 & S1). by exists None, s1. }
  rewrite (bind_eq _ _ _ _ _ R1). pose proof (same_dir _ _ _ _ S1 Hd) as Hd1.
  rewrite (bind_eq _ _ _ _ _ (iat_ok _ _ _ (of_here _ _ _ (od_file _ _ _ Hd1)))).
  destruct (tx_run (loop (S (Z.to_nat (isize x / de_size + 1))) (dirlink_body rd ip) 0) s1 [] F _ (fun r _ => r = off) (fun _ => []) T1)
    as (r & s2 & R2 & T2 & S2 & ->).
  { intros bl Hh Hlen. destruct (free_loop ip x bl rd Hlen (length (entries (content s1 x))) s1 0
      (S (Z.to_nat (isize x / de_size + 1))) eq_refl) as (s2 & R2 & H2 & S2); try done.
    { rewrite (same_content s s1 x S1). fold c. unfold de_size. rewrite Hsz, Z.mul_comm, Z.div_mul by lia. lia. }
    rewrite drop_0, (same_content s s1 x S1) in R2. by exists off, s2. }
  rewrite (bind_eq _ _ _ _ _ R2). assert (S12 : same s s2) by (by etrans).
  pose proof (same_dir _ _ _ _ S12 Hd) as Hd2. pose proof (same_content s s2 x S12) as Ec2. fold c in Ec2.
  pose proof Hd2 as [[Ok2 Hf2 Hdn2 Hsy2 Hx2 Hty2] _ _].
  destruct (writei_ok s2 ip x F k off 16 (dirent i name) wr) as (s' & x' & F' & R & Hft' & HF' & W); try done.
  { unfold off. rewrite nblk_entry. apply (ftx_same s s2 x F (1 + k)); [exact T2|done|exact Hft]. }
  { by rewrite (moved_sb _ _ _ (same_moved _ _ S12)). }
  { unfold off. lia. }
  { by rewrite dirent_length. }
  { by apply dirent_bytes. }
  { by apply (same_room s). }
  change (writei wr ip (dirent i name) off 16 s2) with (writei wr ip (dirent i name) off de_size s2) in R.
  rewrite (bind_eq _ _ _ _ _ R). exists s', x', F'. split; [done|]. split; [done|].
  assert (Hm : off mod 16 = 0) by (unfold off; rewrite Z.mul_comm; by apply Z.mod_mul).
  split; [by apply (write_done_dir s2 s' ip x x' (dirent i name) off)|].
  pose proof (od_file _ _ _ Hd) as [_ Hf _ _ Hx _]. split.
  { eapply touched_trans; [done|done| |apply W]. apply changed_weaken. by apply same_touched. }
  rewrite (overwrite_content s2 s' ip x x' (dirent i name) off 16 W (fl_size _ _ Hf2)), Ec2; rewrite ?dirent_length; try done; [|unfold off; lia].
  rewrite take_ge by (by rewrite dirent_length). apply dir_map_add; [|done..].
  rewrite <- entries_length. unfold c in *. rewrite content_length. lia.
Qed.

(** The name is there already: the inode found is let go of again. *)
Lemma dirlink_old j np ic :
  tx s [] F k -> dir_find c name = Some j -> iget_slot (icache s) 1 (de_inum (entry c j)) = Some (np, ic) ->
  (forall y, icache s !! np = Some y -> ilocked y = false) ->
  exists s', dirlink rd wr ip name i s = Ret (-1) s' /\ tx s' [] F k /\ moved (alter less np ic) s s'.
Proof.
  intros Ht Ef Eg Hnp. destruct (iget_slot_at _ _ _ _ _ Eg) as (y & Hy & Hlk & Hkeep).
  apply moved_tx; [|done]. intros bl Hh Hlen.
  pose proof (dirlookup_ok ip x bl rd Hlen s name Hh Hd Hl) as L. fold c in L. rewrite Ef in L. unfold lookup_out in L.
  rewrite Eg in L. destruct L as (s1 & R1 & H1 & M1). unfold dirlink. rewrite (bind_eq _ _ _ _ _ R1).
  pose proof (moved_icache _ _ _ M1) as E1.
  destruct (iput_ok s1 bl np y) as (s2 & R2 & H2 & M2).
  { done. }
  { by rewrite (moved_lk _ _ _ M1). }
  { by rewrite E1. }
  { rewrite Hlk. destruct (icache s !! np) as [z|] eqn:Ez; [by apply Hnp|done]. }
  { done. }
  rewrite (bind_eq _ _ _ _ _ R2). exists s2. split; [done|]. split; [done|].
  rewrite E1 in M2. rewrite (alter_insert _ _ _ _ Hy). by eapply moved_trans.
Qed.

End Link.
