(* ===== verification/FsPath.v ===== *)
(** * Paths

    The elements of a path, the tree of directories on disk, and [namex] as a
    walk through it.  While it walks, [namex] holds one reference: the counts
    of the cache are those of the start and one more at the inode it is at. *)

From stdpp Require Import gmap.
From S2P Require Import Prelude Locks Bio Log LogFacts Fs FsTx FsBlocks FsInode FsFile FsRW FsCache FsDir.
Import Bio BioFacts Log Fs.

(** ** The elements of a path *)

(** The pieces between slashes; those that are not empty count, cut to the
    length of a name. *)
Fixpoint pieces (path : list Z) : list (list Z) :=
  match path with
  | [] => [[]]
  | c :: path' =>
      if c =? slash then [] :: pieces path'
      else match pieces path' with e :: r => (c :: e) :: r | [] => [[c]] end
  end.
Definition full (e : list Z) : bool := match e with [] => false | _ => true end.
Definition elements (path : list Z) : list (list Z) := take DIRSIZ <$> List.filter full (pieces path).

Lemma skip_elements path : elements (skip_slashes path) = elements path.
Proof.
  induction path as [|c path IH]; [done|]. cbn [skip_slashes]. destruct (c =? slash) eqn:E; [|done].
  rewrite IH. unfold elements at 2. cbn [pieces]. by rewrite E.
Qed.

Lemma skip_head path c p : skip_slashes path = c :: p -> (c =? slash) = false.
Proof.
  induction path as [|d path IH]; [done|]. cbn [skip_slashes]. destruct (d =? slash) eqn:E; [done|]. by intros [= <- <-].
Qed.

Lemma skip_length path : (length (skip_slashes path) <= length path)%nat.
Proof. induction path as [|c path IH]; [done|]. cbn [skip_slashes]. destruct (c =? slash); cbn; lia. Qed.

(** The first piece and the rest of the path. *)
Lemma element_pieces path : exists r, pieces path = Datatypes.fst (element path) :: r /\
  List.filter full (pieces (snd (element path))) = List.filter full r /\ (length (snd (element path)) <= length path)%nat.
Proof.
  induction path as [|c path IH]; [by exists []|]. cbn [element pieces]. destruct (c =? slash) eqn:E.
  - exists (pieces path). cbn [Datatypes.fst snd]. split; [done|]. split; [|done]. cbn [pieces]. rewrite E. done.
  - destruct IH as (r & Er & Ef & Hl). exists r. rewrite Er. destruct (element path) as [e t]. cbn [Datatypes.fst snd] in *.
    split_and!; [done..|]. cbn. lia.
Qed.

Lemma skipelem_elements path :
  match skipelem path with
  | None => elements path = []
  | Some (name, rest) => elements path = name :: elements rest /\ (length rest < length path)%nat /\
      (rest = [] <-> elements rest = [])
  end.
Proof.
  unfold skipelem. pose proof (skip_elements path) as E. pose proof (skip_length path) as Hl.
  destruct (skip_slashes path) as [|c p] eqn:Ep; [by rewrite <- E|].
  pose proof (skip_head _ _ _ Ep) as Hc. rewrite <- E. clear E.
  cbn [element]. rewrite Hc. destruct (element_pieces p) as (r & Er & Ef & Hle).
  destruct (element p) as [e t] eqn:Et. cbn [Datatypes.fst snd] in *.
  pose proof (skip_length t) as Hs. split; [|split].
  - rewrite skip_elements. unfold elements. cbn [pieces]. rewrite Hc, Er. cbn [List.filter full fmap list_fmap].
    f_equal. by rewrite Ef.
  - cbn in Hl. lia.
  - split; [by intros ->|]. intros E. destruct (skip_slashes t) as [|d q] eqn:Eq; [done|].
    pose proof (skip_head _ _ _ Eq) as Hd. unfold elements in E. cbn [pieces] in E. rewrite Hd in E.
    by destruct (pieces q).
Qed.

Lemma skip_bytes path : Forall byte path -> Forall byte (skip_slashes path).
Proof.
  induction path as [|c path IH]; [done|]. intros H. cbn [skip_slashes]. destruct (c =? slash); [|done].
  apply IH. by apply Forall_cons in H as [_ ?].
Qed.

Lemma element_bytes path : Forall byte path -> Forall byte (Datatypes.fst (element path)) /\ Forall byte (snd (element path)).
Proof.
  induction path as [|c path IH]; intros H; [done|]. cbn [element]. destruct (c =? slash); [done|].
  apply Forall_cons in H as [Hc H]. destruct (IH H) as [H1 H2]. destruct (element path) as [e t]. cbn [Datatypes.fst snd] in *.
  split; [by apply Forall_cons|done].
Qed.

Lemma skipelem_bytes path name rest : Forall byte path -> skipelem path = Some (name, rest) -> Forall byte name /\ Forall byte rest.
Proof.
  intros H. unfold skipelem. pose proof (skip_bytes path H) as Hs. destruct (skip_slashes path) as [|c p]; [done|].
  destruct (element_bytes _ Hs) as [H1 H2]. destruct (element (c :: p)) as [e t]. intros [= <- <-].
  split; [by apply Forall_take|by apply skip_bytes].
Qed.

(** ** The tree on disk *)

Definition node0 (i : Z) : inode :=
  {| idev := 1; inum := i; iref := 0; ilocked := false; ivalid := true; type := 0; major := 0;
     minor := 0; nlink := 0; isize := 0; addrs := [] |}.
Definition dnode (s : fst) (i : Z) : inode := ondisk s i (node0 i).

(** What each inode number denotes: the map of a directory, or nothing. *)
Definition tree (s : fst) (i : Z) : option (gmap (list Z) Z) :=
  if type (dnode s i) =? T_DIR then Some (dir_map (content s (dnode s i))) else None.

Definition alive (s : fst) (i : Z) : Prop :=
  0 <= i < ninodes (sb s) /\ type (dnode s i) <> 0 /\ nlink (dnode s i) <> 0.

(** A directory on disk: whole entries, each the number of an inode in use. *)
Record dir_ok (s : fst) (i : Z) : Prop := {
  do_file : file_ok s (dnode s i);
  do_dense : dense s (dnode s i);
  do_whole : isize (dnode s i) mod 16 = 0;
  do_alive : forall name n, dir_map (content s (dnode s i)) !! name = Some n -> alive s n }.
Record tree_ok (s : fst) : Prop := {
  tr_ok : fs_ok s;
  tr_lk : icache_lk s = false;
  tr_dirs : forall i, alive s i -> type (dnode s i) = T_DIR -> dir_ok s i }.

(** The walk through the directories. *)
Fixpoint walk (t : Z -> option (gmap (list Z) Z)) (i : Z) (ns : list (list Z)) : option Z :=
  match ns with
  | [] => Some i
  | n :: ns' => m ← t i; j ← m !! canon n; walk t j ns'
  end.
(** To the directory that holds the last element. *)
Fixpoint walk_parent (t : Z -> option (gmap (list Z) Z)) (i : Z) (ns : list (list Z)) : option (Z * list Z) :=
  match ns with
  | [] => None
  | [n] => _ ← t i; Some (i, n)
  | n :: ns' => m ← t i; j ← m !! canon n; walk_parent t j ns'
  end.

Lemma moved_slot ic s s' x j : moved ic s s' -> slot s' x j = slot s x j.
Proof. intros M. apply (same_slot (with_icache ic s) s' x j). apply M. Qed.
Lemma moved_content ic s s' x : moved ic s s' -> content s' x = content s x.
Proof. intros M. apply (bytes_same (with_icache ic s) s'). apply M. Qed.
Lemma moved_file ic s s' x : moved ic s s' -> file_ok s x -> file_ok s' x.
Proof. intros M H. apply (same_file_ok (with_icache ic s)); [exact M|]. by apply file_ok_icache. Qed.
Lemma moved_dense ic s s' x : moved ic s s' -> dense s x -> dense s' x.
Proof. intros M H o Ho. rewrite (moved_slot _ _ _ _ _ M). by apply H. Qed.
Lemma moved_ondisk ic s s' i z : moved ic s s' -> ondisk s' i z = ondisk s i z.
Proof. intros M. unfold ondisk. by rewrite (moved_sb _ _ _ M), (moved_val _ _ _ _ M). Qed.
Lemma moved_dnode ic s s' i : moved ic s s' -> dnode s' i = dnode s i.
Proof. apply moved_ondisk. Qed.
Lemma moved_alive ic s s' i : moved ic s s' -> alive s' i <-> alive s i.
Proof. intros M. unfold alive. by rewrite (moved_dnode _ _ _ _ M), (moved_sb _ _ _ M). Qed.
Lemma moved_tree ic s s' i : moved ic s s' -> tree s' i = tree s i.
Proof. intros M. unfold tree. by rewrite (moved_dnode _ _ _ _ M), (moved_content _ _ _ _ M). Qed.

Lemma moved_tree_ok ic s s' : moved ic s s' -> tree_ok s -> tree_ok s'.
Proof.
  intros M [Hok Hl Hd]. split; [by apply (moved_same_fs _ _ _ M)|by rewrite (moved_lk _ _ _ M)|]. intros i Hi Ht.
  rewrite (moved_alive _ _ _ _ M) in Hi. rewrite (moved_dnode _ _ _ _ M) in Ht. destruct (Hd i Hi Ht) as [H1 H2 H3 H4].
  split; rewrite (moved_dnode _ _ _ _ M).
  - by apply (moved_file _ _ _ _ M).
  - by apply (moved_dense _ _ _ _ M).
  - done.
  - intros name n. rewrite (moved_content _ _ _ _ M), (moved_alive _ _ _ _ M). apply H4.
Qed.

Lemma walk_ext t t' ns : (forall i, t i = t' i) -> forall i, walk t i ns = walk t' i ns.
Proof.
  intros H. induction ns as [|n ns IH]; intros i; [done|]. cbn [walk]. rewrite H. destruct (t' i) as [m|]; [|done].
  cbn [mbind option_bind]. destruct (m !! canon n) as [j|]; [apply IH|done].
Qed.

(** ** The cache while a path is walked *)

(** A slot that agrees with the disk. *)
Definition slot_ok (s : fst) (x : inode) : Prop :=
  0 < iref x -> ivalid x = true -> forall z, ondisk s (inum x) z = dinode_of x z.

(** Every slot agrees with the disk, and only slot [lk] is locked. *)
Definition cache_ok (s : fst) (lk : option nat) : Prop :=
  forall q x, icache s !! q = Some x -> slot_ok s x /\ ilocked x = bool_decide (lk = Some q).

Definition counts (ic : list inode) : list Z := iref <$> ic.

Lemma counts_insert ic q x y : ic !! q = Some x -> counts (<[q := y]> ic) = <[q := iref y]> (counts ic).
Proof. intros _. unfold counts. by rewrite list_fmap_insert. Qed.
Lemma counts_lookup ic q : counts ic !! q = iref <$> ic !! q.
Proof. unfold counts. apply list_lookup_fmap. Qed.

Lemma moved_slot_ok ic s s' x : moved ic s s' -> slot_ok s' x <-> slot_ok s x.
Proof. intros M. unfold slot_ok. split; intros H H1 H2 z; rewrite <- (H H1 H2 z); [symmetry|]; apply (moved_ondisk _ _ _ _ _ M). Qed.

(** Counts up and down. *)
Lemma succ_pred q (l : list Z) : alter Z.pred q (alter Z.succ q l) = l.
Proof.
  apply list_eq. intros p. destruct (decide (p = q)) as [->|Hne].
  - rewrite !list_lookup_alter_eq. destruct (l !! q); cbn; [|done]. by rewrite Z.pred_succ.
  - by rewrite !list_lookup_alter_ne.
Qed.
Lemma pred_after p q (l : list Z) : alter Z.pred p (alter Z.succ q (alter Z.succ p l)) = alter Z.succ q l.
Proof.
  destruct (decide (p = q)) as [->|Hne]; [by rewrite succ_pred|].
  assert (E : alter Z.succ q (alter Z.succ p l) = alter Z.succ p (alter Z.succ q l)); [|by rewrite E, succ_pred].
  apply list_eq. intros r. destruct (decide (r = p)), (decide (r = q)); subst; try done;
    repeat (rewrite list_lookup_alter_eq || rewrite list_lookup_alter_ne by done); done.
Qed.
Lemma counts_alter (f : Z -> Z) ic q x y : ic !! q = Some x -> iref y = f (iref x) -> counts (<[q := y]> ic) = alter f q (counts ic).
Proof.
  intros Hx Hy. unfold counts. rewrite list_fmap_insert, Hy.
  assert (E : (iref <$> ic) !! q = Some (iref x)) by (by rewrite list_lookup_fmap, Hx).
  symmetry. by apply alter_insert.
Qed.

(** Two slots out of use: one is left when [namex] holds a reference. *)
Definition two_free (R : list Z) : Prop := exists p q, p <> q /\ R !! p = Some 0 /\ R !! q = Some 0.
Lemma two_free_one R ip : two_free R -> exists q, alter Z.succ ip R !! q = Some 0.
Proof.
  intros (p & q & Hne & Hp & Hq). destruct (decide (p = ip)) as [->|]; [exists q|exists p]; by rewrite list_lookup_alter_ne.
Qed.

Lemma iget_slot_step ic dv n np ic' : iget_slot ic dv n = Some (np, ic') ->
  exists x z, ic !! np = Some x /\ ic' = <[np := z]> ic /\ in_use dv n z /\ iref z = Z.succ (iref x) /\
    (z = more x /\ in_use dv n x \/ z = fresh_inode dv n x /\ iref x = 0).
Proof.
  unfold iget_slot. destruct (find_idx (is_hit dv n) ic) as [q|] eqn:E.
  - intros [= <- <-]. apply find_idx_Some in E as (x & Hx & Hit & _). apply is_hit_in_use in Hit.
    exists x, (more x). rewrite (alter_insert _ _ _ _ Hx). split_and!; auto. unfold in_use in *. cbn. lia.
  - intros (q & Eq & [= -> ->])%fmap_Some. apply find_idx_Some in Eq as (x & Hx & Hfr & _).
    unfold is_free in Hfr. apply Z.eqb_eq in Hfr.
    exists x, (fresh_inode dv n x). rewrite (alter_insert _ _ _ _ Hx). split_and!; auto; [|cbn; lia]. unfold in_use. cbn. lia.
Qed.
Lemma iget_slot_free ic dv n q : counts ic !! q = Some 0 -> is_Some (iget_slot ic dv n).
Proof.
  rewrite counts_lookup. intros (x & Hx & Hr)%fmap_Some. unfold iget_slot.
  destruct (find_idx (is_hit dv n) ic) as [p|]; [done|]. apply fmap_is_Some.
  destruct (find_idx is_free ic) as [p|] eqn:E; [done|]. apply find_idx_None in E. rewrite Forall_lookup in E.
  specialize (E q x Hx). unfold is_free in E. apply Z.eqb_neq in E. congruence.
Qed.

(** A change of one slot. *)
Lemma cache_ok_insert s s' lk lk' q x y :
  moved (<[q := y]> (icache s)) s s' -> cache_ok s lk -> icache s !! q = Some x -> slot_ok s y ->
  ilocked y = bool_decide (lk' = Some q) -> (forall p, p <> q -> lk = Some p <-> lk' = Some p) -> cache_ok s' lk'.
Proof.
  intros M H Hx Hy Hlk Hother p z Hz. rewrite (moved_icache _ _ _ M) in Hz. rewrite (moved_slot_ok _ _ _ _ M).
  destruct (decide (p = q)) as [->|Hne].
  - rewrite list_lookup_insert_eq in Hz by (by eapply lookup_lt_Some). injection Hz as <-. done.
  - rewrite list_lookup_insert_ne in Hz by done. destruct (H p z Hz) as [Hs Hl]. split; [done|]. rewrite Hl.
    apply bool_decide_ext, Hother, Hne.
Qed.

(** ** One step of the walk *)

Section Walk.
Variables (bl : list Z) (rd : Z -> option (nat -> Z -> M fst (Z * list Z))).
Hypothesis Hlen : (length bl < 29)%nat.
Implicit Types (s : fst) (ip : nat) (x y : inode) (i : Z).

(** The inode locked and read. *)
Record node_at s ip y i : Prop := {
  na_here : icache s !! ip = Some y;
  na_cached : in_use 1 i y;
  na_valid : ivalid y = true;
  na_disk : forall z, ondisk s i z = dinode_of y z }.

Lemma loaded_node s x i : slot_ok s x -> in_use 1 i x ->
  in_use 1 i (loaded s x) /\ ivalid (loaded s x) = true /\ ilocked (loaded s x) = true /\ iref (loaded s x) = iref x /\
  forall z, ondisk s i z = dinode_of (loaded s x) z.
Proof using.
  intros Hs (Hr & Hd & <-). unfold loaded. destruct (ivalid x) eqn:Ev.
  - split_and!; try done. intros z. by rewrite (Hs Hr Ev z).
  - by split_and!.
Qed.

Lemma lock_node s ip x i :
  held s bl [] -> tree_ok s -> cache_ok s None -> icache s !! ip = Some x -> in_use 1 i x -> alive s i ->
  exists s' y, ilock (Some ip) s = Ret tt s' /\ held s' bl [] /\ moved (<[ip := y]> (icache s)) s s' /\
    cache_ok s' (Some ip) /\ node_at s' ip y i /\ iref y = iref x.
Proof.
  intros Hh Ht Hc Hx Hca (Hi & Hty & _). destruct (Hc ip x Hx) as [Hs Hl]. rewrite bool_decide_false in Hl by done.
  destruct (loaded_node s x i Hs Hca) as (Cy & Vy & Ly & Ry & Dy). pose proof Hca as (Hr & Hd & Ei).
  destruct (ilock_ok s bl ip x) as (s' & R & H' & M); try done.
  - apply Ht.
  - lia.
  - by rewrite Ei.
  - unfold dnode in Hty. rewrite Dy in Hty. done.
  - exists s', (loaded s x). split; [done|]. split; [done|]. split; [done|]. split; [|split; [|done]].
    + apply (cache_ok_insert s s' None (Some ip) ip x (loaded s x) M Hc Hx).
      * intros _ _ z. destruct Cy as (_ & _ & ->). apply Dy.
      * rewrite Ly. symmetry. by apply bool_decide_true.
      * intros p Hp. split; [done|congruence].
    + split; try done.
      * rewrite (moved_icache _ _ _ M). apply list_lookup_insert_eq. by eapply lookup_lt_Some.
      * intros z. rewrite (moved_ondisk _ _ _ _ _ M). apply Dy.
Qed.

Lemma node_fields s ip y i : node_at s ip y i ->
  type (dnode s i) = type y /\ nlink (dnode s i) = nlink y /\ content s y = content s (dnode s i) /\
  (type y = T_DIR -> tree s i = Some (dir_map (content s y))) /\ (type y <> T_DIR -> tree s i = None).
Proof using.
  intros [_ (_ & _ & <-) _ D]. unfold tree. unfold dnode. rewrite D. split_and!; try done.
  - intros Ht. change (type (dinode_of y (node0 (inum y)))) with (type y). by rewrite Ht.
  - intros Ht. change (type (dinode_of y (node0 (inum y)))) with (type y). by rewrite (proj2 (Z.eqb_neq _ _) Ht).
Qed.

Lemma node_dir s ip y i :
  tree_ok s -> node_at s ip y i -> alive s i -> type y = T_DIR -> open_dir s ip y.
Proof using.
  intros Ht Hn Ha Hty. destruct (node_fields s ip y i Hn) as (Et & _). rewrite Hty in Et.
  destruct (tr_dirs _ Ht i Ha Et) as [Hf Hdn Hw _]. destruct Hn as [Hx (Hr & Hdv & <-) Hv D].
  assert (Ed : dnode s (inum y) = dinode_of y (node0 (inum y))) by apply D. rewrite Ed in *.
  split; [|done..]. split; try done.
  - apply Ht.
  - apply (file_ok_meta s (dinode_of y (node0 (inum y)))); try done.
    destruct (fl_fields _ _ Hf) as [? ? ? ? ? ? ?]. by split.
  - rewrite Hty. done.
Qed.

(** [iget] from the cache while slot [lk] is locked. *)
Lemma take_node s s' lk n np ic :
  cache_ok s lk -> iget_slot (icache s) 1 n = Some (np, ic) -> moved ic s s' ->
  cache_ok s' lk /\ counts (icache s') = alter Z.succ np (counts (icache s)) /\
  (exists z, icache s' !! np = Some z /\ in_use 1 n z) /\
  (forall ip y i, node_at s ip y i -> exists y', node_at s' ip y' i).
Proof using.
  clear bl rd Hlen. intros Hc Hg M. destruct (iget_slot_step _ _ _ _ _ Hg) as (x & z & Hx & -> & Hz & Hr & Hcase).
  pose proof (moved_icache _ _ _ M) as E. destruct (Hc np x Hx) as [Hsx Hlx].
  assert (Hsz : slot_ok s z /\ ilocked z = ilocked x).
  { destruct Hcase as [[-> (Hrx & _)]|[-> _]]; (split; [|done]).
    - intros _ Hv. by apply Hsx.
    - intros _ Hv. done. }
  split; [|split; [|split]].
  - apply (cache_ok_insert s s' lk lk np x z M Hc Hx); [apply Hsz| |done]. by rewrite (proj2 Hsz), Hlx.
  - rewrite E. by apply (counts_alter Z.succ _ _ x).
  - exists z. rewrite E. split; [|done]. apply list_lookup_insert_eq. by eapply lookup_lt_Some.
  - intros ip y i [Hy Hu Hv Hd]. destruct (decide (ip = np)) as [->|Hne].
    + assert (y = x) as -> by congruence. destruct Hcase as [[-> _]|[_ H0]]; [|unfold in_use in Hu; lia].
      exists (more x). split; try done.
      * rewrite E. apply list_lookup_insert_eq. by eapply lookup_lt_Some.
      * unfold in_use in *. cbn. lia.
      * intros w. rewrite (moved_ondisk _ _ _ _ _ M). apply Hd.
    + exists y. split; try done.
      * rewrite E. by rewrite list_lookup_insert_ne by done.
      * intros w. rewrite (moved_ondisk _ _ _ _ _ M). apply Hd.
Qed.

Lemma put_node s ip x i :
  held s bl [] -> tree_ok s -> cache_ok s None -> icache s !! ip = Some x -> in_use 1 i x -> alive s i ->
  exists s', iput ip s = Ret tt s' /\ held s' bl [] /\ moved (<[ip := less x]> (icache s)) s s' /\ cache_ok s' None /\
    counts (icache s') = alter Z.pred ip (counts (icache s)).
Proof using.
  intros Hh Ht Hc Hx Hu Ha. destruct (Hc ip x Hx) as [Hs Hl]. pose proof Hu as (Hr & Hd & Ei).
  destruct (iput_ok s bl ip x) as (s' & R & H' & M); try done.
  - apply Ht.
  - intros Hv Hn. exfalso. destruct Ha as (_ & _ & Hna). apply Hna. unfold dnode. by rewrite <- Ei, (Hs Hr Hv).
  - exists s'. split; [done|]. split; [done|]. split; [done|]. split.
    + apply (cache_ok_insert s s' None None ip x (less x) M Hc Hx); try done. intros _ Hv. by apply Hs.
    + rewrite (moved_icache _ _ _ M). by apply (counts_alter Z.pred _ _ x).
Qed.

(** Letting go of the locked inode. *)
Lemma unlock_node s ip y i :
  cache_ok s (Some ip) -> node_at s ip y i ->
  let s' := with_icache (<[ip := set_ilocked false y]> (icache s)) s in
  iunlock (Some ip) s = Ret tt s' /\ cache_ok s' None /\ counts (icache s') = counts (icache s).
Proof using.
  clear bl rd Hlen. intros Hc [Hy (Hr & Hd & Ei) Hv D]. destruct (Hc ip y Hy) as [Hs Hl]. rewrite bool_decide_true in Hl by done. split; [|split].
  - apply iunlock_ok; [done..|lia].
  - apply (cache_ok_insert s _ (Some ip) None ip y (set_ilocked false y)); try done.
    { unfold moved. reflexivity. }
    intros p Hp. split; [congruence|done].
  - cbn [icache with_icache]. rewrite (counts_insert _ _ y) by done. cbn [iref set_ilocked].
    apply list_insert_id. by rewrite counts_lookup, Hy.
Qed.

Lemma unlockput_node s ip y i :
  held s bl [] -> tree_ok s -> cache_ok s (Some ip) -> node_at s ip y i -> alive s i ->
  exists s', iunlockput (Some ip) s = Ret tt s' /\ held s' bl [] /\
    moved (<[ip := less (set_ilocked false y)]> (icache s)) s s' /\ cache_ok s' None /\
    counts (icache s') = alter Z.pred ip (counts (icache s)).
Proof using.
  intros Hh Ht Hc Hn Ha. destruct (unlock_node s ip y i Hc Hn) as (R1 & Hc1 & E1). set (s1 := with_icache _ s) in *.
  assert (M1 : moved (icache s1) s s1) by (unfold moved; reflexivity).
  pose proof (lookup_lt_Some _ _ _ (na_here _ _ _ _ Hn)) as Hlt.
  destruct (put_node s1 ip (set_ilocked false y) i) as (s2 & R2 & H2 & M2 & Hc2 & E2); try done.
  - by apply (moved_tree_ok _ _ _ M1).
  - by apply list_lookup_insert_eq.
  - apply Hn.
  - exists s2. split; [unfold iunlockput; by rewrite (bind_eq _ _ _ _ _ R1)|]. split; [done|]. split; [|split; [done|congruence]].
    cbn [icache with_icache s1] in M2. rewrite list_insert_insert_eq in M2. exact (moved_trans _ _ _ _ _ M1 M2).
Qed.

(** ** [namex] *)

Variable R : list Z.
Hypothesis HR : Forall (fun r => 0 <= r) R.
Hypothesis Hfree : two_free R.

(** At inode [i], with a reference to it and those of [R]. *)
Record at_node s ip i : Prop := {
  an_tree : tree_ok s;
  an_cache : cache_ok s None;
  an_here : exists x, icache s !! ip = Some x /\ idev x = 1 /\ inum x = i;
  an_alive : alive s i;
  an_counts : counts (icache s) = alter Z.succ ip R }.

Lemma node_use s ip x i : at_node s ip i -> icache s !! ip = Some x -> in_use 1 i x.
Proof using HR.
  clear bl rd Hlen Hfree. intros [_ _ (z & Hz & Hd & Hi) _ Hc] Hx. assert (z = x) as -> by congruence. split; [|done].
  assert (E : counts (icache s) !! ip = Some (iref x)) by (by rewrite counts_lookup, Hx).
  rewrite Hc, list_lookup_alter_eq in E. apply fmap_Some in E as (r & Hr & ->).
  rewrite Forall_lookup in HR. specialize (HR ip r Hr). lia.
Qed.

(** Nothing found: the reference was given back. *)
Definition gave_up {A} s (o : outcome fst A) (a : A) : Prop :=
  exists s', o = Ret a s' /\ held s' bl [] /\ moved (icache s') s s' /\ cache_ok s' None /\ counts (icache s') = R.
(** Arrived at inode [j]. *)
Definition arrived {A} s (o : outcome fst A) (a : nat -> A) (j : Z) : Prop :=
  exists np s', o = Ret (a np) s' /\ held s' bl [] /\ moved (icache s') s s' /\ at_node s' np j.

Lemma moved_self ic s s' : moved ic s s' -> moved (icache s') s s'.
Proof using. intros M. by rewrite (moved_icache _ _ _ M). Qed.

(** From the locked inode [ip]: give up. *)
Lemma turn_back {A} s s1 ip y i (a : A) :
  moved (icache s1) s s1 -> held s1 bl [] -> tree_ok s1 -> cache_ok s1 (Some ip) -> node_at s1 ip y i -> alive s1 i ->
  counts (icache s1) = alter Z.succ ip R -> gave_up s ((iunlockput (Some ip) ;;; ret a) s1) a.
Proof using.
  intros M H1 Ht Hc Hn Ha Hcn. destruct (unlockput_node s1 ip y i H1 Ht Hc Hn Ha) as (s2 & R2 & H2 & M2 & Hc2 & E2).
  exists s2. split; [by rewrite (bind_eq _ _ _ _ _ R2)|]. split; [done|].
  split; [apply moved_self in M2; by eapply moved_trans|]. split; [done|]. by rewrite E2, Hcn, succ_pred.
Qed.

(** The next inode found, the locked one let go of. *)
Lemma go_on {A} s s1 s2 ip y i n np ic (a : nat -> A) :
  moved (icache s1) s s1 -> tree_ok s1 -> cache_ok s1 (Some ip) -> node_at s1 ip y i -> alive s1 i -> alive s1 n ->
  counts (icache s1) = alter Z.succ ip R ->
  iget_slot (icache s1) 1 n = Some (np, ic) -> moved ic s1 s2 -> held s2 bl [] ->
  arrived s ((iunlockput (Some ip) ;;; ret (a np)) s2) a n.
Proof.
  intros M Ht Hc Hn Ha Han Hcn Hg M2 H2.
  destruct (take_node s1 s2 (Some ip) n np ic Hc Hg M2) as (Hc2 & E2 & (z & Hz & Hu) & Hkeep).
  destruct (Hkeep ip y i Hn) as (y2 & Hn2). pose proof (moved_tree_ok _ _ _ M2 Ht) as Ht2.
  destruct (unlockput_node s2 ip y2 i H2 Ht2 Hc2 Hn2) as (s3 & R3 & H3 & M3 & Hc3 & E3).
  { by rewrite (moved_alive _ _ _ _ M2). }
  assert (M12 : moved (icache s3) s1 s3) by (apply (moved_self _ _ _ (moved_trans _ _ _ _ _ M2 M3))).
  exists np, s3. split; [by rewrite (bind_eq _ _ _ _ _ R3)|]. split; [done|]. split; [by eapply moved_trans|]. split.
  - by apply (moved_tree_ok _ _ _ M12).
  - done.
  - rewrite (moved_icache _ _ _ M3). destruct Hu as (_ & Hd & Hi). destruct (decide (np = ip)) as [->|Hne].
    + exists (less (set_ilocked false y2)). rewrite list_lookup_insert_eq by (by eapply lookup_lt_Some).
      pose proof (na_here _ _ _ _ Hn2). assert (y2 = z) as -> by congruence. done.
    + exists z. by rewrite list_lookup_insert_ne by done.
  - by rewrite (moved_alive _ _ _ _ M12).
  - by rewrite E3, E2, Hcn, pred_after.
Qed.

(** Where a walk ends, and the last name it copied. *)
Fixpoint goal (parent : bool) (t : Z -> option (gmap (list Z) Z)) (i : Z) (ns : list (list Z)) (last : list Z)
    : option (Z * list Z) :=
  match ns with
  | [] => if parent then None else Some (i, last)
  | n :: ns' =>
      m ← t i;
      if parent && (match ns' with [] => true | _ => false end) then Some (i, n)
      else j ← m !! canon n; goal parent t j ns' n
  end.

Lemma goal_ext parent t t' ns : (forall i, t i = t' i) -> forall i last, goal parent t i ns last = goal parent t' i ns last.
Proof using.
  intros H. induction ns as [|n ns IH]; intros i last; [done|]. cbn [goal]. rewrite H. destruct (t' i) as [m|]; [|done].
  cbn [mbind option_bind]. destruct (parent && _); [done|]. destruct (m !! canon n) as [j|]; [apply IH|done].
Qed.

Lemma goal_walk t ns : forall i last, Datatypes.fst <$> goal false t i ns last = walk t i ns.
Proof using.
  induction ns as [|n ns IH]; intros i last; [done|]. cbn [goal walk]. destruct (t i) as [m|]; [|done].
  cbn [mbind option_bind andb]. destruct (m !! canon n) as [j|]; [apply IH|done].
Qed.
Lemma goal_walk_parent t ns : forall i last, goal true t i ns last = walk_parent t i ns.
Proof using.
  induction ns as [|n ns IH]; intros i last; [done|]. cbn [goal walk_parent]. destruct ns as [|n' ns].
  - by destruct (t i).
  - destruct (t i) as [m|]; [|done]. cbn [mbind option_bind andb]. destruct (m !! canon n) as [j|]; [apply IH|done].
Qed.

Definition outcome_at s (o : outcome fst (option (nat * list Z))) (g : option (Z * list Z)) : Prop :=
  match g with
  | None => gave_up s o None
  | Some (j, last) => arrived s o (fun np => Some (np, last)) j
  end.

(** The search of the locked directory, and the step to what it finds. *)
Lemma search_node s s1 ip y i name rest :
  moved (icache s1) s s1 -> held s1 bl [] -> tree_ok s1 -> cache_ok s1 (Some ip) -> node_at s1 ip y i -> alive s1 i ->
  counts (icache s1) = alter Z.succ ip R -> type y = T_DIR -> Forall byte name ->
  let o := (let! next := dirlookup rd ip name in
    match next with
    | None => iunlockput (Some ip) ;;; ret (inr None)
    | Some (next, _) => iunlockput (Some ip) ;;; ret (inl (next, rest, name))
    end) s1 in
  match dir_map (content s1 y) !! canon name with
  | None => gave_up s o (@inr (nat * list Z * list Z) (option (nat * list Z)) None)
  | Some n => arrived s o (fun np => inl (np, rest, name)) n
  end.
Proof.
  intros Mi1 H1 Ht1 Hc1 Hn1 Ha1 Hcn1 Et Hname o. unfold o. clear o.
  pose proof (node_dir s1 ip y i Ht1 Hn1 Ha1 Et) as Hd.
  pose proof (dirlookup_ok ip y bl rd Hlen s1 name H1 Hd (tr_lk _ Ht1)) as L.
  pose proof (dir_find_lookup (content s1 y) name Hname (content_bytes s1 y (tr_ok _ Ht1))) as F.
  destruct (dir_find (content s1 y) name) as [j|]; cbn [lookup_out] in L.
  - destruct F as [_ F]. rewrite F. destruct (two_free_one R ip Hfree) as (q & Hq). rewrite <- Hcn1 in Hq.
    set (n := de_inum (entry (content s1 y) j)) in *.
    destruct (iget_slot_free (icache s1) 1 n q Hq) as ([np ic] & Eg). rewrite Eg in L.
    destruct L as (s2 & R2 & H2 & M2). rewrite (bind_eq _ _ _ _ _ R2).
    assert (Han : alive s1 n).
    { destruct (node_fields s1 ip y i Hn1) as (Etd & _ & Ec & _). rewrite Et in Etd.
      apply (do_alive _ _ (tr_dirs _ Ht1 i Ha1 Etd) (canon name)). by rewrite <- Ec. }
    apply (go_on s s1 s2 ip y i n np ic (fun np => inl (np, rest, name)) Mi1 Ht1 Hc1 Hn1 Ha1 Han Hcn1 Eg M2 H2).
  - rewrite F. destruct L as (s2 & R2 & H2 & S2). rewrite (bind_eq _ _ _ _ _ R2).
    pose proof (same_moved _ _ S2) as M2. pose proof (moved_icache _ _ _ M2) as E2.
    apply (turn_back s s2 ip y i (inr None)); try done.
    * rewrite E2. by eapply moved_trans.
    * by apply (moved_tree_ok _ _ _ M2).
    * intros q z Hz. rewrite E2 in Hz. rewrite (moved_slot_ok _ _ _ _ M2). by apply Hc1.
    * destruct Hn1 as [? ? ? D]. split; try done; [by rewrite E2|]. intros z. rewrite (moved_ondisk _ _ _ _ _ M2). apply D.
    * by rewrite (moved_alive _ _ _ _ M2).
    * by rewrite E2.
Qed.

(** One element of the path. *)
Lemma namex_turn parent s ip i path name0 name rest :
  at_node s ip i -> held s bl [] -> Forall byte path -> skipelem path = Some (name, rest) ->
  let o := namex_body rd parent (ip, path, name0) s in
  match tree s i with
  | None => gave_up s o (inr None)
  | Some m =>
      if parent && (match rest with [] => true | _ => false end) then
        arrived s o (fun np => inr (Some (np, name))) i
      else match m !! canon name with
           | None => gave_up s o (inr None)
           | Some n => arrived s o (fun np => inl (np, rest, name)) n
           end
  end.
Proof.
  intros Hat Hh Hpath Hskip o. pose proof Hat as [Ht Hc (x & Hx & _) Ha Hcn].
  pose proof (node_use _ _ _ _ Hat Hx) as Hu. destruct (skipelem_bytes _ _ _ Hpath Hskip) as [Hname _].
  destruct (lock_node s ip x i Hh Ht Hc Hx Hu Ha) as (s1 & y & R1 & H1 & M1 & Hc1 & Hn1 & Hr1).
  assert (Mi1 : moved (icache s1) s s1) by by apply moved_self in M1.
  pose proof (moved_tree_ok _ _ _ M1 Ht) as Ht1. pose proof (proj2 (moved_alive _ _ _ i M1) Ha) as Ha1.
  assert (Hcn1 : counts (icache s1) = alter Z.succ ip R).
  { rewrite <- Hcn, (moved_icache _ _ _ M1), (counts_insert _ _ x) by done. rewrite Hr1.
    apply list_insert_id. by rewrite counts_lookup, Hx. }
  destruct (node_fields s1 ip y i Hn1) as (Ety & _ & _ & Hdir & Hnodir). rewrite (moved_tree _ _ _ i M1) in Hdir, Hnodir.
  assert (Eo : o = (if negb (type y =? T_DIR) then iunlockput (Some ip) ;;; ret (inr None)
      else if parent && (match rest with [] => true | _ => false end) then iunlock (Some ip) ;;; ret (inr (Some (ip, name)))
      else let! next := dirlookup rd ip name in
        match next with
        | None => iunlockput (Some ip) ;;; ret (inr None)
        | Some (next, _) => iunlockput (Some ip) ;;; ret (inl (next, rest, name))
        end) s1).
  { unfold o, namex_body. rewrite Hskip, (bind_eq _ _ _ _ _ R1).
    by rewrite (bind_eq _ _ _ _ _ (iat_ok _ _ _ (na_here _ _ _ _ Hn1))). }
  rewrite Eo. clear o Eo. destruct (Z.eqb_spec (type y) T_DIR) as [Et|Et]; cbn [negb].
  2:{ rewrite (Hnodir Et). by apply (turn_back s s1 ip y i). }
  rewrite (Hdir Et). destruct (parent && _) eqn:Ep.
  - destruct (unlock_node s1 ip y i Hc1 Hn1) as (R2 & Hc2 & E2). set (s2 := with_icache _ s1) in *.
    assert (M2 : moved (icache s2) s1 s2) by (unfold moved; reflexivity).
    exists ip, s2. split; [by rewrite (bind_eq _ _ _ _ _ R2)|]. split; [done|]. split; [by eapply moved_trans|]. split.
    + by apply (moved_tree_ok _ _ _ M2).
    + done.
    + exists (set_ilocked false y). split; [|apply (na_cached _ _ _ _ Hn1)].
      apply list_lookup_insert_eq. eapply lookup_lt_Some, Hn1.
    + done.
    + by rewrite E2.
  - by apply (search_node s s1 ip y i).
Qed.

Lemma gave_up_after {A B} s (m : M fst A) (f : A -> M fst B) a (b : B) :
  (forall s', f a s' = Ret b s') -> gave_up s (m s) a -> gave_up s (bind m f s) b.
Proof using.
  intros Hf (s' & Hr & H). exists s'. split; [|done]. by rewrite (bind_eq _ _ _ _ _ Hr).
Qed.

Lemma namex_walk parent n : forall path s ip i last fuel,
  (length path < n)%nat -> (n <= fuel)%nat -> at_node s ip i -> held s bl [] -> Forall byte path ->
  outcome_at s (loop fuel (namex_body rd parent) (ip, path, last) s) (goal parent (tree s) i (elements path) last).
Proof.
  induction n as [|n IH]; intros path s ip i last fuel Hl Hfuel Hat Hh Hb; [lia|].
  destruct fuel as [|fuel]; [lia|]. cbn [loop]. pose proof (skipelem_elements path) as Hel.
  destruct (skipelem path) as [[name rest]|] eqn:Es.
  - destruct Hel as (-> & Hlt & Hnil). pose proof (namex_turn parent s ip i path last name rest Hat Hh Hb Es) as T.
    cbv zeta in T. cbn [goal]. destruct (tree s i) as [m|]; cbn [mbind option_bind];
      [|eapply gave_up_after; [|exact T]; intros; reflexivity].
    assert (En : (match elements rest with [] => true | _ => false end) = match rest with [] => true | _ => false end).
    { destruct rest as [|c r]; [done|]. destruct (elements (c :: r)) ; [by discriminate (proj2 Hnil eq_refl)|done]. }
    rewrite En. destruct (parent && _).
    + destruct T as (np & s' & Hr & T). exists np, s'. split; [|done]. by rewrite (bind_eq _ _ _ _ _ Hr).
    + destruct (m !! canon name) as [j|]; [|eapply gave_up_after; [|exact T]; intros; reflexivity].
      destruct T as (np & s1 & Hr & H1 & M1 & Hat1). rewrite (bind_eq _ _ _ _ _ Hr).
      destruct (skipelem_bytes _ _ _ Hb Es) as [_ Hb']. specialize (IH rest s1 np j name fuel ltac:(lia) ltac:(lia) Hat1 H1 Hb').
      cbn [mbind option_bind].
      rewrite (goal_ext _ (tree s1) (tree s)) in IH by (intros; apply (moved_tree _ _ _ _ M1)).
      destruct (goal parent (tree s) j (elements rest) name) as [[k l]|]; cbn [outcome_at] in *.
      * destruct IH as (np' & s2 & R2 & H2 & M2 & Hat2). exists np', s2. split; [done|]. split; [done|]. split; [by eapply moved_trans|exact Hat2].
      * destruct IH as (s2 & R2 & H2 & M2 & T2). exists s2. split; [done|]. split; [done|]. split; [by eapply moved_trans|exact T2].
  - rewrite Hel. cbn [goal]. unfold namex_body at 1. rewrite Es. destruct parent; cbn [outcome_at].
    + pose proof Hat as [Ht Hc (x & Hx & _) Ha Hcn].
      destruct (put_node s ip x i Hh Ht Hc Hx (node_use _ _ _ _ Hat Hx) Ha) as (s1 & R1 & H1 & M1 & Hc1 & E1).
      exists s1. split; [|split; [done|split; [by apply moved_self in M1|split; [done|]]]].
      * unfold bind at 1. by rewrite (bind_eq _ _ _ _ _ R1).
      * by rewrite E1, Hcn, succ_pred.
    + exists ip, s. split; [done|]. split; [done|]. split; [|done]. apply same_moved. reflexivity.
Qed.

End Walk.

(** ** From the root or the current directory *)

Record walk_ready (s : fst) (cwd : nat) (i : Z) : Prop := {
  wr_tree : tree_ok s;
  wr_cache : cache_ok s None;
  wr_counts : Forall (fun r => 0 <= r) (counts (icache s));
  wr_free : two_free (counts (icache s));
  wr_root : alive s ROOTINO;
  wr_cwd : exists x, icache s !! cwd = Some x /\ in_use 1 i x;
  wr_alive : alive s i }.

Definition origin (path : list Z) (i : Z) : Z := if hd 0 path =? slash then ROOTINO else i.

(** The reference the walk starts with. *)
Lemma namex_start s bl cwd i path :
  held s bl [] -> walk_ready s cwd i ->
  exists ip s', (if hd 0 path =? slash then iget ROOTDEV ROOTINO else idup cwd) s = Ret ip s' /\ held s' bl [] /\
    moved (icache s') s s' /\ at_node (counts (icache s)) s' ip (origin path i).
Proof.
  intros Hh [Ht Hc Hr Hf Hroot (x & Hx & Hu) Ha]. unfold origin. destruct (hd 0 path =? slash).
  - destruct Hf as (p & _ & _ & Hp & _). destruct (iget_slot_free (icache s) 1 ROOTINO p Hp) as ([np ic] & Eg).
    pose proof (iget_ok s bl [] 1 ROOTINO Hh (tr_lk _ Ht)) as G. rewrite Eg in G. destruct G as (s' & R & H' & M).
    destruct (take_node s s' None ROOTINO np ic Hc Eg M) as (Hc' & E' & (z & Hz & _ & Hd & Hi) & _).
    exists np, s'. split; [done|]. split; [done|]. split; [by apply moved_self in M|]. split; try done.
    + by apply (moved_tree_ok _ _ _ M).
    + by exists z.
    + by rewrite (moved_alive _ _ _ _ M).
  - destruct (idup_ok s bl [] cwd Hh (tr_lk _ Ht)) as (s' & R & H' & M). rewrite (alter_insert _ _ _ _ Hx) in M.
    destruct (Hc cwd x Hx) as [Hs Hl]. destruct Hu as (Hrx & Hd & Hi). pose proof (moved_icache _ _ _ M) as E.
    exists cwd, s'. split; [done|]. split; [done|]. split; [by apply moved_self in M|]. split.
    + by apply (moved_tree_ok _ _ _ M).
    + apply (cache_ok_insert s s' None None cwd x (more x) M Hc Hx); try done. intros _ Hv. by apply Hs.
    + exists (more x). rewrite E. split; [|done]. apply list_lookup_insert_eq. by eapply lookup_lt_Some.
    + by rewrite (moved_alive _ _ _ _ M).
    + rewrite E. by apply (counts_alter Z.succ _ _ x).
Qed.

Lemma namex_ok rd s bl cwd i path parent :
  held s bl [] -> (length bl < 29)%nat -> walk_ready s cwd i -> Forall byte path ->
  outcome_at bl (counts (icache s)) s (namex rd cwd path parent s) (goal parent (tree s) (origin path i) (elements path) []).
Proof.
  intros Hh Hlen Hw Hb. destruct (namex_start s bl cwd i path Hh Hw) as (ip & s1 & R1 & H1 & M1 & Hat).
  unfold namex. rewrite (bind_eq _ _ _ _ _ R1).
  pose proof (namex_walk bl rd Hlen (counts (icache s)) (wr_counts _ _ _ Hw) (wr_free _ _ _ Hw) parent (S (length path)) path s1 ip
    (origin path i) [] (S (length path)) ltac:(lia) ltac:(lia) Hat H1 Hb) as L.
  rewrite (goal_ext _ (tree s1) (tree s)) in L by (intros; apply (moved_tree _ _ _ _ M1)).
  destruct (goal _ _ _ _ _) as [[j l]|]; cbn [outcome_at] in *.
  - destruct L as (np & s2 & R2 & H2 & M2 & Hat2). exists np, s2. split; [done|]. split; [done|]. split; [by eapply moved_trans|exact Hat2].
  - destruct L as (s2 & R2 & H2 & M2 & T2). exists s2. split; [done|]. split; [done|]. split; [by eapply moved_trans|exact T2].
Qed.

(** In a transaction. *)
Lemma tx_moved {A} (m : M fst A) s hl F k (Q : A -> fst -> Prop) :
  tx s hl F k ->
  (forall bl, held s bl hl -> (length bl < 29)%nat ->
    exists a s', m s = Ret a s' /\ held s' bl hl /\ moved (icache s') s s' /\ Q a s') ->
  exists a s', m s = Ret a s' /\ tx s' hl F k /\ moved (icache s') s s' /\ Q a s'.
Proof.
  intros Ht H. pose proof Ht as (bl & Htr & Hh & _ & Hk). destruct (tx_len s bl F k Htr Hk) as [_ Hlen].
  destruct (H bl Hh Hlen) as (a & s' & R & H' & M & HQ).
  destruct (moved_tx m s hl F k (icache s') a) as (s2 & R2 & T2 & _); [|done|].
  - intros bl2 Hh2 Hl2. destruct (H bl2 Hh2 Hl2) as (a2 & s2 & R2 & H2 & M2 & _). assert (s2 = s') as -> by congruence.
    by exists s'.
  - exists a, s'. assert (s2 = s') as -> by congruence. done.
Qed.

(** A reference to inode [j] more than before. *)
Definition one_more (s s' : fst) (np : nat) (j : Z) : Prop :=
  cache_ok s' None /\ (exists y, icache s' !! np = Some y /\ in_use 1 j y) /\
  counts (icache s') = alter Z.succ np (counts (icache s)).
(** The references of before. *)
Definition no_more (s s' : fst) : Prop := cache_ok s' None /\ counts (icache s') = counts (icache s).

Lemma namex_tx rd s F k cwd i path parent :
  tx s [] F k -> walk_ready s cwd i -> Forall byte path ->
  exists r s', namex rd cwd path parent s = Ret r s' /\ tx s' [] F k /\ moved (icache s') s s' /\
    match goal parent (tree s) (origin path i) (elements path) [] with
    | Some (j, last) => exists np, r = Some (np, last) /\ one_more s s' np j
    | None => r = None /\ no_more s s'
    end.
Proof.
  intros Ht Hw Hb. apply tx_moved; [done|]. intros bl Hh Hlen.
  pose proof (namex_ok rd s bl cwd i path parent Hh Hlen Hw Hb) as L.
  destruct (goal _ _ _ _ _) as [[j l]|]; cbn [outcome_at] in L.
  - destruct L as (np & s' & R & H' & M & Hat). exists (Some (np, l)), s'. split; [done|]. split; [done|]. split; [done|].
    exists np. split; [done|]. pose proof Hat as [_ Hc (y & Hy & _) _ Hcn]. split; [done|]. split; [|done].
    exists y. split; [done|]. by apply (node_use _ (wr_counts _ _ _ Hw) s' np y j Hat).
  - destruct L as (s' & R & H' & M & Hc & E). exists None, s'. by split_and!.
Qed.
