(* ===== verification/FsSpec.v ===== *)
(** * What the file system promises

    The properties of block allocation, of inodes on disk and of reading and
    writing files, each with a small file system that satisfies its
    hypotheses. *)

From S2P Require Import Prelude Locks Bio Log LogFacts Fs FsTx FsBlocks FsInode FsFile FsRW FsTrunc.
Import Bio BioFacts Log Fs.

(** ** A small disk *)

Module FsDemo.

Definition sb_words : list Z := [60; 24; 16; 29; 2; 31; 34].
Definition sb_bytes : list Z := foldl (fun d k => st_word d k (nth k sb_words 0)) (replicate BSIZE 0) (seq 0 7).

(** Blocks 0 to 34 hold metadata; blocks 0 to 34 and 40 are used. *)
Definition bitmap : list Z := set_bit (foldl (fun d k => set_bit d (Z.of_nat k)) (replicate BSIZE 0) (seq 0 35)) 40.

(** Inodes of type [ty], with at most one block. *)
Definition ino (ty i sz b : Z) : inode :=
  {| idev := 1; inum := i; iref := 1; ilocked := true; ivalid := true; type := ty; major := 0;
     minor := 0; nlink := 1; isize := sz; addrs := b :: replicate 12 0 |}.

Definition block_okb (d : list Z) : bool :=
  (length d =? BSIZE)%nat && forallb (fun v => (0 <=? v) && (v <? 256)) d.
Lemma block_okb_ok d : block_okb d = true -> block_ok d.
Proof.
  unfold block_okb. intros [H1%Nat.eqb_eq H2]%andb_true_iff. split; [done|].
  apply Forall_forall. intros v Hv%list_elem_of_In. rewrite forallb_forall in H2. apply H2 in Hv.
  unfold byte. bools. lia.
Qed.

(** A disk with the block of inodes [b31] and the block of data [b40], in the
    middle of a transaction. *)
Section Small.
Variables (b31 b40 : list Z) (ic : list inode).
Hypothesis H31 : block_okb b31 = true.
Hypothesis H40 : block_okb b40 = true.

Definition the_disk (m : Z) : list Z :=
  if m =? 1 then sb_bytes else if m =? 34 then bitmap else if m =? 31 then b31
  else if m =? 40 then b40 else replicate BSIZE 0.

Definition the_log : lst :=
  with_outstanding 1 (with_sb 2 29 1 (LogFacts.boot the_disk 60)).

Definition small : fst :=
  {| lg := the_log; sb := sb_of sb_words; icache := ic; icache_lk := false; console := [] |}.

Lemma small_val m : val small m = the_disk m.
Proof using. apply LogFacts.boot_view. Qed.

Lemma small_held : held small [] [].
Proof using. apply held_calm, LogFacts.boot_calm. Qed.

Lemma small_trans : LogFacts.in_trans (lg small) [].
Proof using.
  split; try done.
  - constructor.
Qed.

Lemma small_tx F k : (base.size F + k <= 27)%nat -> tx small [] F k.
Proof using.
  intros H. exists []. split; [apply small_trans|]. split; [apply small_held|].
  split; [apply not_elem_of_nil|].
  cbn [list_to_set]. rewrite (left_id_L ∅ (∪)). change (lsize (lg small)) with 29. lia.
Qed.

Lemma small_layout : layout small.
Proof using. split; cbn; unfold IPB, BPB; rewrite ?Z.div_small by lia; change (16 / 8) with 2; lia. Qed.

Lemma small_ok : fs_ok small.
Proof.
  split.
  - apply small_layout.
  - rewrite small_val. vm_compute. reflexivity.
  - intros m. rewrite small_val. unfold the_disk. repeat case_if; apply block_okb_ok; done || (vm_compute; reflexivity).
  - intros b Hb. change (meta_end small) with 35 in Hb. unfold used. rewrite small_val.
    assert (H : forallb (fun b => bit (the_disk (BBLOCK b (sb small))) (b mod BPB)) (seqZ 0 35) = true)
      by (vm_compute; reflexivity).
    rewrite forallb_forall in H. apply H, list_elem_of_In, elem_of_seqZ. lia.
Qed.

Lemma ino_slot ty i sz b j : place j -> slot small (ino ty i sz b) j = if j =? 0 then b else 0.
Proof using.
  intros Hj. unfold place, slot, MAXFILE, NDIRECT, NINDIRECT, addr_at in *. cbn [addrs ino].
  assert (H0 : forall k, nth (S k) (b :: replicate 12 0) 0 = 0).
  { intros k. cbn [nth]. rewrite nth_lookup. destruct (replicate 12 0 !! k) as [v|] eqn:E; [|done].
    by apply lookup_replicate in E as [-> _]. }
  destruct (Z.eqb_spec j 0) as [->|Hn]; [done|].
  destruct (Z.ltb_spec j 12).
  - destruct (Z.to_nat j) eqn:E; [lia|]. apply H0.
  - by destruct (j =? 12 + 128).
Qed.

Lemma ino_fields ty i sz b : 0 <= ty < 4 -> 0 <= sz < 4294967296 -> 0 <= b < 4294967296 -> fields_ok (ino ty i sz b).
Proof using.
  intros. split; cbn; try lia; try done. unfold LogFacts.words. repeat (apply Forall_cons; split; [lia|]). apply Forall_nil_2.
Qed.

Lemma small_file ty i sz b :
  0 <= ty < 4 -> 0 <= i < 16 -> 0 <= sz <= 512 -> b = 0 \/ b = 40 -> file_ok small (ino ty i sz b).
Proof using.
  intros Hty Hi Hsz Hb. split; try done.
  - apply ino_fields; lia.
  - intros j Hj. rewrite ino_slot by done. destruct (j =? 0); intros Hn; [|by destruct Hn].
    destruct Hb as [->| ->]; [by destruct Hn|].
    split; [unfold data_block; change (meta_end small) with 35; change (size (sb small)) with 60; lia|].
    unfold used. rewrite small_val. vm_compute. reflexivity.
  - intros a c Ha Hc. rewrite !ino_slot by done.
    destruct (Z.eqb_spec a 0), (Z.eqb_spec c 0); subst; try done; congruence.
  - split; cbn; unfold MAXFILE, NDIRECT, NINDIRECT, bsize; lia.
Qed.

(** A file that is the one on disk, with its block when it has bytes. *)
Lemma small_open ip ty i sz b :
  0 <= ty < 3 -> 0 <= i < 16 -> 0 <= sz <= 512 -> b = 40 \/ sz = 0 /\ b = 0 ->
  ic !! ip = Some (ino ty i sz b) -> (forall y, ondisk small i y = dinode_of (ino ty i sz b) y) ->
  open_file small ip (ino ty i sz b).
Proof.
  intros Hty Hi Hsz Hb Hip Hy. split; try done.
  - apply small_ok.
  - apply small_file; lia.
  - intros o Ho. cbn in Ho. rewrite ino_slot.
    + rewrite Z.div_small by (unfold bsize; lia). cbn. lia.
    + unfold place. rewrite Z.div_small by (unfold bsize; lia). unfold MAXFILE, NDIRECT, NINDIRECT. lia.
  - cbn. unfold T_DEV. lia.
Qed.

(** The bitmap and the inode block paid for. *)
Definition paid : gset Z := {[34; 31]}.
Lemma small_ftx k ty i sz b : (k <= 20)%nat -> ftx small (ino ty i sz b) paid k.
Proof using.
  intros Hk. assert (E : slot small (ino ty i sz b) MAXFILE = 0) by (by rewrite ino_slot by apply MAXFILE_place).
  split.
  - apply small_tx. unfold ind_credit. rewrite E. cbn [Z.eqb].
    assert (Hp : base.size paid = 2%nat) by (vm_compute; reflexivity). rewrite Hp. lia.
  - intros m Hm. unfold bitmap_block in Hm. change (bmapstart (sb small)) with 34 in Hm.
    change (meta_end small) with 35 in Hm. assert (m = 34) as -> by lia. unfold paid. clear. set_solver.
  - by rewrite E.
Qed.

End Small.

(** Inode 2: a file of five bytes in block 40; inode 3: an empty file. *)
Definition file2 : inode := ino T_FILE 2 5 40.
Definition file3 : inode := ino T_FILE 3 0 0.
Definition inodes : list Z := put_dinode file3 3 (put_dinode file2 2 (replicate BSIZE 0)).
Definition text : list Z := [104; 101; 108; 108; 111].
Definition demo : fst := small inodes (text ++ replicate 507 0) [file2; file3].

Lemma demo_held : held demo [] [].
Proof. apply small_held. Qed.
Lemma demo_tx F k : (base.size F + k <= 27)%nat -> tx demo [] F k.
Proof. apply small_tx. Qed.
Lemma demo_ok : fs_ok demo.
Proof. by apply small_ok. Qed.
Lemma demo_ftx k i sz b : (k <= 20)%nat -> ftx demo (ino T_FILE i sz b) paid k.
Proof. apply small_ftx. Qed.
Lemma demo_file i sz b :
  0 <= i < 16 -> 0 <= sz <= 512 -> b = 0 \/ b = 40 -> file_ok demo (ino T_FILE i sz b).
Proof. by apply small_file. Qed.

Lemma demo_open i sz b :
  i = 2 /\ sz = 5 /\ b = 40 \/ i = 3 /\ sz = 0 /\ b = 0 -> open_file demo (Z.to_nat (i - 2)) (ino T_FILE i sz b).
Proof.
  intros H. apply small_open; try done; try lia.
  - by destruct H as [(-> & -> & ->)|(-> & -> & ->)].
  - intros y. unfold ondisk. rewrite small_val.
    destruct H as [(-> & -> & ->)|(-> & -> & ->)]; vm_compute; reflexivity.
Qed.

Lemma demo_apart : apart demo file3 file2.
Proof.
  split; [done|]. intros i j Hi Hj. unfold file2, file3, demo. rewrite !ino_slot by done.
  by destruct (i =? 0), (j =? 0).
Qed.

End FsDemo.

(** ** Reading and writing *)

(** C5: A write inside a transaction that has room for its blocks, on a disk
    that has room for them, replaces exactly the addressed bytes of the file,
    lengthens it when it goes past the end, keeps every block of the file in
    one place and the inode on disk up to date; every other file keeps its
    content, its blocks and its inode. *)
Theorem writei_spec wr s ip x F k off n src :
  open_file s ip x -> ftx s x F (Z.to_nat (nblk off n) + k) -> IBLOCK (inum x) (sb s) ∈ F ->
  0 <= off <= isize x -> 0 <= n -> off + n <= MAXFILE * bsize -> n <= Z.of_nat (length src) ->
  Forall byte src -> room s x (visit off n) ->
  exists s' x' F', writei wr ip src off n s = Ret n s' /\ ftx s' x' F' k /\ open_file s' ip x' /\
    content s' x' = overwrite (content s x) off (take (Z.to_nat n) src) /\
    forall y, file_ok s y -> apart s x y ->
      file_ok s' y /\ apart s' x' y /\ content s' y = content s y /\
      forall z, ondisk s' (inum y) z = ondisk s (inum y) z.
Proof.
  intros Hop Hft Hib Ho Hn Hend Hsrc Hb Hr. pose proof Hop as [Hok Hf Hd Hy Hx Hty].
  destruct (writei_ok s ip x F k off n src wr Hft Hib Hok Hf Hd Hy Hx Hty Ho Hn Hend Hsrc Hb Hr)
    as (s' & x' & F' & R & Hft' & _ & W).
  exists s', x', F'. split; [done|]. split; [done|]. split; [by apply (write_done_open s s' ip x x' src off n)|].
  split; [apply (overwrite_content s s' ip x x' src off n W); try done; apply Hf|].
  intros y Hy' Hxy. pose proof (wd_changed _ _ _ _ _ _ _ _ W) as Hc.
  destruct (other_file true s s' ip x x' y Hok Hc Hy' Hxy Hf) as (H1 & H2 & H3).
  split_and!; try done. by apply (content_other true s s' ip x x' y).
Qed.

Lemma writei_spec_witness :
  exists s' x' F', writei (fun _ => None) 1 FsDemo.text 0 5 FsDemo.demo = Ret 5 s' /\ ftx s' x' F' 2 /\
    open_file s' 1 x' /\
    content s' x' = overwrite (content FsDemo.demo FsDemo.file3) 0 (take (Z.to_nat 5) FsDemo.text) /\
    forall y, file_ok FsDemo.demo y -> apart FsDemo.demo FsDemo.file3 y ->
      file_ok s' y /\ apart s' x' y /\ content s' y = content FsDemo.demo y /\
      forall z, ondisk s' (inum y) z = ondisk FsDemo.demo (inum y) z.
Proof.
  apply (writei_spec (fun _ => None) FsDemo.demo 1 FsDemo.file3 FsDemo.paid 2 0 5 FsDemo.text).
  - apply (FsDemo.demo_open 3 0 0). lia.
  - apply FsDemo.demo_ftx. vm_compute. lia.
  - vm_compute. reflexivity.
  - cbn. lia.
  - lia.
  - unfold MAXFILE, NDIRECT, NINDIRECT, bsize. lia.
  - cbn. lia.
  - repeat (apply Forall_cons; split; [unfold byte; lia|]). apply Forall_nil_2.
  - right. vm_compute. lia.
Defined.

(** Reading returns the bytes of the file that are there, inside or
    outside a transaction, and changes no block and no inode. *)
Theorem readi_spec rd s bl ip x off n :
  open_file s ip x -> held s bl [] -> (length bl < 29)%nat ->
  0 <= off <= isize x -> 0 <= n -> off + n < 4294967296 ->
  exists s', readi rd ip off n s =
      Ret (Z.min n (isize x - off), take (Z.to_nat n) (drop (Z.to_nat off) (content s x))) s' /\
    held s' bl [] /\ open_file s' ip x /\ icache s' = icache s /\ (forall m, val s' m = val s m).
Proof.
  intros Hop Hh Hlen Ho Hn Hw. pose proof Hop as [Hok Hf Hd Hy Hx Hty].
  destruct (readi_held s bl ip x rd off n Hh Hlen Hok Hf Hd Hx Hty Ho Hn Hw) as (s' & R & H' & S).
  exists s'. split_and!; try done.
  - rewrite R. unfold avail. do 2 f_equal.
    rewrite bytes_content by lia. destruct (Z.min_spec n (isize x - off)) as [[? ->]|[? ->]]; [done|].
    rewrite !take_ge; [done|rewrite length_drop, content_length; lia..].
  - by apply (same_open s).
  - apply (keeps_fields _ _ (same_keeps _ _ S)).
  - apply S.
Qed.

Lemma readi_spec_witness :
  exists s', readi (fun _ => None) 0 1 9 FsDemo.demo =
      Ret (4, take (Z.to_nat 9) (drop (Z.to_nat 1) (content FsDemo.demo FsDemo.file2))) s' /\
    held s' [] [] /\ open_file s' 0 FsDemo.file2 /\ icache s' = icache FsDemo.demo /\
    (forall m, val s' m = val FsDemo.demo m).
Proof.
  apply (readi_spec (fun _ => None) FsDemo.demo [] 0 FsDemo.file2 1 9).
  - apply (FsDemo.demo_open 2 5 40). lia.
  - apply FsDemo.demo_held.
  - cbn. lia.
  - cbn. lia.
  - lia.
  - lia.
Defined.

(** C12: What is written is what is read back. *)
Theorem writei_readi wr rd s ip x F k off n src :
  open_file s ip x -> ftx s x F (Z.to_nat (nblk off n) + k) -> IBLOCK (inum x) (sb s) ∈ F ->
  0 <= off <= isize x -> 0 <= n -> off + n <= MAXFILE * bsize -> n <= Z.of_nat (length src) ->
  Forall byte src -> room s x (visit off n) ->
  exists s', (writei wr ip src off n ;;; readi rd ip off n) s = Ret (n, take (Z.to_nat n) src) s'.
Proof.
  intros Hop Hft Hib Ho Hn Hend Hsrc Hb Hr. pose proof Hop as [Hok Hf Hd Hy Hx Hty].
  destruct (writei_ok s ip x F k off n src wr Hft Hib Hok Hf Hd Hy Hx Hty Ho Hn Hend Hsrc Hb Hr)
    as (s1 & x1 & F1 & R & Hft1 & _ & W).
  rewrite (bind_eq _ _ _ _ _ R). pose proof (write_done_open _ _ _ _ _ _ _ _ W Hop) as [Ok1 Hf1 Hd1 Hy1 Hx1 Hty1].
  pose proof (wd_size _ _ _ _ _ _ _ _ W) as Sz. pose proof fsize_bound.
  destruct (tx_run (readi rd ip off n) s1 [] F1 _ (fun r _ => r = (n, take (Z.to_nat n) src)) (fun _ => []) (ft_tx _ _ _ _ Hft1))
    as (r & s2 & R2 & _ & _ & ->); [|by exists s2].
  intros bl Hh Hlen.
  destruct (readi_held s1 bl ip x1 rd off n Hh Hlen Ok1 Hf1 Hd1 Hx1 Hty1 ltac:(lia) Hn ltac:(lia)) as (s2 & R2 & H2 & S2).
  eexists _, s2. split_and!; try done. unfold avail. rewrite Z.min_l by lia. f_equal.
  apply list_eq. intros i. unfold bytes. rewrite list_lookup_fmap.
  destruct (decide (Z.of_nat i < n)).
  - assert (E : seqZ off n !! i = Some (off + Z.of_nat i)) by (apply lookup_seqZ; lia).
    rewrite E. cbn [fmap option_fmap option_map]. rewrite (wd_bytes _ _ _ _ _ _ _ _ W) by lia.
    rewrite decide_True, lookup_take_lt by lia.
    destruct (lookup_lt_is_Some_2 src i) as [v Hv]; [lia|]. rewrite Hv.
    replace (Z.to_nat (off + Z.of_nat i - off)) with i by lia. by rewrite (nth_lookup_Some _ _ 0 _ Hv).
  - rewrite lookup_take_ge by lia. rewrite fmap_None. apply lookup_ge_None. rewrite length_seqZ. lia.
Qed.

Lemma writei_readi_witness :
  exists s', (writei (fun _ => None) 0 [1; 2; 3] 4 3 ;;; readi (fun _ => None) 0 4 3) FsDemo.demo =
    Ret (3, take (Z.to_nat 3) [1; 2; 3]) s'.
Proof.
  apply (writei_readi (fun _ => None) (fun _ => None) FsDemo.demo 0 FsDemo.file2 FsDemo.paid 2 4 3 [1; 2; 3]).
  - apply (FsDemo.demo_open 2 5 40). lia.
  - apply FsDemo.demo_ftx. vm_compute. lia.
  - vm_compute. reflexivity.
  - cbn. lia.
  - lia.
  - unfold MAXFILE, NDIRECT, NINDIRECT, bsize. lia.
  - cbn. lia.
  - repeat (apply Forall_cons; split; [unfold byte; lia|]). apply Forall_nil_2.
  - left. vm_compute. reflexivity.
Defined.

(** The ranges [readi] and [writei] refuse: an offset past the end of the
    file, an offset plus length that wraps, and a write past the largest file
    there can be.  Nothing changes. *)
Theorem rw_refuses wr rd s ip x off n src :
  icache s !! ip = Some x -> type x <> T_DEV -> 0 <= isize x <= MAXFILE * bsize ->
  0 <= off < 4294967296 -> 0 <= n < 4294967296 ->
  (isize x < off \/ 4294967296 <= off + n ->
    readi rd ip off n s = Ret (-1, []) s /\ writei wr ip src off n s = Ret (-1) s) /\
  (MAXFILE * bsize < off + n -> writei wr ip src off n s = Ret (-1) s).
Proof.
  intros Hx Hty Hsz Ho Hn. unfold readi, writei.
  rewrite !(bind_eq _ _ _ _ _ (iat_ok _ _ _ Hx)), (proj2 (Z.eqb_neq _ _) Hty).
  assert (Hw : 4294967296 <= off + n -> u32 (off + n) < off).
  { intros H. unfold u32. rewrite <- (Z.mod_add (off + n) (-1)) by lia. rewrite Z.mod_small; lia. }
  assert (Hbad : isize x < off \/ 4294967296 <= off + n -> (off >? isize x) || (u32 (off + n) <? off) = true).
  { intros [H|H]; apply orb_true_iff; [left|right]; [rewrite Z.gtb_ltb|]; apply Z.ltb_lt; auto. }
  split; [intros H; by rewrite (Hbad H)|].
  intros H. destruct ((off >? isize x) || (u32 (off + n) <? off)) eqn:E; [done|]. bools. destruct E as [E1 E2].
  assert (Hs : off + n < 4294967296).
  { destruct (Z.lt_ge_cases (off + n) 4294967296) as [|Hge]; [done|]. specialize (Hw Hge). lia. }
  rewrite u32_small by lia. rewrite (proj2 (Z.ltb_lt _ _) H). done.
Qed.

Lemma rw_refuses_witness :
  (isize FsDemo.file2 < 6 \/ 4294967296 <= 6 + 1 ->
    readi (fun _ => None) 0 6 1 FsDemo.demo = Ret (-1, []) FsDemo.demo /\
    writei (fun _ => None) 0 [] 6 1 FsDemo.demo = Ret (-1) FsDemo.demo) /\
  (MAXFILE * bsize < 6 + 1 -> writei (fun _ => None) 0 [] 6 1 FsDemo.demo = Ret (-1) FsDemo.demo).
Proof.
  apply (rw_refuses (fun _ => None) (fun _ => None) FsDemo.demo 0 FsDemo.file2 6 1 []).
  - reflexivity.
  - done.
  - unfold MAXFILE, NDIRECT, NINDIRECT, bsize. cbn. lia.
  - lia.
  - lia.
Defined.

(** C2: A write is atomic across a crash.  Begun with an empty log and ended as
    the only operation, the write goes to the disk in one commit: whatever
    prefix of its block writes a crash leaves, after the restart has recovered
    the log the file read through its inode on disk has its old content or the
    whole of the new one, and every other file has its content.  ([filewrite] cuts
    a longer write into such transactions, one after the other.) *)
Theorem file_write_atomic wr s ip x F off n src :
  open_file s ip x -> ftx s x F (Z.to_nat (nblk off n)) -> IBLOCK (inum x) (sb s) ∈ F ->
  0 <= off <= isize x -> 0 <= n -> off + n <= MAXFILE * bsize -> n <= Z.of_nat (length src) ->
  Forall byte src -> room s x (visit off n) ->
  outstanding (lg s) = 1 -> held s [] [] -> logstart (sb s) = start (lg s) ->
  ld_word (disk (io (lg s)) (start (lg s))) 0 = 0 ->
  exists s1 s2 ws, writei wr ip src off n s = Ret n s1 /\ disk (io (lg s1)) = disk (io (lg s)) /\
    log end_op s1 = Ret tt s2 /\ writes (io (lg s2)) = writes (io (lg s1)) ++ ws /\
    forall j, exists r,
      initlog 1 (LogFacts.boot (LogFacts.crash ws j (disk (io (lg s)))) (disksize (io (lg s)))) = Ret tt r /\
      let sr := with_lg r s in
      let now := content sr (ondisk sr (inum x) x) in
      (now = content s x \/ now = overwrite (content s x) off (take (Z.to_nat n) src)) /\
      forall y, file_ok s y -> apart s x y -> content sr y = content s y.
Proof.
  intros Hop Hft Hib Ho Hn Hend Hsrc Hb Hr Hout Hh Hst H0. pose proof Hop as [Hok Hf Hd Hy Hx Hty].
  destruct (writei_ok s ip x F 0 off n src wr ltac:(by rewrite Nat.add_0_r) Hib Hok Hf Hd Hy Hx Hty Ho Hn Hend Hsrc Hb Hr)
    as (s1 & x1 & F1 & R & Hft1 & _ & W).
  pose proof (wd_changed _ _ _ _ _ _ _ _ W) as Hc. pose proof (to_keeps _ _ _ _ _ _ Hc) as K.
  pose proof (write_done_open _ _ _ _ _ _ _ _ W Hop) as [Ok1 Hf1 Hd1 Hy1 _ _].
  assert (Ei : inum x1 = inum x) by (by rewrite (to_meta _ _ _ _ _ _ Hc)).
  assert (Esb : sb s1 = sb s) by (by apply (touched_sb _ _ _ _ _ _ Hc)).
  assert (Hv : forall m, val s m = disk (io (lg s)) m).
  { intros m. apply (LogFacts.calm_clean _ [] m); [by apply held_calm|by apply not_elem_of_nil]. }
  assert (E1 : val s1 1 = val s 1).
  { pose proof (fo_layout _ Hok) as Hs. apply (to_val _ _ _ _ _ _ Hc).
    - intros H. by apply (bitmap_home s Hs) in H as [_ ?].
    - intros _ E. destruct (IBLOCK_eq s (inum x) Hs (fl_inum _ _ Hf)) as [_ Hi].
      rewrite <- E in Hi. by apply (inode_home s _ Hs) in Hi as (_ & ? & _).
    - intros H. by apply (data_home s Hs) in H as (_ & ? & _). }
  pose proof (kp_disk _ _ K) as Ed. pose proof (kp_start _ _ K) as Es. pose proof (kp_size _ _ K) as Ez.
  cbn [lg with_icache] in Ed, Es, Ez.
  destruct (end_op_crash s s1 (fo_layout _ Ok1) Ok1) as (s2 & ws & R2 & Hw & Hcrash).
  { apply (tx_weaken s1 [] F1 _ ∅ 0 (ft_tx _ _ _ _ Hft1)); [clear; set_solver|lia]. }
  { pose proof (kp_out _ _ K) as E. cbn in E. congruence. }
  { intros m. by rewrite Ed. }
  { by rewrite Esb, Es. }
  { by rewrite Ed, Es. }
  { exact E1. }
  { rewrite Ed, Es, <- Hv. apply Hok. }
  exists s1, s2, ws. do 4 (split; [done|]). intros j. destruct (Hcrash j) as (r & Rr & Hblk).
  rewrite Ed, Ez in Rr. exists r. split; [done|]. cbv zeta.
  assert (Hother : forall y, file_ok s y -> apart s x y -> file_ok s1 y /\ content s1 y = content s y).
  { intros y Hfy Hxy. destruct (other_file true s s1 ip x x1 y Hok Hc Hfy Hxy Hf) as (? & _ & _).
    split; [done|by apply (content_other true s s1 ip x x1 y)]. }
  assert (Hhm : forall m, home_block s1 m <-> home_block s m) by apply (touched_geometry _ _ _ _ _ _ Hc).
  destruct Hblk as [Hold|Hnew].
  - assert (Vr : forall m, home_block s m -> val (with_lg r s) m = val s m) by (intros m Hm; apply Hold, Hhm, Hm).
    split; [left; by apply restart_file|]. intros y Hfy Hxy. by apply restart_content.
  - split; [right|].
    + rewrite <- Ei, (restart_file s1 (with_lg r s) Ok1 (eq_sym Esb) Hnew x1 x Hf1 Hy1).
      by apply (overwrite_content s s1 ip x x1 src off n W (fl_size _ _ Hf)).
    + intros y Hfy Hxy. destruct (Hother y Hfy Hxy) as [Hfy1 <-]. by apply restart_content.
Qed.

Lemma file_write_atomic_witness :
  exists s1 s2 ws, writei (fun _ => None) 0 [1; 2; 3] 4 3 FsDemo.demo = Ret 3 s1 /\
    disk (io (lg s1)) = disk (io (lg FsDemo.demo)) /\
    log end_op s1 = Ret tt s2 /\ writes (io (lg s2)) = writes (io (lg s1)) ++ ws /\
    forall j, exists r,
      initlog 1 (LogFacts.boot (LogFacts.crash ws j (disk (io (lg FsDemo.demo)))) (disksize (io (lg FsDemo.demo)))) = Ret tt r /\
      let sr := with_lg r FsDemo.demo in
      let now := content sr (ondisk sr (inum FsDemo.file2) FsDemo.file2) in
      (now = content FsDemo.demo FsDemo.file2 \/
       now = overwrite (content FsDemo.demo FsDemo.file2) 4 (take (Z.to_nat 3) [1; 2; 3])) /\
      forall y, file_ok FsDemo.demo y -> apart FsDemo.demo FsDemo.file2 y ->
        content sr y = content FsDemo.demo y.
Proof.
  apply (file_write_atomic (fun _ => None) FsDemo.demo 0 FsDemo.file2 FsDemo.paid 4 3 [1; 2; 3]).
  - apply (FsDemo.demo_open 2 5 40). lia.
  - apply FsDemo.demo_ftx. vm_compute. lia.
  - vm_compute. reflexivity.
  - cbn. lia.
  - lia.
  - unfold MAXFILE, NDIRECT, NINDIRECT, bsize. lia.
  - cbn. lia.
  - repeat (apply Forall_cons; split; [unfold byte; lia|]). apply Forall_nil_2.
  - left. vm_compute. reflexivity.
  - reflexivity.
  - apply FsDemo.demo_held.
  - reflexivity.
  - vm_compute. reflexivity.
Defined.

(** ** Allocating blocks and emptying a file *)

(** C11: [balloc] in a transaction that has room for one more block: while a block
    is free it returns the first one, zeroed, marks it used and changes no
    other block, bit or field; when none is free the kernel panics. *)
Theorem balloc_spec s hl F k :
  tx s hl F (S k) -> fs_ok s -> holds_data s hl -> bitmap_paid s F ->
  (forall b, 0 <= b < size (sb s) -> used s b = false -> (forall c, 0 <= c < b -> used s c = true) ->
    exists s', balloc 1 s = Ret b s' /\ tx s' hl ({[b]} ∪ F) k /\ keeps s s' /\ fs_ok s' /\
      data_block s b /\ val s' b = replicate BSIZE 0 /\
      (forall m, m <> b -> ~ bitmap_block s m -> val s' m = val s m) /\
      (forall c, 0 <= c < size (sb s) -> used s' c = bool_decide (b = c) || used s c)) /\
  ((forall c, 0 <= c < size (sb s) -> used s c = true) -> balloc 1 s = Panic "balloc: out of blocks").
Proof.
  intros Ht Hok Hhd HF. split.
  - intros b Hb Hu Hlow. destruct (balloc_ok s hl F k b Ht Hok Hhd HF Hb Hu Hlow) as (s' & R & T & []).
    by exists s'.
  - intros Hu. apply (balloc_full s hl F (S k)); done.
Qed.

Lemma balloc_spec_witness :
  (forall b, 0 <= b < 60 -> used FsDemo.demo b = false -> (forall c, 0 <= c < b -> used FsDemo.demo c = true) ->
    exists s', balloc 1 FsDemo.demo = Ret b s' /\ tx s' [] ({[b]} ∪ FsDemo.paid) 3 /\ keeps FsDemo.demo s' /\
      fs_ok s' /\ data_block FsDemo.demo b /\ val s' b = replicate BSIZE 0 /\
      (forall m, m <> b -> ~ bitmap_block FsDemo.demo m -> val s' m = val FsDemo.demo m) /\
      (forall c, 0 <= c < 60 -> used s' c = bool_decide (b = c) || used FsDemo.demo c)) /\
  ((forall c, 0 <= c < 60 -> used FsDemo.demo c = true) ->
    balloc 1 FsDemo.demo = Panic "balloc: out of blocks").
Proof.
  apply (balloc_spec FsDemo.demo [] FsDemo.paid 3).
  - apply FsDemo.demo_tx. vm_compute. lia.
  - apply FsDemo.demo_ok.
  - split; [cbn; lia|]. intros n Hn. by apply not_elem_of_nil in Hn.
  - apply (ft_bitmap _ _ _ _ (FsDemo.demo_ftx 0 2 5 40 ltac:(lia))).
Defined.

(** C10: [itrunc]: every block of the file, direct, indirect and the indirect block
    itself, is free afterwards, no other block is freed, the inode in memory
    and on disk is the same one emptied, and any other file keeps its content,
    its blocks and its inode.  It needs no room beyond the bitmap and the
    inode's block. *)
Theorem itrunc_spec s ip x F k :
  tx s [] F k -> fs_ok s -> file_ok s x -> icache s !! ip = Some x -> bitmap_paid s F ->
  IBLOCK (inum x) (sb s) ∈ F ->
  exists s', itrunc ip s = Ret tt s' /\ tx s' [] F k /\ fs_ok s' /\
    icache s' = <[ip := truncated x]> (icache s) /\ content s' (truncated x) = [] /\
    (forall z, ondisk s' (inum x) z = dinode_of (truncated x) z) /\
    (forall c, 0 <= c < size (sb s) -> used s' c = true <-> used s c = true /\ ~ has_block s x c) /\
    forall y, file_ok s y -> apart s x y ->
      file_ok s' y /\ content s' y = content s y /\ forall z, ondisk s' (inum y) z = ondisk s (inum y) z.
Proof.
  intros Ht Hok Hf Hx HF Hib. destruct (itrunc_ok s ip x F k Ht Hok Hf Hx HF Hib) as (s' & R & T & D).
  exists s'. split; [done|]. split; [done|]. split; [apply D|].
  split; [by rewrite (kp_fs _ _ (td_keeps _ _ _ _ _ D))|]. split; [done|]. split; [apply D|]. split; [apply D|].
  intros y Hy Hxy. split; [by apply (trunc_file s s' ip x (truncated x) y)|].
  split; [by apply (trunc_content s s' ip x (truncated x) y)|].
  intros z. apply (td_inodes _ _ _ _ _ D); [apply Hy|]. intros E. by destruct Hxy.
Qed.

Lemma itrunc_spec_witness :
  exists s', itrunc 0 FsDemo.demo = Ret tt s' /\ tx s' [] FsDemo.paid 0 /\ fs_ok s' /\
    icache s' = <[0%nat := truncated FsDemo.file2]> (icache FsDemo.demo) /\
    content s' (truncated FsDemo.file2) = [] /\
    (forall z, ondisk s' 2 z = dinode_of (truncated FsDemo.file2) z) /\
    (forall c, 0 <= c < 60 -> used s' c = true <->
      used FsDemo.demo c = true /\ ~ has_block FsDemo.demo FsDemo.file2 c) /\
    forall y, file_ok FsDemo.demo y -> apart FsDemo.demo FsDemo.file2 y ->
      file_ok s' y /\ content s' y = content FsDemo.demo y /\
      forall z, ondisk s' (inum y) z = ondisk FsDemo.demo (inum y) z.
Proof.
  apply (itrunc_spec FsDemo.demo 0 FsDemo.file2 FsDemo.paid 0).
  - apply FsDemo.demo_tx. vm_compute. lia.
  - apply FsDemo.demo_ok.
  - apply FsDemo.demo_file; lia.
  - reflexivity.
  - apply (ft_bitmap _ _ _ _ (FsDemo.demo_ftx 0 2 5 40 ltac:(lia))).
  - vm_compute. reflexivity.
Defined.
