(* ===== verification/FsDirSpec.v ===== *)
(** * What directories and the inode cache promise

    [dirlookup] and [dirlink] as a lookup and an insertion in the map of a
    directory, [iget] and [iput] on the cache; each with a small file system
    that satisfies its hypotheses. *)

From stdpp Require Import gmap.
From S2P Require Import Prelude Locks Bio Log LogFacts Fs FsTx FsBlocks FsInode FsFile FsRW FsTrunc FsCache FsDir FsPath FsSpec.
Import Bio BioFacts Log Fs.

(** ** A directory *)

Module DirDemo.

(** Inode 2 is a directory of three entries: ".", an empty one, and "ab". *)
Definition dir2 : inode := FsDemo.ino T_DIR 2 48 40.
Definition block : list Z := dirent 2 [46] ++ replicate 16 0 ++ dirent 3 [97; 98] ++ replicate 464 0.
Definition inodes : list Z := put_dinode (FsDemo.ino T_FILE 3 0 0) 3 (put_dinode dir2 2 (replicate BSIZE 0)).
Definition unused : inode :=
  {| idev := 0; inum := 0; iref := 0; ilocked := false; ivalid := false; type := 0; major := 0;
     minor := 0; nlink := 0; isize := 0; addrs := replicate 13 0 |}.
Definition demo : fst := FsDemo.small inodes block [dir2; unused].

Lemma dir_tx F k : (base.size F + k <= 27)%nat -> tx demo [] F k.
Proof. apply FsDemo.small_tx. Qed.
Lemma dir_ftx k : (k <= 20)%nat -> ftx demo dir2 FsDemo.paid k.
Proof. apply FsDemo.small_ftx. Qed.

Lemma dir_dir : open_dir demo 0 dir2.
Proof.
  split; [|done..]. apply FsDemo.small_open; try (done || lia).
Qed.

Lemma dir_content : content demo dir2 = take 48 block.
Proof. vm_compute. reflexivity. Qed.

Lemma name_bytes l : forallb (fun v => (0 <=? v) && (v <? 256)) l = true -> Forall byte l.
Proof.
  intros H. apply Forall_forall. intros v Hv%list_elem_of_In. rewrite forallb_forall in H. apply H in Hv.
  unfold byte. bools. lia.
Qed.

End DirDemo.

(** C7: [dirlookup] is a lookup in the map from names to inode numbers that the
    bytes of the directory denote: it returns null exactly for a name that is
    not there, else a reference to the inode of the name, from the cache, and
    the offset of its entry, or panics when the cache is full; the disk and
    every file stay as they are. *)
Theorem dirlookup_spec rd s ip x F k name :
  open_dir s ip x -> tx s [] F k -> icache_lk s = false -> Forall byte name ->
  match dir_map (content s x) !! canon name with
  | None => exists s', dirlookup rd ip name s = Ret None s' /\ tx s' [] F k /\ same s s'
  | Some n =>
      match iget_slot (icache s) 1 n with
      | Some (np, ic) => exists i s', dirlookup rd ip name s = Ret (Some (np, 16 * Z.of_nat i)) s' /\
          dir_find (content s x) name = Some i /\ tx s' [] F k /\ moved ic s s'
      | None => dirlookup rd ip name s = Panic "iget: no inodes"
      end
  end.
Proof.
  intros Hd Ht Hl Hn. pose proof (dir_find_lookup _ _ Hn (content_bytes s x (of_ok _ _ _ (od_file _ _ _ Hd)))) as Hf.
  assert (L : forall bl, held s bl [] -> (length bl < 29)%nat ->
    lookup_out bl s (content s x) (dir_find (content s x) name) (dirlookup rd ip name s)).
  { intros bl Hh Hlen. by apply dirlookup_ok. }
  destruct (dir_find (content s x) name) as [i|] eqn:Ef.
  - destruct Hf as [_ ->]. cbn [lookup_out] in L. destruct (iget_slot _ _ _) as [[np ic]|].
    + destruct (moved_tx _ _ _ _ _ _ (Some (np, 16 * Z.of_nat i)) (fun bl H1 H2 => L bl H1 H2) Ht) as (s' & R & T & M).
      by exists i, s'.
    + destruct Ht as (bl & Htr & Hh & _ & Hk). apply (L bl Hh). by eapply tx_len.
  - rewrite Hf. cbn [lookup_out] in L.
    destruct (tx_run (dirlookup rd ip name) s [] F k (fun r _ => r = None) (fun _ => []) Ht) as (r & s' & R & T & S & ->).
    { intros bl Hh Hlen. destruct (L bl Hh Hlen) as (s' & ? & ? & ?). by exists None, s'. }
    by exists s'.
Qed.

Lemma dirlookup_spec_witness :
  exists i s', dirlookup (fun _ => None) 0 [97; 98] DirDemo.demo = Ret (Some (1%nat, 16 * Z.of_nat i)) s' /\
    dir_find (content DirDemo.demo DirDemo.dir2) [97; 98] = Some i /\ tx s' [] FsDemo.paid 2 /\
    moved [DirDemo.dir2; fresh_inode 1 3 DirDemo.unused] DirDemo.demo s'.
Proof.
  pose proof (dirlookup_spec (fun _ => None) DirDemo.demo 0 DirDemo.dir2 FsDemo.paid 2 [97; 98] DirDemo.dir_dir
    (DirDemo.dir_tx FsDemo.paid 2 ltac:(vm_compute; lia)) eq_refl (DirDemo.name_bytes [97; 98] eq_refl)) as H.
  assert (E : dir_map (content DirDemo.demo DirDemo.dir2) !! canon [97; 98] = Some 3) by (vm_compute; reflexivity).
  rewrite E in H. exact H.
Defined.

(** C6: [dirlink] is an insertion in that map: a name that is not there gets
    its entry, the first empty one or a new one at the end, and no other name,
    file or inode changes; a name that is there is refused with -1, the
    directory stays and the reference taken for the check is given back. *)
Theorem dirlink_spec rd wr s ip x F k name i :
  open_dir s ip x -> ftx s x F (S k) -> icache_lk s = false -> Forall byte name -> 0 < i < 65536 ->
  let c := content s x in
  let off := 16 * Z.of_nat (dir_free c) in
  (dir_map c !! canon name = None -> IBLOCK (inum x) (sb s) ∈ F -> off + 16 <= MAXFILE * bsize ->
   room s x (visit off 16) ->
   exists s' x' F', dirlink rd wr ip name i s = Ret 0 s' /\ ftx s' x' F' k /\ open_dir s' ip x' /\
     dir_map (content s' x') = <[canon name := i]> (dir_map c) /\
     forall y, file_ok s y -> apart s x y ->
       file_ok s' y /\ content s' y = content s y /\ forall z, ondisk s' (inum y) z = ondisk s (inum y) z) /\
  (forall n np ic, dir_map c !! canon name = Some n -> iget_slot (icache s) 1 n = Some (np, ic) ->
   (forall y, icache s !! np = Some y -> ilocked y = false) ->
   exists s', dirlink rd wr ip name i s = Ret (-1) s' /\ moved (alter less np ic) s s').
Proof.
  intros Hd Hft Hl Hname Hi c off. pose proof (od_file _ _ _ Hd) as [Hok Hf _ _ _ _]. split.
  - intros Hn Hib Hend Hroom.
    destruct (dirlink_new rd wr s ip x F k name i Hd Hl Hname Hft Hib Hi Hn Hend Hroom) as (s' & x' & F' & R & T & D & C & E).
    exists s', x', F'. split; [done|]. split; [done|]. split; [done|]. split; [done|]. intros y Hy Hxy.
    destruct (other_file true s s' ip x x' y Hok C Hy Hxy Hf) as (? & _ & ?). split; [done|]. split; [|done].
    by apply (content_other true s s' ip x x').
  - intros n np ic Hn Hg Hnp. pose proof (dir_find_lookup c name Hname (content_bytes s x Hok)) as Hfind.
    destruct (dir_find c name) as [j|] eqn:Ef; [|congruence]. destruct Hfind as [_ Hj].
    assert (n = de_inum (entry c j)) as -> by congruence.
    destruct (dirlink_old rd wr s ip x F _ name i Hd Hl j np ic (ft_tx _ _ _ _ Hft) Ef Hg Hnp) as (s' & R & _ & M).
    by exists s'.
Qed.

Lemma dirlink_spec_witness :
  let c := content DirDemo.demo DirDemo.dir2 in
  (exists s' x' F', dirlink (fun _ => None) (fun _ => None) 0 [99] 3 DirDemo.demo = Ret 0 s' /\ ftx s' x' F' 2 /\
     open_dir s' 0 x' /\ dir_map (content s' x') = <[canon [99] := 3]> (dir_map c) /\
     forall y, file_ok DirDemo.demo y -> apart DirDemo.demo DirDemo.dir2 y ->
       file_ok s' y /\ content s' y = content DirDemo.demo y /\
       forall z, ondisk s' (inum y) z = ondisk DirDemo.demo (inum y) z) /\
  exists ic s', iget_slot (icache DirDemo.demo) 1 3 = Some (1%nat, ic) /\
    dirlink (fun _ => None) (fun _ => None) 0 [97; 98] 3 DirDemo.demo = Ret (-1) s' /\ moved (alter less 1%nat ic) DirDemo.demo s'.
Proof.
  assert (Ef : dir_free (content DirDemo.demo DirDemo.dir2) = 1%nat) by (vm_compute; reflexivity). split.
  - apply (proj1 (dirlink_spec (fun _ => None) (fun _ => None) DirDemo.demo 0 DirDemo.dir2 FsDemo.paid 2 [99] 3
      DirDemo.dir_dir (DirDemo.dir_ftx 3 ltac:(lia)) eq_refl (DirDemo.name_bytes [99] eq_refl) ltac:(lia))).
    + vm_compute. reflexivity.
    + vm_compute. reflexivity.
    + rewrite Ef. vm_compute. done.
    + rewrite Ef. left. vm_compute. reflexivity.
  - exists [DirDemo.dir2; fresh_inode 1 3 DirDemo.unused]. destruct (proj2 (dirlink_spec (fun _ => None) (fun _ => None) DirDemo.demo 0 DirDemo.dir2 FsDemo.paid 2 [97; 98] 3
      DirDemo.dir_dir (DirDemo.dir_ftx 3 ltac:(lia)) eq_refl (DirDemo.name_bytes [97; 98] eq_refl) ltac:(lia))
      3 1%nat [DirDemo.dir2; fresh_inode 1 3 DirDemo.unused]) as (s' & R & M).
    + vm_compute. reflexivity.
    + reflexivity.
    + by intros y [= <-].
    + exists s'. split; [reflexivity|]. split; [exact R|exact M].
Defined.

(** ** The inode cache *)

(** One slot per inode in use. *)
Definition one_slot (ic : list inode) : Prop :=
  forall p q y z dv i, ic !! p = Some y -> ic !! q = Some z -> in_use dv i y -> in_use dv i z -> p = q.

Lemma one_slot_insert ic np y dv i x :
  one_slot ic -> ic !! np = Some x -> in_use dv i y ->
  (in_use dv i x \/ forall q z, ic !! q = Some z -> ~ in_use dv i z) -> one_slot (<[np := y]> ic).
Proof.
  intros H Hx Hy Hc p q a b dv' i' Ha Hb Ca Cb.
  assert (K : forall r c, ic !! r = Some c -> r <> np -> in_use dv i c -> False).
  { intros r c Hr Hne Cc. destruct Hc as [Cx|Hc]; [|by apply (Hc r c)]. apply Hne. by apply (H r np c x dv i). }
  assert (E : dv' = dv /\ i' = i \/ p <> np /\ q <> np \/ p = q).
  { destruct (decide (p = np)) as [->|], (decide (q = np)) as [->|]; auto.
    - rewrite list_lookup_insert_eq in Ha by (by eapply lookup_lt_Some). injection Ha as <-. left. unfold in_use in *. intuition congruence.
    - rewrite list_lookup_insert_eq in Hb by (by eapply lookup_lt_Some). injection Hb as <-. left. unfold in_use in *. intuition congruence. }
  destruct (decide (p = q)) as [|Hpq]; [done|]. destruct (decide (p = np)) as [->|Hp].
  - rewrite list_lookup_insert_ne in Hb by done. destruct E as [[-> ->]|[[? _]|?]]; [|done..]. exfalso. by apply (K q b).
  - rewrite list_lookup_insert_ne in Ha by done. destruct (decide (q = np)) as [->|Hq].
    + destruct E as [[-> ->]|[[_ ?]|?]]; [|done..]. exfalso. by apply (K p a).
    + rewrite list_lookup_insert_ne in Hb by done. by apply (H p q a b dv' i').
Qed.

(** C9: [iget]: an inode in use has one slot of the cache and keeps one.  The
    slot returned is that of the inode with its count raised, or, when the
    inode is in none, a slot out of use set up for it and not read from disk
    yet; the kernel panics exactly when there is neither.  Nothing else of the
    cache, of the disk or of any file changes. *)
Theorem iget_spec s hl F k dv i :
  tx s hl F k -> icache_lk s = false -> one_slot (icache s) ->
  (exists np x y s', iget dv i s = Ret np s' /\ tx s' hl F k /\ moved (<[np := y]> (icache s)) s s' /\
     icache s !! np = Some x /\ one_slot (<[np := y]> (icache s)) /\ in_use dv i y /\
     (in_use dv i x /\ y = more x \/
      iref x = 0 /\ (forall q z, icache s !! q = Some z -> ~ in_use dv i z) /\ iref y = 1 /\ ivalid y = false)) \/
  (iget dv i s = Panic "iget: no inodes" /\
     forall q z, icache s !! q = Some z -> iref z <> 0 /\ ~ in_use dv i z).
Proof.
  intros Ht Hl Ho.
  assert (G : forall bl, held s bl hl -> (length bl < 29)%nat -> match iget_slot (icache s) dv i with
    | Some (ip, ic) => exists s', iget dv i s = Ret ip s' /\ held s' bl hl /\ moved ic s s'
    | None => iget dv i s = Panic "iget: no inodes" end) by (intros bl Hh _; by apply iget_ok).
  unfold iget_slot in G.
  assert (N : find_idx (is_hit dv i) (icache s) = None -> forall q z, icache s !! q = Some z -> ~ in_use dv i z).
  { intros Hnone q z Hz Cz. apply find_idx_None in Hnone. rewrite Forall_lookup in Hnone. specialize (Hnone q z Hz).
    apply is_hit_in_use in Cz. congruence. }
  destruct (find_idx (is_hit dv i) (icache s)) as [np|] eqn:Eh; [left|destruct (find_idx is_free (icache s)) as [np|] eqn:Ef; [left|right]].
  - destruct (moved_tx _ _ _ _ _ _ _ G Ht) as (s' & R & T & M).
    apply find_idx_Some in Eh as (x & Hx & Hit & _). apply is_hit_in_use in Hit. exists np, x, (more x), s'.
    rewrite (alter_insert _ _ _ _ Hx) in M.
    assert (Cm : in_use dv i (more x)) by (unfold in_use in *; cbn; lia).
    do 4 (split; [done|]). split; [by apply (one_slot_insert _ _ _ dv i x); auto|]. split; [done|by left].
  - cbn [fmap option_fmap option_map] in G. destruct (moved_tx _ _ _ _ _ _ _ G Ht) as (s' & R & T & M).
    apply find_idx_Some in Ef as (x & Hx & Hfr & _). unfold is_free in Hfr. apply Z.eqb_eq in Hfr.
    rewrite (alter_insert _ _ _ _ Hx) in M. exists np, x, (fresh_inode dv i x), s'.
    assert (Cm : in_use dv i (fresh_inode dv i x)) by (unfold in_use; cbn; lia).
    specialize (N eq_refl).
    do 4 (split; [done|]). split; [apply (one_slot_insert _ _ _ dv i x); auto|]. split; [done|right; split_and!; auto].
  - split; [destruct Ht as (bl & Htr & Hh & _ & Hk); apply (G bl Hh); by eapply tx_len|].
    intros q z Hz. split; [|by apply (N eq_refl q)]. apply find_idx_None in Ef. rewrite Forall_lookup in Ef.
    specialize (Ef q z Hz). unfold is_free in Ef. by apply Z.eqb_neq in Ef.
Qed.

Lemma iget_spec_witness :
  (exists np x y s', iget 1 3 DirDemo.demo = Ret np s' /\ tx s' [] FsDemo.paid 2 /\
     moved (<[np := y]> (icache DirDemo.demo)) DirDemo.demo s' /\
     icache DirDemo.demo !! np = Some x /\ one_slot (<[np := y]> (icache DirDemo.demo)) /\ in_use 1 3 y /\
     (in_use 1 3 x /\ y = more x \/
      iref x = 0 /\ (forall q z, icache DirDemo.demo !! q = Some z -> ~ in_use 1 3 z) /\ iref y = 1 /\ ivalid y = false)) \/
  (iget 1 3 DirDemo.demo = Panic "iget: no inodes" /\
     forall q z, icache DirDemo.demo !! q = Some z -> iref z <> 0 /\ ~ in_use 1 3 z).
Proof.
  apply (iget_spec DirDemo.demo [] FsDemo.paid 2 1 3).
  - apply DirDemo.dir_tx. vm_compute. lia.
  - reflexivity.
  - intros [|[|p]] [|[|q]] y z dv i Hy Hz; try done; injection Hy as <-; injection Hz as <-; unfold in_use; cbn; lia.
Defined.

(** C8: [iput] gives a reference back.  Unless it is the last one to a valid
    inode without links, the count of the slot goes down and nothing else
    changes.  The last reference to an inode without links frees every block
    of its file and no other, marks the inode free on disk, and leaves every
    other inode on disk as it is and the slot out of use. *)
Theorem iput_spec s ip x F k :
  tx s [] F k -> icache_lk s = false -> icache s !! ip = Some x -> ilocked x = false ->
  ((ivalid x = true -> nlink x = 0 -> iref x <> 1) ->
   exists s', iput ip s = Ret tt s' /\ tx s' [] F k /\ moved (<[ip := less x]> (icache s)) s s') /\
  (ivalid x = true -> nlink x = 0 -> iref x = 1 -> fs_ok s -> file_ok s x -> bitmap_paid s F ->
   IBLOCK (inum x) (sb s) ∈ F ->
   exists s', iput ip s = Ret tt s' /\ tx s' [] F k /\ fs_ok s' /\
     icache s' = <[ip := gone x]> (icache s) /\ (forall z, type (ondisk s' (inum x) z) = 0) /\
     (forall c, 0 <= c < size (sb s) -> used s' c = true <-> used s c = true /\ ~ has_block s x c) /\
     forall i z, 0 <= i < ninodes (sb s) -> i <> inum x -> ondisk s' i z = ondisk s i z).
Proof.
  intros Ht Hl Hx Hlk. split.
  - intros Hkeep. apply moved_tx; [|done]. intros bl Hh _. by apply iput_ok.
  - intros Hv Hn Hr Hok Hf HF Hib.
    destruct (iput_last s ip x F k Ht Hok Hf Hx Hl Hlk Hv Hn Hr HF Hib) as (s' & R & T & []). by exists s'.
Qed.

Module UnlinkedDemo.

(** The file of [FsDemo] without links, one reference to it. *)
Definition file : inode :=
  {| idev := 1; inum := 2; iref := 1; ilocked := false; ivalid := true; type := T_FILE; major := 0;
     minor := 0; nlink := 0; isize := 5; addrs := 40 :: replicate 12 0 |}.
Definition demo : fst := FsDemo.small FsDemo.inodes (FsDemo.text ++ replicate 507 0) [file].

Lemma unl_ok : fs_ok demo.
Proof. by apply FsDemo.small_ok. Qed.
Lemma unl_file : file_ok demo file.
Proof.
  apply (file_ok_meta demo (FsDemo.ino T_FILE 2 5 40)); try done.
  - split; cbn; try lia; try done. unfold LogFacts.words. repeat (apply Forall_cons; split; [lia|]). apply Forall_nil_2.
  - apply FsDemo.small_file; unfold T_FILE; lia.
Qed.

End UnlinkedDemo.

Lemma iput_spec_witness :
  exists s', iput 0 UnlinkedDemo.demo = Ret tt s' /\ tx s' [] FsDemo.paid 2 /\ fs_ok s' /\
    icache s' = [gone UnlinkedDemo.file] /\ (forall z, type (ondisk s' 2 z) = 0) /\
    (forall c, 0 <= c < 60 -> used s' c = true <->
       used UnlinkedDemo.demo c = true /\ ~ has_block UnlinkedDemo.demo UnlinkedDemo.file c) /\
    forall i z, 0 <= i < 16 -> i <> 2 -> ondisk s' i z = ondisk UnlinkedDemo.demo i z.
Proof.
  apply (proj2 (iput_spec UnlinkedDemo.demo 0 UnlinkedDemo.file FsDemo.paid 2
    ltac:(apply FsDemo.small_tx; vm_compute; lia) eq_refl eq_refl eq_refl)).
  - reflexivity.
  - reflexivity.
  - reflexivity.
  - apply UnlinkedDemo.unl_ok.
  - apply UnlinkedDemo.unl_file.
  - intros m Hm. unfold bitmap_block in Hm. change (bmapstart (sb UnlinkedDemo.demo)) with 34 in Hm.
    change (meta_end UnlinkedDemo.demo) with 35 in Hm. assert (m = 34) as -> by lia. unfold FsDemo.paid. clear. set_solver.
  - vm_compute. reflexivity.
Defined.

(** ** Paths *)

Module PathDemo.

(** Inode 1, the root, holds "." and "ab", a file without bytes. *)
Definition root : inode :=
  {| idev := 1; inum := 1; iref := 1; ilocked := false; ivalid := true; type := T_DIR; major := 0;
     minor := 0; nlink := 1; isize := 32; addrs := 40 :: replicate 12 0 |}.
Definition block : list Z := dirent 1 [46] ++ dirent 3 [97; 98] ++ replicate 480 0.
Definition inodes : list Z := put_dinode (FsDemo.ino T_FILE 3 0 0) 3 (put_dinode root 1 (replicate BSIZE 0)).
Definition demo : fst := FsDemo.small inodes block [root; DirDemo.unused; DirDemo.unused].
Definition path : list Z := [47; 46; 47; 97; 98].

Lemma path_ok : fs_ok demo.
Proof. by apply FsDemo.small_ok. Qed.
Lemma path_val m : val demo m = FsDemo.the_disk inodes block m.
Proof. apply FsDemo.small_val. Qed.

Lemma path_root z : ondisk demo 1 z = dinode_of root z.
Proof. unfold ondisk. rewrite path_val. vm_compute. reflexivity. Qed.
Lemma path_map : dir_map (content demo (dnode demo 1)) = <[canon [46] := 1]> (<[canon [97; 98] := 3]> ∅).
Proof. vm_compute. reflexivity. Qed.
Lemma path_dirs : forallb (fun i => negb (type (dnode demo i) =? T_DIR) || (i =? 1)) (seqZ 0 16) = true.
Proof. vm_compute. reflexivity. Qed.

Lemma path_alive i : i = 1 \/ i = 3 -> alive demo i.
Proof. intros [->| ->]; (split; [cbn; lia|]); split; vm_compute; done. Qed.

Lemma path_file : file_ok demo (dnode demo 1).
Proof.
  unfold dnode. rewrite path_root. apply (file_ok_meta demo (FsDemo.ino T_DIR 1 32 40)); try done.
  - split; cbn; try lia; try done. unfold LogFacts.words. repeat (apply Forall_cons; split; [lia|]). apply Forall_nil_2.
  - apply FsDemo.small_file; unfold T_DIR; lia.
Qed.

Lemma path_tree : tree_ok demo.
Proof.
  split; [apply path_ok|done|]. intros i (Hi & _ & _) Ht. pose proof path_dirs as H. rewrite forallb_forall in H.
  specialize (H i). rewrite Ht in H. cbn [Z.eqb Pos.eqb negb orb] in H.
  assert (i = 1) as ->. { apply Z.eqb_eq, H, list_elem_of_In, elem_of_seqZ. cbn in Hi. lia. }
  split.
  - apply path_file.
  - unfold dnode. rewrite path_root. intros o Ho. cbn in Ho. unfold slot. rewrite Z.div_small by (unfold bsize; lia). done.
  - unfold dnode. by rewrite path_root.
  - intros name n. rewrite path_map. intros H1. apply path_alive.
    apply lookup_insert_Some in H1 as [[_ <-]|[_ H1]]; [by left|].
    apply lookup_insert_Some in H1 as [[_ <-]|[_ H1]]; [by right|done].
Qed.

Lemma path_ready : walk_ready demo 0 1.
Proof.
  split.
  - apply path_tree.
  - intros [|[|[|q]]] x Hx; try done; injection Hx as <-; (split; [|done]); intros Hr Hv; [apply path_root|done..].
  - repeat (apply Forall_cons; split; [cbn; lia|]). apply Forall_nil_2.
  - by exists 1%nat, 2%nat.
  - apply path_alive. by left.
  - exists root. split; [done|]. unfold in_use. cbn. lia.
  - apply path_alive. by left.
Qed.

End PathDemo.

(** C4: [namei] and [nameiparent] follow a path through the tree of directories
    that the disk denotes, from the root for a path that begins with a slash and
    from the current directory else: [namei] returns a reference to the inode
    the walk ends at, and null exactly when an element is missing or the inode
    before it is no directory; [nameiparent] stops at the directory of the last
    element and copies that element.  The walk terminates, takes one reference
    more on success and none on failure, leaves no inode locked, and changes
    neither the disk nor any file. *)
Theorem namei_spec rd s F k cwd i path :
  tx s [] F k -> walk_ready s cwd i -> Forall byte path ->
  (exists s', match walk (tree s) (origin path i) (elements path) with
    | Some j => exists np, namei rd cwd path s = Ret (Some np) s' /\ one_more s s' np j
    | None => namei rd cwd path s = Ret None s' /\ no_more s s'
    end /\ tx s' [] F k /\ moved (icache s') s s') /\
  (exists s', match walk_parent (tree s) (origin path i) (elements path) with
    | Some (j, last) => exists np, nameiparent rd cwd path s = Ret (Some (np, last)) s' /\ one_more s s' np j
    | None => nameiparent rd cwd path s = Ret None s' /\ no_more s s'
    end /\ tx s' [] F k /\ moved (icache s') s s').
Proof.
  intros Ht Hw Hb. split.
  - destruct (namex_tx rd s F k cwd i path false Ht Hw Hb) as (r & s' & R & T & M & O). exists s'. split; [|done].
    rewrite <- (goal_walk _ _ _ []). unfold namei.
    destruct (goal _ _ _ _ _) as [[j l]|]; cbn [fmap option_fmap option_map Datatypes.fst].
    + destruct O as (np & -> & O). exists np. split; [|done]. by rewrite (bind_eq _ _ _ _ _ R).
    + destruct O as [-> O]. split; [|done]. by rewrite (bind_eq _ _ _ _ _ R).
  - destruct (namex_tx rd s F k cwd i path true Ht Hw Hb) as (r & s' & R & T & M & O). exists s'. split; [|done].
    rewrite <- (goal_walk_parent _ _ _ []). unfold nameiparent.
    destruct (goal _ _ _ _ _) as [[j l]|].
    + destruct O as (np & -> & O). by exists np.
    + by destruct O as [-> O].
Qed.

Lemma namei_spec_witness :
  exists s' np, namei (fun _ => None) 0 PathDemo.path PathDemo.demo = Ret (Some np) s' /\ one_more PathDemo.demo s' np 3.
Proof.
  pose proof (namei_spec (fun _ => None) PathDemo.demo FsDemo.paid 2 0 1 PathDemo.path
    ltac:(apply FsDemo.small_tx; vm_compute; lia) PathDemo.path_ready (DirDemo.name_bytes PathDemo.path eq_refl)) as [(s' & H & _) _].
  assert (E : walk (tree PathDemo.demo) (origin PathDemo.path 1) (elements PathDemo.path) = Some 3) by (vm_compute; reflexivity).
  rewrite E in H. destruct H as (np & H). exists s', np. exact H.
Defined.
