(* ===== verification/Mkfs.v ===== *)
(** * Building a file system image

    [mkfs.c], the host program that writes the first disk.  The image file is
    its sectors and their number; a [struct dinode] in memory is the inode
    record of the file system with its fields of the cache blank, and its bytes
    on disk are laid out as [put_dinode] and [get_dinode] say.  The output is
    little-endian whatever the host is, so [xint] and [xshort] are the
    identity on what is stored.  An [exit(1)] or a failed [assert] is a panic. *)

From S2P Require Import Prelude Locks Bio Log Fs.

Module Mkfs.
Import Fs.

Definition FSSIZE : Z := 1000.
Definition NINODES : Z := 200.

Definition nbitmap : Z := FSSIZE / (bsize * 8) + 1.
Definition ninodeblocks : Z := NINODES / IPB + 1.
Definition nlog : Z := Z.of_nat Log.LOGSIZE.
Definition nmeta : Z := 2 + nlog + ninodeblocks + nbitmap.

(** The image file, and the two counters. *)
Record img := { sectors : Z -> list Z; nsect : Z; freeinode : Z; freeblock : Z }.

Definition with_sectors d n s := {| sectors := d; nsect := n; freeinode := freeinode s; freeblock := freeblock s |}.
Definition with_freeinode v s := {| sectors := sectors s; nsect := nsect s; freeinode := v; freeblock := freeblock s |}.
Definition with_freeblock v s := {| sectors := sectors s; nsect := nsect s; freeinode := freeinode s; freeblock := v |}.

Definition zeroes : list Z := replicate Bio.BSIZE 0.

(** [O_TRUNC]; bytes never written read as zeros. *)
Definition empty : img := {| sectors := fun _ => zeroes; nsect := 0; freeinode := 1; freeblock := 0 |}.

Definition wsect (sec : Z) (buf : list Z) : M img unit :=
  modify (fun s => with_sectors (fun m => if m =? sec then buf else sectors s m) (Z.max (nsect s) (sec + 1)) s).
(** A read past the end of the file comes back short. *)
Definition rsect (sec : Z) : M img (list Z) :=
  let! s := get in
  if sec <? nsect s then ret (sectors s sec) else panic "read".

Definition sb_words : list Z :=
  [FSSIZE; FSSIZE - nmeta; NINODES; nlog; 2; 2 + nlog; 2 + nlog + ninodeblocks].
Definition sb : superblock := sb_of sb_words.
Definition sb_sector : list Z := foldl (fun d k => Log.st_word d k (nth k sb_words 0)) zeroes (seq 0 7).

(** [bzero(&din, sizeof(din))]. *)
Definition zero_dinode : inode :=
  {| idev := 0; inum := 0; iref := 0; ilocked := false; ivalid := false; type := 0; major := 0; minor := 0;
     nlink := 0; isize := 0; addrs := replicate 13 0 |}.

Definition winode (i : Z) (x : inode) : M img unit :=
  let! buf := rsect (IBLOCK i sb) in
  wsect (IBLOCK i sb) (put_dinode x (Z.to_nat (i mod IPB)) buf).
Definition rinode (i : Z) : M img inode :=
  let! buf := rsect (IBLOCK i sb) in
  ret (get_dinode (Z.to_nat (i mod IPB)) buf zero_dinode).

Definition ialloc (ty : Z) : M img Z :=
  let! s := get in
  let i := freeinode s in
  modify (with_freeinode (i + 1)) ;;;
  winode i (set_nlink 1 (set_type ty zero_dinode)) ;;;
  ret i.

Definition balloc (used : Z) : M img unit :=
  if used <? bsize * 8 then wsect (bmapstart sb) (foldl set_bit zeroes (seqZ 0 used))
  else panic "used < BSIZE*8".

(** [freeblock++]. *)
Definition new_block : M img Z :=
  let! s := get in modify (with_freeblock (freeblock s + 1)) ;;; ret (freeblock s).

Definition put_addr (j a : Z) (din : inode) : inode := set_addrs (<[Z.to_nat j := a]> (addrs din)) din.

(** The sector of block [fbn] of the file, which may be new. *)
Definition file_block (din : inode) (fbn : Z) : M img (Z * inode) :=
  if fbn <? NDIRECT then
    if addr_at din fbn =? 0 then let! b := new_block in ret (b, put_addr fbn b din)
    else ret (addr_at din fbn, din)
  else
    let! din :=
      (if addr_at din NDIRECT =? 0 then let! b := new_block in ret (put_addr NDIRECT b din) else ret din) in
    let! indirect := rsect (addr_at din NDIRECT) in
    let k := Z.to_nat (fbn - NDIRECT) in
    if Log.ld_word indirect k =? 0 then
      let! b := new_block in
      wsect (addr_at din NDIRECT) (Log.st_word indirect k b) ;;;
      ret (b, din)
    else ret (Log.ld_word indirect k, din).

(** The loop of [iappend]: the inode, the offset and the bytes to go. *)
Definition append_body (st : inode * Z * list Z) : M img ((inode * Z * list Z) + (inode * Z)) :=
  let '(din, off, p) := st in
  match p with
  | [] => ret (inr (din, off))
  | _ =>
      let fbn := off / bsize in
      if fbn <? MAXFILE then
        let! (x, din) := file_block din fbn in
        let n1 := Z.min (Z.of_nat (length p)) ((fbn + 1) * bsize - off) in
        let! buf := rsect x in
        wsect x (splice buf (off - fbn * bsize) (take (Z.to_nat n1) p)) ;;;
        ret (inl (din, off + n1, drop (Z.to_nat n1) p))
      else panic "fbn < MAXFILE"
  end.

Definition iappend (i : Z) (p : list Z) : M img unit :=
  let! din := rinode i in
  let! (din, off) := loop (S (S (length p))) append_body (din, isize din, p) in
  winode i (set_isize off din).

(** What [read] of 512 bytes at a time delivers. *)
Fixpoint chunks (fuel : nat) (l : list Z) : list (list Z) :=
  match fuel, l with
  | S fuel', _ :: _ => take Bio.BSIZE l :: chunks fuel' (drop Bio.BSIZE l)
  | _, _ => []
  end.

(** [++argv[i]] past a leading underscore. *)
Definition skip_underscore (name : list Z) : list Z :=
  match name with c :: name' => if c =? 95 then name' else name | [] => [] end.

Definition add_file (f : list Z * list Z) : M img unit :=
  let '(name, bytes) := f in
  if bool_decide (slash ∈ name) then panic "index(argv[i], '/') == 0"
  else
    let! i := ialloc T_FILE in
    iappend ROOTINO (dirent i (skip_underscore name)) ;;;
    for_each (chunks (S (length bytes)) bytes) (iappend i).

(** [main]: the files are those of the command line that could be opened. *)
Definition main (files : list (list Z * list Z)) : M img unit :=
  modify (with_freeblock nmeta) ;;;
  for_each (seqZ 0 FSSIZE) (fun i => wsect i zeroes) ;;;
  wsect 1 sb_sector ;;;
  let! rootino := ialloc T_DIR in
  (if rootino =? ROOTINO then ret tt else panic "rootino == ROOTINO") ;;;
  iappend rootino (dirent rootino [46]) ;;;
  iappend rootino (dirent rootino [46; 46]) ;;;
  for_each files add_file ;;;
  let! din := rinode rootino in
  winode rootino (set_isize ((isize din / bsize + 1) * bsize) din) ;;;
  let! s := get in
  balloc (freeblock s).

End Mkfs.
