(* ===== verification/MkfsFacts.v ===== *)
(** * Building a file system image: its lemmas

    An image in the making, seen as the file system that will read it: each
    file has its blocks, below the counter, and nobody else's; everything past
    the counter is zero.  Appending lengthens one file and leaves the others
    alone. *)

From S2P Require Import Prelude Locks Bio Log LogFacts Fs FsTx FsBlocks FsInode FsFile FsRW FsDir FsPath Mkfs.
Import Mkfs Bio BioFacts Log Fs.

(** The file system on the image, as the kernel finds it after [initlog]. *)
Definition disk_of (st : img) : fst :=
  {| lg := with_sb 2 Mkfs.nlog 1 (LogFacts.boot (sectors st) FSSIZE); sb := Mkfs.sb; icache := []; icache_lk := false; console := [] |}.

Lemma disk_val st m : val (disk_of st) m = sectors st m.
Proof. apply LogFacts.boot_view. Qed.

(** The blocks of a file of [n] parts: the block of addresses comes with the
    thirteenth. *)
Definition blocks (n : Z) : Z := n + if NDIRECT <? n then 1 else 0.
Definition parts (len : nat) : Z := (Z.of_nat len + 511) / 512.

(** Block [m] is nobody's below the counter, and zero above it. *)
Record raw (st : img) : Prop := {
  rw_ok : forall m, block_ok (sectors st m);
  rw_size : nsect st = FSSIZE;
  rw_free : forall m, freeblock st <= m -> sectors st m = zeroes;
  rw_pos : nmeta <= freeblock st <= FSSIZE }.

(** The file [x] with the first [nb] of its parts in place holds [c] and then
    zeros. *)
Record laid (st : img) (x : inode) (nb : Z) (c : list Z) : Prop := {
  la_fields : fields_ok x;
  la_count : 0 <= nb <= MAXFILE;
  la_fits : Z.of_nat (length c) <= nb * bsize;
  la_has : forall j, 0 <= j < MAXFILE -> slot (disk_of st) x j <> 0 <-> j < nb;
  la_ind : slot (disk_of st) x MAXFILE <> 0 <-> NDIRECT < nb;
  la_range : forall j, place j -> slot (disk_of st) x j <> 0 -> nmeta <= slot (disk_of st) x j < freeblock st;
  la_inj : forall i j, place i -> place j -> slot (disk_of st) x i = slot (disk_of st) x j -> slot (disk_of st) x i <> 0 -> i = j;
  la_bytes : forall o, 0 <= o < MAXFILE * bsize -> fbyte (disk_of st) x o = nth (Z.to_nat o) c 0 }.

(** What giving a file blocks and bytes leaves alone. *)
Record grew (st st' : img) (x x' : inode) : Prop := {
  gr_free : freeblock st <= freeblock st';
  gr_next : freeinode st' = freeinode st;
  gr_other : forall m, m < freeblock st -> (forall j, place j -> slot (disk_of st) x j <> 0 -> slot (disk_of st) x j <> m) ->
    sectors st' m = sectors st m;
  gr_slots : forall j, place j -> slot (disk_of st') x' j <> 0 ->
    slot (disk_of st') x' j = slot (disk_of st) x j \/ freeblock st <= slot (disk_of st') x' j;
  gr_meta : x' = set_addrs (addrs x') x }.

Lemma grew_refl st x : grew st st x x.
Proof. split; [lia|done|done|by left|by destruct x]. Qed.

Lemma grew_trans st1 st2 st3 x1 x2 x3 : grew st1 st2 x1 x2 -> grew st2 st3 x2 x3 -> grew st1 st3 x1 x3.
Proof.
  intros [F1 N1 O1 S1 M1] [F2 N2 O2 S2 M2]. split; [lia|congruence| | |].
  - intros m Hm Hx. rewrite O2; [by apply O1|lia|]. intros j Hj Hn E. destruct (S1 j Hj Hn) as [E1|E1]; [|lia].
    apply (Hx j Hj); congruence.
  - intros j Hj Hn. destruct (S2 j Hj Hn) as [E2|E2]; [|right; lia]. rewrite E2 in Hn |- *. by apply S1.
  - rewrite M2 at 1. by rewrite M1.
Qed.

(** ** Sectors *)

Lemma rsect_ok st sec : raw st -> sec < FSSIZE -> rsect sec st = Ret (sectors st sec) st.
Proof.
  intros H Hs. unfold rsect. erewrite (bind_eq get) by reflexivity. rewrite (rw_size _ H).
  by rewrite (proj2 (Z.ltb_lt _ _) Hs).
Qed.

Definition put_sector (sec : Z) (buf : list Z) (st : img) : img :=
  with_sectors (fun m => if m =? sec then buf else sectors st m) (Z.max (nsect st) (sec + 1)) st.

Lemma wsect_ok st sec buf : wsect sec buf st = Ret tt (put_sector sec buf st).
Proof. done. Qed.

Lemma put_sector_at sec buf st m : sectors (put_sector sec buf st) m = if m =? sec then buf else sectors st m.
Proof. done. Qed.

Lemma put_sector_raw sec buf st : raw st -> block_ok buf -> sec < freeblock st -> raw (put_sector sec buf st).
Proof.
  intros [Hb Hn Hz Hp] Hbuf Hs. split.
  - intros m. rewrite put_sector_at. by case_match.
  - cbn. rewrite Hn. unfold FSSIZE in *. lia.
  - intros m Hm. cbn [put_sector with_sectors freeblock] in Hm. rewrite put_sector_at, (proj2 (Z.eqb_neq _ _)) by lia. by apply Hz.
  - done.
Qed.

(** Taking the next block. *)
Lemma new_block_ok st : raw st -> freeblock st < FSSIZE ->
  new_block st = Ret (freeblock st) (with_freeblock (freeblock st + 1) st) /\ raw (with_freeblock (freeblock st + 1) st).
Proof.
  intros [Hb Hn Hz Hp] Hf. split; [done|]. split; try done.
  - intros m Hm. apply Hz. cbn in Hm. lia.
  - cbn. lia.
Qed.

(** ** A new block in a file *)

Lemma zeroes_nth k : nth k zeroes 0 = 0.
Proof. unfold zeroes. rewrite nth_lookup. destruct (_ !! k) eqn:E; [|done]. by apply lookup_replicate in E as [-> _]. Qed.

Lemma place_lt j : 0 <= j < MAXFILE -> place j.
Proof. unfold place. lia. Qed.

(** A part of the file is one of its blocks. *)
Lemma part_place o : 0 <= o < MAXFILE * bsize -> 0 <= o / bsize < MAXFILE.
Proof. intros H. split; [apply Z.div_pos; unfold bsize in *; lia|apply Z.div_lt_upper_bound; unfold bsize in *; lia]. Qed.

Section Plug.
Variables (st st' : img) (x x' : inode) (nb a b : Z) (c : list Z).
Hypothesis Hl : laid st x nb c.
Hypothesis Hnb : nb < MAXFILE.
Hypothesis Hfx : fields_ok x'.
Hypothesis Hsl : forall j, place j -> slot (disk_of st') x' j =
  if decide (j = nb) then b else if decide (j = MAXFILE /\ nb = NDIRECT) then a else slot (disk_of st) x j.
Hypothesis Hb : freeblock st <= b < freeblock st'.
Hypothesis Ha : nb = NDIRECT -> freeblock st <= a < freeblock st' /\ a <> b.
Hypothesis Hz : sectors st' b = zeroes.
Hypothesis Hsame : forall j, 0 <= j < nb -> sectors st' (slot (disk_of st) x j) = sectors st (slot (disk_of st) x j).
Hypothesis Hpos : nmeta <= freeblock st.

Lemma laid_plug : laid st' x' (nb + 1) c.
Proof using All.
  destruct Hl as [Hf Hc Hfit Hhas Hind Hrng Hinj Hby].
  assert (P0 : nmeta = 59) by reflexivity.
  assert (D : NDIRECT < MAXFILE) by reflexivity.
  split; [done|lia|unfold bsize in *; lia| | | | |].
  - intros j Hj. rewrite Hsl by (by apply place_lt). specialize (Hhas j Hj).
    destruct (decide (j = nb)); [lia|]. rewrite decide_False by lia. lia.
  - rewrite Hsl by apply MAXFILE_place. rewrite decide_False by lia. destruct (decide (nb = NDIRECT)) as [E|E].
    + rewrite decide_True by done. specialize (Ha E). lia.
    + rewrite decide_False by (by intros [_ ?]). rewrite Hind. lia.
  - intros j Hj. rewrite Hsl by done. destruct (decide (j = nb)); [lia|].
    destruct (decide (j = MAXFILE /\ nb = NDIRECT)) as [[_ E]|_]; [specialize (Ha E); lia|].
    intros Hn. specialize (Hrng j Hj Hn). lia.
  - intros i j Hi Hj. rewrite !Hsl by done.
    pose proof (Hrng i Hi) as Oi. pose proof (Hrng j Hj) as Oj. specialize (Hinj i j Hi Hj).
    clear Hsl Hsame Hhas Hind Hrng Hby. revert Oi Oj Hinj.
    generalize (slot (disk_of st) x i), (slot (disk_of st) x j). intros p q Op Oq Hinj.
    destruct (decide (i = nb)) as [Ei|Ei], (decide (j = nb)) as [Ej|Ej]; [lia| | |].
    + destruct (decide (j = MAXFILE /\ nb = NDIRECT)) as [[_ E]|_]; [pose proof (Ha E)|]; lia.
    + destruct (decide (i = MAXFILE /\ nb = NDIRECT)) as [[_ E]|_]; [pose proof (Ha E)|]; lia.
    + destruct (decide (i = MAXFILE /\ nb = NDIRECT)) as [[? E]|_]; [pose proof (Ha E)|];
        (destruct (decide (j = MAXFILE /\ nb = NDIRECT)) as [[? E']|_]; [pose proof (Ha E')|]); lia.
  - intros o Ho. pose proof (part_place o Ho) as Hp. specialize (Hby o Ho). unfold fbyte in *. rewrite Hsl by (by apply place_lt).
    rewrite (decide_False (P := _ /\ _)) by lia. specialize (Hhas (o / bsize) Hp). destruct (decide (o / bsize = nb)) as [E|E].
    + rewrite (proj2 (Z.eqb_eq (slot (disk_of st) x (o / bsize)) 0)) in Hby by lia.
      rewrite (proj2 (Z.eqb_neq b 0)) by lia. rewrite disk_val, Hz, zeroes_nth. done.
    + rewrite !disk_val in *. rewrite <- Hby. destruct (slot (disk_of st) x (o / bsize) =? 0) eqn:E0; [done|].
      rewrite Hsame; [done|]. apply Z.eqb_neq in E0. lia.
Qed.
End Plug.

(** The places of an inode after an address was put. *)
Lemma put_addr_slot st x k f j : length (addrs x) = 13%nat -> 0 <= k < 13 -> place j ->
  slot (disk_of st) (put_addr k f x) j =
    if decide (j < NDIRECT \/ j = MAXFILE) then
      if decide (k = (if decide (j = MAXFILE) then NDIRECT else j)) then f else slot (disk_of st) x j
    else if decide (k = NDIRECT) then if f =? 0 then 0 else ld_word (sectors st f) (Z.to_nat (j - NDIRECT))
    else slot (disk_of st) x j.
Proof.
  intros Hl Hk Hj. unfold place in Hj.
  assert (E : NDIRECT = 12 /\ MAXFILE = 140) by done. destruct E as [E12 E140].
  assert (A : forall q, 0 <= q < 13 -> addr_at (put_addr k f x) q = if decide (q = k) then f else addr_at x q)
    by (intros q Hq; apply addr_insert; [done|lia..]).
  unfold slot. rewrite !disk_val. destruct (Z.ltb_spec j NDIRECT).
  - rewrite A by lia. repeat case_decide; done || lia.
  - destruct (Z.eqb_spec j MAXFILE).
    + rewrite A by lia. repeat case_decide; done || lia.
    + rewrite A by lia. repeat case_decide; done || lia.
Qed.

(** ** [file_block] *)

Section FileBlock.
Variables (st : img) (x : inode) (nb : Z) (c : list Z).
Hypothesis Hr : raw st.
Hypothesis Hl : laid st x nb c.

Let f := freeblock st.

Lemma counter_word : 59 <= f <= 1000.
Proof using Hr. clear Hl. pose proof (rw_pos _ Hr) as H. change nmeta with 59 in H. change FSSIZE with 1000 in H. unfold f. lia. Qed.

(** What [file_block] does for part [fbn] when the count goes from [nb] to
    [nb']. *)
Definition blocked (fbn nb' : Z) (o : outcome img (Z * inode)) : Prop :=
  exists st' x', o = Ret (slot (disk_of st') x' fbn, x') st' /\ raw st' /\ laid st' x' nb' c /\ grew st st' x x' /\
    freeblock st' = f + blocks nb' - blocks nb.

Lemma blocked_same fbn : file_block x fbn st = Ret (slot (disk_of st) x fbn, x) st -> blocked fbn nb (file_block x fbn st).
Proof using Hr Hl. intros R. exists st, x. split_and!; [exact R|exact Hr|exact Hl|apply grew_refl|unfold f; lia]. Qed.

Lemma direct_there fbn : 0 <= fbn < nb -> fbn < NDIRECT -> blocked fbn nb (file_block x fbn st).
Proof using Hr Hl.
  intros Hb Hd. pose proof (la_count _ _ _ _ Hl) as Hc. apply blocked_same.
  assert (Es : slot (disk_of st) x fbn = addr_at x fbn) by (unfold slot; by rewrite (proj2 (Z.ltb_lt _ _) Hd)).
  assert (Hn : addr_at x fbn <> 0) by (rewrite <- Es; apply (la_has _ _ _ _ Hl); lia).
  unfold file_block. rewrite (proj2 (Z.ltb_lt _ _) Hd), (proj2 (Z.eqb_neq _ _) Hn). by rewrite Es.
Qed.

(** The block of addresses, when there is one. *)
Lemma indirect_there : NDIRECT < nb -> addr_at x NDIRECT <> 0 /\ nmeta <= addr_at x NDIRECT < f /\
  forall j, NDIRECT <= j < MAXFILE -> slot (disk_of st) x j = ld_word (sectors st (addr_at x NDIRECT)) (Z.to_nat (j - NDIRECT)).
Proof using Hl.
  clear Hr. intros Hb. pose proof (proj2 (la_ind _ _ _ _ Hl) Hb) as Hn. pose proof (la_range _ _ _ _ Hl _ MAXFILE_place Hn) as Hg.
  assert (E : slot (disk_of st) x MAXFILE = addr_at x NDIRECT) by done. rewrite E in *.
  split; [done|split; [exact Hg|]]. intros j Hj. unfold slot. rewrite (proj2 (Z.ltb_ge _ _)) by lia.
  rewrite (proj2 (Z.eqb_neq j MAXFILE)) by lia. rewrite (proj2 (Z.eqb_neq _ _) Hn). by rewrite disk_val.
Qed.

Lemma entry_there fbn : NDIRECT <= fbn < nb -> blocked fbn nb (file_block x fbn st).
Proof using Hr Hl.
  intros Hb. pose proof (la_count _ _ _ _ Hl) as Hc. destruct (indirect_there ltac:(lia)) as (Hn & Hg & Hs).
  apply blocked_same. pose proof counter_word.
  assert (He : slot (disk_of st) x fbn <> 0) by (apply (la_has _ _ _ _ Hl); unfold NDIRECT in *; lia).
  rewrite Hs in He |- * by lia. unfold file_block. rewrite (proj2 (Z.ltb_ge _ _)) by lia.
  rewrite (proj2 (Z.eqb_neq _ _) Hn). unfold bind at 1, ret at 1.
  rewrite (bind_eq _ _ _ _ _ (rsect_ok st (addr_at x NDIRECT) Hr ltac:(change FSSIZE with 1000; lia))).
  by rewrite (proj2 (Z.eqb_neq _ _) He).
Qed.

(** Nothing is there yet. *)
Lemma no_part : nb < MAXFILE -> slot (disk_of st) x nb = 0.
Proof using Hl.
  clear Hr. intros Hm. pose proof (la_count _ _ _ _ Hl) as Hc. pose proof (la_has _ _ _ _ Hl nb ltac:(lia)). lia.
Qed.

Lemma file_slot_below j : place j -> slot (disk_of st) x j <> 0 -> slot (disk_of st) x j < f.
Proof using Hl. clear Hr. intros Hj Hn. apply (la_range _ _ _ _ Hl j Hj Hn). Qed.

Lemma direct_new : nb < NDIRECT -> f + 1 <= FSSIZE -> blocked nb (nb + 1) (file_block x nb st).
Proof using Hr Hl.
  intros Hd Hroom. pose proof (la_count _ _ _ _ Hl) as Hc. pose proof counter_word as Hw.
  assert (D : NDIRECT = 12 /\ MAXFILE = 140 /\ FSSIZE = 1000) by done.
  destruct (new_block_ok st Hr ltac:(fold f; lia)) as [R R1]. fold f in R, R1. set (st1 := with_freeblock (f + 1) st) in *.
  pose proof (no_part ltac:(lia)) as H0. assert (Es : slot (disk_of st) x nb = addr_at x nb) by (unfold slot; by rewrite (proj2 (Z.ltb_lt _ _) Hd)).
  assert (Hs : forall j, place j -> slot (disk_of st1) (put_addr nb f x) j = if decide (j = nb) then f else slot (disk_of st) x j).
  { intros j Hj. rewrite put_addr_slot by (apply (la_fields _ _ _ _ Hl) || done || lia).
    change (slot (disk_of st1) x j) with (slot (disk_of st) x j). repeat case_decide; done || lia. }
  exists st1, (put_addr nb f x). split_and!.
  - unfold file_block. rewrite (proj2 (Z.ltb_lt _ _) Hd). rewrite Es in H0. rewrite (proj2 (Z.eqb_eq _ _) H0).
    rewrite (bind_eq _ _ _ _ _ R). rewrite Hs by (apply place_lt; lia). by rewrite decide_True.
  - done.
  - apply (laid_plug st st1 x _ nb 0 f c Hl); try done; try lia.
    + apply fields_addr; [apply Hl|lia].
    + intros j Hj. rewrite Hs by done. destruct (decide (j = nb)); [done|]. by rewrite decide_False by lia.
    + cbn. lia.
    + apply (rw_free _ Hr). lia.
    + apply Hr.
  - split; [cbn; lia|done|done| |done]. intros j Hj. rewrite Hs by done. case_decide; [right; unfold f; lia|by left].
  - unfold blocks. rewrite !(proj2 (Z.ltb_ge _ _)) by lia. cbn. lia.
Qed.

(** One more entry in the block of addresses. *)
Lemma entry_new : NDIRECT < nb < MAXFILE -> f + 1 <= FSSIZE -> blocked nb (nb + 1) (file_block x nb st).
Proof using Hr Hl.
  intros Hd Hroom. pose proof counter_word as Hw. assert (D : NDIRECT = 12 /\ MAXFILE = 140 /\ FSSIZE = 1000) by done.
  destruct (indirect_there ltac:(lia)) as (Hn & Hg & Hs). pose proof (no_part ltac:(lia)) as H0. rewrite Hs in H0 by lia.
  destruct (new_block_ok st Hr ltac:(fold f; lia)) as [R R1]. fold f in R, R1. set (st1 := with_freeblock (f + 1) st) in *.
  set (ind := addr_at x NDIRECT) in *. set (k := Z.to_nat (nb - NDIRECT)) in *.
  assert (Hk : (4 * k + 4 <= BSIZE)%nat) by (unfold k, BSIZE; lia).
  set (st2 := put_sector ind (st_word (sectors st ind) k f) st1).
  assert (Hs2 : forall j, place j -> slot (disk_of st2) x j = if decide (j = nb) then f else slot (disk_of st) x j).
  { intros j Hj. unfold place in Hj. destruct (decide (NDIRECT <= j < MAXFILE)) as [Hji|Hji].
    - rewrite Hs by lia. unfold slot. rewrite (proj2 (Z.ltb_ge _ _)), (proj2 (Z.eqb_neq j MAXFILE)) by lia. fold ind.
      rewrite (proj2 (Z.eqb_neq ind 0) Hn), disk_val. unfold st2. rewrite put_sector_at, Z.eqb_refl.
      rewrite LogFacts.ld_st_word by (rewrite ?(proj1 (rw_ok _ Hr _)); done || lia). unfold k. repeat case_decide; done || lia.
    - rewrite decide_False by lia. unfold slot. destruct (Z.ltb_spec j NDIRECT); [done|]. by rewrite (proj2 (Z.eqb_eq j MAXFILE)) by lia. }
  exists st2, x. split; [|split; [|split; [|split]]].
  - unfold file_block. rewrite (proj2 (Z.ltb_ge _ _)) by lia. fold ind. rewrite (proj2 (Z.eqb_neq ind 0) Hn). unfold bind at 1, ret at 1.
    fold ind. rewrite (bind_eq _ _ _ _ _ (rsect_ok st ind Hr ltac:(lia))). fold k. rewrite (proj2 (Z.eqb_eq _ _) H0).
    rewrite (bind_eq _ _ _ _ _ R), (bind_eq _ _ _ _ _ (wsect_ok _ _ _)). rewrite Hs2 by (apply place_lt; lia). by rewrite decide_True.
  - apply put_sector_raw; [done| |cbn; lia]. apply st_word_ok; [apply Hr|done].
  - apply (laid_plug st st2 x x nb 0 f c Hl); try done; try lia.
    + apply Hl.
    + intros j Hj. rewrite Hs2 by done. destruct (decide (j = nb)); [done|]. by rewrite (decide_False (P := _ /\ _)) by lia.
    + cbn. lia.
    + unfold st2. rewrite put_sector_at, (proj2 (Z.eqb_neq _ _)) by lia. apply (rw_free _ Hr). lia.
    + intros j Hj. unfold st2. rewrite put_sector_at. destruct (Z.eqb_spec (slot (disk_of st) x j) ind) as [E|E]; [|done].
      pose proof (la_inj _ _ _ _ Hl j MAXFILE ltac:(apply place_lt; lia) MAXFILE_place E ltac:(by rewrite E)). lia.
  - split; [cbn; lia|done| | |by destruct x].
    + intros m Hm Hx. unfold st2. rewrite put_sector_at. destruct (Z.eqb_spec m ind) as [E|E]; [|done].
      exfalso. apply (Hx MAXFILE MAXFILE_place Hn). done.
    + intros j Hj. rewrite Hs2 by done. case_decide; [right; unfold f; lia|by left].
  - unfold blocks. rewrite !(proj2 (Z.ltb_lt _ _)) by lia. cbn. lia.
Qed.

(** The block of addresses and its first entry. *)
Lemma indirect_new : nb = NDIRECT -> f + 2 <= FSSIZE -> blocked nb (nb + 1) (file_block x nb st).
Proof using Hr Hl.
  intros Hd Hroom. pose proof counter_word as Hw. assert (D : NDIRECT = 12 /\ MAXFILE = 140 /\ FSSIZE = 1000) by done.
  assert (H0 : addr_at x NDIRECT = 0).
  { pose proof (la_ind _ _ _ _ Hl) as Hi. change (slot (disk_of st) x MAXFILE) with (addr_at x NDIRECT) in Hi. lia. }
  destruct (new_block_ok st Hr ltac:(fold f; lia)) as [R R1]. fold f in R, R1. set (st1 := with_freeblock (f + 1) st) in *.
  destruct (new_block_ok st1 R1 ltac:(cbn; lia)) as [R' R2]. change (freeblock st1) with (f + 1) in R', R2.
  set (st2 := with_freeblock (f + 1 + 1) st1) in *. set (x1 := put_addr NDIRECT f x) in *.
  set (st3 := put_sector f (st_word zeroes 0 (f + 1)) st2).
  assert (Ez : sectors st f = zeroes) by (apply (rw_free _ Hr); unfold f; lia).
  assert (Ha1 : addr_at x1 NDIRECT = f) by (unfold x1, put_addr; rewrite addr_insert by (apply (la_fields _ _ _ _ Hl) || lia); by rewrite decide_True).
  assert (Hs3 : forall j, place j -> slot (disk_of st3) x1 j =
    if decide (j = nb) then f + 1 else if decide (j = MAXFILE /\ nb = NDIRECT) then f else slot (disk_of st) x j).
  { intros j Hj. unfold x1. rewrite put_addr_slot by (apply (la_fields _ _ _ _ Hl) || done || lia). unfold place in Hj.
    destruct (decide (j < NDIRECT \/ j = MAXFILE)) as [[Hj1|Hj1]|Hj1].
    - rewrite (decide_False (P := j = MAXFILE)), (decide_False (P := j = nb)), (decide_False (P := _ /\ _)) by lia.
      rewrite decide_False by lia. unfold slot. by rewrite (proj2 (Z.ltb_lt _ _) Hj1).
    - rewrite (decide_True (P := j = MAXFILE)), (decide_False (P := j = nb)), (decide_True (P := _ /\ _)) by lia.
      by rewrite decide_True by done.
    - rewrite (decide_True (P := NDIRECT = NDIRECT)), (decide_False (P := _ /\ _)) by (done || lia). rewrite (proj2 (Z.eqb_neq f 0)) by lia.
      unfold st3. rewrite put_sector_at, Z.eqb_refl.
      rewrite LogFacts.ld_st_word by (cbn; lia). pose proof (la_has _ _ _ _ Hl j ltac:(lia)) as Hh.
      destruct (decide (j = nb)) as [->|Hne]; [by rewrite decide_True by lia|]. rewrite decide_False by lia.
      unfold zeroes. rewrite ld_word_zeros. lia. }
  exists st3, x1. split; [|split; [|split; [|split]]].
  - unfold file_block. rewrite (proj2 (Z.ltb_ge _ _)) by lia. rewrite (proj2 (Z.eqb_eq _ _) H0).
    assert (Ep : (let! b := new_block in ret (put_addr NDIRECT b x)) st = Ret x1 st1) by (by rewrite (bind_eq _ _ _ _ _ R)).
    rewrite (bind_eq _ _ _ _ _ Ep), Ha1. rewrite (bind_eq _ _ _ _ _ (rsect_ok st1 f R1 ltac:(lia))).
    change (sectors st1 f) with (sectors st f). rewrite Ez. replace (Z.to_nat (nb - NDIRECT)) with 0%nat by lia.
    unfold zeroes at 1. rewrite ld_word_zeros. cbn [Z.eqb]. rewrite (bind_eq _ _ _ _ _ R'), (bind_eq _ _ _ _ _ (wsect_ok _ _ _)).
    rewrite Hs3 by (apply place_lt; lia). by rewrite decide_True.
  - apply put_sector_raw; [done| |cbn; lia]. apply st_word_ok; [apply zeros_ok|unfold BSIZE; lia].
  - apply (laid_plug st st3 x x1 nb f (f + 1) c Hl); try done; try lia.
    + apply fields_addr; [apply Hl|lia].
    + cbn. lia.
    + intros _. cbn. lia.
    + unfold st3. rewrite put_sector_at, (proj2 (Z.eqb_neq _ _)) by lia. apply (rw_free _ Hr). lia.
    + intros j Hj. unfold st3. rewrite put_sector_at. destruct (Z.eqb_spec (slot (disk_of st) x j) f) as [E|E]; [|done].
      pose proof (file_slot_below j ltac:(apply place_lt; lia) ltac:(lia)). lia.
    + apply Hr.
  - split; [cbn; lia|done| | |done].
    + intros m Hm Hx. unfold st3. rewrite put_sector_at. by rewrite (proj2 (Z.eqb_neq _ _)) by (unfold f; lia).
    + intros j Hj. rewrite Hs3 by done. destruct (decide (j = nb)); [right; unfold f; lia|].
      destruct (decide (j = MAXFILE /\ nb = NDIRECT)); [right; unfold f; lia|by left].
  - unfold blocks. rewrite (proj2 (Z.ltb_lt _ _)), (proj2 (Z.ltb_ge _ _)) by lia. cbn. lia.
Qed.

Lemma file_block_ok fbn : 0 <= fbn <= nb -> fbn < MAXFILE -> f + blocks (Z.max nb (fbn + 1)) - blocks nb <= FSSIZE ->
  blocked fbn (Z.max nb (fbn + 1)) (file_block x fbn st).
Proof using Hr Hl.
  intros Hb Hm Hroom. destruct (decide (fbn < nb)) as [Hlt|Hge].
  - rewrite Z.max_l by lia. destruct (decide (fbn < NDIRECT)); [apply direct_there; lia|apply entry_there; lia].
  - assert (fbn = nb) as -> by lia. rewrite Z.max_r in Hroom |- * by lia. revert Hroom. unfold blocks.
    destruct (decide (nb < NDIRECT)); [|destruct (decide (nb = NDIRECT))].
    + rewrite !(proj2 (Z.ltb_ge _ _)) by lia. intros. apply direct_new; lia.
    + rewrite (proj2 (Z.ltb_lt _ _)), (proj2 (Z.ltb_ge _ _)) by lia. intros. apply indirect_new; lia.
    + rewrite !(proj2 (Z.ltb_lt _ _)) by lia. intros. apply entry_new; lia.
Qed.
End FileBlock.

(** ** Appending *)

Lemma nth_app_at (c p : list Z) k : nth k (c ++ p) 0 = if decide (k < length c)%nat then nth k c 0 else nth (k - length c) p 0.
Proof. case_decide; [by apply app_nth1|apply app_nth2; lia]. Qed.

Section Write.
Variables (st : img) (x : inode) (nb : Z) (c p : list Z) (fbn : Z).
Hypothesis Hr : raw st.
Hypothesis Hl : laid st x nb c.
Hypothesis Hfbn : 0 <= fbn < nb.
Hypothesis Hoff : fbn * bsize <= Z.of_nat (length c).
Hypothesis Hend : Z.of_nat (length c) + Z.of_nat (length p) <= (fbn + 1) * bsize.
Hypothesis Hp : Forall byte p.

Let b := slot (disk_of st) x fbn.
Let off := Z.of_nat (length c) - fbn * bsize.
Let st' := put_sector b (splice (sectors st b) off p) st.

Lemma write_here : b <> 0 /\ nmeta <= b < freeblock st.
Proof using Hl Hfbn.
  clear st' off Hend Hp. pose proof (la_count _ _ _ _ Hl). assert (Hn : b <> 0) by (apply (la_has _ _ _ _ Hl); lia).
  split; [done|]. apply (la_range _ _ _ _ Hl); [apply place_lt; lia|done].
Qed.

Lemma write_slot j : place j -> slot (disk_of st') x j = slot (disk_of st) x j.
Proof using Hl Hfbn p.
  intros Hj. destruct write_here as [Hn _]. pose proof (la_count _ _ _ _ Hl). unfold slot at 1 2. destruct (j <? NDIRECT); [done|].
  destruct (j =? MAXFILE); [done|]. destruct (Z.eqb_spec (addr_at x NDIRECT) 0) as [|E]; [done|].
  rewrite !disk_val. unfold st'. rewrite put_sector_at. destruct (Z.eqb_spec (addr_at x NDIRECT) b) as [E2|]; [|done].
  pose proof (la_inj _ _ _ _ Hl MAXFILE fbn MAXFILE_place ltac:(apply place_lt; lia) E2 E). lia.
Qed.

Lemma laid_write : raw st' /\ laid st' x nb (c ++ p) /\ grew st st' x x.
Proof using All.
  destruct write_here as [Hn Hg]. pose proof (la_count _ _ _ _ Hl) as Hc. pose proof (rw_ok _ Hr b) as Hb.
  assert (B : bsize = 512) by done. assert (Hoff2 : 0 <= off <= bsize) by (unfold off; lia).
  split; [|split].
  - apply put_sector_raw; [done| |lia]. apply splice_ok; [done|lia| |done]. unfold off, BSIZE. lia.
  - split; [apply Hl|done| | | | | |].
    + rewrite length_app. nia.
    + intros j Hj. rewrite write_slot by (by apply place_lt). by apply Hl.
    + rewrite write_slot by apply MAXFILE_place. apply Hl.
    + intros j Hj. rewrite write_slot by done. by apply (la_range _ _ _ _ Hl).
    + intros i j Hi Hj. rewrite !write_slot by done. by apply Hl.
    + intros o Ho. pose proof (part_place o Ho) as Hpl. pose proof (la_bytes _ _ _ _ Hl o Ho) as Hby. unfold fbyte in *.
      rewrite write_slot by (by apply place_lt). rewrite nth_app_at. rewrite !disk_val in *. unfold st'. rewrite put_sector_at.
      pose proof (Z.div_mod o bsize ltac:(lia)) as Hdm. pose proof (Z.mod_pos_bound o bsize ltac:(lia)) as Hmb.
      destruct (decide (o / bsize = fbn)) as [E|E].
      * rewrite E in *. fold b in Hby |- *. rewrite Z.eqb_refl, (proj2 (Z.eqb_neq b 0) Hn) in *.
        rewrite splice_nth by (rewrite (proj1 Hb); unfold off, BSIZE; lia). rewrite Hby.
        destruct (decide (Z.to_nat o < length c)%nat).
        -- rewrite decide_False; [done|]. unfold off. lia.
        -- destruct (decide _); [f_equal; unfold off; lia|]. rewrite !nth_overflow by (unfold off in *; lia). done.
      * assert (E2 : (if slot (disk_of st) x (o / bsize) =? 0 then 0 else
          nth (Z.to_nat (o mod bsize)) (if slot (disk_of st) x (o / bsize) =? b then splice (sectors st b) off p
            else sectors st (slot (disk_of st) x (o / bsize))) 0) = nth (Z.to_nat o) c 0).
        { rewrite <- Hby. destruct (Z.eqb_spec (slot (disk_of st) x (o / bsize)) 0) as [|E0]; [done|].
          destruct (Z.eqb_spec (slot (disk_of st) x (o / bsize)) b) as [E1|]; [|done].
          exfalso. apply E. apply (la_inj _ _ _ _ Hl); [by apply place_lt|apply place_lt; lia|done|done]. }
        rewrite E2. case_decide; [done|]. rewrite !nth_overflow; [done|..]; [|lia]. nia.
  - split; [done|done| | |by destruct x].
    + intros m Hm Hx. unfold st'. rewrite put_sector_at. destruct (Z.eqb_spec m b) as [->|]; [|done].
      exfalso. by apply (Hx fbn ltac:(apply place_lt; lia)).
    + intros j Hj _. left. by apply write_slot.
Qed.
End Write.

Lemma blocks_mono n m : n <= m -> blocks n <= blocks m.
Proof. unfold blocks. intros. destruct (Z.ltb_spec NDIRECT n), (Z.ltb_spec NDIRECT m); lia. Qed.

Lemma parts_mono n m : (n <= m)%nat -> parts n <= parts m.
Proof. intros. unfold parts. apply Z.div_le_mono; lia. Qed.

(** A file has its last part begun, or all its parts full. *)
Lemma parts_step n m : (n < m)%nat -> Z.of_nat m <= (Z.of_nat n / bsize + 1) * bsize ->
  Z.of_nat n / bsize <= parts n /\ parts m = Z.max (parts n) (Z.of_nat n / bsize + 1) /\ parts m = Z.of_nat n / bsize + 1.
Proof.
  unfold parts, bsize. intros H1 H2. pose proof (Z.div_mod (Z.of_nat n) 512 ltac:(lia)). pose proof (Z.mod_pos_bound (Z.of_nat n) 512 ltac:(lia)).
  pose proof (Z.div_mod (Z.of_nat n + 511) 512 ltac:(lia)). pose proof (Z.mod_pos_bound (Z.of_nat n + 511) 512 ltac:(lia)).
  pose proof (Z.div_mod (Z.of_nat m + 511) 512 ltac:(lia)). pose proof (Z.mod_pos_bound (Z.of_nat m + 511) 512 ltac:(lia)).
  lia.
Qed.

(** The state between two turns of the loop: [c] is in place. *)
Definition filled (st0 : img) (x0 : inode) (c0 : list Z) (st : img) (x : inode) (c : list Z) : Prop :=
  raw st /\ laid st x (parts (length c)) c /\ grew st0 st x0 x /\
  freeblock st = freeblock st0 + blocks (parts (length c)) - blocks (parts (length c0)).

Lemma filled_refl st x c : raw st -> laid st x (parts (length c)) c -> filled st x c st x c.
Proof. intros. split_and!; [done|done|apply grew_refl|lia]. Qed.

Lemma append_turn st0 x0 c0 st x c p :
  filled st0 x0 c0 st x c -> p <> [] -> Forall byte p -> Z.of_nat (length c + length p) <= MAXFILE * bsize ->
  freeblock st0 + blocks (parts (length c + length p)) - blocks (parts (length c0)) <= FSSIZE ->
  exists st' x' p1 p2, p = p1 ++ p2 /\ p1 <> [] /\
    append_body (x, Z.of_nat (length c), p) st = Ret (inl (x', Z.of_nat (length (c ++ p1)), p2)) st' /\
    filled st0 x0 c0 st' x' (c ++ p1).
Proof.
  intros (Hr & Hl & G & Hf) Hne Hp Hmax Hroom. assert (B : bsize = 512 /\ FSSIZE = 1000) by done.
  set (fbn := Z.of_nat (length c) / bsize). set (n1 := Z.min (Z.of_nat (length p)) ((fbn + 1) * bsize - Z.of_nat (length c))).
  assert (Hlen : (0 < length p)%nat) by (destruct p; [done|cbn; lia]).
  pose proof (Z.div_mod (Z.of_nat (length c)) bsize ltac:(lia)) as Hdm. pose proof (Z.mod_pos_bound (Z.of_nat (length c)) bsize ltac:(lia)) as Hmb.
  fold fbn in Hdm. assert (Hn1 : 0 < n1 <= Z.of_nat (length p)) by (unfold n1; lia).
  set (p1 := take (Z.to_nat n1) p). assert (Hp1 : length p1 = Z.to_nat n1) by (unfold p1; rewrite length_take; lia).
  assert (Hfm : 0 <= fbn < MAXFILE) by (apply part_place; lia).
  destruct (parts_step (length c) (length c + length p1)) as (S1 & S2 & S3); [lia|fold fbn; unfold n1 in *; lia|]. fold fbn in S1, S2, S3.
  pose proof (blocks_mono _ _ (parts_mono (length c + length p1) (length c + length p) ltac:(lia))) as Hbm.
  destruct (file_block_ok st x _ c Hr Hl fbn) as (st1 & x1 & R1 & Hr1 & Hl1 & G1 & F1); [lia|lia|rewrite <- S2; lia|].
  rewrite <- S2 in Hl1, F1.
  destruct (laid_write st1 x1 _ c p1 fbn Hr1 Hl1) as (Hr2 & Hl2 & G2); [lia|lia|unfold n1 in *; lia|by apply Forall_take|].
  destruct (write_here st1 x1 _ c fbn Hl1 ltac:(lia)) as [Hb0 Hb1].
  eexists _, x1, p1, (drop (Z.to_nat n1) p). split; [unfold p1; by rewrite take_drop|].
  split; [intros E; rewrite E in Hp1; cbn in Hp1; lia|]. split.
  - unfold append_body. destruct p as [|c1 p']; [done|]. fold fbn. rewrite (proj2 (Z.ltb_lt _ _)) by lia.
    rewrite (bind_eq _ _ _ _ _ R1). fold n1. rewrite (bind_eq _ _ _ _ _ (rsect_ok st1 (slot (disk_of st1) x1 fbn) Hr1 ltac:(pose proof (rw_pos _ Hr1); lia))).
    fold p1. rewrite (bind_eq _ _ _ _ _ (wsect_ok _ _ _)). unfold ret. do 4 f_equal. rewrite length_app. lia.
  - split; [exact Hr2|]. rewrite length_app. split; [exact Hl2|]. split; [|cbn; lia].
    eapply grew_trans; [exact G|]. eapply grew_trans; [exact G1|exact G2].
Qed.

Lemma append_loop n : forall st0 x0 c0 st x c p fuel,
  filled st0 x0 c0 st x c -> Forall byte p -> (length p <= n)%nat -> (length p < fuel)%nat -> Z.of_nat (length c + length p) <= MAXFILE * bsize ->
  freeblock st0 + blocks (parts (length c + length p)) - blocks (parts (length c0)) <= FSSIZE ->
  exists st' x', loop fuel append_body (x, Z.of_nat (length c), p) st = Ret (x', Z.of_nat (length (c ++ p))) st' /\
    filled st0 x0 c0 st' x' (c ++ p).
Proof.
  induction n as [|n IH]; intros st0 x0 c0 st x c p fuel Hf Hp Hn Hfuel Hmax Hroom; (destruct fuel as [|fuel]; [lia|]).
  - destruct p; [|cbn in Hn; lia]. exists st, x. by rewrite app_nil_r.
  - destruct (decide (p = [])) as [->|Hne]; [exists st, x; by rewrite app_nil_r|].
    destruct (append_turn st0 x0 c0 st x c p Hf Hne Hp Hmax Hroom) as (st1 & x1 & p1 & p2 & -> & Hp1 & R & Hf1).
    apply Forall_app in Hp as [_ Hp2]. pose proof (length_app p1 p2) as Hla. rewrite Hla in Hn, Hfuel, Hmax, Hroom. assert (0 < length p1)%nat by (destruct p1; [done|cbn; lia]).
    destruct (IH st0 x0 c0 st1 x1 (c ++ p1) p2 fuel Hf1 Hp2) as (st2 & x2 & R2 & Hf2);
      rewrite ?length_app, <- ?Nat.add_assoc; try done; try lia.
    exists st2, x2. cbn [loop]. rewrite (bind_eq _ _ _ _ _ R), R2, app_assoc. split; [|done]. by rewrite !length_app, Nat.add_assoc.
Qed.

(** ** Inodes *)

Lemma disk_layout st : layout (disk_of st).
Proof. split; vm_compute; repeat split; discriminate. Qed.

(** The blocks of inodes come before those of data. *)
Lemma inode_sector i : 0 <= i < NINODES -> 32 <= IBLOCK i Mkfs.sb < 58.
Proof.
  intros Hi. destruct (IBLOCK_eq (disk_of empty) i (disk_layout _) Hi) as [_ H]. exact H.
Qed.

Lemma rinode_ok st i : raw st -> 0 <= i < NINODES -> rinode i st = Ret (ondisk (disk_of st) i zero_dinode) st.
Proof.
  intros Hr Hi. unfold rinode. pose proof (inode_sector i Hi).
  rewrite (bind_eq _ _ _ _ _ (rsect_ok st (IBLOCK i Mkfs.sb) Hr ltac:(change FSSIZE with 1000; lia))).
  unfold ondisk. by rewrite disk_val.
Qed.

(** What writing an inode does to the image. *)
Record inode_put (st st' : img) (i : Z) (x : inode) : Prop := {
  ip_raw : raw st';
  ip_block : freeblock st' = freeblock st;
  ip_next : freeinode st' = freeinode st;
  ip_other : forall m, ~ (32 <= m < 58) -> sectors st' m = sectors st m;
  ip_here : forall y, ondisk (disk_of st') i y = dinode_of x y;
  ip_inodes : forall j y, 0 <= j < NINODES -> j <> i -> ondisk (disk_of st') j y = ondisk (disk_of st) j y }.

Lemma winode_ok st i x : raw st -> 0 <= i < NINODES -> fields_ok x ->
  exists st', winode i x st = Ret tt st' /\ inode_put st st' i x.
Proof.
  intros Hr Hi Hx. pose proof (inode_sector i Hi) as Hs. pose proof (rw_ok _ Hr (IBLOCK i Mkfs.sb)) as Hb.
  pose proof (rw_pos _ Hr) as Hp. change nmeta with 59 in Hp.
  assert (Hm : (Z.to_nat (i mod IPB) < 8)%nat) by (pose proof (Z.mod_pos_bound i IPB); unfold IPB in *; lia).
  assert (Hm2 : (64 * Z.to_nat (i mod IPB) + 64 <= length (sectors st (IBLOCK i Mkfs.sb)))%nat) by (rewrite (proj1 Hb); unfold BSIZE; lia).
  exists (put_sector (IBLOCK i Mkfs.sb) (put_dinode x (Z.to_nat (i mod IPB)) (sectors st (IBLOCK i Mkfs.sb))) st). split.
  - unfold winode. by rewrite (bind_eq _ _ _ _ _ (rsect_ok st (IBLOCK i Mkfs.sb) Hr ltac:(change FSSIZE with 1000; lia))).
  - split; try done.
    + apply put_sector_raw; [done| |lia]. by apply put_dinode_ok.
    + intros m Hm'. rewrite put_sector_at. by rewrite (proj2 (Z.eqb_neq _ _)) by lia.
    + intros y. unfold ondisk. rewrite disk_val, put_sector_at. change (sb (disk_of _)) with Mkfs.sb. rewrite Z.eqb_refl.
      by apply get_put_dinode.
    + intros j y Hj Hne. unfold ondisk. rewrite !disk_val, put_sector_at. change (sb (disk_of _)) with Mkfs.sb.
      destruct (Z.eqb_spec (IBLOCK j Mkfs.sb) (IBLOCK i Mkfs.sb)) as [E|]; [|done]. rewrite E.
      apply get_put_other; [done..|]. intros E2. apply Hne. symmetry.
      apply (inode_slots (disk_of st) i j (disk_layout st)); [done..|by symmetry|done].
Qed.

(** A file whose blocks stay as they are. *)
Lemma laid_frame st st' x nb c : laid st x nb c -> freeblock st <= freeblock st' ->
  (forall j, place j -> slot (disk_of st) x j <> 0 -> sectors st' (slot (disk_of st) x j) = sectors st (slot (disk_of st) x j)) ->
  laid st' x nb c /\ forall j, place j -> slot (disk_of st') x j = slot (disk_of st) x j.
Proof.
  intros Hl Hf Hs.
  assert (E : forall j, place j -> slot (disk_of st') x j = slot (disk_of st) x j).
  { intros j Hj. unfold slot. destruct (j <? NDIRECT); [done|]. destruct (j =? MAXFILE); [done|].
    destruct (Z.eqb_spec (addr_at x NDIRECT) 0) as [|En]; [done|]. rewrite !disk_val. f_equal. exact (Hs MAXFILE MAXFILE_place En). }
  split; [|done]. destruct Hl as [? ? ? Hhas Hind Hrng Hinj Hby]. split; try done.
  - intros j Hj. rewrite E by (by apply place_lt). by apply Hhas.
  - intros j Hj. rewrite E by done. intros Hn. specialize (Hrng j Hj Hn). lia.
  - intros i j Hi Hj. rewrite !E by done. by apply Hinj.
  - intros o Ho. rewrite <- (Hby o Ho). pose proof (place_lt _ (part_place o Ho)) as Hpl. unfold fbyte. rewrite E by done.
    rewrite !disk_val. destruct (Z.eqb_spec (slot (disk_of st) x (o / bsize)) 0); [done|]. by rewrite Hs.
Qed.

(** Only the addresses of an inode count. *)
Lemma laid_ondisk st s i y z nb c : laid st (ondisk s i y) nb c -> laid st (ondisk s i z) nb c.
Proof. intros [[] ? ? ? ? ? ? ?]. split; try done. Qed.
Lemma laid_dinode st x y nb c : laid st x nb c -> laid st (dinode_of x y) nb c.
Proof. intros [[] ? ? ? ? ? ? ?]. split; try done. Qed.

(** ** The image *)

(** The files by inode number, from 1: the type, the size their inode has and
    the bytes. *)
Record mfile := { fty : Z; fsz : Z; fbytes : list Z }.
Implicit Types fl : list mfile.

Definition mblocks (f : mfile) : Z := blocks (parts (length (fbytes f))).
Definition total fl : Z := foldr (fun f n => mblocks f + n) 0 fl.

Definition node (st : img) (k : nat) : inode := dnode (disk_of st) (Z.of_nat k + 1).

Record stored (st : img) (k : nat) (f : mfile) : Prop := {
  so_laid : laid st (node st k) (parts (length (fbytes f))) (fbytes f);
  so_type : type (node st k) = fty f;
  so_size : isize (node st k) = fsz f;
  so_link : nlink (node st k) = 1 }.

Record image (st : img) fl : Prop := {
  im_raw : raw st;
  im_next : freeinode st = 1 + Z.of_nat (length fl);
  im_room : Z.of_nat (length fl) < NINODES;
  im_sb : sectors st 1 = sb_sector;
  im_log : sectors st 2 = zeroes;
  im_files : forall k f, fl !! k = Some f -> stored st k f;
  im_apart : forall k l i j, (k < length fl)%nat -> (l < length fl)%nat -> k <> l -> place i -> place j ->
    slot (disk_of st) (node st k) i <> 0 -> slot (disk_of st) (node st k) i <> slot (disk_of st) (node st l) j;
  im_none : forall i, 0 <= i < NINODES -> ~ (1 <= i <= Z.of_nat (length fl)) -> type (dnode (disk_of st) i) = 0;
  im_used : freeblock st = nmeta + total fl }.

Lemma total_replaced fl : forall k f g, fl !! k = Some f -> total (<[k := g]> fl) = total fl + mblocks g - mblocks f.
Proof.
  induction fl as [|h fl IH]; intros [|k] f g Hk; try done.
  - injection Hk as ->. cbn. unfold total. lia.
  - change (<[S k := g]> (h :: fl)) with (h :: <[k := g]> fl). cbn [total foldr]. fold (total fl). fold (total (<[k := g]> fl)).
    rewrite (IH k f g) by done. lia.
Qed.

Lemma total_app fl gl : total (fl ++ gl) = total fl + total gl.
Proof. induction fl as [|f fl IH]; [done|]. cbn [app total foldr]. fold (total (fl ++ gl)). fold (total fl). lia. Qed.

Lemma mblocks_pos f : 0 <= mblocks f.
Proof.
  unfold mblocks, blocks, parts. assert (0 <= (Z.of_nat (length (fbytes f)) + 511) / 512) by (apply Z.div_pos; lia). case_match; lia.
Qed.
Lemma total_pos fl : 0 <= total fl.
Proof. induction fl as [|f fl IH]; [done|]. cbn [total foldr]. fold (total fl). pose proof (mblocks_pos f). lia. Qed.

Lemma node_number fl k : Z.of_nat (length fl) < NINODES -> (k < length fl)%nat -> 0 <= Z.of_nat k + 1 < NINODES.
Proof. lia. Qed.

(** Step from [st] to [st'] that changes only file [k]: its blocks go from
    those of [x] to those of [x'], and then its inode is written. *)
Section Update.
Variables (st st1 st' : img) (fl : list mfile) (k : nat) (f g : mfile) (x1 : inode).
Hypothesis Hi : image st fl.
Hypothesis Hk : fl !! k = Some f.
Hypothesis G : grew st st1 (node st k) x1.
Hypothesis Hr1 : raw st1.
Hypothesis Hl1 : laid st1 x1 (parts (length (fbytes g))) (fbytes g).
Hypothesis Hf1 : freeblock st1 = freeblock st + mblocks g - mblocks f.
Hypothesis Hty : fty g = fty f.
Hypothesis Hsz : 0 <= fsz g < 4294967296.
Hypothesis Hp : inode_put st1 st' (Z.of_nat k + 1) (set_isize (fsz g) x1).

Lemma update_range : 0 <= Z.of_nat k + 1 < NINODES.
Proof using Hi Hk. clear - Hi Hk. apply (node_number fl); [apply Hi|by eapply lookup_lt_Some]. Qed.

Lemma update_dnode j y : 0 <= j < NINODES -> j <> Z.of_nat k + 1 -> ondisk (disk_of st') j y = ondisk (disk_of st) j y.
Proof using All.
  intros Hj Hne. rewrite (ip_inodes _ _ _ _ Hp) by done. unfold ondisk. rewrite !disk_val.
  pose proof (inode_sector j Hj) as Hs. change (sb (disk_of _)) with Mkfs.sb. rewrite (gr_other _ _ _ _ G); [done| |].
  - pose proof (rw_pos _ (im_raw _ _ Hi)). change nmeta with 59 in *. lia.
  - intros q Hq Hn. pose proof (la_range _ _ _ _ (so_laid _ _ _ (im_files _ _ Hi k f Hk)) q Hq Hn). change nmeta with 59 in *. lia.
Qed.

Lemma update_meta m : m < 59 -> ~ (32 <= m < 58) -> sectors st' m = sectors st m.
Proof using All.
  intros Hm Hne. rewrite (ip_other _ _ _ _ Hp) by done. apply (gr_other _ _ _ _ G).
  - pose proof (rw_pos _ (im_raw _ _ Hi)). change nmeta with 59 in *. lia.
  - intros q Hq Hn. pose proof (la_range _ _ _ _ (so_laid _ _ _ (im_files _ _ Hi k f Hk)) q Hq Hn). change nmeta with 59 in *. lia.
Qed.

(** The other files. *)
Lemma update_other l h : fl !! l = Some h -> l <> k ->
  stored st' l h /\ forall j, place j -> slot (disk_of st') (node st' l) j = slot (disk_of st) (node st l) j.
Proof using All.
  intros Hl Hne. pose proof (lookup_lt_Some _ _ _ Hl). pose proof (lookup_lt_Some _ _ _ Hk).
  assert (E : node st' l = node st l) by (apply update_dnode; [apply (node_number fl); [apply Hi|done]|lia]).
  destruct (im_files _ _ Hi l h Hl) as [L1 L2 L3 L4].
  destruct (laid_frame st st' (node st l) _ _ L1) as [L1' Es].
  - rewrite (ip_block _ _ _ _ Hp). apply G.
  - intros j Hj Hn. pose proof (la_range _ _ _ _ L1 j Hj Hn) as Hg. change nmeta with 59 in Hg.
    rewrite (ip_other _ _ _ _ Hp) by lia. apply (gr_other _ _ _ _ G); [lia|].
    intros q Hq Hnq. apply (im_apart _ _ Hi); done.
  - split; [split; rewrite E; done|by rewrite E].
Qed.

(** The file itself. *)
Lemma update_here : stored st' k g /\
  forall j, place j -> slot (disk_of st') (node st' k) j = slot (disk_of st1) x1 j.
Proof using All.
  destruct (im_files _ _ Hi k f Hk) as [L1 L2 L3 L4].
  assert (E : node st' k = dinode_of (set_isize (fsz g) x1) (node0 (Z.of_nat k + 1))) by (apply (ip_here _ _ _ _ Hp)).
  destruct (laid_frame st1 st' x1 _ _ Hl1) as [L1' Es].
  - rewrite (ip_block _ _ _ _ Hp). lia.
  - intros j Hj Hn. pose proof (la_range _ _ _ _ Hl1 j Hj Hn) as Hg. change nmeta with 59 in Hg.
    by rewrite (ip_other _ _ _ _ Hp) by lia.
  - pose proof (gr_meta _ _ _ _ G) as M. split; [split|].
    + rewrite E. apply laid_dinode. destruct L1' as [[] ? ? ? ? ? ? ?]. split; try done.
    + rewrite E. change (type x1 = fty g). rewrite M. change (type (node st k) = fty g). congruence.
    + by rewrite E.
    + rewrite E. change (nlink x1 = 1). by rewrite M.
    + intros j Hj. rewrite E. exact (Es j Hj).
Qed.

(** A block of the file is one it had, or new. *)
Lemma update_slots j : place j -> slot (disk_of st') (node st' k) j <> 0 ->
  slot (disk_of st') (node st' k) j = slot (disk_of st) (node st k) j \/ freeblock st <= slot (disk_of st') (node st' k) j.
Proof using All. intros Hj. rewrite (proj2 update_here) by done. by apply (gr_slots _ _ _ _ G). Qed.

Lemma update_image : image st' (<[k := g]> fl).
Proof using All.
  assert (Hkl : (k < length fl)%nat) by (by eapply lookup_lt_Some).
  assert (Hother : forall l, (l < length fl)%nat -> l <> k -> forall j, place j ->
    slot (disk_of st') (node st' l) j = slot (disk_of st) (node st l) j /\ slot (disk_of st) (node st l) j < freeblock st).
  { intros l Hl Hne j Hj. destruct (lookup_lt_is_Some_2 fl l Hl) as [h Hh]. destruct (update_other l h Hh Hne) as [_ E].
    rewrite E by done. split; [done|]. destruct (decide (slot (disk_of st) (node st l) j = 0)) as [->|Hn].
    - pose proof (rw_pos _ (im_raw _ _ Hi)). change nmeta with 59 in *. lia.
    - apply (la_range _ _ _ _ (so_laid _ _ _ (im_files _ _ Hi l h Hh)) j Hj Hn). }
  split.
  - apply Hp.
  - rewrite (ip_next _ _ _ _ Hp), (gr_next _ _ _ _ G), length_insert. apply Hi.
  - rewrite length_insert. apply Hi.
  - rewrite update_meta by lia. exact (im_sb _ _ Hi).
  - rewrite update_meta by lia. exact (im_log _ _ Hi).
  - intros l h Hl. destruct (decide (k = l)) as [<-|Hne].
    + rewrite list_lookup_insert_eq in Hl by done. injection Hl as <-. apply update_here.
    + rewrite list_lookup_insert_ne in Hl by done. by apply update_other.
  - rewrite length_insert. intros l m i j Hll Hml Hne Hpi Hpj Hn E.
    destruct (decide (l = k)) as [->|Hlk], (decide (m = k)) as [->|Hmk]; [done| | |].
    + destruct (Hother m Hml Hmk j Hpj) as [Em Hb]. rewrite Em in E.
      destruct (update_slots i Hpi Hn) as [Es|Es]; [|lia]. rewrite Es in E, Hn.
      by apply (im_apart _ _ Hi k m i j).
    + destruct (Hother l Hll Hlk i Hpi) as [El Hb]. rewrite El in E, Hn.
      destruct (update_slots j Hpj ltac:(congruence)) as [Es|Es]; [|lia]. rewrite Es in E.
      by apply (im_apart _ _ Hi l k i j).
    + destruct (Hother l Hll Hlk i Hpi) as [El _], (Hother m Hml Hmk j Hpj) as [Em _]. rewrite El, Em in *.
      by apply (im_apart _ _ Hi l m i j).
  - rewrite length_insert. intros i Hin Hni. unfold dnode. rewrite update_dnode by (done || lia). by apply (im_none _ _ Hi).
  - rewrite (ip_block _ _ _ _ Hp), Hf1, (im_used _ _ Hi), (total_replaced _ _ _ _ Hk). lia.
Qed.
End Update.

(** ** The operations on the image *)

(** Inodes as [rinode] reads them have blank fields of the cache. *)
Lemma grew_node st st1 s i y x1 z : grew st st1 (ondisk s i y) x1 -> grew st st1 (ondisk s i z) (dinode_of x1 z).
Proof. intros [F N O S M]. split; [done..|]. rewrite M. done. Qed.
Lemma inode_put_node st st' i n x z : inode_put st st' i (set_isize n x) -> inode_put st st' i (set_isize n (dinode_of x z)).
Proof. intros [? ? ? ? ? ?]. by split. Qed.

Lemma fields_isize x n : fields_ok x -> 0 <= n < 4294967296 -> fields_ok (set_isize n x).
Proof. intros [? ? ? ? ? ? ?] Hn. by split. Qed.

(** Appending to a file. *)
Definition append (f : mfile) (p : list Z) : mfile :=
  {| fty := fty f; fsz := Z.of_nat (length (fbytes f ++ p)); fbytes := fbytes f ++ p |}.

(** The size of the inode is the number of bytes. *)
Definition whole (f : mfile) : Prop := fsz f = Z.of_nat (length (fbytes f)).

Lemma max_bytes : MAXFILE * bsize = 71680.
Proof. done. Qed.

Lemma iappend_ok st fl k f p : image st fl -> fl !! k = Some f -> whole f -> Forall byte p ->
  Z.of_nat (length (fbytes f) + length p) <= MAXFILE * bsize -> nmeta + total (<[k := append f p]> fl) <= FSSIZE ->
  exists st', iappend (Z.of_nat k + 1) p st = Ret tt st' /\ image st' (<[k := append f p]> fl).
Proof.
  intros Hi Hk Hw Hp Hmax Hroom. pose proof (im_raw _ _ Hi) as Hr. destruct (im_files _ _ Hi k f Hk) as [L1 L2 L3 L4].
  pose proof (node_number fl k (im_room _ _ Hi) (lookup_lt_Some _ _ _ Hk)) as Hrange.
  rewrite (total_replaced _ _ _ _ Hk) in Hroom. pose proof (im_used _ _ Hi) as Hu.
  set (x0 := ondisk (disk_of st) (Z.of_nat k + 1) zero_dinode).
  assert (L0 : laid st x0 (parts (length (fbytes f))) (fbytes f)) by (eapply laid_ondisk; exact L1).
  assert (Hs0 : isize x0 = Z.of_nat (length (fbytes f))) by (rewrite <- Hw, <- L3; done).
  unfold mblocks in Hroom. cbn [append fbytes] in Hroom. rewrite length_app in Hroom.
  destruct (append_loop (length p) st x0 (fbytes f) st x0 (fbytes f) p (S (S (length p))) (filled_refl _ _ _ Hr L0) Hp)
    as (st1 & x1 & R1 & Hr1 & Hl1 & G1 & F1); [lia|lia|done|lia|].
  destruct (winode_ok st1 (Z.of_nat k + 1) (set_isize (fsz (append f p)) x1) Hr1 Hrange) as (st2 & R2 & P2).
  { rewrite max_bytes in Hmax. apply fields_isize; [apply Hl1|]. cbn. rewrite length_app. lia. }
  exists st2. split.
  - unfold iappend. rewrite (bind_eq _ _ _ _ _ (rinode_ok st _ Hr Hrange)). fold x0. rewrite Hs0.
    rewrite (bind_eq _ _ _ _ _ R1). exact R2.
  - apply (update_image st st1 st2 fl k f (append f p) (dinode_of x1 (node0 (Z.of_nat k + 1))) Hi Hk).
    + by apply (grew_node st st1 (disk_of st) (Z.of_nat k + 1) zero_dinode).
    + done.
    + by apply laid_dinode.
    + unfold mblocks. cbn [append fbytes]. exact F1.
    + done.
    + rewrite max_bytes in Hmax. cbn. rewrite length_app. lia.
    + by apply inode_put_node.
Qed.

(** A new inode. *)
Definition new_file (ty : Z) : mfile := {| fty := ty; fsz := 0; fbytes := [] |}.

Lemma no_slots st y j : (forall q, addr_at y q = 0) -> slot (disk_of st) y j = 0.
Proof. intros H. unfold slot. rewrite !H. by destruct (j <? NDIRECT), (j =? MAXFILE). Qed.

Lemma laid_nothing st y : fields_ok y -> (forall q, addr_at y q = 0) -> laid st y 0 [].
Proof.
  intros Hf H. assert (MAXFILE = 140 /\ NDIRECT = 12) by done. split; try done; try lia; intros; rewrite ?(no_slots _ _ _ H) in *; try done; try lia.
  unfold fbyte. rewrite (no_slots _ _ _ H). by destruct (Z.to_nat o).
Qed.

Lemma ialloc_ok st fl ty : image st fl -> Z.of_nat (S (length fl)) < NINODES -> -32768 <= ty < 32768 ->
  exists st', Mkfs.ialloc ty st = Ret (1 + Z.of_nat (length fl)) st' /\ image st' (fl ++ [new_file ty]).
Proof.
  intros Hi Hroom Hty. pose proof (im_raw _ _ Hi) as Hr. set (i := 1 + Z.of_nat (length fl)).
  set (st1 := with_freeinode (i + 1) st). set (x := set_nlink 1 (set_type ty zero_dinode)).
  assert (Hz : forall q, addr_at x q = 0).
  { intros q. unfold addr_at. cbn [addrs x set_nlink set_type zero_dinode]. rewrite nth_lookup.
    destruct (replicate 13 0 !! Z.to_nat q) eqn:E; [|done]. by apply lookup_replicate in E as [-> _]. }
  assert (Hx : fields_ok x).
  { split; try done. unfold LogFacts.words. cbn [addrs x set_nlink set_type zero_dinode]. apply Forall_replicate. lia. }
  assert (Hr1 : raw st1) by (destruct Hr; by split).
  destruct (winode_ok st1 i x Hr1) as (st2 & R2 & P2); [unfold i; lia|done|].
  exists st2. split.
  { unfold Mkfs.ialloc. erewrite (bind_eq get) by reflexivity. rewrite (im_next _ _ Hi). fold i.
    unfold bind at 1, modify at 1. fold st1. fold x. by rewrite (bind_eq _ _ _ _ _ R2). }
  assert (Hd : forall j y, 0 <= j < NINODES -> j <> i -> ondisk (disk_of st2) j y = ondisk (disk_of st) j y).
  { intros j y Hj Hne. rewrite (ip_inodes _ _ _ _ P2) by done. unfold ondisk. by rewrite !disk_val. }
  assert (Hold : forall l h, fl !! l = Some h -> node st2 l = node st l /\ stored st2 l h /\
    forall j, place j -> slot (disk_of st2) (node st2 l) j = slot (disk_of st) (node st l) j).
  { intros l h Hl. pose proof (lookup_lt_Some _ _ _ Hl). destruct (im_files _ _ Hi l h Hl) as [L1 L2 L3 L4].
    assert (E : node st2 l = node st l) by (apply Hd; unfold i; lia). split; [done|].
    destruct (laid_frame st st2 (node st l) _ _ L1) as [L1' Es].
    - by rewrite (ip_block _ _ _ _ P2).
    - intros j Hj Hn. pose proof (la_range _ _ _ _ L1 j Hj Hn) as Hg. change nmeta with 59 in Hg.
      by rewrite (ip_other _ _ _ _ P2) by lia.
    - split; [split; rewrite E; done|by rewrite E]. }
  assert (En : node st2 (length fl) = dinode_of x (node0 i)).
  { unfold node. replace (Z.of_nat (length fl) + 1) with i by (unfold i; lia). apply (ip_here _ _ _ _ P2). }
  assert (Hno : forall j, slot (disk_of st2) (node st2 (length fl)) j = 0) by (intros j; rewrite En; by apply no_slots).
  split.
  - apply P2.
  - rewrite (ip_next _ _ _ _ P2), length_app. cbn. unfold i. lia.
  - rewrite length_app. cbn. lia.
  - rewrite (ip_other _ _ _ _ P2) by lia. exact (im_sb _ _ Hi).
  - rewrite (ip_other _ _ _ _ P2) by lia. exact (im_log _ _ Hi).
  - intros k f Hk. apply lookup_app_Some in Hk as [Hk|[Hge Hk]]; [by apply Hold|].
    apply list_lookup_singleton_Some in Hk as [Hk <-]. replace k with (length fl) by lia. split; rewrite En; [|done..].
    apply laid_dinode, laid_nothing; done.
  - rewrite length_app. cbn. intros k l p q Hk Hl Hne Hp Hq Hn E.
    assert (Hkl : (k < length fl)%nat) by (destruct (decide (k = length fl)) as [->|]; [by rewrite Hno in Hn|lia]).
    assert (Hll : (l < length fl)%nat) by (destruct (decide (l = length fl)) as [->|]; [by rewrite Hno in E|lia]).
    destruct (lookup_lt_is_Some_2 fl k Hkl) as [h Hh]. destruct (lookup_lt_is_Some_2 fl l Hll) as [h' Hh'].
    destruct (Hold k h Hh) as (_ & _ & E1), (Hold l h' Hh') as (_ & _ & E2). rewrite E1, ?E2 in * by done.
    by apply (im_apart _ _ Hi k l p q).
  - rewrite length_app. change (length [new_file ty]) with 1%nat. intros j Hj Hnj. unfold dnode. rewrite Hd by (done || (unfold i; lia)). apply (im_none _ _ Hi); [done|lia].
  - rewrite (ip_block _ _ _ _ P2), total_app. change (freeblock st1) with (freeblock st). rewrite (im_used _ _ Hi). assert (total [new_file ty] = 0) as -> by done. lia.
Qed.

(** ** Adding files *)

Lemma append_nil f : whole f -> append f [] = f.
Proof. intros H. unfold append. rewrite app_nil_r, <- H. by destruct f. Qed.
Lemma append_app f p q : append (append f p) q = append f (p ++ q).
Proof. unfold append. cbn. by rewrite app_assoc. Qed.
Lemma append_whole f p : whole (append f p).
Proof. done. Qed.

Lemma mblocks_append f p : mblocks f <= mblocks (append f p).
Proof. unfold mblocks. cbn [append fbytes]. apply blocks_mono, parts_mono. rewrite length_app. lia. Qed.

Lemma append_all ps : forall st fl k f, image st fl -> fl !! k = Some f -> whole f -> Forall (Forall byte) ps ->
  Z.of_nat (length (fbytes f) + length (concat ps)) <= MAXFILE * bsize ->
  nmeta + total (<[k := append f (concat ps)]> fl) <= FSSIZE ->
  exists st', for_each ps (iappend (Z.of_nat k + 1)) st = Ret tt st' /\ image st' (<[k := append f (concat ps)]> fl).
Proof.
  induction ps as [|p ps IH]; intros st fl k f Hi Hk Hw Hb Hmax Hroom.
  - exists st. cbn [concat]. rewrite append_nil, list_insert_id by done. by split.
  - apply Forall_cons in Hb as [Hp Hb]. cbn [concat] in *. rewrite length_app in Hmax. rewrite <- append_app in Hroom |- *.
    assert (Hkl : (k < length fl)%nat) by (by eapply lookup_lt_Some).
    assert (Hk1 : <[k := append f p]> fl !! k = Some (append f p)) by (by apply list_lookup_insert_eq).
    rewrite <- (list_insert_insert_eq fl k _ (append f p)) in Hroom |- *.
    pose proof (total_replaced _ _ _ (append (append f p) (concat ps)) Hk1) as Ht. pose proof (mblocks_append (append f p) (concat ps)).
    destruct (iappend_ok st fl k f p Hi Hk Hw Hp) as (st1 & R1 & Hi1); [lia|lia|].
    destruct (IH st1 _ k (append f p) Hi1 Hk1 (append_whole _ _) Hb) as (st2 & R2 & Hi2); [|done|].
    { cbn. rewrite length_app. lia. }
    exists st2. split; [|done]. cbn [for_each]. by rewrite (bind_eq _ _ _ _ _ R1).
Qed.

Lemma chunks_concat fuel : forall l, (length l < fuel)%nat -> concat (chunks fuel l) = l.
Proof.
  induction fuel as [|fuel IH]; intros l Hl; [lia|]. destruct l as [|c l]; [done|].
  change (chunks (S fuel) (c :: l)) with (take BSIZE (c :: l) :: chunks fuel (drop BSIZE (c :: l))). cbn [concat].
  rewrite IH; [by rewrite take_drop|]. rewrite length_drop. unfold BSIZE. cbn [length] in *. lia.
Qed.
Lemma chunks_bytes fuel : forall l, Forall byte l -> Forall (Forall byte) (chunks fuel l).
Proof.
  induction fuel as [|fuel IH]; intros l Hl; [done|]. destruct l as [|c l]; [done|].
  change (chunks (S fuel) (c :: l)) with (take BSIZE (c :: l) :: chunks fuel (drop BSIZE (c :: l))).
  apply Forall_cons. split; [by apply Forall_take|]. by apply IH, Forall_drop.
Qed.

(** A file of the command line, and what it becomes. *)
Definition data_file (bs : list Z) : mfile := {| fty := T_FILE; fsz := Z.of_nat (length bs); fbytes := bs |}.
Definition add (fl : list mfile) (f : list Z * list Z) : list mfile :=
  match fl with
  | root :: fs => append root (dirent (1 + Z.of_nat (length fl)) (skip_underscore f.1)) :: fs ++ [data_file f.2]
  | [] => []
  end.

Definition input_ok (f : list Z * list Z) : Prop :=
  slash ∉ f.1 /\ Forall byte f.1 /\ Forall byte f.2 /\ Z.of_nat (length f.2) <= MAXFILE * bsize.

Lemma underscore_bytes l : Forall byte l -> Forall byte (skip_underscore l).
Proof. destruct l as [|c l]; [done|]. cbn. intros H. case_match; [|done]. by apply Forall_cons in H as [_ ?]. Qed.

Lemma total_cons f fl : total (f :: fl) = mblocks f + total fl.
Proof. done. Qed.

Lemma total_add root fs f : total (root :: fs) <= total (add (root :: fs) f).
Proof.
  cbn [add]. rewrite !total_cons, total_app. pose proof (mblocks_append root (dirent (1 + Z.of_nat (length (root :: fs))) (skip_underscore f.1))).
  pose proof (total_pos [data_file f.2]). lia.
Qed.

Lemma add_file_ok st root fs f : image st (root :: fs) -> whole root -> input_ok f ->
  Z.of_nat (S (S (length fs))) < NINODES -> Z.of_nat (length (fbytes root)) + 16 <= MAXFILE * bsize ->
  nmeta + total (add (root :: fs) f) <= FSSIZE ->
  exists st', add_file f st = Ret tt st' /\ image st' (add (root :: fs) f).
Proof.
  destruct f as [name bs]. intros Hi Hw (Hsl & Hn & Hb & Hlen) Hroom Hdir Htot. cbn [Datatypes.fst snd] in *.
  destruct (ialloc_ok st _ T_FILE Hi ltac:(cbn [length]; lia) ltac:(unfold T_FILE; lia)) as (st1 & R1 & Hi1).
  set (i := 1 + Z.of_nat (length (root :: fs))) in *. set (de := dirent i (skip_underscore name)).
  cbn [add Datatypes.fst snd] in Htot |- *. fold i de in Htot |- *. set (fs1 := fs ++ [new_file T_FILE]).
  assert (Hde : Forall byte de) by (by apply dirent_bytes, underscore_bytes).
  assert (E0 : total [new_file T_FILE] = 0) by done.
  rewrite total_cons, total_app in Htot. cbn [total foldr] in Htot. pose proof (mblocks_pos (data_file bs)).
  destruct (iappend_ok st1 _ 0 root de Hi1 eq_refl Hw Hde) as (st2 & R2 & Hi2).
  { unfold de. rewrite dirent_length. lia. }
  { change (<[0%nat := append root de]> ((root :: fs) ++ [new_file T_FILE])) with (append root de :: fs1).
    unfold fs1. rewrite total_cons, total_app, E0. lia. }
  change (<[0%nat := append root de]> ((root :: fs) ++ [new_file T_FILE])) with ((append root de :: fs) ++ [new_file T_FILE]) in Hi2.
  assert (El : forall h, <[length (root :: fs) := h]> ((append root de :: fs) ++ [new_file T_FILE]) = append root de :: fs ++ [h]).
  { intros h. change (length (root :: fs)) with (length (append root de :: fs)).
    rewrite <- (Nat.add_0_r (length (append root de :: fs))). by rewrite insert_app_r. }
  assert (Ed : append (new_file T_FILE) bs = data_file bs) by done.
  destruct (append_all (chunks (S (length bs)) bs) st2 _ (length (root :: fs)) (new_file T_FILE) Hi2) as (st3 & R3 & Hi3).
  { change (length (root :: fs)) with (length (append root de :: fs)). by apply list_lookup_middle. }
  { done. }
  { by apply chunks_bytes. }
  { rewrite chunks_concat by lia. exact Hlen. }
  { rewrite chunks_concat, Ed, El, total_cons, total_app by lia. cbn [total foldr]. lia. }
  rewrite chunks_concat, Ed, El in Hi3 by lia. exists st3. split; [|done].
  unfold add_file. rewrite bool_decide_eq_false_2 by done. rewrite (bind_eq _ _ _ _ _ R1).
  change (Z.of_nat 0 + 1) with ROOTINO in R2. fold i. fold de. rewrite (bind_eq _ _ _ _ _ R2).
  replace i with (Z.of_nat (length (root :: fs)) + 1) by (unfold i; lia). exact R3.
Qed.

Lemma add_files_ok files : forall st root fs, image st (root :: fs) -> whole root -> Forall input_ok files ->
  Z.of_nat (S (length fs) + length files) < NINODES -> Z.of_nat (length (fbytes root) + 16 * length files) <= MAXFILE * bsize ->
  nmeta + total (foldl add (root :: fs) files) <= FSSIZE ->
  exists st', for_each files add_file st = Ret tt st' /\ image st' (foldl add (root :: fs) files).
Proof.
  induction files as [|f files IH]; intros st root fs Hi Hw Hin Hn Hd Ht; [by exists st|].
  apply Forall_cons in Hin as [Hf Hin]. cbn [foldl length] in *.
  assert (Hmono : forall files root fs, total (root :: fs) <= total (foldl add (root :: fs) files)).
  { clear. induction files as [|g files IH]; intros root fs; [done|]. cbn [foldl]. etrans; [apply (total_add root fs g)|]. apply IH. }
  cbn [add] in Ht |- *. specialize (Hmono files (append root (dirent (1 + Z.of_nat (length (root :: fs))) (skip_underscore f.1))) (fs ++ [data_file f.2])).
  destruct (add_file_ok st root fs f Hi Hw Hf) as (st1 & R1 & Hi1); [lia|lia|cbn [add]; lia|].
  destruct (IH st1 _ _ Hi1 (append_whole _ _) Hin) as (st2 & R2 & Hi2); [| |done|].
  - rewrite length_app. cbn [length]. lia.
  - cbn [append fbytes]. rewrite length_app, dirent_length. lia.
  - exists st2. split; [|done]. cbn [for_each]. by rewrite (bind_eq _ _ _ _ _ R1).
Qed.
