(* ===== verification/MkfsSpec.v ===== *)
(** * What mkfs promises

    The image that [main] writes, read by the kernel: [initlog] finds an empty
    log, and the file system on it is the tree of one directory with the files
    of the command line. *)

From S2P Require Import Prelude Locks Bio Log LogFacts Fs FsTx FsBlocks FsInode FsFile FsRW FsDir FsPath FsSpec Mkfs MkfsFacts.
Import Mkfs Bio BioFacts Log Fs.

(** ** The blank image *)

Lemma zero_loop n : forall a st, 0 <= a -> nsect st = a -> (forall m, sectors st m = zeroes) ->
  exists st', for_each (seqZ a (Z.of_nat n)) (fun i => wsect i zeroes) st = Ret tt st' /\
    nsect st' = a + Z.of_nat n /\ (forall m, sectors st' m = zeroes) /\ freeinode st' = freeinode st /\ freeblock st' = freeblock st.
Proof.
  induction n as [|n IH]; intros a st Ha Hn Hz.
  - exists st. rewrite seqZ_nil by lia. split_and!; try done. lia.
  - rewrite seqZ_cons by lia. cbn [for_each]. rewrite (bind_eq _ _ _ _ _ (wsect_ok _ _ _)).
    destruct (IH (a + 1) (put_sector a zeroes st)) as (st' & R & E1 & E2 & E3 & E4); [lia|cbn; lia| |].
    { intros m. rewrite put_sector_at. by case_match. }
    exists st'. replace (Z.pred (Z.of_nat (S n))) with (Z.of_nat n) by lia. split_and!; try done. lia.
Qed.

Lemma sb_sector_ok : block_ok sb_sector.
Proof. apply FsDemo.block_okb_ok. vm_compute. reflexivity. Qed.

Lemma blank_image st : nsect st = FSSIZE -> (forall m, sectors st m = zeroes) -> freeinode st = 1 -> freeblock st = nmeta ->
  image (put_sector 1 sb_sector st) [].
Proof.
  intros Hn Hz Hi Hf. assert (N : nmeta = 59 /\ FSSIZE = 1000) by done.
  assert (E : forall m, m <> 1 -> sectors (put_sector 1 sb_sector st) m = zeroes).
  { intros m Hm. rewrite put_sector_at, (proj2 (Z.eqb_neq _ _)) by done. apply Hz. }
  split; try done.
  - split.
    + intros m. destruct (decide (m = 1)) as [->|]; [apply sb_sector_ok|]. rewrite E by done. apply zeros_ok.
    + cbn. rewrite Hn. done.
    + intros m Hm. apply E. cbn in Hm. lia.
    + cbn. lia.
  - by apply E.
  - intros k l i j Hk. cbn in Hk. lia.
  - intros i Hir _. unfold dnode, ondisk. rewrite disk_val. change (sb (disk_of _)) with Mkfs.sb.
    pose proof (inode_sector i Hir). rewrite E by lia. cbn [type get_dinode]. unfold ld_half. by rewrite !zeroes_nth.
Qed.

(** ** The end of [main] *)

Lemma set_bits l : forall d b, block_ok d -> 0 <= b -> Forall (fun i => 0 <= i < 4096) l ->
  block_ok (foldl set_bit d l) /\ bit (foldl set_bit d l) b = bool_decide (b ∈ l) || bit d b.
Proof.
  induction l as [|i l IH]; intros d b Hd Hb Hl; [done|]. apply Forall_cons in Hl as [Hi Hl]. cbn [foldl].
  assert (Hlen : (Z.to_nat (i / 8) < length d)%nat).
  { rewrite (proj1 Hd). assert (i / 8 < 512) by (apply Z.div_lt_upper_bound; lia). unfold BSIZE. lia. }
  destruct (IH (set_bit d i) b (set_bit_ok d i Hd) Hb Hl) as [H1 H2]. split; [done|]. rewrite H2, bit_set_bit by (done || lia).
  rewrite orb_assoc. f_equal. apply eq_bool_prop_intro. rewrite orb_True, !bool_decide_spec, elem_of_cons. naive_solver.
Qed.

(** The bitmap has the bits below the counter. *)
Definition first_bits (n : Z) : list Z := foldl set_bit zeroes (seqZ 0 n).
Lemma first_bits_ok n b : 0 <= n < 4096 -> 0 <= b -> block_ok (first_bits n) /\ bit (first_bits n) b = (b <? n).
Proof.
  intros Hn Hb. destruct (set_bits (seqZ 0 n) zeroes b zeros_ok Hb) as [H1 H2].
  { apply Forall_seqZ. lia. }
  split; [done|]. unfold first_bits. rewrite H2. unfold bit at 1. rewrite zeroes_nth, Z.bits_0, orb_false_r.
  apply eq_bool_prop_intro. rewrite bool_decide_spec, elem_of_seqZ. destruct (Z.ltb_spec b n); cbn; naive_solver lia.
Qed.

(** Sector 58 belongs to no file. *)
Lemma bitmap_image st fl d : image st fl -> block_ok d -> image (put_sector 58 d st) fl.
Proof.
  intros Hi Hd. set (st' := put_sector 58 d st). pose proof (im_raw _ _ Hi) as Hr.
  assert (E : forall m, m <> 58 -> sectors st' m = sectors st m).
  { intros m Hm. unfold st'. rewrite put_sector_at. by rewrite (proj2 (Z.eqb_neq _ _)). }
  assert (Hn : forall i y, 0 <= i < NINODES -> ondisk (disk_of st') i y = ondisk (disk_of st) i y).
  { intros i y Hin. unfold ondisk. rewrite !disk_val. change (sb (disk_of _)) with Mkfs.sb. pose proof (inode_sector i Hin).
    by rewrite E by lia. }
  assert (Hf : forall k f, fl !! k = Some f -> stored st' k f /\
    forall j, place j -> slot (disk_of st') (node st' k) j = slot (disk_of st) (node st k) j).
  { intros k f Hk. pose proof (lookup_lt_Some _ _ _ Hk) as Hlt. destruct (im_files _ _ Hi k f Hk) as [L1 L2 L3 L4].
    assert (En : node st' k = node st k) by (apply Hn, (node_number fl); [apply Hi|done]).
    destruct (laid_frame st st' (node st k) _ _ L1) as [L1' Es]; [done| |].
    - intros j Hj Hnz. apply E. pose proof (la_range _ _ _ _ L1 j Hj Hnz) as Hg. change nmeta with 59 in Hg. lia.
    - split; [split; rewrite En; done|by rewrite En]. }
  destruct Hi as [_ H2 H3 H4 H5 _ H7 H8 H9]. split; try done.
  - apply put_sector_raw; [done..|]. pose proof (rw_pos _ Hr) as Hp. change nmeta with 59 in Hp. lia.
  - intros k f Hk. by apply Hf.
  - intros k l i j Hk Hl Hne Hp Hq.
    destruct (lookup_lt_is_Some_2 fl k Hk) as [h Hh]. destruct (lookup_lt_is_Some_2 fl l Hl) as [h' Hh'].
    rewrite (proj2 (Hf k h Hh)), (proj2 (Hf l h' Hh')) by done. by apply H7.
  - intros i Hin Hni. unfold dnode. rewrite Hn by done. by apply H8.
Qed.

Definition resize (n : Z) (f : mfile) : mfile := {| fty := fty f; fsz := n; fbytes := fbytes f |}.

Lemma root_resized st root fs n : image st (root :: fs) -> 0 <= n < 4294967296 ->
  exists st', winode ROOTINO (set_isize n (ondisk (disk_of st) ROOTINO zero_dinode)) st = Ret tt st' /\
    image st' (resize n root :: fs).
Proof.
  intros Hi Hn. pose proof (im_files _ _ Hi 0%nat root eq_refl) as [L1 L2 L3 L4].
  set (x := ondisk (disk_of st) ROOTINO zero_dinode). assert (Lx : laid st x (parts (length (fbytes root))) (fbytes root)) by (eapply laid_ondisk; exact L1).
  destruct (winode_ok st ROOTINO (set_isize n x) (im_raw _ _ Hi)) as (st' & R & P); [done|apply fields_isize; [apply Lx|done]|].
  exists st'. split; [done|].
  apply (update_image st st st' (root :: fs) 0 root (resize n root) (dinode_of x (node0 1)) Hi eq_refl); try done.
  - apply (grew_node st st (disk_of st) 1 zero_dinode). apply grew_refl.
  - apply Hi.
  - unfold mblocks. cbn [resize fbytes]. lia.
  - by apply inode_put_node.
Qed.

(** ** [main] *)

Definition root0 : mfile := {| fty := T_DIR; fsz := 32; fbytes := dirent 1 [46] ++ dirent 1 [46; 46] |}.
Definition round_up (n : Z) : Z := (n / bsize + 1) * bsize.
(** The files of the image: the directory, with its size in the end, and the
    files of the command line. *)
Definition result (files : list (list Z * list Z)) : list mfile :=
  match foldl add [root0] files with
  | root :: fs => resize (round_up (fsz root)) root :: fs
  | [] => []
  end.

Lemma foldl_add_cons files : forall root fs, whole root -> exists root' fs', foldl add (root :: fs) files = root' :: fs' /\ whole root' /\
  length (fbytes root') = (length (fbytes root) + 16 * length files)%nat.
Proof.
  induction files as [|f files IH]; intros root fs Hw; [exists root, fs; split_and!; [done|done|cbn; lia]|].
  cbn [foldl add]. destruct (IH (append root (dirent (1 + Z.of_nat (length (root :: fs))) (skip_underscore f.1))) (fs ++ [data_file f.2])) as (r & fs' & E & Hr & Hl); [done|].
  exists r, fs'. split_and!; [done|done|]. rewrite Hl. cbn [append fbytes]. rewrite length_app, dirent_length. cbn [length]. lia.
Qed.

(** ** What the files of the image are *)

Definition need (files : list (list Z * list Z)) : Z :=
  blocks (parts (32 + 16 * length files)) + total ((fun f => data_file f.2) <$> files).

(** The entries of the directory. *)
Definition file_entry (k : nat) (f : list Z * list Z) : list Z := dirent (Z.of_nat k + 2) (skip_underscore f.1).
Definition dir_entries (files : list (list Z * list Z)) : list (list Z) :=
  dirent 1 [46] :: dirent 1 [46; 46] :: imap file_entry files.

Lemma foldl_add files : forall root fs, whole root ->
  foldl add (root :: fs) files =
    append root (concat (imap (fun k f => dirent (Z.of_nat (k + S (S (length fs)))) (skip_underscore f.1)) files)) ::
    fs ++ ((fun f => data_file f.2) <$> files).
Proof.
  induction files as [|f files IH]; intros root fs Hw.
  - cbn [foldl imap concat fmap list_fmap]. by rewrite append_nil, app_nil_r.
  - cbn [foldl add]. rewrite IH by done. rewrite imap_cons. cbn [concat]. rewrite <- append_app, <- app_assoc. f_equal.
    assert (E0 : 1 + Z.of_nat (length (root :: fs)) = Z.of_nat (0 + S (S (length fs)))) by (cbn [length]; lia).
    rewrite E0. f_equal. f_equal. apply imap_ext. intros k g _. cbn [compose]. f_equal. rewrite length_app. cbn [length]. lia.
Qed.

Lemma result_eq files :
  result files = {| fty := T_DIR; fsz := round_up (32 + 16 * Z.of_nat (length files)); fbytes := concat (dir_entries files) |} ::
    ((fun f => data_file f.2) <$> files).
Proof.
  destruct (foldl_add_cons files root0 [] eq_refl) as (root & fs & E & Hw & Hl).
  unfold result. rewrite E. rewrite foldl_add in E by done. injection E as Er Ef. rewrite <- Ef. cbn [app length] in *.
  assert (Es : fsz root = 32 + 16 * Z.of_nat (length files)) by (rewrite Hw, Hl; cbn [root0 fbytes]; rewrite length_app, !dirent_length; lia).
  assert (Eb : fbytes root = concat (dir_entries files)).
  { rewrite <- Er. cbn [append fbytes root0]. unfold dir_entries. cbn [concat]. rewrite <- app_assoc. do 3 f_equal.
    apply imap_ext. intros k g _. unfold file_entry. f_equal. lia. }
  unfold resize. rewrite Es, Eb, <- Er. done.
Qed.

Lemma total_result files : total (foldl add [root0] files) = need files.
Proof.
  destruct (foldl_add_cons files root0 [] eq_refl) as (root & fs & E & _ & Hl). rewrite E.
  rewrite foldl_add in E by done. injection E as _ <-. rewrite total_cons. unfold need, mblocks. rewrite Hl.
  cbn [root0 fbytes]. by rewrite length_app, !dirent_length.
Qed.

(** What fits: the sizes of files, the inodes and the blocks. *)
Record fits (files : list (list Z * list Z)) : Prop := {
  ft_files : Forall input_ok files;
  ft_inodes : Z.of_nat (S (length files)) < NINODES;
  ft_blocks : nmeta + need files <= FSSIZE }.

Lemma main_ok files : fits files ->
  exists st, main files Mkfs.empty = Ret tt st /\ image st (result files) /\ sectors st 58 = first_bits (freeblock st).
Proof.
  intros [Hin Hn Ht]. rewrite <- total_result in Ht. change NINODES with 200 in Hn. assert (N : nmeta = 59 /\ FSSIZE = 1000 /\ NINODES = 200) by done.
  pose proof max_bytes as Hmb.
  destruct (zero_loop (Z.to_nat FSSIZE) 0 (with_freeblock nmeta Mkfs.empty)) as (st1 & R1 & E1 & E2 & E3 & E4); [lia|done|done|].
  rewrite Z2Nat.id in R1, E1 by lia.
  pose proof (blank_image st1 E1 E2 E3 E4) as I2. set (st2 := put_sector 1 sb_sector st1) in *.
  destruct (ialloc_ok st2 [] T_DIR I2) as (st3 & R3 & I3); [cbn; lia|unfold T_DIR; lia|].
  destruct (iappend_ok st3 [new_file T_DIR] 0 (new_file T_DIR) (dirent 1 [46]) I3 eq_refl eq_refl) as (st4 & R4 & I4).
  { by apply (bool_decide_unpack _). }
  { rewrite max_bytes. by vm_compute. }
  { by vm_compute. }
  destruct (iappend_ok st4 _ 0 (append (new_file T_DIR) (dirent 1 [46])) (dirent 1 [46; 46]) I4 eq_refl eq_refl) as (st5 & R5 & I5).
  { by apply (bool_decide_unpack _). }
  { rewrite max_bytes. by vm_compute. }
  { by vm_compute. }
  change (<[0%nat := _]> _) with [root0] in I5.
  destruct (add_files_ok files st5 root0 [] I5 eq_refl Hin) as (st6 & R6 & I6); [cbn; lia|cbn; lia|done|].
  destruct (foldl_add_cons files root0 [] eq_refl) as (root & fs & E & Hw & Hl). unfold result. rewrite E in *.
  assert (Hsz : fsz root = 32 + 16 * Z.of_nat (length files)) by (rewrite Hw, Hl; cbn; lia).
  assert (Hru : 0 <= round_up (fsz root) < 4294967296).
  { unfold round_up, bsize. pose proof (Z.div_mod (fsz root) 512 ltac:(lia)). pose proof (Z.mod_pos_bound (fsz root) 512 ltac:(lia)). lia. }
  destruct (root_resized st6 root fs (round_up (fsz root)) I6 Hru) as (st7 & R7 & I7).
  pose proof (rw_pos _ (im_raw _ _ I7)) as Hp.
  destruct (first_bits_ok (freeblock st7) 0) as [Hbok _]; [lia|lia|].
  exists (put_sector 58 (first_bits (freeblock st7)) st7). split; [|split; [by apply bitmap_image|done]].
  unfold main. erewrite (bind_eq (modify _)) by reflexivity. rewrite (bind_eq _ _ _ _ _ R1).
  rewrite (bind_eq _ _ _ _ _ (wsect_ok _ _ _)). fold st2. change (1 + Z.of_nat (length (@nil mfile))) with 1 in R3.
  rewrite (bind_eq _ _ _ _ _ R3). change (1 =? ROOTINO) with true. cbv iota. rewrite (bind_eq (ret tt) _ st3 tt st3 eq_refl).
  change (Z.of_nat 0 + 1) with 1 in *. rewrite (bind_eq _ _ _ _ _ R4), (bind_eq _ _ _ _ _ R5), (bind_eq _ _ _ _ _ R6).
  assert (R : rinode 1 st6 = Ret (ondisk (disk_of st6) ROOTINO zero_dinode) st6) by (by apply rinode_ok; [apply I6|]).
  rewrite (bind_eq _ _ _ _ _ R). pose proof (so_size _ _ _ (im_files _ _ I6 0%nat root eq_refl)) as Hs6.
  change (isize (ondisk (disk_of st6) ROOTINO zero_dinode)) with (isize (node st6 0)). rewrite Hs6.
  rewrite (bind_eq _ _ _ _ _ R7). erewrite (bind_eq get) by reflexivity. unfold Mkfs.balloc.
  rewrite (proj2 (Z.ltb_lt _ _)) by (unfold bsize; lia). done.
Qed.

(** ** The kernel on the image *)

(** The state the kernel has over the image, however it came to it. *)
Record reads (s : fst) (st : img) : Prop := {
  rd_sb : sb s = Mkfs.sb;
  rd_start : start (lg s) = 2;
  rd_lsize : lsize (lg s) = Mkfs.nlog;
  rd_size : disksize (io (lg s)) = FSSIZE;
  rd_lk : icache_lk s = false;
  rd_val : forall m, val s m = sectors st m }.

Section Reads.
Variables (s : fst) (st : img) (root : mfile) (fs : list mfile).
Hypothesis Hs : reads s st.
Hypothesis Hi : image st (root :: fs).
Hypothesis Hbits : sectors st 58 = first_bits (freeblock st).

Lemma reads_val m : val s m = val (disk_of st) m.
Proof using Hs. rewrite disk_val. apply Hs. Qed.

Lemma reads_layout : layout s.
Proof using Hs.
  destruct Hs as [E1 E2 E3 E4 E5 E6]. split; rewrite ?E1, ?E2, ?E3, ?E4; vm_compute; repeat split; discriminate.
Qed.

Lemma reads_used b : 0 <= b < FSSIZE -> used s b = (b <? freeblock st).
Proof using Hs Hi Hbits.
  intros Hb. change FSSIZE with 1000 in Hb. unfold used. rewrite (rd_sb _ _ Hs).
  assert (E : BBLOCK b Mkfs.sb = 58). { unfold BBLOCK, BPB. rewrite Z.div_small by lia. done. }
  pose proof (rw_pos _ (im_raw _ _ Hi)) as Hp. change FSSIZE with 1000 in Hp. change nmeta with 59 in Hp.
  rewrite E, (rd_val _ _ Hs), Hbits. unfold BPB. rewrite Z.mod_small by lia. apply first_bits_ok; lia.
Qed.

Lemma reads_ok : fs_ok s.
Proof using Hs Hi Hbits.
  pose proof (rw_pos _ (im_raw _ _ Hi)) as Hp. change FSSIZE with 1000 in Hp. change nmeta with 59 in Hp. split.
  - apply reads_layout.
  - rewrite (rd_val _ _ Hs), (im_sb _ _ Hi), (rd_sb _ _ Hs). by vm_compute.
  - intros m. rewrite (rd_val _ _ Hs). apply Hi.
  - intros b Hb. unfold meta_end in Hb. rewrite (rd_sb _ _ Hs) in Hb. change (bmapstart Mkfs.sb + size Mkfs.sb / BPB + 1) with 59 in Hb.
    rewrite reads_used by (change FSSIZE with 1000; lia). apply Z.ltb_lt. lia.
Qed.

Lemma reads_node i : dnode s i = dnode (disk_of st) i.
Proof using Hs. unfold dnode, ondisk. rewrite (rd_sb _ _ Hs), reads_val. done. Qed.

Lemma reads_slot x j : slot s x j = slot (disk_of st) x j.
Proof using Hs. apply same_slot, reads_val. Qed.

(** A file of the image is a file of the kernel, with its bytes and zeros up to
    its size. *)
Lemma reads_file k f : (root :: fs) !! k = Some f -> 0 <= fsz f <= MAXFILE * bsize ->
  file_ok s (dnode s (Z.of_nat k + 1)).
Proof using Hs Hi Hbits.
  intros Hk Hsz. rewrite reads_node. pose proof (lookup_lt_Some _ _ _ Hk) as Hlt.
  destruct (im_files _ _ Hi k f Hk) as [[L1 L2 L3 L4 L5 L6 L7 L8] Ht Hz Hn]. fold (node st k).
  pose proof (node_number _ k (im_room _ _ Hi) Hlt) as Hr. pose proof (rw_pos _ (im_raw _ _ Hi)) as Hp. split.
  - done.
  - done.
  - rewrite (rd_sb _ _ Hs). change (ninodes Mkfs.sb) with NINODES. exact Hr.
  - intros j Hj. rewrite reads_slot. intros Hne. specialize (L6 j Hj Hne). split.
    + unfold data_block, meta_end. rewrite (rd_sb _ _ Hs). change (bmapstart Mkfs.sb + size Mkfs.sb / BPB + 1) with nmeta.
      change (size Mkfs.sb) with FSSIZE. lia.
    + change nmeta with 59 in *. rewrite reads_used by lia. apply Z.ltb_lt. lia.
  - intros i j. rewrite !reads_slot. apply L7.
  - unfold fsize_ok. rewrite Hz. done.
Qed.

Lemma reads_content k f : (root :: fs) !! k = Some f -> Z.of_nat (length (fbytes f)) <= fsz f <= MAXFILE * bsize ->
  content s (dnode s (Z.of_nat k + 1)) = fbytes f ++ replicate (Z.to_nat (fsz f) - length (fbytes f)) 0.
Proof using Hs Hi.
  intros Hk Hsz. rewrite reads_node. destruct (im_files _ _ Hi k f Hk) as [[L1 L2 L3 L4 L5 L6 L7 L8] Ht Hz Hn]. fold (node st k).
  unfold content, FsRW.bytes. rewrite Hz.
  apply list_eq_same_length with (n := Z.to_nat (fsz f)).
  - rewrite length_app, length_replicate. lia.
  - by rewrite length_fmap, length_seqZ.
  - intros i a b Hil. rewrite list_lookup_fmap, lookup_seqZ_lt by lia. cbn [fmap option_fmap option_map]. intros [= <-].
    rewrite (same_fbyte (disk_of st) s) by (intros; by rewrite reads_val). rewrite L8 by lia.
    replace (Z.to_nat (0 + Z.of_nat i)) with i by lia. intros [Hb|[Hge Hb]]%lookup_app_Some.
    + by apply nth_lookup_Some.
    + apply lookup_replicate in Hb as [-> _]. by apply nth_overflow.
Qed.

Lemma reads_alive i : alive s i <-> 1 <= i <= Z.of_nat (length (root :: fs)) /\ type (dnode s i) <> 0.
Proof using Hs Hi.
  unfold alive. rewrite reads_node, (rd_sb _ _ Hs). change (ninodes Mkfs.sb) with NINODES. pose proof (im_room _ _ Hi) as Hr. split.
  - intros (Hin & Ht & _). split; [|done]. destruct (decide (1 <= i <= Z.of_nat (length (root :: fs)))) as [|Hne]; [done|].
    by rewrite (im_none _ _ Hi i Hin Hne) in Ht.
  - intros [Hir Ht]. split; [lia|]. split; [done|]. destruct (lookup_lt_is_Some_2 (root :: fs) (Z.to_nat (i - 1))) as [f Hf]; [lia|].
    pose proof (so_link _ _ _ (im_files _ _ Hi _ _ Hf)) as Hl. unfold node in Hl.
    replace (Z.of_nat (Z.to_nat (i - 1)) + 1) with i in Hl by lia. by rewrite Hl.
Qed.
End Reads.

(** ** The directory *)

Lemma entries_app e c : length e = 16%nat -> entries (e ++ c) = e :: entries c.
Proof.
  intros He. unfold entries. rewrite length_app, He.
  replace ((16 + length c) / 16)%nat with (S (length c / 16)) by (symmetry; exact (Nat.div_add_l 1 16 (length c) ltac:(lia))).
  cbn [seq fmap list_fmap]. f_equal.
  - unfold entry. change (drop (16 * 0) (e ++ c)) with (e ++ c). rewrite take_app_le by lia. apply take_ge. lia.
  - rewrite <- fmap_S_seq, <- list_fmap_compose. apply list_fmap_ext. intros i j _. unfold entry. cbn [compose].
    f_equal. rewrite drop_app_ge by lia. f_equal. lia.
Qed.

Lemma entries_concat es c : Forall (fun e => length e = 16%nat) es -> entries (concat es ++ c) = es ++ entries c.
Proof.
  induction es as [|e es IH]; intros H; [done|]. apply Forall_cons in H as [He H]. cbn [concat app].
  rewrite <- app_assoc, entries_app by done. by rewrite IH.
Qed.

Lemma entries_zeros n : entries_map (entries (replicate n 0)) = ∅.
Proof.
  assert (H : Forall (fun e => is_empty e = true) (entries (replicate n 0))).
  { apply Forall_fmap, Forall_forall. intros i _. cbn [compose].
    assert (Hz : Forall (fun v => v = 0) (entry (replicate n 0) i)) by (by apply Forall_take, Forall_drop, Forall_replicate).
    assert (Hn : forall j, nth j (entry (replicate n 0) i) 0 = 0).
    { intros j. rewrite nth_lookup. destruct (entry (replicate n 0) i !! j) as [v|] eqn:E; [|done]. rewrite Forall_lookup in Hz. by apply (Hz j). }
    unfold is_empty, de_inum. by rewrite !Hn. }
  induction H as [|e es He _ IH]; [done|]. cbn [entries_map foldr]. unfold add_entry at 1. by rewrite He.
Qed.

Definition named (p : Z * list Z) : list Z * Z := (canon p.2, p.1).
Definition as_entry (p : Z * list Z) : list Z := dirent p.1 p.2.

Lemma entries_map_names ps zs : Forall (fun p : Z * list Z => 0 < p.1 < 65536) ps -> entries_map zs = ∅ ->
  entries_map ((as_entry <$> ps) ++ zs) = list_to_map (named <$> ps).
Proof.
  intros H Hz. induction H as [|[i nm] ps Hi _ IH]; [done|]. destruct (dirent_fields i nm Hi) as [E1 E2].
  cbn [fmap list_fmap app]. change (as_entry (i, nm)) with (dirent i nm). cbn [entries_map foldr].
  fold (entries_map ((as_entry <$> ps) ++ zs)). unfold add_entry, is_empty. rewrite E1, E2, (proj2 (Z.eqb_neq i 0)) by (cbn in Hi; lia).
  by rewrite IH.
Qed.

(** What the command line says the directory holds. *)
Definition listed (files : list (list Z * list Z)) : list (Z * list Z) :=
  (1, [46]) :: (1, [46; 46]) :: imap (fun k f => (Z.of_nat k + 2, skip_underscore f.1)) files.
Definition names_of (files : list (list Z * list Z)) : gmap (list Z) Z := list_to_map (named <$> listed files).

Lemma listed_entries files : as_entry <$> listed files = dir_entries files.
Proof. unfold listed, dir_entries. cbn [fmap list_fmap]. rewrite fmap_imap. done. Qed.

Lemma listed_numbers files p : p ∈ listed files -> 1 <= p.1 <= 1 + Z.of_nat (length files).
Proof.
  unfold listed. intros [->|[->|H]%elem_of_cons]%elem_of_cons; [cbn; lia..|]. apply elem_of_lookup_imap in H as (k & f & -> & Hk).
  apply lookup_lt_Some in Hk. cbn. lia.
Qed.

Lemma dir_entries_length files : length (concat (dir_entries files)) = (32 + 16 * length files)%nat.
Proof.
  rewrite <- listed_entries. assert (H : forall ps, length (concat (as_entry <$> ps)) = (16 * length ps)%nat).
  { induction ps as [|p ps IH]; [done|]. cbn [fmap list_fmap concat]. rewrite length_app, IH. unfold as_entry at 1. rewrite dirent_length. cbn [length]. lia. }
  rewrite H. unfold listed. cbn [length]. rewrite length_imap. lia.
Qed.

Lemma dir_map_result files n : Z.of_nat (length files) < 1000 ->
  dir_map (concat (dir_entries files) ++ replicate n 0) = names_of files.
Proof.
  intros Hn. unfold dir_map. rewrite <- listed_entries, entries_concat.
  - apply entries_map_names; [|apply entries_zeros]. apply Forall_forall. intros p Hp%listed_numbers. lia.
  - apply Forall_fmap, Forall_forall. intros p _. apply dirent_length.
Qed.

Lemma names_alive files name i : names_of files !! name = Some i -> 1 <= i <= 1 + Z.of_nat (length files).
Proof.
  intros H%elem_of_list_to_map_2. apply list_elem_of_fmap in H as ([j nm] & [= -> ->] & Hin). by apply (listed_numbers files (j, nm)).
Qed.

(** ** The tree *)

Section Tree.
Variables (s : fst) (st : img) (files : list (list Z * list Z)).
Hypothesis Hs : reads s st.
Hypothesis Hi : image st (result files).
Hypothesis Hbits : sectors st 58 = first_bits (freeblock st).
Hypothesis Hfit : fits files.

Let root : mfile := {| fty := T_DIR; fsz := round_up (32 + 16 * Z.of_nat (length files)); fbytes := concat (dir_entries files) |}.
Let rest : list mfile := (fun f => data_file f.2) <$> files.
Let n : Z := 2 + Z.of_nat (length files).

Lemma tree_image : image st (root :: rest).
Proof using Hi. clear - Hi. by rewrite result_eq in Hi. Qed.

Lemma root_size : 32 + 16 * Z.of_nat (length files) <= fsz root <= MAXFILE * bsize /\ fsz root mod 16 = 0 /\
  fsz root = (16 * n / 512 + 1) * 512 /\ n <= 200.
Proof using Hfit.
  pose proof (ft_inodes _ Hfit) as Hn. change NINODES with 200 in Hn. rewrite max_bytes. cbn [fsz root]. unfold round_up, bsize, n.
  replace (16 * (2 + Z.of_nat (length files))) with (32 + 16 * Z.of_nat (length files)) by lia.
  set (m := 32 + 16 * Z.of_nat (length files)) in *. pose proof (Z.div_mod m 512 ltac:(lia)). pose proof (Z.mod_pos_bound m 512 ltac:(lia)).
  split; [lia|]. split; [|lia]. replace ((m / 512 + 1) * 512) with ((m / 512 + 1) * 32 * 16) by lia. apply Z.mod_mul. lia.
Qed.

Lemma rest_lookup k f : files !! k = Some f -> (root :: rest) !! S k = Some (data_file f.2).
Proof using. clear. intros Hk. change ((root :: rest) !! S k) with (rest !! k). unfold rest. by rewrite list_lookup_fmap, Hk. Qed.

Lemma node_type k f : files !! k = Some f -> type (dnode s (Z.of_nat k + 2)) = T_FILE.
Proof using Hs Hi.
  clear Hfit Hbits. intros Hk. rewrite (reads_node s st Hs). pose proof (im_files _ _ tree_image (S k) (data_file f.2)) as H.
  pose proof (rest_lookup k f Hk) as E.
  pose proof (so_type _ _ _ (H E)) as T. unfold node in T. replace (Z.of_nat (S k) + 1) with (Z.of_nat k + 2) in T by lia. exact T.
Qed.

Lemma root_type : type (dnode s 1) = T_DIR.
Proof using Hs Hi. clear Hfit Hbits. rewrite (reads_node s st Hs). apply (so_type _ _ _ (im_files _ _ tree_image 0 root eq_refl)). Qed.

Lemma tree_alive i : alive s i <-> 1 <= i <= 1 + Z.of_nat (length files).
Proof using Hs Hi.
  clear Hfit Hbits. rewrite (reads_alive s st root rest Hs tree_image). cbn [length]. unfold rest. rewrite length_fmap. split; [lia|].
  intros H. split; [lia|]. destruct (decide (i = 1)) as [->|]; [by rewrite root_type|].
  destruct (lookup_lt_is_Some_2 files (Z.to_nat (i - 2))) as [f Hf]; [lia|].
  pose proof (node_type _ _ Hf) as T. replace (Z.of_nat (Z.to_nat (i - 2)) + 2) with i in T by lia. by rewrite T.
Qed.

Lemma root_map : dir_map (content s (dnode s 1)) = names_of files.
Proof using Hs Hi Hfit.
  clear Hbits. pose proof root_size as (R1 & _). pose proof (reads_content s st root rest Hs tree_image 0 root eq_refl) as C.
  change (Z.of_nat 0 + 1) with 1 in C. rewrite C.
  - apply dir_map_result. pose proof (ft_inodes _ Hfit) as Hn. change NINODES with 200 in Hn. lia.
  - cbn [root fbytes]. rewrite dir_entries_length. lia.
Qed.

(** The last block of the directory is there unless its entries end a block. *)
Lemma root_dense : n mod 32 <> 0 -> dense s (dnode s 1).
Proof using All.
  intros Hm o Ho. pose proof root_size as (R1 & _ & R3 & R4).
  destruct (im_files _ _ tree_image 0%nat root eq_refl) as [L _ Hz _]. rewrite (reads_node s st Hs) in Ho |- *.
  change (dnode (disk_of st) 1) with (node st 0) in *. rewrite Hz in Ho. rewrite (reads_slot s st Hs).
  apply (la_has _ _ _ _ L); [apply part_place; lia|]. cbn [root fbytes]. rewrite dir_entries_length.
  assert (o / bsize < 16 * n / 512 + 1) by (apply Z.div_lt_upper_bound; unfold bsize; lia).
  unfold parts, n in *. pose proof (Z.div_mod n 32 ltac:(lia)). pose proof (Z.mod_pos_bound n 32 ltac:(lia)). unfold n in *.
  set (m := Z.of_nat (length files)) in *.
  pose proof (Z.div_mod (16 * (2 + m)) 512 ltac:(lia)). pose proof (Z.mod_pos_bound (16 * (2 + m)) 512 ltac:(lia)).
  pose proof (Z.div_mod (Z.of_nat (32 + 16 * length files) + 511) 512 ltac:(lia)).
  pose proof (Z.mod_pos_bound (Z.of_nat (32 + 16 * length files) + 511) 512 ltac:(lia)). lia.
Qed.

(** When they do, the size covers a block that is not there. *)
Lemma root_hole : n mod 32 = 0 -> slot s (dnode s 1) (isize (dnode s 1) / bsize - 1) = 0.
Proof using All.
  intros Hm. pose proof root_size as (R1 & _ & R3 & R4).
  destruct (im_files _ _ tree_image 0%nat root eq_refl) as [L _ Hz _]. rewrite (reads_node s st Hs).
  change (dnode (disk_of st) 1) with (node st 0). rewrite Hz, (reads_slot s st Hs), R3. unfold bsize. rewrite Z.div_mul by lia.
  replace (16 * n / 512 + 1 - 1) with (n / 32) by (replace (16 * n) with (n * 16) by lia; replace 512 with (32 * 16) by lia; rewrite Z.div_mul_cancel_r by lia; lia).
  pose proof (Z.div_mod n 32 ltac:(lia)). assert (Hn : 2 <= n) by (unfold n; lia).
  pose proof (la_has _ _ _ _ L (n / 32)) as H0. cbn [root fbytes] in H0. rewrite dir_entries_length in H0.
  destruct (decide (slot (disk_of st) (node st 0) (n / 32) = 0)) as [|Hne]; [done|]. exfalso.
  apply H0 in Hne; [|change MAXFILE with 140; lia]. unfold parts in Hne.
  pose proof (Z.div_mod (Z.of_nat (32 + 16 * length files) + 511) 512 ltac:(lia)).
  pose proof (Z.mod_pos_bound (Z.of_nat (32 + 16 * length files) + 511) 512 ltac:(lia)). unfold n in *. lia.
Qed.

Lemma tree_fine : n mod 32 <> 0 -> tree_ok s.
Proof using All.
  intros Hm. pose proof root_size as (R1 & R2 & _). split.
  - exact (reads_ok s st root rest Hs tree_image Hbits).
  - apply Hs.
  - intros i Ha Ht. assert (i = 1) as ->.
    { apply tree_alive in Ha. destruct (decide (i = 1)) as [|Hne]; [done|]. destruct (lookup_lt_is_Some_2 files (Z.to_nat (i - 2))) as [f Hf]; [lia|].
      pose proof (node_type _ _ Hf) as T. replace (Z.of_nat (Z.to_nat (i - 2)) + 2) with i in T by lia. by rewrite T in Ht. }
    split.
    + apply (reads_file s st root rest Hs tree_image Hbits 0 root eq_refl). lia.
    + by apply root_dense.
    + rewrite (reads_node s st Hs). change (dnode (disk_of st) 1) with (node st 0).
      by rewrite (so_size _ _ _ (im_files _ _ tree_image 0%nat root eq_refl)).
    + intros name i. rewrite root_map. intros Hin%names_alive. by apply tree_alive.
Qed.

Lemma tree_files k f : files !! k = Some f -> let x := dnode s (Z.of_nat k + 2) in
  file_ok s x /\ type x = T_FILE /\ content s x = f.2.
Proof using All.
  intros Hk x. pose proof (rest_lookup k f Hk) as E.
  pose proof (ft_files _ Hfit) as Hf. rewrite Forall_lookup in Hf. destruct (Hf k f Hk) as (_ & _ & _ & Hlen).
  unfold x. split; [|split; [by eapply node_type|]]; replace (Z.of_nat k + 2) with (Z.of_nat (S k) + 1) by lia.
  - apply (reads_file s st root rest Hs tree_image Hbits (S k) _ E). cbn. lia.
  - rewrite (reads_content s st root rest Hs tree_image (S k) _ E) by (cbn; lia). cbn [data_file fbytes fsz].
    rewrite Nat2Z.id, Nat.sub_diag. by rewrite app_nil_r.
Qed.
End Tree.

(** ** Starting the kernel *)

(** The kernel before [forkret] of the first process: nothing read yet. *)
Definition blank_inode : inode :=
  {| idev := 0; inum := 0; iref := 0; ilocked := false; ivalid := false; type := 0; major := 0; minor := 0; nlink := 0;
     isize := 0; addrs := replicate 13 0 |}.
Definition powered (st : img) : fst :=
  {| lg := LogFacts.boot (sectors st) FSSIZE; sb := sb_of []; icache := replicate NINODE blank_inode; icache_lk := false; console := [] |}.
(** [iinit(ROOTDEV); initlog(ROOTDEV);]. *)
Definition mount : M fst unit := iinit ROOTDEV ;;; log (initlog ROOTDEV).

Lemma mount_ok st fl : image st fl ->
  exists s, mount (powered st) = Ret tt s /\ reads s st /\ held s [] [] /\ icache s = replicate NINODE blank_inode.
Proof.
  intros Hi. unfold mount. assert (E0 : st_word zeroes 0 0 = zeroes) by (by vm_compute).
  assert (Hh : held (powered st) [] []) by (apply held_calm, LogFacts.boot_calm).
  destruct (held_readsb (powered st) [] [] Hh) as (s1 & R1 & H1 & S1); [apply not_elem_of_nil|done|unfold NBUF; cbn; lia|].
  assert (Ri : exists out, iinit ROOTDEV (powered st) = Ret tt (with_console out (with_super Mkfs.sb s1))).
  { unfold iinit, modify. unfold bind at 1 2. change (Fs.readsb ROOTDEV) with (Fs.readsb 1).
    eexists. erewrite bind_eq by exact R1.
    unfold bind, get, Fs.cprintf, modify. do 3 f_equal. unfold val. change (lg (powered st)) with (LogFacts.boot (sectors st) FSSIZE).
    rewrite LogFacts.boot_view, (im_sb _ _ Hi). by vm_compute. }
  destruct Ri as [out Ri]. rewrite (bind_eq _ _ _ _ _ Ri). set (s2 := with_console out (with_super Mkfs.sb s1)).
  destruct S1 as [Elg Esz Edk Ev].
  assert (V1 : forall m, BioFacts.view (io (lg s1)) m = sectors st m).
  { intros m. change (val s1 m = sectors st m). rewrite Ev. apply LogFacts.boot_view. }
  destruct (LogFacts.initlog_from (lg s2) (sectors st) FSSIZE 2 Mkfs.nlog []) as (l & R2 & Hn & Hst & Hls & W).
  - apply LogFacts.log_disk_empty; [|done..|]; rewrite ?(im_sb _ _ Hi), ?(im_log _ _ Hi); by vm_compute.
  - change (lg s2) with (lg s1). by apply held_calm.
  - exact V1.
  - exact Esz.
  - change (lg s2) with (lg s1). rewrite Elg. done.
  - exists (with_lg l s2). split; [by apply log_run|]. split; [|split].
    + split; try done.
      * cbn. by rewrite (LogFacts.wr_size _ _ _ _ W).
      * change (icache_lk s1 = false). by rewrite Elg.
      * intros m. unfold val. cbn [lg with_lg]. rewrite (LogFacts.wr_view _ _ _ _ W).
        unfold LogFacts.recover_writes. rewrite (im_log _ _ Hi). cbn [length seq fmap list_fmap app].
        change (LogFacts.header zeroes []) with (st_word zeroes 0 0). rewrite (E0 : st_word zeroes 0 0 = zeroes).
        unfold LogFacts.put_all. cbn. change (lg s2) with (lg s1). destruct (Z.eqb_spec m 2) as [->|]; [by rewrite (im_log _ _ Hi)|apply V1].
    + apply held_calm. exact (LogFacts.wr_calm _ _ _ _ W).
    + change (icache s1 = replicate NINODE blank_inode). by rewrite Elg.
Qed.

(** C13: [mkfs] on files that fit writes an image of [FSSIZE] sectors that the
    kernel mounts: the superblock is the one of the image and the log is empty;
    the blocks in use are the metadata and what the files need, in one run; the
    inodes are those of the root directory and of the files; the root is the map
    from the names of the command line, without a leading underscore and cut to
    fourteen bytes, to the inodes, so that a path of one name leads to its file;
    every file has the bytes it was given.  The tree is well-formed unless the
    entries of the root end a block: the rounding then makes its size cover a
    block that it does not have. *)
Theorem mkfs_spec files : fits files ->
  exists st s, main files Mkfs.empty = Ret tt st /\ nsect st = FSSIZE /\ mount (powered st) = Ret tt s /\ held s [] [] /\
    fs_ok s /\ (forall b, 0 <= b < FSSIZE -> used s b = (b <? nmeta + need files)) /\
    (forall i, alive s i <-> 1 <= i <= 1 + Z.of_nat (length files)) /\
    tree s ROOTINO = Some (names_of files) /\
    (forall k f, files !! k = Some f -> let x := dnode s (Z.of_nat k + 2) in file_ok s x /\ type x = T_FILE /\ content s x = f.2) /\
    (NoDup (named <$> listed files).*1 -> forall k f, files !! k = Some f ->
       walk (tree s) ROOTINO [skip_underscore f.1] = Some (Z.of_nat k + 2)) /\
    if (2 + Z.of_nat (length files)) mod 32 =? 0
    then slot s (dnode s ROOTINO) (isize (dnode s ROOTINO) / bsize - 1) = 0
    else tree_ok s.
Proof.
  intros Hf. destruct (main_ok files Hf) as (st & R & Hi & Hb). destruct (mount_ok st _ Hi) as (s & Rm & Hs & Hh & _).
  pose proof (tree_image st files Hi) as Ht.
  assert (Htree : tree s ROOTINO = Some (names_of files)).
  { unfold tree, ROOTINO. rewrite (root_type s st files Hs Hi), (root_map s st files Hs Hi Hf). done. }
  exists st, s. split_and!.
  - done.
  - apply Hi.
  - done.
  - done.
  - exact (reads_ok s st _ _ Hs Ht Hb).
  - intros b Hbr. rewrite (reads_used s st _ _ Hs Ht Hb) by done. rewrite (im_used _ _ Ht), total_cons. unfold need, mblocks.
    cbn [fbytes]. by rewrite dir_entries_length.
  - exact (tree_alive s st files Hs Hi).
  - exact Htree.
  - exact (tree_files s st files Hs Hi Hb Hf).
  - intros Hnd k f Hk.
    assert (Hin : (canon (skip_underscore f.1), Z.of_nat k + 2) ∈ named <$> listed files).
    { apply list_elem_of_fmap. exists (Z.of_nat k + 2, skip_underscore f.1). split; [done|]. unfold listed. do 2 right.
      apply elem_of_lookup_imap. exists k, f. split; [reflexivity|exact Hk]. }
    cbn [walk]. rewrite Htree. cbn [mbind option_bind].
    by rewrite (elem_of_list_to_map_1 _ _ _ Hnd Hin : names_of files !! _ = _).
  - destruct (Z.eqb_spec ((2 + Z.of_nat (length files)) mod 32) 0) as [E|E].
    + by apply (root_hole s st files Hs Hi Hb Hf).
    + by apply (tree_fine s st files Hs Hi Hb Hf).
Qed.

Module MkfsDemo.
(** [_cat] with three bytes, and [README] with seven hundred. *)
Definition files : list (list Z * list Z) :=
  [([95; 99; 97; 116], [1; 2; 3]); ([82; 69; 65; 68; 77; 69], replicate 700 46)].
Lemma files_fit : fits files.
Proof.
  assert (H : forall l : list Z, forallb (fun v => (0 <=? v) && (v <? 256)) l = true -> Forall byte l).
  { intros l. rewrite forallb_forall. intros Hl. apply Forall_forall. intros v Hv%list_elem_of_In. apply Hl in Hv. unfold byte. bools. lia. }
  split; [|done|by vm_compute].
  repeat (apply Forall_cons; split); [..|by apply Forall_nil_2]; split_and!; try (apply H; reflexivity); try by vm_compute.
  all: by apply (bool_decide_unpack _).
Qed.
End MkfsDemo.

Lemma mkfs_spec_witness :
  exists st s, main MkfsDemo.files Mkfs.empty = Ret tt st /\ mount (powered st) = Ret tt s /\ tree_ok s /\
    walk (tree s) ROOTINO [[99; 97; 116]] = Some 2 /\ content s (dnode s 3) = replicate 700 46 /\ used s 62 = true /\ used s 63 = false.
Proof.
  destruct (mkfs_spec MkfsDemo.files MkfsDemo.files_fit) as (st & s & R & _ & Rm & _ & _ & U & _ & _ & F & W & T).
  exists st, s. split; [exact R|]. split; [exact Rm|]. split; [exact T|]. split; [|split; [|split]].
  - apply (W ltac:(by apply (bool_decide_unpack _)) 0%nat _ eq_refl).
  - apply (F 1%nat _ eq_refl).
  - rewrite (U 62); [by vm_compute|unfold FSSIZE; lia].
  - rewrite (U 63); [by vm_compute|unfold FSSIZE; lia].
Defined.
