(* ===== verification/FsRefs.v ===== *)
(** * References to inodes

    Accounts of the inode cache.  A reference is a unit of [iref], a lock a
    held sleep lock of a slot.  [quiet] code changes neither; [ledger] says
    which references and locks the running code owns on top of those that the
    rest of the kernel holds, so that [iget], [idup] and [iput] can be read as
    taking and giving back what is owned. *)

From S2P Require Import Prelude Locks Bio Log LogFacts Fs FsTx.
Import Bio Log Fs.

(** ** Code that leaves the references alone *)

(** What identifies a slot and counts its users. *)
Definition stamp (x : inode) : Z * Z * Z * bool := (idev x, inum x, iref x, ilocked x).

Record still (s s' : fst) : Prop := {
  st_stamps : stamp <$> icache s' = stamp <$> icache s;
  st_lk : icache_lk s' = icache_lk s }.

#[export] Instance still_refl : Reflexive still.
Proof. done. Qed.
#[export] Instance still_trans : Transitive still.
Proof. intros a b c [] []. split; congruence. Qed.

Definition quiet {A} (m : M fst A) : Prop := forall s a s', m s = Ret a s' -> still s s'.

Section Quiet.
Context {A B : Type}.

Lemma quiet_ret (a : A) : quiet (ret a).
Proof. intros s b s' [= _ <-]. reflexivity. Qed.
Lemma quiet_get : quiet (get (S := fst)).
Proof. intros s b s' [= _ <-]. reflexivity. Qed.
Lemma quiet_panic msg : quiet (panic (A := A) msg).
Proof. done. Qed.
Lemma quiet_fault : quiet (fault (A := A)).
Proof. done. Qed.
Lemma quiet_opt (o : option A) : quiet (from_opt o).
Proof. destruct o; [apply quiet_ret|apply quiet_fault]. Qed.
Lemma quiet_bind (m : M fst A) (k : A -> M fst B) : quiet m -> (forall a, quiet (k a)) -> quiet (bind m k).
Proof.
  intros Hm Hk s b s' (a & t & R1 & R2)%bind_ret_inv. etrans; [by eapply Hm|by eapply Hk].
Qed.
Lemma quiet_log (m : M lst A) : quiet (log m).
Proof. intros s a s'. unfold log, zoom. destruct (m (lg s)); try done. by intros [= <- <-]. Qed.
End Quiet.

Lemma quiet_loop {A B} n (body : A -> M fst (A + B)) a : (forall x, quiet (body x)) -> quiet (loop n body a).
Proof.
  intros Hb. revert a. induction n as [|n IH]; intros a; [done|]. cbn [loop]. apply quiet_bind; [done|].
  intros [a'|b]; [apply IH|]. intros s c s' [= _ <-]. reflexivity.
Qed.

Lemma quiet_for_each {A} (l : list A) (body : A -> M fst unit) : (forall x, quiet (body x)) -> quiet (for_each l body).
Proof. intros Hb. induction l; cbn [for_each]; [apply quiet_ret|]. by apply quiet_bind. Qed.

Lemma quiet_iupd ip f : (forall x, stamp (f x) = stamp x) -> quiet (iupd ip f).
Proof.
  intros Hf s a s' [= _ <-]. split; [|done]. cbn. apply list_eq. intros j. rewrite !list_lookup_fmap.
  destruct (decide (j = ip)) as [->|].
  - rewrite list_lookup_alter_eq. destruct (icache s !! ip); [cbn; by rewrite Hf|done].
  - by rewrite list_lookup_alter_ne.
Qed.

Create HintDb quiet.
#[export] Hint Resolve quiet_ret quiet_get quiet_panic quiet_fault quiet_opt quiet_bind quiet_log
  quiet_loop quiet_for_each : quiet.
#[export] Hint Extern 2 (quiet (iupd _ _)) => apply quiet_iupd; intros; reflexivity : quiet.
#[export] Hint Extern 4 (quiet (match ?x with _ => _ end)) => destruct x : quiet.
#[export] Hint Extern 4 (quiet (let '(_, _) := ?x in _)) => destruct x : quiet.

(** Prove [quiet] of code made of quiet pieces. *)
Ltac quiet := intros; auto 40 with quiet.

Lemma quiet_iat ip : quiet (iat ip).
Proof. unfold iat. quiet. Qed.
Lemma quiet_readsb dv : quiet (Fs.readsb dv).
Proof.
  unfold Fs.readsb. apply quiet_bind; [quiet|]. intros w s a s' [= _ <-]. by split.
Qed.
#[export] Hint Resolve quiet_iat quiet_readsb : quiet.

Lemma quiet_balloc dv : quiet (balloc dv).
Proof. unfold balloc, balloc_body, Fs.bzero, set_data, data, Fs.bread, Fs.brelse, Fs.log_write. quiet. Qed.
Lemma quiet_bfree dv b : quiet (bfree dv b).
Proof. unfold bfree, set_data, data, Fs.bread, Fs.brelse, Fs.log_write. quiet. Qed.
Lemma quiet_iupdate ip : quiet (iupdate ip).
Proof. unfold iupdate, set_data, data, Fs.bread, Fs.brelse, Fs.log_write. quiet. Qed.
#[export] Hint Resolve quiet_balloc quiet_bfree quiet_iupdate : quiet.

Lemma quiet_bmap ip bn : quiet (bmap ip bn).
Proof. unfold bmap, set_addr, set_data, data, Fs.bread, Fs.brelse, Fs.log_write. quiet. Qed.
Lemma quiet_itrunc ip : quiet (itrunc ip).
Proof. unfold itrunc, set_addr, data, Fs.bread, Fs.brelse. quiet. Qed.
Lemma quiet_stati ip : quiet (stati ip).
Proof. unfold stati. quiet. Qed.
#[export] Hint Resolve quiet_bmap quiet_itrunc quiet_stati : quiet.

(** A driver may give the inode's lock up while it waits, but not for good. *)
Definition drivers_quiet (rd : Z -> option (nat -> Z -> M fst (Z * list Z)))
    (wr : Z -> option (nat -> list Z -> M fst Z)) : Prop :=
  (forall mj d ip n, rd mj = Some d -> quiet (d ip n)) /\
  (forall mj d ip l, wr mj = Some d -> quiet (d ip l)).

Section Drivers.
Context (rd : Z -> option (nat -> Z -> M fst (Z * list Z))) (wr : Z -> option (nat -> list Z -> M fst Z)).
Hypothesis Hdrv : drivers_quiet rd wr.

Lemma quiet_readi ip off n : quiet (readi rd ip off n).
Proof.
  unfold readi, readi_body, data, Fs.bread, Fs.brelse. apply quiet_bind; [quiet|]. intros x.
  destruct (type x =? T_DEV); [|quiet]. destruct ((major x <? 0) || (major x >=? NDEV)); [quiet|].
  destruct (rd (major x)) eqn:E; [by eapply Hdrv|quiet].
Qed.
Lemma quiet_writei ip src off n : quiet (writei wr ip src off n).
Proof.
  unfold writei, writei_body, data, set_data, Fs.bread, Fs.brelse, Fs.log_write. apply quiet_bind; [quiet|]. intros x.
  destruct (type x =? T_DEV); [|quiet]. destruct ((major x <? 0) || (major x >=? NDEV)); [quiet|].
  destruct (wr (major x)) eqn:E; [by eapply Hdrv|quiet].
Qed.
End Drivers.
#[export] Hint Extern 2 (quiet (readi ?r _ _ _)) =>
  match goal with H : drivers_quiet r _ |- _ => exact (quiet_readi _ _ H _ _ _) end : quiet.
#[export] Hint Extern 2 (quiet (writei ?w _ _ _ _)) =>
  match goal with H : drivers_quiet _ w |- _ => exact (quiet_writei _ _ H _ _ _ _) end : quiet.

(** ** The ledger *)

Definition refs (s : fst) (j : nat) : Z := from_option iref 0 (icache s !! j).
Definition locks (s : fst) (j : nat) : Z := from_option (fun x => Z.b2z (ilocked x)) 0 (icache s !! j).
Definition key_at (s : fst) (j : nat) : option (Z * Z) := (fun x => (idev x, inum x)) <$> icache s !! j.

(** One unit at slot [j], and the changes to an account. *)
Definition one (j : nat) : nat -> Z := fun i => if decide (i = j) then 1 else 0.
Definition none : nat -> Z := fun _ => 0.
Definition plus (f g : nat -> Z) : nat -> Z := fun i => f i + g i.
Definition minus (f g : nat -> Z) : nat -> Z := fun i => f i - g i.

Section Ledger.
(** The references held elsewhere, and the inodes they are to. *)
Context (base : nat -> Z) (name : nat -> Z * Z).

Record ledger (own lks : nat -> Z) (s : fst) : Prop := {
  ld_refs : forall j, refs s j = base j + own j;
  ld_locks : forall j, locks s j = lks j;
  ld_own : forall j, 0 <= own j;
  ld_base : forall j, 0 <= base j;
  ld_name : forall j, 0 < base j -> key_at s j = Some (name j);
  ld_unique : forall i j k, 0 < refs s i -> 0 < refs s j -> key_at s i = Some k -> key_at s j = Some k -> i = j;
  ld_free : icache_lk s = false }.

Lemma ledger_ext o l o' l' s :
  ledger o l s -> (forall j, o' j = o j) -> (forall j, l' j = l j) -> ledger o' l' s.
Proof. intros [] Ho Hl. split; try done; intros j; rewrite ?Ho, ?Hl; auto. Qed.

Lemma still_at s s' j :
  still s s' -> refs s' j = refs s j /\ locks s' j = locks s j /\ key_at s' j = key_at s j.
Proof.
  intros [E _]. apply (f_equal (fun l => l !! j)) in E. rewrite !list_lookup_fmap in E.
  unfold refs, locks, key_at. destruct (icache s' !! j), (icache s !! j); try done. cbn in *.
  injection E as -> -> -> ->. done.
Qed.

Lemma ledger_still o l s s' : ledger o l s -> still s s' -> ledger o l s'.
Proof.
  intros [Hr Hl Ho Hb Hn Hu Hf] H. split; try done.
  - intros j. by rewrite (proj1 (still_at _ _ j H)).
  - intros j. by rewrite (proj1 (proj2 (still_at _ _ j H))).
  - intros j. rewrite (proj2 (proj2 (still_at _ _ j H))). apply Hn.
  - intros i j k. rewrite (proj1 (still_at _ _ i H)), (proj1 (still_at _ _ j H)).
    rewrite (proj2 (proj2 (still_at _ _ i H))), (proj2 (proj2 (still_at _ _ j H))). apply Hu.
  - by rewrite (st_lk _ _ H).
Qed.

Lemma ledger_quiet {A} (m : M fst A) o l s a s' : quiet m -> ledger o l s -> m s = Ret a s' -> ledger o l s'.
Proof. intros Hm H R. apply (ledger_still _ _ _ _ H), (Hm _ _ _ R). Qed.

Lemma at_update s s' ip x f :
  icache s !! ip = Some x -> icache s' = alter f ip (icache s) ->
  (forall j, refs s' j = if decide (j = ip) then iref (f x) else refs s j) /\
  (forall j, locks s' j = if decide (j = ip) then Z.b2z (ilocked (f x)) else locks s j) /\
  (forall j, key_at s' j = if decide (j = ip) then Some (idev (f x), inum (f x)) else key_at s j).
Proof.
  intros Hx E. unfold refs, locks, key_at. rewrite E. split_and!; intros j;
    (case_decide as Ej; [subst; by rewrite list_lookup_alter_eq, Hx|by rewrite list_lookup_alter_ne]).
Qed.

(** A slot rewritten, its inode kept. *)
Lemma ledger_update o l d e s s' ip x f :
  ledger o l s -> icache s !! ip = Some x -> icache s' = alter f ip (icache s) -> icache_lk s' = false ->
  (idev (f x), inum (f x)) = (idev x, inum x) ->
  iref (f x) = iref x + d -> Z.b2z (ilocked (f x)) = Z.b2z (ilocked x) + e ->
  0 <= o ip + d -> 0 < iref x \/ iref (f x) <= 0 ->
  ledger (fun j => o j + d * one ip j) (fun j => l j + e * one ip j) s'.
Proof.
  intros [Hr Hl Ho Hb Hn Hu Hf] Hx E Hlk Hk Hd He Hpos Huse.
  destruct (at_update s s' ip x f Hx E) as (Er & El & Ek).
  assert (Erx : refs s ip = iref x) by (unfold refs; by rewrite Hx).
  assert (Elx : locks s ip = Z.b2z (ilocked x)) by (unfold locks; by rewrite Hx).
  assert (Ekx : key_at s ip = Some (idev x, inum x)) by (unfold key_at; by rewrite Hx).
  assert (Ek' : forall j, key_at s' j = key_at s j).
  { intros j. rewrite Ek, Hk. case_decide as Ej; [by rewrite Ej|done]. }
  unfold one. split; try done.
  - intros j. rewrite Er. specialize (Hr j). case_decide as Ej; [subst; lia|lia].
  - intros j. rewrite El. specialize (Hl j). case_decide as Ej; [subst; lia|lia].
  - intros j. specialize (Ho j). case_decide; [subst; lia|lia].
  - intros j. rewrite Ek'. apply Hn.
  - intros i j k. rewrite !Ek'. intros Hi Hj. apply Hu.
    + rewrite Er in Hi. case_decide; [subst; lia|done].
    + rewrite Er in Hj. case_decide; [subst; lia|done].
Qed.

(** An empty slot that takes an inode no slot has. *)
Lemma ledger_fresh o l s s' ip x f dv i :
  ledger o l s -> icache s !! ip = Some x -> icache s' = alter f ip (icache s) -> icache_lk s' = false ->
  iref x = 0 -> f x = fresh_inode dv i x ->
  (forall j, 0 < refs s j -> key_at s j <> Some (dv, i)) ->
  ledger (fun j => o j + one ip j) l s'.
Proof.
  intros [Hr Hl Ho Hb Hn Hu Hf] Hx E Hlk H0 Hfx Hnew.
  destruct (at_update s s' ip x f Hx E) as (Er & El & Ek). rewrite Hfx in Er, El, Ek. cbn in Er, El, Ek.
  assert (Erx : refs s ip = 0) by (unfold refs; by rewrite Hx).
  assert (Elx : locks s ip = Z.b2z (ilocked x)) by (unfold locks; by rewrite Hx).
  unfold one. split; try done.
  - intros j. rewrite Er. specialize (Hr j). specialize (Ho j). specialize (Hb j). case_decide; [subst; lia|lia].
  - intros j. rewrite El, <- Hl. case_decide; [by subst|done].
  - intros j. specialize (Ho j). case_decide; lia.
  - intros j Hj. rewrite Ek. specialize (Hr j). specialize (Ho j). case_decide; [subst; lia|auto].
  - intros a c k. rewrite !Er, !Ek.
    destruct (decide (a = ip)) as [->|Ea], (decide (c = ip)) as [->|Ec]; try done.
    + intros _ Hc [= <-] Hkc. by destruct (Hnew c Hc).
    + intros Ha _ Hka [= <-]. by destruct (Hnew a Ha).
    + apply Hu.
Qed.

(** ** The operations on the cache *)

Lemma acquire_at s s' : acquire s = Ret tt s' -> icache_lk s = false /\ icache s' = icache s.
Proof. intros (H & ->)%(CliFacts.acquire_inv (L := unit)). by split. Qed.
Lemma release_at s s' : release s = Ret tt s' -> icache s' = icache s /\ icache_lk s' = false.
Proof. intros (H & c & ->)%(CliFacts.release_inv (L := unit)). by split. Qed.

Lemma iget_ledger o l s dv i ip s' :
  ledger o l s -> iget dv i s = Ret ip s' ->
  ledger (fun j => o j + one ip j) l s' /\ key_at s' ip = Some (dv, i).
Proof.
  intros H R. unfold iget in R. apply bind_ret_inv in R as ([] & s1 & Ra & R).
  apply acquire_at in Ra as [Hf E1]. apply bind_ret_inv in R as (? & ? & [= <- <-] & R). rewrite E1 in R.
  destruct (find_idx _ (icache s)) as [j|] eqn:Efind.
  - apply bind_ret_inv in R as ([] & s2 & [= <-] & R). apply bind_ret_inv in R as ([] & s3 & Rr & [= <- <-]).
    apply release_at in Rr as [E3 Hlk]. cbn in E3. rewrite E1 in E3.
    apply find_idx_Some in Efind as (x & Hx & Hg & _). bools. destruct Hg as [[Hg1 Hg2] Hg3].
    split.
    + eapply ledger_ext; [apply (ledger_update o l 1 0 s s3 j x _ H Hx E3 Hlk); try done; cbn; try lia|..].
      * pose proof (ld_own _ _ _ H j). lia.
      * intros k. unfold one. cbn. case_decide; lia.
      * intros k. cbn. lia.
    + destruct (at_update s s3 j x _ Hx E3) as (_ & _ & ->). rewrite decide_True by done. cbn. by subst.
  - destruct (find_idx (fun ip => iref ip =? 0) (icache s)) as [j|] eqn:Efree; [|done].
    apply bind_ret_inv in R as ([] & s2 & [= <-] & R). apply bind_ret_inv in R as ([] & s3 & Rr & [= <- <-]).
    apply release_at in Rr as [E3 Hlk]. cbn in E3. rewrite E1 in E3.
    apply find_idx_Some in Efree as (x & Hx & Hg & _). bools. split.
    + apply (ledger_fresh o l s s3 j x _ dv i H Hx E3 Hlk); [done|done|].
      intros k Hk Hkey. unfold refs in Hk. unfold key_at in Hkey.
      destruct (icache s !! k) as [y|] eqn:Ey; [|cbn in Hk; lia]. cbn in *. injection Hkey as Hd Hi.
      rewrite find_idx_None, Forall_forall in Efind.
      specialize (Efind y ltac:(by eapply list_elem_of_lookup_2)).
      rewrite Hd, Hi, !Z.eqb_refl, !andb_true_r in Efind. bools. lia.
    + destruct (at_update s s3 j x _ Hx E3) as (_ & _ & ->). by rewrite decide_True by done.
Qed.

Lemma iat_inv ip s x s' : iat ip s = Ret x s' -> s' = s /\ icache s !! ip = Some x.
Proof.
  unfold iat, bind, get, from_opt. destruct (icache s !! ip) as [y|]; [|done]. by intros [= -> ->].
Qed.

Lemma refs_in s ip : refs s ip <> 0 -> exists x, icache s !! ip = Some x.
Proof. unfold refs. destruct (icache s !! ip) as [x|]; [by exists x|done]. Qed.

(** Whoever owns a reference may take another one, and give it back. *)
Lemma idup_ledger o l s ip r s' :
  ledger o l s -> 0 < base ip + o ip -> idup ip s = Ret r s' -> r = ip /\ ledger (fun j => o j + one ip j) l s'.
Proof.
  intros H Hpos R. unfold idup in R. apply bind_ret_inv in R as ([] & s1 & Ra & R).
  apply acquire_at in Ra as [Hf E1]. apply bind_ret_inv in R as ([] & s2 & [= <-] & R).
  apply bind_ret_inv in R as ([] & s3 & Rr & [= <- <-]).
  apply release_at in Rr as [E3 Hlk]. cbn in E3. rewrite E1 in E3. pose proof (ld_refs _ _ _ H ip) as Hr.
  destruct (refs_in s ip ltac:(lia)) as [x Hx]. split; [done|].
  assert (Hix : iref x = refs s ip) by (unfold refs; by rewrite Hx).
  eapply ledger_ext; [apply (ledger_update o l 1 0 s s3 ip x _ H Hx E3 Hlk); try done; cbn; try lia|..].
  - pose proof (ld_own _ _ _ H ip). lia.
  - intros k. unfold one. cbn. case_decide; lia.
  - intros k. cbn. lia.
Qed.

Lemma acquiresleep_inv s s' ip :
  acquiresleep ip s = Ret tt s' ->
  exists x, icache s !! ip = Some x /\ ilocked x = false /\
    icache s' = alter (set_ilocked true) ip (icache s) /\ icache_lk s' = icache_lk s.
Proof.
  unfold acquiresleep. intros (x & s1 & R1 & R)%bind_ret_inv. apply iat_inv in R1 as [-> Hx].
  destruct (ilocked x) eqn:E; [done|]. injection R as <-. by exists x.
Qed.

Lemma acquiresleep_ledger o l s ip s' :
  ledger o l s -> acquiresleep ip s = Ret tt s' ->
  l ip = 0 /\ ledger o (fun j => l j + one ip j) s'.
Proof.
  intros H (x & Hx & Hlk & E & El)%acquiresleep_inv.
  pose proof (ld_locks _ _ _ H ip) as Hl. unfold locks in Hl. rewrite Hx in Hl. cbn in Hl. rewrite Hlk in Hl.
  split; [done|]. destruct (decide (0 < iref x)) as [Hp|Hp].
  - eapply ledger_ext; [apply (ledger_update o l 0 1 s s' ip x _ H Hx E); try done; cbn|..].
    + by rewrite El, (ld_free _ _ _ H).
    + lia.
    + by rewrite Hlk.
    + pose proof (ld_own _ _ _ H ip). lia.
    + by left.
    + intros k. cbn. lia.
    + intros k. unfold one. cbn. case_decide; lia.
  - eapply ledger_ext; [apply (ledger_update o l 0 1 s s' ip x _ H Hx E); try done; cbn|..].
    + by rewrite El, (ld_free _ _ _ H).
    + lia.
    + by rewrite Hlk.
    + pose proof (ld_own _ _ _ H ip). lia.
    + right. lia.
    + intros k. cbn. lia.
    + intros k. unfold one. cbn. case_decide; lia.
Qed.

Lemma releasesleep_ledger o l s ip s' :
  ledger o l s -> l ip = 1 -> releasesleep ip s = Ret tt s' -> ledger o (fun j => l j - one ip j) s'.
Proof.
  intros H H1 [= <-]. pose proof (ld_locks _ _ _ H ip) as Hl. unfold locks in Hl.
  destruct (icache s !! ip) as [x|] eqn:Hx; [|cbn in Hl; lia]. cbn in Hl.
  assert (Hlk : ilocked x = true) by (destruct (ilocked x); [done|cbn in Hl; lia]).
  eapply ledger_ext.
  - apply (ledger_update o l 0 (-1) s _ ip x (set_ilocked false) H Hx); try done; cbn.
    + apply (ld_free _ _ _ H).
    + lia.
    + by rewrite Hlk.
    + pose proof (ld_own _ _ _ H ip). lia.
    + lia.
  - intros k. cbn. lia.
  - intros k. unfold one. cbn. case_decide; lia.
Qed.

Lemma ilock_ledger o l s ip s' :
  ledger o l s -> ilock (Some ip) s = Ret tt s' -> l ip = 0 /\ ledger o (fun j => l j + one ip j) s'.
Proof.
  intros H R. unfold ilock in R. apply bind_ret_inv in R as (x & s1 & [-> Hx]%iat_inv & R).
  destruct (iref x <? 1); [done|]. apply bind_ret_inv in R as ([] & s2 & Ra & R).
  apply (acquiresleep_ledger _ _ _ _ _ H) in Ra as [Hl H2]. split; [done|].
  refine (ledger_quiet _ _ _ _ _ _ _ H2 R). unfold data, Fs.bread, Fs.brelse. quiet.
Qed.

Lemma iunlock_ledger o l s ip s' :
  ledger o l s -> iunlock (Some ip) s = Ret tt s' -> l ip = 1 /\ ledger o (fun j => l j - one ip j) s'.
Proof.
  intros H R. unfold iunlock, holdingsleep in R.
  apply bind_ret_inv in R as (h & s1 & Rh & R). apply bind_ret_inv in Rh as (x & s1' & [-> Hx]%iat_inv & [= <- <-]).
  apply bind_ret_inv in R as (y & s2 & [-> Hy]%iat_inv & R).
  destruct (ilocked x) eqn:E; [|done]. cbn in R. destruct (iref y <? 1); [done|].
  assert (l ip = 1) by (rewrite <- (ld_locks _ _ _ H ip); unfold locks; rewrite Hx; cbn; by rewrite E).
  split; [done|]. by apply (releasesleep_ledger _ _ _ _ _ H).
Qed.

Lemma quiet_read_locked ip (k : Z -> M fst unit) :
  (forall r, quiet (k r)) ->
  quiet (acquire ;;; let! x := iat ip in release ;;; k (iref x)).
Proof.
  intros Hk s a s' R. apply bind_ret_inv in R as ([] & s1 & [Hf E1]%acquire_at & R).
  apply bind_ret_inv in R as (x & s2 & [-> Hx]%iat_inv & R).
  apply bind_ret_inv in R as ([] & s3 & [E3 Hlk]%release_at & R).
  etrans; [|by eapply Hk]. split; congruence.
Qed.

Lemma iput_ledger o l s ip s' :
  ledger o l s -> 0 < o ip -> iput ip s = Ret tt s' -> l ip = 0 /\ ledger (fun j => o j - one ip j) l s'.
Proof.
  intros H Hpos R. unfold iput in R. apply bind_ret_inv in R as ([] & s1 & Ra & R).
  apply (acquiresleep_ledger _ _ _ _ _ H) in Ra as [Hl H1]. split; [done|].
  apply bind_ret_inv in R as (x & s2 & [-> Hx]%iat_inv & R). apply bind_ret_inv in R as ([] & s3 & Rb & R).
  match type of Rb with ?m _ = _ => assert (Hq : quiet m) end.
  { destruct (_ && _); [|quiet]. apply (quiet_read_locked ip (fun r => if r =? 1 then _ else _)). quiet. }
  apply (ledger_quiet _ _ _ _ _ _ Hq H1) in Rb.
  apply bind_ret_inv in R as ([] & s4 & Rc & R).
  apply (releasesleep_ledger _ _ _ _ _ Rb) in Rc; [|unfold one; rewrite decide_True by done; lia].
  apply bind_ret_inv in R as ([] & s5 & [_ E5]%acquire_at & R).
  apply bind_ret_inv in R as ([] & s6 & [= <-] & [E6 Hlk]%release_at). cbn in E6. rewrite E5 in E6.
  pose proof (ld_refs _ _ _ Rc ip) as Hr. pose proof (ld_base _ _ _ H ip).
  destruct (refs_in s4 ip ltac:(lia)) as [y Hy].
  assert (Hiy : iref y = refs s4 ip) by (unfold refs; by rewrite Hy).
  eapply ledger_ext; [apply (ledger_update o _ (-1) 0 s4 s' ip y _ Rc Hy E6 Hlk); try done; cbn; try lia|..].
  - intros k. unfold one. cbn. case_decide; lia.
  - intros k. unfold one. cbn. case_decide; lia.
Qed.

Lemma iunlockput_ledger o l s ip s' :
  ledger o l s -> 0 < o ip -> iunlockput (Some ip) s = Ret tt s' ->
  l ip = 1 /\ ledger (fun j => o j - one ip j) (fun j => l j - one ip j) s'.
Proof.
  intros H Hpos R. apply bind_ret_inv in R as ([] & s1 & R1 & R2).
  apply (iunlock_ledger _ _ _ _ _ H) in R1 as [Hl H1]. split; [done|].
  by apply (iput_ledger _ _ _ _ _ H1) in R2 as [_ ?].
Qed.

(** ** Directories and paths *)

(** Step over the first statement of the run [R], which is quiet. *)
Ltac quietly H R :=
  let a := fresh "a" in let s' := fresh "s" in let R' := fresh "R" in
  apply bind_ret_inv in R as (a & s' & R' & R);
  match type of R' with ?m _ = _ =>
    let Hq := fresh "Hq" in
    assert (Hq : quiet m) by (unfold data, set_data, Fs.bread, Fs.brelse, Fs.log_write; quiet);
    apply (ledger_quiet _ _ _ _ _ _ Hq H) in R'; clear Hq H; rename R' into H
  end.

Lemma loop_inv {S A B} n (body : A -> M S (A + B)) (P : A -> S -> Prop) (Q : B -> S -> Prop) :
  (forall a s r s', P a s -> body a s = Ret r s' -> match r with inl a' => P a' s' | inr b => Q b s' end) ->
  forall a s b s', P a s -> loop n body a s = Ret b s' -> Q b s'.
Proof.
  intros Hb. induction n as [|n IH]; intros a s b s' HP R; [done|]. cbn [loop] in R.
  apply bind_ret_inv in R as (r & s1 & R1 & R2). specialize (Hb a s r s1 HP R1).
  destruct r as [a'|b']; [by apply (IH a' s1)|]. by injection R2 as <- <-.
Qed.

Lemma ialloc_ledger o l s dv ty ip s' :
  ledger o l s -> ialloc dv ty s = Ret ip s' -> ledger (fun j => o j + one ip j) l s'.
Proof.
  intros H R. unfold ialloc in R. apply bind_ret_inv in R as (t & s1 & [= <- <-] & R).
  revert R. apply (loop_inv _ _ (fun _ => ledger o l) (fun ip => ledger (fun j => o j + one ip j) l)); [|done].
  clear. intros i s r s' H R. unfold ialloc_body in R. apply bind_ret_inv in R as (t & s1 & [= <- <-] & R).
  destruct (_ <? _); [|done]. quietly H R. quietly H R. destruct (_ =? 0).
  - quietly H R. quietly H R. quietly H R. apply bind_ret_inv in R as (ip & s7 & R6 & [= <- <-]).
    by apply (iget_ledger _ _ _ _ _ _ _ H) in R6 as [? _].
  - quietly H R. by injection R as <- <-.
Qed.

Section Names.
Context (rd : Z -> option (nat -> Z -> M fst (Z * list Z))) (wr : Z -> option (nat -> list Z -> M fst Z)).
Hypothesis Hdrv : drivers_quiet rd wr.

Lemma dirlookup_ledger o l s dp name' r s' :
  ledger o l s -> dirlookup rd dp name' s = Ret r s' ->
  match r with
  | Some (ip, _) => ledger (fun j => o j + one ip j) l s'
  | None => ledger o l s'
  end.
Proof.
  intros H R. unfold dirlookup in R. quietly H R. destruct (negb _); [done|].
  revert R. apply (loop_inv _ _ (fun _ => ledger o l) (fun r s => match r with
    | Some (ip, _) => ledger (fun j => o j + one ip j) l s | None => ledger o l s end)); [|done].
  clear s s' a r H s0. intros off s r s' H R. unfold dirlookup_body in R. quietly H R.
  destruct (_ <? _); [|by injection R as <- <-].
  quietly H R. destruct a0 as [n de].
  destruct (negb _); [done|]. destruct (_ =? 0); [by injection R as <- <-|].
  destruct (namecmp _ _ =? 0); [|by injection R as <- <-].
  apply bind_ret_inv in R as (ip & s2 & R2 & [= <- <-]). by apply (iget_ledger _ _ _ _ _ _ _ H) in R2 as [? _].
Qed.

Lemma dirlink_ledger o l s dp name' i r s' :
  ledger o l s -> dirlink rd wr dp name' i s = Ret r s' -> ledger o l s'.
Proof.
  intros H R. unfold dirlink in R. apply bind_ret_inv in R as (q & s1 & R1 & R).
  apply (dirlookup_ledger _ _ _ _ _ _ _ H) in R1. destruct q as [[ip off]|].
  - apply bind_ret_inv in R as ([] & s2 & R2 & [= <- <-]).
    apply (iput_ledger _ _ _ _ _ R1) in R2 as [_ R2].
    + eapply ledger_ext; [done|..]; intros j; cbn; lia.
    + pose proof (ld_own _ _ _ H ip). unfold one. rewrite decide_True by done. lia.
  - quietly R1 R. unfold dirlink_body in R. quietly R1 R. quietly R1 R. destruct (negb _); [done|].
    by injection R as <- <-.
Qed.

(** One element of the path: the reference to the directory is exchanged for
    one to what its name leads to. *)
Lemma namex_body_ledger o l s parent ip path nm r s' :
  ledger (fun j => o j + one ip j) l s -> (forall j, 0 <= o j) ->
  namex_body rd parent (ip, path, nm) s = Ret r s' ->
  match r with
  | inl (ip', _, _) | inr (Some (ip', _)) => ledger (fun j => o j + one ip' j) l s'
  | inr None => ledger o l s'
  end.
Proof.
  intros H Ho R.
  assert (Hip : 0 < o ip + one ip ip) by (specialize (Ho ip); unfold one; rewrite decide_True by done; lia).
  assert (Hput : forall o' l' t t' , ledger o' l' t -> (forall j, 0 <= o' j - one ip j) -> iunlockput (Some ip) t = Ret tt t' ->
    ledger (fun j => o' j - one ip j) (fun j => l' j - one ip j) t').
  { intros o' l' t t' Ht Ho' Rt. eapply iunlockput_ledger; [done| |done].
    specialize (Ho' ip). unfold one in Ho'. rewrite decide_True in Ho' by done. lia. }
  unfold namex_body in R. destruct (skipelem path) as [[elem rest]|].
  - apply bind_ret_inv in R as ([] & s1 & R1 & R). apply (ilock_ledger _ _ _ _ _ H) in R1 as [_ H1].
    quietly H1 R. destruct (negb _).
    { apply bind_ret_inv in R as ([] & s3 & R3 & [= <- <-]). apply (Hput _ _ _ _ H1) in R3.
      - eapply ledger_ext; [done|..]; intros j; cbn; lia.
      - intros j. specialize (Ho j). lia. }
    destruct (parent && _).
    { apply bind_ret_inv in R as ([] & s3 & R3 & [= <- <-]). apply (iunlock_ledger _ _ _ _ _ H1) in R3 as [_ R3].
      eapply ledger_ext; [done|..]; intros j; cbn; lia. }
    apply bind_ret_inv in R as (next & s3 & R3 & R). apply (dirlookup_ledger _ _ _ _ _ _ _ H1) in R3.
    destruct next as [[next off]|]; apply bind_ret_inv in R as ([] & s4 & R4 & [= <- <-]).
    + apply (Hput _ _ _ _ R3) in R4.
      * eapply ledger_ext; [done|..]; intros j; cbn; lia.
      * intros j. specialize (Ho j). unfold one. case_decide; case_decide; lia.
    + apply (Hput _ _ _ _ R3) in R4.
      * eapply ledger_ext; [done|..]; intros j; cbn; lia.
      * intros j. specialize (Ho j). lia.
  - destruct parent; [|by injection R as <- <-].
    apply bind_ret_inv in R as ([] & s3 & R3 & [= <- <-]). apply (iput_ledger _ _ _ _ _ H Hip) in R3 as [_ R3].
    eapply ledger_ext; [done|..]; intros j; cbn; lia.
Qed.

Lemma namex_ledger o l s cwd path parent r s' :
  ledger o l s -> 0 < base cwd + o cwd -> namex rd cwd path parent s = Ret r s' ->
  match r with
  | Some (ip, _) => ledger (fun j => o j + one ip j) l s'
  | None => ledger o l s'
  end.
Proof.
  intros H Hcwd R. unfold namex in R. apply bind_ret_inv in R as (ip & s1 & R1 & R).
  assert (H1 : ledger (fun j => o j + one ip j) l s1).
  { destruct (_ =? slash); [by apply (iget_ledger _ _ _ _ _ _ _ H) in R1 as [? _]|].
    by apply (idup_ledger _ _ _ _ _ _ H Hcwd) in R1 as [-> ?]. }
  pose proof (ld_own _ _ _ H) as Ho. clear R1 H.
  revert R. apply (loop_inv _ _ (fun '(ip, _, _) => ledger (fun j => o j + one ip j) l)
    (fun r s => match r with Some (ip, _) => ledger (fun j => o j + one ip j) l s | None => ledger o l s end)); [|done].
  clear - Ho Hdrv. intros [[ip path] nm] s r s' H R.
  apply (namex_body_ledger o l s parent ip path nm r s' H Ho) in R.
  by destruct r as [[[? ?] ?]|[[? ?]|]].
Qed.

Lemma namei_ledger o l s cwd path r s' :
  ledger o l s -> 0 < base cwd + o cwd -> namei rd cwd path s = Ret r s' ->
  match r with
  | Some ip => ledger (fun j => o j + one ip j) l s'
  | None => ledger o l s'
  end.
Proof.
  intros H Hc R. apply bind_ret_inv in R as (q & s1 & R1 & [= <- <-]).
  apply (namex_ledger _ _ _ _ _ _ _ _ H Hc) in R1. by destruct q as [[ip nm]|].
Qed.

End Names.
End Ledger.
