(* ===== verification/File.v ===== *)
(** * Open files

    [file.c] and [pipealloc] of [pipe.c]: the table of open files over the
    file system, the pipes and the page allocator.  A file pointer is an index
    into the table, a pipe pointer the address of the pipe's page. *)

From S2P Require Import Prelude Locks Kalloc Pipe Vm Bio Log Fs.

Module File.

Definition NFILE : nat := 100.

Inductive ftype := FD_NONE | FD_PIPE | FD_INODE.
#[global] Instance ftype_dec : EqDecision ftype.
Proof. solve_decision. Defined.

(** [struct file]. *)
Record file := {
  ftyp : ftype; fref : Z; readable : bool; writable : bool; fpipe : Z; fip : nat; foff : Z }.

Definition set_ftyp t f := {| ftyp := t; fref := fref f; readable := readable f; writable := writable f; fpipe := fpipe f; fip := fip f; foff := foff f |}.
Definition set_fref n f := {| ftyp := ftyp f; fref := n; readable := readable f; writable := writable f; fpipe := fpipe f; fip := fip f; foff := foff f |}.
Definition set_modes r w f := {| ftyp := ftyp f; fref := fref f; readable := r; writable := w; fpipe := fpipe f; fip := fip f; foff := foff f |}.
Definition set_fpipe p f := {| ftyp := ftyp f; fref := fref f; readable := readable f; writable := writable f; fpipe := p; fip := fip f; foff := foff f |}.
Definition set_fip i f := {| ftyp := ftyp f; fref := fref f; readable := readable f; writable := writable f; fpipe := fpipe f; fip := i; foff := foff f |}.
Definition set_foff o f := {| ftyp := ftyp f; fref := fref f; readable := readable f; writable := writable f; fpipe := fpipe f; fip := fip f; foff := o |}.

(** What the open files stand on: the file system, the table with this CPU's
    view of its lock, the pipes by the address of their page, and the memory
    the pages come from. *)
Record kern := {
  fs : Fs.fst; ftable : list file; ftable_lk : bool; pipes : gmap Z Pipe.pipe; mm : Vm.vm }.

Definition with_fs v k := {| fs := v; ftable := ftable k; ftable_lk := ftable_lk k; pipes := pipes k; mm := mm k |}.
Definition with_ftable v k := {| fs := fs k; ftable := v; ftable_lk := ftable_lk k; pipes := pipes k; mm := mm k |}.
Definition with_pipes v k := {| fs := fs k; ftable := ftable k; ftable_lk := ftable_lk k; pipes := v; mm := mm k |}.
Definition with_mm v k := {| fs := fs k; ftable := ftable k; ftable_lk := ftable_lk k; pipes := pipes k; mm := v |}.

#[global] Instance kern_spin : Cli.SpinState kern unit := {|
  Cli.cpu_of := fun k => Bio.bcpu (Log.io (Fs.lg (fs k)));
  Cli.set_cpu := fun c k => with_fs (Cli.set_cpu c (fs k)) k;
  Cli.lk_of := fun _ => ftable_lk;
  Cli.set_lk := fun _ b k => {| fs := fs k; ftable := ftable k; ftable_lk := b; pipes := pipes k;
    mm := mm k |} |}.

Definition acquire : M kern unit := Cli.acquire tt.
Definition release : M kern unit := Cli.release tt.

Definition on_fs {A} (m : M Fs.fst A) : M kern A := zoom fs with_fs m.
Definition on_mm {A} (m : M Vm.vm A) : M kern A := zoom mm with_mm m.

(** Waiting for room in the log ends the run. *)
Definition begin_op : M Fs.fst unit := Fs.log (Log.begin_op []).
Definition end_op : M Fs.fst unit := Fs.log Log.end_op.

Definition file_at (f : nat) : M kern file := let! k := get in from_opt (ftable k !! f).
Definition fupd (f : nat) (g : file -> file) : M kern unit :=
  modify (fun k => with_ftable (alter g f (ftable k)) k).

(** A call of [pipe.c] on the pipe at [p], run by this CPU for a process
    whose [killed] flag is given. *)
Definition on_pipe {A} (p killed : Z) (m : M Pipe.pipe A) : M kern A :=
  let! k := get in
  let! q := from_opt (pipes k !! p) in
  zoom (fun _ => Cli.set_cpu (Cli.cpu_of k) (Pipe.with_killed killed q))
       (fun q k => Cli.set_cpu (Cli.cpu_of q) (with_pipes (<[p := q]> (pipes k)) k)) m.

Section Ops.
(** The end of the kernel image, and the device table. *)
Context (kend : Z).
Context (devsw_read : Z -> option (nat -> Z -> M Fs.fst (Z * list Z))).
Context (devsw_write : Z -> option (nat -> list Z -> M Fs.fst Z)).

Definition fileinit : M kern unit := modify (Cli.set_lk tt false).

Definition filealloc : M kern (option nat) :=
  acquire ;;;
  let! k := get in
  match find_idx (fun f => fref f =? 0) (ftable k) with
  | Some f =>
      fupd f (set_fref 1) ;;;
      release ;;;
      ret (Some f)
  | None =>
      release ;;;
      ret None
  end.

Definition filedup (f : nat) : M kern nat :=
  acquire ;;;
  let! x := file_at f in
  if fref x <? 1 then panic "filedup"
  else
    fupd f (set_fref (fref x + 1)) ;;;
    release ;;;
    ret f.

(** The page of a pipe both of whose ends are closed is given back. *)
Definition pipeclose (p : Z) (writable : bool) : M kern unit :=
  on_pipe p 0 (Pipe.pipeclose writable) ;;;
  let! k := get in
  let! q := from_opt (pipes k !! p) in
  if Pipe.freed q then
    on_mm (Vm.kfree kend p) ;;;
    modify (fun k => with_pipes (delete p (pipes k)) k)
  else ret tt.

Definition fileclose (f : nat) : M kern unit :=
  acquire ;;;
  let! x := file_at f in
  if fref x <? 1 then panic "fileclose"
  else
    fupd f (set_fref (fref x - 1)) ;;;
    let! x := file_at f in
    if fref x >? 0 then release
    else
      let ff := x in
      fupd f (set_fref 0) ;;;
      fupd f (set_ftyp FD_NONE) ;;;
      release ;;;
      match ftyp ff with
      | FD_PIPE => pipeclose (fpipe ff) (writable ff)
      | FD_INODE =>
          on_fs begin_op ;;;
          on_fs (Fs.iput (fip ff)) ;;;
          on_fs end_op
      | FD_NONE => ret tt
      end.

(** [None] stands for the result -1. *)
Definition filestat (f : nat) : M kern (option Fs.stat) :=
  let! x := file_at f in
  match ftyp x with
  | FD_INODE =>
      on_fs (Fs.ilock (Some (fip x))) ;;;
      let! st := on_fs (Fs.stati (fip x)) in
      on_fs (Fs.iunlock (Some (fip x))) ;;;
      ret (Some st)
  | _ => ret None
  end.

(** The result and the bytes put at [addr]; [env] is what others do to a pipe
    while the caller waits. *)
Definition fileread (f : nat) (n killed : Z) (env : list Pipe.event) : M kern (Z * list Z) :=
  let! x := file_at f in
  if negb (readable x) then ret (-1, [])
  else
    match ftyp x with
    | FD_PIPE => on_pipe (fpipe x) killed (Pipe.piperead (Z.to_nat n) env)
    | FD_INODE =>
        on_fs (Fs.ilock (Some (fip x))) ;;;
        let! (r, bytes) := on_fs (Fs.readi devsw_read (fip x) (foff x) (u32 n)) in
        (if r >? 0 then fupd f (fun x => set_foff (u32 (foff x + r)) x) else ret tt) ;;;
        on_fs (Fs.iunlock (Some (fip x))) ;;;
        ret (r, bytes)
    | FD_NONE => panic "fileread"
    end.

(** [((MAXOPBLOCKS-1-1-2) / 2) * 512] *)
Definition max_write : Z := (Log.MAXOPBLOCKS - 1 - 1 - 2) / 2 * 512.

(** One turn of the loop of [filewrite]; [inr] is [i] when the loop is left. *)
Definition filewrite_body (f : nat) (src : list Z) (n i : Z) : M kern (Z + Z) :=
  if i <? n then
    let n1 := if n - i >? max_write then max_write else n - i in
    let! x := file_at f in
    on_fs begin_op ;;;
    on_fs (Fs.ilock (Some (fip x))) ;;;
    let! r := on_fs (Fs.writei devsw_write (fip x)
                       (take (Z.to_nat n1) (drop (Z.to_nat i) src)) (foff x) (u32 n1)) in
    (if r >? 0 then fupd f (fun x => set_foff (u32 (foff x + r)) x) else ret tt) ;;;
    on_fs (Fs.iunlock (Some (fip x))) ;;;
    on_fs end_op ;;;
    if r <? 0 then ret (inr i)
    else if negb (r =? n1) then panic "short filewrite"
    else ret (inl (i + r))
  else ret (inr i).

(** [src] are the [n] bytes at the caller's address. *)
Definition filewrite (f : nat) (src : list Z) (n killed : Z) (env : list Pipe.event) : M kern Z :=
  let! x := file_at f in
  if negb (writable x) then ret (-1)
  else
    match ftyp x with
    | FD_PIPE =>
        let! r := on_pipe (fpipe x) killed (Pipe.pipewrite (take (Z.to_nat n) src) env) in
        ret (if (r =? 0) && (n <? 0) then n else r)
    | FD_INODE =>
        let! i := loop (S (Z.to_nat n)) (filewrite_body f src n) 0 in
        ret (if i =? n then n else -1)
    | FD_NONE => panic "filewrite"
    end.

(** A fresh pipe in a page: its ring starts as the bytes of the page after
    the lock. *)
Definition new_pipe (k : kern) (p : Z) : Pipe.pipe :=
  Pipe.pipeinit
    {| Pipe.data := (fun i => Kalloc.ram (Vm.km (mm k)) (p + 52 + Z.of_nat i)) <$> seq 0 512;
       Pipe.nread := 0; Pipe.nwrite := 0; Pipe.readopen := 0; Pipe.writeopen := 0;
       Pipe.plock := false; Pipe.pcpu := Cli.cpu_of k; Pipe.killed := 0; Pipe.woken := [];
       Pipe.freed := false |}.

(** What follows [bad]. *)
Definition pipealloc_bad (p : Z) (f0 f1 : option nat) : M kern (option (nat * nat)) :=
  (if negb (p =? 0) then on_mm (Vm.kfree kend p) else ret tt) ;;;
  (match f0 with Some f => fileclose f | None => ret tt end) ;;;
  (match f1 with Some f => fileclose f | None => ret tt end) ;;;
  ret None.

Definition pipealloc : M kern (option (nat * nat)) :=
  let! r0 := filealloc in
  match r0 with
  | None => pipealloc_bad 0 None None
  | Some f0 =>
      let! r1 := filealloc in
      match r1 with
      | None => pipealloc_bad 0 (Some f0) None
      | Some f1 =>
          let! p := on_mm Vm.kalloc in
          if p =? 0 then pipealloc_bad p (Some f0) (Some f1)
          else
            modify (fun k => with_pipes (<[p := new_pipe k p]> (pipes k)) k) ;;;
            fupd f0 (set_ftyp FD_PIPE) ;;;
            fupd f0 (set_modes true false) ;;;
            fupd f0 (set_fpipe p) ;;;
            fupd f1 (set_ftyp FD_PIPE) ;;;
            fupd f1 (set_modes false true) ;;;
            fupd f1 (set_fpipe p) ;;;
            ret (Some (f0, f1))
      end
  end.

End Ops.
End File.
