(* ===== verification/FileFacts.v ===== *)
(** * References to open files

    The ledger of the inode cache extended to the table of open files: every
    open file is one reference to its inode, and the code at work owns
    references to files as it owns references to inodes. *)

From S2P Require Import Prelude Locks Pipe Vm Bio Log Fs FsTx FsRefs File.
Import File.

(** ** Sums over a table *)

Fixpoint total {A} (g : A -> Z) (l : list A) : Z :=
  match l with [] => 0 | x :: l' => g x + total g l' end.

Lemma sum_alter {A} (g : A -> Z) (h : A -> A) l i x :
  l !! i = Some x -> total g (alter h i l) = total g l - g x + g (h x).
Proof.
  revert i. induction l as [|y l IH]; intros i Hi; [done|].
  destruct i as [|i]; [injection Hi as ->; cbn; lia|].
  change (alter h (S i) (y :: l)) with (y :: alter h i l). cbn [total]. rewrite (IH i Hi). lia.
Qed.

Lemma total_insert {A} (g : A -> Z) l i x y :
  l !! i = Some x -> total g (<[i := y]> l) = total g l - g x + g y.
Proof.
  revert i. induction l as [|z l IH]; intros i Hi; [done|].
  destruct i as [|i]; [injection Hi as ->; cbn; lia|].
  change (<[S i := y]> (z :: l)) with (z :: <[i := y]> l). cbn [total]. rewrite (IH i Hi). lia.
Qed.

Lemma total_nonneg {A} (g : A -> Z) l : (forall x, 0 <= g x) -> 0 <= total g l.
Proof. intros H. induction l as [|x l IH]; cbn; [lia|]. specialize (H x). lia. Qed.

Lemma total_ge {A} (g : A -> Z) l i x : (forall x, 0 <= g x) -> l !! i = Some x -> g x <= total g l.
Proof.
  intros H. revert i. induction l as [|y l IH]; intros i Hi; [done|].
  destruct i as [|i]; cbn in *; [injection Hi as ->|].
  - pose proof (total_nonneg g l H). lia.
  - specialize (IH i Hi). specialize (H y). lia.
Qed.

(** ** The table of open files *)

Definition frefs (k : kern) (f : nat) : Z := from_option fref 0 (ftable k !! f).
Definition inode_use (j : nat) (x : file) : Z :=
  if bool_decide (ftyp x = FD_INODE /\ fip x = j) then 1 else 0.
Definition file_uses (k : kern) (j : nat) : Z := total (inode_use j) (ftable k).

Lemma inode_use_nonneg j x : 0 <= inode_use j x.
Proof. unfold inode_use. case_bool_decide; lia. Qed.

#[export] Instance kern_laws : Cli.SpinLaws kern unit.
Proof. split; intros; try done; destruct l, s as [[[[]]]]; done. Qed.

Lemma kacquire_at k k' :
  acquire k = Ret tt k' -> ftable_lk k = false /\ ftable k' = ftable k /\ still (fs k) (fs k').
Proof. intros (H & ->)%(CliFacts.acquire_inv (L := unit)). by split_and!. Qed.
Lemma krelease_at k k' :
  release k = Ret tt k' -> ftable_lk k' = false /\ ftable k' = ftable k /\ still (fs k) (fs k').
Proof. intros (H & c & ->)%(CliFacts.release_inv (L := unit)). by split_and!. Qed.

Lemma on_fs_inv {A} (m : M Fs.fst A) k a k' :
  on_fs m k = Ret a k' -> exists t, m (fs k) = Ret a t /\ k' = with_fs t k.
Proof. unfold on_fs, zoom. destruct (m (fs k)) as [b t| | | |]; try done. intros [= -> <-]. by exists t. Qed.

Lemma file_at_inv f k x k' : file_at f k = Ret x k' -> k' = k /\ ftable k !! f = Some x.
Proof.
  unfold file_at, bind, get, from_opt. destruct (ftable k !! f) as [y|]; [|done]. by intros [= -> ->].
Qed.

Section Table.
(** The references to inodes that are not those of open files, and the
    references to files held elsewhere. *)
Context (ubase : nat -> Z) (fbase : nat -> Z).

Definition inode_base (k : kern) (j : nat) : Z := ubase j + file_uses k j.

(** [name] are the inodes that the references to inodes are to. *)
Record kledger (name : nat -> Z * Z) (own lks fown : nat -> Z) (k : kern) : Prop := {
  kl_inodes : ledger (inode_base k) name own lks (fs k);
  kl_refs : forall f, frefs k f = fbase f + fown f;
  kl_ubase : forall j, 0 <= ubase j;
  kl_fbase : forall f, 0 <= fbase f;
  kl_fown : forall f, 0 <= fown f;
  kl_none : forall f x, ftable k !! f = Some x -> fref x <= 0 -> ftyp x = FD_NONE;
  kl_lk : ftable_lk k = false }.

Lemma kledger_ext nm o l w o' l' w' k :
  kledger nm o l w k -> (forall j, o' j = o j) -> (forall j, l' j = l j) -> (forall f, w' f = w f) ->
  kledger nm o' l' w' k.
Proof.
  intros [] Ho Hl Hw. split; try done; [by eapply ledger_ext|..]; intros f; rewrite Hw; auto.
Qed.

(** A file system operation, by what it does to the ledger of inodes. *)
Lemma kledger_fs {A} (m : M Fs.fst A) nm o l o' l' w k a k' :
  kledger nm o l w k -> on_fs m k = Ret a k' ->
  (forall t, ledger (inode_base k) nm o l (fs k) -> m (fs k) = Ret a t -> ledger (inode_base k) nm o' l' t) ->
  kledger nm o' l' w k'.
Proof.
  intros [Hi Hr Hu Hb Hw Hn Hl] (t & Rt & ->)%on_fs_inv H. split; try done. by apply (H t).
Qed.

Lemma kledger_quiet {A} (m : M Fs.fst A) nm o l w k a k' :
  quiet m -> kledger nm o l w k -> on_fs m k = Ret a k' -> kledger nm o l w k'.
Proof.
  intros Hm H R. apply (kledger_fs m nm o l o l w k a k' H R). intros t Hb Rt.
  by apply (ledger_quiet _ nm m o l (fs k) a t).
Qed.

Lemma kledger_still nm o l w k k' :
  kledger nm o l w k -> still (fs k) (fs k') -> ftable k' = ftable k -> ftable_lk k' = false -> kledger nm o l w k'.
Proof.
  intros [Hi Hr Hu Hb Hw Hn Hl] Hs Et El. unfold inode_base, frefs, file_uses in *.
  split; unfold inode_base, frefs, file_uses; try done; rewrite ?Et; try done. by apply (ledger_still _ _ _ _ (fs k)).
Qed.

(** One entry of the table changes: its count by [d]; with [c = 1] it gives
    up its reference to inode [ip], with [c = -1] it takes one over. *)
Lemma kledger_entry nm nm' o l w d c k k' f ip x g :
  kledger nm o l w k -> still (fs k) (fs k') -> ftable k !! f = Some x -> ftable k' = alter g f (ftable k) ->
  ftable_lk k' = false -> (forall j, inode_use j (g x) = inode_use j x - c * one ip j) -> fref (g x) = fref x + d ->
  0 <= w f + d -> 0 <= o ip + c -> (fref (g x) <= 0 -> ftyp (g x) = FD_NONE) ->
  (forall j, 0 < inode_base k j - c * one ip j -> key_at (fs k) j = Some (nm' j)) ->
  kledger nm' (fun j => o j + c * one ip j) l (fun i => w i + d * one f i) k'.
Proof.
  intros [Hi Hr Hu Hb Hw Hn Hl] Hs Hx Et El Hg Hd Hpos Hown Hnone Hnm.
  assert (Eu : forall j, inode_base k' j = inode_base k j - c * one ip j).
  { intros j. unfold inode_base, file_uses. rewrite Et, (sum_alter _ _ _ _ _ Hx), Hg. lia. }
  split; try done.
  - pose proof (ledger_still _ _ _ _ _ _ Hi Hs) as [Ar Al Ao Ab An Au Af]. split; try done.
    + intros j. rewrite Eu, Ar. lia.
    + intros j. specialize (Ao j). unfold one. case_decide as E; [subst; lia|lia].
    + intros j. unfold inode_base. pose proof (total_nonneg (inode_use j) (ftable k') (inode_use_nonneg j)).
      unfold file_uses. specialize (Hu j). lia.
    + intros j. rewrite Eu. intros Hj. rewrite (proj2 (proj2 (still_at _ _ j Hs))). by apply Hnm.
  - intros i. unfold frefs, one in *. rewrite Et. specialize (Hr i). case_decide as E.
    + subst. rewrite list_lookup_alter_eq, Hx in *. cbn in *. lia.
    + rewrite list_lookup_alter_ne by done. rewrite Hr. lia.
  - intros i. unfold one. specialize (Hw i). case_decide as E; [subst; lia|lia].
  - intros i y. rewrite Et. destruct (decide (i = f)) as [->|Hne].
    + rewrite list_lookup_alter_eq, Hx. cbn. intros [= <-]. done.
    + rewrite list_lookup_alter_ne by done. apply Hn.
Qed.

(** ... and its inode, if it has one, stays. *)
Lemma kledger_count nm o l w d k k' f x g :
  kledger nm o l w k -> still (fs k) (fs k') -> ftable k !! f = Some x -> ftable k' = alter g f (ftable k) ->
  ftable_lk k' = false -> (forall j, inode_use j (g x) = inode_use j x) -> fref (g x) = fref x + d ->
  0 <= w f + d -> (fref (g x) <= 0 -> ftyp (g x) = FD_NONE) ->
  kledger nm o l (fun i => w i + d * one f i) k'.
Proof.
  intros H Hs Hx Et El Hg Hd Hpos Hnone. pose proof (ld_own _ _ _ _ _ (kl_inodes _ _ _ _ _ H) 0%nat).
  eapply kledger_ext.
  - apply (kledger_entry nm nm o l w d 0 k k' f 0 x g H Hs Hx Et El); try done.
    + intros j. rewrite Hg. lia.
    + lia.
    + intros j Hj. apply (ld_name _ _ _ _ _ (kl_inodes _ _ _ _ _ H)). lia.
  - intros j. cbn. lia.
  - done.
  - done.
Qed.

End Table.

(** ** The operations *)

(** What happens to neither the files nor the inodes. *)
Record aside (k k' : kern) : Prop := {
  as_fs : still (fs k) (fs k'); as_ftable : ftable k' = ftable k; as_lk : ftable_lk k' = ftable_lk k }.

#[export] Instance aside_refl : Reflexive aside.
Proof. done. Qed.
#[export] Instance aside_trans : Transitive aside.
Proof. intros a b c [] []. split; [by etrans|congruence..]. Qed.

Lemma on_mm_aside {A} (m : M Vm.vm A) k a k' : on_mm m k = Ret a k' -> aside k k'.
Proof. unfold on_mm, zoom. destruct (m (mm k)); try done. intros [= _ <-]. done. Qed.

Lemma on_pipe_aside {A} p kl (m : M Pipe.pipe A) k a k' : on_pipe p kl m k = Ret a k' -> aside k k'.
Proof.
  intros (k1 & k2 & [= <- <-] & R)%bind_ret_inv. apply bind_ret_inv in R as (q & k3 & R1 & R).
  destruct (pipes k !! p); [|done]. injection R1 as <- <-. unfold zoom in R.
  destruct (m _); try done. injection R as _ <-. by split.
Qed.

Lemma pipeclose_aside kend p w k k' : pipeclose kend p w k = Ret tt k' -> aside k k'.
Proof.
  intros (u & k1 & R1%on_pipe_aside & R)%bind_ret_inv.
  apply bind_ret_inv in R as (k2 & k3 & [= <- <-] & R). apply bind_ret_inv in R as (q & k4 & R2 & R).
  destruct (pipes k1 !! p); [|done]. injection R2 as <- <-. etrans; [done|].
  destruct (Pipe.freed _); [|by injection R as <-].
  apply bind_ret_inv in R as (v & k5 & R3%on_mm_aside & [= <-]). etrans; [done|]. by split.
Qed.

Lemma quiet_begin_op : quiet begin_op.
Proof. apply quiet_log. Qed.
Lemma quiet_end_op : quiet end_op.
Proof. apply quiet_log. Qed.
#[export] Hint Resolve quiet_begin_op quiet_end_op : quiet.

Section Ops.
Context (kend : Z) (ubase fbase : nat -> Z) (nm : nat -> Z * Z).
Context (rd : Z -> option (nat -> Z -> M Fs.fst (Z * list Z))) (wr : Z -> option (nat -> list Z -> M Fs.fst Z)).
Hypothesis Hdrv : drivers_quiet rd wr.
Let kl := (kledger ubase fbase nm).
Implicit Types (o l w : nat -> Z) (k : kern).

Lemma aside_ledger o l w k k' : kl o l w k -> aside k k' -> kl o l w k'.
Proof. intros H [Hs Et El]. eapply kledger_still; try done. by rewrite El, (kl_lk _ _ _ _ _ _ _ H). Qed.

Lemma filealloc_ledger o l w k r k' :
  kl o l w k -> filealloc k = Ret r k' ->
  match r with
  | Some f => kl o l (fun i => w i + one f i) k' /\
      exists x, ftable k !! f = Some x /\ ftyp x = FD_NONE /\ fref x = 0 /\ ftable k' = alter (set_fref 1) f (ftable k)
  | None => kl o l w k'
  end.
Proof.
  intros H (u & k1 & R1 & R)%bind_ret_inv. destruct u. apply kacquire_at in R1 as (_ & Et & Hs).
  apply bind_ret_inv in R as (k2 & k3 & [= <- <-] & R). rewrite Et in R.
  destruct (find_idx _ _) as [f|] eqn:E.
  - apply bind_ret_inv in R as (u & k4 & [= _ <-] & R). apply bind_ret_inv in R as (v & k5 & R5 & [= <- <-]).
    destruct v. apply krelease_at in R5 as (El & Et2 & Hs2). cbn in Et2, Hs2. rewrite Et in Et2.
    apply find_idx_Some in E as (x & Hx & H0 & _). bools.
    assert (Hn : ftyp x = FD_NONE) by (apply (kl_none _ _ _ _ _ _ _ H f); [done|lia]).
    split.
    + eapply kledger_ext; [eapply (kledger_count ubase fbase nm o l w 1 k k5 f x (set_fref 1) H)|..]; try done.
      * by etrans.
      * cbn. lia.
      * pose proof (kl_fown _ _ _ _ _ _ _ H f). lia.
      * intros i. cbn. lia.
    + by exists x.
  - apply bind_ret_inv in R as (v & k5 & R5 & [= <- <-]). destruct v. apply krelease_at in R5 as (El & Et2 & Hs2).
    eapply kledger_still; [done|by etrans|congruence|done].
Qed.

Lemma filedup_ledger o l w k f r k' :
  kl o l w k -> filedup f k = Ret r k' -> r = f /\ kl o l (fun i => w i + one f i) k'.
Proof.
  intros H (u & k1 & R1 & R)%bind_ret_inv. destruct u. apply kacquire_at in R1 as (_ & Et & Hs).
  apply bind_ret_inv in R as (x & k2 & [-> Hx]%file_at_inv & R). rewrite Et in Hx.
  destruct (fref x <? 1) eqn:E; [done|]. bools.
  apply bind_ret_inv in R as (u & k4 & [= _ <-] & R). apply bind_ret_inv in R as (v & k5 & R5 & [= <- <-]).
  destruct v. apply krelease_at in R5 as (El & Et2 & Hs2). cbn in Et2, Hs2. rewrite Et in Et2. split; [done|].
  eapply kledger_ext; [eapply (kledger_count ubase fbase nm o l w 1 k k5 f x _ H); [|done|exact Et2|..]|..]; try done.
  - by etrans.
  - pose proof (kl_fown _ _ _ _ _ _ _ H f). lia.
  - cbn. lia.
  - intros i. cbn. lia.
Qed.

Lemma iput_kledger o l w k ip k' :
  kl o l w k -> on_fs (Fs.iput ip) k = Ret tt k' -> 0 < o ip -> kl (fun j => o j - one ip j) l w k'.
Proof. intros H R Ho. apply (kledger_fs _ _ _ _ _ _ _ _ _ _ _ _ H R). intros t Ht Rt. by eapply iput_ledger. Qed.

(** The reference that is closed may be the last one: an inode's reference is
    then given back. *)
Lemma fileclose_ledger o l w k f k' :
  kl o l w k -> 0 < w f -> fileclose kend f k = Ret tt k' -> kl o l (fun i => w i - one f i) k'.
Proof.
  intros H Hw (u & k1 & R1 & R)%bind_ret_inv. destruct u. apply kacquire_at in R1 as (_ & Et & Hs).
  apply bind_ret_inv in R as (x & k2 & [-> Hx]%file_at_inv & R). rewrite Et in Hx.
  destruct (fref x <? 1) eqn:E; [done|]. bools.
  apply bind_ret_inv in R as (u & k2 & [= _ <-] & R). apply bind_ret_inv in R as (y & k3 & [-> Hy]%file_at_inv & R).
  cbn in Hy. rewrite Et, list_lookup_alter_eq, Hx in Hy. injection Hy as <-. cbn [fref set_fref] in R.
  destruct (fref x - 1 >? 0) eqn:E2.
  - apply krelease_at in R as (El & Et2 & Hs2). cbn in Et2, Hs2. rewrite Et in Et2. bools.
    eapply kledger_ext; [eapply (kledger_count ubase fbase nm o l w (-1) k k' f x _ H); [|done|exact Et2|..]|..]; try done.
    all: try (by etrans); intros; cbn in *; lia.
  - bools. apply bind_ret_inv in R as (u1 & k3 & [= _ <-] & R). apply bind_ret_inv in R as (u2 & k4 & [= _ <-] & R).
    apply bind_ret_inv in R as (v & k5 & R5 & R). destruct v. apply krelease_at in R5 as (El & Et2 & Hs2).
    cbn in Et2, Hs2. rewrite Et, !list_alter_alter_eq in Et2.
    assert (Hs5 : still (fs k) (fs k5)) by (by etrans).
    destruct (ftyp x) eqn:Ety; cbn in R; rewrite ?Ety in R.
    + injection R as <-.
      eapply kledger_ext; [eapply (kledger_count ubase fbase nm o l w (-1) k k5 f x _ H Hs5 Hx Et2)|..]; try done.
      all: intros; cbn in *; try lia.
      unfold inode_use. cbn. rewrite Ety. repeat case_bool_decide; naive_solver.
    + apply pipeclose_aside in R. eapply aside_ledger; [|done].
      eapply kledger_ext; [eapply (kledger_count ubase fbase nm o l w (-1) k k5 f x _ H Hs5 Hx Et2)|..]; try done.
      all: intros; cbn in *; try lia.
      unfold inode_use. cbn. rewrite Ety. repeat case_bool_decide; naive_solver.
    + assert (H5 : kl (fun j => o j + 1 * one (fip x) j) l (fun i => w i + -1 * one f i) k5).
      { eapply (kledger_entry ubase fbase nm nm o l w (-1) 1 k k5 f (fip x) x _ H Hs5 Hx Et2); try done.
        - intros j. unfold inode_use, one. cbn. rewrite Ety. repeat case_bool_decide; case_decide; naive_solver.
        - cbn. lia.
        - lia.
        - pose proof (ld_own _ _ _ _ _ (kl_inodes _ _ _ _ _ _ _ H) (fip x)). lia.
        - intros j Hj. apply (ld_name _ _ _ _ _ (kl_inodes _ _ _ _ _ _ _ H)).
          unfold one in Hj. case_decide; lia. }
      apply bind_ret_inv in R as (v1 & k6 & R6 & R). apply (kledger_quiet _ _ _ _ _ _ _ _ _ _ quiet_begin_op H5) in R6.
      apply bind_ret_inv in R as (v2 & k7 & R7 & R8). destruct v2.
      apply (iput_kledger _ _ _ _ _ _ R6) in R7.
      * apply (kledger_quiet _ _ _ _ _ _ _ _ _ _ quiet_end_op R7) in R8. by eapply kledger_ext; [done|..]; intros; cbn; lia.
      * pose proof (ld_own _ _ _ _ _ (kl_inodes _ _ _ _ _ _ _ H) (fip x)). unfold one. rewrite decide_True by done. lia.
Qed.

Lemma ilock_kledger o l w k ip k' :
  kl o l w k -> on_fs (Fs.ilock (Some ip)) k = Ret tt k' -> kl o (fun j => l j + one ip j) w k'.
Proof. intros H R. apply (kledger_fs _ _ _ _ _ _ _ _ _ _ _ _ H R). intros t Ht Rt. by eapply ilock_ledger. Qed.

Lemma iunlock_kledger o l w k ip k' :
  kl o l w k -> on_fs (Fs.iunlock (Some ip)) k = Ret tt k' -> kl o (fun j => l j - one ip j) w k'.
Proof. intros H R. apply (kledger_fs _ _ _ _ _ _ _ _ _ _ _ _ H R). intros t Ht Rt. by eapply iunlock_ledger. Qed.

(** An entry rewritten without a change to what it refers to. *)
Lemma fupd_kledger o l w k f g u k' :
  kl o l w k -> fupd f g k = Ret u k' ->
  (forall x, ftyp (g x) = ftyp x /\ fref (g x) = fref x /\ fip (g x) = fip x) -> kl o l w k'.
Proof.
  intros H [= _ <-] Hg. destruct (ftable k !! f) as [x|] eqn:Hx.
  - destruct (Hg x) as (Et & Er & Ei). eapply kledger_ext.
    + eapply (kledger_count ubase fbase nm o l w 0 k _ f x g H); try done.
      * apply H.
      * intros j. unfold inode_use. by rewrite Et, Ei.
      * rewrite Er. lia.
      * pose proof (kl_fown _ _ _ _ _ _ _ H f). lia.
      * rewrite Et, Er. by apply (kl_none _ _ _ _ _ _ _ H f).
    + done.
    + done.
    + intros i. cbn. lia.
  - eapply kledger_still; [done|done| |apply H]. cbn. apply list_eq. intros i.
    destruct (decide (i = f)) as [->|]; [by rewrite list_lookup_alter_eq, Hx|by rewrite list_lookup_alter_ne].
Qed.

(** Step over the first statement of the run [R], an operation of the file
    system that is quiet. *)
Ltac kquietly H R :=
  let a := fresh "a" in let k' := fresh "k" in let R' := fresh "R" in
  apply bind_ret_inv in R as (a & k' & R' & R);
  match type of R' with on_fs ?m _ = _ =>
    let Hq := fresh "Hq" in
    assert (Hq : quiet m) by quiet;
    apply (kledger_quiet _ _ _ _ _ _ _ _ _ _ Hq H) in R'; clear Hq H; rename R' into H
  end.

Lemma filestat_ledger o l w k f r k' : kl o l w k -> filestat f k = Ret r k' -> kl o l w k'.
Proof.
  intros H (x & k1 & [-> Hx]%file_at_inv & R)%bind_ret_inv. destruct (ftyp x); [by injection R as <- <-..|].
  apply bind_ret_inv in R as (u & k2 & R2 & R). destruct u. apply (ilock_kledger _ _ _ _ _ _ H) in R2.
  kquietly R2 R. apply bind_ret_inv in R as (u & k4 & R4 & [= <- <-]). destruct u.
  apply (iunlock_kledger _ _ _ _ _ _ R2) in R4. eapply kledger_ext; [done|..]; intros; cbn; lia.
Qed.

Lemma fileread_ledger o l w k f n kd env r k' :
  kl o l w k -> fileread rd f n kd env k = Ret r k' -> kl o l w k'.
Proof.
  intros H (x & k1 & [-> Hx]%file_at_inv & R)%bind_ret_inv. destruct (negb _); [by injection R as <- <-|].
  destruct (ftyp x); [done|by eapply aside_ledger, on_pipe_aside|].
  apply bind_ret_inv in R as (u & k2 & R2 & R). destruct u. apply (ilock_kledger _ _ _ _ _ _ H) in R2.
  kquietly R2 R. destruct a as [v bytes]. apply bind_ret_inv in R as (u & k4 & R4 & R).
  assert (H4 : kl o (fun j => l j + one (fip x) j) w k4).
  { destruct (v >? 0); [by eapply fupd_kledger|by injection R4 as _ <-]. }
  apply bind_ret_inv in R as (u' & k5 & R5 & [= <- <-]). destruct u'.
  apply (iunlock_kledger _ _ _ _ _ _ H4) in R5. eapply kledger_ext; [done|..]; intros; cbn; lia.
Qed.

Lemma filewrite_ledger o l w k f src n kd env r k' :
  kl o l w k -> filewrite wr f src n kd env k = Ret r k' -> kl o l w k'.
Proof.
  intros H (x & k1 & [-> Hx]%file_at_inv & R)%bind_ret_inv. destruct (negb _); [by injection R as <- <-|].
  destruct (ftyp x); [done|..].
  { apply bind_ret_inv in R as (v & k2 & R2 & [= <- <-]). by eapply aside_ledger, on_pipe_aside. }
  apply bind_ret_inv in R as (i & k2 & R2 & [= <- <-]). revert R2.
  apply (loop_inv _ _ (fun _ => kl o l w) (fun _ => kl o l w)); [|done].
  clear - Hdrv. intros i k r k' H R. unfold filewrite_body in R.
  destruct (i <? n); [|by injection R as <- <-]. cbv zeta in R.
  apply bind_ret_inv in R as (x & k1 & [-> Hx]%file_at_inv & R). kquietly H R.
  apply bind_ret_inv in R as (u & k2 & R2 & R). destruct u. apply (ilock_kledger _ _ _ _ _ _ H) in R2.
  kquietly R2 R. apply bind_ret_inv in R as (u & k4 & R4 & R).
  assert (H4 : kl o (fun j => l j + one (fip x) j) w k4).
  { destruct (_ >? 0); [by eapply fupd_kledger|by injection R4 as _ <-]. }
  apply bind_ret_inv in R as (u' & k5 & R5 & R). destruct u'.
  apply (iunlock_kledger _ _ _ _ _ _ H4) in R5. kquietly R5 R.
  assert (H6 : kl o l w ltac:(match type of R5 with kledger _ _ _ _ _ _ ?k => exact k end)) by (eapply kledger_ext; [done|..]; intros; cbn; lia).
  destruct (_ <? 0); [by injection R as <- <-|]. destruct (negb _); [done|]. by injection R as <- <-.
Qed.

(** A file without an inode becomes another one without. *)
Lemma fupd_pipe o l w k f x g u k' :
  kl o l w k -> fupd f g k = Ret u k' -> ftable k !! f = Some x -> ftyp x <> FD_INODE -> 0 < fref x ->
  ftyp (g x) <> FD_INODE -> fref (g x) = fref x -> kl o l w k'.
Proof.
  intros H [= _ <-] Hx Hn Hp Hg Hr. eapply kledger_ext.
  - eapply (kledger_count ubase fbase nm o l w 0 k _ f x g H); try done.
    + apply H.
    + intros j. unfold inode_use. repeat case_bool_decide; naive_solver.
    + lia.
    + pose proof (kl_fown _ _ _ _ _ _ _ H f). lia.
    + lia.
  - done.
  - done.
  - intros i. cbn. lia.
Qed.

Lemma pipealloc_bad_ledger o l w k p f0 f1 r k' :
  kl o l w k -> (forall f, f0 = Some f -> 0 < w f) ->
  (forall f g, f0 = Some f -> f1 = Some g -> 0 < w g - one f g) -> (f0 = None -> f1 = None) ->
  pipealloc_bad kend p f0 f1 k = Ret r k' ->
  r = None /\ kl o l (fun i => w i - from_option one none f0 i - from_option one none f1 i) k'.
Proof.
  intros H H0 H1 H01 R. unfold pipealloc_bad in R. apply bind_ret_inv in R as (u & k1 & R1 & R).
  assert (A1 : kl o l w k1).
  { destruct (negb _); [by eapply aside_ledger, on_mm_aside|by injection R1 as _ <-]. }
  apply bind_ret_inv in R as (u2 & k2 & R2 & R). apply bind_ret_inv in R as (u3 & k3 & R3 & [= <- <-]).
  split; [done|]. destruct f0 as [f|]; [|rewrite H01 in * by done].
  - destruct u2. apply (fileclose_ledger _ _ _ _ _ _ A1) in R2; [|auto]. destruct f1 as [g|].
    + destruct u3. apply (fileclose_ledger _ _ _ _ _ _ R2) in R3; [|eauto]. done.
    + injection R3 as _ <-. eapply kledger_ext; [done|..]; intros; cbn; unfold none; lia.
  - injection R2 as _ <-. injection R3 as _ <-. eapply kledger_ext; [done|..]; intros; cbn; unfold none; lia.
Qed.

Lemma pipealloc_ledger o l w k r k' :
  kl o l w k -> pipealloc kend k = Ret r k' ->
  match r with
  | Some (f0, f1) => kl o l (fun i => w i + one f0 i + one f1 i) k'
  | None => kl o l w k'
  end.
Proof.
  intros H (r0 & k1 & R1 & R)%bind_ret_inv. apply (filealloc_ledger _ _ _ _ _ _ H) in R1.
  pose proof (kl_fown _ _ _ _ _ _ _ H) as Hw.
  destruct r0 as [f0|]; [|apply (pipealloc_bad_ledger _ _ _ _ _ _ _ _ _ R1) in R as [-> R]; [|done..];
    eapply kledger_ext; [done|..]; intros; cbn; unfold none; lia].
  destruct R1 as [H1 (x0 & Hx0 & Hn0 & Hr0 & Et1)].
  apply bind_ret_inv in R as (r1 & k2 & R2 & R). apply (filealloc_ledger _ _ _ _ _ _ H1) in R2.
  assert (Hp0 : 0 < w f0 + one f0 f0) by (specialize (Hw f0); unfold one; rewrite decide_True by done; lia).
  destruct r1 as [f1|].
  2:{ apply (pipealloc_bad_ledger _ _ _ _ _ _ _ _ _ R2) in R as [-> R].
      - eapply kledger_ext; [done|..]; intros; cbn; unfold none; lia.
      - by intros f [= <-].
      - done.
      - done. }
  destruct R2 as [H2 (x1 & Hx1 & Hn1 & Hr1 & Et2)].
  assert (Hy0 : ftable k1 !! f0 = Some (set_fref 1 x0)) by (by rewrite Et1, list_lookup_alter_eq, Hx0).
  assert (Hne : f0 <> f1) by (intros <-; rewrite Hy0 in Hx1; injection Hx1 as <-; cbn in Hr1; lia).
  assert (Hz0 : ftable k2 !! f0 = Some (set_fref 1 x0)) by (by rewrite Et2, list_lookup_alter_ne).
  assert (Hz1 : ftable k2 !! f1 = Some (set_fref 1 x1)) by (by rewrite Et2, list_lookup_alter_eq, Hx1).
  apply bind_ret_inv in R as (p & k3 & R3%on_mm_aside & R).
  pose proof (aside_ledger _ _ _ _ _ H2 R3) as H3. pose proof (as_ftable _ _ R3) as Et3.
  destruct (p =? 0).
  { apply (pipealloc_bad_ledger _ _ _ _ _ _ _ _ _ H3) in R as [-> R].
    - eapply kledger_ext; [done|..]; intros; cbn; lia.
    - intros f [= <-]. specialize (Hw f0). unfold one. repeat case_decide; try done; lia.
    - intros f g [= <-] [= <-]. specialize (Hw f1). unfold one. repeat case_decide; try done; lia.
    - done. }
  apply bind_ret_inv in R as (u & k4 & [= _ <-] & R).
  assert (H4 : kl o l (fun i => w i + one f0 i + one f1 i)
    (with_pipes (<[p := new_pipe k3 p]> (pipes k3)) k3)) by (by eapply kledger_still; [done|..|apply H3]).
  set (k5 := with_pipes _ k3) in *.
  pose (g0 := set_fpipe p ∘ (set_modes true false ∘ set_ftyp FD_PIPE)).
  pose (g1 := set_fpipe p ∘ (set_modes false true ∘ set_ftyp FD_PIPE)).
  assert (E : r = Some (f0, f1) /\ k' = with_ftable (alter g1 f1 (alter g0 f0 (ftable k5))) k5).
  { injection R as <- <-. split; [done|]. unfold with_ftable. cbn. by rewrite !list_alter_alter_eq. }
  destruct E as [-> ->].
  apply (fupd_pipe _ _ _ (with_ftable (alter g0 f0 (ftable k5)) k5) f1 (set_fref 1 x1) g1 tt); try done.
  - apply (fupd_pipe _ _ _ k5 f0 (set_fref 1 x0) g0 tt); try done.
    + cbn. by rewrite Et3.
    + cbn. by rewrite Hn0.
  - cbn. rewrite list_lookup_alter_ne by done. by rewrite Et3.
  - cbn. by rewrite Hn1.
Qed.

End Ops.
