(* ===== verification/Sysfile.v ===== *)
(** * File system calls

    [sysfile.c]: argument checking and the file system calls of a process,
    over the process table of [Proc] and the open files of [File].  In
    [struct proc] a pointer to an open file is its index in the table plus one
    and a pointer to an inode its slot plus one, so that null is 0.  The part
    of a call between [begin_op] and [end_op] that only touches the file
    system is a definition of its own. *)

From S2P Require Import Prelude Locks Proc Syscall Pipe Fs File.

Module Sysfile.
Import File.

Notation kst := (Proc.kst kern).
Notation K := (M (Proc.kst kern)).

Definition O_RDONLY : Z := 0.
Definition O_WRONLY : Z := 1.
Definition O_RDWR : Z := 2.
Definition O_CREATE : Z := 512.
Definition MAXARG : Z := 32.

(** The pointers kept in [struct proc]. *)
Definition ptr (i : nat) : Z := Z.of_nat i + 1.
Definition unptr (p : Z) : nat := Z.to_nat (p - 1).

Definition svc {A} (m : M kern A) : K A := Proc.svc m.
Definition onfs {A} (m : M Fs.fst A) : K A := svc (on_fs m).

(** Bytes of the user's memory, read and stored. *)
Definition load (m : mem) (a n : Z) : list Z := m <$> seqZ a n.
Fixpoint store (m : mem) (a : Z) (l : list Z) : mem :=
  match l with [] => m | b :: l' => store (mset m a b) (a + 1) l' end.
Definition put_user (a : Z) (l : list Z) : K unit := modify (fun s => Proc.with_umem (store (Proc.umem s) a l) s).
Definition user_str (a len : Z) : K (list Z) := gets (fun s => load (Proc.umem s) a len).
(** [argstr] with the string it points at. *)
Definition argstr (n : Z) : K (option (list Z)) :=
  let! r := Syscall.argstr n in
  match r with
  | Some (a, len) => let! l := user_str a len in ret (Some l)
  | None => ret None
  end.

Definition le16 (v : Z) : list Z := [v mod 256; v / 256 mod 256].
Definition le32 (v : Z) : list Z := [v mod 256; v / 256 mod 256; v / 65536 mod 256; v / 16777216 mod 256].

(** The descriptor and the index of the file. *)
Definition argfd (n : Z) : K (option (Z * nat)) :=
  let! r := Syscall.argint n in
  match r with
  | None => ret None
  | Some fd =>
      if (fd <? 0) || (fd >=? Z.of_nat Proc.NOFILE) then ret None
      else
        let! me := Proc.myproc_ in
        let! p := Proc.proc_at me in
        let f := nth (Z.to_nat fd) (Proc.ofile p) 0 in
        if f =? 0 then ret None else ret (Some (fd, unptr f))
  end.

(** [p->ofile[fd] = f] *)
Definition set_fd (me : nat) (fd : nat) (f : Z) : K unit :=
  Proc.upd me (fun p => Proc.set_ofile (<[fd := f]> (Proc.ofile p)) p).

Definition fdalloc (f : nat) : K Z :=
  let! me := Proc.myproc_ in
  let! p := Proc.proc_at me in
  match find_idx (fun x => x =? 0) (take Proc.NOFILE (Proc.ofile p)) with
  | Some fd => set_fd me fd (ptr f) ;;; ret (Z.of_nat fd)
  | None => ret (-1)
  end.

Definition sys_dup : K Z :=
  let! a := argfd 0 in
  match a with
  | None => ret (-1)
  | Some (_, f) =>
      let! fd := fdalloc f in
      if fd <? 0 then ret (-1)
      else
        svc (filedup f) ;;;
        ret fd
  end.

Section Calls.
(** The end of the kernel image, the device table, and what others do to a
    pipe while the caller waits. *)
Context (kend : Z).
Context (rd : Z -> option (nat -> Z -> M Fs.fst (Z * list Z))).
Context (wr : Z -> option (nat -> list Z -> M Fs.fst Z)).

(** The arguments of [read] and [write]: the file, the count, the buffer. *)
Definition rw_args : K (option (nat * Z * Z)) :=
  let! a := argfd 0 in
  match a with
  | None => ret None
  | Some (_, f) =>
      let! b := Syscall.argint 2 in
      match b with
      | None => ret None
      | Some n =>
          let! c := Syscall.argptr 1 n in
          match c with
          | None => ret None
          | Some p => ret (Some (f, n, p))
          end
      end
  end.

Definition killed : K Z :=
  let! me := Proc.myproc_ in
  let! p := Proc.proc_at me in
  ret (Proc.killed p).

Definition sys_read (env : list Pipe.event) : K Z :=
  let! a := rw_args in
  match a with
  | None => ret (-1)
  | Some (f, n, p) =>
      let! kl := killed in
      let! (r, bytes) := svc (fileread rd f n kl env) in
      put_user p bytes ;;;
      ret r
  end.

Definition sys_write (env : list Pipe.event) : K Z :=
  let! a := rw_args in
  match a with
  | None => ret (-1)
  | Some (f, n, p) =>
      let! kl := killed in
      let! src := user_str p n in
      svc (filewrite wr f src n kl env)
  end.

Definition sys_close : K Z :=
  let! a := argfd 0 in
  match a with
  | None => ret (-1)
  | Some (fd, f) =>
      let! me := Proc.myproc_ in
      set_fd me (Z.to_nat fd) 0 ;;;
      svc (fileclose kend f) ;;;
      ret 0
  end.

(** [sizeof(struct stat)] is 20; its padding is not written. *)
Definition sys_fstat : K Z :=
  let! a := argfd 0 in
  match a with
  | None => ret (-1)
  | Some (_, f) =>
      let! b := Syscall.argptr 1 20 in
      match b with
      | None => ret (-1)
      | Some p =>
          let! r := svc (filestat f) in
          match r with
          | None => ret (-1)
          | Some st =>
              put_user (p + 4) (le32 (Fs.st_dev st)) ;;;
              put_user (p + 8) (le32 (Fs.st_ino st)) ;;;
              put_user p (le16 (Fs.st_type st)) ;;;
              put_user (p + 12) (le16 (Fs.st_nlink st)) ;;;
              put_user (p + 16) (le32 (Fs.st_size st)) ;;;
              ret 0
          end
      end
  end.

Definition cwd : K nat :=
  let! me := Proc.myproc_ in
  let! p := Proc.proc_at me in
  ret (unptr (Proc.cwd p)).

(** [ip->nlink++] and [ip->nlink--] on a [short]. *)
Definition add_nlink (ip : nat) (d : Z) : M Fs.fst unit :=
  Fs.iupd ip (fun x => Fs.set_nlink (Fs.i16 (Fs.nlink x + d)) x).

(** What follows [bad]. *)
Definition link_bad (ip : nat) : M Fs.fst Z :=
  Fs.ilock (Some ip) ;;;
  add_nlink ip (-1) ;;;
  Fs.iupdate ip ;;;
  Fs.iunlockput (Some ip) ;;;
  end_op ;;;
  ret (-1).

Definition link (cwd : nat) (old new : list Z) : M Fs.fst Z :=
  begin_op ;;;
  let! r := Fs.namei rd cwd old in
  match r with
  | None =>
      end_op ;;;
      ret (-1)
  | Some ip =>
      Fs.ilock (Some ip) ;;;
      let! x := Fs.iat ip in
      if Fs.type x =? Fs.T_DIR then
        Fs.iunlockput (Some ip) ;;;
        end_op ;;;
        ret (-1)
      else
        add_nlink ip 1 ;;;
        Fs.iupdate ip ;;;
        Fs.iunlock (Some ip) ;;;
        let! r := Fs.nameiparent rd cwd new in
        match r with
        | None => link_bad ip
        | Some (dp, name) =>
            Fs.ilock (Some dp) ;;;
            let! d := Fs.iat dp in
            let! x := Fs.iat ip in
            let! r := (if negb (Fs.idev d =? Fs.idev x) then ret (-1)
                       else Fs.dirlink rd wr dp name (Fs.inum x)) in
            if r <? 0 then
              Fs.iunlockput (Some dp) ;;;
              link_bad ip
            else
              Fs.iunlockput (Some dp) ;;;
              Fs.iput ip ;;;
              end_op ;;;
              ret 0
        end
  end.

Definition sys_link : K Z :=
  let! a := argstr 0 in
  match a with
  | None => ret (-1)
  | Some old =>
      let! b := argstr 1 in
      match b with
      | None => ret (-1)
      | Some new =>
          let! c := cwd in
          onfs (link c old new)
      end
  end.

Definition isdirempty_body (dp : nat) (off : Z) : M Fs.fst (Z + bool) :=
  let! x := Fs.iat dp in
  if u32 off <? Fs.isize x then
    let! (r, de) := Fs.readi rd dp (u32 off) Fs.de_size in
    if negb (r =? Fs.de_size) then panic "isdirempty: readi"
    else if negb (Fs.de_inum de =? 0) then ret (inr false)
    else ret (inl (i32 (off + Fs.de_size)))
  else ret (inr true).

Definition isdirempty (dp : nat) : M Fs.fst bool :=
  let! x := Fs.iat dp in
  loop (S (Z.to_nat (Fs.isize x / Fs.de_size + 1))) (isdirempty_body dp) (2 * Fs.de_size).

Definition unlink_bad (dp : nat) : M Fs.fst Z :=
  Fs.iunlockput (Some dp) ;;;
  end_op ;;;
  ret (-1).

Definition dot : list Z := [46].
Definition dotdot : list Z := [46; 46].

Definition unlink (cwd : nat) (path : list Z) : M Fs.fst Z :=
  begin_op ;;;
  let! r := Fs.nameiparent rd cwd path in
  match r with
  | None =>
      end_op ;;;
      ret (-1)
  | Some (dp, name) =>
      Fs.ilock (Some dp) ;;;
      if (Fs.namecmp name dot =? 0) || (Fs.namecmp name dotdot =? 0) then unlink_bad dp
      else
        let! r := Fs.dirlookup rd dp name in
        match r with
        | None => unlink_bad dp
        | Some (ip, off) =>
            Fs.ilock (Some ip) ;;;
            let! x := Fs.iat ip in
            if Fs.nlink x <? 1 then panic "unlink: nlink < 1"
            else
              let! busy := (if Fs.type x =? Fs.T_DIR then
                              let! e := isdirempty ip in ret (negb e)
                            else ret false) in
              if busy then
                Fs.iunlockput (Some ip) ;;;
                unlink_bad dp
              else
                let! r := Fs.writei wr dp (replicate 16 0) off Fs.de_size in
                if negb (r =? Fs.de_size) then panic "unlink: writei"
                else
                  let! x := Fs.iat ip in
                  (if Fs.type x =? Fs.T_DIR then
                     add_nlink dp (-1) ;;;
                     Fs.iupdate dp
                   else ret tt) ;;;
                  Fs.iunlockput (Some dp) ;;;
                  add_nlink ip (-1) ;;;
                  Fs.iupdate ip ;;;
                  Fs.iunlockput (Some ip) ;;;
                  end_op ;;;
                  ret 0
        end
  end.

Definition sys_unlink : K Z :=
  let! a := argstr 0 in
  match a with
  | None => ret (-1)
  | Some path =>
      let! c := cwd in
      onfs (unlink c path)
  end.

(** The inode made or found, locked; [ialloc] does not return null. *)
Definition create (cwd : nat) (path : list Z) (ty mj mn : Z) : M Fs.fst (option nat) :=
  let! r := Fs.nameiparent rd cwd path in
  match r with
  | None => ret None
  | Some (dp, name) =>
      Fs.ilock (Some dp) ;;;
      let! r := Fs.dirlookup rd dp name in
      match r with
      | Some (ip, _) =>
          Fs.iunlockput (Some dp) ;;;
          Fs.ilock (Some ip) ;;;
          let! x := Fs.iat ip in
          if (ty =? Fs.T_FILE) && (Fs.type x =? Fs.T_FILE) then ret (Some ip)
          else
            Fs.iunlockput (Some ip) ;;;
            ret None
      | None =>
          let! d := Fs.iat dp in
          let! ip := Fs.ialloc (Fs.idev d) ty in
          Fs.ilock (Some ip) ;;;
          Fs.iupd ip (Fs.set_dev mj mn) ;;;
          Fs.iupd ip (Fs.set_nlink 1) ;;;
          Fs.iupdate ip ;;;
          (if ty =? Fs.T_DIR then
             add_nlink dp 1 ;;;
             Fs.iupdate dp ;;;
             let! x := Fs.iat ip in
             let! r1 := Fs.dirlink rd wr ip dot (Fs.inum x) in
             if r1 <? 0 then panic "create dots"
             else
               let! d := Fs.iat dp in
               let! r2 := Fs.dirlink rd wr ip dotdot (Fs.inum d) in
               if r2 <? 0 then panic "create dots" else ret tt
           else ret tt) ;;;
          let! x := Fs.iat ip in
          let! r := Fs.dirlink rd wr dp name (Fs.inum x) in
          if r <? 0 then panic "create: dirlink"
          else
            Fs.iunlockput (Some dp) ;;;
            ret (Some ip)
      end
  end.

(** The inode [open] opens, locked, inside the transaction; without one the
    transaction is ended. *)
Definition open_inode (cwd : nat) (path : list Z) (omode : Z) : M Fs.fst (option nat) :=
  begin_op ;;;
  if negb (Z.land omode O_CREATE =? 0) then
    let! r := create cwd path Fs.T_FILE 0 0 in
    match r with
    | None =>
        end_op ;;;
        ret None
    | Some ip => ret (Some ip)
    end
  else
    let! r := Fs.namei rd cwd path in
    match r with
    | None =>
        end_op ;;;
        ret None
    | Some ip =>
        Fs.ilock (Some ip) ;;;
        let! x := Fs.iat ip in
        if (Fs.type x =? Fs.T_DIR) && negb (omode =? O_RDONLY) then
          Fs.iunlockput (Some ip) ;;;
          end_op ;;;
          ret None
        else ret (Some ip)
    end.

Definition open_fail (ip : nat) : K Z :=
  onfs (Fs.iunlockput (Some ip)) ;;;
  onfs end_op ;;;
  ret (-1).

Definition sys_open : K Z :=
  let! a := argstr 0 in
  match a with
  | None => ret (-1)
  | Some path =>
      let! b := Syscall.argint 1 in
      match b with
      | None => ret (-1)
      | Some omode =>
          let! c := cwd in
          let! r := onfs (open_inode c path omode) in
          match r with
          | None => ret (-1)
          | Some ip =>
              let! r := svc filealloc in
              match r with
              | None => open_fail ip
              | Some f =>
                  let! fd := fdalloc f in
                  if fd <? 0 then
                    svc (fileclose kend f) ;;;
                    open_fail ip
                  else
                    onfs (Fs.iunlock (Some ip)) ;;;
                    onfs end_op ;;;
                    svc (fupd f (set_ftyp FD_INODE)) ;;;
                    svc (fupd f (set_fip ip)) ;;;
                    svc (fupd f (set_foff 0)) ;;;
                    svc (fupd f (set_modes (Z.land omode O_WRONLY =? 0)
                           (negb (Z.land omode O_WRONLY =? 0) || negb (Z.land omode O_RDWR =? 0)))) ;;;
                    ret fd
              end
          end
      end
  end.

(** What [mkdir] and [mknod] do with the inode made. *)
Definition made (r : option nat) : M Fs.fst Z :=
  match r with
  | None =>
      end_op ;;;
      ret (-1)
  | Some ip =>
      Fs.iunlockput (Some ip) ;;;
      end_op ;;;
      ret 0
  end.

Definition sys_mkdir : K Z :=
  onfs begin_op ;;;
  let! a := argstr 0 in
  match a with
  | None => onfs (made None)
  | Some path =>
      let! c := cwd in
      onfs (let! r := create c path Fs.T_DIR 0 0 in made r)
  end.

(** [major] and [minor] are passed as [short]. *)
Definition sys_mknod : K Z :=
  onfs begin_op ;;;
  let! a := argstr 0 in
  let! b := (match a with Some _ => Syscall.argint 1 | None => ret None end) in
  let! c := (match b with Some _ => Syscall.argint 2 | None => ret None end) in
  match a, b, c with
  | Some path, Some mj, Some mn =>
      let! d := cwd in
      onfs (let! r := create d path Fs.T_DEV (Fs.i16 mj) (Fs.i16 mn) in made r)
  | _, _, _ => onfs (made None)
  end.

(** The directory to change to; the old one is put inside the transaction. *)
Definition chdir (old : nat) (path : list Z) : M Fs.fst (option nat) :=
  let! r := Fs.namei rd old path in
  match r with
  | None =>
      end_op ;;;
      ret None
  | Some ip =>
      Fs.ilock (Some ip) ;;;
      let! x := Fs.iat ip in
      if negb (Fs.type x =? Fs.T_DIR) then
        Fs.iunlockput (Some ip) ;;;
        end_op ;;;
        ret None
      else
        Fs.iunlock (Some ip) ;;;
        Fs.iput old ;;;
        end_op ;;;
        ret (Some ip)
  end.

Definition sys_chdir : K Z :=
  let! me := Proc.myproc_ in
  onfs begin_op ;;;
  let! a := argstr 0 in
  match a with
  | None =>
      onfs end_op ;;;
      ret (-1)
  | Some path =>
      let! c := cwd in
      let! r := onfs (chdir c path) in
      match r with
      | None => ret (-1)
      | Some ip =>
          Proc.upd me (Proc.set_cwd (ptr ip)) ;;;
          ret 0
      end
  end.

(** The loop over the argument vector: the strings, or nothing when a pointer
    is bad or there are too many. *)
Fixpoint fetch_args (fuel : nat) (uargv i : Z) : K (option (list (list Z))) :=
  match fuel with
  | O => fun _ => NoFuel
  | S fuel' =>
      if i >=? MAXARG then ret None
      else
        let! r := Syscall.fetchint (u32 (uargv + 4 * i)) in
        match r with
        | None => ret None
        | Some uarg =>
            if u32 uarg =? 0 then ret (Some [])
            else
              let! s := Syscall.fetchstr (u32 uarg) in
              match s with
              | None => ret None
              | Some (a, len) =>
                  let! l := user_str a len in
                  let! rest := fetch_args fuel' uargv (i + 1) in
                  ret (option_map (cons l) rest)
              end
        end
  end.

Definition sys_exec (exec : list Z -> list (list Z) -> K Z) : K Z :=
  let! a := argstr 0 in
  match a with
  | None => ret (-1)
  | Some path =>
      let! b := Syscall.argint 1 in
      match b with
      | None => ret (-1)
      | Some uargv =>
          let! r := fetch_args (S (Z.to_nat MAXARG)) (u32 uargv) 0 in
          match r with
          | None => ret (-1)
          | Some argv => exec path argv
          end
      end
  end.

Definition sys_pipe : K Z :=
  let! a := Syscall.argptr 0 8 in
  match a with
  | None => ret (-1)
  | Some fd =>
      let! r := svc (pipealloc kend) in
      match r with
      | None => ret (-1)
      | Some (rf, wf) =>
          let! fd0 := fdalloc rf in
          let! fd1 := (if fd0 <? 0 then ret (-1) else fdalloc wf) in
          if (fd0 <? 0) || (fd1 <? 0) then
            (if fd0 >=? 0 then
               let! me := Proc.myproc_ in set_fd me (Z.to_nat fd0) 0
             else ret tt) ;;;
            svc (fileclose kend rf) ;;;
            svc (fileclose kend wf) ;;;
            ret (-1)
          else
            put_user fd (le32 fd0) ;;;
            put_user (fd + 4) (le32 fd1) ;;;
            ret 0
      end
  end.

End Calls.
End Sysfile.
