(* ===== verification/Exec.v ===== *)
(** * Running a program

    [exec.c]: reading an ELF image through the file system into a fresh
    address space, building the user stack and replacing the image of the
    process.  The strings of the argument vector are handed over as lists of
    bytes; what the process sees of the new address space when it is switched
    to is read through its page table. *)

From S2P Require Import Prelude Locks Kalloc Vm Proc Syscall Pipe Fs File Sysfile.

Module Exec.
Import File Sysfile.

Definition ELF_MAGIC : Z := 1179403647.
Definition ELF_PROG_LOAD : Z := 1.

Definition rd16 (l : list Z) (i : nat) : Z := nth i l 0 + 256 * nth (i + 1) l 0.
Definition rd32 (l : list Z) (i : nat) : Z := rd16 l i + 65536 * rd16 l (i + 2).

(** The fields of [struct elfhdr] and [struct proghdr] that are used, by
    their offset. *)
Definition eh_magic (h : list Z) : Z := rd32 h 0.
Definition eh_entry (h : list Z) : Z := rd32 h 24.
Definition eh_phoff (h : list Z) : Z := rd32 h 28.
Definition eh_phnum (h : list Z) : Z := rd16 h 44.
Definition elfhdr_size : Z := 52.
Definition ph_type (h : list Z) : Z := rd32 h 0.
Definition ph_off (h : list Z) : Z := rd32 h 4.
Definition ph_vaddr (h : list Z) : Z := rd32 h 8.
Definition ph_filesz (h : list Z) : Z := rd32 h 16.
Definition ph_memsz (h : list Z) : Z := rd32 h 20.
Definition proghdr_size : Z := 32.

(** What the hardware shows of the memory [m] under a page directory. *)
Definition user_view (m : mem) (pgdir : Z) : mem := fun va =>
  let e := ld32 m (pgdir + 4 * Vm.PDX va) in
  if Vm.has e Vm.PTE_P then
    let e := ld32 m (Kalloc.P2V (Vm.PTE_ADDR e) + 4 * Vm.PTX va) in
    if Vm.has e Vm.PTE_P && Vm.has e Vm.PTE_U then m (Kalloc.P2V (Vm.PTE_ADDR e) + va mod 4096) else 0
  else 0.

Section Exec.
(** The linker's [end] and [data], and the device table. *)
Context (kend data : Z).
Context (rd : Z -> option (nat -> Z -> M Fs.fst (Z * list Z))).

Definition vm {A} (m : M Vm.vm A) : K A := svc (on_mm m).

(** [readi] into the kernel's memory. *)
Definition readi_to (ip : nat) (dst off n : Z) : K Z :=
  let! (r, bytes) := onfs (Fs.readi rd ip off n) in
  vm (Vm.on_ram (fun m => store m dst bytes)) ;;;
  ret r.

(** One program header; [inr] leaves the loop with the size of the image, or
    with nothing for [goto bad]. *)
Definition segment (pgdir : Z) (ip : nat) (phnum : Z) (st : Z * Z * Z) : K (Z * Z * Z + option Z) :=
  let '(i, off, sz) := st in
  if i <? phnum then
    let! (r, ph) := onfs (Fs.readi rd ip (u32 off) proghdr_size) in
    let next sz := ret (inl (i + 1, i32 (off + proghdr_size), sz)) in
    if negb (r =? proghdr_size) then ret (inr None)
    else if negb (ph_type ph =? ELF_PROG_LOAD) then next sz
    else if ph_memsz ph <? ph_filesz ph then ret (inr None)
    else if u32 (ph_vaddr ph + ph_memsz ph) <? ph_vaddr ph then ret (inr None)
    else
      let! sz := vm (Vm.allocuvm kend pgdir sz (u32 (ph_vaddr ph + ph_memsz ph))) in
      if sz =? 0 then ret (inr None)
      else if negb (ph_vaddr ph mod Kalloc.PGSIZE =? 0) then ret (inr None)
      else
        let! r := Vm.loaduvm (fun _ => vm) (readi_to ip) pgdir (ph_vaddr ph) (ph_off ph) (ph_filesz ph) in
        if r <? 0 then ret (inr None) else next sz
  else ret (inr (Some sz)).

(** What follows [bad]. *)
Definition bad (pgdir : Z) (ip : option nat) : K Z :=
  (if negb (pgdir =? 0) then vm (Vm.freevm kend pgdir) else ret tt) ;;;
  (match ip with
   | Some ip =>
       onfs (Fs.iunlockput (Some ip)) ;;;
       onfs end_op
   | None => ret tt
   end) ;;;
  ret (-1).

(** [copyout] of bytes that are not in the kernel's memory. *)
Definition copyout (pgdir va : Z) (bytes : list Z) : K Z :=
  vm (Vm.copyout_from
        (fun d p n => Vm.on_ram (fun m => store m d (take (Z.to_nat n) (drop (Z.to_nat p) bytes))))
        pgdir va 0 (Z.of_nat (length bytes))).

(** The argument strings, pushed from the top: the stack pointer and the
    pointers to the strings, or nothing for [goto bad]. *)
Fixpoint push_args (pgdir argc sp : Z) (argv : list (list Z)) : K (option (Z * list Z)) :=
  match argv with
  | [] => ret (Some (sp, []))
  | s :: argv' =>
      if argc >=? MAXARG then ret None
      else
        let sp := Z.ldiff (u32 (sp - (Z.of_nat (length s) + 1))) 3 in
        let! r := copyout pgdir sp (s ++ [0]) in
        if r <? 0 then ret None
        else
          let! q := push_args pgdir (argc + 1) sp argv' in
          ret (match q with Some (sp', l) => Some (sp', sp :: l) | None => None end)
  end.

(** The name after the last slash. *)
Fixpoint last_elem (last s : list Z) : list Z :=
  match s with
  | [] => last
  | c :: s' => last_elem (if c =? Fs.slash then s' else last) s'
  end.

(** The stack of the new image: its stack pointer, or nothing. *)
Definition build_stack (pgdir sz : Z) (argv : list (list Z)) : K (option Z) :=
  let! q := push_args pgdir 0 sz argv in
  match q with
  | None => ret None
  | Some (sp, ptrs) =>
      let argc := Z.of_nat (length argv) in
      let ustack := [4294967295; argc; u32 (sp - (argc + 1) * 4)] ++ ptrs ++ [0] in
      let sp := u32 (sp - (3 + argc + 1) * 4) in
      let! r := copyout pgdir sp (concat (le32 <$> ustack)) in
      ret (if r <? 0 then None else Some sp)
  end.

(** Commit to the new image; [switchuvm] is that of [Proc]. *)
Definition commit_image (me : nat) (path : list Z) (pgdir sz entry sp : Z) : K Z :=
  Proc.upd me (Proc.set_name (take 15 (last_elem path path))) ;;;
  let! p := Proc.proc_at me in
  let oldpgdir := Proc.pgdir p in
  Proc.upd me (Proc.set_pgdir pgdir) ;;;
  Proc.upd me (Proc.set_sz sz) ;;;
  Proc.upd me (fun p =>
    let t := Proc.tf p in
    Proc.set_tf
      {| Proc.tf_eax := Proc.tf_eax t; Proc.tf_eip := entry; Proc.tf_esp := sp;
         Proc.tf_eflags := Proc.tf_eflags t; Proc.tf_cs := Proc.tf_cs t; Proc.tf_ds := Proc.tf_ds t;
         Proc.tf_es := Proc.tf_es t; Proc.tf_ss := Proc.tf_ss t; Proc.tf_others := Proc.tf_others t |} p) ;;;
  Proc.switchuvm me ;;;
  modify (fun s => Proc.with_umem (user_view (Kalloc.ram (Vm.km (mm (Proc.rest s)))) pgdir) s) ;;;
  vm (Vm.freevm kend oldpgdir) ;;;
  ret 0.

Definition exec (path : list Z) (argv : list (list Z)) : K Z :=
  let! me := Proc.myproc_ in
  onfs begin_op ;;;
  let! c := cwd in
  let! r := onfs (Fs.namei rd c path) in
  match r with
  | None =>
      onfs end_op ;;;
      Proc.cprintf [Proc.OStr "exec: fail"; Proc.OBytes [10]] ;;;
      ret (-1)
  | Some ip =>
      onfs (Fs.ilock (Some ip)) ;;;
      let! (r, elf) := onfs (Fs.readi rd ip 0 elfhdr_size) in
      if negb (r =? elfhdr_size) then bad 0 (Some ip)
      else if negb (eh_magic elf =? ELF_MAGIC) then bad 0 (Some ip)
      else
        let! pgdir := vm (Vm.setupkvm kend data) in
        if pgdir =? 0 then bad 0 (Some ip)
        else
          let! r := loop (S (Z.to_nat (eh_phnum elf))) (segment pgdir ip (eh_phnum elf))
                      (0, i32 (eh_phoff elf), 0) in
          match r with
          | None => bad pgdir (Some ip)
          | Some sz =>
              onfs (Fs.iunlockput (Some ip)) ;;;
              onfs end_op ;;;
              let sz := Kalloc.PGROUNDUP sz in
              let! sz := vm (Vm.allocuvm kend pgdir sz (u32 (sz + 2 * Kalloc.PGSIZE))) in
              if sz =? 0 then bad pgdir None
              else
                vm (Vm.clearpteu pgdir (u32 (sz - 2 * Kalloc.PGSIZE))) ;;;
                let! r := build_stack pgdir sz argv in
                match r with
                | None => bad pgdir None
                | Some sp => commit_image me path pgdir sz (eh_entry elf) sp
                end
          end
  end.

End Exec.

(** The file calls of the table [syscalls] of [syscall.c]. *)
Definition file_call (kend data : Z)
    (rd : Z -> option (nat -> Z -> M Fs.fst (Z * list Z))) (wr : Z -> option (nat -> list Z -> M Fs.fst Z))
    (env : list Pipe.event) (num : Z) : option (K Z) :=
  match num with
  | 4 => Some (sys_pipe kend)
  | 5 => Some (sys_read rd env)
  | 7 => Some (sys_exec (exec kend data rd))
  | 8 => Some sys_fstat
  | 9 => Some (sys_chdir rd)
  | 10 => Some sys_dup
  | 15 => Some (sys_open kend rd wr)
  | 16 => Some (sys_write wr env)
  | 17 => Some (sys_mknod rd wr)
  | 18 => Some (sys_unlink rd wr)
  | 19 => Some (sys_link rd wr)
  | 20 => Some (sys_mkdir rd wr)
  | 21 => Some (sys_close kend)
  | _ => None
  end.

End Exec.
