(* ===== verification/SysfileFacts.v ===== *)
(** * The file system calls keep the books

    Between system calls every reference to an inode is an open file's or a
    working directory, every reference to an open file is a descriptor's, and
    no inode is locked.  Each call of [sysfile.c] keeps this, whichever of its
    paths it takes. *)

From S2P Require Import Prelude Locks Kalloc Vm Proc Syscall Pipe Bio Log LogFacts Fs FsTx FsRefs File FileFacts Sysfile Exec.
Import Fs File Sysfile.

(** Step over the first statement of the run [R] of file system code, under
    the ledger [H]. *)
Ltac owned :=
  cbn beta;
  match goal with
  | Ho : forall j, 0 <= ?o j |- context [one ?i ?i] =>
      let H := fresh in pose proof (Ho i) as H; unfold one; repeat case_decide; try congruence; lia
  end.
Ltac lstep H R :=
  let a := fresh "a" in let s' := fresh "s" in let R' := fresh "R" in
  apply bind_ret_inv in R as (a & s' & R' & R);
  match type of R' with
  | ilock (Some _) _ = _ => destruct a; apply (ilock_ledger _ _ _ _ _ _ _ H) in R' as [_ R']; clear H; rename R' into H
  | iunlock (Some _) _ = _ => destruct a; apply (iunlock_ledger _ _ _ _ _ _ _ H) in R' as [_ R']; clear H; rename R' into H
  | iput _ _ = _ => destruct a; apply (iput_ledger _ _ _ _ _ _ _ H) in R' as [_ R']; [clear H; rename R' into H|owned]
  | iunlockput (Some _) _ = _ =>
      destruct a; apply (iunlockput_ledger _ _ _ _ _ _ _ H) in R' as [_ R']; [clear H; rename R' into H|owned]
  | ?m _ = _ =>
      let Hq := fresh "Hq" in
      assert (Hq : quiet m) by (unfold add_nlink; quiet);
      apply (ledger_quiet _ _ _ _ _ _ _ _ Hq H) in R'; clear Hq H; rename R' into H
  end.
(** The two accounts agree. *)
Ltac balanced H := refine (ledger_ext _ _ _ _ _ _ _ H _ _); intros; cbn beta; lia.

(** ... so that [H] can be read with the accounts [o] and [l]. *)
Ltac restate H o l :=
  match type of H with
  | ledger ?b ?n _ _ ?s =>
      let H' := fresh in
      assert (H' : ledger b n o l s) by (balanced H); clear H; rename H' into H
  end.

Lemma quiet_add_nlink ip d : quiet (add_nlink ip d).
Proof. unfold add_nlink. quiet. Qed.
#[export] Hint Resolve quiet_add_nlink : quiet.

Section Inodes.
Context (base : nat -> Z) (name : nat -> Z * Z).
Context (rd : Z -> option (nat -> Z -> M fst (Z * list Z))) (wr : Z -> option (nat -> list Z -> M fst Z)).
Hypothesis Hdrv : drivers_quiet rd wr.
Let led := (ledger base name).
Implicit Types (o l : nat -> Z) (s : fst).

Lemma quiet_isdirempty dp : quiet (isdirempty rd dp).
Proof. unfold isdirempty, isdirempty_body. quiet. Qed.
Hint Resolve quiet_isdirempty : quiet.

Lemma link_bad_ledger o l ip s r s' :
  led (fun j => o j + one ip j) l s -> (forall j, 0 <= o j) -> link_bad ip s = Ret r s' -> led o l s'.
Proof.
  intros H Ho R. unfold link_bad in R. do 5 lstep H R. injection R as <- <-. balanced H.
Qed.

Lemma link_ledger o l cwd old new s r s' :
  led o l s -> 0 < base cwd + o cwd -> link rd wr cwd old new s = Ret r s' -> led o l s'.
Proof.
  intros H Hc R. pose proof (ld_own _ _ _ _ _ H) as Ho. unfold link in R. lstep H R.
  apply bind_ret_inv in R as (q & s1 & R1 & R).
  apply (namei_ledger _ _ _ _ Hdrv _ _ _ _ _ _ _ H Hc) in R1. clear H. destruct q as [ip|].
  2:{ lstep R1 R. by injection R as <- <-. }
  do 2 lstep R1 R. destruct (type _ =? T_DIR).
  { do 2 lstep R1 R. injection R as <- <-. balanced R1. }
  do 3 lstep R1 R. restate R1 (fun j => o j + one ip j) l.
  apply bind_ret_inv in R as (q & t & R2 & R).
  apply (namex_ledger _ _ _ _ Hdrv _ _ _ _ _ _ _ _ R1) in R2; [|specialize (Ho cwd); unfold one; case_decide; lia].
  clear R1. destruct q as [[dp nm]|]; [|by eapply link_bad_ledger].
  do 3 lstep R2 R. apply bind_ret_inv in R as (v & u & R3 & R).
  assert (H3 : led (fun j => o j + one ip j + one dp j) (fun j => l j + one dp j) u).
  { destruct (negb _); [by injection R3 as _ <-|]. by eapply dirlink_ledger. }
  destruct (v <? 0).
  - lstep H3 R. restate H3 (fun j => o j + one ip j) l. by eapply link_bad_ledger.
  - do 3 lstep H3 R. injection R as <- <-. balanced H3.
Qed.

Lemma unlink_bad_ledger o l dp s r s' :
  led (fun j => o j + one dp j) (fun j => l j + one dp j) s -> (forall j, 0 <= o j) ->
  unlink_bad dp s = Ret r s' -> led o l s'.
Proof. intros H Ho R. unfold unlink_bad in R. do 2 lstep H R. injection R as <- <-. balanced H. Qed.

Lemma unlink_ledger o l cwd path s r s' :
  led o l s -> 0 < base cwd + o cwd -> unlink rd wr cwd path s = Ret r s' -> led o l s'.
Proof.
  intros H Hc R. pose proof (ld_own _ _ _ _ _ H) as Ho. unfold unlink in R. lstep H R.
  apply bind_ret_inv in R as (q & t & R1 & R).
  apply (namex_ledger _ _ _ _ Hdrv _ _ _ _ _ _ _ _ H Hc) in R1. clear H.
  destruct q as [[dp nm]|]; [|lstep R1 R; by injection R as <- <-].
  lstep R1 R. destruct (_ || _); [by eapply unlink_bad_ledger|].
  apply bind_ret_inv in R as (q & t2 & R2 & R). apply (dirlookup_ledger _ _ _ _ Hdrv _ _ _ _ _ _ _ R1) in R2. clear R1.
  destruct q as [[ip off]|]; [|by eapply unlink_bad_ledger].
  do 2 lstep R2 R. destruct (_ <? 1); [done|]. lstep R2 R. destruct a1.
  { lstep R2 R. restate R2 (fun j => o j + one dp j) (fun j => l j + one dp j). by eapply unlink_bad_ledger. }
  lstep R2 R. destruct (negb _); [done|]. do 7 lstep R2 R. injection R as <- <-. balanced R2.
Qed.

(** The inode [create] and [open] give back is referred to and locked. *)
Definition gives o l (r : option nat) : fst -> Prop :=
  match r with
  | Some ip => led (fun j => o j + one ip j) (fun j => l j + one ip j)
  | None => led o l
  end.

Lemma create_ledger o l cwd path ty mj mn s r s' :
  led o l s -> 0 < base cwd + o cwd -> create rd wr cwd path ty mj mn s = Ret r s' -> gives o l r s'.
Proof.
  intros H Hc R. pose proof (ld_own _ _ _ _ _ H) as Ho. unfold create in R.
  apply bind_ret_inv in R as (q & t & R1 & R).
  apply (namex_ledger _ _ _ _ Hdrv _ _ _ _ _ _ _ _ H Hc) in R1. clear H.
  destruct q as [[dp nm]|]; [|by injection R as <- <-].
  lstep R1 R. apply bind_ret_inv in R as (q & t2 & R2 & R).
  apply (dirlookup_ledger _ _ _ _ Hdrv _ _ _ _ _ _ _ R1) in R2. clear R1. destruct q as [[ip off]|].
  - do 3 lstep R2 R. destruct (_ && _); [injection R as <- <-; balanced R2|].
    lstep R2 R. injection R as <- <-. balanced R2.
  - lstep R2 R. apply bind_ret_inv in R as (ip & t3 & R3 & R). apply (ialloc_ledger _ _ _ _ _ _ _ _ _ R2) in R3. clear R2.
    do 4 lstep R3 R. apply bind_ret_inv in R as (u & t4 & R4 & R).
    assert (H4 : led (fun j => o j + one dp j + one ip j) (fun j => l j + one dp j + one ip j) t4).
    { destruct (ty =? T_DIR); [|by injection R4 as _ <-]. do 3 lstep R3 R4.
      apply bind_ret_inv in R4 as (v & t5 & R5 & R4). apply (dirlink_ledger _ _ _ _ Hdrv _ _ _ _ _ _ _ _ R3) in R5.
      destruct (v <? 0); [done|]. lstep R5 R4. apply bind_ret_inv in R4 as (v2 & t6 & R6 & R4).
      apply (dirlink_ledger _ _ _ _ Hdrv _ _ _ _ _ _ _ _ R5) in R6. destruct (v2 <? 0); [done|]. by injection R4 as _ <-. }
    lstep H4 R. apply bind_ret_inv in R as (v & t7 & R7 & R).
    apply (dirlink_ledger _ _ _ _ Hdrv _ _ _ _ _ _ _ _ H4) in R7. destruct (v <? 0); [done|].
    lstep R7 R. injection R as <- <-. balanced R7.
Qed.

Lemma open_inode_ledger o l cwd path om s r s' :
  led o l s -> 0 < base cwd + o cwd -> open_inode rd wr cwd path om s = Ret r s' -> gives o l r s'.
Proof.
  intros H Hc R. pose proof (ld_own _ _ _ _ _ H) as Ho. unfold open_inode in R. lstep H R. destruct (negb _).
  - apply bind_ret_inv in R as (q & t & R1 & R). apply (create_ledger _ _ _ _ _ _ _ _ _ _ H Hc) in R1.
    destruct q as [ip|]; [by injection R as <- <-|]. cbn in R1. lstep R1 R. by injection R as <- <-.
  - apply bind_ret_inv in R as (q & t & R1 & R). apply (namei_ledger _ _ _ _ Hdrv _ _ _ _ _ _ _ H Hc) in R1. clear H.
    destruct q as [ip|]; [|lstep R1 R; by injection R as <- <-].
    do 2 lstep R1 R. destruct (_ && _); [|by injection R as <- <-].
    do 2 lstep R1 R. injection R as <- <-. balanced R1.
Qed.

Lemma made_ledger o l q s r s' :
  gives o l q s -> (forall j, 0 <= o j) -> made q s = Ret r s' -> led o l s'.
Proof.
  intros H Ho R. destruct q as [ip|]; cbn in H.
  - do 2 lstep H R. injection R as <- <-. balanced H.
  - lstep H R. by injection R as <- <-.
Qed.

(** [chdir] exchanges a reference to the old directory for one to the new. *)
Lemma chdir_ledger o l old path s r s' :
  led o l s -> 0 < o old -> chdir rd old path s = Ret r s' ->
  match r with
  | Some ip => led (fun j => o j - one old j + one ip j) l s'
  | None => led o l s'
  end.
Proof.
  intros H Hc R. pose proof (ld_own _ _ _ _ _ H) as Ho. unfold chdir in R.
  apply bind_ret_inv in R as (q & t & R1 & R).
  apply (namei_ledger _ _ _ _ Hdrv _ _ _ _ _ _ _ H) in R1; [|pose proof (ld_base _ _ _ _ _ H old); lia].
  clear H. destruct q as [ip|]; [|lstep R1 R; by injection R as <- <-].
  do 2 lstep R1 R. destruct (negb _).
  - do 2 lstep R1 R. injection R as <- <-. balanced R1.
  - lstep R1 R. apply bind_ret_inv in R as (u & t2 & R2 & R). destruct u.
    apply (iput_ledger _ _ _ _ _ _ _ R1) in R2 as [_ R2]; [|specialize (Ho old); unfold one; case_decide; lia].
    lstep R2 R. injection R as <- <-. balanced R2.
Qed.

End Inodes.

(** ** Kernel state *)

(** Steps that touch neither the process table nor the open files. *)
Record elsewhere (s s' : Proc.kst kern) : Prop := {
  el_procs : Proc.procs s' = Proc.procs s; el_rest : Proc.rest s' = Proc.rest s; el_cur : Proc.cur s' = Proc.cur s }.
#[export] Instance elsewhere_refl : Reflexive elsewhere.
Proof. done. Qed.
#[export] Instance elsewhere_trans : Transitive elsewhere.
Proof. intros a b c [] []. split; congruence. Qed.

Definition away {A} (m : M (Proc.kst kern) A) : Prop := forall s a s', m s = Ret a s' -> elsewhere s s'.

Lemma away_ret {A} (a : A) : away (ret a).
Proof. intros s b s' [= _ <-]. reflexivity. Qed.
Lemma away_get : away get.
Proof. intros s b s' [= _ <-]. reflexivity. Qed.
Lemma away_gets {A} (f : Proc.kst kern -> A) : away (gets f).
Proof. intros s b s' [= _ <-]. reflexivity. Qed.
Lemma away_opt {A} (o : option A) : away (from_opt o).
Proof. destruct o; [apply away_ret|done]. Qed.
Lemma away_bind {A B} (m : M (Proc.kst kern) A) (k : A -> M _ B) : away m -> (forall a, away (k a)) -> away (bind m k).
Proof. intros Hm Hk s b s' (a & t & R1 & R2)%bind_ret_inv. etrans; [by eapply Hm|by eapply Hk]. Qed.
Lemma away_put a l : away (put_user a l).
Proof. by intros s b s' [= _ <-]. Qed.
Lemma away_myproc : away Proc.myproc_.
Proof.
  unfold Proc.myproc_, Proc.myproc. apply away_bind; [|intros; apply away_opt]. apply away_bind.
  - by intros s b s' [= _ <-].
  - intros _. apply away_bind.
    + intros s b s' R. unfold Proc.mycpu, bind, get in R. destruct (Cli.intr _); [done|]. by injection R as _ <-.
    + intros _. apply away_bind; [apply away_gets|]. intros p. apply away_bind; [|intros; apply away_ret].
      intros s b s' R. unfold Cli.popcli, bind, get, panic in R. destruct (Cli.intr _); [done|].
      destruct (_ <? 0); [done|]. by injection R as _ <-.
Qed.
Lemma away_proc_at i : away (Proc.proc_at i).
Proof. apply away_bind; [apply away_get|intros; apply away_opt]. Qed.

Create HintDb away.
#[export] Hint Resolve away_ret away_get away_gets away_opt away_bind away_put away_myproc away_proc_at : away.
#[export] Hint Extern 4 (away (match ?x with _ => _ end)) => destruct x : away.
Ltac away := intros; auto 40 with away.

Lemma away_fetchint a : away (Syscall.fetchint a).
Proof. unfold Syscall.fetchint. away. Qed.
Lemma away_fetchstr a : away (Syscall.fetchstr a).
Proof. unfold Syscall.fetchstr. away. Qed.
#[export] Hint Resolve away_fetchint away_fetchstr : away.
Lemma away_argint n : away (Syscall.argint n).
Proof. unfold Syscall.argint. away. Qed.
#[export] Hint Resolve away_argint : away.
Lemma away_argptr n z : away (Syscall.argptr n z).
Proof. unfold Syscall.argptr. away. Qed.
Lemma away_argstr n : away (argstr n).
Proof. unfold argstr, Syscall.argstr, user_str. away. Qed.
Lemma away_argfd n : away (argfd n).
Proof. unfold argfd. away. Qed.
#[export] Hint Resolve away_argptr away_argstr away_argfd : away.
Lemma away_rw_args : away rw_args.
Proof. unfold rw_args. away. Qed.
Lemma away_killed : away killed.
Proof. unfold killed. away. Qed.
Lemma away_cwd : away cwd.
Proof. unfold cwd. away. Qed.
Lemma away_user_str a n : away (user_str a n).
Proof. unfold user_str. away. Qed.
#[export] Hint Resolve away_rw_args away_killed away_cwd away_user_str : away.

Lemma myproc_cur (s : Proc.kst kern) me s' : Proc.myproc_ s = Ret me s' -> Proc.cur s = Some me.
Proof.
  intros (q & t & R & R2)%bind_ret_inv. unfold Proc.myproc in R.
  apply bind_ret_inv in R as (u & s1 & [= _ <-] & R). apply bind_ret_inv in R as (u2 & s2 & Rm & R).
  unfold Proc.mycpu, bind, get in Rm. destruct (Cli.intr _); [done|]. injection Rm as _ <-.
  apply bind_ret_inv in R as (p & s3 & [= <- <-] & R). apply bind_ret_inv in R as (u3 & s4 & Rp & [= <- <-]).
  cbn in R2. destruct (Proc.cur s); [|done]. by injection R2 as -> _.
Qed.

(** The running process. *)
Lemma me_inv (s : Proc.kst kern) me s' p s'' :
  Proc.myproc_ s = Ret me s' -> Proc.proc_at me s' = Ret p s'' ->
  elsewhere s s'' /\ Proc.cur s = Some me /\ Proc.procs s !! me = Some p.
Proof.
  intros R1 R2. pose proof (away_myproc _ _ _ R1) as E1. pose proof (away_proc_at _ _ _ _ R2) as E2.
  split; [by etrans|]. split; [by eapply myproc_cur|]. unfold Proc.proc_at, bind, get, from_opt in R2.
  rewrite (el_procs _ _ E1) in R2. destruct (Proc.procs s !! me); [|done]. by injection R2 as ->.
Qed.

(** ** The books *)

Definition is_ptr (i : nat) (p : Z) : Z := if p =? ptr i then 1 else 0.
(** The working directories in slot [j], and the descriptors of file [f]. *)
Definition cwd_uses (ps : list Proc.proc) (j : nat) : Z := total (fun p => is_ptr j (Proc.cwd p)) ps.
Definition fd_uses (ps : list Proc.proc) (f : nat) : Z := total (fun p => total (is_ptr f) (Proc.ofile p)) ps.

Definition proc_ok (p : Proc.proc) : Prop :=
  length (Proc.ofile p) = Proc.NOFILE /\ Forall (fun x => 0 <= x) (Proc.ofile p) /\ 0 <= Proc.cwd p.

(** The kernel between system calls; the running process, if any, has a
    working directory. *)
Record accounts (s : Proc.kst kern) : Prop := {
  ac_kernel : exists nm, kledger (cwd_uses (Proc.procs s)) (fd_uses (Proc.procs s)) nm none none none (Proc.rest s);
  ac_procs : Forall proc_ok (Proc.procs s);
  ac_running : forall me p, Proc.cur s = Some me -> Proc.procs s !! me = Some p -> 0 < Proc.cwd p }.

(** A call keeps the books, and a file that stays open stays with its inode. *)
Record keeps_books (s s' : Proc.kst kern) : Prop := {
  kb_accounts : accounts s';
  kb_inodes : forall j, 0 < file_uses (Proc.rest s) j -> 0 < file_uses (Proc.rest s') j ->
    key_at (fs (Proc.rest s')) j = key_at (fs (Proc.rest s)) j }.

Lemma is_ptr_nonneg i p : 0 <= is_ptr i p.
Proof. unfold is_ptr. case_match; lia. Qed.
Lemma cwd_uses_nonneg ps j : 0 <= cwd_uses ps j.
Proof. apply total_nonneg. intros. apply is_ptr_nonneg. Qed.
Lemma fd_uses_nonneg ps f : 0 <= fd_uses ps f.
Proof. apply total_nonneg. intros. apply total_nonneg. intros. apply is_ptr_nonneg. Qed.

Lemma is_ptr_one i p : 0 < p -> is_ptr i p = one (unptr p) i.
Proof. intros H. unfold is_ptr, ptr, unptr, one. case_decide; case_match; try done; bools; lia. Qed.
Lemma is_ptr_self f i : is_ptr i (ptr f) = one f i.
Proof. unfold is_ptr, ptr, one. case_decide; case_match; try done; bools; lia. Qed.
Lemma is_ptr_zero i : is_ptr i 0 = 0.
Proof. unfold is_ptr, ptr. case_match; bools; lia. Qed.

(** A descriptor of process [me] is set. *)
Lemma fd_uses_set ps me p fd x v f :
  ps !! me = Some p -> Proc.ofile p !! fd = Some x ->
  fd_uses (alter (fun p => Proc.set_ofile (<[fd := v]> (Proc.ofile p)) p) me ps) f =
    fd_uses ps f - is_ptr f x + is_ptr f v.
Proof.
  intros Hp Hx. unfold fd_uses. rewrite (sum_alter _ _ _ _ _ Hp). cbn. rewrite (total_insert _ _ _ _ v Hx). lia.
Qed.
Lemma cwd_uses_ofile ps me fd v j :
  cwd_uses (alter (fun p => Proc.set_ofile (<[fd := v]> (Proc.ofile p)) p) me ps) j = cwd_uses ps j.
Proof.
  unfold cwd_uses. destruct (ps !! me) as [p|] eqn:Hp; [rewrite (sum_alter _ _ _ _ _ Hp); cbn; lia|].
  f_equal. apply list_eq. intros i. destruct (decide (i = me)) as [->|]; [by rewrite list_lookup_alter_eq, Hp|by rewrite list_lookup_alter_ne].
Qed.
Lemma cwd_uses_chdir ps me p v j :
  ps !! me = Some p -> cwd_uses (alter (Proc.set_cwd v) me ps) j = cwd_uses ps j - is_ptr j (Proc.cwd p) + is_ptr j v.
Proof. intros Hp. unfold cwd_uses. rewrite (sum_alter _ _ _ _ _ Hp). cbn. lia. Qed.
Lemma fd_uses_chdir ps me v f : fd_uses (alter (Proc.set_cwd v) me ps) f = fd_uses ps f.
Proof.
  unfold fd_uses. destruct (ps !! me) as [p|] eqn:Hp; [rewrite (sum_alter _ _ _ _ _ Hp); cbn; lia|].
  f_equal. apply list_eq. intros i. destruct (decide (i = me)) as [->|]; [by rewrite list_lookup_alter_eq, Hp|by rewrite list_lookup_alter_ne].
Qed.

(** References change hands: the sums stay. *)
Lemma kledger_move ub fb nm o w ub' fb' o' w' l k :
  kledger ub fb nm o l w k -> (forall j, ub' j + o' j = ub j + o j) -> (forall f, fb' f + w' f = fb f + w f) ->
  (forall j, 0 <= ub' j /\ 0 <= o' j) -> (forall f, 0 <= fb' f /\ 0 <= w' f) ->
  exists nm', kledger ub' fb' nm' o' l w' k.
Proof.
  intros [[Hr Hl Ho Hb Hn Hu Hf] Hr2 Hu2 Hb2 Hw2 Hn2 Hl2] Ej Ef Pj Pf.
  exists (fun j => default (0, 0) (key_at (fs k) j)). split; try done.
  - split; try done.
    + intros j. rewrite Hr. unfold inode_base. specialize (Ej j). lia.
    + intros j. apply Pj.
    + intros j. unfold inode_base. pose proof (total_nonneg (inode_use j) (ftable k) (inode_use_nonneg j)).
      unfold file_uses. destruct (Pj j). lia.
    + intros j Hj. destruct (key_at (fs k) j) eqn:E; [done|]. unfold key_at in E. apply fmap_None in E.
      assert (refs (fs k) j = 0) by (unfold refs; by rewrite E). rewrite Hr in H. unfold inode_base in *.
      specialize (Ej j). destruct (Pj j). lia.
  - intros f. rewrite Hr2. specialize (Ef f). lia.
  - intros j. apply Pj.
  - intros f. apply Pf.
  - intros f. apply Pf.
Qed.

(** What a call that leaves the process table alone has to do. *)
Lemma books_same s s' :
  accounts s -> Proc.procs s' = Proc.procs s -> Proc.cur s' = Proc.cur s ->
  (forall nm, kledger (cwd_uses (Proc.procs s)) (fd_uses (Proc.procs s)) nm none none none (Proc.rest s) ->
    kledger (cwd_uses (Proc.procs s)) (fd_uses (Proc.procs s)) nm none none none (Proc.rest s')) ->
  keeps_books s s'.
Proof.
  intros [[nm Hk] Hp Hc] Ep Ec H. specialize (H nm Hk). split.
  - split; rewrite ?Ep, ?Ec; try done. by exists nm.
  - intros j Hj Hj'. rewrite (ld_name _ _ _ _ _ (kl_inodes _ _ _ _ _ _ _ H) j).
    + symmetry. apply (ld_name _ _ _ _ _ (kl_inodes _ _ _ _ _ _ _ Hk)). unfold inode_base.
      pose proof (cwd_uses_nonneg (Proc.procs s) j). lia.
    + unfold inode_base. pose proof (cwd_uses_nonneg (Proc.procs s) j). lia.
Qed.

Lemma svc_inv {A} (m : M kern A) s a s' :
  svc m s = Ret a s' -> exists k, m (Proc.rest s) = Ret a k /\ s' = Proc.with_rest k s.
Proof. unfold svc, Proc.svc, zoom. destruct (m _); try done. intros [= <- <-]. eauto. Qed.

Lemma elsewhere_books s s' : accounts s -> elsewhere s s' -> accounts s'.
Proof. intros [Hk Hp Hr] [Ep Er Ec]. split; rewrite ?Ep, ?Er, ?Ec; done. Qed.

(** ** Calls that keep the books *)

Definition bookkeeping {A} (m : M (Proc.kst kern) A) : Prop :=
  forall s v s', accounts s -> m s = Ret v s' -> keeps_books s s'.

Lemma keeps_pre s s1 s' : elsewhere s s1 -> keeps_books s1 s' -> keeps_books s s'.
Proof. intros [Ep Er Ec] [Ha Hi]. split; [done|]. intros j. rewrite <- Er. apply Hi. Qed.
Lemma keeps_post s s1 s' : keeps_books s s1 -> elsewhere s1 s' -> keeps_books s s'.
Proof. intros [Ha Hi] E. split; [by eapply elsewhere_books|]. intros j. rewrite (el_rest _ _ E). apply Hi. Qed.

Lemma bk_away {A} (m : M _ A) : away m -> bookkeeping m.
Proof.
  intros Hm s v s' H R. specialize (Hm _ _ _ R). split; [by eapply elsewhere_books|].
  intros j. by rewrite (el_rest _ _ Hm).
Qed.
Lemma bk_before {A B} (m : M _ A) (k : A -> M _ B) : away m -> (forall a, bookkeeping (k a)) -> bookkeeping (bind m k).
Proof.
  intros Hm Hk s v s' H (a & t & R1 & R2)%bind_ret_inv. apply Hm in R1.
  apply (keeps_pre _ _ _ R1), (Hk a t v); [by eapply elsewhere_books|done].
Qed.
Lemma bk_after {A B} (m : M _ A) (k : A -> M _ B) : bookkeeping m -> (forall a, away (k a)) -> bookkeeping (bind m k).
Proof.
  intros Hm Hk s v s' H (a & t & R1 & R2)%bind_ret_inv. apply (Hm _ _ _ H) in R1.
  by apply (keeps_post _ _ _ R1), (Hk a t v).
Qed.

(** Code of the files or of the file system that keeps the ledger. *)
Lemma bk_svc {A} (m : M kern A) :
  (forall ub fb nm k a k', kledger ub fb nm none none none k -> m k = Ret a k' -> kledger ub fb nm none none none k') ->
  bookkeeping (svc m).
Proof.
  intros Hm s v s' H (k & R & ->)%svc_inv. apply books_same; try done. intros nm Hk. by eapply Hm.
Qed.

(** A first step that only reads or writes blocks. *)
Lemma quiet_step {A} (m : M fst A) s a s1 :
  quiet m -> accounts s -> onfs m s = Ret a s1 ->
  accounts s1 /\ Proc.cur s1 = Proc.cur s /\ forall s', keeps_books s1 s' -> keeps_books s s'.
Proof.
  intros Hm H (t' & R1 & ->)%svc_inv.
  assert (H1 : keeps_books s (Proc.with_rest t' s)).
  { apply books_same; try done. intros nm Hl. by eapply kledger_quiet. }
  split; [apply H1|]. split; [done|]. intros s' [Ha Hi]. split; [done|]. intros j Hj Hj'.
  apply on_fs_inv in R1 as (f & Rf & ->). cbn [Proc.rest Proc.with_rest] in *. rewrite Hi; [|done|done].
  apply (still_at _ _ j (Hm _ _ _ Rf)).
Qed.
Lemma bk_quiet {A B} (m : M fst A) (k : A -> M _ B) :
  quiet m -> (forall a, bookkeeping (k a)) -> bookkeeping (bind (onfs m) k).
Proof.
  intros Hm Hk s v s' H (a & t & R1 & R2)%bind_ret_inv.
  destruct (quiet_step _ _ _ _ Hm H R1) as (H1 & _ & Hs). by apply Hs, (Hk a t v).
Qed.

(** The working directory is an inode referred to. *)
Lemma bk_cwd {A} (k : nat -> M _ A) :
  (forall c s v s', accounts s -> 0 < cwd_uses (Proc.procs s) c -> k c s = Ret v s' -> keeps_books s s') ->
  bookkeeping (let! c := cwd in k c).
Proof.
  intros Hk s v s' H (c & t & R1 & R2)%bind_ret_inv. pose proof (away_cwd _ _ _ R1) as E.
  apply (keeps_pre _ _ _ E), (Hk c t v); [by eapply elsewhere_books| |done].
  unfold cwd in R1. apply bind_ret_inv in R1 as (me & t1 & R1 & R3). apply bind_ret_inv in R3 as (p & t2 & R3 & [= <- <-]).
  destruct (me_inv _ _ _ _ _ R1 R3) as (_ & Hcur & Hp). rewrite (el_procs _ _ E).
  pose proof (ac_running _ H me p Hcur Hp) as Hpos. unfold cwd_uses.
  pose proof (total_ge (fun q => is_ptr (unptr (Proc.cwd p)) (Proc.cwd q)) _ _ _ ltac:(intros; apply is_ptr_nonneg) Hp) as Hge.
  cbn beta in Hge. rewrite is_ptr_one in Hge at 1 by done. unfold one in Hge. rewrite decide_True in Hge by done. lia.
Qed.

(** ... and so are its inodes to file system code. *)
Lemma bk_onfs {A} (m : M fst A) c s v s' :
  (forall base nm t t', ledger base nm none none t -> 0 < base c + none c -> m t = Ret v t' -> ledger base nm none none t') ->
  accounts s -> 0 < cwd_uses (Proc.procs s) c -> onfs m s = Ret v s' -> keeps_books s s'.
Proof.
  intros Hm H Hc (k & R & ->)%svc_inv. apply books_same; try done. intros nm Hk.
  apply (kledger_fs _ _ _ _ _ _ _ _ _ _ _ _ Hk R). intros t Ht Rt. apply (Hm _ _ _ _ Ht); [|done].
  unfold none, inode_base, file_uses. pose proof (total_nonneg (inode_use c) (ftable (Proc.rest s)) (inode_use_nonneg c)). lia.
Qed.

Create HintDb books.
#[export] Hint Resolve bk_before bk_after : books.
#[export] Hint Extern 1 (bookkeeping _) => solve [apply bk_away; away] : books.
#[export] Hint Extern 1 (away _) => solve [away] : books.
#[export] Hint Extern 4 (bookkeeping (match ?x with _ => _ end)) => destruct x : books.

Section Calls.
Context (kend : Z).
Context (rd : Z -> option (nat -> Z -> M fst (Z * list Z))) (wr : Z -> option (nat -> list Z -> M fst Z)).
Hypothesis Hdrv : drivers_quiet rd wr.

Lemma read_books env : bookkeeping (sys_read rd env).
Proof.
  apply bk_before; [away|]. intros [[[f n] p]|]; [|apply bk_away; away]. apply bk_before; [away|]. intros kl.
  apply bk_after; [|away]. apply bk_svc. intros. by eapply fileread_ledger.
Qed.

Lemma write_books env : bookkeeping (sys_write wr env).
Proof.
  apply bk_before; [away|]. intros [[[f n] p]|]; [|apply bk_away; away]. apply bk_before; [away|]. intros kl.
  apply bk_before; [away|]. intros src. apply bk_svc. intros. by eapply filewrite_ledger.
Qed.

Lemma fstat_books : bookkeeping sys_fstat.
Proof.
  apply bk_before; [away|]. intros [[fd f]|]; [|apply bk_away; away]. apply bk_before; [away|].
  intros [p|]; [|apply bk_away; away]. apply bk_after; [|away]. apply bk_svc. intros. by eapply filestat_ledger.
Qed.

Lemma link_books : bookkeeping (sys_link rd wr).
Proof.
  apply bk_before; [away|]. intros [old|]; [|apply bk_away; away]. apply bk_before; [away|].
  intros [new|]; [|apply bk_away; away]. apply bk_cwd. intros c s v s' H Hc R.
  eapply bk_onfs; try done. intros. by eapply link_ledger.
Qed.

Lemma unlink_books : bookkeeping (sys_unlink rd wr).
Proof.
  apply bk_before; [away|]. intros [path|]; [|apply bk_away; away]. apply bk_cwd. intros c s v s' H Hc R.
  eapply bk_onfs; try done. intros. by eapply unlink_ledger.
Qed.

Lemma made_books c path ty mj mn s v s' :
  accounts s -> 0 < cwd_uses (Proc.procs s) c ->
  onfs (let! r := create rd wr c path ty mj mn in made r) s = Ret v s' -> keeps_books s s'.
Proof.
  intros H Hc R. eapply bk_onfs; try done. intros base nm t t' Ht Hc' (r & t1 & R1 & R2)%bind_ret_inv.
  eapply made_ledger; [|apply Ht|done]. by eapply create_ledger.
Qed.
Lemma made_none : bookkeeping (onfs (made None)).
Proof. apply bk_svc. intros. eapply kledger_quiet; [|done..]. unfold made. quiet. Qed.

Lemma mkdir_books : bookkeeping (sys_mkdir rd wr).
Proof.
  apply bk_quiet; [quiet|]. intros _. apply bk_before; [away|]. intros [path|]; [|apply made_none].
  apply bk_cwd. intros. by eapply made_books.
Qed.

Lemma mknod_books : bookkeeping (sys_mknod rd wr).
Proof.
  apply bk_quiet; [quiet|]. intros _. apply bk_before; [away|]. intros a. apply bk_before; [away|]. intros b.
  apply bk_before; [away|]. intros c. destruct a, b, c; try apply made_none. apply bk_cwd. intros. by eapply made_books.
Qed.

(** *** Calls that change the descriptors *)

Lemma kl_key ub fb nm o l w k j :
  kledger ub fb nm o l w k -> 0 < file_uses k j -> key_at (fs k) j = Some (nm j).
Proof.
  intros H Hj. apply (ld_name _ _ _ _ _ (kl_inodes _ _ _ _ _ _ _ H)). unfold inode_base.
  pose proof (kl_ubase _ _ _ _ _ _ _ H j). lia.
Qed.

(** At the end what the call owns has its place in the process table. *)
Lemma books_close s s' ub fb nm o w :
  kledger ub fb nm o none w (Proc.rest s') ->
  (forall j, 0 < file_uses (Proc.rest s) j -> key_at (fs (Proc.rest s)) j = Some (nm j)) ->
  (forall j, cwd_uses (Proc.procs s') j = ub j + o j) -> (forall f, fd_uses (Proc.procs s') f = fb f + w f) ->
  Forall proc_ok (Proc.procs s') ->
  (forall me p, Proc.cur s' = Some me -> Proc.procs s' !! me = Some p -> 0 < Proc.cwd p) ->
  keeps_books s s'.
Proof.
  intros H Hn Hc Hf Hp Hr. split.
  - split; try done. eapply kledger_move; [exact H|..]; unfold none; intros i.
    + rewrite Hc. lia.
    + rewrite Hf. lia.
    + pose proof (cwd_uses_nonneg (Proc.procs s') i). lia.
    + pose proof (fd_uses_nonneg (Proc.procs s') i). lia.
  - intros j Hj Hj'. rewrite Hn by done. by apply (kl_key _ _ _ _ _ _ _ _ H).
Qed.

(** A call that leaves the processes alone and every reference where it was. *)
Lemma books_same_procs s s' nm : accounts s ->
  (forall j, 0 < file_uses (Proc.rest s) j -> key_at (fs (Proc.rest s)) j = Some (nm j)) ->
  kledger (cwd_uses (Proc.procs s)) (fd_uses (Proc.procs s)) nm none none none (Proc.rest s') ->
  Proc.procs s' = Proc.procs s -> Proc.cur s' = Proc.cur s -> keeps_books s s'.
Proof.
  intros H Hn Hk Ep Ec. eapply (books_close s _ _ _ nm none none); [exact Hk|exact Hn|..]; rewrite ?Ep, ?Ec.
  - intros j. unfold none. lia.
  - intros f. unfold none. lia.
  - apply H.
  - apply (ac_running _ H).
Qed.

Lemma proc_ok_set ps me fd v :
  Forall proc_ok ps -> 0 <= v -> Forall proc_ok (alter (fun p => Proc.set_ofile (<[fd := v]> (Proc.ofile p)) p) me ps).
Proof.
  intros H Hv. apply Forall_alter; [done|]. intros p Hp (H1 & H2 & H3). split; [cbn; by rewrite length_insert|].
  split; [by apply Forall_insert|done].
Qed.

Lemma running_set s (me : nat) ps g :
  accounts s -> ps = alter g me (Proc.procs s) -> (forall p, proc_ok p -> 0 < Proc.cwd p -> 0 < Proc.cwd (g p)) ->
  forall i p, Proc.cur s = Some i -> ps !! i = Some p -> 0 < Proc.cwd p.
Proof.
  intros H -> Hg i p Hi Hp. destruct (decide (i = me)) as [->|].
  - rewrite list_lookup_alter_eq in Hp. destruct (Proc.procs s !! me) as [q|] eqn:Hq; [|done]. injection Hp as <-.
    apply Hg; [|by eapply ac_running]. by eapply (Forall_lookup_1 _ _ me), Hq; apply H.
  - rewrite list_lookup_alter_ne in Hp by done. by eapply ac_running.
Qed.

Lemma argfd_inv s n fd f s' :
  accounts s -> argfd n s = Ret (Some (fd, f)) s' ->
  exists me p, Proc.cur s = Some me /\ Proc.procs s !! me = Some p /\ Proc.ofile p !! Z.to_nat fd = Some (ptr f).
Proof.
  intros H (r & s1 & R1 & R)%bind_ret_inv. pose proof (away_argint _ _ _ _ R1) as E1. destruct r as [d|]; [|done].
  destruct (_ || _) eqn:Eb; [done|]. bools. destruct Eb as [Eb1 Eb2].
  apply bind_ret_inv in R as (me & s2 & R2 & R). apply bind_ret_inv in R as (p & s3 & R3 & R).
  destruct (me_inv _ _ _ _ _ R2 R3) as (_ & Hcur & Hp). rewrite (el_procs _ _ E1) in Hp. rewrite (el_cur _ _ E1) in Hcur.
  cbv zeta in R. destruct (Z.eqb_spec (nth (Z.to_nat d) (Proc.ofile p) 0) 0) as [|Hne]; [done|]. injection R as <- <- _.
  exists me, p. split_and!; [done..|]. destruct (Forall_lookup_1 _ _ _ _ (ac_procs _ H) Hp) as (Hlen & Hpos & _).
  unfold Proc.NOFILE in *. destruct (lookup_lt_is_Some_2 (Proc.ofile p) (Z.to_nat d)) as [x Hx]; [lia|].
  rewrite (nth_lookup_Some _ _ 0 _ Hx) in *. rewrite Hx. f_equal.
  pose proof (Forall_lookup_1 _ _ _ _ Hpos Hx) as Hx0. cbn in Hx0. unfold ptr, unptr. lia.
Qed.

Lemma fdalloc_inv s f fd s' :
  fdalloc f s = Ret fd s' ->
  (fd = -1 /\ elsewhere s s') \/
  (0 <= fd /\ exists me p, Proc.cur s = Some me /\ Proc.procs s !! me = Some p /\ Proc.ofile p !! Z.to_nat fd = Some 0 /\
    Proc.procs s' = alter (fun p => Proc.set_ofile (<[Z.to_nat fd := ptr f]> (Proc.ofile p)) p) me (Proc.procs s) /\
    Proc.rest s' = Proc.rest s /\ Proc.cur s' = Proc.cur s).
Proof.
  intros (me & s1 & R1 & R)%bind_ret_inv. apply bind_ret_inv in R as (p & s2 & R2 & R).
  destruct (me_inv _ _ _ _ _ R1 R2) as ([Ep Er Ec] & Hcur & Hp).
  destruct (find_idx _ _) as [i|] eqn:E; [right|left; by injection R as <- <-].
  apply bind_ret_inv in R as (u & s3 & [= _ <-] & [= <- <-]). split; [lia|]. exists me, p.
  apply find_idx_Some in E as (x & Hx & H0 & _). bools. subst x. apply lookup_take_Some in Hx as [Hx _].
  rewrite Nat2Z.id. split_and!; try done. cbn. by rewrite Ep.
Qed.

Lemma dup_books : bookkeeping sys_dup.
Proof.
  intros s v s' H (a & s1 & R1 & R)%bind_ret_inv. pose proof (away_argfd _ _ _ _ R1) as E1.
  apply (keeps_pre _ _ _ E1). apply (elsewhere_books _ _ H) in E1. clear s H R1. rename s1 into s, E1 into H.
  destruct a as [[fd f]|]; [|by apply (bk_away _ (away_ret _) s v s' H R)].
  apply bind_ret_inv in R as (d & s1 & R1 & R). apply fdalloc_inv in R1 as [[-> E]|(Hd & me & p & Hcur & Hp & Hz & Ep & Er & Ec)].
  { injection R as <- <-. apply (keeps_pre _ _ _ E), (bk_away (ret tt) (away_ret _) _ tt); [by eapply elsewhere_books|done]. }
  rewrite (proj2 (Z.ltb_ge _ _) Hd) in R. apply bind_ret_inv in R as (r & s2 & R2 & [= <- <-]).
  apply svc_inv in R2 as (k & R2 & ->). rewrite Er in R2. destruct (ac_kernel _ H) as [nm Hk].
  pose proof (filedup_ledger _ _ _ _ _ _ _ _ _ _ Hk R2) as [_ Hk2].
  eapply (books_close s _ _ _ nm none); [exact Hk2|..].
  - intros j. by apply (kl_key _ _ _ _ _ _ _ _ Hk).
  - intros j. cbn [Proc.procs Proc.with_rest]. rewrite Ep, cwd_uses_ofile. unfold none. lia.
  - intros g. cbn [Proc.procs Proc.with_rest]. rewrite Ep, (fd_uses_set _ _ _ _ _ _ _ Hp Hz), is_ptr_zero, is_ptr_self. unfold none. lia.
  - cbn [Proc.procs Proc.with_rest]. rewrite Ep. apply proc_ok_set; [apply H|unfold ptr; lia].
  - cbn [Proc.procs Proc.with_rest Proc.cur]. rewrite Ec. intros i q Hi. by apply (running_set s me _ _ H Ep).
Qed.

Lemma close_books : bookkeeping (sys_close kend).
Proof.
  intros s v s' H (a & s1 & R1 & R)%bind_ret_inv. pose proof (away_argfd _ _ _ _ R1) as E1.
  destruct a as [[fd f]|]; [|injection R as <- <-; by apply (bk_away _ (away_argfd 0) s _ s1 H R1)].
  destruct (argfd_inv _ _ _ _ _ H R1) as (me & p & Hcur & Hp & Hx). clear R1.
  apply bind_ret_inv in R as (me' & s2 & R2 & R). pose proof (myproc_cur _ _ _ R2) as Hcur'.
  rewrite (el_cur _ _ E1), Hcur in Hcur'. injection Hcur' as <-. pose proof (away_myproc _ _ _ R2) as E2.
  assert (E : elsewhere s s2) by (by etrans). destruct E as [Ep Er Ec].
  apply bind_ret_inv in R as (u & s3 & [= _ <-] & R). apply bind_ret_inv in R as (u' & s4 & R4 & [= <- <-]).
  apply svc_inv in R4 as (k & R4 & ->). cbn in R4. rewrite Er in R4. destruct u'.
  set (ps := alter (fun p => Proc.set_ofile (<[Z.to_nat fd := 0]> (Proc.ofile p)) p) me (Proc.procs s)).
  assert (Ef : forall g, fd_uses ps g = fd_uses (Proc.procs s) g - one f g).
  { intros g. unfold ps. rewrite (fd_uses_set _ _ _ _ _ _ _ Hp Hx), is_ptr_zero, is_ptr_self. lia. }
  destruct (ac_kernel _ H) as [nm0 Hk0].
  destruct (kledger_move _ _ _ _ _ (cwd_uses (Proc.procs s)) (fd_uses ps) none (one f) _ _ Hk0) as [nm Hk].
  { done. }
  { intros g. rewrite Ef. unfold none. lia. }
  { intros j. split; [apply cwd_uses_nonneg|done]. }
  { intros g. split; [apply fd_uses_nonneg|unfold one; case_decide; lia]. }
  apply (fileclose_ledger _ _ _ _ _ _ _ _ _ _ Hk) in R4; [|unfold one; by rewrite decide_True].
  eapply (books_close s _ _ _ nm none); [exact R4|..]; cbn [Proc.procs Proc.with_rest Proc.with_procs Proc.cur].
  - intros j. by apply (kl_key _ _ _ _ _ _ _ _ Hk).
  - intros j. rewrite Ep, cwd_uses_ofile. unfold none. lia.
  - intros g. rewrite Ep. fold ps. lia.
  - rewrite Ep. apply proc_ok_set; [apply H|done].
  - rewrite Ec. intros i q Hi. apply (running_set s me _ _ H (f_equal _ Ep)); [|done]. done.
Qed.

(** A working directory is counted. *)
Lemma cwd_inv s c s1 :
  accounts s -> cwd s = Ret c s1 ->
  exists me p, Proc.cur s = Some me /\ Proc.procs s !! me = Some p /\ c = unptr (Proc.cwd p) /\ 0 < Proc.cwd p.
Proof.
  intros H (me & t1 & R1 & R3)%bind_ret_inv. apply bind_ret_inv in R3 as (p & t2 & R3 & [= <- <-]).
  destruct (me_inv _ _ _ _ _ R1 R3) as (_ & Hcur & Hp). exists me, p. split_and!; try done. by apply (ac_running _ H me).
Qed.

Lemma chdir_books : bookkeeping (sys_chdir rd).
Proof.
  intros s v s' H (me & s1 & R1 & R)%bind_ret_inv. pose proof (myproc_cur _ _ _ R1) as Hme.
  pose proof (away_myproc _ _ _ R1) as E1. apply (keeps_pre _ _ _ E1). rewrite <- (el_cur _ _ E1) in Hme.
  apply (elsewhere_books _ _ H) in E1. clear s H R1. apply bind_ret_inv in R as (u & s2 & R2 & R).
  destruct (quiet_step _ _ _ _ quiet_begin_op E1 R2) as (H2 & Ec2 & Hs2). rewrite <- Ec2 in Hme. apply Hs2. clear s1 E1 R2 Ec2 Hs2.
  apply bind_ret_inv in R as (a & s & R3 & R). pose proof (away_argstr _ _ _ _ R3) as E3. apply (keeps_pre _ _ _ E3).
  rewrite <- (el_cur _ _ E3) in Hme. apply (elsewhere_books _ _ H2) in E3. clear s2 H2 R3. rename E3 into H.
  destruct a as [path|].
  2:{ revert R. apply bk_quiet; [quiet|intros; apply bk_away; away|done]. }
  apply bind_ret_inv in R as (c & s1 & R1 & R). pose proof (away_cwd _ _ _ R1) as E1.
  destruct (cwd_inv _ _ _ H R1) as (me' & p & Hcur & Hp & -> & Hpos). rewrite Hme in Hcur. injection Hcur as <-. clear R1.
  destruct E1 as [Ep Er Ec]. apply bind_ret_inv in R as (r & s2 & R2 & R). apply svc_inv in R2 as (k & R2 & ->). rewrite Er in R2.
  set (old := unptr (Proc.cwd p)) in *. set (ps := alter (Proc.set_cwd 0) me (Proc.procs s)).
  assert (Eu : forall j, cwd_uses ps j = cwd_uses (Proc.procs s) j - one old j).
  { intros j. unfold ps. rewrite (cwd_uses_chdir _ _ _ _ _ Hp), is_ptr_zero, is_ptr_one by done. fold old. lia. }
  destruct (ac_kernel _ H) as [nm0 Hk0].
  destruct (kledger_move _ _ _ _ _ (cwd_uses ps) (fd_uses (Proc.procs s)) (one old) none _ _ Hk0) as [nm Hk].
  { intros j. rewrite Eu. unfold none. lia. }
  { done. }
  { intros j. split; [apply cwd_uses_nonneg|unfold one; case_decide; lia]. }
  { intros g. split; [apply fd_uses_nonneg|done]. }
  assert (Hk2 : kledger (cwd_uses ps) (fd_uses (Proc.procs s)) nm
    (match r with Some ip => fun j => one old j - one old j + one ip j | None => one old end) none none k).
  { apply (kledger_fs _ _ _ _ _ _ _ _ _ _ _ _ Hk R2). intros t Ht Rt.
    apply (chdir_ledger _ _ _ _ Hdrv _ _ _ _ _ _ _ Ht) in Rt; [by destruct r|unfold one; by rewrite decide_True]. }
  assert (Hn : forall j, 0 < file_uses (Proc.rest s) j -> key_at (fs (Proc.rest s)) j = Some (nm j)).
  { intros j. by apply (kl_key _ _ _ _ _ _ _ _ Hk). }
  destruct r as [ip|]; [apply bind_ret_inv in R as (u' & s3 & [= _ <-] & [= <- <-])|injection R as <- <-].
  - eapply (books_close s _ _ _ nm _ none); [exact Hk2|exact Hn|..]; cbn [Proc.procs Proc.with_rest Proc.with_procs Proc.cur].
    + intros j. rewrite Ep, (cwd_uses_chdir _ _ _ _ _ Hp), is_ptr_self, Eu, is_ptr_one by done. fold old. lia.
    + intros f. rewrite Ep, fd_uses_chdir. unfold none. lia.
    + rewrite Ep. apply Forall_alter; [apply H|]. intros q _ (? & ? & ?). split_and!; [done..|]. cbn. unfold ptr. lia.
    + rewrite Ec. intros i q Hi. apply (running_set s me _ (Proc.set_cwd (ptr ip)) H); [by rewrite Ep| |done].
      intros. cbn. unfold ptr. lia.
  - eapply (books_close s _ _ _ nm _ none); [exact Hk2|exact Hn|..]; cbn [Proc.procs Proc.with_rest Proc.cur].
    + intros j. rewrite Ep, Eu. lia.
    + intros f. rewrite Ep. unfold none. lia.
    + rewrite Ep. apply H.
    + rewrite Ec, Ep. apply (ac_running _ H).
Qed.

(** [open] fails after it has the inode: the inode is let go of. *)
Lemma open_fail_ledger ub fb nm w s ip v s' :
  kledger ub fb nm (one ip) (one ip) w (Proc.rest s) -> open_fail ip s = Ret v s' ->
  Proc.procs s' = Proc.procs s /\ Proc.cur s' = Proc.cur s /\ kledger ub fb nm none none w (Proc.rest s').
Proof.
  intros H (u & s1 & R1 & R)%bind_ret_inv. apply svc_inv in R1 as (k1 & R1 & ->). destruct u.
  apply bind_ret_inv in R as (u & s2 & R2 & [= _ <-]). apply svc_inv in R2 as (k2 & R2 & ->). cbn in R2. split_and!; [done..|].
  eapply kledger_ext; [refine (kledger_quiet _ _ _ _ _ _ _ _ _ _ quiet_end_op _ R2)|..].
  - apply (kledger_fs _ _ _ _ _ _ (fun j => one ip j - one ip j) (fun j => one ip j - one ip j) _ _ _ _ H R1).
    intros t Ht Rt. eapply iunlockput_ledger in Rt as [_ Rt]; [exact Rt|exact Ht|unfold one; by rewrite decide_True].
  - intros j. unfold none. lia.
  - intros j. unfold none. lia.
  - done.
Qed.

(** The file takes over the reference to its inode. *)
Lemma fupd_open ub fb nm w k f x ip g :
  kledger ub fb nm (one ip) none w k -> ftable k !! f = Some x -> ftyp x = FD_NONE -> 0 < fref x ->
  ftyp (g x) = FD_INODE -> fip (g x) = ip -> fref (g x) = fref x ->
  exists nm', kledger ub fb nm' none none w (with_ftable (alter g f (ftable k)) k) /\
    forall j, 0 < file_uses k j -> nm' j = nm j.
Proof.
  intros H Hx Hn Hp Ht Hi Hr. pose proof (kl_inodes _ _ _ _ _ _ _ H) as L.
  exists (fun j => default (0, 0) (key_at (fs k) j)). split.
  - eapply kledger_ext.
    + eapply (kledger_entry ub fb nm _ (one ip) none w 0 (-1) k _ f ip x g H); try done.
      * apply H.
      * intros j. unfold inode_use, one. rewrite Ht, Hi, Hn. repeat case_bool_decide; case_decide; naive_solver.
      * lia.
      * pose proof (kl_fown _ _ _ _ _ _ _ H f). lia.
      * unfold one. rewrite decide_True by done. lia.
      * rewrite Hr. lia.
      * intros j Hj. destruct (key_at (fs k) j) eqn:E; [done|]. unfold key_at in E. apply fmap_None in E.
        assert (Er : refs (fs k) j = 0) by (unfold refs; by rewrite E). rewrite (ld_refs _ _ _ _ _ L) in Er.
        pose proof (ld_base _ _ _ _ _ L j). unfold one in *. case_decide; lia.
    + intros j. cbn. unfold none. lia.
    + done.
    + intros i. cbn. lia.
  - intros j Hj. by rewrite (kl_key _ _ _ _ _ _ _ _ H Hj).
Qed.

Lemma open_books : bookkeeping (sys_open kend rd wr).
Proof.
  apply bk_before; [away|]. intros [path|]; [|apply bk_away; away]. apply bk_before; [away|].
  intros [om|]; [|apply bk_away; away]. apply bk_cwd. intros c s v s' H Hc R.
  destruct (ac_kernel _ H) as [nm Hk]. apply bind_ret_inv in R as (r & s1 & R1 & R).
  apply svc_inv in R1 as (k1 & R1 & ->).
  assert (H1 : kledger (cwd_uses (Proc.procs s)) (fd_uses (Proc.procs s)) nm
    (from_option one none r) (from_option one none r) none k1).
  { apply (kledger_fs _ _ _ _ _ _ _ _ _ _ _ _ Hk R1). intros t Ht Rt.
    apply (open_inode_ledger _ _ _ _ Hdrv _ _ _ _ _ _ _ _ Ht) in Rt.
    - destruct r as [ip|]; cbn in *; [|done]. eapply ledger_ext; [done|..]; intros j; unfold none; lia.
    - unfold none, inode_base, file_uses.
      pose proof (total_nonneg (inode_use c) (ftable (Proc.rest s)) (inode_use_nonneg c)). lia. }
  assert (Hn : forall j, 0 < file_uses (Proc.rest s) j -> key_at (fs (Proc.rest s)) j = Some (nm j)).
  { intros j. by apply (kl_key _ _ _ _ _ _ _ _ Hk). }
  assert (Eft : ftable k1 = ftable (Proc.rest s)) by (apply on_fs_inv in R1 as (? & _ & ->); done).
  clear Hk R1. destruct r as [ip|]; cbn [from_option] in H1.
  2:{ injection R as <- <-. by apply (books_same_procs s _ nm). }
  assert (Hfail : forall s2 v s', Proc.procs s2 = Proc.procs s -> Proc.cur s2 = Proc.cur s ->
    kledger (cwd_uses (Proc.procs s)) (fd_uses (Proc.procs s)) nm (one ip) (one ip) none (Proc.rest s2) ->
    open_fail ip s2 = Ret v s' -> keeps_books s s').
  { intros s2 v2 s2' Ep Ec Hk2 R2. destruct (open_fail_ledger _ _ _ _ _ _ _ _ Hk2 R2) as (Ep2 & Ec2 & Hk3).
    rewrite Ep in Ep2. rewrite Ec in Ec2. by apply (books_same_procs s _ nm). }
  apply bind_ret_inv in R as (r & s2 & R2 & R). apply svc_inv in R2 as (k2 & R2 & ->). cbn [Proc.rest Proc.with_rest] in R2.
  apply (filealloc_ledger _ _ _ _ _ _ _ _ _ H1) in R2. destruct r as [f|]; [|by apply Hfail in R].
  destruct R2 as [H2 (x & Hx & Hx1 & Hx2 & Et2)].
  apply bind_ret_inv in R as (fd & s3 & R3 & R).
  apply fdalloc_inv in R3 as [[-> [Ep Er Ec]]|(Hfd & me & p & Hcur & Hp & Hz & Ep & Er & Ec)].
  { apply bind_ret_inv in R as (u & s4 & R4 & R). destruct u. apply svc_inv in R4 as (k4 & R4 & ->). rewrite Er in R4.
    apply (fileclose_ledger _ _ _ _ _ _ _ _ _ _ H2) in R4; [|unfold one, none; by rewrite decide_True].
    apply Hfail in R; try done. cbn. eapply kledger_ext; [done|..]; intros; unfold none; lia. }
  rewrite (proj2 (Z.ltb_ge _ _) Hfd) in R.
  apply bind_ret_inv in R as (u & s4 & R4 & R). destruct u. apply svc_inv in R4 as (k4 & R4 & ->). rewrite Er in R4.
  cbn [Proc.rest Proc.with_rest] in R4. pose proof (iunlock_kledger _ _ _ _ _ _ _ _ _ H2 R4) as H4.
  assert (Et4 : ftable k4 = ftable k2) by (apply on_fs_inv in R4 as (? & _ & ->); done). clear R4.
  apply bind_ret_inv in R as (u & s5 & R5 & R). apply svc_inv in R5 as (k5 & R5 & ->). cbn [Proc.rest Proc.with_rest] in R5.
  pose proof (kledger_quiet _ _ _ _ _ _ _ _ _ _ quiet_end_op H4 R5) as H5.
  assert (Et5 : ftable k5 = ftable k2) by (apply on_fs_inv in R5 as (? & _ & ->); done). clear R5.
  pose (g := set_modes (Z.land om O_WRONLY =? 0) (negb (Z.land om O_WRONLY =? 0) || negb (Z.land om O_RDWR =? 0)) ∘
    (set_foff 0 ∘ (set_fip ip ∘ set_ftyp FD_INODE))).
  assert (E : Proc.procs s' = Proc.procs s3 /\ Proc.cur s' = Proc.cur s3 /\
    Proc.rest s' = with_ftable (alter g f (ftable k5)) k5).
  { injection R as <- <-. split_and!; [done..|]. unfold with_ftable. cbn. by rewrite !list_alter_alter_eq. }
  destruct E as (Ep' & Ec' & Er'). rewrite Ep in Ep'. rewrite Ec in Ec'. cbn [Proc.procs Proc.with_rest Proc.cur] in *.
  assert (Hx5 : ftable k5 !! f = Some (set_fref 1 x)) by (by rewrite Et5, Et2, list_lookup_alter_eq, Hx).
  destruct (fupd_open (cwd_uses (Proc.procs s)) (fd_uses (Proc.procs s)) nm (one f) k5 f (set_fref 1 x) ip g) as (nm' & H6 & Hnm); try done.
  { eapply kledger_ext; [exact H5|..]; intros; unfold none; lia. }
  eapply (books_close s _ _ _ nm' none (one f)); [rewrite Er'; exact H6|..]; rewrite ?Ep', ?Ec'.
  - intros j Hj. rewrite Hn by done. rewrite Hnm; [done|]. unfold file_uses in *. rewrite Et5, Et2, Eft.
    rewrite Eft in Hx. rewrite (sum_alter _ _ _ _ _ Hx). unfold inode_use at 2 3. cbn. lia.
  - intros j. rewrite cwd_uses_ofile. unfold none. lia.
  - intros i. rewrite (fd_uses_set _ _ _ _ _ _ _ Hp Hz), is_ptr_zero, is_ptr_self. lia.
  - apply proc_ok_set; [apply H|unfold ptr; lia].
  - intros i q Hi. by apply (running_set s me _ _ H eq_refl).
Qed.

(** Both ends of a pipe are given back. *)
Lemma pipe_fail ub fb nm f0 f1 s v s' :
  kledger ub fb nm none none (fun i => none i + one f0 i + one f1 i) (Proc.rest s) ->
  (svc (fileclose kend f0) ;;; svc (fileclose kend f1) ;;; ret (-1)) s = Ret v s' ->
  Proc.procs s' = Proc.procs s /\ Proc.cur s' = Proc.cur s /\ kledger ub fb nm none none none (Proc.rest s').
Proof.
  intros H (u & s1 & R1 & R)%bind_ret_inv. destruct u. apply svc_inv in R1 as (k1 & R1 & ->).
  apply bind_ret_inv in R as (u & s2 & R2 & [= _ <-]). destruct u. apply svc_inv in R2 as (k2 & R2 & ->). cbn in R2.
  apply (fileclose_ledger _ _ _ _ _ _ _ _ _ _ H) in R1;
    [|unfold one, none; repeat case_decide; try done; lia].
  apply (fileclose_ledger _ _ _ _ _ _ _ _ _ _ R1) in R2; [|unfold one, none; repeat case_decide; try done; lia].
  split_and!; [done..|]. eapply kledger_ext; [exact R2|..]; intros; unfold none; lia.
Qed.

Lemma pipe_books : bookkeeping (sys_pipe kend).
Proof.
  apply bk_before; [away|]. intros [addr|]; [|apply bk_away; away]. intros s v s' H R.
  destruct (ac_kernel _ H) as [nm Hk]. apply bind_ret_inv in R as (r & s1 & R1 & R). apply svc_inv in R1 as (k1 & R1 & ->).
  assert (Hn : forall j, 0 < file_uses (Proc.rest s) j -> key_at (fs (Proc.rest s)) j = Some (nm j)).
  { intros j. by apply (kl_key _ _ _ _ _ _ _ _ Hk). }
  apply (pipealloc_ledger _ _ _ _ _ _ _ _ _ _ Hk) in R1.
  assert (Hsame : forall s2, Proc.procs s2 = Proc.procs s -> Proc.cur s2 = Proc.cur s ->
    kledger (cwd_uses (Proc.procs s)) (fd_uses (Proc.procs s)) nm none none none (Proc.rest s2) -> keeps_books s s2).
  { intros s2 Ep Ec Hk2. by apply (books_same_procs s _ nm). }
  destruct r as [[f0 f1]|]; [|by injection R as <- <-; apply Hsame].
  apply bind_ret_inv in R as (fd0 & s2 & R2 & R). apply bind_ret_inv in R as (fd1 & s3 & R3 & R).
  apply fdalloc_inv in R2 as [[-> [Ep Er Ec]]|(Hfd & me & p & Hcur & Hp & Hz & Ep & Er & Ec)].
  { injection R3 as <- <-. cbn [Z.ltb Z.geb orb Z.compare] in R. apply bind_ret_inv in R as (u & s4 & [= _ <-] & R).
    eapply pipe_fail in R as (Ep' & Ec' & Hk'); [|rewrite Er; exact R1].
    apply Hsame; [by rewrite Ep', Ep|by rewrite Ec', Ec|done]. }
  cbn [Proc.procs Proc.rest Proc.cur Proc.with_rest] in *. rewrite (proj2 (Z.ltb_ge _ _) Hfd) in R, R3.
  apply fdalloc_inv in R3 as [[-> [Ep2 Er2 Ec2]]|(Hfd1 & me1 & p1 & Hcur1 & Hp1 & Hz1 & Ep1 & Er1 & Ec1)].
  - cbn [Z.ltb orb Z.compare] in R. rewrite Z.geb_leb, (proj2 (Z.leb_le _ _) Hfd) in R.
    apply bind_ret_inv in R as (u & s4 & R4 & R). apply bind_ret_inv in R4 as (me' & s5 & R5 & [= _ <-]).
    pose proof (myproc_cur _ _ _ R5) as Hcur'. rewrite Ec2, Ec, Hcur in Hcur'. injection Hcur' as <-.
    destruct (away_myproc _ _ _ R5) as [Ep5 Er5 Ec5].
    eapply pipe_fail in R as (Ep' & Ec' & Hk'); [|cbn [Proc.rest Proc.with_procs]; rewrite Er5, Er2, Er; exact R1].
    cbn [Proc.procs Proc.cur Proc.with_procs] in *. rewrite Ep5, Ep2, Ep, list_alter_alter_eq in Ep'. rewrite Ec5, Ec2, Ec in Ec'.
    apply Hsame; [|done|done]. rewrite Ep'. apply list_eq. intros i. destruct (decide (i = me)) as [->|].
    + rewrite list_lookup_alter_eq, Hp. cbn. f_equal. destruct p. unfold Proc.set_ofile. cbn in *. f_equal.
      rewrite list_insert_insert_eq. by apply list_insert_id.
    + by rewrite list_lookup_alter_ne.
  - rewrite (proj2 (Z.ltb_ge _ _) Hfd1) in R. cbn [orb] in R. injection R as <- <-.
    rewrite Ec, Hcur in Hcur1. injection Hcur1 as <-.
    eapply (books_close s _ _ _ nm none); [cbn [Proc.rest Proc.with_umem]; rewrite Er1, Er; exact R1|exact Hn|..];
      cbn [Proc.procs Proc.cur Proc.with_umem]; rewrite ?Ep1, ?Ec1, ?Ec.
    + intros j. rewrite cwd_uses_ofile, Ep, cwd_uses_ofile. unfold none. lia.
    + intros i. rewrite (fd_uses_set _ _ _ _ _ _ _ Hp1 Hz1), Ep, (fd_uses_set _ _ _ _ _ _ _ Hp Hz).
      rewrite is_ptr_zero, !is_ptr_self. unfold none. lia.
    + apply proc_ok_set; [|unfold ptr; lia]. rewrite Ep. apply proc_ok_set; [apply H|unfold ptr; lia].
    + intros i q Hi. rewrite Ep, list_alter_alter_eq. by apply (running_set s me _ _ H eq_refl).
Qed.

(** *** [exec] *)

(** What a process is to the books. *)
Definition holds (p : Proc.proc) : Z * list Z := (Proc.cwd p, Proc.ofile p).

Lemma holds_uses ps ps' : holds <$> ps' = holds <$> ps ->
  (forall j, cwd_uses ps' j = cwd_uses ps j) /\ (forall f, fd_uses ps' f = fd_uses ps f) /\
  (Forall proc_ok ps -> Forall proc_ok ps').
Proof.
  revert ps'. induction ps as [|p ps IH]; intros [|p' ps'] E; try done. cbn in E. injection E as E1 E2 E3.
  destruct (IH ps' E3) as (H1 & H2 & H3). unfold cwd_uses, fd_uses in *. cbn. split_and!.
  - intros j. by rewrite E1, H1.
  - intros f. by rewrite E2, H2.
  - intros [Hp Hps]%Forall_cons. apply Forall_cons. split; [|by apply H3]. unfold proc_ok. by rewrite E1, E2.
Qed.

(** Steps that leave the books alone. *)
Record tied (s s' : Proc.kst kern) : Prop := {
  ti_holds : holds <$> Proc.procs s' = holds <$> Proc.procs s;
  ti_rest : aside (Proc.rest s) (Proc.rest s'); ti_cur : Proc.cur s' = Proc.cur s }.
#[export] Instance tied_refl : Reflexive tied.
Proof. intros s. by split. Qed.
#[export] Instance tied_trans : Transitive tied.
Proof. intros a b c [] []. split; [congruence|by etrans|congruence]. Qed.

Definition calm {A} (m : M (Proc.kst kern) A) : Prop := forall s a s', m s = Ret a s' -> tied s s'.

Lemma calm_away {A} (m : M _ A) : away m -> calm m.
Proof. intros Hm s a s' R. destruct (Hm _ _ _ R) as [Ep Er Ec]. split; rewrite ?Ep, ?Er; done. Qed.
Lemma calm_bind {A B} (m : M _ A) (k : A -> M _ B) : calm m -> (forall a, calm (k a)) -> calm (bind m k).
Proof. intros Hm Hk s b s' (a & t & R1 & R2)%bind_ret_inv. etrans; [by eapply Hm|by eapply Hk]. Qed.
Lemma calm_loop {A B} n (body : A -> M _ (A + B)) a : (forall x, calm (body x)) -> calm (loop n body a).
Proof.
  intros Hb. revert a. induction n as [|n IH]; intros a; [done|]. cbn [loop]. apply calm_bind; [done|].
  intros [a'|b]; [apply IH|]. apply calm_away, away_ret.
Qed.
Lemma calm_vm {A} (m : M Vm.vm A) : calm (Exec.vm m).
Proof. intros s a s' (k & R & ->)%svc_inv. split; try done. by eapply on_mm_aside. Qed.
Lemma calm_onfs {A} (m : M fst A) : quiet m -> calm (onfs m).
Proof.
  intros Hm s a s' (k & R & ->)%svc_inv. apply on_fs_inv in R as (t & R & ->). split; try done. split; try done. by eapply Hm.
Qed.
Lemma calm_upd me f : (forall p, holds (f p) = holds p) -> calm (Proc.upd me f).
Proof.
  intros Hf s a s' [= _ <-]. split; try done. cbn [Proc.procs Proc.with_procs]. apply list_eq. intros i. rewrite !list_lookup_fmap.
  destruct (decide (i = me)) as [->|]; [|by rewrite list_lookup_alter_ne].
  rewrite list_lookup_alter_eq. destruct (Proc.procs s !! me); [cbn; by rewrite Hf|done].
Qed.
Lemma calm_modify f : (forall s, tied s (f s)) -> calm (modify f).
Proof. intros Hf s a s' [= _ <-]. apply Hf. Qed.
Lemma calm_panic {A} msg : calm (panic (A := A) msg).
Proof. done. Qed.

Create HintDb calm.
#[local] Hint Resolve calm_bind calm_loop calm_vm calm_onfs calm_panic : calm.
#[local] Hint Extern 1 (calm _) => solve [apply calm_away; away] : calm.
#[local] Hint Extern 2 (calm (Proc.upd _ _)) => apply calm_upd; intros; reflexivity : calm.
#[local] Hint Extern 2 (calm (modify _)) => apply calm_modify; intros; split; reflexivity : calm.
#[local] Hint Extern 1 (quiet _) => solve [quiet] : calm.
#[local] Hint Extern 4 (calm (match ?x with _ => _ end)) => destruct x : calm.
Ltac calm := intros; auto 40 with calm.

Lemma calm_segment pgdir ip n st : calm (Exec.segment kend rd pgdir ip n st).
Proof.
  unfold Exec.segment. destruct st as [[i off] sz]. destruct (i <? n); [|calm].
  apply calm_bind; [calm|]. intros [r ph]. destruct (negb _); [calm|]. destruct (negb _); [calm|].
  destruct (_ <? _); [calm|]. destruct (_ <? _); [calm|]. apply calm_bind; [calm|]. intros z.
  destruct (z =? 0); [calm|]. destruct (negb _); [calm|]. apply calm_bind; [|calm].
  unfold Vm.loaduvm, Vm.loaduvm_body, Exec.readi_to. calm.
Qed.

Lemma calm_push pgdir argv : forall argc sp, calm (Exec.push_args pgdir argc sp argv).
Proof.
  induction argv as [|a argv IH]; intros argc sp; cbn [Exec.push_args]; [calm|]. unfold Exec.copyout. calm.
Qed.

Lemma calm_stack pgdir sz argv : calm (Exec.build_stack pgdir sz argv).
Proof. unfold Exec.build_stack, Exec.copyout. apply calm_bind; [apply calm_push|]. calm. Qed.

Lemma calm_commit me path pgdir sz e sp : calm (Exec.commit_image kend me path pgdir sz e sp).
Proof.
  unfold Exec.commit_image, Proc.switchuvm, Cli.pushcli, Cli.popcli, Proc.mycpu.
  repeat (apply calm_bind; [calm|intros]); calm.
Qed.

(** A state reached from [s0] with the accounts [o] and [l] open. *)
Definition during nm (s0 : Proc.kst kern) (o l : nat -> Z) (t : Proc.kst kern) : Prop :=
  kledger (cwd_uses (Proc.procs s0)) (fd_uses (Proc.procs s0)) nm o l none (Proc.rest t) /\
  holds <$> Proc.procs t = holds <$> Proc.procs s0 /\ Proc.cur t = Proc.cur s0.

Lemma open_calm {A} nm s0 o l (m : M _ A) t a t' :
  calm m -> during nm s0 o l t -> m t = Ret a t' -> during nm s0 o l t'.
Proof.
  intros Hm (Hk & Hh & Hc) R. destruct (Hm _ _ _ R) as [Eh Er Ec]. split_and!; try congruence. by eapply aside_ledger.
Qed.

Lemma open_onfs {A} nm s0 o l o' l' (m : M fst A) t a t' :
  during nm s0 o l t -> onfs m t = Ret a t' ->
  (forall base u u', ledger base nm o l u -> m u = Ret a u' -> (forall j, cwd_uses (Proc.procs s0) j <= base j) -> ledger base nm o' l' u') ->
  during nm s0 o' l' t'.
Proof.
  intros (Hk & Hh & Hc) (k & R & ->)%svc_inv Hm. split_and!; try done. cbn.
  apply (kledger_fs _ _ _ _ _ _ _ _ _ _ _ _ Hk R). intros u Hu Ru. apply (Hm _ _ _ Hu Ru).
  intros j. unfold inode_base, file_uses.
  pose proof (total_nonneg (inode_use j) (ftable (Proc.rest t)) (inode_use_nonneg j)). lia.
Qed.

Lemma open_close nm s0 t :
  accounts s0 -> (forall j, 0 < file_uses (Proc.rest s0) j -> key_at (fs (Proc.rest s0)) j = Some (nm j)) ->
  during nm s0 none none t -> keeps_books s0 t.
Proof.
  intros H Hn (Hk & Hh & Hc). destruct (holds_uses _ _ Hh) as (E1 & E2 & E3).
  eapply (books_close s0 t _ _ nm none none); [exact Hk|exact Hn|..].
  - intros j. rewrite E1. unfold none. lia.
  - intros f. rewrite E2. unfold none. lia.
  - apply E3, H.
  - rewrite Hc. intros me p Hme Hp. apply (f_equal (fun l => l !! me)) in Hh. rewrite !list_lookup_fmap, Hp in Hh. cbn in Hh.
    destruct (Proc.procs s0 !! me) as [q|] eqn:Hq; [|done]. cbn in Hh. injection Hh as -> _. by apply (ac_running _ H me).
Qed.

Lemma bad_none nm s0 pgdir t v t' :
  during nm s0 none none t -> Exec.bad kend pgdir None t = Ret v t' -> during nm s0 none none t'.
Proof. intros H R. eapply open_calm; [|done..]. unfold Exec.bad. calm. Qed.

Lemma open_put nm s0 ip t u t' :
  during nm s0 (one ip) (one ip) t -> onfs (iunlockput (Some ip)) t = Ret u t' -> during nm s0 none none t'.
Proof.
  intros H R. apply (open_onfs _ _ _ _ _ _ _ _ _ _ H R). intros base w w' Hw Rw _. destruct u.
  eapply iunlockput_ledger in Rw as [_ Rw]; [|exact Hw|unfold one; by rewrite decide_True].
  eapply ledger_ext; [exact Rw|..]; intros j; unfold none; lia.
Qed.

Lemma bad_some nm s0 pgdir ip t v t' :
  during nm s0 (one ip) (one ip) t -> Exec.bad kend pgdir (Some ip) t = Ret v t' -> during nm s0 none none t'.
Proof.
  intros H (u & t1 & R1 & R)%bind_ret_inv. eapply open_calm in R1; [|calm|exact H].
  apply bind_ret_inv in R as (u2 & t2 & R2 & [= _ <-]). apply bind_ret_inv in R2 as (u3 & t3 & R3 & R4).
  apply (open_put _ _ _ _ _ _ R1) in R3. eapply open_calm; [|exact R3|exact R4]. calm.
Qed.

Lemma exec_books data path argv : bookkeeping (Exec.exec kend data rd path argv).
Proof.
  apply bk_before; [away|]. intros me. apply bk_quiet; [quiet|]. intros _. apply bk_cwd.
  intros c s v s' H Hc R. destruct (ac_kernel _ H) as [nm Hk0].
  assert (Hn : forall j, 0 < file_uses (Proc.rest s) j -> key_at (fs (Proc.rest s)) j = Some (nm j)).
  { intros j. by apply (kl_key _ _ _ _ _ _ _ _ Hk0). }
  assert (Hk : during nm s none none s) by done. apply (open_close nm _ _ H Hn). clear Hk0.
  apply bind_ret_inv in R as (r & s1 & R1 & R).
  eapply (open_onfs _ _ _ _ (from_option one none r) none) in R1; [|exact Hk|].
  2:{ intros base u u' Hu Ru Hb. specialize (Hb c). eapply (namei_ledger _ _ _ _ Hdrv) in Ru; [|exact Hu|unfold none; lia].
      destruct r as [ip|]; [|done]. eapply ledger_ext; [exact Ru|..]; intros j; cbn; unfold none; lia. }
  clear Hk. destruct r as [ip|]; cbn [from_option] in R1.
  2:{ apply bind_ret_inv in R as (u & s2 & R2 & R). eapply open_calm in R2; [|calm|exact R1].
      apply bind_ret_inv in R as (u2 & s3 & R3 & [= _ <-]). eapply open_calm; [|exact R2|exact R3].
      unfold Proc.cprintf. calm. }
  apply bind_ret_inv in R as (u & s2 & R2 & R).
  eapply (open_onfs _ _ _ _ (one ip) (one ip)) in R2; [|exact R1|].
  2:{ intros base w w' Hw Rw _. destruct u. eapply ilock_ledger in Rw as [_ Rw]; [|exact Hw].
      eapply ledger_ext; [exact Rw|..]; intros j; unfold none; lia. }
  apply bind_ret_inv in R as ([n elf] & s3 & R3 & R). eapply open_calm in R3; [|calm|exact R2].
  destruct (negb _); [by apply (bad_some _ _ _ _ _ _ _ R3) in R|].
  destruct (negb _); [by apply (bad_some _ _ _ _ _ _ _ R3) in R|].
  apply bind_ret_inv in R as (pgdir & s4 & R4 & R). eapply open_calm in R4; [|calm|exact R3].
  destruct (pgdir =? 0); [by apply (bad_some _ _ _ _ _ _ _ R4) in R|].
  apply bind_ret_inv in R as (q & s5 & R5 & R). eapply open_calm in R5; [|apply calm_loop; apply calm_segment|exact R4].
  destruct q as [sz|]; [|by apply (bad_some _ _ _ _ _ _ _ R5) in R].
  apply bind_ret_inv in R as (u6 & s6 & R6 & R). apply (open_put _ _ _ _ _ _ R5) in R6.
  apply bind_ret_inv in R as (u7 & s7 & R7 & R). eapply open_calm in R7; [|calm|exact R6]. cbv zeta in R.
  apply bind_ret_inv in R as (sz' & s8 & R8 & R). eapply open_calm in R8; [|calm|exact R7].
  destruct (sz' =? 0); [by apply (bad_none _ _ _ _ _ _ R8) in R|].
  apply bind_ret_inv in R as (u9 & s9 & R9 & R). eapply open_calm in R9; [|calm|exact R8].
  apply bind_ret_inv in R as (sp & s10 & R10 & R). eapply open_calm in R10; [|apply calm_stack|exact R9].
  destruct sp as [sp|]; [|by apply (bad_none _ _ _ _ _ _ R10) in R].
  eapply open_calm; [apply calm_commit|exact R10|exact R].
Qed.

Lemma away_fetch_args uargv n : forall i, away (fetch_args n uargv i).
Proof. induction n as [|n IH]; intros i; [done|]. cbn [fetch_args]. away. Qed.

Lemma sys_exec_books data : bookkeeping (sys_exec (Exec.exec kend data rd)).
Proof.
  apply bk_before; [away|]. intros [path|]; [|apply bk_away; away]. apply bk_before; [away|].
  intros [uargv|]; [|apply bk_away; away]. apply bk_before; [apply away_fetch_args|].
  intros [argv|]; [apply exec_books|apply bk_away; away].
Qed.

End Calls.

#[export] Hint Resolve read_books write_books fstat_books link_books unlink_books mkdir_books mknod_books
  dup_books close_books chdir_books open_books pipe_books sys_exec_books : books.

(** C3: Every file system call keeps the books.  If between calls each
    reference to an inode is an open file's or a working directory, each
    reference to an open file is a descriptor's, and no inode is locked, then
    the same holds when the call returns, by whatever path: nothing is leaked
    and nothing is given back twice.  A file that is open before and after the
    call is still a file of the same inode. *)
Theorem file_calls_keep_books kend data rd wr env num call s v s' :
  drivers_quiet rd wr -> accounts s -> Exec.file_call kend data rd wr env num = Some call -> call s = Ret v s' ->
  accounts s' /\
  forall j, 0 < file_uses (Proc.rest s) j -> 0 < file_uses (Proc.rest s') j ->
    key_at (fs (Proc.rest s')) j = key_at (fs (Proc.rest s)) j.
Proof.
  intros Hdrv H Hc R. assert (B : bookkeeping call).
  { unfold Exec.file_call in Hc. repeat case_match; simplify_eq; eauto with books. }
  destruct (B _ _ _ H R). done.
Qed.

(** ** A small kernel *)

Module BooksDemo.

Definition cold_cpu : Cli.cpu := {| Cli.ncli := 0; Cli.intena := false; Cli.intr := false |}.

(** One inode, of the directory that process 0 works in and has open as
    descriptor 0. *)
Definition root : inode :=
  {| idev := 1; inum := 1; iref := 2; ilocked := false; ivalid := true; type := T_DIR; major := 0;
     minor := 0; nlink := 1; isize := 0; addrs := replicate 13 0 |}.
Definition filesystem : fst :=
  {| lg := LogFacts.boot (fun _ => []) 60; sb := sb_of []; icache := [root]; icache_lk := false; console := [] |}.
Definition file0 : file :=
  {| ftyp := FD_INODE; fref := 1; readable := true; writable := false; fpipe := 0; fip := 0; foff := 0 |}.
Definition memory : Vm.vm := {|
  Vm.km := {| Kalloc.use_lock := false; Kalloc.freelist := 0; Kalloc.ram := fun _ => 0; Kalloc.klock := false;
              Kalloc.kcpu := cold_cpu |};
  Vm.kpgdir := 0; Vm.cr3 := 0; Vm.gdt := []; Vm.gdtr := None; Vm.console := [] |}.
Definition kernel : kern :=
  {| fs := filesystem; ftable := [file0]; ftable_lk := false; pipes := ∅; mm := memory |}.

Definition frame : Proc.trapframe :=
  {| Proc.tf_eax := 21; Proc.tf_eip := 0; Proc.tf_esp := 0; Proc.tf_eflags := 0; Proc.tf_cs := 0; Proc.tf_ds := 0;
     Proc.tf_es := 0; Proc.tf_ss := 0; Proc.tf_others := [] |}.
Definition process : Proc.proc :=
  {| Proc.sz := 4096; Proc.pgdir := 0; Proc.kstack := 0; Proc.state := Proc.RUNNING; Proc.pid := 1; Proc.parent := None;
     Proc.tfp := 0; Proc.tf := frame; Proc.ctxp := 0; Proc.ctx := Proc.forkret_context; Proc.chan := 0; Proc.killed := 0;
     Proc.ofile := 1 :: replicate 15 0; Proc.cwd := 1; Proc.name := []; Proc.tickets := 0; Proc.pass := 0 |}.
Definition demo : Proc.kst kern :=
  Proc.Kst [process] 2 None 0 0 0 0 0 cold_cpu [] (Some 0%nat) 0 0 0 0 (fun _ => 0) [] kernel.

Definition no_drivers {A B} (_ : Z) : option (nat -> A -> B) := None.
Lemma quiet_drivers : drivers_quiet no_drivers no_drivers.
Proof. by split. Qed.

Lemma one_use j : is_ptr j 1 = if decide (j = 0%nat) then 1 else 0.
Proof. unfold is_ptr, ptr. case_decide; case_match; bools; try done; lia. Qed.

Lemma demo_accounts : accounts demo.
Proof.
  split.
  - exists (fun _ => (1, 1)).
    assert (Ec : forall j, cwd_uses (Proc.procs demo) j = if decide (j = 0%nat) then 1 else 0).
    { intros j. unfold cwd_uses. cbn. rewrite one_use. lia. }
    assert (Ef : forall j, fd_uses (Proc.procs demo) j = if decide (j = 0%nat) then 1 else 0).
    { intros j. unfold fd_uses. cbn. rewrite one_use, is_ptr_zero. lia. }
    assert (Eu : forall j, inode_base (cwd_uses (Proc.procs demo)) kernel j = if decide (j = 0%nat) then 2 else 0).
    { intros j. unfold inode_base. rewrite Ec. unfold file_uses. cbn. unfold inode_use. cbn.
      case_decide; case_bool_decide; naive_solver lia. }
    assert (Er : forall j, refs filesystem j = if decide (j = 0%nat) then 2 else 0) by (by intros [|[|j]]).
    split; try done; unfold none.
    + split; unfold none; try done.
      * intros j. rewrite Eu, Er. lia.
      * by intros [|[|j]].
      * intros j. rewrite Eu. case_decide; lia.
      * intros j. rewrite Eu. case_decide; [by subst|lia].
      * intros i j k. rewrite !Er. repeat case_decide; lia.
    + intros f. rewrite Ef. by destruct f as [|[|f]].
    + intros j. rewrite Ec. case_decide; lia.
    + intros f. rewrite Ef. case_decide; lia.
    + intros [|f] x Hx Hr; [|done]. injection Hx as <-. by cbn in Hr.
  - apply Forall_singleton. split; [done|]. split; [|done]. cbn. repeat (apply Forall_cons; split; [lia|]). apply Forall_nil_2.
  - intros me p [= <-] [= <-]. done.
Qed.

Definition after (o : outcome (Proc.kst kern) Z) : Proc.kst kern := match o with Ret _ s => s | _ => demo end.

(** Descriptor 0 is closed: its file was the only user besides the process. *)
Lemma demo_close : sys_close 0 demo = Ret 0 (after (sys_close 0 demo)) /\ file_uses (Proc.rest (after (sys_close 0 demo))) 0 = 0.
Proof. by vm_compute. Qed.

End BooksDemo.

Lemma file_calls_keep_books_witness :
  accounts (BooksDemo.after (sys_close 0 BooksDemo.demo)) /\
  forall j, 0 < file_uses (Proc.rest BooksDemo.demo) j ->
    0 < file_uses (Proc.rest (BooksDemo.after (sys_close 0 BooksDemo.demo))) j ->
    key_at (fs (Proc.rest (BooksDemo.after (sys_close 0 BooksDemo.demo)))) j = key_at (fs (Proc.rest BooksDemo.demo)) j.
Proof.
  apply (file_calls_keep_books 0 0 BooksDemo.no_drivers BooksDemo.no_drivers [] 21 (sys_close 0) BooksDemo.demo 0).
  - apply BooksDemo.quiet_drivers.
  - apply BooksDemo.demo_accounts.
  - reflexivity.
  - apply BooksDemo.demo_close.
Defined.
